(* ===== verification/_CoqProject ===== *)
-Q . S2P
Prelude.v
Define.v
PageDesc.v
Buddy.v
BuddyRep.v
BuddyProof.v
BuddyTheorems.v
Time.v
CmosRtc.v
InfList.v
CommonsList.v
CommonsListProof.v
Sched.v
SchedProof.v
SchedTheorems.v
PageAllocator.v
PageAllocatorProof.v
PageAllocatorTheorems.v
FirstFit.v
Vma.v
VmaProof.v
VmaOps.v
VmaTheorems.v
Memory.v
RBMap.v
RBMapRep.v
RBMapProof.v
RBMapTheorems.v
CString.v
Printf.v
PrintfTheorems.v
CStringProof.v
KernelLog.v
TarFS.v
TarFSProof.v
InternalDriver.v
Vfs.v
VfsProof.v
Devices.v
Pfs.v
Kernel.v
FsTheorems.v
Objects.v
Syscall.v
BootRead.v
DescTables.v
DescTablesProof.v
Irq.v
IrqTheorems.v
Process.v
ProcessProof.v
UserMemory.v
Elf.v
ElfProof.v
ElfTheorems.v
Launch.v
ProcessTheorems.v
WaitProc.v
Mutex.v
Pointers.v
PointersTheorems.v
Ata.v
AtaTheorems.v
Pci.v
PciTheorems.v
Apic.v
ApicTheorems.v
LaunchTheorems.v
ThreadCalls.v
Keyboard.v
Console.v
ConsoleProof.v
DeskTheorems.v
BootPaging.v
BootPagingTheorems.v
Acpi.v
AcpiTheorems.v
UserLib.v
TicTacToe.v
Shell.v
