(* ===== verification/Prelude.v ===== *)
(** * InfOS and its coursework: verification library (root file)

    InfOS is a teaching kernel for x86-64 (src/infos) into which the modules of
    a coursework are linked (src/coursework): a buddy page allocator, schedulers,
    a tape archive file system, a clock driver.  This library models the kernel
    from the memory map at boot to the first user process and the programs of
    src/infos-user on top of it, and proves that the parts keep their promises to
    each other.

    ** The program and the files of the library

    Each file opens with what it holds.  A component is modelled in a file that
    has its definitions, with proofs in the files named ...Proof, ...Rep
    and ...Ops and the properties in ...Theorems (or at the end of the file).

    - Memory.  Define: addresses, windows, arithmetic helpers (define.h).
      PageDesc: page descriptors and the class [PageAllocatorAlgorithm], the
      interface of page-allocator.h between the page allocator and the
      algorithms, whose laws are [PageAllocatorAlgorithmLaws].  Buddy: the
      algorithm of coursework/buddy.cpp; BuddyRep has the free blocks as sets and
      relates lists of descriptors to them, BuddyProof and BuddyTheorems prove
      the operations.  PageAllocator: mm/page-allocator.cpp,
      mm/mm.cpp and the first-fit algorithm of mm/simple-page-alloc.cpp
      (FirstFit); start-up and self-test are proved against the interface only.  Vma: the page tables of
      mm/vma.cpp over words of physical memory; VmaProof, VmaOps, VmaTheorems
      give them a translation as specification.  Memory and UserMemory: the
      bytes a process sees.  BootPaging: the kernel's page tables (arch/x86/mm.cpp)
      against a model of the processor's walk.  Acpi: the tables of the firmware.
    - Threads.  InfList: util/list.h over a heap of nodes.  CommonsList: the ring
      list of coursework/sched-fifo.cpp.  Time: time points and the time of day
      of kernel.cpp.  CmosRtc: coursework/cmos-rtc.cpp.  Sched: kernel/sched.cpp,
      the states of threads, wake queues, IRQ locks, and FIFO, round robin and
      CFS as instances of [SchedulingAlgorithm] with [SchedulingAlgorithmLaws].
      Process: threads, kernel stacks, contexts and processes; WaitProc: waiting
      for a process against its end, the timer switching threads between any two
      statements; Mutex: util/lock.cpp, any threads that take and release a
      mutex.  Pointers: the reference-counted pointers of coursework/Core/Memory.h
      that the lists are built on, named by paths of any length.
    - Interrupts.  DescTables: arch/x86/dt.cpp with a decoder of descriptors as
      the processor reads them.  Irq: arch/x86/irq.cpp and kernel/irq.cpp.  Apic:
      the local and the I/O interrupt controller, the interval timer, the system
      timer and its interrupt, which drives the clock and the scheduler.
    - Files.  RBMap: util/map.h, a red-black tree over a heap of nodes, refining
      a finite map.  CString and Printf: util/string.cpp, cmdline.cpp, printf.cpp.
      TarFS: coursework/tarfs.cpp.  InternalDriver: fs/internal-driver.cpp.  Vfs:
      fs/vfs.cpp over the class of physical file systems whose instances are in
      Pfs (rootfs, devfs, tmpfs, vfat, both archives).  Devices: the device
      manager.  Kernel: mounting at boot.  Objects and Syscall: handles and the
      calls on files and directories.
    - Devices.  Keyboard, Console: from scancodes to the ring buffers of the
      terminals and from writes to the cells of the screen; DeskTheorems has what a
      user sees, two sheets of paper and two queues of characters.  Ata: the disks
      of drivers/ata behind the ports of the machine, and their partitions.  Pci:
      the walk over the PCI buses, which finds the controllers of the disks.
      KernelLog: the log of the kernel over any stream that types, and the early
      screen, the stream before there are consoles, as a window on a sheet.
    - Programs.  Elf: the loader; Launch: launch_process and the first thread
      of the kernel, which mounts the file systems and starts init.  ThreadCalls:
      the system calls that make, stop and join threads.
    - User programs.  UserLib: infos-user/lib; a program is an interaction tree
      over its system calls, and what it does at a console for the keys typed is
      a relation with rules for sequences and loops, executable with fuel; what
      exec answers, and how many keys a program takes while it is waited for, may
      depend on all that was done before.
      TicTacToe and Shell: the game, and the shell with init, cat, ls, date and a
      scheduler test, against machines that move at every key.

    The parts meet in properties across files: LaunchTheorems goes from the
    archive on the boot device to a runnable init process whose memory is the
    image; BootRead from the archive to the bytes a program reads; the page
    allocator, address spaces, threads and the loader are proved over any
    algorithm with the laws, and the buddy allocator discharges them.

    ** How the code is represented

    State is passed explicitly, as records with the fields of the classes.  A
    pointer is an address in a heap ([gmap Z _]) or an option for one that may
    be NULL, so that aliasing, leaks and stale pointers show.  Integers are [Z]
    with the wrap-around of their width written out.  An operation returns an
    [outcome]: [Ok], or a [Fault] that says why the machine stops (a failed
    assertion, a NULL or deleted pointer, a read outside an array, an abort, a
    wrong cast, an undefined shift).  Where the code can be interrupted,
    interleaving is a step relation: in Mutex between any two statements of any
    threads; in WaitProc between the statements of two threads that run with
    interrupts on, those of set_entity_state one by one, while one operation on
    a list, or on a run queue under its lock, is one step.

    A loop that is not structural has fuel, always an expression over its
    arguments (the number of nodes, the distance to an end, the size of an
    array) that the theorems show to be enough: a result [Ok] contains that the
    loop ended.  Loops that do not end in the code (String::split on an empty
    part, an empty ACPI record) are shown to exhaust any fuel.

    ** The theorems

    Invariants: the free lists and descriptors of the allocators, the run queue
    as the set of runnable threads, the page tables, the search tree.
    Functional properties: each operation on every branch, faults included.
    Refinements: tree to finite map, lists to sequences, file system caches to
    a name space, consoles to paper, the
    shell and the game to machines of keys.  Round trips: allocate and free, the
    tables of the firmware, the clock.  Liveness: time shared equally under
    the timer interrupt, a sleeper of a process woken by its end.  Safety: one thread inside a
    mutex, pointers to live objects only.  What the code does and a reader would not expect is
    proved too, as lemmas beside the component (a negative number prints its
    sign last, and padding is cut short; two lost wake-ups, and a timer interrupt
    that meets a failing assertion; a read past the end of a file; a list node
    unlinked through its own pointer; a mapping dump that names wrong pages; a
    game that is never drawn; the shell's seventeenth command).

    ** Assumptions

    Hardware and the boot loader are parameters: block devices, the ports of
    the clock and of the disks, the registers of the interrupt controllers, the
    contents of physical memory, and uninitialised memory; what a theorem relies
    on is a class with laws (an ATA channel, an I/O controller, a PCI
    configuration space, a console and launched programs for the user programs) or a hypothesis.
    Processor behaviour (reading descriptors, walking page tables) is defined
    in the specifications as its manual documents it.  The registers of the
    clock do not change while they are read, and of the interrupts only the
    timer's is interleaved with a thread.  The counts of
    the coursework's shared pointers are modelled by themselves (Pointers), not
    in the lists.

    ** Not modelled

    mm/dlmalloc.cpp is third-party code, and the kernel heap only calls it; new
    and delete are allocation in the heaps of the models.  Core/PriorityQueue.h
    and the other headers of the coursework's template library are not used by
    the kernel; the copies of its lists in the schedulers are (CommonsList).
    util/ratio.h is the compile-time rational arithmetic of the standard
    library.  Assembly (entry and exit of interrupts, context
    switch, start of the processor) is outside the language modelled.  The
    second scheduler test of the user programs shares a flag between threads that
    the trees of single programs do not have. *)
From Stdlib Require Export ZArith Lia Sorting.Sorted.
From stdpp Require Export base option list gmap strings.

#[global] Open Scope Z_scope.
#[export] Set Warnings "-clear-no-such-hyp".

(** ** Machine integers

    A w-bit unsigned value is a [Z] in [0, 2^w); arithmetic results are
    reduced by [wrap w].  A signed value is a [Z] in [-2^(w-1), 2^(w-1)),
    and a conversion to a signed type is [swrap w]. *)
Definition wrap (w z : Z) : Z := z mod 2 ^ w.
Definition swrap (w z : Z) : Z := (z + 2 ^ (w - 1)) mod 2 ^ w - 2 ^ (w - 1).

Abbreviation u8 := (wrap 8).
Abbreviation u16 := (wrap 16).
Abbreviation u32 := (wrap 32).
Abbreviation u64 := (wrap 64).
Abbreviation i8 := (swrap 8).
Abbreviation i32 := (swrap 32).
Abbreviation i64 := (swrap 64).

Lemma wrap_small w z : 0 <= z < 2 ^ w -> wrap w z = z.
Proof. apply Z.mod_small. Qed.

Lemma wrap_range w z : 0 <= w -> 0 <= wrap w z < 2 ^ w.
Proof. intros. apply Z.mod_pos_bound. lia. Qed.

Lemma wrap_idem w z : 0 <= w -> wrap w (wrap w z) = wrap w z.
Proof. intros. apply wrap_small, wrap_range; lia. Qed.

Lemma swrap_small w z :
  0 < w -> - 2 ^ (w - 1) <= z < 2 ^ (w - 1) -> swrap w z = z.
Proof.
  intros Hw Hz. unfold swrap.
  assert (2 ^ w = 2 * 2 ^ (w - 1)) as E.
  { replace w with (1 + (w - 1)) at 1 by lia. rewrite Z.pow_add_r; lia. }
  rewrite Z.mod_small; lia.
Qed.

Lemma wrap_land w z : 0 <= w -> wrap w z = Z.land z (Z.ones w).
Proof. intros. unfold wrap. by rewrite Z.land_ones by lia. Qed.

(** [wraps] drops the reductions whose argument is in range already. *)
Ltac wraps :=
  repeat match goal with |- context [wrap ?w ?z] => rewrite (wrap_small w z) by lia end.

(** [compare] evaluates the comparisons of the goal that the context decides. *)
Lemma ltb_true x y : x < y -> (x <? y) = true.
Proof. apply Z.ltb_lt. Qed.

Lemma ltb_false x y : y <= x -> (x <? y) = false.
Proof. apply Z.ltb_ge. Qed.

Lemma leb_true x y : x <= y -> (x <=? y) = true.
Proof. apply Z.leb_le. Qed.

Lemma leb_false x y : y < x -> (x <=? y) = false.
Proof. apply Z.leb_gt. Qed.

Lemma eqb_true x y : x = y -> (x =? y) = true.
Proof. apply Z.eqb_eq. Qed.

Lemma eqb_false x y : x <> y -> (x =? y) = false.
Proof. apply Z.eqb_neq. Qed.

Ltac compare :=
  repeat match goal with
  | |- context [?x <? ?y] => first [rewrite (ltb_true x y) by lia | rewrite (ltb_false x y) by lia]
  | |- context [?x <=? ?y] => first [rewrite (leb_true x y) by lia | rewrite (leb_false x y) by lia]
  | |- context [?x =? ?y] => first [rewrite (eqb_true x y) by lia | rewrite (eqb_false x y) by lia]
  end.

(** [lens] computes the lengths of built-up lists; [len] also closes the goal. *)
Create HintDb lens.
#[export] Hint Rewrite @length_app @length_take @length_drop @length_insert @length_replicate
  @length_fmap @length_seq @length_cons @length_nil : lens.
Ltac lens := autorewrite with lens.
Ltac len := lens; cbn [length]; lia.

(** ** Faults

    A kernel operation either returns or stops the machine.  [Fault]
    records why it stopped: a failed [assert], a null pointer that is
    followed, an access outside an array, [arch_abort], a call on an object
    that is of another class than the pointer was cast to, a shift by no less
    than the width of its operand, or (for a loop that
    is given as a function with fuel) the fuel running out, which every
    termination theorem of the development excludes. *)
Inductive fault :=
  | AssertionFailure
  | NullDereference
  | OutOfBounds
  | Aborted
  | BadCast
  | UndefinedShift
  | OutOfFuel.

Inductive outcome (A : Type) :=
  | Ok (a : A)
  | Fault (f : fault).
Arguments Ok {A} a.
Arguments Fault {A} f.

#[global] Instance fault_eq_dec : EqDecision fault.
Proof. solve_decision. Defined.
#[global] Instance outcome_eq_dec {A} `{EqDecision A} : EqDecision (outcome A).
Proof. solve_decision. Defined.

#[global] Instance outcome_ret : MRet outcome := fun A a => Ok a.
#[global] Instance outcome_bind : MBind outcome := fun A B k m =>
  match m with Ok a => k a | Fault f => Fault f end.
#[global] Instance outcome_fmap : FMap outcome := fun A B f m =>
  match m with Ok a => Ok (f a) | Fault e => Fault e end.

(** [assert(e)] of [infos/assert.h]. *)
Definition assert_ (b : bool) : outcome unit :=
  if b then Ok tt else Fault AssertionFailure.

(** Following a pointer that may be NULL. *)
Definition deref {A} (p : option A) : outcome A :=
  match p with Some a => Ok a | None => Fault NullDereference end.

(** Reading a location that may lie outside its array. *)
Definition in_bounds {A} (p : option A) : outcome A :=
  match p with Some a => Ok a | None => Fault OutOfBounds end.

Lemma bind_Ok_inv {A B} (m : outcome A) (k : A -> outcome B) b :
  mbind k m = Ok b -> exists a, m = Ok a /\ k a = Ok b.
Proof. destruct m; [eauto|discriminate]. Qed.

Lemma bind_Ok {A B} (m : outcome A) (k : A -> outcome B) a :
  m = Ok a -> mbind k m = k a.
Proof. by intros ->. Qed.

(** [step_to H] rewrites the next call of a goal [mbind k m = _] with the
    equation [H : m = Ok _] and reduces the bind. *)
Ltac step_to H := rewrite (bind_Ok _ _ _ H); cbn beta iota.

(** ** Lists *)
Lemma StronglySorted_app_inv {A} (R : A -> A -> Prop) l1 l2 :
  StronglySorted R (l1 ++ l2) ->
  StronglySorted R l1 /\ StronglySorted R l2 /\
  (forall x y, x ∈ l1 -> y ∈ l2 -> R x y).
Proof.
  induction l1 as [|a l1 IH]; simpl; intros H.
  - split; [constructor|]. split; [done|]. intros x y Hx. by apply elem_of_nil in Hx.
  - apply StronglySorted_inv in H as [H HF].
    destruct (IH H) as (H1 & H2 & H3).
    rewrite Forall_forall in HF.
    split; [|split; [done|]].
    + constructor; [done|]. apply Forall_forall. intros x Hx. apply HF. set_solver.
    + intros x y [->|Hx]%elem_of_cons Hy; [apply HF; set_solver|auto].
Qed.

Lemma StronglySorted_app {A} (R : A -> A -> Prop) l1 l2 :
  StronglySorted R l1 -> StronglySorted R l2 ->
  (forall x y, x ∈ l1 -> y ∈ l2 -> R x y) -> StronglySorted R (l1 ++ l2).
Proof.
  induction 1 as [|a l1 HS IH HF]; simpl; [done|]. intros H2 H.
  constructor.
  - apply IH; [done|]. set_solver.
  - rewrite Forall_forall in *. intros x [Hx|Hx]%elem_of_app; [auto|]. apply H; set_solver.
Qed.

Lemma StronglySorted_lt_NoDup (l : list Z) : StronglySorted Z.lt l -> NoDup l.
Proof.
  induction 1 as [|a l HS IH HF]; constructor; [|done].
  intros Ha. rewrite Forall_forall in HF. specialize (HF _ Ha). lia.
Qed.

(** Two strictly ascending lists with the same members are equal. *)
Lemma StronglySorted_lt_ext (l1 l2 : list Z) :
  StronglySorted Z.lt l1 -> StronglySorted Z.lt l2 ->
  (forall x, x ∈ l1 <-> x ∈ l2) -> l1 = l2.
Proof.
  intros H1. revert l2. induction H1 as [|a l1 HS IH HF]; intros l2 H2 Hx.
  - destruct l2 as [|b l2]; [done|]. destruct (Hx b) as [_ Hb]. set_solver.
  - destruct H2 as [|b l2 HS2 HF2]; [destruct (Hx a); set_solver|].
    rewrite Forall_forall in HF, HF2.
    assert (a = b) as ->.
    { destruct (Hx a) as [Ha _]. destruct (Hx b) as [_ Hb].
      specialize (Ha ltac:(set_solver)). specialize (Hb ltac:(set_solver)).
      apply elem_of_cons in Ha as [->|Ha]; [done|].
      apply elem_of_cons in Hb as [->|Hb]; [done|].
      specialize (HF _ Hb). specialize (HF2 _ Ha). lia. }
    f_equal. apply IH; [done|]. intros x.
    destruct (Hx x) as [Ha Hb]. split; intros Hin.
    + specialize (HF _ Hin). specialize (Ha ltac:(set_solver)).
      apply elem_of_cons in Ha as [->|Ha]; [lia|done].
    + specialize (HF2 _ Hin). specialize (Hb ltac:(set_solver)).
      apply elem_of_cons in Hb as [->|Hb]; [lia|done].
Qed.

Lemma list_filter_all {A} (P : A -> Prop) `{!forall x, Decision (P x)} (l : list A) :
  (forall x, x ∈ l -> P x) -> filter P l = l.
Proof.
  induction l as [|a l IH]; intros Hl; [done|].
  rewrite filter_cons_True by (apply Hl; left). f_equal. apply IH. intros x Hx. apply Hl. by right.
Qed.
