(* ===== verification/Define.v ===== *)
(** * infos/define.h: addresses, page numbers and the arithmetic helpers

    The kernel-virtual and physical-map windows, page/frame conversions and
    the small macros every other component uses.  Addresses are 64-bit values,
    so each addition wraps. *)
From S2P Require Import Prelude.

Definition __page_bits : Z := 12.
Definition __page_size : Z := Z.shiftl 1 __page_bits.
(** [__page_size - 1] is an [int], sign-extended by the [&]: the mask is 0xfff. *)
Definition __page_offset (addr : Z) : Z := Z.land addr (__page_size - 1).
Definition __page_base (addr : Z) : Z := Z.land addr (u64 (Z.lnot (__page_size - 1))).
Definition __page_index (addr : Z) : Z := Z.shiftr addr __page_bits.

Definition KB (v : Z) : Z := Z.shiftr v 10.
Definition MB (v : Z) : Z := Z.shiftr (KB v) 10.

Definition KERNEL_VMEM_START : Z := 0xFFFFFFFF80000000.
Definition KERNEL_VMEM_END : Z := 0xFFFFFFFFFFFFFFFF.
Definition KERNEL_VMEM_SIZE : Z := u64 (KERNEL_VMEM_END - KERNEL_VMEM_START + 1).
Definition PMEM_VA_START : Z := 0xFFFF800000000000.
Definition PMEM_VA_END : Z := 0xFFFF800100000000.
Definition PMEM_VA_SIZE : Z := PMEM_VA_END - PMEM_VA_START.

Definition pa_to_kva (pa : Z) : outcome Z :=
  _ ← assert_ (pa <? KERNEL_VMEM_SIZE);
  Ok (u64 (KERNEL_VMEM_START + pa)).

Definition kva_to_pa (va : Z) : outcome Z :=
  _ ← assert_ ((KERNEL_VMEM_START <=? va) && (va <=? KERNEL_VMEM_END));
  Ok (u64 (va - KERNEL_VMEM_START)).

Definition pa_to_vpa (pa : Z) : outcome Z :=
  _ ← assert_ (pa <? PMEM_VA_SIZE);
  Ok (u64 (PMEM_VA_START + pa)).

Definition vpa_to_pa (va : Z) : outcome Z :=
  _ ← assert_ ((PMEM_VA_START <=? va) && (va <? PMEM_VA_END));
  Ok (u64 (va - PMEM_VA_START)).

Definition pa_to_pfn (pa : Z) : Z := Z.shiftr pa __page_bits.
Definition pfn_to_pa (pfn : Z) : Z := u64 (Z.shiftl pfn __page_bits).

Definition __align_up (value alignment : Z) : Z :=
  u64 (value + (if value mod alignment =? 0 then 0
                else alignment - value mod alignment)).
Definition __align_up_page (value : Z) : Z := __align_up value __page_size.

(** [63 - __builtin_clzll(x)] is the position of the highest set bit. *)
Definition __log2ceil (x : Z) : Z :=
  if x =? 0 then 0
  else Z.log2 x + (if Z.land x (x - 1) =? 0 then 0 else 1).

Definition __min (x y : Z) : Z := if x <? y then x else y.
Definition __max (x y : Z) : Z := if x <? y then y else x.

Lemma pow2_64 : 2 ^ 64 = 18446744073709551616.
Proof. reflexivity. Qed.

Lemma pa_to_vpa_Ok pa :
  0 <= pa < PMEM_VA_SIZE -> pa_to_vpa pa = Ok (PMEM_VA_START + pa).
Proof.
  intros [H0 H1]. unfold pa_to_vpa.
  rewrite (proj2 (Z.ltb_lt _ _) H1). cbn.
  rewrite wrap_small; [done|].
  unfold PMEM_VA_SIZE, PMEM_VA_START, PMEM_VA_END in *.
  change (2 ^ 64) with 18446744073709551616. lia.
Qed.

Lemma vpa_to_pa_Ok pa :
  0 <= pa < PMEM_VA_SIZE -> vpa_to_pa (PMEM_VA_START + pa) = Ok pa.
Proof.
  intros [H0 H1]. unfold vpa_to_pa, PMEM_VA_SIZE in *.
  rewrite (proj2 (Z.leb_le _ _)) by lia.
  rewrite (proj2 (Z.ltb_lt _ _)) by lia. cbn.
  f_equal. replace (PMEM_VA_START + pa - PMEM_VA_START) with pa by lia.
  apply wrap_small. unfold PMEM_VA_END, PMEM_VA_START in *.
  change (2 ^ 64) with 18446744073709551616. lia.
Qed.

Lemma pfn_pa_pfn pfn : 0 <= pfn < 2 ^ 52 -> pa_to_pfn (pfn_to_pa pfn) = pfn.
Proof.
  intros H. unfold pa_to_pfn, pfn_to_pa, __page_bits.
  rewrite Z.shiftl_mul_pow2 by lia.
  rewrite wrap_small.
  - rewrite Z.shiftr_div_pow2 by lia. apply Z.div_mul. lia.
  - change (2 ^ 64) with (2 ^ 52 * 2 ^ 12). nia.
Qed.

Lemma bits_above_64 addr i : 0 <= addr < 2 ^ 64 -> 64 <= i -> Z.testbit addr i = false.
Proof.
  intros H Hi. destruct (decide (addr = 0)) as [->|]; [apply Z.bits_0|].
  apply Z.bits_above_log2; [lia|].
  assert (Z.log2 addr < 64) by (apply Z.log2_lt_pow2; lia). lia.
Qed.

Lemma __page_base_eq addr :
  0 <= addr < 2 ^ 64 -> __page_base addr = addr / __page_size * __page_size.
Proof.
  intros H. unfold __page_base.
  change (u64 (Z.lnot (__page_size - 1))) with (Z.ldiff (Z.ones 64) (Z.ones 12)).
  change __page_size with (2 ^ 12).
  rewrite <- Z.shiftr_div_pow2, <- Z.shiftl_mul_pow2 by lia.
  rewrite <- Z.ldiff_ones_r by lia.
  apply Z.bits_inj'. intros i Hi.
  rewrite Z.land_spec, !Z.ldiff_spec.
  destruct (Z.ltb_spec i 64).
  - by rewrite (Z.ones_spec_low 64) by lia.
  - by rewrite bits_above_64 by lia.
Qed.

Lemma __page_offset_eq addr : __page_offset addr = addr mod __page_size.
Proof.
  unfold __page_offset. change (__page_size - 1) with (Z.ones 12).
  rewrite Z.land_ones by lia. done.
Qed.

Lemma page_base_offset addr :
  0 <= addr < 2 ^ 64 -> __page_base addr + __page_offset addr = addr.
Proof.
  intros H. rewrite __page_base_eq, __page_offset_eq by done.
  pose proof (Z.div_mod addr __page_size ltac:(done)). lia.
Qed.

Lemma __align_up_spec v a :
  0 < a -> 0 <= v -> v + a < 2 ^ 64 ->
  v <= __align_up v a < v + a /\ (a | __align_up v a).
Proof.
  intros Ha Hv Hb. unfold __align_up.
  pose proof (Z.mod_pos_bound v a Ha).
  pose proof (Z.div_mod v a ltac:(lia)) as Hd.
  destruct (Z.eqb_spec (v mod a) 0) as [E|E].
  - rewrite wrap_small by lia. split; [lia|].
    exists (v / a). lia.
  - rewrite wrap_small by lia. split; [lia|].
    exists (v / a + 1). lia.
Qed.

Lemma land_pred_pow2 k : 0 <= k -> Z.land (2 ^ k) (2 ^ k - 1) = 0.
Proof.
  intros Hk. replace (2 ^ k - 1) with (Z.ones k) by (rewrite Z.ones_equiv; lia).
  rewrite Z.land_ones by lia. apply Z.mod_same. apply Z.pow_nonzero; lia.
Qed.

(** A value whose low bit pattern clears under [x & (x-1)] is a power of two. *)
Lemma land_pred_0_pow2 x : 0 < x -> Z.land x (x - 1) = 0 -> x = 2 ^ Z.log2 x.
Proof.
  intros Hx H0. pose proof (Z.log2_spec x Hx) as [Hl Hu].
  destruct (decide (x = 2 ^ Z.log2 x)) as [|Hne]; [done|]. exfalso.
  assert (Z.log2 (x - 1) = Z.log2 x) as Hlog.
  { apply Z.log2_unique; [apply Z.log2_nonneg|]. lia. }
  assert (Z.testbit (Z.land x (x - 1)) (Z.log2 x) = true) as Hb.
  { rewrite Z.land_spec, Z.bit_log2 by done.
    rewrite <- Hlog, Z.bit_log2; [done|].
    assert (0 < 2 ^ Z.log2 x) by (apply Z.pow_pos_nonneg; [lia|apply Z.log2_nonneg]). lia. }
  rewrite H0, Z.bits_0 in Hb. done.
Qed.

(** [__log2ceil] is the least order whose block holds [x] pages. *)
Lemma __log2ceil_spec x :
  0 < x -> 0 <= __log2ceil x /\ x <= 2 ^ __log2ceil x /\
           (forall k, 0 <= k -> x <= 2 ^ k -> __log2ceil x <= k).
Proof.
  intros Hx. unfold __log2ceil.
  destruct (Z.eqb_spec x 0) as [|_]; [lia|].
  pose proof (Z.log2_nonneg x) as Hn.
  pose proof (Z.log2_spec x Hx) as [Hl Hu].
  destruct (Z.eqb_spec (Z.land x (x - 1)) 0) as [E|E].
  - rewrite Z.add_0_r. pose proof (land_pred_0_pow2 x Hx E) as Heq.
    split; [done|]. split; [lia|]. intros k Hk Hxk.
    rewrite <- (Z.log2_pow2 k) by done. apply Z.log2_le_mono; lia.
  - split; [lia|]. replace (Z.log2 x + 1) with (Z.succ (Z.log2 x)) by lia.
    split; [lia|]. intros k Hk Hxk.
    destruct (decide (x = 2 ^ Z.log2 x)) as [Heq|Hne].
    { exfalso. apply E. rewrite Heq. by apply land_pred_pow2. }
    apply Z.le_succ_l. apply (Z.pow_lt_mono_r_iff 2); lia.
Qed.
