(* ===== verification/PageDesc.v ===== *)
(** * infos/mm/page-allocator.h: page descriptors and the algorithm interface

    The page descriptor array is shared by the page allocator and by the
    allocation algorithm that is plugged into it.  A [PageDescriptor*] into
    the array is modelled by its index; [pgd_addr] gives the address the
    pointer holds, and the frame-number conversions are computed on it. *)
From S2P Require Import Prelude Define.

Inductive PageDescriptorType := INVALID | RESERVED | AVAILABLE | ALLOCATED.

#[global] Instance PageDescriptorType_eq_dec : EqDecision PageDescriptorType.
Proof. solve_decision. Defined.

Record PageDescriptor := {
  next_free : option Z;
  type : PageDescriptorType
}.

(** [struct PageDescriptor { ... } __aligned(16)]. *)
Definition sizeof_PageDescriptor : Z := 16.

(** The part of [PageAllocator] the algorithms see: the number of pages, the
    address of the descriptor array, and its cells. *)
Record PageDescriptors := {
  _nr_pages : Z;
  _page_descriptors : Z;
  cells : gmap Z PageDescriptor
}.

Definition set_cells (pds : PageDescriptors) (m : gmap Z PageDescriptor) : PageDescriptors :=
  {| _nr_pages := _nr_pages pds; _page_descriptors := _page_descriptors pds; cells := m |}.

Definition pgd_addr (pds : PageDescriptors) (pgd : Z) : Z :=
  _page_descriptors pds + sizeof_PageDescriptor * pgd.

Definition pgd_to_pfn (pds : PageDescriptors) (pgd : Z) : Z :=
  u64 (pgd_addr pds pgd - _page_descriptors pds) / sizeof_PageDescriptor.

Definition pfn_to_pgd (pds : PageDescriptors) (pfn : Z) : option Z :=
  if _nr_pages pds <? pfn then None else Some pfn.

Definition pgd_to_pa (pds : PageDescriptors) (pgd : Z) : Z := pfn_to_pa (pgd_to_pfn pds pgd).
Definition pgd_to_vpa (pds : PageDescriptors) (pgd : Z) : outcome Z := pa_to_vpa (pgd_to_pa pds pgd).
Definition pgd_to_kva (pds : PageDescriptors) (pgd : Z) : outcome Z := pa_to_kva (pgd_to_pa pds pgd).

Definition vpa_to_pgd (pds : PageDescriptors) (addr : Z) : outcome (option Z) :=
  pa ← vpa_to_pa addr;
  Ok (pfn_to_pgd pds (pa_to_pfn pa)).

(** Reading and writing the fields of a descriptor. *)
Definition load (pds : PageDescriptors) (pgd : Z) : outcome PageDescriptor :=
  in_bounds (cells pds !! pgd).

Definition store_next (pds : PageDescriptors) (pgd : Z) (v : option Z) : outcome PageDescriptors :=
  d ← load pds pgd;
  Ok (set_cells pds (<[pgd := {| next_free := v; type := type d |}]> (cells pds))).

Definition store_type (pds : PageDescriptors) (pgd : Z) (t : PageDescriptorType)
  : outcome PageDescriptors :=
  d ← load pds pgd;
  Ok (set_cells pds (<[pgd := {| next_free := next_free d; type := t |}]> (cells pds))).

(** The virtual functions of [PageAllocatorAlgorithm] that act on the state.
    [A] is the algorithm's own state, which changes along with the
    descriptor array. *)
Class PageAllocatorAlgorithm (A : Type) := {
  alg_init : A -> PageDescriptors -> outcome (bool * A * PageDescriptors);
  alg_reserve_page : A -> PageDescriptors -> Z -> outcome (bool * A * PageDescriptors);
  alg_alloc_pages : A -> PageDescriptors -> Z -> outcome (option Z * A * PageDescriptors);
  alg_free_pages : A -> PageDescriptors -> Z -> Z -> outcome (A * PageDescriptors)
}.

(** ** The descriptor array as a memory *)

(** The array is there: exactly the indices below [_nr_pages] are cells. *)
Definition wf_pds (pds : PageDescriptors) : Prop :=
  0 <= _nr_pages pds < 2 ^ 40 /\
  forall i, is_Some (cells pds !! i) <-> 0 <= i < _nr_pages pds.

Lemma pgd_to_pfn_id pds pgd : 0 <= pgd < 2 ^ 60 -> pgd_to_pfn pds pgd = pgd.
Proof.
  intros H. unfold pgd_to_pfn, pgd_addr, sizeof_PageDescriptor.
  rewrite wrap_small.
  - rewrite Z.add_simpl_l, Z.mul_comm. apply Z.div_mul. lia.
  - change (2 ^ 64) with (2 ^ 60 * 16). lia.
Qed.

Lemma pfn_to_pgd_lt pds pfn : pfn <= _nr_pages pds -> pfn_to_pgd pds pfn = Some pfn.
Proof. intros H. unfold pfn_to_pgd. by rewrite (proj2 (Z.ltb_ge _ _)) by lia. Qed.

Lemma pgd_vpa_pgd pds pgd :
  0 <= pgd <= _nr_pages pds -> pgd < 2 ^ 20 ->
  exists va, pgd_to_vpa pds pgd = Ok va /\ vpa_to_pgd pds va = Ok (Some pgd).
Proof.
  intros H1 H2. unfold pgd_to_vpa, vpa_to_pgd, pgd_to_pa.
  rewrite pgd_to_pfn_id by lia.
  assert (0 <= pfn_to_pa pgd < PMEM_VA_SIZE) as Hpa.
  { unfold pfn_to_pa, __page_bits. rewrite Z.shiftl_mul_pow2 by lia.
    change PMEM_VA_SIZE with (2 ^ 20 * 2 ^ 12).
    rewrite wrap_small; [lia|]. change (2 ^ 64) with (2 ^ 52 * 2 ^ 12). lia. }
  eexists. rewrite pa_to_vpa_Ok by done. split; [done|].
  rewrite vpa_to_pa_Ok by done. cbn.
  rewrite pfn_pa_pfn by lia. by rewrite pfn_to_pgd_lt by lia.
Qed.

(** [agree_off S m m']: memories with the same cells outside the set [S] of
    addresses and the same types everywhere. *)
Definition next_at (pds : PageDescriptors) (p : Z) : option (option Z) :=
  next_free <$> cells pds !! p.

Lemma store_next_spec pds pgd v :
  is_Some (cells pds !! pgd) ->
  exists pds', store_next pds pgd v = Ok pds' /\
    _nr_pages pds' = _nr_pages pds /\ _page_descriptors pds' = _page_descriptors pds /\
    next_at pds' pgd = Some v /\
    (forall q, q <> pgd -> next_at pds' q = next_at pds q) /\
    (forall q, type <$> cells pds' !! q = type <$> cells pds !! q) /\
    (forall q, is_Some (cells pds' !! q) <-> is_Some (cells pds !! q)).
Proof.
  intros [d Hd]. unfold store_next, load. rewrite Hd. cbn.
  eexists. split; [done|]. unfold next_at. cbn.
  split; [done|]. split; [done|]. split; [by rewrite lookup_insert_eq|].
  split; [intros q Hq; by rewrite lookup_insert_ne by done|].
  split; intros q; destruct (decide (pgd = q)) as [<-|Hq];
    rewrite ?lookup_insert_eq, ?lookup_insert_ne, ?Hd by done; cbn; try done.
Qed.

Lemma load_next pds p v : next_at pds p = Some v ->
  exists d, load pds p = Ok d /\ next_free d = v.
Proof.
  unfold next_at, load. destruct (cells pds !! p) as [d|]; cbn; [|done].
  intros [= <-]. eauto.
Qed.

Lemma next_at_is_Some pds p : is_Some (next_at pds p) <-> is_Some (cells pds !! p).
Proof. unfold next_at. by rewrite fmap_is_Some. Qed.

#[export] Hint Rewrite pgd_to_pfn_id using lia : pgd.
