(* ===== verification/Buddy.v ===== *)
(** * coursework/buddy.cpp: the buddy page allocation algorithm

    The allocator's state is the array [_free_areas] of list heads together
    with the page descriptors, whose [next_free] fields link the lists.  A
    [PageDescriptor**] is a [slot]: an element of [_free_areas], the
    [next_free] field of a descriptor, or a local pointer variable of the
    caller.  The loops over a list carry as fuel the number of cells of the
    descriptor array plus one, more than any acyclic list can have. *)
From S2P Require Import Prelude Define PageDesc.

Definition MAX_ORDER : Z := 17.
Definition maxOrder : Z := MAX_ORDER - 1.

Record BuddyPageAllocator := {
  _free_areas : list (option Z);
  pds : PageDescriptors
}.

Definition set_areas (st : BuddyPageAllocator) (a : list (option Z)) : BuddyPageAllocator :=
  {| _free_areas := a; pds := pds st |}.
Definition set_pds (st : BuddyPageAllocator) (d : PageDescriptors) : BuddyPageAllocator :=
  {| _free_areas := _free_areas st; pds := d |}.

Inductive slot :=
  | SArea (order : Z)
  | SNext (pgd : Z)
  | SLocal (v : option Z).

Definition area (st : BuddyPageAllocator) (order : Z) : outcome (option Z) :=
  if order <? 0 then Fault OutOfBounds else in_bounds (_free_areas st !! Z.to_nat order).

(** [*slot], and [*slot = v] (never through a local in this file). *)
Definition read_slot (st : BuddyPageAllocator) (s : slot) : outcome (option Z) :=
  match s with
  | SArea order => area st order
  | SNext p => d ← load (pds st) p; Ok (next_free d)
  | SLocal v => Ok v
  end.

Definition write_slot (st : BuddyPageAllocator) (s : slot) (v : option Z)
  : outcome BuddyPageAllocator :=
  match s with
  | SArea order =>
      _ ← area st order;
      Ok (set_areas st (<[Z.to_nat order := v]> (_free_areas st)))
  | SNext p => d ← store_next (pds st) p v; Ok (set_pds st d)
  | SLocal _ => Fault OutOfBounds
  end.

Definition walk_fuel (st : BuddyPageAllocator) : nat := S (size (cells (pds st))).

(** ** Geometry *)
Definition pages_per_block (order : Z) : Z := Z.shiftl 1 order.
Definition GetSize (order : Z) : Z := Z.shiftl 1 order.

Definition is_correct_alignment_for_order (st : BuddyPageAllocator) (pgd order : Z) : bool :=
  pgd_to_pfn (pds st) pgd mod pages_per_block order =? 0.

Definition buddy_of (st : BuddyPageAllocator) (pgd order : Z) : option Z :=
  if MAX_ORDER <=? order then None
  else if negb (is_correct_alignment_for_order st pgd order) then None
  else
    let buddy_pfn :=
      if is_correct_alignment_for_order st pgd (order + 1)
      then u64 (pgd_to_pfn (pds st) pgd + pages_per_block order)
      else u64 (pgd_to_pfn (pds st) pgd - pages_per_block order) in
    pfn_to_pgd (pds st) buddy_pfn.

(** ** List operations *)
Fixpoint insert_walk (fuel : nat) (st : BuddyPageAllocator) (pgd : Z) (s : slot) : outcome slot :=
  match fuel with
  | O => Fault OutOfFuel
  | S fuel =>
      v ← read_slot st s;
      match v with
      | Some b => if b <? pgd then insert_walk fuel st pgd (SNext b) else Ok s
      | None => Ok s
      end
  end.

Definition insert_block (st : BuddyPageAllocator) (pgd order : Z)
  : outcome (slot * BuddyPageAllocator) :=
  s ← insert_walk (walk_fuel st) st pgd (SArea order);
  v ← read_slot st s;
  st ← write_slot st (SNext pgd) v;
  st ← write_slot st s (Some pgd);
  Ok (s, st).

Fixpoint remove_walk (fuel : nat) (st : BuddyPageAllocator) (pgd : Z) (s : slot) : outcome slot :=
  match fuel with
  | O => Fault OutOfFuel
  | S fuel =>
      v ← read_slot st s;
      match v with
      | Some b => if bool_decide (pgd <> b) then remove_walk fuel st pgd (SNext b) else Ok s
      | None => Ok s
      end
  end.

Definition remove_block (st : BuddyPageAllocator) (pgd order : Z) : outcome BuddyPageAllocator :=
  s ← remove_walk (walk_fuel st) st pgd (SArea order);
  v ← read_slot st s;
  _ ← assert_ (bool_decide (v = Some pgd));
  n ← read_slot st (SNext pgd);
  st ← write_slot st s n;
  write_slot st (SNext pgd) None.

Definition split_block (st : BuddyPageAllocator) (block_pointer : slot) (source_order : Z)
  : outcome (option Z * BuddyPageAllocator) :=
  b ← read_slot st block_pointer;
  _ ← assert_ (bool_decide (is_Some b));
  copyPointer ← deref b;
  _ ← assert_ (is_correct_alignment_for_order st copyPointer source_order);
  _ ← assert_ (0 <? source_order);
  let sourceOrderMinus1 := source_order - 1 in
  st ← remove_block st copyPointer source_order;
  '(ret, st) ← insert_block st copyPointer sourceOrderMinus1;
  buddy ← deref (buddy_of st copyPointer sourceOrderMinus1);
  r ← read_slot st ret;
  r ← deref r;
  n ← read_slot st (SNext r);
  st ← write_slot st (SNext buddy) n;
  st ← write_slot st (SNext r) (Some buddy);
  r ← read_slot st ret;
  Ok (r, st).

(** The search loop of [merge_block]: it keeps the node before the one it
    looks at. *)
Fixpoint merge_walk (fuel : nat) (st : BuddyPageAllocator) (target before node : option Z)
  : outcome (option Z * option Z) :=
  match fuel with
  | O => Fault OutOfFuel
  | S fuel =>
      match node with
      | Some p =>
          if bool_decide (node <> target) then
            n ← read_slot st (SNext p);
            merge_walk fuel st target node n
          else Ok (before, node)
      | None => Ok (before, node)
      end
  end.

Definition merge_block (st : BuddyPageAllocator) (block_pointer : slot) (source_order : Z)
  : outcome (slot * BuddyPageAllocator) :=
  b ← read_slot st block_pointer;
  _ ← assert_ (bool_decide (is_Some b));
  target ← deref b;
  _ ← assert_ (is_correct_alignment_for_order st target source_order);
  _ ← assert_ (source_order <? MAX_ORDER);
  let sourceOrderPlus1 := source_order + 1 in
  head ← area st source_order;
  '(before, removeNodePointer) ← merge_walk (walk_fuel st) st b head head;
  node ← deref removeNodePointer;
  nx ← read_slot st (SNext node);
  nx ← deref nx;
  nn ← read_slot st (SNext nx);
  st ← (if bool_decide (removeNodePointer = head)
        then write_slot st (SArea source_order) nn
        else before ← deref before; write_slot st (SNext before) nn);
  nx ← read_slot st (SNext node);
  nx ← deref nx;
  st ← write_slot st (SNext nx) None;
  st ← write_slot st (SNext node) None;
  b ← read_slot st block_pointer;
  target ← deref b;
  insert_block st target sourceOrderPlus1.

Fixpoint TryMerge (fuel : nat) (st : BuddyPageAllocator) (page order : Z)
  : outcome BuddyPageAllocator :=
  match fuel with
  | O => Fault OutOfFuel
  | S fuel =>
      if maxOrder <=? order then Ok st
      else
        buddy ← deref (buddy_of st page order);
        bn ← read_slot st (SNext buddy);
        if bool_decide (bn = Some page) && is_correct_alignment_for_order st buddy (order + 1)
        then
          '(s, st) ← merge_block st (SLocal (Some buddy)) order;
          p ← read_slot st s;
          p ← deref p;
          TryMerge fuel st p (order + 1)
        else
          pn ← read_slot st (SNext page);
          if bool_decide (pn = Some buddy) then
            '(s, st) ← merge_block st (SLocal (Some page)) order;
            p ← read_slot st s;
            p ← deref p;
            TryMerge fuel st p (order + 1)
          else Ok st
  end.

Fixpoint SplitToLeft (fuel : nat) (st : BuddyPageAllocator) (ha : slot) (order until : Z)
  : outcome BuddyPageAllocator :=
  match fuel with
  | O => Fault OutOfFuel
  | S fuel =>
      v ← read_slot st ha;
      _ ← assert_ (bool_decide (is_Some v));
      let copy := SLocal v in
      if until <? order then
        '(_, st) ← split_block st ha order;
        SplitToLeft fuel st copy (order - 1) until
      else Ok st
  end.

(** ** The algorithm's interface *)

(** Orders run over [0 .. 16]; [order_fuel] bounds every loop over them. *)
Definition order_fuel : nat := 18.

Fixpoint alloc_loop (fuel : nat) (st : BuddyPageAllocator) (o order : Z)
  : outcome (option Z * BuddyPageAllocator) :=
  match fuel with
  | O => Fault OutOfFuel
  | S fuel =>
      if o <=? maxOrder then
        v ← area st o;
        match v with
        | Some _ =>
            st ← SplitToLeft order_fuel st (SArea o) o order;
            ret ← area st order;
            p ← deref ret;
            st ← remove_block st p order;
            Ok (ret, st)
        | None => alloc_loop fuel st (o + 1) order
        end
      else Ok (None, st)
  end.

(** [order] is an [int]; the loop counter starts at its [uint64_t] value. *)
Definition alloc_pages (st : BuddyPageAllocator) (order : Z)
  : outcome (option Z * BuddyPageAllocator) :=
  alloc_loop order_fuel st (u64 order) order.

Definition free_pages (st : BuddyPageAllocator) (pgd order : Z) : outcome BuddyPageAllocator :=
  _ ← assert_ (is_correct_alignment_for_order st pgd order);
  '(_, st) ← insert_block st pgd order;
  TryMerge order_fuel st pgd order.

(** The inner [while] of [reserve_page]: find the block of order [i] that
    holds [pgd] and split it. *)
Fixpoint reserve_split (fuel : nat) (st : BuddyPageAllocator) (block : option Z) (pgd i : Z)
  : outcome BuddyPageAllocator :=
  match fuel with
  | O => Fault OutOfFuel
  | S fuel =>
      match block with
      | Some b =>
          if b <=? pgd then
            if pgd <? GetSize i + b then
              '(_, st) ← split_block st (SLocal block) i;
              Ok st
            else
              n ← read_slot st (SNext b);
              reserve_split fuel st n pgd i
          else Ok st
      | None => Ok st
      end
  end.

Fixpoint reserve_orders (i : nat) (st : BuddyPageAllocator) (pgd : Z) : outcome BuddyPageAllocator :=
  match i with
  | O => Ok st
  | S i' =>
      block ← area st (Z.of_nat i);
      st ← reserve_split (walk_fuel st) st block pgd (Z.of_nat i);
      reserve_orders i' st pgd
  end.

Fixpoint reserve_find (fuel : nat) (st : BuddyPageAllocator) (b : option Z) (pgd : Z)
  : outcome (bool * BuddyPageAllocator) :=
  match fuel with
  | O => Fault OutOfFuel
  | S fuel =>
      match b with
      | Some p =>
          if bool_decide (p = pgd) then st ← remove_block st p 0; Ok (true, st)
          else n ← read_slot st (SNext p); reserve_find fuel st n pgd
      | None => Ok (false, st)
      end
  end.

Definition reserve_page (st : BuddyPageAllocator) (pgd : Z) : outcome (bool * BuddyPageAllocator) :=
  st ← reserve_orders (Z.to_nat maxOrder) st pgd;
  b ← area st 0;
  reserve_find (walk_fuel st) st b pgd.

(** The inner [while] of [init]: lay out blocks of one order. *)
Fixpoint init_order (fuel : nat) (st : BuddyPageAllocator) (order page pageLeft : Z)
    (lastPageOfThisOrder : option Z) : outcome (Z * Z * option Z * BuddyPageAllocator) :=
  let currentPageSize := Z.shiftl 1 order in
  match fuel with
  | O => Fault OutOfFuel
  | S fuel =>
      if currentPageSize <=? pageLeft then
        let pageLeft := pageLeft - currentPageSize in
        st ← match lastPageOfThisOrder with
             | Some last => write_slot st (SNext last) (Some page)
             | None => write_slot st (SArea order) (Some page)
             end;
        init_order fuel st order (page + currentPageSize) pageLeft (Some page)
      else Ok (page, pageLeft, lastPageOfThisOrder, st)
  end.

(** The outer [while]: [order] is unsigned, so [order >= 0] always holds and
    the loop ends when no page is left. *)
Fixpoint init_loop (fuel : nat) (st : BuddyPageAllocator) (order page pageLeft : Z)
  : outcome BuddyPageAllocator :=
  match fuel with
  | O => Fault OutOfFuel
  | S fuel =>
      if negb (pageLeft =? 0) then
        '(page, pageLeft, last, st) ←
          init_order (S (Z.to_nat pageLeft)) st order page pageLeft None;
        st ← match last with
             | Some l => write_slot st (SNext l) None
             | None => Ok st
             end;
        init_loop fuel st (order - 1) page pageLeft
      else Ok st
  end.

Definition init (st : BuddyPageAllocator) (nr_page_descriptors : Z)
  : outcome (bool * BuddyPageAllocator) :=
  st ← init_loop order_fuel st maxOrder 0 nr_page_descriptors;
  Ok (true, st).

(** The constructor clears every free area. *)
Definition BuddyPageAllocator_new (d : PageDescriptors) : BuddyPageAllocator :=
  {| _free_areas := replicate (Z.to_nat MAX_ORDER) None; pds := d |}.

#[global] Instance buddy_algorithm : PageAllocatorAlgorithm (list (option Z)) := {|
  alg_init a d :=
    '(ok, st) ← init {| _free_areas := a; pds := d |} (_nr_pages d);
    Ok (ok, _free_areas st, pds st);
  alg_reserve_page a d p :=
    '(ok, st) ← reserve_page {| _free_areas := a; pds := d |} p;
    Ok (ok, _free_areas st, pds st);
  alg_alloc_pages a d order :=
    '(p, st) ← alloc_pages {| _free_areas := a; pds := d |} order;
    Ok (p, _free_areas st, pds st);
  alg_free_pages a d p order :=
    st ← free_pages {| _free_areas := a; pds := d |} p order;
    Ok (_free_areas st, pds st)
|}.
