(* ===== verification/BuddyRep.v ===== *)
(** * The buddy allocator's memory represents abstract free lists

    [rep st F]: following [next_free] from each head of [_free_areas] gives
    the lists [F], and every other descriptor's [next_free] is NULL.  The file
    proves the effect of one write on the lists and, from it, what the list
    operations of coursework/buddy.cpp do. *)
From stdpp Require Import functions.
From S2P Require Import Prelude Define PageDesc Buddy.

(** ** The abstract buddy system

    What coursework/buddy.cpp maintains, without its memory: for every order
    the ascending list of the free blocks of that order.  [blocks_ok] says the
    blocks are aligned, inside the descriptor array and disjoint, [coalesced]
    that no two buddies are both free.  The file proves that such a state is
    determined by its set of free pages, and how splitting, merging and
    removing a block change it. *)
Abbreviation free_lists := (Z -> list Z).

(** ** Ascending lists *)
Definition ins (p : Z) (l : list Z) : list Z :=
  filter (fun x => x < p) l ++ p :: filter (fun x => p < x) l.
Definition del (p : Z) (l : list Z) : list Z := filter (fun x => x <> p) l.

Lemma elem_of_ins x p l : x ∈ ins p l <-> x = p \/ x ∈ l.
Proof.
  unfold ins. rewrite elem_of_app, elem_of_cons, !list_elem_of_filter.
  destruct (Z.lt_trichotomy x p) as [?|[->|?]]; naive_solver lia.
Qed.

Lemma elem_of_del x p l : x ∈ del p l <-> x <> p /\ x ∈ l.
Proof. unfold del. by rewrite list_elem_of_filter. Qed.

Lemma StronglySorted_filter (P : Z -> Prop) `{!forall x, Decision (P x)} l :
  StronglySorted Z.lt l -> StronglySorted Z.lt (filter P l).
Proof.
  induction 1 as [|a l HS IH HF]; [constructor|].
  rewrite filter_cons. case_decide; [|done]. constructor; [done|].
  rewrite Forall_forall in *. intros x [_ Hx]%list_elem_of_filter. auto.
Qed.

Lemma ins_sorted p l : StronglySorted Z.lt l -> StronglySorted Z.lt (ins p l).
Proof.
  intros H. apply StronglySorted_app.
  - by apply StronglySorted_filter.
  - constructor; [by apply StronglySorted_filter|].
    apply Forall_forall. intros x [? _]%list_elem_of_filter. done.
  - intros x y [? _]%list_elem_of_filter [->|[? _]%list_elem_of_filter]%elem_of_cons; lia.
Qed.

Lemma del_sorted p l : StronglySorted Z.lt l -> StronglySorted Z.lt (del p l).
Proof. apply StronglySorted_filter. Qed.

(** The list around the place of [p]. *)
Lemma split_around p l :
  StronglySorted Z.lt l -> p ∉ l ->
  l = filter (fun x => x < p) l ++ filter (fun x => p < x) l.
Proof.
  intros H Hp. apply StronglySorted_lt_ext; [done| |].
  - apply StronglySorted_app; [by apply StronglySorted_filter..|].
    intros x y [? _]%list_elem_of_filter [? _]%list_elem_of_filter. lia.
  - intros x. rewrite elem_of_app, !list_elem_of_filter.
    destruct (Z.lt_trichotomy x p) as [?|[->|?]]; intuition lia.
Qed.

Lemma ins_split p l1 l2 :
  StronglySorted Z.lt (l1 ++ p :: l2) -> ins p (l1 ++ l2) = l1 ++ p :: l2.
Proof.
  intros H. apply StronglySorted_app_inv in H as H'. destruct H' as (H1 & H2 & H3).
  apply StronglySorted_inv in H2 as [H2 HF].
  apply StronglySorted_lt_ext; [|done|].
  - apply ins_sorted, StronglySorted_app; [done..|]. set_solver.
  - intros x. rewrite elem_of_ins, !elem_of_app, elem_of_cons. tauto.
Qed.

Lemma del_split p l1 l2 :
  StronglySorted Z.lt (l1 ++ p :: l2) -> del p (l1 ++ p :: l2) = l1 ++ l2.
Proof.
  intros H. apply StronglySorted_app_inv in H as H'. destruct H' as (H1 & H2 & H3).
  apply StronglySorted_inv in H2 as [H2 HF]. rewrite Forall_forall in HF.
  apply StronglySorted_lt_ext.
  - by apply del_sorted.
  - apply StronglySorted_app; [done..|]. set_solver.
  - intros x. rewrite elem_of_del, !elem_of_app, elem_of_cons.
    split; [tauto|]. intros Hx. split; [|tauto]. intros ->.
    destruct Hx as [Hx|Hx]; [specialize (H3 p p Hx ltac:(set_solver)); lia|].
    specialize (HF _ Hx). lia.
Qed.

Lemma del_not_in p l : p ∉ l -> del p l = l.
Proof.
  intros H. apply list_filter_all. intros x Hx ->. done.
Qed.

(** ** Aligned blocks *)
Lemma pow2_pos o : 0 <= o -> 0 < 2 ^ o.
Proof. intros. apply Z.pow_pos_nonneg; lia. Qed.

Lemma pow2_step o : 0 < o -> 2 ^ o = 2 * 2 ^ (o - 1).
Proof. intros. replace o with (1 + (o - 1)) at 1 by lia. rewrite Z.pow_add_r; lia. Qed.

Lemma pow2_divide a b : 0 <= a <= b -> (2 ^ a | 2 ^ b).
Proof.
  intros H. exists (2 ^ (b - a)). rewrite <- Z.pow_add_r by lia. f_equal. lia.
Qed.

(** Aligned blocks that share a page are nested. *)
Lemma aligned_nested a b p q x :
  0 <= a <= b -> (2 ^ a | p) -> (2 ^ b | q) ->
  p <= x < p + 2 ^ a -> q <= x < q + 2 ^ b -> q <= p /\ p + 2 ^ a <= q + 2 ^ b.
Proof.
  intros Hab [i ->] Hq Hp Hx.
  assert (0 < 2 ^ a) as Ha by (apply pow2_pos; lia).
  destruct Hq as [j ->].
  destruct (pow2_divide a b Hab) as [k Hk]. rewrite Hk in *. clear Hk Hab.
  set (A := 2 ^ a) in *. clearbody A.
  assert (j * k < i + 1) by (apply (Z.mul_lt_mono_pos_r A); lia).
  assert (i < j * k + k) by (apply (Z.mul_lt_mono_pos_r A); lia).
  assert (j * k * A <= i * A) by (apply Z.mul_le_mono_nonneg_r; lia).
  assert ((i + 1) * A <= (j * k + k) * A) by (apply Z.mul_le_mono_nonneg_r; lia). lia.
Qed.

(** The halves of an aligned block. *)
Lemma aligned_halves o p :
  0 < o -> (2 ^ o | p) -> (2 ^ (o - 1) | p) /\ (2 ^ (o - 1) | p + 2 ^ (o - 1)).
Proof.
  intros Ho Hp. assert (2 ^ (o - 1) | p) as Hd.
  { eapply Z.divide_trans; [|done]. apply pow2_divide. lia. }
  split; [done|]. apply Z.divide_add_r; [done|]. apply Z.divide_refl.
Qed.

(** An aligned block is the left or the right half of an aligned block of
    the next order. *)
Lemma aligned_left_or_right o p :
  0 <= o -> (2 ^ o | p) -> (2 ^ (o + 1) | p) \/ (2 ^ (o + 1) | p - 2 ^ o).
Proof.
  intros Ho [i ->]. rewrite Z.pow_add_r by lia. change (2 ^ 1) with 2.
  destruct (Z.Even_or_Odd i) as [[j ->]|[j ->]].
  - left. exists j. lia.
  - right. exists j. lia.
Qed.

(** ** States *)
Definition free_page (F : free_lists) (x : Z) : Prop :=
  exists o p, p ∈ F o /\ p <= x < p + 2 ^ o.

Record blocks_ok (N : Z) (F : free_lists) : Prop := {
  bo_order : forall o p, p ∈ F o -> 0 <= o <= 16;
  bo_sorted : forall o, StronglySorted Z.lt (F o);
  bo_aligned : forall o p, p ∈ F o -> (2 ^ o | p);
  bo_bounds : forall o p, p ∈ F o -> 0 <= p /\ p + 2 ^ o <= N;
  bo_overlap : forall o o' p q x, p ∈ F o -> q ∈ F o' ->
    p <= x < p + 2 ^ o -> q <= x < q + 2 ^ o' -> p = q /\ o = o'
}.

(** No pair of buddies is free, except a pair around page [x]. *)
Definition coalesced_off (F : free_lists) (x : Z) : Prop :=
  forall o p, 0 <= o < 16 -> (2 ^ (o + 1) | p) -> p ∈ F o -> p + 2 ^ o ∈ F o ->
    p <= x < p + 2 ^ (o + 1).

Definition coalesced (F : free_lists) : Prop :=
  forall o p, 0 <= o < 16 -> (2 ^ (o + 1) | p) -> p ∈ F o -> p + 2 ^ o ∉ F o.

Definition buddy_inv (N : Z) (F : free_lists) : Prop := blocks_ok N F /\ coalesced F.

Lemma coalesced_is_off F x : coalesced F -> coalesced_off F x.
Proof. intros H o p Ho Ha Hp Hb. by destruct (H o p Ho Ha Hp Hb). Qed.

(** A page of a block, for use with [bo_overlap]. *)
Lemma block_first o p : 0 <= o -> p <= p < p + 2 ^ o.
Proof. intros Ho. pose proof (pow2_pos o Ho). lia. Qed.

Lemma free_in_order N F o p : blocks_ok N F -> p ∈ F o -> 0 <= p < N.
Proof.
  intros HB Hp. pose proof (bo_bounds _ _ HB _ _ Hp).
  pose proof (pow2_pos o (proj1 (bo_order _ _ HB _ _ Hp))). lia.
Qed.

Lemma free_unique_order N F o o' p : blocks_ok N F -> p ∈ F o -> p ∈ F o' -> o = o'.
Proof.
  intros HB H1 H2. eapply (bo_overlap _ _ HB o o' p p p); [done..| |];
    apply block_first; eapply bo_order; eauto.
Qed.

(** ** Canonicity *)

(** In a coalesced state a wholly free aligned block lies inside one block. *)
Lemma coalesced_cover N F :
  buddy_inv N F -> forall k, 0 <= k <= 16 -> forall p, (2 ^ k | p) ->
  (forall x, p <= x < p + 2 ^ k -> free_page F x) ->
  exists o q, k <= o /\ q ∈ F o /\ q <= p /\ p + 2 ^ k <= q + 2 ^ o.
Proof.
  intros [HB HC] k Hk. destruct Hk as [Hk0 Hk].
  revert Hk. pattern k. apply natlike_ind; [| |done].
  - intros _ p Hp Hfree. destruct (Hfree p ltac:(lia)) as (o & q & Hq & Hx).
    exists o, q. pose proof (bo_order _ _ HB _ _ Hq). split_and!; [lia|done|lia|lia].
  - clear k Hk0. intros k Hk0 IH Hk p Hp Hfree. unfold Z.succ in *.
    assert (2 ^ (k + 1) = 2 * 2 ^ k) as E by (rewrite Z.pow_add_r by lia; lia).
    pose proof (pow2_pos k Hk0) as Hpos.
    destruct (aligned_halves (k + 1) p ltac:(lia) Hp) as [Hl Hr].
    rewrite Z.add_simpl_r in Hl, Hr.
    destruct (IH ltac:(lia) p Hl) as (o1 & q1 & Ho1 & Hq1 & Hc1 & Hd1).
    { intros x Hx. apply Hfree. lia. }
    destruct (IH ltac:(lia) (p + 2 ^ k) Hr) as (o2 & q2 & Ho2 & Hq2 & Hc2 & Hd2).
    { intros x Hx. apply Hfree. lia. }
    assert (forall o q y, k < o -> q ∈ F o -> q <= y < q + 2 ^ o -> p <= y < p + 2 ^ (k + 1) ->
            q <= p /\ p + 2 ^ (k + 1) <= q + 2 ^ o) as Hbig.
    { intros o q y Ho Hq Hy Hy'. apply (aligned_nested (k + 1) o p q y); try done; try lia.
      by eapply bo_aligned. }
    destruct (decide (k < o1)) as [Hlt|Hge].
    { destruct (Hbig o1 q1 p) as [? ?]; [done|done|lia|lia|]. exists o1, q1. split_and!; [lia|done..]. }
    destruct (decide (k < o2)) as [Hlt|Hge'].
    { destruct (Hbig o2 q2 (p + 2 ^ k)) as [? ?]; [done|done|lia|lia|].
      exists o2, q2. split_and!; [lia|done..]. }
    replace o1 with k in * by lia. replace o2 with k in * by lia.
    replace q1 with p in * by lia. replace q2 with (p + 2 ^ k) in * by lia.
    exfalso. eapply (HC k p); eauto; lia.
Qed.

Lemma coalesced_incl N F F' :
  buddy_inv N F -> buddy_inv N F' -> (forall x, free_page F x <-> free_page F' x) ->
  forall o p, p ∈ F o -> p ∈ F' o.
Proof.
  intros HI HI' Hx o p Hp. pose proof HI as [HB _]. pose proof HI' as [HB' _].
  pose proof (bo_order _ _ HB _ _ Hp) as Ho. pose proof (pow2_pos o ltac:(lia)).
  destruct (coalesced_cover N F' HI' o Ho p) as (o' & q & Hoo & Hq & Hc & Hd).
  { by apply (bo_aligned _ _ HB). }
  { intros x Hpx. apply Hx. by exists o, p. }
  pose proof (bo_order _ _ HB' _ _ Hq) as Ho'.
  destruct (coalesced_cover N F HI o' Ho' q) as (o2 & r & Hoo2 & Hr & Hc2 & Hd2).
  { by apply (bo_aligned _ _ HB'). }
  { intros x Hqx. apply Hx. by exists o', q. }
  destruct (bo_overlap _ _ HB o o2 p r p Hp Hr) as [-> ->]; [lia..|].
  replace o' with o2 in * by lia. by replace r with q by lia.
Qed.

(** A coalesced state is determined by the set of its free pages. *)
Lemma buddy_inv_unique N F F' :
  buddy_inv N F -> buddy_inv N F' -> (forall x, free_page F x <-> free_page F' x) ->
  forall o, F o = F' o.
Proof.
  intros HI HI' Hx o. apply StronglySorted_lt_ext; [apply HI|apply HI'|].
  intros p. split; eapply coalesced_incl; eauto. intros x. by rewrite Hx.
Qed.

(** ** Transitions

    Adding and removing a block, splitting one and merging a pair, as updates
    of the two lists concerned. *)
Definition add_block (F : free_lists) (p o : Z) : free_lists := <[o := ins p (F o)]> F.
Definition del_block (F : free_lists) (p o : Z) : free_lists := <[o := del p (F o)]> F.

Definition split_blocks (F : free_lists) (p o : Z) : free_lists :=
  add_block (add_block (del_block F p o) p (o - 1)) (p + 2 ^ (o - 1)) (o - 1).

Definition merge_blocks (F : free_lists) (p o : Z) : free_lists :=
  add_block (del_block (del_block F p o) (p + 2 ^ o) o) p (o + 1).

Lemma elem_of_add_block F p o q k :
  q ∈ add_block F p o k <-> q ∈ F k \/ (k = o /\ q = p).
Proof.
  unfold add_block. destruct (decide (o = k)) as [<-|?].
  - rewrite fn_lookup_insert, elem_of_ins. tauto.
  - rewrite fn_lookup_insert_ne by done. naive_solver.
Qed.

Lemma elem_of_del_block F p o q k :
  q ∈ del_block F p o k <-> q ∈ F k /\ ~ (k = o /\ q = p).
Proof.
  unfold del_block. destruct (decide (o = k)) as [<-|?].
  - rewrite fn_lookup_insert, elem_of_del. tauto.
  - rewrite fn_lookup_insert_ne by done. naive_solver.
Qed.

Lemma elem_of_split_blocks F p o q k :
  q ∈ split_blocks F p o k <->
  (q ∈ F k /\ ~ (k = o /\ q = p)) \/ (k = o - 1 /\ (q = p \/ q = p + 2 ^ (o - 1))).
Proof. unfold split_blocks. rewrite !elem_of_add_block, elem_of_del_block. tauto. Qed.

Lemma elem_of_merge_blocks F p o q k :
  q ∈ merge_blocks F p o k <->
  (q ∈ F k /\ ~ (k = o /\ (q = p \/ q = p + 2 ^ o))) \/ (k = o + 1 /\ q = p).
Proof. unfold merge_blocks. rewrite elem_of_add_block, !elem_of_del_block. tauto. Qed.

Lemma add_block_sorted F p o k :
  StronglySorted Z.lt (F k) -> StronglySorted Z.lt (add_block F p o k).
Proof.
  intros H. unfold add_block. destruct (decide (o = k)) as [<-|?].
  - rewrite fn_lookup_insert. by apply ins_sorted.
  - by rewrite fn_lookup_insert_ne.
Qed.

Lemma del_block_sorted F p o k :
  StronglySorted Z.lt (F k) -> StronglySorted Z.lt (del_block F p o k).
Proof.
  intros H. unfold del_block. destruct (decide (o = k)) as [<-|?].
  - rewrite fn_lookup_insert. by apply del_sorted.
  - by rewrite fn_lookup_insert_ne.
Qed.

Lemma add_block_ok N F p o :
  blocks_ok N F -> 0 <= o <= 16 -> (2 ^ o | p) -> 0 <= p -> p + 2 ^ o <= N ->
  (forall x, p <= x < p + 2 ^ o -> ~ free_page F x) -> blocks_ok N (add_block F p o).
Proof.
  intros HB Ho Ha Hp HN Hfree. split.
  - intros k q [Hq|[-> ->]]%elem_of_add_block; [by eapply bo_order|done].
  - intros k. apply add_block_sorted, HB.
  - intros k q [Hq|[-> ->]]%elem_of_add_block; [by eapply bo_aligned|done].
  - intros k q [Hq|[-> ->]]%elem_of_add_block; [by eapply bo_bounds|done].
  - intros k k' q q' x [Hq|[-> ->]]%elem_of_add_block [Hq'|[-> ->]]%elem_of_add_block Hx Hx'.
    + by eapply (bo_overlap _ _ HB).
    + exfalso. eapply (Hfree x); [done|]. by exists k, q.
    + exfalso. eapply (Hfree x); [done|]. by exists k', q'.
    + done.
Qed.

Lemma del_block_ok N F p o : blocks_ok N F -> blocks_ok N (del_block F p o).
Proof.
  intros HB. split; intros *; rewrite ?elem_of_del_block;
    [intros []; by eapply bo_order|apply del_block_sorted, HB|intros []; by eapply bo_aligned
    |intros []; by eapply bo_bounds|intros [] []; by eapply bo_overlap].
Qed.

Lemma free_page_add F p o x :
  free_page (add_block F p o) x <-> free_page F x \/ p <= x < p + 2 ^ o.
Proof.
  unfold free_page. setoid_rewrite elem_of_add_block. split.
  - intros (k & q & [Hq|[-> ->]] & Hx); eauto.
  - intros [(k & q & Hq & Hx)|Hx]; eauto 6.
Qed.

Lemma free_page_del N F p o x :
  blocks_ok N F -> p ∈ F o ->
  free_page (del_block F p o) x <-> free_page F x /\ ~ (p <= x < p + 2 ^ o).
Proof.
  intros HB Hp. unfold free_page. setoid_rewrite elem_of_del_block. split.
  - intros (k & q & [Hq Hne] & Hx). split; [eauto|]. intros Hx'. apply Hne.
    by destruct (bo_overlap _ _ HB o k p q x) as [-> ->].
  - intros [(k & q & Hq & Hx) Hx']. exists k, q. split; [split; [done|]|done].
    by intros [-> ->].
Qed.

(** Splitting neither breaks the block structure nor changes what is free. *)
Lemma split_blocks_ok N F p o :
  blocks_ok N F -> p ∈ F o -> 0 < o -> blocks_ok N (split_blocks F p o).
Proof.
  intros HB Hp Ho. pose proof (bo_order _ _ HB _ _ Hp).
  pose proof (bo_bounds _ _ HB _ _ Hp).
  destruct (aligned_halves o p Ho (bo_aligned _ _ HB _ _ Hp)) as [Hl Hr].
  pose proof (pow2_step o Ho). pose proof (pow2_pos (o - 1) ltac:(lia)).
  unfold split_blocks. apply add_block_ok; try done; try lia.
  - apply add_block_ok; try done; try lia; [by apply del_block_ok|].
    intros x Hx. rewrite free_page_del by done. lia.
  - intros x Hx. rewrite free_page_add, free_page_del by done. lia.
Qed.

Lemma free_page_split N F p o x :
  blocks_ok N F -> p ∈ F o -> 0 < o ->
  free_page (split_blocks F p o) x <-> free_page F x.
Proof.
  intros HB Hp Ho. pose proof (pow2_step o Ho).
  unfold split_blocks. rewrite !free_page_add, (free_page_del N) by done.
  pose proof (pow2_pos (o - 1) ltac:(lia)).
  assert (p <= x < p + 2 ^ o -> free_page F x) by (exists o, p; done).
  destruct (decide (p <= x < p + 2 ^ o)); intuition lia.
Qed.

Lemma split_blocks_off N F p o x :
  blocks_ok N F -> p ∈ F o -> 0 < o -> p <= x < p + 2 ^ o ->
  coalesced_off F x -> coalesced_off (split_blocks F p o) x.
Proof.
  intros HB Hp Ho Hx HC k q Hk Hq.
  pose proof (split_blocks_ok N F p o HB Hp Ho) as HB'.
  pose proof (pow2_step o Ho). pose proof (pow2_pos (o - 1) ltac:(lia)).
  assert (2 ^ (k + 1) = 2 * 2 ^ k) by (rewrite Z.pow_add_r by lia; lia).
  pose proof (pow2_pos k ltac:(lia)).
  pose proof (bo_aligned _ _ HB _ _ Hp) as Ha.
  rewrite !elem_of_split_blocks.
  assert (forall y, k = o - 1 -> p <= y < p + 2 ^ o -> q <= y < q + 2 ^ (k + 1) -> q = p) as Hpar.
  { intros y -> Hy Hy'. replace (o - 1 + 1) with o in * by lia.
    destruct (aligned_nested o o p q y); try done; lia. }
  intros [[M1 _]|[Hk1 M1]] [[M2 _]|[Hk2 M2]].
  - by apply HC.
  - assert (q = p) as -> by (apply (Hpar (q + 2 ^ k)); destruct M2; lia).
    subst k. replace (o - 1 + 1) with o by lia. done.
  - assert (q = p) as -> by (apply (Hpar q); destruct M1; lia).
    subst k. replace (o - 1 + 1) with o by lia. done.
  - assert (q = p) as -> by (apply (Hpar q); destruct M1; lia).
    subst k. replace (o - 1 + 1) with o by lia. done.
Qed.

Lemma merge_blocks_ok N F p o :
  blocks_ok N F -> 0 <= o < 16 -> (2 ^ (o + 1) | p) -> p ∈ F o -> p + 2 ^ o ∈ F o ->
  blocks_ok N (merge_blocks F p o).
Proof.
  intros HB Ho Ha Hp Hb.
  assert (2 ^ (o + 1) = 2 * 2 ^ o) by (rewrite Z.pow_add_r by lia; lia).
  pose proof (bo_bounds _ _ HB _ _ Hp). pose proof (bo_bounds _ _ HB _ _ Hb).
  pose proof (pow2_pos o ltac:(lia)).
  unfold merge_blocks. apply add_block_ok; try done; try lia.
  - by do 2 apply del_block_ok.
  - intros x Hx. rewrite (free_page_del N), (free_page_del N); [lia|done..|by apply del_block_ok|].
    apply elem_of_del_block. split; [done|lia].
Qed.

Lemma free_page_merge N F p o x :
  blocks_ok N F -> 0 <= o < 16 -> p ∈ F o -> p + 2 ^ o ∈ F o ->
  free_page (merge_blocks F p o) x <-> free_page F x.
Proof.
  intros HB Ho Hp Hb.
  assert (2 ^ (o + 1) = 2 * 2 ^ o) by (rewrite Z.pow_add_r by lia; lia).
  pose proof (pow2_pos o ltac:(lia)).
  unfold merge_blocks.
  rewrite free_page_add, (free_page_del N), (free_page_del N);
    [|done|done|by apply del_block_ok|apply elem_of_del_block; split; [done|lia]].
  assert (p <= x < p + 2 ^ o -> free_page F x) by (exists o, p; done).
  assert (p + 2 ^ o <= x < p + 2 ^ o + 2 ^ o -> free_page F x) by (exists o, (p + 2 ^ o); done).
  destruct (decide (p <= x < p + 2 ^ o)), (decide (p + 2 ^ o <= x < p + 2 ^ o + 2 ^ o));
    intuition lia.
Qed.

Lemma merge_blocks_off N F p o x :
  blocks_ok N F -> 0 <= o < 16 -> (2 ^ (o + 1) | p) -> p <= x < p + 2 ^ (o + 1) ->
  coalesced_off F x -> coalesced_off (merge_blocks F p o) x.
Proof.
  intros HB Ho Ha Hx HC k q Hk Hq. rewrite !elem_of_merge_blocks.
  assert (2 ^ (k + 1) = 2 * 2 ^ k) by (rewrite Z.pow_add_r by lia; lia).
  pose proof (pow2_pos k ltac:(lia)).
  intros [[M1 _]|[-> ->]] [[M2 _]|[Hk' Hq']]; [by apply HC| |lia|lia].
  subst k. lia.
Qed.

(** When the block around [x] has no free buddy, the state is coalesced. *)
Lemma coalesced_off_done N F p o x :
  blocks_ok N F -> p ∈ F o -> p <= x < p + 2 ^ o -> coalesced_off F x ->
  (o < 16 -> (2 ^ (o + 1) | p) -> p + 2 ^ o ∉ F o) ->
  (o < 16 -> (2 ^ (o + 1) | p - 2 ^ o) -> p - 2 ^ o ∉ F o) ->
  coalesced F.
Proof.
  intros HB Hp Hx HC Hr Hl k q Hk Ha M1 M2.
  pose proof (HC k q Hk Ha M1 M2) as Hq.
  assert (2 ^ (k + 1) = 2 * 2 ^ k) by (rewrite Z.pow_add_r by lia; lia).
  destruct (decide (x < q + 2 ^ k)).
  - destruct (bo_overlap _ _ HB o k p q x) as [-> ->]; [done..|lia|].
    apply Hr; [lia|done..].
  - destruct (bo_overlap _ _ HB o k p (q + 2 ^ k) x) as [-> ->]; [done..|lia|].
    apply Hl; [lia|..]; by replace (q + 2 ^ k - 2 ^ k) with q by lia.
Qed.

(** Removing the block around [x] leaves a coalesced state. *)
Lemma del_block_coalesced N F p o x :
  blocks_ok N F -> p ∈ F o -> p <= x < p + 2 ^ o -> coalesced_off F x ->
  coalesced (del_block F p o).
Proof.
  intros HB Hp Hx HC k q Hk Ha [M1 Hn1]%elem_of_del_block [M2 Hn2]%elem_of_del_block.
  pose proof (HC k q Hk Ha M1 M2) as Hq.
  assert (2 ^ (k + 1) = 2 * 2 ^ k) by (rewrite Z.pow_add_r by lia; lia).
  destruct (decide (x < q + 2 ^ k)).
  - destruct (bo_overlap _ _ HB o k p q x) as [-> ->]; [done..|lia|]. by apply Hn1.
  - destruct (bo_overlap _ _ HB o k p (q + 2 ^ k) x) as [-> ->]; [done..|lia|]. by apply Hn2.
Qed.

#[global] Instance slot_eq_dec : EqDecision slot.
Proof. solve_decision. Defined.

(** ** Writing one slot *)

(** The parts of the state that no list operation changes. *)
Record frame (st st' : BuddyPageAllocator) : Prop := {
  fr_pages : _nr_pages (pds st') = _nr_pages (pds st);
  fr_base : _page_descriptors (pds st') = _page_descriptors (pds st);
  fr_types : forall q, type <$> cells (pds st') !! q = type <$> cells (pds st) !! q;
  fr_areas : length (_free_areas st') = length (_free_areas st)
}.

#[global] Instance frame_preorder : PreOrder frame.
Proof.
  split.
  - by intros st.
  - intros st1 st2 st3 [] []. split; intros; etrans; eauto.
Qed.

Record wrote (st : BuddyPageAllocator) (s : slot) (v : option Z) (st' : BuddyPageAllocator)
  : Prop := {
  wr_frame : frame st st';
  wr_same : read_slot st' s = Ok v;
  wr_other : forall s', s' <> s -> read_slot st' s' = read_slot st s'
}.

Lemma frame_cells st st' q :
  frame st st' -> is_Some (cells (pds st') !! q) <-> is_Some (cells (pds st) !! q).
Proof.
  intros [_ _ Ht _]. specialize (Ht q).
  destruct (cells (pds st') !! q), (cells (pds st) !! q); simpl in Ht; try done;
    by rewrite !is_Some_alt.
Qed.

Lemma frame_wf st st' : frame st st' -> wf_pds (pds st) -> wf_pds (pds st').
Proof.
  intros Hf [HN HC]. pose proof Hf as [Hn _ _ _]. split; [by rewrite Hn|].
  intros i. rewrite Hn, <- HC. by apply frame_cells.
Qed.

Lemma read_next_Ok st p :
  wf_pds (pds st) -> 0 <= p < _nr_pages (pds st) -> exists v, read_slot st (SNext p) = Ok v.
Proof.
  intros [_ HC] [d Hd]%HC. simpl. unfold load. rewrite Hd. simpl. eauto.
Qed.

Lemma read_next_cell st p v :
  wf_pds (pds st) -> read_slot st (SNext p) = Ok v -> 0 <= p < _nr_pages (pds st).
Proof.
  intros [_ HC] H. apply HC. simpl in H. unfold load in H.
  destruct (cells (pds st) !! p); [eauto|done].
Qed.

Lemma write_next_Ok st p v v0 :
  read_slot st (SNext p) = Ok v0 ->
  exists st', write_slot st (SNext p) v = Ok st' /\ wrote st (SNext p) v st'.
Proof.
  simpl. unfold load, store_next, load. destruct (cells (pds st) !! p) as [d|] eqn:Hd; [|done].
  intros _. simpl. eexists. split; [done|]. split; [split; [done..| |done]| |].
  - intros q. simpl. destruct (decide (p = q)) as [<-|].
    + by rewrite lookup_insert_eq, Hd.
    + by rewrite lookup_insert_ne.
  - simpl. unfold load. simpl. by rewrite lookup_insert_eq.
  - intros [o|q|w] Hs; simpl; try done. unfold load. simpl.
    rewrite lookup_insert_ne; [done|]. congruence.
Qed.

Lemma write_area_Ok st o v v0 :
  read_slot st (SArea o) = Ok v0 ->
  exists st', write_slot st (SArea o) v = Ok st' /\ wrote st (SArea o) v st'.
Proof.
  simpl. unfold area. destruct (Z.ltb_spec o 0) as [|Ho]; [done|].
  destruct (_free_areas st !! Z.to_nat o) as [w|] eqn:Hw; [|done]. intros _. simpl.
  eexists. split; [done|]. split; [split; [done..|]| |].
  - simpl. by rewrite length_insert.
  - simpl. unfold area. rewrite (proj2 (Z.ltb_ge o 0)) by done.
    cbn [_free_areas set_areas]. rewrite list_lookup_insert_eq; [done|].
    apply lookup_lt_is_Some. eauto.
  - intros [o'|q|w'] Hs; simpl; try done. unfold area.
    destruct (Z.ltb_spec o' 0); [done|]. cbn [_free_areas set_areas].
    rewrite list_lookup_insert_ne; [done|]. intros E. apply Hs. f_equal. lia.
Qed.

Definition is_local (s : slot) : Prop := match s with SLocal _ => True | _ => False end.

Lemma write_slot_Ok st s v v0 :
  ~ is_local s -> read_slot st s = Ok v0 ->
  exists st', write_slot st s v = Ok st' /\ wrote st s v st'.
Proof.
  destruct s as [o|p|w]; intros Hl; [apply write_area_Ok|apply write_next_Ok|].
  by destruct Hl.
Qed.

#[local] Arguments read_slot : simpl never.

(** ** Linked lists *)
Fixpoint lchain (st : BuddyPageAllocator) (s : slot) (l : list Z) : Prop :=
  match l with
  | [] => read_slot st s = Ok None
  | p :: l' => read_slot st s = Ok (Some p) /\ lchain st (SNext p) l'
  end.

Fixpoint slot_at (s : slot) (l : list Z) : slot :=
  match l with [] => s | p :: l' => slot_at (SNext p) l' end.

Lemma lchain_head st s l : lchain st s l -> read_slot st s = Ok (head l).
Proof. destruct l; simpl; [done|]. by intros [? _]. Qed.

Lemma lchain_at st s l1 l2 : lchain st s (l1 ++ l2) -> lchain st (slot_at s l1) l2.
Proof.
  revert s. induction l1 as [|p l1 IH]; intros s; simpl; [done|]. intros [_ H]. by apply IH.
Qed.

(** A list is the same when its nodes are, even if it is reached elsewhere. *)
Lemma lchain_move st st' s s' l :
  lchain st s l -> read_slot st' s' = Ok (head l) ->
  (forall p, p ∈ l -> read_slot st' (SNext p) = read_slot st (SNext p)) -> lchain st' s' l.
Proof.
  revert s s'. induction l as [|p l IH]; intros s s'; simpl; [done|].
  intros [_ Hc] Hs Hp. split; [done|]. eapply IH; [done| |set_solver].
  rewrite Hp by set_solver. by apply lchain_head.
Qed.

Lemma slot_at_cases s l : slot_at s l = s /\ l = [] \/ exists p, p ∈ l /\ slot_at s l = SNext p.
Proof.
  revert s. induction l as [|p l IH]; intros s; simpl; [by left|]. right.
  destruct (IH (SNext p)) as [[-> ->]|(q & Hq & ->)]; [exists p|exists q]; split; set_solver.
Qed.

Lemma slot_at_snoc s l p : slot_at s (l ++ [p]) = SNext p.
Proof. revert s. induction l; intros s; simpl; auto. Qed.

(** Changing a list from one of its slots on. *)
Lemma lchain_replace st st' o l1 l2 l2' :
  lchain st (SArea o) (l1 ++ l2) -> NoDup l1 ->
  (forall s, s <> slot_at (SArea o) l1 -> s = SArea o \/ (exists p, p ∈ l1 /\ s = SNext p) ->
     read_slot st' s = read_slot st s) ->
  lchain st' (slot_at (SArea o) l1) l2' -> lchain st' (SArea o) (l1 ++ l2').
Proof.
  assert (forall s, (forall p, p ∈ l1 -> s <> SNext p) -> lchain st s (l1 ++ l2) -> NoDup l1 ->
    (forall s', s' <> slot_at s l1 -> s' = s \/ (exists p, p ∈ l1 /\ s' = SNext p) ->
       read_slot st' s' = read_slot st s') ->
    lchain st' (slot_at s l1) l2' -> lchain st' s (l1 ++ l2')) as H; [|by apply H].
  induction l1 as [|p l1 IH]; intros s Hs Hc Hnd Hr Hc'; simpl in *; [done|].
  apply NoDup_cons in Hnd as [Hp Hnd]. destruct Hc as [Hh Hc].
  split.
  - rewrite Hr; [done| |by left]. intros ->.
    destruct (slot_at_cases (SNext p) l1) as [[E _]|(q & Hq & E)]; rewrite E in Hs.
    + by apply (Hs p); [set_solver|].
    + by apply (Hs q); [set_solver|].
  - apply IH; try done.
    + intros q Hq [= ->]. done.
    + intros s' Hs' [->|(q & Hq & ->)]; apply Hr; try done; right; eexists; split; try done;
        set_solver.
Qed.

(** ** The representation *)
Record rep (st : BuddyPageAllocator) (F : Z -> list Z) : Prop := {
  rep_wf : wf_pds (pds st);
  rep_len : length (_free_areas st) = 17%nat;
  rep_chain : forall o, 0 <= o <= 16 -> lchain st (SArea o) (F o);
  rep_out : forall o p, p ∈ F o -> 0 <= o <= 16;
  rep_sorted : forall o, StronglySorted Z.lt (F o);
  rep_once : forall o o' p, p ∈ F o -> p ∈ F o' -> o = o';
  rep_null : forall p, 0 <= p < _nr_pages (pds st) -> (forall o, p ∉ F o) ->
    read_slot st (SNext p) = Ok None
}.

Lemma rep_ext st F F' : rep st F -> (forall o, F' o = F o) -> rep st F'.
Proof.
  intros [] E. split; intros *; rewrite ?E; eauto.
  intros Hp Hno. apply rep_null0; [done|]. intros o. rewrite <- E. apply Hno.
Qed.

Lemma rep_nodup st F o : rep st F -> NoDup (F o).
Proof. intros H. apply StronglySorted_lt_NoDup, H. Qed.

Lemma lchain_cells st s l :
  wf_pds (pds st) -> lchain st s l -> forall p, p ∈ l -> 0 <= p < _nr_pages (pds st).
Proof.
  intros Hwf. revert s. induction l as [|q l IH]; intros s Hc p Hp; [set_solver|].
  destruct Hc as [_ Hc]. apply elem_of_cons in Hp as [->|Hp]; [|by eapply IH].
  eapply read_next_cell; [done|]. by apply lchain_head.
Qed.

Lemma rep_cell st F o p : rep st F -> p ∈ F o -> 0 <= p < _nr_pages (pds st).
Proof.
  intros HR Hp. eapply lchain_cells; [apply HR| |done]. apply HR. by apply (rep_out _ _ HR _ p).
Qed.

Lemma walk_fuel_enough st l :
  wf_pds (pds st) -> NoDup l -> (forall p, p ∈ l -> 0 <= p < _nr_pages (pds st)) ->
  (length l < walk_fuel st)%nat.
Proof.
  intros [_ HC] Hnd Hl. unfold walk_fuel.
  apply (Nat.lt_succ_r (length l) (size (cells (pds st)))).
  rewrite <- (size_list_to_set (C := gset Z) l Hnd), <- size_dom.
  apply subseteq_size. intros p Hp%elem_of_list_to_set. apply elem_of_dom, HC, Hl, Hp.
Qed.

Lemma rep_fuel st F o : rep st F -> (length (F o) < walk_fuel st)%nat.
Proof.
  intros HR. apply walk_fuel_enough; [apply HR|by eapply rep_nodup|].
  intros p. by eapply rep_cell.
Qed.

(** The state is determined by the lists and what the frame keeps. *)
Lemma rep_unique st st' F F' :
  rep st F -> rep st' F' -> frame st st' -> (forall o, F o = F' o) -> st' = st.
Proof.
  intros HR HR' Hf HF.
  assert (forall s, ~ is_local s -> read_slot st' s = read_slot st s) as Hread.
  { assert (forall s l, lchain st s l -> lchain st' s l ->
      read_slot st' s = read_slot st s /\
      forall p, p ∈ l -> read_slot st' (SNext p) = read_slot st (SNext p)) as Hl.
    { intros s l. revert s. induction l as [|p l IH]; intros s; simpl.
      - intros -> ->. split; [done|]. set_solver.
      - intros [-> Hc] [-> Hc']. destruct (IH _ Hc Hc') as [E Hp]. split; [done|].
        intros q [->|Hq]%elem_of_cons; auto. }
    assert (forall o, 0 <= o <= 16 -> read_slot st' (SArea o) = read_slot st (SArea o) /\
      forall p, p ∈ F o -> read_slot st' (SNext p) = read_slot st (SNext p)) as Ho.
    { intros o Ho. apply Hl; [by apply HR|]. rewrite HF. by apply HR'. }
    intros [o|p|v] Hs; [| |by destruct Hs].
    - destruct (decide (0 <= o <= 16)); [by apply Ho|]. unfold read_slot, area.
      destruct (Z.ltb_spec o 0); [done|].
      rewrite !lookup_ge_None_2; [done|..].
      + rewrite (rep_len _ _ HR). lia.
      + rewrite (rep_len _ _ HR'). lia.
    - destruct (decide (0 <= p < _nr_pages (pds st))) as [Hp|Hp].
      + destruct (decide (Exists (fun o => p ∈ F o) (seqZ 0 17))) as [He|He].
        * apply Exists_exists in He as (o & Hin & Hpo). eapply Ho; [|done]. by apply (rep_out _ _ HR _ p).
        * assert (forall o, p ∉ F o) as Hno.
          { intros o Hpo. apply He, Exists_exists. exists o. split; [|done].
            apply elem_of_seqZ. pose proof (rep_out _ _ HR _ _ Hpo). lia. }
          rewrite (rep_null _ _ HR) by done. apply HR'.
          { by rewrite (fr_pages _ _ Hf). }
          intros o. by rewrite <- HF.
      + unfold read_slot, load. pose proof (rep_wf _ _ HR) as [_ HC].
        assert (cells (pds st) !! p = None) as E.
        { apply eq_None_not_Some. intros Hc. apply Hp, HC, Hc. }
        assert (cells (pds st') !! p = None) as E'.
        { apply eq_None_not_Some. intros Hc. apply Hp, HC, (frame_cells _ _ _ Hf), Hc. }
        by rewrite E, E'. }
  destruct Hf as [Hn Hb Ht Hlen].
  assert (_free_areas st' = _free_areas st) as Ea.
  { apply list_eq. intros i. specialize (Hread (SArea (Z.of_nat i)) ltac:(auto)).
    unfold read_slot, area in Hread.
    rewrite (proj2 (Z.ltb_ge _ _)) in Hread by lia. rewrite Nat2Z.id in Hread.
    destruct (_free_areas st' !! i), (_free_areas st !! i); simpl in Hread; congruence. }
  assert (cells (pds st') = cells (pds st)) as Ec.
  { apply map_eq. intros p. specialize (Ht p). specialize (Hread (SNext p) ltac:(auto)).
    unfold read_slot, load in Hread.
    destruct (cells (pds st') !! p) as [[]|], (cells (pds st) !! p) as [[]|];
      simpl in *; congruence. }
  destruct st as [a d], st' as [a' d']. simpl in *. destruct d, d'. simpl in *. congruence.
Qed.
