(* ===== verification/BuddyProof.v ===== *)
(** * Correctness of coursework/buddy.cpp

    [Inv st F]: the allocator's memory represents the free lists [F], and [F]
    is a coalesced buddy system over all page descriptors.  Every operation of
    the algorithm is proved to run to completion from such a state (no failed
    assertion, no stray pointer, enough fuel), to establish it again, and to
    change the set of free pages as it promises. *)
From stdpp Require Import functions.
From S2P Require Import Prelude Define PageDesc Buddy BuddyRep.

(** ** The list operations of coursework/buddy.cpp on represented lists

    [insert_block], [remove_block], [split_block] and [merge_block], proved
    against the abstract free lists. *)
#[local] Arguments read_slot : simpl never.
#[local] Arguments write_slot : simpl never.

(** ** Updating one list *)
Section one_list.
Context (st : BuddyPageAllocator) (F : Z -> list Z) (HR : rep st F).
Context (o : Z) (Ho : 0 <= o <= 16).

(** A segment [m] of the list becomes [m']; nothing else changes. *)
Lemma rep_update st' l1 m m' l2 :
  F o = l1 ++ m ++ l2 -> frame st st' -> StronglySorted Z.lt (l1 ++ m' ++ l2) ->
  (forall p k, p ∈ m' -> p ∉ m -> p ∉ F k) ->
  (forall s, s <> slot_at (SArea o) l1 -> (forall p, p ∈ m \/ p ∈ m' -> s <> SNext p) ->
     read_slot st' s = read_slot st s) ->
  (forall p, p ∈ m -> p ∉ m' -> read_slot st' (SNext p) = Ok None) ->
  lchain st' (slot_at (SArea o) l1) (m' ++ l2) ->
  rep st' (<[o := l1 ++ m' ++ l2]> F).
Proof.
  intros HF Hf Hs Hnew Hread Hnull Hc.
  pose proof (rep_nodup _ _ o HR) as Hnd. rewrite HF in Hnd.
  assert (forall p, p ∈ m -> p ∈ F o) as Hmo by (intros p; rewrite HF; set_solver).
  assert (forall p, p ∈ l1 -> p ∈ F o) as Hl1o by (intros p; rewrite HF; set_solver).
  assert (forall k p, p ∈ F k -> k <> o -> p ∉ m') as Hsep.
  { intros k p Hp Hne Hm'. destruct (decide (p ∈ m)) as [Hm|Hm].
    - apply Hne. by apply (rep_once _ _ HR _ _ p); [|apply Hmo].
    - by apply (Hnew p k). }
  assert (forall p, (forall k, p ∈ F k -> k <> o) -> SNext p <> slot_at (SArea o) l1) as Hsl.
  { intros p Hk E. destruct (slot_at_cases (SArea o) l1) as [[E' _]|(q & Hq & E')];
      rewrite E' in E; [done|]. injection E as ->. by apply (Hk o); [apply Hl1o|]. }
  split.
  - eapply frame_wf; [done|apply HR].
  - rewrite (fr_areas _ _ Hf). apply HR.
  - intros k Hk. destruct (decide (o = k)) as [<-|Hne].
    + rewrite fn_lookup_insert. eapply (lchain_replace st); [|by apply NoDup_app in Hnd as [? _]| |done].
      { rewrite <- HF. by apply HR. }
      intros s Hs1 Hs2. apply Hread; [done|]. intros p Hp ->.
      destruct Hs2 as [?|(q & Hq & [= <-])]; [done|].
      destruct Hp as [Hp|Hp].
      * apply NoDup_app in Hnd as (_ & Hd & _). apply (Hd p Hq). set_solver.
      * apply StronglySorted_app_inv in Hs as (_ & _ & Hd).
        specialize (Hd p p Hq ltac:(set_solver)). lia.
    + rewrite fn_lookup_insert_ne by done.
      eapply lchain_move; [by apply HR| |].
      * rewrite Hread; [by apply lchain_head, HR| |done].
        intros E. destruct (slot_at_cases (SArea o) l1) as [[E' _]|(q & Hq & E')]; congruence.
      * intros p Hp. apply Hread.
        -- apply Hsl. intros k' Hk' ->. apply Hne. by apply (rep_once _ _ HR _ _ p).
        -- intros q [Hq|Hq] [= <-].
           ++ apply Hne. by apply (rep_once _ _ HR _ _ p); [apply Hmo|].
           ++ by eapply Hsep.
  - intros k p. destruct (decide (o = k)) as [<-|Hne]; [done|].
    rewrite fn_lookup_insert_ne by done. apply HR.
  - intros k. destruct (decide (o = k)) as [<-|Hne]; [by rewrite fn_lookup_insert|].
    rewrite fn_lookup_insert_ne by done. apply HR.
  - assert (forall k p, o <> k -> p ∈ l1 ++ m' ++ l2 -> p ∈ F k -> False) as Hx.
    { intros k p Hne Hp Hk. destruct (decide (p ∈ m')) as [Hm|Hm]; [by eapply Hsep|].
      apply Hne. apply (rep_once _ _ HR _ _ p); [|done]. rewrite HF. set_solver. }
    intros k k' p. destruct (decide (o = k)) as [<-|Hne], (decide (o = k')) as [<-|Hne'];
      rewrite ?fn_lookup_insert, ?fn_lookup_insert_ne by done; [done|..]; intros H1 H2.
    + destruct (Hx k' p); done.
    + destruct (Hx k p); done.
    + by apply (rep_once _ _ HR _ _ p).
  - intros p Hp Hno. rewrite (fr_pages _ _ Hf) in Hp.
    assert (p ∉ l1 ++ m' ++ l2) as Hpo by (specialize (Hno o); by rewrite fn_lookup_insert in Hno).
    assert (forall k, o <> k -> p ∉ F k) as Hpk.
    { intros k Hne. specialize (Hno k). by rewrite fn_lookup_insert_ne in Hno. }
    destruct (decide (p ∈ m)) as [Hm|Hm]; [apply Hnull; set_solver|].
    assert (forall k, p ∉ F k) as Hall.
    { intros k. destruct (decide (o = k)) as [<-|?]; [rewrite HF; set_solver|auto]. }
    rewrite Hread; [by apply HR|apply Hsl; intros k Hk; by destruct (Hall k)|].
    intros q Hq [= <-]. set_solver.
Qed.
End one_list.

(** Linking a new node [p] in at one of a list's slots. *)
Lemma insert_at st F o l1 l2 p :
  rep st F -> 0 <= o <= 16 -> F o = l1 ++ l2 -> StronglySorted Z.lt (l1 ++ p :: l2) ->
  0 <= p < _nr_pages (pds st) -> (forall k, p ∉ F k) ->
  exists st1 st2,
    write_slot st (SNext p) (head l2) = Ok st1 /\
    write_slot st1 (slot_at (SArea o) l1) (Some p) = Ok st2 /\
    frame st st2 /\ rep st2 (add_block F p o) /\ read_slot st2 (slot_at (SArea o) l1) = Ok (Some p).
Proof.
  intros HR Ho HF Hs Hp Hno.
  assert (slot_at (SArea o) l1 <> SNext p) as Hne.
  { destruct (slot_at_cases (SArea o) l1) as [[-> _]|(q & Hq & ->)]; [done|].
    intros [= ->]. apply (Hno o). rewrite HF. set_solver. }
  assert (lchain st (slot_at (SArea o) l1) l2) as Hc.
  { apply lchain_at. rewrite <- HF. by apply HR. }
  destruct (read_next_Ok st p (rep_wf _ _ HR) Hp) as [v0 Hv0].
  destruct (write_slot_Ok st (SNext p) (head l2) v0) as (st1 & E1 & [Hf1 Hs1 Ho1]); [tauto|done|].
  destruct (write_slot_Ok st1 (slot_at (SArea o) l1) (Some p) (head l2)) as (st2 & E2 & [Hf2 Hs2 Ho2]).
  { destruct (slot_at_cases (SArea o) l1) as [[-> _]|(q & Hq & ->)]; tauto. }
  { rewrite Ho1 by done. by apply lchain_head. }
  exists st1, st2. do 2 (split; [done|]). split; [by etrans|].
  split; [|done].
  replace (add_block F p o) with (<[o := l1 ++ [p] ++ l2]> F).
  2:{ unfold add_block. rewrite HF. by rewrite ins_split. }
  apply (rep_update st F HR o Ho st2 l1 [] [p] l2); try done.
  - by etrans.
  - set_solver.
  - intros s Hsa Hsp. rewrite Ho2 by done. apply Ho1. apply Hsp. set_solver.
  - set_solver.
  - simpl. split; [done|]. eapply lchain_move; [done| |].
    + rewrite Ho2 by done. done.
    + intros q Hq. rewrite Ho2, Ho1; [done| |].
      * intros [= ->]. apply (Hno o). rewrite HF. set_solver.
      * destruct (slot_at_cases (SArea o) l1) as [[-> _]|(r & Hr & ->)]; [done|].
        intros [= ->]. apply StronglySorted_app_inv in Hs as (_ & _ & Hd).
        specialize (Hd r r Hr ltac:(set_solver)). lia.
Qed.

(** Unlinking the node after a slot and clearing it. *)
Lemma remove_at st F o l1 l2 p :
  rep st F -> 0 <= o <= 16 -> F o = l1 ++ p :: l2 ->
  read_slot st (SNext p) = Ok (head l2) /\
  exists st1 st2,
    write_slot st (slot_at (SArea o) l1) (head l2) = Ok st1 /\
    write_slot st1 (SNext p) None = Ok st2 /\
    frame st st2 /\ rep st2 (del_block F p o).
Proof.
  intros HR Ho HF.
  pose proof (rep_sorted _ _ HR o) as Hs. rewrite HF in Hs.
  pose proof (rep_nodup _ _ o HR) as Hnd. rewrite HF in Hnd.
  assert (lchain st (slot_at (SArea o) l1) (p :: l2)) as [Hc1 Hc2].
  { apply lchain_at. rewrite <- HF. by apply HR. }
  split; [by apply lchain_head|].
  assert (slot_at (SArea o) l1 <> SNext p) as Hne.
  { destruct (slot_at_cases (SArea o) l1) as [[-> _]|(q & Hq & ->)]; [done|].
    intros [= ->]. apply NoDup_app in Hnd as (_ & Hd & _). apply (Hd p Hq). set_solver. }
  destruct (write_slot_Ok st (slot_at (SArea o) l1) (head l2) (Some p)) as (st1 & E1 & [Hf1 Hs1 Ho1]).
  { destruct (slot_at_cases (SArea o) l1) as [[-> _]|(q & Hq & ->)]; tauto. }
  { done. }
  destruct (write_slot_Ok st1 (SNext p) None (head l2)) as (st2 & E2 & [Hf2 Hs2 Ho2]); [tauto| |].
  { rewrite Ho1 by done. by apply lchain_head. }
  exists st1, st2. do 2 (split; [done|]). split; [by etrans|].
  replace (del_block F p o) with (<[o := l1 ++ [] ++ l2]> F).
  2:{ unfold del_block. rewrite HF. by rewrite del_split. }
  apply NoDup_app in Hnd as (_ & Hd & Hnd). apply NoDup_cons in Hnd as [Hpl2 _].
  apply (rep_update st F HR o Ho st2 l1 [p] [] l2); try done.
  - by etrans.
  - rewrite <- (del_split p) by done. by apply del_sorted.
  - set_solver.
  - intros s Hsa Hsp. rewrite Ho2 by (apply Hsp; set_solver). by apply Ho1.
  - intros q ->%list_elem_of_singleton _. done.
  - simpl. eapply lchain_move; [done| |].
    + by rewrite Ho2.
    + intros q Hq. rewrite Ho2, Ho1; [done| |].
      * destruct (slot_at_cases (SArea o) l1) as [[-> _]|(r & Hr & ->)]; [done|].
        intros [= ->]. apply (Hd r Hr). set_solver.
      * intros [= ->]. done.
Qed.

(** Unlinking two neighbouring nodes at once. *)
Lemma remove_two_at st F o l1 l2 p q :
  rep st F -> 0 <= o <= 16 -> F o = l1 ++ p :: q :: l2 ->
  read_slot st (SNext p) = Ok (Some q) /\ read_slot st (SNext q) = Ok (head l2) /\
  exists st1 st2 st3,
    write_slot st (slot_at (SArea o) l1) (head l2) = Ok st1 /\
    read_slot st1 (SNext p) = Ok (Some q) /\
    write_slot st1 (SNext q) None = Ok st2 /\ write_slot st2 (SNext p) None = Ok st3 /\
    frame st st3 /\ rep st3 (del_block (del_block F p o) q o).
Proof.
  intros HR Ho HF.
  pose proof (rep_sorted _ _ HR o) as Hs. rewrite HF in Hs.
  pose proof (rep_nodup _ _ o HR) as Hnd. rewrite HF in Hnd.
  assert (lchain st (slot_at (SArea o) l1) (p :: q :: l2)) as (Hc1 & Hc2 & Hc3).
  { apply lchain_at. rewrite <- HF. by apply HR. }
  split; [done|]. split; [by apply lchain_head|].
  apply NoDup_app in Hnd as (_ & Hd & Hnd).
  apply NoDup_cons in Hnd as [Hp Hnd]. apply NoDup_cons in Hnd as [Hq _].
  assert (forall r, r ∈ p :: q :: l2 -> slot_at (SArea o) l1 <> SNext r) as Hne.
  { intros r Hr. destruct (slot_at_cases (SArea o) l1) as [[-> _]|(r' & Hr' & ->)]; [done|].
    intros [= ->]. by apply (Hd r). }
  assert (p <> q) as Hpq by set_solver.
  destruct (write_slot_Ok st (slot_at (SArea o) l1) (head l2) (Some p)) as (st1 & E1 & [Hf1 Hs1 Ho1]).
  { destruct (slot_at_cases (SArea o) l1) as [[-> _]|(r & _ & ->)]; tauto. }
  { done. }
  assert (read_slot st1 (SNext p) = Ok (Some q)) as Hrp.
  { rewrite Ho1; [done|]. intros E. symmetry in E. revert E. apply Hne. set_solver. }
  destruct (write_slot_Ok st1 (SNext q) None (head l2)) as (st2 & E2 & [Hf2 Hs2 Ho2]); [tauto| |].
  { rewrite Ho1; [by apply lchain_head|]. intros E. symmetry in E. revert E. apply Hne. set_solver. }
  destruct (write_slot_Ok st2 (SNext p) None (Some q)) as (st3 & E3 & [Hf3 Hs3 Ho3]); [tauto| |].
  { rewrite Ho2; [done|]. congruence. }
  exists st1, st2, st3. do 4 (split; [done|]).
  assert (frame st st3) as Hf by (etrans; [|done]; by etrans). split; [done|].
  assert (del q (del p (F o)) = l1 ++ [] ++ l2) as Hdel.
  { rewrite HF, del_split by done. apply del_split. rewrite <- (del_split p) by done.
    by apply del_sorted. }
  assert (forall r, r ∉ p :: q :: l2 \/ r ∈ l2 -> SNext r <> slot_at (SArea o) l1 ->
            read_slot st3 (SNext r) = read_slot st (SNext r)) as Hsame.
  { intros r Hr Hr'. rewrite Ho3, Ho2, Ho1; [done..| |]; intros [= ->]; set_solver. }
  eapply (rep_ext _ (<[o := l1 ++ [] ++ l2]> F)).
  2:{ intros k. unfold del_block. destruct (decide (o = k)) as [<-|?].
      - by rewrite !fn_lookup_insert.
      - by rewrite !fn_lookup_insert_ne. }
  apply (rep_update st F HR o Ho st3 l1 [p; q] [] l2); try done.
  - rewrite <- Hdel. do 2 apply del_sorted. apply HR.
  - set_solver.
  - intros s Hsa Hsp. rewrite Ho3, Ho2, Ho1; [done..| |]; apply Hsp; set_solver.
  - intros r Hr _. apply elem_of_cons in Hr as [->|Hr]; [done|].
    apply list_elem_of_singleton in Hr as ->.
    by rewrite Ho3 by congruence.
  - simpl. eapply lchain_move; [done| |].
    + rewrite Ho3, Ho2; [done| |]; apply Hne; set_solver.
    + intros r Hr. apply Hsame; [by right|]. intros E. symmetry in E. revert E. apply Hne. set_solver.
Qed.

(** ** The loops over a list *)
Lemma insert_walk_spec st p l fuel s :
  lchain st s l -> StronglySorted Z.lt l -> p ∉ l -> (length l < fuel)%nat ->
  insert_walk fuel st p s = Ok (slot_at s (filter (fun x => x < p) l)).
Proof.
  revert fuel s. induction l as [|a l IH]; intros fuel s Hc Hs Hp Hf;
    (destruct fuel as [|fuel]; [simpl in Hf; lia|]); simpl.
  - simpl in Hc. by rewrite Hc.
  - destruct Hc as [Hc1 Hc2]. rewrite Hc1. simpl.
    apply StronglySorted_inv in Hs as [Hs HF]. rewrite filter_cons.
    destruct (Z.ltb_spec a p); case_decide; try lia.
    + simpl. apply IH; [done|done|set_solver|simpl in Hf; lia].
    + rewrite Forall_forall in HF.
      destruct (filter (fun x => x < p) l) as [|y ys] eqn:E; [done|].
      assert (y ∈ filter (fun x => x < p) l) as [? Hy]%list_elem_of_filter by (rewrite E; left).
      specialize (HF _ Hy). lia.
Qed.

Lemma remove_walk_found st p l1 l2 fuel s :
  lchain st s (l1 ++ p :: l2) -> p ∉ l1 -> (length l1 < fuel)%nat ->
  remove_walk fuel st p s = Ok (slot_at s l1).
Proof.
  revert fuel s. induction l1 as [|a l1 IH]; intros fuel s Hc Hp Hf;
    (destruct fuel as [|fuel]; [simpl in Hf; lia|]); simpl;
    destruct Hc as [Hc1 Hc2]; rewrite Hc1; simpl.
  - rewrite bool_decide_false; [done|tauto].
  - rewrite bool_decide_true by set_solver. apply IH; [done|set_solver|simpl in Hf; lia].
Qed.

Lemma remove_walk_absent st p l fuel s :
  lchain st s l -> p ∉ l -> (length l < fuel)%nat ->
  exists s', remove_walk fuel st p s = Ok s' /\ read_slot st s' = Ok None.
Proof.
  revert fuel s. induction l as [|a l IH]; intros fuel s Hc Hp Hf;
    (destruct fuel as [|fuel]; [simpl in Hf; lia|]); simpl in Hc; simpl.
  - exists s. by rewrite Hc.
  - destruct Hc as [Hc1 Hc2]. rewrite Hc1. simpl. rewrite bool_decide_true by set_solver.
    apply IH; [done|set_solver|simpl in Hf; lia].
Qed.

Lemma merge_walk_found st p l1 l2 fuel s b :
  lchain st s (l1 ++ p :: l2) -> p ∉ l1 -> (length l1 < fuel)%nat ->
  merge_walk fuel st (Some p) b (head (l1 ++ p :: l2)) =
  Ok (match last l1 with Some x => Some x | None => b end, Some p).
Proof.
  revert fuel s b. induction l1 as [|a l1 IH]; intros fuel s b Hc Hp Hf;
    (destruct fuel as [|fuel]; [simpl in Hf; lia|]); simpl.
  - rewrite bool_decide_false; [done|tauto].
  - rewrite bool_decide_true by (intros [= ->]; set_solver).
    destruct Hc as [_ Hc]. rewrite (lchain_head _ _ _ Hc). cbn.
    erewrite IH; [|done|set_solver|simpl in Hf; lia].
    destruct l1 as [|c l1]; [done|]. rewrite (last_cons_cons a c l1).
    destruct (last (c :: l1)) eqn:E; [done|]. by apply last_None in E.
Qed.

#[local] Arguments merge_walk : simpl never.

(** ** The operations *)
Lemma insert_block_spec st F p o :
  rep st F -> 0 <= o <= 16 -> 0 <= p < _nr_pages (pds st) -> (forall k, p ∉ F k) ->
  exists st', insert_block st p o = Ok (slot_at (SArea o) (filter (fun x => x < p) (F o)), st') /\
    frame st st' /\ rep st' (add_block F p o) /\
    read_slot st' (slot_at (SArea o) (filter (fun x => x < p) (F o))) = Ok (Some p).
Proof.
  intros HR Ho Hp Hno.
  pose proof (split_around p (F o) (rep_sorted _ _ HR o) (Hno o)) as HF.
  assert (StronglySorted Z.lt (ins p (F o))) as Hs by apply ins_sorted, HR.
  destruct (insert_at st F o _ _ p HR Ho HF Hs Hp Hno) as (st1 & st2 & E1 & E2 & Hf & HR' & Hr).
  exists st2. split; [|done]. unfold insert_block.
  erewrite bind_Ok.
  2:{ apply insert_walk_spec; [by apply HR|apply HR|done|by apply rep_fuel]. }
  erewrite bind_Ok. 2:{ apply lchain_head, lchain_at. rewrite <- HF. by apply HR. }
  step_to E1. step_to E2. done.
Qed.

Lemma remove_block_spec st F p o :
  rep st F -> p ∈ F o ->
  exists st', remove_block st p o = Ok st' /\ frame st st' /\ rep st' (del_block F p o).
Proof.
  intros HR Hp. pose proof (rep_out _ _ HR _ _ Hp) as Ho.
  apply list_elem_of_split in Hp as (l1 & l2 & HF).
  destruct (remove_at st F o l1 l2 p HR Ho HF) as (Hn & st1 & st2 & E1 & E2 & Hf & HR').
  exists st2. split; [|done]. unfold remove_block.
  pose proof (rep_nodup _ _ o HR) as Hnd. rewrite HF in Hnd.
  apply NoDup_app in Hnd as (_ & Hd & _).
  pose proof (rep_fuel _ _ o HR) as Hfu. rewrite HF, length_app in Hfu. simpl in Hfu.
  pose proof (rep_chain _ _ HR o Ho) as Hc. rewrite HF in Hc.
  erewrite bind_Ok.
  2:{ eapply (remove_walk_found _ _ l1 l2); [done|intros Hi; apply (Hd p Hi); set_solver|lia]. }
  erewrite bind_Ok. 2:{ apply lchain_head, lchain_at, Hc. }
  simpl. rewrite bool_decide_true by done. simpl.
  step_to Hn. step_to E1. done.
Qed.

Lemma remove_block_absent_spec st F p o :
  rep st F -> 0 <= o <= 16 -> p ∉ F o -> remove_block st p o = Fault AssertionFailure.
Proof.
  intros HR Ho Hp. unfold remove_block.
  destruct (remove_walk_absent st p (F o) (walk_fuel st) (SArea o)) as (s & Es & Hs);
    [by apply HR|done|by apply rep_fuel|].
  step_to Es. step_to Hs. done.
Qed.

Lemma is_correct_alignment_spec st p o :
  wf_pds (pds st) -> 0 <= p <= _nr_pages (pds st) -> 0 <= o ->
  is_correct_alignment_for_order st p o = true <-> (2 ^ o | p).
Proof.
  intros [HN _] Hp Ho. unfold is_correct_alignment_for_order, pages_per_block.
  rewrite Z.shiftl_mul_pow2, Z.mul_1_l by done.
  rewrite pgd_to_pfn_id by lia. rewrite Z.eqb_eq. apply Z.mod_divide.
  pose proof (pow2_pos o Ho). lia.
Qed.

Lemma is_correct_alignment_false st p o :
  wf_pds (pds st) -> 0 <= p <= _nr_pages (pds st) -> 0 <= o ->
  ~ (2 ^ o | p) -> is_correct_alignment_for_order st p o = false.
Proof.
  intros Hwf Hp Ho Hn. apply not_true_iff_false. by rewrite is_correct_alignment_spec.
Qed.

(** The buddy of a block: the other half of the enclosing block. *)
Definition buddy (p o : Z) : Z :=
  if p mod 2 ^ (o + 1) =? 0 then p + 2 ^ o else p - 2 ^ o.

Lemma buddy_cases p o :
  0 <= o -> ((2 ^ (o + 1) | p) /\ buddy p o = p + 2 ^ o) \/
            (~ (2 ^ (o + 1) | p) /\ buddy p o = p - 2 ^ o).
Proof.
  intros Ho. unfold buddy. pose proof (pow2_pos (o + 1) ltac:(lia)).
  destruct (Z.eqb_spec (p mod 2 ^ (o + 1)) 0) as [E|E].
  - left. split; [|done]. apply Z.mod_divide; [lia|done].
  - right. split; [|done]. intros Hd. apply E, Z.mod_divide; [lia|done].
Qed.

Lemma buddy_of_spec st p o :
  wf_pds (pds st) -> 0 <= p < _nr_pages (pds st) -> 0 <= o <= 16 -> (2 ^ o | p) ->
  buddy p o <= _nr_pages (pds st) -> buddy_of st p o = Some (buddy p o).
Proof.
  intros Hwf Hp Ho Ha Hb. pose proof (pow2_pos o ltac:(lia)) as Hpos.
  assert (2 ^ o <= 2 ^ 16) by (apply Z.pow_le_mono_r; lia).
  pose proof Hwf as [HN _].
  unfold buddy_of. rewrite (proj2 (Z.leb_gt _ _)) by (unfold MAX_ORDER; lia).
  rewrite (proj2 (is_correct_alignment_spec st p o Hwf ltac:(lia) ltac:(lia)) Ha). simpl.
  unfold pages_per_block. rewrite Z.shiftl_mul_pow2, Z.mul_1_l by lia.
  rewrite pgd_to_pfn_id by lia.
  destruct (buddy_cases p o ltac:(lia)) as [[Hd E]|[Hd E]]; rewrite E in *.
  - rewrite (proj2 (is_correct_alignment_spec st p (o + 1) Hwf ltac:(lia) ltac:(lia)) Hd).
    rewrite wrap_small by lia. by apply pfn_to_pgd_lt.
  - rewrite is_correct_alignment_false by (done || lia).
    assert (0 <= p - 2 ^ o).
    { destruct Ha as [i ->]. destruct (decide (i = 0)) as [->|]; [|nia].
      exfalso. apply Hd. exists 0. lia. }
    rewrite wrap_small by lia. by apply pfn_to_pgd_lt.
Qed.

(** Between the two halves of a block there is no other block of their order. *)
Lemma no_block_between N F p o q :
  blocks_ok N F -> p ∈ F o -> q ∈ F o -> q <= p -> p < q + 2 ^ o -> q = p.
Proof.
  intros HB Hp Hq H1 H2. pose proof (pow2_pos o (proj1 (bo_order _ _ HB _ _ Hp))).
  destruct (bo_overlap _ _ HB o o q p p) as [-> _]; try done; lia.
Qed.

Lemma neighbours N F p o :
  blocks_ok N F -> p ∈ F o -> p + 2 ^ o ∈ F o -> exists l1 l2, F o = l1 ++ p :: p + 2 ^ o :: l2.
Proof.
  intros HB Hp Hq. pose proof (pow2_pos o (proj1 (bo_order _ _ HB _ _ Hp))).
  pose proof (bo_sorted _ _ HB o) as Hs.
  pose proof Hp as (l1 & l2 & HF)%list_elem_of_split. rewrite HF in Hs.
  apply StronglySorted_app_inv in Hs as (_ & Hs & Hd).
  apply StronglySorted_inv in Hs as [Hs HFa]. rewrite Forall_forall in HFa.
  destruct l2 as [|a l2].
  { rewrite HF in Hq. apply elem_of_app in Hq as [Hq|Hq%list_elem_of_singleton]; [|lia].
    specialize (Hd _ p Hq ltac:(set_solver)). lia. }
  exists l1, l2. rewrite HF. do 3 f_equal.
  assert (p < a) by (apply HFa; set_solver).
  assert (a <= p + 2 ^ o).
  { rewrite HF in Hq. apply elem_of_app in Hq as [Hq|Hq].
    { specialize (Hd _ p Hq ltac:(set_solver)). lia. }
    apply elem_of_cons in Hq as [Hq|Hq]; [lia|]. apply elem_of_cons in Hq as [Hq|Hq]; [lia|].
    apply StronglySorted_inv in Hs as [_ Hs]. rewrite Forall_forall in Hs.
    specialize (Hs _ Hq). lia. }
  destruct (decide (a = p + 2 ^ o)) as [|Hne]; [done|].
  assert (a ∈ F o) as Ha by (rewrite HF; set_solver).
  pose proof (no_block_between N F a o p HB Ha Hp). lia.
Qed.

Lemma split_block_spec st F bp p o :
  rep st F -> blocks_ok (_nr_pages (pds st)) F -> p ∈ F o -> 0 < o ->
  read_slot st bp = Ok (Some p) ->
  exists st', split_block st bp o = Ok (Some p, st') /\ frame st st' /\
    rep st' (split_blocks F p o).
Proof.
  intros HR HB Hp Ho Hbp. set (b := p + 2 ^ (o - 1)). set (N := _nr_pages (pds st)) in *.
  pose proof (rep_cell _ _ _ _ HR Hp) as Hcell.
  pose proof (bo_order _ _ HB _ _ Hp) as Ho16. pose proof (bo_aligned _ _ HB _ _ Hp) as Ha.
  pose proof (bo_bounds _ _ HB _ _ Hp) as Hb.
  pose proof (pow2_step o Ho) as H2. pose proof (pow2_pos (o - 1) ltac:(lia)) as Hpos.
  destruct (remove_block_spec st F p o HR Hp) as (st1 & E1 & Hf1 & HR1).
  assert (forall k, p ∉ del_block F p o k) as Hno1.
  { intros k [Hk Hn]%elem_of_del_block. apply Hn. split; [|done].
    by apply (rep_once _ _ HR _ _ p). }
  pose proof (fr_pages _ _ Hf1) as HN1.
  destruct (insert_block_spec st1 _ p (o - 1) HR1 ltac:(lia) ltac:(rewrite HN1; done) Hno1)
    as (st2 & E2 & Hf2 & HR2 & Hr2).
  set (F2 := add_block (del_block F p o) p (o - 1)) in *.
  set (l1 := filter (fun x => x < p) (del_block F p o (o - 1))) in *.
  set (l2 := filter (fun x => p < x) (del_block F p o (o - 1))).
  assert (F2 (o - 1) = (l1 ++ [p]) ++ l2) as HF2.
  { unfold F2, add_block. rewrite fn_lookup_insert. unfold ins. by rewrite <- app_assoc. }
  assert (forall q, q ∈ F2 (o - 1) -> p < q -> b < q) as Hgt.
  { intros q Hq Hpq. destruct (decide (b < q)) as [|Hle]; [done|].
    apply elem_of_add_block in Hq as [[Hq Hn]%elem_of_del_block|[_ ->]]; [|lia].
    destruct (bo_overlap _ _ HB o (o - 1) p q q) as [-> ?]; try done; unfold b in *; lia. }
  assert (forall k, b ∉ F2 k) as Hnob.
  { intros k Hk. apply elem_of_add_block in Hk as [[Hq Hn]%elem_of_del_block|[-> ?]]; [|unfold b in *; lia].
    destruct (bo_overlap _ _ HB o k p b b) as [Heq ?]; try done; unfold b in *; try lia.
    apply block_first. by eapply (bo_order _ _ HB). }
  assert (StronglySorted Z.lt ((l1 ++ [p]) ++ b :: l2)) as Hs.
  { pose proof (rep_sorted _ _ HR2 (o - 1)) as Hs2. rewrite HF2 in Hs2.
    apply StronglySorted_app_inv in Hs2 as (Hs21 & Hs22 & Hs23).
    apply StronglySorted_app; [done| |].
    - constructor; [done|]. apply Forall_forall. intros q Hq. apply Hgt; [rewrite HF2; set_solver|].
      apply Hs23; set_solver.
    - intros x y Hx [->|Hy]%elem_of_cons; [|by apply Hs23].
      apply elem_of_app in Hx as [Hx|Hx%list_elem_of_singleton]; [|unfold b; lia].
      apply list_elem_of_filter in Hx as [Hx _]. unfold b. lia. }
  assert (_nr_pages (pds st2) = N) as HN2 by (rewrite (fr_pages _ _ Hf2); done).
  destruct (insert_at st2 F2 (o - 1) (l1 ++ [p]) l2 b HR2 ltac:(lia) HF2 Hs) as
    (st3 & st4 & E3 & E4 & Hf4 & HR4 & Hr4); [unfold b; lia|done|].
  exists st4. split; [|split; [etrans; [done|]; by etrans|done]].
  unfold split_block. step_to Hbp. simpl.
  rewrite (proj2 (is_correct_alignment_spec st p o (rep_wf _ _ HR) ltac:(lia) ltac:(lia))) by done.
  simpl. rewrite (proj2 (Z.ltb_lt 0 o) Ho). simpl. step_to E1. rewrite E2. simpl.
  destruct (buddy_cases p (o - 1)) as [[_ Eb]|[Hn _]]; [lia| |].
  2:{ exfalso. apply Hn. by replace (o - 1 + 1) with o by lia. }
  rewrite buddy_of_spec; [|apply HR2|lia|lia|by apply aligned_halves|rewrite Eb; lia].
  rewrite Eb. simpl. step_to Hr2. simpl.
  pose proof (rep_chain _ _ HR2 (o - 1) ltac:(lia)) as Hc. rewrite HF2 in Hc.
  apply lchain_at in Hc. rewrite slot_at_snoc in Hc. apply lchain_head in Hc. step_to Hc.
  step_to E3. rewrite slot_at_snoc in E4. step_to E4.
  pose proof (rep_chain _ _ HR4 (o - 1) ltac:(lia)) as Hc4.
  unfold add_block in Hc4 at 1. rewrite fn_lookup_insert, HF2, ins_split in Hc4 by done.
  rewrite <- !app_assoc in Hc4. apply lchain_at, lchain_head in Hc4. by step_to Hc4.
Qed.

Lemma merge_block_spec st F p o :
  rep st F -> blocks_ok (_nr_pages (pds st)) F -> 0 <= o < 16 -> p ∈ F o -> p + 2 ^ o ∈ F o ->
  exists s st', merge_block st (SLocal (Some p)) o = Ok (s, st') /\ frame st st' /\
    rep st' (merge_blocks F p o) /\ read_slot st' s = Ok (Some p).
Proof.
  intros HR HB Ho Hp Hq.
  destruct (neighbours _ F p o HB Hp Hq) as (l1 & l2 & HF).
  pose proof (rep_cell _ _ _ _ HR Hp) as Hcell.
  destruct (remove_two_at st F o l1 l2 p _ HR ltac:(lia) HF)
    as (Hn & Hnn & st1 & st2 & st3 & E1 & Hn1 & E2 & E3 & Hf3 & HR3).
  assert (_nr_pages (pds st3) = _nr_pages (pds st)) as HN3 by apply (fr_pages _ _ Hf3).
  assert (forall k, p ∉ del_block (del_block F p o) (p + 2 ^ o) o k) as Hno.
  { intros k [[Hk Hne]%elem_of_del_block _]%elem_of_del_block. apply Hne. split; [|done].
    by apply (rep_once _ _ HR _ _ p). }
  destruct (insert_block_spec st3 _ p (o + 1) HR3 ltac:(lia) ltac:(rewrite HN3; done) Hno)
    as (st4 & E4 & Hf4 & HR4 & Hr4).
  eexists _, st4. split; [|split; [by etrans|done]].
  pose proof (rep_nodup _ _ o HR) as Hnd. rewrite HF in Hnd.
  apply NoDup_app in Hnd as (_ & Hd & _).
  assert (p ∉ l1) as Hpl by (intros Hi; apply (Hd p Hi); set_solver).
  pose proof (rep_chain _ _ HR o ltac:(lia)) as Hc. rewrite HF in Hc.
  pose proof (rep_fuel _ _ o HR) as Hfu. rewrite HF, length_app in Hfu. simpl in Hfu.
  pose proof (lchain_head _ _ _ Hc) as Hh.
  unfold merge_block. rewrite (bind_Ok _ _ (Some p)) by done. simpl.
  rewrite (proj2 (is_correct_alignment_spec st p o (rep_wf _ _ HR) ltac:(lia) ltac:(lia)))
    by (by eapply (bo_aligned _ _ HB)).
  simpl. rewrite (proj2 (Z.ltb_lt o MAX_ORDER)) by (unfold MAX_ORDER; lia). simpl.
  change (area st o) with (read_slot st (SArea o)). step_to Hh.
  rewrite (merge_walk_found st p l1 _ _ (SArea o)) by (done || lia). simpl.
  step_to Hn. simpl. step_to Hnn.
  assert ((if bool_decide (Some p = head (l1 ++ p :: p + 2 ^ o :: l2))
           then write_slot st (SArea o) (head l2)
           else before ← deref match last l1 with Some x => Some x
                  | None => head (l1 ++ p :: p + 2 ^ o :: l2) end;
                write_slot st (SNext before) (head l2)) = Ok st1) as Hw.
  { rewrite <- E1. destruct (decide (l1 = [])) as [->|Hl1].
    - by rewrite bool_decide_true.
    - destruct (exists_last Hl1) as (l1' & x & ->).
      rewrite bool_decide_false.
      + by rewrite last_snoc, slot_at_snoc.
      + destruct l1'; simpl; intros [= ->]; set_solver. }
  step_to Hw. step_to Hn1. simpl. step_to E2. step_to E3. exact E4.
Qed.

#[local] Arguments walk_fuel : simpl never.

Definition nr_pages (st : BuddyPageAllocator) : Z := _nr_pages (pds st).

Record Inv (st : BuddyPageAllocator) (F : Z -> list Z) : Prop := {
  inv_rep : rep st F;
  inv_blocks : blocks_ok (nr_pages st) F;
  inv_coalesced : coalesced F
}.

(** The pages [p, p + 2^o). *)
Definition in_block (p o x : Z) : Prop := p <= x < p + 2 ^ o.

(** ** Merging *)
Lemma next_of st F o l1 l2 p :
  rep st F -> F o = l1 ++ p :: l2 -> read_slot st (SNext p) = Ok (head l2).
Proof.
  intros HR HF. eapply (remove_at st F o l1 l2 p HR); [|done].
  apply (rep_out _ _ HR o p). rewrite HF. set_solver.
Qed.

(** A node and the node its [next_free] names are in the same list. *)
Lemma next_same_list st F o b p :
  rep st F -> 0 <= b < nr_pages st -> read_slot st (SNext b) = Ok (Some p) ->
  (p ∈ F o \/ b ∈ F o) -> b ∈ F o /\ p ∈ F o.
Proof.
  intros HR Hb Hn Hor.
  destruct (decide (Exists (fun k => b ∈ F k) (seqZ 0 17))) as [He|He].
  - apply Exists_exists in He as (k & _ & Hk).
    pose proof Hk as (l1 & l2 & HF)%list_elem_of_split.
    rewrite (next_of st F k l1 l2 b HR HF) in Hn. injection Hn as Hn.
    assert (p ∈ F k) as Hpk.
    { rewrite HF. destruct l2; [done|]. injection Hn as ->. set_solver. }
    assert (k = o) as <-; [|done].
    destruct Hor as [Ho|Ho]; [by apply (rep_once _ _ HR _ _ p)|by apply (rep_once _ _ HR _ _ b)].
  - rewrite (rep_null _ _ HR b) in Hn; [done|done|]. intros k Hk. apply He, Exists_exists.
    exists k. split; [|done]. apply elem_of_seqZ. pose proof (rep_out _ _ HR _ _ Hk). lia.
Qed.

Lemma two_pow_not_divide o p :
  0 <= o -> (2 ^ (o + 1) | p) -> (2 ^ (o + 1) | p + 2 ^ o) -> False.
Proof.
  intros Ho [i ->] [j Hj]. pose proof (pow2_pos o Ho).
  assert (2 ^ (o + 1) = 2 * 2 ^ o) as E by (rewrite Z.pow_add_r by lia; lia).
  rewrite E in Hj. assert (2 ^ o * (2 * i + 1) = 2 ^ o * (2 * j)) as E' by lia.
  apply Z.mul_reg_l in E'; lia.
Qed.

(** The enclosing region of the largest order: it holds the buddy of each of
    its blocks. *)
Definition region_end (x : Z) : Z := (x / 2 ^ 16 + 1) * 2 ^ 16.

Lemma buddy_in_region p o x :
  0 <= o < 16 -> (2 ^ o | p) -> 0 <= p -> in_block p o x ->
  0 <= buddy p o /\ buddy p o + 2 ^ o <= region_end x.
Proof.
  intros Ho Ha Hp Hx. unfold region_end, in_block in *.
  pose proof (Z.div_mod x (2 ^ 16) ltac:(lia)). pose proof (Z.mod_pos_bound x (2 ^ 16) ltac:(lia)).
  assert (2 ^ (o + 1) = 2 * 2 ^ o) as E by (rewrite Z.pow_add_r by lia; lia).
  assert (forall q, (2 ^ (o + 1) | q) -> q <= x < q + 2 ^ (o + 1) ->
    q + 2 ^ (o + 1) <= (x / 2 ^ 16 + 1) * 2 ^ 16) as Hreg.
  { intros q Hq Hqx.
    destruct (aligned_nested (o + 1) 16 q (x / 2 ^ 16 * 2 ^ 16) x); try done; try lia.
    by exists (x / 2 ^ 16). }
  destruct (buddy_cases p o) as [[Hd ->]|[Hd ->]]; [lia| |].
  - specialize (Hreg p Hd ltac:(lia)). lia.
  - destruct (aligned_left_or_right o p) as [?|Hl]; [lia|done|done|].
    specialize (Hreg _ Hl ltac:(lia)). split; [|lia].
    destruct Ha as [i ->]. destruct (decide (i = 0)) as [->|]; [|nia].
    exfalso. apply Hd. exists 0. lia.
Qed.

(** The two tests of [TryMerge] recognise a free buddy. *)
Lemma TryMerge_no_buddy st F p o x :
  rep st F -> blocks_ok (nr_pages st) F -> coalesced_off F x -> p ∈ F o -> in_block p o x ->
  buddy p o ∉ F o -> buddy_inv (nr_pages st) F.
Proof.
  intros HR HB HC Hp Hx Hb. split; [done|].
  pose proof (bo_order _ _ HB _ _ Hp).
  apply (coalesced_off_done (nr_pages st) F p o x); try done; intros Ho Hd Hin; apply Hb;
    destruct (buddy_cases p o) as [[Hd' E]|[Hd' E]]; [lia| | |lia| |]; rewrite E; try done.
  exfalso. eapply (two_pow_not_divide o (p - 2 ^ o)); [lia|done|].
  by replace (p - 2 ^ o + 2 ^ o) with p by lia.
Qed.

Lemma TryMerge_spec fuel st F p o x :
  rep st F -> blocks_ok (nr_pages st) F -> coalesced_off F x ->
  p ∈ F o -> in_block p o x -> region_end x <= nr_pages st -> 16 - o < Z.of_nat fuel ->
  exists st' F', TryMerge fuel st p o = Ok st' /\ frame st st' /\ Inv st' F' /\
    forall y, free_page F' y <-> free_page F y.
Proof.
  revert st F p o. induction fuel as [|fuel IH]; intros st F p o HR HB HC Hp Hx HN Hf.
  { pose proof (bo_order _ _ HB _ _ Hp). lia. }
  pose proof (bo_order _ _ HB _ _ Hp) as Ho. pose proof (bo_bounds _ _ HB _ _ Hp) as Hbd.
  pose proof (bo_aligned _ _ HB _ _ Hp) as Ha. pose proof (pow2_pos o ltac:(lia)) as Hpos.
  assert (forall q, q ∈ F o -> q + 2 ^ o ∈ F o -> (2 ^ (o + 1) | q) -> o < 16 ->
    in_block q (o + 1) x ->
    exists s st1, merge_block st (SLocal (Some q)) o = Ok (s, st1) /\
      read_slot st1 s = Ok (Some q) /\
      exists st' F', TryMerge fuel st1 q (o + 1) = Ok st' /\ frame st st' /\ Inv st' F' /\
      forall y, free_page F' y <-> free_page F y) as Hmerge.
  { intros q Hq Hq' Hqa Ho' Hqx.
    destruct (merge_block_spec st F q o HR HB) as (s & st1 & E & Hf1 & HR1 & Hr); [lia|done..|].
    exists s, st1. do 2 (split; [done|]).
    assert (nr_pages st1 = nr_pages st) as HN1 by apply (fr_pages _ _ Hf1).
    destruct (IH st1 (merge_blocks F q o) q (o + 1)) as (st' & F' & E' & Hf' & HI' & Hfree);
      try done; rewrite ?HN1; try done; try lia.
    - apply merge_blocks_ok; try done; lia.
    - eapply merge_blocks_off; try done; lia.
    - apply elem_of_merge_blocks. by right.
    - exists st', F'. do 2 (split; [done || by etrans|]). split; [done|]. intros y.
      rewrite Hfree. apply (free_page_merge (nr_pages st)); try done; lia. }
  cbn [TryMerge]. change maxOrder with 16.
  destruct (Z.leb_spec 16 o) as [Hge|Hlt].
  { exists st, F. do 2 (split; [done|]). split; [|done]. split; [done|done|].
    apply (coalesced_off_done (nr_pages st) F p o x); try done; lia. }
  destruct (buddy_in_region p o x) as [Hb1 Hb2]; [lia|done|lia|done|].
  rewrite buddy_of_spec; [|apply HR|unfold nr_pages in *; lia|lia|done|unfold nr_pages in *; lia].
  cbn [deref mbind outcome_bind].
  destruct (read_next_Ok st (buddy p o) (rep_wf _ _ HR)) as [bn Hbn]; [unfold nr_pages in *; lia|].
  destruct (read_next_Ok st p (rep_wf _ _ HR)) as [pn Hpn]; [unfold nr_pages in *; lia|].
  step_to Hbn.
  assert (is_correct_alignment_for_order st (buddy p o) (o + 1) = true <-> (2 ^ (o + 1) | buddy p o))
    as Hal by (apply is_correct_alignment_spec; [apply HR|unfold nr_pages in *; lia|lia]).
  destruct (bool_decide (bn = Some p) && _) eqn:Et.
  { apply andb_true_iff in Et as [Et1%bool_decide_eq_true Et2%Hal]. subst bn.
    destruct (next_same_list st F o (buddy p o) p) as [Hin _]; [done|lia|done|by left|].
    destruct (buddy_cases p o) as [[Hd E]|[Hd E]]; [lia| |]; rewrite E in *.
    { exfalso. by eapply (two_pow_not_divide o p); [lia|..]. }
    destruct (Hmerge (p - 2 ^ o)) as (s & st1 & E1 & Er & Hfin); [done|by rewrite Z.sub_add|done|lia| |].
    { unfold in_block in *. rewrite Z.pow_add_r by lia. lia. }
    rewrite E1. cbn [mbind outcome_bind]. step_to Er. done. }
  step_to Hpn.
  destruct (bool_decide (pn = Some (buddy p o))) eqn:Ep; [apply bool_decide_eq_true in Ep|apply bool_decide_eq_false in Ep].
  { subst pn. destruct (next_same_list st F o p (buddy p o)) as [_ Hin];
      [done|unfold nr_pages in *; lia|done|by right|].
    pose proof Hp as (l1 & l2 & HF)%list_elem_of_split.
    rewrite (next_of _ _ _ _ _ _ HR HF) in Hpn.
    assert (p < buddy p o) as Hlt'.
    { pose proof (rep_sorted _ _ HR o) as Hs. rewrite HF in Hs.
      apply StronglySorted_app_inv in Hs as (_ & Hs & _).
      apply StronglySorted_inv in Hs as [_ Hs]. rewrite Forall_forall in Hs. apply Hs.
      destruct l2 as [|a l2]; [done|]. injection Hpn as ->. left. }
    destruct (buddy_cases p o) as [[Hd E]|[Hd E]]; [lia| |lia]. rewrite E in *.
    destruct (Hmerge p) as (s & st1 & E1 & Er & Hfin); [done|done|done|lia| |].
    { unfold in_block in *. rewrite Z.pow_add_r by lia. lia. }
    rewrite E1. cbn [mbind outcome_bind]. step_to Er. done. }
  exists st, F. do 2 (split; [done|]). split; [|done].
  destruct (TryMerge_no_buddy st F p o x) as [? ?]; try done.
  intros Hin. destruct (buddy_cases p o) as [[Hd E]|[Hd E]]; [lia| |]; rewrite E in *.
  - destruct (neighbours _ F p o HB Hp Hin) as (l1 & l2 & HF).
    rewrite (next_of _ _ _ _ _ _ HR HF) in Hpn. injection Hpn as <-. done.
  - destruct (neighbours _ F (p - 2 ^ o) o HB Hin) as (l1 & l2 & HF); [by rewrite Z.sub_add|].
    rewrite (next_of _ _ _ _ _ _ HR HF) in Hbn. injection Hbn as <-.
    rewrite Z.sub_add, bool_decide_true in Et by done. simpl in Et.
    destruct (aligned_left_or_right o p) as [?|Hl]; [lia|done|done|].
    apply Hal in Hl. congruence.
Qed.

#[local] Arguments TryMerge : simpl never.

(** ** Freeing *)
Lemma block_not_free_not_in F p o :
  (forall k q, q ∈ F k -> 0 <= k) -> 0 <= o -> (forall x, in_block p o x -> ~ free_page F x) ->
  forall k, p ∉ F k.
Proof.
  intros Hk Ho Hno k Hp. apply (Hno p); [by apply block_first|].
  exists k, p. split; [done|]. apply block_first. by eapply Hk.
Qed.

Lemma free_pages_spec st F pgd order :
  Inv st F -> 0 <= order <= 16 -> (2 ^ order | pgd) -> 0 <= pgd ->
  region_end pgd <= nr_pages st ->
  (forall x, in_block pgd order x -> ~ free_page F x) ->
  exists st' F', free_pages st pgd order = Ok st' /\ frame st st' /\ Inv st' F' /\
    forall x, free_page F' x <-> free_page F x \/ in_block pgd order x.
Proof.
  intros [HR HB HC] Ho Ha Hp HN Hno.
  pose proof (pow2_pos order ltac:(lia)) as Hpos.
  assert (pgd + 2 ^ order <= region_end pgd) as Hreg.
  { unfold region_end. pose proof (Z.div_mod pgd (2 ^ 16) ltac:(lia)).
    pose proof (Z.mod_pos_bound pgd (2 ^ 16) ltac:(lia)).
    destruct (aligned_nested order 16 pgd (pgd / 2 ^ 16 * 2 ^ 16) pgd); try done; try lia.
    by exists (pgd / 2 ^ 16). }
  pose proof (block_not_free_not_in F pgd order) as Hnoin.
  specialize (Hnoin ltac:(intros k q Hq; by apply (bo_order _ _ HB _ _ Hq)) ltac:(lia) Hno).
  assert (0 <= pgd < _nr_pages (pds st)) as Hcell by (unfold nr_pages in *; lia).
  destruct (insert_block_spec st F pgd order HR Ho Hcell Hnoin) as (st1 & E1 & Hf1 & HR1 & _).
  assert (nr_pages st1 = nr_pages st) as HN1 by apply (fr_pages _ _ Hf1).
  assert (blocks_ok (nr_pages st1) (add_block F pgd order)) as HB1.
  { rewrite HN1. apply add_block_ok; try done. lia. }
  destruct (TryMerge_spec order_fuel st1 (add_block F pgd order) pgd order pgd)
    as (st' & F' & E' & Hf' & HI' & Hfree).
  - done.
  - done.
  - intros k q Hk Hq Hq1 Hq2.
    assert (2 ^ (k + 1) = 2 * 2 ^ k) by (rewrite Z.pow_add_r by lia; lia).
    pose proof (pow2_pos k ltac:(lia)).
    apply elem_of_add_block in Hq1 as [Hq1|[-> ->]]; [|lia].
    apply elem_of_add_block in Hq2 as [Hq2|[-> <-]]; [|lia].
    by destruct (HC k q Hk Hq Hq1).
  - apply elem_of_add_block. by right.
  - apply block_first. lia.
  - by rewrite HN1.
  - unfold order_fuel. lia.
  - exists st', F'. split; [|split; [by etrans|split; [done|]]].
    + unfold free_pages.
      rewrite (proj2 (is_correct_alignment_spec st pgd order (rep_wf _ _ HR) ltac:(lia) ltac:(lia)))
        by done.
      simpl. rewrite E1. simpl. done.
    + intros x. rewrite Hfree, free_page_add. done.
Qed.

(** ** Allocating *)
Lemma SplitToLeft_spec fuel st F ha p o until :
  rep st F -> blocks_ok (nr_pages st) F -> coalesced_off F p ->
  p ∈ F o -> 0 <= until <= o -> o - until < Z.of_nat fuel ->
  head (F o) = Some p -> (forall k, until <= k < o -> F k = []) ->
  read_slot st ha = Ok (Some p) ->
  exists st' F', SplitToLeft fuel st ha o until = Ok st' /\ frame st st' /\
    rep st' F' /\ blocks_ok (nr_pages st) F' /\ coalesced_off F' p /\ head (F' until) = Some p /\
    forall x, free_page F' x <-> free_page F x.
Proof.
  revert st F ha o. induction fuel as [|fuel IH]; intros st F ha o HR HB HC Hp Hu Hf Hh Hnil Hha.
  { lia. }
  cbn [SplitToLeft]. step_to Hha. simpl.
  destruct (Z.ltb_spec until o) as [Hlt|Hge].
  2:{ replace until with o by lia. exists st, F. done. }
  destruct (split_block_spec st F ha p o HR HB Hp ltac:(lia) Hha) as (st1 & E1 & Hf1 & HR1).
  rewrite E1. simpl.
  assert (nr_pages st1 = nr_pages st) as HN1 by apply (fr_pages _ _ Hf1).
  pose proof (bo_order _ _ HB _ _ Hp).
  assert (split_blocks F p o (o - 1) = [p; p + 2 ^ (o - 1)]) as Hlist.
  { pose proof (pow2_pos (o - 1) ltac:(lia)).
    apply StronglySorted_lt_ext.
    - apply (rep_sorted _ _ HR1).
    - repeat constructor. lia.
    - intros q. rewrite elem_of_split_blocks, Hnil by lia.
      rewrite !elem_of_cons, elem_of_nil. naive_solver lia. }
  destruct (IH st1 (split_blocks F p o) (SLocal (Some p)) (o - 1)) as (st' & F' & E' & Hf' & HR' & HB' & HC' & Hh' & Hfree);
    rewrite ?HN1; try lia.
  - done.
  - apply split_blocks_ok; [done|done|lia].
  - eapply split_blocks_off; try done; [lia|apply block_first; lia].
  - rewrite Hlist. left.
  - by rewrite Hlist.
  - intros k Hk. rewrite <- (Hnil k) by lia. unfold split_blocks, add_block, del_block.
    by rewrite !fn_lookup_insert_ne by lia.
  - done.
  - exists st', F'. split; [done|]. split; [by etrans|]. rewrite HN1 in HB'. do 4 (split; [done|]).
    intros x. rewrite Hfree. apply (free_page_split (nr_pages st)); try done. lia.
Qed.

#[local] Arguments SplitToLeft : simpl never.

(** The order [alloc_pages] takes the block from. *)
Definition first_fit (F : Z -> list Z) (order k p : Z) : Prop :=
  order <= k <= 16 /\ head (F k) = Some p /\ forall j, order <= j < k -> F j = [].

Lemma alloc_loop_spec fuel st F o order :
  Inv st F -> 0 <= order <= o -> o <= 17 -> 17 - o < Z.of_nat fuel ->
  (forall k, order <= k < o -> F k = []) ->
  (exists k p st' F', first_fit F order k p /\
     alloc_loop fuel st o order = Ok (Some p, st') /\ frame st st' /\ Inv st' F' /\
     (forall x, in_block p order x -> free_page F x) /\
     (forall x, free_page F' x <-> free_page F x /\ ~ in_block p order x)) \/
  (alloc_loop fuel st o order = Ok (None, st) /\ forall k, order <= k -> F k = []).
Proof.
  revert o. induction fuel as [|fuel IH]; intros o HI Ho Ho17 Hf Hnil; [lia|].
  pose proof HI as [HR HB HC].
  cbn [alloc_loop]. change maxOrder with 16.
  destruct (Z.leb_spec o 16) as [Hle|Hgt].
  2:{ right. split; [done|]. intros k Hk. destruct (decide (k < o)) as [|]; [by apply Hnil|].
      destruct (F k) as [|q l] eqn:E; [done|].
      pose proof (bo_order _ _ HB k q ltac:(rewrite E; left)). lia. }
  pose proof (lchain_head _ _ _ (rep_chain _ _ HR o ltac:(lia))) as Hh.
  change (area st o) with (read_slot st (SArea o)). step_to Hh.
  destruct (head (F o)) as [p|] eqn:Ep.
  2:{ destruct (F o) eqn:E; [|done]. apply IH; [done|lia|lia|lia|].
      intros k Hk. destruct (decide (k = o)) as [->|]; [done|]. apply Hnil. lia. }
  left. assert (p ∈ F o) as Hp by (destruct (F o); [done|]; injection Ep as ->; left).
  destruct (SplitToLeft_spec order_fuel st F (SArea o) p o order) as
    (st1 & F1 & E1 & Hf1 & HR1 & HB1 & HC1 & Hh1 & Hfree1); try done.
  { by apply coalesced_is_off. } { unfold order_fuel. lia. }
  pose proof (lchain_head _ _ _ (rep_chain _ _ HR1 order ltac:(lia))) as Hr1.
  assert (p ∈ F1 order) as Hp1 by (destruct (F1 order); [done|]; injection Hh1 as ->; left).
  destruct (remove_block_spec st1 F1 p order HR1 Hp1) as (st2 & E2 & Hf2 & HR2).
  exists o, p, st2, (del_block F1 p order). split; [split; [lia|done]|].
  split.
  { step_to E1. change (area st1 order) with (read_slot st1 (SArea order)). step_to Hr1.
    rewrite Hh1. simpl. step_to E2. done. }
  assert (nr_pages st2 = nr_pages st) as HN2.
  { unfold nr_pages. by rewrite (fr_pages _ _ Hf2), (fr_pages _ _ Hf1). }
  split; [by etrans|]. split.
  { split; [done|rewrite HN2; by apply del_block_ok|].
    eapply del_block_coalesced; try done. apply block_first. lia. }
  split; intros x; [|rewrite (free_page_del (nr_pages st)) by done; by rewrite Hfree1].
  intros Hx. apply Hfree1. by exists order, p.
Qed.

Lemma alloc_pages_spec st F order :
  Inv st F -> 0 <= order < 2 ^ 31 ->
  (exists k p st' F', first_fit F order k p /\
     alloc_pages st order = Ok (Some p, st') /\ frame st st' /\ Inv st' F' /\
     (forall x, in_block p order x -> free_page F x) /\
     (forall x, free_page F' x <-> free_page F x /\ ~ in_block p order x)) \/
  (alloc_pages st order = Ok (None, st) /\ forall k, order <= k -> F k = []).
Proof.
  intros HI Ho. unfold alloc_pages.
  destruct (decide (order <= 16)) as [Hle|Hgt].
  - rewrite wrap_small by lia. apply alloc_loop_spec; [done|lia|lia|unfold order_fuel; lia|lia].
  - assert (forall k, order <= k -> F k = []) as Hnil.
    { intros k Hk. destruct (F k) as [|q l] eqn:E; [done|].
      pose proof (bo_order _ _ (inv_blocks _ _ HI) k q ltac:(rewrite E; left)). lia. }
    right. split; [|done]. rewrite wrap_small by lia. unfold order_fuel. cbn [alloc_loop].
    change maxOrder with 16. by rewrite (proj2 (Z.leb_gt _ _)) by lia.
Qed.

(** ** Reserving *)
Definition holds_in (F : Z -> list Z) (k x b : Z) : Prop := b ∈ F k /\ in_block b k x.

Lemma reserve_split_spec fuel st F l1 l x i :
  rep st F -> blocks_ok (nr_pages st) F -> 0 < i <= 16 -> F i = l1 ++ l ->
  (forall b, b ∈ l1 -> b + 2 ^ i <= x) -> (length l < fuel)%nat ->
  (exists b st', holds_in F i x b /\ reserve_split fuel st (head l) x i = Ok st' /\
     frame st st' /\ rep st' (split_blocks F b i)) \/
  ((forall b, ~ holds_in F i x b) /\ reserve_split fuel st (head l) x i = Ok st).
Proof.
  revert fuel l1. induction l as [|b l IH]; intros fuel l1 HR HB Hi HF Hl1 Hf;
    (destruct fuel as [|fuel]; [simpl in Hf; lia|]); simpl.
  { right. split; [|done]. intros b [Hb Hx]. rewrite HF, app_nil_r in Hb.
    specialize (Hl1 b Hb). unfold in_block in Hx. lia. }
  assert (b ∈ F i) as Hb by (rewrite HF; set_solver).
  assert (forall b', b' ∈ l -> b < b') as Hgt.
  { pose proof (rep_sorted _ _ HR i) as Hs. rewrite HF in Hs.
    apply StronglySorted_app_inv in Hs as (_ & Hs & _).
    apply StronglySorted_inv in Hs as [_ Hs]. by rewrite Forall_forall in Hs. }
  unfold GetSize. rewrite Z.shiftl_mul_pow2, Z.mul_1_l by lia.
  destruct (Z.leb_spec b x) as [Hbx|Hbx].
  2:{ right. split; [|done]. intros b' [Hb' Hx]. unfold in_block in Hx. rewrite HF in Hb'.
      apply elem_of_app in Hb' as [Hb'|[->|Hb']%elem_of_cons].
      - specialize (Hl1 _ Hb'). lia.
      - lia.
      - specialize (Hgt _ Hb'). lia. }
  destruct (Z.ltb_spec x (2 ^ i + b)) as [Hin|Hout].
  { left. destruct (split_block_spec st F (SLocal (Some b)) b i HR HB Hb) as (st1 & E & Hf1 & HR1);
      [lia|done|].
    exists b, st1. split; [split; [done|unfold in_block; lia]|]. by rewrite E. }
  rewrite (next_of st F i l1 l b HR HF). cbn [mbind outcome_bind].
  apply (IH fuel (l1 ++ [b])); try done.
  - by rewrite <- app_assoc.
  - intros b' [Hb'|Hb']%elem_of_app; [by apply Hl1|].
    apply list_elem_of_singleton in Hb' as ->. lia.
  - simpl in Hf. lia.
Qed.

Lemma reserve_orders_spec i st F x :
  rep st F -> blocks_ok (nr_pages st) F -> coalesced_off F x -> (i <= 16)%nat ->
  (forall k b, holds_in F k x b -> k <= Z.of_nat i) ->
  exists st' F', reserve_orders i st x = Ok st' /\ frame st st' /\ rep st' F' /\
    blocks_ok (nr_pages st) F' /\ coalesced_off F' x /\ (forall y, free_page F' y <-> free_page F y) /\
    (free_page F x -> x ∈ F' 0) /\ (~ free_page F x -> st' = st).
Proof.
  revert st F. induction i as [|i IH]; intros st F HR HB HC Hi Htop.
  { exists st, F. do 6 (split; [done|]). split; [|done]. intros (k & b & Hb & Hx).
    pose proof (bo_order _ _ HB _ _ Hb). assert (k <= 0) by (by eapply (Htop k b)).
    replace k with 0 in * by lia. by replace x with b by lia. }
  cbn [reserve_orders].
  pose proof (lchain_head _ _ _ (rep_chain _ _ HR (Z.of_nat (S i)) ltac:(lia))) as Hh.
  change (area st (Z.of_nat (S i))) with (read_slot st (SArea (Z.of_nat (S i)))). step_to Hh.
  destruct (reserve_split_spec (walk_fuel st) st F [] (F (Z.of_nat (S i))) x (Z.of_nat (S i)))
    as [(b & st1 & [Hb Hbx] & E & Hf1 & HR1)|[Hno E]]; try done; try lia; [set_solver|by apply rep_fuel| |].
  - step_to E. set (k := Z.of_nat (S i)) in *.
    assert (nr_pages st1 = nr_pages st) as HN1 by apply (fr_pages _ _ Hf1).
    assert (blocks_ok (nr_pages st) (split_blocks F b k)) as HB1 by (apply split_blocks_ok; [done|done|lia]).
    assert (forall y, free_page (split_blocks F b k) y <-> free_page F y) as Hfr.
    { intros y. apply (free_page_split (nr_pages st)); [done|done|lia]. }
    destruct (IH st1 (split_blocks F b k)) as (st' & F' & E' & Hf' & HR' & HB' & HC' & Hfree & Hx & Hn);
      rewrite ?HN1 in *; try done; [|lia| |].
    + eapply split_blocks_off; done || lia.
    + intros k' b' [Hb' Hx']. apply elem_of_split_blocks in Hb' as [[Hb' Hne]|[-> _]]; [|lia].
      destruct (bo_overlap _ _ HB k k' b b' x) as [-> ->]; [done..|]. by destruct Hne.
    + exists st', F'. split; [done|]. split; [by etrans|]. do 3 (split; [done|]).
      split; [intros y; by rewrite Hfree|]. split; [by rewrite <- Hfr|].
      intros Hnf. destruct Hnf. by exists k, b.
  - step_to E. destruct (IH st F) as (st' & F' & E' & Hf' & HR' & HB' & HC' & Hfree & Hx & Hn);
      try done; [lia| |].
    + intros k b Hkb. specialize (Htop k b Hkb).
      destruct (decide (k = Z.of_nat (S i))) as [->|]; [by destruct (Hno b)|lia].
    + by exists st', F'.
Qed.

Lemma reserve_find_spec fuel st F l1 l x :
  rep st F -> F 0 = l1 ++ l -> (length l < fuel)%nat ->
  (x ∈ l /\ exists st', reserve_find fuel st (head l) x = Ok (true, st') /\ frame st st' /\
     rep st' (del_block F x 0)) \/
  (x ∉ l /\ reserve_find fuel st (head l) x = Ok (false, st)).
Proof.
  revert fuel l1. induction l as [|b l IH]; intros fuel l1 HR HF Hf;
    (destruct fuel as [|fuel]; [simpl in Hf; lia|]); simpl.
  { right. split; [set_solver|done]. }
  destruct (decide (b = x)) as [->|Hne].
  - left. split; [left|]. rewrite bool_decide_true by done.
    destruct (remove_block_spec st F x 0 HR) as (st' & E & Hf' & HR'); [rewrite HF; set_solver|].
    step_to E. by exists st'.
  - rewrite bool_decide_false by done. rewrite (next_of st F 0 l1 l b HR HF).
    cbn [mbind outcome_bind].
    destruct (IH fuel (l1 ++ [b])) as [[Hin ?]|[Hin ?]]; [done|by rewrite <- app_assoc|simpl in Hf; lia| |].
    + left. split; [by right|done].
    + right. split; [|done]. intros [?|?]%elem_of_cons; congruence.
Qed.

Lemma reserve_page_spec st F x :
  Inv st F ->
  (free_page F x /\ exists st' F', reserve_page st x = Ok (true, st') /\ frame st st' /\
     Inv st' F' /\ forall y, free_page F' y <-> free_page F y /\ y <> x) \/
  (~ free_page F x /\ reserve_page st x = Ok (false, st)).
Proof.
  intros [HR HB HC].
  destruct (reserve_orders_spec 16 st F x HR HB) as
    (st1 & F1 & E1 & Hf1 & HR1 & HB1 & HC1 & Hfree1 & Hx1 & Hn1).
  { by apply coalesced_is_off. } { lia. }
  { intros k b [Hb _]. pose proof (bo_order _ _ HB _ _ Hb). lia. }
  unfold reserve_page. change (Z.to_nat maxOrder) with 16%nat. step_to E1.
  pose proof (lchain_head _ _ _ (rep_chain _ _ HR1 0 ltac:(lia))) as Hh.
  change (area st1 0) with (read_slot st1 (SArea 0)). step_to Hh.
  destruct (reserve_find_spec (walk_fuel st1) st1 F1 [] (F1 0) x HR1 eq_refl)
    as [(Hin & st2 & E2 & Hf2 & HR2)|[Hin E2]]; [by apply rep_fuel|left|right].
  - split; [apply Hfree1; exists 0, x; split; [done|lia]|].
    exists st2, (del_block F1 x 0). split; [done|]. split; [by etrans|].
    assert (nr_pages st2 = nr_pages st) as HN2.
    { unfold nr_pages. by rewrite (fr_pages _ _ Hf2), (fr_pages _ _ Hf1). }
    split; [split; [done|rewrite HN2; by apply del_block_ok|]|].
    + eapply del_block_coalesced; try done. lia.
    + intros y. rewrite (free_page_del (nr_pages st)) by done. rewrite Hfree1.
      change (2 ^ 0) with 1. split; (intros [? Hy]; split; [done|lia]).
  - assert (~ free_page F x) as Hnf by auto. split; [done|]. by rewrite E2, (Hn1 Hnf).
Qed.

(** ** Initialising *)

(** [init] links a block at the end of its list: the block's own
    [next_free] is still NULL. *)
Lemma append_at st F p o :
  rep st F -> 0 <= o <= 16 -> 0 <= p < nr_pages st -> (forall k, p ∉ F k) ->
  (forall q, q ∈ F o -> q < p) ->
  exists st', write_slot st (slot_at (SArea o) (F o)) (Some p) = Ok st' /\ frame st st' /\
    rep st' (add_block F p o) /\ slot_at (SArea o) (add_block F p o o) = SNext p.
Proof.
  intros HR Ho Hp Hno Hlt. pose proof (rep_chain _ _ HR o Ho) as Hc.
  rewrite <- (app_nil_r (F o)) in Hc. apply lchain_at in Hc. simpl in Hc.
  assert (slot_at (SArea o) (F o) <> SNext p) as Hne.
  { destruct (slot_at_cases (SArea o) (F o)) as [[-> _]|(q & Hq & ->)]; [done|].
    intros [= ->]. by apply (Hno o). }
  destruct (write_slot_Ok st (slot_at (SArea o) (F o)) (Some p) None) as (st' & E & [Hf Hs Hot]).
  { destruct (slot_at_cases (SArea o) (F o)) as [[-> _]|(q & _ & ->)]; tauto. } { done. }
  exists st'. split; [done|]. split; [done|].
  assert (StronglySorted Z.lt (F o ++ [p])) as Hsort.
  { apply StronglySorted_app; [apply HR|repeat constructor|].
    intros a b Ha ->%list_elem_of_singleton. by apply Hlt. }
  assert (ins p (F o) = F o ++ [p]) as Hins.
  { rewrite <- (app_nil_r (F o)) at 1. by apply ins_split. }
  split.
  2:{ unfold add_block. by rewrite fn_lookup_insert, Hins, slot_at_snoc. }
  unfold add_block. rewrite Hins.
  apply (rep_update st F HR o Ho st' (F o) [] [p] []); try done.
  - by rewrite app_nil_r.
  - intros q k ->%list_elem_of_singleton _. apply Hno.
  - intros s Hs1 _. by apply Hot.
  - set_solver.
  - simpl. split; [done|]. rewrite Hot by done. by apply HR.
Qed.

(** The state [init] has built when the pages below [page] are laid out, in
    blocks of order at least [o]. *)
Record laid_out (st : BuddyPageAllocator) (F : Z -> list Z) (page : Z) : Prop := {
  lo_inv : Inv st F;
  lo_pages : 0 <= page <= nr_pages st;
  lo_free : forall x, free_page F x <-> 0 <= x < page
}.

Definition one_per_order (F : Z -> list Z) (o left : Z) : Prop :=
  o = 16 \/ (F o = [] /\ left < 2 ^ (o + 1)) \/ left < 2 ^ o.

Lemma add_block_coalesced F p o : coalesced F -> o = 16 \/ F o = [] -> coalesced (add_block F p o).
Proof.
  intros HC Ho k q Hk Hd H1 H2. apply elem_of_add_block in H1, H2.
  destruct (decide (k = o)) as [->|Hne].
  - destruct Ho as [->|E]; [lia|]. rewrite E in *. pose proof (pow2_pos o ltac:(lia)).
    destruct H1 as [H1|[_ ->]]; [set_solver|]. destruct H2 as [H2|[_ H2]]; [set_solver|lia].
  - destruct H1 as [H1|[? _]]; [|done]. destruct H2 as [H2|[? _]]; [|done].
    by apply (HC k q).
Qed.

Lemma laid_out_step st F page o :
  laid_out st F page -> 0 <= o <= 16 -> (2 ^ o | page) -> page + 2 ^ o <= nr_pages st ->
  o = 16 \/ F o = [] ->
  exists st', write_slot st (slot_at (SArea o) (F o)) (Some page) = Ok st' /\ frame st st' /\
    laid_out st' (add_block F page o) (page + 2 ^ o) /\
    slot_at (SArea o) (add_block F page o o) = SNext page.
Proof.
  intros [[HR HB HC] Hp Hfree] Ho Ha HN Hone. pose proof (pow2_pos o ltac:(lia)) as Hpos.
  assert (forall k q, q ∈ F k -> 0 <= q < page) as Hlt.
  { intros k q Hq. apply Hfree. exists k, q. split; [done|].
    apply block_first. by apply (bo_order _ _ HB _ _ Hq). }
  destruct (append_at st F page o HR Ho) as (st' & E & Hf & HR' & Hs).
  { lia. } { intros k Hk. specialize (Hlt _ _ Hk). lia. }
  { intros q Hq. specialize (Hlt _ _ Hq). lia. }
  assert (nr_pages st' = nr_pages st) as HN' by apply (fr_pages _ _ Hf).
  exists st'. do 2 (split; [done|]). split; [|done]. split; [split; [done| |]| |].
  - rewrite HN'. apply add_block_ok; try done; [lia|]. intros x Hx Hfx. apply Hfree in Hfx. lia.
  - by apply add_block_coalesced.
  - lia.
  - intros x. rewrite free_page_add, Hfree. lia.
Qed.

Lemma init_order_spec fuel st F o page left last :
  laid_out st F page -> 0 <= o <= 16 -> (2 ^ o | page) -> left = nr_pages st - page ->
  one_per_order F o left ->
  match last with Some l => SNext l | None => SArea o end = slot_at (SArea o) (F o) ->
  left < Z.of_nat fuel ->
  exists page' left' last' st' F', init_order fuel st o page left last = Ok (page', left', last', st') /\
    frame st st' /\ laid_out st' F' page' /\ left' = nr_pages st - page' /\ left' < 2 ^ o /\
    (2 ^ o | page') /\ (forall k, k < o -> F' k = F k) /\
    match last' with Some l => SNext l | None => SArea o end = slot_at (SArea o) (F' o).
Proof.
  revert st F page left last.
  induction fuel as [|fuel IH]; intros st F page left last HL Ho Ha Hleft Hone Hlast Hf.
  { pose proof (lo_pages _ _ _ HL). lia. }
  pose proof (pow2_pos o ltac:(lia)) as Hpos.
  assert (2 ^ (o + 1) = 2 * 2 ^ o) as E2 by (rewrite Z.pow_add_r by lia; lia).
  cbn [init_order]. rewrite Z.shiftl_mul_pow2, Z.mul_1_l by lia.
  destruct (Z.leb_spec (2 ^ o) left) as [Hle|Hgt].
  2:{ exists page, left, last, st, F. split_and!; done. }
  destruct (laid_out_step st F page o HL Ho Ha) as (st1 & E1 & Hf1 & HL1 & Hs1); [lia| |].
  { destruct Hone as [?|[[? _]|?]]; [by left|by right|lia]. }
  assert (nr_pages st1 = nr_pages st) as HN1 by apply (fr_pages _ _ Hf1).
  destruct (IH st1 (add_block F page o) (page + 2 ^ o) (left - 2 ^ o) (Some page)) as
    (page' & left' & last' & st' & F' & E' & Hf' & HL' & Hleft' & Hlt' & Ha' & Hk' & Hlast');
    rewrite ?HN1; try done; try lia.
  - apply Z.divide_add_r; [done|]. apply Z.divide_refl.
  - destruct Hone as [->|[[_ ?]|?]]; [by left|right; right; lia|lia].
  - exists page', left', last', st', F'. split.
    { replace (match last with Some l => write_slot st (SNext l) (Some page)
               | None => write_slot st (SArea o) (Some page) end) with (Ok st1); [done|].
      rewrite <- E1, <- Hlast. by destruct last. }
    split; [by etrans|]. split; [done|]. rewrite HN1 in Hleft'. do 3 (split; [done|]). split; [|done].
    intros k Hk. rewrite Hk' by done. unfold add_block. by rewrite fn_lookup_insert_ne by lia.
Qed.

(** Clearing a [next_free] that is NULL already changes nothing. *)
Lemma clear_last st F o l :
  rep st F -> 0 <= o <= 16 -> SNext l = slot_at (SArea o) (F o) ->
  write_slot st (SNext l) None = Ok st.
Proof.
  intros HR Ho El.
  pose proof (rep_chain _ _ HR o Ho) as Hc. rewrite <- (app_nil_r (F o)) in Hc.
  apply lchain_at in Hc. rewrite <- El in Hc. simpl in Hc.
  unfold write_slot, store_next. unfold read_slot, load in *.
  destruct (cells (pds st) !! l) as [d|] eqn:Ed; [|done]. simpl in *. injection Hc as Hc.
  f_equal. destruct st as [a [n b m]], d as [nf t]. unfold set_pds, set_cells. simpl in *. subst nf.
  by rewrite insert_id.
Qed.

Lemma init_loop_spec fuel st F o page :
  laid_out st F page -> o <= 16 -> -1 <= o -> o + 1 < Z.of_nat fuel ->
  (2 ^ (o + 1) | page) -> (o = 16 \/ nr_pages st - page < 2 ^ (o + 1)) ->
  (forall k, k <= o -> F k = []) ->
  exists st' F', init_loop fuel st o page (nr_pages st - page) = Ok st' /\ frame st st' /\
    laid_out st' F' (nr_pages st').
Proof.
  revert st F o page. induction fuel as [|fuel IH]; intros st F o page HL Ho Ho' Hf Ha Hsmall Hnil; [lia|].
  cbn [init_loop]. pose proof (lo_pages _ _ _ HL) as Hpage.
  destruct (Z.eqb_spec (nr_pages st - page) 0) as [E0|E0]; cbn [negb].
  { exists st, F. do 2 (split; [done|]). by replace (nr_pages st) with page by lia. }
  assert (0 <= o) as Ho0.
  { destruct (decide (o = -1)) as [->|]; [|lia]. simpl in Hsmall. lia. }
  destruct (init_order_spec (S (Z.to_nat (nr_pages st - page))) st F o page (nr_pages st - page) None)
    as (page' & left' & last' & st1 & F1 & E1 & Hf1 & HL1 & Hleft & Hlt & Ha1 & Hk1 & Hlast1);
    try done; try lia.
  - eapply Z.divide_trans; [|done]. apply pow2_divide. lia.
  - destruct Hsmall as [->|?]; [by left|right; left]. split; [by apply Hnil|done].
  - by rewrite Hnil.
  - rewrite E1. cbn [mbind outcome_bind].
    assert (nr_pages st1 = nr_pages st) as HN1 by apply (fr_pages _ _ Hf1).
    replace (match last' with Some l => write_slot st1 (SNext l) None | None => Ok st1 end) with (Ok st1).
    2:{ destruct last' as [l|]; [|done]. symmetry. eapply clear_last; [apply HL1| |done]. lia. }
    cbn [mbind outcome_bind]. subst left'. rewrite <- HN1.
    destruct (IH st1 F1 (o - 1) page') as (st' & F' & E' & Hf' & HL'); rewrite ?HN1; try done; try lia.
    + by rewrite Z.sub_add.
    + right. by rewrite Z.sub_add.
    + intros k Hk. rewrite Hk1 by lia. apply Hnil. lia.
    + exists st', F'. rewrite HN1 in E'. split; [done|]. split; [by etrans|done].
Qed.

Lemma init_spec d :
  wf_pds d -> (forall i pd, cells d !! i = Some pd -> next_free pd = None) ->
  exists st' F', init (BuddyPageAllocator_new d) (_nr_pages d) = Ok (true, st') /\
    frame (BuddyPageAllocator_new d) st' /\ Inv st' F' /\
    forall x, free_page F' x <-> 0 <= x < _nr_pages d.
Proof.
  intros Hwf Hnull. set (st := BuddyPageAllocator_new d).
  assert (forall o, 0 <= o <= 16 -> read_slot st (SArea o) = Ok None) as Hareas.
  { intros o Ho. unfold read_slot, area, st. rewrite (proj2 (Z.ltb_ge o 0)) by lia.
    unfold BuddyPageAllocator_new. cbn [_free_areas].
    rewrite lookup_replicate_2; [done|]. change (Z.to_nat MAX_ORDER) with 17%nat. lia. }
  assert (laid_out st (fun _ => []) 0) as HL.
  { split; [split| |].
    - split; try done; try (intros; set_solver); [intros; apply SSorted_nil|].
      intros p Hp _. unfold read_slot, load. destruct Hwf as [_ HC]. destruct (proj2 (HC p) Hp) as [c Hc].
      simpl. rewrite Hc. simpl. by rewrite (Hnull _ _ Hc).
    - split; intros; try set_solver. apply SSorted_nil.
    - intros k q _ _ Hq. set_solver.
    - destruct Hwf as [HN _]. unfold nr_pages. simpl. lia.
    - intros x. split; [|lia]. intros (k & q & Hq & _). set_solver. }
  destruct (init_loop_spec order_fuel st (fun _ => []) 16 0) as (st' & F' & E & Hf & HL');
    try done; [by exists 0|by left|].
  exists st', F'. unfold init. change maxOrder with 16.
  change (nr_pages st - 0) with (_nr_pages d - 0) in E. rewrite Z.sub_0_r in E. step_to E.
  split; [done|]. split; [done|]. split; [apply HL'|].
  intros x. rewrite (lo_free _ _ _ HL'). unfold nr_pages. by rewrite (fr_pages _ _ Hf).
Qed.
