(* ===== verification/BuddyTheorems.v ===== *)
(** * What coursework/buddy.cpp guarantees

    The properties of the buddy allocator, stated on the memory state itself
    with the free lists it represents, and closed instances of each. *)
From stdpp Require Import functions.
From S2P Require Import Prelude Define PageDesc Buddy BuddyRep BuddyProof.

(** A descriptor array of [n] available pages, as the page allocator hands it
    to [init]. *)
Definition fresh_pds (n : Z) : PageDescriptors := {|
  _nr_pages := n;
  _page_descriptors := 0;
  cells := list_to_map ((fun i => (i, {| next_free := None; type := AVAILABLE |})) <$> seqZ 0 n)
|}.

Lemma fresh_lookup n i pd :
  cells (fresh_pds n) !! i = Some pd <->
  0 <= i < n /\ pd = {| next_free := None; type := AVAILABLE |}.
Proof.
  unfold fresh_pds. cbn [cells].
  rewrite <- elem_of_list_to_map.
  - rewrite list_elem_of_fmap. setoid_rewrite elem_of_seqZ. split.
    + intros (j & [= -> ->] & Hj). split; [lia|done].
    + intros [Hi ->]. exists i. split; [done|lia].
  - rewrite <- list_fmap_compose. simpl. rewrite list_fmap_id. apply NoDup_seqZ.
Qed.

Lemma fresh_wf n : 0 <= n < 2 ^ 40 -> wf_pds (fresh_pds n).
Proof.
  intros Hn. split; [done|]. intros i. change (_nr_pages (fresh_pds n)) with n. split.
  - intros [pd [Hi _]%fresh_lookup]. done.
  - intros Hi. eexists. by apply fresh_lookup.
Qed.

Lemma fresh_next n i pd : cells (fresh_pds n) !! i = Some pd -> next_free pd = None.
Proof. by intros [_ ->]%fresh_lookup. Qed.

(** A state over one whole region of 2^16 pages. *)
Lemma region_state : exists st F,
  Inv st F /\ nr_pages st = 2 ^ 16 /\ forall x, free_page F x <-> 0 <= x < 2 ^ 16.
Proof.
  destruct (init_spec (fresh_pds (2 ^ 16)) (fresh_wf (2 ^ 16) ltac:(lia)) (fresh_next _))
    as (st & F & _ & Hf & HI & Hfree).
  exists st, F. split; [done|]. split; [apply Hf|done].
Qed.

(** The same with one order-0 block taken out. *)
Lemma taken_state : exists st F p,
  Inv st F /\ nr_pages st = 2 ^ 16 /\ 0 <= p < 2 ^ 16 /\
  (forall x, free_page F x <-> 0 <= x < 2 ^ 16 /\ ~ in_block p 0 x).
Proof.
  destruct region_state as (st & F & HI & HN & Hfree).
  destruct (alloc_pages_spec st F 0 HI ltac:(lia))
    as [(k & p & st' & F' & _ & _ & Hf & HI' & Hin & Hfree')|[_ Hnil]].
  - exists st', F', p. split; [done|]. split; [unfold nr_pages in *; by rewrite (fr_pages _ _ Hf)|].
    split; [apply Hfree, Hin, block_first; lia|]. intros x. by rewrite Hfree', Hfree.
  - destruct (proj2 (Hfree 0) ltac:(lia)) as (k & q & Hq & _).
    rewrite Hnil in Hq; [by apply elem_of_nil in Hq|].
    apply (bo_order _ _ (inv_blocks _ _ HI) _ _ Hq).
Qed.

(** C7: alloc_pages takes the lowest block of the smallest order that is big
    enough, aligned to its size; exactly its pages stop being free; the
    allocator's invariant holds again; and when it returns NULL the state is
    unchanged and no block of the requested order or above is free. *)
Theorem alloc_pages_correct st F order :
  Inv st F -> 0 <= order < 2 ^ 31 ->
  (exists k p st' F', first_fit F order k p /\ (2 ^ order | p) /\
     alloc_pages st order = Ok (Some p, st') /\ frame st st' /\ Inv st' F' /\
     (forall x, in_block p order x -> free_page F x) /\
     (forall x, free_page F' x <-> free_page F x /\ ~ in_block p order x)) \/
  (alloc_pages st order = Ok (None, st) /\ forall k, order <= k -> F k = []).
Proof.
  intros HI Ho. destruct (alloc_pages_spec st F order HI Ho)
    as [(k & p & st' & F' & Hff & H)|H]; [left|by right].
  exists k, p, st', F'. split; [done|]. split; [|done].
  destruct Hff as (Hk & Hh & _).
  eapply Z.divide_trans; [apply (pow2_divide order k); lia|].
  apply (bo_aligned _ _ (inv_blocks _ _ HI)).
  destruct (F k); [done|]. injection Hh as ->. left.
Qed.

Lemma alloc_pages_correct_witness : exists st k p st',
  alloc_pages st 3 = Ok (Some p, st') /\ (2 ^ 3 | p) /\ 3 <= k.
Proof.
  destruct region_state as (st & F & HI & HN & Hfree).
  destruct (alloc_pages_correct st F 3 HI ltac:(lia))
    as [(k & p & st' & F' & Hff & Ha & E & _)|[_ Hnil]].
  - exists st, k, p, st'. split; [done|]. split; [done|]. apply Hff.
  - exfalso. destruct (coalesced_cover (nr_pages st) F) with (k := 3) (p := 0)
      as (o & q & Ho & Hq & _).
    + split; apply HI.
    + lia.
    + apply Z.divide_0_r.
    + intros x Hx. apply Hfree. lia.
    + rewrite (Hnil o Ho) in Hq. by apply elem_of_nil in Hq.
Defined.

(** C8: free_pages on an aligned block that is wholly allocated, in a complete
    region of the largest order, returns; it adds exactly the block's pages to
    the free ones and merges as far as possible. *)
Theorem free_pages_correct st F pgd order :
  Inv st F -> 0 <= order <= 16 -> (2 ^ order | pgd) -> 0 <= pgd ->
  region_end pgd <= nr_pages st ->
  (forall x, in_block pgd order x -> ~ free_page F x) ->
  exists st' F', free_pages st pgd order = Ok st' /\ frame st st' /\ Inv st' F' /\
    forall x, free_page F' x <-> free_page F x \/ in_block pgd order x.
Proof. apply free_pages_spec. Qed.

Lemma free_pages_correct_witness : exists st p st', free_pages st p 0 = Ok st'.
Proof.
  destruct taken_state as (st & F & p & HI & HN & Hp & Hfree).
  destruct (free_pages_correct st F p 0 HI) as (st' & F' & E & _).
  - lia.
  - exists p. lia.
  - lia.
  - rewrite HN. unfold region_end. rewrite Z.div_small; lia.
  - intros x Hx [_ Hn]%Hfree. done.
  - by exists st, p, st'.
Defined.

(** C9: freeing what was just allocated restores the allocator's state to the
    bit: every list head and every descriptor. *)
Theorem alloc_free_restores st F order p st1 :
  Inv st F -> 0 <= order <= 16 -> region_end p <= nr_pages st ->
  alloc_pages st order = Ok (Some p, st1) -> free_pages st1 p order = Ok st.
Proof.
  intros HI Ho HN E.
  destruct (alloc_pages_spec st F order HI ltac:(lia))
    as [(k & p' & st' & F' & Hff & E' & Hf & HI' & Hin & Hfree)|[E' _]]; rewrite E' in E;
    [|discriminate].
  injection E as -> ->. destruct Hff as (Hk & Hh & _).
  assert (p ∈ F k) as Hp by (destruct (F k); [done|]; injection Hh as ->; left).
  destruct (free_pages_spec st1 F' p order HI' Ho) as (st2 & F2 & E2 & Hf2 & HI2 & Hfree2).
  - eapply Z.divide_trans; [apply (pow2_divide order k); lia|].
    by apply (bo_aligned _ _ (inv_blocks _ _ HI)).
  - apply (bo_bounds _ _ (inv_blocks _ _ HI) _ _ Hp).
  - unfold nr_pages in *. by rewrite (fr_pages _ _ Hf).
  - intros x Hx [_ Hn]%Hfree. done.
  - rewrite E2. f_equal.
    assert (frame st st2) as Hf02 by (by etrans).
    apply (rep_unique st st2 F F2); [apply HI|apply HI2|done|].
    apply (buddy_inv_unique (nr_pages st)).
    + split; apply HI.
    + destruct HI2 as [_ HB2 HC2]. split; [|done].
      unfold nr_pages in *. by rewrite (fr_pages _ _ Hf02) in HB2.
    + intros x. rewrite Hfree2, Hfree.
      destruct (decide (p <= x < p + 2 ^ order)) as [Hx|Hx]; unfold in_block.
      * pose proof (Hin x Hx). tauto.
      * tauto.
Qed.

Lemma alloc_free_restores_witness : exists st p st1,
  alloc_pages st 0 = Ok (Some p, st1) /\ free_pages st1 p 0 = Ok st.
Proof.
  destruct region_state as (st & F & HI & HN & Hfree).
  destruct (alloc_pages_spec st F 0 HI ltac:(lia))
    as [(k & p & st' & F' & _ & E & _ & _ & Hin & _)|[_ Hnil]].
  - exists st, p, st'. split; [done|].
    apply (alloc_free_restores st F 0 p st' HI); [lia| |done].
    assert (0 <= p < 2 ^ 16) by (apply Hfree, Hin, block_first; lia).
    rewrite HN. unfold region_end. rewrite Z.div_small; lia.
  - exfalso. destruct (proj2 (Hfree 0) ltac:(lia)) as (k & q & Hq & _).
    rewrite Hnil in Hq; [by apply elem_of_nil in Hq|].
    apply (bo_order _ _ (inv_blocks _ _ HI) _ _ Hq).
Defined.

(** C17: init lays every page out in maximal aligned blocks: from a cleared
    allocator over any descriptor array it returns true, in a state that
    satisfies the invariant and in which every page is free. *)
Theorem init_correct d :
  wf_pds d -> (forall i pd, cells d !! i = Some pd -> next_free pd = None) ->
  exists st' F', init (BuddyPageAllocator_new d) (_nr_pages d) = Ok (true, st') /\
    frame (BuddyPageAllocator_new d) st' /\ Inv st' F' /\
    forall x, free_page F' x <-> 0 <= x < _nr_pages d.
Proof. apply init_spec. Qed.

Lemma init_correct_witness : exists st',
  init (BuddyPageAllocator_new (fresh_pds 11)) 11 = Ok (true, st') /\ nr_pages st' = 11.
Proof.
  destruct (init_correct (fresh_pds 11) (fresh_wf 11 ltac:(lia)) (fresh_next 11))
    as (st' & F' & E & Hf & _).
  exists st'. split; [exact E|]. apply Hf.
Defined.

(** Reserve_page takes exactly the one page out of the free pages when it
    is free, splitting the block around it, and otherwise returns false and
    leaves the state as it was. *)
Lemma reserve_page_correct st F x :
  Inv st F ->
  (free_page F x /\ exists st' F', reserve_page st x = Ok (true, st') /\ frame st st' /\
     Inv st' F' /\ forall y, free_page F' y <-> free_page F y /\ y <> x) \/
  (~ free_page F x /\ reserve_page st x = Ok (false, st)).
Proof. apply reserve_page_spec. Qed.

Lemma reserve_page_correct_witness : exists st st', reserve_page st 5 = Ok (true, st').
Proof.
  destruct region_state as (st & F & HI & HN & Hfree).
  destruct (reserve_page_correct st F 5 HI) as [(_ & st' & F' & E & _)|[Hn _]].
  - by exists st, st'.
  - exfalso. apply Hn, Hfree. lia.
Defined.

(** alloc_pages is complete: it returns NULL only when no aligned run of
    2^order free pages exists anywhere in memory. *)
Lemma alloc_pages_complete st F order p :
  Inv st F -> 0 <= order <= 16 -> (2 ^ order | p) ->
  (forall x, in_block p order x -> free_page F x) ->
  exists q st', alloc_pages st order = Ok (Some q, st').
Proof.
  intros HI Ho Ha Hfree.
  destruct (alloc_pages_spec st F order HI ltac:(lia))
    as [(k & q & st' & F' & _ & E & _)|[_ Hnil]]; [eauto|].
  destruct (coalesced_cover (nr_pages st) F (conj (inv_blocks _ _ HI) (inv_coalesced _ _ HI))
    order Ho p Ha Hfree) as (k & q & Hk & Hq & _).
  rewrite Hnil in Hq by done. by apply elem_of_nil in Hq.
Qed.

Lemma alloc_pages_complete_witness : exists st q st', alloc_pages st 16 = Ok (Some q, st').
Proof.
  destruct region_state as (st & F & HI & HN & Hfree).
  destruct (alloc_pages_complete st F 16 0 HI) as (q & st' & E).
  - lia.
  - apply Z.divide_0_r.
  - intros x Hx. apply Hfree. unfold in_block in Hx. lia.
  - by exists st, q, st'.
Defined.

(** Freeing the last block of memory when its buddy would lie just past
    the descriptor array reads outside the array: pfn_to_pgd accepts the frame
    number _nr_pages, and TryMerge follows the descriptor it gets. *)
Lemma free_last_block_out_of_bounds st F pgd order :
  Inv st F -> 0 <= order < 16 -> (2 ^ (order + 1) | pgd) -> 0 <= pgd ->
  pgd + 2 ^ order = nr_pages st ->
  (forall x, in_block pgd order x -> ~ free_page F x) ->
  free_pages st pgd order = Fault OutOfBounds.
Proof.
  intros [HR HB HC] Ho Ha Hp HN Hno. pose proof (pow2_pos order ltac:(lia)).
  assert (2 ^ order | pgd) as Ha'.
  { eapply Z.divide_trans; [|done]. apply pow2_divide. lia. }
  pose proof (block_not_free_not_in F pgd order) as Hnoin.
  specialize (Hnoin ltac:(intros k q Hq; by apply (bo_order _ _ HB _ _ Hq)) ltac:(lia) Hno).
  unfold nr_pages in HN.
  destruct (insert_block_spec st F pgd order HR ltac:(lia) ltac:(lia) Hnoin) as (st1 & E1 & Hf1 & HR1 & _).
  unfold free_pages.
  rewrite (proj2 (is_correct_alignment_spec st pgd order (rep_wf _ _ HR) ltac:(lia) ltac:(lia)) Ha').
  cbn [assert_ mbind outcome_bind]. rewrite E1. cbn [mbind outcome_bind].
  assert (exists n, order_fuel = S n) as [n ->] by (by eexists). cbn [TryMerge]. change maxOrder with 16.
  rewrite (proj2 (Z.leb_gt _ _)) by lia.
  pose proof (fr_pages _ _ Hf1) as HN1.
  destruct (buddy_cases pgd order) as [[_ Eb]|[Hn _]]; [lia| |done].
  rewrite buddy_of_spec; [|apply HR1|lia|lia|done|lia].
  cbn [deref mbind outcome_bind]. rewrite Eb, HN.
  assert (read_slot st1 (SNext (_nr_pages (pds st))) = Fault OutOfBounds) as ->; [|done].
  unfold read_slot, load. destruct (rep_wf _ _ HR1) as [_ HCe].
  destruct (cells (pds st1) !! _nr_pages (pds st)) eqn:Ec; [|done].
  assert (0 <= _nr_pages (pds st) < _nr_pages (pds st1)) by (apply HCe; eauto). lia.
Qed.

Lemma free_last_block_out_of_bounds_witness : exists st, free_pages st 0 0 = Fault OutOfBounds.
Proof.
  destruct (init_spec (fresh_pds 1) (fresh_wf 1 ltac:(lia)) (fresh_next 1))
    as (st & F & _ & Hf & HI & Hfree).
  destruct (reserve_page_spec st F 0 HI) as [(_ & st' & F' & E & Hf' & HI' & Hfree')|[Hn _]].
  - exists st'. apply (free_last_block_out_of_bounds st' F' 0 0 HI'); try lia.
    + apply Z.divide_0_r.
    + unfold nr_pages. rewrite (fr_pages _ _ Hf'), (fr_pages _ _ Hf). reflexivity.
    + intros x Hx [_ Hn]%Hfree'. unfold in_block in Hx. change (2 ^ 0) with 1 in Hx. lia.
  - exfalso. apply Hn, Hfree. simpl. lia.
Defined.
