(* ===== verification/Time.v ===== *)
(** * infos/util/time.h, the time of day of infos/kernel/kernel.cpp, and
      infos/drivers/timer/rtc.cpp

    Durations and time points are unsigned 64-bit tick counts.  The kernel
    counts the nanoseconds since its time of day was last advanced and adds a
    second for each 10^9 of them. *)
From S2P Require Import Prelude.

(** ** time.h *)
Record Duration := { _val : Z }.

Module Dur.
Definition add_assign (d amt : Duration) : Duration := {| _val := u64 (_val d + _val amt) |}.
Definition sub_assign (d amt : Duration) : Duration := {| _val := u64 (_val d - _val amt) |}.
Definition add (l r : Duration) : Duration := {| _val := u64 (_val l + _val r) |}.
(** [operator-] subtracts the left operand from the right one. *)
Definition sub (l r : Duration) : Duration := {| _val := u64 (_val r - _val l) |}.
Definition lt (l r : Duration) : bool := _val l <? _val r.
Definition gt (l r : Duration) : bool := _val r <? _val l.
Definition count (d : Duration) : Z := _val d.
End Dur.

(** A [TimepointImpl<>]: the nanoseconds since the epoch. *)
Record Timepoint := { since_epoch : Duration }.

Module Tp.
Definition add_assign (t : Timepoint) (amt : Duration) : Timepoint :=
  {| since_epoch := Dur.add_assign (since_epoch t) amt |}.
(** [operator-] hands its operands to the one of durations in reverse. *)
Definition sub (lhs rhs : Timepoint) : Duration := Dur.sub (since_epoch rhs) (since_epoch lhs).
Definition lt (l r : Timepoint) : bool := _val (since_epoch l) <? _val (since_epoch r).
End Tp.

(** [DurationCastImpl<Ratio, REP>::DoCast] for a ratio [num / den]. *)
Definition DoCast (num den v : Z) : Z := u64 (u64 (v * num) / den).

Record TimeOfDay := {
  hours : Z; minutes : Z; seconds : Z;
  day : Z; month : Z; year : Z
}.

(** ** rtc.h *)
Record RTCTimePoint := {
  tp_seconds : Z; tp_minutes : Z; tp_hours : Z;
  tp_day_of_month : Z; tp_month : Z; tp_year : Z
}.

(** ** kernel.cpp *)
Record KernelTime := {
  _runtime : Timepoint;
  _tod : TimeOfDay;
  _ticks_since_last_tod_update : Duration
}.

Definition nanoseconds (n : Z) : Duration := {| _val := n |}.
Definition second_ns : Duration := nanoseconds 1000000000.

(** The fields are [unsigned short]. *)
Definition increment_tod (t : TimeOfDay) : TimeOfDay :=
  let s := u16 (seconds t + 1) in
  if 59 <? s then
    let m := u16 (minutes t + 1) in
    if 59 <? m then
      let h := u16 (hours t + 1) in
      if 23 <? h then
        {| hours := 0; minutes := 0; seconds := 0; day := day t; month := month t; year := year t |}
      else
        {| hours := h; minutes := 0; seconds := 0; day := day t; month := month t; year := year t |}
    else
      {| hours := hours t; minutes := m; seconds := 0; day := day t; month := month t; year := year t |}
  else
    {| hours := hours t; minutes := minutes t; seconds := s;
       day := day t; month := month t; year := year t |}.

(** The [while] loop of [update_runtime]. *)
Fixpoint advance_tod (fuel : nat) (ticks : Duration) (t : TimeOfDay)
  : outcome (Duration * TimeOfDay) :=
  match fuel with
  | O => Fault OutOfFuel
  | S fuel =>
      if Dur.gt ticks second_ns
      then advance_tod fuel (Dur.sub_assign ticks second_ns) (increment_tod t)
      else Ok (ticks, t)
  end.

Definition update_runtime (k : KernelTime) (ticks : Duration) : outcome KernelTime :=
  let runtime := Tp.add_assign (_runtime k) ticks in
  let t := Dur.add_assign (_ticks_since_last_tod_update k) ticks in
  '(t, tod) ← advance_tod (S (Z.to_nat (_val t / 1000000000))) t (_tod k);
  Ok {| _runtime := runtime; _tod := tod; _ticks_since_last_tod_update := t |}.

(** [rtc] is the time point the first RTC device returns, if there is one. *)
Definition resync_tod (k : KernelTime) (rtc : option RTCTimePoint) : KernelTime :=
  let ticks := nanoseconds 0 in
  match rtc with
  | None => {| _runtime := _runtime k; _tod := _tod k; _ticks_since_last_tod_update := ticks |}
  | Some tp =>
      {| _runtime := _runtime k;
         _tod := {| hours := tp_hours tp; minutes := tp_minutes tp; seconds := tp_seconds tp;
                    day := tp_day_of_month tp; month := tp_month tp; year := tp_year tp |};
         _ticks_since_last_tod_update := ticks |}
  end.

Definition initialise_tod (k : KernelTime) (rtc : option RTCTimePoint) : KernelTime :=
  resync_tod
    {| _runtime := _runtime k;
       _tod := {| hours := 0; minutes := 0; seconds := 0; day := 1; month := 1; year := 1970 |};
       _ticks_since_last_tod_update := _ticks_since_last_tod_update k |} rtc.

(** ** rtc.cpp: the RTC as a file *)

(** The six [unsigned short]s of [userspace_tod_buffer], in order. *)
Definition sizeof_userspace_tod_buffer : Z := 12.

Definition tod_buffer (tp : RTCTimePoint) : list Z :=
  [tp_seconds tp; tp_minutes tp; tp_hours tp; tp_day_of_month tp; tp_month tp; tp_year tp].

(** The bytes returned, and what the buffer receives. *)
Definition rtc_read (tp : RTCTimePoint) (size : Z) : Z * option (list Z) :=
  if size <? sizeof_userspace_tod_buffer then (0, None)
  else (sizeof_userspace_tod_buffer, Some (tod_buffer tp)).

Definition rtc_pread (tp : RTCTimePoint) (size off : Z) : Z * option (list Z) :=
  if size <? sizeof_userspace_tod_buffer then (0, None)
  else if negb (off =? 0) then (0, None)
  else (sizeof_userspace_tod_buffer, Some (tod_buffer tp)).

(** ** Properties *)
Definition valid_tod (t : TimeOfDay) : Prop :=
  0 <= hours t < 24 /\ 0 <= minutes t < 60 /\ 0 <= seconds t < 60.

Definition second_of_day (t : TimeOfDay) : Z := hours t * 3600 + minutes t * 60 + seconds t.
Definition same_date (t t' : TimeOfDay) : Prop :=
  day t' = day t /\ month t' = month t /\ year t' = year t.

Lemma increment_tod_spec t :
  valid_tod t ->
  valid_tod (increment_tod t) /\ same_date t (increment_tod t) /\
  second_of_day (increment_tod t) = (second_of_day t + 1) mod 86400.
Proof.
  intros (Hh & Hm & Hs). unfold increment_tod, valid_tod, same_date, second_of_day.
  rewrite !wrap_small by (change (2 ^ 16) with 65536; lia).
  destruct (Z.ltb_spec 59 (seconds t + 1)); [|cbn; rewrite Z.mod_small; lia].
  destruct (Z.ltb_spec 59 (minutes t + 1)); [|cbn; rewrite Z.mod_small; lia].
  destruct (Z.ltb_spec 23 (hours t + 1)); cbn; [|rewrite Z.mod_small; lia].
  replace (_ + 1) with 86400 by lia. rewrite Z.mod_same by lia. lia.
Qed.

Lemma advance_tod_spec fuel d t :
  valid_tod t -> 0 <= _val d < 2 ^ 64 -> _val d / 1000000000 < Z.of_nat fuel ->
  exists n d' t', advance_tod fuel d t = Ok (d', t') /\ 0 <= n /\
    _val d = _val d' + n * 1000000000 /\ 0 <= _val d' <= 1000000000 /\
    valid_tod t' /\ same_date t t' /\ second_of_day t' = (second_of_day t + n) mod 86400.
Proof.
  revert d t. induction fuel as [|fuel IH]; intros d t Ht Hd Hf.
  { pose proof (Z.div_pos (_val d) 1000000000). lia. }
  cbn [advance_tod]. unfold Dur.gt. change (_val second_ns) with 1000000000.
  destruct (Z.ltb_spec 1000000000 (_val d)) as [Hgt|Hle].
  - destruct (increment_tod_spec t Ht) as (Ht1 & Hd1 & Hs1).
    assert (_val (Dur.sub_assign d second_ns) = _val d - 1000000000) as Ev.
    { cbn. apply wrap_small. lia. }
    destruct (IH (Dur.sub_assign d second_ns) (increment_tod t) Ht1)
      as (n & d' & t' & E & Hn & Hv & Hr & Ht' & Hd' & Hs'); rewrite ?Ev in *.
    + lia.
    + replace (_val d - 1000000000) with (_val d + -1 * 1000000000) by lia.
      rewrite Z.div_add by lia. lia.
    + exists (n + 1), d', t'. split; [done|]. do 2 (split; [lia|]). do 2 (split; [done|]).
      unfold same_date in *. split; [intuition congruence|].
      rewrite Hs', Hs1, Zplus_mod_idemp_l. f_equal. lia.
  - exists 0, d, t. unfold same_date. split_and!; try done; try lia.
    destruct Ht as (? & ? & ?). unfold second_of_day. rewrite Z.mod_small; lia.
Qed.

(** [update_runtime] loses no time.  From a valid time of day, advancing
    the runtime by any number of ticks returns; the time of day stays valid,
    the date is kept (it is never advanced), and the seconds added together
    with the ticks carried over are exactly the ticks that passed. *)
Lemma update_runtime_conserves k ticks :
  valid_tod (_tod k) ->
  0 <= _val (_ticks_since_last_tod_update k) -> 0 <= _val ticks ->
  _val (_ticks_since_last_tod_update k) + _val ticks < 2 ^ 64 ->
  exists n k', update_runtime k ticks = Ok k' /\ 0 <= n /\
    _val (_ticks_since_last_tod_update k) + _val ticks =
      n * 1000000000 + _val (_ticks_since_last_tod_update k') /\
    0 <= _val (_ticks_since_last_tod_update k') <= 1000000000 /\
    valid_tod (_tod k') /\ same_date (_tod k) (_tod k') /\
    second_of_day (_tod k') = (second_of_day (_tod k) + n) mod 86400 /\
    _runtime k' = Tp.add_assign (_runtime k) ticks.
Proof.
  intros Ht H0 H1 H2. unfold update_runtime. set (d := Dur.add_assign _ _).
  assert (_val d = _val (_ticks_since_last_tod_update k) + _val ticks) as Ed by (apply wrap_small; lia).
  pose proof (Z.div_pos (_val d) 1000000000).
  destruct (advance_tod_spec (S (Z.to_nat (_val d / 1000000000))) d (_tod k) Ht)
    as (n & d' & t' & E & Hn & Hv & Hr & Ht' & Hd' & Hs'); [lia|lia|].
  rewrite E. exists n. eexists. split; [done|]. cbn [_ticks_since_last_tod_update _tod _runtime].
  split_and!; try done; lia.
Qed.

Definition midnight_minus_one : KernelTime := {|
  _runtime := {| since_epoch := nanoseconds 5 |};
  _tod := {| hours := 23; minutes := 59; seconds := 59; day := 31; month := 12; year := 1999 |};
  _ticks_since_last_tod_update := nanoseconds 7
|}.

Lemma update_runtime_conserves_witness :
  exists k', update_runtime midnight_minus_one (nanoseconds 2500000000) = Ok k' /\
    second_of_day (_tod k') = 1.
Proof.
  destruct (update_runtime_conserves midnight_minus_one (nanoseconds 2500000000))
    as (n & k' & E & Hn & Hv & Hr & _ & _ & Hs & _); [repeat split; cbn; lia|cbn; lia|cbn; lia|cbn; lia|].
  exists k'. split; [done|]. rewrite Hs. cbn in Hv. assert (n = 2) as -> by lia. reflexivity.
Defined.

(** Time points subtract the right way round, durations do not. *)
Lemma timepoint_sub_spec l r :
  0 <= _val (since_epoch r) <= _val (since_epoch l) -> _val (since_epoch l) < 2 ^ 64 ->
  _val (Tp.sub l r) = _val (since_epoch l) - _val (since_epoch r).
Proof. intros. apply wrap_small. lia. Qed.

(** Duration's operator- computes right minus left: for any left operand
    larger than the right one it returns the negated difference, wrapped. *)
Lemma duration_sub_reversed l r :
  0 <= _val r < _val l -> _val l < 2 ^ 64 ->
  _val (Dur.sub l r) = 2 ^ 64 - (_val l - _val r) /\ Dur.sub l r <> Dur.sub_assign l r \/
  _val l - _val r = 2 ^ 63.
Proof.
  intros H1 H2. destruct (decide (_val l - _val r = 2 ^ 63)) as [|Hne]; [by right|left].
  assert (_val (Dur.sub l r) = 2 ^ 64 - (_val l - _val r)) as E.
  { cbn. unfold wrap. symmetry. apply (Z.mod_unique_pos _ _ (-1)); lia. }
  split; [done|]. intros Heq. rewrite Heq in E. cbn in E.
  rewrite wrap_small in E by lia. lia.
Qed.

Lemma duration_sub_reversed_witness : Dur.sub (nanoseconds 5) (nanoseconds 3) <> nanoseconds 2.
Proof.
  destruct (duration_sub_reversed (nanoseconds 5) (nanoseconds 3)) as [[_ Hne]|E];
    [cbn; lia|cbn; lia| |cbn in E; lia].
  intros H. apply Hne. rewrite H. reflexivity.
Defined.
