(* ===== verification/CmosRtc.v ===== *)
(** * coursework/cmos-rtc.cpp: the CMOS real-time clock

    The driver reads the clock's registers through an address port and a data
    port.  The device is not part of the source: [cmos] is any device with
    the two port operations, whose data port returns the register selected
    last, a byte, and whose registers do not change during one reading (the
    driver does not look at the update-in-progress flag). *)
From S2P Require Import Prelude Time.

Definition CmosAddress : Z := 0x70.
Definition CmosData : Z := 0x71.
Definition ThisCentury : Z := 20.

Inductive Port := Second | Minute | Hour | Day | Month | Year | Century | BCD.

Definition port_number (p : Port) : Z :=
  match p with
  | Second => 0 | Minute => 0x02 | Hour => 0x04 | Day => 0x07
  | Month => 0x08 | Year => 0x09 | Century => 0x32 | BCD => 0x0B
  end.

(** Port I/O on a device state [D], and the processor's interrupt flag. *)
Class PortIO (D : Type) := {
  outb : Z -> Z -> D -> D;
  inb : Z -> D -> Z * D
}.

(** What the CMOS does at its two ports; [regs d] are its registers. *)
Class CmosDevice (D : Type) `{PortIO D} (regs : D -> Z -> Z) := {
  cmos_select : forall d a v, regs (outb CmosAddress v d) a = regs d a;
  cmos_read : forall d v, fst (inb CmosData (outb CmosAddress v d)) = regs d v;
  cmos_keep : forall d a p, regs (snd (inb p d)) a = regs d a;
  cmos_byte : forall d a, 0 <= regs d a < 256
}.

Section driver.
Context {D : Type} `{PortIO D}.

(** The driver's state: the device, [registerB], and the interrupt flag. *)
Record CMOSRTC := { device : D; registerB : Z; interrupts : bool }.

Definition IsUpdateInProgress (s : CMOSRTC) : bool * CMOSRTC :=
  let '(v, d) := inb CmosAddress (outb CmosAddress 0x0A (device s)) in
  (negb (Z.land v 0x80 =? 0), {| device := d; registerB := registerB s; interrupts := interrupts s |}).

Definition GetOriginal (p : Port) (s : CMOSRTC) : Z * CMOSRTC :=
  let '(v, d) := inb CmosData (outb CmosAddress (port_number p) (device s)) in
  (v, {| device := d; registerB := registerB s; interrupts := interrupts s |}).

Definition ReadRegisterB (s : CMOSRTC) : CMOSRTC :=
  let '(v, s) := GetOriginal BCD s in
  {| device := device s; registerB := v; interrupts := interrupts s |}.

Definition IsBinaryCodedDecimal (s : CMOSRTC) : bool := Z.land (registerB s) 0x04 =? 0.
Definition Is12Hour (s : CMOSRTC) : bool := Z.land (registerB s) 0x02 =? 0.

Definition ConvertToBinary (originalValue : Z) : Z :=
  u16 (Z.land originalValue 0xf + originalValue / 16 * 10).

Definition GetRtcValue (p : Port) (s : CMOSRTC) : Z * CMOSRTC :=
  let '(f, s) := GetOriginal p s in
  (if IsBinaryCodedDecimal s then ConvertToBinary f else f, s).

Definition GetRtcHourValue (s : CMOSRTC) : Z * CMOSRTC :=
  let '(h, s) := GetOriginal Hour s in
  let h := if IsBinaryCodedDecimal s
           then Z.lor (Z.land h 0xf + Z.land h 0x70 / 16 * 10) (Z.land h 0x80)
           else h in
  let h := if Is12Hour s && negb (Z.land h 0x80 =? 0)
           then (Z.land h 0x7f + 12) mod 24
           else h in
  (h, s).

Definition GetRtcYearValue (s : CMOSRTC) : Z * CMOSRTC :=
  let '(year, s) := GetRtcValue Year s in
  let '(century, s) := GetRtcValue Century s in
  let century := if century =? 0 then ThisCentury else century in
  (u16 (year + u16 (century * 100)), s).

Definition set_interrupts (b : bool) (s : CMOSRTC) : CMOSRTC :=
  {| device := device s; registerB := registerB s; interrupts := b |}.

Definition read_timepoint (s : CMOSRTC) : RTCTimePoint * CMOSRTC :=
  let s := set_interrupts false s in
  let s := ReadRegisterB s in
  let '(sec, s) := GetRtcValue Second s in
  let '(min, s) := GetRtcValue Minute s in
  let '(h, s) := GetRtcHourValue s in
  let '(d, s) := GetRtcValue Day s in
  let '(m, s) := GetRtcValue Month s in
  let '(y, s) := GetRtcYearValue s in
  ({| tp_seconds := sec; tp_minutes := min; tp_hours := h;
      tp_day_of_month := d; tp_month := m; tp_year := y |},
   set_interrupts true s).
End driver.
Arguments CMOSRTC D : clear implicits.

(** ** What the clock means

    The clock keeps every field in binary or in BCD, and the hour on a 24- or
    a 12-hour face, the top bit of the hour marking the afternoon. *)
Record rtc_mode := { mode_bcd : bool; mode_12h : bool }.

Definition encode (bcd : bool) (v : Z) : Z := if bcd then v / 10 * 16 + v mod 10 else v.

Definition encode_hour (m : rtc_mode) (h : Z) : Z :=
  if mode_12h m then
    let face := if h mod 12 =? 0 then 12 else h mod 12 in
    Z.lor (encode (mode_bcd m) face) (if 12 <=? h then 0x80 else 0)
  else encode (mode_bcd m) h.

(** Register B has the mode; the other registers hold the encoded time. *)
Definition shows (m : rtc_mode) (regs : Z -> Z) (t : RTCTimePoint) : Prop :=
  (Z.land (regs (port_number BCD)) 0x04 =? 0) = mode_bcd m /\
  (Z.land (regs (port_number BCD)) 0x02 =? 0) = mode_12h m /\
  regs (port_number Second) = encode (mode_bcd m) (tp_seconds t) /\
  regs (port_number Minute) = encode (mode_bcd m) (tp_minutes t) /\
  regs (port_number Hour) = encode_hour m (tp_hours t) /\
  regs (port_number Day) = encode (mode_bcd m) (tp_day_of_month t) /\
  regs (port_number Month) = encode (mode_bcd m) (tp_month t) /\
  regs (port_number Year) = encode (mode_bcd m) (tp_year t mod 100) /\
  regs (port_number Century) = encode (mode_bcd m) (tp_year t / 100).

Definition valid_timepoint (t : RTCTimePoint) : Prop :=
  0 <= tp_seconds t < 60 /\ 0 <= tp_minutes t < 60 /\ 0 <= tp_hours t < 24 /\
  1 <= tp_day_of_month t <= 31 /\ 1 <= tp_month t <= 12 /\ 100 <= tp_year t < 10000.

(** The value the driver computes from an hour register. *)
Definition hour_of_register (bcd h12 : bool) (h : Z) : Z :=
  let h := if bcd then Z.lor (Z.land h 0xf + Z.land h 0x70 / 16 * 10) (Z.land h 0x80) else h in
  if h12 && negb (Z.land h 0x80 =? 0) then (Z.land h 0x7f + 12) mod 24 else h.

(** A property of the numbers below [n], by computation. *)
Lemma forallb_seqZ (P : Z -> bool) n :
  forallb P (seqZ 0 n) = true -> forall x, 0 <= x < n -> P x = true.
Proof.
  intros Hall x Hx. rewrite forallb_forall in Hall. apply Hall.
  apply list_elem_of_In, elem_of_seqZ. lia.
Qed.

Lemma decode_encode (bcd : bool) (v : Z) :
  0 <= v < 100 -> (if bcd then ConvertToBinary (encode bcd v) else encode bcd v) = v.
Proof.
  intros Hv. destruct bcd; [|done]. apply Z.eqb_eq.
  apply (forallb_seqZ (fun v => ConvertToBinary (encode true v) =? v) 100); [|done].
  vm_compute. reflexivity.
Qed.

Lemma hour_decode bcd h12 h :
  0 <= h < 24 -> h12 = false \/ (h <> 0 /\ h <> 12) ->
  hour_of_register bcd h12 (encode_hour {| mode_bcd := bcd; mode_12h := h12 |} h) = h.
Proof.
  intros Hh Hn. apply Z.eqb_eq.
  assert (negb h12 || (negb (h =? 0) && negb (h =? 12)) = true) as Hb.
  { destruct Hn as [->|[H0 H12]]; [done|]. rewrite orb_true_iff. right.
    rewrite (proj2 (Z.eqb_neq h 0)), (proj2 (Z.eqb_neq h 12)) by done. done. }
  clear Hn. revert Hb. rewrite <- implb_true_iff.
  apply (forallb_seqZ (fun h => implb (negb h12 || (negb (h =? 0) && negb (h =? 12)))
    (hour_of_register bcd h12 (encode_hour {| mode_bcd := bcd; mode_12h := h12 |} h) =? h)) 24);
    [|done].
  destruct bcd, h12; vm_compute; reflexivity.
Qed.

Section correctness.
Context {D : Type} `{CmosDevice D regs}.

Lemma GetOriginal_spec p s :
  fst (GetOriginal p s) = regs (device s) (port_number p) /\
  (forall a, regs (device (snd (GetOriginal p s))) a = regs (device s) a) /\
  registerB (snd (GetOriginal p s)) = registerB s.
Proof.
  unfold GetOriginal. pose proof (cmos_read (device s) (port_number p)) as Hr.
  pose proof (fun a => cmos_keep (outb CmosAddress (port_number p) (device s)) a CmosData) as Hk.
  destruct (inb CmosData (outb CmosAddress (port_number p) (device s))) as [v d]. cbn [fst snd device registerB set_interrupts] in *.
  split; [done|]. split; [|done]. intros a. by rewrite Hk, cmos_select.
Qed.

Lemma GetRtcValue_spec p s :
  fst (GetRtcValue p s) =
    (if IsBinaryCodedDecimal s then ConvertToBinary (regs (device s) (port_number p))
     else regs (device s) (port_number p)) /\
  (forall a, regs (device (snd (GetRtcValue p s))) a = regs (device s) a) /\
  registerB (snd (GetRtcValue p s)) = registerB s.
Proof.
  pose proof (GetOriginal_spec p s) as (Hv & Hk & Hb). unfold GetRtcValue.
  destruct (GetOriginal p s) as [v s']. cbn [fst snd device registerB set_interrupts] in *. unfold IsBinaryCodedDecimal. rewrite Hb, Hv. done.
Qed.

Lemma GetRtcHourValue_spec s :
  fst (GetRtcHourValue s) =
    hour_of_register (IsBinaryCodedDecimal s) (Is12Hour s) (regs (device s) (port_number Hour)) /\
  (forall a, regs (device (snd (GetRtcHourValue s))) a = regs (device s) a) /\
  registerB (snd (GetRtcHourValue s)) = registerB s.
Proof.
  pose proof (GetOriginal_spec Hour s) as (Hv & Hk & Hb). unfold GetRtcHourValue.
  destruct (GetOriginal Hour s) as [v s']. cbn [fst snd device registerB set_interrupts] in *.
  unfold IsBinaryCodedDecimal, Is12Hour. rewrite Hb, Hv. done.
Qed.

Lemma GetRtcYearValue_spec s m y :
  IsBinaryCodedDecimal s = m -> 100 <= y < 10000 ->
  regs (device s) (port_number Year) = encode m (y mod 100) ->
  regs (device s) (port_number Century) = encode m (y / 100) ->
  fst (GetRtcYearValue s) = y.
Proof.
  intros Hm Hy E1 E2. unfold GetRtcYearValue.
  pose proof (GetRtcValue_spec Year s) as (Hv & Hk & Hb).
  destruct (GetRtcValue Year s) as [v s1]. cbn [fst snd device registerB set_interrupts] in Hv, Hk, Hb.
  pose proof (GetRtcValue_spec Century s1) as (Hv2 & _ & _).
  destruct (GetRtcValue Century s1) as [c s2]. cbn [fst snd device registerB set_interrupts] in Hv2 |- *.
  assert (0 <= y / 100 < 100) by (split; [apply Z.div_pos|apply Z.div_lt_upper_bound]; lia).
  assert (1 <= y / 100) by (apply Z.div_le_lower_bound; lia).
  pose proof (Z.mod_pos_bound y 100 ltac:(lia)).
  unfold IsBinaryCodedDecimal in *. rewrite Hb, Hk, Hm, E2, decode_encode in Hv2 by done.
  rewrite Hm, E1, decode_encode in Hv by done. subst v c.
  rewrite (proj2 (Z.eqb_neq _ _)) by lia.
  pose proof (Z.div_mod y 100 ltac:(lia)).
  rewrite (wrap_small 16 (y / 100 * 100)) by (change (2 ^ 16) with 65536; lia).
  rewrite wrap_small; [lia|change (2 ^ 16) with 65536; lia].
Qed.

Lemma read_timepoint_spec s m t :
  shows m (regs (device s)) t -> valid_timepoint t ->
  fst (read_timepoint s) =
    {| tp_seconds := tp_seconds t; tp_minutes := tp_minutes t;
       tp_hours := hour_of_register (mode_bcd m) (mode_12h m) (encode_hour m (tp_hours t));
       tp_day_of_month := tp_day_of_month t; tp_month := tp_month t; tp_year := tp_year t |} /\
  interrupts (snd (read_timepoint s)) = true.
Proof.
  intros (HB & H12 & Es & Em & Eh & Ed & Emo & Ey & Ec) (Vs & Vm & Vh & Vd & Vmo & Vy).
  unfold read_timepoint, ReadRegisterB.
  pose proof (GetOriginal_spec BCD (set_interrupts false s)) as (Hv0 & Hk0 & _).
  destruct (GetOriginal BCD (set_interrupts false s)) as [b s0]. cbn [fst snd device registerB set_interrupts] in Hv0, Hk0 |- *.
  set (s1 := {| device := device s0; registerB := b; interrupts := interrupts s0 |}).
  assert (forall a, regs (device s1) a = regs (device s) a) as K1 by done.
  assert (registerB s1 = b) as B1 by done. clearbody s1. clear s0 Hk0.
  assert (forall s : CMOSRTC D, registerB s = b -> IsBinaryCodedDecimal s = mode_bcd m /\ Is12Hour s = mode_12h m)
    as Hmode.
  { intros s' E. unfold IsBinaryCodedDecimal, Is12Hour. by rewrite E, Hv0. }
  pose proof (GetRtcValue_spec Second s1) as (Hv & Hk & Hb).
  destruct (GetRtcValue Second s1) as [sec s2]. cbn [fst snd device registerB set_interrupts] in Hv, Hk, Hb.
  rewrite (proj1 (Hmode s1 B1)), K1, Es, decode_encode in Hv by lia. subst sec.
  pose proof (GetRtcValue_spec Minute s2) as (Hv & Hk2 & Hb2).
  destruct (GetRtcValue Minute s2) as [mi s3]. cbn [fst snd device registerB set_interrupts] in Hv, Hk2, Hb2.
  rewrite B1 in Hb. rewrite (proj1 (Hmode s2 Hb)), Hk, K1, Em, decode_encode in Hv by lia. subst mi.
  pose proof (GetRtcHourValue_spec s3) as (Hv & Hk3 & Hb3).
  destruct (GetRtcHourValue s3) as [h s4]. cbn [fst snd device registerB set_interrupts] in Hv, Hk3, Hb3.
  rewrite Hb in Hb2. destruct (Hmode s3 Hb2) as [M1 M2].
  rewrite M1, M2, Hk2, Hk, K1, Eh in Hv. subst h.
  pose proof (GetRtcValue_spec Day s4) as (Hv & Hk4 & Hb4).
  destruct (GetRtcValue Day s4) as [d s5]. cbn [fst snd device registerB set_interrupts] in Hv, Hk4, Hb4.
  rewrite Hb2 in Hb3.
  rewrite (proj1 (Hmode s4 Hb3)), Hk3, Hk2, Hk, K1, Ed, decode_encode in Hv by lia. subst d.
  pose proof (GetRtcValue_spec Month s5) as (Hv & Hk5 & Hb5).
  destruct (GetRtcValue Month s5) as [mo s6]. cbn [fst snd device registerB set_interrupts] in Hv, Hk5, Hb5.
  rewrite Hb3 in Hb4.
  rewrite (proj1 (Hmode s5 Hb4)), Hk4, Hk3, Hk2, Hk, K1, Emo, decode_encode in Hv by lia. subst mo.
  rewrite Hb4 in Hb5.
  pose proof (GetRtcYearValue_spec s6 (mode_bcd m) (tp_year t)) as Hy.
  rewrite !Hk5, !Hk4, !Hk3, !Hk2, !Hk, !K1 in Hy.
  specialize (Hy (proj1 (Hmode s6 Hb5)) Vy Ey Ec).
  destruct (GetRtcYearValue s6) as [y s7]. cbn [fst snd device registerB set_interrupts] in Hy |- *. by subst y.
Qed.
End correctness.

(** A CMOS as a table of 256 byte registers and the selected one. *)
Record table_cmos := { table : Z -> Z; selected : Z }.

#[global] Instance table_io : PortIO table_cmos := {
  outb p v d := if p =? CmosAddress then {| table := table d; selected := v |} else d;
  inb p d := (if p =? CmosData then table d (selected d) mod 256 else 0, d)
}.

Definition table_regs (d : table_cmos) (a : Z) : Z := table d a mod 256.

#[global] Instance table_device : CmosDevice table_cmos table_regs.
Proof.
  split; try done. intros d a. apply Z.mod_pos_bound. lia.
Qed.

Definition cmos_showing (m : rtc_mode) (t : RTCTimePoint) : CMOSRTC table_cmos := {|
  device := {| selected := 0; table := fun a =>
    if a =? 0x0B then (if mode_bcd m then 0 else 4) + (if mode_12h m then 0 else 2)
    else if a =? 0 then encode (mode_bcd m) (tp_seconds t)
    else if a =? 2 then encode (mode_bcd m) (tp_minutes t)
    else if a =? 4 then encode_hour m (tp_hours t)
    else if a =? 7 then encode (mode_bcd m) (tp_day_of_month t)
    else if a =? 8 then encode (mode_bcd m) (tp_month t)
    else if a =? 9 then encode (mode_bcd m) (tp_year t mod 100)
    else if a =? 0x32 then encode (mode_bcd m) (tp_year t / 100)
    else 0 |};
  registerB := 65535; interrupts := true |}.

Definition sample_time : RTCTimePoint := {|
  tp_seconds := 59; tp_minutes := 8; tp_hours := 21; tp_day_of_month := 30;
  tp_month := 11; tp_year := 2021 |}.

(** C40: in all four register formats, reading the clock gives back the time
    it shows, except at hours 0 and 12 of a 12-hour clock, and leaves
    interrupts enabled.  The registers are supposed not to change during the
    reading: the driver's wait for an update in progress is commented out. *)
Theorem read_timepoint_correct {D} `{CmosDevice D regs} (s : CMOSRTC D) m t :
  shows m (regs (device s)) t -> valid_timepoint t ->
  (mode_12h m = false \/ (tp_hours t <> 0 /\ tp_hours t <> 12)) ->
  fst (read_timepoint s) = t /\ interrupts (snd (read_timepoint s)) = true.
Proof.
  intros Hs Hv Hn. destruct (read_timepoint_spec s m t Hs Hv) as [E Ei]. split; [|done].
  rewrite E. destruct m as [b h12]. rewrite hour_decode; [by destruct t|apply Hv|done].
Qed.

Lemma read_timepoint_correct_witness :
  fst (read_timepoint (cmos_showing {| mode_bcd := true; mode_12h := true |} sample_time)) = sample_time.
Proof.
  apply (read_timepoint_correct _ {| mode_bcd := true; mode_12h := true |} sample_time).
  - repeat split.
  - unfold valid_timepoint, sample_time. cbn. lia.
  - right. cbn. lia.
Defined.

(** On a 12-hour clock the driver reads noon as hour 0 and midnight as
    hour 12. *)
Lemma read_timepoint_noon_midnight {D} `{CmosDevice D regs} (s : CMOSRTC D) bcd t :
  shows {| mode_bcd := bcd; mode_12h := true |} (regs (device s)) t -> valid_timepoint t ->
  (tp_hours t = 12 -> tp_hours (fst (read_timepoint s)) = 0) /\
  (tp_hours t = 0 -> tp_hours (fst (read_timepoint s)) = 12).
Proof.
  intros Hs Hv. destruct (read_timepoint_spec s _ t Hs Hv) as [-> _]. cbn [tp_hours].
  split; intros ->; destruct bcd; reflexivity.
Qed.

Definition noon : RTCTimePoint := {|
  tp_seconds := 0; tp_minutes := 0; tp_hours := 12; tp_day_of_month := 1;
  tp_month := 1; tp_year := 2022 |}.

Lemma read_timepoint_noon_midnight_witness :
  tp_hours (fst (read_timepoint (cmos_showing {| mode_bcd := false; mode_12h := true |} noon))) = 0.
Proof.
  apply (read_timepoint_noon_midnight _ false noon).
  - repeat split.
  - unfold valid_timepoint, noon. cbn. lia.
  - reflexivity.
Defined.
