(* ===== verification/InfList.v ===== *)
(** * infos/util/list.h: the kernel's singly linked list

    A list owns its nodes: [nodes] is the part of the heap they live in, keyed
    by address, [new] takes an unused address and [delete] frees one, so a
    leaked or doubly freed node shows in the map.  A [Node**] is a [link]: the
    [_elems] field or the [Next] field of a node.  [holds l xs] says that the
    list has the elements [xs]; each operation is proved against it. *)
From S2P Require Import Prelude.

Record ListNode (A : Type) := { Next : option Z; Data : A }.
Arguments Next {A}. Arguments Data {A}.

Record List (A : Type) := {
  _elems : option Z;
  _count : Z;
  nodes : gmap Z (ListNode A)
}.
Arguments _elems {A}. Arguments _count {A}. Arguments nodes {A}.

Inductive link := Elems | NextOf (node : Z).

Section list.
Context {A : Type} `{EqDecision A}.
Implicit Types (l : List A) (m : gmap Z (ListNode A)).

Definition empty_list : List A := {| _elems := None; _count := 0; nodes := ∅ |}.

Definition with_nodes l m : List A := {| _elems := _elems l; _count := _count l; nodes := m |}.
Definition with_count l c : List A := {| _elems := _elems l; _count := u32 c; nodes := nodes l |}.

Definition node l (p : Z) : outcome (ListNode A) := in_bounds (nodes l !! p).

Definition read_link l (s : link) : outcome (option Z) :=
  match s with Elems => Ok (_elems l) | NextOf p => n ← node l p; Ok (Next n) end.

Definition write_link l (s : link) (v : option Z) : outcome (List A) :=
  match s with
  | Elems => Ok {| _elems := v; _count := _count l; nodes := nodes l |}
  | NextOf p =>
      n ← node l p;
      Ok (with_nodes l (<[p := {| Next := v; Data := Data n |}]> (nodes l)))
  end.

(** [new Node()] followed by the stores to its fields, and [delete]. *)
Definition new_node l (next : option Z) (x : A) : Z * List A :=
  let p := fresh (dom (nodes l)) in
  (p, with_nodes l (<[p := {| Next := next; Data := x |}]> (nodes l))).

Definition delete_node l (p : Z) : outcome (List A) :=
  _ ← node l p; Ok (with_nodes l (delete p (nodes l))).

Definition fuel_of l : nat := S (size (nodes l)).

(** Walk to the link that holds NULL. *)
Fixpoint walk_end (fuel : nat) l (s : link) : outcome link :=
  match fuel with
  | O => Fault OutOfFuel
  | S fuel =>
      v ← read_link l s;
      match v with Some p => walk_end fuel l (NextOf p) | None => Ok s end
  end.

Definition append l (elem : A) : outcome (List A) :=
  s ← walk_end (fuel_of l) l Elems;
  let '(p, l) := new_node l None elem in
  l ← write_link l s (Some p);
  Ok (with_count l (_count l + 1)).

Fixpoint walk_find (fuel : nat) l (s : link) (elem : A) : outcome link :=
  match fuel with
  | O => Fault OutOfFuel
  | S fuel =>
      v ← read_link l s;
      match v with
      | Some p =>
          n ← node l p;
          if bool_decide (Data n <> elem) then walk_find fuel l (NextOf p) elem else Ok s
      | None => Ok s
      end
  end.

Definition remove l (elem : A) : outcome (List A) :=
  s ← walk_find (fuel_of l) l Elems elem;
  v ← read_link l s;
  match v with
  | Some candidate =>
      n ← node l candidate;
      _ ← assert_ (bool_decide (Data n = elem));
      l ← write_link l s (Next n);
      l ← delete_node l candidate;
      Ok (with_count l (_count l - 1))
  | None => Ok l
  end.

Definition dequeue l : outcome (A * List A) :=
  _ ← assert_ (bool_decide (is_Some (_elems l)));
  front ← deref (_elems l);
  n ← node l front;
  l ← write_link l Elems (Next n);
  l ← delete_node l front;
  Ok (Data n, with_count l (_count l - 1)).

Definition enqueue l (elem : A) : outcome (List A) := append l elem.

Definition push l (elem : A) : outcome (List A) :=
  let '(p, l) := new_node l (_elems l) elem in
  l ← write_link l Elems (Some p);
  Ok (with_count l (_count l + 1)).

Definition pop l : outcome (A * List A) := dequeue l.

Definition first l : outcome A :=
  _ ← assert_ (bool_decide (is_Some (_elems l)));
  p ← deref (_elems l);
  n ← node l p;
  Ok (Data n).

Fixpoint walk_last (fuel : nat) l (p : Z) : outcome A :=
  match fuel with
  | O => Fault OutOfFuel
  | S fuel =>
      n ← node l p;
      match Next n with Some q => walk_last fuel l q | None => Ok (Data n) end
  end.

Definition last l : outcome A :=
  _ ← assert_ (bool_decide (is_Some (_elems l)));
  p ← deref (_elems l);
  walk_last (fuel_of l) l p.

(** The counter [ctr] runs up to [index] unless the list ends first. *)
Fixpoint walk_at (fuel : nat) l (v : option Z) (ctr index : Z) : outcome (option Z) :=
  match fuel with
  | O => Fault OutOfFuel
  | S fuel =>
      match v with
      | Some p =>
          if ctr =? index then Ok v
          else n ← node l p; walk_at fuel l (Next n) (ctr + 1) index
      | None => Ok None
      end
  end.

Definition at_ l (index : Z) : outcome A :=
  v ← walk_at (fuel_of l) l (_elems l) 0 index;
  _ ← assert_ (bool_decide (is_Some v));
  p ← deref v;
  n ← node l p;
  Ok (Data n).

Definition count l : Z := _count l.
Definition empty l : bool := _count l =? 0.

Fixpoint clear_nodes (fuel : nat) l (cur : option Z) : outcome (List A) :=
  match fuel with
  | O => Fault OutOfFuel
  | S fuel =>
      match cur with
      | Some tmp => n ← node l tmp; l ← delete_node l tmp; clear_nodes fuel l (Next n)
      | None => Ok l
      end
  end.

Definition clear l : outcome (List A) :=
  l ← clear_nodes (fuel_of l) l (_elems l);
  Ok {| _elems := None; _count := 0; nodes := nodes l |}.

(** Range-for: [begin], [!=], [++] and [*] visit the elements in order. *)
Fixpoint iterate (fuel : nat) l (cur : option Z) : outcome (list A) :=
  match fuel with
  | O => Fault OutOfFuel
  | S fuel =>
      match cur with
      | Some p => n ← node l p; r ← iterate fuel l (Next n); Ok (Data n :: r)
      | None => Ok []
      end
  end.

Definition elements l : outcome (list A) := iterate (fuel_of l) l (_elems l).

Fixpoint append_all (l : List A) (xs : list A) : outcome (List A) :=
  match xs with [] => Ok l | x :: xs => l ← append l x; append_all l xs end.

(** The copy constructor. *)
Definition copy (r : List A) : outcome (List A) := xs ← elements r; append_all empty_list xs.
End list.

(** ** The elements a list holds *)
Section holds.
Context {A : Type} `{EqDecision A}.
Implicit Types (l : List A) (m : gmap Z (ListNode A)) (pl : list (Z * A)).

(** [lseg m h pl e]: following [Next] from [h] visits the nodes [pl] and
    ends at [e]. *)
Fixpoint lseg m (h : option Z) pl (e : option Z) : Prop :=
  match pl with
  | [] => h = e
  | (p, x) :: pl' => h = Some p /\ exists n, m !! p = Some {| Next := n; Data := x |} /\ lseg m n pl' e
  end.

Record nodes_are l pl : Prop := {
  na_seg : lseg (nodes l) (_elems l) pl None;
  na_nodup : NoDup pl.*1;
  na_dom : dom (nodes l) = list_to_set pl.*1;
  na_count : _count l = u32 (Z.of_nat (length pl))
}.

Definition holds l (xs : list A) : Prop := exists pl, nodes_are l pl /\ xs = pl.*2.

Lemma lseg_app m h pl1 pl2 e :
  lseg m h (pl1 ++ pl2) e <-> exists v, lseg m h pl1 v /\ lseg m v pl2 e.
Proof.
  revert h. induction pl1 as [|[p x] pl1 IH]; intros h; simpl.
  - split; [eauto|]. by intros (v & -> & H).
  - setoid_rewrite IH. naive_solver.
Qed.

Lemma lseg_frame m m' h pl e :
  (forall p, p ∈ pl.*1 -> m' !! p = m !! p) -> lseg m h pl e -> lseg m' h pl e.
Proof.
  revert h. induction pl as [|[p x] pl IH]; intros h Hm; simpl; [done|].
  intros (-> & n & Hp & Hs). split; [done|]. exists n. rewrite Hm by (simpl; set_solver).
  split; [done|]. apply IH; [|done]. intros q Hq. apply Hm. simpl. set_solver.
Qed.

(** The link after the nodes [pl]. *)
Definition link_after pl : link := match list.last pl.*1 with Some p => NextOf p | None => Elems end.

Lemma read_link_after l pl v : lseg (nodes l) (_elems l) pl v -> read_link l (link_after pl) = Ok v.
Proof.
  destruct pl as [|[p x] pl _] using rev_ind; [by intros <-|].
  rewrite lseg_app. intros (w & _ & -> & n & Hn & <-).
  unfold link_after. rewrite fmap_app, last_app. simpl. unfold node. by rewrite Hn.
Qed.

(** Redirecting the link after [pl]. *)
Lemma write_link_after l pl v w :
  NoDup pl.*1 -> lseg (nodes l) (_elems l) pl v ->
  exists l', write_link l (link_after pl) w = Ok l' /\ _count l' = _count l /\
    dom (nodes l') = dom (nodes l) /\ lseg (nodes l') (_elems l') pl w /\
    (forall q, q ∉ pl.*1 -> nodes l' !! q = nodes l !! q).
Proof.
  destruct pl as [|[p x] pl _] using rev_ind; intros Hnd.
  { intros <-. eexists. split; [done|]. done. }
  rewrite lseg_app. intros (u & Hs & -> & n & Hn & <-).
  unfold link_after. rewrite fmap_app, last_app. simpl. unfold node. rewrite Hn. simpl.
  rewrite fmap_app in Hnd. apply NoDup_app in Hnd as (Hnd & Hd & _).
  eexists. split; [done|]. split; [done|]. split; [|split].
  - simpl. rewrite dom_insert_lookup_L; [done|]. by eexists.
  - rewrite lseg_app. exists (Some p). split.
    + eapply lseg_frame; [|done]. intros q Hq. simpl. rewrite lookup_insert_ne; [done|].
      intros ->. apply (Hd q Hq). simpl. set_solver.
    + simpl. split; [done|]. exists w. by rewrite lookup_insert_eq.
  - intros q Hq. simpl. rewrite lookup_insert_ne; [done|]. intros ->. apply Hq.
    set_solver.
Qed.

Lemma fuel_enough l pl : nodes_are l pl -> (length pl < fuel_of l)%nat.
Proof.
  intros [_ Hnd Hd _]. unfold fuel_of.
  rewrite <- size_dom, Hd, size_list_to_set, length_fmap by done. lia.
Qed.

Lemma walk_end_spec fuel l pl1 pl2 :
  lseg (nodes l) (_elems l) (pl1 ++ pl2) None -> (length pl2 < fuel)%nat ->
  walk_end fuel l (link_after pl1) = Ok (link_after (pl1 ++ pl2)).
Proof.
  revert fuel pl1. induction pl2 as [|[p x] pl2 IH]; intros fuel pl1 Hs Hf;
    (destruct fuel as [|fuel]; [simpl in Hf; lia|]); simpl.
  - rewrite app_nil_r in *. by rewrite (read_link_after _ _ _ Hs).
  - pose proof Hs as (v & Hs1 & -> & n & Hn & Hs2)%lseg_app.
    rewrite (read_link_after _ _ _ Hs1). simpl.
    replace (NextOf p) with (link_after (pl1 ++ [(p, x)])).
    2:{ unfold link_after. by rewrite fmap_app, last_app. }
    rewrite (IH fuel (pl1 ++ [(p, x)])); [by rewrite <- app_assoc|by rewrite <- app_assoc|].
    simpl in Hf. lia.
Qed.

Lemma append_spec l xs x : holds l xs -> exists l', append l x = Ok l' /\ holds l' (xs ++ [x]).
Proof.
  intros (pl & HN & ->). pose proof HN as [Hs Hnd Hd Hc]. unfold append.
  pose proof (walk_end_spec (fuel_of l) l [] pl Hs (fuel_enough _ _ HN)) as Ew.
  simpl in Ew. change (link_after []) with Elems in Ew. step_to Ew.
  unfold new_node. set (p := fresh (dom (nodes l))).
  assert (p ∉ dom (nodes l)) as Hp by apply is_fresh.
  assert (p ∉ pl.*1) as Hpl by (rewrite Hd in Hp; set_solver).
  set (l1 := with_nodes l _).
  assert (lseg (nodes l1) (_elems l1) pl None) as Hs1.
  { eapply lseg_frame; [|done]. intros q Hq. simpl. rewrite lookup_insert_ne; [done|congruence]. }
  destruct (write_link_after l1 pl None (Some p) Hnd Hs1) as (l2 & E2 & Hc2 & Hd2 & Hs2 & Hf2).
  step_to E2. eexists. split; [done|]. exists (pl ++ [(p, x)]).
  split; [|by rewrite fmap_app]. split; cbn [_count _elems nodes with_count].
  - apply lseg_app. exists (Some p). split; [done|]. split; [done|]. exists None.
    rewrite Hf2 by done. simpl. by rewrite lookup_insert_eq.
  - rewrite fmap_app. apply NoDup_app. split; [done|]. split; [|apply NoDup_singleton].
    intros q Hq ->%list_elem_of_singleton. done.
  - rewrite Hd2, fmap_app, list_to_set_app_L. simpl. rewrite dom_insert_L, Hd. set_solver.
  - rewrite Hc2, length_app. simpl. rewrite Hc. unfold wrap.
    rewrite Zplus_mod_idemp_l. f_equal. lia.
Qed.

Lemma walk_find_spec fuel l x pl1 pl2 :
  lseg (nodes l) (_elems l) (pl1 ++ pl2) None -> (length pl2 < fuel)%nat ->
  exists pl2a pl2b, pl2 = pl2a ++ pl2b /\ x ∉ pl2a.*2 /\
    (pl2b = [] \/ exists p pl2c, pl2b = (p, x) :: pl2c) /\
    walk_find fuel l (link_after pl1) x = Ok (link_after (pl1 ++ pl2a)).
Proof.
  revert fuel pl1. induction pl2 as [|[p y] pl2 IH]; intros fuel pl1 Hs Hf;
    (destruct fuel as [|fuel]; [simpl in Hf; lia|]); simpl.
  - exists [], []. rewrite !app_nil_r in *. split_and!; [done|set_solver|by left|].
    by rewrite (read_link_after _ _ _ Hs).
  - pose proof Hs as (v & Hs1 & -> & n & Hn & Hs2)%lseg_app.
    rewrite (read_link_after _ _ _ Hs1). simpl. unfold node. rewrite Hn. simpl.
    destruct (decide (y = x)) as [->|Hne].
    + exists [], ((p, x) :: pl2). rewrite app_nil_r, bool_decide_false by tauto.
      split_and!; [done|set_solver|right; eauto|done].
    + rewrite bool_decide_true by done.
      replace (NextOf p) with (link_after (pl1 ++ [(p, y)])).
      2:{ unfold link_after. by rewrite fmap_app, last_app. }
      destruct (IH fuel (pl1 ++ [(p, y)])) as (a & b & -> & Hx & Hb & E);
        [by rewrite <- app_assoc|simpl in Hf; lia|].
      exists ((p, y) :: a), b. rewrite <- app_assoc in E.
      split_and!; [done|simpl; set_solver|done|done].
Qed.

(** The first of two equal elements goes. *)
Fixpoint remove_first (x : A) (xs : list A) : list A :=
  match xs with
  | [] => []
  | y :: ys => if decide (y = x) then ys else y :: remove_first x ys
  end.

Lemma remove_first_app x xs ys : x ∉ xs -> remove_first x (xs ++ ys) = xs ++ remove_first x ys.
Proof.
  induction xs as [|y xs IH]; intros Hx; simpl; [done|].
  rewrite decide_False by set_solver. f_equal. apply IH. set_solver.
Qed.

Lemma remove_first_absent x xs : x ∉ xs -> remove_first x xs = xs.
Proof. intros Hx. rewrite <- (app_nil_r xs) at 1. by rewrite remove_first_app, app_nil_r. Qed.

(** Unlinking the node after [pl1]. *)
Lemma unlink_spec l pl1 p x pl2 :
  nodes_are l (pl1 ++ (p, x) :: pl2) ->
  exists n l1 l2, nodes l !! p = Some n /\ Data n = x /\
    read_link l (link_after pl1) = Ok (Some p) /\
    write_link l (link_after pl1) (Next n) = Ok l1 /\ delete_node l1 p = Ok l2 /\
    nodes_are (with_count l2 (_count l2 - 1)) (pl1 ++ pl2).
Proof.
  intros [Hs Hnd Hd Hc]. pose proof Hs as (v & Hs1 & -> & w & Hn & Hs2)%lseg_app.
  rewrite fmap_app in Hnd. apply NoDup_app in Hnd as (Hnd1 & Hdis & Hnd2).
  simpl in Hnd2. apply NoDup_cons in Hnd2 as [Hp2 Hnd2].
  assert (p ∉ pl1.*1) as Hp1 by (intros Hi; apply (Hdis p Hi); simpl; set_solver).
  destruct (write_link_after l pl1 (Some p) w Hnd1 Hs1) as (l1 & E1 & Hc1 & Hd1 & Hs1' & Hf1).
  exists {| Next := w; Data := x |}, l1. eexists. split; [done|]. split; [done|].
  split; [by apply read_link_after|]. split; [done|].
  split. { unfold delete_node, node. rewrite Hf1, Hn by done. done. }
  split; cbn [_count _elems nodes with_count with_nodes].
  - apply lseg_app. exists w. split.
    + eapply lseg_frame; [|done]. intros q Hq. rewrite lookup_delete_ne; [done|by intros ->].
    + eapply lseg_frame; [|done]. intros q Hq. rewrite lookup_delete_ne by (by intros ->).
      apply Hf1. intros Hi. apply (Hdis q Hi). simpl. set_solver.
  - rewrite fmap_app. apply NoDup_app. split; [done|]. split; [|done].
    intros q Hq Hq2. apply (Hdis q Hq). simpl. set_solver.
  - rewrite dom_delete_L, Hd1, Hd, !fmap_app, !list_to_set_app_L. simpl. set_solver.
  - rewrite Hc1, Hc, !length_app. simpl. unfold wrap. rewrite Zminus_mod_idemp_l. f_equal. lia.
Qed.

Lemma remove_spec l xs x :
  holds l xs -> exists l', remove l x = Ok l' /\ holds l' (remove_first x xs).
Proof.
  intros (pl & HN & ->). pose proof HN as [Hs Hnd Hd Hc].
  destruct (walk_find_spec (fuel_of l) l x [] pl Hs (fuel_enough _ _ HN))
    as (a & b & -> & Hx & Hb & E).
  unfold remove. change (link_after []) with Elems in E. step_to E. cbn [app].
  destruct Hb as [->|(p & c & ->)].
  - rewrite app_nil_r in *. rewrite (read_link_after _ _ _ Hs). cbn. exists l. split; [done|].
    exists a. by rewrite remove_first_absent.
  - destruct (unlink_spec l a p x c HN) as (n & l1 & l2 & Hn & Hx' & Er & E1 & E2 & HN').
    step_to Er. unfold node. rewrite Hn. cbn [in_bounds mbind outcome_bind].
    rewrite bool_decide_true by done. cbn [assert_ mbind outcome_bind]. step_to E1. step_to E2.
    eexists. split; [done|]. exists (a ++ c). split; [done|].
    rewrite !fmap_app. simpl. rewrite remove_first_app by done. simpl. by rewrite decide_True.
Qed.

Lemma dequeue_spec l x xs :
  holds l (x :: xs) -> exists l', dequeue l = Ok (x, l') /\ holds l' xs.
Proof.
  intros (pl & HN & Hx). destruct pl as [|[p y] pl]; [done|]. injection Hx as -> ->.
  destruct (unlink_spec l [] p y pl HN) as (n & l1 & l2 & Hn & Hx' & Er & E1 & E2 & HN').
  change (link_after []) with Elems in *. injection Er as Er. unfold dequeue.
  rewrite Er, bool_decide_true by eauto. cbn [assert_ mbind outcome_bind deref].
  unfold node. rewrite Hn. cbn [in_bounds mbind outcome_bind]. step_to E1. step_to E2.
  rewrite Hx'. eexists. split; [done|]. by exists pl.
Qed.

Lemma dequeue_empty l : holds l [] -> dequeue l = Fault AssertionFailure.
Proof.
  intros (pl & [Hs _ _ _] & Hx). destruct pl; [|done]. unfold dequeue. by rewrite Hs.
Qed.

Lemma push_spec l xs x : holds l xs -> exists l', push l x = Ok l' /\ holds l' (x :: xs).
Proof.
  intros (pl & [Hs Hnd Hd Hc] & ->). eexists. split; [done|].
  set (p := fresh (dom (nodes l))). assert (p ∉ dom (nodes l)) as Hp by apply is_fresh.
  assert (p ∉ pl.*1) as Hpl by (rewrite Hd in Hp; set_solver).
  exists ((p, x) :: pl). split; [|done]. split; cbn [_count _elems nodes with_count with_nodes].
  - split; [done|]. exists (_elems l). rewrite lookup_insert_eq. split; [done|].
    eapply lseg_frame; [|done]. intros q Hq. rewrite lookup_insert_ne; [done|congruence].
  - simpl. by apply NoDup_cons.
  - rewrite dom_insert_L, Hd. simpl. done.
  - rewrite Hc. cbn [length]. unfold wrap. rewrite Zplus_mod_idemp_l. f_equal. lia.
Qed.

Lemma iterate_spec fuel l h pl :
  lseg (nodes l) h pl None -> (length pl < fuel)%nat -> iterate fuel l h = Ok pl.*2.
Proof.
  revert fuel h. induction pl as [|[p x] pl IH]; intros fuel h Hs Hf;
    (destruct fuel as [|fuel]; [simpl in Hf; lia|]); simpl in Hs.
  - by subst h.
  - destruct Hs as (-> & n & Hn & Hs). cbn [iterate]. unfold node. rewrite Hn.
    cbn [in_bounds mbind outcome_bind Next Data].
    rewrite (IH fuel n Hs) by (simpl in Hf; lia). done.
Qed.

Lemma elements_spec l xs : holds l xs -> elements l = Ok xs.
Proof.
  intros (pl & HN & ->). apply iterate_spec; [apply HN|by apply fuel_enough].
Qed.

Lemma count_spec l xs : holds l xs -> count l = u32 (Z.of_nat (length xs)).
Proof. intros (pl & [_ _ _ Hc] & ->). by rewrite length_fmap. Qed.

Lemma first_spec l x xs : holds l (x :: xs) -> first l = Ok x.
Proof.
  intros (pl & [Hs _ _ _] & Hx). destruct pl as [|[p y] pl]; [done|]. injection Hx as -> ->.
  simpl in Hs. destruct Hs as (Hh & n & Hn & _). unfold first. rewrite Hh. cbn.
  unfold node. by rewrite Hn.
Qed.

Lemma empty_list_holds : holds empty_list [].
Proof. exists []. split; [|done]. split; try done. apply NoDup_nil_2. Qed.

Lemma clear_nodes_spec fuel l h pl :
  lseg (nodes l) h pl None -> NoDup pl.*1 -> dom (nodes l) = list_to_set pl.*1 ->
  (length pl < fuel)%nat ->
  exists l', clear_nodes fuel l h = Ok l' /\ nodes l' = ∅.
Proof.
  revert fuel l h. induction pl as [|[p x] pl IH]; intros fuel l h Hs Hnd Hd Hf;
    (destruct fuel as [|fuel]; [simpl in Hf; lia|]); simpl in *.
  - subst h. exists l. split; [done|]. by apply dom_empty_inv_L.
  - destruct Hs as (-> & n & Hn & Hs). unfold delete_node, node. rewrite Hn. simpl.
    apply NoDup_cons in Hnd as [Hp Hnd].
    apply (IH fuel (with_nodes l (delete p (nodes l)))); [|done| |lia].
    + eapply lseg_frame; [|done]. intros q Hq. simpl. rewrite lookup_delete_ne; [done|by intros ->].
    + simpl. rewrite dom_delete_L, Hd. set_solver.
Qed.

Lemma clear_spec l xs :
  holds l xs -> exists l', clear l = Ok l' /\ holds l' [] /\ nodes l' = ∅.
Proof.
  intros (pl & HN & ->). pose proof HN as [Hs Hnd Hd Hc].
  destruct (clear_nodes_spec (fuel_of l) l (_elems l) pl Hs Hnd Hd (fuel_enough _ _ HN))
    as (l' & E & Hm).
  unfold clear. step_to E. eexists. split; [done|]. split; [|done].
  exists []. split; [|done]. split; try done; [apply NoDup_nil_2|]. cbn [nodes]. by rewrite Hm.
Qed.

Lemma append_all_spec xs l ys :
  holds l ys -> exists l', append_all l xs = Ok l' /\ holds l' (ys ++ xs).
Proof.
  revert l ys. induction xs as [|x xs IH]; intros l ys Hl; simpl.
  - exists l. by rewrite app_nil_r.
  - destruct (append_spec l ys x Hl) as (l1 & E1 & H1). step_to E1.
    destruct (IH l1 _ H1) as (l' & E & H'). exists l'. split; [done|]. by rewrite <- app_assoc in H'.
Qed.

Lemma walk_at_spec fuel l h pl ctr index :
  lseg (nodes l) h pl None -> (length pl < fuel)%nat -> ctr <= index ->
  walk_at fuel l h ctr index = Ok (fst <$> pl !! Z.to_nat (index - ctr)).
Proof.
  revert fuel h ctr. induction pl as [|[p x] pl IH]; intros fuel h ctr Hs Hf Hi;
    (destruct fuel as [|fuel]; [simpl in Hf; lia|]); simpl in Hs; cbn [walk_at].
  - by subst h.
  - destruct Hs as (-> & n & Hn & Hs). destruct (Z.eqb_spec ctr index) as [->|Hne].
    + by rewrite Z.sub_diag.
    + unfold node. rewrite Hn. cbn [in_bounds mbind outcome_bind Next].
      rewrite (IH fuel n (ctr + 1) Hs) by (simpl in Hf; lia).
      replace (Z.to_nat (index - ctr)) with (S (Z.to_nat (index - (ctr + 1)))) by lia. done.
Qed.

Lemma lseg_lookup m h pl e i p x :
  lseg m h pl e -> pl !! i = Some (p, x) -> exists n, m !! p = Some {| Next := n; Data := x |}.
Proof.
  revert h i. induction pl as [|[q y] pl IH]; intros h i; [done|].
  intros (-> & n & Hn & Hs). destruct i; simpl; [intros [= -> ->]; eauto|by apply (IH n)].
Qed.

Lemma at_spec l xs i :
  holds l xs -> 0 <= i ->
  at_ l i = match xs !! Z.to_nat i with Some x => Ok x | None => Fault AssertionFailure end.
Proof.
  intros (pl & HN & ->) Hi. unfold at_.
  rewrite (walk_at_spec _ l (_elems l) pl 0 i (na_seg _ _ HN) (fuel_enough _ _ HN) Hi).
  cbn [mbind outcome_bind]. rewrite Z.sub_0_r, list_lookup_fmap.
  destruct (pl !! Z.to_nat i) as [[p x]|] eqn:E; cbn; [|done].
  destruct (lseg_lookup _ _ _ _ _ _ _ (na_seg _ _ HN) E) as (n & Hn).
  unfold node. by rewrite Hn.
Qed.
End holds.

(** The kernel's List is a functional queue.  On a list that holds [xs],
    append, push and remove leave [xs ++ [x]], [x :: xs] and [xs] without the
    first [x]; dequeue gives the head, or the assertion fails on an empty list;
    at agrees with the index; count is the length (mod 2^32); a copy holds the
    same elements; and clear frees every node it owns. *)
Lemma list_is_queue {A} `{EqDecision A} (l : List A) xs x :
  holds l xs ->
  (exists l', append l x = Ok l' /\ holds l' (xs ++ [x])) /\
  (exists l', push l x = Ok l' /\ holds l' (x :: xs)) /\
  (exists l', remove l x = Ok l' /\ holds l' (remove_first x xs)) /\
  match xs with
  | [] => dequeue l = Fault AssertionFailure
  | y :: ys => first l = Ok y /\ exists l', dequeue l = Ok (y, l') /\ holds l' ys
  end /\
  (forall i, 0 <= i ->
     at_ l i = match xs !! Z.to_nat i with Some y => Ok y | None => Fault AssertionFailure end) /\
  count l = u32 (Z.of_nat (length xs)) /\ elements l = Ok xs /\
  (exists l', copy l = Ok l' /\ holds l' xs) /\
  (exists l', clear l = Ok l' /\ holds l' [] /\ nodes l' = ∅).
Proof.
  intros Hl. split_and!.
  - by apply append_spec.
  - by apply push_spec.
  - by apply remove_spec.
  - destruct xs; [by apply dequeue_empty|]. split; [by eapply first_spec|by apply dequeue_spec].
  - intros i Hi. by apply at_spec.
  - by apply count_spec.
  - by apply elements_spec.
  - unfold copy. rewrite (bind_Ok _ _ _ (elements_spec l xs Hl)).
    apply (append_all_spec xs empty_list [] empty_list_holds).
  - by eapply clear_spec.
Qed.

Lemma list_is_queue_witness : exists l l' : List Z, dequeue l = Ok (3, l') /\ holds l' [5].
Proof.
  destruct (append_all_spec [3; 5] (@empty_list Z) [] empty_list_holds) as (l & _ & Hl).
  destruct (list_is_queue l [3; 5] 4 Hl) as (_ & _ & _ & (_ & l' & E & Hl') & _).
  by exists l, l'.
Defined.
