(* ===== verification/CommonsList.v ===== *)
(** * Commons::Collections::List of coursework/sched-fifo.cpp

    The list the FIFO and round-robin schedulers keep their run queue in
    (coursework/sched-rr.cpp holds a second copy of the same code): a ring of
    doubly linked nodes entered at [_root].  The nodes live in a heap [ring];
    a [SharedPointer] is an address or NULL.  A node that has been unlinked
    stays in the heap: its reference count is not part of this model.

    [holds l xs] relates a list to its elements in order from the root. *)
From S2P Require Import Prelude.

Record ListNode := { _data : Z; _next : option Z; _prev : option Z }.

Record List := { _root : option Z; _count : Z; ring : gmap Z ListNode }.

Definition List_new : List := {| _root := None; _count := 0; ring := ∅ |}.

Definition node (l : List) (p : Z) : outcome ListNode := in_bounds (ring l !! p).

Definition set_ring (l : List) (m : gmap Z ListNode) : List :=
  {| _root := _root l; _count := _count l; ring := m |}.
Definition set_root (l : List) (r : option Z) : List :=
  {| _root := r; _count := _count l; ring := ring l |}.
Definition set_count (l : List) (c : Z) : List :=
  {| _root := _root l; _count := i32 c; ring := ring l |}.

Definition store_next (l : List) (p : Z) (v : option Z) : outcome List :=
  n ← node l p;
  Ok (set_ring l (<[p := {| _data := _data n; _next := v; _prev := _prev n |}]> (ring l))).
Definition store_prev (l : List) (p : Z) (v : option Z) : outcome List :=
  n ← node l p;
  Ok (set_ring l (<[p := {| _data := _data n; _next := _next n; _prev := v |}]> (ring l))).

(** [MakeShared<ListNode<T>>(elem)]. *)
Definition make_node (l : List) (elem : Z) : Z * List :=
  let p := fresh (dom (ring l)) in
  (p, set_ring l (<[p := {| _data := elem; _next := None; _prev := None |}]> (ring l))).

Definition fuel_of (l : List) : nat := S (size (ring l)).

(** ** Linking *)
Definition AddAfter (l : List) (newNode oldNode : Z) : outcome List :=
  old ← node l oldNode;
  l ← store_next l newNode (_next old);
  l ← store_prev l newNode (Some oldNode);
  old ← node l oldNode;
  nx ← deref (_next old);
  l ← store_prev l nx (Some newNode);
  l ← store_next l oldNode (Some newNode);
  Ok (set_count l (_count l + 1)).

Definition RemoveNode (l : List) (p : Z) : outcome List :=
  n ← node l p;
  nx ← deref (_next n);
  l ← store_prev l nx (_prev n);
  n ← node l p;
  pv ← deref (_prev n);
  l ← store_next l pv (_next n);
  l ← (if bool_decide (Some p = _root l) then
         r ← deref (_root l);
         rn ← node l r;
         let l := set_root l (_next rn) in
         Ok (if _count l =? 1 then set_root l None else l)
       else Ok l);
  Ok (set_count l (_count l - 1)).

Definition Insert (l : List) (elem : Z) (at_node : option Z) : outcome (option Z * List) :=
  match at_node with
  | None => Ok (None, l)
  | Some nd =>
      let '(newNode, l) := make_node l elem in
      l ← AddAfter l newNode nd;
      Ok (Some newNode, l)
  end.

(** The branch of [AddToHead] and [AddToTail] for an empty list. *)
Definition link_alone (l : List) (newNode : Z) : outcome List :=
  l ← store_next l newNode (Some newNode);
  store_prev l newNode (Some newNode).

Definition AddToHead (l : List) (elem : Z) : outcome (Z * List) :=
  let '(newNode, l) := make_node l elem in
  l ← match _root l with
      | Some r =>
          rn ← node l r;
          tail ← deref (_prev rn);
          AddAfter l newNode tail
      | None => l ← link_alone l newNode; Ok (set_count l (_count l + 1))
      end;
  Ok (newNode, set_root l (Some newNode)).

Definition AddToTail (l : List) (elem : Z) : outcome (Z * List) :=
  let '(newNode, l) := make_node l elem in
  l ← match _root l with
      | Some r =>
          rn ← node l r;
          tail ← deref (_prev rn);
          AddAfter l newNode tail
      | None =>
          l ← link_alone l newNode;
          Ok (set_count (set_root l (Some newNode)) (_count l + 1))
      end;
  Ok (newNode, l).

Definition Add (l : List) (elem : Z) : outcome List := '(_, l) ← AddToTail l elem; Ok l.

(** ** Searching and removing

    The comparator is the default one, [==]. *)

(** The [do ... while (node != end)] loop of [Find]. *)
Fixpoint find_loop (fuel : nat) (l : List) (elem : Z) (p : Z) (end_ : option Z)
  : outcome (option Z) :=
  match fuel with
  | O => Fault OutOfFuel
  | S fuel =>
      n ← node l p;
      if _data n =? elem then Ok (Some p)
      else if bool_decide (_next n = end_) then Ok None
      else q ← deref (_next n); find_loop fuel l elem q end_
  end.

(** [end] is the node after the root, so the loop stops after the root. *)
Definition Find (l : List) (elem : Z) : outcome (option Z) :=
  match _root l with
  | None => Ok None
  | Some r => rn ← node l r; find_loop (fuel_of l) l elem r (_next rn)
  end.

Definition Contains (l : List) (elem : Z) : outcome bool :=
  f ← Find l elem; Ok (bool_decide (is_Some f)).

(** The first loop of [Remove]: the nodes to delete, in order. *)
Fixpoint collect_loop (fuel : nat) (l : List) (elem : Z) (p : Z) (end_ : option Z)
  : outcome (list Z) :=
  match fuel with
  | O => Fault OutOfFuel
  | S fuel =>
      n ← node l p;
      rest ← (if bool_decide (_next n = end_) then Ok []
              else q ← deref (_next n); collect_loop fuel l elem q end_);
      Ok (if _data n =? elem then p :: rest else rest)
  end.

Fixpoint remove_nodes (l : List) (ps : list Z) : outcome List :=
  match ps with
  | [] => Ok l
  | p :: ps => l ← RemoveNode l p; remove_nodes l ps
  end.

Definition Remove (l : List) (elem : Z) : outcome List :=
  match _root l with
  | None => Ok l
  | Some r =>
      deleteList ← collect_loop (fuel_of l) l elem r (Some r);
      remove_nodes l deleteList
  end.

Definition Count (l : List) : Z := _count l.

Definition Clear (l : List) : outcome List :=
  l ← match _root l with Some r => store_next l r None | None => Ok l end;
  Ok {| _root := None; _count := 0; ring := ring l |}.

Definition GetHead (l : List) : option Z := _root l.
Definition GetTail (l : List) : outcome (option Z) :=
  match _root l with Some r => n ← node l r; Ok (_prev n) | None => Ok None end.

(** ** [Range] and [ForEach]

    [Get] steps from the root once for every element of [To(0, index)]. *)
Record Range_Enumerator := { _start : Z; _end : Z; _current : Z }.

Definition Range_Enumerator_new (start end_ : Z) : Range_Enumerator :=
  {| _start := start; _end := end_;
     _current := if end_ <? start then i32 (start + 1) else i32 (start - 1) |}.

Definition MoveNext (e : Range_Enumerator) : bool * Range_Enumerator :=
  if _start e <? _end e then
    let c := i32 (_current e + 1) in
    (c <? _end e, {| _start := _start e; _end := _end e; _current := c |})
  else
    let c := i32 (_current e - 1) in
    (_end e <? c, {| _start := _start e; _end := _end e; _current := c |}).

(** [ForEach] of a range with a step that moves a node pointer. *)
Fixpoint for_each (fuel : nat) (e : Range_Enumerator) (step : Z -> outcome Z) (p : Z) : outcome Z :=
  match fuel with
  | O => Fault OutOfFuel
  | S fuel =>
      let '(more, e) := MoveNext e in
      if more then p ← step p; for_each fuel e step p else Ok p
  end.

Definition step_next (l : List) (p : Z) : outcome Z := n ← node l p; deref (_next n).
Definition step_prev (l : List) (p : Z) : outcome Z := n ← node l p; deref (_prev n).

(** An index out of range throws. *)
Definition Get (l : List) (index : Z) : outcome Z :=
  if (0 <=? index) && (index <? _count l) then
    r ← deref (_root l);
    p ← for_each (S (Z.to_nat index)) (Range_Enumerator_new 0 index) (step_next l) r;
    n ← node l p; Ok (_data n)
  else if (index <? 0) && (- _count l <=? - index) then
    r ← deref (_root l);
    p ← for_each (S (Z.to_nat (- index))) (Range_Enumerator_new 0 (- index)) (step_prev l) r;
    n ← node l p; Ok (_data n)
  else Fault Aborted.

(** ** The queue *)
Definition Enqueue (l : List) (elem : Z) : outcome List := '(_, l) ← AddToTail l elem; Ok l.

Definition Front (l : List) : outcome Z := r ← deref (_root l); n ← node l r; Ok (_data n).

Definition Dequeue (l : List) : outcome (Z * List) :=
  r ← deref (_root l);
  n ← node l r;
  l ← RemoveNode l r;
  Ok (_data n, l).

(** The front becomes the new tail: only the entry point moves. *)
Definition Skew (l : List) : outcome (Z * List) :=
  r ← deref (_root l);
  n ← node l r;
  Ok (_data n, set_root l (_next n)).

(** ** [ListIterator] *)
Record ListIterator := { _cur : option Z; _iroot : option Z; _startState : bool }.

Definition GetEnumerator (l : List) : ListIterator :=
  {| _cur := _root l; _iroot := _root l; _startState := true |}.

Definition iter_MoveNext (l : List) (it : ListIterator) : outcome (bool * ListIterator) :=
  match _cur it with
  | None => Ok (false, it)
  | Some p =>
      if _startState it then
        Ok (true, {| _cur := _cur it; _iroot := _iroot it; _startState := false |})
      else
        n ← node l p;
        let it := {| _cur := _next n; _iroot := _iroot it; _startState := false |} in
        Ok (bool_decide (_cur it <> _iroot it), it)
  end.

Definition iter_Current (l : List) (it : ListIterator) : outcome Z :=
  p ← deref (_cur it); n ← node l p; Ok (_data n).

Fixpoint iter_all (fuel : nat) (l : List) (it : ListIterator) : outcome (list Z) :=
  match fuel with
  | O => Fault OutOfFuel
  | S fuel =>
      '(more, it) ← iter_MoveNext l it;
      if more : bool then
        x ← iter_Current l it;
        xs ← iter_all fuel l it;
        Ok (x :: xs)
      else Ok []
  end.

Definition elements (l : List) : outcome (list Z) := iter_all (S (fuel_of l)) l (GetEnumerator l).
