(* ===== verification/CommonsListProof.v ===== *)
(** * Correctness of Commons::Collections::List

    [holds l xs]: the ring entered at [_root] has the elements [xs] in order.
    The proofs speak of a path of doubly linked nodes, which appends, and of
    the ring as a path from a node back to itself, which rotates. *)
From S2P Require Import Prelude CommonsList.

Definition nxt (l : List) (p : Z) : option (option Z) := _next <$> ring l !! p.
Definition prv (l : List) (p : Z) : option (option Z) := _prev <$> ring l !! p.
Definition dat (l : List) (p : Z) : option Z := _data <$> ring l !! p.

(** From [p] through the nodes [ps] to [q]. *)
Fixpoint dpath (l : List) (p : Z) (ps : list Z) (q : Z) : Prop :=
  match ps with
  | [] => nxt l p = Some (Some q) /\ prv l q = Some (Some p)
  | x :: ps => nxt l p = Some (Some x) /\ prv l x = Some (Some p) /\ dpath l x ps q
  end.

Definition cycle (l : List) (ps : list Z) : Prop :=
  match ps with [] => True | p :: ps => dpath l p ps p end.

Record nodes_are (l : List) (ps : list Z) (xs : list Z) : Prop := {
  na_data : Forall2 (fun p x => dat l p = Some x) ps xs;
  na_nodup : NoDup ps;
  na_cycle : cycle l ps;
  na_root : _root l = head ps;
  na_count : _count l = Z.of_nat (length ps);
  na_small : Z.of_nat (length ps) < 2 ^ 31
}.

Definition holds (l : List) (xs : list Z) : Prop := exists ps, nodes_are l ps xs.

(** ** Paths *)
Lemma dpath_app l p ps x qs q :
  dpath l p (ps ++ x :: qs) q <-> dpath l p ps x /\ dpath l x qs q.
Proof.
  revert p. induction ps as [|y ps IH]; intros p; simpl; [tauto|]. rewrite IH. tauto.
Qed.

Lemma dpath_frame l l' p ps q :
  (forall y, y ∈ p :: ps -> nxt l' y = nxt l y) ->
  (forall y, y ∈ ps ++ [q] -> prv l' y = prv l y) ->
  dpath l p ps q -> dpath l' p ps q.
Proof.
  revert p. induction ps as [|x ps IH]; intros p Hn Hp; simpl.
  - rewrite Hn, Hp by set_solver. done.
  - intros (H1 & H2 & H3). rewrite Hn, Hp by set_solver. do 2 (split; [done|]).
    apply IH; [set_solver..|done].
Qed.

(** A ring depends on the heap's links alone. *)
Lemma cycle_ext l l' ps : ring l' = ring l -> cycle l ps -> cycle l' ps.
Proof.
  intros E. destruct ps as [|p ps]; [done|].
  apply dpath_frame; intros y _; unfold nxt, prv; by rewrite E.
Qed.

Lemma cycle_rotate l p ps : cycle l (p :: ps) -> cycle l (ps ++ [p]).
Proof.
  destruct ps as [|x ps]; simpl; [done|]. intros (H1 & H2 & H3).
  apply dpath_app. split; [done|]. by split.
Qed.

Lemma cycle_app_comm l ps qs : cycle l (ps ++ qs) -> cycle l (qs ++ ps).
Proof.
  revert qs. induction ps as [|p ps IH]; intros qs; simpl; [by rewrite app_nil_r|].
  intros H. apply (cycle_rotate l p) in H. rewrite <- app_assoc in H.
  apply IH in H. by rewrite <- app_assoc in H.
Qed.

Lemma cycle_last_first l p ps t : cycle l (p :: ps) -> list.last (p :: ps) = Some t ->
  nxt l t = Some (Some p) /\ prv l p = Some (Some t).
Proof.
  intros Hc Ht. destruct ps as [|x ps _] using rev_ind.
  - injection Ht as <-. done.
  - rewrite app_comm_cons, last_snoc in Ht. injection Ht as ->.
    simpl in Hc. apply dpath_app in Hc as [_ Hc]. done.
Qed.

Lemma dpath_cells l p ps q y : dpath l p ps q -> y ∈ p :: ps -> is_Some (ring l !! y).
Proof.
  revert p. induction ps as [|x ps IH]; intros p; simpl.
  - intros [H _] ->%list_elem_of_singleton. unfold nxt in H.
    destruct (ring l !! p); [eauto|done].
  - intros (H & _ & H3) [->|Hy]%elem_of_cons; [|by eapply IH].
    unfold nxt in H. destruct (ring l !! p); [eauto|done].
Qed.

(** ** Stores *)
Record keeps (l l' : List) : Prop := {
  kp_dat : forall q, dat l q <> None -> dat l' q = dat l q;
  kp_cells : forall q, is_Some (ring l !! q) -> is_Some (ring l' !! q)
}.

Lemma ring_store_next_spec l p v :
  is_Some (ring l !! p) -> exists l', store_next l p v = Ok l' /\ _root l' = _root l /\
    _count l' = _count l /\ nxt l' p = Some v /\ (forall q, q <> p -> nxt l' q = nxt l q) /\
    (forall q, prv l' q = prv l q) /\ (forall q, dat l' q = dat l q).
Proof.
  intros [n Hn]. unfold store_next, node. rewrite Hn. eexists. split; [done|].
  unfold nxt, prv, dat. cbn. rewrite lookup_insert_eq.
  split_and!; try done; intros q; [intros Hq; by rewrite lookup_insert_ne|..];
    (destruct (decide (p = q)) as [<-|]; [by rewrite lookup_insert_eq, Hn|by rewrite lookup_insert_ne]).
Qed.

Lemma ring_store_prev_spec l p v :
  is_Some (ring l !! p) -> exists l', store_prev l p v = Ok l' /\ _root l' = _root l /\
    _count l' = _count l /\ prv l' p = Some v /\ (forall q, q <> p -> prv l' q = prv l q) /\
    (forall q, nxt l' q = nxt l q) /\ (forall q, dat l' q = dat l q).
Proof.
  intros [n Hn]. unfold store_prev, node. rewrite Hn. eexists. split; [done|].
  unfold nxt, prv, dat. cbn. rewrite lookup_insert_eq.
  split_and!; try done; intros q; [intros Hq; by rewrite lookup_insert_ne|..];
    (destruct (decide (p = q)) as [<-|]; [by rewrite lookup_insert_eq, Hn|by rewrite lookup_insert_ne]).
Qed.

Lemma dat_cell l p : dat l p <> None <-> is_Some (ring l !! p).
Proof. unfold dat. destruct (ring l !! p); simpl; rewrite is_Some_alt; naive_solver. Qed.

Lemma dat_cell_same l l' p :
  (forall q, dat l' q = dat l q) -> is_Some (ring l !! p) -> is_Some (ring l' !! p).
Proof. intros H. rewrite <- !dat_cell, H. done. Qed.

Lemma node_read l p : is_Some (ring l !! p) ->
  exists n, node l p = Ok n /\ nxt l p = Some (_next n) /\ prv l p = Some (_prev n) /\
    dat l p = Some (_data n).
Proof. intros [n Hn]. exists n. unfold node, nxt, prv, dat. by rewrite Hn. Qed.

(** ** AddAfter *)
Lemma AddAfter_spec l x t h :
  is_Some (ring l !! x) -> x <> t -> x <> h ->
  nxt l t = Some (Some h) -> prv l h = Some (Some t) ->
  exists l', AddAfter l x t = Ok l' /\ _root l' = _root l /\ _count l' = i32 (_count l + 1) /\
    nxt l' x = Some (Some h) /\ prv l' x = Some (Some t) /\
    nxt l' t = Some (Some x) /\ prv l' h = Some (Some x) /\
    (forall q, q <> x -> q <> t -> nxt l' q = nxt l q) /\
    (forall q, q <> x -> q <> h -> prv l' q = prv l q) /\
    (forall q, dat l' q = dat l q).
Proof.
  intros Hx Hxt Hxh Hn Hp. unfold AddAfter.
  assert (is_Some (ring l !! t)) as Ht by (unfold nxt in Hn; destruct (ring l !! t); [eauto|done]).
  assert (is_Some (ring l !! h)) as Hh by (unfold prv in Hp; destruct (ring l !! h); [eauto|done]).
  destruct (node_read l t Ht) as (nt & Et & Ent & _). step_to Et.
  rewrite Hn in Ent. injection Ent as Ent. rewrite <- Ent.
  destruct (ring_store_next_spec l x (Some h) Hx) as (l1 & E1 & R1 & C1 & N1 & N1' & P1 & D1). step_to E1.
  destruct (ring_store_prev_spec l1 x (Some t) (dat_cell_same _ _ _ D1 Hx))
    as (l2 & E2 & R2 & C2 & P2 & P2' & N2 & D2). step_to E2.
  assert (forall q, dat l2 q = dat l q) as D02 by (intros q; by rewrite D2).
  destruct (node_read l2 t (dat_cell_same _ _ _ D02 Ht)) as (nt2 & Et2 & Ent2 & _). step_to Et2.
  rewrite N2, N1' in Ent2 by done. rewrite Hn in Ent2. injection Ent2 as <-.
  cbn [deref mbind outcome_bind].
  destruct (ring_store_prev_spec l2 h (Some x) (dat_cell_same _ _ _ D02 Hh))
    as (l3 & E3 & R3 & C3 & P3 & P3' & N3 & D3). step_to E3.
  assert (forall q, dat l3 q = dat l q) as D03 by (intros q; by rewrite D3).
  destruct (ring_store_next_spec l3 t (Some x) (dat_cell_same _ _ _ D03 Ht))
    as (l4 & E4 & R4 & C4 & N4 & N4' & P4 & D4). step_to E4.
  eexists. split; [done|]. cbn.
  split; [congruence|]. split; [congruence|].
  change (nxt (set_count l4 _)) with (nxt l4). change (prv (set_count l4 _)) with (prv l4).
  change (dat (set_count l4 _)) with (dat l4). split_and!.
  - by rewrite N4', N3, N2, N1 by done.
  - by rewrite P4, P3', P2 by done.
  - done.
  - by rewrite P4, P3.
  - intros q Hq1 Hq2. by rewrite N4', N3, N2, N1' by done.
  - intros q Hq1 Hq2. by rewrite P4, P3', P2', P1 by done.
  - intros q. by rewrite D4.
Qed.

(** Linking a fresh node in at the end of the ring. *)
Lemma make_node_spec l x :
  let '(p, l') := make_node l x in
  ring l !! p = None /\ dat l' p = Some x /\ _root l' = _root l /\ _count l' = _count l /\
  (forall q, q <> p -> nxt l' q = nxt l q /\ prv l' q = prv l q /\ dat l' q = dat l q).
Proof.
  unfold make_node. set (p := fresh (dom (ring l))).
  assert (p ∉ dom (ring l)) as Hp by apply is_fresh. apply not_elem_of_dom in Hp.
  split; [done|]. unfold dat, nxt, prv. cbn. rewrite lookup_insert_eq.
  split_and!; try done. intros q Hq. by rewrite lookup_insert_ne.
Qed.

Lemma Forall2_data_ext l l' ps xs :
  (forall q, q ∈ ps -> dat l' q = dat l q) ->
  Forall2 (fun p x => dat l p = Some x) ps xs -> Forall2 (fun p x => dat l' p = Some x) ps xs.
Proof.
  intros H HF. induction HF as [|p x ps xs Hp HF IH]; constructor.
  - rewrite H; [done|set_solver].
  - apply IH. set_solver.
Qed.

Lemma ring_insert l l' p ps x t :
  cycle l (p :: ps) -> NoDup (p :: ps) -> x ∉ p :: ps -> list.last (p :: ps) = Some t ->
  nxt l' x = Some (Some p) -> prv l' x = Some (Some t) ->
  nxt l' t = Some (Some x) -> prv l' p = Some (Some x) ->
  (forall q, q <> x -> q <> t -> nxt l' q = nxt l q) ->
  (forall q, q <> x -> q <> p -> prv l' q = prv l q) -> cycle l' (p :: ps ++ [x]).
Proof.
  intros Hc Hnd Hx Ht N1 P1 N2 P2 Hn Hp.
  destruct ps as [|t' ps _] using rev_ind.
  - injection Ht as <-. simpl. done.
  - rewrite app_comm_cons, last_snoc in Ht. injection Ht as ->.
    simpl in *. rewrite <- app_assoc. apply dpath_app in Hc as [Hc1 Hc2].
    apply dpath_app. split; [|simpl; done].
    apply NoDup_cons in Hnd as [Hpn Hnd]. apply NoDup_app in Hnd as (Hnd & Hd & _).
    eapply dpath_frame; [| |done].
    + intros y Hy. apply Hn; [intros ->; set_solver|]. intros ->.
      apply elem_of_cons in Hy as [->|Hy]; [set_solver|]. apply (Hd t Hy). set_solver.
    + intros y Hy. apply Hp; [intros ->; set_solver|]. intros ->. set_solver.
Qed.

Lemma AddToTail_spec l xs x :
  holds l xs -> Z.of_nat (length xs) < 2 ^ 31 - 1 ->
  exists p l', AddToTail l x = Ok (p, l') /\ holds l' (xs ++ [x]).
Proof.
  intros (ps & [HD Hnd Hc Hr Hcnt Hsm]) Hlen. unfold AddToTail.
  pose proof (make_node_spec l x) as Hm. destruct (make_node l x) as [p l1].
  destruct Hm as (Hp & Hdx & Hr1 & Hc1 & Hold).
  pose proof (Forall2_length _ _ _ HD) as Hl.
  assert (p ∉ ps) as Hpps.
  { intros Hin. apply list_elem_of_lookup in Hin as [i Hi].
    destruct (Forall2_lookup_l _ _ _ _ _ HD Hi) as (y & _ & Hy).
    unfold dat in Hy. by rewrite Hp in Hy. }
  assert (is_Some (ring l1 !! p)) as Hcell by (apply dat_cell; congruence).
  rewrite Hr1, Hr. destruct ps as [|h ps]; cbn [head].
  - unfold link_alone.
    destruct (ring_store_next_spec l1 p (Some p) Hcell) as (l2 & E2 & R2 & C2 & N2 & _ & _ & D2).
    destruct (ring_store_prev_spec l2 p (Some p) (dat_cell_same _ _ _ D2 Hcell))
      as (l3 & E3 & R3 & C3 & P3 & _ & N3 & D3).
    rewrite E2. cbn [mbind outcome_bind]. rewrite E3. cbn [mbind outcome_bind].
    eexists _, _. split; [done|]. exists [p]. destruct xs; [|done].
    split; cbn -[Z.pow].
    + constructor; [|constructor]. change (dat _ p) with (dat l3 p). by rewrite D3, D2.
    + apply NoDup_singleton.
    + change (nxt l3 p = Some (Some p) /\ prv l3 p = Some (Some p)). by rewrite N3.
    + done.
    + rewrite C3, C2, Hc1, Hcnt. done.
    + lia.
  - assert (exists t, list.last (h :: ps) = Some t) as [t Ht].
    { destruct (list.last (h :: ps)) eqn:E; [eauto|]. by apply last_None in E. }
    destruct (cycle_last_first _ _ _ _ Hc Ht) as [Hn Hpv].
    assert (t ∈ h :: ps) as Htin by (by apply last_Some_elem_of).
    assert (p <> h /\ p <> t) as [Hph Hpt] by set_solver.
    assert (is_Some (ring l1 !! h)) as Hhc.
    { apply dat_cell. rewrite (proj2 (proj2 (Hold h ltac:(congruence)))). apply dat_cell.
      eapply dpath_cells; [exact Hc|left]. }
    destruct (node_read l1 h Hhc) as (nh & Eh & _ & Eph & _). step_to Eh.
    rewrite (proj1 (proj2 (Hold h ltac:(congruence)))), Hpv in Eph. injection Eph as <-.
    cbn [deref mbind outcome_bind].
    destruct (AddAfter_spec l1 p t h Hcell) as
      (l2 & E2 & R2 & C2 & N1 & P1 & N2 & P2 & Nf & Pf & D2); try congruence.
    { by rewrite (proj1 (Hold t ltac:(congruence))). }
    { by rewrite (proj1 (proj2 (Hold h ltac:(congruence)))). }
    rewrite E2. cbn [mbind outcome_bind]. eexists _, _. split; [done|].
    exists (h :: ps ++ [p]). split.
    + rewrite app_comm_cons. apply Forall2_app.
      * eapply Forall2_data_ext; [|exact HD]. intros q Hq. rewrite D2.
        apply Hold. intros ->. done.
      * constructor; [|constructor]. by rewrite D2.
    + rewrite app_comm_cons. apply NoDup_app. split; [done|]. split; [|apply NoDup_singleton].
      intros q Hq ->%list_elem_of_singleton. done.
    + apply (ring_insert l _ h ps p t); try done.
      * intros q Hq1 Hq2. rewrite Nf by done. by apply Hold.
      * intros q Hq1 Hq2. rewrite Pf by done. by apply Hold.
    + rewrite R2, Hr1, Hr. done.
    + rewrite C2, Hc1, Hcnt. cbn [length]. rewrite length_app. cbn [length].
      rewrite swrap_small; simpl in *; lia.
    + cbn [length]. rewrite length_app. cbn [length]. simpl in *. lia.
Qed.

(** ** RemoveNode *)

(** The stores of [RemoveNode] around a node [n] of a ring with others. *)
Lemma unlink_ring l l' n b o :
  cycle l (n :: b :: o) -> NoDup (n :: b :: o) ->
  forall a, list.last (b :: o) = Some a ->
  prv l' b = Some (Some a) -> nxt l' a = Some (Some b) ->
  (forall q, q <> a -> nxt l' q = nxt l q) -> (forall q, q <> b -> prv l' q = prv l q) ->
  cycle l' (b :: o).
Proof.
  intros (_ & _ & Hc) Hnd a Ha P N Hn Hp.
  destruct o as [|a' o _] using rev_ind.
  - injection Ha as <-. simpl. done.
  - rewrite app_comm_cons, last_snoc in Ha. injection Ha as ->.
    simpl in Hc |- *. apply dpath_app in Hc as [Hc _]. apply dpath_app. split; [|simpl; done].
    apply NoDup_cons in Hnd as [_ Hnd]. apply NoDup_cons in Hnd as [Hb Hnd].
    apply NoDup_app in Hnd as (Hnd & Hd & _).
    eapply dpath_frame; [| |done].
    + intros y Hy. apply Hn. intros ->. apply elem_of_cons in Hy as [->|Hy]; [set_solver|].
      apply (Hd a Hy). set_solver.
    + intros y Hy. apply Hp. intros ->. set_solver.
Qed.

Lemma cycle_neighbours l n o :
  cycle l (n :: o) -> exists a b, nxt l n = Some (Some b) /\ prv l n = Some (Some a) /\
    (o = [] /\ a = n /\ b = n \/ head o = Some b /\ list.last o = Some a).
Proof.
  intros Hc. destruct (list.last (n :: o)) as [t|] eqn:Ht; [|by apply last_None in Ht].
  destruct (cycle_last_first _ _ _ _ Hc Ht) as [Hn Hp]. exists t.
  destruct o as [|b o].
  - injection Ht as <-. exists n. split; [done|]. split; [done|]. by left.
  - exists b. destruct Hc as (H1 & _). split; [done|]. split; [done|]. right.
    split; [done|]. by rewrite last_cons_cons in Ht.
Qed.

Lemma RemoveNode_spec l ps1 n ps2 xs1 x xs2 :
  nodes_are l (ps1 ++ n :: ps2) (xs1 ++ x :: xs2) -> length ps1 = length xs1 ->
  exists l', RemoveNode l n = Ok l' /\ nodes_are l' (ps1 ++ ps2) (xs1 ++ xs2) /\
    (forall q, dat l' q = dat l q).
Proof.
  intros [HD Hnd Hc Hr Hcnt Hsm] Hlen.
  apply Forall2_app_inv in HD as [HD1 HD2]; [|done].
  apply Forall2_cons in HD2 as [Hdn HD2].
  pose proof (cycle_app_comm _ _ _ Hc) as Hc'. cbn [app] in Hc'.
  assert (NoDup (n :: ps2 ++ ps1)) as Hnd'.
  { change (NoDup ((n :: ps2) ++ ps1)). by rewrite Permutation_app_comm. }
  assert (is_Some (ring l !! n)) as Hcell by (apply dat_cell; congruence).
  destruct (cycle_neighbours _ _ _ Hc') as (a & b & Hnn & Hpn & Hab).
  unfold RemoveNode.
  destruct (node_read l n Hcell) as (nd & End & Enx & Epv & _). step_to End.
  rewrite Hnn in Enx. injection Enx as <-. rewrite Hpn in Epv. injection Epv as <-.
  cbn [deref mbind outcome_bind].
  assert (is_Some (ring l !! b) /\ is_Some (ring l !! a)) as [Hbc Hac].
  { destruct Hab as [(_ & -> & ->)|[Hh Hl]]; [done|].
    split; (eapply dpath_cells; [exact Hc'|]); right; [by apply head_Some_elem_of|by apply last_Some_elem_of]. }
  destruct (ring_store_prev_spec l b (Some a) Hbc) as (l1 & E1 & R1 & C1 & P1 & P1' & N1 & D1).
  step_to E1.
  destruct (node_read l1 n (dat_cell_same _ _ _ D1 Hcell)) as (nd1 & End1 & Enx1 & Epv1 & _).
  step_to End1.
  assert (prv l1 n = Some (Some a)) as Hpn1.
  { destruct Hab as [(_ & -> & ->)|[Hh _]]; [done|]. rewrite P1'; [done|].
    intros <-. apply NoDup_cons in Hnd' as [Hx _]. apply Hx. by apply head_Some_elem_of. }
  rewrite Hpn1 in Epv1. injection Epv1 as <-. rewrite N1, Hnn in Enx1. injection Enx1 as <-.
  cbn [deref mbind outcome_bind].
  destruct (ring_store_next_spec l1 a (Some b) (dat_cell_same _ _ _ D1 Hac))
    as (l2 & E2 & R2 & C2 & N2 & N2' & P2 & D2). step_to E2.
  assert (forall q, dat l2 q = dat l q) as D02 by (intros q; by rewrite D2).
  assert (nxt l2 n = Some (Some b)) as Hnn2.
  { destruct (decide (n = a)) as [<-|Hna]; [done|]. by rewrite N2', N1. }
  destruct (node_read l2 n (dat_cell_same _ _ _ D02 Hcell)) as (nd2 & End2 & Enx2 & _).
  rewrite Hnn2 in Enx2. injection Enx2 as Enx2.
  rewrite R2, R1, Hr.
  assert ((if bool_decide (Some n = head (ps1 ++ n :: ps2)) then
             r ← deref (head (ps1 ++ n :: ps2)); rn ← node l2 r;
             Ok (if _count (set_root l2 (_next rn)) =? 1 then set_root (set_root l2 (_next rn)) None
                 else set_root l2 (_next rn))
           else Ok l2) = Ok (set_root l2 (head (ps1 ++ ps2)))) as Eroot.
  { destruct ps1 as [|p1 ps1].
    - cbn [app head]. rewrite bool_decide_true by done. cbn [deref mbind outcome_bind]. step_to End2.
      change (_count (set_root l2 (_next nd2))) with (_count l2). rewrite C2, C1, Hcnt, <- Enx2.
      cbn [app length]. rewrite app_nil_r in Hab.
      destruct ps2 as [|p2 ps2]; [done|]. cbn [length head].
      rewrite (proj2 (Z.eqb_neq _ _)) by lia.
      destruct Hab as [(Hx & _)|[[= ->] _]]; [by destruct ps2|done].
    - cbn [app head]. rewrite bool_decide_false; [by destruct l2; cbn in *; rewrite R2, R1, Hr|].
      intros [= ->]. apply NoDup_cons in Hnd' as [Hx _]. apply Hx. set_solver. }
  rewrite Eroot. cbn [mbind outcome_bind]. eexists. split; [done|]. split; [|done].
  split.
  - apply Forall2_app; (eapply Forall2_data_ext; [|done]); intros q _; apply D02.
  - apply NoDup_app in Hnd as (H1 & Hd & H2). apply NoDup_cons in H2 as [_ H2].
    apply NoDup_app. split; [done|]. split; [|done]. intros q Hq Hq2. apply (Hd q Hq). by right.
  - apply (cycle_ext l2); [done|]. apply cycle_app_comm.
    destruct (ps2 ++ ps1) as [|b' o] eqn:Eo; [done|].
    destruct Hab as [[? _]|[Hh Hl]]; [done|]. injection Hh as ->.
    eapply unlink_ring; [exact Hc'|done|exact Hl|by rewrite P2|done| |].
    + intros q Hq. by rewrite N2', N1.
    + intros q Hq. by rewrite P2, P1'.
  - done.
  - cbn [_count set_count]. change (_count (set_root l2 _)) with (_count l2).
    rewrite C2, C1, Hcnt, !length_app. cbn [length]. rewrite length_app in Hsm. cbn [length] in Hsm.
    rewrite swrap_small; lia.
  - rewrite length_app in *. cbn [length] in *. lia.
Qed.

(** ** Remove *)
Lemma collect_spec l x q ps xs fuel p :
  dpath l p ps q -> Forall2 (fun p x => dat l p = Some x) (p :: ps) xs -> q ∉ ps ->
  (length ps < fuel)%nat ->
  collect_loop fuel l x p (Some q) =
  Ok (fst <$> filter (fun px => snd px = x) (zip (p :: ps) xs)).
Proof.
  revert p xs fuel. induction ps as [|p' ps IH]; intros p xs fuel Hd HD Hq Hf;
    (destruct fuel as [|fuel]; [simpl in Hf; lia|]);
    apply Forall2_cons_inv_l in HD as (y & ys & Hy & HD & ->); cbn [collect_loop];
    (destruct (node_read l p) as (n & En & Enx & _ & Edt); [apply dat_cell; congruence|]);
    step_to En; rewrite Hy in Edt; injection Edt as ->.
  - apply Forall2_nil_inv_l in HD as ->. destruct Hd as [Hn _]. rewrite Hn in Enx.
    injection Enx as <-. rewrite bool_decide_true by done. cbn.
    destruct (Z.eqb_spec (_data n) x); case_decide; done.
  - destruct Hd as (Hn & _ & Hd). rewrite Hn in Enx. injection Enx as <-.
    rewrite bool_decide_false by (intros [= ->]; apply Hq; left). cbn [deref mbind outcome_bind].
    rewrite (IH p' ys fuel Hd HD) by (set_solver || (simpl in Hf; lia)).
    cbn [mbind outcome_bind]. simpl zip. rewrite (filter_cons _ (p, _data n)). cbn [snd].
    destruct (Z.eqb_spec (_data n) x); case_decide; done.
Qed.

Lemma remove_nodes_spec x ps xs : forall l ps1 xs1,
  nodes_are l (ps1 ++ ps) (xs1 ++ xs) -> length ps1 = length xs1 -> x ∉ xs1 ->
  exists l', remove_nodes l (fst <$> filter (fun px => snd px = x) (zip ps xs)) = Ok l' /\
    holds l' (filter (fun y => y <> x) (xs1 ++ xs)).
Proof.
  revert xs. induction ps as [|p ps IH]; intros xs l ps1 xs1 HN Hlen Hx.
  - pose proof (na_data _ _ _ HN) as HD. apply Forall2_app_inv in HD as [_ HD]; [|done].
    apply Forall2_nil_inv_l in HD as ->. rewrite !app_nil_r in *. exists l. split; [done|].
    exists ps1. replace (filter (fun y => y <> x) xs1) with xs1; [done|].
    symmetry. apply list_filter_all. intros y Hy ->. done.
  - pose proof (na_data _ _ _ HN) as HD. apply Forall2_app_inv in HD as [_ HD]; [|done].
    apply Forall2_cons_inv_l in HD as (y & ys & Hy & HD & ->).
    simpl zip. rewrite (filter_cons _ (p, y)). cbn [snd]. case_decide as Heq.
    + subst y. destruct (RemoveNode_spec l ps1 p ps xs1 x ys HN Hlen) as (l1 & E1 & HN1 & _).
      cbn. step_to E1. destruct (IH ys l1 ps1 xs1 HN1 Hlen Hx) as (l' & E' & HH').
      exists l'. split; [done|]. rewrite filter_app, filter_cons, decide_False by tauto.
      by rewrite <- filter_app.
    + replace (xs1 ++ y :: ys) with ((xs1 ++ [y]) ++ ys) in * by (by rewrite <- app_assoc).
      replace (ps1 ++ p :: ps) with ((ps1 ++ [p]) ++ ps) in * by (by rewrite <- app_assoc).
      apply (IH ys l (ps1 ++ [p]) (xs1 ++ [y]) HN); [rewrite !length_app; cbn; lia|set_solver].
Qed.

Lemma nodes_fuel l ps xs : nodes_are l ps xs -> (length ps < fuel_of l)%nat.
Proof.
  intros [HD Hnd _ _ _ _]. unfold fuel_of. apply Nat.lt_succ_r.
  rewrite <- size_dom, <- (size_list_to_set (C := gset Z) ps Hnd).
  apply subseteq_size. intros p Hp%elem_of_list_to_set.
  apply list_elem_of_lookup in Hp as [i Hi].
  destruct (Forall2_lookup_l _ _ _ _ _ HD Hi) as (y & _ & Hy).
  apply elem_of_dom, dat_cell. congruence.
Qed.

Lemma Remove_spec l xs x :
  holds l xs -> exists l', Remove l x = Ok l' /\ holds l' (filter (fun y => y <> x) xs).
Proof.
  intros (ps & HN). pose proof HN as [HD Hnd Hc Hr Hcnt Hsm]. unfold Remove. rewrite Hr.
  destruct ps as [|p ps]; cbn [head].
  { apply Forall2_nil_inv_l in HD as ->. exists l. split; [done|]. by exists []. }
  rewrite (collect_spec l x p ps xs); [|done|done|by apply NoDup_cons in Hnd as [? _]|].
  - apply (remove_nodes_spec x (p :: ps) xs l [] []); [done|done|set_solver].
  - pose proof (nodes_fuel _ _ _ HN). simpl in *. lia.
Qed.

(** ** The queue operations *)
Lemma Skew_spec l x xs :
  holds l (x :: xs) -> exists l', Skew l = Ok (x, l') /\ holds l' (xs ++ [x]).
Proof.
  intros (ps & [HD Hnd Hc Hr Hcnt Hsm]). apply Forall2_cons_inv_r in HD as (p & ps' & Hp & HD & ->).
  unfold Skew. rewrite Hr. cbn [head deref mbind outcome_bind].
  destruct (node_read l p) as (n & En & Enx & _ & Edt); [apply dat_cell; congruence|].
  step_to En. rewrite Hp in Edt. injection Edt as ->. eexists. split; [done|].
  exists (ps' ++ [p]). split.
  - apply Forall2_app; [done|]. constructor; [done|constructor].
  - by rewrite Permutation_app_comm.
  - apply (cycle_ext l); [done|]. by apply (cycle_rotate l).
  - cbn. destruct (cycle_neighbours _ _ _ Hc) as (a & b & Hn & _ & Hab).
    rewrite Hn in Enx. injection Enx as <-.
    destruct ps' as [|b' ps']; cbn; destruct Hab as [(? & ? & ->)|[Hh _]]; try done.
  - cbn. rewrite Hcnt, length_app. cbn. lia.
  - rewrite length_app. cbn in *. lia.
Qed.

Lemma Dequeue_spec l x xs :
  holds l (x :: xs) -> exists l', Dequeue l = Ok (x, l') /\ holds l' xs.
Proof.
  intros (ps & HN). pose proof HN as [HD Hnd Hc Hr Hcnt Hsm].
  apply Forall2_cons_inv_r in HD as (p & ps' & Hp & HD & ->).
  destruct (RemoveNode_spec l [] p ps' [] x xs HN eq_refl) as (l' & E & HN' & _).
  unfold Dequeue. rewrite Hr. cbn [head deref mbind outcome_bind].
  destruct (node_read l p) as (n & En & Enx & _ & Edt); [apply dat_cell; congruence|].
  step_to En. rewrite Hp in Edt. injection Edt as ->. step_to E. exists l'. split; [done|]. by exists ps'.
Qed.

Lemma Get_0_spec l x xs : holds l (x :: xs) -> Get l 0 = Ok x.
Proof.
  intros (ps & [HD Hnd Hc Hr Hcnt Hsm]). apply Forall2_cons_inv_r in HD as (p & ps' & Hp & HD & ->).
  unfold Get. rewrite Hcnt, Hr. cbn [length head].
  rewrite (proj2 (Z.ltb_lt 0 _)) by lia. cbn [Z.leb Z.compare andb deref mbind outcome_bind].
  change (for_each _ _ _ _) with (Ok p). cbn [mbind outcome_bind].
  destruct (node_read l p) as (n & En & Enx & _ & Edt); [apply dat_cell; congruence|].
  rewrite En. cbn [mbind outcome_bind]. rewrite Hp in Edt. by injection Edt as ->.
Qed.

Lemma Count_spec l xs : holds l xs -> Count l = Z.of_nat (length xs).
Proof. intros (ps & [HD _ _ _ Hc _]). unfold Count. rewrite Hc. by rewrite (Forall2_length _ _ _ HD). Qed.

Lemma List_new_holds : holds List_new [].
Proof. exists []. split; try done. apply NoDup_nil_2. Qed.

(** [Find] looks at the root only. *)
Lemma Contains_root_only l x y xs :
  holds l (y :: xs) -> Contains l x = Ok (bool_decide (y = x)).
Proof.
  intros (ps & [HD Hnd Hc Hr Hcnt Hsm]). apply Forall2_cons_inv_r in HD as (p & ps' & Hp & HD & ->).
  unfold Contains, Find. rewrite Hr. cbn [head].
  destruct (node_read l p) as (n & En & Enx & _ & Edt); [apply dat_cell; congruence|].
  rewrite En. unfold fuel_of. cbn [find_loop mbind outcome_bind]. rewrite En.
  cbn [mbind outcome_bind]. rewrite Hp in Edt. injection Edt as ->.
  rewrite (bool_decide_true (_next n = _next n)) by done.
  destruct (Z.eqb_spec (_data n) x) as [->|Hne]; cbn [mbind outcome_bind]; f_equal.
  - rewrite !bool_decide_true; [done..|eauto].
  - rewrite !bool_decide_false; [done..|]. by intros [? [=]].
Qed.

(** The iterator visits the elements in order and stops at the root. *)
Lemma iter_all_spec l q : forall ps p xs fuel,
  dpath l p ps q -> Forall2 (fun p x => dat l p = Some x) (p :: ps) xs -> q ∉ ps ->
  (length ps < fuel)%nat ->
  exists x ys, xs = x :: ys /\ dat l p = Some x /\
  iter_all fuel l {| _cur := Some p; _iroot := Some q; _startState := false |} = Ok ys.
Proof.
  induction ps as [|p' ps IH]; intros p xs fuel Hd HD Hq Hf;
    (destruct fuel as [|fuel]; [simpl in Hf; lia|]);
    apply Forall2_cons_inv_l in HD as (y & ys & Hy & HD & ->); exists y, ys;
    (split; [done|]); (split; [done|]); cbn [iter_all]; unfold iter_MoveNext at 1; cbn [_cur _startState _iroot];
    (destruct (node_read l p) as (n & En & Enx & _ & Edt); [apply dat_cell; congruence|]);
    rewrite En; cbn [mbind outcome_bind].
  - apply Forall2_nil_inv_l in HD as ->. destruct Hd as [Hn _]. rewrite Hn in Enx.
    injection Enx as <-. by rewrite bool_decide_false by tauto.
  - destruct Hd as (Hn & _ & Hd). rewrite Hn in Enx. injection Enx as <-.
    rewrite bool_decide_true by (intros [= ->]; apply Hq; left).
    destruct (IH p' ys fuel Hd HD) as (x' & zs & -> & Hx' & E); [set_solver|simpl in Hf; lia|].
    unfold iter_Current. cbn [_cur deref mbind outcome_bind].
    destruct (node_read l p') as (n' & En' & _ & _ & Edt'); [apply dat_cell; congruence|].
    rewrite En'. cbn [mbind outcome_bind]. rewrite E. cbn [mbind outcome_bind].
    rewrite Hx' in Edt'. by injection Edt' as ->.
Qed.

Lemma commons_elements_spec l xs : holds l xs -> elements l = Ok xs.
Proof.
  intros (ps & HN). pose proof HN as [HD Hnd Hc Hr Hcnt Hsm].
  pose proof (nodes_fuel _ _ _ HN) as Hf.
  unfold elements, GetEnumerator. rewrite Hr. destruct ps as [|p ps]; cbn [head].
  { by apply Forall2_nil_inv_l in HD as ->. }
  apply NoDup_cons in Hnd as [Hp _].
  destruct (iter_all_spec l p ps p xs (fuel_of l) Hc HD Hp) as (x & ys & -> & Hx & E);
    [cbn in Hf; lia|].
  cbn [iter_all]. unfold iter_MoveNext at 1, iter_Current at 1. cbn [_cur _startState _iroot mbind outcome_bind deref].
  destruct (node_read l p) as (n & En & _ & _ & Edt); [apply dat_cell; congruence|].
  rewrite En. cbn [mbind outcome_bind]. rewrite E. cbn [mbind outcome_bind].
  rewrite Hx in Edt. by injection Edt as ->.
Qed.

(** The schedulers' list is a ring that implements a queue.  On a list
    that holds [xs], AddToTail and Enqueue give [xs ++ [x]], Remove takes out
    every element equal to its argument, Dequeue takes the head, Get(0) is the
    head, Skew returns the head and rotates the list by one, Count is the
    length and iterating visits [xs] in order. *)
Lemma commons_list_is_queue l xs x :
  holds l xs -> Z.of_nat (length xs) < 2 ^ 31 - 1 ->
  (exists p l', AddToTail l x = Ok (p, l') /\ Enqueue l x = Ok l' /\ holds l' (xs ++ [x])) /\
  (exists l', Remove l x = Ok l' /\ holds l' (filter (fun y => y <> x) xs)) /\
  match xs with
  | [] => _root l = None
  | y :: ys => Get l 0 = Ok y /\
      (exists l', Dequeue l = Ok (y, l') /\ holds l' ys) /\
      (exists l', Skew l = Ok (y, l') /\ holds l' (ys ++ [y]))
  end /\
  Count l = Z.of_nat (length xs) /\ elements l = Ok xs.
Proof.
  intros Hl Hlen. split_and!.
  - destruct (AddToTail_spec l xs x Hl Hlen) as (p & l' & E & Hl').
    exists p, l'. unfold Enqueue. by rewrite E.
  - by apply Remove_spec.
  - destruct xs as [|y ys].
    + destruct Hl as (ps & [HD _ _ Hr _ _]). apply Forall2_nil_inv_r in HD as ->. done.
    + split; [by eapply Get_0_spec|]. split; [by apply Dequeue_spec|by apply Skew_spec].
  - by apply Count_spec.
  - by apply commons_elements_spec.
Qed.

(** A list with the given elements. *)
Lemma list_of xs : Z.of_nat (length xs) < 2 ^ 31 - 1 -> exists l, holds l xs.
Proof.
  induction xs as [|x xs IH] using rev_ind; intros Hlen; [by exists List_new; apply List_new_holds|].
  rewrite length_app in Hlen. cbn [length] in Hlen.
  destruct IH as [l Hl]; [lia|]. destruct (AddToTail_spec l xs x Hl) as (p & l' & _ & Hl'); [lia|].
  by exists l'.
Qed.

Lemma commons_list_is_queue_witness : exists l l', Skew l = Ok (3, l') /\ holds l' [5; 3].
Proof.
  destruct (list_of [3; 5] ltac:(done)) as [l Hl].
  destruct (commons_list_is_queue l [3; 5] 0 Hl ltac:(done)) as (_ & _ & (_ & _ & (l' & E & Hl')) & _).
  by exists l, l'.
Defined.

(** Contains compares only the element at the root: Find stops at the
    node after the root, so any other element of the list is not found. *)
Lemma Contains_misses l x y xs :
  holds l (y :: xs) -> x ∈ xs -> x <> y -> Contains l x = Ok false.
Proof. intros Hl _ Hne. rewrite (Contains_root_only l x y xs Hl). by rewrite bool_decide_false. Qed.

Lemma Contains_misses_witness : exists l, holds l [3; 5] /\ Contains l 5 = Ok false.
Proof.
  destruct (list_of [3; 5] ltac:(done)) as [l Hl]. exists l. split; [done|].
  apply (Contains_misses l 5 3 [5] Hl); [left|done].
Defined.
