(* ===== verification/Sched.v ===== *)
(** * infos/kernel/sched.cpp, thread.cpp and the scheduling algorithms

    The scheduler keeps a run queue through the interface
    [SchedulingAlgorithm]; the three implementations are the FIFO and
    round-robin schedulers of the coursework (on Commons::Collections::List)
    and the kernel's CFS (on infos/util/list.h).  Scheduling entities are
    threads; a pointer to one is its key in [entities].  Changing an entity's
    state triggers its [Event], which wakes the threads in its wake queue, so
    [set_entity_state] and the wake-up loop call each other. *)
From S2P Require Import Prelude InfList CommonsList Time.

(** ** infos/util/lock.h: UniqueIRQLock

    [ie] is the processor's interrupt flag; the lock remembers whether it was
    set, runs the guarded code with interrupts off and restores it. *)
Definition IRQLock_lock (ie : bool) : outcome (bool * bool) :=
  let were_interrupts_enabled := ie in
  let ie := if were_interrupts_enabled then false else ie in
  _ ← assert_ (negb ie);
  Ok (were_interrupts_enabled, ie).

Definition IRQLock_unlock (were_interrupts_enabled ie : bool) : outcome bool :=
  if were_interrupts_enabled then let ie := true in _ ← assert_ ie; Ok ie else Ok ie.

Definition UniqueIRQLock {A} (ie : bool) (body : outcome A) : outcome (A * bool) :=
  '(were, ie) ← IRQLock_lock ie;
  a ← body;
  ie ← IRQLock_unlock were ie;
  Ok (a, ie).

(** ** The algorithm interface

    [Q] is the run queue; [cpu_runtime] gives the CPU time of an entity. *)
Class SchedulingAlgorithm (Q : Type) := {
  add_to_runqueue : Q -> Z -> bool -> outcome (Q * bool);
  remove_from_runqueue : Q -> Z -> bool -> outcome (Q * bool);
  pick_next_entity : Q -> (Z -> Z) -> outcome (option Z * Q)
}.

(** coursework/sched-fifo.cpp *)
Module FIFO.
Definition add (queue : CommonsList.List) (entity : Z) (ie : bool) : outcome (CommonsList.List * bool) :=
  UniqueIRQLock ie ('(_, q) ← CommonsList.AddToTail queue entity; Ok q).
Definition remove (queue : CommonsList.List) (entity : Z) (ie : bool) : outcome (CommonsList.List * bool) :=
  UniqueIRQLock ie (CommonsList.Remove queue entity).
Definition pick (queue : CommonsList.List) (cpu_runtime : Z -> Z)
  : outcome (option Z * CommonsList.List) :=
  if CommonsList.Count queue =? 0 then Ok (None, queue)
  else e ← CommonsList.Get queue 0; Ok (Some e, queue).
End FIFO.

(** coursework/sched-rr.cpp *)
Module RoundRobin.
Definition add (queue : CommonsList.List) (entity : Z) (ie : bool) : outcome (CommonsList.List * bool) :=
  UniqueIRQLock ie (CommonsList.Enqueue queue entity).
Definition remove (queue : CommonsList.List) (entity : Z) (ie : bool) : outcome (CommonsList.List * bool) :=
  UniqueIRQLock ie (CommonsList.Remove queue entity).
Definition pick (queue : CommonsList.List) (cpu_runtime : Z -> Z)
  : outcome (option Z * CommonsList.List) :=
  if CommonsList.Count queue =? 0 then Ok (None, queue)
  else '(e, q) ← CommonsList.Skew queue; Ok (Some e, q).
End RoundRobin.

(** infos/kernel/sched-cfs.cpp *)
Module CFS.
Definition add (runqueue : InfList.List Z) (entity : Z) (ie : bool) : outcome (InfList.List Z * bool) :=
  UniqueIRQLock ie (InfList.enqueue runqueue entity).
Definition remove (runqueue : InfList.List Z) (entity : Z) (ie : bool) : outcome (InfList.List Z * bool) :=
  UniqueIRQLock ie (InfList.remove runqueue entity).

(** The range-for loop over the run queue. *)
Fixpoint min_loop (entities : list Z) (cpu_runtime : Z -> Z) (best : option Z) (min_runtime : Z)
  : option Z :=
  match entities with
  | [] => best
  | e :: entities =>
      if bool_decide (best = None) || (cpu_runtime e <? min_runtime)
      then min_loop entities cpu_runtime (Some e) (cpu_runtime e)
      else min_loop entities cpu_runtime best min_runtime
  end.

Definition pick (runqueue : InfList.List Z) (cpu_runtime : Z -> Z)
  : outcome (option Z * InfList.List Z) :=
  if InfList.count runqueue =? 0 then Ok (None, runqueue)
  else if InfList.count runqueue =? 1 then e ← InfList.first runqueue; Ok (Some e, runqueue)
  else es ← InfList.elements runqueue; Ok (min_loop es cpu_runtime None 0, runqueue).
End CFS.

(** The FIFO and round-robin queues are the same type: each algorithm has a
    wrapper of its own. *)
Record FIFOScheduler := { fifo_queue : CommonsList.List }.
Record RoundRobinScheduler := { rr_queue : CommonsList.List }.
Record CompletelyFairScheduler := { cfs_runqueue : InfList.List Z }.

#[global] Instance fifo_algorithm : SchedulingAlgorithm FIFOScheduler := {
  add_to_runqueue s e ie := '(q, ie) ← FIFO.add (fifo_queue s) e ie; Ok ({| fifo_queue := q |}, ie);
  remove_from_runqueue s e ie :=
    '(q, ie) ← FIFO.remove (fifo_queue s) e ie; Ok ({| fifo_queue := q |}, ie);
  pick_next_entity s rt := '(e, q) ← FIFO.pick (fifo_queue s) rt; Ok (e, {| fifo_queue := q |})
}.

#[global] Instance rr_algorithm : SchedulingAlgorithm RoundRobinScheduler := {
  add_to_runqueue s e ie := '(q, ie) ← RoundRobin.add (rr_queue s) e ie; Ok ({| rr_queue := q |}, ie);
  remove_from_runqueue s e ie :=
    '(q, ie) ← RoundRobin.remove (rr_queue s) e ie; Ok ({| rr_queue := q |}, ie);
  pick_next_entity s rt := '(e, q) ← RoundRobin.pick (rr_queue s) rt; Ok (e, {| rr_queue := q |})
}.

#[global] Instance cfs_algorithm : SchedulingAlgorithm CompletelyFairScheduler := {
  add_to_runqueue s e ie := '(q, ie) ← CFS.add (cfs_runqueue s) e ie; Ok ({| cfs_runqueue := q |}, ie);
  remove_from_runqueue s e ie :=
    '(q, ie) ← CFS.remove (cfs_runqueue s) e ie; Ok ({| cfs_runqueue := q |}, ie);
  pick_next_entity s rt := '(e, q) ← CFS.pick (cfs_runqueue s) rt; Ok (e, {| cfs_runqueue := q |})
}.

(** ** sched-entity.h *)
Inductive SchedulingEntityState := STOPPED | SLEEPING | RUNNABLE | RUNNING.

#[global] Instance SchedulingEntityState_eq_dec : EqDecision SchedulingEntityState.
Proof. solve_decision. Defined.

(** [_state_changed] is an [Event]: a wake queue of waiting threads. *)
Record SchedulingEntity := {
  _cpu_runtime : Duration;
  _exec_start_time : Timepoint;
  _state : SchedulingEntityState;
  _state_changed : InfList.List Z
}.

Definition SchedulingEntity_new : SchedulingEntity := {|
  _cpu_runtime := {| _val := 0 |};
  _exec_start_time := {| since_epoch := {| _val := 0 |} |};
  _state := STOPPED;
  _state_changed := InfList.empty_list
|}.

Definition increment_cpu_runtime (e : SchedulingEntity) (delta : Duration) : SchedulingEntity :=
  {| _cpu_runtime := Dur.add_assign (_cpu_runtime e) delta; _exec_start_time := _exec_start_time e;
     _state := _state e; _state_changed := _state_changed e |}.
Definition update_exec_start_time (e : SchedulingEntity) (t : Timepoint) : SchedulingEntity :=
  {| _cpu_runtime := _cpu_runtime e; _exec_start_time := t;
     _state := _state e; _state_changed := _state_changed e |}.
Definition with_state (e : SchedulingEntity) (s : SchedulingEntityState) : SchedulingEntity :=
  {| _cpu_runtime := _cpu_runtime e; _exec_start_time := _exec_start_time e;
     _state := s; _state_changed := _state_changed e |}.
Definition with_waiters (e : SchedulingEntity) (w : InfList.List Z) : SchedulingEntity :=
  {| _cpu_runtime := _cpu_runtime e; _exec_start_time := _exec_start_time e;
     _state := _state e; _state_changed := w |}.

Section scheduler.
Context {Q : Type} `{SchedulingAlgorithm Q}.

(** ** sched.h

    [current_thread] is the architecture's current thread, [yields] counts
    the yield system calls made, [runtime] is the kernel's clock. *)
Record Scheduler := {
  _active : bool;
  _algorithm : option Q;
  _current : option Z;
  _idle_entity : Z;
  entities : gmap Z SchedulingEntity;
  interrupts : bool;
  current_thread : option Z;
  runtime : Timepoint
}.

Definition set_entities (s : Scheduler) m : Scheduler :=
  {| _active := _active s; _algorithm := _algorithm s; _current := _current s;
     _idle_entity := _idle_entity s; entities := m; interrupts := interrupts s;
     current_thread := current_thread s; runtime := runtime s |}.
Definition set_algorithm (s : Scheduler) (q : Q) (ie : bool) : Scheduler :=
  {| _active := _active s; _algorithm := Some q; _current := _current s;
     _idle_entity := _idle_entity s; entities := entities s; interrupts := ie;
     current_thread := current_thread s; runtime := runtime s |}.
Definition set_current (s : Scheduler) (e : Z) : Scheduler :=
  {| _active := _active s; _algorithm := _algorithm s; _current := Some e;
     _idle_entity := _idle_entity s; entities := entities s; interrupts := interrupts s;
     current_thread := current_thread s; runtime := runtime s |}.
Definition set_current_thread (s : Scheduler) (t : Z) : Scheduler :=
  {| _active := _active s; _algorithm := _algorithm s; _current := _current s;
     _idle_entity := _idle_entity s; entities := entities s; interrupts := interrupts s;
     current_thread := Some t; runtime := runtime s |}.

Definition entity (s : Scheduler) (e : Z) : outcome SchedulingEntity := in_bounds (entities s !! e).
Definition put (s : Scheduler) (e : Z) (x : SchedulingEntity) : Scheduler :=
  set_entities s (<[e := x]> (entities s)).

Definition cpu_runtime_of (s : Scheduler) (e : Z) : Z :=
  match entities s !! e with Some x => Dur.count (_cpu_runtime x) | None => 0 end.

(** [UniqueIRQLock] and the run queue calls of [set_entity_state]. *)
Definition enqueue_entity (s : Scheduler) (e : Z) : outcome Scheduler :=
  q ← deref (_algorithm s);
  '(q, ie) ← add_to_runqueue q e (interrupts s);
  Ok (set_algorithm s q ie).
Definition dequeue_entity (s : Scheduler) (e : Z) : outcome Scheduler :=
  q ← deref (_algorithm s);
  '(q, ie) ← remove_from_runqueue q e (interrupts s);
  Ok (set_algorithm s q ie).

Definition update_runqueue (s : Scheduler) (e : Z) (old new : SchedulingEntityState)
  : outcome Scheduler :=
  match new with
  | RUNNABLE => match old with STOPPED | SLEEPING => enqueue_entity s e | _ => Ok s end
  | STOPPED | SLEEPING => match old with RUNNABLE | RUNNING => dequeue_entity s e | _ => Ok s end
  | RUNNING => _ ← assert_ (bool_decide (old = RUNNABLE)); Ok s
  end.

(** [WakeQueue::wake]: the range-for loop follows the nodes of the wake queue
    of [e] in the current state, waking each thread, then clears it.  [wake]
    is [Thread::wake_up]. *)
Fixpoint wake_loop (fuel : nat) (wake : Scheduler -> Z -> outcome Scheduler)
    (s : Scheduler) (e : Z) (cur : option Z) : outcome Scheduler :=
  match fuel with
  | O => Fault OutOfFuel
  | S fuel =>
      match cur with
      | Some p =>
          x ← entity s e;
          n ← InfList.node (_state_changed x) p;
          s ← wake s (InfList.Data n);
          x ← entity s e;
          n ← InfList.node (_state_changed x) p;
          wake_loop fuel wake s e (InfList.Next n)
      | None => Ok s
      end
  end.

Definition trigger (wake : Scheduler -> Z -> outcome Scheduler) (s : Scheduler) (e : Z)
  : outcome Scheduler :=
  x ← entity s e;
  s ← wake_loop (InfList.fuel_of (_state_changed x)) wake s e (InfList._elems (_state_changed x));
  x ← entity s e;
  w ← InfList.clear (_state_changed x);
  Ok (put s e (with_waiters x w)).

(** The fuel bounds the depth of wake-ups that wake further threads. *)
Fixpoint set_entity_state (fuel : nat) (s : Scheduler) (e : Z) (state : SchedulingEntityState)
  : outcome Scheduler :=
  match fuel with
  | O => Fault OutOfFuel
  | S fuel =>
      _ ← assert_ (bool_decide (is_Some (_algorithm s)));
      x ← entity s e;
      if bool_decide (_state x = state) then Ok s
      else
        s ← update_runqueue s e (_state x) state;
        x ← entity s e;
        let s := put s e (with_state x state) in
        trigger (fun s t => set_entity_state fuel s t RUNNABLE) s e
  end.

Definition depth (s : Scheduler) : nat := S (S (size (entities s))).

(** ** thread.cpp *)
Definition start (s : Scheduler) (t : Z) : outcome Scheduler := set_entity_state (depth s) s t RUNNABLE.
Definition wake_up (s : Scheduler) (t : Z) : outcome Scheduler := set_entity_state (depth s) s t RUNNABLE.

(** [stop] and [sleep] also say whether the thread yields the processor
    because it is the current one. *)
Definition stop (s : Scheduler) (t : Z) : outcome (bool * Scheduler) :=
  s ← set_entity_state (depth s) s t STOPPED;
  Ok (bool_decide (current_thread s = Some t), s).
Definition sleep (s : Scheduler) (t : Z) : outcome (bool * Scheduler) :=
  s ← set_entity_state (depth s) s t SLEEPING;
  Ok (bool_decide (current_thread s = Some t), s).

(** [Event::wait] of entity [e] by thread [t]: [WakeQueue::sleep]. *)
Definition wait (s : Scheduler) (e t : Z) : outcome (bool * Scheduler) :=
  x ← entity s e;
  w ← InfList.append (_state_changed x) t;
  sleep (put s e (with_waiters x w)) t.

Definition activate (s : Scheduler) (t : Z) (prev : option Z) : outcome (bool * Scheduler) :=
  x ← entity s t;
  _ ← assert_ (bool_decide (_state x = RUNNABLE));
  if bool_decide (prev = Some t) then Ok (true, s) else Ok (true, set_current_thread s t).

(** ** sched.cpp *)
Definition schedule (s : Scheduler) : outcome Scheduler :=
  if negb (_active s) then Ok s
  else
    match _algorithm s with
    | None => Ok s
    | Some q =>
        '(next, q) ← pick_next_entity q (cpu_runtime_of s);
        let s := set_algorithm s q (interrupts s) in
        let next := match next with Some n => n | None => _idle_entity s end in
        s ← (if bool_decide (Some next <> _current s) then
               '(ok, s) ← activate s next (_current s);
               if ok : bool then Ok (set_current s next)
               else
                 '(ok, s) ← activate s (_idle_entity s) (_current s);
                 if ok : bool then Ok (set_current s (_idle_entity s)) else Fault Aborted
             else Ok s);
        c ← deref (_current s);
        x ← entity s c;
        Ok (put s c (update_exec_start_time x (runtime s)))
    end.

Definition update_accounting (s : Scheduler) : outcome Scheduler :=
  match _current s with
  | None => Ok s
  | Some c =>
      x ← entity s c;
      let now := runtime s in
      let delta := Tp.sub now (_exec_start_time x) in
      let x := increment_cpu_runtime x delta in
      let x := update_exec_start_time x now in
      Ok (put s c x)
  end.

(** [Scheduler::init] once the idle thread [idle] exists and the algorithm
    has been chosen: the idle thread is started, activated and taken out of
    the run queue again. *)
Definition init (s : Scheduler) (algo : option Q) (idle : Z) : outcome (bool * Scheduler) :=
  let s := {| _active := _active s; _algorithm := _algorithm s; _current := _current s;
              _idle_entity := idle; entities := entities s; interrupts := interrupts s;
              current_thread := current_thread s; runtime := runtime s |} in
  match algo with
  | None => Ok (false, s)
  | Some q =>
      let s := set_algorithm s q (interrupts s) in
      s ← start s idle;
      '(_, s) ← activate s idle None;
      s ← dequeue_entity s idle;
      Ok (true, s)
  end.

(** The part of [Scheduler::run] that returns: what the next interrupt sees. *)
Definition run (s : Scheduler) : Scheduler :=
  {| _active := true; _algorithm := _algorithm s; _current := _current s;
     _idle_entity := _idle_entity s; entities := entities s; interrupts := true;
     current_thread := current_thread s; runtime := runtime s |}.
End scheduler.
Arguments Scheduler Q : clear implicits.
