(* ===== verification/SchedProof.v ===== *)
(** * Correctness of the scheduler

    The scheduler is proved against the laws an algorithm promises for its
    run queue, and each of the three algorithms is proved to keep them.  The
    invariant [sched_inv s xs] says that the run queue [xs] has exactly the
    runnable entities (the idle one aside), each once. *)
From S2P Require Import Prelude InfList CommonsList CommonsListProof Time Sched.

(** ** What a scheduling algorithm promises *)
Class SchedulingAlgorithmLaws (Q : Type) `{SchedulingAlgorithm Q} (queued : Q -> list Z -> Prop) := {
  law_add q xs e ie : queued q xs -> Z.of_nat (length xs) < 2 ^ 31 - 1 ->
    exists q', add_to_runqueue q e ie = Ok (q', ie) /\ queued q' (xs ++ [e]);
  law_remove q xs e ie : queued q xs -> NoDup xs ->
    exists q', remove_from_runqueue q e ie = Ok (q', ie) /\ queued q' (filter (fun y => y <> e) xs);
  law_pick q xs rt : queued q xs -> exists r q' xs', pick_next_entity q rt = Ok (r, q') /\
    queued q' xs' /\ xs' ≡ₚ xs /\ match r with None => xs = [] | Some e => e ∈ xs end
}.

Lemma UniqueIRQLock_Ok {A} ie (body : outcome A) a : body = Ok a -> UniqueIRQLock ie body = Ok (a, ie).
Proof. intros ->. by destruct ie. Qed.

Definition fifo_queued (s : FIFOScheduler) := CommonsListProof.holds (fifo_queue s).
Definition rr_queued (s : RoundRobinScheduler) := CommonsListProof.holds (rr_queue s).
Definition cfs_queued (s : CompletelyFairScheduler) (xs : list Z) : Prop :=
  InfList.holds (cfs_runqueue s) xs /\ Z.of_nat (length xs) < 2 ^ 31.

Lemma fifo_pick_spec q xs rt :
  fifo_queued q xs -> pick_next_entity q rt = Ok (head xs, q).
Proof.
  intros Hq. unfold pick_next_entity, fifo_algorithm, FIFO.pick. rewrite (Count_spec _ _ Hq).
  destruct xs as [|x xs]; [by destruct q|].
  rewrite (proj2 (Z.eqb_neq _ _)) by (cbn; lia). rewrite (Get_0_spec _ _ _ Hq). by destruct q.
Qed.

#[global] Instance fifo_laws : SchedulingAlgorithmLaws FIFOScheduler fifo_queued.
Proof.
  split.
  - intros q xs e ie Hq Hlen. destruct (AddToTail_spec _ _ e Hq Hlen) as (p & l' & E & Hl').
    eexists. cbn. unfold FIFO.add. erewrite UniqueIRQLock_Ok by (by rewrite E). cbn. done.
  - intros q xs e ie Hq _. destruct (Remove_spec _ _ e Hq) as (l' & E & Hl').
    eexists. cbn. unfold FIFO.remove. erewrite UniqueIRQLock_Ok by exact E. cbn. done.
  - intros q xs rt Hq. exists (head xs), q, xs. rewrite (fifo_pick_spec q xs rt Hq).
    split_and!; try done. destruct xs; [done|left].
Qed.

(** Picking moves the head of the round-robin queue to its end. *)
Lemma rr_pick_spec q x xs rt :
  rr_queued q (x :: xs) -> exists q', pick_next_entity q rt = Ok (Some x, q') /\ rr_queued q' (xs ++ [x]).
Proof.
  intros Hq. unfold pick_next_entity, rr_algorithm, RoundRobin.pick. rewrite (Count_spec _ _ Hq).
  rewrite (proj2 (Z.eqb_neq _ _)) by (cbn; lia).
  destruct (Skew_spec _ _ _ Hq) as (l' & E & Hl'). rewrite E. cbn. by eexists.
Qed.

#[global] Instance rr_laws : SchedulingAlgorithmLaws RoundRobinScheduler rr_queued.
Proof.
  split.
  - intros q xs e ie Hq Hlen. destruct (AddToTail_spec _ _ e Hq Hlen) as (p & l' & E & Hl').
    eexists. cbn. unfold RoundRobin.add, Enqueue. erewrite UniqueIRQLock_Ok by (by rewrite E). cbn. done.
  - intros q xs e ie Hq _. destruct (Remove_spec _ _ e Hq) as (l' & E & Hl').
    eexists. cbn. unfold RoundRobin.remove. erewrite UniqueIRQLock_Ok by exact E. cbn. done.
  - intros q xs rt Hq. destruct xs as [|x xs].
    + exists None, q, []. cbn. unfold RoundRobin.pick. rewrite (Count_spec _ _ Hq). by destruct q.
    + destruct (rr_pick_spec q x xs rt Hq) as (q' & E & Hq'). exists (Some x), q', (xs ++ [x]).
      split_and!; try done; [by rewrite Permutation_app_comm|left].
Qed.

(** The CFS loop finds the first entity of least run time. *)
Lemma min_loop_spec rt es best :
  exists b, CFS.min_loop es rt (Some best) (rt best) = Some b /\ b ∈ best :: es /\
    forall e, e ∈ best :: es -> rt b <= rt e.
Proof.
  revert best. induction es as [|e es IH]; intros best; simpl.
  - exists best. split_and!; [done|left|]. intros e ->%list_elem_of_singleton. lia.
  - destruct (Z.ltb_spec (rt e) (rt best)).
    + destruct (IH e) as (b & E & Hb & Hmin). exists b. split_and!; [done|set_solver|].
      assert (rt b <= rt e) by (apply Hmin; left).
      intros x [->|Hx]%elem_of_cons; [lia|by apply Hmin].
    + destruct (IH best) as (b & E & Hb & Hmin). exists b. split_and!; [done|set_solver|].
      assert (rt b <= rt best) by (apply Hmin; left).
      intros x [->|[->|Hx]%elem_of_cons]%elem_of_cons; [lia|lia|]. apply Hmin. by right.
Qed.

Lemma cfs_pick_spec q xs rt :
  cfs_queued q xs -> exists r, pick_next_entity q rt = Ok (r, q) /\
    match r with None => xs = [] | Some b => b ∈ xs /\ forall e, e ∈ xs -> rt b <= rt e end.
Proof.
  intros [Hq Hlen]. unfold pick_next_entity, cfs_algorithm, CFS.pick.
  rewrite (InfList.count_spec _ _ Hq), wrap_small by lia.
  destruct xs as [|x [|y xs]].
  - exists None. by destruct q.
  - exists (Some x). cbn [length]. rewrite (InfList.first_spec _ _ _ Hq). destruct q. split; [done|].
    split; [left|]. intros e ->%list_elem_of_singleton. lia.
  - rewrite !(proj2 (Z.eqb_neq _ _)) by (cbn [length]; lia).
    rewrite (InfList.elements_spec _ _ Hq). cbn -[CFS.min_loop].
    destruct (min_loop_spec rt (y :: xs) x) as (b & E & Hb & Hmin).
    change (CFS.min_loop (x :: y :: xs) rt None 0) with (CFS.min_loop (y :: xs) rt (Some x) (rt x)).
    rewrite E. exists (Some b). destruct q. done.
Qed.

Lemma remove_first_nodup (x : Z) xs :
  NoDup xs -> InfList.remove_first x xs = filter (fun y => y <> x) xs.
Proof.
  induction 1 as [|y xs Hy Hnd IH]; [done|]. simpl. rewrite filter_cons.
  destruct (decide (y = x)) as [->|Hne].
  - rewrite decide_False by tauto. symmetry. apply list_filter_all. intros z Hz ->. done.
  - rewrite decide_True by done. by rewrite IH.
Qed.

#[global] Instance cfs_laws : SchedulingAlgorithmLaws CompletelyFairScheduler cfs_queued.
Proof.
  split.
  - intros q xs e ie [Hq _] Hlen. destruct (InfList.append_spec _ _ e Hq) as (l' & E & Hl').
    eexists. cbn -[Z.pow]. unfold CFS.add, enqueue. erewrite UniqueIRQLock_Ok by exact E.
    cbn -[Z.pow]. split; [done|]. split; [done|]. rewrite length_app. cbn -[Z.pow]. lia.
  - intros q xs e ie [Hq Hlen] Hnd. destruct (InfList.remove_spec _ _ e Hq) as (l' & E & Hl').
    eexists. cbn -[Z.pow]. unfold CFS.remove. erewrite UniqueIRQLock_Ok by exact E.
    cbn -[Z.pow]. split; [done|]. rewrite remove_first_nodup in Hl' by done. split; [done|].
    pose proof (length_filter (fun y => y <> e) xs). lia.
  - intros q xs rt Hq. destruct (cfs_pick_spec q xs rt Hq) as (r & E & Hr).
    exists r, q, xs. split_and!; try done. destruct r; [by destruct Hr|done].
Qed.

(** ** The invariant *)
Definition queued_state (st : SchedulingEntityState) : Prop := st = RUNNABLE \/ st = RUNNING.

Section invariant.
Context {Q : Type} `{SchedulingAlgorithmLaws Q queued}.
Implicit Types (s : Scheduler Q) (xs : list Z).

Record sched_inv s xs : Prop := {
  si_alg : exists q, _algorithm s = Some q /\ queued q xs;
  si_nodup : NoDup xs;
  si_runq : forall e x, entities s !! e = Some x -> e <> _idle_entity s ->
    e ∈ xs <-> queued_state (_state x);
  si_cells : forall e, e ∈ xs -> is_Some (entities s !! e) /\ e <> _idle_entity s;
  si_small : Z.of_nat (size (entities s)) < 2 ^ 31 - 1;
  si_waiters : forall e x, entities s !! e = Some x -> exists ws,
    InfList.holds (_state_changed x) ws /\
    forall w, w ∈ ws -> is_Some (entities s !! w) /\ w <> _idle_entity s
}.

(** [waits s e w]: thread [w] is in the wake queue of entity [e]. *)
Definition waits s (e w : Z) : Prop :=
  exists x ws, entities s !! e = Some x /\ InfList.holds (_state_changed x) ws /\ w ∈ ws.

Definition closed s (S : Z -> Prop) : Prop := forall e w, S e -> waits s e w -> S w.

(** What waking threads of [S] can do to an entity. *)
Definition woken (x x' : SchedulingEntity) : Prop :=
  exists w, x' = with_waiters (with_state x RUNNABLE) w /\ InfList.holds w [].

Record post (S : Z -> Prop) s s' : Prop := {
  po_active : _active s' = _active s;
  po_current : _current s' = _current s;
  po_idle : _idle_entity s' = _idle_entity s;
  po_ie : interrupts s' = interrupts s;
  po_thread : current_thread s' = current_thread s;
  po_runtime : runtime s' = runtime s;
  po_dom : dom (entities s') = dom (entities s);
  po_ents : forall e x, entities s !! e = Some x -> exists x', entities s' !! e = Some x' /\
    (x' = x \/ (S e /\ _state x <> RUNNABLE /\ woken x x'))
}.

Lemma post_refl S s : post S s s.
Proof. split; eauto. Qed.

Lemma post_trans S s1 s2 s3 : post S s1 s2 -> post S s2 s3 -> post S s1 s3.
Proof.
  intros [] []. split; try congruence. intros e x Hx.
  destruct (po_ents0 e x Hx) as (x2 & Hx2 & Hor).
  destruct (po_ents1 e x2 Hx2) as (x3 & Hx3 & Hor').
  exists x3. split; [done|].
  destruct Hor as [->|(HS & Hne & w & -> & Hw)]; [done|].
  destruct Hor' as [->|(_ & Hne' & _)]; [|done].
  right. split; [done|]. split; [done|]. by exists w.
Qed.

Lemma holds_unique (l : InfList.List Z) xs ys : InfList.holds l xs -> InfList.holds l ys -> xs = ys.
Proof. intros H1%InfList.elements_spec H2%InfList.elements_spec. congruence. Qed.

Lemma post_waits S s s' e w : post S s s' -> waits s' e w -> waits s e w.
Proof.
  intros HP (x' & ws & Hx' & Hh & Hw).
  assert (is_Some (entities s !! e)) as [x Hx].
  { apply elem_of_dom. rewrite <- (po_dom _ _ _ HP). apply elem_of_dom. eauto. }
  destruct (po_ents _ _ _ HP e x Hx) as (x2 & Hx2 & Hor). rewrite Hx' in Hx2. injection Hx2 as <-.
  destruct Hor as [->|(_ & _ & w' & -> & Hw')]; [by exists x, ws|].
  rewrite (holds_unique _ _ _ Hh Hw') in Hw. by apply elem_of_nil in Hw.
Qed.

Lemma post_closed S s s' : post S s s' -> closed s S -> closed s' S.
Proof. intros HP HC e w He Hw. eapply HC; [done|]. by eapply post_waits. Qed.

(** The number of entities that could still be woken. *)
Definition sleepers s : gset Z := dom (filter (fun kx => _state (snd kx) <> RUNNABLE) (entities s)).

Lemma elem_of_sleepers s e :
  e ∈ sleepers s <-> exists x, entities s !! e = Some x /\ _state x <> RUNNABLE.
Proof.
  unfold sleepers. rewrite elem_of_dom. unfold is_Some.
  setoid_rewrite map_lookup_filter_Some. done.
Qed.

Lemma post_sleepers S s s' : post S s s' -> sleepers s' ⊆ sleepers s.
Proof.
  intros HP e (x' & Hx' & Hne)%elem_of_sleepers. apply elem_of_sleepers.
  assert (is_Some (entities s !! e)) as [x Hx].
  { apply elem_of_dom. rewrite <- (po_dom _ _ _ HP). apply elem_of_dom. eauto. }
  exists x. split; [done|].
  destruct (po_ents _ _ _ HP e x Hx) as (x2 & Hx2 & Hor). rewrite Hx' in Hx2. injection Hx2 as <-.
  by destruct Hor as [->|(_ & ? & _)].
Qed.

Lemma post_sleepers_size S s s' : post S s s' -> (size (sleepers s') <= size (sleepers s))%nat.
Proof. intros HP. apply subseteq_size. by eapply post_sleepers. Qed.

(** ** Changing the state and the run queue together *)
Lemma queue_small s xs : sched_inv s xs -> Z.of_nat (length xs) < 2 ^ 31 - 1.
Proof.
  intros [_ Hnd _ Hc Hs _]. eapply Z.le_lt_trans; [|exact Hs]. apply inj_le.
  rewrite <- size_dom, <- (size_list_to_set (C := gset Z) xs Hnd).
  apply subseteq_size. intros e He%elem_of_list_to_set. by apply elem_of_dom, Hc.
Qed.

Definition queue_after (xs : list Z) (e : Z) (old new : SchedulingEntityState) : list Z :=
  match new, old with
  | RUNNABLE, (STOPPED | SLEEPING) => xs ++ [e]
  | (STOPPED | SLEEPING), (RUNNABLE | RUNNING) => filter (fun y => y <> e) xs
  | _, _ => xs
  end.

Lemma elem_of_queue_after xs e old new y :
  (e ∈ xs <-> queued_state old) -> old <> new -> (new = RUNNING -> old = RUNNABLE) ->
  y ∈ queue_after xs e old new <-> (y <> e /\ y ∈ xs) \/ (y = e /\ queued_state new).
Proof.
  unfold queued_state. intros He Hne Hrun. destruct (decide (y = e)) as [->|Hy];
    destruct new, old; try done; cbn [queue_after];
    rewrite ?elem_of_app, ?list_elem_of_singleton, ?list_elem_of_filter, ?He; clear He; try solve [naive_solver]; by specialize (Hrun eq_refl).
Qed.

Lemma queue_after_nodup xs e old new :
  NoDup xs -> (e ∈ xs <-> queued_state old) -> NoDup (queue_after xs e old new).
Proof.
  intros Hnd He. assert (~ queued_state old -> NoDup (xs ++ [e])) as Happ.
  { intros Hn. apply NoDup_app. split; [done|]. split; [|apply NoDup_singleton].
    intros y Hy ->%list_elem_of_singleton. apply Hn, He, Hy. }
  destruct new, old; cbn [queue_after]; try done; try (by apply NoDup_filter);
    (apply Happ; unfold queued_state; intuition congruence).
Qed.

Lemma update_runqueue_spec s xs e old new :
  sched_inv s xs -> (new = RUNNING -> old = RUNNABLE) ->
  exists q', update_runqueue s e old new = Ok (set_algorithm s q' (interrupts s)) /\
    queued q' (queue_after xs e old new).
Proof.
  intros HI Hrun. destruct (si_alg _ _ HI) as (q & Eq & Hq).
  assert (s = set_algorithm s q (interrupts s)) as Es.
  { destruct s. cbn in *. by subst. }
  unfold update_runqueue, enqueue_entity, dequeue_entity. rewrite Eq. cbn [deref mbind outcome_bind].
  destruct (law_add q xs e (interrupts s) Hq (queue_small _ _ HI)) as (qa & Ea & Ha).
  destruct (law_remove q xs e (interrupts s) Hq (si_nodup _ _ HI)) as (qr & Er & Hr).
  rewrite Ea, Er. cbn [mbind outcome_bind].
  destruct new.
  4:{ rewrite (Hrun eq_refl). cbn. exists q. by rewrite <- Es. }
  all: destruct old; cbn [queue_after]; eauto; exists q; by rewrite <- Es.
Qed.

Lemma set_state_inv s xs e x new q' :
  sched_inv s xs -> entities s !! e = Some x -> e <> _idle_entity s ->
  queued q' (queue_after xs e (_state x) new) -> _state x <> new ->
  (new = RUNNING -> _state x = RUNNABLE) ->
  sched_inv (put (set_algorithm s q' (interrupts s)) e (with_state x new))
    (queue_after xs e (_state x) new).
Proof.
  intros [Ha Hnd Hr Hc Hs Hw] Hx Hidle Hq Hne Hrun.
  pose proof (fun y => elem_of_queue_after xs e _ new y (Hr e x Hx Hidle) Hne Hrun) as Hmem.
  assert (is_Some (entities s !! e)) as Hdom by eauto.
  split; cbn [_algorithm set_algorithm put set_entities entities _idle_entity].
  - eauto.
  - apply queue_after_nodup; [done|by apply Hr].
  - intros e' x' Hx' Hne'. rewrite Hmem. destruct (decide (e' = e)) as [->|He'].
    + rewrite lookup_insert_eq in Hx'. injection Hx' as <-. cbn. unfold queued_state. intuition congruence.
    + rewrite lookup_insert_ne in Hx' by done. rewrite <- (Hr e' x' Hx' Hne'). intuition congruence.
  - intros e' He'%Hmem. destruct (decide (e' = e)) as [->|Hne'].
    + rewrite lookup_insert_eq. eauto.
    + rewrite lookup_insert_ne by done. apply Hc. intuition congruence.
  - by rewrite map_size_insert_Some.
  - intros e' x' Hx'.
    assert (exists ws, InfList.holds (_state_changed x') ws /\
      forall w, w ∈ ws -> is_Some (entities s !! w) /\ w <> _idle_entity s) as (ws & Hh & Hws).
    { destruct (decide (e' = e)) as [->|He'].
      - rewrite lookup_insert_eq in Hx'. injection Hx' as <-. exact (Hw e x Hx).
      - rewrite lookup_insert_ne in Hx' by done. exact (Hw e' x' Hx'). }
    exists ws. split; [done|]. intros w Hwin. split; [|by apply Hws].
    rewrite lookup_insert_is_Some'. right. by apply Hws.
Qed.

(** ** Waking *)
Lemma entity_Ok s e x : entities s !! e = Some x -> entity s e = Ok x.
Proof. unfold entity. by intros ->. Qed.

Lemma list_node_Ok (l : InfList.List Z) p n : InfList.nodes l !! p = Some n -> InfList.node l p = Ok n.
Proof. unfold InfList.node. by intros ->. Qed.

Definition awake s (t : Z) : Prop := exists x, entities s !! t = Some x /\ _state x = RUNNABLE.

Lemma post_awake S s s' t : post S s s' -> awake s t -> awake s' t.
Proof.
  intros HP (x & Hx & Hr). destruct (po_ents _ _ _ HP t x Hx) as (x' & Hx' & Hor).
  exists x'. split; [done|]. destruct Hor as [->|(_ & ? & _)]; [done|]. congruence.
Qed.

Lemma post_entity S s s' e x :
  post S s s' -> entities s !! e = Some x -> (_state x = RUNNABLE \/ ~ S e) ->
  entities s' !! e = Some x.
Proof.
  intros HP Hx Hst. destruct (po_ents _ _ _ HP e x Hx) as (x' & Hx' & [->|(HS & Hne & _)]); [done|].
  destruct Hst; tauto.
Qed.

Lemma post_is_Some S s s' t :
  post S s s' -> is_Some (entities s !! t) -> is_Some (entities s' !! t).
Proof. intros HP. rewrite <- !elem_of_dom, (po_dom _ _ _ HP). done. Qed.

(** A way to wake a thread of [S] that touches threads of [S] only. *)
Definition wakes (S : Z -> Prop) (n : nat) (wake : Scheduler Q -> Z -> outcome (Scheduler Q)) : Prop :=
  forall s xs t, sched_inv s xs -> closed s S -> S t -> is_Some (entities s !! t) ->
    t <> _idle_entity s -> (size (sleepers s) < n)%nat ->
    exists s' xs', wake s t = Ok s' /\ sched_inv s' xs' /\ post S s s' /\ awake s' t.

Lemma wake_loop_spec S n wake e x : wakes S n wake -> forall pl fuel s xs cur,
  sched_inv s xs -> closed s S -> entities s !! e = Some x -> (_state x = RUNNABLE \/ ~ S e) ->
  lseg (InfList.nodes (_state_changed x)) cur pl None -> (length pl < fuel)%nat ->
  (forall w, w ∈ pl.*2 -> S w /\ is_Some (entities s !! w) /\ w <> _idle_entity s) ->
  (size (sleepers s) < n)%nat ->
  exists s' xs', wake_loop fuel wake s e cur = Ok s' /\ sched_inv s' xs' /\ post S s s' /\
    forall w, w ∈ pl.*2 -> awake s' w.
Proof.
  intros HW. induction pl as [|[p t] pl IH]; intros fuel s xs cur HI HC Hx Hst Hseg Hf Hws Hn;
    (destruct fuel as [|fuel]; [cbn in Hf; lia|]); cbn in Hseg.
  - subst cur. exists s, xs. split_and!; [done|done|apply post_refl|intros w Hw; by apply elem_of_nil in Hw].
  - destruct Hseg as (-> & nx & Hp & Hseg). cbn [wake_loop].
    step_to (entity_Ok _ _ _ Hx). step_to (list_node_Ok _ _ _ Hp). cbn [InfList.Data].
    destruct (Hws t) as (HSt & Hdt & Hit); [left|].
    destruct (HW s xs t HI HC HSt Hdt Hit Hn) as (s1 & xs1 & E1 & HI1 & HP1 & Haw1). step_to E1.
    pose proof (post_entity _ _ _ _ _ HP1 Hx Hst) as Hx1.
    step_to (entity_Ok _ _ _ Hx1). step_to (list_node_Ok _ _ _ Hp). cbn [InfList.Next].
    destruct (IH fuel s1 xs1 nx HI1) as (s2 & xs2 & E2 & HI2 & HP2 & Haw2); try done.
    + by eapply post_closed.
    + cbn in Hf. lia.
    + intros w Hw. destruct (Hws w) as (? & ? & ?); [by right|]. split; [done|].
      rewrite (po_idle _ _ _ HP1). split; [by eapply post_is_Some|done].
    + eapply Nat.le_lt_trans; [by eapply post_sleepers_size|done].
    + exists s2, xs2. split; [done|]. split; [done|]. split; [by eapply post_trans|].
      intros w [->|Hw]%elem_of_cons; [by eapply post_awake|by apply Haw2].
Qed.

(** Storing the wake queue of an entity. *)
Lemma set_waiters_inv s xs e x w ws :
  sched_inv s xs -> entities s !! e = Some x -> InfList.holds w ws ->
  (forall t, t ∈ ws -> is_Some (entities s !! t) /\ t <> _idle_entity s) ->
  sched_inv (put s e (with_waiters x w)) xs.
Proof.
  intros [Ha Hnd Hr Hc Hs Hw] Hx Hh Hin.
  assert (forall t, is_Some (entities s !! t) -> is_Some (<[e := with_waiters x w]> (entities s) !! t)) as Hmono.
  { intros t Ht. apply lookup_insert_is_Some'. by right. }
  split; cbn [_algorithm put set_entities entities _idle_entity]; try done.
  - intros e' x' Hx' Hne. destruct (decide (e' = e)) as [->|?].
    + rewrite lookup_insert_eq in Hx'. injection Hx' as <-. apply (Hr e x Hx Hne).
    + rewrite lookup_insert_ne in Hx' by done. by apply Hr.
  - intros e' He'. destruct (Hc e' He'). auto.
  - by rewrite map_size_insert_Some by eauto.
  - intros e' x' Hx'. destruct (decide (e' = e)) as [->|?].
    + rewrite lookup_insert_eq in Hx'. injection Hx' as <-. exists ws. split; [done|]. intros t Ht. destruct (Hin t Ht). auto.
    + rewrite lookup_insert_ne in Hx' by done. destruct (Hw e' x' Hx') as (us & Hus & Hu).
      exists us. split; [done|]. intros t Ht. destruct (Hu t Ht). auto.
Qed.

Lemma clear_waiters_inv s xs e x w :
  sched_inv s xs -> entities s !! e = Some x -> InfList.holds w [] ->
  sched_inv (put s e (with_waiters x w)) xs.
Proof. intros HI Hx Hh. apply (set_waiters_inv s xs e x w [] HI Hx Hh). intros t Ht. by apply elem_of_nil in Ht. Qed.

Lemma trigger_spec S n wake s xs e x ws :
  wakes S n wake -> sched_inv s xs -> closed s S -> entities s !! e = Some x ->
  (_state x = RUNNABLE \/ ~ S e) -> InfList.holds (_state_changed x) ws ->
  (forall w, w ∈ ws -> S w) -> (size (sleepers s) < n)%nat ->
  exists s' xs' w, trigger wake s e = Ok (put s' e (with_waiters x w)) /\ post S s s' /\
    entities s' !! e = Some x /\ InfList.holds w [] /\
    sched_inv (put s' e (with_waiters x w)) xs' /\
    forall t, t ∈ ws -> awake s' t.
Proof.
  intros HW HI HC Hx Hst Hh HS Hn. unfold trigger. step_to (entity_Ok _ _ _ Hx).
  destruct (si_waiters _ _ HI e x Hx) as (ws' & Hh' & Hws').
  rewrite <- (holds_unique _ _ _ Hh Hh') in Hws'. clear ws' Hh'.
  destruct Hh as (pl & HN & ->).
  destruct (wake_loop_spec S n wake e x HW pl (InfList.fuel_of (_state_changed x)) s xs
    (InfList._elems (_state_changed x)) HI HC Hx Hst (InfList.na_seg _ _ HN) (fuel_enough _ _ HN))
    as (s' & xs' & E & HI' & HP & Haw); [|done|].
  { intros w Hw. split; [by apply HS|by apply Hws']. }
  step_to E. pose proof (post_entity _ _ _ _ _ HP Hx Hst) as Hx'.
  step_to (entity_Ok _ _ _ Hx').
  destruct (clear_spec (_state_changed x) pl.*2) as (w & Ew & Hw & _); [by exists pl|].
  step_to Ew. exists s', xs', w. split; [done|]. do 3 (split; [done|]). split; [|done].
  by apply clear_waiters_inv.
Qed.

(** The state just before the event is triggered. *)
Lemma waits_put s q' e x new e' w :
  entities s !! e = Some x ->
  waits (put (set_algorithm s q' (interrupts s)) e (with_state x new)) e' w <-> waits s e' w.
Proof.
  intros Hx. unfold waits, put, set_entities, set_algorithm. cbn [entities].
  destruct (decide (e' = e)) as [->|Hne].
  - rewrite lookup_insert_eq, Hx. split.
    + intros (y & ws & [= <-] & Hh & Hw). by exists x, ws.
    + intros (y & ws & [= <-] & Hh & Hw). by exists (with_state x new), ws.
  - by rewrite lookup_insert_ne.
Qed.

Lemma sleepers_put s q' e x :
  entities s !! e = Some x -> _state x <> RUNNABLE ->
  (size (sleepers (put (set_algorithm s q' (interrupts s)) e (with_state x RUNNABLE)))
    < size (sleepers s))%nat.
Proof.
  intros Hx Hne. apply subset_size. split.
  - intros k (y & Hy & Hny)%elem_of_sleepers. apply elem_of_sleepers. cbn in Hy.
    destruct (decide (k = e)) as [->|Hk].
    + rewrite lookup_insert_eq in Hy. injection Hy as <-. done.
    + rewrite lookup_insert_ne in Hy by done. eauto.
  - intros Hsub. assert (e ∈ sleepers s) as He by (apply elem_of_sleepers; eauto).
    apply Hsub, elem_of_sleepers in He as (y & Hy & Hny). cbn in Hy.
    rewrite lookup_insert_eq in Hy. injection Hy as <-. done.
Qed.

Lemma sleepers_bound s : (size (sleepers s) <= size (entities s))%nat.
Proof.
  rewrite <- (size_dom (D := gset Z) (entities s)). apply subseteq_size.
  intros k (y & Hy & _)%elem_of_sleepers. apply elem_of_dom. eauto.
Qed.

(** One change of state, given how its waiters are woken. *)
Lemma change_state_spec S fuel s xs e x new ws :
  wakes S fuel (fun s t => set_entity_state fuel s t RUNNABLE) ->
  sched_inv s xs -> closed s S -> entities s !! e = Some x -> e <> _idle_entity s ->
  (new = RUNNING -> _state x = RUNNABLE) -> _state x <> new -> (new = RUNNABLE \/ ~ S e) ->
  InfList.holds (_state_changed x) ws -> (forall w, w ∈ ws -> S w) ->
  (forall q', size (sleepers (put (set_algorithm s q' (interrupts s)) e (with_state x new))) < fuel)%nat ->
  exists s' xs' w q',
    set_entity_state (Datatypes.S fuel) s e new =
      Ok (put s' e (with_waiters (with_state x new) w)) /\
    post S (put (set_algorithm s q' (interrupts s)) e (with_state x new)) s' /\
    entities s' !! e = Some (with_state x new) /\ InfList.holds w [] /\
    sched_inv (put s' e (with_waiters (with_state x new) w)) xs' /\
    (forall t, t ∈ ws -> awake s' t).
Proof.
  intros HW HI HC Hx Hidle Hrun Hne Hst Hh HS Hfuel. cbn [set_entity_state].
  destruct (si_alg _ _ HI) as (q & Eq & _). rewrite Eq, bool_decide_true by eauto.
  cbn [assert_ mbind outcome_bind]. step_to (entity_Ok _ _ _ Hx).
  rewrite bool_decide_false by done.
  destruct (update_runqueue_spec s xs e (_state x) new HI Hrun) as (q' & E & Hq'). step_to E.
  step_to (entity_Ok (set_algorithm s q' (interrupts s)) e x Hx).
  pose proof (set_state_inv s xs e x new q' HI Hx Hidle Hq' Hne Hrun) as HI1.
  set (s1 := put (set_algorithm s q' (interrupts s)) e (with_state x new)) in *.
  destruct (trigger_spec S fuel (fun s t => set_entity_state fuel s t RUNNABLE) s1 _ e
    (with_state x new) ws HW HI1) as (s' & xs' & w & E' & HP & Hx' & Hw & HI' & Haw); try done.
  - intros e' w He' Hw. apply (waits_put s q' e x new e' w Hx) in Hw. by eapply HC.
  - apply lookup_insert_eq.
  - apply Hfuel.
  - exists s', xs', w, q'. done.
Qed.

Lemma wake_spec S fuel : wakes S fuel (fun s t => set_entity_state fuel s t RUNNABLE).
Proof.
  induction fuel as [|fuel IH]; intros s xs t HI HC HSt [x Hx] Hidle Hn; [lia|].
  destruct (decide (_state x = RUNNABLE)) as [Hr|Hne].
  { exists s, xs. destruct (si_alg _ _ HI) as (q & Eq & _). cbn [set_entity_state].
    rewrite Eq, bool_decide_true by eauto. cbn [assert_ mbind outcome_bind].
    step_to (entity_Ok _ _ _ Hx). rewrite bool_decide_true by done.
    split_and!; [done|done|apply post_refl|by exists x]. }
  destruct (si_waiters _ _ HI t x Hx) as (ws & Hh & Hws).
  destruct (change_state_spec S fuel s xs t x RUNNABLE ws IH HI HC Hx Hidle)
    as (s' & xs' & w & q' & E & HP & Hx' & Hw & HI' & Haw); try done.
  - by left.
  - intros w Hw. eapply (HC t); [done|]. by exists x, ws.
  - intros q'. pose proof (sleepers_put s q' t x Hx Hne). lia.
  - exists (put s' t (with_waiters (with_state x RUNNABLE) w)), xs'. split; [done|]. split; [done|].
    split; [|exists (with_waiters (with_state x RUNNABLE) w); split; [apply lookup_insert_eq|done]].
    destruct HP as [? ? ? ? ? ? Hd He]. split; try done.
    + cbn. cbn in Hd. rewrite dom_insert_L, Hd, dom_insert_L.
      assert (t ∈ dom (entities s)) by (apply elem_of_dom; eauto). set_solver.
    + intros e' x' Hx2. cbn. destruct (decide (e' = t)) as [->|Het].
      * rewrite lookup_insert_eq. eexists. split; [done|]. right. rewrite Hx in Hx2.
        injection Hx2 as <-. split; [done|]. split; [done|]. by exists w.
      * rewrite lookup_insert_ne by done. apply He. cbn. by rewrite lookup_insert_ne.
Qed.

(** ** The theorem on [set_entity_state] *)
Lemma set_entity_state_full S s xs e x new ws :
  sched_inv s xs -> closed s S -> entities s !! e = Some x -> e <> _idle_entity s ->
  (new = RUNNING -> _state x = RUNNABLE) -> (new = RUNNABLE \/ ~ S e) ->
  InfList.holds (_state_changed x) ws -> (forall w, w ∈ ws -> S w) ->
  exists s' xs', set_entity_state (depth s) s e new = Ok s' /\ sched_inv s' xs' /\
    (exists x', entities s' !! e = Some x' /\ _state x' = new) /\
    (_state x <> new -> forall t, t ∈ ws -> t <> e -> awake s' t) /\
    interrupts s' = interrupts s /\ _current s' = _current s /\
    (forall t y, t <> e -> entities s !! t = Some y ->
       exists y', entities s' !! t = Some y' /\ (y' = y \/ (S t /\ _state y <> RUNNABLE /\ woken y y'))) /\
    _idle_entity s' = _idle_entity s /\ _active s' = _active s /\ current_thread s' = current_thread s /\
    (forall x', entities s' !! e = Some x' -> _state x <> new -> InfList.holds (_state_changed x') []) /\
    (_state x = new -> s' = s) /\ dom (entities s') = dom (entities s).
Proof.
  intros HI HC Hx Hidle Hrun Hst Hh HS. unfold depth.
  destruct (decide (_state x = new)) as [Heq|Hne].
  { exists s, xs. destruct (si_alg _ _ HI) as (q & Eq & _). cbn [set_entity_state].
    rewrite Eq, bool_decide_true by eauto. cbn [assert_ mbind outcome_bind].
    step_to (entity_Ok _ _ _ Hx). rewrite bool_decide_true by done.
    split_and!; try done; eauto. }
  destruct (change_state_spec S (Datatypes.S (size (entities s))) s xs e x new ws (wake_spec S _) HI HC Hx Hidle)
    as (s' & xs' & w & q' & E & HP & Hx' & Hw & HI' & Haw); try done.
  - intros q'. pose proof (sleepers_bound (put (set_algorithm s q' (interrupts s)) e (with_state x new))) as Hb.
    cbn in Hb. rewrite map_size_insert_Some in Hb by eauto. lia.
  - exists (put s' e (with_waiters (with_state x new) w)), xs'. do 2 (split; [done|]).
    split; [eexists; split; [apply lookup_insert_eq|done]|].
    split; [|split; [apply HP|split; [apply HP|split; [|split_and!; try apply HP; [|done|]]]]].
    + intros _ t Ht Hte. destruct (Haw t Ht) as (y & Hy & Hr). exists y. split; [|done].
      cbn. by rewrite lookup_insert_ne.
    + intros t y Hte Hy. cbn. rewrite lookup_insert_ne by done.
      apply (po_ents _ _ _ HP). cbn. by rewrite lookup_insert_ne.
    + intros y Hy _. cbn in Hy. rewrite lookup_insert_eq in Hy. by injection Hy as <-.
    + cbn. rewrite dom_insert_L, (po_dom _ _ _ HP). cbn. rewrite dom_insert_L.
      assert (e ∈ dom (entities s)) by (apply elem_of_dom; eauto). set_solver.
Qed.

Lemma set_entity_state_spec S s xs e x new ws :
  sched_inv s xs -> closed s S -> entities s !! e = Some x -> e <> _idle_entity s ->
  (new = RUNNING -> _state x = RUNNABLE) -> (new = RUNNABLE \/ ~ S e) ->
  InfList.holds (_state_changed x) ws -> (forall w, w ∈ ws -> S w) ->
  exists s' xs', set_entity_state (depth s) s e new = Ok s' /\ sched_inv s' xs' /\
    (exists x', entities s' !! e = Some x' /\ _state x' = new) /\
    (_state x <> new -> forall t, t ∈ ws -> t <> e -> awake s' t) /\
    interrupts s' = interrupts s /\ _current s' = _current s /\
    (forall t y, t <> e -> entities s !! t = Some y ->
       exists y', entities s' !! t = Some y' /\ (y' = y \/ (S t /\ _state y <> RUNNABLE /\ woken y y'))).
Proof.
  intros H1 H2 H3 H4 H5 H6 H7 H8.
  destruct (set_entity_state_full S s xs e x new ws H1 H2 H3 H4 H5 H6 H7 H8)
    as (s' & xs' & ? & ? & ? & ? & ? & ? & ? & _). by exists s', xs'.
Qed.

(** ** Scheduling *)
Lemma schedule_spec s xs :
  sched_inv s xs -> _active s = true ->
  (forall e x, e ∈ xs -> entities s !! e = Some x -> _state x = RUNNABLE) ->
  awake s (_idle_entity s) ->
  exists s' xs' c, schedule s = Ok s' /\ sched_inv s' xs' /\ xs' ≡ₚ xs /\ _current s' = Some c /\
    (xs = [] -> c = _idle_entity s) /\ (xs <> [] -> c ∈ xs) /\ awake s' c /\
    (_current s <> Some c -> current_thread s' = Some c) /\
    (exists x', entities s' !! c = Some x' /\ _exec_start_time x' = runtime s) /\
    _idle_entity s' = _idle_entity s /\ (forall e, e <> c -> entities s' !! e = entities s !! e).
Proof.
  intros HI Hact Hrun Hidle. unfold schedule. rewrite Hact. cbn [negb].
  destruct (si_alg _ _ HI) as (q & Eq & Hq). rewrite Eq.
  destruct (law_pick q xs (cpu_runtime_of s) Hq) as (r & q' & xs' & Ep & Hq' & Hperm & Hr).
  rewrite Ep. cbn [mbind outcome_bind].
  set (s1 := set_algorithm s q' (interrupts s)).
  set (c := match r with Some n => n | None => _idle_entity s1 end).
  assert (sched_inv s1 xs') as HI1.
  { destruct HI as [Ha Hnd Hrq Hc Hs Hw]. split; cbn [s1 _algorithm set_algorithm entities _idle_entity].
    - eauto.
    - by rewrite Hperm.
    - intros e x Hx Hne. rewrite Hperm. by apply Hrq.
    - intros e. rewrite Hperm. apply Hc.
    - done.
    - done. }
  assert ((xs = [] -> c = _idle_entity s) /\ (xs <> [] -> c ∈ xs)) as [Hc1 Hc2].
  { destruct r as [n|]; cbn [c]; split; intros Hxs; subst; try done. by apply elem_of_nil in Hr. }
  assert (exists x, entities s !! c = Some x /\ _state x = RUNNABLE) as (x & Hx & Hxr).
  { destruct r as [n|]; cbn [c]; [|exact Hidle].
    destruct (si_cells _ _ HI n Hr) as [[x Hx] _]. exists x. split; [done|]. by apply (Hrun n). }
  set (s2 := if bool_decide (_current s = Some c) then s1 else set_current (set_current_thread s1 c) c).
  assert ((if bool_decide (Some c <> _current s1) then
             '(ok, s) ← activate s1 c (_current s1);
             if ok : bool then Ok (set_current s c)
             else '(ok, s) ← activate s (_idle_entity s) (_current s);
                  if ok : bool then Ok (set_current s (_idle_entity s)) else Fault Aborted
           else Ok s1) = Ok s2) as E2.
  { unfold s2. change (_current s1) with (_current s).
    destruct (decide (_current s = Some c)) as [Hcur|Hcur].
    - rewrite bool_decide_false by (rewrite Hcur; tauto). by rewrite bool_decide_true.
    - rewrite bool_decide_true by congruence. rewrite (bool_decide_false (_current s = _)) by done.
      unfold activate. step_to (entity_Ok s1 c x Hx). rewrite (bool_decide_true (_state x = RUNNABLE)) by done.
      cbn [assert_ mbind outcome_bind]. by rewrite (bool_decide_false (_current s = _)). }
  rewrite E2. cbn [mbind outcome_bind].
  assert (_current s2 = Some c /\ entities s2 = entities s /\ runtime s2 = runtime s /\
    sched_inv s2 xs' /\ (_current s <> Some c -> current_thread s2 = Some c)) as (Hc & He & Hrt & HI2 & Hct).
  { unfold s2. destruct (decide (_current s = Some c)) as [Hcur|Hcur].
    - by rewrite bool_decide_true.
    - rewrite bool_decide_false by done. split_and!; try done. by destruct HI1. }
  rewrite Hc. cbn [deref mbind outcome_bind]. unfold entity. rewrite He, Hx.
  cbn [in_bounds mbind outcome_bind]. eexists _, xs', c. split; [done|].
  split_and!; try done.
  - destruct HI2 as [Ha Hnd Hrq Hcl Hs Hw]. rewrite He in *.
    split; cbn [_algorithm put set_entities entities _idle_entity]; rewrite ?He; try done.
    + intros e y Hy Hne. destruct (decide (e = c)) as [->|?].
      * rewrite lookup_insert_eq in Hy. injection Hy as <-. apply (Hrq c x Hx Hne).
      * rewrite lookup_insert_ne in Hy by done. by apply Hrq.
    + intros e Hel. destruct (Hcl e Hel). split; [|done]. apply lookup_insert_is_Some'. by right.
    + by rewrite map_size_insert_Some by eauto.
    + intros e y Hy.
      assert (exists y0, entities s !! e = Some y0 /\ _state_changed y = _state_changed y0)
        as (y0 & Hy0 & ->).
      { destruct (decide (e = c)) as [->|?].
        - rewrite lookup_insert_eq in Hy. injection Hy as <-. eauto.
        - rewrite lookup_insert_ne in Hy by done. eauto. }
      destruct (Hw e y0 Hy0) as (ws & Hh & Hws). exists ws. split; [done|]. intros w Hwin.
      split; [|by apply Hws]. apply lookup_insert_is_Some'. right. by apply Hws.
  - eexists. split; [apply lookup_insert_eq|done].
  - eexists. split; [apply lookup_insert_eq|done].
  - cbn [put set_entities _idle_entity]. unfold s2. by destruct (bool_decide (_current s = Some c)).
  - intros e Hne. cbn. by rewrite lookup_insert_ne, He.
Qed.
End invariant.
