(* ===== verification/SchedTheorems.v ===== *)
(** * What the schedulers guarantee

    The run-queue invariant of [set_entity_state], the choice made by
    [schedule], CPU accounting, and the policies of the three algorithms. *)
From S2P Require Import Prelude InfList CommonsList CommonsListProof Time Sched SchedProof.

(** Successive choices of an algorithm. *)
Fixpoint picks {Q} `{SchedulingAlgorithm Q} (n : nat) (q : Q) (rt : Z -> Z)
  : outcome (list (option Z) * Q) :=
  match n with
  | O => Ok ([], q)
  | S n => '(e, q) ← pick_next_entity q rt; '(es, q) ← picks n q rt; Ok (e :: es, q)
  end.

Definition time_point (n : Z) : Timepoint := {| since_epoch := nanoseconds n |}.

(** A scheduler over an empty queue, with an idle thread 0 and the stopped
    threads 1 and 2. *)
Definition small_entities : gmap Z SchedulingEntity :=
  <[1 := SchedulingEntity_new]> (<[2 := SchedulingEntity_new]>
    {[0 := with_state SchedulingEntity_new RUNNABLE]}).

Definition small {Q} (q : Q) : Scheduler Q := {|
  _active := true; _algorithm := Some q; _current := None; _idle_entity := 0;
  entities := small_entities; interrupts := true; current_thread := None;
  runtime := time_point 100 |}.

Definition empty_rr : RoundRobinScheduler := {| rr_queue := List_new |}.
Definition empty_cfs : CompletelyFairScheduler := {| cfs_runqueue := InfList.empty_list |}.

Lemma small_lookup e x : small_entities !! e = Some x ->
  (e = 0 /\ x = with_state SchedulingEntity_new RUNNABLE) \/
  ((e = 1 \/ e = 2) /\ x = SchedulingEntity_new).
Proof.
  unfold small_entities.
  rewrite !lookup_insert_Some, lookup_singleton_Some. naive_solver.
Qed.

Lemma small_inv {Q} `{SchedulingAlgorithmLaws Q queued} (q : Q) :
  queued q [] -> sched_inv (queued := queued) (small q) [].
Proof.
  intros Hq. split; cbn [small _algorithm entities _idle_entity].
  - eauto.
  - apply NoDup_nil_2.
  - intros e x [[-> ->]|[_ ->]]%small_lookup Hne; [done|].
    unfold queued_state. cbn. rewrite elem_of_nil. naive_solver.
  - intros e He. by apply elem_of_nil in He.
  - reflexivity.
  - intros e x Hx. exists []. split; [|intros w Hw; by apply elem_of_nil in Hw].
    destruct (small_lookup _ _ Hx) as [[_ ->]|[_ ->]]; apply InfList.empty_list_holds.
Qed.

Lemma small_no_waits {Q} `{SchedulingAlgorithm Q} (q : Q) e w : ~ waits (small q) e w.
Proof.
  intros (x & ws & Hx & Hh & Hw). cbn in Hx.
  assert (ws = []) as ->; [|by apply elem_of_nil in Hw].
  eapply holds_unique; [exact Hh|].
  destruct (small_lookup _ _ Hx) as [[_ ->]|[_ ->]]; apply InfList.empty_list_holds.
Qed.

(** C10: set_entity_state keeps the run queue and the states in step.  From a
    state in which the queue holds exactly the runnable threads, any legal
    change of state returns, reaches the state asked for, restores the
    invariant and the interrupt flag, wakes every thread that waited for the
    change, and touches no other thread except those woken in turn -- as long
    as the thread does not, through the waiters of its waiters, wait for
    itself. *)
Theorem set_entity_state_correct {Q} `{SchedulingAlgorithmLaws Q queued} (S : Z -> Prop)
    (s : Scheduler Q) xs e x new ws :
  sched_inv (queued := queued) s xs -> entities s !! e = Some x -> e <> _idle_entity s ->
  (new = RUNNING -> _state x = RUNNABLE) ->
  InfList.holds (_state_changed x) ws -> (forall w, w ∈ ws -> S w) ->
  closed s S -> (new = RUNNABLE \/ ~ S e) ->
  exists s' xs', set_entity_state (depth s) s e new = Ok s' /\ sched_inv (queued := queued) s' xs' /\
    (exists x', entities s' !! e = Some x' /\ _state x' = new) /\
    (_state x <> new -> forall t, t ∈ ws -> t <> e -> awake s' t) /\
    interrupts s' = interrupts s /\ _current s' = _current s /\
    (forall t y, t <> e -> entities s !! t = Some y ->
       exists y', entities s' !! t = Some y' /\
         (y' = y \/ (S t /\ _state y <> RUNNABLE /\ woken y y'))).
Proof. intros. by eapply set_entity_state_spec. Qed.

Lemma set_entity_state_correct_witness : exists s', set_entity_state 5 (small empty_rr) 1 RUNNABLE = Ok s'.
Proof.
  destruct (set_entity_state_correct (queued := rr_queued) (fun _ => False) (small empty_rr) [] 1
    SchedulingEntity_new RUNNABLE []) as (s' & xs' & E & _).
  - apply small_inv, List_new_holds.
  - reflexivity.
  - discriminate.
  - discriminate.
  - apply InfList.empty_list_holds.
  - intros w Hw. by apply elem_of_nil in Hw.
  - intros e w [].
  - by left.
  - by exists s'.
Defined.

(** C18: schedule always finds something to run.  With every queued thread
    runnable it returns; it makes current the thread the algorithm picked out
    of the run queue, or the idle thread exactly when the queue is empty; the
    queue keeps the same threads; the architecture switches to the new thread;
    and its execution start time is the current time. *)
Theorem schedule_correct {Q} `{SchedulingAlgorithmLaws Q queued} (s : Scheduler Q) xs :
  sched_inv (queued := queued) s xs -> _active s = true ->
  (forall e x, e ∈ xs -> entities s !! e = Some x -> _state x = RUNNABLE) ->
  awake s (_idle_entity s) ->
  exists s' xs' c, schedule s = Ok s' /\ sched_inv (queued := queued) s' xs' /\ xs' ≡ₚ xs /\
    _current s' = Some c /\ (xs = [] -> c = _idle_entity s) /\ (xs <> [] -> c ∈ xs) /\ awake s' c /\
    (_current s <> Some c -> current_thread s' = Some c) /\
    (exists x', entities s' !! c = Some x' /\ _exec_start_time x' = runtime s).
Proof.
  intros HI Ha Hrun Hidle.
  destruct (schedule_spec s xs HI Ha Hrun Hidle) as (s' & xs' & c & E & H1 & H2 & H3 & H4 & H5 & H6 & H7 & H8 & _).
  by exists s', xs', c.
Qed.

Lemma schedule_correct_witness : exists s', schedule (small empty_cfs) = Ok s' /\ _current s' = Some 0.
Proof.
  destruct (schedule_correct (queued := cfs_queued) (small empty_cfs) []) as
    (s' & xs' & c & E & _ & _ & Hc & Hidle & _).
  - apply small_inv. split; [apply InfList.empty_list_holds|reflexivity].
  - reflexivity.
  - intros e x He. by apply elem_of_nil in He.
  - by eexists.
  - exists s'. split; [done|]. rewrite Hc. by rewrite Hidle.
Defined.

(** The round-robin scheduler is fair: over as many choices as there are
    threads in its queue it picks each of them once, in queue order, and the
    queue is back in its original order. *)
Lemma rr_fair q xs rt :
  rr_queued q xs ->
  exists q', picks (length xs) q rt = Ok (Some <$> xs, q') /\ rr_queued q' xs.
Proof.
  assert (forall ys zs q, rr_queued q (ys ++ zs) ->
    exists q', picks (length ys) q rt = Ok (Some <$> ys, q') /\ rr_queued q' (zs ++ ys)) as Hrot.
  { induction ys as [|y ys IH]; intros zs p Hp; cbn [picks length].
    - exists p. by rewrite app_nil_r.
    - destruct (rr_pick_spec p y (ys ++ zs) rt Hp) as (p1 & E1 & H1). step_to E1.
      rewrite <- app_assoc in H1. destruct (IH (zs ++ [y]) p1 H1) as (p2 & E2 & H2). step_to E2.
      exists p2. split; [done|]. by rewrite <- app_assoc in H2. }
  intros Hq. destruct (Hrot xs [] q) as (q' & E & H'); [by rewrite app_nil_r|]. by exists q'.
Qed.

Lemma rr_fair_witness : exists q q' : RoundRobinScheduler, picks 3 q (fun _ => 0) = Ok ([Some 4; Some 7; Some 9], q').
Proof.
  destruct (list_of [4; 7; 9] ltac:(done)) as [l Hl].
  destruct (rr_fair {| rr_queue := l |} [4; 7; 9] (fun _ => 0) Hl) as (q' & E & _).
  by exists {| rr_queue := l |}, q'.
Defined.

(** The FIFO scheduler runs the thread that became runnable first until
    it leaves the queue: every choice is the head and changes nothing, and
    once the head is removed the next in line is chosen. *)
Lemma fifo_runs_head q x xs rt n :
  fifo_queued q (x :: xs) -> NoDup (x :: xs) ->
  picks n q rt = Ok (replicate n (Some x), q) /\
  exists q', remove_from_runqueue q x true = Ok (q', true) /\ fifo_queued q' xs /\
    pick_next_entity q' rt = Ok (head xs, q').
Proof.
  intros Hq Hnd. split.
  - induction n as [|n IH]; [done|]. cbn [picks replicate].
    rewrite (bind_Ok _ _ _ (fifo_pick_spec q (x :: xs) rt Hq)). by step_to IH.
  - destruct (law_remove q (x :: xs) x true Hq Hnd) as (q' & E & Hq').
    rewrite filter_cons, decide_False in Hq' by tauto.
    apply NoDup_cons in Hnd as [Hx _].
    rewrite list_filter_all in Hq' by (intros y Hy ->; done).
    exists q'. split; [done|]. split; [done|]. by apply fifo_pick_spec.
Qed.

Lemma fifo_runs_head_witness : exists q : FIFOScheduler, picks 2 q (fun _ => 0) = Ok ([Some 4; Some 4], q).
Proof.
  destruct (list_of [4; 7] ltac:(done)) as [l Hl]. exists {| fifo_queue := l |}.
  apply (fifo_runs_head {| fifo_queue := l |} 4 [7] (fun _ => 0) 2 Hl).
  apply NoDup_cons. split; [|apply NoDup_singleton]. by intros ?%list_elem_of_singleton.
Defined.

(** The completely fair scheduler picks a queued thread with the least
    CPU time, and none exactly when its queue is empty. *)
Lemma cfs_picks_least q xs rt :
  cfs_queued q xs -> exists r, pick_next_entity q rt = Ok (r, q) /\
    match r with None => xs = [] | Some b => b ∈ xs /\ forall e, e ∈ xs -> rt b <= rt e end.
Proof. apply cfs_pick_spec. Qed.

Lemma cfs_picks_least_witness : exists (q : CompletelyFairScheduler) b, pick_next_entity q (fun e => - e) = Ok (Some b, q) /\ -b <= -9.
Proof.
  destruct (append_all_spec [4; 9; 7] (@InfList.empty_list Z) [] InfList.empty_list_holds)
    as (l & _ & Hl).
  assert (cfs_queued {| cfs_runqueue := l |} [4; 9; 7]) as Hq by (split; [exact Hl|reflexivity]).
  destruct (cfs_picks_least {| cfs_runqueue := l |} [4; 9; 7] (fun e => - e) Hq) as ([b|] & E & Hb);
    [|done].
  exists {| cfs_runqueue := l |}, b. split; [done|]. exact (proj2 Hb 9 ltac:(right; left)).
Defined.

(** update_accounting charges the running thread exactly the time since
    it was last accounted for, and restarts the count. *)
Lemma update_accounting_charges {Q} `{SchedulingAlgorithm Q} (s : Scheduler Q) c x :
  _current s = Some c -> entities s !! c = Some x ->
  0 <= _val (since_epoch (_exec_start_time x)) <= _val (since_epoch (runtime s)) ->
  _val (since_epoch (runtime s)) < 2 ^ 64 ->
  0 <= _val (_cpu_runtime x) ->
  _val (_cpu_runtime x) + (_val (since_epoch (runtime s)) - _val (since_epoch (_exec_start_time x))) < 2 ^ 64 ->
  exists s' x', update_accounting s = Ok s' /\ entities s' !! c = Some x' /\
    _val (_cpu_runtime x') = _val (_cpu_runtime x) +
      (_val (since_epoch (runtime s)) - _val (since_epoch (_exec_start_time x))) /\
    _exec_start_time x' = runtime s /\ _state x' = _state x /\
    (forall e, e <> c -> entities s' !! e = entities s !! e).
Proof.
  intros Hc Hx H1 H2 H3 H4. unfold update_accounting. rewrite Hc. step_to (entity_Ok s c x Hx).
  eexists _, _. split; [done|]. split; [apply lookup_insert_eq|].
  cbn [update_exec_start_time increment_cpu_runtime _cpu_runtime _exec_start_time _state].
  split; [|split; [done|split; [done|]]].
  - unfold Dur.add_assign. cbn [_val]. rewrite timepoint_sub_spec by done. apply wrap_small. lia.
  - intros e He. cbn. by rewrite lookup_insert_ne.
Qed.

Lemma update_accounting_charges_witness : exists s' x',
  update_accounting (set_current (small empty_rr) 0) = Ok s' /\ entities s' !! 0 = Some x' /\
  _val (_cpu_runtime x') = 100.
Proof.
  destruct (update_accounting_charges (set_current (small empty_rr) 0) 0
    (with_state SchedulingEntity_new RUNNABLE)) as (s' & x' & E & Hx & Hv & _);
    try reflexivity; try (cbn; lia).
  exists s', x'. split; [done|]. split; [done|]. rewrite Hv. reflexivity.
Defined.

(** Two threads that wait for each other corrupt the wake queue.  When
    thread 2 starts to wait for thread 1 while 1 waits for 2, waking 1 wakes
    2 in turn, whose wake queue is cleared while the outer loop still walks
    it: the loop then reads a node that has been deleted. *)
Lemma mutual_wait_reads_freed_node :
  (s ← start (small empty_cfs) 1;
   s ← start s 2;
   '(_, s) ← wait s 2 1;
   wait s 1 2) = Fault OutOfBounds.
Proof. vm_compute. reflexivity. Qed.
