(* ===== verification/PageAllocator.v ===== *)
(** * infos/mm/page-allocator.cpp, simple-page-alloc.cpp and the physical
      memory map of infos/mm/mm.cpp

    The page allocator owns the descriptor array; an allocation algorithm,
    plugged in through [PageAllocatorAlgorithm], decides which pages to hand
    out, and the allocator marks them in the array.  Linker symbols are the
    record [Image]. *)
From S2P Require Import Prelude Define PageDesc.

(** ** mm.cpp: the memory map *)
Inductive MemoryType := NORMAL | UNUSABLE.

#[global] Instance MemoryType_eq_dec : EqDecision MemoryType.
Proof. solve_decision. Defined.

Record PhysicalMemoryBlock := {
  base_address : Z;
  base_pfn : Z;
  nr_pages : Z;
  pmb_type : MemoryType
}.

(** [_phys_mem_blocks] has room for 16 blocks; the list holds those in use. *)
Record MemoryManager := {
  _last_pfn : Z;
  _phys_mem_blocks : list PhysicalMemoryBlock
}.

Definition MAX_PHYS_MEM_BLOCKS : Z := 16.

Definition MemoryManager_new : MemoryManager := {| _last_pfn := 0; _phys_mem_blocks := [] |}.

(** [nr_pages * _page_size] is a product of two [unsigned int]s. *)
Definition block_bytes (nr_pages : Z) : Z := u32 (nr_pages * __page_size).

Definition add_physical_memory (mm : MemoryManager) (addr nr_pages : Z) (type : MemoryType)
  : MemoryManager :=
  if nr_pages =? 0 then mm
  else if MAX_PHYS_MEM_BLOCKS <=? Z.of_nat (length (_phys_mem_blocks mm)) then mm
  else
    let block := {| base_address := addr; base_pfn := Z.shiftr addr 12;
                    nr_pages := nr_pages; pmb_type := type |} in
    let last_pfn :=
      match type with
      | NORMAL => u64 (Z.shiftr (u64 (addr + block_bytes nr_pages)) 12 - 1)
      | UNUSABLE => 0
      end in
    {| _last_pfn := if bool_decide (type = NORMAL) && (_last_pfn mm <? last_pfn)
                    then last_pfn else _last_pfn mm;
       _phys_mem_blocks := _phys_mem_blocks mm ++ [block] |}.

Definition in_phys_block (addr : Z) (b : PhysicalMemoryBlock) : bool :=
  (base_address b <=? addr) && (addr <? u64 (base_address b + block_bytes (nr_pages b))).

Fixpoint lookup_block (blocks : list PhysicalMemoryBlock) (addr : Z) : option PhysicalMemoryBlock :=
  match blocks with
  | [] => None
  | b :: blocks => if in_phys_block addr b then Some b else lookup_block blocks addr
  end.

Definition lookup_phys_block (mm : MemoryManager) (addr : Z) : option PhysicalMemoryBlock :=
  lookup_block (_phys_mem_blocks mm) addr.

(** ** simple-page-alloc.cpp *)
Record SimplePageAllocator := { _pgd_base : Z; _nr_pgds : Z }.

Definition simple_init (a : SimplePageAllocator) (nr_page_descriptors : Z) : bool * SimplePageAllocator :=
  (true, {| _pgd_base := 0; _nr_pgds := nr_page_descriptors |}).

(** The inner loop: the first page of [idx .. idx + n) that is not available. *)
Fixpoint simple_run (n : nat) (d : PageDescriptors) (base idx : Z) : outcome (option Z) :=
  match n with
  | O => Ok None
  | S n =>
      pd ← load d (base + idx);
      if bool_decide (type pd <> AVAILABLE) then Ok (Some idx)
      else simple_run n d base (idx + 1)
  end.

Fixpoint simple_loop (fuel : nat) (a : SimplePageAllocator) (d : PageDescriptors) (idx : Z)
    (nr_pages : Z) : outcome (option Z) :=
  match fuel with
  | O => Fault OutOfFuel
  | S fuel =>
      if idx <? _nr_pgds a then
        busy ← simple_run (Z.to_nat (u64 (idx + nr_pages) - idx)) d (_pgd_base a) idx;
        match busy with
        | Some subidx => simple_loop fuel a d (subidx + 1) nr_pages
        | None => Ok (Some (_pgd_base a + idx))
        end
      else Ok None
  end.

(** [1 << order] on [w] bits: from [w] on the shift is undefined. *)
Definition shift_one (w order : Z) : outcome Z :=
  if (0 <=? order) && (order <? w) then Ok (Z.shiftl 1 order) else Fault UndefinedShift.

(** [nr_pages] is a [const int]; [idx + nr_pages] is computed with 64 bits. *)
Definition simple_alloc_pages (a : SimplePageAllocator) (d : PageDescriptors) (order : Z)
  : outcome (option Z) :=
  n ← shift_one 32 order;
  let nr_pages := i32 n in
  simple_loop (S (Z.to_nat (_nr_pgds a))) a d 0 nr_pages.

Fixpoint check_types (n : nat) (d : PageDescriptors) (pgd : Z) (t : PageDescriptorType) : outcome unit :=
  match n with
  | O => Ok tt
  | S n =>
      pd ← load d pgd;
      _ ← assert_ (bool_decide (type pd = t));
      check_types n d (pgd + 1) t
  end.

Definition simple_free_pages (d : PageDescriptors) (pgd order : Z) : outcome unit :=
  n ← shift_one 32 order;
  check_types (Z.to_nat (u32 n)) d pgd ALLOCATED.

Definition simple_reserve_page (d : PageDescriptors) (pgd : Z) : outcome bool :=
  pd ← load d pgd;
  _ ← assert_ (bool_decide (type pd <> AVAILABLE));
  Ok true.

#[global] Instance simple_algorithm : PageAllocatorAlgorithm SimplePageAllocator := {|
  alg_init a d := let '(ok, a) := simple_init a (_nr_pages d) in Ok (ok, a, d);
  alg_reserve_page a d p := ok ← simple_reserve_page d p; Ok (ok, a, d);
  alg_alloc_pages a d order := p ← simple_alloc_pages a d order; Ok (p, a, d);
  alg_free_pages a d p order := _ ← simple_free_pages d p order; Ok (a, d)
|}.

(** ** page-allocator.cpp *)

(** The addresses of the image's sections, given by the linker. *)
Record Image := {
  IMAGE_START : Z; IMAGE_END : Z;
  STACK_START : Z; STACK_END : Z;
  HEAP_START : Z
}.

Section allocator.
Context {A : Type} `{PageAllocatorAlgorithm A}.

(** [_mtx] is the allocator's mutex; no other thread runs in this model, so
    locking it when it is held would wait for ever. *)
Record PageAllocator := {
  _allocator_algorithm : option A;
  descriptors : PageDescriptors;
  _mtx : bool
}.

Definition set_descriptors (p : PageAllocator) (d : PageDescriptors) : PageAllocator :=
  {| _allocator_algorithm := _allocator_algorithm p; descriptors := d; _mtx := _mtx p |}.
Definition set_algorithm (p : PageAllocator) (a : A) (d : PageDescriptors) : PageAllocator :=
  {| _allocator_algorithm := Some a; descriptors := d; _mtx := _mtx p |}.
Definition set_mtx (p : PageAllocator) (b : bool) : PageAllocator :=
  {| _allocator_algorithm := _allocator_algorithm p; descriptors := descriptors p; _mtx := b |}.

Definition lock (p : PageAllocator) : outcome PageAllocator :=
  if _mtx p then Fault OutOfFuel else Ok (set_mtx p true).
Definition unlock (p : PageAllocator) : PageAllocator := set_mtx p false.

(** The array of zeroed descriptors: [bzero] gives INVALID and NULL. *)
Definition zeroed (n base : Z) : PageDescriptors := {|
  _nr_pages := n;
  _page_descriptors := base;
  cells := list_to_map ((fun i => (i, {| next_free := None; type := INVALID |})) <$> seqZ 0 n)
|}.

Definition setup_page_descriptors (p : PageAllocator) (mm : MemoryManager) (im : Image)
  : outcome (bool * PageAllocator) :=
  let nr := u64 (_last_pfn mm + 1) in
  pa ← kva_to_pa (HEAP_START im);
  match lookup_phys_block mm pa with
  | None => Ok (false, p)
  | Some _ => Ok (true, set_descriptors p (zeroed nr (HEAP_START im)))
  end.

(** Give [n] descriptors from [pfn] on the type [t]. *)
Fixpoint mark_pages (n : nat) (d : PageDescriptors) (t : PageDescriptorType) (pfn : Z)
  : outcome PageDescriptors :=
  match n with
  | O => Ok d
  | S n => d ← store_type d pfn t; mark_pages n d t (pfn + 1)
  end.

(** [nr_pages] is an [unsigned int]. *)
Definition mark_page_range (d : PageDescriptors) (t : PageDescriptorType) (start nr_pages : Z)
  : outcome (Z * PageDescriptors) :=
  let nr_pages := u32 nr_pages in
  d ← mark_pages (Z.to_nat nr_pages) d t start;
  Ok (nr_pages, d).

Fixpoint mark_present (blocks : list PhysicalMemoryBlock) (d : PageDescriptors) (nr_present : Z)
  : outcome (Z * PageDescriptors) :=
  match blocks with
  | [] => Ok (nr_present, d)
  | b :: blocks =>
      if bool_decide (pmb_type b = NORMAL) then
        d ← mark_pages (Z.to_nat (nr_pages b)) d AVAILABLE (base_pfn b);
        mark_present blocks d (u64 (nr_present + nr_pages b))
      else mark_present blocks d nr_present
  end.

(** The marking of the array at start-up: what memory there is, then the
    pages that are already in use. *)
Definition mark_initial (d : PageDescriptors) (mm : MemoryManager) (im : Image)
  : outcome (Z * PageDescriptors) :=
  '(nr_free, d) ← mark_present (_phys_mem_blocks mm) d 0;
  '(n, d) ← mark_page_range d RESERVED 0 1;
  let nr_free := u64 (nr_free - n) in
  '(n, d) ← mark_page_range d ALLOCATED 1 6;
  let nr_free := u64 (nr_free - n) in
  let image_start_pfn := pa_to_pfn (IMAGE_START im) in
  let image_last_pfn := pa_to_pfn (IMAGE_END im) in
  '(n, d) ← mark_page_range d RESERVED image_start_pfn (u64 (image_last_pfn - image_start_pfn + 1));
  let nr_free := u64 (nr_free - n) in
  stack_start ← kva_to_pa (STACK_START im);
  stack_end ← kva_to_pa (STACK_END im);
  let stack_start_pfn := pa_to_pfn stack_start in
  let stack_last_pfn := pa_to_pfn stack_end in
  '(n, d) ← mark_page_range d RESERVED stack_start_pfn (u64 (stack_last_pfn - stack_start_pfn + 1));
  let nr_free := u64 (nr_free - n) in
  heap_start ← kva_to_pa (HEAP_START im);
  '(n, d) ← mark_page_range d RESERVED (pa_to_pfn heap_start)
              (Z.shiftr (u64 (_nr_pages d * sizeof_PageDescriptor)) 12 + 1);
  Ok (u64 (nr_free - n), d).

(** Reserve every page from [pgd] on that is not available. *)
Fixpoint reserve_loop (n : nat) (a : A) (d : PageDescriptors) (pgd : Z)
  : outcome (bool * A * PageDescriptors) :=
  match n with
  | O => Ok (true, a, d)
  | S n =>
      pd ← load d pgd;
      if bool_decide (type pd <> AVAILABLE) then
        '(ok, a, d) ← alg_reserve_page a d pgd;
        if ok : bool then reserve_loop n a d (pgd + 1) else Ok (false, a, d)
      else reserve_loop n a d (pgd + 1)
  end.

(** The self-test's sequence of calls.  An allocation that fails is only
    noticed the first time; later ones are used without a check. *)
Definition test_alloc (ad : A * PageDescriptors) (order : Z) : outcome (Z * (A * PageDescriptors)) :=
  '(p, a, d) ← alg_alloc_pages (fst ad) (snd ad) order;
  p ← deref p;
  Ok (p, (a, d)).

Definition test_free (ad : A * PageDescriptors) (pgd order : Z) : outcome (A * PageDescriptors) :=
  alg_free_pages (fst ad) (snd ad) pgd order.

Definition test_reserve (ad : A * PageDescriptors) (pfn : Z) : outcome (A * PageDescriptors) :=
  pgd ← deref (pfn_to_pgd (snd ad) pfn);
  '(ok, a, d) ← alg_reserve_page (fst ad) (snd ad) pgd;
  _ ← assert_ ok;
  Ok (a, d).

Definition self_test (a : A) (d : PageDescriptors) : outcome (bool * A * PageDescriptors) :=
  '(p, a, d) ← alg_alloc_pages a d 0;
  match p with
  | None => Ok (false, a, d)
  | Some p =>
      s ← test_free (a, d) p 0;
      '(p, s) ← test_alloc s 1;
      s ← test_free s p 1;
      '(p0, s) ← test_alloc s 0;
      '(p1, s) ← test_alloc s 1;
      s ← test_free s p0 0;
      '(p2, s) ← test_alloc s 0;
      s ← test_free s p1 1;
      s ← test_free s p2 0;
      '(p00, s) ← test_alloc s 0;
      '(p01, s) ← test_alloc s 0;
      '(p02, s) ← test_alloc s 0;
      '(p03, s) ← test_alloc s 2;
      '(p04, s) ← test_alloc s 0;
      '(p05, s) ← test_alloc s 0;
      '(p06, s) ← test_alloc s 0;
      '(p07, s) ← test_alloc s 0;
      s ← test_free s p05 0;
      s ← test_free s p03 2;
      s ← test_free s p06 0;
      s ← test_free s p07 0;
      s ← test_free s p02 0;
      s ← test_free s p01 0;
      s ← test_free s p00 0;
      s ← test_free s p04 0;
      s ← test_reserve s 0x14e;
      s ← test_reserve s 0x14f;
      pgd ← deref (pfn_to_pgd (snd s) 0x14f);
      s ← test_free s pgd 0;
      pgd ← deref (pfn_to_pgd (snd s) 0x14e);
      s ← test_free s pgd 0;
      Ok (true, fst s, snd s)
  end.

Definition init (p : PageAllocator) (mm : MemoryManager) (im : Image) (do_self_test : bool)
  : outcome (bool * PageAllocator) :=
  match _allocator_algorithm p with
  | None => Ok (false, p)
  | Some a =>
      '(ok, p) ← setup_page_descriptors p mm im;
      if negb ok then Ok (false, p)
      else
        '(_, d) ← mark_initial (descriptors p) mm im;
        '(ok, a, d) ← alg_init a d;
        if negb ok then Ok (false, set_algorithm p a d)
        else
          '(a, d) ← (if do_self_test then
                       '(ok, a, d) ← self_test a d;
                       if ok : bool then Ok (a, d) else Fault Aborted
                     else Ok (a, d));
          '(ok, a, d) ← reserve_loop (Z.to_nat (_nr_pages d)) a d 0;
          Ok (ok, set_algorithm p a d)
  end.

(** Check that [n] pages have the type [from] and give them the type [to]. *)
Fixpoint retype (n : nat) (d : PageDescriptors) (pgd : option Z) (from to : PageDescriptorType)
  : outcome PageDescriptors :=
  match n with
  | O => Ok d
  | S n =>
      p ← deref pgd;
      pd ← load d p;
      _ ← assert_ (bool_decide (type pd = from));
      d ← store_type d p to;
      retype n d (Some (p + 1)) from to
  end.

Definition alloc_pages (p : PageAllocator) (order : Z) : outcome (option Z * PageAllocator) :=
  match _allocator_algorithm p with
  | None => Ok (None, p)
  | Some a =>
      p ← lock p;
      '(pgd, a, d) ← alg_alloc_pages a (descriptors p) order;
      d ← retype (Z.to_nat (u32 (Z.shiftl 1 order))) d pgd AVAILABLE ALLOCATED;
      Ok (pgd, unlock (set_algorithm p a d))
  end.

Definition free_pages (p : PageAllocator) (pgd order : Z) : outcome PageAllocator :=
  match _allocator_algorithm p with
  | None => Ok p
  | Some a =>
      p ← lock p;
      '(a, d) ← alg_free_pages a (descriptors p) pgd order;
      d ← retype (Z.to_nat (u32 (Z.shiftl 1 order))) d (Some pgd) ALLOCATED AVAILABLE;
      Ok (unlock (set_algorithm p a d))
  end.

Definition alloc_page (p : PageAllocator) : outcome (option Z * PageAllocator) := alloc_pages p 0.
Definition free_page (p : PageAllocator) (pgd : Z) : outcome PageAllocator := free_pages p pgd 0.
End allocator.
Arguments PageAllocator A : clear implicits.
