(* ===== verification/PageAllocatorProof.v ===== *)
(** * Correctness of the page allocator

    [PageAllocatorAlgorithmLaws] is what the page allocator needs of its
    algorithm: [owned a d S] says that the algorithm, in state [a] over the
    descriptors [d], has exactly the pages [S] to hand out.  The buddy
    allocator keeps these laws.  The theorems on the page allocator itself are
    proved from the laws alone. *)
From S2P Require Import Prelude Define PageDesc Buddy BuddyRep BuddyProof PageAllocator.

(** The pages of a block of the given order. *)
Definition block (p order x : Z) : Prop := p <= x < p + 2 ^ order.

(** Same pages with the same types; only links may differ. *)
Record same_types (d d' : PageDescriptors) : Prop := {
  st_pages : _nr_pages d' = _nr_pages d;
  st_types : forall q, type <$> cells d' !! q = type <$> cells d !! q
}.

(** Same pages with the same links; only types may differ. *)
Record same_links (d d' : PageDescriptors) : Prop := {
  sl_pages : _nr_pages d' = _nr_pages d;
  sl_base : _page_descriptors d' = _page_descriptors d;
  sl_links : forall q, next_free <$> cells d' !! q = next_free <$> cells d !! q
}.

#[global] Instance same_types_preorder : PreOrder same_types.
Proof. split; [done|]. intros d1 d2 d3 [] []. split; intros; etrans; eauto. Qed.

#[global] Instance same_links_preorder : PreOrder same_links.
Proof. split; [done|]. intros d1 d2 d3 [] []. split; intros; etrans; eauto. Qed.

Class PageAllocatorAlgorithmLaws (A : Type) `{PageAllocatorAlgorithm A}
    (fresh_state : A -> Prop) (owned : A -> PageDescriptors -> (Z -> Prop) -> Prop)
    (can_free : PageDescriptors -> Z -> Z -> Prop) := {
  law_wf a d S : owned a d S -> wf_pds d;
  law_ext a d S S' : owned a d S -> (forall x, S' x <-> S x) -> owned a d S';
  law_retype a d d' S : owned a d S -> same_links d d' -> owned a d' S;
  law_init a d : fresh_state a -> wf_pds d ->
    (forall i pd, cells d !! i = Some pd -> next_free pd = None) ->
    exists a' d', alg_init a d = Ok (true, a', d') /\ same_types d d' /\
      owned a' d' (fun x => 0 <= x < _nr_pages d);
  law_reserve a d S x : owned a d S -> S x ->
    exists a' d', alg_reserve_page a d x = Ok (true, a', d') /\ same_types d d' /\
      owned a' d' (fun y => S y /\ y <> x);
  law_alloc a d S order : owned a d S -> 0 <= order < 2 ^ 31 ->
    (exists p a' d', alg_alloc_pages a d order = Ok (Some p, a', d') /\ same_types d d' /\
       0 <= p /\ (2 ^ order | p) /\ (forall x, block p order x -> S x) /\
       owned a' d' (fun x => S x /\ ~ block p order x)) \/
    (alg_alloc_pages a d order = Ok (None, a, d) /\
     forall p, order <= 16 -> (2 ^ order | p) -> ~ (forall x, block p order x -> S x));
  law_free a d S p order : owned a d S -> can_free d p order ->
    (forall x, block p order x -> ~ S x) ->
    exists a' d', alg_free_pages a d p order = Ok (a', d') /\ same_types d d' /\
      owned a' d' (fun x => S x \/ block p order x)
}.

(** ** The buddy allocator keeps the laws *)
Definition buddy_owned (a : list (option Z)) (d : PageDescriptors) (S : Z -> Prop) : Prop :=
  exists F, Inv {| _free_areas := a; pds := d |} F /\ forall x, BuddyRep.free_page F x <-> S x.

Definition buddy_can_free (d : PageDescriptors) (p order : Z) : Prop :=
  0 <= order <= 16 /\ (2 ^ order | p) /\ 0 <= p /\ region_end p <= _nr_pages d.

Lemma frame_same_types st st' : frame st st' -> same_types (pds st) (pds st').
Proof. intros [H1 _ H2 _]. by split. Qed.

Lemma same_links_wf d d' : same_links d d' -> wf_pds d -> wf_pds d'.
Proof.
  intros [Hp _ Hl] [HN HC]. split; rewrite Hp; [done|]. intros i. rewrite <- HC.
  by rewrite <- (fmap_is_Some next_free), <- (fmap_is_Some next_free (cells d !! i)), Hl.
Qed.

Lemma same_links_rep st d' F : rep st F -> same_links (pds st) d' ->
  rep {| _free_areas := _free_areas st; pds := d' |} F.
Proof.
  intros [Hwf Hlen Hc Ho Hs H1 Hn] Hsl. destruct (Hsl) as [Hp _ Hl].
  assert (forall s, read_slot {| _free_areas := _free_areas st; pds := d' |} s = read_slot st s) as Hr.
  { intros [o|p|v]; [done| |done]. cbn. unfold load. specialize (Hl p).
    destruct (cells d' !! p), (cells (pds st) !! p); cbn in *; congruence. }
  split; cbn [_free_areas pds]; try done.
  - by apply (same_links_wf (pds st)).
  - intros o Hoo. eapply lchain_move; [by apply Hc| |].
    + rewrite Hr. by apply lchain_head, Hc.
    + intros p _. apply Hr.
  - intros p Hpp Hno. rewrite Hr. apply Hn; [by rewrite <- Hp|done].
Qed.

#[global] Instance buddy_laws :
  PageAllocatorAlgorithmLaws (list (option Z)) (fun a => a = _free_areas (BuddyPageAllocator_new (zeroed 0 0)))
    buddy_owned buddy_can_free.
Proof.
  split.
  - intros a d S (F & [HR _ _] & _). apply HR.
  - intros a d S S' (F & HI & HS) E. exists F. split; [done|]. intros x. by rewrite E.
  - intros a d d' S (F & [HR HB HC] & HS) Hl. exists F. split; [|done].
    pose proof (same_links_rep _ _ _ HR Hl). split; [done| |done].
    unfold BuddyProof.nr_pages in *; cbn [pds] in *. rewrite (sl_pages _ _ Hl). exact HB.
  - intros a d -> Hwf Hn. destruct (init_spec d Hwf Hn) as ([a' d'] & F & E & Hf & HI & HS).
    exists a', d'. unfold alg_init, buddy_algorithm. unfold BuddyPageAllocator_new in E at 1.
    cbn [_free_areas BuddyPageAllocator_new]. rewrite E. split; [done|].
    split; [apply (frame_same_types _ _ Hf)|]. by exists F.
  - intros a d S x (F & HI & HS) Hx. destruct (reserve_page_spec _ F x HI)
      as [(_ & [a' d'] & F' & E & Hf & HI' & HS')|[Hn _]]; [|by rewrite HS in Hn].
    exists a', d'. unfold alg_reserve_page, buddy_algorithm. rewrite E. split; [done|].
    split; [apply (frame_same_types _ _ Hf)|]. exists F'. split; [done|]. intros y. by rewrite HS', HS.
  - intros a d S order (F & HI & HS) Ho.
    unfold alg_alloc_pages, buddy_algorithm. destruct (alloc_pages_spec _ F order HI Ho)
      as [(k & p & [a' d'] & F' & (Hk & Hh & _) & E & Hf & HI' & Hin & HS')|[E Hnil]].
    + left. exists p, a', d'. rewrite E. split; [done|]. split; [apply (frame_same_types _ _ Hf)|].
      assert (p ∈ F k) as Hp by (destruct (F k); [done|]; injection Hh as ->; left).
      split; [apply (bo_bounds _ _ (inv_blocks _ _ HI) _ _ Hp)|].
      split; [eapply Z.divide_trans; [apply (pow2_divide order k); lia|apply (bo_aligned _ _ (inv_blocks _ _ HI) _ _ Hp)]|].
      split; [intros x Hx; apply HS, Hin, Hx|]. exists F'. split; [done|]. intros x. by rewrite HS', HS.
    + right. rewrite E. split; [done|]. intros p Ho16 Ha Hall.
      destruct (coalesced_cover _ F (conj (inv_blocks _ _ HI) (inv_coalesced _ _ HI)) order
        ltac:(lia) p Ha) as (k & q & Hk & Hq & _).
      { intros x Hx. apply HS, Hall, Hx. }
      rewrite Hnil in Hq by done. by apply elem_of_nil in Hq.
  - intros a d S p order (F & HI & HS) (Ho & Ha & Hp & HN) Hno.
    destruct (free_pages_spec _ F p order HI Ho Ha Hp HN) as ([a' d'] & F' & E & Hf & HI' & HS').
    { intros x Hx. rewrite HS. by apply Hno. }
    exists a', d'. unfold alg_free_pages, buddy_algorithm. rewrite E. split; [done|].
    split; [apply (frame_same_types _ _ Hf)|]. exists F'. split; [done|]. intros x. by rewrite HS', HS.
Qed.

(** ** Types of pages *)
Definition type_at (d : PageDescriptors) (x : Z) : option PageDescriptorType := type <$> cells d !! x.

Lemma load_type d x t : type_at d x = Some t -> exists pd, load d x = Ok pd /\ type pd = t.
Proof.
  unfold type_at, load. destruct (cells d !! x) as [pd|]; cbn; [|done]. intros [= <-]. eauto.
Qed.

Lemma store_type_spec d x t t0 : type_at d x = Some t0 ->
  exists d', store_type d x t = Ok d' /\ same_links d d' /\ type_at d' x = Some t /\
    forall y, y <> x -> type_at d' y = type_at d y.
Proof.
  intros Ht. destruct (load_type d x t0 Ht) as (pd & Hl & _).
  unfold store_type. rewrite Hl. cbn [mbind outcome_bind]. eexists. split; [done|].
  unfold load in Hl. destruct (cells d !! x) as [pd'|] eqn:E; [|done]. injection Hl as ->.
  unfold type_at. cbn. split; [split; [done..|]|split].
  - intros q. cbn. destruct (decide (x = q)) as [<-|]; [by rewrite lookup_insert_eq, E|].
    by rewrite lookup_insert_ne.
  - by rewrite lookup_insert_eq.
  - intros y Hy. by rewrite lookup_insert_ne.
Qed.

(** [retype] on pages that all have the expected type. *)
Lemma retype_spec n d p from to :
  (forall x, p <= x < p + Z.of_nat n -> type_at d x = Some from) ->
  exists d', retype n d (Some p) from to = Ok d' /\ same_links d d' /\
    (forall x, p <= x < p + Z.of_nat n -> type_at d' x = Some to) /\
    (forall x, ~ (p <= x < p + Z.of_nat n) -> type_at d' x = type_at d x).
Proof.
  revert d p. induction n as [|n IH]; intros d p Hall; cbn [retype].
  { exists d. split_and!; [done|done|intros; lia|done]. }
  destruct (load_type d p from) as (pd & Hl & Ht); [apply Hall; lia|].
  destruct (store_type_spec d p to from) as (d1 & E1 & Hl1 & Hp1 & Ho1); [apply Hall; lia|].
  cbn [deref mbind outcome_bind]. rewrite Hl. cbn [mbind outcome_bind].
  rewrite bool_decide_true by done. cbn [assert_ mbind outcome_bind]. rewrite E1. cbn [mbind outcome_bind].
  destruct (IH d1 (p + 1)) as (d' & E & Hl' & Hin & Hout).
  { intros x Hx. rewrite Ho1 by lia. apply Hall. lia. }
  exists d'. split; [done|]. split; [by etrans|]. split.
  - intros x Hx. destruct (decide (x = p)) as [->|]; [|apply Hin; lia].
    rewrite Hout by lia. done.
  - intros x Hx. rewrite Hout by lia. apply Ho1. lia.
Qed.

Section client.
Context {A : Type} `{PageAllocatorAlgorithmLaws A fresh_state owned can_free}.
Implicit Types (p : PageAllocator A).

(** The available pages of the array are exactly the algorithm's. *)
Definition available (d : PageDescriptors) (x : Z) : Prop := type_at d x = Some AVAILABLE.

Record pa_inv p : Prop := {
  pi_alg : exists a, _allocator_algorithm p = Some a /\ owned a (descriptors p) (available (descriptors p));
  pi_unlocked : _mtx p = false
}.

Lemma same_types_at d d' x : same_types d d' -> type_at d' x = type_at d x.
Proof. intros [_ Ht]. apply Ht. Qed.

Lemma block_pages order : 0 <= order <= 16 ->
  Z.of_nat (Z.to_nat (u32 (Z.shiftl 1 order))) = 2 ^ order.
Proof.
  intros Ho. rewrite Z.shiftl_mul_pow2, Z.mul_1_l by lia.
  assert (0 < 2 ^ order) by (apply Z.pow_pos_nonneg; lia).
  assert (2 ^ order <= 2 ^ 16) by (apply Z.pow_le_mono_r; lia).
  rewrite wrap_small by lia. apply Z2Nat.id. lia.
Qed.

Lemma pa_alloc_spec p order :
  pa_inv p -> 0 <= order <= 16 ->
  (exists pgd p', alloc_pages p order = Ok (Some pgd, p') /\ pa_inv p' /\
     (forall x, block pgd order x -> type_at (descriptors p) x = Some AVAILABLE /\
        type_at (descriptors p') x = Some ALLOCATED) /\
     (forall x, ~ block pgd order x -> type_at (descriptors p') x = type_at (descriptors p) x)) \/
  (alloc_pages p order = Fault NullDereference /\
   forall q, (2 ^ order | q) -> ~ (forall x, block q order x -> available (descriptors p) x)).
Proof.
  intros [(a & Ea & Ho) Hm] Hord. unfold alloc_pages. rewrite Ea. unfold lock. rewrite Hm.
  cbn [mbind outcome_bind]. change (descriptors (set_mtx p true)) with (descriptors p).
  destruct (law_alloc a (descriptors p) _ order Ho ltac:(lia))
    as [(pgd & a' & d' & E & Ht & Hge & _ & Hin & Ho')|[E Hno]]; rewrite E; cbn [mbind outcome_bind].
  - left. pose proof (block_pages order Hord) as Hn.
    destruct (retype_spec (Z.to_nat (u32 (Z.shiftl 1 order))) d' pgd AVAILABLE ALLOCATED)
      as (d2 & E2 & Hl2 & Hin2 & Hout2).
    { intros x Hx. rewrite (same_types_at _ _ _ Ht). apply Hin. unfold block. lia. }
    rewrite E2. cbn [mbind outcome_bind]. eexists _, _. split; [done|].
    split; [|split; [intros x Hx; split|intros x Hx]]; cbn [descriptors set_algorithm unlock set_mtx].
    + split; [|done]. exists a'. split; [done|]. cbn [descriptors set_algorithm unlock set_mtx].
      eapply law_ext; [eapply law_retype; [exact Ho'|exact Hl2]|].
      intros x. unfold available. destruct (decide (pgd <= x < pgd + 2 ^ order)) as [Hx|Hx].
      * rewrite Hin2 by lia. unfold block. split; [done|tauto].
      * rewrite Hout2 by lia. rewrite (same_types_at _ _ _ Ht). unfold block. tauto.
    + by apply Hin.
    + apply Hin2. unfold block in Hx. lia.
    + rewrite Hout2; [|unfold block in Hx; lia]. by apply same_types_at.
  - right. split; [|intros q Hq; apply Hno; [lia|done]].
    pose proof (block_pages order Hord) as Hn.
    assert (0 < 2 ^ order) by (apply Z.pow_pos_nonneg; lia).
    destruct (Z.to_nat (u32 (Z.shiftl 1 order))); [lia|]. done.
Qed.

Lemma pa_free_spec p pgd order :
  pa_inv p -> 0 <= order <= 16 -> can_free (descriptors p) pgd order ->
  (forall x, block pgd order x -> type_at (descriptors p) x = Some ALLOCATED) ->
  exists p', free_pages p pgd order = Ok p' /\ pa_inv p' /\
    (forall x, block pgd order x -> type_at (descriptors p') x = Some AVAILABLE) /\
    (forall x, ~ block pgd order x -> type_at (descriptors p') x = type_at (descriptors p) x).
Proof.
  intros [(a & Ea & Ho) Hm] Hord Hcf Hall. unfold free_pages. rewrite Ea. unfold lock. rewrite Hm.
  cbn [mbind outcome_bind]. change (descriptors (set_mtx p true)) with (descriptors p).
  destruct (law_free a (descriptors p) _ pgd order Ho Hcf) as (a' & d' & E & Ht & Ho').
  { intros x Hx. unfold available. by rewrite Hall. }
  rewrite E. cbn [mbind outcome_bind]. pose proof (block_pages order Hord) as Hn.
  destruct (retype_spec (Z.to_nat (u32 (Z.shiftl 1 order))) d' pgd ALLOCATED AVAILABLE)
    as (d2 & E2 & Hl2 & Hin2 & Hout2).
  { intros x Hx. rewrite (same_types_at _ _ _ Ht). apply Hall. unfold block. lia. }
  rewrite E2. cbn [mbind outcome_bind]. eexists. split; [done|].
  split; [|split; intros x Hx]; cbn [descriptors set_algorithm unlock set_mtx].
  - split; [|done]. exists a'. split; [done|]. cbn [descriptors set_algorithm unlock set_mtx].
    eapply law_ext; [eapply law_retype; [exact Ho'|exact Hl2]|].
    intros x. unfold available. destruct (decide (pgd <= x < pgd + 2 ^ order)) as [Hx|Hx].
    + rewrite Hin2 by lia. unfold block. tauto.
    + rewrite Hout2 by lia. rewrite (same_types_at _ _ _ Ht). unfold block. tauto.
  - apply Hin2. unfold block in Hx. lia.
  - rewrite Hout2; [|unfold block in Hx; lia]. by apply same_types_at.
Qed.

(** The reservation loop leaves the algorithm with the available pages. *)
Lemma reserve_loop_spec n a d pgd :
  owned a d (fun x => 0 <= x < _nr_pages d /\ (pgd <= x \/ available d x)) ->
  0 <= pgd -> pgd + Z.of_nat n = _nr_pages d ->
  exists a' d', reserve_loop n a d pgd = Ok (true, a', d') /\ same_types d d' /\
    owned a' d' (available d').
Proof.
  revert a d pgd. induction n as [|n IH]; intros a d pgd Ho Hp Hn; cbn [reserve_loop].
  { exists a, d. do 2 (split; [done|]). eapply law_ext; [exact Ho|]. intros x. cbn beta.
    pose proof (law_wf _ _ _ Ho) as [_ HC]. unfold available, type_at. split; [|intros [? [?|?]]; [lia|done]].
    intros Hx. split; [|by right]. apply HC. destruct (cells d !! x); [eauto|done]. }
  pose proof (law_wf _ _ _ Ho) as [HN HC].
  destruct (proj2 (HC pgd) ltac:(lia)) as [pd Hpd].
  unfold load. rewrite Hpd. cbn [in_bounds mbind outcome_bind].
  destruct (decide (type pd = AVAILABLE)) as [Hav|Hav].
  - rewrite bool_decide_false by tauto. apply IH; [|lia|lia].
    eapply law_ext; [exact Ho|]. intros x. cbn beta. split; intros [Hx Hor]; split; try done.
    + destruct Hor; [left; lia|by right].
    + destruct Hor as [?|?]; [|by right].
      destruct (decide (x = pgd)) as [->|]; [right|left; lia].
      unfold available, type_at. by rewrite Hpd, <- Hav.
  - rewrite bool_decide_true by done.
    destruct (law_reserve a d _ pgd Ho) as (a1 & d1 & E1 & Ht1 & Ho1); [split; [lia|left; lia]|].
    rewrite E1. cbn [mbind outcome_bind].
    destruct (IH a1 d1 (pgd + 1)) as (a' & d' & E & Ht & Ho'); [|lia|rewrite (st_pages _ _ Ht1); lia|].
    + eapply law_ext; [exact Ho1|]. intros x. cbn beta. rewrite (st_pages _ _ Ht1).
      unfold available. rewrite (same_types_at _ _ x Ht1). split.
      * intros [Hx Hor]. split.
        -- split; [done|]. destruct Hor; [left; lia|by right].
        -- intros ->. destruct Hor as [?|Hor]; [lia|]. unfold type_at in Hor.
           rewrite Hpd in Hor. injection Hor as Hor. done.
      * intros [[Hx Hor] Hne]. split; [done|]. destruct Hor; [left; lia|by right].
    + exists a', d'. split; [done|]. split; [by etrans|done].
Qed.
End client.
Arguments pa_inv {A} owned p.
