(* ===== verification/PageAllocatorTheorems.v ===== *)
(** * What infos/mm/page-allocator.cpp, simple-page-alloc.cpp and the memory
      map guarantee

    The start-up of the page allocator over a described machine, allocation
    and release with any algorithm that keeps the laws, the first-fit
    algorithm, and the lookup in the physical memory map. *)
From S2P Require Import Prelude Define PageDesc Buddy BuddyRep BuddyProof PageAllocator PageAllocatorProof.

(** ** The initial marking *)

(** [x] is one of the [n] pages from [start] on. *)
Definition in_run (start n x : Z) : bool := (start <=? x) && (x <? start + n).

Lemma in_run_true start n x : in_run start n x = true <-> start <= x < start + n.
Proof. unfold in_run. lia. Qed.

Lemma mark_pages_spec n d t pfn :
  (forall x, pfn <= x < pfn + Z.of_nat n -> is_Some (type_at d x)) ->
  exists d', mark_pages n d t pfn = Ok d' /\ same_links d d' /\
    forall x, type_at d' x = if in_run pfn (Z.of_nat n) x then Some t else type_at d x.
Proof.
  revert d pfn. induction n as [|n IH]; intros d pfn Hall; cbn [mark_pages].
  { exists d. do 2 (split; [done|]). intros x. destruct (in_run pfn _ x) eqn:E; [|done].
    apply in_run_true in E. lia. }
  destruct (Hall pfn ltac:(lia)) as [t0 H0].
  destruct (store_type_spec d pfn t t0 H0) as (d1 & E1 & Hl1 & Hp1 & Ho1). step_to E1.
  assert (forall x, is_Some (type_at d x) -> is_Some (type_at d1 x)) as Hsome.
  { intros x Hx. destruct (decide (x = pfn)) as [->|]; [by rewrite Hp1|by rewrite Ho1]. }
  destruct (IH d1 (pfn + 1)) as (d' & E & Hl & Ht).
  { intros x Hx. apply Hsome, Hall. lia. }
  exists d'. split; [done|]. split; [by etrans|]. intros x. rewrite Ht.
  destruct (decide (x = pfn)) as [->|Hne].
  - rewrite Hp1, (proj2 (in_run_true pfn _ pfn)) by lia. by destruct (in_run _ _ _).
  - rewrite Ho1 by done. replace (in_run (pfn + 1) (Z.of_nat n) x) with (in_run pfn (Z.of_nat (S n)) x); [done|].
    apply Bool.eq_true_iff_eq. rewrite !in_run_true. lia.
Qed.

(** The pages of the descriptor array. *)
Definition mapped (d : PageDescriptors) (N : Z) : Prop :=
  forall x, 0 <= x < N -> is_Some (type_at d x).

Lemma mapped_update d d' N (f : Z -> bool) t : mapped d N ->
  (forall x, type_at d' x = if f x then Some t else type_at d x) -> mapped d' N.
Proof. intros Hm E x Hx. rewrite E. destruct (f x); [eauto|by apply Hm]. Qed.

Lemma mark_page_range_spec d N t start n :
  mapped d N -> 0 <= n < 2 ^ 32 -> 0 <= start -> start + n <= N ->
  exists d', mark_page_range d t start n = Ok (n, d') /\ same_links d d' /\ mapped d' N /\
    forall x, type_at d' x = if in_run start n x then Some t else type_at d x.
Proof.
  intros Hm Hn Hs HN. unfold mark_page_range. rewrite wrap_small by done.
  destruct (mark_pages_spec (Z.to_nat n) d t start) as (d' & E & Hl & Ht).
  { intros x Hx. apply Hm. lia. }
  rewrite Z2Nat.id in Ht by lia. step_to E. exists d'. split_and!; try done. by eapply mapped_update.
Qed.

(** The page lies in a block of normal memory. *)
Definition present (blocks : list PhysicalMemoryBlock) (x : Z) : bool :=
  existsb (fun b => bool_decide (pmb_type b = NORMAL) && in_run (base_pfn b) (nr_pages b) x) blocks.

Lemma present_cons b blocks x : present (b :: blocks) x =
  bool_decide (pmb_type b = NORMAL) && in_run (base_pfn b) (nr_pages b) x || present blocks x.
Proof. done. Qed.

Definition block_fits (N : Z) (b : PhysicalMemoryBlock) : Prop :=
  pmb_type b = NORMAL -> 0 <= base_pfn b /\ 0 <= nr_pages b /\ base_pfn b + nr_pages b <= N.

Lemma mark_present_spec blocks d N n :
  mapped d N -> Forall (block_fits N) blocks ->
  exists n' d', mark_present blocks d n = Ok (n', d') /\ same_links d d' /\ mapped d' N /\
    forall x, type_at d' x = if present blocks x then Some AVAILABLE else type_at d x.
Proof.
  intros Hm Hb. revert d n Hm. induction Hb as [|b blocks Hf Hb IH]; intros d n Hm; cbn [mark_present].
  { by exists n, d. }
  destruct (decide (pmb_type b = NORMAL)) as [Hn|Hn].
  - rewrite bool_decide_true by done. destruct (Hf Hn) as (H0 & H1 & H2).
    destruct (mark_pages_spec (Z.to_nat (nr_pages b)) d AVAILABLE (base_pfn b)) as (d1 & E1 & Hl1 & Ht1).
    { intros x Hx. apply Hm. lia. }
    rewrite Z2Nat.id in Ht1 by lia. step_to E1.
    destruct (IH d1 (u64 (n + nr_pages b))) as (n' & d' & E & Hl & Hm' & Ht); [by eapply mapped_update|].
    exists n', d'. split; [done|]. split; [by etrans|]. split; [done|]. intros x. rewrite Ht, Ht1, present_cons.
    rewrite bool_decide_true by done. cbn [andb]. by destruct (in_run _ _ x), (present blocks x).
  - rewrite bool_decide_false by done. destruct (IH d n Hm) as (n' & d' & E & Hl & Hm' & Ht).
    exists n', d'. split_and!; try done. intros x. by rewrite Ht, present_cons, bool_decide_false.
Qed.

(** ** A machine the kernel can start on *)
Definition kva (va : Z) : Z := u64 (va - KERNEL_VMEM_START).
Definition heap_pages (N : Z) : Z := Z.shiftr (u64 (N * sizeof_PageDescriptor)) 12 + 1.

(** First and number of pages of the section between two physical addresses. *)
Definition section_start (pa : Z) : Z := pa_to_pfn pa.
Definition section_pages (pa pa' : Z) : Z := u64 (pa_to_pfn pa' - pa_to_pfn pa + 1).

Definition run_fits (N start n : Z) : Prop := 0 <= n < 2 ^ 32 /\ 0 <= start /\ start + n <= N.

Record machine_ok (mm : MemoryManager) (im : Image) (N : Z) : Prop := {
  mo_last : _last_pfn mm + 1 = N;
  mo_range : 7 <= N < 2 ^ 40;
  mo_blocks : Forall (block_fits N) (_phys_mem_blocks mm);
  mo_heap : is_Some (lookup_phys_block mm (kva (HEAP_START im)));
  mo_kva : Forall (fun va => KERNEL_VMEM_START <= va <= KERNEL_VMEM_END)
             [STACK_START im; STACK_END im; HEAP_START im];
  mo_image_run : run_fits N (section_start (IMAGE_START im)) (section_pages (IMAGE_START im) (IMAGE_END im));
  mo_stack_run : run_fits N (section_start (kva (STACK_START im)))
                   (section_pages (kva (STACK_START im)) (kva (STACK_END im)));
  mo_heap_run : run_fits N (section_start (kva (HEAP_START im))) (heap_pages N)
}.

(** The type each page has after start-up. *)
Definition initial_type (mm : MemoryManager) (im : Image) (N x : Z) : PageDescriptorType :=
  if in_run (section_start (kva (HEAP_START im))) (heap_pages N) x then RESERVED
  else if in_run (section_start (kva (STACK_START im)))
            (section_pages (kva (STACK_START im)) (kva (STACK_END im))) x then RESERVED
  else if in_run (section_start (IMAGE_START im)) (section_pages (IMAGE_START im) (IMAGE_END im)) x
  then RESERVED
  else if in_run 1 6 x then ALLOCATED
  else if in_run 0 1 x then RESERVED
  else if present (_phys_mem_blocks mm) x then AVAILABLE else INVALID.

Lemma kva_to_pa_Ok va : KERNEL_VMEM_START <= va <= KERNEL_VMEM_END -> kva_to_pa va = Ok (kva va).
Proof. intros H. unfold kva_to_pa. by rewrite (proj2 (Z.leb_le _ _)), (proj2 (Z.leb_le _ _)) by lia. Qed.

Lemma zeroed_lookup n base i : cells (zeroed n base) !! i =
  if decide (0 <= i < n) then Some {| next_free := None; type := INVALID |} else None.
Proof.
  unfold zeroed. cbn [cells]. destruct (decide (0 <= i < n)) as [Hi|Hi].
  - apply elem_of_list_to_map.
    + rewrite <- list_fmap_compose. cbn. rewrite list_fmap_id. apply NoDup_seqZ.
    + apply list_elem_of_fmap. exists i. split; [done|]. apply elem_of_seqZ. lia.
  - apply not_elem_of_list_to_map. rewrite <- list_fmap_compose. cbn. rewrite list_fmap_id.
    rewrite elem_of_seqZ. lia.
Qed.

Lemma zeroed_mapped n base : mapped (zeroed n base) n.
Proof. intros x Hx. unfold type_at. rewrite zeroed_lookup, decide_True by lia. cbn. eauto. Qed.

Lemma zeroed_wf n base : 0 <= n < 2 ^ 40 -> wf_pds (zeroed n base).
Proof.
  intros Hn. split; [done|]. intros i. rewrite zeroed_lookup. cbn [_nr_pages zeroed].
  destruct (decide (0 <= i < n)); split; [done|eauto| |done]. by intros [].
Qed.

(** Rewrite the next call of [mark_page_range] with its specification. *)
Ltac mark_step Hm d Hl Hm' Ht :=
  let E := fresh "E" in
  match goal with
  | |- context [mark_page_range ?d0 ?t ?s ?n] =>
      destruct (mark_page_range_spec d0 _ t s n Hm) as (d & E & Hl & Hm' & Ht);
        [try lia..|step_to E]
  end.

Lemma mark_initial_spec mm im N base : machine_ok mm im N ->
  exists n d, mark_initial (zeroed N base) mm im = Ok (n, d) /\ same_links (zeroed N base) d /\
    forall x, 0 <= x < N -> type_at d x = Some (initial_type mm im N x).
Proof.
  intros [HN Hr Hb _ Hk Hi Hs Hh]. unfold mark_initial, run_fits, section_start, section_pages in *.
  apply Forall_cons in Hk as [Hk1 Hk]. apply Forall_cons in Hk as [Hk2 Hk].
  apply Forall_cons in Hk as [Hk3 _].
  destruct (mark_present_spec (_phys_mem_blocks mm) (zeroed N base) N 0 (zeroed_mapped N base) Hb)
    as (n0 & d0 & E0 & Hl0 & Hm0 & Ht0). step_to E0.
  mark_step Hm0 d1 Hl1 Hm1 Ht1. mark_step Hm1 d2 Hl2 Hm2 Ht2. mark_step Hm2 d3 Hl3 Hm3 Ht3.
  rewrite !kva_to_pa_Ok by done. cbn [mbind outcome_bind].
  mark_step Hm3 d4 Hl4 Hm4 Ht4.
  assert (_nr_pages d4 = N) as ->.
  { rewrite (sl_pages _ _ Hl4), (sl_pages _ _ Hl3), (sl_pages _ _ Hl2), (sl_pages _ _ Hl1),
      (sl_pages _ _ Hl0). done. }
  fold (heap_pages N). mark_step Hm4 d5 Hl5 Hm5 Ht5.
  eexists _, d5. split; [done|]. split; [repeat (etrans; [eassumption|]); done|].
  intros x Hx. rewrite Ht5, Ht4, Ht3, Ht2, Ht1, Ht0. unfold initial_type, section_start, section_pages.
  repeat case_match; try done. unfold type_at. by rewrite zeroed_lookup, decide_True.
Qed.

(** ** Start-up, allocation and release with any algorithm *)
Section client.
Context {A : Type} `{PageAllocatorAlgorithmLaws A fresh_state owned can_free}.
Implicit Types (p : PageAllocator A).

(** *** The self-test

    Between its calls the algorithm holds every page of the array but those of
    the blocks [L] that the test has taken. *)
Definition block_range (b : Z * Z) : list Z := seqZ b.1 (2 ^ b.2).

(** A block of at most four pages in its natural place in the array. *)
Definition test_block (N : Z) (b : Z * Z) : Prop :=
  0 <= b.2 <= 2 /\ (2 ^ b.2 | b.1) /\ 0 <= b.1 /\ b.1 + 2 ^ b.2 <= N.

(** The algorithm takes back small blocks anywhere in an array of [N] pages. *)
Definition frees_anywhere (N : Z) : Prop :=
  forall d b, _nr_pages d = N -> test_block N b -> can_free d b.1 b.2.

Record owns_but (d0 : PageDescriptors) (s : A * PageDescriptors) (L : list (Z * Z)) : Prop := {
  ob_types : same_types d0 s.2;
  ob_blocks : Forall (test_block (_nr_pages d0)) L;
  ob_disjoint : NoDup (L ≫= block_range);
  ob_owned : owned s.1 s.2 (fun x => 0 <= x < _nr_pages d0 /\ x ∉ L ≫= block_range)
}.

Lemma elem_of_block_range b x : x ∈ block_range b <-> block b.1 b.2 x.
Proof. unfold block_range, block. by rewrite elem_of_seqZ. Qed.

(** Some group of four pages holds no page of few small blocks. *)
Lemma free_quad L N : Forall (test_block N) L ->
  exists q, 0 <= q <= Z.of_nat (length L) /\ forall x, 4 * q <= x < 4 * q + 4 -> x ∉ L ≫= block_range.
Proof.
  intros HL. destruct (decide (Forall (fun q => q ∈ (fun b => b.1 / 4) <$> L) (seqZ 0 (Z.of_nat (length L) + 1))))
    as [Hall|Hex%not_Forall_Exists%Exists_exists]; [| |apply _].
  - exfalso. assert (seqZ 0 (Z.of_nat (length L) + 1) ⊆+ (fun b => b.1 / 4) <$> L) as Hs%submseteq_length.
    { apply NoDup_submseteq; [apply NoDup_seqZ|]. intros x Hx. by rewrite Forall_forall in Hall; apply Hall. }
    rewrite length_seqZ, length_fmap in Hs. lia.
  - destruct Hex as (q & Hq%elem_of_seqZ & Hno). exists q. split; [lia|].
    intros x Hx (b & Hb & Hin)%list_elem_of_bind. apply Hno, list_elem_of_fmap. exists b. split; [|done].
    rewrite Forall_forall in HL. destruct (HL _ Hin) as (Ho & [k Hk] & Hge & _).
    apply elem_of_block_range in Hb. unfold block in Hb.
    assert (b.2 = 0 \/ b.2 = 1 \/ b.2 = 2) as [E|[E|E]] by lia; rewrite E in *;
      apply (Z.div_unique _ 4 _ (b.1 - 4 * q)); lia.
Qed.

Lemma test_alloc_spec d0 s L order : owns_but d0 s L -> 0 <= order <= 2 ->
  4 * Z.of_nat (length L) + 4 <= _nr_pages d0 ->
  exists (pgd : Z) s', alg_alloc_pages s.1 s.2 order = Ok (Some pgd, s'.1, s'.2) /\
    test_alloc s order = Ok (pgd, s') /\ owns_but d0 s' ((pgd, order) :: L).
Proof.
  intros [Ht Hb Hd Ho] Hord HN. destruct (free_quad L _ Hb) as (q & Hq & Hfree).
  destruct (law_alloc s.1 s.2 _ order Ho ltac:(lia)) as [(pgd & a' & d' & E & Ht' & Hge & Ha & Hin & Ho')|[_ Hno]].
  - exists pgd, (a', d'). split; [done|]. split; [unfold test_alloc; by step_to E|]. split; cbn [fst snd].
    + by etrans.
    + constructor; [|done]. split_and!; cbn [fst snd]; try done; try lia.
      assert (0 < 2 ^ order) by (apply Z.pow_pos_nonneg; lia).
      destruct (Hin (pgd + 2 ^ order - 1)) as [Hx _]; [unfold block; lia|lia].
    + cbn [mbind list_bind]. apply NoDup_app. split_and!; [apply NoDup_seqZ| |done].
      intros x Hx%elem_of_block_range. by apply Hin.
    + eapply law_ext; [exact Ho'|]. intros x. cbn [mbind list_bind].
      rewrite elem_of_app, elem_of_block_range. cbn [fst snd]. tauto.
  - exfalso. apply (Hno (4 * q) ltac:(lia)).
    + eapply Z.divide_trans; [apply (pow2_divide order 2); lia|]. exists q. lia.
    + intros x Hx. unfold block in Hx. assert (2 ^ order <= 2 ^ 2) by (apply Z.pow_le_mono_r; lia).
      split; [lia|]. apply Hfree. lia.
Qed.

Lemma delete_block L i b : L !! i = Some b ->
  L ≫= block_range ≡ₚ block_range b ++ (delete i L ≫= block_range).
Proof. intros Hi. apply (bind_Permutation block_range L (b :: delete i L)). by apply delete_Permutation. Qed.

Lemma test_free_spec d0 s L i b : frees_anywhere (_nr_pages d0) -> owns_but d0 s L -> L !! i = Some b ->
  exists s', test_free s b.1 b.2 = Ok s' /\ owns_but d0 s' (delete i L).
Proof.
  intros Hfr [Ht Hb Hd Ho] Hi. pose proof (delete_block _ _ _ Hi) as HP.
  assert (forall x, x ∈ L ≫= block_range <-> block b.1 b.2 x \/ x ∈ delete i L ≫= block_range) as HPx.
  { intros x. rewrite <- elem_of_block_range, <- elem_of_app. by apply elem_of_Permutation_proper. }
  rewrite HP in Hd. rewrite (delete_Permutation _ _ _ Hi) in Hb. apply Forall_cons in Hb as [Hb HbL].
  apply NoDup_app in Hd as (_ & Hdis & Hd).
  destruct (law_free s.1 s.2 _ b.1 b.2 Ho) as (a' & d' & E & Ht' & Ho').
  { apply Hfr; [|done]. by rewrite (st_pages _ _ Ht). }
  { intros x Hx [_ Hno]. apply Hno, HPx. by left. }
  exists (a', d'). split; [done|]. split; cbn [fst snd]; [by etrans|done|done|].
  eapply law_ext; [exact Ho'|]. intros x. cbn beta. rewrite HPx.
  specialize (Hdis x). rewrite elem_of_block_range in Hdis. destruct Hb as (_ & _ & Hge & HN).
  destruct (decide (block b.1 b.2 x)) as [Hx|Hx]; [|tauto]. unfold block in *. split; [intros _; by right|].
  intros _. split; [lia|by apply Hdis].
Qed.

Lemma test_reserve_spec d0 s L x : owns_but d0 s L -> 0 <= x < _nr_pages d0 -> x ∉ L ≫= block_range ->
  exists s', test_reserve s x = Ok s' /\ owns_but d0 s' ((x, 0) :: L).
Proof.
  intros [Ht Hb Hd Ho] Hx Hno. unfold test_reserve.
  rewrite pfn_to_pgd_lt by (rewrite (st_pages _ _ Ht); lia). cbn [deref mbind outcome_bind].
  destruct (law_reserve s.1 s.2 _ x Ho) as (a' & d' & E & Ht' & Ho'); [done|]. step_to E.
  cbn [assert_ mbind outcome_bind]. exists (a', d'). split; [done|]. split; cbn [fst snd].
  - by etrans.
  - constructor; [|done]. split_and!; cbn [fst snd]; [lia..|apply Z.divide_1_l|lia|]. change (2 ^ 0) with 1. lia.
  - cbn [mbind list_bind]. apply NoDup_app. split_and!; [apply NoDup_seqZ| |done].
    intros y Hy%elem_of_block_range. unfold block in Hy. cbn [fst snd] in Hy.
    change (2 ^ 0) with 1 in Hy. by replace y with x by lia.
  - eapply law_ext; [exact Ho'|]. intros y. cbn [mbind list_bind].
    rewrite elem_of_app, elem_of_block_range. unfold block. cbn [fst snd]. change (2 ^ 0) with 1.
    assert (x <= y < x + 1 <-> y = x) as -> by lia. tauto.
Qed.

(** The steps of the test, each with the blocks that are out after it. *)
Ltac take o pgd s Ho :=
  match goal with Ho0 : owns_but _ ?s0 _ |- _ =>
    let E0 := fresh "E" in let E := fresh "E" in
    destruct (test_alloc_spec _ s0 _ o Ho0) as (pgd & s & E0 & E & Ho);
      [lia|cbn [length]; lia|]; step_to E; clear E0 E; clear Ho0
  end.
Ltac give i s Ho :=
  match goal with Ho0 : owns_but _ ?s0 _, Hfr : frees_anywhere _ |- _ =>
    let E := fresh "E" in
    destruct (test_free_spec _ s0 _ i _ Hfr Ho0 eq_refl) as (s & E & Ho); cbn [fst snd] in E;
      cbn [delete list_delete] in Ho; step_to E; clear E; clear Ho0
  end.
Ltac hold x s Ho :=
  match goal with Ho0 : owns_but _ ?s0 _ |- _ =>
    let E := fresh "E" in
    destruct (test_reserve_spec _ s0 _ x Ho0) as (s & E & Ho); [lia| |step_to E; clear E; clear Ho0]
  end.

(** With at least [0x150] pages the self-test passes and leaves the algorithm
    with all of them. *)
Lemma self_test_spec a d :
  owned a d (fun x => 0 <= x < _nr_pages d) -> 0x150 <= _nr_pages d -> frees_anywhere (_nr_pages d) ->
  exists a' d', self_test a d = Ok (true, a', d') /\ same_types d d' /\
    owned a' d' (fun x => 0 <= x < _nr_pages d).
Proof.
  intros Ho HN Hfr.
  assert (owns_but d (a, d) []) as Hob.
  { split; [done|constructor|constructor|]. eapply law_ext; [exact Ho|]. intros x. cbn.
    rewrite elem_of_nil. tauto. }
  unfold self_test.
  destruct (test_alloc_spec _ _ _ 0 Hob) as (p & [a1 d1] & E & _ & Hob1); [lia|cbn [length]; lia|].
  cbn [fst snd] in E. step_to E. clear E Hob.
  give 0%nat s2 Ho2. take 1 p3 s3 Ho3. give 0%nat s4 Ho4.
  take 0 p5 s5 Ho5. take 1 p6 s6 Ho6. give 1%nat s7 Ho7. take 0 p8 s8 Ho8. give 1%nat s9 Ho9. give 0%nat s10 Ho10.
  take 0 q0 t0 Ht0. take 0 q1 t1 Ht1. take 0 q2 t2 Ht2. take 2 q3 t3 Ht3.
  take 0 q4 t4 Ht4. take 0 q5 t5 Ht5. take 0 q6 t6 Ht6. take 0 q7 t7 Ht7.
  give 2%nat u5 Hu5. give 3%nat u3 Hu3. give 1%nat u6 Hu6. give 0%nat u7 Hu7.
  give 1%nat u2 Hu2. give 1%nat u1 Hu1. give 1%nat u0 Hu0. give 0%nat u4 Hu4.
  hold 0x14e r1 Hr1; [apply not_elem_of_nil|].
  hold 0x14f r2 Hr2; [apply not_elem_of_cons; split; [done|apply not_elem_of_nil]|].
  rewrite pfn_to_pgd_lt by (rewrite (st_pages _ _ (ob_types _ _ _ Hr2)); lia). cbn [deref mbind outcome_bind].
  give 0%nat r3 Hr3.
  rewrite pfn_to_pgd_lt by (rewrite (st_pages _ _ (ob_types _ _ _ Hr3)); lia). cbn [deref mbind outcome_bind].
  give 0%nat r4 Hr4.
  exists r4.1, r4.2. split; [done|]. destruct Hr4 as [Ht _ _ Hor]. split; [exact Ht|].
  eapply law_ext; [exact Hor|]. intros x. cbn. rewrite elem_of_nil. tauto.
Qed.

(** What init does for the option of the command line. *)
Lemma self_test_branch a d (do_self_test : bool) :
  owned a d (fun x => 0 <= x < _nr_pages d) ->
  (do_self_test = true -> 0x150 <= _nr_pages d /\ frees_anywhere (_nr_pages d)) ->
  exists a' d', (if do_self_test then
      '(ok, a, d) ← self_test a d; if ok : bool then Ok (a, d) else Fault Aborted
    else Ok (a, d)) = Ok (a', d') /\ same_types d d' /\ owned a' d' (fun x => 0 <= x < _nr_pages d).
Proof.
  intros Ho Htest. destruct do_self_test; [|by exists a, d].
  destruct (Htest eq_refl) as [HN Hfr]. destruct (self_test_spec a d Ho HN Hfr) as (a' & d' & E & Ht & Ho').
  exists a', d'. by step_to E.
Qed.

Lemma pa_init_spec p a mm im N do_self_test :
  machine_ok mm im N -> _allocator_algorithm p = Some a -> fresh_state a -> _mtx p = false ->
  (do_self_test = true -> 0x150 <= N /\ frees_anywhere N) ->
  exists p', init p mm im do_self_test = Ok (true, p') /\ pa_inv owned p' /\ _nr_pages (descriptors p') = N /\
    forall x, 0 <= x < N -> type_at (descriptors p') x = Some (initial_type mm im N x).
Proof.
  intros Hmo Ea Hf Hm Htest. pose proof (mo_range _ _ _ Hmo) as Hr.
  pose proof (mo_kva _ _ _ Hmo) as Hk. do 2 apply Forall_cons in Hk as [_ Hk].
  apply Forall_cons in Hk as [Hk _].
  unfold init. rewrite Ea. unfold setup_page_descriptors. rewrite kva_to_pa_Ok by done.
  cbn [mbind outcome_bind]. destruct (mo_heap _ _ _ Hmo) as [b ->]. cbn [mbind outcome_bind negb].
  rewrite (mo_last _ _ _ Hmo), wrap_small by lia. cbn [descriptors set_descriptors].
  destruct (mark_initial_spec mm im N (HEAP_START im) Hmo) as (n & d & E & Hl & Ht). step_to E.
  destruct (law_init a d Hf) as (a1 & d1 & E1 & Ht1 & Ho1).
  { apply (same_links_wf _ _ Hl), zeroed_wf. lia. }
  { intros i pd Hi. pose proof (sl_links _ _ Hl i) as Hn. rewrite Hi, zeroed_lookup in Hn.
    destruct (decide _); cbn in Hn; congruence. }
  step_to E1. cbn [negb].
  assert (_nr_pages d = N) as HdN by apply (sl_pages _ _ Hl).
  assert (_nr_pages d1 = N) as Hd1N by (by rewrite (st_pages _ _ Ht1)).
  assert (owned a1 d1 (fun x => 0 <= x < _nr_pages d1)) as Ho1'.
  { eapply law_ext; [exact Ho1|]. intros x. cbn beta. rewrite Hd1N, HdN. lia. }
  destruct (self_test_branch a1 d1 do_self_test Ho1') as (a3 & d3 & E3 & Ht3 & Ho3).
  { intros Hd. rewrite Hd1N. by apply Htest. }
  step_to E3. clear E3. assert (same_types d d3) as Ht4 by (by etrans). clear Ht1 Ho1 Ho1' E1.
  assert (_nr_pages d3 = N) as Hd3N by (by rewrite (st_pages _ _ Ht4)).
  destruct (reserve_loop_spec (Z.to_nat (_nr_pages d3)) a3 d3 0) as (a2 & d2 & E2 & Ht2 & Ho2).
  { eapply law_ext; [exact Ho3|]. intros x. cbn beta. rewrite Hd3N, Hd1N. lia. }
  { lia. }
  { lia. }
  cbn [mbind outcome_bind]. step_to E2. eexists. split; [done|]. split; [split; [by exists a2|done]|].
  cbn [descriptors set_algorithm].
  split; [by rewrite (st_pages _ _ Ht2)|]. intros x Hx.
  rewrite (same_types_at _ _ _ Ht2), (same_types_at _ _ _ Ht4). by apply Ht.
Qed.

(** C20: on a machine whose memory map covers the kernel's own sections, the
    allocator starts up, with the self-test of the command line or without it:
    init returns true, every page has exactly the type the memory map and the
    sections give it, and the algorithm is left with the available pages and no
    other.  For the self-test the machine must have the pages 0x14e and 0x14f,
    which it reserves, and the algorithm must take back small blocks anywhere;
    the buddy algorithm does so when the number of pages is a multiple of 2^16
    ([buddy_frees_anywhere]). *)
Theorem pa_init_correct p a mm im N do_self_test :
  machine_ok mm im N -> _allocator_algorithm p = Some a -> fresh_state a -> _mtx p = false ->
  (do_self_test = true -> 0x150 <= N /\ frees_anywhere N) ->
  exists p', init p mm im do_self_test = Ok (true, p') /\ pa_inv owned p' /\
    _nr_pages (descriptors p') = N /\
    forall x, 0 <= x < N -> type_at (descriptors p') x = Some (initial_type mm im N x).
Proof. apply pa_init_spec. Qed.

(** Alloc_pages either returns a block all of whose pages were available,
    marks exactly these pages allocated and keeps the invariant; or, exactly
    when no aligned run of 2^order available pages is left, it follows the
    NULL the algorithm returned. *)
Lemma pa_alloc_correct p order :
  pa_inv owned p -> 0 <= order <= 16 ->
  (exists pgd p', alloc_pages p order = Ok (Some pgd, p') /\ pa_inv owned p' /\
     (forall x, block pgd order x -> type_at (descriptors p) x = Some AVAILABLE /\
        type_at (descriptors p') x = Some ALLOCATED) /\
     (forall x, ~ block pgd order x -> type_at (descriptors p') x = type_at (descriptors p) x)) \/
  (alloc_pages p order = Fault NullDereference /\
   forall q, (2 ^ order | q) -> ~ (forall x, block q order x -> available (descriptors p) x)).
Proof. apply pa_alloc_spec. Qed.

(** Free_pages on a block of allocated pages returns, makes exactly these
    pages available again, and keeps the allocator and its algorithm in
    agreement. *)
Lemma pa_free_correct p pgd order :
  pa_inv owned p -> 0 <= order <= 16 -> can_free (descriptors p) pgd order ->
  (forall x, block pgd order x -> type_at (descriptors p) x = Some ALLOCATED) ->
  exists p', free_pages p pgd order = Ok p' /\ pa_inv owned p' /\
    (forall x, block pgd order x -> type_at (descriptors p') x = Some AVAILABLE) /\
    (forall x, ~ block pgd order x -> type_at (descriptors p') x = type_at (descriptors p) x).
Proof. apply pa_free_spec. Qed.

(** With no page available the first allocation of a single page stops
    the kernel: the NULL of the algorithm is indexed before it is tested. *)
Lemma alloc_exhausted_faults p :
  pa_inv owned p -> (forall x, ~ available (descriptors p) x) -> alloc_page p = Fault NullDereference.
Proof.
  intros Hp Hno. destruct (pa_alloc_spec p 0 Hp ltac:(lia)) as [(pgd & p' & _ & _ & Hin & _)|[E _]]; [|done].
  destruct (Hin pgd) as [Hx _]; [unfold block; lia|]. by apply Hno in Hx.
Qed.
End client.

(** ** Closed instances, with the buddy allocator *)

(** 256 MiB of memory with the kernel's sections in its first 8 MiB. *)
Definition machine_mm : MemoryManager := add_physical_memory MemoryManager_new 0 65536 NORMAL.
Definition machine_im : Image := {|
  IMAGE_START := 0x100000; IMAGE_END := 0x1fffff;
  STACK_START := KERNEL_VMEM_START + 0x200000; STACK_END := KERNEL_VMEM_START + 0x20ffff;
  HEAP_START := KERNEL_VMEM_START + 0x400000
|}.

Ltac fits_tac :=
  match goal with |- Forall ?P (_phys_mem_blocks ?mm) =>
    let bl := eval vm_compute in (_phys_mem_blocks mm) in
    change (Forall P bl)
  end;
  unfold block_fits; repeat (apply Forall_cons; split; [cbn; intros; first [discriminate|lia]|]);
  apply Forall_nil_2.

Lemma machine_ok_256M : machine_ok machine_mm machine_im 65536.
Proof.
  split; [done|lia| | | | | |].
  - fits_tac.
  - eexists. reflexivity.
  - repeat constructor; cbn; done.
  - repeat split; vm_compute; done.
  - repeat split; vm_compute; done.
  - repeat split; vm_compute; done.
Qed.

Definition machine_pa : PageAllocator (list (option Z)) := {|
  _allocator_algorithm := Some (_free_areas (BuddyPageAllocator_new (zeroed 0 0)));
  descriptors := zeroed 0 0;
  _mtx := false
|}.

(** A block within a region of 2^16 pages ends with it. *)
Lemma buddy_frees_anywhere N : (2 ^ 16 | N) -> frees_anywhere (can_free := buddy_can_free) N.
Proof.
  intros [k ->] d [x o] HN (Ho & Ha & Hge & Hle). cbn [fst snd] in *. split_and!; [lia..|done|done|].
  rewrite HN. unfold region_end. assert (0 < 2 ^ o) by (apply Z.pow_pos_nonneg; lia).
  assert (x / 2 ^ 16 < k); [apply Z.div_lt_upper_bound; lia|nia].
Qed.

Lemma pa_init_correct_witness : exists p',
  init machine_pa machine_mm machine_im true = Ok (true, p') /\
  type_at (descriptors p') 0x7 = Some AVAILABLE /\ type_at (descriptors p') 0x100 = Some RESERVED.
Proof.
  destruct (pa_init_correct machine_pa (_free_areas (BuddyPageAllocator_new (zeroed 0 0))) machine_mm machine_im 65536 true machine_ok_256M)
    as (p' & E & _ & _ & Ht); [done..| |].
  - intros _. split; [done|]. apply buddy_frees_anywhere. by exists 1.
  - exists p'. split; [exact E|]. split; rewrite Ht by lia; reflexivity.
Defined.

(** The state after start-up. *)
Lemma machine_started mm im : machine_ok mm im 65536 ->
  exists p : PageAllocator (list (option Z)), pa_inv buddy_owned p /\ _nr_pages (descriptors p) = 65536 /\
  forall x, 0 <= x < 65536 -> type_at (descriptors p) x = Some (initial_type mm im 65536 x).
Proof.
  intros Hmo. destruct (pa_init_spec machine_pa (_free_areas (BuddyPageAllocator_new (zeroed 0 0))) mm im 65536 false Hmo) as (p' & _ & H); [done..|by exists p'].
Qed.

Lemma pa_alloc_correct_witness : exists (p : PageAllocator (list (option Z))) pgd p',
  pa_inv buddy_owned p /\ alloc_pages p 0 = Ok (Some pgd, p') /\ type_at (descriptors p') pgd = Some ALLOCATED.
Proof.
  destruct (machine_started _ _ machine_ok_256M) as (p & Hp & _ & Ht). exists p.
  destruct (pa_alloc_correct p 0 Hp ltac:(lia)) as [(pgd & p' & E & _ & Hin & _)|[_ Hno]].
  - exists pgd, p'. split_and!; [done..|]. apply Hin. unfold block. lia.
  - exfalso. apply (Hno 7); [apply Z.divide_1_l|]. intros x Hx. unfold block in Hx.
    replace x with 7 by lia. unfold available. by rewrite Ht by lia.
Defined.

Lemma pa_free_correct_witness : exists (p p' : PageAllocator (list (option Z))),
  free_pages p 2 1 = Ok p' /\ type_at (descriptors p') 3 = Some AVAILABLE.
Proof.
  destruct (machine_started _ _ machine_ok_256M) as (p & Hp & HN & Ht). exists p.
  destruct (pa_free_correct p 2 1 Hp ltac:(lia)) as (p' & E & _ & Hin & _).
  - split_and!; [lia..|by exists 1|lia|]. rewrite HN. done.
  - intros x Hx. unfold block in Hx. destruct (decide (x = 2)) as [->|].
    + by rewrite Ht by lia.
    + replace x with 3 by lia. by rewrite Ht by lia.
  - exists p'. split; [done|]. apply Hin. unfold block. lia.
Defined.

(** A machine whose one page of normal memory holds the kernel image. *)
Definition full_mm : MemoryManager :=
  add_physical_memory (add_physical_memory MemoryManager_new 0 65535 UNUSABLE) 0xFFFF000 1 NORMAL.
Definition full_im : Image := {|
  IMAGE_START := 0xFFFF000; IMAGE_END := 0xFFFFFFF;
  STACK_START := KERNEL_VMEM_START + 0x200000; STACK_END := KERNEL_VMEM_START + 0x20ffff;
  HEAP_START := KERNEL_VMEM_START + 0x400000
|}.

Lemma machine_ok_full : machine_ok full_mm full_im 65536.
Proof.
  split; [done|lia| | | | | |].
  - fits_tac.
  - eexists. reflexivity.
  - repeat constructor; cbn; done.
  - repeat split; vm_compute; done.
  - repeat split; vm_compute; done.
  - repeat split; vm_compute; done.
Qed.

Lemma full_not_available x : initial_type full_mm full_im 65536 x <> AVAILABLE.
Proof.
  unfold initial_type. repeat (case_match; [done|]).
  destruct (present (_phys_mem_blocks full_mm) x) eqn:E; [|done].
  assert (in_run 65535 1 x = true) as Hx.
  { change (false && in_run 0 65535 x || (true && in_run 65535 1 x || false) = true) in E.
    by destruct (in_run 65535 1 x). }
  match goal with H : in_run (section_start (IMAGE_START _)) _ _ = false |- _ =>
    change (in_run 65535 1 x = false) in H; congruence end.
Qed.

Lemma alloc_exhausted_faults_witness : exists p : PageAllocator (list (option Z)),
  pa_inv buddy_owned p /\ alloc_page p = Fault NullDereference.
Proof.
  destruct (machine_started _ _ machine_ok_full) as (p & Hp & HN & Ht). exists p. split; [done|].
  apply (alloc_exhausted_faults p Hp). intros x Hx.
  assert (0 <= x < 65536) as Hb.
  { rewrite <- HN. destruct (pi_alg _ Hp) as (a & _ & Ho). apply (law_wf _ _ _ Ho).
    unfold available, type_at in Hx. destruct (cells _ !! x); [eauto|done]. }
  unfold available in Hx. rewrite Ht in Hx by done. injection Hx. apply full_not_available.
Defined.
