(* ===== verification/FirstFit.v ===== *)
(** * The first-fit algorithm of simple-page-alloc.cpp and the memory map of
      mm.cpp

    [simple_alloc_pages] is compared with the first run of available pages;
    where the search leaves the array is characterised exactly.  The lookup
    in the memory map is compared with the regions that were added. *)
From S2P Require Import Prelude Define PageDesc PageAllocator PageAllocatorProof.

(** The [n] pages from [q] on are available. *)
Definition run_at (d : PageDescriptors) (q n : Z) : Prop :=
  forall x, q <= x < q + n -> type_at d x = Some AVAILABLE.

Lemma type_at_wf d x : wf_pds d -> is_Some (type_at d x) <-> 0 <= x < _nr_pages d.
Proof. intros [_ HC]. rewrite <- HC. unfold type_at. apply fmap_is_Some. Qed.

Lemma load_out d x : type_at d x = None -> load d x = Fault OutOfBounds.
Proof. unfold type_at, load. by destruct (cells d !! x). Qed.

(** Where the inner loop ends. *)
Lemma simple_run_spec n d idx :
  wf_pds d -> 0 <= idx < _nr_pages d ->
  (simple_run n d 0 idx = Ok None /\ run_at d idx (Z.of_nat n)) \/
  (exists j, simple_run n d 0 idx = Ok (Some j) /\ idx <= j < idx + Z.of_nat n /\
     0 <= j < _nr_pages d /\ type_at d j <> Some AVAILABLE) \/
  (simple_run n d 0 idx = Fault OutOfBounds /\ run_at d idx (_nr_pages d - idx) /\
     _nr_pages d < idx + Z.of_nat n).
Proof.
  intros Hwf. revert idx. induction n as [|n IH]; intros idx Hidx; cbn [simple_run].
  { left. split; [done|]. intros x Hx. lia. }
  destruct (proj2 (type_at_wf d idx Hwf) Hidx) as [t Ht].
  destruct (load_type d idx t Ht) as (pd & Hl & Hty).
  change (0 + idx) with idx. step_to Hl. rewrite Hty. destruct (decide (t = AVAILABLE)) as [->|Hne].
  - rewrite bool_decide_false by tauto. destruct (decide (idx + 1 < _nr_pages d)) as [Hin|Hout].
    + destruct (IH (idx + 1) ltac:(lia)) as [[E Hr]|[(j & E & Hj & Hb & Hn)|(E & Hr & Hlt)]].
      * left. split; [done|]. intros x Hx. destruct (decide (x = idx)) as [->|]; [done|]. apply Hr. lia.
      * right. left. exists j. split_and!; [done|lia..|done].
      * right. right. split; [done|]. split; [|lia]. intros x Hx.
        destruct (decide (x = idx)) as [->|]; [done|]. apply Hr. lia.
    + destruct n as [|n].
      * left. split; [done|]. intros x Hx. by replace x with idx by lia.
      * right. right. split.
        -- cbn [simple_run]. change (0 + (idx + 1)) with (idx + 1). rewrite load_out; [done|].
           destruct (type_at d (idx + 1)) eqn:E; [|done].
           apply mk_is_Some, (type_at_wf _ _ Hwf) in E. lia.
        -- split; [|lia]. intros x Hx. by replace x with idx by lia.
  - rewrite bool_decide_true by done. right. left. exists idx. split_and!; try done; try lia.
    rewrite Ht. congruence.
Qed.

(** No run of [n] pages starts below [k]. *)
Definition no_run_below (d : PageDescriptors) (n k : Z) : Prop :=
  forall q, 0 <= q < k -> ~ run_at d q n.

Lemma simple_loop_spec fuel d idx n :
  wf_pds d -> 0 < n < 2 ^ 31 -> _nr_pages d < 2 ^ 63 ->
  0 <= idx <= _nr_pages d -> _nr_pages d - idx < Z.of_nat fuel ->
  no_run_below d n idx -> (idx = _nr_pages d -> ~ run_at d (idx - 1) 1) ->
  let a := {| _pgd_base := 0; _nr_pgds := _nr_pages d |} in
  (exists p, simple_loop fuel a d idx n = Ok (Some p) /\ run_at d p n /\
     no_run_below d n p) \/
  (simple_loop fuel a d idx n = Ok None /\ no_run_below d n (_nr_pages d) /\
     ~ run_at d (_nr_pages d - 1) 1) \/
  (simple_loop fuel a d idx n = Fault OutOfBounds /\ no_run_below d n (_nr_pages d) /\
     run_at d (_nr_pages d - 1) 1).
Proof.
  intros Hwf Hn HN Hidx Hfuel Hno Hlast a. revert idx Hidx Hfuel Hno Hlast.
  induction fuel as [|fuel IH]; intros idx Hidx Hfuel Hno Hlast; [lia|]. cbn [simple_loop].
  cbn [_nr_pgds _pgd_base a]. destruct (Z.ltb_spec idx (_nr_pages d)) as [Hlt|Hge].
  - rewrite wrap_small by lia. replace (idx + n - idx) with n by lia.
    pose proof (Z2Nat.id n ltac:(lia)) as En.
    destruct (simple_run_spec (Z.to_nat n) d idx Hwf ltac:(lia)) as [[E Hr]|[(j & E & Hj & Hb & Hna)|(E & Hr & Ho)]].
    + left. exists idx. step_to E. rewrite En in Hr. done.
    + step_to E. apply IH; [lia|lia| |].
      * intros q Hq Hrun. destruct (decide (q < idx)) as [?|?]; [by apply (Hno q); [lia|]|].
        apply Hna, Hrun. lia.
      * intros _ Hrun. apply Hna, Hrun. lia.
    + right. right. rewrite E. split; [done|]. split; [|intros x Hx; apply Hr; lia].
      intros q Hq Hrun. destruct (decide (q < idx)) as [?|?]; [by apply (Hno q); [lia|]|].
      assert (is_Some (type_at d (q + n - 1))) as Hs by (rewrite Hrun by lia; eauto).
      apply (type_at_wf _ _ Hwf) in Hs. lia.
  - right. left. assert (idx = _nr_pages d) as -> by lia. split; [done|]. split; [done|]. by apply Hlast.
Qed.

(** The shift is defined, and the length an int, up to order 30. *)
Lemma shift_one_Ok w order : 0 <= order < w -> shift_one w order = Ok (2 ^ order).
Proof.
  intros Ho. unfold shift_one. rewrite (proj2 (Z.leb_le _ _)), (proj2 (Z.ltb_lt _ _)) by lia. cbn [andb].
  by rewrite Z.shiftl_mul_pow2, Z.mul_1_l by lia.
Qed.

(** Outside 0 .. 31 the shift is undefined. *)
Lemma first_fit_wide_orders a d order : order < 0 \/ 32 <= order ->
  simple_alloc_pages a d order = Fault UndefinedShift.
Proof.
  intros Ho. unfold simple_alloc_pages, shift_one.
  destruct (Z.leb_spec 0 order), (Z.ltb_spec order 32); done || lia.
Qed.

(** C23: for orders from 0 to 30 (the number of pages is an int: with order 31
    it is negative, from 32 on the shift is undefined) and fewer than 2^63
    descriptors the first-fit allocator returns the lowest run of 2^order
    available pages when there is one.  When there is none it returns NULL if the last
    page is taken, and reads past the end of the array if the last page is
    available: the inner loop does not stop at the number of pages. *)
Theorem first_fit_correct d order a :
  wf_pds d -> _nr_pages d < 2 ^ 63 -> 0 <= order < 31 ->
  simple_init a (_nr_pages d) = (true, {| _pgd_base := 0; _nr_pgds := _nr_pages d |}) /\
  let alloc := simple_alloc_pages {| _pgd_base := 0; _nr_pgds := _nr_pages d |} d order in
  (exists p, alloc = Ok (Some p) /\ run_at d p (2 ^ order) /\ no_run_below d (2 ^ order) p) \/
  (alloc = Ok None /\ no_run_below d (2 ^ order) (_nr_pages d) /\ ~ run_at d (_nr_pages d - 1) 1) \/
  (alloc = Fault OutOfBounds /\ no_run_below d (2 ^ order) (_nr_pages d) /\
     run_at d (_nr_pages d - 1) 1).
Proof.
  intros Hwf HN63 Ho. split; [done|]. cbn zeta. unfold simple_alloc_pages. cbn [_nr_pgds].
  pose proof (proj1 Hwf) as HN. assert (0 < 2 ^ order) by (apply Z.pow_pos_nonneg; lia).
  assert (2 ^ order < 2 ^ 31) by (apply Z.pow_lt_mono_r; lia).
  rewrite shift_one_Ok by lia. cbn [mbind outcome_bind]. rewrite swrap_small by lia.
  eapply (simple_loop_spec _ _ 0); try done; try lia.
  - intros q Hq. lia.
  - intros _ Hrun. assert (is_Some (type_at d (0 - 1))) as Hs by (rewrite Hrun by lia; eauto).
    apply (type_at_wf _ _ Hwf) in Hs. lia.
Qed.

Definition three_pages : PageDescriptors := {|
  _nr_pages := 3; _page_descriptors := 0;
  cells := {[0 := {| next_free := None; type := AVAILABLE |};
             1 := {| next_free := None; type := ALLOCATED |};
             2 := {| next_free := None; type := AVAILABLE |}]}
|}.

Lemma three_pages_wf : wf_pds three_pages.
Proof.
  split; [done|]. intros i. cbn. split.
  - intros [pd Hpd]. apply lookup_insert_Some in Hpd as [[<- _]|[_ Hpd]]; [lia|].
    apply lookup_insert_Some in Hpd as [[<- _]|[_ Hpd]]; [lia|].
    apply lookup_singleton_Some in Hpd as [<- _]. lia.
  - intros Hi. assert (i = 0 \/ i = 1 \/ i = 2) as [-> | [-> | ->]] by lia; eexists; reflexivity.
Qed.

Lemma first_fit_correct_witness :
  simple_alloc_pages {| _pgd_base := 0; _nr_pgds := 3 |} three_pages 1 = Fault OutOfBounds.
Proof.
  destruct (first_fit_correct three_pages 1 {| _pgd_base := 0; _nr_pgds := 0 |} three_pages_wf)
    as [_ [(p & E & _)|[(E & _)|(E & _)]]]; [done|lia|vm_compute in E; discriminate..|exact E].
Defined.

(** ** The memory map *)

(** One call of [add_physical_memory]. *)
Definition add_region (mm : MemoryManager) (r : Z * Z * MemoryType) : MemoryManager :=
  add_physical_memory mm r.1.1 r.1.2 r.2.

Definition region_ok (r : Z * Z * MemoryType) : Prop :=
  0 <= r.1.1 /\ (2 ^ 12 | r.1.1) /\ 0 < r.1.2 < 2 ^ 20 /\ r.1.1 + r.1.2 * 2 ^ 12 < 2 ^ 64.

Definition region_has (r : Z * Z * MemoryType) (addr : Z) : bool :=
  (r.1.1 <=? addr) && (addr <? r.1.1 + r.1.2 * 2 ^ 12).

Definition region_block (r : Z * Z * MemoryType) : PhysicalMemoryBlock := {|
  base_address := r.1.1; base_pfn := Z.shiftr r.1.1 12; nr_pages := r.1.2; pmb_type := r.2
|}.

Lemma region_block_has r addr : region_ok r -> in_phys_block addr (region_block r) = region_has r addr.
Proof.
  intros (H0 & _ & Hn & Hs). unfold in_phys_block, region_has, block_bytes, __page_size, __page_bits.
  cbn [base_address nr_pages region_block]. change (Z.shiftl 1 12) with (2 ^ 12).
  rewrite (wrap_small 32), (wrap_small 64); [done|lia|]. change (2 ^ 32) with (2 ^ 20 * 2 ^ 12). lia.
Qed.

Definition last_pfn_of (r : Z * Z * MemoryType) : Z :=
  match r.2 with NORMAL => r.1.1 / 2 ^ 12 + r.1.2 - 1 | UNUSABLE => 0 end.

Lemma add_region_spec mm r : region_ok r -> (length (_phys_mem_blocks mm) < 16)%nat -> 0 <= _last_pfn mm ->
  add_region mm r = {| _last_pfn := Z.max (_last_pfn mm) (last_pfn_of r);
                       _phys_mem_blocks := _phys_mem_blocks mm ++ [region_block r] |}.
Proof.
  destruct r as [[addr n] t]. intros (H0 & [k Hk] & Hn & Hs) Hlen Hl. cbn [fst snd] in *.
  unfold add_region, add_physical_memory, MAX_PHYS_MEM_BLOCKS. cbn [fst snd].
  rewrite (proj2 (Z.eqb_neq n 0)), (proj2 (Z.leb_gt _ _)) by lia. f_equal.
  unfold last_pfn_of. cbn [fst snd]. destruct t; cbn [bool_decide andb].
  - rewrite bool_decide_true by done. cbn [andb].
    unfold block_bytes, __page_size, __page_bits. change (Z.shiftl 1 12) with (2 ^ 12).
    rewrite (wrap_small 32) by (change (2 ^ 32) with (2 ^ 20 * 2 ^ 12); lia).
    rewrite (wrap_small 64 (addr + _)) by lia. rewrite Z.shiftr_div_pow2 by lia.
    rewrite Z.div_add by lia. subst addr. rewrite Z.div_mul by lia.
    rewrite wrap_small; [|split; [lia|change (2 ^ 64) with (2 ^ 52 * 2 ^ 12) in *; lia]].
    destruct (Z.ltb_spec (_last_pfn mm) (k + n - 1)); lia.
  - rewrite bool_decide_false by done. cbn [andb]. lia.
Qed.

Lemma add_regions_spec rs mm :
  Forall region_ok rs -> (length (_phys_mem_blocks mm) + length rs <= 16)%nat -> 0 <= _last_pfn mm ->
  let mm' := foldl add_region mm rs in
  _phys_mem_blocks mm' = _phys_mem_blocks mm ++ (region_block <$> rs) /\
  _last_pfn mm <= _last_pfn mm' /\ forall r, r ∈ rs -> last_pfn_of r <= _last_pfn mm'.
Proof.
  intros Hrs. revert mm. induction Hrs as [|r rs Hr Hrs IH]; intros mm Hlen Hl; cbn [foldl].
  { cbn zeta. rewrite app_nil_r. split_and!; [done..|]. intros r Hr. by apply elem_of_nil in Hr. }
  cbn [length] in Hlen. pose proof (add_region_spec mm r Hr ltac:(lia) Hl) as E.
  destruct (IH (add_region mm r)) as (Hb & Hle & Hall); rewrite E; cbn [_phys_mem_blocks _last_pfn] in *.
  { rewrite length_app. cbn. lia. }
  { lia. }
  rewrite E in Hb, Hle, Hall. cbn [_phys_mem_blocks _last_pfn] in *. cbn zeta.
  split_and!.
  - rewrite Hb, <- app_assoc. done.
  - lia.
  - intros r' [->|Hr']%elem_of_cons; [lia|by apply Hall].
Qed.

Lemma lookup_region rs addr : Forall region_ok rs ->
  lookup_block (region_block <$> rs) addr = region_block <$> head (filter (fun r => region_has r addr) rs).
Proof.
  induction 1 as [|r rs Hr Hrs IH]; [done|]. cbn [fmap list_fmap lookup_block].
  rewrite region_block_has by done. rewrite filter_cons.
  destruct (region_has r addr); cbn; [done|]. exact IH.
Qed.

(** A memory map built from up to sixteen regions of less than 4 GiB finds
    for every address the first region that holds it, and none when no region
    does; and its last frame number covers every page of normal memory, so the
    descriptor array has an entry for each of them. *)
Lemma memory_map_correct rs addr :
  Forall region_ok rs -> (length rs <= 16)%nat ->
  let mm := foldl add_region MemoryManager_new rs in
  lookup_phys_block mm addr = region_block <$> head (filter (fun r => region_has r addr) rs) /\
  forall b x, b ∈ _phys_mem_blocks mm -> pmb_type b = NORMAL ->
    base_pfn b <= x < base_pfn b + nr_pages b -> 0 <= x <= _last_pfn mm.
Proof.
  intros Hrs Hlen. destruct (add_regions_spec rs MemoryManager_new Hrs) as (Hb & _ & Hl); [done..|].
  cbn zeta. unfold lookup_phys_block. rewrite Hb. split; [by apply lookup_region|].
  intros b x (r & -> & Hr)%list_elem_of_fmap. destruct r as [[addr' n] t]. cbn. intros -> Hx.
  specialize (Hl _ Hr). unfold last_pfn_of in Hl. cbn in Hl.
  rewrite Forall_forall in Hrs. destruct (Hrs _ Hr) as (H0 & _). cbn in H0.
  rewrite Z.shiftr_div_pow2 in Hx by lia.
  pose proof (Z.div_pos addr' (2 ^ 12) H0 ltac:(lia)). lia.
Qed.

Lemma memory_map_correct_witness :
  base_address <$> lookup_phys_block (foldl add_region MemoryManager_new
    [(0, 159, NORMAL); (0xf0000, 16, UNUSABLE); (0x100000, 0x7ee0, NORMAL)]) 0x123456 = Some 0x100000.
Proof.
  destruct (memory_map_correct [(0, 159, NORMAL); (0xf0000, 16, UNUSABLE); (0x100000, 0x7ee0, NORMAL)] 0x123456)
    as [E _].
  - assert (forall a n t, 0 <= a /\ a mod 2 ^ 12 = 0 /\ 0 < n < 2 ^ 20 /\ a + n * 2 ^ 12 < 2 ^ 64 ->
      region_ok (a, n, t)) as H.
    { intros a n t (? & Hm & ? & ?). split_and!; cbn; try lia. by apply Z.mod_divide. }
    repeat constructor; apply H; split_and!; done || lia.
  - cbn. lia.
  - rewrite E. reflexivity.
Defined.

(** A block of exactly 4 GiB gets the size 0: no address is found in it. *)
Lemma block_4GiB_lost addr b t : 0 <= addr < 2 ^ 64 -> 0 <= b < 2 ^ 64 ->
  lookup_phys_block (add_physical_memory MemoryManager_new b (2 ^ 20) t) addr = None.
Proof.
  intros Ha Hb.
  assert (lookup_phys_block (add_physical_memory MemoryManager_new b (2 ^ 20) t) addr =
    if (b <=? addr) && (addr <? u64 (b + 0)) then Some (region_block (b, 2 ^ 20, t)) else None) as ->
    by reflexivity.
  rewrite Z.add_0_r, wrap_small by done.
  destruct (Z.leb_spec b addr), (Z.ltb_spec addr b); cbn; try done; lia.
Qed.
