(* ===== verification/Vma.v ===== *)
(** * infos/mm/vma.cpp: address spaces as four levels of page tables

    The tables live in physical memory and are read and written through the
    physical-map window; [words] is the memory behind the window, one 64-bit
    word per entry, by the address in the window.  The page allocator hands
    out the pages of the tables. *)
From S2P Require Import Prelude Define PageDesc PageAllocator.

Definition BITS (val start end_ : Z) : Z :=
  Z.land (Z.shiftr val start) (Z.shiftl 1 (end_ - start + 1) - 1).

(** The indices into the four tables: page map level 4, directory pointers,
    directory, table. *)
Definition va_table_indicies (va : Z) : Z * Z * Z * Z :=
  (u16 (BITS va 39 47), u16 (BITS va 30 38), u16 (BITS va 21 29), u16 (BITS va 12 20)).

(** ** MMUTableEntry: the bits of an entry *)
Inductive MMUTableEntryFlags :=
  PRESENT | WRITABLE | ALLOW_USER | WRITE_THROUGH | CACHE_DISABLED | ACCESSED | DIRTY | HUGE | GLOBAL.

#[global] Instance MMUTableEntryFlags_eq_dec : EqDecision MMUTableEntryFlags.
Proof. solve_decision. Defined.

Definition flag_idx (f : MMUTableEntryFlags) : Z :=
  match f with
  | PRESENT => 0 | WRITABLE => 1 | ALLOW_USER => 2 | WRITE_THROUGH => 3 | CACHE_DISABLED => 4
  | ACCESSED => 5 | DIRTY => 6 | HUGE => 7 | GLOBAL => 8
  end.

(** [~0xfff] is an [int], sign-extended to 64 bits by the [&]. *)
Definition not_fff : Z := u64 (Z.lnot 0xfff).

Definition base_address (bits : Z) : Z := Z.land bits not_fff.
Definition set_base_address (bits addr : Z) : Z := Z.lor (Z.land bits 0xfff) (Z.land addr not_fff).
Definition flags (bits : Z) : Z := u16 (Z.land bits 0xfff).
Definition set_flags (bits f : Z) : Z := Z.lor (Z.land bits not_fff) (Z.land f 0xfff).

Definition get_flag (bits : Z) (idx : MMUTableEntryFlags) : bool :=
  negb (Z.land (flags bits) (Z.shiftl 1 (flag_idx idx)) =? 0).
Definition set_flag (bits : Z) (idx : MMUTableEntryFlags) (v : bool) : Z :=
  if negb v then set_flags bits (u16 (Z.land (flags bits) (Z.lnot (Z.shiftl 1 (flag_idx idx)))))
  else set_flags bits (u16 (Z.lor (flags bits) (Z.shiftl 1 (flag_idx idx)))).

Definition present (bits : Z) : bool := get_flag bits PRESENT.
Definition set_present (bits : Z) (v : bool) : Z := set_flag bits PRESENT v.
Definition set_writable (bits : Z) (v : bool) : Z := set_flag bits WRITABLE v.
Definition set_user (bits : Z) (v : bool) : Z := set_flag bits ALLOW_USER v.
Definition huge (bits : Z) : bool := get_flag bits HUGE.

(** vma.h: [MappingFlags], as a set of bits. *)
Definition Present : Z := 1.
Definition User : Z := 2.
Definition Writable : Z := 4.
Definition has_flag (flags f : Z) : bool := negb (Z.land flags f =? 0).

Section vma.
Context {A : Type} `{PageAllocatorAlgorithm A}.

Record PageAllocation := { descriptor_base : Z; allocation_order : Z }.

(** A [VMA], with the page allocator and the memory it shares with the rest
    of the kernel. *)
Record VMA := {
  _page_allocations : list PageAllocation;
  _pgt_phys_base : Z;
  _pgt_virt_base : Z;
  pgalloc : PageAllocator A;
  words : gmap Z Z
}.

Definition set_words (s : VMA) (w : gmap Z Z) : VMA := {|
  _page_allocations := _page_allocations s; _pgt_phys_base := _pgt_phys_base s;
  _pgt_virt_base := _pgt_virt_base s; pgalloc := pgalloc s; words := w
|}.

(** The word at an address of the window; memory that was never written is zero. *)
Definition word (s : VMA) (va : Z) : Z := default 0 (words s !! va).
Definition write (s : VMA) (va v : Z) : VMA := set_words s (<[va := v]> (words s)).

(** [pnzero(dest, n)] clears [n] pages. *)
Definition pnzero (w : gmap Z Z) (dest n : Z) : gmap Z Z :=
  filter (fun kv => kv.1 < dest \/ dest + n * __page_size <= kv.1) w.

Definition allocate_phys (s : VMA) (order : Z) : outcome (option Z * VMA) :=
  '(pgd, p) ← alloc_pages (pgalloc s) order;
  match pgd with
  | None => Ok (None, {| _page_allocations := _page_allocations s; _pgt_phys_base := _pgt_phys_base s;
                         _pgt_virt_base := _pgt_virt_base s; pgalloc := p; words := words s |})
  | Some pgd =>
      va ← pgd_to_vpa (descriptors p) pgd;
      Ok (Some pgd, {|
        _page_allocations := _page_allocations s ++ [{| descriptor_base := pgd; allocation_order := order |}];
        _pgt_phys_base := _pgt_phys_base s;
        _pgt_virt_base := _pgt_virt_base s;
        pgalloc := p;
        words := pnzero (words s) va (Z.shiftl 1 order)
      |})
  end.

(** [assert(p)] on a pointer. *)
Definition assert_some {B} (p : option B) : outcome B :=
  match p with Some b => Ok b | None => Fault AssertionFailure end.

Definition VMA_new (pg : PageAllocator A) (mem : gmap Z Z) : outcome VMA :=
  '(pgd, s) ← allocate_phys {| _page_allocations := []; _pgt_phys_base := 0; _pgt_virt_base := 0;
                               pgalloc := pg; words := mem |} 0;
  pgd ← assert_some pgd;
  let d := descriptors (pgalloc s) in
  va ← pgd_to_vpa d pgd;
  Ok {| _page_allocations := _page_allocations s; _pgt_phys_base := pgd_to_pa d pgd;
        _pgt_virt_base := va; pgalloc := pgalloc s; words := words s |}.

Definition entry_addr (table idx : Z) : Z := table + 8 * idx.

(** [__template_pml4] is set up by the boot code; NULL when it is missing. *)
Definition install_default_kernel_mapping (s : VMA) (template_pml4 : option (Z -> Z)) : outcome VMA :=
  t ← assert_some template_pml4;
  let s := write s (entry_addr (_pgt_virt_base s) 0x1ff) (t 0x1ff) in
  Ok (write s (entry_addr (_pgt_virt_base s) 0x100) (t 0x100)).

(** The entry at [e] of an upper table: when it has no base address, a fresh
    table is linked in. *)
Definition ensure_table (s : VMA) (e : Z) : outcome VMA :=
  if base_address (word s e) =? 0 then
    '(t, s) ← allocate_phys s 0;
    t ← assert_some t;
    let bits := set_base_address (word s e) (pgd_to_pa (descriptors (pgalloc s)) t) in
    let bits := set_present bits true in
    let bits := set_writable bits true in
    let bits := set_user bits true in
    Ok (write s e bits)
  else Ok s.

Definition set_if (c : bool) (f : Z -> bool -> Z) (bits : Z) : Z := if c then f bits true else bits.

(** The page-table entry at [e] is pointed at [pa]. *)
Definition map_entry (s : VMA) (e pa flags : Z) : VMA :=
  let bits := set_base_address (word s e) pa in
  let bits := set_if (has_flag flags Present) set_present bits in
  let bits := set_if (has_flag flags Writable) set_writable bits in
  let bits := set_if (has_flag flags User) set_user bits in
  write s e bits.

Definition insert_mapping (s : VMA) (va pa flags : Z) : outcome VMA :=
  let '(pml4_idx, pdp_idx, pd_idx, pt_idx) := va_table_indicies va in
  let pml4 := entry_addr (_pgt_virt_base s) pml4_idx in
  s ← ensure_table s pml4;
  t ← pa_to_vpa (base_address (word s pml4));
  let pdp := entry_addr t pdp_idx in
  s ← ensure_table s pdp;
  t ← pa_to_vpa (base_address (word s pdp));
  let pd := entry_addr t pd_idx in
  s ← ensure_table s pd;
  t ← pa_to_vpa (base_address (word s pd));
  Ok (map_entry s (entry_addr t pt_idx) pa flags).

Definition get_mapping (s : VMA) (va : Z) : outcome (option Z) :=
  if _pgt_virt_base s =? 0 then Ok None
  else
    let '(pml4_idx, pdp_idx, pd_idx, pt_idx) := va_table_indicies va in
    let pml4 := word s (entry_addr (_pgt_virt_base s) pml4_idx) in
    if negb (present pml4) then Ok None
    else
      t ← pa_to_vpa (base_address pml4);
      let pdp := word s (entry_addr t pdp_idx) in
      if negb (present pdp) then Ok None
      else
        t ← pa_to_vpa (base_address pdp);
        let pd := word s (entry_addr t pd_idx) in
        if negb (present pd) then Ok None
        else
          t ← pa_to_vpa (base_address pd);
          let pt := word s (entry_addr t pt_idx) in
          if negb (present pt) then Ok None
          else Ok (Some (Z.lor (base_address pt) (__page_offset va))).

Definition is_mapped (s : VMA) (va : Z) : outcome bool :=
  pa ← get_mapping s va;
  Ok (bool_decide (is_Some pa)).

(** Where [copy_to] has [memcpy] write; [None] is the result [false]. *)
Definition copy_to (s : VMA) (dest_va : Z) : outcome (option Z) :=
  pa ← get_mapping s dest_va;
  match pa with
  | None => Ok None
  | Some pa => dest ← pa_to_vpa pa; Ok (Some dest)
  end.

Fixpoint map_range (n : nat) (s : VMA) (vbase pbase : Z) : outcome VMA :=
  match n with
  | O => Ok s
  | S n =>
      s ← insert_mapping s vbase pbase (Z.lor (Z.lor Present User) Writable);
      map_range n s (u64 (vbase + 0x1000)) (u64 (pbase + 0x1000))
  end.

Definition allocate_virt (s : VMA) (va nr_pages : Z) : outcome (bool * VMA) :=
  if nr_pages =? 0 then Ok (false, s)
  else
    let order := __log2ceil (u64 nr_pages) in
    '(pgd, s) ← allocate_phys s order;
    match pgd with
    | None => Ok (false, s)
    | Some pgd =>
        let pbase := pgd_to_pa (descriptors (pgalloc s)) pgd in
        s ← map_range (Z.to_nat (u32 (Z.shiftl 1 order))) s va pbase;
        Ok (true, s)
    end.

Definition allocate_virt_any (s : VMA) (nr_pages : Z) : bool * VMA := (false, s).

(** *** The dump: the list of (VA, PA) lines it logs *)
Definition indices : list Z := seqZ 0 0x200.

Definition dump_pt (s : VMA) (pml4 pdp pd pt_va : Z) : list (Z * Z) :=
  i ← indices;
  let te := word s (entry_addr pt_va i) in
  if negb (present te) then []
  else [(Z.lor (Z.lor (Z.lor (u64 (Z.shiftl pml4 36)) (u64 (Z.shiftl pdp 28))) (u64 (Z.shiftl pd 20)))
          (u64 (Z.shiftl i 12)), base_address te)].

(** The lines of one entry of an upper table: of the page itself when it is
    huge, of the table below otherwise. *)
Definition dump_entry (te va : Z) (below : Z -> outcome (list (Z * Z))) : outcome (list (Z * Z)) :=
  if negb (present te) then Ok []
  else if huge te then Ok [(va, base_address te)]
  else t ← pa_to_vpa (base_address te); below t.

Fixpoint dump_entries (f : Z -> outcome (list (Z * Z))) (l : list Z) : outcome (list (Z * Z)) :=
  match l with
  | [] => Ok []
  | i :: l => lines ← f i; rest ← dump_entries f l; Ok (lines ++ rest)
  end.

Definition dump_pd (s : VMA) (pml4 pdp pd_va : Z) : outcome (list (Z * Z)) :=
  dump_entries (fun i => dump_entry (word s (entry_addr pd_va i))
    (Z.lor (Z.lor (u64 (Z.shiftl pml4 36)) (u64 (Z.shiftl pdp 28))) (u64 (Z.shiftl i 20)))
    (fun t => Ok (dump_pt s pml4 pdp i t))) indices.

Definition dump_pdp (s : VMA) (pml4 pdp_va : Z) : outcome (list (Z * Z)) :=
  dump_entries (fun i => dump_entry (word s (entry_addr pdp_va i))
    (Z.lor (u64 (Z.shiftl pml4 36)) (u64 (Z.shiftl i 28))) (fun t => dump_pd s pml4 i t)) indices.

Definition dump (s : VMA) : outcome (list (Z * Z)) :=
  dump_entries (fun i => dump_entry (word s (entry_addr (_pgt_virt_base s) i)) (u64 (Z.shiftl i 36))
    (fun t => dump_pdp s i t)) indices.
End vma.
Arguments VMA A : clear implicits.
