(* ===== verification/VmaProof.v ===== *)
(** * The page tables as a partial map from addresses to addresses

    [tables] is the well-formedness of the tables reachable from a root: a
    ghost map gives each table its level, every used entry of an upper table
    leads to a table one level below, and no table is entered twice.
    [translate] is the specification of the walk. *)
From S2P Require Import Prelude Define PageDesc Buddy BuddyRep BuddyProof PageAllocator PageAllocatorProof Vma.

(** ** The bits of page-table entries

    What the accessors of [MMUTableEntry] do, bit by bit, and the indices of a
    virtual address. *)

Lemma not_fff_bits n : 0 <= n -> Z.testbit not_fff n = (12 <=? n) && (n <? 64).
Proof.
  intros Hn. change not_fff with (Z.shiftl (Z.ones 52) 12).
  rewrite Z.shiftl_spec by lia. destruct (Z.leb_spec 12 n); cbn [andb].
  - rewrite Z.testbit_ones_nonneg by lia. lia.
  - by rewrite Z.testbit_neg_r by lia.
Qed.

Lemma fff_bits n : 0 <= n -> Z.testbit 0xfff n = (n <? 12).
Proof. intros Hn. change 0xfff with (Z.ones 12). by rewrite Z.testbit_ones_nonneg by lia. Qed.

Lemma u16_bits z n : 0 <= n -> Z.testbit (u16 z) n = Z.testbit z n && (n <? 16).
Proof.
  intros Hn. rewrite wrap_land, Z.land_spec, Z.testbit_ones_nonneg by lia. done.
Qed.

Lemma bit1_spec k n : 0 <= k -> 0 <= n -> Z.testbit (Z.shiftl 1 k) n = (n =? k).
Proof.
  intros Hk Hn. rewrite Z.shiftl_1_l. destruct (Z.eqb_spec n k) as [->|].
  - by rewrite Z.pow2_bits_true.
  - by rewrite Z.pow2_bits_false.
Qed.

Lemma land_bit_eq0 x k : 0 <= k -> (Z.land x (Z.shiftl 1 k) =? 0) = negb (Z.testbit x k).
Proof.
  intros Hk. destruct (Z.testbit x k) eqn:E; cbn.
  - apply Z.eqb_neq. intros H0. apply (f_equal (fun z => Z.testbit z k)) in H0.
    by rewrite Z.land_spec, bit1_spec, Z.eqb_refl, E, Z.bits_0 in H0 by lia.
  - apply Z.eqb_eq. apply Z.bits_inj'. intros n Hn.
    rewrite Z.land_spec, bit1_spec, Z.bits_0 by lia. destruct (Z.eqb_spec n k) as [->|]; [by rewrite E|].
    apply andb_false_r.
Qed.

(** Compare two words bit by bit. *)
Ltac bitwise n Hn :=
  apply Z.bits_inj'; intros n Hn;
  repeat rewrite ?Z.lor_spec, ?Z.land_spec, ?Z.lnot_spec, ?not_fff_bits, ?fff_bits, ?u16_bits, ?bit1_spec
    by lia.

Lemma flag_idx_range f : 0 <= flag_idx f < 9.
Proof. destruct f; cbn; lia. Qed.

Lemma flags_bits b n : 0 <= n -> Z.testbit (flags b) n = Z.testbit b n && (n <? 12).
Proof.
  intros Hn. unfold flags. rewrite u16_bits, Z.land_spec, fff_bits by lia.
  destruct (Z.testbit b n), (Z.ltb_spec n 12), (Z.ltb_spec n 16); try done; lia.
Qed.

Lemma get_flag_testbit b f : get_flag b f = Z.testbit b (flag_idx f).
Proof.
  pose proof (flag_idx_range f). unfold get_flag.
  rewrite land_bit_eq0, negb_involutive, flags_bits by lia.
  rewrite (proj2 (Z.ltb_lt _ _)) by lia. apply andb_true_r.
Qed.

Lemma set_flags_bits b f n : 0 <= n ->
  Z.testbit (set_flags b f) n =
  if n <? 12 then Z.testbit f n else Z.testbit b n && (n <? 64).
Proof.
  intros Hn. unfold set_flags. rewrite Z.lor_spec, !Z.land_spec, not_fff_bits, fff_bits by lia.
  destruct (Z.ltb_spec n 12), (Z.leb_spec 12 n); cbn; try lia;
    destruct (Z.testbit b n), (Z.testbit f n), (n <? 64); done.
Qed.

Lemma set_flag_bits b f v n : 0 <= n ->
  Z.testbit (set_flag b f v) n =
  if n =? flag_idx f then v else Z.testbit b n && (n <? 64).
Proof.
  intros Hn. pose proof (flag_idx_range f). unfold set_flag.
  destruct v; cbn [negb]; rewrite set_flags_bits, u16_bits by lia.
  - rewrite Z.lor_spec, flags_bits, bit1_spec by lia.
    destruct (Z.eqb_spec n (flag_idx f)), (Z.ltb_spec n 12), (Z.ltb_spec n 16), (Z.ltb_spec n 64);
      try lia; destruct (Z.testbit b n); done.
  - rewrite Z.land_spec, flags_bits, Z.lnot_spec, bit1_spec by lia.
    destruct (Z.eqb_spec n (flag_idx f)), (Z.ltb_spec n 12), (Z.ltb_spec n 16), (Z.ltb_spec n 64);
      try lia; destruct (Z.testbit b n); done.
Qed.

Lemma base_set_flag b f v : base_address (set_flag b f v) = base_address b.
Proof.
  pose proof (flag_idx_range f). unfold base_address. apply Z.bits_inj'. intros n Hn.
  rewrite !Z.land_spec, not_fff_bits, set_flag_bits by lia.
  destruct (Z.eqb_spec n (flag_idx f)), (Z.leb_spec 12 n), (Z.ltb_spec n 64); cbn; try lia;
    destruct (Z.testbit b n); done.
Qed.

Lemma present_set_flag b f : present (set_flag b f true) = present b || bool_decide (f = PRESENT).
Proof.
  unfold present. rewrite !get_flag_testbit, set_flag_bits by (cbn; lia).
  destruct (Z.testbit b (flag_idx PRESENT)), f; reflexivity.
Qed.

Lemma base_set_base b a : base_address (set_base_address b a) = Z.land a not_fff.
Proof.
  unfold base_address, set_base_address. apply Z.bits_inj'. intros n Hn.
  rewrite !Z.land_spec, !Z.lor_spec, !Z.land_spec, not_fff_bits, fff_bits by lia.
  destruct (Z.leb_spec 12 n), (Z.ltb_spec n 64), (Z.ltb_spec n 12); cbn; try lia;
    destruct (Z.testbit b n), (Z.testbit a n); done.
Qed.

Lemma present_set_base b a : present (set_base_address b a) = present b.
Proof.
  unfold present. rewrite !get_flag_testbit. unfold set_base_address.
  rewrite Z.lor_spec, !Z.land_spec, not_fff_bits, fff_bits by (cbn; lia).
  destruct (Z.testbit b (flag_idx PRESENT)), (Z.testbit a (flag_idx PRESENT)); reflexivity.
Qed.

(** The page part of an address, as a number. *)
Lemma land_not_fff a : 0 <= a < 2 ^ 64 -> Z.land a not_fff = __page_base a.
Proof. done. Qed.

Lemma page_base_mul pfn : 0 <= pfn < 2 ^ 52 -> Z.land (pfn * 4096) not_fff = pfn * 4096.
Proof.
  intros H. assert (0 <= pfn * 4096 < 2 ^ 64) by (change (2 ^ 64) with (2 ^ 52 * 4096); lia).
  rewrite land_not_fff, __page_base_eq by done. change __page_size with 4096.
  by rewrite Z.div_mul by lia.
Qed.

Lemma present_0 : present 0 = false.
Proof. reflexivity. Qed.

(** ** The indices of an address *)

(** The index into the table of level [n + 1]: the nine bits from [12 + 9 n]. *)
Definition index (n : nat) (va : Z) : Z := Z.shiftr va (12 + 9 * Z.of_nat n) mod 2 ^ 9.

Lemma index_range n va : 0 <= index n va < 512.
Proof. apply Z.mod_pos_bound. lia. Qed.

Lemma BITS_index va s : u16 (BITS va s (s + 8)) = Z.shiftr va s mod 2 ^ 9.
Proof.
  unfold BITS. replace (s + 8 - s + 1) with 9 by lia.
  change (Z.shiftl 1 9 - 1) with (Z.ones 9). rewrite Z.land_ones by lia.
  apply wrap_small. pose proof (Z.mod_pos_bound (Z.shiftr va s) (2 ^ 9) ltac:(lia)).
  change (2 ^ 16) with (2 ^ 9 * 128). lia.
Qed.

Lemma va_table_indicies_eq va :
  va_table_indicies va = (index 3 va, index 2 va, index 1 va, index 0 va).
Proof. unfold va_table_indicies, index. repeat f_equal; apply (BITS_index va). Qed.

(** Two addresses are in the same page of the 48-bit address space. *)
Definition same_page (va va' : Z) : Prop := forall n, (n < 4)%nat -> index n va = index n va'.

Lemma same_page_spec va va' :
  same_page va va' <-> Z.shiftr va 12 mod 2 ^ 36 = Z.shiftr va' 12 mod 2 ^ 36.
Proof.
  assert (forall z n i, 0 <= i -> (n < 4)%nat -> Z.testbit (index n z) i =
    Z.testbit z (i + 12 + 9 * Z.of_nat n) && (i <? 9)) as Hb.
  { intros z n i Hi Hn. unfold index. destruct (Z.ltb_spec i 9).
    - rewrite Z.mod_pow2_bits_low, Z.shiftr_spec, andb_true_r by lia. f_equal. lia.
    - by rewrite Z.mod_pow2_bits_high, andb_false_r by lia. }
  split.
  - intros Hs. apply Z.bits_inj'. intros i Hi. destruct (Z.ltb_spec i 36) as [Hlt|].
    + rewrite !Z.mod_pow2_bits_low, !Z.shiftr_spec by lia.
      pose proof (Z.div_mod i 9 ltac:(lia)) as Hd. pose proof (Z.mod_pos_bound i 9 ltac:(lia)).
      specialize (Hs (Z.to_nat (i / 9)) ltac:(lia)).
      apply (f_equal (fun z => Z.testbit z (i mod 9))) in Hs. rewrite !Hb in Hs by lia.
      rewrite (proj2 (Z.ltb_lt (i mod 9) 9)), !andb_true_r in Hs by lia.
      rewrite !Z2Nat.id in Hs by lia. by replace (i + 12) with (i mod 9 + 12 + 9 * (i / 9)) by lia.
    + by rewrite !Z.mod_pow2_bits_high by lia.
  - intros E n Hn. apply Z.bits_inj'. intros i Hi. rewrite !Hb by done.
    destruct (Z.ltb_spec i 9); [|by rewrite !andb_false_r]. rewrite !andb_true_r.
    apply (f_equal (fun z => Z.testbit z (i + 9 * Z.of_nat n))) in E.
    rewrite !Z.mod_pow2_bits_low, !Z.shiftr_spec in E by lia.
    by replace (i + 12 + 9 * Z.of_nat n) with (i + 9 * Z.of_nat n + 12) by lia.
Qed.

#[local] Arguments wrap : simpl never.

(** ** Frames *)

(** The address of a frame in the physical-map window. *)
Definition frame_va (pfn : Z) : Z := PMEM_VA_START + pfn * 4096.

Lemma pgd_to_pa_eq d pgd : 0 <= pgd < 2 ^ 20 -> pgd_to_pa d pgd = pgd * 4096.
Proof.
  intros H. unfold pgd_to_pa. rewrite pgd_to_pfn_id by lia. unfold pfn_to_pa, __page_bits.
  rewrite Z.shiftl_mul_pow2 by lia. apply wrap_small. change (2 ^ 12) with 4096. lia.
Qed.

Lemma pa_to_vpa_frame pfn : 0 <= pfn < 2 ^ 20 -> pa_to_vpa (pfn * 4096) = Ok (frame_va pfn).
Proof.
  intros H. apply pa_to_vpa_Ok. change PMEM_VA_SIZE with (2 ^ 20 * 4096). lia.
Qed.

Lemma pgd_to_vpa_eq d pgd : 0 <= pgd < 2 ^ 20 -> pgd_to_vpa d pgd = Ok (frame_va pgd).
Proof. intros H. unfold pgd_to_vpa. rewrite pgd_to_pa_eq by done. by apply pa_to_vpa_frame. Qed.

Lemma entry_addr_inj p p' i i' : 0 <= i < 512 -> 0 <= i' < 512 ->
  entry_addr (frame_va p) i = entry_addr (frame_va p') i' -> p = p' /\ i = i'.
Proof. unfold entry_addr, frame_va. lia. Qed.

Lemma entry_in_frame p q n i : 0 <= i < 512 ->
  frame_va q <= entry_addr (frame_va p) i < frame_va q + n * 4096 <-> q <= p < q + n.
Proof. unfold entry_addr, frame_va. lia. Qed.

(** ** The specification of the walk *)

(** The table below an entry. *)
Definition child (e : Z) : Z := PMEM_VA_START + base_address e.

(** The leaf table the walk from the table [t] of level [n] ends in. *)
Fixpoint leaf_table (w : Z -> Z) (n : nat) (t va : Z) : option Z :=
  match n with
  | O => Some t
  | S m =>
      let e := w (entry_addr t (index n va)) in
      if present e then leaf_table w m (child e) va else None
  end.

Definition translate (w : Z -> Z) (root va : Z) : option Z :=
  t ← leaf_table w 3 root va;
  let e := w (entry_addr t (index 0 va)) in
  if present e then Some (Z.lor (base_address e) (__page_offset va)) else None.

(** The kernel's two entries of the root table. *)
Definition user_slot (n : nat) (i : Z) : Prop := n = 3%nat -> i <> 0x100 /\ i <> 0x1ff.
Definition user_va (va : Z) : Prop := user_slot 3 (index 3 va).

Lemma user_va_slot n va : user_va va -> user_slot n (index n va).
Proof. intros H ->. by apply H. Qed.

Lemma user_va_same_page va va' : same_page va va' -> user_va va -> user_va va'.
Proof. unfold user_va. intros Hs. by rewrite (Hs 3%nat) by lia. Qed.

Lemma leaf_table_same_page w n t va va' : same_page va va' -> (n <= 3)%nat ->
  leaf_table w n t va' = leaf_table w n t va.
Proof.
  intros Hs. revert t. induction n as [|n IH]; intros t Hn; cbn [leaf_table]; [done|].
  rewrite <- (Hs (S n)) by lia. case_match; [apply IH; lia|done].
Qed.

Record tables (root : Z) (w : Z -> Z) (d : PageDescriptors) (L : gmap Z nat) : Prop := {
  t_root : L !! root = Some 3%nat;
  t_frame t n : L !! t = Some n ->
    exists pfn, t = frame_va pfn /\ 0 < pfn < 2 ^ 20 /\ type_at d pfn = Some ALLOCATED;
  t_entry t n i : L !! t = Some (S n) -> 0 <= i < 512 -> user_slot (S n) i ->
    w (entry_addr t i) = 0 \/
    exists pfn, base_address (w (entry_addr t i)) = pfn * 4096 /\ 0 < pfn < 2 ^ 20 /\
      present (w (entry_addr t i)) = true /\ L !! frame_va pfn = Some n;
  t_inj t t' n n' i i' : L !! t = Some (S n) -> L !! t' = Some (S n') ->
    0 <= i < 512 -> 0 <= i' < 512 -> user_slot (S n) i -> user_slot (S n') i' ->
    w (entry_addr t i) <> 0 ->
    base_address (w (entry_addr t i)) = base_address (w (entry_addr t' i')) -> t = t' /\ i = i'
}.

(** What the walk does at an entry of a well-formed upper table. *)
Lemma tables_step root w d L t n i :
  tables root w d L -> L !! t = Some (S n) -> 0 <= i < 512 -> user_slot (S n) i ->
  (w (entry_addr t i) = 0) \/
  (base_address (w (entry_addr t i)) <> 0 /\ present (w (entry_addr t i)) = true /\
   pa_to_vpa (base_address (w (entry_addr t i))) = Ok (child (w (entry_addr t i))) /\
   L !! child (w (entry_addr t i)) = Some n).
Proof.
  intros HT Ht Hi Hu. destruct (t_entry _ _ _ _ HT t n i Ht Hi Hu) as [H0|(pfn & Hb & Hp & Hpr & HL)];
    [by left|right].
  unfold child. rewrite Hb. split; [lia|]. split; [done|]. split; [|done]. apply pa_to_vpa_frame. lia.
Qed.

Lemma get_mapping_translate {A} (s : VMA A) d L va :
  tables (_pgt_virt_base s) (word s) d L -> user_va va ->
  get_mapping s va = Ok (translate (word s) (_pgt_virt_base s) va).
Proof.
  intros HT Hu. unfold get_mapping. pose proof (t_root _ _ _ _ HT) as Hr.
  assert (_pgt_virt_base s <> 0) as Hnz.
  { destruct (t_frame _ _ _ _ HT _ _ Hr) as (pfn & -> & Hp & _). unfold frame_va.
    change PMEM_VA_START with 0xFFFF800000000000. lia. }
  rewrite (proj2 (Z.eqb_neq _ _) Hnz), va_table_indicies_eq.
  unfold translate. cbn [leaf_table].
  destruct (tables_step _ _ _ _ _ _ _ HT Hr (index_range 3 va) (user_va_slot _ _ Hu))
    as [->|(_ & Hp & E & H2)]; [done|].
  rewrite Hp. cbn [negb]. rewrite E. cbn [mbind outcome_bind].
  destruct (tables_step _ _ _ _ _ _ _ HT H2 (index_range 2 va) (user_va_slot _ _ Hu))
    as [->|(_ & Hp' & E' & H1)]; [done|].
  rewrite Hp'. cbn [negb]. rewrite E'. cbn [mbind outcome_bind].
  destruct (tables_step _ _ _ _ _ _ _ HT H1 (index_range 1 va) (user_va_slot _ _ Hu))
    as [->|(_ & Hp'' & E'' & H0)]; [done|].
  rewrite Hp''. cbn [negb]. rewrite E''. cbn [mbind outcome_bind option_bind].
  by match goal with |- context [if ?b then Some _ else None] => destruct b end.
Qed.

(** The words of [w] and [w'] agree on the user entries of the upper tables. *)
Definition upper_agree (w w' : Z -> Z) (L : gmap Z nat) : Prop := forall t n i,
  L !! t = Some (S n) -> 0 <= i < 512 -> user_slot (S n) i -> w' (entry_addr t i) = w (entry_addr t i).

Lemma tables_ext root w w' d d' L :
  tables root w d L -> upper_agree w w' L ->
  (forall x, type_at d x = Some ALLOCATED -> type_at d' x = Some ALLOCATED) ->
  tables root w' d' L.
Proof.
  intros [Hr Hf He Hi] Hw Hd. split; [done| | |].
  - intros t n Ht. destruct (Hf t n Ht) as (pfn & ? & ? & ?). eauto.
  - intros t n i Ht Hin Hu. rewrite (Hw _ _ _ Ht Hin Hu). by apply He.
  - intros t t' n n' i i' Ht Ht' Hin Hin' Hu Hu'.
    rewrite (Hw _ _ _ Ht Hin Hu), (Hw _ _ _ Ht' Hin' Hu'). eauto.
Qed.

(** A new empty table linked in at the unused entry [(t0, i0)]. *)
Section link.
Context (root : Z) (w w' : Z -> Z) (d : PageDescriptors) (L : gmap Z nat).
Context (t0 i0 pfn : Z) (n0 : nat).
Context (HT : tables root w d L) (Ht0 : L !! t0 = Some (S n0)) (Hi0 : 0 <= i0 < 512).
Context (Hu0 : user_slot (S n0) i0) (Hfree : w (entry_addr t0 i0) = 0).
Context (Hpfn : 0 < pfn < 2 ^ 20) (Hfresh : L !! frame_va pfn = None) (Hty : type_at d pfn = Some ALLOCATED).
Context (Hsame : forall t n i, L !! t = Some n -> 0 <= i < 512 -> t <> t0 \/ i <> i0 ->
  w' (entry_addr t i) = w (entry_addr t i)).
Context (Hnew : base_address (w' (entry_addr t0 i0)) = pfn * 4096) (Hpr : present (w' (entry_addr t0 i0)) = true).
Context (Hzero : forall i, 0 <= i < 512 -> w' (entry_addr (frame_va pfn) i) = 0).

Let L' : gmap Z nat := <[frame_va pfn := n0]> L.

Lemma link_lookup t n : L' !! t = Some n -> (t = frame_va pfn /\ n = n0) \/ L !! t = Some n.
Proof. intros H. apply lookup_insert_Some in H as [[<- <-]|[_ H]]; auto. Qed.

Lemma link_old t n : L !! t = Some n -> L' !! t = Some n.
Proof. intros H. apply lookup_insert_Some. right. split; [|done]. intros <-. congruence. Qed.

(** The entries of the tables after the link. *)
Lemma link_entry t n i : L' !! t = Some n -> 0 <= i < 512 ->
  (t = t0 /\ i = i0) \/ w' (entry_addr t i) = 0 \/
  (L !! t = Some n /\ w' (entry_addr t i) = w (entry_addr t i)).
Proof.
  intros Ht Hi. destruct (link_lookup _ _ Ht) as [[-> ->]|Ht']; [right; left; by apply Hzero|].
  destruct (decide (t = t0)) as [->|]; [destruct (decide (i = i0)) as [->|]; [by left|]|];
    right; right; split; try done; eapply Hsame; eauto.
Qed.

Lemma new_entry_nonzero : w' (entry_addr t0 i0) <> 0.
Proof. intros E. rewrite E in Hpr. done. Qed.

(** The base of an old entry is not the new frame. *)
Lemma link_base_fresh t n i : L !! t = Some (S n) -> 0 <= i < 512 -> user_slot (S n) i ->
  base_address (w (entry_addr t i)) <> pfn * 4096.
Proof.
  intros Ht Hi Hu E. destruct (t_entry _ _ _ _ HT t n i Ht Hi Hu) as [H0|(p & Hb & _ & _ & HL)].
  - rewrite H0 in E. change (base_address 0) with 0 in E. lia.
  - rewrite Hb in E. assert (p = pfn) as -> by lia. congruence.
Qed.

Lemma tables_link : tables root w' d L'.
Proof.
  split.
  - apply link_old, HT.
  - intros t n Ht. destruct (link_lookup _ _ Ht) as [[-> ->]|Ht']; [by exists pfn|]. by apply HT in Ht'.
  - intros t n i Ht Hi Hu. destruct (link_entry _ _ _ Ht Hi) as [[-> ->]|[H0|[Ht' E]]]; [right|by left|].
    + exists pfn. split; [done|]. split; [done|]. split; [done|].
      assert (n = n0) as -> by (pose proof (link_old _ _ Ht0); congruence).
      apply lookup_insert_eq.
    + rewrite E. destruct (t_entry _ _ _ _ HT t n i Ht' Hi Hu) as [?|(p & ? & ? & ? & HL)]; [by left|right].
      exists p. split; [done|]. split; [done|]. split; [done|]. by apply link_old.
  - intros t t' n n' i i' Ht Ht' Hi Hi' Hu Hu' Hnz Hb.
    assert (forall t n i, L' !! t = Some (S n) -> 0 <= i < 512 -> user_slot (S n) i -> (t, i) <> (t0, i0) ->
      base_address (w' (entry_addr t i)) <> pfn * 4096) as Hother.
    { clear -HT Hfresh Hzero Hsame Hpfn. intros t n i Ht Hi Hu Hne E.
      destruct (link_entry _ _ _ Ht Hi) as [[-> ->]|[H0|[Ht' E']]]; [done| |].
      - rewrite H0 in E. change (base_address 0) with 0 in E. lia.
      - rewrite E' in E. by eapply link_base_fresh. }
    destruct (decide ((t, i) = (t0, i0))) as [[= -> ->]|Hne].
    + destruct (decide ((t', i') = (t0, i0))) as [[= -> ->]|Hne']; [done|].
      exfalso. apply (Hother t' n' i'); try done. by rewrite <- Hb.
    + destruct (decide ((t', i') = (t0, i0))) as [[= -> ->]|Hne'].
      { exfalso. apply (Hother t n i); try done. by rewrite Hb. }
      destruct (link_entry _ _ _ Ht Hi) as [[-> ->]|[H0|[HL E]]]; [done..|].
      destruct (link_entry _ _ _ Ht' Hi') as [[-> ->]|[H0|[HL' E']]]; [done| |].
      * exfalso. rewrite H0 in Hb. rewrite E in Hb, Hnz. change (base_address 0) with 0 in Hb.
        destruct (tables_step _ _ _ _ _ _ _ HT HL Hi Hu) as [?|[? _]]; congruence.
      * rewrite E in Hb, Hnz. rewrite E' in Hb. by eapply HT.
Qed.

Lemma translate_link_leaf n t va : L !! t = Some n -> user_va va -> (n <= 3)%nat ->
  match leaf_table w' n t va with
  | Some tl => leaf_table w n t va = Some tl /\ L !! tl = Some O \/
               leaf_table w n t va = None /\ tl = frame_va pfn
  | None => leaf_table w n t va = None
  end.
Proof.
  revert t. induction n as [|n IH]; intros t Ht Hu Hn; cbn [leaf_table]; [by left|].
  pose proof (index_range (S n) va) as Hi. pose proof (user_va_slot (S n) va Hu) as Hus.
  destruct (decide (t = t0 /\ index (S n) va = i0)) as [[-> Hix]|Hne].
  - rewrite Hix, Hfree, Hpr, present_0. assert (n = n0) as -> by congruence.
    unfold child. rewrite Hnew. fold (frame_va pfn). destruct n0 as [|n1]; cbn [leaf_table]; [by right|].
    rewrite Hzero by apply index_range. done.
  - rewrite (Hsame t (S n)); [|done|done|destruct (decide (t = t0)); [right; naive_solver|by left]].
    destruct (tables_step _ _ _ _ _ _ _ HT Ht Hi Hus) as [->|(_ & -> & _ & Hc)]; [done|].
    apply IH; [done|done|lia].
Qed.

(** Linking an empty table changes no translation. *)
Lemma translate_link va : user_va va -> translate w' root va = translate w root va.
Proof.
  intros Hu. unfold translate.
  pose proof (translate_link_leaf 3 root va (t_root _ _ _ _ HT) Hu ltac:(lia)) as H.
  destruct (leaf_table w' 3 root va) as [tl|] eqn:E; cbn [mbind option_bind].
  - destruct H as [[-> Hl]|[-> ->]]; cbn [mbind option_bind].
    + rewrite (Hsame tl O); [done|done|apply index_range|]. left. intros ->. congruence.
    + by rewrite Hzero by apply index_range.
  - by rewrite H.
Qed.
End link.

(** ** Writing a leaf entry *)

(** Walks that end in the same leaf table took the same path. *)
Lemma leaf_table_inj root w d L n ta tb va vb tl :
  tables root w d L -> (n <= 3)%nat -> L !! ta = Some n -> L !! tb = Some n -> user_va va -> user_va vb ->
  leaf_table w n ta va = Some tl -> leaf_table w n tb vb = Some tl ->
  ta = tb /\ forall k, (0 < k <= n)%nat -> index k va = index k vb.
Proof.
  intros HT. revert ta tb. induction n as [|n IH]; intros ta tb Hn Ha Hb Hua Hub; cbn [leaf_table].
  { intros [= ->] [= ->]. split; [done|lia]. }
  destruct (tables_step _ _ _ _ _ _ _ HT Ha (index_range (S n) va) (user_va_slot _ _ Hua))
    as [->|(Hba & -> & _ & Hca)]; [done|].
  destruct (tables_step _ _ _ _ _ _ _ HT Hb (index_range (S n) vb) (user_va_slot _ _ Hub))
    as [->|(Hbb & -> & _ & Hcb)]; [done|].
  intros HA HB. destruct (IH _ _ ltac:(lia) Hca Hcb Hua Hub HA HB) as [Hc Hk].
  unfold child in Hc. apply Z.add_reg_l in Hc.
  destruct (t_inj _ _ _ _ HT ta tb n n _ _ Ha Hb (index_range (S n) va) (index_range (S n) vb)
    (user_va_slot _ _ Hua) (user_va_slot _ _ Hub)) as [-> Hidx]; [|done|].
  - intros E. rewrite E in Hba. done.
  - split; [done|]. intros k Hk'. destruct (decide (k = S n)) as [->|]; [done|]. apply Hk. lia.
Qed.

Lemma leaf_table_level root w d L n t va tl :
  tables root w d L -> (n <= 3)%nat -> L !! t = Some n -> user_va va ->
  leaf_table w n t va = Some tl -> L !! tl = Some O.
Proof.
  intros HT. revert t. induction n as [|n IH]; intros t Hn Ht Hu; cbn [leaf_table].
  { by intros [= ->]. }
  destruct (tables_step _ _ _ _ _ _ _ HT Ht (index_range (S n) va) (user_va_slot _ _ Hu))
    as [->|(_ & -> & _ & Hc)]; [done|]. apply IH; [lia|done..].
Qed.

(** A write to a leaf table leaves the walks to leaf tables alone. *)
Lemma leaf_table_write root w w' d L n t va :
  tables root w d L -> (n <= 3)%nat -> L !! t = Some n -> user_va va ->
  upper_agree w w' L -> leaf_table w' n t va = leaf_table w n t va.
Proof.
  intros HT Hn Ht Hu Hw. revert t Hn Ht. induction n as [|n IH]; intros t Hn Ht; cbn [leaf_table]; [done|].
  rewrite (Hw _ _ _ Ht (index_range (S n) va) (user_va_slot _ _ Hu)).
  destruct (tables_step _ _ _ _ _ _ _ HT Ht (index_range (S n) va) (user_va_slot _ _ Hu))
    as [->|(_ & -> & _ & Hc)]; [done|]. apply IH; [lia|done].
Qed.
