(* ===== verification/VmaOps.v ===== *)
(** * The operations of an address space

    Each operation of vma.cpp over the page allocator, for any allocation
    algorithm that keeps its laws: linking a table changes no translation,
    and mapping a page changes exactly the translations of this page. *)
From S2P Require Import Prelude Define PageDesc PageAllocator PageAllocatorProof Vma VmaProof.

#[local] Arguments wrap : simpl never.

Section ops.
Context {A : Type} `{PageAllocatorAlgorithmLaws A fresh_state owned can_free}.
Implicit Types (s : VMA A).

(** The page allocator behind the address space: its memory fits the
    physical-map window and page zero is not to be had. *)
Record sys_ok s : Prop := {
  so_inv : pa_inv owned (pgalloc s);
  so_window : _nr_pages (descriptors (pgalloc s)) <= 2 ^ 20;
  so_page0 : ~ available (descriptors (pgalloc s)) 0
}.

(** At least [n] pages are available. *)
Definition avail_pages (n : nat) s : Prop :=
  exists l, NoDup l /\ (n <= length l)%nat /\ forall x, x ∈ l -> available (descriptors (pgalloc s)) x.

Definition avail_run (order : Z) s : Prop :=
  exists q, (2 ^ order | q) /\ forall x, block q order x -> available (descriptors (pgalloc s)) x.

Lemma pa_wf s : sys_ok s -> wf_pds (descriptors (pgalloc s)).
Proof. intros [[(a & _ & Ho) _] _ _]. by apply law_wf in Ho. Qed.

Lemma available_range s x : sys_ok s -> available (descriptors (pgalloc s)) x -> 0 < x < 2 ^ 20.
Proof.
  intros Hs Hx. pose proof (so_window _ Hs). destruct (pa_wf _ Hs) as [_ HC].
  assert (0 <= x < _nr_pages (descriptors (pgalloc s))) as Hr.
  { apply HC. unfold available, type_at in Hx. destruct (cells _ !! x); [eauto|done]. }
  destruct (decide (x = 0)) as [->|]; [|lia]. by apply (so_page0 _ Hs) in Hx.
Qed.

Lemma pnzero_word w dest n a :
  default 0 (pnzero w dest n !! a) =
  if decide (dest <= a < dest + n * 4096) then 0 else default 0 (w !! a).
Proof.
  unfold pnzero. change __page_size with 4096. destruct (w !! a) as [v|] eqn:E.
  - destruct (decide (dest <= a < dest + n * 4096)) as [Hin|Hout].
    + rewrite map_lookup_filter_None_2; [done|]. right. intros v' _. cbn. lia.
    + rewrite (map_lookup_filter_Some_2 _ _ _ v); [done|done|]. cbn. lia.
  - rewrite map_lookup_filter_None_2; [|by left]. by destruct (decide _).
Qed.

(** What [allocate_phys] leaves: a block of fresh, cleared pages. *)
Record allocated (s s' : VMA A) (pgd order : Z) : Prop := {
  al_root : _pgt_virt_base s' = _pgt_virt_base s;
  al_sys : sys_ok s';
  al_range : 0 < pgd /\ pgd + 2 ^ order <= 2 ^ 20;
  al_block x : block pgd order x ->
    type_at (descriptors (pgalloc s)) x = Some AVAILABLE /\
    type_at (descriptors (pgalloc s')) x = Some ALLOCATED;
  al_other x : ~ block pgd order x ->
    type_at (descriptors (pgalloc s')) x = type_at (descriptors (pgalloc s)) x;
  al_words a : word s' a =
    if decide (frame_va pgd <= a < frame_va pgd + 2 ^ order * 4096) then 0 else word s a
}.

Lemma allocate_phys_spec s order : sys_ok s -> 0 <= order <= 16 -> avail_run order s ->
  exists pgd s', allocate_phys s order = Ok (Some pgd, s') /\ allocated s s' pgd order.
Proof.
  intros Hs Ho (q & Hq & Hav). assert (0 < 2 ^ order) by (apply Z.pow_pos_nonneg; lia).
  unfold allocate_phys.
  destruct (pa_alloc_spec _ order (so_inv _ Hs) Ho) as [(pgd & p' & E & Hp' & Hin & Hout)|[_ Hno]];
    [|by destruct (Hno q Hq)].
  step_to E.
  pose proof (available_range s pgd Hs ltac:(apply Hin; unfold block; lia)).
  pose proof (available_range s (pgd + 2 ^ order - 1) Hs ltac:(apply Hin; unfold block; lia)).
  step_to (pgd_to_vpa_eq (descriptors p') pgd ltac:(lia)).
  eexists pgd, _. split; [done|]. split; cbn [pgalloc words _pgt_virt_base]; try done; [|lia|].
  - pose proof (pa_wf s Hs) as Hwf. split; cbn [pgalloc]; [done| |].
    + destruct Hp' as [(a & _ & Ho') _]. apply law_wf in Ho'. pose proof (so_window _ Hs).
      destruct (decide (_nr_pages (descriptors p') <= _nr_pages (descriptors (pgalloc s)))); [lia|exfalso].
      assert (is_Some (type_at (descriptors p') (_nr_pages (descriptors (pgalloc s))))) as Hx.
      { unfold type_at. apply fmap_is_Some, Ho'. destruct Hwf. lia. }
      rewrite Hout in Hx.
      * unfold type_at in Hx. apply fmap_is_Some, Hwf in Hx. lia.
      * intros Hb. destruct (Hin _ Hb) as [Hx' _]. apply mk_is_Some in Hx'.
        unfold type_at in Hx'. apply fmap_is_Some, Hwf in Hx'. lia.
    + unfold available. rewrite Hout by (unfold block; lia). apply (so_page0 _ Hs).
  - intros a. unfold word. cbn [words]. rewrite pnzero_word.
    by rewrite Z.shiftl_mul_pow2, Z.mul_1_l by lia.
Qed.

Lemma avail_run_0 n s : avail_pages (S n) s -> avail_run 0 s.
Proof.
  intros (l & _ & Hl & Hav). destruct l as [|x l]; [cbn in Hl; lia|]. exists x.
  split; [apply Z.divide_1_l|]. intros y Hy. unfold block in Hy. replace y with x by lia. apply Hav. left.
Qed.

Lemma length_remove_one (l : list Z) x : NoDup l ->
  (length l <= S (length (filter (fun y => y <> x) l)))%nat.
Proof.
  induction 1 as [|a l Ha Hl IH]; [cbn; lia|]. destruct (decide (a = x)) as [->|].
  - rewrite filter_cons_False by auto. rewrite list_filter_all; [done|]. by intros y Hy ->.
  - rewrite filter_cons_True by done. cbn. lia.
Qed.

Lemma avail_pages_alloc n s s' pgd : allocated s s' pgd 0 -> avail_pages (S n) s -> avail_pages n s'.
Proof.
  intros Hal (l & Hnd & Hl & Hav). exists (filter (fun y => y <> pgd) l).
  split; [by apply NoDup_filter|]. split; [pose proof (length_remove_one l pgd Hnd); lia|].
  intros x [Hne Hx]%list_elem_of_filter. unfold available.
  rewrite (al_other _ _ _ _ Hal); [by apply Hav|]. unfold block. lia.
Qed.

(** ** The invariant of an address space *)
Record vma_ok s (L : gmap Z nat) : Prop := {
  vo_sys : sys_ok s;
  vo_tables : tables (_pgt_virt_base s) (word s) (descriptors (pgalloc s)) L
}.

Lemma allocated_types s s' pgd order x : allocated s s' pgd order ->
  type_at (descriptors (pgalloc s)) x = Some ALLOCATED ->
  type_at (descriptors (pgalloc s')) x = Some ALLOCATED.
Proof.
  intros Hal Hx. destruct (decide (pgd <= x < pgd + 2 ^ order)) as [Hb|Hb].
  - by apply (al_block _ _ _ _ Hal).
  - by rewrite (al_other _ _ _ _ Hal).
Qed.

Lemma allocated_table_words s s' pgd order root w L t n i :
  allocated s s' pgd order -> tables root w (descriptors (pgalloc s)) L ->
  L !! t = Some n -> 0 <= i < 512 -> word s' (entry_addr t i) = word s (entry_addr t i).
Proof.
  intros Hal HT Ht Hi. destruct (t_frame _ _ _ _ HT _ _ Ht) as (p & -> & Hp & Hty).
  rewrite (al_words _ _ _ _ Hal), decide_False; [done|]. rewrite entry_in_frame by done.
  intros Hb. destruct (al_block _ _ _ _ Hal p Hb). congruence.
Qed.

(** Allocating pages for data changes no table and no translation. *)
Lemma vma_ok_allocated s s' pgd order L : vma_ok s L -> allocated s s' pgd order ->
  vma_ok s' L /\ forall va, user_va va -> get_mapping s' va = get_mapping s va.
Proof.
  intros [Hs HT] Hal.
  assert (tables (_pgt_virt_base s') (word s') (descriptors (pgalloc s')) L) as HT'.
  { rewrite (al_root _ _ _ _ Hal). eapply tables_ext; [exact HT| |].
    - intros t n i Ht Hi _. by eapply allocated_table_words.
    - intros x. by eapply allocated_types. }
  split; [by split; [apply Hal|]|]. intros va Hu.
  rewrite (get_mapping_translate s' _ L), (get_mapping_translate s _ L) by done. f_equal.
  rewrite (al_root _ _ _ _ Hal). unfold translate.
  rewrite (leaf_table_write _ (word s) (word s') _ _ 3 _ _ HT ltac:(lia) (t_root _ _ _ _ HT) Hu)
    by (intros ? ? ? ? ? _; by eapply allocated_table_words).
  destruct (leaf_table (word s) 3 _ va) as [tl|] eqn:E; [|done]. cbn [mbind option_bind].
  pose proof (leaf_table_level _ _ _ _ 3 _ _ _ HT ltac:(lia) (t_root _ _ _ _ HT) Hu E) as Hl.
  by rewrite (allocated_table_words s s' pgd order _ _ _ _ _ _ Hal HT Hl (index_range 0 va)).
Qed.

Lemma word_write s a v b : word (write s a v) b = if decide (a = b) then v else word s b.
Proof.
  unfold word, write. cbn [words set_words]. destruct (decide (a = b)) as [<-|].
  - by rewrite lookup_insert_eq.
  - by rewrite lookup_insert_ne.
Qed.

(** ** What an operation takes and keeps

    [taken k]: at most [k] pages are no longer available.  [kept]: the pages in
    use for data, which are those allocated that hold no table, stay so with
    their contents. *)
Definition taken (k : nat) s s' : Prop := exists l, (length l <= k)%nat /\
  forall x, available (descriptors (pgalloc s)) x -> x ∈ l \/ available (descriptors (pgalloc s')) x.

Definition data_page s (L : gmap Z nat) (p : Z) : Prop :=
  type_at (descriptors (pgalloc s)) p = Some ALLOCATED /\ L !! frame_va p = None.

Definition in_page (p a : Z) : Prop := frame_va p <= a < frame_va p + 4096.

Definition kept s (L : gmap Z nat) s' (L' : gmap Z nat) : Prop := forall p, data_page s L p ->
  data_page s' L' p /\ forall a, in_page p a -> word s' a = word s a.

Definition grows (k : nat) s L s' L' : Prop := taken k s s' /\ kept s L s' L'.

Lemma grows_refl k s L : grows k s L s L.
Proof. split; [|done]. exists []. split; [cbn; lia|]. by right. Qed.

Lemma grows_trans k1 k2 s1 L1 s2 L2 s3 L3 : grows k1 s1 L1 s2 L2 -> grows k2 s2 L2 s3 L3 -> grows (k1 + k2) s1 L1 s3 L3.
Proof.
  intros [(l1 & Hl1 & H1) K1] [(l2 & Hl2 & H2) K2]. split.
  - exists (l1 ++ l2). split; [rewrite length_app; lia|]. intros x Hx.
    destruct (H1 x Hx) as [|Hx2]; [set_solver|]. destruct (H2 x Hx2); set_solver.
  - intros p Hp. destruct (K1 p Hp) as [Hp2 W1]. destruct (K2 p Hp2) as [Hp3 W2]. split; [done|].
    intros a Ha. by rewrite W2, W1.
Qed.

Lemma grows_le k k' s L s' L' : (k <= k')%nat -> grows k s L s' L' -> grows k' s L s' L'.
Proof. intros Hk [(l & Hl & Ht) K]. split; [|done]. exists l. split; [lia|done]. Qed.

Lemma taken_pages k n s s' : taken k s s' -> avail_pages (k + n) s -> avail_pages n s'.
Proof.
  intros (l & Hl & Ht) (m & Hnd & Hm & Hav).
  exists (filter (fun x => x ∉ l) m). split; [by apply NoDup_filter|]. split.
  - pose proof (Permutation_length (filter_app_complement (fun x => x ∉ l) m)) as Hc. rewrite length_app in Hc.
    assert (length (filter (fun x : Z => ~ (x ∉ l)) m) <= length l)%nat; [|lia].
    apply submseteq_length, NoDup_submseteq; [by apply NoDup_filter|].
    intros x [Hx _]%list_elem_of_filter. destruct (decide (x ∈ l)); tauto.
  - intros x [Hx Hin]%list_elem_of_filter. destruct (Ht x (Hav x Hin)); [done|done].
Qed.

(** At least [n] different aligned runs of [2 ^ order] available pages. *)
Definition avail_runs (order : Z) (n : nat) s : Prop := exists l, NoDup l /\ (n <= length l)%nat /\
  forall q, q ∈ l -> (2 ^ order | q) /\ forall x, block q order x -> available (descriptors (pgalloc s)) x.

Lemma block_start q order x : 0 <= order -> (2 ^ order | q) -> block q order x -> q = x - x mod 2 ^ order.
Proof.
  intros Ho [k ->] Hx. unfold block in Hx. assert (0 < 2 ^ order) by (apply Z.pow_pos_nonneg; lia).
  assert (x mod 2 ^ order = x - k * 2 ^ order) as ->; [|lia].
  symmetry. apply (Z.mod_unique_pos _ _ k); lia.
Qed.

Lemma taken_runs k n order s s' : 0 <= order -> taken k s s' -> avail_runs order (k + n) s -> avail_runs order n s'.
Proof.
  intros Ho (t & Hl & Ht) (m & Hnd & Hm & Hav).
  set (free q := Forall (fun x => x ∉ t) (seqZ q (2 ^ order))).
  exists (filter free m). split; [by apply NoDup_filter|]. split.
  - pose proof (Permutation_length (filter_app_complement free m)) as Hc. rewrite length_app in Hc.
    assert (length (filter (fun q : Z => ~ free q) m) <= length (map (fun x => (x - x mod 2 ^ order)%Z) t))%nat as Hle;
      [|rewrite length_map in Hle; lia].
    apply submseteq_length, NoDup_submseteq; [by apply NoDup_filter|].
    intros q [Hq Hin]%list_elem_of_filter. destruct (Hav q Hin) as [Hdiv _].
    apply not_Forall_Exists in Hq; [|intros x; solve_decision].
    apply Exists_exists in Hq as (x & Hx%elem_of_seqZ & Hxt). apply dec_stable in Hxt.
    apply list_elem_of_fmap. exists x. split; [|done]. by apply block_start.
  - intros q [Hq Hin]%list_elem_of_filter. destruct (Hav q Hin) as [Hdiv Hqa]. split; [done|].
    intros x Hx. destruct (Ht x (Hqa x Hx)) as [Hbad|]; [|done].
    unfold free in Hq. rewrite Forall_forall in Hq. destruct (Hq x); [by apply elem_of_seqZ|done].
Qed.

Lemma avail_runs_run order order' n s : 0 <= order' <= order -> avail_runs order (S n) s -> avail_run order' s.
Proof.
  intros Ho (l & _ & Hl & Hav). destruct l as [|q l]; [cbn in Hl; lia|]. destruct (Hav q ltac:(left)) as [[k Hk] Hq].
  assert (2 ^ order = 2 ^ (order - order') * 2 ^ order') as Hp by (rewrite <- Z.pow_add_r by lia; f_equal; lia).
  assert (0 < 2 ^ order' /\ 0 < 2 ^ (order - order')) as [H1 H2] by (split; apply Z.pow_pos_nonneg; lia).
  exists q. split; [exists (k * 2 ^ (order - order')); rewrite Hk, Hp; lia|].
  intros x Hx. apply Hq. unfold block in *. nia.
Qed.

Lemma avail_runs_le order n m s : (n <= m)%nat -> avail_runs order m s -> avail_runs order n s.
Proof. intros Hle (l & Hnd & Hl & Hav). exists l. split_and!; [done|lia|done]. Qed.

(** Memory to spare: single pages, and runs of [2 ^ order] pages. *)
Definition ample (order : Z) (n : nat) s : Prop := avail_pages n s /\ avail_runs order n s.

Lemma taken_ample k n order s s' : 0 <= order -> taken k s s' -> ample order (k + n) s -> ample order n s'.
Proof. intros Ho Ht [Hp Hr]. split; [by eapply taken_pages|by eapply taken_runs]. Qed.

Lemma ample_le order n m s : (n <= m)%nat -> ample order m s -> ample order n s.
Proof.
  intros Hle [(l & Hnd & Hl & Hav) Hr]. split; [|by eapply avail_runs_le]. exists l. split_and!; [done|lia|done].
Qed.

Lemma allocated_taken s s' pgd order : 0 <= order -> allocated s s' pgd order -> taken (Z.to_nat (2 ^ order)) s s'.
Proof.
  intros Ho Hal. exists (seqZ pgd (2 ^ order)). split; [by rewrite length_seqZ|]. intros x Hx.
  destruct (decide (pgd <= x < pgd + 2 ^ order)) as [Hb|Hb]; [left; by apply elem_of_seqZ|right].
  unfold available. by rewrite (al_other _ _ _ _ Hal).
Qed.

(** The block allocated becomes data. *)
Lemma allocated_grows s s' pgd order L : 0 <= order -> allocated s s' pgd order -> vma_ok s L ->
  grows (Z.to_nat (2 ^ order)) s L s' L /\ forall x, block pgd order x -> data_page s' L x.
Proof.
  intros Ho Hal Hok. split; [split; [by eapply allocated_taken|]|].
  - intros p [Hp HL]. split; [split; [by eapply allocated_types|done]|]. intros a Ha.
    rewrite (al_words _ _ _ _ Hal), decide_False; [done|]. intros Hb.
    destruct (al_block _ _ _ _ Hal p) as [Hx _]; [|congruence]. unfold block. unfold in_page, frame_va in *. lia.
  - intros x Hx. destruct (al_block _ _ _ _ Hal x Hx) as [Hav Hty]. split; [done|].
    destruct (L !! frame_va x) as [n|] eqn:E; [|done]. destruct (t_frame _ _ _ _ (vo_tables _ _ Hok) _ _ E) as (q & Eq & _ & Hq).
    assert (q = x) as -> by (unfold frame_va in Eq; lia). congruence.
Qed.

(** Writing an entry of a table keeps the data. *)
Lemma entry_kept s s' L t n i b : vma_ok s L -> L !! t = Some n -> 0 <= i < 512 ->
  pgalloc s' = pgalloc s -> (forall a, word s' a = word (write s (entry_addr t i) b) a) -> kept s L s' L.
Proof.
  intros Hok Ht Hi Hp Hw p [Hty HL]. split; [split; [by rewrite Hp|done]|]. intros a Ha.
  rewrite Hw, word_write, decide_False; [done|]. intros <-.
  destruct (t_frame _ _ _ _ (vo_tables _ _ Hok) _ _ Ht) as (q & -> & _).
  assert (q = p) as -> by (unfold in_page, entry_addr, frame_va in *; lia). congruence.
Qed.

(** [ensure_table] at an entry of an upper table. *)
Lemma ensure_table_spec s L t n i k :
  vma_ok s L -> L !! t = Some (S n) -> 0 <= i < 512 -> user_slot (S n) i -> avail_pages (S k) s ->
  exists s' L' t', ensure_table s (entry_addr t i) = Ok s' /\ vma_ok s' L' /\ avail_pages k s' /\
    _pgt_virt_base s' = _pgt_virt_base s /\ (forall t n, L !! t = Some n -> L' !! t = Some n) /\
    pa_to_vpa (base_address (word s' (entry_addr t i))) = Ok t' /\
    present (word s' (entry_addr t i)) = true /\ t' = child (word s' (entry_addr t i)) /\ L' !! t' = Some n /\
    (forall t' n' i', L !! t' = Some n' -> 0 <= i' < 512 -> word s (entry_addr t' i') <> 0 ->
       word s' (entry_addr t' i') = word s (entry_addr t' i')) /\
    (forall va, user_va va -> get_mapping s' va = get_mapping s va) /\ grows 1 s L s' L'.
Proof.
  intros Hok Ht Hi Hu Hav. pose proof Hok as [Hs HT]. unfold ensure_table.
  destruct (tables_step _ _ _ _ _ _ _ HT Ht Hi Hu) as [Hz|(Hb & Hp & E & Hc)].
  2: { rewrite (proj2 (Z.eqb_neq _ _) Hb). exists s, L, (child (word s (entry_addr t i))).
       split_and!; try done; [|apply grows_refl].
       destruct Hav as (l & ? & ? & ?). exists l. split_and!; try done. lia. }
  rewrite Hz. change (base_address 0 =? 0) with true. cbn iota.
  destruct (allocate_phys_spec s 0 Hs ltac:(lia) (avail_run_0 _ _ Hav)) as (pgd & s1 & E1 & Hal).
  step_to E1. cbn [assert_some mbind outcome_bind].
  destruct (vma_ok_allocated _ _ _ _ _ Hok Hal) as [Hok1 Hmap1]. pose proof Hok1 as [Hs1 HT1].
  pose proof (al_range _ _ _ _ Hal) as Hr. change (2 ^ 0) with 1 in Hr.
  rewrite pgd_to_pa_eq by lia.
  set (bits := set_user _ true).
  destruct (t_frame _ _ _ _ HT _ _ Ht) as (p & -> & Hpr & Hty).
  assert (base_address bits = pgd * 4096) as Hbits.
  { unfold bits, set_user, set_writable, set_present. rewrite !base_set_flag, base_set_base.
    apply page_base_mul. lia. }
  assert (present bits = true) as Hpres.
  { unfold bits, set_user, set_writable, set_present. by rewrite !present_set_flag, !orb_true_r. }
  assert (L !! frame_va pgd = None) as Hfresh.
  { destruct (L !! frame_va pgd) as [m|] eqn:E; [|done].
    destruct (t_frame _ _ _ _ HT _ _ E) as (p' & Ep & _ & Hty'). assert (p' = pgd) as -> by (unfold frame_va in Ep; lia).
    destruct (al_block _ _ _ _ Hal pgd) as [Hx _]; [unfold block; lia|]. congruence. }
  set (s' := write s1 _ bits). set (e := entry_addr (frame_va p) i) in *.
  assert (forall t n i', L !! t = Some n -> 0 <= i' < 512 -> t <> frame_va p \/ i' <> i ->
    word s' (entry_addr t i') = word s1 (entry_addr t i')) as Hsame.
  { intros t m i' Hm Hi' Hne. unfold s'. rewrite word_write, decide_False; [done|]. intros Ee.
    destruct (t_frame _ _ _ _ HT _ _ Hm) as (p' & -> & _).
    apply entry_addr_inj in Ee as [<- <-]; [|done..]. by destruct Hne. }
  assert (word s' e = bits) as He by (unfold s'; by rewrite word_write, decide_True).
  assert (word s1 e = 0) as He1 by (by (unfold e; rewrite (allocated_table_words _ _ _ _ _ _ _ _ _ _ Hal HT Ht Hi))).
  assert (forall i', 0 <= i' < 512 -> word s' (entry_addr (frame_va pgd) i') = 0) as Hzero.
  { intros i' Hi'. unfold s'. rewrite word_write, decide_False.
    - rewrite (al_words _ _ _ _ Hal), decide_True; [done|]. rewrite entry_in_frame by done. lia.
    - intros Ee. apply entry_addr_inj in Ee as [-> _]; [congruence|done..]. }
  assert (type_at (descriptors (pgalloc s1)) pgd = Some ALLOCATED) as Htp.
  { apply (al_block _ _ _ _ Hal). unfold block. lia. }
  rewrite <- He in Hbits, Hpres.
  assert (0 < pgd < 2 ^ 20) as Hpgd by lia.
  assert (tables (_pgt_virt_base s1) (word s') (descriptors (pgalloc s1)) (<[frame_va pgd := n]> L)) as HT2.
  { eapply (tables_link _ (word s1)); eauto. }
  exists s', (<[frame_va pgd := n]> L), (frame_va pgd).
  assert (_pgt_virt_base s1 = _pgt_virt_base s) as Hroot by apply Hal.
  split_and!.
  - done.
  - split; [|exact HT2]. destruct Hs1. by split.
  - apply (avail_pages_alloc _ _ _ _ Hal Hav).
  - done.
  - intros t' m Hm. apply (link_old L pgd n Hfresh _ _ Hm).
  - rewrite Hbits. apply pa_to_vpa_frame. lia.
  - done.
  - unfold child. by rewrite Hbits.
  - apply lookup_insert_eq.
  - intros t' m i' Hm Hi' Hnz.
    rewrite <- (allocated_table_words _ _ _ _ _ _ _ _ _ _ Hal HT Hm Hi').
    eapply Hsame; [done..|]. destruct (decide (t' = frame_va p)) as [->|]; [|by left].
    right. intros ->. by apply Hnz.
  - intros va Hva. rewrite <- (Hmap1 va Hva).
    rewrite (get_mapping_translate s' (descriptors (pgalloc s1)) _ va HT2 Hva).
    rewrite (get_mapping_translate s1 _ L va HT1 Hva). f_equal.
    by eapply (translate_link _ (word s1) (word s')); eauto.
  - split; [by apply (allocated_taken s s1 pgd 0)|]. intros q [Hq HLq].
    assert (q <> pgd) as Hne by (intros ->; destruct (al_block _ _ _ _ Hal pgd); [unfold block; lia|congruence]).
    destruct (allocated_grows s s1 pgd 0 L ltac:(lia) Hal Hok) as [[_ Hk1] _]. destruct (Hk1 q) as [[Hq1 _] Hw1]; [done|].
    destruct (entry_kept s1 s' L _ _ i bits Hok1 Ht Hi eq_refl (fun _ => eq_refl) q) as [_ Hw2]; [done|].
    split; [split; [done|]|intros a Ha; by rewrite Hw2, Hw1].
    rewrite lookup_insert_ne; [done|]. intros Ee. apply Hne. unfold frame_va in Ee. lia.
Qed.

(** ** Mapping a page *)
Lemma map_bits bits pa fl : has_flag fl Present = true ->
  let b := set_if (has_flag fl User) set_user
             (set_if (has_flag fl Writable) set_writable
                (set_if (has_flag fl Present) set_present (set_base_address bits pa))) in
  present b = true /\ base_address b = Z.land pa not_fff.
Proof.
  intros Hf b.
  assert (forall c f x, base_address (set_if c (fun y => set_flag y f) x) = base_address x) as Hb.
  { intros [] f x; [apply base_set_flag|done]. }
  assert (forall c f x, present x = true -> present (set_if c (fun y => set_flag y f) x) = true) as Hp.
  { intros [] f x Hx; [|done]. cbn [set_if]. by rewrite present_set_flag, Hx. }
  unfold b, set_user, set_writable, set_present. split.
  - apply Hp, Hp. rewrite Hf. cbn [set_if]. rewrite present_set_flag. apply orb_true_r.
  - rewrite !Hb. apply base_set_base.
Qed.

(** Writing the entry of [va] in the leaf table its walk ends in. *)
Lemma map_entry_spec s L t va pa fl :
  vma_ok s L -> user_va va -> leaf_table (word s) 3 (_pgt_virt_base s) va = Some t ->
  has_flag fl Present = true ->
  let s' := map_entry s (entry_addr t (index 0 va)) pa fl in
  vma_ok s' L /\
  (forall va', same_page va va' ->
     get_mapping s' va' = Ok (Some (Z.lor (Z.land pa not_fff) (__page_offset va')))) /\
  forall va', user_va va' -> ~ same_page va va' -> get_mapping s' va' = get_mapping s va'.
Proof.
  intros [Hs HT] Hu Hleaf Hf s'.
  pose proof (leaf_table_level _ _ _ _ 3 _ _ _ HT ltac:(lia) (t_root _ _ _ _ HT) Hu Hleaf) as Hlt.
  set (e := entry_addr t (index 0 va)) in *.
  assert (_pgt_virt_base s' = _pgt_virt_base s) as Hroot by done.
  assert (forall t' n' i', L !! t' = Some n' -> 0 <= i' < 512 -> t' <> t \/ i' <> index 0 va ->
    word s' (entry_addr t' i') = word s (entry_addr t' i')) as Hsame.
  { intros t' n' i' Ht' Hi' Hne. unfold s', map_entry. rewrite word_write, decide_False; [done|].
    intros Ee. destruct (t_frame _ _ _ _ HT _ _ Ht') as (p' & -> & _).
    destruct (t_frame _ _ _ _ HT _ _ Hlt) as (p & Ep & _). unfold e in Ee. rewrite Ep in Ee, Hne.
    apply entry_addr_inj in Ee as [<- <-]; [|apply index_range|done]. by destruct Hne. }
  assert (upper_agree (word s) (word s') L) as Hupper.
  { intros t' k i' Ht' Hi' _. eapply Hsame; [done..|]. left. intros ->. congruence. }
  pose proof (tables_ext _ _ (word s') _ _ _ HT Hupper (fun _ H => H)) as HT'.
  assert (forall va', user_va va' ->
    leaf_table (word s') 3 (_pgt_virt_base s) va' = leaf_table (word s) 3 (_pgt_virt_base s) va') as Hlw.
  { intros va' Hu'. apply (leaf_table_write _ _ _ _ _ 3 _ _ HT ltac:(lia) (t_root _ _ _ _ HT) Hu' Hupper). }
  assert (word s' e = set_if (has_flag fl User) set_user (set_if (has_flag fl Writable) set_writable
    (set_if (has_flag fl Present) set_present (set_base_address (word s e) pa)))) as He.
  { unfold s', map_entry. by rewrite word_write, decide_True. }
  destruct (map_bits (word s e) pa fl Hf) as [Hp Hb]. rewrite <- He in Hp, Hb.
  split; [split; [by destruct Hs|exact HT']|]. split.
  - intros va' Hsp. pose proof (user_va_same_page _ _ Hsp Hu) as Hu'.
    rewrite (get_mapping_translate s' _ _ va' HT' Hu'). unfold translate.
    rewrite Hroot, Hlw, (leaf_table_same_page _ _ _ _ _ Hsp), Hleaf by (done || lia).
    cbn [mbind option_bind]. rewrite <- (Hsp O) by lia. fold e. by rewrite Hp, Hb.
  - intros va' Hu' Hne.
    rewrite (get_mapping_translate s' _ _ va' HT' Hu'), (get_mapping_translate s _ _ va' HT Hu').
    f_equal. unfold translate. rewrite Hroot, Hlw by done.
    destruct (leaf_table (word s) 3 _ va') as [t'|] eqn:El; [|done]. cbn [mbind option_bind].
    pose proof (leaf_table_level _ _ _ _ 3 _ _ _ HT ltac:(lia) (t_root _ _ _ _ HT) Hu' El) as Hlt'.
    rewrite (Hsame t' O); [done|done|apply index_range|].
    destruct (decide (t' = t)) as [->|]; [right|by left]. intros Ei. apply Hne. intros n Hn.
    destruct n as [|n]; [done|].
    apply (leaf_table_inj _ _ _ _ 3 _ _ _ _ _ HT ltac:(lia) (t_root _ _ _ _ HT) (t_root _ _ _ _ HT)
      Hu Hu' Hleaf El). lia.
Qed.

Lemma present_nonzero b : present b = true -> b <> 0.
Proof. by intros Hp ->. Qed.

Lemma insert_mapping_spec s L va pa fl k :
  vma_ok s L -> user_va va -> has_flag fl Present = true -> avail_pages (3 + k) s ->
  exists s' L', insert_mapping s va pa fl = Ok s' /\ vma_ok s' L' /\ avail_pages k s' /\
    (forall va', same_page va va' ->
       get_mapping s' va' = Ok (Some (Z.lor (Z.land pa not_fff) (__page_offset va')))) /\
    (forall va', user_va va' -> ~ same_page va va' -> get_mapping s' va' = get_mapping s va') /\
    grows 3 s L s' L'.
Proof.
  intros Hok Hu Hf Hav. unfold insert_mapping. rewrite va_table_indicies_eq.
  pose proof (t_root _ _ _ _ (vo_tables _ _ Hok)) as Hr.
  destruct (ensure_table_spec s L _ 2 (index 3 va) _ Hok Hr (index_range 3 va) (user_va_slot 3 va Hu) Hav)
    as (s1 & L1 & t1 & E1 & Hok1 & Hav1 & Hr1 & Hm1 & Ev1 & Hp1 & -> & Hl1 & _ & Hg1 & K1).
  step_to E1. step_to Ev1. set (e1 := entry_addr (_pgt_virt_base s) (index 3 va)) in *.
  destruct (ensure_table_spec s1 L1 _ 1 (index 2 va) _ Hok1 Hl1 (index_range 2 va) (user_va_slot 2 va Hu) Hav1)
    as (s2 & L2 & t2 & E2 & Hok2 & Hav2 & Hr2 & Hm2 & Ev2 & Hp2 & -> & Hl2 & Hk2 & Hg2 & K2).
  step_to E2. step_to Ev2. set (e2 := entry_addr (child (word s1 e1)) (index 2 va)) in *.
  destruct (ensure_table_spec s2 L2 _ 0 (index 1 va) _ Hok2 Hl2 (index_range 1 va) (user_va_slot 1 va Hu) Hav2)
    as (s3 & L3 & t3 & E3 & Hok3 & Hav3 & Hr3 & Hm3 & Ev3 & Hp3 & -> & Hl3 & Hk3 & Hg3 & K3).
  step_to E3. step_to Ev3. set (e3 := entry_addr (child (word s2 e2)) (index 1 va)) in *.
  assert (word s3 e1 = word s1 e1) as Ew1.
  { transitivity (word s2 e1).
    - unfold e1. apply (Hk3 _ 3%nat); [by apply Hm2, Hm1|apply index_range|].
      rewrite (Hk2 _ 3%nat); [by apply present_nonzero|by apply Hm1|apply index_range|by apply present_nonzero].
    - unfold e1. apply (Hk2 _ 3%nat); [by apply Hm1|apply index_range|by apply present_nonzero]. }
  assert (word s3 e2 = word s2 e2) as Ew2.
  { unfold e2. apply (Hk3 _ 2%nat); [by apply Hm2|apply index_range|by apply present_nonzero]. }
  assert (leaf_table (word s3) 3 (_pgt_virt_base s3) va = Some (child (word s3 e3))) as Hleaf.
  { rewrite Hr3, Hr2, Hr1. cbn [leaf_table]. fold e1. rewrite Ew1, Hp1. fold e2. rewrite Ew2, Hp2.
    fold e3. by rewrite Hp3. }
  destruct (map_entry_spec s3 L3 _ va pa fl Hok3 Hu Hleaf Hf) as (Hok4 & Hg4 & Ho4).
  eexists _, L3. split; [done|]. split; [done|]. split; [|split; [done|split]].
  - destruct Hav3 as (l & Hl). by exists l.
  - intros va' Hu' Hne. rewrite Ho4, Hg3, Hg2, Hg1 by done. done.
  - apply (grows_trans 3 0 s L s3 L3); [exact (grows_trans 1 2 _ _ _ _ _ _ K1 (grows_trans 1 1 _ _ _ _ _ _ K2 K3))|].
    split; [exists []; split; [done|by right]|].
    by eapply (entry_kept s3 _ L3 _ 0%nat (index 0 va)); [done|exact Hl3|apply index_range|done|].
Qed.
End ops.
