(* ===== verification/VmaTheorems.v ===== *)
(** * What infos/mm/vma.cpp guarantees

    A new address space maps nothing; mapping a page changes this page alone;
    [allocate_virt] backs a whole range with one block of fresh pages. *)
From S2P Require Import Prelude Define PageDesc Buddy BuddyRep BuddyProof PageAllocator PageAllocatorProof PageAllocatorTheorems Vma VmaProof VmaOps.

#[local] Arguments wrap : simpl never.

(** ** Arithmetic of ranges of pages *)
Lemma index_u64 n va : (n < 4)%nat -> index n (u64 va) = index n va.
Proof.
  intros Hn. unfold index. apply Z.bits_inj'. intros i Hi. destruct (Z.ltb_spec i 9).
  - rewrite !Z.mod_pow2_bits_low, !Z.shiftr_spec by lia. unfold wrap.
    by rewrite Z.mod_pow2_bits_low by lia.
  - by rewrite !Z.mod_pow2_bits_high by lia.
Qed.

Lemma same_page_u64 va : same_page (u64 va) va.
Proof. intros n Hn. by apply index_u64. Qed.

#[global] Instance same_page_equiv : Equivalence same_page.
Proof.
  split; [done|intros x y Hs n Hn; by rewrite Hs|intros x y z H1 H2 n Hn; by rewrite H1, H2].
Qed.

#[global] Instance same_page_dec va va' : Decision (same_page va va').
Proof.
  destruct (decide (Z.shiftr va 12 mod 2 ^ 36 = Z.shiftr va' 12 mod 2 ^ 36));
    [left|right]; by rewrite same_page_spec.
Defined.

(** Different pages of a range of less than 2^36 pages are different. *)
Lemma same_page_range va i j : 0 <= i < 2 ^ 36 -> 0 <= j < 2 ^ 36 ->
  same_page (va + i * 4096) (va + j * 4096) -> i = j.
Proof.
  intros Hi Hj Hs%same_page_spec. rewrite !Z.shiftr_div_pow2 in Hs by lia.
  change (2 ^ 12) with 4096 in Hs. rewrite !Z.div_add in Hs by lia.
  assert (((va / 4096 + i) - (va / 4096 + j)) mod 2 ^ 36 = 0) as Hd.
  { rewrite Zminus_mod, Hs, Z.sub_diag. done. }
  apply Z.mod_divide in Hd; [|done]. destruct Hd as [k Hk]. assert (k = 0) as -> by lia. lia.
Qed.

Lemma page_lor_offset p va : 0 <= p -> Z.lor (p * 4096) (__page_offset va) = p * 4096 + __page_offset va.
Proof.
  intros Hp. rewrite __page_offset_eq. change __page_size with (2 ^ 12). change 4096 with (2 ^ 12).
  rewrite <- Z.lxor_lor, <- Z.add_nocarry_lxor; [done| |]; apply Z.bits_inj'; intros n Hn;
    rewrite Z.land_spec, Z.bits_0; destruct (Z.ltb_spec n 12);
    try (rewrite Z.mul_pow2_bits_low by lia; done); rewrite (Z.mod_pow2_bits_high va) by lia;
    apply andb_false_r.
Qed.

Lemma same_page_add a c : same_page (u64 a + c) (a + c).
Proof.
  etrans; [symmetry; apply same_page_u64|]. unfold wrap at 1. unfold wrap.
  rewrite Zplus_mod_idemp_l. apply same_page_u64.
Qed.

Lemma land_u64 x : Z.land (u64 x) not_fff = Z.land x not_fff.
Proof.
  apply Z.bits_inj'. intros n Hn. rewrite !Z.land_spec, not_fff_bits by lia.
  destruct (Z.ltb_spec n 64); [|by rewrite !andb_false_r]. unfold wrap.
  by rewrite Z.mod_pow2_bits_low by lia.
Qed.

Lemma land_u64_add a c : Z.land (u64 a + c) not_fff = Z.land (a + c) not_fff.
Proof.
  rewrite <- land_u64. unfold wrap. rewrite Zplus_mod_idemp_l. apply (land_u64 (a + c)).
Qed.

Section client.
Context {A : Type} `{PageAllocatorAlgorithmLaws A fresh_state owned can_free}.
Implicit Types (s : VMA A).

Notation vma_ok := (vma_ok (owned := owned)).
Notation sys_ok := (sys_ok (owned := owned)).

Lemma map_range_spec n s L vb pb k :
  vma_ok s L -> Z.of_nat n <= 2 ^ 36 ->
  (forall i, 0 <= i < Z.of_nat n -> user_va (vb + i * 4096)) -> avail_pages (3 * n + k) s ->
  exists s' L', map_range n s vb pb = Ok s' /\ vma_ok s' L' /\ avail_pages k s' /\
    (forall i va, 0 <= i < Z.of_nat n -> same_page (vb + i * 4096) va -> get_mapping s' va =
       Ok (Some (Z.lor (Z.land (pb + i * 4096) not_fff) (__page_offset va)))) /\
    (forall va, user_va va -> (forall i, 0 <= i < Z.of_nat n -> ~ same_page (vb + i * 4096) va) ->
       get_mapping s' va = get_mapping s va) /\ grows (3 * n) s L s' L'.
Proof.
  revert s L vb pb. induction n as [|n IH]; intros s L vb pb Hok Hn Hu Hav; cbn [map_range].
  { exists s, L. split_and!; try done; [intros i va Hi; lia|apply grows_refl]. }
  assert (user_va vb) as Hu0 by (replace vb with (vb + 0 * 4096) by lia; apply Hu; lia).
  destruct (insert_mapping_spec s L vb pb (Z.lor (Z.lor Present User) Writable) (3 * n + k) Hok Hu0)
    as (s1 & L1 & E1 & Hok1 & Hav1 & Hg1 & Ho1 & K1); [done| |].
  { by replace (3 + (3 * n + k))%nat with (3 * S n + k)%nat by lia. }
  step_to E1. change 0x1000 with 4096.
  assert (forall i, same_page (u64 (vb + 4096) + i * 4096) (vb + (i + 1) * 4096)) as Hshift.
  { intros i. replace (vb + (i + 1) * 4096) with (vb + 4096 + i * 4096) by lia. apply same_page_add. }
  destruct (IH s1 L1 (u64 (vb + 4096)) (u64 (pb + 4096)) Hok1) as (s2 & L2 & E2 & Hok2 & Hav2 & Hg2 & Ho2 & K2);
    [lia| |done|].
  { intros i Hi. eapply user_va_same_page; [symmetry; apply Hshift|]. apply Hu. lia. }
  exists s2, L2. split_and!; try done.
  - intros i va Hi Hs. destruct (decide (i = 0)) as [->|].
    + rewrite Ho2.
      * rewrite Z.mul_0_l, Z.add_0_r in Hs |- *. by apply Hg1.
      * eapply user_va_same_page; [exact Hs|apply Hu; lia].
      * intros j Hj Hsj. assert (0 = j + 1); [|lia]. apply (same_page_range vb); [lia..|].
        etrans; [exact Hs|]. etrans; [symmetry; exact Hsj|apply Hshift].
    + rewrite (Hg2 (i - 1)); [| lia |].
      * rewrite land_u64_add. by replace (pb + 4096 + (i - 1) * 4096) with (pb + i * 4096) by lia.
      * etrans; [apply Hshift|]. by replace (i - 1 + 1) with i by lia.
  - intros va Huv Hno. rewrite Ho2; [apply Ho1; [done|]|done|].
    + intros Hs. apply (Hno 0); [lia|]. by replace (vb + 0 * 4096) with vb by lia.
    + intros i Hi Hs. apply (Hno (i + 1)); [lia|]. etrans; [symmetry; apply Hshift|done].
  - eapply grows_le; [|exact (grows_trans _ _ _ _ _ _ _ _ K1 K2)]. lia.
Qed.

Lemma avail_pages_block n s s' pgd order : 0 <= order -> allocated (owned := owned) s s' pgd order ->
  avail_pages (Z.to_nat (2 ^ order) + n) s -> avail_pages n s'.
Proof.
  intros Ho Hal (l & Hnd & Hl & Hav). set (P := fun x => ~ (pgd <= x < pgd + 2 ^ order)).
  exists (filter P l). split; [by apply NoDup_filter|]. split.
  - pose proof (Permutation_length (filter_app_complement P l)) as Hc. rewrite length_app in Hc.
    assert (length (filter (fun x => ~ P x) l) <= Z.to_nat (2 ^ order))%nat; [|lia].
    rewrite <- (length_seqZ pgd (2 ^ order)). apply submseteq_length, NoDup_submseteq.
    + by apply NoDup_filter.
    + intros x [Hx _]%list_elem_of_filter. apply elem_of_seqZ. unfold P in Hx.
      destruct (decide (pgd <= x < pgd + 2 ^ order)); tauto.
  - intros x [Hne Hx]%list_elem_of_filter. unfold available.
    rewrite (al_other _ _ _ _ Hal); [by apply Hav|]. exact Hne.
Qed.

Lemma avail_pages_le n m s : (n <= m)%nat -> avail_pages m s -> avail_pages n s.
Proof. intros Hle (l & Hnd & Hl & Hav). exists l. split_and!; [done|lia|done]. Qed.

(** C11: mapping a page makes every address of the page translate to the frame
    with the same offset and leaves the translation of every other page as it
    was; the call returns whenever three pages are available for new tables. *)
Theorem insert_mapping_correct s L va pa fl :
  vma_ok s L -> user_va va -> has_flag fl Present = true -> avail_pages 3 s ->
  exists s' L', insert_mapping s va pa fl = Ok s' /\ vma_ok s' L' /\
    (forall va', same_page va va' ->
       get_mapping s' va' = Ok (Some (Z.lor (Z.land pa not_fff) (__page_offset va')))) /\
    forall va', user_va va' -> ~ same_page va va' -> get_mapping s' va' = get_mapping s va'.
Proof.
  intros Hok Hu Hf Hav.
  destruct (insert_mapping_spec s L va pa fl 0 Hok Hu Hf Hav) as (s' & L' & E & Hok' & _ & H1 & H2 & _). by exists s', L'.
Qed.

Lemma VMA_new_spec pg mem k :
  let s0 := {| _page_allocations := []; _pgt_phys_base := 0; _pgt_virt_base := 0;
               pgalloc := pg; words := mem |} in
  sys_ok s0 -> avail_pages (S k) s0 ->
  exists s L, VMA_new pg mem = Ok s /\ vma_ok s L /\ avail_pages k s /\ pa_to_vpa (_pgt_phys_base s) = Ok (_pgt_virt_base s) /\
    (forall va, user_va va -> get_mapping s va = Ok None) /\ taken 1 s0 s.
Proof.
  intros s0 Hs Hav. unfold VMA_new. fold s0.
  destruct (allocate_phys_spec s0 0 Hs ltac:(lia) (avail_run_0 _ _ Hav)) as (pgd & s1 & E1 & Hal).
  step_to E1. cbn [assert_some mbind outcome_bind].
  pose proof (al_range _ _ _ _ Hal) as Hr. change (2 ^ 0) with 1 in Hr.
  step_to (pgd_to_vpa_eq (descriptors (pgalloc s1)) pgd ltac:(lia)). rewrite pgd_to_pa_eq by lia.
  set (s := {| _page_allocations := _page_allocations s1; _pgt_phys_base := pgd * 4096;
              _pgt_virt_base := frame_va pgd; pgalloc := pgalloc s1; words := words s1 |}).
  assert (forall i, 0 <= i < 512 -> word s (entry_addr (frame_va pgd) i) = 0) as Hz.
  { intros i Hi. change (word s1 (entry_addr (frame_va pgd) i) = 0).
    rewrite (al_words _ _ _ _ Hal), decide_True; [done|]. rewrite entry_in_frame by done. lia. }
  assert (tables (_pgt_virt_base s) (word s) (descriptors (pgalloc s)) {[frame_va pgd := 3%nat]}) as HT.
  { split.
    - apply lookup_singleton_eq.
    - intros t n [<- <-]%lookup_singleton_Some. exists pgd. split_and!; [done|lia..|].
      apply (al_block _ _ _ _ Hal). unfold block. lia.
    - intros t n i [<- _]%lookup_singleton_Some Hi _. left. by apply Hz.
    - intros t t' n n' i i' [<- _]%lookup_singleton_Some _ Hi _ _ _ Hnz. by rewrite Hz in Hnz. }
  exists s, {[frame_va pgd := 3%nat]}. split; [done|]. split; [split; [|done]|split; [|split; [|split]]].
  - destruct (al_sys _ _ _ _ Hal). by split.
  - destruct (avail_pages_alloc _ _ _ _ Hal Hav) as (l & Hl). by exists l.
  - apply pa_to_vpa_frame. lia.
  - intros va Hu. rewrite (get_mapping_translate s _ _ va HT Hu). unfold translate.
    cbn [leaf_table]. change (_pgt_virt_base s) with (frame_va pgd).
    by rewrite Hz by apply index_range.
  - destruct (allocated_taken s0 s1 pgd 0 ltac:(lia) Hal) as (l & Hl). by exists l.
Qed.

(** A new address space takes one cleared page for its root table and maps
    no user address. *)
Lemma VMA_new_correct pg mem :
  let s0 := {| _page_allocations := []; _pgt_phys_base := 0; _pgt_virt_base := 0;
               pgalloc := pg; words := mem |} in
  sys_ok s0 -> avail_pages 1 s0 ->
  exists s L, VMA_new pg mem = Ok s /\ vma_ok s L /\ pa_to_vpa (_pgt_phys_base s) = Ok (_pgt_virt_base s) /\
    forall va, user_va va -> get_mapping s va = Ok None.
Proof.
  intros s0 Hs Hav. destruct (VMA_new_spec pg mem 0 Hs Hav) as (s & L & E & Hok & _ & H1 & H2 & _). by exists s, L.
Qed.

Lemma allocate_virt_spec s L va nr_pages :
  let order := __log2ceil nr_pages in
  vma_ok s L -> 0 < nr_pages <= 2 ^ 16 ->
  (forall i, 0 <= i < 2 ^ order -> user_va (va + i * 4096)) ->
  avail_run order s -> avail_pages (4 * Z.to_nat (2 ^ order)) s ->
  exists s' L' pgd, allocate_virt s va nr_pages = Ok (true, s') /\ vma_ok s' L' /\ nr_pages <= 2 ^ order /\
    (forall x, block pgd order x -> available (descriptors (pgalloc s)) x) /\
    (forall i va', 0 <= i < 2 ^ order -> same_page (va + i * 4096) va' ->
       get_mapping s' va' = Ok (Some ((pgd + i) * 4096 + __page_offset va'))) /\
    (forall va', user_va va' -> (forall i, 0 <= i < 2 ^ order -> ~ same_page (va + i * 4096) va') ->
      get_mapping s' va' = get_mapping s va') /\
    grows (4 * Z.to_nat (2 ^ order)) s L s' L' /\
    (forall x, block pgd order x -> data_page s' L' x /\ forall a, in_page x a -> word s' a = 0) /\
    0 < pgd /\ pgd + 2 ^ order <= 2 ^ 20.
Proof.
  intros order Hok Hn Hu Hrun Hav. destruct (__log2ceil_spec nr_pages ltac:(lia)) as (Ho & Hle & Hmin).
  fold order in Ho, Hle, Hmin. specialize (Hmin 16 ltac:(lia) ltac:(lia)).
  assert (0 < 2 ^ order <= 2 ^ 16) as Hb.
  { split; [apply Z.pow_pos_nonneg; lia|apply Z.pow_le_mono_r; lia]. }
  unfold allocate_virt. rewrite (proj2 (Z.eqb_neq nr_pages 0)), (wrap_small 64) by lia. fold order.
  destruct (allocate_phys_spec s order (vo_sys _ _ Hok) ltac:(lia) Hrun) as (pgd & s1 & E1 & Hal).
  step_to E1. pose proof (al_range _ _ _ _ Hal) as Hr. rewrite pgd_to_pa_eq by lia.
  destruct (vma_ok_allocated _ _ _ _ _ Hok Hal) as [Hok1 Hg1].
  destruct (allocated_grows s s1 pgd order L ltac:(lia) Hal Hok) as [K1 Hdata].
  rewrite Z.shiftl_mul_pow2, Z.mul_1_l, (wrap_small 32) by lia.
  destruct (map_range_spec (Z.to_nat (2 ^ order)) s1 L va (pgd * 4096) 0 Hok1)
    as (s2 & L2 & E2 & Hok2 & _ & Hg2 & Ho2 & K2); rewrite ?Z2Nat.id in * by lia.
  - lia.
  - done.
  - eapply avail_pages_block; [done|exact Hal|]. eapply avail_pages_le; [|exact Hav]. lia.
  - step_to E2. exists s2, L2, pgd. split_and!; try done.
    + intros x Hx. by apply (al_block _ _ _ _ Hal).
    + intros i va' Hi Hs. rewrite (Hg2 i va' Hi Hs). rewrite <- Z.mul_add_distr_r.
      rewrite page_base_mul by lia. by rewrite page_lor_offset by lia.
    + intros va' Huv Hno. rewrite Ho2 by done. by apply Hg1.
    + eapply grows_le; [|exact (grows_trans _ _ _ _ _ _ _ _ K1 K2)]. lia.
    + intros x Hx. destruct (proj2 K2 x (Hdata x Hx)) as [Hd Hw]. split; [done|]. intros a Ha.
      rewrite Hw by done. rewrite (al_words _ _ _ _ Hal), decide_True; [done|].
      unfold block in Hx. unfold in_page, frame_va in *. lia.
    + lia.
    + lia.
Qed.

(** C12: allocate_virt backs the whole range with one block of pages that were
    available, page by page in order, and leaves every other address of the
    space as it was. *)
Theorem allocate_virt_correct s L va nr_pages :
  let order := __log2ceil nr_pages in
  vma_ok s L -> 0 < nr_pages <= 2 ^ 16 ->
  (forall i, 0 <= i < 2 ^ order -> user_va (va + i * 4096)) ->
  avail_run order s -> avail_pages (4 * Z.to_nat (2 ^ order)) s ->
  exists s' L' pgd, allocate_virt s va nr_pages = Ok (true, s') /\ vma_ok s' L' /\ nr_pages <= 2 ^ order /\
    (forall x, block pgd order x -> available (descriptors (pgalloc s)) x) /\
    (forall i va', 0 <= i < 2 ^ order -> same_page (va + i * 4096) va' ->
       get_mapping s' va' = Ok (Some ((pgd + i) * 4096 + __page_offset va'))) /\
    forall va', user_va va' -> (forall i, 0 <= i < 2 ^ order -> ~ same_page (va + i * 4096) va') ->
      get_mapping s' va' = get_mapping s va'.
Proof.
  intros order Hok Hn Hu Hrun Hav.
  destruct (allocate_virt_spec s L va nr_pages Hok Hn Hu Hrun Hav) as (s' & L' & pgd & E & H1 & H2 & H3 & H4 & H5 & _).
  by exists s', L', pgd.
Qed.

(** The kernel's two root entries can be installed at any time: no user
    translation changes. *)
Lemma kernel_mapping_spec s L template :
  vma_ok s L ->
  exists s', install_default_kernel_mapping s (Some template) = Ok s' /\ vma_ok s' L /\
    word s' (entry_addr (_pgt_virt_base s) 0x1ff) = template 0x1ff /\
    word s' (entry_addr (_pgt_virt_base s) 0x100) = template 0x100 /\
    (forall va, user_va va -> get_mapping s' va = get_mapping s va) /\ grows 0 s L s' L.
Proof.
  intros Hok. pose proof Hok as [Hs HT]. unfold install_default_kernel_mapping. cbn [assert_some mbind outcome_bind].
  set (s1 := write s _ _). change (_pgt_virt_base s1) with (_pgt_virt_base s).
  set (s2 := write s1 _ _). exists s2.
  destruct (t_frame _ _ _ _ HT _ _ (t_root _ _ _ _ HT)) as (r & Er & Hr & _).
  assert (forall p i, 0 <= i < 512 -> p <> r \/ (i <> 0x100 /\ i <> 0x1ff) ->
    word s2 (entry_addr (frame_va p) i) = word s (entry_addr (frame_va p) i)) as Hw.
  { intros p i Hi Hne. unfold s2, s1. rewrite !word_write, Er.
    rewrite !decide_False; [done| |]; intros [-> <-]%entry_addr_inj; lia. }
  assert (upper_agree (word s) (word s2) L) as Hup.
  { intros t n i Ht Hi Hu. destruct (t_frame _ _ _ _ HT _ _ Ht) as (p & -> & _). apply Hw; [done|].
    destruct (decide (p = r)) as [->|]; [right|by left]. apply Hu.
    rewrite <- Er, (t_root _ _ _ _ HT) in Ht. congruence. }
  pose proof (tables_ext _ _ (word s2) _ _ _ HT Hup (fun _ H => H)) as HT2.
  split; [done|]. split; [split; [by destruct Hs|exact HT2]|]. split_and!.
  - unfold s2. rewrite word_write, decide_False.
    + unfold s1. by rewrite word_write, decide_True.
    + rewrite Er. intros [_ ?]%entry_addr_inj; lia.
  - unfold s2. by rewrite word_write, decide_True.
  - intros va Hu. rewrite (get_mapping_translate s2 _ _ va HT2 Hu), (get_mapping_translate s _ _ va HT Hu).
    f_equal. unfold translate. change (_pgt_virt_base s2) with (_pgt_virt_base s).
    rewrite (leaf_table_write _ _ (word s2) _ _ 3 _ _ HT ltac:(lia) (t_root _ _ _ _ HT) Hu Hup).
    destruct (leaf_table (word s) 3 _ va) as [tl|] eqn:E; [|done]. cbn [mbind option_bind].
    pose proof (leaf_table_level _ _ _ _ 3 _ _ _ HT ltac:(lia) (t_root _ _ _ _ HT) Hu E) as Hl.
    destruct (t_frame _ _ _ _ HT _ _ Hl) as (p & -> & _).
    rewrite Hw; [done|apply index_range|]. left. intros ->.
    rewrite <- Er, (t_root _ _ _ _ HT) in Hl. congruence.
  - split; [exists []; split; [done|by right]|]. intros q [Hq HL]. split; [done|]. intros a Ha.
    unfold s2, s1. rewrite !word_write, Er. rewrite !decide_False; [done| |]; intros <-;
      assert (q = r) as -> by (unfold in_page, entry_addr, frame_va in Ha; lia);
      pose proof (t_root _ _ _ _ HT) as Hroot; rewrite Er in Hroot; congruence.
Qed.
End client.

(** ** Closed instances: an address space on the 256 MiB machine *)
Lemma machine_sys : exists pg : PageAllocator (list (option Z)),
  let s0 := {| _page_allocations := []; _pgt_phys_base := 0; _pgt_virt_base := 0;
               pgalloc := pg; words := ∅ |} in
  sys_ok (owned := buddy_owned) s0 /\ _nr_pages (descriptors pg) = 65536 /\
  forall x, 0x8000 <= x < 0x8000 + 1000 -> available (descriptors (pgalloc s0)) x.
Proof.
  destruct (machine_started _ _ machine_ok_256M) as (pg & Hp & HN & Ht). exists pg. intros s0. split; [|split; [done|]].
  - split; cbn [pgalloc s0]; [done|rewrite HN; done|]. unfold available. by rewrite Ht by lia.
  - intros x Hx. unfold available. cbn [pgalloc s0]. rewrite Ht by lia. f_equal.
    unfold initial_type.
    repeat match goal with |- (if in_run ?a ?b x then _ else _) = _ =>
      let a' := eval vm_compute in a in let b' := eval vm_compute in b in
      change a with a'; change b with b';
      replace (in_run a' b' x) with false by (symmetry; unfold in_run; lia) end.
    change (PageAllocatorTheorems.present (_phys_mem_blocks machine_mm) x) with
      (true && in_run 0 65536 x || false). unfold in_run.
    by rewrite (proj2 (Z.leb_le _ _)), (proj2 (Z.ltb_lt _ _)) by lia.
Qed.

Lemma machine_ample : exists pg : PageAllocator (list (option Z)),
  let s0 := {| _page_allocations := []; _pgt_phys_base := 0; _pgt_virt_base := 0;
               pgalloc := pg; words := ∅ |} in
  sys_ok (owned := buddy_owned) s0 /\ avail_pages 1000 s0 /\ avail_runs 1 500 s0.
Proof.
  destruct machine_sys as (pg & Hs & _ & Hav). exists pg. intros s0. split; [done|]. split.
  - exists (seqZ 0x8000 1000). split; [apply NoDup_seqZ|]. split; [by rewrite length_seqZ|].
    intros x Hx%elem_of_seqZ. by apply Hav.
  - exists (map (Z.mul 2) (seqZ 0x4000 500)). split; [apply NoDup_fmap_2_strong; [intros x y _ _ ?; lia|apply NoDup_seqZ]|].
    split; [by rewrite length_map, length_seqZ|]. intros q (k & -> & Hk%elem_of_seqZ)%list_elem_of_fmap.
    split; [exists k; lia|]. intros x Hx. apply Hav. unfold block in Hx. lia.
Qed.

Lemma VMA_new_correct_witness : exists (pg : PageAllocator (list (option Z))) s,
  VMA_new pg ∅ = Ok s /\ get_mapping s 0x400000 = Ok None.
Proof.
  destruct machine_ample as (pg & Hs & Hav & _). exists pg.
  destruct (VMA_new_correct pg ∅ Hs) as (s & L & E & _ & _ & Hg); [eapply avail_pages_le; [|exact Hav]; lia|].
  exists s. split; [done|]. apply Hg. intros _. vm_compute. done.
Defined.

Lemma machine_vma : exists (s : VMA (list (option Z))) L,
  vma_ok (owned := buddy_owned) s L /\ avail_pages 999 s /\ avail_runs 1 499 s.
Proof.
  destruct machine_ample as (pg & Hs & Hav & Hruns).
  destruct (VMA_new_spec pg ∅ 999 Hs Hav) as (s & L & _ & Hok & Hav' & _ & _ & Ht). exists s, L.
  do 2 (split; [done|]). by eapply (taken_runs 1).
Qed.

Lemma insert_mapping_correct_witness : exists (s s' : VMA (list (option Z))),
  insert_mapping s 0x400000 0x1234000 Present = Ok s' /\
  get_mapping s' 0x400123 = Ok (Some 0x1234123).
Proof.
  destruct machine_vma as (s & L & Hok & Hav & _). exists s.
  destruct (insert_mapping_correct s L 0x400000 0x1234000 Present Hok) as (s' & L' & E & _ & Hg & _).
  - intros _. vm_compute. done.
  - done.
  - eapply avail_pages_le; [|exact Hav]. lia.
  - exists s'. split; [done|]. rewrite Hg; [reflexivity|]. apply same_page_spec. reflexivity.
Defined.

Lemma allocate_virt_correct_witness : exists (s s' : VMA (list (option Z))) pgd,
  allocate_virt s 0x7fff0000 1 = Ok (true, s') /\
  get_mapping s' 0x7fff0008 = Ok (Some ((pgd + 0) * 4096 + 8)).
Proof.
  destruct machine_vma as (s & L & Hok & Hav & _). exists s.
  destruct (allocate_virt_correct s L 0x7fff0000 1 Hok) as (s' & L' & pgd & E & _ & _ & _ & Hg & _).
  - lia.
  - intros i Hi. change (2 ^ __log2ceil 1) with 1 in Hi. replace i with 0 by lia. intros _. vm_compute. done.
  - apply (avail_run_0 998 _ Hav).
  - eapply avail_pages_le; [|exact Hav]. change (2 ^ __log2ceil 1) with 1. lia.
  - exists s', pgd. split; [done|]. rewrite (Hg 0 0x7fff0008); [reflexivity|split; [done|reflexivity]|].
    apply same_page_spec. reflexivity.
Defined.

(** ** The dump *)

(** For a page whose directory index is not zero the dump prints a virtual
    address that belongs to another directory entry: the directory index is
    shifted by 20 instead of 21. *)
Lemma dump_names_wrong_page {A} (s : VMA A) pd i t :
  0 < pd < 512 -> 0 <= i < 512 -> present (word s (entry_addr t i)) = true ->
  exists va, (va, base_address (word s (entry_addr t i))) ∈ dump_pt s 0 0 pd t /\
    index 1 va <> pd /\ index 1 (Z.lor (Z.shiftl pd 21) (Z.shiftl i 12)) = pd.
Proof.
  intros Hpd Hi Hp. exists (Z.lor (Z.shiftl pd 20) (Z.shiftl i 12)).
  assert (forall k, 20 <= k -> Z.shiftr (Z.lor (Z.shiftl pd k) (Z.shiftl i 12)) 21 = Z.shiftr (Z.shiftl pd k) 21) as Hs.
  { intros k Hk. rewrite Z.shiftr_lor, (Z.shiftr_div_pow2 (Z.shiftl i 12)), (Z.shiftl_mul_pow2 i) by lia.
    rewrite (Z.div_small (i * 2 ^ 12)), Z.lor_0_r; [done|].
    change (2 ^ 21) with (512 * 2 ^ 12). nia. }
  split; [|split].
  - unfold dump_pt. apply list_elem_of_bind. exists i. split; [|by apply elem_of_seqZ].
    rewrite Hp. cbn [negb]. rewrite !Z.shiftl_0_l. change (u64 0) with 0. rewrite !Z.lor_0_l.
    rewrite (wrap_small 64 (Z.shiftl pd 20)), (wrap_small 64 (Z.shiftl i 12))
      by (rewrite Z.shiftl_mul_pow2 by lia; lia).
    apply list_elem_of_singleton. done.
  - unfold index. change (12 + 9 * Z.of_nat 1) with 21. rewrite Hs by lia.
    rewrite Z.shiftl_mul_pow2, Z.shiftr_div_pow2 by lia.
    change (2 ^ 21) with (2 * 2 ^ 20). rewrite Z.div_mul_cancel_r by lia.
    pose proof (Z.div_mod pd 2 ltac:(lia)). pose proof (Z.mod_pos_bound pd 2 ltac:(lia)).
    rewrite Z.mod_small by lia. lia.
  - unfold index. change (12 + 9 * Z.of_nat 1) with 21. rewrite Hs by lia.
    rewrite Z.shiftr_shiftl_l, Z.sub_diag, Z.shiftl_0_r by lia. apply Z.mod_small. lia.
Qed.

Lemma dump_names_wrong_page_witness : exists va,
  let s : VMA (list (option Z)) := {| _page_allocations := []; _pgt_phys_base := 0; _pgt_virt_base := 0x1000;
    pgalloc := machine_pa; words := {[0x2018 := 0x7003]} |} in
  (va, 0x7000) ∈ dump_pt s 0 0 2 0x2000 /\ index 1 va <> 2.
Proof.
  destruct (dump_names_wrong_page {| _page_allocations := []; _pgt_phys_base := 0; _pgt_virt_base := 0x1000;
    pgalloc := machine_pa; words := {[0x2018 := 0x7003]} |} 2 3 0x2000) as (va & H1 & H2 & _).
  - lia.
  - lia.
  - reflexivity.
  - by exists va.
Defined.
