(* ===== verification/Memory.v ===== *)
(** * Physical memory by bytes, and copying into an address space

    [words] of an address space is the memory behind the physical-map window
    in words of 64 bits; its bytes are the little-endian bytes of the words.
    [copy_to] of infos/mm/vma.cpp finds the place of the first byte and copies
    from there on through the window. *)
From S2P Require Import Prelude Define PageDesc PageAllocator Vma.

(** Byte [k] of a word. *)
Definition byte_of (w k : Z) : Z := Z.land (Z.shiftr w (8 * k)) 0xff.
Definition with_byte (w k v : Z) : Z := Z.lor (Z.land w (Z.lnot (Z.shiftl 0xff (8 * k)))) (Z.shiftl v (8 * k)).

Section memory.
Context {A : Type}.
Implicit Types (s : VMA A).

Definition get_byte s (a : Z) : Z := byte_of (word s (a - a mod 8)) (a mod 8).
Definition set_byte s (a v : Z) : VMA A := write s (a - a mod 8) (with_byte (word s (a - a mod 8)) (a mod 8) v).

Fixpoint memcpy s (dest : Z) (src : list Z) : VMA A :=
  match src with
  | [] => s
  | b :: src => memcpy (set_byte s dest b) (u64 (dest + 1)) src
  end.

(** [VMA::copy_to] of the bytes [src]. *)
Definition copy_bytes_to s (dest_va : Z) (src : list Z) : outcome (bool * VMA A) :=
  dest ← copy_to s dest_va;
  match dest with
  | None => Ok (false, s)
  | Some dest => Ok (true, memcpy s dest src)
  end.

(** The byte a program of the address space finds at [va]. *)
Definition user_byte s (va : Z) : outcome (option Z) :=
  pa ← get_mapping s va;
  match pa with
  | None => Ok None
  | Some pa => vpa ← pa_to_vpa pa; Ok (Some (get_byte s vpa))
  end.
End memory.

(** ** Bytes of words *)
Definition is_byte (b : Z) : Prop := 0 <= b < 256.

Lemma ff_testbit n : 0 <= n -> Z.testbit 0xff n = (n <? 8).
Proof. intros Hn. change 0xff with (Z.ones 8). rewrite Z.testbit_ones_nonneg by lia. done. Qed.

Lemma byte_testbit v n : is_byte v -> 8 <= n -> Z.testbit v n = false.
Proof.
  intros Hv Hn. unfold is_byte in Hv. destruct (decide (v = 0)) as [->|]; [apply Z.bits_0|]. apply Z.bits_above_log2; [lia|].
  apply Z.lt_le_trans with 8; [|done]. apply Z.log2_lt_pow2; lia.
Qed.

Lemma byte_of_with_byte w k j v : 0 <= k -> 0 <= j -> is_byte v ->
  byte_of (with_byte w k v) j = if decide (j = k) then v else byte_of w j.
Proof.
  intros Hk Hj Hv. unfold byte_of, with_byte. apply Z.bits_inj'. intros n Hn.
  rewrite Z.land_spec, Z.shiftr_spec, ff_testbit by lia.
  rewrite Z.lor_spec, Z.land_spec, Z.lnot_spec, !Z.shiftl_spec by lia.
  destruct (decide (j = k)) as [->|Hne].
  - replace (n + 8 * k - 8 * k) with n by lia. rewrite ff_testbit by lia.
    destruct (Z.ltb_spec n 8); cbn; [by rewrite !andb_false_r, andb_true_r|].
    rewrite andb_false_r. by rewrite byte_testbit by done.
  - rewrite Z.land_spec, Z.shiftr_spec, (ff_testbit n) by lia. destruct (Z.ltb_spec n 8); [|by rewrite !andb_false_r].
    rewrite !andb_true_r.
    assert (Z.testbit 0xff (n + 8 * j - 8 * k) = false /\ Z.testbit v (n + 8 * j - 8 * k) = false) as [-> ->].
    { destruct (decide (j < k)); [by rewrite !Z.testbit_neg_r by lia|]. rewrite ff_testbit by lia.
      rewrite byte_testbit by (done || lia). split; [|done]. apply Z.ltb_ge. lia. }
    by rewrite andb_true_r, orb_false_r.
Qed.

Lemma byte_of_0 k : byte_of 0 k = 0.
Proof. unfold byte_of. by rewrite Z.shiftr_0_l. Qed.
