(* ===== verification/RBMap.v ===== *)
(** * infos/util/map.h: the red-black map

    Nodes live in a heap, by address, with the parent and child pointers of the
    source; a pointer to a node that is not in the heap faults.  Loops over the
    tree take the number of nodes as fuel.  Keys are integers (hashes and
    handles in every use of the map). *)
From S2P Require Import Prelude.

Module Colour.
Inductive t := RED | BLACK.
#[global] Instance eq_dec : EqDecision t.
Proof. solve_decision. Defined.
End Colour.
Import Colour.

Section map.
Context {V : Type}.

Record MapNode := {
  Key : Z;
  Value : V;
  NodeColour : Colour.t;
  Parent : option Z;
  Left : option Z;
  Right : option Z
}.

#[local] Abbreviation heap := (gmap Z MapNode).

(** A map, with the heap of its nodes and the next address [new] returns. *)
Record Map := {
  _root : option Z;
  _count : Z;
  nodes : heap;
  fresh : Z
}.

Definition Map_new : Map := {| _root := None; _count := 0; nodes := ∅; fresh := 1 |}.

Definition set_nodes (m : Map) (h : heap) : Map :=
  {| _root := _root m; _count := _count m; nodes := h; fresh := fresh m |}.
Definition set_root (m : Map) (r : option Z) : Map :=
  {| _root := r; _count := _count m; nodes := nodes m; fresh := fresh m |}.

(** ** MapNode *)
Definition node (h : heap) (p : Z) : outcome MapNode := in_bounds (h !! p).

Definition with_parent (n : MapNode) (q : option Z) : MapNode :=
  {| Key := Key n; Value := Value n; NodeColour := NodeColour n; Parent := q; Left := Left n; Right := Right n |}.
Definition with_left (n : MapNode) (q : option Z) : MapNode :=
  {| Key := Key n; Value := Value n; NodeColour := NodeColour n; Parent := Parent n; Left := q; Right := Right n |}.
Definition with_right (n : MapNode) (q : option Z) : MapNode :=
  {| Key := Key n; Value := Value n; NodeColour := NodeColour n; Parent := Parent n; Left := Left n; Right := q |}.
Definition with_colour (n : MapNode) (c : Colour.t) : MapNode :=
  {| Key := Key n; Value := Value n; NodeColour := c; Parent := Parent n; Left := Left n; Right := Right n |}.
Definition with_value (n : MapNode) (v : V) : MapNode :=
  {| Key := Key n; Value := v; NodeColour := NodeColour n; Parent := Parent n; Left := Left n; Right := Right n |}.

Definition update (h : heap) (p : Z) (f : MapNode -> MapNode) : outcome heap :=
  n ← node h p; Ok (<[p := f n]> h).

Definition MapNode_new (key : Z) (value : V) : MapNode :=
  {| Key := key; Value := value; NodeColour := RED; Parent := None; Left := None; Right := None |}.

Definition parent (h : heap) (p : Z) : outcome (option Z) := n ← node h p; Ok (Parent n).
Definition left (h : heap) (p : Z) : outcome (option Z) := n ← node h p; Ok (Left n).
Definition right (h : heap) (p : Z) : outcome (option Z) := n ← node h p; Ok (Right n).
Definition red (h : heap) (p : Z) : outcome bool := n ← node h p; Ok (bool_decide (NodeColour n = RED)).
Definition black (h : heap) (p : Z) : outcome bool := n ← node h p; Ok (bool_decide (NodeColour n = BLACK)).

Definition grandparent (h : heap) (p : Z) : outcome (option Z) :=
  q ← parent h p;
  match q with
  | None => Ok None
  | Some q => parent h q
  end.

Definition i_am_left (h : heap) (p : Z) : outcome bool :=
  q ← parent h p;
  match q with
  | None => Fault AssertionFailure
  | Some q => l ← left h q; Ok (bool_decide (l = Some p))
  end.

Definition i_am_right (h : heap) (p : Z) : outcome bool :=
  q ← parent h p;
  match q with
  | None => Fault AssertionFailure
  | Some q => r ← right h q; Ok (bool_decide (r = Some p))
  end.

Definition uncle (h : heap) (p : Z) : outcome (option Z) :=
  gp ← grandparent h p;
  match gp with
  | None => Ok None
  | Some gp =>
      q ← parent h p;
      q ← deref q;
      l ← i_am_left h q;
      if l : bool then right h gp else left h gp
  end.

(** Point the child [n], if there is one, back at [p]. *)
Definition adopt (h : heap) (n : option Z) (p : Z) : outcome heap :=
  match n with
  | None => Ok h
  | Some n => update h n (fun x => with_parent x (Some p))
  end.

Definition set_left (h : heap) (p : Z) (n : option Z) : outcome heap :=
  h ← update h p (fun x => with_left x n);
  adopt h n p.

Definition set_right (h : heap) (p : Z) (n : option Z) : outcome heap :=
  h ← update h p (fun x => with_right x n);
  adopt h n p.

Definition clear_parent (h : heap) (p : Z) : outcome heap := update h p (fun x => with_parent x None).
Definition set_colour (h : heap) (p : Z) (c : Colour.t) : outcome heap := update h p (fun x => with_colour x c).

(** ** Rotations *)

(** [pivot] takes the place of [n] below the parent of [n]. *)
Definition replace_child (m : Map) (n pivot : Z) : outcome Map :=
  q ← parent (nodes m) n;
  match q with
  | None => h ← clear_parent (nodes m) pivot; Ok (set_nodes (set_root m (Some pivot)) h)
  | Some q =>
      l ← i_am_left (nodes m) n;
      h ← (if l : bool then set_left (nodes m) q (Some pivot) else set_right (nodes m) q (Some pivot));
      Ok (set_nodes m h)
  end.

Definition rotate_right (m : Map) (n : Z) : outcome Map :=
  pivot ← left (nodes m) n;
  match pivot with
  | None => Fault AssertionFailure
  | Some pivot =>
      m ← replace_child m n pivot;
      r ← right (nodes m) pivot;
      h ← set_left (nodes m) n r;
      h ← set_right h pivot (Some n);
      Ok (set_nodes m h)
  end.

Definition rotate_left (m : Map) (n : Z) : outcome Map :=
  pivot ← right (nodes m) n;
  match pivot with
  | None => Fault AssertionFailure
  | Some pivot =>
      m ← replace_child m n pivot;
      l ← left (nodes m) pivot;
      h ← set_right (nodes m) n l;
      h ← set_left h pivot (Some n);
      Ok (set_nodes m h)
  end.

(** ** Rebalancing *)
Definition red_opt (h : heap) (p : option Z) : outcome bool :=
  match p with
  | None => Ok false
  | Some p => red h p
  end.

(** The uncle is red: recolour, and go on from the grandparent. *)
Definition recolour (m : Map) (p y g : Z) : outcome Map :=
  h ← set_colour (nodes m) p BLACK;
  h ← set_colour h y BLACK;
  h ← set_colour h g RED;
  Ok (set_nodes m h).

(** The last steps of the other case: recolour and rotate the grandparent. *)
Definition recolour_rotate (m : Map) (x : Z) (rotate : Map -> Z -> outcome Map) : outcome Map :=
  p ← parent (nodes m) x;
  p ← deref p;
  h ← set_colour (nodes m) p BLACK;
  g ← grandparent h x;
  g ← deref g;
  h ← set_colour h g RED;
  rotate (set_nodes m h) g.

Fixpoint rebalance_loop (fuel : nat) (m : Map) (x : Z) : outcome Map :=
  match fuel with
  | O => Fault OutOfFuel
  | S fuel =>
      p ← parent (nodes m) x;
      r ← red_opt (nodes m) p;
      match p, r with
      | Some p, true =>
          g ← grandparent (nodes m) x;
          g ← deref g;
          gl ← left (nodes m) g;
          if bool_decide (Some p = gl) then
            y ← right (nodes m) g;
            yr ← red_opt (nodes m) y;
            match y, yr with
            | Some y, true => m ← recolour m p y g; rebalance_loop fuel m g
            | _, _ =>
                pr ← right (nodes m) p;
                '(m, x) ← (if bool_decide (Some x = pr) then m ← rotate_left m p; Ok (m, p) else Ok (m, x));
                m ← recolour_rotate m x rotate_right;
                rebalance_loop fuel m x
            end
          else
            y ← left (nodes m) g;
            yr ← red_opt (nodes m) y;
            match y, yr with
            | Some y, true => m ← recolour m p y g; rebalance_loop fuel m g
            | _, _ =>
                pl ← left (nodes m) p;
                '(m, x) ← (if bool_decide (Some x = pl) then m ← rotate_right m p; Ok (m, p) else Ok (m, x));
                m ← recolour_rotate m x rotate_left;
                rebalance_loop fuel m x
            end
      | _, _ => Ok m
      end
  end.

Definition rebalance_insert (m : Map) (nw : Z) : outcome Map :=
  h ← set_colour (nodes m) nw RED;
  m ← rebalance_loop (S (size h)) (set_nodes m h) nw;
  r ← deref (_root m);
  h ← set_colour (nodes m) r BLACK;
  Ok (set_nodes m h).

(** ** Map *)

(** The search of [add]: the node with the key, or the one to insert below. *)
Fixpoint find_owner (fuel : nat) (h : heap) (key : Z) (owner : Z) : outcome Z :=
  match fuel with
  | O => Fault OutOfFuel
  | S fuel =>
      n ← node h owner;
      if key <? Key n then
        match Left n with None => Ok owner | Some l => find_owner fuel h key l end
      else if Key n <? key then
        match Right n with None => Ok owner | Some r => find_owner fuel h key r end
      else Ok owner
  end.

Definition new_node (m : Map) (key : Z) (value : V) : Z * Map :=
  (fresh m, {| _root := _root m; _count := _count m;
               nodes := <[fresh m := MapNode_new key value]> (nodes m); fresh := fresh m + 1 |}).

Definition incr_count (m : Map) : Map :=
  {| _root := _root m; _count := u32 (_count m + 1); nodes := nodes m; fresh := fresh m |}.

Definition add (m : Map) (key : Z) (value : V) : outcome Map :=
  match _root m with
  | Some root =>
      owner ← find_owner (size (nodes m)) (nodes m) key root;
      n ← node (nodes m) owner;
      if key =? Key n then
        h ← update (nodes m) owner (fun x => with_value x value);
        Ok (set_nodes m h)
      else
        let '(nw, m) := new_node m key value in
        h ← (if key <? Key n then set_left (nodes m) owner (Some nw) else set_right (nodes m) owner (Some nw));
        m ← rebalance_insert (set_nodes m h) nw;
        Ok (incr_count m)
  | None =>
      let '(nw, m) := new_node m key value in
      h ← set_colour (nodes m) nw BLACK;
      Ok (incr_count (set_nodes (set_root m (Some nw)) h))
  end.

(** [remove] has no body in the source. *)
Definition remove (m : Map) (key : Z) : Map := m.

(** The destructor of a node deletes its children first. *)
Fixpoint delete_tree (fuel : nat) (h : heap) (p : option Z) : outcome heap :=
  match fuel, p with
  | _, None => Ok h
  | O, Some _ => Fault OutOfFuel
  | S fuel, Some p =>
      n ← node h p;
      h ← delete_tree fuel h (Left n);
      h ← delete_tree fuel h (Right n);
      Ok (delete p h)
  end.

Definition clear (m : Map) : outcome Map :=
  h ← delete_tree (S (size (nodes m))) (nodes m) (_root m);
  Ok {| _root := None; _count := 0; nodes := h; fresh := fresh m |}.

Fixpoint find (fuel : nat) (h : heap) (key : Z) (p : option Z) : outcome (option V) :=
  match fuel, p with
  | _, None => Ok None
  | O, Some _ => Fault OutOfFuel
  | S fuel, Some p =>
      n ← node h p;
      if key <? Key n then find fuel h key (Left n)
      else if Key n <? key then find fuel h key (Right n)
      else Ok (Some (Value n))
  end.

Definition try_get_value (m : Map) (key : Z) : outcome (option V) :=
  find (size (nodes m)) (nodes m) key (_root m).

Definition contains_key (m : Map) (key : Z) : outcome bool :=
  v ← find (size (nodes m)) (nodes m) key (_root m);
  Ok (match v with Some _ => true | None => false end).

Definition count (m : Map) : Z := _count m.

(** ** The iterator: breadth first, with a queue of nodes *)
Record MapIterator := { _queue : list Z; _current : option Z }.

Definition advance (h : heap) (it : MapIterator) : outcome MapIterator :=
  match _queue it with
  | [] => Ok {| _queue := []; _current := None |}
  | p :: q =>
      n ← node h p;
      let q := q ++ match Left n with Some l => [l] | None => [] end in
      let q := q ++ match Right n with Some r => [r] | None => [] end in
      Ok {| _queue := q; _current := Some p |}
  end.

Definition begin (m : Map) : outcome MapIterator :=
  match _root m with
  | None => Ok {| _queue := []; _current := None |}
  | Some r => advance (nodes m) {| _queue := [r]; _current := Some r |}
  end.

(** [*it] while [it != end()]. *)
Fixpoint iterate (fuel : nat) (h : heap) (it : MapIterator) : outcome (list (Z * V)) :=
  match _current it, fuel with
  | None, _ => Ok []
  | Some _, O => Fault OutOfFuel
  | Some p, S fuel =>
      n ← node h p;
      it ← advance h it;
      rest ← iterate fuel h it;
      Ok ((Key n, Value n) :: rest)
  end.

Definition items (m : Map) : outcome (list (Z * V)) :=
  it ← begin m; iterate (size (nodes m)) (nodes m) it.
End map.
Arguments Map V : clear implicits.
Arguments MapNode V : clear implicits.
Abbreviation heap V := (gmap Z (MapNode V)).

(** Three insertions in ascending order force a rotation. *)
Example add_three :
  (m ← add Map_new 1 10; m ← add m 2 20; m ← add m 3 30; items m) = Ok [(2, 20); (1, 10); (3, 30)].
Proof. reflexivity. Qed.
