(* ===== verification/RBMapRep.v ===== *)
(** * Trees in the heap of a map

    [rep] relates a tree with addresses to the nodes of the heap, and [plug]
    and contexts focus on a subtree.  The rotations are proved once for both
    directions. *)
From S2P Require Import Prelude RBMap.
Import Colour.

Section trees.
Context {V : Type}.
Implicit Types (h : heap V) (m : Map V).

Inductive tree := E | N (p : Z) (c : Colour.t) (k : Z) (v : V) (l r : tree).

(** A direction, and the node with the children [a] (that way) and [b]. *)
Inductive dir := L | R.
Definition opp (d : dir) : dir := match d with L => R | R => L end.
Definition mk (d : dir) (p : Z) (c : Colour.t) (k : Z) (v : V) (a b : tree) : tree :=
  match d with L => N p c k v a b | R => N p c k v b a end.
Definition mkn (d : dir) (c : Colour.t) (k : Z) (v : V) (par a b : option Z) : MapNode V :=
  match d with
  | L => {| Key := k; Value := v; NodeColour := c; Parent := par; Left := a; Right := b |}
  | R => {| Key := k; Value := v; NodeColour := c; Parent := par; Left := b; Right := a |}
  end.

Definition rootp (t : tree) : option Z := match t with E => None | N p _ _ _ _ _ => Some p end.

Fixpoint ptrs (t : tree) : list Z :=
  match t with E => [] | N p _ _ _ l r => p :: ptrs l ++ ptrs r end.

Fixpoint rep h (t : tree) (par : option Z) : Prop :=
  match t with
  | E => True
  | N p c k v l r => h !! p = Some (mkn L c k v par (rootp l) (rootp r)) /\
                     rep h l (Some p) /\ rep h r (Some p)
  end.

(** Contexts, innermost frame first. *)
Inductive frame := F (d : dir) (p : Z) (c : Colour.t) (k : Z) (v : V) (s : tree).
Definition plug1 (f : frame) (t : tree) : tree := let 'F d p c k v s := f in mk d p c k v t s.
Definition plug (ctx : list frame) (t : tree) : tree := foldl (fun t f => plug1 f t) t ctx.
Definition ctx_parent (ctx : list frame) : option Z :=
  match ctx with [] => None | F _ p _ _ _ _ :: _ => Some p end.
Definition ctx_ptrs (ctx : list frame) : list Z :=
  mbind (fun f => let 'F _ p _ _ _ s := f in p :: ptrs s) ctx.

Fixpoint rep_ctx h (ctx : list frame) (child : option Z) : Prop :=
  match ctx with
  | [] => True
  | F d p c k v s :: ctx => h !! p = Some (mkn d c k v (ctx_parent ctx) child (rootp s)) /\
                            rep h s (Some p) /\ rep_ctx h ctx (Some p)
  end.

Lemma rep_mk h d p c k v a b par :
  rep h (mk d p c k v a b) par <->
  h !! p = Some (mkn d c k v par (rootp a) (rootp b)) /\ rep h a (Some p) /\ rep h b (Some p).
Proof. destruct d; cbn; tauto. Qed.

Lemma rootp_mk d p c k v a b : rootp (mk d p c k v a b) = Some p.
Proof. by destruct d. Qed.

Lemma ptrs_mk d p c k v a b : ptrs (mk d p c k v a b) ≡ₚ p :: ptrs a ++ ptrs b.
Proof. destruct d; cbn; [done|]. by rewrite (comm (++) (ptrs b)). Qed.

Lemma ptrs_plug ctx t : ptrs (plug ctx t) ≡ₚ ctx_ptrs ctx ++ ptrs t.
Proof.
  revert t. induction ctx as [|[d p c k v s] ctx IH]; intros t; cbn; [done|].
  change (foldl _ ?x ctx) with (plug ctx x). rewrite IH, ptrs_mk. fold (ctx_ptrs ctx). solve_Permutation.
Qed.

Lemma rep_plug h ctx t :
  rep h (plug ctx t) None <-> rep_ctx h ctx (rootp t) /\ rep h t (ctx_parent ctx).
Proof.
  revert t. induction ctx as [|[d p c k v s] ctx IH]; intros t; cbn; [tauto|].
  change (foldl _ ?x ctx) with (plug ctx x). rewrite IH, rep_mk, rootp_mk. tauto.
Qed.

Lemma rep_frame h h' t par : (forall p, p ∈ ptrs t -> h' !! p = h !! p) -> rep h t par -> rep h' t par.
Proof.
  revert par. induction t as [|p c k v l IHl r IHr]; intros par Hs; cbn; [done|]. intros (Hp & Hl & Hr).
  split; [rewrite Hs; [done|left]|]. split; [apply IHl|apply IHr]; try done; intros q Hq; apply Hs; cbn; set_solver.
Qed.

Lemma rep_ctx_frame h h' ctx q : (forall p, p ∈ ctx_ptrs ctx -> h' !! p = h !! p) ->
  rep_ctx h ctx q -> rep_ctx h' ctx q.
Proof.
  revert q. induction ctx as [|[d p c k v s] ctx IH]; intros q Hs; cbn; [done|]. intros (Hp & Hl & Hr).
  cbn in Hs. split; [rewrite Hs; [done|left]|]. split.
  - eapply rep_frame; [|exact Hl]. intros x Hx. apply Hs. set_solver.
  - apply IH; [|done]. intros x Hx. apply Hs. set_solver.
Qed.

(** ** Updating nodes *)
Lemma update_spec h p n f : h !! p = Some n -> update h p f = Ok (<[p := f n]> h).
Proof. intros Hp. unfold update, node. by rewrite Hp. Qed.

Lemma adopt_spec h t par p : NoDup (ptrs t) -> rep h t par ->
  exists h', adopt h (rootp t) p = Ok h' /\ rep h' t (Some p) /\
    (forall q, q ∉ ptrs t -> h' !! q = h !! q) /\ forall q, is_Some (h' !! q) <-> is_Some (h !! q).
Proof.
  destruct t as [|q c k v l r]; cbn; [by exists h|]. intros Hnd (Hq & Hl & Hr).
  apply NoDup_cons in Hnd as [Hn Hnd]. rewrite (update_spec _ _ _ _ Hq).
  eexists. split; [done|]. split_and!.
  - by rewrite lookup_insert_eq.
  - eapply rep_frame; [|exact Hl]. intros x Hx. rewrite lookup_insert_ne; [done|]. set_solver.
  - eapply rep_frame; [|exact Hr]. intros x Hx. rewrite lookup_insert_ne; [done|]. set_solver.
  - intros x Hx. rewrite lookup_insert_ne; [done|]. set_solver.
  - intros x. destruct (decide (q = x)) as [<-|]; [rewrite lookup_insert_eq, Hq; split; eauto|].
    by rewrite lookup_insert_ne.
Qed.

(** The child pointer in a direction. *)
Definition set_near (d : dir) (h : heap V) (p : Z) (n : option Z) : outcome (heap V) :=
  match d with L => set_left h p n | R => set_right h p n end.
Definition near (d : dir) (h : heap V) (p : Z) : outcome (option Z) :=
  match d with L => left h p | R => right h p end.
Definition rotate (d : dir) (m : Map V) (n : Z) : outcome (Map V) :=
  match d with L => rotate_right m n | R => rotate_left m n end.

Lemma near_spec d h p c k v par a b : h !! p = Some (mkn d c k v par a b) ->
  near d h p = Ok a /\ near (opp d) h p = Ok b /\ parent h p = Ok par /\ red h p = Ok (bool_decide (c = RED)).
Proof.
  intros Hp. unfold near, left, right, parent, red, node.
  destruct d; cbn [opp]; rewrite !Hp; done.
Qed.

Lemma set_near_spec d h p c k v par a b t q : h !! p = Some (mkn d c k v par a b) ->
  NoDup (ptrs t) -> p ∉ ptrs t -> rep h t q ->
  exists h', set_near d h p (rootp t) = Ok h' /\ h' !! p = Some (mkn d c k v par (rootp t) b) /\
    rep h' t (Some p) /\ (forall x, x <> p -> x ∉ ptrs t -> h' !! x = h !! x) /\
    forall x, is_Some (h' !! x) <-> is_Some (h !! x).
Proof.
  intros Hp Hnd Hno Hr.
  assert (exists f, set_near d h p (rootp t) = mbind (fun h => adopt h (rootp t) p) (update h p f) /\
    f (mkn d c k v par a b) = mkn d c k v par (rootp t) b) as (f & -> & Hf).
  { destruct d; eexists; split; reflexivity. }
  rewrite (update_spec _ _ _ _ Hp), Hf. cbn [mbind outcome_bind].
  assert (rep (<[p := mkn d c k v par (rootp t) b]> h) t q) as Hr'.
  { eapply rep_frame; [|exact Hr]. intros x Hx. rewrite lookup_insert_ne; [done|]. by intros ->. }
  destruct (adopt_spec _ t q p Hnd Hr') as (h' & E1 & Hrep & Ho & Hdom).
  exists h'. split; [exact E1|]. split; [rewrite Ho by done; apply lookup_insert_eq|]. split; [done|]. split.
  - intros x Hx Hxt. rewrite Ho by done. by rewrite lookup_insert_ne.
  - intros x. rewrite Hdom. destruct (decide (p = x)) as [<-|]; [rewrite lookup_insert_eq, Hp; split; eauto|].
    by rewrite lookup_insert_ne.
Qed.

Lemma mkn_opp d c k v par a b : mkn (opp d) c k v par a b = mkn d c k v par b a.
Proof. by destruct d. Qed.

Lemma mk_opp d p c k v a b : mk (opp d) p c k v a b = mk d p c k v b a.
Proof. by destruct d. Qed.
(** ** A map focused on a subtree *)
Record holds m (ctx : list frame) (t : tree) : Prop := {
  h_ctx : rep_ctx (nodes m) ctx (rootp t);
  h_rep : rep (nodes m) t (ctx_parent ctx);
  h_root : _root m = rootp (plug ctx t);
  h_nodup : NoDup (ctx_ptrs ctx ++ ptrs t);
  h_dom p : is_Some (nodes m !! p) <-> p ∈ ctx_ptrs ctx ++ ptrs t;
  h_fresh p : p ∈ ctx_ptrs ctx ++ ptrs t -> p < fresh m
}.

Lemma plug_app ctx1 ctx2 t : plug (ctx1 ++ ctx2) t = plug ctx2 (plug ctx1 t).
Proof. apply foldl_app. Qed.

Lemma holds_plug m ctx ctx' t : holds m (ctx ++ ctx') t <-> holds m ctx' (plug ctx t).
Proof.
  assert (ctx_ptrs (ctx ++ ctx') ++ ptrs t ≡ₚ ctx_ptrs ctx' ++ ptrs (plug ctx t)) as HP.
  { rewrite ptrs_plug. unfold ctx_ptrs. rewrite bind_app. solve_Permutation. }
  assert (rep_ctx (nodes m) (ctx ++ ctx') (rootp t) /\ rep (nodes m) t (ctx_parent (ctx ++ ctx')) <->
    rep_ctx (nodes m) ctx' (rootp (plug ctx t)) /\ rep (nodes m) (plug ctx t) (ctx_parent ctx')) as Hr.
  { by rewrite <- !rep_plug, plug_app. }
  split; intros [H1 H2 H3 H4 H5 H6].
  - destruct (proj1 Hr (conj H1 H2)). split; try done.
    + by rewrite H3, plug_app.
    + by rewrite <- HP.
    + intros p. by rewrite H5, HP.
    + intros p. rewrite <- HP. apply H6.
  - destruct (proj2 Hr (conj H1 H2)). split; try done.
    + by rewrite H3, plug_app.
    + by rewrite HP.
    + intros p. by rewrite H5, HP.
    + intros p. rewrite HP. apply H6.
Qed.

Lemma rootp_plug ctx t t' : rootp t = rootp t' -> rootp (plug ctx t) = rootp (plug ctx t').
Proof.
  revert t t'. induction ctx as [|[d p c k v s] ctx IH]; intros t t' Ht; [done|].
  apply (IH (mk d p c k v t s) (mk d p c k v t' s)). by rewrite !rootp_mk.
Qed.

Lemma rootp_plug_frame f ctx t t' : rootp (plug (f :: ctx) t) = rootp (plug (f :: ctx) t').
Proof. destruct f as [d p c k v s]. apply (rootp_plug ctx (mk d p c k v t s) (mk d p c k v t' s)). by rewrite !rootp_mk. Qed.

(** [pv] takes the place of the focused subtree. *)
Lemma replace_child_spec m ctx n t pv np :
  holds m ctx t -> rootp t = Some n -> pv ∈ ptrs t -> nodes m !! pv = Some np ->
  exists m', replace_child m n pv = Ok m' /\ rep_ctx (nodes m') ctx (Some pv) /\
    (forall t', rootp t' = Some pv -> _root m' = rootp (plug ctx t')) /\
    nodes m' !! pv = Some (with_parent np (ctx_parent ctx)) /\
    (forall x, x ∉ ctx_ptrs ctx -> x <> pv -> nodes m' !! x = nodes m !! x) /\
    (forall x, is_Some (nodes m' !! x) <-> is_Some (nodes m !! x)) /\
    fresh m' = fresh m /\ _count m' = _count m.
Proof.
  intros [Hc Hr Hroot Hnd Hdom _] Hn Hpv Hnp. destruct t as [|n' c k v l r]; [done|].
  injection Hn as ->. destruct Hr as (Hn & _).
  unfold replace_child. unfold parent at 1, node at 1. rewrite Hn. cbn [in_bounds mbind outcome_bind Parent mkn].
  assert (forall x, is_Some ((<[pv := with_parent np (ctx_parent ctx)]> (nodes m)) !! x) <->
    is_Some (nodes m !! x)) as Hdom1.
  { intros x. destruct (decide (pv = x)) as [<-|]; [rewrite lookup_insert_eq, Hnp; split; eauto|].
    by rewrite lookup_insert_ne. }
  destruct ctx as [|[d q cq kq vq s] ctx]; cbn [ctx_parent].
  - unfold clear_parent. rewrite (update_spec _ _ _ _ Hnp). cbn [mbind outcome_bind].
    eexists. split; [done|]. cbn [nodes set_nodes set_root _root fresh _count]. split_and!; try done.
    + by rewrite lookup_insert_eq.
    + intros x _ Hx. by rewrite lookup_insert_ne.
  - destruct Hc as (Hq & Hs & Hc). cbn in Hnd. fold (ctx_ptrs ctx) in Hnd.
    apply NoDup_cons in Hnd as [Hq' Hnd].
    assert (pv <> q) as Hpq by (intros ->; apply Hq'; set_solver).
    assert (n <> q) as Hnq by (intros ->; apply Hq'; set_solver).
    apply NoDup_app in Hnd as (Hnd1 & Hdis & _). apply NoDup_app in Hnd1 as (_ & Hdis' & _).
    assert (i_am_left (nodes m) n = Ok (match d with L => true | R => false end)) as ->.
    { unfold i_am_left, parent, left, node. rewrite Hn. cbn [in_bounds mbind outcome_bind Parent mkn ctx_parent].
      rewrite Hq. destruct d; cbn [mkn in_bounds mbind outcome_bind Left]; f_equal.
      - apply bool_decide_eq_true. done.
      - apply bool_decide_eq_false. intros Es. destruct s as [|s0 ? ? ? ? ?]; [done|].
        injection Es as ->. apply (Hdis n); [set_solver|left]. }
    cbn [mbind outcome_bind].
    assert (exists f, (if match d with L => true | R => false end then set_left (nodes m) q (Some pv)
      else set_right (nodes m) q (Some pv)) = mbind (fun h => adopt h (Some pv) q) (update (nodes m) q f) /\
      f (mkn d cq kq vq (ctx_parent ctx) (Some n) (rootp s)) = mkn d cq kq vq (ctx_parent ctx) (Some pv) (rootp s))
      as (f & -> & Hf).
    { destruct d; eexists; split; reflexivity. }
    rewrite (update_spec _ _ _ _ Hq). cbn [rootp]. rewrite Hf. cbn [mbind outcome_bind adopt].
    rewrite (update_spec _ pv np) by (by rewrite lookup_insert_ne). cbn [mbind outcome_bind].
    eexists. split; [done|]. cbn [nodes set_nodes _root fresh _count].
    assert (forall x, x <> q -> x <> pv ->
      (<[pv := with_parent np (Some q)]> (<[q := mkn d cq kq vq (ctx_parent ctx) (Some pv) (rootp s)]> (nodes m)))
      !! x = nodes m !! x) as Ho by (intros x ? ?; by rewrite !lookup_insert_ne).
    split_and!; try done.
    + split; [by rewrite lookup_insert_ne, lookup_insert_eq by done|]. split.
      * eapply rep_frame; [|exact Hs]. intros x Hx. apply Ho.
        -- intros ->. apply Hq'. set_solver.
        -- intros ->. apply (Hdis pv); [set_solver|done].
      * eapply rep_ctx_frame; [|exact Hc]. intros x Hx. apply Ho.
        -- intros ->. apply Hq'. set_solver.
        -- intros ->. apply (Hdis pv); [set_solver|done].
    + intros t' Ht'. rewrite Hroot. apply rootp_plug_frame.
    + by rewrite lookup_insert_eq.
    + intros x Hx Hxp. apply Ho; [|done]. intros ->. apply Hx. left.
    + intros x. destruct (decide (x = q)) as [->|]; [|destruct (decide (x = pv)) as [->|]].
      * rewrite lookup_insert_ne, lookup_insert_eq, Hq by done. split; eauto.
      * rewrite lookup_insert_eq, Hnp. split; eauto.
      * by rewrite Ho.
Qed.
Lemma rotate_unfold d m n : rotate d m n =
  (pivot ← near d (nodes m) n;
   match pivot with
   | None => Fault AssertionFailure
   | Some pivot =>
       m ← replace_child m n pivot;
       r ← near (opp d) (nodes m) pivot;
       h ← set_near d (nodes m) n r;
       h ← set_near (opp d) h pivot (Some n);
       Ok (set_nodes m h)
   end).
Proof. by destruct d. Qed.

Lemma rep_ctx_child h ctx q q' : ctx = [] \/ q = q' -> rep_ctx h ctx q -> rep_ctx h ctx q'.
Proof. by intros [->| ->]. Qed.

(** Membership goals, from the membership hypotheses alone. *)
Ltac ptrs_tac :=
  repeat match goal with
  | H : rep _ _ _ |- _ => clear H
  | H : rep_ctx _ _ _ |- _ => clear H
  | H : holds _ _ _ |- _ => clear H
  | H : _ !! _ = Some _ |- _ => clear H
  | H : _ = Ok _ |- _ => clear H
  | H : _ ≡ₚ _ |- _ => clear H
  | H : NoDup _ |- _ => clear H
  | H : forall _, is_Some _ <-> _ |- _ => clear H
  | H : forall t q, _ -> rep _ t q -> rep _ t q |- _ => clear H
  | H : forall x, _ -> _ -> _ !! x = _ !! x |- _ => clear H
  end; set_solver.

Lemma rotate_spec d m ctx n cn kn vn pv cp kp vp a b r :
  holds m ctx (mk d n cn kn vn (mk d pv cp kp vp a b) r) ->
  exists m', rotate d m n = Ok m' /\ _count m' = _count m /\
    holds m' ctx (mk d pv cp kp vp a (mk d n cn kn vn b r)).
Proof.
  intros Hh. pose proof Hh as [Hc Hr Hroot Hnd Hdom Hfr].
  assert (ctx_ptrs ctx ++ ptrs (mk d n cn kn vn (mk d pv cp kp vp a b) r) ≡ₚ
    n :: pv :: ctx_ptrs ctx ++ ptrs a ++ ptrs b ++ ptrs r) as HP.
  { rewrite !ptrs_mk. solve_Permutation. }
  assert (ctx_ptrs ctx ++ ptrs (mk d pv cp kp vp a (mk d n cn kn vn b r)) ≡ₚ
    n :: pv :: ctx_ptrs ctx ++ ptrs a ++ ptrs b ++ ptrs r) as HP'.
  { rewrite !ptrs_mk. solve_Permutation. }
  rewrite HP in Hnd. apply NoDup_cons in Hnd as [Hn Hnd]. apply NoDup_cons in Hnd as [Hpv Hnd].
  apply NoDup_app in Hnd as (Hndc & Hcx & Hnd). apply NoDup_app in Hnd as (Hnda & Hax & Hnd).
  apply NoDup_app in Hnd as (Hndb & Hbx & Hndr).
  rewrite rep_mk, rootp_mk, rep_mk in Hr. destruct Hr as (En & (Ep & Ha & Hb) & Hrr).
  destruct (replace_child_spec m ctx n _ pv _ Hh (rootp_mk _ _ _ _ _ _ _)
    ltac:(rewrite !ptrs_mk; ptrs_tac) Ep)
    as (m1 & E1 & Hc1 & Hroot1 & Ep1 & Ho1 & Hd1 & Hf1 & Hcnt1).
  assert (with_parent (mkn d cp kp vp (Some n) (rootp a) (rootp b)) (ctx_parent ctx) =
    mkn d cp kp vp (ctx_parent ctx) (rootp a) (rootp b)) as Hwp by (by destruct d).
  rewrite Hwp in Ep1. rewrite <- Ho1 in En; [|ptrs_tac|ptrs_tac].
  assert (forall t q, (forall x, x ∈ ptrs t -> x ∉ ctx_ptrs ctx /\ x <> pv) ->
    rep (nodes m) t q -> rep (nodes m1) t q) as Hkeep.
  { intros t q Hx. apply rep_frame. intros x Hxt. destruct (Hx x Hxt). by apply Ho1. }
  apply Hkeep in Ha, Hb, Hrr; [|ptrs_tac..].
  rewrite rotate_unfold. destruct (near_spec d (nodes m) n cn kn vn (ctx_parent ctx) (Some pv) (rootp r))
    as (-> & _); [rewrite <- Ho1; [done|ptrs_tac|ptrs_tac]|].
  cbn [mbind outcome_bind]. step_to E1.
  destruct (near_spec _ _ _ _ _ _ _ _ _ Ep1) as (_ & -> & _). cbn [mbind outcome_bind].
  destruct (set_near_spec d _ n _ _ _ _ _ _ b _ En Hndb ltac:(ptrs_tac) Hb)
    as (h2 & E2 & En2 & Hb2 & Ho2 & Hd2). step_to E2.
  assert (forall t q, (forall x, x ∈ ptrs t -> x <> n /\ x ∉ ptrs b) ->
    rep (nodes m1) t q -> rep h2 t q) as Hkeep2.
  { intros t q Hx. apply rep_frame. intros x Hxt. destruct (Hx x Hxt). by apply Ho2. }
  apply Hkeep2 in Ha, Hrr; [|ptrs_tac..].
  rewrite <- Ho2, <- mkn_opp in Ep1; [|ptrs_tac|ptrs_tac].
  assert (NoDup (ptrs (mk d n cn kn vn b r))) as Hndn.
  { rewrite ptrs_mk. apply NoDup_cons. split; [ptrs_tac|]. by apply NoDup_app. }
  assert (rep h2 (mk d n cn kn vn b r) (ctx_parent ctx)) as Hrn by (by apply rep_mk).
  assert (pv ∉ ptrs (mk d n cn kn vn b r)) as Hpvn by (rewrite ptrs_mk; ptrs_tac).
  destruct (set_near_spec (opp d) h2 pv _ _ _ _ _ _ (mk d n cn kn vn b r) _ Ep1 Hndn Hpvn Hrn)
    as (h3 & E3 & Ep3 & Hn3 & Ho3 & Hd3).
  rewrite rootp_mk in E3. step_to E3. eexists. split; [done|]. split; [done|].
  split; cbn [nodes set_nodes _root fresh].
  - rewrite rootp_mk. eapply rep_ctx_frame; [|exact Hc1]. intros x Hx.
    rewrite Ho3, Ho2; [done| | | |rewrite ptrs_mk]; ptrs_tac.
  - rewrite rep_mk, rootp_mk. rewrite mkn_opp, rootp_mk in Ep3. split; [done|]. split; [|done].
    eapply rep_frame; [|exact Ha]. intros x Hx. apply Ho3; [|rewrite ptrs_mk]; ptrs_tac.
  - apply Hroot1, rootp_mk.
  - rewrite HP', <- HP. apply Hh.
  - intros p. by rewrite Hd3, Hd2, Hd1, Hdom, HP, HP'.
  - intros p. rewrite HP', Hf1, <- HP. apply Hfr.
Qed.
End trees.
Arguments tree V : clear implicits.
Arguments frame V : clear implicits.
