(* ===== verification/RBMapProof.v ===== *)
(** * Insertion into the red-black map

    The rebalancing loop keeps the in-order sequence and restores the colour
    rules; the search finds the place of a key. *)
From S2P Require Import Prelude RBMap RBMapRep.
Import Colour.

Section proofs.
Context {V : Type}.
Implicit Types (m : Map V) (t : tree V) (ctx : list (frame V)).

(** ** The colour rules *)

(** Every path to a leaf has [n] black nodes. *)
Fixpoint balanced t (n : nat) : Prop :=
  match t with
  | E => n = O
  | N _ RED _ _ l r => balanced l n /\ balanced r n
  | N _ BLACK _ _ l r => match n with O => False | S n => balanced l n /\ balanced r n end
  end.

Definition colour t : Colour.t := match t with E => BLACK | N _ c _ _ _ _ => c end.

(** No red node has a red child. *)
Fixpoint red_ok t : Prop :=
  match t with
  | E => True
  | N _ c _ _ l r => (c = RED -> colour l = BLACK /\ colour r = BLACK) /\ red_ok l /\ red_ok r
  end.

(** The same for a context whose hole has [n] black nodes on its paths. *)
Fixpoint ctx_balanced ctx (n : nat) : Prop :=
  match ctx with
  | [] => True
  | F _ _ RED _ _ s :: ctx => balanced s n /\ ctx_balanced ctx n
  | F _ _ BLACK _ _ s :: ctx => balanced s n /\ ctx_balanced ctx (S n)
  end.

Definition ctx_colour ctx : Colour.t := match ctx with [] => BLACK | F _ _ c _ _ _ :: _ => c end.

(** Colours in a context whose hole is black; a red node is never the root. *)
Fixpoint ctx_red_ok ctx : Prop :=
  match ctx with
  | [] => True
  | F _ _ c _ _ s :: ctx =>
      red_ok s /\ ctx_red_ok ctx /\
      (c = RED -> colour s = BLACK /\ ctx <> [] /\ ctx_colour ctx = BLACK)
  end.

Lemma balanced_mk d p c k v a b n :
  balanced (mk d p c k v a b) n <->
  match c with
  | RED => balanced a n /\ balanced b n
  | BLACK => match n with O => False | S n => balanced a n /\ balanced b n end
  end.
Proof. destruct d, c, n; cbn; tauto. Qed.

Lemma colour_mk d p c k v a b : colour (mk d p c k v a b) = c.
Proof. by destruct d. Qed.

Lemma red_ok_mk d p c k v a b : red_ok (mk d p c k v a b) <->
  (c = RED -> colour a = BLACK /\ colour b = BLACK) /\ red_ok a /\ red_ok b.
Proof. destruct d; cbn; tauto. Qed.

Lemma plug_balanced ctx t n : balanced t n -> ctx_balanced ctx n -> exists n', balanced (plug ctx t) n'.
Proof.
  revert t n. induction ctx as [|[d p c k v s] ctx IH]; intros t n Ht Hc; [by exists n|].
  cbn in Hc. change (plug (F d p c k v s :: ctx) t) with (plug ctx (mk d p c k v t s)).
  destruct c, Hc as [Hs Hc].
  - apply (IH _ n); [by apply balanced_mk|done].
  - apply (IH _ (S n)); [by apply balanced_mk|done].
Qed.

Lemma plug_red_ok ctx t : red_ok t -> ctx_red_ok ctx -> (colour t = RED -> ctx_colour ctx = BLACK) ->
  red_ok (plug ctx t).
Proof.
  revert t. induction ctx as [|[d p c k v s] ctx IH]; intros t Ht Hc Hcol; [done|].
  change (plug (F d p c k v s :: ctx) t) with (plug ctx (mk d p c k v t s)).
  cbn in Hc, Hcol. destruct Hc as (Hs & Hc & Hred). apply IH; [|done|].
  - apply red_ok_mk. split; [|done]. intros ->. split; [|by apply Hred].
    destruct (colour t) eqn:E; [|done]. by specialize (Hcol eq_refl).
  - rewrite colour_mk. intros ->. by apply Hred.
Qed.

(** ** In-order sequence *)
Fixpoint inorder t : list (Z * V) :=
  match t with
  | E => []
  | N _ _ k v l r => inorder l ++ (k, v) :: inorder r
  end.

Definition ctx_pre ctx : list (Z * V) :=
  foldr (fun f acc => acc ++ match f with F R _ _ k v s => inorder s ++ [(k, v)] | _ => [] end) [] ctx.
Definition ctx_post ctx : list (Z * V) :=
  foldr (fun f acc => match f with F L _ _ k v s => (k, v) :: inorder s | _ => [] end ++ acc) [] ctx.

Lemma inorder_plug ctx t : inorder (plug ctx t) = ctx_pre ctx ++ inorder t ++ ctx_post ctx.
Proof.
  revert t. induction ctx as [|[d p c k v s] ctx IH]; intros t; cbn; [by rewrite app_nil_r|].
  change (foldl _ ?x ctx) with (plug ctx x). rewrite IH.
  destruct d; cbn; rewrite <- ?app_assoc; cbn; by rewrite ?app_nil_r, <- ?app_assoc.
Qed.

Lemma inorder_plug_ext ctx t t' : inorder t = inorder t' -> inorder (plug ctx t) = inorder (plug ctx t').
Proof. intros Ht. by rewrite !inorder_plug, Ht. Qed.

Lemma inorder_rotate d n cn kn vn pv cp kp vp c1 c2 a b r :
  inorder (mk d pv c1 kp vp a (mk d n c2 kn vn b r)) = inorder (mk d n cn kn vn (mk d pv cp kp vp a b) r).
Proof. destruct d; cbn; rewrite <- !app_assoc; done. Qed.

Lemma inorder_colour d p c c' k v a b : inorder (mk d p c k v a b) = inorder (mk d p c' k v a b).
Proof. by destruct d. Qed.

(** ** Reading and colouring the focused nodes *)
Lemma near_mk m ctx d p c k v a b : holds m ctx (mk d p c k v a b) ->
  near d (nodes m) p = Ok (rootp a) /\ near (opp d) (nodes m) p = Ok (rootp b) /\
  parent (nodes m) p = Ok (ctx_parent ctx) /\ red (nodes m) p = Ok (bool_decide (c = RED)).
Proof. intros [_ Hr _ _ _ _]. apply rep_mk in Hr as [Hp _]. by eapply near_spec. Qed.

Lemma red_opt_rep h t par : rep h t par -> red_opt h (rootp t) = Ok (bool_decide (colour t = RED)).
Proof. destruct t as [|p c k v l r]; [done|]. intros [Hp _]. cbn. unfold red, node. by rewrite Hp. Qed.

(** Changing the colour or the value of the focused node. *)
Lemma update_focus m ctx d p c c' k v v' a b f : holds m ctx (mk d p c k v a b) ->
  (forall par x y, f (mkn d c k v par x y) = mkn d c' k v' par x y) ->
  exists h, update (nodes m) p f = Ok h /\ holds (set_nodes m h) ctx (mk d p c' k v' a b).
Proof.
  intros [Hc Hr Hroot Hnd Hdom Hfr] Hf. rewrite rep_mk in Hr. destruct Hr as (Hp & Ha & Hb).
  rewrite (update_spec _ _ _ _ Hp), Hf.
  eexists. split; [done|].
  assert (ptrs (mk d p c' k v' a b) = ptrs (mk d p c k v a b)) as HP by (by destruct d).
  pose proof Hnd as Hnd'. rewrite ptrs_mk in Hnd'.
  apply NoDup_app in Hnd' as (_ & Hx & Hnd'). apply NoDup_cons in Hnd' as [Hp' _].
  split; cbn [nodes set_nodes _root fresh].
  - rewrite rootp_mk in *. eapply rep_ctx_frame; [|exact Hc]. intros x Hxc.
    rewrite lookup_insert_ne; [done|]. intros <-. apply (Hx p Hxc). left.
  - rewrite rep_mk, lookup_insert_eq. split; [done|].
    split; (eapply rep_frame; [|eassumption]); intros x Hxt; rewrite lookup_insert_ne; try done;
      intros <-; apply Hp', elem_of_app; auto.
  - rewrite Hroot. apply rootp_plug. by rewrite !rootp_mk.
  - by rewrite HP.
  - intros q. rewrite HP, <- Hdom. destruct (decide (p = q)) as [<-|].
    + rewrite lookup_insert_eq, Hp. split; eauto.
    + by rewrite lookup_insert_ne.
  - by rewrite HP.
Qed.

Lemma set_colour_spec m ctx d p c c' k v a b : holds m ctx (mk d p c k v a b) ->
  exists h, set_colour (nodes m) p c' = Ok h /\ holds (set_nodes m h) ctx (mk d p c' k v a b).
Proof. intros Hh. eapply update_focus; [exact Hh|]. intros. by destruct d. Qed.

(** Move the focus. *)
Lemma focus_up m d p c k v s ctx t : holds m (F d p c k v s :: ctx) t <-> holds m ctx (mk d p c k v t s).
Proof. apply (holds_plug m [F d p c k v s] ctx t). Qed.

Lemma focus_other m ctx d p c k v a b :
  holds m ctx (mk d p c k v a b) <-> holds m (F (opp d) p c k v a :: ctx) b.
Proof. by rewrite focus_up, mk_opp. Qed.

Lemma dir_cases (d d' : dir) : d' = d \/ d' = opp d.
Proof. destruct d, d'; auto. Qed.

Lemma opp_opp d : opp (opp d) = d.
Proof. by destruct d. Qed.

(** What [mk] of some direction looks like from another one. *)
Lemma tree_mk d t : rootp t <> None -> exists p c k v a b, t = mk d p c k v a b.
Proof.
  destruct t as [|p c k v l r]; [done|]. intros _. destruct d; [by exists p, c, k, v, l, r|].
  by exists p, c, k, v, r, l.
Qed.

Lemma recolour_spec m ctx d p g y t s kp vp kg vg cy ky vy ya yb d1 :
  holds m ctx (mk d g BLACK kg vg (mk d1 p RED kp vp t s) (mk d y cy ky vy ya yb)) ->
  exists m', recolour m p y g = Ok m' /\ _count m' = _count m /\
    holds m' ctx (mk d g RED kg vg (mk d1 p BLACK kp vp t s) (mk d y BLACK ky vy ya yb)).
Proof.
  intros Hh. unfold recolour.
  rewrite <- focus_up in Hh. destruct (set_colour_spec m _ d1 p RED BLACK _ _ _ _ Hh) as (h1 & E1 & H1).
  rewrite focus_up, focus_other in H1.
  destruct (set_colour_spec _ _ d y cy BLACK _ _ _ _ H1) as (h2 & E2 & H2). rewrite <- focus_other in H2.
  destruct (set_colour_spec _ _ d g BLACK RED _ _ _ _ H2) as (h3 & E3 & H3).
  step_to E1. cbn [nodes set_nodes] in *. step_to E2. step_to E3.
  eexists. split; [done|]. split; [done|]. exact H3.
Qed.

Lemma recolour_rotate_spec m ctx d g p x t s y kp vp kg vg :
  holds m ctx (mk d g BLACK kg vg (mk d p RED kp vp t s) y) -> rootp t = Some x ->
  exists m', recolour_rotate m x (rotate d) = Ok m' /\ _count m' = _count m /\
    holds m' ctx (mk d p BLACK kp vp t (mk d g RED kg vg s y)).
Proof.
  intros Hh Hx. destruct (tree_mk L t) as (x' & c & k & v & a & b & ->); [by rewrite Hx|].
  rewrite rootp_mk in Hx. injection Hx as ->.
  rewrite <- focus_up in Hh. pose proof Hh as Hh1. rewrite <- focus_up in Hh1.
  unfold recolour_rotate. destruct (near_mk _ _ _ _ _ _ _ _ _ Hh1) as (_ & _ & -> & _).
  cbn [mbind outcome_bind ctx_parent deref].
  destruct (set_colour_spec m _ d p RED BLACK _ _ _ _ Hh) as (h1 & E1 & H1). step_to E1.
  pose proof H1 as H1x. rewrite <- focus_up in H1x. unfold grandparent.
  destruct (near_mk _ _ _ _ _ _ _ _ _ H1x) as (_ & _ & E2 & _). cbn [nodes set_nodes] in E2. rewrite E2.
  cbn [mbind outcome_bind ctx_parent].
  destruct (near_mk _ _ _ _ _ _ _ _ _ H1) as (_ & _ & E3 & _). cbn [nodes set_nodes] in E3. rewrite E3.
  cbn [mbind outcome_bind ctx_parent deref]. rewrite focus_up in H1.
  destruct (set_colour_spec _ _ d g BLACK RED _ _ _ _ H1) as (h2 & E4 & H2).
  cbn [nodes set_nodes] in E4. step_to E4.
  destruct (rotate_spec d _ _ _ _ _ _ _ _ _ _ _ _ _ H2) as (m' & E5 & Hc & H3).
  exists m'. split; [exact E5|]. split; [exact Hc|exact H3].
Qed.

(** One round of the loop, for both sides at once. *)
Definition round (d : dir) (fuel : nat) m (x p g : Z) : outcome (Map V) :=
  y ← near (opp d) (nodes m) g;
  yr ← red_opt (nodes m) y;
  match y, yr with
  | Some y, true => m ← recolour m p y g; rebalance_loop fuel m g
  | _, _ =>
      pr ← near (opp d) (nodes m) p;
      '(m, x) ← (if bool_decide (Some x = pr) then m ← rotate (opp d) m p; Ok (m, p) else Ok (m, x));
      m ← recolour_rotate m x (rotate d);
      rebalance_loop fuel m x
  end.

Lemma sibling_distinct m ctx d p c k v a b q :
  holds m ctx (mk d p c k v a b) -> rootp a = Some q -> rootp b <> Some q.
Proof.
  intros [_ _ _ Hnd _ _] Ha Hb. rewrite ptrs_mk in Hnd. apply NoDup_app in Hnd as (_ & _ & Hnd).
  apply NoDup_cons in Hnd as [_ Hnd]. apply NoDup_app in Hnd as (_ & Hx & _).
  destruct a, b; try done. injection Ha as ->. injection Hb as ->. apply (Hx q); left.
Qed.

Lemma rebalance_loop_round fuel m ctx d1 d2 p kp vp s1 g kg vg s2 t x :
  holds m (F d1 p RED kp vp s1 :: F d2 g BLACK kg vg s2 :: ctx) t -> rootp t = Some x ->
  rebalance_loop (S fuel) m x = round d2 fuel m x p g.
Proof.
  intros Hh Hx. destruct (tree_mk L t) as (x' & c & k & v & a & b & ->); [by rewrite Hx|].
  rewrite rootp_mk in Hx. injection Hx as ->. cbn [rebalance_loop].
  destruct (near_mk _ _ _ _ _ _ _ _ _ Hh) as (_ & _ & -> & _). cbn [mbind outcome_bind ctx_parent red_opt].
  pose proof Hh as H1. rewrite focus_up in H1. pose proof H1 as H2. rewrite focus_up in H2.
  destruct (near_mk _ _ _ _ _ _ _ _ _ H1) as (_ & _ & Ep & ->). rewrite bool_decide_true by done.
  cbn [mbind outcome_bind]. unfold grandparent.
  destruct (near_mk _ _ _ _ _ _ _ _ _ Hh) as (_ & _ & -> & _). cbn [mbind outcome_bind ctx_parent].
  rewrite Ep. cbn [mbind outcome_bind ctx_parent deref].
  destruct (near_mk _ _ _ _ _ _ _ _ _ H2) as (Eg1 & Eg2 & _). rewrite rootp_mk in Eg1.
  destruct d2; cbn [near opp] in Eg1, Eg2.
  - rewrite Eg1. cbn [mbind outcome_bind]. by rewrite bool_decide_true.
  - unfold round. cbn [near opp]. rewrite Eg2. cbn [mbind outcome_bind].
    rewrite bool_decide_false; [done|].
    intros E. symmetry in E. revert E. eapply sibling_distinct; [exact H2|]. apply rootp_mk.
Qed.

(** The loop stops when the parent is black or missing. *)
Lemma rebalance_loop_exit fuel m ctx t x : holds m ctx t -> rootp t = Some x -> ctx_colour ctx = BLACK ->
  rebalance_loop (S fuel) m x = Ok m.
Proof.
  intros Hh Hx Hcol. destruct (tree_mk L t) as (x' & c & k & v & a & b & ->); [by rewrite Hx|].
  rewrite rootp_mk in Hx. injection Hx as ->. cbn [rebalance_loop].
  destruct (near_mk _ _ _ _ _ _ _ _ _ Hh) as (_ & _ & -> & _). cbn [mbind outcome_bind].
  destruct ctx as [|[d1 p c1 k1 v1 s1] ctx]; [done|]. cbn in Hcol. subst c1. cbn [ctx_parent red_opt].
  rewrite focus_up in Hh. destruct (near_mk _ _ _ _ _ _ _ _ _ Hh) as (_ & _ & _ & ->).
  cbn [mbind outcome_bind]. by rewrite bool_decide_false.
Qed.

(** A colour-correct tree, apart from the colour of its root. *)
Definition coloured t : Prop := exists n, balanced t n /\ red_ok t.

Lemma round_rotates fuel m ctx d p g x kp vp kg vg s1 s2 t :
  holds m (F d p RED kp vp s1 :: F d g BLACK kg vg s2 :: ctx) t -> rootp t = Some x ->
  exists m', recolour_rotate m x (rotate d) = Ok m' /\ _count m' = _count m /\
    rebalance_loop (S fuel) m' x = Ok m' /\
    holds m' [] (plug ctx (mk d p BLACK kp vp t (mk d g RED kg vg s1 s2))).
Proof.
  intros Hh Hx. rewrite !focus_up in Hh.
  destruct (recolour_rotate_spec _ _ _ _ _ _ _ _ _ _ _ _ _ Hh Hx) as (m' & E1 & Hc & H1).
  exists m'. split; [done|]. split; [done|]. split.
  - rewrite <- focus_up in H1. by eapply rebalance_loop_exit.
  - rewrite <- (app_nil_r ctx) in H1. by apply holds_plug in H1.
Qed.

Lemma coloured_plug ctx t n : red_ok t -> balanced t (S n) -> colour t = BLACK ->
  ctx_red_ok ctx -> ctx_balanced ctx (S n) -> coloured (plug ctx t).
Proof.
  intros Hr Hb Hc Hcr Hcb. destruct (plug_balanced ctx t _ Hb Hcb) as [n' Hn']. exists n'.
  split; [done|]. apply plug_red_ok; [done..|]. congruence.
Qed.

Lemma rebalance_loop_spec fuel m ctx t x n :
  holds m ctx t -> rootp t = Some x -> colour t = RED -> red_ok t -> balanced t n ->
  ctx_red_ok ctx -> ctx_balanced ctx n -> (length ctx < fuel)%nat ->
  exists m' T, rebalance_loop fuel m x = Ok m' /\ holds m' [] T /\ _count m' = _count m /\
    inorder T = inorder (plug ctx t) /\ coloured T.
Proof.
  revert m ctx t x n. induction fuel as [fuel IH] using lt_wf_ind; intros m ctx t x n Hh Hx Hcol Hro Hbal Hcr Hcb Hf.
  destruct fuel as [|fuel]; [lia|].
  assert (holds m [] (plug ctx t)) as Hplug.
  { rewrite <- (app_nil_r ctx) in Hh. by apply holds_plug in Hh. }
  destruct (decide (ctx_colour ctx = BLACK)) as [Hcc|Hcc].
  { exists m, (plug ctx t). split; [exact (rebalance_loop_exit _ _ _ _ _ Hh Hx Hcc)|]. split_and!; try done.
    destruct (plug_balanced ctx t n Hbal Hcb) as [n' Hn']. exists n'. split; [done|]. by apply plug_red_ok. }
  destruct ctx as [|[d1 p c1 kp vp s1] ctx]; [done|]. cbn in Hcc. destruct c1; [|done].
  cbn in Hcr. destruct Hcr as (Hs1 & Hcr & Hred). destruct (Hred eq_refl) as (Hcs1 & Hne & Hcc2).
  destruct ctx as [|[d2 g c2 kg vg s2] ctx]; [done|]. cbn in Hcc2. subst c2.
  cbn in Hcr. destruct Hcr as (Hs2 & Hcr & _). cbn in Hcb. destruct Hcb as (Hb1 & Hb2 & Hcb).
  cbn [length] in Hf. rewrite (rebalance_loop_round _ _ _ _ _ _ _ _ _ _ _ _ _ _ _ Hh Hx).
  pose proof Hh as H1. rewrite focus_up in H1. pose proof H1 as H2. rewrite focus_up in H2.
  unfold round. destruct (near_mk _ _ _ _ _ _ _ _ _ H2) as (_ & -> & _). cbn [mbind outcome_bind].
  assert (exists par, rep (nodes m) s2 par) as [par Hrs2].
  { destruct H2 as [_ Hr _ _ _ _]. apply rep_mk in Hr as (_ & _ & Hr). eauto. }
  rewrite (red_opt_rep _ _ _ Hrs2). cbn [mbind outcome_bind].
  destruct (decide (colour s2 = RED)) as [Hc2|Hc2].
  - rewrite bool_decide_true by done. destruct (tree_mk d2 s2) as (y & cy & ky & vy & ya & yb & ->).
    { by destruct s2. }
    rewrite colour_mk in Hc2. subst cy. rewrite rootp_mk.
    destruct (recolour_spec _ _ _ _ _ _ _ _ _ _ _ _ _ _ _ _ _ _ H2) as (m1 & E1 & Hcnt & H3).
    step_to E1. apply balanced_mk in Hb2. apply red_ok_mk in Hs2 as (Hyc & Hya & Hyb).
    destruct (IH fuel ltac:(lia) m1 ctx _ g (S n) H3) as (m' & T & E & HT & Hct & Hin & Hcl).
    + apply rootp_mk.
    + apply colour_mk.
    + apply red_ok_mk. rewrite !red_ok_mk, !colour_mk. naive_solver.
    + apply balanced_mk. rewrite !balanced_mk. naive_solver.
    + done.
    + done.
    + lia.
    + exists m', T. split_and!; try done; [congruence|]. rewrite Hin.
      change (plug (F d1 p RED kp vp s1 :: F d2 g BLACK kg vg (mk d2 y RED ky vy ya yb) :: ctx) t) with
        (plug ctx (mk d2 g BLACK kg vg (mk d1 p RED kp vp t s1) (mk d2 y RED ky vy ya yb))).
      apply inorder_plug_ext. destruct d1, d2; done.
  - rewrite bool_decide_false by done.
    assert (forall X : outcome (Map V), match rootp s2 with Some y => X | None => X end = X) as Hm.
    { intros X. by destruct (rootp s2). }
    cbn iota. rewrite Hm. clear Hm.
    destruct fuel as [|fuel]; [lia|].
    destruct (near_mk _ _ _ _ _ _ _ _ _ H1) as (En1 & En2 & _).
    destruct (dir_cases d2 d1) as [->| ->].
    + rewrite En2. cbn [mbind outcome_bind]. rewrite bool_decide_false.
      2: { intros E. symmetry in E. revert E. by eapply sibling_distinct. }
      cbn [mbind outcome_bind].
      destruct (round_rotates fuel _ _ _ _ _ _ _ _ _ _ _ _ _ Hh Hx) as (m' & E1 & Hcnt & E2 & HT).
      step_to E1. eexists m', _. split; [exact E2|]. split; [exact HT|]. split; [done|].
      split; [exact (inorder_plug_ext ctx _ _ (inorder_rotate d2 g BLACK kg vg p RED kp vp BLACK RED t s1 s2))|].
      apply (coloured_plug _ _ n); [|by rewrite balanced_mk, balanced_mk|apply colour_mk|done..].
      rewrite !red_ok_mk. split; [done|]. split; [done|]. split; [|done]. intros _. split; [done|].
      by destruct (colour s2).
    + rewrite En1, Hx. cbn [mbind outcome_bind]. rewrite bool_decide_true by done.
      destruct (tree_mk (opp d2) t) as (x' & cx & kx & vx & a & b & ->); [by rewrite Hx|].
      rewrite rootp_mk in Hx. injection Hx as ->. rewrite colour_mk in Hcol. subst cx.
      destruct (rotate_spec (opp d2) _ _ _ _ _ _ _ _ _ _ _ _ _ H1) as (m1 & E1 & Hcnt1 & H3).
      step_to E1. cbn [mbind outcome_bind]. rewrite !mk_opp, <- focus_up in H3.
      destruct (round_rotates fuel _ _ _ _ _ _ _ _ _ _ _ _ _ H3 (rootp_mk _ _ _ _ _ _ _))
        as (m' & E2 & Hcnt & E3 & HT).
      step_to E2. eexists m', _. split; [exact E3|]. split; [exact HT|]. split; [congruence|].
      apply balanced_mk in Hbal as [Hba Hbb]. apply red_ok_mk in Hro as (Hcab & Hra & Hrb).
      destruct (Hcab eq_refl) as [Hca Hcb'].
      split; [|apply (coloured_plug _ _ n); [|rewrite !balanced_mk; tauto|apply colour_mk|done..]].
      * match goal with |- inorder (plug ctx ?T) = inorder (plug _ ?t0) =>
          change (inorder (plug ctx T) =
            inorder (plug ctx (mk d2 g BLACK kg vg (mk (opp d2) p RED kp vp t0 s1) s2))) end.
        apply inorder_plug_ext. destruct d2; cbn; rewrite <- ?app_assoc; cbn; rewrite <- ?app_assoc; done.
      * rewrite !red_ok_mk, !colour_mk. destruct (colour s2); naive_solver.
Qed.
End proofs.
