(* ===== verification/RBMapTheorems.v ===== *)
(** * What infos/util/map.h guarantees

    A map implements a finite map from keys to values: [add] is insertion, the
    lookups are lookup within a logarithmic number of steps, the iterator goes
    over every pair once and [clear] frees every node. *)
From S2P Require Import Prelude RBMap RBMapRep RBMapProof.
Import Colour.

Section map.
Context {V : Type}.
Implicit Types (m : Map V) (t : tree V) (ctx : list (frame V)).

Definition keys (l : list (Z * V)) : list Z := fst <$> l.

(** The map holds the tree [t], which is a search tree with correct colours
    and a black root. *)
Record valid m t : Prop := {
  v_holds : holds m [] t;
  v_sorted : StronglySorted Z.lt (keys (inorder t));
  v_coloured : coloured t;
  v_root : colour t = BLACK;
  v_count : _count m = u32 (Z.of_nat (length (inorder t)))
}.

(** The map [m] represents the finite map [g]. *)
Definition represents m (g : gmap Z V) : Prop := exists t, valid m t /\ g = list_to_map (inorder t).

Lemma length_ptrs t : length (ptrs t) = length (inorder t).
Proof. induction t as [|p c k v l IHl r IHr]; [done|]. cbn. rewrite !length_app. cbn. lia. Qed.

Lemma holds_size m ctx t : holds m ctx t -> size (nodes m) = length (ctx_ptrs ctx ++ ptrs t).
Proof.
  intros Hh. rewrite <- size_dom.
  assert (dom (nodes m) ≡ list_to_set (C := gset Z) (ctx_ptrs ctx ++ ptrs t)) as ->.
  { intros p. rewrite elem_of_dom, elem_of_list_to_set. apply Hh. }
  apply size_list_to_set, Hh.
Qed.

(** ** Searching *)
Lemma sorted_split (l1 l2 : list (Z * V)) k v :
  StronglySorted Z.lt (keys (l1 ++ (k, v) :: l2)) ->
  (forall x, x ∈ keys l1 -> x < k) /\ (forall x, x ∈ keys l2 -> k < x) /\
  StronglySorted Z.lt (keys (l1 ++ l2)).
Proof.
  unfold keys. rewrite fmap_app, fmap_cons. cbn. intros Hs.
  apply StronglySorted_app_inv in Hs as (H1 & H2 & H12).
  apply StronglySorted_inv in H2 as [H2 Hall]. rewrite Forall_forall in Hall. split_and!.
  - intros x Hx. apply H12; [done|left].
  - done.
  - rewrite fmap_app. apply StronglySorted_app; [done..|]. intros x y Hx Hy. apply H12; [done|by right].
Qed.

(** The key lies between what is left and what is right of the hole. *)
Definition fits ctx (key : Z) : Prop :=
  (forall x, x ∈ keys (ctx_pre ctx) -> x < key) /\ (forall x, x ∈ keys (ctx_post ctx) -> key < x).

Lemma find_owner_spec fuel m ctx t key x :
  holds m ctx t -> rootp t = Some x -> (length (ptrs t) <= fuel)%nat ->
  StronglySorted Z.lt (keys (inorder (plug ctx t))) -> fits ctx key ->
  exists ctx' d p c k v a b, find_owner fuel (nodes m) key x = Ok p /\
    holds m ctx' (mk d p c k v a b) /\ plug ctx' (mk d p c k v a b) = plug ctx t /\ fits ctx' key /\
    (k = key \/ (a = E /\ match d with L => key < k | R => k < key end)).
Proof.
  revert ctx t x. induction fuel as [|fuel IH]; intros ctx t x Hh Hx Hf Hs Hfit; destruct t as [|p c k v l r];
    try done; [cbn in Hf; lia|]. injection Hx as ->. cbn [find_owner].
  pose proof Hh as [_ (Hp & _) _ _ _ _]. unfold node. rewrite Hp. cbn [in_bounds mbind outcome_bind mkn Key Left Right].
  cbn in Hf. rewrite length_app in Hf. pose proof Hs as Hs0. rewrite inorder_plug in Hs. cbn in Hs.
  rewrite <- app_assoc in Hs. cbn in Hs. rewrite app_assoc in Hs.
  apply sorted_split in Hs as Hs3. destruct Hs3 as (Hlt & Hgt & _). unfold fits, keys in *.
  destruct Hfit as [Hf1 Hf2].
  destruct (Z.ltb_spec key k) as [Hkl|Hkl].
  - destruct l as [|lp lc lk lv ll lr].
    { exists ctx, L, x, c, k, v, E, r. split_and!; try done. right. done. }
    apply (IH (F L x c k v r :: ctx) (N lp lc lk lv ll lr) lp); [by apply focus_up|done|cbn in *; lia| |].
    + exact Hs0.
    + split; cbn; [by rewrite app_nil_r|]. intros y [->|Hy]%elem_of_cons; [done|].
      assert (k < y); [|lia]. apply Hgt. by rewrite fmap_app in *.
  - destruct (Z.ltb_spec k key) as [Hkg|Hkg].
    + destruct r as [|rp rc rk rv rl rr].
      { exists ctx, R, x, c, k, v, E, l. split_and!; try done. right. done. }
      apply (IH (F R x c k v l :: ctx) (N rp rc rk rv rl rr) rp); [by apply focus_up|done|cbn in *; lia| |].
      * exact Hs0.
      * split; cbn; [|done]. intros y Hy. rewrite app_assoc, fmap_app in Hy.
        apply elem_of_app in Hy as [Hy|Hy]; [|apply list_elem_of_singleton in Hy; cbn in Hy; lia].
        specialize (Hlt y Hy). lia.
    + exists ctx, L, x, c, k, v, l, r. split_and!; try done. left. lia.
Qed.

(** ** The finite map of a sorted list *)
Abbreviation to_map l := (list_to_map l : gmap Z V).

Lemma keys_nodup (l : list (Z * V)) : StronglySorted Z.lt (keys l) -> NoDup (keys l).
Proof. apply StronglySorted_lt_NoDup. Qed.

Lemma to_map_not_in l k : k ∉ keys l -> to_map l !! k = None.
Proof. apply not_elem_of_list_to_map. Qed.

Lemma to_map_insert l1 l2 k v : k ∉ keys l1 -> to_map (l1 ++ (k, v) :: l2) = <[k := v]> (to_map (l1 ++ l2)).
Proof.
  intros Hk. rewrite !list_to_map_app. cbn. symmetry. apply insert_union_r. by apply to_map_not_in.
Qed.

Lemma to_map_replace l1 l2 k v v' : k ∉ keys l1 ->
  to_map (l1 ++ (k, v') :: l2) = <[k := v']> (to_map (l1 ++ (k, v) :: l2)).
Proof. intros Hk. rewrite !to_map_insert by done. by rewrite insert_insert_eq. Qed.

Lemma not_in_lt (l : list Z) k : (forall x, x ∈ l -> x < k) -> k ∉ l.
Proof. intros H Hk. specialize (H _ Hk). lia. Qed.

Lemma not_in_gt (l : list Z) k : (forall x, x ∈ l -> k < x) -> k ∉ l.
Proof. intros H Hk. specialize (H _ Hk). lia. Qed.

Lemma to_map_node l1 l2 k v key : StronglySorted Z.lt (keys (l1 ++ (k, v) :: l2)) ->
  to_map (l1 ++ (k, v) :: l2) !! key =
  if key <? k then to_map l1 !! key else if k <? key then to_map l2 !! key else Some v.
Proof.
  intros Hs. destruct (sorted_split _ _ _ _ Hs) as (H1 & H2 & _).
  rewrite list_to_map_app. cbn. destruct (Z.ltb_spec key k); [|destruct (Z.ltb_spec k key)].
  - rewrite lookup_union_l; [done|]. rewrite lookup_insert_ne by lia. apply to_map_not_in, not_in_gt.
    intros x Hx. specialize (H2 x Hx). lia.
  - rewrite lookup_union_r; [by rewrite lookup_insert_ne by lia|]. apply to_map_not_in, not_in_lt.
    intros x Hx. specialize (H1 x Hx). lia.
  - assert (key = k) as -> by lia. rewrite lookup_union_r; [by rewrite lookup_insert_eq|].
    by apply to_map_not_in, not_in_lt.
Qed.

(** ** Lookup, within the height of the tree *)
Fixpoint height t : nat :=
  match t with E => O | N _ _ _ _ l r => S (Nat.max (height l) (height r)) end.

Lemma find_spec fuel h t par key : rep h t par -> StronglySorted Z.lt (keys (inorder t)) ->
  (height t <= fuel)%nat -> find fuel h key (rootp t) = Ok (to_map (inorder t) !! key).
Proof.
  revert t par. induction fuel as [|fuel IH]; intros t par; destruct t as [|p c k v l r]; cbn; try done; [lia|].
  intros (Hp & Hl & Hr) Hs Hf. unfold node. rewrite Hp. cbn [in_bounds mbind outcome_bind mkn Key Value Left Right].
  rewrite to_map_node by done. unfold keys in Hs. rewrite fmap_app in Hs.
  apply StronglySorted_app_inv in Hs as (H1 & H2 & _). apply StronglySorted_inv in H2 as [H2 _].
  destruct (key <? k); [|destruct (k <? key); [|done]]; eapply IH; try done; lia.
Qed.

Lemma height_bound t n : balanced t n -> red_ok t ->
  (height t <= 2 * n + match colour t with RED => 1 | BLACK => 0 end)%nat.
Proof.
  revert n. induction t as [|p c k v l IHl r IHr]; intros n; cbn; [lia|]. destruct c.
  - intros [Hl Hr] (Hc & Hrl & Hrr). destruct (Hc eq_refl) as [Hcl Hcr].
    specialize (IHl n Hl Hrl). specialize (IHr n Hr Hrr). rewrite Hcl in IHl. rewrite Hcr in IHr. lia.
  - destruct n as [|n]; [done|]. intros [Hl Hr] (_ & Hrl & Hrr).
    specialize (IHl n Hl Hrl). specialize (IHr n Hr Hrr). destruct (colour l), (colour r); lia.
Qed.

Lemma balanced_size t n : balanced t n -> (2 ^ n <= S (length (inorder t)))%nat.
Proof.
  revert n. induction t as [|p c k v l IHl r IHr]; intros n; cbn [balanced inorder]; [by intros ->|].
  rewrite length_app. cbn [length]. destruct c.
  - intros [Hl Hr]. specialize (IHl n Hl). lia.
  - destruct n as [|n]; [done|]. intros [Hl Hr]. specialize (IHl n Hl). specialize (IHr n Hr).
    rewrite Nat.pow_succ_r'. lia.
Qed.

Lemma valid_height m t : valid m t -> (height t <= 2 * Nat.log2 (S (length (inorder t))))%nat.
Proof.
  intros [_ _ (n & Hb & Hr) Hc _]. pose proof (height_bound t n Hb Hr) as Hh. rewrite Hc in Hh.
  assert (n <= Nat.log2 (S (length (inorder t))))%nat; [|lia].
  apply Nat.log2_le_pow2; [lia|]. by apply balanced_size.
Qed.

Lemma height_length t : (height t <= length (inorder t))%nat.
Proof. induction t as [|p c k v l IHl r IHr]; cbn; [lia|]. rewrite length_app. cbn. lia. Qed.

Lemma valid_size m t : valid m t -> size (nodes m) = length (inorder t).
Proof. intros Hv. rewrite (holds_size _ _ _ (v_holds _ _ Hv)). cbn. apply length_ptrs. Qed.

Lemma represents_size m t : valid m t -> size (to_map (inorder t)) = length (inorder t).
Proof.
  intros Hv. rewrite <- length_map_to_list. apply Permutation_length.
  apply map_to_list_to_map, keys_nodup, Hv.
Qed.

(** ** Iteration *)
Lemma map_iterate_spec h fuel p k v c par (a b : option Z) (ts : list (tree V)) :
  h !! p = Some (mkn L c k v par a b) -> Forall (fun t => t <> E /\ exists par, rep h t par) ts ->
  (length (mbind inorder ts) < fuel)%nat ->
  exists rest, iterate fuel h {| _queue := omap rootp ts; _current := Some p |} = Ok ((k, v) :: rest) /\
    rest ≡ₚ mbind inorder ts.
Proof.
  revert p k v c par a b ts. induction fuel as [|fuel IH]; intros p k v c par a b ts Hp Hts Hf; [lia|].
  cbn [iterate _current]. unfold node at 1. rewrite Hp. cbn [in_bounds mbind outcome_bind].
  unfold advance. cbn [_queue]. destruct Hts as [|t ts [Hne [par' Ht]] Hts].
  { exists []. split; [by destruct fuel|done]. }
  destruct t as [|q c' k' v' l r]; [done|]. destruct Ht as (Hq & Hl & Hr).
  cbn [omap list_omap rootp]. unfold node at 1. rewrite Hq. cbn [in_bounds mbind outcome_bind mkn Left Right].
  set (kids := (match l with E => [] | _ => [l] end ++ match r with E => [] | _ => [r] end)).
  assert ((omap rootp ts ++ match rootp l with Some l => [l] | None => [] end) ++
    match rootp r with Some r => [r] | None => [] end = omap rootp (ts ++ kids)) as Hq'.
  { rewrite omap_app, <- app_assoc. f_equal. by destruct l, r. }
  rewrite Hq'.
  assert (mbind inorder (ts ++ kids) ≡ₚ mbind inorder ts ++ inorder l ++ inorder r) as HP.
  { rewrite bind_app. f_equiv. unfold kids. destruct l, r; cbn; by rewrite ?app_nil_r. }
  destruct (IH q k' v' c' par' (rootp l) (rootp r) (ts ++ kids) Hq) as (rest & E1 & HR).
  - apply Forall_app. split; [done|]. unfold kids. destruct l, r; repeat constructor; eauto.
  - rewrite (Permutation_length HP). cbn in Hf. rewrite !length_app in *. cbn in Hf. lia.
  - step_to E1. eexists. split; [done|]. rewrite HR, HP. cbn. solve_Permutation.
Qed.

Lemma items_spec m t : valid m t -> exists l, items m = Ok l /\ l ≡ₚ inorder t.
Proof.
  intros Hv. pose proof (valid_size _ _ Hv) as Hsz. destruct Hv as [[_ Hr Hroot _ _ _] _ _ _ _].
  unfold items, begin. cbn in Hroot. rewrite Hroot. destruct t as [|p c k v l r]; cbn [rootp].
  { exists []. split; [|done]. cbn. by destruct (size (nodes m)). }
  destruct Hr as (Hp & Hl & Hrr). unfold advance, node. cbn [_queue]. rewrite Hp.
  cbn [in_bounds mbind outcome_bind mkn Left Right app].
  set (kids := (match l with E => [] | _ => [l] end ++ match r with E => [] | _ => [r] end)).
  assert (match rootp l with Some l => [l] | None => [] end ++
    match rootp r with Some r => [r] | None => [] end = omap rootp kids) as ->.
  { by destruct l, r. }
  assert (mbind inorder kids = inorder l ++ inorder r) as HP.
  { unfold kids. destruct l, r; cbn; by rewrite ?app_nil_r. }
  destruct (map_iterate_spec (nodes m) (size (nodes m)) p k v c None (rootp l) (rootp r) kids Hp)
    as (rest & E1 & HR).
  - unfold kids. destruct l, r; repeat constructor; eauto.
  - rewrite HP, Hsz. cbn. rewrite !length_app. cbn. lia.
  - exists ((k, v) :: rest). split; [exact E1|]. rewrite HR, HP. cbn. solve_Permutation.
Qed.

(** ** Insertion *)
Lemma attach_spec m d p c k v b ctx key value : holds m (F d p c k v b :: ctx) E ->
  let nw := fresh m in let m1 := (new_node m key value).2 in
  exists h, set_near d (nodes m1) p (Some nw) = Ok h /\
    holds (set_nodes m1 h) (F d p c k v b :: ctx) (N nw RED key value E E).
Proof.
  intros [(Hp & Hb & Hc) _ Hroot Hnd Hdom Hfr] nw m1. cbn [rootp] in Hp.
  rewrite app_nil_r in Hnd. cbn in Hnd. fold (ctx_ptrs ctx) in Hnd.
  assert (forall x, x ∈ ctx_ptrs (F d p c k v b :: ctx) -> x <> nw) as Hne.
  { intros x Hx ->. specialize (Hfr nw). rewrite app_nil_r in Hfr. specialize (Hfr Hx). unfold nw in Hfr. lia. }
  assert (p <> nw) as Hpn by (apply Hne; left).
  set (h1 := nodes m1).
  assert (forall x, x <> nw -> h1 !! x = nodes m !! x) as Hh1 by (intros x Hx; by apply lookup_insert_ne).
  assert (h1 !! nw = Some (MapNode_new key value)) as Hnw by apply lookup_insert_eq.
  destruct (set_near_spec d h1 p c k v (ctx_parent ctx) None (rootp b) (N nw RED key value E E) None)
    as (h & E1 & Ep & Hn & Ho & Hd).
  - by rewrite Hh1.
  - cbn. apply NoDup_singleton.
  - cbn. by rewrite list_elem_of_singleton.
  - by split.
  - exists h. split; [exact E1|].
    assert (forall x, x ∈ ptrs b \/ x ∈ ctx_ptrs ctx -> h !! x = nodes m !! x) as Hkeep.
    { intros x Hx. assert (x <> nw) as Hxn by (apply Hne; cbn; fold (ctx_ptrs ctx); set_solver).
      rewrite Ho, Hh1; [done|done| |].
      - intros ->. apply NoDup_cons in Hnd as [Hpx _]. apply Hpx. set_solver.
      - cbn. by rewrite list_elem_of_singleton. }
    split; cbn [nodes set_nodes _root fresh m1 new_node snd].
    + split; [exact Ep|]. split; [|eapply rep_ctx_frame; [|exact Hc]; auto].
      eapply rep_frame; [|exact Hb]. auto.
    + exact Hn.
    + cbn [_root] in *. rewrite Hroot. apply rootp_plug_frame.
    + cbn. fold (ctx_ptrs ctx). apply (NoDup_app (p :: ptrs b ++ ctx_ptrs ctx) [nw]). split_and!; [done| |apply NoDup_singleton].
      intros x Hx. rewrite list_elem_of_singleton. by apply Hne.
    + intros x. rewrite Hd. cbn. fold (ctx_ptrs ctx). specialize (Hdom x). rewrite app_nil_r in Hdom. cbn in Hdom.
      fold (ctx_ptrs ctx) in Hdom. destruct (decide (x = nw)) as [->|Hx].
      * split; [intros _; set_solver|]. intros _. by exists (MapNode_new key value).
      * rewrite Hh1, Hdom by done. set_solver.
    + intros x Hx. apply elem_of_app in Hx as [Hx|Hx].
      * specialize (Hfr x). rewrite app_nil_r in Hfr. specialize (Hfr Hx). lia.
      * cbn in Hx. apply list_elem_of_singleton in Hx as ->. unfold nw. lia.
Qed.

Lemma unplug_red_ok ctx t : red_ok (plug ctx t) -> colour (plug ctx t) = BLACK ->
  red_ok t /\ ctx_red_ok ctx /\ (colour t = RED -> ctx <> [] /\ ctx_colour ctx = BLACK).
Proof.
  revert t. induction ctx as [|[d p c k v s] ctx IH]; intros t Hr Hc.
  { split_and!; [done..|]. cbn in Hc. congruence. }
  destruct (IH (mk d p c k v t s) Hr Hc) as (Ht & Hctx & Hred). rewrite colour_mk in Hred.
  apply red_ok_mk in Ht as (Hcc & Ht & Hs). split; [done|]. split.
  - cbn. split_and!; try done. intros ->. by split; [apply Hcc|apply Hred].
  - intros Hct. split; [done|]. cbn. destruct c; [|done]. destruct (Hcc eq_refl). congruence.
Qed.

Lemma unplug_balanced ctx t n : balanced (plug ctx t) n -> exists n', balanced t n' /\ ctx_balanced ctx n'.
Proof.
  revert t n. induction ctx as [|[d p c k v s] ctx IH]; intros t n Hb; [by exists n|].
  destruct (IH (mk d p c k v t s) n Hb) as (n' & Ht & Hc). apply balanced_mk in Ht. cbn. destruct c.
  - exists n'. tauto.
  - destruct n' as [|n']; [done|]. exists n'. tauto.
Qed.

Lemma colour_plug ctx t t' : colour t = colour t' -> colour (plug ctx t) = colour (plug ctx t').
Proof.
  revert t t'. induction ctx as [|[d p c k v s] ctx IH]; intros t t' Hc; [done|].
  apply (IH (mk d p c k v t s) (mk d p c k v t' s)). by rewrite !colour_mk.
Qed.

(** [rebalance_insert] on a new leaf. *)
Lemma rebalance_insert_spec m ctx nw key value :
  holds m ctx (N nw RED key value E E) -> ctx_red_ok ctx -> ctx_balanced ctx 0 ->
  exists m' T, rebalance_insert m nw = Ok m' /\ holds m' [] T /\ _count m' = _count m /\
    inorder T = inorder (plug ctx (N nw RED key value E E)) /\ coloured T /\ colour T = BLACK.
Proof.
  intros Hh Hcr Hcb. unfold rebalance_insert.
  destruct (set_colour_spec m ctx L nw RED RED key value E E Hh) as (h1 & E1 & H1). step_to E1.
  pose proof (holds_size _ _ _ H1) as Hsz. cbn [nodes set_nodes] in Hsz.
  assert (length ctx <= length (ctx_ptrs ctx))%nat as Hlen.
  { clear. induction ctx as [|[d p c k v s] ctx IH]; [done|]. cbn. fold (ctx_ptrs ctx).
    rewrite length_app. lia. }
  destruct (rebalance_loop_spec (S (size h1)) (set_nodes m h1) ctx (N nw RED key value E E) nw 0)
    as (m2 & T & E2 & HT & Hcnt & Hin & (n & Hb & Hr)); try done.
  { rewrite Hsz, length_app. cbn. lia. }
  step_to E2. pose proof (h_root _ _ _ HT) as Hroot. cbn in Hroot. rewrite Hroot.
  destruct (tree_mk L T) as (r & c & k & v & a & b & ->).
  { destruct T; [|done]. rewrite inorder_plug in Hin. cbn in Hin. by destruct (ctx_pre ctx). }
  rewrite rootp_mk. cbn [deref mbind outcome_bind].
  destruct (set_colour_spec m2 [] L r c BLACK k v a b HT) as (h3 & E3 & H3). step_to E3.
  eexists _, _. split; [done|]. split; [exact H3|]. split_and!; try done.
  apply balanced_mk in Hb. apply red_ok_mk in Hr as (_ & Hra & Hrb).
  destruct c; [exists (S n)|exists n]; rewrite balanced_mk, red_ok_mk; destruct n; try done; by split_and!.
Qed.

(** Sorted sequences around a hole. *)
Lemma fits_insert ctx key value :
  fits ctx key -> StronglySorted Z.lt (keys (ctx_pre ctx ++ ctx_post ctx)) ->
  StronglySorted Z.lt (keys (ctx_pre ctx ++ (key, value) :: ctx_post ctx)).
Proof.
  unfold keys, fits. rewrite !fmap_app. cbn. intros [H1 H2] Hs.
  apply StronglySorted_app_inv in Hs as (Hs1 & Hs2 & H12). apply StronglySorted_app; [done| |].
  - constructor; [done|]. apply Forall_forall. intros x Hx. by apply H2.
  - intros x y Hx [->|Hy]%elem_of_cons; [by apply H1|]. by apply H12.
Qed.

Lemma fits_child ctx d p c k v b key : fits ctx key ->
  StronglySorted Z.lt (keys (inorder (plug ctx (mk d p c k v E b)))) ->
  match d with L => key < k | R => k < key end -> fits (F d p c k v b :: ctx) key.
Proof.
  rewrite inorder_plug. intros [H1 H2] Hs Hd. unfold fits, keys in *. destruct d; cbn in *.
  - split; [by rewrite app_nil_r|]. intros x [->|Hx]%elem_of_cons; [done|]. 
    apply sorted_split in Hs as (_ & Hgt & _). specialize (Hgt x Hx). lia.
  - split; [|done]. intros x Hx. rewrite app_assoc, fmap_app in Hx.
    apply elem_of_app in Hx as [Hx|Hx]; [|apply list_elem_of_singleton in Hx; cbn in Hx; lia].
    rewrite <- app_assoc in Hs. cbn in Hs. rewrite app_assoc in Hs.
    apply sorted_split in Hs as (Hlt & _ & _). specialize (Hlt x Hx). lia.
Qed.

(** The key is in the map: its value is replaced. *)
Lemma add_replace m ctx d p c k v value a b t :
  valid m t -> holds m ctx (mk d p c k v a b) -> plug ctx (mk d p c k v a b) = t ->
  fits ctx k ->
  exists h T, update (nodes m) p (fun x => with_value x value) = Ok h /\ valid (set_nodes m h) T /\
    to_map (inorder T) = <[k := value]> (to_map (inorder t)).
Proof.
  intros [_ Hs (n & Hb & Hr) Hc Hcnt] Hh <- [Hf1 Hf2].
  destruct (update_focus m ctx d p c c k v value a b (fun x : MapNode V => with_value x value) Hh
    ltac:(intros; by destruct d)) as (h & E1 & H1).
  exists h, (plug ctx (mk d p c k value a b)). split; [done|].
  set (la := match d with L => inorder a | R => inorder b end).
  set (lb := match d with L => inorder b | R => inorder a end).
  assert (forall v', inorder (plug ctx (mk d p c k v' a b)) =
    (ctx_pre ctx ++ la) ++ (k, v') :: lb ++ ctx_post ctx) as Hin.
  { intros v'. rewrite inorder_plug. unfold la, lb. destruct d; cbn; rewrite <- !app_assoc; done. }
  rewrite !Hin in *. apply sorted_split in Hs as Hs3. destruct Hs3 as (Hl & _ & _).
  split; [|apply to_map_replace, not_in_lt; exact Hl]. split.
  - rewrite <- (app_nil_r ctx) in H1. by apply holds_plug in H1.
  - rewrite Hin. unfold keys in *. rewrite fmap_app in *. exact Hs.
  - destruct (unplug_red_ok ctx _ Hr Hc) as (Hr1 & Hcr & Hred).
    destruct (unplug_balanced ctx _ _ Hb) as (n' & Hb1 & Hcb).
    destruct (plug_balanced ctx (mk d p c k value a b) n') as [n'' Hb2]; [|done|].
    { apply balanced_mk. by apply balanced_mk in Hb1. }
    exists n''. split; [done|]. apply plug_red_ok; [|done|].
    + apply red_ok_mk. by apply red_ok_mk in Hr1.
    + rewrite colour_mk in *. intros Hcr'. by apply Hred.
  - rewrite <- Hc. apply colour_plug. by rewrite !colour_mk.
  - cbn [_count set_nodes]. rewrite Hcnt, Hin, !length_app. done.
Qed.

(** The key is new: a leaf is added and the tree rebalanced. *)
Lemma add_leaf m ctx d p c k v b t key value :
  valid m t -> holds m ctx (mk d p c k v E b) -> plug ctx (mk d p c k v E b) = t ->
  fits ctx key -> match d with L => key < k | R => k < key end ->
  exists h m' T, set_near d (nodes (new_node m key value).2) p (Some (fresh m)) = Ok h /\
    rebalance_insert (set_nodes (new_node m key value).2 h) (fresh m) = Ok m' /\ valid (incr_count m') T /\
    to_map (inorder T) = <[key := value]> (to_map (inorder t)).
Proof.
  intros [_ Hs (n & Hb & Hr) Hc Hcnt] Hh <- Hfit Hd. rewrite <- focus_up in Hh.
  destruct (attach_spec m d p c k v b ctx key value Hh) as (h & E1 & H1).
  pose proof (fits_child _ _ _ _ _ _ _ _ Hfit Hs Hd) as Hfit'.
  set (ctx' := F d p c k v b :: ctx) in *.
  change (plug ctx (mk d p c k v E b)) with (plug ctx' E) in *.
  destruct (unplug_red_ok ctx' E Hr Hc) as (_ & Hcr & _).
  destruct (unplug_balanced ctx' E _ Hb) as (n' & Hn' & Hcb). cbn in Hn'. subst n'.
  destruct (rebalance_insert_spec _ ctx' _ key value H1 Hcr Hcb) as (m' & T & E2 & HT & Hcnt' & Hin & Hcol & Hroot).
  exists h, m', T. split; [exact E1|]. split; [exact E2|].
  rewrite inorder_plug in Hin. cbn [inorder app] in Hin. rewrite inorder_plug in Hs. cbn [inorder app] in Hs.
  split.
  - split; [destruct HT; by split| |done|done|].
    + rewrite Hin. by apply fits_insert.
    + cbn [_count incr_count]. rewrite Hcnt'. cbn [_count set_nodes new_node snd]. rewrite Hcnt.
      rewrite inorder_plug, Hin, !length_app. cbn [length inorder app]. unfold wrap.
      rewrite Zplus_mod_idemp_l. f_equal. cbn. lia.
  - rewrite Hin, inorder_plug. cbn [inorder app]. apply to_map_insert, not_in_lt, Hfit'.
Qed.

Lemma add_spec m t key value : valid m t ->
  exists m' T, add m key value = Ok m' /\ valid m' T /\
    to_map (inorder T) = <[key := value]> (to_map (inorder t)).
Proof.
  intros Hv. pose proof (v_holds _ _ Hv) as Hh. unfold add. pose proof (h_root _ _ _ Hh) as Hroot. cbn in Hroot.
  rewrite Hroot. destruct (rootp t) as [x|] eqn:Hx.
  - destruct (find_owner_spec (size (nodes m)) m [] t key x Hh Hx)
      as (ctx & d & p & c & k & v & a & b & E1 & H1 & Hp & Hfit & Hk).
    + rewrite (valid_size _ _ Hv), length_ptrs. done.
    + apply Hv.
    + split; intros y Hy; by apply elem_of_nil in Hy.
    + step_to E1. pose proof H1 as [_ Hr _ _ _ _]. apply rep_mk in Hr as (Hn & _).
      unfold node. rewrite Hn. cbn [in_bounds mbind outcome_bind].
      assert (Key (mkn d c k v (ctx_parent ctx) (rootp a) (rootp b)) = k) as -> by (by destruct d).
      destruct Hk as [<-|[-> Hd]].
      * rewrite Z.eqb_refl. destruct (add_replace m ctx d p c k v value a b t Hv H1 Hp Hfit) as (h & T & E2 & HT & Hm).
        step_to E2. by exists (set_nodes m h), T.
      * rewrite (proj2 (Z.eqb_neq key k)) by (destruct d; lia).
        destruct (add_leaf m ctx d p c k v b t key value Hv H1 Hp Hfit Hd) as (h & m' & T & E2 & E3 & HT & Hm).
        assert ((if key <? k then set_left (nodes (new_node m key value).2) p (Some (fresh m))
          else set_right (nodes (new_node m key value).2) p (Some (fresh m))) = Ok h) as E2'.
        { destruct d; [rewrite (proj2 (Z.ltb_lt _ _)) by done|rewrite (proj2 (Z.ltb_ge _ _)) by lia]; exact E2. }
        change (new_node m key value) with (fresh m, (new_node m key value).2). cbn iota beta.
        step_to E2'. step_to E3. by exists (incr_count m'), T.
  - destruct t; [|done]. destruct Hv as [[_ _ _ _ Hdom Hfr] _ _ _ Hcnt].
    assert (nodes m = ∅) as Hemp.
    { apply map_empty. intros p. specialize (Hdom p). cbn in Hdom. destruct (nodes m !! p) eqn:Hp; [|done].
      assert (p ∈ []) as Hin by (apply Hdom; eauto). by apply elem_of_nil in Hin. }
    cbn [new_node]. unfold set_colour. cbn [nodes]. rewrite Hemp.
    rewrite (update_spec _ _ (MapNode_new key value)) by apply lookup_insert_eq. cbn [mbind outcome_bind].
    eexists _, (N (fresh m) BLACK key value E E). split; [done|]. split; [|done]. split.
    + split; cbn; try done.
      * by rewrite lookup_insert_eq.
      * apply NoDup_singleton.
      * intros p. rewrite insert_insert_eq. rewrite lookup_insert_is_Some, lookup_empty, list_elem_of_singleton.
        split; [intros [->|[_ []]]; done|by left].
      * intros p ->%list_elem_of_singleton. lia.
    + repeat constructor.
    + by exists 1%nat.
    + done.
    + cbn [_count incr_count set_nodes set_root]. by rewrite Hcnt.
Qed.

(** ** Clearing *)
Lemma delete_tree_spec fuel h t par : rep h t par -> NoDup (ptrs t) -> (length (ptrs t) < fuel)%nat ->
  exists h', delete_tree fuel h (rootp t) = Ok h' /\
    forall x, h' !! x = if decide (x ∈ ptrs t) then None else h !! x.
Proof.
  revert h t par. induction fuel as [|fuel IH]; intros h t par Hr Hnd Hf; [lia|].
  destruct t as [|p c k v l r].
  { exists h. split; [done|]. intros x. rewrite decide_False; [done|]. apply not_elem_of_nil. }
  destruct Hr as (Hp & Hl & Hrr). cbn in Hnd, Hf. rewrite length_app in Hf.
  apply NoDup_cons in Hnd as [Hpn Hnd]. apply NoDup_app in Hnd as (Hndl & Hlr & Hndr).
  cbn [delete_tree rootp]. unfold node. rewrite Hp. cbn [in_bounds mbind outcome_bind mkn Left Right].
  destruct (IH h l (Some p) Hl Hndl ltac:(lia)) as (h1 & E1 & H1). step_to E1.
  assert (rep h1 r (Some p)) as Hr1.
  { eapply rep_frame; [|exact Hrr]. intros x Hx. rewrite H1, decide_False; [done|]. intros Hxl. by apply (Hlr x). }
  destruct (IH h1 r (Some p) Hr1 Hndr ltac:(lia)) as (h2 & E2 & H2). step_to E2.
  exists (delete p h2). split; [done|]. intros x. cbn [ptrs]. destruct (decide (x = p)) as [->|].
  - rewrite lookup_delete_eq, decide_True; [done|left].
  - rewrite lookup_delete_ne, H2, H1 by done. repeat case_decide; set_solver.
Qed.

Lemma map_clear_spec m t : valid m t -> exists m', clear m = Ok m' /\ valid m' E.
Proof.
  intros Hv. pose proof (valid_size _ _ Hv) as Hsz. rewrite <- length_ptrs in Hsz.
  destruct Hv as [[_ Hr Hroot Hnd Hdom Hfr] _ _ _ _]. cbn in Hroot, Hnd.
  unfold clear. rewrite Hroot.
  destruct (delete_tree_spec (S (size (nodes m))) (nodes m) t None Hr Hnd) as (h & E1 & H1); [lia|].
  step_to E1. eexists. split; [done|]. split; [|constructor|by exists 0%nat|done..].
  split; cbn; [done..| | |]; [apply NoDup_nil_2|intros p; split|intros p].
  - rewrite H1. case_decide as Hp; [by intros []|]. intros Hs. by apply Hdom in Hs.
  - intros Hp. by apply elem_of_nil in Hp.
  - intros Hp. by apply elem_of_nil in Hp.
Qed.

(** ** Properties *)

(** ** The map as a finite map, for the components that use it *)
Lemma represents_add m g key value :
  represents m g -> exists m', add m key value = Ok m' /\ represents m' (<[key := value]> g).
Proof.
  intros (t & Hv & ->). destruct (add_spec m t key value Hv) as (m' & T & E & HT & Hm).
  exists m'. split; [done|]. exists T. by split.
Qed.

Lemma represents_get m g key : represents m g -> try_get_value m key = Ok (g !! key).
Proof.
  intros (t & Hv & ->). pose proof Hv as [[_ Hr Hroot _ _ _] Hs _ _ _]. cbn in Hroot.
  unfold try_get_value. rewrite Hroot. eapply find_spec; [done|done|].
  rewrite (valid_size _ _ Hv). apply height_length.
Qed.

Lemma represents_items m g : represents m g -> exists l, items m = Ok l /\ l ≡ₚ map_to_list g.
Proof.
  intros (t & Hv & ->). destruct (items_spec m t Hv) as (l & E1 & Hl). exists l. split; [done|]. rewrite Hl.
  symmetry. apply map_to_list_to_map, keys_nodup, Hv.
Qed.

Lemma represents_clear m g : represents m g -> exists m', clear m = Ok m' /\ represents m' ∅.
Proof. intros (t & Hv & ->). destruct (map_clear_spec m t Hv) as (m' & E1 & Hv'). exists m'. split; [done|]. by exists E. Qed.

(** C16: adding a pair always returns; it implements insertion into a finite
    map, replacing the value of a key that is there, and keeps the search
    order, the colour rules of the tree and the count. *)
Theorem map_add_correct m g key value :
  represents m g -> exists m', add m key value = Ok m' /\ represents m' (<[key := value]> g).
Proof. apply represents_add. Qed.

(** C33: on a map that represents [g], the lookups return what [g] holds and
    need at most twice the logarithm of the number of pairs in steps; the count
    is the number of pairs; the iterator visits every pair exactly once; and
    [clear] leaves an empty map with no node still allocated. *)
Theorem map_queries_correct m g key :
  represents m g ->
  try_get_value m key = Ok (g !! key) /\
  contains_key m key = Ok (bool_decide (is_Some (g !! key))) /\
  find (2 * Nat.log2 (S (size g))) (nodes m) key (_root m) = Ok (g !! key) /\
  count m = u32 (Z.of_nat (size g)) /\
  (exists l, items m = Ok l /\ l ≡ₚ map_to_list g) /\
  exists m', clear m = Ok m' /\ represents m' ∅ /\ nodes m' = ∅.
Proof.
  intros (t & Hv & ->). pose proof Hv as [[_ Hr Hroot _ _ _] Hs _ _ Hcnt]. cbn in Hroot.
  assert (forall fuel, (height t <= fuel)%nat ->
    find fuel (nodes m) key (_root m) = Ok (to_map (inorder t) !! key)) as Hf.
  { intros fuel Hle. rewrite Hroot. by eapply find_spec. }
  assert (height t <= size (nodes m))%nat as Hle.
  { rewrite (valid_size _ _ Hv). apply height_length. }
  rewrite (represents_size m _ Hv). split_and!.
  - by apply Hf.
  - unfold contains_key. rewrite Hf by done. cbn [mbind outcome_bind]. f_equal.
    destruct (to_map (inorder t) !! key); symmetry; [by apply bool_decide_true|].
    apply bool_decide_false. by intros [].
  - apply Hf, (valid_height m), Hv.
  - done.
  - apply represents_items. by exists t.
  - destruct (map_clear_spec m t Hv) as (m' & E1 & Hv'). exists m'. split; [done|]. split; [by exists E|].
    apply map_empty. intros p. destruct (nodes m' !! p) eqn:Hp; [|done].
    assert (p ∈ []) as Hin by (apply (h_dom _ _ _ (v_holds _ _ Hv')); eauto). by apply elem_of_nil in Hin.
Qed.

Lemma represents_new : represents (Map_new (V := V)) ∅.
Proof.
  exists E. split; [|done]. split; [|constructor|by exists 0%nat|done..].
  split; cbn; [done..| | |]; [apply NoDup_nil_2|intros p; split|intros p].
  - rewrite lookup_empty. by intros [].
  - intros Hp. by apply elem_of_nil in Hp.
  - intros Hp. by apply elem_of_nil in Hp.
Qed.
End map.

Lemma map_add_correct_witness : exists m : Map Z,
  add Map_new 7 70 = Ok m /\ represents m {[7 := 70]}.
Proof. destruct (map_add_correct Map_new ∅ 7 70 represents_new) as (m & E & H). by exists m. Defined.

Lemma map_queries_correct_witness : exists m : Map Z,
  add Map_new 7 70 = Ok m /\ try_get_value m 7 = Ok (Some 70) /\ try_get_value m 8 = Ok None.
Proof.
  destruct (add_spec (V := Z) Map_new E 7 70) as (m & T & E1 & HT & Hm).
  { destruct (represents_new (V := Z)) as (t & Hv & Ht). destruct t; [exact Hv|].
    pose proof (h_root _ _ _ (v_holds _ _ Hv)). done. }
  assert (represents m {[7 := 70]}) as Hrep by (exists T; split; [done|]; by rewrite Hm).
  exists m. split; [done|]. split.
  - apply (map_queries_correct m {[7 := 70]} 7 Hrep).
  - apply (map_queries_correct m {[7 := 70]} 8 Hrep).
Defined.
