(* ===== verification/CString.v ===== *)
(** * infos/util/string.cpp, string.h and cmdline.cpp: strings and the kernel
      command line

    A character is its byte, a C string the bytes of the memory it points
    into, and reading past that memory faults.  The class [String] keeps its
    characters with the cached hash. *)
From S2P Require Import Prelude.

(** ** C strings *)
Fixpoint strlen_loop (str : list Z) (counter : Z) : outcome Z :=
  match str with
  | [] => Fault OutOfBounds
  | c :: str => if c =? 0 then Ok counter else strlen_loop str (u64 (counter + 1))
  end.

Definition strlen (str : option (list Z)) : outcome Z :=
  match str with
  | None => Ok 0
  | Some str => strlen_loop str 0
  end.

(** The loop of [strncmp]; [n--] is tested before it is decremented. *)
Fixpoint strncmp_loop (str1 str2 : list Z) (n : Z) : outcome Z :=
  match str1, str2 with
  | c1 :: r1, c2 :: r2 =>
      if (c1 =? 0) || (c2 =? 0) || (n =? 0) then Ok 0
      else if negb (c1 =? c2) then Ok (-1)
      else strncmp_loop r1 r2 (n - 1)
  | _, _ => Fault OutOfBounds
  end.

Definition strncmp (str1 str2 : list Z) (n : Z) : outcome Z :=
  l1 ← strlen (Some str1);
  l2 ← strlen (Some str2);
  if negb (l1 =? l2) then Ok (-1) else strncmp_loop str1 str2 n.

(** [strncpy] writes into [dest] and returns where it stopped; [--n] wraps
    when [n] is zero. *)
Fixpoint strncpy_loop (dest src : list Z) (n : Z) : outcome (Z * list Z) :=
  match dest, src with
  | d :: dest, c :: src =>
      let n := u64 (n - 1) in
      if (n =? 0) || (c =? 0) then Ok (0, 0 :: dest)
      else '(k, rest) ← strncpy_loop dest src n; Ok (k + 1, c :: rest)
  | _, _ => Fault OutOfBounds
  end.

Definition strncpy (dest src : list Z) (n : Z) : outcome (Z * list Z) := strncpy_loop dest src n.

(** ** The class String *)
Record String := {
  _data : list Z;
  _has_hash : bool;
  _hash : Z
}.

Definition _size (s : String) : Z := Z.of_nat (length (_data s)).
Definition String_empty : String := {| _data := []; _has_hash := false; _hash := 0 |}.
Definition String_of (data : list Z) : String := {| _data := data; _has_hash := false; _hash := 0 |}.

(** The constructor from a C string copies [strlen] characters. *)
Definition String_cstr (str : list Z) : outcome String :=
  n ← strlen (Some str);
  Ok (String_of (take (Z.to_nat n) str)).

Definition String_copy (s : String) : String := s.

(** The move constructor takes the buffer over; it stores the flag
    [_has_hash] as the hash, and leaves the source as it is. *)
Definition String_move (s : String) : String :=
  {| _data := _data s; _has_hash := _has_hash s; _hash := if _has_hash s then 1 else 0 |}.

Definition String_assign (s : String) : String := String_of (_data s).

(** Move assignment, with what is left of the source; [None] is a NULL
    buffer of size zero. *)
Definition String_move_assign (s : String) : String * option (list Z) := (s, None).

(** [hash ^= _data[i]] converts a signed [char]. *)
Definition hash_step (hash c : Z) : Z := u64 (Z.lxor hash (u64 (i8 c)) * 1099511628211).
Definition compute_hash (s : String) : Z := foldl hash_step 14695981039346656037 (_data s).

Definition get_hash (s : String) : Z * String :=
  if _has_hash s then (_hash s, s)
  else let h := compute_hash s in (h, {| _data := _data s; _has_hash := true; _hash := h |}).

Definition String_add (l r : String) : String := String_of (_data l ++ _data r).
Definition String_add_char (l : String) (r : Z) : String := String_of (_data l ++ [r]).
Definition String_at (s : String) (idx : Z) : Z := if _size s <=? idx then 0 else nth (Z.to_nat idx) (_data s) 0.

Fixpoint eq_loop (l r : list Z) : bool :=
  match l, r with
  | [], _ => true
  | x :: l, y :: r => if negb (x =? y) then false else eq_loop l r
  | _ :: _, [] => false
  end.

Definition String_eq (l r : String) : bool :=
  if negb (_size l =? _size r) then false else eq_loop (_data l) (_data r).

Definition String_empty_p (s : String) : bool := _size s =? 0.

(** [ToString]: the digits are written from the end of a 16-byte buffer. *)
Fixpoint to_string_loop (i : nat) (v : Z) (acc : list Z) : list Z :=
  match i with
  | O => acc
  | S i => if 0 <? v then to_string_loop i (v / 10) (48 + v mod 10 :: acc) else acc
  end.

Definition ToString (v : Z) : String :=
  if v =? 0 then String_of [48] else String_of (to_string_loop 16 v []).

(** [split]: a [continue] that skips the advance of the loop leaves the state
    as it was. *)
Fixpoint split_loop (fuel : nat) (start : list Z) (current_part : String) (delim : Z) (remove_empty : bool)
    (r : list String) : outcome (list String) :=
  match fuel with
  | O => Fault OutOfFuel
  | S fuel =>
      match start with
      | [] =>
          if (0 <? _size current_part) || negb remove_empty then Ok (r ++ [String_copy current_part])
          else Ok r
      | c :: rest =>
          if c =? delim then
            if (_size current_part =? 0) && remove_empty
            then split_loop fuel start current_part delim remove_empty r
            else split_loop fuel rest String_empty delim remove_empty (r ++ [String_copy current_part])
          else split_loop fuel rest (String_add_char current_part c) delim remove_empty r
      end
  end.

Definition split (s : String) (delim : Z) (remove_empty : bool) : outcome (list String) :=
  split_loop (S (length (_data s))) (_data s) String_empty delim remove_empty [].

(** ** The command line *)
Record CommandLineArgumentRegistration := { match_ : option (list Z); fn : Z }.

Fixpoint find_registration (rgns : list CommandLineArgumentRegistration) (key : list Z)
  : outcome (option CommandLineArgumentRegistration) :=
  match rgns with
  | [] => Ok None
  | rgn :: rgns =>
      match match_ rgn with
      | None => find_registration rgns key
      | Some m =>
          c ← strncmp m key 256;
          if c =? 0 then Ok (Some rgn) else find_registration rgns key
      end
  end.

(** The key of a setting: at most 63 characters up to [=]. *)
Fixpoint read_key (i : nat) (setting : list Z) : outcome (list Z * list Z) :=
  match setting with
  | [] => Fault OutOfBounds
  | c :: rest =>
      match i with
      | O => Ok ([], setting)
      | S i =>
          if (c =? 0) || (c =? 61) then Ok ([], setting)
          else '(key, setting) ← read_key i rest; Ok (c :: key, setting)
      end
  end.

(** The value: at most 63 characters, every [=] skipped. *)
Fixpoint read_value (i : nat) (setting : list Z) : outcome (list Z) :=
  match setting with
  | [] => Fault OutOfBounds
  | c :: rest =>
      if (c =? 0) || Nat.eqb i 0 then Ok []
      else if c =? 61 then read_value i rest
      else value ← read_value (Nat.pred i) rest; Ok (c :: value)
  end.

(** The call of a handler that [process] makes, if any. *)
Definition process (rgns : list CommandLineArgumentRegistration) (setting : list Z)
  : outcome (list (Z * list Z)) :=
  '(key, setting) ← read_key 63 setting;
  value ← read_value 63 setting;
  reg ← find_registration rgns (key ++ [0]);
  match reg with
  | Some reg => Ok [(fn reg, value ++ [0])]
  | None => Ok []
  end.

Fixpoint skip_spaces (cmdline : list Z) : outcome (list Z) :=
  match cmdline with
  | [] => Fault OutOfBounds
  | c :: rest => if negb (c =? 0) && (c =? 32) then skip_spaces rest else Ok cmdline
  end.

(** [setting[i++] = *cmdline++] into the array of 128 characters: [room] is
    how many are left, one being needed for the terminator. *)
Fixpoint read_setting (room : nat) (cmdline : list Z) : outcome (list Z * list Z) :=
  match cmdline with
  | [] => Fault OutOfBounds
  | c :: rest =>
      match room with
      | O => Fault OutOfBounds
      | S room =>
          if (c =? 0) || (c =? 32) then Ok ([0], cmdline)
          else '(setting, cmdline) ← read_setting room rest; Ok (c :: setting, cmdline)
      end
  end.

(** The handlers called, in order; [parse] itself returns true. *)
Fixpoint parse_loop (fuel : nat) (rgns : list CommandLineArgumentRegistration) (cmdline : list Z)
  : outcome (list (Z * list Z)) :=
  match fuel with
  | O => Fault OutOfFuel
  | S fuel =>
      match cmdline with
      | [] => Fault OutOfBounds
      | c :: _ =>
          if c =? 0 then Ok []
          else
            cmdline ← skip_spaces cmdline;
            '(setting, cmdline) ← read_setting 128 cmdline;
            if Nat.eqb (length setting) 1 then Ok []
            else
              calls ← process rgns setting;
              rest ← parse_loop fuel rgns cmdline;
              Ok (calls ++ rest)
      end
  end.

Definition parse (rgns : list CommandLineArgumentRegistration) (cmdline : list Z)
  : outcome (bool * list (Z * list Z)) :=
  calls ← parse_loop (S (length cmdline)) rgns cmdline;
  Ok (true, calls).

Example parse_two : parse [{| match_ := Some [97; 0]; fn := 1 |}; {| match_ := Some [98; 0]; fn := 2 |}]
    [98; 61; 49; 32; 97; 61; 50; 0] = Ok (true, [(2, [49; 0]); (1, [50; 0])]).
Proof. reflexivity. Qed.
