(* ===== verification/Printf.v ===== *)
(** * infos/util/printf.cpp: formatted printing into a bounded buffer

    The buffer is the memory the caller passes; a read or write outside it
    faults.  The position [count] stands for the pointer [buffer] as well, as
    both advance together.  A format is a list of characters ended by 0. *)
From S2P Require Import Prelude.

(** The variable arguments: integers, and strings ended by 0. *)
Inductive va_item := VInt (v : Z) | VStr (s : list Z).

Definition read (buf : list Z) (i : nat) : outcome Z := in_bounds (buf !! i).
Definition write (buf : list Z) (i : nat) (c : Z) : outcome (list Z) :=
  _ ← in_bounds (buf !! i); Ok (<[i := c]> buf).

(** [for (i = size; i > 0; i--) buffer[i] = buffer[i - 1]] at position [b]. *)
Fixpoint shift (i : nat) (buf : list Z) (b : nat) : outcome (list Z) :=
  match i with
  | O => Ok buf
  | S j =>
      x ← read buf (b + j);
      buf ← write buf (b + S j) x;
      shift j buf b
  end.

Definition prepend_to_buffer (c : Z) (buf : list Z) (b : nat) (size : nat) : outcome (list Z) :=
  buf ← shift size buf b;
  write buf b c.

(** The character of a digit; bases go up to 16. *)
Definition digit_char (d : Z) : Z := if d <? 10 then 48 + d else 97 + d - 10.

Fixpoint num_loop (fuel : nat) (buf : list Z) (b : nat) (n : nat) (size value base : Z)
  : outcome (nat * list Z) :=
  match fuel with
  | O => Fault OutOfFuel
  | S fuel =>
      if (0 <? value) && (Z.of_nat n <? size) then
        buf ← prepend_to_buffer (digit_char (value mod base)) buf b n;
        num_loop fuel buf b (S n) size (value / base) base
      else Ok (n, buf)
  end.

Fixpoint pad_loop (pad : nat) (buf : list Z) (b : nat) (n : nat) (size pad_char : Z)
  : outcome (nat * list Z) :=
  match pad with
  | O => Ok (n, buf)
  | S pad =>
      if Z.of_nat n <? size then
        buf ← prepend_to_buffer pad_char buf b n;
        pad_loop pad buf b (S n) size pad_char
      else Ok (n, buf)
  end.

Definition append_num (buf : list Z) (b : nat) (size value base : Z) (sgn : bool) (pad pad_char : Z)
  : outcome (nat * list Z) :=
  let pad := if size <=? pad then size - 1 else pad in
  let negative := sgn && (i64 value <? 0) in
  buf ← (if negative then prepend_to_buffer 45 buf b 0 else Ok buf);
  let n := if negative then 1%nat else 0%nat in
  let value := if negative then u64 (- value) else value in
  '(n, buf) ← (if 0 <? value then num_loop 65 buf b n size value base
               else if Z.of_nat n <? size then
                 buf ← prepend_to_buffer 48 buf b n; buf ← write buf b 48; Ok (S n, buf)
               else Ok (n, buf));
  pad_loop (Z.to_nat (pad - Z.of_nat n)) buf b n size pad_char.

Fixpoint copy_loop (text : list Z) (buf : list Z) (b : nat) (n : nat) (size : Z) : outcome (nat * list Z) :=
  match text with
  | [] => Fault OutOfBounds
  | c :: text =>
      if negb (c =? 0) && (Z.of_nat n <? size) then
        buf ← write buf (b + n) c; copy_loop text buf b (S n) size
      else Ok (n, buf)
  end.

Fixpoint fill_loop (fuel : nat) (buf : list Z) (b : nat) (n : nat) (size pad pad_char : Z)
  : outcome (nat * list Z) :=
  match fuel with
  | O => Ok (n, buf)
  | S fuel =>
      if (Z.of_nat n <? size) && (Z.of_nat n <? pad) then
        buf ← write buf (b + n) pad_char; fill_loop fuel buf b (S n) size pad pad_char
      else Ok (n, buf)
  end.

Definition append_str (buf : list Z) (b : nat) (size : Z) (text : list Z) (pad pad_char : Z)
  : outcome (nat * list Z) :=
  '(n, buf) ← copy_loop text buf b 0 size;
  fill_loop (Z.to_nat pad) buf b n size pad pad_char.

(** [va_arg]. An item of the other kind, or a missing one, is the caller's
    error. *)
Definition va_int (args : list va_item) : outcome (Z * list va_item) :=
  match args with VInt v :: args => Ok (v, args) | _ => Fault Aborted end.
Definition va_str (args : list va_item) : outcome (list Z * list va_item) :=
  match args with VStr s :: args => Ok (s, args) | _ => Fault Aborted end.

(** The state between [%] and the conversion: pad size and character, and
    whether an [l] was seen. *)
Record spec := { pad_size : Z; pad_char : Z; number_size : Z }.

Definition spec0 : spec := {| pad_size := 0; pad_char := 32; number_size := 4 |}.

Definition is_digit (c : Z) : bool := (49 <=? c) && (c <=? 57).

(** The flags and digits of a format: what the next state is, when [c] is one. *)
Definition spec_next (s : spec) (c : Z) : option spec :=
  if c =? 48 then
    Some (if 0 <? pad_size s
          then {| pad_size := i32 (pad_size s * 10); pad_char := pad_char s; number_size := number_size s |}
          else {| pad_size := pad_size s; pad_char := 48; number_size := number_size s |})
  else if is_digit c then
    Some {| pad_size := i32 (i32 (pad_size s * 10) + (c - 48)); pad_char := pad_char s; number_size := number_size s |}
  else if c =? 108 then
    Some {| pad_size := pad_size s; pad_char := pad_char s; number_size := 8 |}
  else None.

(** The 64-bit value of an integer argument of [%d] and [%u], and of the others. *)
Definition int_value (s : spec) (c v : Z) : Z :=
  if number_size s =? 8 then u64 v else if c =? 117 then u32 v else u64 (i32 v).
Definition hex_value (s : spec) (c v : Z) : Z :=
  if (number_size s =? 8) || (c =? 112) then u64 v else u32 v.

(** One conversion: the new count, buffer and arguments. *)
Definition convert (s : spec) (c size : Z) (buf : list Z) (count : nat) (args : list va_item)
  : outcome (nat * list Z * list va_item) :=
  if (c =? 100) || (c =? 117) then
    '(v, args) ← va_int args;
    '(rc, buf) ← append_num buf count (size - 1 - Z.of_nat count) (int_value s c v) 10 (c =? 100)
                   (pad_size s) (pad_char s);
    Ok ((count + rc)%nat, buf, args)
  else if (c =? 98) || (c =? 120) || (c =? 112) then
    '(v, args) ← va_int args;
    '(rc, buf) ← (if c =? 112 then append_str buf count (size - 1 - Z.of_nat count) [48; 120; 0] 0 32
                  else Ok (0%nat, buf));
    let count := (count + rc)%nat in
    '(rc, buf) ← append_num buf count (size - 1 - Z.of_nat count) (hex_value s c v)
                   (if c =? 98 then 2 else 16) false (pad_size s) (pad_char s);
    Ok ((count + rc)%nat, buf, args)
  else if c =? 115 then
    '(text, args) ← va_str args;
    '(rc, buf) ← append_str buf count (size - 1 - Z.of_nat count) text (pad_size s) (pad_char s);
    Ok ((count + rc)%nat, buf, args)
  else if c =? 99 then
    '(v, args) ← va_int args;
    buf ← write buf count (u8 v);
    Ok (S count, buf, args)
  else
    buf ← write buf count c;
    Ok (S count, buf, args).

(** The loop over the format; [mode] is the state of a format being read. *)
Fixpoint vsn_loop (fmt : list Z) (mode : option spec) (size : Z) (buf : list Z) (count : nat)
    (args : list va_item) : outcome (nat * list Z) :=
  match fmt with
  | [] => Fault OutOfBounds
  | c :: rest =>
      match mode with
      | None =>
          if negb (c =? 0) && (Z.of_nat count <? size - 1) then
            if c =? 37 then vsn_loop rest (Some spec0) size buf count args
            else buf ← write buf count c; vsn_loop rest None size buf (S count) args
          else buf ← write buf count 0; Ok (count, buf)
      | Some s =>
          if c =? 0 then buf ← write buf count 0; Ok (count, buf)
          else
            match spec_next s c with
            | Some s => vsn_loop rest (Some s) size buf count args
            | None =>
                '(count, buf, args) ← convert s c size buf count args;
                vsn_loop rest None size buf count args
            end
      end
  end.

(** The count returned and the buffer. *)
Definition vsnprintf (buf : list Z) (size : Z) (fmt : list Z) (args : list va_item)
  : outcome (Z * list Z) :=
  if size =? 0 then Ok (0, buf)
  else '(count, buf) ← vsn_loop fmt None size buf 0 args; Ok (Z.of_nat count, buf).

Definition snprintf := vsnprintf.
Definition sprintf (buf : list Z) (fmt : list Z) (args : list va_item) : outcome (Z * list Z) :=
  vsnprintf buf 0x1000 fmt args.

(** ["%d"], ["%04x"] *)
Example print_d : vsnprintf (replicate 8 1) 8 [37; 100; 0] [VInt 42] = Ok (2, [52; 50; 0; 1; 1; 1; 1; 1]).
Proof. reflexivity. Qed.
Example print_x : vsnprintf (replicate 8 1) 8 [37; 48; 52; 120; 0] [VInt 0xbe] =
  Ok (4, [48; 48; 98; 101; 0; 1; 1; 1]).
Proof. reflexivity. Qed.
