(* ===== verification/PrintfTheorems.v ===== *)
(** * What infos/util/printf.cpp guarantees

    vsnprintf always returns, never leaves its buffer, ends its output with a
    zero and prints the text of the format when that is shorter than the size
    less one; numbers read back as the value printed, but a negative number
    carries its sign at the end. *)
From S2P Require Import Prelude Printf.

(** ** vsnprintf stays in its buffer and prints what the format says

    [render] is the text a format stands for: numbers padded on the left, the
    minus sign of a negative one in front of its digits, strings padded on the
    right, the width of [%c] ignored.  [printed] is what the code makes of it
    given room, which differs in the place of the minus sign.  The printing loops
    are described on a buffer split into what is in front, the text being
    built, and the rest. *)

#[local] Arguments wrap : simpl never.
#[local] Arguments swrap : simpl never.

(** ** Writing and shifting *)
Lemma write_spec (pre : list Z) x post c : write (pre ++ x :: post) (length pre) c = Ok (pre ++ c :: post).
Proof.
  unfold write. rewrite list_lookup_middle by done. cbn [in_bounds mbind outcome_bind]. f_equal.
  rewrite <- (Nat.add_0_r (length pre)), insert_app_r. done.
Qed.

Lemma shift_spec (out pre : list Z) x post :
  shift (length out) (pre ++ out ++ x :: post) (length pre) =
  Ok (pre ++ match out with [] => x | h :: _ => h end :: out ++ post).
Proof.
  revert x post. induction out as [|y out IH] using rev_ind; intros x post; [done|].
  rewrite length_app, Nat.add_comm. cbn [length Nat.add shift]. unfold read.
  replace (pre ++ (out ++ [y]) ++ x :: post) with ((pre ++ out) ++ y :: x :: post) by
    (by rewrite <- !app_assoc).
  replace (length pre + length out)%nat with (length (pre ++ out)) by apply length_app.
  rewrite list_lookup_middle by done. cbn [in_bounds mbind outcome_bind].
  replace (length pre + S (length out))%nat with (length ((pre ++ out) ++ [y])) by
    (rewrite !length_app; cbn; lia).
  replace ((pre ++ out) ++ y :: x :: post) with (((pre ++ out) ++ [y]) ++ x :: post) by
    (by rewrite <- !app_assoc).
  rewrite write_spec. cbn [mbind outcome_bind]. rewrite <- !app_assoc. cbn [app].
  rewrite (IH y (y :: post)). by destruct out.
Qed.

Lemma prepend_spec (out pre : list Z) x post c :
  prepend_to_buffer c (pre ++ out ++ x :: post) (length pre) (length out) = Ok (pre ++ (c :: out) ++ post).
Proof.
  unfold prepend_to_buffer. rewrite shift_spec. cbn [mbind outcome_bind].
  rewrite <- app_comm_cons. by destruct out; apply write_spec.
Qed.

(** ** Numbers *)

(** The digits of [v], most significant first, in front of [acc]. *)
Fixpoint digits (fuel : nat) (base v : Z) (acc : list Z) : list Z :=
  match fuel with
  | O => acc
  | S fuel => if 0 <? v then digits fuel base (v / base) (digit_char (v mod base) :: acc) else acc
  end.

Lemma digits_length fuel base v acc : (length acc <= length (digits fuel base v acc))%nat.
Proof.
  revert v acc. induction fuel as [|fuel IH]; intros v acc; cbn; [lia|].
  case_match; [|lia]. specialize (IH (v / base) (digit_char (v mod base) :: acc)). cbn in IH. lia.
Qed.

(** What a printing loop does to the text [out]: it extends it to at most
    [size] characters, into the rest of the buffer. *)
Definition extends (r : outcome (nat * list Z)) (pre out post : list Z) (size : Z) (full : list Z) : Prop :=
  exists out', r = Ok (length out', pre ++ out' ++ drop (length out' - length out) post) /\
    (length out <= length out')%nat /\ Z.of_nat (length out') <= Z.max size (Z.of_nat (length out)) /\
    (Z.of_nat (length full) <= size -> out' = full).

Lemma extends_refl pre out post size : extends (Ok (length out, pre ++ out ++ post)) pre out post size out.
Proof.
  exists out. split; [by rewrite Nat.sub_diag|]. split; [lia|]. split; [lia|done].
Qed.

Lemma extends_step r pre out out1 x post size full :
  length out1 = S (length out) -> Z.of_nat (length out) < size ->
  extends r pre out1 post size full -> extends r pre out (x :: post) size full.
Proof.
  intros Hl Hs (out' & -> & Hle & Hm & Hf). exists out'. split.
  - replace (length out' - length out)%nat with (S (length out' - length out1)) by lia. done.
  - split; [lia|]. split; [lia|done].
Qed.

Lemma num_loop_spec fuel pre out post size v base :
  2 <= base -> 0 <= v < 2 ^ (Z.of_nat fuel - 1) -> (0 < fuel)%nat ->
  size <= Z.of_nat (length out + length post) ->
  extends (num_loop fuel (pre ++ out ++ post) (length pre) (length out) size v base) pre out post size
    (digits fuel base v out).
Proof.
  intros Hb. revert out post v. induction fuel as [|fuel IH]; intros out post v Hv Hf Hs; [lia|].
  cbn [num_loop digits]. destruct (Z.ltb_spec 0 v) as [Hpos|Hz]; cbn [andb]; [|apply extends_refl].
  destruct (Z.ltb_spec (Z.of_nat (length out)) size) as [Hlt|Hge].
  - destruct post as [|x post]; [cbn in Hs; lia|]. rewrite prepend_spec. cbn [mbind outcome_bind].
    apply (extends_step _ _ _ (digit_char (v mod base) :: out)); [done|lia|].
    change (S (length out)) with (length (digit_char (v mod base) :: out)). apply IH.
    + split; [apply Z.div_pos; lia|]. apply Z.div_lt_upper_bound; [lia|].
      destruct fuel as [|fuel]; [cbn in Hv; lia|].
      replace (Z.of_nat (S (S fuel)) - 1) with (1 + (Z.of_nat (S fuel) - 1)) in Hv by lia.
      rewrite Z.pow_add_r in Hv by lia. nia.
    + destruct fuel; [cbn in Hv; lia|lia].
    + cbn [length] in *. lia.
  - exists out. rewrite Nat.sub_diag. split; [done|]. split; [lia|]. split; [lia|].
    intros Hle. exfalso. pose proof (digits_length fuel base (v / base) (digit_char (v mod base) :: out)) as Hd.
    cbn [length] in Hd. lia.
Qed.

Lemma pad_loop_spec pad pre out post size c :
  size <= Z.of_nat (length out + length post) ->
  extends (pad_loop pad (pre ++ out ++ post) (length pre) (length out) size c) pre out post size
    (replicate pad c ++ out).
Proof.
  revert out post. induction pad as [|pad IH]; intros out post Hs; cbn [pad_loop]; [apply extends_refl|].
  destruct (Z.ltb_spec (Z.of_nat (length out)) size) as [Hlt|Hge].
  - destruct post as [|x post]; [cbn in Hs; lia|]. rewrite prepend_spec. cbn [mbind outcome_bind].
    apply (extends_step _ _ _ (c :: out)); [done|lia|].
    replace (replicate (S pad) c ++ out) with (replicate pad c ++ (c :: out)).
    + apply (IH (c :: out) post). cbn [length] in *. lia.
    + rewrite (app_assoc _ [c] out : _ ++ c :: out = _). by rewrite <- replicate_S_end.
  - exists out. rewrite Nat.sub_diag. split; [done|]. split; [lia|]. split; [lia|].
    intros Hle. rewrite length_app, length_replicate in Hle. lia.
Qed.

(** What is printed for a number: its digits, a minus sign behind a negative
    one, and the padding in front. *)
Definition num_body (value base : Z) (sgn : bool) : list Z :=
  let negative := sgn && (i64 value <? 0) in
  let v := if negative then u64 (- value) else value in
  let sign := if negative then [45] else [] in
  if 0 <? v then digits 65 base v sign else 48 :: sign.

Definition num_text (value base : Z) (sgn : bool) (pad pad_char : Z) : list Z :=
  let body := num_body value base sgn in
  replicate (Z.to_nat (pad - Z.of_nat (length body))) pad_char ++ body.

(** The text of a number: the minus sign is in front of the digits, and of
    padding with zeroes. *)
Definition signed_text (value base : Z) (sgn : bool) (pad pad_char : Z) : list Z :=
  let negative := sgn && (i64 value <? 0) in
  let v := if negative then u64 (- value) else value in
  let sign := if negative then [45] else [] in
  let number := if 0 <? v then digits 65 base v [] else [48] in
  let fill := replicate (Z.to_nat (pad - Z.of_nat (length sign + length number))) pad_char in
  if pad_char =? 48 then sign ++ fill ++ number else fill ++ sign ++ number.

Lemma digits_acc fuel base v acc : digits fuel base v acc = digits fuel base v [] ++ acc.
Proof.
  revert v acc. induction fuel as [|fuel IH]; intros v acc; cbn; [done|]. case_match; [|done].
  rewrite IH, (IH _ [_]), <- app_assoc. done.
Qed.

(** The sign does not change the length, and nothing else differs. *)
Lemma signed_length value base sgn pad c :
  length (signed_text value base sgn pad c) = length (num_text value base sgn pad c).
Proof.
  unfold signed_text, num_text, num_body. destruct (sgn && (i64 value <? 0)), (c =? 48), (0 <? _);
    rewrite ?(digits_acc 65 _ _ [45]); rewrite !length_app, ?length_replicate; cbn [length]; lia.
Qed.

Lemma signed_same value base sgn pad c : sgn && (i64 value <? 0) = false ->
  signed_text value base sgn pad c = num_text value base sgn pad c.
Proof. unfold signed_text, num_text, num_body. intros ->. by destruct (c =? 48), (0 <? value). Qed.

Lemma extends_bind r (k : nat * list Z -> outcome (nat * list Z)) pre out post size mid f :
  extends r pre out post size mid -> size <= Z.of_nat (length out + length post) ->
  (forall l : list Z, (length l <= length (f l))%nat) ->
  (forall out' post', size <= Z.of_nat (length out' + length post') ->
     extends (k (length out', pre ++ out' ++ post')) pre out' post' size (f out')) ->
  extends (mbind k r) pre out post size (f mid).
Proof.
  intros (out1 & -> & Hle & Hm & Hf) Hs Hmono Hk. cbn [mbind outcome_bind].
  destruct (Hk out1 (drop (length out1 - length out) post)) as (out2 & -> & Hle2 & Hm2 & Hf2).
  { rewrite length_drop. lia. }
  exists out2. split; [|split; [lia|split; [lia|]]].
  - rewrite drop_drop. do 5 f_equal. lia.
  - intros Hfull. specialize (Hmono mid). assert (out1 = mid) as <- by (apply Hf; lia). by apply Hf2.
Qed.

Lemma append_num_spec pre post size value base sgn pad pad_char :
  2 <= base -> 0 <= value < 2 ^ 64 -> 0 <= size <= Z.of_nat (length post) ->
  (sgn = true -> 0 < size) ->
  exists out, append_num (pre ++ post) (length pre) size value base sgn pad pad_char =
      Ok (length out, pre ++ out ++ drop (length out) post) /\
    Z.of_nat (length out) <= size /\
    (Z.of_nat (length (num_text value base sgn pad pad_char)) < size ->
     out = num_text value base sgn pad pad_char).
Proof.
  intros Hb Hv Hs Hsgn. unfold append_num.
  set (pad' := if size <=? pad then size - 1 else pad).
  set (negative := sgn && (i64 value <? 0)).
  set (v := if negative then u64 (- value) else value).
  set (sign := if negative then [45] else [] : list Z).
  assert ((if negative then prepend_to_buffer 45 (pre ++ post) (length pre) 0 else Ok (pre ++ post)) =
    Ok (pre ++ sign ++ drop (length sign) post)) as ->.
  { unfold sign. destruct negative eqn:En; [|done].
    apply andb_true_iff in En as [Hsg _]. destruct post as [|x post]; [cbn in Hs; specialize (Hsgn Hsg); lia|].
    exact (prepend_spec [] pre x post 45). }
  cbn [mbind outcome_bind].
  assert ((if negative then 1%nat else 0%nat) = length sign) as -> by (unfold sign; by destruct negative).
  assert (0 <= v < 2 ^ 64) as Hv'.
  { unfold v. destruct negative; [apply wrap_range; lia|done]. }
  assert (Z.of_nat (length sign) <= size) as Hsign.
  { unfold sign. destruct negative eqn:En; cbn; [|lia]. apply andb_true_iff in En as [Hsg _].
    specialize (Hsgn Hsg). lia. }
  set (post1 := drop (length sign) post).
  assert (size <= Z.of_nat (length sign + length post1)) as Hs1.
  { unfold post1. rewrite length_drop. lia. }
  set (f := fun l : list Z => replicate (Z.to_nat (pad' - Z.of_nat (length l))) pad_char ++ l).
  assert (extends (mbind (fun '(n, buf) => pad_loop (Z.to_nat (pad' - Z.of_nat n)) buf (length pre) n size pad_char)
    (if 0 <? v then num_loop 65 (pre ++ sign ++ post1) (length pre) (length sign) size v base
     else if Z.of_nat (length sign) <? size then
       buf ← prepend_to_buffer 48 (pre ++ sign ++ post1) (length pre) (length sign);
       buf ← write buf (length pre) 48; Ok (S (length sign), buf)
     else Ok (length sign, pre ++ sign ++ post1)))
    pre sign post1 size (f (num_body value base sgn))) as Hex.
  { apply extends_bind; [|done| |].
    - unfold num_body. fold negative. fold v. fold sign. destruct (0 <? v) eqn:Epos.
      + apply num_loop_spec; [done|change (Z.of_nat 65 - 1) with 64; lia|lia|done].
      + destruct (Z.ltb_spec (Z.of_nat (length sign)) size) as [Hlt|Hge].
        * destruct post1 as [|x post2] eqn:Ep; [cbn in Hs1; lia|]. rewrite prepend_spec. cbn [mbind outcome_bind].
          rewrite <- app_comm_cons. rewrite write_spec. cbn [mbind outcome_bind].
          apply (extends_step _ _ _ (48 :: sign)); [done|lia|]. apply (extends_refl pre (48 :: sign) post2).
        * exists sign. rewrite Nat.sub_diag. split; [done|]. split; [lia|]. split; [lia|]. cbn [length]. lia.
    - intros l. unfold f. rewrite length_app. lia.
    - intros out' post' Hs'. by apply pad_loop_spec. }
  destruct Hex as (out & E & Hle & Hm & Hf). exists out. split; [|split].
  - etrans; [exact E|]. do 3 f_equal. f_equal. unfold post1. rewrite drop_drop. f_equal. lia.
  - lia.
  - intros Hlt. unfold num_text in *. rewrite length_app, length_replicate in Hlt.
    assert (pad' = pad) as Hpad.
    { unfold pad'. destruct (Z.leb_spec size pad); [lia|done]. }
    rewrite Hf; unfold f; rewrite Hpad; [done|]. rewrite length_app, length_replicate. lia.
Qed.

(** ** Strings *)

(** The characters of a C string. *)
Fixpoint chars (text : list Z) : list Z :=
  match text with
  | [] => []
  | c :: text => if c =? 0 then [] else c :: chars text
  end.

Definition str_text (text : list Z) (pad pad_char : Z) : list Z :=
  chars text ++ replicate (Z.to_nat (pad - Z.of_nat (length (chars text)))) pad_char.

(** What an appending loop does: the text grows at the back. *)
Definition appends (r : outcome (nat * list Z)) (pre out post : list Z) (size : Z) (more : list Z) : Prop :=
  exists add, r = Ok (length (out ++ add), pre ++ out ++ add ++ drop (length add) post) /\
    Z.of_nat (length (out ++ add)) <= Z.max size (Z.of_nat (length out)) /\
    (Z.of_nat (length (out ++ more)) <= size -> add = more).

Lemma appends_refl pre out post size : appends (Ok (length out, pre ++ out ++ post)) pre out post size [].
Proof. exists []. rewrite app_nil_r. split; [done|]. split; [lia|done]. Qed.

Lemma appends_step r pre out x post size c more : Z.of_nat (length out) < size ->
  appends r pre (out ++ [c]) post size more -> appends r pre out (x :: post) size (c :: more).
Proof.
  intros Hs (add & -> & Hm & Hf). exists (c :: add). rewrite <- !app_assoc. split; [done|]. split.
  - rewrite !length_app in *. cbn in *. lia.
  - intros Hle. f_equal. apply Hf. by rewrite <- app_assoc.
Qed.

Lemma write_end (pre out : list Z) x post c :
  write (pre ++ out ++ x :: post) (length pre + length out) c = Ok (pre ++ (out ++ [c]) ++ post).
Proof.
  rewrite <- length_app, app_assoc. rewrite write_spec. by rewrite <- !app_assoc.
Qed.

Lemma appends_full pre out post size more : size <= Z.of_nat (length out) ->
  appends (Ok (length out, pre ++ out ++ post)) pre out post size more.
Proof.
  intros Hge. exists []. rewrite app_nil_r. split; [done|]. split; [lia|].
  intros Hle. rewrite length_app in Hle. destruct more; [done|]. cbn in Hle. lia.
Qed.

Lemma copy_loop_spec text pre out post size : 0 ∈ text -> size <= Z.of_nat (length out + length post) ->
  appends (copy_loop text (pre ++ out ++ post) (length pre) (length out) size) pre out post size (chars text).
Proof.
  revert out post. induction text as [|c text IH]; intros out post Hz Hs; [by apply elem_of_nil in Hz|].
  cbn [copy_loop chars]. destruct (Z.eqb_spec c 0) as [->|Hc]; cbn [negb andb]; [apply appends_refl|].
  apply elem_of_cons in Hz as [?|Hz]; [congruence|].
  destruct (Z.ltb_spec (Z.of_nat (length out)) size) as [Hlt|Hge]; [|by apply appends_full].
  destruct post as [|x post]; [cbn in Hs; lia|]. rewrite write_end. cbn [mbind outcome_bind].
  apply appends_step; [done|]. replace (S (length out)) with (length (out ++ [c])) by (rewrite length_app; cbn; lia).
  apply IH; [done|]. rewrite length_app. cbn in *. lia.
Qed.

Lemma fill_loop_spec fuel pre out post size pad c :
  size <= Z.of_nat (length out + length post) -> (Z.to_nat (pad - Z.of_nat (length out)) <= fuel)%nat ->
  appends (fill_loop fuel (pre ++ out ++ post) (length pre) (length out) size pad c) pre out post size
    (replicate (Z.to_nat (pad - Z.of_nat (length out))) c).
Proof.
  revert out post. induction fuel as [|fuel IH]; intros out post Hs Hf; cbn [fill_loop].
  { replace (Z.to_nat (pad - Z.of_nat (length out))) with 0%nat by lia. apply appends_refl. }
  destruct (Z.ltb_spec (Z.of_nat (length out)) size) as [Hlt|Hge]; cbn [andb]; [|by apply appends_full].
  destruct (Z.ltb_spec (Z.of_nat (length out)) pad) as [Hp|Hp].
  - destruct post as [|x post]; [cbn in Hs; lia|]. rewrite write_end. cbn [mbind outcome_bind].
    replace (Z.to_nat (pad - Z.of_nat (length out))) with (S (Z.to_nat (pad - Z.of_nat (length (out ++ [c])))))
      by (rewrite length_app; cbn; lia).
    apply appends_step; [done|]. replace (S (length out)) with (length (out ++ [c])) by (rewrite length_app; cbn; lia).
    apply IH; rewrite length_app; cbn in *; lia.
  - replace (Z.to_nat (pad - Z.of_nat (length out))) with 0%nat by lia. apply appends_refl.
Qed.

Lemma append_str_spec pre post size text pad c : 0 ∈ text -> 0 <= size <= Z.of_nat (length post) ->
  exists out, append_str (pre ++ post) (length pre) size text pad c =
      Ok (length out, pre ++ out ++ drop (length out) post) /\
    Z.of_nat (length out) <= size /\
    (Z.of_nat (length (str_text text pad c)) <= size -> out = str_text text pad c).
Proof.
  intros Hz Hs. unfold append_str.
  destruct (copy_loop_spec text pre [] post size Hz ltac:(cbn; lia)) as (add & E & Hm & Hf). cbn [app length] in *.
  step_to E. destruct (fill_loop_spec (Z.to_nat pad) pre add (drop (length add) post) size pad c)
    as (add2 & E2 & Hm2 & Hf2); [rewrite length_drop; lia|lia|].
  exists (add ++ add2). rewrite E2. split; [|split].
  - rewrite drop_drop, length_app, <- !app_assoc. done.
  - lia.
  - unfold str_text. intros Hle. rewrite length_app, length_replicate in Hle. rewrite Hf in * by lia.
    f_equal. apply Hf2. rewrite length_app, length_replicate. lia.
Qed.

(** ** The text of a format *)
Definition terminated (text : list Z) : bool := existsb (Z.eqb 0) text.

Lemma terminated_in text : terminated text = true -> 0 ∈ text.
Proof. intros (x & Hx & E)%existsb_exists. apply Z.eqb_eq in E as <-. by apply list_elem_of_In. Qed.

(** The text of one conversion and the arguments that are left; none when the
    arguments do not fit the format. *)
Section text.
Context (num_text : Z -> Z -> bool -> Z -> Z -> list Z).

Definition conv_text (s : spec) (c : Z) (args : list va_item) : option (list Z * list va_item) :=
  if (c =? 100) || (c =? 117) then
    match args with
    | VInt v :: args => Some (num_text (int_value s c v) 10 (c =? 100) (pad_size s) (pad_char s), args)
    | _ => None
    end
  else if (c =? 98) || (c =? 120) || (c =? 112) then
    match args with
    | VInt v :: args =>
        Some ((if c =? 112 then [48; 120] else []) ++
              num_text (hex_value s c v) (if c =? 98 then 2 else 16) false (pad_size s) (pad_char s), args)
    | _ => None
    end
  else if c =? 115 then
    match args with
    | VStr text :: args => if terminated text then Some (str_text text (pad_size s) (pad_char s), args) else None
    | _ => None
    end
  else if c =? 99 then
    match args with
    | VInt v :: args => Some ([u8 v], args)
    | _ => None
    end
  else Some ([c], args).

Fixpoint render_with (fmt : list Z) (mode : option spec) (args : list va_item) : option (list Z) :=
  match fmt with
  | [] => None
  | c :: rest =>
      if c =? 0 then Some []
      else
        match mode with
        | None =>
            if c =? 37 then render_with rest (Some spec0) args
            else text ← render_with rest None args; Some (c :: text)
        | Some s =>
            match spec_next s c with
            | Some s => render_with rest (Some s) args
            | None =>
                '(text, args) ← conv_text s c args;
                more ← render_with rest None args; Some (text ++ more)
            end
        end
  end.

End text.

Abbreviation printed := (render_with num_text).
Definition render := render_with signed_text.

(** Does a [%d] of the format print a negative number? *)
Definition conv_negative (s : spec) (c : Z) (args : list va_item) : bool :=
  match args with VInt v :: _ => (c =? 100) && (i64 (int_value s c v) <? 0) | _ => false end.

Fixpoint negative (fmt : list Z) (mode : option spec) (args : list va_item) : bool :=
  match fmt with
  | [] => false
  | c :: rest =>
      if c =? 0 then false
      else
        match mode with
        | None => negative rest (if c =? 37 then Some spec0 else None) args
        | Some s =>
            match spec_next s c with
            | Some s => negative rest (Some s) args
            | None =>
                conv_negative s c args ||
                match conv_text num_text s c args with
                | Some (_, args) => negative rest None args
                | None => false
                end
            end
        end
  end.

(** The two texts of a conversion and of a format have the same length, and
    are the same when nothing negative is printed. *)
Lemma conv_same s c args : match conv_text signed_text s c args, conv_text num_text s c args with
  | Some (t, args1), Some (t', args2) => args1 = args2 /\ length t = length t' /\ (conv_negative s c args = false -> t = t')
  | None, None => True
  | _, _ => False
  end.
Proof.
  unfold conv_text, conv_negative. destruct ((c =? 100) || (c =? 117)) eqn:E1.
  { destruct args as [|[v|] args]; try done. split; [done|]. split; [apply signed_length|]. apply signed_same. }
  destruct ((c =? 98) || (c =? 120) || (c =? 112)).
  { destruct args as [|[v|] args]; try done. split; [done|]. rewrite !length_app, signed_length.
    split; [done|]. intros _. by rewrite signed_same. }
  destruct (c =? 115); [destruct args as [|[|t] args]; try done; by destruct (terminated t)|].
  destruct (c =? 99); [destruct args as [|[v|] args]; done|done].
Qed.

Lemma render_printed fmt : forall mode args text, render_with signed_text fmt mode args = Some text ->
  exists text', printed fmt mode args = Some text' /\ length text = length text' /\
    (negative fmt mode args = false -> text = text').
Proof.
  induction fmt as [|c fmt IH]; intros mode args text; [done|]. cbn [render_with negative].
  destruct (c =? 0); [intros [= <-]; by exists []|]. destruct mode as [s|].
  - destruct (spec_next s c) as [s'|]; [apply IH|]. pose proof (conv_same s c args) as Hc.
    destruct (conv_text signed_text s c args) as [[t args1]|]; [|done].
    destruct (conv_text num_text s c args) as [[t' args2]|]; [|done]. destruct Hc as (-> & Hl & Heq).
    cbn [mbind option_bind]. destruct (render_with signed_text fmt None args2) as [m|] eqn:Em; [|done]. intros [= <-].
    destruct (IH _ _ _ Em) as (m' & -> & Hl' & Heq'). exists (t' ++ m'). split; [done|]. rewrite !length_app.
    split; [lia|]. intros [H1 H2]%orb_false_iff. by rewrite Heq, Heq'.
  - destruct (c =? 37); [apply IH|]. destruct (render_with signed_text fmt None args) as [m|] eqn:Em; [|done]. intros [= <-].
    destruct (IH _ _ _ Em) as (m' & -> & Hl' & Heq'). exists (c :: m'). split; [done|]. cbn [length].
    split; [lia|]. intros Hn. by rewrite Heq'.
Qed.

Lemma int_value_range s c v : 0 <= int_value s c v < 2 ^ 64.
Proof. unfold int_value. repeat case_match; try (apply wrap_range; lia). pose proof (wrap_range 32 v). lia. Qed.

Lemma hex_value_range s c v : 0 <= hex_value s c v < 2 ^ 64.
Proof. unfold hex_value. repeat case_match; try (apply wrap_range; lia). pose proof (wrap_range 32 v). lia. Qed.

(** The result of a step that prints [text] behind [pre]. *)
Definition prints (r : outcome (nat * list Z * list va_item)) (pre post : list Z) (size : Z) (text : list Z)
    (args : list va_item) : Prop :=
  exists add, r = Ok ((length pre + length add)%nat, pre ++ add ++ drop (length add) post, args) /\
    Z.of_nat (length (pre ++ add)) <= size - 1 /\
    (Z.of_nat (length (pre ++ text)) < size - 1 -> add = text).

Lemma prints_char pre x post size c args : Z.of_nat (length pre) < size - 1 ->
  prints (buf ← write (pre ++ x :: post) (length pre) c; Ok (S (length pre), buf, args)) pre (x :: post) size [c] args.
Proof.
  intros Hc. rewrite write_spec. cbn [mbind outcome_bind]. exists [c]. split; [|split; [|done]].
  - cbn. by rewrite Nat.add_1_r.
  - rewrite length_app. cbn. lia.
Qed.

Lemma convert_spec s c size pre post args text args' :
  conv_text num_text s c args = Some (text, args') -> Z.of_nat (length pre) < size - 1 ->
  size <= Z.of_nat (length (pre ++ post)) ->
  prints (convert s c size (pre ++ post) (length pre) args) pre post size text args'.
Proof.
  unfold conv_text, convert. intros Ht Hc Hs. rewrite length_app in Hs.
  destruct ((c =? 100) || (c =? 117)).
  { destruct args as [|[v|] args]; try done. injection Ht as <- <-. cbn [va_int mbind outcome_bind].
    destruct (append_num_spec pre post (size - 1 - Z.of_nat (length pre)) (int_value s c v) 10 (c =? 100)
      (pad_size s) (pad_char s)) as (out & E & Hle & Hf); [lia|apply int_value_range|lia|lia|].
    step_to E. exists out. split; [done|]. rewrite !length_app. split; [lia|]. intros Hfit. apply Hf. lia. }
  destruct ((c =? 98) || (c =? 120) || (c =? 112)).
  { destruct args as [|[v|] args]; try done. injection Ht as <- <-. cbn [va_int mbind outcome_bind].
    set (prefix := if c =? 112 then [48; 120] else [] : list Z).
    assert (exists add0, (if c =? 112 then append_str (pre ++ post) (length pre) (size - 1 - Z.of_nat (length pre))
      [48; 120; 0] 0 32 else Ok (0%nat, pre ++ post)) = Ok (length add0, pre ++ add0 ++ drop (length add0) post) /\
      Z.of_nat (length add0) <= size - 1 - Z.of_nat (length pre) /\
      (Z.of_nat (length prefix) <= size - 1 - Z.of_nat (length pre) -> add0 = prefix)) as (add0 & E0 & Hle0 & Hf0).
    { unfold prefix. destruct (c =? 112).
      - apply (append_str_spec pre post _ [48; 120; 0] 0 32); [set_solver|lia].
      - exists []. split; [done|]. split; [cbn; lia|done]. }
    step_to E0. rewrite app_assoc, <- length_app.
    destruct (append_num_spec (pre ++ add0) (drop (length add0) post) (size - 1 - Z.of_nat (length (pre ++ add0)))
      (hex_value s c v) (if c =? 98 then 2 else 16) false (pad_size s) (pad_char s)) as (out & E & Hle & Hf).
    - by destruct (c =? 98).
    - apply hex_value_range.
    - rewrite length_drop, length_app. lia.
    - done.
    - step_to E. exists (add0 ++ out). rewrite !length_app in *. split; [|split; [lia|]].
      + rewrite drop_drop, <- !app_assoc, Nat.add_assoc. done.
      + intros Hfit. rewrite Hf0 in * by lia. f_equal. apply Hf. lia. }
  destruct (c =? 115).
  { destruct args as [|[|t] args]; try done. destruct (terminated t) eqn:Et; [|done]. injection Ht as <- <-.
    cbn [va_str mbind outcome_bind].
    destruct (append_str_spec pre post (size - 1 - Z.of_nat (length pre)) t (pad_size s) (pad_char s))
      as (out & E & Hle & Hf); [by apply terminated_in|lia|].
    step_to E. exists out. split; [done|]. rewrite !length_app. split; [lia|]. intros Hfit. apply Hf. lia. }
  destruct post as [|x post]; [cbn in Hs; lia|].
  destruct (c =? 99).
  { destruct args as [|[v|] args]; try done. injection Ht as <- <-. cbn [va_int mbind outcome_bind].
    by apply prints_char. }
  injection Ht as <- <-. by apply prints_char.
Qed.

Lemma vsn_loop_spec fmt mode size pre post args text :
  printed fmt mode args = Some text -> 0 < size <= Z.of_nat (length (pre ++ post)) ->
  Z.of_nat (length pre) <= size - 1 -> (mode <> None -> Z.of_nat (length pre) < size - 1) ->
  exists add, vsn_loop fmt mode size (pre ++ post) (length pre) args =
      Ok (length (pre ++ add), pre ++ add ++ 0 :: drop (S (length add)) post) /\
    Z.of_nat (length (pre ++ add)) <= size - 1 /\
    (Z.of_nat (length (pre ++ text)) < size - 1 -> add = text).
Proof.
  revert mode pre post args text. induction fmt as [|c fmt IH]; intros mode pre post args text Hr Hs Hc Hm; [done|].
  assert (exists x post', post = x :: post') as (x & post' & ->).
  { destruct post; [rewrite app_nil_r in Hs; lia|eauto]. }
  assert (exists add, (buf ← write (pre ++ x :: post') (length pre) 0; Ok (length pre, buf)) =
      Ok (length (pre ++ add), pre ++ add ++ 0 :: drop (S (length add)) (x :: post')) /\ add = []) as Hend.
  { exists []. split; [|done]. rewrite write_spec, app_nil_r. done. }
  assert (forall text', (mode = None /\ size - 1 <= Z.of_nat (length pre)) \/ text' = [] ->
    exists add, (buf ← write (pre ++ x :: post') (length pre) 0; Ok (length pre, buf)) =
      Ok (length (pre ++ add), pre ++ add ++ 0 :: drop (S (length add)) (x :: post')) /\
    Z.of_nat (length (pre ++ add)) <= size - 1 /\
    (Z.of_nat (length (pre ++ text')) < size - 1 -> add = text')) as Hfin.
  { intros text' Ht. destruct Hend as (add & E & ->). exists []. split; [done|]. rewrite app_nil_r. split; [done|].
    rewrite length_app. destruct Ht as [[_ Ht]| ->]; [lia|done]. }
  cbn [vsn_loop]. cbn [render_with] in Hr. destruct mode as [s|].
  - specialize (Hm ltac:(done)). destruct (c =? 0); [injection Hr as <-; apply Hfin; by right|].
    destruct (spec_next s c) as [s'|]; [by apply (IH (Some s'))|].
    destruct (conv_text num_text s c args) as [[t args']|] eqn:Et; [|done]. cbn [mbind option_bind] in Hr.
    destruct (printed fmt None args') as [more|] eqn:Em; [|done]. injection Hr as <-.
    destruct (convert_spec s c size pre (x :: post') args t args' Et Hm ltac:(lia)) as (add & E & Hle & Hf).
    step_to E. rewrite <- length_app, app_assoc.
    destruct (IH None (pre ++ add) (drop (length add) (x :: post')) args' more Em) as (add2 & E2 & Hle2 & Hf2);
      [|done|done|].
    { rewrite !length_app, length_drop in *. lia. }
    exists (add ++ add2). rewrite E2. split; [|rewrite <- app_assoc in Hle2; split; [done|]].
    + replace (S (length (add ++ add2))) with (length add + S (length add2))%nat by (rewrite length_app; lia).
      by rewrite drop_drop, <- !app_assoc.
    + intros Hfit. rewrite !length_app in Hfit. assert (add = t) as -> by (apply Hf; rewrite length_app; lia).
      f_equal. apply Hf2. rewrite !length_app. lia.
  - destruct (c =? 0) eqn:E0; cbn [negb andb]; [injection Hr as <-; apply Hfin; by right|].
    destruct (Z.ltb_spec (Z.of_nat (length pre)) (size - 1)) as [Hlt|Hge]; [|apply Hfin; by left].
    destruct (c =? 37); [by apply (IH (Some spec0))|].
    destruct (printed fmt None args) as [more|] eqn:Em; [|done]. injection Hr as <-.
    rewrite write_spec. cbn [mbind outcome_bind].
    replace (S (length pre)) with (length (pre ++ [c])) by (rewrite length_app; cbn; lia).
    replace (pre ++ c :: post') with ((pre ++ [c]) ++ post') by (by rewrite <- app_assoc).
    destruct (IH None (pre ++ [c]) post' args more Em) as (add & E & Hle & Hf); [..|done|].
    { rewrite !length_app in *. cbn in *. lia. }
    { rewrite length_app. cbn. lia. }
    exists (c :: add). rewrite E, <- !app_assoc in *. split; [done|]. split; [done|].
    intros Hfit. f_equal. apply Hf. done.
Qed.

#[local] Arguments wrap : simpl never.
#[local] Arguments swrap : simpl never.

(** ** Reading numbers back *)
Definition char_digit (c : Z) : Z := if c <? 97 then c - 48 else c - 87.
Definition parse_num (base : Z) (text : list Z) : Z := foldl (fun acc c => acc * base + char_digit c) 0 text.

Lemma char_digit_char d : 0 <= d < 16 -> char_digit (digit_char d) = d.
Proof. intros H. unfold char_digit, digit_char. destruct (Z.ltb_spec d 10); case_match; lia. Qed.

Lemma parse_digits fuel base v : 2 <= base <= 16 -> 0 <= v < 2 ^ Z.of_nat fuel ->
  parse_num base (digits fuel base v []) = v.
Proof.
  intros Hb. revert v. induction fuel as [|fuel IH]; intros v Hv; cbn [digits].
  { cbn in Hv. change (parse_num base []) with 0. lia. }
  destruct (Z.ltb_spec 0 v) as [Hpos|]; [|change (parse_num base []) with 0; lia].
  rewrite digits_acc. unfold parse_num. rewrite foldl_app. fold (parse_num base (digits fuel base (v / base) [])).
  rewrite IH; cbn [foldl].
  - rewrite char_digit_char by (pose proof (Z.mod_pos_bound v base); lia).
    pose proof (Z.div_mod v base ltac:(lia)). lia.
  - split; [apply Z.div_pos; lia|]. apply Z.div_lt_upper_bound; [lia|].
    rewrite Nat2Z.inj_succ, Z.pow_succ_r in Hv by lia. nia.
Qed.

Lemma digits_zero fuel base acc : digits fuel base 0 acc = acc.
Proof. by destruct fuel. Qed.

Lemma digits_le fuel base v k : 2 <= base -> 0 <= v < base ^ Z.of_nat k ->
  (length (digits fuel base v []) <= k)%nat.
Proof.
  intros Hb. revert v k. induction fuel as [|fuel IH]; intros v k Hv; cbn; [lia|].
  destruct (Z.ltb_spec 0 v); cbn; [|lia]. destruct k as [|k]; [cbn in Hv; lia|].
  rewrite digits_acc, length_app. cbn. rewrite Nat2Z.inj_succ, Z.pow_succ_r in Hv by lia.
  assert (0 <= v / base < base ^ Z.of_nat k) as Hq.
  { split; [apply Z.div_pos; lia|]. apply Z.div_lt_upper_bound; lia. }
  specialize (IH (v / base) k Hq). lia.
Qed.

(** The digits of a value that [%u] or [%d] prints, zero included. *)
Definition decimal (v : Z) : list Z := if 0 <? v then digits 65 10 v [] else [48].

Lemma parse_decimal v : 0 <= v < 2 ^ 64 -> parse_num 10 (decimal v) = v.
Proof.
  intros Hv. unfold decimal. destruct (Z.ltb_spec 0 v).
  - apply parse_digits; [lia|]. change (Z.of_nat 65) with 65. lia.
  - cbn. lia.
Qed.

Lemma decimal_length v : 0 <= v < 2 ^ 32 -> (length (decimal v) <= 10)%nat.
Proof.
  intros Hv. unfold decimal. destruct (Z.ltb_spec 0 v); [|cbn; lia]. apply digits_le; [lia|].
  change (10 ^ Z.of_nat 10) with 10000000000. lia.
Qed.

Lemma num_text_unpadded value base sgn c : num_text value base sgn 0 c = num_body value base sgn.
Proof.
  unfold num_text. replace (Z.to_nat _) with 0%nat by lia. done.
Qed.

Lemma num_body_nonneg v sgn : 0 <= v < 2 ^ 63 -> num_body v 10 sgn = decimal v.
Proof.
  intros Hv. unfold num_body, decimal. rewrite swrap_small by (change (64 - 1) with 63; lia).
  rewrite (proj2 (Z.ltb_ge v 0)) by lia. rewrite andb_false_r. done.
Qed.

Lemma num_body_neg v : 0 < v <= 2 ^ 31 -> num_body (u64 (i32 (- v))) 10 true = decimal v ++ [45].
Proof.
  intros Hv. rewrite (swrap_small 32) by (change (32 - 1) with 31; lia).
  assert (u64 (- v) = 2 ^ 64 - v) as ->.
  { replace (- v) with (2 ^ 64 - v + (-1) * 2 ^ 64) by lia. unfold wrap.
    rewrite Z.mod_add, Z.mod_small by lia. lia. }
  unfold num_body. assert (i64 (2 ^ 64 - v) = - v) as ->.
  { unfold swrap. change (64 - 1) with 63. replace (2 ^ 64 - v + 2 ^ 63) with (2 ^ 63 - v + 1 * 2 ^ 64) by lia.
    rewrite Z.mod_add, Z.mod_small by lia. lia. }
  rewrite (proj2 (Z.ltb_lt (- v) 0)) by lia. cbn [andb].
  assert (u64 (- (2 ^ 64 - v)) = v) as ->.
  { replace (- (2 ^ 64 - v)) with (v + (-1) * 2 ^ 64) by lia. unfold wrap. rewrite Z.mod_add, Z.mod_small by lia. lia. }
  unfold decimal. rewrite (proj2 (Z.ltb_lt 0 v)) by lia. apply digits_acc.
Qed.

Lemma vsnprintf_spec buf size fmt args text :
  printed fmt None args = Some text -> 0 < size <= Z.of_nat (length buf) ->
  exists out, vsnprintf buf size fmt args =
      Ok (Z.of_nat (length out), out ++ 0 :: drop (S (length out)) buf) /\
    Z.of_nat (length out) < size /\ (Z.of_nat (length text) < size - 1 -> out = text).
Proof.
  intros Hr Hs. unfold vsnprintf. rewrite (proj2 (Z.eqb_neq size 0)) by lia.
  destruct (vsn_loop_spec fmt None size [] buf args text Hr Hs) as (out & E & Hle & Hf); [cbn; lia|done|].
  cbn [app length] in *. step_to E. exists out. split; [done|]. split; [lia|done].
Qed.

(** C38: for a terminated format whose arguments match it, vsnprintf returns,
    writes less than [size] characters and a terminating zero, and leaves the
    rest of the buffer alone.  When the text of the format is shorter than
    [size - 1] it prints exactly this text, except that a negative [%d] has its
    minus sign behind the digits; with no negative one, it is the text.  A text
    of exactly [size - 1] characters would fit, but may lose padding, as a width
    is cut to one less than the room. *)
Theorem vsnprintf_correct buf size fmt args text :
  render fmt None args = Some text -> 0 < size <= Z.of_nat (length buf) ->
  exists out, vsnprintf buf size fmt args =
      Ok (Z.of_nat (length out), out ++ 0 :: drop (S (length out)) buf) /\
    Z.of_nat (length out) < size /\
    (Z.of_nat (length text) < size - 1 ->
       printed fmt None args = Some out /\ (negative fmt None args = false -> out = text)).
Proof.
  intros Hr Hs. destruct (render_printed _ _ _ _ Hr) as (text' & Hp & Hl & He).
  destruct (vsnprintf_spec buf size fmt args text' Hp Hs) as (out & E & Hlt & Hf). exists out.
  split; [done|]. split; [done|]. intros Hfit. rewrite Hf by lia. split; [done|]. intros Hn. by rewrite He.
Qed.

(** ["p=%04x %s"] *)
Lemma vsnprintf_correct_witness :
  vsnprintf (replicate 20 255) 16 [112; 61; 37; 48; 52; 120; 32; 37; 115; 0] [VInt 0xbeef; VStr [111; 107; 0]] =
  Ok (9, [112; 61; 98; 101; 101; 102; 32; 111; 107; 0] ++ replicate 10 255).
Proof.
  destruct (vsnprintf_correct (replicate 20 255) 16 [112; 61; 37; 48; 52; 120; 32; 37; 115; 0]
    [VInt 0xbeef; VStr [111; 107; 0]] [112; 61; 98; 101; 101; 102; 32; 111; 107]) as (out & E & _ & Hf).
  - reflexivity.
  - cbn. lia.
  - destruct Hf as [_ Hf]; [cbn; lia|]. rewrite E, Hf; reflexivity.
Defined.

(** -42 with [%d] is printed "42-", and 7 with [%5d] into 6 bytes is printed in
    4 characters, though 5 and the zero would fit. *)
Lemma minus_behind : render [37; 100; 0] None [VInt (-42)] = Some [45; 52; 50] /\
  vsnprintf (replicate 8 1) 8 [37; 100; 0] [VInt (-42)] = Ok (3, [52; 50; 45; 0; 1; 1; 1; 1]).
Proof. by vm_compute. Qed.

Lemma padding_lost : render [37; 53; 100; 0] None [VInt 7] = Some [32; 32; 32; 32; 55] /\
  vsnprintf (replicate 6 1) 6 [37; 53; 100; 0] [VInt 7] = Ok (4, [32; 32; 32; 55; 0; 1]).
Proof. by vm_compute. Qed.

(** A non-negative integer printed with %u or %d reads back as itself; a
    negative one is printed as the digits of its magnitude followed by the
    minus sign, because the sign is put in front before the digits are. *)
Lemma print_decimal buf size v (c : Z) :
  13 <= size <= Z.of_nat (length buf) -> c = 100 \/ c = 117 ->
  (0 <= v < 2 ^ 31 \/ c = 117 /\ 0 <= v < 2 ^ 32 \/ c = 100 /\ - 2 ^ 31 <= v < 0) ->
  exists out, vsnprintf buf size [37; c; 0] [VInt v] =
      Ok (Z.of_nat (length out), out ++ 0 :: drop (S (length out)) buf) /\
    (0 <= v -> parse_num 10 out = v) /\
    (v < 0 -> exists ds, out = ds ++ [45] /\ parse_num 10 ds = - v).
Proof.
  intros Hs Hc Hv.
  assert (printed [37; c; 0] None [VInt v] = Some (num_body (int_value spec0 c v) 10 (c =? 100))) as Hr.
  { rewrite <- (num_text_unpadded _ _ _ 32), <- (app_nil_r (num_text _ _ _ _ _)). destruct Hc as [-> | ->]; reflexivity. }
  assert (num_body (int_value spec0 c v) 10 (c =? 100) = if v <? 0 then decimal (- v) ++ [45] else decimal v) as Hb.
  { unfold int_value. cbn [number_size spec0]. destruct (Z.ltb_spec v 0) as [Hn|Hp].
    - destruct Hc as [-> | ->]; [|lia]. rewrite <- num_body_neg by lia. by rewrite Z.opp_involutive.
    - destruct Hc as [-> | ->]; cbn [Z.eqb Pos.eqb].
      + rewrite swrap_small by (change (32 - 1) with 31; lia). rewrite wrap_small by lia. apply num_body_nonneg. lia.
      + rewrite wrap_small by lia. apply num_body_nonneg. lia. }
  destruct (vsnprintf_spec buf size _ _ _ Hr ltac:(lia)) as (out & E & _ & Hf).
  assert (out = if v <? 0 then decimal (- v) ++ [45] else decimal v) as ->.
  { rewrite <- Hb. apply Hf. rewrite Hb. destruct (Z.ltb_spec v 0); rewrite ?length_app; cbn [length].
    - pose proof (decimal_length (- v) ltac:(lia)). lia.
    - pose proof (decimal_length v ltac:(lia)). lia. }
  eexists. split; [exact E|]. destruct (Z.ltb_spec v 0); (split; [|intros; try lia]).
  - lia.
  - exists (decimal (- v)). split; [done|]. apply parse_decimal. lia.
  - intros _. apply parse_decimal. lia.
Qed.

Lemma print_decimal_witness : exists out,
  vsnprintf (replicate 16 0) 16 [37; 100; 0] [VInt (-120)] =
    Ok (Z.of_nat (length out), out ++ 0 :: drop (S (length out)) (replicate 16 0)) /\
  exists ds, out = ds ++ [45] /\ parse_num 10 ds = 120.
Proof.
  destruct (print_decimal (replicate 16 0) 16 (-120) 100) as (out & E & _ & Hn).
  - cbn. lia.
  - by left.
  - lia.
  - exists out. split; [exact E|]. apply Hn. lia.
Defined.
