(* ===== verification/CStringProof.v ===== *)
(** * Splitting strings and dispatching the command line

    [split] is compared with joining; the command line with the settings it
    was built from. *)
From S2P Require Import Prelude CString.

(** ** Split *)

(** The parts between the delimiters. *)
Fixpoint parts (delim : Z) (cur data : list Z) : list (list Z) :=
  match data with
  | [] => [cur]
  | c :: data => if c =? delim then cur :: parts delim [] data else parts delim (cur ++ [c]) data
  end.

Fixpoint join (delim : Z) (ps : list (list Z)) : list Z :=
  match ps with
  | [] => []
  | [p] => p
  | p :: ps => p ++ delim :: join delim ps
  end.

Lemma join_cons delim p ps : ps <> [] -> join delim (p :: ps) = p ++ delim :: join delim ps.
Proof. by destruct ps. Qed.

Lemma parts_nonempty delim cur data : parts delim cur data <> [].
Proof. revert cur. induction data as [|c data IH]; intros cur; cbn; [done|]. by case_match. Qed.

Lemma join_parts delim cur data : join delim (parts delim cur data) = cur ++ data.
Proof.
  revert cur. induction data as [|c data IH]; intros cur; cbn [parts]; [by rewrite app_nil_r|].
  destruct (Z.eqb_spec c delim) as [->|].
  - rewrite join_cons by apply parts_nonempty. by rewrite IH.
  - by rewrite IH, <- app_assoc.
Qed.

Lemma parts_no_delim delim cur data : delim ∉ cur -> Forall (fun p => delim ∉ p) (parts delim cur data).
Proof.
  revert cur. induction data as [|c data IH]; intros cur Hc; cbn [parts]; [by constructor|].
  destruct (Z.eqb_spec c delim) as [->|Hne].
  - constructor; [done|]. apply IH, not_elem_of_nil.
  - apply IH. intros [?|Hx]%elem_of_app; [done|]. apply list_elem_of_singleton in Hx. congruence.
Qed.

Lemma split_loop_spec fuel start cur delim r : (length start < fuel)%nat -> _has_hash cur = false -> _hash cur = 0 ->
  split_loop fuel start cur delim false r = Ok (r ++ (String_of <$> parts delim (_data cur) start)).
Proof.
  revert start cur r. induction fuel as [|fuel IH]; intros start cur r Hf Hh Hv; [lia|].
  destruct start as [|c start]; cbn [split_loop parts].
  { rewrite orb_true_r. destruct cur as [d h v]. cbn in *. by subst. }
  destruct (c =? delim).
  - rewrite andb_false_r. rewrite IH by (cbn in *; lia || done). rewrite <- app_assoc. cbn.
    destruct cur as [d h v]. cbn in *. by subst.
  - rewrite IH by (cbn in *; lia || done). done.
Qed.

Lemma split_spec s delim : split s delim false = Ok (String_of <$> parts delim [] (_data s)).
Proof. unfold split. rewrite split_loop_spec by (done || lia). done. Qed.

(** Splitting at a delimiter, empty parts kept, returns the parts of the
    string: none of them contains the delimiter and joining them gives the
    string back. *)
Lemma split_join s delim :
  exists ps, split s delim false = Ok (String_of <$> ps) /\ Forall (fun p => delim ∉ p) ps /\
    join delim ps = _data s.
Proof.
  exists (parts delim [] (_data s)). split; [apply split_spec|].
  split; [apply parts_no_delim, not_elem_of_nil|]. apply join_parts.
Qed.

(** With [remove_empty] the loop does not advance past an empty part. *)
Definition nonempty (p : list Z) : Prop := p <> [].

#[export] Instance nonempty_dec p : Decision (nonempty p).
Proof. unfold nonempty. apply _. Defined.

Lemma split_loop_remove fuel : forall start cur delim r, _has_hash cur = false -> _hash cur = 0 ->
  let ps := parts delim (_data cur) start in
  (Forall nonempty (removelast ps) -> (length start < fuel)%nat ->
     split_loop fuel start cur delim true r = Ok (r ++ (String_of <$> filter nonempty ps))) /\
  (~ Forall nonempty (removelast ps) -> split_loop fuel start cur delim true r = Fault OutOfFuel).
Proof.
  induction fuel as [|fuel IH]; intros start cur delim r Hh Hv; cbn zeta; [split; [lia|done]|].
  destruct start as [|c start]; cbn [split_loop parts].
  { split; [intros _ _|intros Hn; by destruct Hn]. destruct cur as [d h v]. cbn in Hh, Hv. subst. rewrite orb_false_r.
    destruct d as [|b d]; [by rewrite app_nil_r|]. done. }
  destruct (c =? delim) eqn:Ec; cbn [parts].
  - assert (removelast (_data cur :: parts delim [] start) = _data cur :: removelast (parts delim [] start)) as ->.
    { pose proof (parts_nonempty delim [] start). by destruct (parts delim [] start). }
    destruct (_data cur) as [|b d] eqn:Ed.
    + assert (_size cur =? 0 = true) as -> by (unfold _size; by rewrite Ed). cbn [andb]. split.
      * intros Hf. apply Forall_cons in Hf as [Hf _]. by destruct Hf.
      * intros Hn. destruct (IH (c :: start) cur delim r Hh Hv) as [_ IH2]. apply IH2. rewrite Ed. cbn [parts]. rewrite Ec.
        intros Hf. apply Hn. pose proof (parts_nonempty delim [] start). by destruct (parts delim [] start).
    + assert (_size cur =? 0 = false) as -> by (unfold _size; rewrite Ed; by apply Z.eqb_neq). cbn [andb].
      destruct (IH start String_empty delim (r ++ [String_copy cur]) eq_refl eq_refl) as [IH1 IH2]. cbn [_data String_empty] in *. split.
      * intros Hf Hl. apply Forall_cons in Hf as [_ Hf]. cbn [length] in Hl. rewrite IH1 by (done || lia).
        rewrite <- app_assoc. destruct cur as [d' h v]. cbn in Ed, Hh, Hv. subst. done.
      * intros Hn. apply IH2. intros Hf. apply Hn. by constructor.
  - destruct (IH start (String_add_char cur c) delim r) as [IH1 IH2]; try done. cbn [_data String_add_char] in *.
    split; [intros Hf Hl; apply IH1; [done|cbn [length] in Hl; lia]|exact IH2].
Qed.

(** C39: with empty parts removed, split returns exactly when no part but the
    last is empty -- the string neither starts with the delimiter nor has two
    in a row -- and then it returns the non-empty parts; otherwise its loop
    never ends, however long it runs. *)
Theorem split_terminates s delim :
  let ps := parts delim [] (_data s) in
  split s delim true = (if decide (Forall nonempty (removelast ps)) then Ok (String_of <$> filter nonempty ps)
                        else Fault OutOfFuel) /\
  ((exists fuel r, split_loop fuel (_data s) String_empty delim true [] = Ok r) <-> Forall nonempty (removelast ps)).
Proof.
  intros ps. pose proof (fun fuel => split_loop_remove fuel (_data s) String_empty delim [] eq_refl eq_refl) as Hl.
  cbn [_data String_empty] in Hl. fold ps in Hl. unfold split. split.
  - destruct (decide _) as [Hf|Hf]; [|by apply Hl]. by apply (proj1 (Hl _)); [|lia].
  - split.
    + intros (fuel & r & E). destruct (decide (Forall nonempty (removelast ps))) as [|Hn]; [done|].
      rewrite (proj2 (Hl fuel) Hn) in E. done.
    + intros Hf. eexists _, _. by apply (proj1 (Hl (S (length (_data s))))); [|lia].
Qed.

(** ** The command line *)

(** A setting: its key and value, as they are written. *)
Definition setting_chars (kv : list Z * list Z) : list Z := kv.1 ++ 61 :: kv.2.

Definition setting_ok (kv : list Z * list Z) : Prop :=
  (length kv.1 <= 63)%nat /\ (length kv.2 <= 63)%nat /\
  Forall (fun c => c <> 0 /\ c <> 32 /\ c <> 61) kv.1 /\ Forall (fun c => c <> 0 /\ c <> 32 /\ c <> 61) kv.2.

(** The registrations as a function on keys: the first that matches. *)
Definition handler (rgns : list (list Z * Z)) (key : list Z) : option Z :=
  snd <$> head (filter (fun r => r.1 = key) rgns).

Definition registrations (rgns : list (list Z * Z)) : list CommandLineArgumentRegistration :=
  (fun r => {| match_ := Some (r.1 ++ [0]); fn := r.2 |}) <$> rgns.

Definition rgn_ok (r : list Z * Z) : Prop := (length r.1 <= 255)%nat /\ Forall (fun c => c <> 0) r.1.

Lemma strlen_loop_spec l tail n : Forall (fun c => c <> 0) l -> 0 <= n -> n + Z.of_nat (length l) < 2 ^ 64 ->
  strlen_loop (l ++ 0 :: tail) n = Ok (n + Z.of_nat (length l)).
Proof.
  intros Hl. revert n. induction Hl as [|c l Hc Hl IH]; intros n Hn Hb; cbn; [f_equal; lia|].
  rewrite (proj2 (Z.eqb_neq c 0) Hc). cbn [length] in Hb. rewrite wrap_small by lia. rewrite IH by lia. f_equal. lia.
Qed.

Lemma strncmp_loop_spec l1 l2 n : Forall (fun c => c <> 0) l1 -> Forall (fun c => c <> 0) l2 ->
  length l1 = length l2 -> Z.of_nat (length l1) <= n ->
  strncmp_loop (l1 ++ [0]) (l2 ++ [0]) n = Ok (if decide (l1 = l2) then 0 else -1).
Proof.
  intros H1. revert l2 n. induction H1 as [|c l1 Hc H1 IH]; intros l2 n H2 Hlen Hn.
  { destruct l2; [done|discriminate]. }
  destruct H2 as [|d l2 Hd H2]; [discriminate|]. cbn [app strncmp_loop]. cbn [length] in *.
  rewrite (proj2 (Z.eqb_neq c 0) Hc), (proj2 (Z.eqb_neq d 0) Hd), (proj2 (Z.eqb_neq n 0)) by lia.
  cbn [orb]. destruct (Z.eqb_spec c d) as [->|Hne]; cbn [negb].
  - rewrite IH by (done || lia). f_equal. repeat case_decide; congruence.
  - rewrite decide_False; [done|congruence].
Qed.

Lemma strncmp_spec l1 l2 : Forall (fun c => c <> 0) l1 -> Forall (fun c => c <> 0) l2 ->
  (length l1 <= 255)%nat -> (length l2 <= 255)%nat ->
  strncmp (l1 ++ [0]) (l2 ++ [0]) 256 = Ok (if decide (l1 = l2) then 0 else -1).
Proof.
  intros H1 H2 L1 L2. unfold strncmp, strlen. rewrite !strlen_loop_spec by (done || lia). cbn [mbind outcome_bind].
  destruct (Z.eqb_spec (0 + Z.of_nat (length l1)) (0 + Z.of_nat (length l2))) as [He|Hne]; cbn [negb].
  - apply strncmp_loop_spec; try done; lia.
  - rewrite decide_False; [done|congruence].
Qed.

Lemma find_registration_spec rgns key : Forall rgn_ok rgns -> Forall (fun c => c <> 0) key ->
  (length key <= 63)%nat ->
  exists reg, find_registration (registrations rgns) (key ++ [0]) = Ok reg /\ (fn <$> reg) = handler rgns key.
Proof.
  intros Hr Hk Hlen. induction Hr as [|[m f] rgns [Hl Hm] Hr IH]; [by exists None|].
  cbn in Hl, Hm. change (registrations ((m, f) :: rgns)) with
    ({| match_ := Some (m ++ [0]); fn := f |} :: registrations rgns).
  cbn [find_registration match_]. rewrite (strncmp_spec m key) by (done || lia). cbn [mbind outcome_bind].
  unfold handler. rewrite filter_cons. cbn [fst]. destruct (decide (m = key)) as [->|].
  - eexists. split; [done|]. done.
  - exact IH.
Qed.

Lemma read_key_spec k n tail : Forall (fun c => c <> 0 /\ c <> 32 /\ c <> 61) k -> (length k <= n)%nat ->
  read_key n (k ++ 61 :: tail) = Ok (k, 61 :: tail).
Proof.
  intros Hk. revert n. induction Hk as [|c k (H0 & _ & H61) Hk IH]; intros n Hn; cbn [app read_key].
  - by destruct n.
  - cbn in Hn. destruct n as [|n]; [lia|]. cbn [read_key].
    rewrite (proj2 (Z.eqb_neq c 0) H0), (proj2 (Z.eqb_neq c 61) H61). cbn [orb]. rewrite IH by lia. done.
Qed.

Lemma read_value_spec v n : Forall (fun c => c <> 0 /\ c <> 32 /\ c <> 61) v -> (length v <= n)%nat ->
  read_value n (v ++ [0]) = Ok v.
Proof.
  intros Hv. revert n. induction Hv as [|c v (H0 & _ & H61) Hv IH]; intros n Hn; cbn [app read_value]; [done|].
  cbn in Hn. destruct n as [|n]; [lia|].
  rewrite (proj2 (Z.eqb_neq c 0) H0), (proj2 (Z.eqb_neq c 61) H61). cbn [orb Nat.eqb Nat.pred].
  rewrite IH by lia. done.
Qed.

(** What a list of settings calls. *)
Definition calls (rgns : list (list Z * Z)) (kvs : list (list Z * list Z)) : list (Z * list Z) :=
  omap (fun kv => (fun f => (f, kv.2 ++ [0])) <$> handler rgns kv.1) kvs.

Lemma nonzero l : Forall (fun c => c <> 0 /\ c <> 32 /\ c <> 61) l -> Forall (fun c => c <> 0) l.
Proof. intros H. eapply Forall_impl; [exact H|]. by intros c [? _]. Qed.

Lemma process_spec rgns kv : Forall rgn_ok rgns -> setting_ok kv ->
  process (registrations rgns) (setting_chars kv ++ [0]) = Ok (calls rgns [kv]).
Proof.
  intros Hr (Lk & Lv & Hk & Hv). destruct kv as [k v]. unfold process, setting_chars. cbn [fst snd] in *.
  rewrite <- app_assoc. pose proof (read_key_spec k 63 (v ++ [0]) Hk Lk) as E0. step_to E0.
  assert (read_value 63 ((61 :: v) ++ [0]) = Ok v) as E by (apply (read_value_spec v 63); done).
  step_to E.
  destruct (find_registration_spec rgns k Hr (nonzero _ Hk) Lk) as (reg & E2 & Hreg). step_to E2.
  unfold calls. cbn. rewrite <- Hreg. by destruct reg.
Qed.

Lemma read_setting_spec l n c tail : Forall (fun c => c <> 0 /\ c <> 32) l -> (length l < n)%nat -> c = 0 \/ c = 32 ->
  read_setting n (l ++ c :: tail) = Ok (l ++ [0], c :: tail).
Proof.
  intros Hl. revert n. induction Hl as [|d l [H0 H32] Hl IH]; intros n Hn Hc; cbn [app read_setting].
  - destruct n as [|n]; [lia|]. by destruct Hc as [-> | ->].
  - cbn in Hn. destruct n as [|n]; [lia|]. cbn [read_setting].
    rewrite (proj2 (Z.eqb_neq d 0) H0), (proj2 (Z.eqb_neq d 32) H32). cbn [orb]. rewrite IH by (lia || done). done.
Qed.

Lemma setting_chars_ok kv : setting_ok kv ->
  Forall (fun c => c <> 0 /\ c <> 32) (setting_chars kv) /\ (0 < length (setting_chars kv) < 128)%nat.
Proof.
  intros (Lk & Lv & Hk & Hv). unfold setting_chars. rewrite length_app. cbn. split; [|lia].
  apply Forall_app. split; [|constructor; [lia|]]; (eapply Forall_impl; [eassumption|]); by intros c (? & ? & ?).
Qed.

(** The settings, each with a space in front. *)
Definition command_line (kvs : list (list Z * list Z)) : list Z :=
  mbind (fun kv => 32 :: setting_chars kv) kvs ++ [0].

Lemma command_line_head kvs : exists c tail, command_line kvs = c :: tail /\ (c = 0 \/ c = 32).
Proof. destruct kvs as [|kv kvs]; unfold command_line; cbn; [by eexists _, _; split; [|left]|eexists _, _; split; [done|by right]]. Qed.

Lemma parse_loop_spec rgns kvs fuel : Forall rgn_ok rgns -> Forall setting_ok kvs -> (length kvs < fuel)%nat ->
  parse_loop fuel (registrations rgns) (command_line kvs) = Ok (calls rgns kvs).
Proof.
  intros Hr Hk. revert fuel. induction Hk as [|kv kvs Hkv Hk IH]; intros fuel Hf; destruct fuel as [|fuel];
    try (cbn in Hf; lia); [done|].
  cbn [length] in Hf. destruct (setting_chars_ok kv Hkv) as [Hc Hlen].
  assert (command_line (kv :: kvs) = 32 :: setting_chars kv ++ command_line kvs) as ->.
  { unfold command_line. cbn. by rewrite <- app_assoc. }
  destruct (command_line_head kvs) as (c & tail & Et & Hc0).
  cbn [parse_loop Z.eqb]. 
  assert (skip_spaces (32 :: setting_chars kv ++ command_line kvs) = Ok (setting_chars kv ++ command_line kvs)) as E1.
  { cbn [skip_spaces Z.eqb Pos.eqb negb andb]. destruct (setting_chars kv) as [|d l]; [cbn in Hlen; lia|].
    apply Forall_cons in Hc as [[Hd0 Hd32] _]. cbn [app skip_spaces].
    by rewrite (proj2 (Z.eqb_neq d 32) Hd32), andb_false_r. }
  step_to E1. rewrite Et.
  pose proof (read_setting_spec (setting_chars kv) 128 c tail Hc ltac:(lia) Hc0) as E2. step_to E2.
  rewrite length_app. cbn [length]. rewrite (proj2 (Nat.eqb_neq _ 1)) by lia.
  step_to (process_spec rgns kv Hr Hkv). rewrite <- Et.
  rewrite IH by lia. cbn [mbind outcome_bind]. f_equal. unfold calls. cbn. by destruct (_ <$> handler _ _).
Qed.

(** Parsing a command line of settings of the form key=value, separated by
    spaces, calls for each setting, in order, the first handler registered for
    its key with its value; settings without a handler are ignored. *)
Lemma parse_correct rgns kvs :
  Forall rgn_ok rgns -> Forall setting_ok kvs ->
  parse (registrations rgns) (command_line kvs) = Ok (true, calls rgns kvs).
Proof.
  intros Hr Hk. unfold parse. rewrite (parse_loop_spec rgns kvs); [done|done|done|].
  assert (forall kvs, (length kvs < length (command_line kvs))%nat) as Hl; [|specialize (Hl kvs); lia].
  clear. induction kvs as [|kv kvs IH]; [cbn; lia|]. unfold command_line in *. cbn.
  rewrite !length_app in *. cbn in *. lia.
Qed.

Lemma parse_correct_witness :
  parse (registrations [([97], 1); ([98], 2)]) (command_line [([98], [49]); ([99], [50]); ([97], [])]) =
  Ok (true, [(2, [49; 0]); (1, [0])]).
Proof.
  rewrite (parse_correct [([97], 1); ([98], 2)] [([98], [49]); ([99], [50]); ([97], [])]); [reflexivity| |];
    repeat constructor; cbn; lia.
Defined.
