(* ===== verification/KernelLog.v ===== *)
(** * arch/x86/early-screen.cpp and kernel/log.cpp: messages of the kernel

    The early screen is the stream that messages go to before there are
    consoles: the text memory of the VGA card and the position of the cursor.
    The system log writes its messages to a stream; the log of a component puts
    its name in front and passes them on.  The mutex of the system log is the one
    of [Mutex]; a call of [message] is what it protects. *)
From S2P Require Import Prelude CString Printf PrintfTheorems CStringProof.

#[local] Arguments wrap : simpl never.
#[local] Arguments swrap : simpl never.

(** ** The screen

    [crtc_low] and [crtc_high] are the registers of the card that hold the
    position of its cursor. *)
Module EarlyScreen.

Definition _width : Z := 80.
Definition _height : Z := 25.

Record Screen := { _current_x : Z; _current_y : Z; _video_ram : list Z; crtc_low : Z; crtc_high : Z }.

Definition cell (ram : list Z) (i : Z) : outcome Z := in_bounds (ram !! Z.to_nat i).
Definition put_cell (ram : list Z) (i v : Z) : outcome (list Z) :=
  _ ← cell ram i; Ok (<[Z.to_nat i := u16 v]> ram).

(** The position the card reports. *)
Definition init (s : Screen) : Screen :=
  let position := u16 (Z.lor (crtc_low s) (Z.shiftl (crtc_high s) 8)) in
  {| _current_x := u8 (position mod _width); _current_y := u8 (position / _width);
     _video_ram := _video_ram s; crtc_low := crtc_low s; crtc_high := crtc_high s |}.

Definition update_cursor (s : Screen) : Screen :=
  let position := u16 (_current_x s + _current_y s * _width) in
  {| _current_x := _current_x s; _current_y := _current_y s; _video_ram := _video_ram s;
     crtc_low := u8 position; crtc_high := u8 (Z.shiftr position 8) |}.

(** [for (...; n more) _video_ram[i] = 0], the index going up. *)
Fixpoint zero_loop (n : nat) (i : Z) (ram : list Z) : outcome (list Z) :=
  match n with O => Ok ram | S n => ram ← put_cell ram i 0; zero_loop n (i + 1) ram end.

Definition with_ram (s : Screen) (x y : Z) (ram : list Z) : Screen :=
  {| _current_x := x; _current_y := y; _video_ram := ram; crtc_low := crtc_low s; crtc_high := crtc_high s |}.

Definition clear (s : Screen) : outcome Screen :=
  let s := update_cursor (with_ram s 0 0 (_video_ram s)) in
  ram ← zero_loop (Z.to_nat (_width * _height)) 0 (_video_ram s);
  Ok (with_ram s 0 0 ram).

(** [memcpy] of [n] cells within the memory. *)
Definition move_cells (ram : list Z) (dest src n : nat) : outcome (list Z) :=
  if (src + n <=? length ram)%nat && (dest + n <=? length ram)%nat
  then Ok (take dest ram ++ take n (drop src ram) ++ drop (dest + n) ram)
  else Fault OutOfBounds.

Definition scroll (ram : list Z) : outcome (list Z) :=
  ram ← move_cells ram 0 (Z.to_nat _width) (Z.to_nat (_width * (_height - 1)));
  zero_loop (Z.to_nat _width) ((_height - 1) * _width) ram.

(** The next line, scrolled to when it is below the last one. *)
Definition next_line (y : Z) (ram : list Z) : outcome (Z * list Z) :=
  let y := u8 (y + 1) in
  if y =? _height then ram ← scroll ram; Ok (_height - 1, ram) else Ok (y, ram).

Definition putch (s : Screen) (attr c : Z) : outcome Screen :=
  let x := _current_x s in
  let y := _current_y s in
  s ← (if c =? 13 then Ok (with_ram s 0 y (_video_ram s))
       else if c =? 10 then
         '(y, ram) ← next_line y (_video_ram s); Ok (with_ram s 0 y ram)
       else
         ram ← put_cell (_video_ram s) (x + y * _width) (Z.lor (Z.shiftl (Z.land attr 0xff) 8) (i8 c));
         let x := u8 (x + 1) in
         if x =? _width then '(y, ram) ← next_line y ram; Ok (with_ram s 0 y ram)
         else Ok (with_ram s x y ram));
  Ok (update_cursor s).

Fixpoint putstr (s : Screen) (attr : Z) (str : list Z) : outcome Screen :=
  match str with
  | [] => Fault OutOfBounds
  | c :: str => if c =? 0 then Ok s else s ← putch s attr c; putstr s attr str
  end.

Fixpoint write_loop (n : nat) (buffer : list Z) (s : Screen) : outcome Screen :=
  match n with
  | O => Ok s
  | S n =>
      match buffer with
      | [] => Fault OutOfBounds
      | c :: buffer => s ← putch s 0x07 c; write_loop n buffer s
      end
  end.

(** [size] is past zero when it is returned. *)
Definition write (s : Screen) (buffer : list Z) (size : Z) : outcome (Z * Screen) :=
  s ← write_loop (Z.to_nat size) buffer s;
  Ok (i32 (u64 (-1)), s).

Definition read (s : Screen) (buffer : list Z) (size : Z) : outcome (Z * list Z * Screen) := Ok (0, buffer, s).

(** ** The screen is a window on a sheet

    On the sheet the lines go on for ever and the pen moves; the screen shows the
    25 lines that end with the lowest line written, and the sheet is blank below. *)
Record Sheet := { ink : Z -> Z; pen : Z; top : Z }.

Definition feed (p : Sheet) (ink' : Z -> Z) (pen' : Z) : Sheet :=
  {| ink := ink'; pen := pen'; top := Z.max (top p) (pen' / 80 - 24) |}.

Definition glyph (c : Z) : Z := u16 (Z.lor 0x0700 (i8 c)).

Definition type_char (p : Sheet) (c : Z) : Sheet :=
  if c =? 13 then feed p (ink p) (pen p / 80 * 80)
  else if c =? 10 then feed p (ink p) ((pen p / 80 + 1) * 80)
  else feed p (fun i => if i =? pen p then glyph c else ink p i) (pen p + 1).

Definition type_text (p : Sheet) (text : list Z) : Sheet := foldl type_char p text.

Record shows (s : Screen) (p : Sheet) : Prop := {
  shows_memory : (2000 <= length (_video_ram s))%nat;
  shows_cells : forall k, 0 <= k < 2000 -> _video_ram s !! Z.to_nat k = Some (ink p (80 * top p + k));
  shows_blank : forall i, 80 * (top p + 25) <= i -> ink p i = 0;
  shows_pen : pen p = 80 * (top p + _current_y s) + _current_x s;
  shows_x : 0 <= _current_x s < 80;
  shows_y : 0 <= _current_y s < 25
}.

Lemma put_cell_spec ram i v : 0 <= i < Z.of_nat (length ram) -> put_cell ram i v = Ok (<[Z.to_nat i := u16 v]> ram).
Proof.
  intros Hi. unfold put_cell, cell. destruct (lookup_lt_is_Some_2 ram (Z.to_nat i)) as [c ->]; [lia|done].
Qed.

Lemma zero_loop_spec n i ram : 0 <= i -> i + Z.of_nat n <= Z.of_nat (length ram) ->
  exists ram', zero_loop n i ram = Ok ram' /\ length ram' = length ram /\
    forall k, 0 <= k -> ram' !! Z.to_nat k = if (i <=? k) && (k <? i + Z.of_nat n) then Some 0 else ram !! Z.to_nat k.
Proof.
  revert i ram. induction n as [|n IH]; intros i ram Hi Hn.
  { exists ram. split; [done|]. split; [done|]. intros k Hk. destruct (Z.leb_spec i k); compare; done. }
  cbn [zero_loop]. rewrite put_cell_spec by lia. cbn [mbind outcome_bind].
  destruct (IH (i + 1) (<[Z.to_nat i := u16 0]> ram)) as (ram' & E & Hl & Hk); [lia|rewrite length_insert; lia|].
  exists ram'. split; [done|]. split; [by rewrite Hl, length_insert|]. intros k H0. rewrite Hk by done.
  destruct (Z.eq_dec k i) as [->|Hne].
  - compare. cbn [andb]. rewrite list_lookup_insert_eq by lia. done.
  - rewrite list_lookup_insert_ne by lia.
    destruct (Z.leb_spec i k), (Z.leb_spec (i + 1) k), (Z.ltb_spec k (i + Z.of_nat (S n))),
      (Z.ltb_spec k (i + 1 + Z.of_nat n)); cbn [andb]; lia || done.
Qed.

Lemma scroll_spec ram : (2000 <= length ram)%nat ->
  exists ram', scroll ram = Ok ram' /\ length ram' = length ram /\
    forall k, 0 <= k < 2000 -> ram' !! Z.to_nat k = if k <? 1920 then ram !! Z.to_nat (k + 80) else Some 0.
Proof.
  intros Hl. unfold scroll, move_cells, _width, _height.
  change (Z.to_nat 80) with 80%nat. change (Z.to_nat (80 * (25 - 1))) with 1920%nat. change ((25 - 1) * 80) with 1920.
  assert (80 + 1920 <=? length ram = true)%nat as -> by (apply Nat.leb_le; lia).
  assert (0 + 1920 <=? length ram = true)%nat as -> by (apply Nat.leb_le; lia). cbn [andb mbind outcome_bind].
  change (take 0 ram) with (@nil Z). cbn [app]. set (moved := take 1920 (drop 80 ram) ++ drop (0 + 1920) ram).
  assert (length moved = length ram) as Hm.
  { unfold moved. rewrite length_app, length_take, !length_drop. lia. }
  destruct (zero_loop_spec 80 1920 moved) as (ram' & E & Hl' & Hk); [lia|lia|].
  exists ram'. split; [done|]. split; [lia|]. intros k Hk2. rewrite Hk by lia. change (1920 + Z.of_nat 80) with 2000.
  destruct (Z.ltb_spec k 1920) as [Hlt|Hge]; compare; cbn [andb]; [|done].
  unfold moved. rewrite lookup_app_l by (rewrite length_take, length_drop; lia).
  rewrite lookup_take_lt, lookup_drop by lia. f_equal. lia.
Qed.

(** The cursor of the card is where the pen is. *)
Definition cursor_shown (s : Screen) : Prop :=
  crtc_low s + 256 * crtc_high s = _current_x s + 80 * _current_y s.

Lemma update_cursor_spec s p : shows s p -> shows (update_cursor s) p /\ cursor_shown (update_cursor s).
Proof.
  intros [Hm Hc Hb Hp Hx Hy]. split; [by split|]. unfold cursor_shown, update_cursor, _width. cbn [crtc_low crtc_high _current_x _current_y].
  rewrite (wrap_small 16) by lia. unfold wrap. rewrite Z.shiftr_div_pow2 by lia.
  change (2 ^ 8) with 256. rewrite (Z.mod_small (_ / 256)) by (split; [apply Z.div_pos; lia|apply Z.div_lt_upper_bound; lia]).
  pose proof (Z.div_mod (_current_x s + _current_y s * 80) 256 ltac:(lia)). lia.
Qed.

(** A cell that was put is the one on the sheet. *)
Lemma shows_put s p c v : shows s p -> u16 v = glyph c ->
  exists ram, put_cell (_video_ram s) (_current_x s + _current_y s * _width) v = Ok ram /\
    (2000 <= length ram)%nat /\
    forall k, 0 <= k < 2000 -> ram !! Z.to_nat k =
      Some (if 80 * top p + k =? pen p then glyph c else ink p (80 * top p + k)).
Proof.
  intros [Hm Hc Hb Hp Hx Hy] Hv. unfold _width. rewrite put_cell_spec by lia. eexists. split; [done|].
  split; [rewrite length_insert; lia|]. intros k Hk. destruct (Z.eqb_spec (80 * top p + k) (pen p)) as [E|E].
  - replace k with (_current_x s + _current_y s * 80) by lia. rewrite list_lookup_insert_eq by lia. by rewrite Hv.
  - rewrite list_lookup_insert_ne by lia. by apply Hc.
Qed.

(** Going to the next line, from memory that shows [ink'] at the window of [p]. *)
Lemma next_line_spec y ram ink' T : 0 <= y < 25 -> (2000 <= length ram)%nat ->
  (forall k, 0 <= k < 2000 -> ram !! Z.to_nat k = Some (ink' (80 * T + k))) ->
  (forall i, 80 * (T + 25) <= i -> ink' i = 0) ->
  exists y' ram', next_line y ram = Ok (y', ram') /\
    let T' := Z.max T (T + y + 1 - 24) in
    0 <= y' < 25 /\ T' + y' = T + y + 1 /\ (2000 <= length ram')%nat /\
    (forall k, 0 <= k < 2000 -> ram' !! Z.to_nat k = Some (ink' (80 * T' + k))) /\
    (forall i, 80 * (T' + 25) <= i -> ink' i = 0).
Proof.
  intros Hy Hl Hc Hb. unfold next_line, _height. rewrite wrap_small by lia. destruct (Z.eqb_spec (y + 1) 25) as [E|E].
  - destruct (scroll_spec ram Hl) as (ram' & Es & Hl' & Hk). rewrite Es. cbn [mbind outcome_bind].
    exists 24, ram'. split; [done|]. cbv zeta. replace (Z.max T (T + y + 1 - 24)) with (T + 1) by lia.
    split; [lia|]. split; [lia|]. split; [lia|]. split; [|intros; apply Hb; lia].
    intros k Hk2. rewrite Hk by done. destruct (Z.ltb_spec k 1920).
    + rewrite Hc by lia. do 2 f_equal. lia.
    + by rewrite Hb by lia.
  - exists (y + 1), ram. split; [done|]. cbv zeta. replace (Z.max T (T + y + 1 - 24)) with T by lia.
    split; [lia|]. split; [lia|]. split; [done|]. by split.
Qed.

Lemma putch_spec s p c : shows s p ->
  exists s', putch s 0x07 c = Ok s' /\ shows s' (type_char p c) /\ cursor_shown s'.
Proof.
  intros Hs. pose proof Hs as [Hm Hc Hb Hp Hx Hy].
  assert (forall s1 p', shows s1 p' -> exists s', Ok (update_cursor s1) = Ok s' /\ shows s' p' /\ cursor_shown s') as Hend.
  { intros s1 p' [H1 H2]%update_cursor_spec. by eexists. }
  assert (pen p / 80 = top p + _current_y s) as Hline.
  { rewrite Hp. rewrite Z.mul_comm, Z.div_add_l by lia. rewrite Z.div_small by lia. lia. }
  unfold putch, type_char. destruct (Z.eqb_spec c 13) as [->|H13]; [|destruct (Z.eqb_spec c 10) as [->|H10]].
  - cbn [mbind outcome_bind]. apply Hend. unfold feed. rewrite Z.div_mul, Hline by lia.
    replace (Z.max _ _) with (top p) by lia. split; cbn [with_ram _video_ram _current_x _current_y ink pen top]; try done; lia.
  - destruct (next_line_spec (_current_y s) (_video_ram s) (ink p) (top p) Hy Hm Hc Hb)
      as (y' & ram' & -> & Hy' & HT & Hl' & Hc' & Hb').
    cbn [mbind outcome_bind]. apply Hend. unfold feed. rewrite Z.div_mul, Hline by lia.
    split; cbn [with_ram _video_ram _current_x _current_y ink pen top]; try done; lia.
  - destruct (shows_put s p c (Z.lor (Z.shiftl (Z.land 7 0xff) 8) (i8 c)) Hs eq_refl) as (ram & -> & Hl & Hk).
    cbn [mbind outcome_bind]. rewrite wrap_small by lia. unfold _width.
    assert (forall i, 80 * (top p + 25) <= i -> (if i =? pen p then glyph c else ink p i) = 0) as Hb2.
    { intros i Hi. rewrite eqb_false by lia. by apply Hb. }
    destruct (Z.eqb_spec (_current_x s + 1) 80) as [E|E].
    + destruct (next_line_spec (_current_y s) ram (fun i => if i =? pen p then glyph c else ink p i) (top p) Hy Hl Hk Hb2)
        as (y' & ram' & -> & Hy' & HT & Hl' & Hc' & Hb').
      cbn [mbind outcome_bind]. apply Hend. unfold feed.
      assert ((pen p + 1) / 80 = top p + _current_y s + 1) as ->.
      { replace (pen p + 1) with ((top p + _current_y s + 1) * 80) by lia. by apply Z.div_mul. }
      split; cbn [with_ram _video_ram _current_x _current_y ink pen top]; try done; lia.
    + cbn [mbind outcome_bind]. apply Hend. unfold feed.
      assert ((pen p + 1) / 80 = top p + _current_y s) as ->.
      { replace (pen p + 1) with ((top p + _current_y s) * 80 + (_current_x s + 1)) by lia.
        rewrite Z.div_add_l, Z.div_small by lia. lia. }
      replace (Z.max _ _) with (top p) by lia.
      split; cbn [with_ram _video_ram _current_x _current_y ink pen top]; try done; lia.
Qed.

Lemma write_loop_spec text s p rest : shows s p ->
  exists s', write_loop (length text) (text ++ rest) s = Ok s' /\ shows s' (type_text p text) /\
    (text = [] \/ cursor_shown s').
Proof.
  revert s p. induction text as [|c text IH]; intros s p Hs; [exists s; auto|]. cbn [length write_loop app].
  destruct (putch_spec s p c Hs) as (s1 & E & Hs1 & Hc1). step_to E.
  destruct (IH s1 _ Hs1) as (s' & E2 & Hs' & Hc'). exists s'. split; [done|]. split; [done|].
  right. destruct Hc' as [->|]; [|done]. cbn in E2. by injection E2 as <-.
Qed.

(** Printable characters that fit the line of the pen. *)
Definition printable (c : Z) : Prop := c <> 10 /\ c <> 13.

Lemma type_printable text : forall p, Forall printable text -> pen p mod 80 + Z.of_nat (length text) < 80 ->
  type_text p text = {| ink := ink (type_text p text); pen := pen p + Z.of_nat (length text);
    top := match text with [] => top p | _ => Z.max (top p) (pen p / 80 - 24) end |} /\
  (forall i, ink (type_text p text) i =
    if (pen p <=? i) && (i <? pen p + Z.of_nat (length text))
    then glyph (default 0 (text !! Z.to_nat (i - pen p))) else ink p i).
Proof.
  induction text as [|c text IH]; intros p Ht Hl.
  { cbn [length type_text foldl]. split; [destruct p; cbn; f_equal; lia|]. intros i.
    destruct (Z.leb_spec (pen p) i); compare; done. }
  apply Forall_cons in Ht as [[H10 H13] Ht]. cbn [length] in *.
  pose proof (Z.mod_pos_bound (pen p) 80 ltac:(lia)) as Hm.
  assert (type_char p c = {| ink := fun i => if i =? pen p then glyph c else ink p i; pen := pen p + 1;
    top := Z.max (top p) (pen p / 80 - 24) |}) as E.
  { unfold type_char, feed. rewrite !eqb_false by done. f_equal. f_equal. f_equal.
    pose proof (Z.div_mod (pen p) 80 ltac:(lia)). symmetry. apply Z.div_unique with (pen p mod 80 + 1); lia. }
  cbn [type_text foldl]. fold (type_text (type_char p c) text). rewrite E.
  assert (pen p + 1 = 80 * (pen p / 80) + (pen p mod 80 + 1)) as Hd by (pose proof (Z.div_mod (pen p) 80 ltac:(lia)); lia).
  destruct (IH {| ink := fun i => if i =? pen p then glyph c else ink p i; pen := pen p + 1;
    top := Z.max (top p) (pen p / 80 - 24) |} Ht) as [E1 E2].
  { cbn [pen]. rewrite <- (Z.mod_unique (pen p + 1) 80 (pen p / 80) (pen p mod 80 + 1)) by lia. lia. }
  cbn [ink pen top] in E1, E2. split.
  - rewrite E1. f_equal; [lia|]. destruct text; [done|].
    rewrite <- (Z.div_unique (pen p + 1) 80 (pen p / 80) (pen p mod 80 + 1)) by lia. lia.
  - intros i. rewrite E2. destruct (Z.eqb_spec i (pen p)) as [->|Hne].
    + compare. cbn [andb]. by rewrite Z.sub_diag.
    + destruct (Z.leb_spec (pen p + 1) i), (Z.leb_spec (pen p) i); try lia; cbn [andb]; [|done].
      replace (pen p + 1 + Z.of_nat (length text)) with (pen p + Z.of_nat (S (length text))) by lia.
      destruct (_ <? _); [|done]. by replace (Z.to_nat (i - pen p)) with (S (Z.to_nat (i - (pen p + 1)))) by lia.
Qed.

(** A line of text and its end. *)
Lemma type_line text p n : Forall printable text -> pen p = 80 * n -> Z.of_nat (length text) < 80 ->
  pen (type_text p (text ++ [10])) = 80 * (n + 1) /\
  (forall i, ink (type_text p (text ++ [10])) i =
    if (80 * n <=? i) && (i <? 80 * n + Z.of_nat (length text))
    then glyph (default 0 (text !! Z.to_nat (i - 80 * n))) else ink p i).
Proof.
  intros Ht Hp Hl. destruct (type_printable text p Ht) as [E1 E2]; [rewrite Hp, Z.mul_comm, Z.mod_mul by lia; lia|].
  unfold type_text. rewrite foldl_app. fold (type_text p text). cbn [foldl]. unfold type_char. cbn [Z.eqb Pos.eqb].
  cbn [feed pen ink]. rewrite <- Hp. split; [|exact E2].
  rewrite E1. cbn [pen]. rewrite Hp. rewrite <- (Z.div_unique (80 * n + Z.of_nat (length text)) 80 n (Z.of_nat (length text))); lia.
Qed.
End EarlyScreen.

(** ** The log *)
Class Stream (S : Type) := stream_write : S -> list Z -> Z -> outcome (Z * S).
#[export] Instance early_stream : Stream EarlyScreen.Screen := EarlyScreen.write.

Inductive LogLevel := DEBUG | INFO | WARNING | ERROR | FATAL | IMPORTANT.
#[export] Instance LogLevel_eq_dec : EqDecision LogLevel.
Proof. solve_decision. Defined.

(** A log of whatever class: its flag and its virtual function. *)
Class Log (L : Type) := { enabled : L -> bool; message : L -> LogLevel -> list Z -> outcome L }.

Definition characters (s : string) : list Z :=
  (fun c => Z.of_N (Ascii.N_of_ascii c)) <$> String.list_ascii_of_string s.

Record SysLog (S : Type) := { _enabled : bool; _colour : bool; _stream : option S }.
Arguments _enabled {S}. Arguments _colour {S}. Arguments _stream {S}.

Definition SysLog_new {S} : SysLog S := {| _enabled := true; _colour := false; _stream := None |}.
Definition set_stream {S} (l : SysLog S) (s : S) : SysLog S :=
  {| _enabled := _enabled l; _colour := _colour l; _stream := Some s |}.
Definition set_colour {S} (l : SysLog S) (colour : bool) : SysLog S :=
  {| _enabled := _enabled l; _colour := colour; _stream := _stream l |}.
Definition enable {S} (l : SysLog S) (on : bool) : SysLog S :=
  {| _enabled := on; _colour := _colour l; _stream := _stream l |}.

(** The sequences that choose a colour, and the word for a level. *)
Definition colour_of (level : LogLevel) : list Z :=
  27 :: characters match level with
                   | DEBUG => "[34;1m"
                   | INFO | WARNING => "[32;1m"
                   | ERROR | FATAL => "[31;1m"
                   | IMPORTANT => "[37;1;42m"
                   end.
Definition plain_colour : list Z := 27 :: characters "[37;0m".
Definition label_of (level : LogLevel) : list Z :=
  characters match level with
             | DEBUG => "  debug: "
             | INFO => "   info: "
             | WARNING => "warning: "
             | ERROR => "  error: "
             | FATAL => "  fatal: "
             | IMPORTANT => " notice: "
             end.

Section syslog.
Context {S : Type} `{Stream S}.

Definition say (s : S) (buffer : list Z) (size : Z) : outcome S := '(_, s) ← stream_write s buffer size; Ok s.

Definition SysLog_message (l : SysLog S) (level : LogLevel) (message : list Z) : outcome (SysLog S) :=
  if negb (_enabled l) then Ok l
  else
    match _stream l with
    | None => Ok l
    | Some s =>
        s ← (if _colour l then say s (colour_of level) (if decide (level = IMPORTANT) then 10 else 7) else Ok s);
        s ← say s (label_of level) 9;
        s ← (if _colour l && bool_decide (level <> IMPORTANT) then say s plain_colour 7 else Ok s);
        n ← strlen (Some message);
        s ← say s message n;
        s ← (if _colour l && bool_decide (level = IMPORTANT) then say s plain_colour 7 else Ok s);
        s ← say s [10] 1;
        Ok (set_stream l s)
    end.

#[export] Instance syslog_log : Log (SysLog S) := { enabled := _enabled; message := SysLog_message }.
End syslog.

(** [stack] is what the buffer of a call holds before it is printed into. *)
Definition messagef {L} `{Log L} (stack : list Z) (l : L) (level : LogLevel) (format : list Z) (args : list va_item)
  : outcome L :=
  if negb (enabled l) then Ok l
  else '(_, buffer) ← vsnprintf stack 0x200 format args; message l level buffer.

Record ComponentLog (L : Type) := { component_enabled : bool; _parent : L; _component_name : list Z }.
Arguments component_enabled {L}. Arguments _parent {L}. Arguments _component_name {L}.

Definition ComponentLog_new {L} (parent : L) (component_name : list Z) : ComponentLog L :=
  {| component_enabled := true; _parent := parent; _component_name := component_name |}.

Definition ComponentLog_message {L} `{Log L} (stack : list Z) (l : ComponentLog L) (level : LogLevel)
    (message_ : list Z) : outcome (ComponentLog L) :=
  if negb (component_enabled l) then Ok l
  else
    '(_, buffer) ← snprintf stack 0x200 (characters "%s: %s" ++ [0]) [VStr (_component_name l); VStr message_];
    p ← message (_parent l) level buffer;
    Ok {| component_enabled := component_enabled l; _parent := p; _component_name := _component_name l |}.

(** As a virtual function; what the buffer held before does not matter. *)
#[export] Instance component_log {L} `{Log L} : Log (ComponentLog L) := {
  enabled := component_enabled;
  message := ComponentLog_message (replicate 0x200 0)
}.

(** ** What a message looks like

    The stream is any one that types: [Shows] relates it to what has been typed,
    and it is [Settled] after it has typed something. *)
Class Typewriter {S} `{Stream S} {T} (Shows : S -> T -> Prop) (Settled : S -> Prop) (type : T -> list Z -> T) := {
  type_nil p : type p [] = p;
  type_app p a b : type p (a ++ b) = type (type p a) b;
  types s p out rest : Shows s p -> exists r s', stream_write s (out ++ rest) (Z.of_nat (length out)) = Ok (r, s') /\
    Shows s' (type p out) /\ (out <> [] -> Settled s')
}.

#[export] Instance early_typewriter :
  Typewriter EarlyScreen.shows EarlyScreen.cursor_shown EarlyScreen.type_text.
Proof.
  split; [done|intros; apply foldl_app|]. intros s p out rest Hs.
  destruct (EarlyScreen.write_loop_spec out s p rest Hs) as (s' & E & Hs' & Hc).
  unfold stream_write, early_stream, EarlyScreen.write. rewrite Nat2Z.id. step_to E.
  eexists _, s'. split; [done|]. split; [done|]. intros Hn. by destruct Hc.
Qed.

Definition message_text (colour : bool) (level : LogLevel) (text : list Z) : list Z :=
  let loud := bool_decide (level = IMPORTANT) in
  (if colour then colour_of level else []) ++ label_of level ++ (if colour && negb loud then plain_colour else []) ++
  text ++ (if colour && loud then plain_colour else []) ++ [10].

Section messages.
Context {S} `{Stream S} {T} {Shows : S -> T -> Prop} {Settled : S -> Prop} {type : T -> list Z -> T}.
Context `{!Typewriter Shows Settled type}.

Lemma say_spec s p out rest n : Shows s p -> n = Z.of_nat (length out) ->
  exists s', say s (out ++ rest) n = Ok s' /\ Shows s' (type p out) /\ (out <> [] -> Settled s').
Proof.
  intros Hs ->. destruct (types s p out rest Hs) as (r & s' & E & Hs' & Hc). exists s'. unfold say. by step_to E.
Qed.

Lemma say_if (b : bool) s p out n : Shows s p -> n = Z.of_nat (length out) ->
  exists s', (if b then say s out n else Ok s) = Ok s' /\ Shows s' (type p (if b then out else [])).
Proof.
  intros Hs Hn. destruct b.
  - destruct (say_spec s p out [] n Hs Hn) as (s' & E & Hs' & _). rewrite app_nil_r in E. by exists s'.
  - exists s. by rewrite type_nil.
Qed.

Lemma SysLog_message_spec l s p level out rest : _enabled l = true -> _stream l = Some s -> Shows s p ->
  Forall (fun c => c <> 0) out -> Z.of_nat (length out) < 2 ^ 64 ->
  exists s', SysLog_message l level (out ++ 0 :: rest) = Ok (set_stream l s') /\
    Shows s' (type p (message_text (_colour l) level out)) /\ Settled s'.
Proof.
  intros He Hst Hs Hz Hl. unfold SysLog_message, message_text. rewrite He, Hst. cbn [negb].
  destruct (say_if (_colour l) s p (colour_of level) (if decide (level = IMPORTANT) then 10 else 7) Hs)
    as (s1 & E1 & H1); [by destruct level|]. step_to E1.
  destruct (say_spec s1 _ (label_of level) [] 9 H1) as (s2 & E2 & H2 & _); [by destruct level|].
  rewrite app_nil_r in E2. step_to E2.
  destruct (say_if (_colour l && bool_decide (level <> IMPORTANT)) s2 _ plain_colour 7 H2 eq_refl) as (s3 & E3 & H3).
  step_to E3. unfold strlen. rewrite (strlen_loop_spec out rest 0 Hz) by lia. cbn [mbind outcome_bind].
  destruct (say_spec s3 _ out (0 :: rest) (0 + Z.of_nat (length out)) H3 eq_refl) as (s4 & E4 & H4 & _). step_to E4.
  destruct (say_if (_colour l && bool_decide (level = IMPORTANT)) s4 _ plain_colour 7 H4 eq_refl) as (s5 & E5 & H5).
  step_to E5. destruct (say_spec s5 _ [10] [] 1 H5 eq_refl) as (s6 & E6 & H6 & Hset). rewrite app_nil_r in E6. step_to E6.
  exists s6. split; [done|]. split; [|by apply Hset]. revert H6. rewrite <- !type_app.
  by destruct level.
Qed.

Lemma messagef_spec l s p level stack format args out : _enabled l = true -> _stream l = Some s -> Shows s p ->
  length stack = 0x200%nat -> printed format None args = Some out -> Forall (fun c => c <> 0) out ->
  (length out < 0x1ff)%nat ->
  exists s', messagef stack l level format args = Ok (set_stream l s') /\
    Shows s' (type p (message_text (_colour l) level out)) /\ Settled s'.
Proof.
  intros He Hst Hs Hk Hr Hz Hl. unfold messagef. cbn [enabled syslog_log]. rewrite He. cbn [negb].
  destruct (vsnprintf_spec stack 0x200 format args out Hr) as (o & E & _ & Ho); [lia|].
  rewrite (Ho ltac:(lia)) in E. step_to E. apply (SysLog_message_spec l s p); try done. lia.
Qed.
End messages.

(** C37: a message of the kernel that is logged before there are consoles, printed
    from a format whose text (with the minus sign of a negative [%d] where
    vsnprintf puts it, behind the digits) has at most 510 characters, is typed
    on the early screen with the word for its level, in colour or not: the screen shows the
    last 25 lines of all that was typed, scrolled when the lowest line is left,
    and the cursor of the card is behind it.  Without colour, a text that fits
    the line stands alone on the line it began, and the next message begins on
    the line below. *)
Theorem early_message_correct l s p level stack format args out n :
  _enabled l = true -> _stream l = Some s -> EarlyScreen.shows s p ->
  length stack = 0x200%nat -> printed format None args = Some out -> Forall (fun c => c <> 0) out ->
  (length out < 0x1ff)%nat ->
  exists s' p', messagef stack l level format args = Ok (set_stream l s') /\
    p' = EarlyScreen.type_text p (message_text (_colour l) level out) /\
    EarlyScreen.shows s' p' /\ EarlyScreen.cursor_shown s' /\
    (_colour l = false -> Forall EarlyScreen.printable out -> (length out < 71)%nat -> EarlyScreen.pen p = 80 * n ->
      EarlyScreen.pen p' = 80 * (n + 1) /\
      forall i, EarlyScreen.ink p' i =
        if (80 * n <=? i) && (i <? 80 * n + 9 + Z.of_nat (length out))
        then EarlyScreen.glyph (default 0 ((label_of level ++ out) !! Z.to_nat (i - 80 * n)))
        else EarlyScreen.ink p i).
Proof.
  intros He Hst Hs Hk Hr Hz Hl.
  destruct (messagef_spec l s p level stack format args out He Hst Hs Hk Hr Hz Hl) as (s' & E & Hs' & Hc).
  eexists s', _. split; [exact E|]. split; [done|]. split; [done|]. split; [done|]. intros Hcol Hprint H71 Hpen.
  unfold message_text. rewrite Hcol. cbn [andb app]. rewrite app_assoc.
  assert (length (label_of level) = 9%nat) as H9 by by destruct level.
  destruct (EarlyScreen.type_line (label_of level ++ out) p n) as [E1 E2].
  - apply Forall_app. split; [|done]. destruct level; apply (bool_decide_unpack _); vm_compute; exact I.
  - done.
  - rewrite length_app. lia.
  - split; [done|]. intros i. rewrite E2, length_app, H9. by replace (80 * n + Z.of_nat (9 + length out)) with (80 * n + 9 + Z.of_nat (length out)) by lia.
Qed.

(** The last line of a full screen: it scrolls. *)
Lemma early_message_correct_witness :
  let s := {| EarlyScreen._current_x := 0; EarlyScreen._current_y := 24; EarlyScreen._video_ram := replicate 2000 0;
              EarlyScreen.crtc_low := 0; EarlyScreen.crtc_high := 0 |} in
  exists s', messagef (replicate 0x200 7) (set_stream SysLog_new s) ERROR (characters "disk %d" ++ [0]) [VInt 3] =
      Ok (set_stream SysLog_new s') /\
    (EarlyScreen._video_ram s' !! 1840%nat) = Some (0x0700 + 32) /\
    (EarlyScreen._video_ram s' !! 1854%nat) = Some (0x0700 + 51).
Proof.
  intros s.
  assert (EarlyScreen.shows s {| EarlyScreen.ink := fun _ => 0; EarlyScreen.pen := 1920; EarlyScreen.top := 0 |}) as Hs.
  { split; cbn -[replicate]; [by rewrite length_replicate| |done|done|lia|lia].
    intros k Hk. apply lookup_replicate. split; [done|lia]. }
  destruct (early_message_correct (set_stream SysLog_new s) s _ ERROR (replicate 0x200 7) (characters "disk %d" ++ [0])
    [VInt 3] (characters "disk 3") 24 eq_refl eq_refl Hs (length_replicate _ _) eq_refl
    ltac:(apply (bool_decide_unpack _); vm_compute; exact I) ltac:(cbn; lia)) as (s' & p' & E & Hp' & Hs' & _ & Hline).
  exists s'. split; [exact E|].
  destruct (Hline eq_refl ltac:(apply (bool_decide_unpack _); vm_compute; exact I) ltac:(cbn; lia) eq_refl) as [_ Hink].
  pose proof (EarlyScreen.shows_cells _ _ Hs') as Hcells.
  assert (EarlyScreen.top p' = 1) as Htop by (rewrite Hp'; reflexivity).
  split.
  - change 1840%nat with (Z.to_nat 1840). rewrite (Hcells 1840 ltac:(lia)), Htop, Hink. reflexivity.
  - change 1854%nat with (Z.to_nat 1854). rewrite (Hcells 1854 ltac:(lia)), Htop, Hink. reflexivity.
Defined.
