(* ===== verification/TarFS.v ===== *)
(** * coursework/tarfs.cpp: the read-only file system on a tape archive

    The archive is a block device; the tree of its files is built in memory at
    mount time.  Nodes live in a heap, each with its red-black map from name
    hashes to the addresses of its children. *)
From S2P Require Import Prelude Define RBMap CString.

(** The block device behind the file system: what a read of one block gives,
    [None] when it fails. *)
Record BlockDevice := {
  block_size : Z;
  block_count : Z;
  read_block : Z -> option (list Z)
}.

(** ** Octal numbers of the headers *)

(** [data[len - i]] for i = 1, 2, ... below [len]; [factor] is an [int]. *)
Fixpoint octal_loop (n : nat) (data : list Z) (len i value factor : Z) : outcome Z :=
  match n with
  | O => Ok value
  | S n =>
      if i <? len then
        ch ← in_bounds (data !! Z.to_nat (len - i));
        octal_loop n data len (i + 1) (u32 (value + i32 (factor * (i8 ch - 48)))) (i32 (Z.shiftl factor 3))
      else Ok value
  end.

Definition octal2ui (data : list Z) : outcome Z :=
  len ← strlen (Some data);
  octal_loop (Z.to_nat len) data len 1 0 1.

(** ** posix_header: the fields that are read, at their offsets in the block *)
Definition hdr_name (header : list Z) : list Z := header.
Definition hdr_size (header : list Z) : list Z := drop 124 header.
Definition hdr_typeflag (header : list Z) : outcome Z := in_bounds (header !! 156%nat).

(** ** Nodes *)
Record TarFSNode := {
  _parent : option Z;
  _children : Map Z;
  _name : String;
  _node_size : Z;
  _has_block_offset : bool;
  _block_offset : Z
}.

Definition TarFSNode_new (parent : option Z) (name : String) : TarFSNode := {|
  _parent := parent; _children := Map_new; _name := name; _node_size := 0;
  _has_block_offset := false; _block_offset := 0
|}.

(** The nodes of a file system and the next free address. *)
Record Nodes := { node_heap : gmap Z TarFSNode; next_node : Z }.

Definition tnode (fs : Nodes) (p : Z) : outcome TarFSNode := in_bounds (node_heap fs !! p).
Definition set_node (fs : Nodes) (p : Z) (n : TarFSNode) : Nodes :=
  {| node_heap := <[p := n]> (node_heap fs); next_node := next_node fs |}.
Definition new_tnode (fs : Nodes) (parent : option Z) (name : String) : Z * Nodes :=
  (next_node fs, {| node_heap := <[next_node fs := TarFSNode_new parent name]> (node_heap fs);
                    next_node := next_node fs + 1 |}).

Definition get_child (fs : Nodes) (p : Z) (name : String) : outcome (option Z) :=
  n ← tnode fs p;
  try_get_value (_children n) (fst (get_hash name)).

Definition add_child (fs : Nodes) (p : Z) (name : String) (child : Z) : outcome Nodes :=
  n ← tnode fs p;
  c ← add (_children n) (fst (get_hash name)) child;
  Ok (set_node fs p {| _parent := _parent n; _children := c; _name := _name n; _node_size := _node_size n;
                       _has_block_offset := _has_block_offset n; _block_offset := _block_offset n |}).

Definition set_block_offset (fs : Nodes) (p offset : Z) : outcome Nodes :=
  n ← tnode fs p;
  Ok (set_node fs p {| _parent := _parent n; _children := _children n; _name := _name n;
                       _node_size := _node_size n; _has_block_offset := true; _block_offset := offset |}).

Definition set_size (fs : Nodes) (p sz : Z) : outcome Nodes :=
  n ← tnode fs p;
  Ok (set_node fs p {| _parent := _parent n; _children := _children n; _name := _name n; _node_size := sz;
                       _has_block_offset := _has_block_offset n; _block_offset := _block_offset n |}).

(** [mkdir] is not implemented. *)
Definition mkdir (fs : Nodes) (p : Z) (name : String) : option Z := None.

(** ** Building the tree *)

(** Walk down the path from [prevRoot], creating the nodes that are missing. *)
Fixpoint descend (fs : Nodes) (prevRoot : Z) (path : list String) : outcome (Z * Nodes) :=
  match path with
  | [] => Ok (prevRoot, fs)
  | folderName :: path =>
      child ← get_child fs prevRoot folderName;
      match child with
      | Some n => descend fs n path
      | None =>
          let '(n, fs) := new_tnode fs (Some prevRoot) folderName in
          fs ← add_child fs prevRoot folderName n;
          descend fs n path
      end
  end.

Definition BuildTreeRecursive (fs : Nodes) (root : Z) (header : list Z) (size : Z) : outcome Nodes :=
  name ← String_cstr (hdr_name header);
  path ← split name 47 false;
  '(p, fs) ← descend fs root path;
  fs ← set_block_offset fs p size;
  sz ← octal2ui (hdr_size header);
  set_size fs p sz.

Fixpoint is_zero_loop (buffer : list Z) (n : nat) : outcome bool :=
  match n with
  | O => Ok true
  | S n =>
      match buffer with
      | [] => Fault OutOfBounds
      | b :: buffer => if negb (b =? 0) then Ok false else is_zero_loop buffer n
      end
  end.

Definition is_zero_block (buffer : list Z) : outcome bool := is_zero_loop buffer 512.

(** The blocks the contents of a file take. *)
Definition content_blocks (size : Z) : Z := size / 512 + (if size mod 512 =? 0 then 0 else 1).

Fixpoint build_loop (fuel : nat) (dev : BlockDevice) (fs : Nodes) (root blockCount : Z)
  : outcome (option Nodes) :=
  match fuel with
  | O => Fault OutOfFuel
  | S fuel =>
      if blockCount <? block_count dev then
        match read_block dev blockCount with
        | None => Ok None
        | Some buffer =>
            z ← is_zero_block buffer;
            if z : bool then Ok (Some fs)
            else
              blockToRead ← octal2ui (hdr_size buffer);
              t ← hdr_typeflag buffer;
              fs ← (if t =? 48 then BuildTreeRecursive fs root buffer blockCount else Ok fs);
              build_loop fuel dev fs root (u32 (u32 (blockCount + content_blocks blockToRead) + 1))
        end
      else Ok (Some fs)
  end.

(** The root node and the nodes; [None] when a block cannot be read. *)
Definition build_tree (dev : BlockDevice) : outcome (option (Z * Nodes)) :=
  let '(root, fs) := new_tnode {| node_heap := ∅; next_node := 1 |} None String_empty in
  r ← build_loop (S (Z.to_nat (block_count dev))) dev fs root 0;
  match r with
  | None => Ok None
  | Some fs => Ok (Some (root, fs))
  end.

(** The file system: its root is built once. *)
Record TarFS := { device : BlockDevice; _root_node : option (Z * Nodes) }.

Definition TarFS_new (dev : BlockDevice) : TarFS := {| device := dev; _root_node := None |}.

Definition mount (t : TarFS) : outcome (option (Z * Nodes) * TarFS) :=
  match _root_node t with
  | Some r => Ok (Some r, t)
  | None => r ← build_tree (device t); Ok (r, {| device := device t; _root_node := r |})
  end.

(** ** Files *)
Record TarFSFile := { _hdr : list Z; _file_start_block : Z; _cur_pos : Z }.

(** The constructor does not look at whether the header could be read; the
    memory it was to be read into is then as [new] left it. *)
Definition TarFSFile_new (dev : BlockDevice) (file_header_block : Z) (uninitialised : list Z) : TarFSFile := {|
  _hdr := default uninitialised (read_block dev file_header_block);
  _file_start_block := u32 (file_header_block + 1);
  _cur_pos := 0
|}.

Definition file_size (f : TarFSFile) : outcome Z := octal2ui (hdr_size (_hdr f)).

(** Overwrite the memory at [pos] with [bytes]. *)
Definition blit (buf : list Z) (pos : nat) (bytes : list Z) : outcome (list Z) :=
  if decide (pos + length bytes <= length buf)%nat
  then Ok (take pos buf ++ bytes ++ drop (pos + length bytes) buf)
  else Fault OutOfBounds.

(** The loop of [pread] over the caller's memory [buffer].  The block is read
    to the start of [buffer], and the bytes of the result are copied from the
    local array [fromBuffer]. *)
Fixpoint pread_loop (fuel : nat) (dev : BlockDevice) (f : TarFSFile) (fromBuffer buffer : list Z)
    (size off readNum : Z) : outcome (Z * list Z) :=
  match fuel with
  | O => Fault OutOfFuel
  | S fuel =>
      if readNum <? size then
        let discardedContents := u32 (off / block_size dev) in
        let actualReadContents := u32 (off mod block_size dev) in
        match read_block dev (u32 (_file_start_block f + discardedContents)) with
        | None => Ok (readNum, buffer)
        | Some block =>
            buffer ← blit buffer 0 block;
            let filePage := __min (u32 (512 - actualReadContents)) (u64 (size - readNum)) in
            buffer ← blit buffer (Z.to_nat readNum)
                       (take (Z.to_nat filePage) (drop (Z.to_nat actualReadContents) fromBuffer));
            pread_loop fuel dev f fromBuffer buffer size (u64 (off + filePage)) (u32 (readNum + filePage))
        end
      else Ok (readNum, buffer)
  end.

Definition pread (fuel : nat) (dev : BlockDevice) (f : TarFSFile) (fromBuffer buffer : list Z) (size off : Z)
  : outcome (Z * list Z) :=
  sz ← file_size f;
  if sz <=? off then Ok (0, buffer)
  else pread_loop fuel dev f fromBuffer buffer size off 0.

Definition set_pos (f : TarFSFile) (pos : Z) : TarFSFile :=
  {| _hdr := _hdr f; _file_start_block := _file_start_block f; _cur_pos := pos |}.

(** [read] advances the position by what [pread] returned. *)
Definition read (dev : BlockDevice) (f : TarFSFile) (fromBuffer buffer : list Z) (size : Z)
  : outcome (Z * list Z * TarFSFile) :=
  '(rc, buffer) ← pread (S (Z.to_nat size)) dev f fromBuffer buffer size (_cur_pos f);
  Ok (rc, buffer, set_pos f (u32 (_cur_pos f + rc))).

Inductive SeekType := SeekAbsolute | SeekRelative.

Definition seek (f : TarFSFile) (offset : Z) (type : SeekType) : outcome TarFSFile :=
  let pos := match type with
             | SeekAbsolute => u32 offset
             | SeekRelative => u32 (_cur_pos f + offset)
             end in
  sz ← file_size f;
  Ok (set_pos f (if sz <=? pos then u32 (sz - 1) else pos)).

(** Opening a node: only nodes with a header block are files. *)
Definition open (dev : BlockDevice) (fs : Nodes) (p : Z) (uninitialised : list Z) : outcome (option TarFSFile) :=
  n ← tnode fs p;
  if _has_block_offset n then Ok (Some (TarFSFile_new dev (_block_offset n) uninitialised)) else Ok None.

(** ** Directories *)
Record DirectoryEntry := { de_name : String; de_size : Z }.
Record TarFSDirectory := { _entries : list DirectoryEntry; _cur_entry : nat }.

Fixpoint read_children (fs : Nodes) (l : list (Z * Z)) : outcome (list DirectoryEntry) :=
  match l with
  | [] => Ok []
  | (_, child) :: l =>
      n ← tnode fs child;
      rest ← read_children fs l;
      Ok ({| de_name := _name n; de_size := _node_size n |} :: rest)
  end.

Definition TarFSDirectory_new (fs : Nodes) (p : Z) : outcome TarFSDirectory :=
  n ← tnode fs p;
  l ← items (_children n);
  e ← read_children fs l;
  Ok {| _entries := e; _cur_entry := 0 |}.

Definition opendir (fs : Nodes) (p : Z) : outcome (option TarFSDirectory) :=
  n ← tnode fs p;
  if _has_block_offset n then Ok None else d ← TarFSDirectory_new fs p; Ok (Some d).

Definition read_entry (d : TarFSDirectory) : option DirectoryEntry * TarFSDirectory :=
  match _entries d !! _cur_entry d with
  | Some e => (Some e, {| _entries := _entries d; _cur_entry := S (_cur_entry d) |})
  | None => (None, d)
  end.
