(* ===== verification/TarFSProof.v ===== *)
(** * The tree of a tape archive

    An archive is described byte by byte: headers with names, octal sizes and
    type flags, each followed by the blocks of its contents.  The tree built
    at mount time is compared with the list of the archive's entries. *)
From S2P Require Import Prelude Define RBMap RBMapRep RBMapProof RBMapTheorems CString CStringProof TarFS.

#[local] Arguments wrap : simpl never.
#[local] Arguments swrap : simpl never.

(** ** Octal numbers *)

(** [k] octal digits of [n], most significant first. *)
Fixpoint octal (k : nat) (n : Z) : list Z :=
  match k with
  | O => []
  | S k => octal k (n / 8) ++ [48 + n mod 8]
  end.

Lemma octal_length k n : length (octal k n) = k.
Proof. revert n. induction k as [|k IH]; intros n; cbn; [done|]. rewrite length_app, IH. cbn. lia. Qed.

Lemma octal_digit k n : Forall (fun c => 48 <= c < 56) (octal k n).
Proof.
  revert n. induction k as [|k IH]; intros n; cbn; [done|]. apply Forall_app. split; [done|].
  repeat constructor; pose proof (Z.mod_pos_bound n 8); lia.
Qed.

Lemma octal_cons k n : octal (S k) n = (48 + (n / 8 ^ Z.of_nat k) mod 8) :: octal k n.
Proof.
  revert n. induction k as [|k IH]; intros n; [cbn; by rewrite Z.div_1_r|].
  change (octal (S (S k)) n) with (octal (S k) (n / 8) ++ [48 + n mod 8]). rewrite IH. cbn [app octal]. f_equal.
  rewrite Z.div_div, <- Z.pow_succ_r by (try apply Z.pow_nonneg; lia). by rewrite Nat2Z.inj_succ.
Qed.

(** The loop has read the digits of [m] below position [k], and goes on. *)
Lemma octal_loop_spec k c (m n : Z) (low : list Z) rest fuel :
  (k + length low <= 10)%nat -> (k < fuel)%nat -> 0 <= n -> 0 <= m < 8 ^ Z.of_nat (length low) ->
  octal_loop fuel (c :: octal k n ++ low ++ rest) (Z.of_nat (S (k + length low))) (1 + Z.of_nat (length low)) m
    (8 ^ Z.of_nat (length low)) =
  Ok (n mod 8 ^ Z.of_nat k * 8 ^ Z.of_nat (length low) + m).
Proof.
  revert n m low fuel. induction k as [|k IH]; intros n m low fuel Hk Hf Hn Hm; destruct fuel as [|fuel]; try lia;
    cbn [octal_loop].
  { rewrite (proj2 (Z.ltb_ge _ _)) by lia. cbn. rewrite Z.mod_1_r. done. }
  assert (8 ^ Z.of_nat (length low) <= 8 ^ 9) as H9 by (apply Z.pow_le_mono_r; lia).
  assert (0 < 8 ^ Z.of_nat (length low)) by (apply Z.pow_pos_nonneg; lia).
  pose proof (Z.mod_pos_bound n 8 ltac:(lia)) as Hd.
  rewrite (proj2 (Z.ltb_lt _ _)) by lia.
  replace (Z.to_nat (Z.of_nat (S (S k + length low)) - (1 + Z.of_nat (length low)))) with (S k) by lia.
  change (octal (S k) n) with (octal k (n / 8) ++ [48 + n mod 8]). rewrite <- app_assoc. cbn [app].
  match goal with |- context [(?x :: ?l) !! S k] => change ((x :: l) !! S k) with (l !! k) end.
  rewrite list_lookup_middle by (by rewrite octal_length). cbn [in_bounds mbind outcome_bind].
  rewrite (swrap_small 8) by (cbn; lia).
  replace (48 + n mod 8 - 48) with (n mod 8) by lia.
  rewrite (swrap_small 32 (_ * _)) by (change (2 ^ (32 - 1)) with (8 ^ 9 * 16); nia).
  rewrite wrap_small by (change (2 ^ 32) with (8 ^ 9 * 32); nia).
  rewrite Z.shiftl_mul_pow2 by lia. change (2 ^ 3) with 8.
  rewrite (swrap_small 32) by (change (2 ^ (32 - 1)) with (8 ^ 9 * 16); nia).
  assert (8 ^ Z.of_nat (length low) * 8 = 8 ^ Z.of_nat (length (48 + n mod 8 :: low))) as ->.
  { cbn [length]. rewrite Nat2Z.inj_succ, Z.pow_succ_r by lia. lia. }
  replace (1 + Z.of_nat (length low) + 1) with (1 + Z.of_nat (length (48 + n mod 8 :: low))) by (cbn [length]; lia).
  replace (S (S k + length low)) with (S (k + length (48 + n mod 8 :: low))) by (cbn [length]; lia).
  rewrite (IH (n / 8) _ (48 + n mod 8 :: low)).
  - f_equal. cbn [length]. rewrite !Nat2Z.inj_succ, !Z.pow_succ_r by lia.
    rewrite (Z.rem_mul_r n 8) by (try apply Z.pow_pos_nonneg; lia). lia.
  - cbn [length]. lia.
  - lia.
  - apply Z.div_pos; lia.
  - cbn [length]. rewrite Nat2Z.inj_succ, Z.pow_succ_r by lia. nia.
Qed.

Lemma octal2ui_spec n rest : 0 <= n -> octal2ui (octal 11 n ++ 0 :: rest) = Ok (n mod 8 ^ 10).
Proof.
  intros Hn. unfold octal2ui, strlen. rewrite strlen_loop_spec.
  - rewrite octal_length. cbn [mbind outcome_bind]. rewrite octal_cons.
    pose proof (octal_loop_spec 10 (48 + (n / 8 ^ Z.of_nat 10) mod 8) 0 n [] (0 :: rest) 11
      ltac:(cbn; lia) ltac:(lia) Hn ltac:(cbn; lia)) as E. cbn [length app] in E.
    change (Z.to_nat (0 + Z.of_nat 11)) with 11%nat. change (0 + Z.of_nat 11) with (Z.of_nat (S (10 + 0))).
    etrans; [exact E|]. f_equal. change (8 ^ Z.of_nat 0) with 1. change (Z.of_nat 10) with 10. lia.
  - eapply Forall_impl; [apply octal_digit|]. cbn. lia.
  - lia.
  - rewrite octal_length. done.
Qed.

(** The size field of a header, eleven octal digits and a zero, reads back
    modulo 8^10: the first digit is never looked at, so sizes below 1 GiB are
    read correctly and larger ones are not. *)
Lemma octal_roundtrip n rest : 0 <= n -> octal2ui (octal 11 n ++ 0 :: rest) = Ok (n mod 8 ^ 10).
Proof. apply octal2ui_spec. Qed.

Lemma octal_roundtrip_witness : octal2ui (octal 11 1234567 ++ [0]) = Ok 1234567.
Proof. rewrite (octal_roundtrip 1234567 []); [reflexivity|lia]. Defined.

(** ** The nodes as a tree *)
Definition hash (name : list Z) : Z := compute_hash (String_of name).

#[local] Arguments hash : simpl never.

Definition kid (n : TarFSNode) (h : Z) : option Z :=
  match try_get_value (_children n) h with Ok v => v | Fault _ => None end.

(** The node a path of name hashes leads to. *)
Fixpoint walk (h : gmap Z TarFSNode) (p : Z) (path : list Z) : option Z :=
  match path with
  | [] => Some p
  | x :: path => n ← h !! p; q ← kid n x; walk h q path
  end.

Definition file_info (n : TarFSNode) : option (Z * Z) :=
  if _has_block_offset n then Some (_block_offset n, _node_size n) else None.

(** What is at a path: nothing, a directory, or a file with its header block
    and size. *)
Definition entry (fs : Nodes) (root : Z) (path : list Z) : option (option (Z * Z)) :=
  q ← walk (node_heap fs) root path; n ← node_heap fs !! q; Some (file_info n).

Record tree_ok (fs : Nodes) (root : Z) : Prop := {
  to_kids p n : node_heap fs !! p = Some n -> exists g, represents (_children n) g /\
    forall h q, g !! h = Some q -> is_Some (node_heap fs !! q);
  to_fresh p : is_Some (node_heap fs !! p) -> p < next_node fs;
  to_root : is_Some (node_heap fs !! root);
  to_inj path path' q : walk (node_heap fs) root path = Some q -> walk (node_heap fs) root path' = Some q ->
    path = path'
}.

Lemma kid_spec n g h : represents (_children n) g -> try_get_value (_children n) h = Ok (g !! h) /\ kid n h = g !! h.
Proof.
  intros (t & Hv & ->). pose proof Hv as [[_ Hr Hroot _ _ _] Hs _ _ _]. cbn in Hroot.
  assert (try_get_value (_children n) h = Ok ((list_to_map (inorder t) : gmap Z Z) !! h)) as E.
  { unfold try_get_value. rewrite Hroot. eapply find_spec; [exact Hr|exact Hs|].
    rewrite (valid_size _ _ Hv). apply height_length. }
  unfold kid. by rewrite E.
Qed.

Lemma walk_app h p path path' : walk h p (path ++ path') = q ← walk h p path; walk h q path'.
Proof.
  revert p. induction path as [|x path IH]; intros p; cbn; [done|].
  destruct (h !! p) as [n|]; cbn; [|done]. destruct (kid n x); cbn; [apply IH|done].
Qed.

Lemma walk_in fs root path q : tree_ok fs root -> walk (node_heap fs) root path = Some q ->
  is_Some (node_heap fs !! q).
Proof.
  intros HT. revert q. induction path as [|x path IH] using rev_ind; intros q; [intros [= <-]; apply HT|].
  rewrite walk_app. destruct (walk _ _ path) as [p|]; [|done]. cbn.
  destruct (node_heap fs !! p) as [n|] eqn:Hp; [|done]. cbn.
  destruct (kid n x) as [q'|] eqn:Hk; [|done]. intros [= <-].
  destruct (to_kids _ _ HT p n Hp) as (g & Hg & Hin). rewrite (proj2 (kid_spec n g x Hg)) in Hk. eauto.
Qed.

(** Changing nodes without touching their children changes no walk. *)
Lemma walk_ext h h' p path :
  (forall q, _children <$> h' !! q = _children <$> h !! q) -> walk h' p path = walk h p path.
Proof.
  intros He. revert p. induction path as [|x path IH]; intros p; cbn; [done|].
  specialize (He p). destruct (h !! p) as [n|], (h' !! p) as [n'|]; cbn in *; try done.
  injection He as He. unfold kid. rewrite He.
  destruct (try_get_value (_children n) x) as [[q|]|]; cbn; [apply IH|done..].
Qed.

(** ** A new child *)
Section new_child.
Context (fs fs' : Nodes) (root cur : Z) (pre : list Z) (x : Z).
Context (n c' : TarFSNode) (g : gmap Z Z) (name : String).
Context (HT : tree_ok fs root) (Hpre : walk (node_heap fs) root pre = Some cur).
Context (Hcur : node_heap fs !! cur = Some n) (Hg : represents (_children n) g) (Hx : g !! x = None).
Context (Hkids : forall h q, g !! h = Some q -> is_Some (node_heap fs !! q)).
Context (Hg' : represents (_children c') (<[x := next_node fs]> g)).
Context (Hinfo : file_info c' = file_info n).
Context (Hheap : node_heap fs' = <[cur := c']> (<[next_node fs := TarFSNode_new (Some cur) name]> (node_heap fs))).
Context (Hnext : next_node fs' = next_node fs + 1).

Let new := next_node fs.

Lemma new_fresh : node_heap fs !! new = None.
Proof.
  destruct (node_heap fs !! new) as [m|] eqn:E; [|done]. apply mk_is_Some, (to_fresh _ _ HT) in E. lia.
Qed.

Lemma cur_not_new : cur <> new.
Proof. intros E. rewrite E in Hcur. by rewrite new_fresh in Hcur. Qed.

Lemma lookup_new : node_heap fs' !! new = Some (TarFSNode_new (Some cur) name).
Proof. rewrite Hheap, lookup_insert_ne by apply cur_not_new. apply lookup_insert_eq. Qed.

Lemma lookup_cur : node_heap fs' !! cur = Some c'.
Proof. rewrite Hheap. apply lookup_insert_eq. Qed.

Lemma lookup_old q : q <> cur -> q <> new -> node_heap fs' !! q = node_heap fs !! q.
Proof. intros ? ?. by rewrite Hheap, !lookup_insert_ne. Qed.

Lemma kid_new h : kid (TarFSNode_new (Some cur) name) h = None.
Proof. rewrite (proj2 (kid_spec (TarFSNode_new (Some cur) name) ∅ h represents_new)). apply lookup_empty. Qed.

Lemma walk_from path2 path1 q : walk (node_heap fs) root path1 = Some q ->
  walk (node_heap fs') q path2 =
  if decide (path1 ++ path2 = pre ++ [x]) then Some new else walk (node_heap fs) q path2.
Proof.
  revert path1 q. induction path2 as [|h path2 IH]; intros path1 q Hq.
  { cbn. rewrite decide_False; [done|]. rewrite app_nil_r. intros ->. rewrite walk_app, Hpre in Hq. cbn in Hq.
    rewrite Hcur in Hq. cbn in Hq. by rewrite (proj2 (kid_spec n g x Hg)), Hx in Hq. }
  pose proof (walk_in _ _ _ _ HT Hq) as [nq Hnq]. cbn [walk].
  destruct (decide (q = cur)) as [->|Hne].
  - assert (path1 = pre) as -> by (by eapply (to_inj _ _ HT)).
    rewrite lookup_cur, Hcur. cbn. rewrite (proj2 (kid_spec _ _ h Hg')), (proj2 (kid_spec _ _ h Hg)).
    destruct (decide (h = x)) as [->|Hhx].
    + rewrite lookup_insert_eq, Hx. fold new. cbn. destruct path2 as [|h2 path2].
      * cbn. by rewrite decide_True.
      * cbn. rewrite lookup_new. cbn. rewrite kid_new. cbn. rewrite decide_False; [done|].
        intros E. apply app_inv_head in E. discriminate.
    + rewrite lookup_insert_ne by done. rewrite decide_False.
      2: { intros E. apply app_inv_head in E. congruence. }
      destruct (g !! h) as [q2|] eqn:Eq; [|done]. cbn. rewrite (IH (pre ++ [h]) q2).
      * rewrite <- app_assoc. rewrite decide_False; [done|]. intros E. apply app_inv_head in E. cbn in E. congruence.
      * rewrite walk_app, Hpre. cbn. rewrite Hcur. cbn. by rewrite (proj2 (kid_spec _ _ h Hg)), Eq.
  - assert (q <> new) as Hqn by (intros ->; by rewrite new_fresh in Hnq).
    rewrite lookup_old, Hnq by done. cbn. destruct (kid nq h) as [q2|] eqn:Ek; cbn.
    + rewrite (IH (path1 ++ [h]) q2).
      * by rewrite <- app_assoc.
      * rewrite walk_app, Hq. cbn. rewrite Hnq. cbn. by rewrite Ek.
    + rewrite decide_False; [done|]. intros E.
      destruct path2 as [|h2 path2 _] using rev_ind.
      * apply app_inj_tail in E as [-> _]. congruence.
      * assert (walk (node_heap fs) root (path1 ++ h :: path2) = Some cur) as Hw.
        { rewrite (app_assoc path1 (h :: path2) [h2] : path1 ++ h :: path2 ++ [h2] = _) in E.
          apply app_inj_tail in E as [-> _]. done. }
        rewrite walk_app, Hq in Hw. cbn in Hw. rewrite Hnq in Hw. cbn in Hw. by rewrite Ek in Hw.
Qed.

Lemma walk_new path : walk (node_heap fs') root path =
  if decide (path = pre ++ [x]) then Some new else walk (node_heap fs) root path.
Proof. apply (walk_from path []). done. Qed.

Lemma tree_ok_new : tree_ok fs' root.
Proof.
  assert (forall q, is_Some (node_heap fs !! q) -> is_Some (node_heap fs' !! q)) as Hkeep.
  { intros q Hq. destruct (decide (q = cur)) as [->|]; [rewrite lookup_cur; eauto|].
    destruct (decide (q = new)) as [->|]; [rewrite lookup_new; eauto|]. by rewrite lookup_old. }
  split.
  - intros p m Hp. destruct (decide (p = cur)) as [->|Hc]; [|destruct (decide (p = new)) as [->|Hn]].
    + rewrite lookup_cur in Hp. injection Hp as <-. eexists. split; [exact Hg'|]. intros h q Hq.
      apply lookup_insert_Some in Hq as [[_ <-]|[_ Hq]]; [fold new; rewrite lookup_new; eauto|]. by eapply Hkeep, Hkids.
    + rewrite lookup_new in Hp. injection Hp as <-. exists ∅. split; [apply represents_new|].
      intros h q Hq. by rewrite lookup_empty in Hq.
    + rewrite lookup_old in Hp by done. destruct (to_kids _ _ HT p m Hp) as (gm & Hgm & Hin).
      exists gm. split; [done|]. eauto.
  - intros p Hp. rewrite Hnext. destruct (decide (p = cur)) as [->|Hc]; [|destruct (decide (p = new)) as [->|Hn]].
    + pose proof (to_fresh _ _ HT cur ltac:(eauto)). lia.
    + unfold new. lia.
    + rewrite lookup_old in Hp by done. apply (to_fresh _ _ HT) in Hp. lia.
  - apply Hkeep, HT.
  - intros path path' q Hq Hq'. rewrite walk_new in Hq, Hq'.
    assert (forall path, walk (node_heap fs) root path <> Some new) as Hno.
    { intros p0 H0. apply walk_in in H0 as [? H0]; [|done]. by rewrite new_fresh in H0. }
    destruct (decide (path = pre ++ [x])) as [->|], (decide (path' = pre ++ [x])) as [->|]; [done| | |].
    + assert (q = new) as -> by congruence. by apply Hno in Hq'.
    + assert (q = new) as -> by congruence. by apply Hno in Hq.
    + by eapply (to_inj _ _ HT).
Qed.

Lemma entry_new path : entry fs' root path =
  if decide (path = pre ++ [x]) then Some None else entry fs root path.
Proof.
  unfold entry. rewrite walk_new. case_decide as Hp.
  - cbn. by rewrite lookup_new.
  - destruct (walk (node_heap fs) root path) as [q|] eqn:Hq; [|done]. cbn.
    pose proof (walk_in _ _ _ _ HT Hq) as [nq Hnq]. rewrite Hnq. cbn.
    destruct (decide (q = cur)) as [->|].
    + rewrite lookup_cur. cbn. rewrite Hcur in Hnq. injection Hnq as <-. by rewrite Hinfo.
    + rewrite lookup_old, Hnq; [done|done|]. intros ->. by rewrite new_fresh in Hnq.
Qed.
End new_child.

(** ** Walking down a path *)
Definition node_info : Type := option (option (Z * Z)).

(** Every node on the way to [full] exists afterwards. *)
Definition touch (full q : list Z) (old : node_info) : node_info :=
  if decide (q `prefix_of` full) then Some (default None old) else old.

Lemma entry_prefix fs root pre cur q : tree_ok fs root -> walk (node_heap fs) root pre = Some cur ->
  q `prefix_of` pre -> is_Some (entry fs root q).
Proof.
  intros HT Hw [k ->]. rewrite walk_app in Hw. unfold entry.
  destruct (walk (node_heap fs) root q) as [p|] eqn:Hq; [|done]. cbn.
  destruct (walk_in _ _ _ _ HT Hq) as [n ->]. cbn. eauto.
Qed.

Lemma get_hash_of name : fst (get_hash (String_of name)) = hash name.
Proof. done. Qed.

Lemma descend_spec fs root cur pre names :
  tree_ok fs root -> walk (node_heap fs) root pre = Some cur ->
  exists p fs', descend fs cur (String_of <$> names) = Ok (p, fs') /\ tree_ok fs' root /\
    walk (node_heap fs') root (pre ++ (hash <$> names)) = Some p /\
    forall q, entry fs' root q = touch (pre ++ (hash <$> names)) q (entry fs root q).
Proof.
  revert fs cur pre. induction names as [|nm names IH]; intros fs cur pre HT Hw; cbn [fmap list_fmap descend].
  { exists cur, fs. rewrite app_nil_r. split_and!; try done. intros q. unfold touch. case_decide as Hp; [|done].
    destruct (entry_prefix _ _ _ _ _ HT Hw Hp) as [v ->]. done. }
  destruct (walk_in _ _ _ _ HT Hw) as [n Hn]. destruct (to_kids _ _ HT cur n Hn) as (g & Hg & Hkids).
  unfold get_child, tnode. rewrite Hn. cbn [in_bounds mbind outcome_bind]. rewrite get_hash_of.
  rewrite (proj1 (kid_spec n g (hash nm) Hg)). cbn [mbind outcome_bind].
  replace (pre ++ hash nm :: (hash <$> names)) with ((pre ++ [hash nm]) ++ (hash <$> names)) by (by rewrite <- app_assoc).
  destruct (g !! hash nm) as [q|] eqn:Eq.
  - apply IH; [done|]. rewrite walk_app, Hw. cbn. rewrite Hn. cbn. by rewrite (proj2 (kid_spec n g (hash nm) Hg)), Eq.
  - cbn [new_tnode]. unfold add_child, tnode. cbn [node_heap].
    rewrite lookup_insert_ne.
    2: { intros E. pose proof (to_fresh _ _ HT cur ltac:(eauto)). lia. }
    rewrite Hn. cbn [in_bounds mbind outcome_bind]. rewrite get_hash_of.
    destruct Hg as (t & Hv & ->).
    destruct (add_spec (_children n) t (hash nm) (next_node fs) Hv) as (m' & T & E1 & HT1 & Hm).
    step_to E1. set (c' := {| _parent := _; _children := m' |}). set (fs1 := set_node _ _ _).
    assert (represents m' (<[hash nm := next_node fs]> (list_to_map (inorder t) : gmap Z Z))) as Hg' by (by exists T).
    assert (represents (_children n) (list_to_map (inorder t) : gmap Z Z)) as Hg by (by exists t).
    pose proof (tree_ok_new fs fs1 root cur pre (hash nm) n c' _ (String_of nm) HT Hw Hn Hg Eq Hkids Hg'
      eq_refl eq_refl) as HT2.
    pose proof (walk_new fs fs1 root cur pre (hash nm) n c' _ (String_of nm) HT Hw Hn Hg Eq Hg' eq_refl) as Hwalk.
    pose proof (entry_new fs fs1 root cur pre (hash nm) n c' _ (String_of nm) HT Hw Hn Hg Eq Hg'
      eq_refl eq_refl) as Hent.
    destruct (IH fs1 (next_node fs) (pre ++ [hash nm]) HT2) as (p & fs' & E2 & HT' & Hw' & He').
    { by rewrite Hwalk, decide_True. }
    exists p, fs'. split; [exact E2|]. split; [done|]. split; [done|]. intros q. rewrite He', Hent.
    unfold touch. case_decide as Hp.
    + case_decide as Hq; [|done]. subst q. unfold entry. rewrite walk_app, Hw. cbn. rewrite Hn. cbn.
      by rewrite (proj2 (kid_spec n _ (hash nm) Hg)), Eq.
    + rewrite decide_False; [done|]. intros ->. apply Hp. by apply prefix_app_r.
Qed.

(** The effect of a regular file on what is at a path. *)
Definition record_file (path : list Z) (v : Z * Z) (old : list Z -> node_info) (q : list Z) : node_info :=
  if decide (q = path) then Some (Some v) else touch path q (old q).

Lemma set_file_spec fs root p path b sz : tree_ok fs root -> walk (node_heap fs) root path = Some p ->
  exists fs', (fs ← set_block_offset fs p b; set_size fs p sz) = Ok fs' /\ tree_ok fs' root /\
    forall q, entry fs' root q = if decide (q = path) then Some (Some (b, sz)) else entry fs root q.
Proof.
  intros HT Hw. destruct (walk_in _ _ _ _ HT Hw) as [n Hn].
  unfold set_block_offset, set_size, tnode. rewrite Hn. cbn [in_bounds mbind outcome_bind node_heap set_node].
  rewrite lookup_insert_eq. cbn [in_bounds mbind outcome_bind].
  eexists. split; [done|]. set (n' := {| _parent := _; _node_size := sz |}). set (fs' := set_node _ _ _).
  assert (node_heap fs' = <[p := n']> (node_heap fs)) as Hh by (cbn; apply insert_insert_eq).
  assert (forall q, _children <$> node_heap fs' !! q = _children <$> node_heap fs !! q) as Hc.
  { intros q. rewrite Hh. destruct (decide (p = q)) as [<-|]; [by rewrite lookup_insert_eq, Hn|by rewrite lookup_insert_ne]. }
  assert (forall q, is_Some (node_heap fs' !! q) <-> is_Some (node_heap fs !! q)) as Hd.
  { intros q. rewrite <- (fmap_is_Some _children), Hc. apply fmap_is_Some. }
  pose proof (fun path => walk_ext _ _ root path Hc) as Hwe. split; [split|].
  - intros q m Hq. specialize (Hc q). rewrite Hq in Hc. destruct (node_heap fs !! q) as [m0|] eqn:E; [|done].
    injection Hc as Hc. destruct (to_kids _ _ HT q m0 E) as (g & Hg & Hin). rewrite Hc. exists g. split; [done|].
    intros h r Hr. apply Hd. eauto.
  - intros q Hq. apply Hd, (to_fresh _ _ HT) in Hq. exact Hq.
  - apply Hd, HT.
  - intros p1 p2 q. rewrite !Hwe. apply HT.
  - intros q. unfold entry. rewrite Hwe. case_decide as Hq.
    + subst q. rewrite Hw. cbn [mbind option_bind]. rewrite Hh, lookup_insert_eq. done.
    + destruct (walk (node_heap fs) root q) as [r|] eqn:Hr; [|done]. cbn [mbind option_bind]. rewrite Hh, lookup_insert_ne; [done|].
      intros ->. apply Hq. by eapply (to_inj _ _ HT).
Qed.

(** ** The bytes of an archive *)
Record tar_entry := {
  te_path : list (list Z);
  te_size : Z;
  te_type : Z;
  te_mode_uid_gid : list Z;
  te_mtime_chksum : list Z;
  te_rest : list Z
}.

Definition te_name (e : tar_entry) : list Z := join 47 (te_path e).

Definition header (e : tar_entry) : list Z :=
  te_name e ++ replicate (100 - length (te_name e)) 0 ++ te_mode_uid_gid e ++
  (octal 11 (te_size e) ++ [0]) ++ te_mtime_chksum e ++ te_type e :: te_rest e.

Record entry_ok (e : tar_entry) : Prop := {
  eo_path : te_path e <> [] /\ Forall (Forall (fun c => c <> 0 /\ c <> 47)) (te_path e);
  eo_name : (length (te_name e) <= 99)%nat;
  eo_size : 0 <= te_size e < 8 ^ 10;
  eo_lengths : length (te_mode_uid_gid e) = 24%nat /\ length (te_mtime_chksum e) = 20%nat /\
    length (te_rest e) = 355%nat
}.

(** The device holds the entries from block [b] on, up to a zero block or the
    end of the device. *)
Inductive archive (dev : BlockDevice) : Z -> list tar_entry -> Prop :=
| archive_end b : block_count dev <= b -> archive dev b []
| archive_zero b : b < block_count dev -> read_block dev b = Some (replicate 512 0) -> archive dev b []
| archive_entry b e es :
    b < block_count dev -> read_block dev b = Some (header e) -> entry_ok e ->
    b + content_blocks (te_size e) + 1 < 2 ^ 32 ->
    archive dev (b + content_blocks (te_size e) + 1) es -> archive dev b (e :: es).

(** What is at each path of the file system an archive describes. *)
Fixpoint expected (b : Z) (es : list tar_entry) (old : list Z -> node_info) : list Z -> node_info :=
  match es with
  | [] => old
  | e :: es =>
      expected (b + content_blocks (te_size e) + 1) es
        (if te_type e =? 48 then record_file (hash <$> te_path e) (b, te_size e) old else old)
  end.

Lemma parts_join delim ps : ps <> [] -> Forall (fun p => delim ∉ p) ps -> parts delim [] (join delim ps) = ps.
Proof.
  assert (forall p cur rest, delim ∉ p -> parts delim cur (p ++ delim :: rest) = (cur ++ p) :: parts delim [] rest) as Hd.
  { induction p as [|c p IH]; intros cur rest Hp; cbn; [by rewrite Z.eqb_refl, app_nil_r|].
    rewrite (proj2 (Z.eqb_neq c delim)) by (intros ->; apply Hp; left). rewrite IH, <- app_assoc; [done|]. set_solver. }
  assert (forall p cur, delim ∉ p -> parts delim cur p = [cur ++ p]) as Hl.
  { induction p as [|c p IH]; intros cur Hp; cbn; [by rewrite app_nil_r|].
    rewrite (proj2 (Z.eqb_neq c delim)) by (intros ->; apply Hp; left). rewrite IH, <- app_assoc; [done|]. set_solver. }
  intros Hne Hp. induction Hp as [|p ps Hp Hps IH]; [done|]. destruct ps as [|p2 ps]; [by apply Hl|].
  rewrite join_cons by done. rewrite Hd by done. by rewrite IH.
Qed.

Lemma join_forall (P : Z -> Prop) d ps : P d -> Forall (Forall P) ps -> Forall P (join d ps).
Proof.
  intros Hd. induction 1 as [|p ps Hp Hps IH]; [constructor|]. destruct ps as [|p2 ps]; [done|].
  rewrite join_cons by done. apply Forall_app. split; [done|]. by constructor.
Qed.

Lemma name_nonzero e : entry_ok e -> Forall (fun c => c <> 0) (te_name e).
Proof.
  intros [[_ Hp] _ _ _]. apply join_forall; [done|]. eapply Forall_impl; [exact Hp|]. intros p H.
  eapply Forall_impl; [exact H|]. by intros c [? _].
Qed.

Lemma header_split e : entry_ok e ->
  (exists tail, header e = te_name e ++ 0 :: tail) /\
  (exists tail, drop 124 (header e) = octal 11 (te_size e) ++ 0 :: tail) /\
  header e !! 156%nat = Some (te_type e) /\ header e !! 124%nat = octal 11 (te_size e) !! 0%nat.
Proof.
  intros [_ Hn _ (H1 & H2 & H3)].
  set (l1 := te_name e ++ replicate (100 - length (te_name e)) 0 ++ te_mode_uid_gid e).
  assert (length l1 = 124%nat) as L1 by (unfold l1; rewrite !length_app, length_replicate; lia).
  assert (header e = l1 ++ (octal 11 (te_size e) ++ [0]) ++ te_mtime_chksum e ++ te_type e :: te_rest e) as Hh.
  { unfold header, l1. by rewrite <- !app_assoc. }
  split_and!.
  - unfold header. replace (100 - length (te_name e))%nat with (S (99 - length (te_name e))) by lia.
    eexists. cbn [replicate app]. done.
  - exists (te_mtime_chksum e ++ te_type e :: te_rest e). rewrite Hh, drop_app_length' by done.
    by rewrite <- app_assoc.
  - rewrite Hh. rewrite app_assoc, app_assoc. apply list_lookup_middle.
    rewrite !length_app, octal_length, L1, H2. done.
  - rewrite Hh. rewrite lookup_app_r by lia. rewrite L1. rewrite lookup_app_l; [|rewrite length_app, octal_length; lia].
    rewrite lookup_app_l; [done|]. rewrite octal_length. lia.
Qed.

Lemma is_zero_nonzero l n k c : l !! k = Some c -> c <> 0 -> (k < n)%nat -> is_zero_loop l n = Ok false.
Proof.
  revert l k. induction n as [|n IH]; intros l k Hk Hc Hn; [lia|]. destruct l as [|b l]; [done|]. cbn [is_zero_loop].
  destruct (Z.eqb_spec b 0) as [->|]; [|done]. destruct k as [|k]; [injection Hk as <-; done|].
  apply (IH l k); [done|done|lia].
Qed.

Lemma BuildTreeRecursive_spec fs root e b : tree_ok fs root -> entry_ok e ->
  exists fs', BuildTreeRecursive fs root (header e) b = Ok fs' /\ tree_ok fs' root /\
    forall q, entry fs' root q = record_file (hash <$> te_path e) (b, te_size e) (entry fs root) q.
Proof.
  intros HT He. destruct (header_split e He) as ((tail & Hn) & (tail2 & Hs) & _).
  unfold BuildTreeRecursive.
  assert (String_cstr (hdr_name (header e)) = Ok (String_of (te_name e))) as E1.
  { unfold String_cstr, hdr_name, strlen. rewrite Hn.
    rewrite strlen_loop_spec; [|by apply name_nonzero|lia|pose proof (eo_name _ He); lia].
    cbn [mbind outcome_bind]. rewrite Z.add_0_l, Nat2Z.id, take_app_length. done. }
  step_to E1. step_to (split_spec (String_of (te_name e)) 47). cbn [_data String_of].
  unfold te_name. rewrite parts_join; [|apply (eo_path _ He)|].
  2: { eapply Forall_impl; [apply (eo_path _ He)|]. intros p Hp Hin. rewrite Forall_forall in Hp.
       by destruct (Hp 47 Hin). }
  destruct (descend_spec fs root root [] (te_path e) HT eq_refl) as (p & fs1 & E2 & HT1 & Hw & Hent).
  step_to E2. cbn [app] in *.
  destruct (set_file_spec fs1 root p (hash <$> te_path e) b (te_size e) HT1 Hw) as (fs2 & E3 & HT2 & Hent2).
  apply bind_Ok_inv in E3 as (fs1' & E3 & E4). step_to E3.
  unfold hdr_size. rewrite Hs, octal2ui_spec by apply (eo_size _ He). cbn [mbind outcome_bind].
  rewrite Z.mod_small by apply (eo_size _ He). exists fs2. split; [exact E4|]. split; [done|].
  intros q. rewrite Hent2. unfold record_file. case_decide; [done|]. apply Hent.
Qed.

Lemma content_blocks_nonneg sz : 0 <= sz -> 0 <= content_blocks sz.
Proof. intros H. unfold content_blocks. pose proof (Z.div_pos sz 512 H). case_match; lia. Qed.

Lemma expected_ext es b old old' q : (forall q, old q = old' q) -> expected b es old q = expected b es old' q.
Proof.
  revert b old old'. induction es as [|e es IH]; intros b old old' H; cbn; [done|]. apply IH. intros q'.
  case_match; [|done]. unfold record_file. by rewrite H.
Qed.

Lemma build_loop_spec fuel dev fs root b es :
  archive dev b es -> tree_ok fs root -> 0 <= b -> block_count dev - b < Z.of_nat fuel ->
  (0 < fuel)%nat ->
  exists fs', build_loop fuel dev fs root b = Ok (Some fs') /\ tree_ok fs' root /\
    forall q, entry fs' root q = expected b es (entry fs root) q.
Proof.
  intros Ha. revert fs fuel. induction Ha as [b Hb|b Hb Hr|b e es Hb Hr He Hlt Ha IH]; intros fs fuel HT H0 Hf Hf0;
    (destruct fuel as [|fuel]; [lia|]); cbn [build_loop].
  - rewrite (proj2 (Z.ltb_ge _ _)) by lia. by exists fs.
  - rewrite (proj2 (Z.ltb_lt _ _)), Hr by lia. by exists fs.
  - rewrite (proj2 (Z.ltb_lt _ _)), Hr by lia.
    destruct (header_split e He) as (_ & (tail2 & Hs) & Ht & Hd).
    assert (is_zero_block (header e) = Ok false) as E1.
    { destruct (octal 11 (te_size e) !! 0%nat) as [c|] eqn:Ec.
      - eapply is_zero_nonzero; [exact Hd| |lia]. pose proof (octal_digit 11 (te_size e)) as Hall.
        rewrite Forall_forall in Hall. apply list_elem_of_lookup_2 in Ec. specialize (Hall c Ec). lia.
      - apply lookup_ge_None in Ec. rewrite octal_length in Ec. lia. }
    step_to E1. unfold hdr_size at 1. rewrite Hs, octal2ui_spec by apply (eo_size _ He). cbn [mbind outcome_bind].
    rewrite Z.mod_small by apply (eo_size _ He). unfold hdr_typeflag. rewrite Ht. cbn [in_bounds mbind outcome_bind].
    pose proof (content_blocks_nonneg (te_size e) ltac:(apply (eo_size _ He))) as Hc.
    rewrite (wrap_small 32 (b + _)), wrap_small by lia. cbn [expected].
    assert (exists fs1, (if te_type e =? 48 then BuildTreeRecursive fs root (header e) b else Ok fs) = Ok fs1 /\
      tree_ok fs1 root /\ forall q, entry fs1 root q = (if te_type e =? 48
        then record_file (hash <$> te_path e) (b, te_size e) (entry fs root) else entry fs root) q)
      as (fs1 & E2 & HT1 & Hent).
    { destruct (te_type e =? 48); [by apply BuildTreeRecursive_spec|by exists fs]. }
    step_to E2. destruct (IH fs1 fuel HT1 ltac:(lia) ltac:(lia) ltac:(lia)) as (fs' & E3 & HT' & Hent').
    exists fs'. split; [exact E3|]. split; [done|]. intros q. rewrite Hent'. by apply expected_ext.
Qed.

(** A file system with nothing but its root. *)
Lemma new_root_ok : let '(root, fs) := new_tnode {| node_heap := ∅; next_node := 1 |} None String_empty in
  tree_ok fs root /\ forall q, entry fs root q = if decide (q = []) then Some None else None.
Proof.
  cbn [new_tnode next_node node_heap].
  assert (forall h, kid (TarFSNode_new None String_empty) h = None) as Hk.
  { intros h. rewrite (proj2 (kid_spec (TarFSNode_new None String_empty) ∅ h represents_new)). apply lookup_empty. }
  assert (forall q, walk {[1 := TarFSNode_new None String_empty]} 1 q = if decide (q = []) then Some 1 else None) as Hw.
  { intros [|x q]; [done|]. cbn. rewrite lookup_singleton_eq. cbn. by rewrite Hk. }
  rewrite insert_empty. split; [split|]; cbn [node_heap next_node].
  - intros p n [<- <-]%lookup_singleton_Some. exists ∅. split; [apply represents_new|]. intros h q Hq.
    by rewrite lookup_empty in Hq.
  - intros p [n [<- _]%lookup_singleton_Some]. lia.
  - rewrite lookup_singleton_eq. eauto.
  - intros p1 p2 q. rewrite !Hw. repeat case_decide; congruence.
  - intros q. unfold entry. cbn [node_heap]. rewrite Hw. case_decide; [|done]. cbn.
    by rewrite lookup_singleton_eq.
Qed.

(** Whatever the device holds, the tree that was built is a tree. *)
Lemma BuildTreeRecursive_tree fs root buf b fs' : tree_ok fs root ->
  BuildTreeRecursive fs root buf b = Ok fs' -> tree_ok fs' root.
Proof.
  intros HT E. unfold BuildTreeRecursive in E.
  apply bind_Ok_inv in E as (name & _ & E). rewrite split_spec in E. cbn [mbind outcome_bind] in E.
  destruct (descend_spec fs root root [] (parts 47 [] (_data name)) HT eq_refl) as (p & fs1 & E1 & HT1 & Hw & _).
  rewrite E1 in E. cbn [mbind outcome_bind] in E. apply bind_Ok_inv in E as (fs2 & E2 & E).
  apply bind_Ok_inv in E as (sz & _ & E).
  destruct (set_file_spec fs1 root p _ b sz HT1 Hw) as (fs3 & E3 & HT3 & _). rewrite E2 in E3. cbn [mbind outcome_bind] in E3.
  congruence.
Qed.

Lemma build_loop_tree fuel dev fs root b fs' : tree_ok fs root ->
  build_loop fuel dev fs root b = Ok (Some fs') -> tree_ok fs' root.
Proof.
  revert fs b. induction fuel as [|fuel IH]; intros fs b HT E; [done|]. cbn [build_loop] in E.
  destruct (b <? block_count dev); [|by injection E as <-].
  destruct (read_block dev b) as [buf|]; [|done]. apply bind_Ok_inv in E as ([] & _ & E); [by injection E as <-|].
  apply bind_Ok_inv in E as (n & _ & E). apply bind_Ok_inv in E as (t & _ & E).
  apply bind_Ok_inv in E as (fs1 & E1 & E). refine (IH fs1 _ _ E).
  destruct (t =? 48); [by eapply BuildTreeRecursive_tree|by injection E1 as <-].
Qed.

Lemma build_tree_tree dev root fs : build_tree dev = Ok (Some (root, fs)) -> tree_ok fs root.
Proof.
  unfold build_tree. pose proof new_root_ok as Hr. destruct (new_tnode _ None String_empty) as [r fs0]. destruct Hr as [HT _].
  intros E. apply bind_Ok_inv in E as ([fs1|] & E1 & E); [|done]. injection E as <- <-. by eapply build_loop_tree.
Qed.

Lemma mount_archive_spec dev es :
  archive dev 0 es -> 0 <= block_count dev ->
  exists root fs t, mount (TarFS_new dev) = Ok (Some (root, fs), t) /\ tree_ok fs root /\
    (forall q, entry fs root q = expected 0 es (fun q => if decide (q = []) then Some None else None) q) /\
    mount t = Ok (Some (root, fs), t).
Proof.
  intros Ha Hc. unfold mount at 1, TarFS_new. cbn [_root_node device]. unfold build_tree.
  pose proof new_root_ok as Hr. destruct (new_tnode _ None String_empty) as [root fs0]. destruct Hr as [HT He].
  destruct (build_loop_spec (S (Z.to_nat (block_count dev))) dev fs0 root 0 es Ha HT) as (fs & E & HT' & He');
    [lia..|].
  rewrite E. cbn [mbind outcome_bind]. eexists root, fs, _. split; [done|]. split; [done|]. split; [|done].
  intros q. rewrite He'. by apply expected_ext.
Qed.

(** C34: mounting an archive builds, whatever the order and depth of its
    entries, the tree the archive describes: at the path of every regular file
    there is a file with the block of its last header and its size, at every
    proper prefix of such a path a directory unless a file is there, and
    nothing anywhere else; a second mount returns the same tree.  Paths are
    compared by the hashes of their names. *)
Theorem mount_correct dev es :
  archive dev 0 es -> 0 <= block_count dev ->
  exists root fs t, mount (TarFS_new dev) = Ok (Some (root, fs), t) /\ tree_ok fs root /\
    (forall q, entry fs root q = expected 0 es (fun q => if decide (q = []) then Some None else None) q) /\
    mount t = Ok (Some (root, fs), t).
Proof. apply mount_archive_spec. Qed.

(** An archive with the one file [a/b] of 5 bytes. *)
Definition small_entry : tar_entry := {|
  te_path := [[97]; [98]]; te_size := 5; te_type := 48;
  te_mode_uid_gid := replicate 24 48; te_mtime_chksum := replicate 20 48; te_rest := replicate 355 0
|}.

Definition small_archive : BlockDevice := {|
  block_size := 512; block_count := 3;
  read_block := fun b => if b =? 0 then Some (header small_entry) else Some (replicate 512 0)
|}.

Lemma small_archive_ok : archive small_archive 0 [small_entry].
Proof.
  apply archive_entry; [done|done| |done|].
  - split; [|cbn; lia|cbn; lia|done]. split; [done|]. repeat constructor; done.
  - apply archive_zero; [done|reflexivity].
Qed.

Lemma mount_correct_witness : exists root fs t, mount (TarFS_new small_archive) = Ok (Some (root, fs), t) /\
  entry fs root [hash [97]; hash [98]] = Some (Some (0, 5)) /\ entry fs root [hash [97]] = Some None.
Proof.
  destruct (mount_correct small_archive [small_entry] small_archive_ok ltac:(done)) as (root & fs & t & E & _ & He & _).
  exists root, fs, t. split; [exact E|]. rewrite !He. split; reflexivity.
Defined.

(** ** Reading files *)

Lemma blit_ok buf pos bytes : (pos + length bytes <= length buf)%nat ->
  blit buf pos bytes = Ok (take pos buf ++ bytes ++ drop (pos + length bytes) buf).
Proof. intros H. unfold blit. by rewrite decide_True. Qed.

Lemma pread_loop_done fuel dev f fromBuffer buffer size off readNum :
  (0 < fuel)%nat -> size <= readNum ->
  pread_loop fuel dev f fromBuffer buffer size off readNum = Ok (readNum, buffer).
Proof. destruct fuel; [lia|]. intros _ H. cbn [pread_loop]. by rewrite (proj2 (Z.ltb_ge readNum size)) by lia. Qed.

(** A read within one block of a file returns the bytes of an
    uninitialised local array: the block goes to the caller's buffer and is
    then overwritten. *)
Lemma pread_copies_uninitialised dev f fromBuffer buffer size off sz block :
  file_size f = Ok sz -> 0 <= off < sz -> sz < 2 ^ 32 -> block_size dev = 512 -> 0 < size <= 512 - off mod 512 ->
  read_block dev (u32 (_file_start_block f + off / 512)) = Some block -> length block = 512%nat ->
  length fromBuffer = 512%nat -> (512 <= length buffer)%nat ->
  exists buffer', pread (S (Z.to_nat size)) dev f fromBuffer buffer size off = Ok (size, buffer') /\
    take (Z.to_nat size) buffer' = take (Z.to_nat size) (drop (Z.to_nat (off mod 512)) fromBuffer).
Proof.
  intros Hsz Ho Hb Hbs Hs Hr Hlb Hlf Hl. unfold pread. step_to Hsz. rewrite (proj2 (Z.leb_gt sz off)) by lia.
  pose proof (Z.mod_pos_bound off 512 ltac:(lia)) as Hm.
  assert (0 <= off / 512 <= off) as Hd.
  { split; [apply Z.div_pos; lia|]. apply Z.div_le_upper_bound; lia. }
  cbn [pread_loop].
  rewrite (proj2 (Z.ltb_lt 0 size)), Hbs by lia. rewrite (wrap_small 32 (off / 512)), (wrap_small 32 (off mod 512)) by lia.
  rewrite Hr. rewrite (blit_ok buffer 0 block) by lia. cbn [mbind outcome_bind take app].
  rewrite (wrap_small 32 (512 - _)), Z.sub_0_r, (wrap_small 64 size) by lia.
  assert (__min (512 - off mod 512) size = size) as ->.
  { unfold __min. destruct (Z.ltb_spec (512 - off mod 512) size); lia. }
  set (bytes := take (Z.to_nat size) (drop (Z.to_nat (off mod 512)) fromBuffer)).
  assert (length bytes = Z.to_nat size) as Hbytes.
  { unfold bytes. rewrite length_take, length_drop. lia. }
  rewrite blit_ok.
  2: { rewrite !length_app, length_drop, Hbytes. cbn. lia. }
  cbn [mbind outcome_bind]. rewrite Z.add_0_l, (wrap_small 32 size) by lia.
  rewrite pread_loop_done by lia. eexists. split; [done|]. change (Z.to_nat 0) with 0%nat. cbn [take app].
  clearbody bytes. rewrite <- Hbytes, (take_0 (take 0 buffer ++ _)), app_nil_l. apply take_app_length.
Qed.

Lemma pread_copies_uninitialised_witness :
  exists buffer', pread 6 small_archive (TarFSFile_new small_archive 0 []) (replicate 512 7) (replicate 512 1) 5 0
    = Ok (5, buffer') /\ take 5 buffer' = replicate 5 7.
Proof.
  apply (pread_copies_uninitialised small_archive (TarFSFile_new small_archive 0 []) (replicate 512 7)
    (replicate 512 1) 5 0 5 (replicate 512 0)); first [reflexivity|vm_compute; lia|vm_compute; intuition congruence].
Defined.
