(* ===== verification/InternalDriver.v ===== *)
(** * infos/fs/internal-driver.cpp: the built-in driver for tape archives

    The file repeats the tape archive file system of coursework/tarfs.cpp under
    unreadable names; the tree is built by the same code, so its operations are
    those of [TarFS].  Its file class differs: a block is read into the local
    array and copied from there, and the size is kept in the object. *)
From S2P Require Import Prelude Define RBMap CString TarFS.

Definition zmfj := octal2ui.
Definition Zzza := BuildTreeRecursive.
Definition ZzzA := build_tree.

(** The file class [ZZz]: header, start block, position and size. *)
Record ZZz := { xxc : list Z; xXc : Z; Xxc : Z; XXc : Z }.

(** The constructor; an empty file starts at position -1. *)
Definition ZZz_new (dev : BlockDevice) (ddD : Z) (uninitialised : list Z) : outcome ZZz :=
  let hdr := default uninitialised (read_block dev ddD) in
  sz ← zmfj (hdr_size hdr);
  Ok {| xxc := hdr; xXc := u32 (ddD + 1); Xxc := if sz =? 0 then u32 (-1) else 0; XXc := sz |}.

(** [memcpy] of [n] bytes from [pos] of an array. *)
Definition slice (buf : list Z) (pos n : nat) : outcome (list Z) :=
  if decide (pos + n <= length buf)%nat then Ok (take n (drop pos buf)) else Fault OutOfBounds.

(** The loop of [pread]; a block read fills the local array. *)
Fixpoint pread_loop (fuel : nat) (dev : BlockDevice) (f : ZZz) (KvKK : list Z) (KKK KvK kkk : Z)
  : outcome (Z * list Z) :=
  match fuel with
  | O => Fault OutOfFuel
  | S fuel =>
      if kkk <? KKK then
        let kNn := u32 (KvK / block_size dev) in
        let kNN := u32 (KvK mod block_size dev) in
        match read_block dev (u32 (xXc f + kNn)) with
        | None => Ok (kkk, KvKK)
        | Some Kkk =>
            let KKq := __min (u32 (512 - kNN)) (u64 (KKK - kkk)) in
            bytes ← slice Kkk (Z.to_nat kNN) (Z.to_nat KKq);
            KvKK ← blit KvKK (Z.to_nat kkk) bytes;
            pread_loop fuel dev f KvKK KKK (u64 (KvK + KKq)) (u32 (kkk + KKq))
        end
      else Ok (kkk, KvKK)
  end.

(** [KKK] bytes from offset [KvK] into the memory [KvKK]. *)
Definition pread (dev : BlockDevice) (f : ZZz) (KvKK : list Z) (KKK KvK : Z) : outcome (Z * list Z) :=
  if XXc f <=? KvK then Ok (0, KvKK)
  else '(n, KvKK) ← pread_loop (S (Z.to_nat KKK)) dev f KvKK KKK KvK 0; Ok (i32 n, KvKK).

Definition at_position (f : ZZz) (p : Z) : ZZz := {| xxc := xxc f; xXc := xXc f; Xxc := p; XXc := XXc f |}.

Definition read (dev : BlockDevice) (f : ZZz) (opu : list Z) (opp : Z) : outcome (Z * list Z * ZZz) :=
  '(ijy, opu) ← pread dev f opu opp (Xxc f);
  Ok (ijy, opu, at_position f (u32 (Xxc f + ijy))).

Definition seek (f : ZZz) (a : Z) (b : SeekType) : ZZz :=
  let p := match b with SeekAbsolute => u32 a | SeekRelative => u32 (Xxc f + a) end in
  at_position f (if XXc f <=? p then u32 (XXc f - 1) else p).

(** [write] does nothing. *)
Definition write (f : ZZz) (b : Z) : Z := 0.

(** ** What a file holds *)

(** The byte at [k] of the blocks from [start] on. *)
Definition byte_at (dev : BlockDevice) (start k : Z) : Z :=
  match read_block dev (start + k / 512) with
  | Some b => nth (Z.to_nat (k mod 512)) b 0
  | None => 0
  end.

Definition bytes_from (dev : BlockDevice) (start off : Z) (n : nat) : list Z :=
  (fun i => byte_at dev start (off + Z.of_nat i)) <$> seq 0 n.

(** Every block that holds one of [n] bytes from [off] can be read. *)
Definition readable (dev : BlockDevice) (start off n : Z) : Prop :=
  forall k, off <= k < off + n -> exists b, read_block dev (start + k / 512) = Some b /\ length b = 512%nat.

Lemma bytes_from_length dev start off n : length (bytes_from dev start off n) = n.
Proof. unfold bytes_from. by rewrite length_fmap, length_seq. Qed.

Lemma bytes_from_lookup dev start off n i : (i < n)%nat ->
  bytes_from dev start off n !! i = Some (byte_at dev start (off + Z.of_nat i)).
Proof. intros H. unfold bytes_from. by rewrite list_lookup_fmap, lookup_seq_lt by lia. Qed.

Lemma bytes_from_app dev start off a b :
  bytes_from dev start off (a + b) = bytes_from dev start off a ++ bytes_from dev start (off + Z.of_nat a) b.
Proof.
  unfold bytes_from. rewrite seq_app, fmap_app. f_equal.
  replace (0 + a)%nat with (a + 0)%nat by lia. rewrite <- (fmap_add_seq a 0 b), <- list_fmap_compose.
  apply list_fmap_ext. intros i x _. cbn. f_equal. lia.
Qed.

(** What is copied from one block. *)
Lemma chunk_spec dev start off n b :
  0 <= off -> 0 < n <= 512 - off mod 512 -> read_block dev (start + off / 512) = Some b -> length b = 512%nat ->
  slice b (Z.to_nat (off mod 512)) (Z.to_nat n) = Ok (bytes_from dev start off (Z.to_nat n)).
Proof.
  intros Ho Hn Hr Hl. pose proof (Z.mod_pos_bound off 512 ltac:(lia)) as Hm. unfold slice.
  rewrite decide_True by lia. f_equal. apply list_eq_same_length with (Z.to_nat n).
  - by rewrite bytes_from_length.
  - rewrite length_take, length_drop. lia.
  - intros i x y Hi Hx Hy. rewrite lookup_take_lt, lookup_drop in Hx by done.
    rewrite bytes_from_lookup in Hy by done. injection Hy as <-. unfold byte_at.
    assert ((off + Z.of_nat i) / 512 = off / 512 /\ (off + Z.of_nat i) mod 512 = off mod 512 + Z.of_nat i) as [-> ->].
    { pose proof (Z.div_mod off 512 ltac:(lia)) as E.
      replace (off + Z.of_nat i) with (off mod 512 + Z.of_nat i + off / 512 * 512) by lia.
      rewrite Z.div_add, Z.mod_add, Z.div_small, Z.mod_small by lia. lia. }
    rewrite Hr. rewrite (nth_lookup_Some b (Z.to_nat (off mod 512 + Z.of_nat i)) 0 x); [done|].
    rewrite <- Hx. f_equal. lia.
Qed.

(** Overwriting the middle of the memory. *)
Lemma blit_middle buf (k n : nat) done_ bytes :
  length done_ = k -> length bytes = n -> (k + n <= length buf)%nat ->
  blit (done_ ++ drop k buf) k bytes = Ok ((done_ ++ bytes) ++ drop (k + n) buf).
Proof.
  intros Hd Hb Hl. unfold blit. rewrite length_app, length_drop, decide_True by lia. f_equal.
  rewrite <- Hd, take_app_length, <- app_assoc. f_equal. f_equal.
  rewrite drop_app_ge, drop_drop, Hb by lia. f_equal. lia.
Qed.

Lemma pread_loop_spec fuel dev f buffer size off0 readNum :
  block_size dev = 512 -> 0 <= readNum <= size -> 0 <= off0 -> off0 + size < 2 ^ 32 ->
  0 <= xXc f -> xXc f + (off0 + size) / 512 < 2 ^ 32 -> size - readNum < Z.of_nat fuel ->
  Z.of_nat (length buffer) >= size -> readable dev (xXc f) (off0 + readNum) (size - readNum) ->
  pread_loop fuel dev f (bytes_from dev (xXc f) off0 (Z.to_nat readNum) ++ drop (Z.to_nat readNum) buffer)
    size (off0 + readNum) readNum =
  Ok (size, bytes_from dev (xXc f) off0 (Z.to_nat size) ++ drop (Z.to_nat size) buffer).
Proof.
  intros Hbs. revert readNum. induction fuel as [|fuel IH]; intros readNum Hn Ho Hb Hx Hb2 Hf Hl Hr; [lia|].
  cbn [pread_loop]. destruct (Z.ltb_spec readNum size) as [Hlt|Hge].
  2: { by replace readNum with size by lia. }
  set (off := off0 + readNum) in *. pose proof (Z.mod_pos_bound off 512 ltac:(lia)) as Hm.
  assert (0 <= off / 512 <= (off0 + size) / 512) as Hd.
  { split; [apply Z.div_pos; lia|apply Z.div_le_mono; lia]. }
  rewrite Hbs. wraps.
  destruct (Hr off ltac:(lia)) as (b & Hrb & Hlb). rewrite Hrb.
  set (q := __min (512 - off mod 512) (size - readNum)).
  assert (0 < q <= 512 - off mod 512 /\ q <= size - readNum) as Hq.
  { unfold q, __min. destruct (Z.ltb_spec (512 - off mod 512) (size - readNum)); lia. }
  step_to (chunk_spec dev (xXc f) off q b ltac:(lia) ltac:(lia) Hrb Hlb).
  step_to (blit_middle buffer (Z.to_nat readNum) (Z.to_nat q) (bytes_from dev (xXc f) off0 (Z.to_nat readNum))
    (bytes_from dev (xXc f) off (Z.to_nat q)) (bytes_from_length _ _ _ _) (bytes_from_length _ _ _ _) ltac:(lia)).
  replace off with (off0 + Z.of_nat (Z.to_nat readNum)) at 1 by lia. rewrite <- bytes_from_app.
  rewrite <- Z2Nat.inj_add by lia. wraps. replace (off + q) with (off0 + (readNum + q)) by lia.
  apply IH; try lia. intros k Hk. apply Hr. lia.
Qed.

(** A read that begins inside the file gives as many bytes as are asked for,
    whether or not the file has so many: the size is looked at before the first
    byte only. *)
Lemma pread_ignores_end dev f buffer size off :
  block_size dev = 512 -> 0 <= off < XXc f -> 0 <= size < 2 ^ 31 -> off + size < 2 ^ 32 -> 0 <= xXc f < 2 ^ 31 ->
  size <= Z.of_nat (length buffer) -> readable dev (xXc f) off size ->
  pread dev f buffer size off = Ok (size, bytes_from dev (xXc f) off (Z.to_nat size) ++ drop (Z.to_nat size) buffer).
Proof.
  intros Hbs Ho Hs Hos Hx Hl Hr. unfold pread. compare.
  assert ((off + size) / 512 < 2 ^ 31) as Hq by (apply Z.div_lt_upper_bound; lia).
  pose proof (pread_loop_spec (S (Z.to_nat size)) dev f buffer size off 0 Hbs) as H.
  rewrite Z.add_0_r, Z.sub_0_r in H. change (Z.to_nat 0) with 0%nat in H. rewrite (drop_0 buffer) in H.
  change (bytes_from dev (xXc f) off 0 ++ buffer) with buffer in H. rewrite H by (done || lia).
  cbn [mbind outcome_bind]. by rewrite (swrap_small 32) by (change (2 ^ (32 - 1)) with (2 ^ 31); lia).
Qed.

(** The blocks from [start] on hold [data], the last one filled up with
    zeroes. *)
Definition stored (dev : BlockDevice) (start : Z) (data : list Z) : Prop :=
  forall i, 0 <= i -> 512 * i < Z.of_nat (length data) ->
    read_block dev (start + i) = Some (take 512 (drop (Z.to_nat (512 * i)) data ++ replicate 512 0)).

Lemma stored_byte dev start data k : stored dev start data -> 0 <= k < Z.of_nat (length data) ->
  exists b, read_block dev (start + k / 512) = Some b /\ length b = 512%nat /\
    nth (Z.to_nat (k mod 512)) b 0 = nth (Z.to_nat k) data 0.
Proof.
  intros Hs Hk. pose proof (Z.div_mod k 512 ltac:(lia)) as E. pose proof (Z.mod_pos_bound k 512 ltac:(lia)) as Hm.
  assert (0 <= k / 512) as Hd by (apply Z.div_pos; lia).
  eexists. split; [apply Hs; lia|]. split; [len|].
  rewrite !nth_lookup, lookup_take_lt, lookup_app_l, lookup_drop by (lens; lia). do 2 f_equal. lia.
Qed.

Lemma bytes_from_stored dev start data off n : stored dev start data ->
  0 <= off -> off + Z.of_nat n <= Z.of_nat (length data) ->
  bytes_from dev start off n = take n (drop (Z.to_nat off) data).
Proof.
  intros Hs Ho Hn. apply list_eq_same_length with n; [len|apply bytes_from_length|].
  intros i x y Hi Hx Hy. rewrite bytes_from_lookup in Hx by done. injection Hx as <-.
  rewrite lookup_take_lt, lookup_drop in Hy by done. unfold byte_at.
  destruct (stored_byte dev start data (off + Z.of_nat i) Hs ltac:(lia)) as (b & -> & _ & ->).
  rewrite (nth_lookup_Some _ _ 0 y); [done|]. rewrite <- Hy. f_equal. lia.
Qed.

Lemma internal_pread_spec dev f data buffer size off :
  block_size dev = 512 -> stored dev (xXc f) data -> XXc f = Z.of_nat (length data) ->
  Z.of_nat (length data) < 2 ^ 31 -> 0 <= xXc f < 2 ^ 31 ->
  0 <= off -> 0 <= size -> off + size <= Z.of_nat (length data) -> size <= Z.of_nat (length buffer) ->
  let buffer' := take (Z.to_nat size) (drop (Z.to_nat off) data) ++ drop (Z.to_nat size) buffer in
  pread dev f buffer size off = (if off <? XXc f then Ok (size, buffer') else Ok (0, buffer)) /\
  (off < XXc f -> read dev (at_position f off) buffer size = Ok (size, buffer', at_position f (off + size))) /\
  read dev (at_position f (XXc f)) buffer size = Ok (0, buffer, at_position f (XXc f)).
Proof.
  intros Hbs Hst HX Hlen Hx Ho Hs Hos Hb.
  assert (forall g, xXc g = xXc f -> XXc g = XXc f -> off < XXc f -> pread dev g buffer size off = Ok (size,
    take (Z.to_nat size) (drop (Z.to_nat off) data) ++ drop (Z.to_nat size) buffer)) as Hp.
  { intros g Hg1 Hg2 Hlt. rewrite <- Hg1 in *.
    rewrite pread_ignores_end by (try done; try lia; intros k Hk;
      destruct (stored_byte dev (xXc g) data k Hst ltac:(lia)) as (b & ? & ? & _); eauto).
    by rewrite (bytes_from_stored _ _ data) by (try done; lia). }
  split; [|split].
  - destruct (Z.ltb_spec off (XXc f)); [by apply Hp|]. unfold pread. by compare.
  - intros Hlt. unfold read. change (Xxc (at_position f off)) with off.
    step_to (Hp (at_position f off) eq_refl eq_refl Hlt). by wraps.
  - unfold read, pread. cbn [Xxc XXc at_position]. compare. cbn [mbind outcome_bind]. rewrite Z.add_0_r. by wraps.
Qed.

(** Reading within a file whose blocks hold [data] returns exactly the
    bytes of [data] at the offset, block boundaries included, and leaves the
    rest of the caller's memory alone; [read] does so at the position and
    advances it, and at the end of the file returns nothing. *)
Lemma internal_pread_correct dev f data buffer size off :
  block_size dev = 512 -> stored dev (xXc f) data -> XXc f = Z.of_nat (length data) ->
  Z.of_nat (length data) < 2 ^ 31 -> 0 <= xXc f < 2 ^ 31 ->
  0 <= off -> 0 <= size -> off + size <= Z.of_nat (length data) -> size <= Z.of_nat (length buffer) ->
  let buffer' := take (Z.to_nat size) (drop (Z.to_nat off) data) ++ drop (Z.to_nat size) buffer in
  pread dev f buffer size off = (if off <? XXc f then Ok (size, buffer') else Ok (0, buffer)) /\
  (off < XXc f -> read dev (at_position f off) buffer size = Ok (size, buffer', at_position f (off + size))) /\
  read dev (at_position f (XXc f)) buffer size = Ok (0, buffer, at_position f (XXc f)).
Proof. apply internal_pread_spec. Qed.

(** A device whose block 1 starts with five bytes of a file. *)
Definition five_bytes : BlockDevice :=
  {| block_size := 512; block_count := 2;
     read_block := fun b => if b =? 1 then Some ([10; 20; 30; 40; 50] ++ replicate 507 0) else None |}.
Definition five_file : ZZz := {| xxc := []; xXc := 1; Xxc := 0; XXc := 5 |}.

Lemma internal_pread_correct_witness :
  pread five_bytes five_file [1; 2; 3; 4] 3 1 = Ok (3, [20; 30; 40; 4]).
Proof.
  apply (internal_pread_correct five_bytes five_file [10; 20; 30; 40; 50] [1; 2; 3; 4] 3 1); try reflexivity;
    try (split; reflexivity); try (cbn; lia).
  intros i Hi H. cbn in H. replace i with 0 by lia. reflexivity.
Defined.

(** 512 bytes of the file of five. *)
Lemma five_bytes_read_512 :
  pread five_bytes five_file (replicate 512 9) 512 0 = Ok (512, [10; 20; 30; 40; 50] ++ replicate 507 0).
Proof. by vm_compute. Qed.
