(* ===== verification/Vfs.v ===== *)
(** * infos/fs/vfs.cpp, vfs-node.cpp: the virtual file system

    A [VFSNode] caches the children of the physical node it stands for, by the
    hash of their names; mounting replaces the physical node.  What a physical
    node answers is the interface [PhysicalFS]; file systems, physical nodes,
    open files and directories are types of the implementation. *)
From S2P Require Import Prelude RBMap CString.

(** [pfs_create] runs a registered creation function on a device, [pfs_mount]
    is [Filesystem::mount]; the rest are the virtual functions of [PFSNode]. *)
Class PhysicalFS (S N F D : Type) := {
  pfs_create : S -> Z -> option Z -> outcome (option Z * S);
  pfs_mount : S -> Z -> outcome (option N * S);
  pfs_get_child : S -> N -> String -> outcome (option N);
  pfs_mkdir : S -> N -> String -> outcome (option N * S);
  pfs_open : S -> N -> outcome (option F);
  pfs_opendir : S -> N -> outcome (option D)
}.

Record FilesystemRegistration := { fsreg_name : list Z; creation_fn : Z }.

Section vfs.
Context {S N F D : Type} `{PhysicalFS S N F D}.

Record VFSNode := { _vparent : option Z; _pn : option N; _vchildren : Map Z }.

Record VirtualFilesystem := {
  _root_node : option Z;
  _filesystems : list FilesystemRegistration;
  vnodes : gmap Z VFSNode;
  next_vnode : Z;
  pfs : S
}.

Definition VFSNode_new (parent : option Z) (pn : option N) : VFSNode :=
  {| _vparent := parent; _pn := pn; _vchildren := Map_new |}.

Definition set_pfs (v : VirtualFilesystem) (s : S) : VirtualFilesystem :=
  {| _root_node := _root_node v; _filesystems := _filesystems v; vnodes := vnodes v;
     next_vnode := next_vnode v; pfs := s |}.
Definition set_vnode (v : VirtualFilesystem) (p : Z) (n : VFSNode) : VirtualFilesystem :=
  {| _root_node := _root_node v; _filesystems := _filesystems v; vnodes := <[p := n]> (vnodes v);
     next_vnode := next_vnode v; pfs := pfs v |}.
Definition new_vnode (v : VirtualFilesystem) (n : VFSNode) : Z * VirtualFilesystem :=
  (next_vnode v,
   {| _root_node := _root_node v; _filesystems := _filesystems v; vnodes := <[next_vnode v := n]> (vnodes v);
      next_vnode := next_vnode v + 1; pfs := pfs v |}).
Definition vnode (v : VirtualFilesystem) (p : Z) : outcome VFSNode := in_bounds (vnodes v !! p).

(** ** vfs-node.cpp *)
Definition get_child (v : VirtualFilesystem) (p : Z) (name : String) : outcome (option Z * VirtualFilesystem) :=
  x ← vnode v p;
  match _pn x with
  | None => Ok (None, v)
  | Some pn =>
      child ← try_get_value (_vchildren x) (fst (get_hash name));
      match child with
      | Some child => Ok (Some child, v)
      | None =>
          assoc ← pfs_get_child (pfs v) pn name;
          match assoc with
          | None => Ok (None, v)
          | Some assoc =>
              let '(child, v) := new_vnode v (VFSNode_new (Some p) (Some assoc)) in
              children ← add (_vchildren x) (fst (get_hash name)) child;
              Ok (Some child, set_vnode v p {| _vparent := _vparent x; _pn := _pn x; _vchildren := children |})
          end
      end
  end.

Definition mkdir (v : VirtualFilesystem) (p : Z) (name : String) : outcome (option Z * VirtualFilesystem) :=
  x ← vnode v p;
  match _pn x with
  | None => Ok (None, v)
  | Some pn =>
      '(dir, s) ← pfs_mkdir (pfs v) pn name;
      let v := set_pfs v s in
      match dir with
      | None => Ok (None, v)
      | Some _ => get_child v p name
      end
  end.

Fixpoint lookup_fs_loop (regs : list FilesystemRegistration) (fstype : String)
  : outcome (option FilesystemRegistration) :=
  match regs with
  | [] => Ok None
  | reg :: regs =>
      c ← strncmp (fsreg_name reg) (_data fstype ++ [0]) 16;
      if c =? 0 then Ok (Some reg) else lookup_fs_loop regs fstype
  end.

Definition lookup_fs (v : VirtualFilesystem) (fstype : String) : outcome (option FilesystemRegistration) :=
  lookup_fs_loop (_filesystems v) fstype.

(** The file system mounted, if any. *)
Definition mount (v : VirtualFilesystem) (p : Z) (fstype : String) (dev : option Z)
  : outcome (option Z * VirtualFilesystem) :=
  fsreg ← lookup_fs v fstype;
  match fsreg with
  | None => Ok (None, v)
  | Some fsreg =>
      '(fs, s) ← pfs_create (pfs v) (creation_fn fsreg) dev;
      let v := set_pfs v s in
      match fs with
      | None => Ok (None, v)
      | Some fs =>
          '(pn, s) ← pfs_mount (pfs v) fs;
          let v := set_pfs v s in
          match pn with
          | None => Ok (None, v)
          | Some pn =>
              x ← vnode v p;
              children ← clear (_vchildren x);
              Ok (Some fs, set_vnode v p {| _vparent := _vparent x; _pn := Some pn; _vchildren := children |})
          end
      end
  end.

(** ** vfs.cpp *)
Definition instantiate_fs (v : VirtualFilesystem) (fstype : String) (dev : option Z)
  : outcome (option Z * VirtualFilesystem) :=
  fsreg ← lookup_fs v fstype;
  match fsreg with
  | None => Ok (None, v)
  | Some fsreg => '(fs, s) ← pfs_create (pfs v) (creation_fn fsreg) dev; Ok (fs, set_pfs v s)
  end.

(** "rootfs" *)
Definition rootfs_name : String := String_of [114; 111; 111; 116; 102; 115].

Definition init (v : VirtualFilesystem) (regs : list FilesystemRegistration) : outcome (bool * VirtualFilesystem) :=
  let v := {| _root_node := _root_node v; _filesystems := _filesystems v ++ regs; vnodes := vnodes v;
              next_vnode := next_vnode v; pfs := pfs v |} in
  '(rootfs, v) ← instantiate_fs v rootfs_name None;
  rootfs ← deref rootfs;
  '(pn, s) ← pfs_mount (pfs v) rootfs;
  let v := set_pfs v s in
  match pn with
  | None => Ok (false, v)
  | Some pn =>
      let '(root, v) := new_vnode v (VFSNode_new None (Some pn)) in
      Ok (true, {| _root_node := Some root; _filesystems := _filesystems v; vnodes := vnodes v;
                   next_vnode := next_vnode v; pfs := pfs v |})
  end.

(** [component[i++] = *path++] into the array of 256 characters; [room] is how
    many are left, one being needed for the terminator. *)
Fixpoint read_component (room : nat) (path : list Z) : outcome (list Z * list Z) :=
  match path with
  | [] => Fault OutOfBounds
  | c :: rest =>
      match room with
      | O => Fault OutOfBounds
      | Datatypes.S room =>
          if (c =? 0) || (c =? 47) then Ok ([], path)
          else '(component, path) ← read_component room rest; Ok (c :: component, path)
      end
  end.

Fixpoint lookup_loop (fuel : nat) (v : VirtualFilesystem) (path : list Z) (current_node : option Z)
  : outcome (option Z * VirtualFilesystem) :=
  match fuel with
  | O => Fault OutOfFuel
  | Datatypes.S fuel =>
      '(component, path) ← read_component 256 path;
      c ← in_bounds (path !! 0%nat);
      let path := if c =? 47 then tail path else path in
      match component with
      | [] => Ok (current_node, v)
      | _ =>
          p ← deref current_node;
          '(current_node, v) ← get_child v p (String_of component);
          match current_node with
          | Some _ => lookup_loop fuel v path current_node
          | None => Ok (None, v)
          end
      end
  end.

Definition lookup_node (v : VirtualFilesystem) (spath : String) : outcome (option Z * VirtualFilesystem) :=
  let path := _data spath ++ [0] in
  c ← in_bounds (path !! 0%nat);
  if c =? 0 then Ok (None, v)
  else if negb (c =? 47) then Ok (None, v)
  else
    c1 ← in_bounds (path !! 1%nat);
    if c1 =? 0 then Ok (_root_node v, v)
    else lookup_loop (length path) v (tail path) (_root_node v).

Definition open (v : VirtualFilesystem) (path : String) (flags : Z) : outcome (option F * VirtualFilesystem) :=
  '(node, v) ← lookup_node v path;
  match node with
  | None => Ok (None, v)
  | Some p =>
      x ← vnode v p;
      match _pn x with
      | None => Ok (None, v)
      | Some pn => f ← pfs_open (pfs v) pn; Ok (f, v)
      end
  end.

Definition opendir (v : VirtualFilesystem) (path : String) (flags : Z) : outcome (option D * VirtualFilesystem) :=
  '(node, v) ← lookup_node v path;
  match node with
  | None => Ok (None, v)
  | Some p =>
      x ← vnode v p;
      match _pn x with
      | None => Ok (None, v)
      | Some pn => d ← pfs_opendir (pfs v) pn; Ok (d, v)
      end
  end.
End vfs.
Arguments VFSNode N : clear implicits.
Arguments VirtualFilesystem S N : clear implicits.
