(* ===== verification/VfsProof.v ===== *)
(** * The virtual file system implements a name space

    The name space of mounted file systems is given by [resolve]: from the
    root, a name leads to the file system mounted there, if any, and otherwise
    to the child of the physical node.  The invariant [vfs_inv] relates the
    cache of nodes to it.  Paths are lists of name hashes, innermost first. *)
From S2P Require Import Prelude RBMap RBMapRep RBMapProof RBMapTheorems CString CStringProof Vfs.

(** What the virtual file system needs of the physical ones: [kids s n] are
    the children of the node [n] by hash, [live] its nodes. *)
Class PhysicalFSLaws (S N F D : Type) `{PhysicalFS S N F D} (ok : S -> Prop) (live : S -> N -> Prop)
    (kids : S -> N -> Z -> option N) := {
  law_get_child s n name : ok s -> live s n -> pfs_get_child s n name = Ok (kids s n (fst (get_hash name)));
  law_kids s n h c : ok s -> live s n -> kids s n h = Some c -> live s c;
  law_mkdir s n name : ok s -> live s n -> kids s n (fst (get_hash name)) = None ->
    pfs_mkdir s n name = Ok (None, s) \/
    exists c s', pfs_mkdir s n name = Ok (Some c, s') /\ ok s' /\ live s' c /\
      kids s' n (fst (get_hash name)) = Some c /\
      forall m, live s m -> live s' m /\ forall h d, kids s m h = Some d -> kids s' m h = Some d;
  law_create s fn dev fs s' : ok s -> pfs_create s fn dev = Ok (fs, s') -> ok s' /\
    forall m, live s m -> live s' m /\ forall h, kids s' m h = kids s m h;
  law_mount s fs root s' : ok s -> pfs_mount s fs = Ok (root, s') -> ok s' /\
    (forall r, root = Some r -> live s' r) /\
    forall m, live s m -> live s' m /\ forall h, kids s' m h = kids s m h
}.

Section vfs.
Context {S N F D : Type} `{PhysicalFSLaws S N F D ok live kids}.
Implicit Types (v : VirtualFilesystem S N) (ms : gmap (list Z) N).

Lemma suffix_cons_case (q : list Z) k r : q `suffix_of` k :: r -> q = k :: r \/ q `suffix_of` r.
Proof. destruct q as [|h q]; [right; apply suffix_nil|apply suffix_cons_inv]. Qed.

(** ** The name space *)

(** The mounted file systems by the path of their mount point. *)
Fixpoint resolve (s : S) ms (q : list Z) : option N :=
  match q with
  | [] => ms !! []
  | h :: r =>
      n ← resolve s ms r;
      match ms !! (h :: r) with
      | Some m => Some m
      | None => kids s n h
      end
  end.

(** Mounting at [q] hides what was mounted below. *)
Definition mount_at ms (q : list Z) (root : N) : gmap (list Z) N :=
  <[q := root]> (filter (fun m => ~ q `suffix_of` m.1) ms).

(** ** The cache *)
Definition vkid (x : VFSNode N) (h : Z) : option Z :=
  match try_get_value (_vchildren x) h with Ok r => r | Fault _ => None end.

Fixpoint vwalk (h : gmap Z (VFSNode N)) (root : Z) (q : list Z) : option Z :=
  match q with
  | [] => Some root
  | k :: r => p ← vwalk h root r; x ← h !! p; vkid x k
  end.

Record vfs_inv v root ms : Prop := {
  vi_root : _root_node v = Some root;
  vi_pfs : ok (pfs v);
  vi_live q : is_Some (vnodes v !! q) -> q < next_vnode v;
  vi_root_in : is_Some (vnodes v !! root);
  vi_kids p x : vnodes v !! p = Some x ->
    exists g, represents (_vchildren x) g /\ forall h c, g !! h = Some c -> is_Some (vnodes v !! c);
  vi_inj q1 q2 p : vwalk (vnodes v) root q1 = Some p -> vwalk (vnodes v) root q2 = Some p -> q1 = q2;
  vi_agree q p x : vwalk (vnodes v) root q = Some p -> vnodes v !! p = Some x ->
    exists n, _pn x = Some n /\ live (pfs v) n /\ resolve (pfs v) ms q = Some n;
  vi_mounts q : is_Some (ms !! q) -> is_Some (vwalk (vnodes v) root q)
}.

Lemma vkid_spec x g h : represents (_vchildren x) g -> try_get_value (_vchildren x) h = Ok (g !! h) /\ vkid x h = g !! h.
Proof. intros Hg. pose proof (represents_get _ _ h Hg) as E. split; [done|]. unfold vkid. by rewrite E. Qed.

Lemma vwalk_in v root ms q p : vfs_inv v root ms -> vwalk (vnodes v) root q = Some p -> is_Some (vnodes v !! p).
Proof.
  intros I. revert p. induction q as [|h r IH]; intros p Hw; cbn in Hw; [injection Hw as <-; apply (vi_root_in _ _ _ I)|].
  destruct (vwalk (vnodes v) root r) as [p'|] eqn:E; [|done]. cbn in Hw.
  destruct (vnodes v !! p') as [x|] eqn:Ex; [|done]. cbn in Hw.
  destruct (vi_kids _ _ _ I p' x Ex) as (g & Hg & Hk). apply (Hk h).
  by rewrite <- (proj2 (vkid_spec x g h Hg)).
Qed.

Lemma resolve_ext s s' ms ms' q :
  (forall r, r `suffix_of` q -> ms' !! r = ms !! r) ->
  (forall n, live s n -> forall h, kids s' n h = kids s n h) ->
  (forall r n, r `suffix_of` q -> resolve s ms r = Some n -> live s n) ->
  resolve s' ms' q = resolve s ms q.
Proof.
  intros Hm Hk Hl. induction q as [|h r IH]; cbn; [by apply Hm|]. rewrite IH.
  - destruct (resolve s ms r) as [n|] eqn:E; [|done]. cbn. rewrite Hm by done. case_match; [done|].
    apply Hk, (Hl r); [by apply suffix_cons_r|done].
  - intros q Hq. apply Hm. by apply suffix_cons_r.
  - intros q n Hq. apply Hl. by apply suffix_cons_r.
Qed.

(** Nodes reached by the name space are live. *)
Lemma resolve_live v root ms q n : vfs_inv v root ms -> resolve (pfs v) ms q = Some n -> live (pfs v) n.
Proof.
  intros I. revert n. induction q as [|h r IH]; intros n E; cbn in E.
  - destruct (vi_root_in _ _ _ I) as [x Hx]. destruct (vi_agree _ _ _ I [] root x eq_refl Hx) as (m & _ & Hl & Em).
    cbn in Em. congruence.
  - destruct (resolve (pfs v) ms r) as [m|] eqn:Er; [|done]. cbn in E.
    destruct (ms !! (h :: r)) as [m'|] eqn:Em.
    + injection E as <-. destruct (vi_mounts _ _ _ I (h :: r) ltac:(eauto)) as [p Hp].
      destruct (vwalk_in _ _ _ _ _ I Hp) as [x Hx]. destruct (vi_agree _ _ _ I _ _ _ Hp Hx) as (n' & _ & Hl & En).
      cbn in En. rewrite Er in En. cbn in En. rewrite Em in En. congruence.
    + apply (law_kids (pfs v) m h n); [apply (vi_pfs _ _ _ I)|by apply IH|done].
Qed.

(** ** A new child in the cache *)
Section new_child.
Context v root ms (I : vfs_inv v root ms).
Context (r : list Z) (p : Z) (x : VFSNode N) (h : Z) (g : gmap Z Z) (a : N) (children : Map Z).
Context (Hw : vwalk (vnodes v) root r = Some p) (Hx : vnodes v !! p = Some x).
Context (Hg : represents (_vchildren x) g) (Hh : g !! h = None).
Context (Hg' : represents children (<[h := next_vnode v]> g)).
Context (Ha : live (pfs v) a) (Hres : resolve (pfs v) ms (h :: r) = Some a).

Let new := next_vnode v.
Let x' := {| _vparent := _vparent x; _pn := _pn x; _vchildren := children |}.
Let v' := set_vnode (snd (new_vnode v (VFSNode_new (Some p) (Some a)))) p x'.

Lemma new_unused : vnodes v !! new = None.
Proof. destruct (vnodes v !! new) eqn:E; [|done]. pose proof (vi_live _ _ _ I new ltac:(eauto)). subst new. lia. Qed.

Lemma p_not_new : p <> new.
Proof. intros ->. pose proof new_unused. congruence. Qed.

Lemma vnodes_new : vnodes v' = <[p := x']> (<[new := VFSNode_new (Some p) (Some a)]> (vnodes v)).
Proof. reflexivity. Qed.

Lemma vwalk_child q : vwalk (vnodes v') root q = if decide (q = h :: r) then Some new else vwalk (vnodes v) root q.
Proof.
  rewrite vnodes_new. pose proof p_not_new as Hpn. pose proof new_unused as Hun.
  assert (forall k, vkid (VFSNode_new (Some p) (Some a)) k = None) as Hnew.
  { intros k. rewrite (proj2 (vkid_spec (VFSNode_new (Some p) (Some a)) ∅ k represents_new)). apply lookup_empty. }
  induction q as [|k q IH]; [done|]. cbn [vwalk]. rewrite IH.
  destruct (decide (q = h :: r)) as [->|Hq].
  - rewrite decide_False by (intros E; apply (f_equal length) in E; cbn in E; lia). cbn [mbind option_bind].
    rewrite lookup_insert_ne, lookup_insert_eq by done. cbn [mbind option_bind]. rewrite Hnew.
    assert (vwalk (vnodes v) root (h :: r) = None) as E.
    { cbn [vwalk]. rewrite Hw. cbn. rewrite Hx. cbn. by rewrite (proj2 (vkid_spec x g h Hg)). }
    by rewrite E.
  - destruct (vwalk (vnodes v) root q) as [p'|] eqn:Eq; cbn [mbind option_bind].
    2: { rewrite decide_False; [done|]. intros [= -> ->]. congruence. }
    destruct (decide (p' = p)) as [->|Hp'].
    + assert (q = r) as -> by (by apply (vi_inj _ _ _ I q r p)).
      rewrite lookup_insert_eq. cbn [mbind option_bind]. rewrite (proj2 (vkid_spec x' _ k Hg')), Hx. cbn [mbind option_bind].
      rewrite (proj2 (vkid_spec x g k Hg)). destruct (decide (k = h)) as [->|].
      * by rewrite lookup_insert_eq, decide_True.
      * rewrite lookup_insert_ne, decide_False by congruence. done.
    + assert (p' <> new) as Hp'n.
      { intros ->. destruct (vwalk_in _ _ _ _ _ I Eq) as [y Hy]. congruence. }
      rewrite !lookup_insert_ne by done. rewrite decide_False; [done|]. intros [= -> ->]. congruence.
Qed.

Lemma vfs_inv_child : vfs_inv v' root ms.
Proof.
  pose proof p_not_new as Hpn. pose proof new_unused as Hun. split.
  - apply (vi_root _ _ _ I).
  - apply (vi_pfs _ _ _ I).
  - intros q. change (next_vnode v') with (next_vnode v + 1). rewrite vnodes_new, lookup_insert_is_Some, lookup_insert_is_Some.
    intros [<-|[_ [<-|[_ Hq]]]]; [|subst new; lia|]; [pose proof (vi_live _ _ _ I p ltac:(eauto)); lia|].
    pose proof (vi_live _ _ _ I q Hq). lia.
  - rewrite vnodes_new, !lookup_insert_is_Some. destruct (decide (p = root)); [by left|right]. split; [done|].
    right. split; [|apply (vi_root_in _ _ _ I)]. intros E. destruct (vi_root_in _ _ _ I) as [y Hy]. rewrite E in Hun. congruence.
  - assert (forall c, is_Some (vnodes v !! c) -> is_Some (vnodes v' !! c)) as Hmono.
    { intros c Hc. rewrite vnodes_new, !lookup_insert_is_Some. destruct (decide (p = c)); [by left|]. right. split; [done|].
      destruct (decide (new = c)); [by left|by right]. }
    intros q y Hqy. rewrite vnodes_new in Hqy. apply lookup_insert_Some in Hqy as [[<- <-]|[Hq Hy]].
    + exists (<[h := new]> g). split; [exact Hg'|]. intros k c. rewrite lookup_insert_Some. intros [[<- <-]|[Hk Hc]].
      * rewrite vnodes_new, lookup_insert_ne, lookup_insert_eq by done. eauto.
      * destruct (vi_kids _ _ _ I p x Hx) as (g2 & Hg2 & Hk2). apply Hmono, (Hk2 k).
        rewrite <- (proj2 (vkid_spec x g2 k Hg2)), (proj2 (vkid_spec x g k Hg)). done.
    + apply lookup_insert_Some in Hy as [[<- <-]|[Hq2 Hy]].
      * exists ∅. split; [apply represents_new|]. intros k c. by rewrite lookup_empty.
      * destruct (vi_kids _ _ _ I q y Hy) as (g2 & Hg2 & Hk2). exists g2. split; [done|]. eauto.
  - intros q1 q2 q. rewrite !vwalk_child. repeat case_decide; try congruence; intros E1 E2.
    + injection E1 as <-. destruct (vwalk_in _ _ _ _ _ I E2) as [y Hy]. congruence.
    + injection E2 as <-. destruct (vwalk_in _ _ _ _ _ I E1) as [y Hy]. congruence.
    + by apply (vi_inj _ _ _ I q1 q2 q).
  - intros q c y. rewrite vwalk_child, vnodes_new. change (pfs v') with (pfs v). case_decide as Hq.
    + intros [= <-]. rewrite lookup_insert_ne, lookup_insert_eq by done. intros [= <-]. subst q. by exists a.
    + intros Hc Hy. apply lookup_insert_Some in Hy as [[<- <-]|[Hcp Hy]]; [apply (vi_agree _ _ _ I q p x Hc Hx)|].
      apply lookup_insert_Some in Hy as [[<- _]|[_ Hy]].
      * destruct (vwalk_in _ _ _ _ _ I Hc) as [z Hz]. congruence.
      * apply (vi_agree _ _ _ I q c y Hc Hy).
  - intros q Hq. rewrite vwalk_child. case_decide; [eauto|]. by apply (vi_mounts _ _ _ I).
Qed.
End new_child.

(** The child of a cached node is what the name space says. *)
Lemma get_child_spec v root ms q p name : vfs_inv v root ms -> vwalk (vnodes v) root q = Some p ->
  exists c v', get_child v p name = Ok (c, v') /\ vfs_inv v' root ms /\ pfs v' = pfs v /\
    (forall q' p', vwalk (vnodes v) root q' = Some p' -> vwalk (vnodes v') root q' = Some p') /\
    match resolve (pfs v) ms (fst (get_hash name) :: q) with
    | Some _ => exists c', c = Some c' /\ vwalk (vnodes v') root (fst (get_hash name) :: q) = Some c'
    | None => c = None
    end.
Proof.
  intros I Hw. destruct (vwalk_in _ _ _ _ _ I Hw) as [x Hx].
  destruct (vi_agree _ _ _ I q p x Hw Hx) as (n & Hpn & Hl & Hr).
  destruct (vi_kids _ _ _ I p x Hx) as (g & Hg & Hk).
  set (h := fst (get_hash name)). unfold get_child, vnode. rewrite Hx. cbn [in_bounds mbind outcome_bind]. rewrite Hpn.
  fold h. rewrite (proj1 (vkid_spec x g h Hg)). cbn [mbind outcome_bind].
  assert (vwalk (vnodes v) root (h :: q) = g !! h) as Hwh.
  { cbn [vwalk]. rewrite Hw. cbn. rewrite Hx. cbn. apply (vkid_spec x g h Hg). }
  destruct (g !! h) as [c|] eqn:Eh.
  - exists (Some c), v. do 4 (split; [done|]). destruct (vwalk_in _ _ _ _ _ I Hwh) as [y Hy].
    destruct (vi_agree _ _ _ I _ _ _ Hwh Hy) as (m & _ & _ & ->). eauto.
  - assert (resolve (pfs v) ms (h :: q) = kids (pfs v) n h) as Hres.
    { cbn. rewrite Hr. cbn. destruct (ms !! (h :: q)) eqn:Em; [|done].
      destruct (vi_mounts _ _ _ I (h :: q) ltac:(eauto)) as [c Hc]. congruence. }
    rewrite Hres. rewrite (law_get_child (pfs v) n name (vi_pfs _ _ _ I) Hl). fold h. cbn [mbind outcome_bind].
    destruct (kids (pfs v) n h) as [a|] eqn:Ek; [|by exists None, v].
    rewrite (surjective_pairing (new_vnode v _)). change (fst (new_vnode v _)) with (next_vnode v).
    destruct (represents_add _ _ h (next_vnode v) Hg) as (children & Ea & Hg'). step_to Ea.
    rewrite <- Hpn. eexists _, _. split; [done|].
    pose proof (law_kids (pfs v) n h a (vi_pfs _ _ _ I) Hl Ek) as Hla.
    split; [by eapply (vfs_inv_child v root ms I q p x h g a children)|]. split; [done|].
    pose proof (vwalk_child v root ms I q p x h g a children Hw Hx Hg Eh Hg') as Hvw. split.
    + intros q' p' Hq'. rewrite (Hvw q'). rewrite decide_False; [done|]. intros ->. congruence.
    + eexists. split; [done|]. rewrite (Hvw (h :: q)). by rewrite decide_True.
Qed.

(** ** Looking a path up *)
Definition name_ok (c : list Z) : Prop := c <> [] /\ Forall (fun b => b <> 0 /\ b <> 47) c /\ (length c < 256)%nat.

Definition hashes (comps : list (list Z)) : list Z := (fun c => fst (get_hash (String_of c))) <$> comps.

Lemma read_component_spec comp rest room b : Forall (fun b => b <> 0 /\ b <> 47) comp -> (length comp < room)%nat ->
  b = 0 \/ b = 47 -> read_component room (comp ++ b :: rest) = Ok (comp, b :: rest).
Proof.
  intros Hc. revert room. induction Hc as [|c comp [H1 H2] Hc IH]; intros [|room] Hl Hb; cbn in Hl |- *; try lia.
  - destruct Hb as [-> | ->]; done.
  - rewrite (eqb_false c 0), (eqb_false c 47) by done. cbn [orb]. rewrite IH by (done || lia). done.
Qed.

(** The rest of a path: components separated by slashes, then [tl], which is
    empty or a last slash. *)
Definition path_rest (comps : list (list Z)) (tl : list Z) : list Z := join 47 comps ++ tl ++ [0].

Lemma path_rest_cons c comps tl : tl = [] \/ tl = [47] -> exists b rest, (b = 0 \/ b = 47) /\
  path_rest (c :: comps) tl = c ++ b :: rest /\
  match comps with
  | [] => (if b =? 47 then rest else b :: rest) = [0]
  | _ => b = 47 /\ rest = path_rest comps tl
  end.
Proof.
  intros Ht. unfold path_rest. destruct comps as [|c2 comps].
  - cbn [join]. destruct Ht as [-> | ->]; [exists 0, []|exists 47, [0]]; auto.
  - exists 47, (join 47 (c2 :: comps) ++ tl ++ [0]). split; [by right|]. split; [|done].
    cbn [join]. by rewrite <- app_assoc.
Qed.

Lemma lookup_loop_spec fuel v root ms q p comps tl : vfs_inv v root ms -> vwalk (vnodes v) root q = Some p ->
  Forall name_ok comps -> tl = [] \/ tl = [47] -> (comps = [] -> tl = []) -> (length comps + 1 < fuel)%nat ->
  exists r v', lookup_loop fuel v (path_rest comps tl) (Some p) = Ok (r, v') /\ vfs_inv v' root ms /\ pfs v' = pfs v /\
    match resolve (pfs v) ms (rev (hashes comps) ++ q) with
    | Some n => exists c, r = Some c /\ vwalk (vnodes v') root (rev (hashes comps) ++ q) = Some c
    | None => r = None
    end.
Proof.
  revert fuel v q p tl. induction comps as [|c comps IH]; intros fuel v q p tl I Hw Hc Ht Hct Hf.
  - destruct fuel as [|fuel]; [lia|]. rewrite Hct by done. cbn. exists (Some p), v. do 3 (split; [done|]).
    destruct (vwalk_in _ _ _ _ _ I Hw) as [x Hx]. destruct (vi_agree _ _ _ I q p x Hw Hx) as (n & _ & _ & ->). eauto.
  - destruct fuel as [|fuel]; [lia|]. inversion Hc as [|? ? Hok Hcs]; subst. destruct Hok as (Hne & Hch & Hlen).
    destruct (path_rest_cons c comps tl Ht) as (b & rest & Hb & -> & Hrest).
    cbn [lookup_loop]. rewrite read_component_spec by done. cbn [mbind outcome_bind lookup list_lookup in_bounds tail].
    destruct c as [|c0 c]; [done|]. cbn [deref mbind outcome_bind].
    destruct (get_child_spec v root ms q p (String_of (c0 :: c)) I Hw) as (r & v' & E & I' & Hp & _ & Hres).
    step_to E. set (h := fst (get_hash (String_of (c0 :: c)))) in *.
    change (hashes ((c0 :: c) :: comps)) with (h :: hashes comps). cbn [rev]. rewrite <- app_assoc. cbn [app].
    destruct (resolve (pfs v) ms (h :: q)) as [n|] eqn:En.
    + destruct Hres as (c' & -> & Hw'). rewrite <- Hp.
      assert ((if b =? 47 then rest else b :: rest) = path_rest comps (if decide (comps = []) then [] else tl)) as ->.
      { destruct comps; [by rewrite decide_True|]. rewrite decide_False by done. by destruct Hrest as [-> ->]. }
      apply IH; try done; [case_decide; auto|by intros ->|cbn in Hf; lia].
    + subst r. exists None, v'. do 3 (split; [done|]).
      assert (forall l, resolve (pfs v) ms (rev l ++ h :: q) = None) as ->; [|done].
      intros l. induction l as [|k l IHl] using rev_ind; [done|]. rewrite rev_app_distr. cbn [rev app resolve].
      by rewrite IHl.
Qed.

Lemma join_length (c : list Z) comps :
  length (join 47 (c :: comps)) = (length c + length (concat comps) + length comps)%nat.
Proof.
  revert c. induction comps as [|c2 comps IH]; intros c; [cbn; lia|].
  change (join 47 (c :: c2 :: comps)) with (c ++ 47 :: join 47 (c2 :: comps)). lens. rewrite IH.
  cbn [concat]. lens. lia.
Qed.

(** The path [/c1/c2/...], with or without a slash at its end. *)
Definition path_of (comps : list (list Z)) (tl : list Z) : String := String_of (47 :: join 47 comps ++ tl).

Lemma lookup_node_spec v root ms comps tl : vfs_inv v root ms -> Forall name_ok comps ->
  tl = [] \/ tl = [47] -> (comps = [] -> tl = []) ->
  exists r v', lookup_node v (path_of comps tl) = Ok (r, v') /\ vfs_inv v' root ms /\ pfs v' = pfs v /\
    match resolve (pfs v) ms (rev (hashes comps)) with
    | Some n => exists c, r = Some c /\ vwalk (vnodes v') root (rev (hashes comps)) = Some c
    | None => r = None
    end.
Proof.
  intros I Hc Ht Hct. unfold lookup_node, path_of. cbn [String_of _data app in_bounds lookup list_lookup mbind outcome_bind Z.eqb Pos.eqb negb tail].
  rewrite (vi_root _ _ _ I). rewrite <- app_assoc. fold (path_rest comps tl).
  destruct comps as [|c comps].
  - rewrite Hct by done. cbn. exists (Some root), v. do 3 (split; [done|]).
    destruct (vi_root_in _ _ _ I) as [x Hx]. destruct (vi_agree _ _ _ I [] root x eq_refl Hx) as (n & _ & _ & En).
    cbn in En. rewrite En. eauto.
  - destruct (path_rest_cons c comps tl Ht) as (b & rest & Hb & E & _).
    inversion Hc as [|? ? (Hne & Hch & Hlen) _]; subst. destruct c as [|c0 c]; [done|].
    assert (in_bounds (path_rest ((c0 :: c) :: comps) tl !! 0%nat) = Ok c0) as Ehd by (by rewrite E).
    inversion Hch as [|? ? [Hc0 _] _]; subst. step_to Ehd. rewrite (eqb_false c0 0) by done.
    rewrite <- (app_nil_r (rev _)). apply lookup_loop_spec; try done.
    pose proof (join_length (c0 :: c) comps). unfold path_rest. lens. cbn [length] in *. lia.
Qed.

(** [open] and [opendir] work on the node the name space gives. *)
Lemma open_spec v root ms comps tl flags : vfs_inv v root ms -> Forall name_ok comps ->
  tl = [] \/ tl = [47] -> (comps = [] -> tl = []) ->
  exists v', vfs_inv v' root ms /\ pfs v' = pfs v /\
    open v (path_of comps tl) flags =
      match resolve (pfs v) ms (rev (hashes comps)) with
      | Some n => f ← pfs_open (pfs v) n; Ok (f, v')
      | None => Ok (None, v')
      end.
Proof.
  intros I Hc Ht Hct. destruct (lookup_node_spec v root ms comps tl I Hc Ht Hct) as (r & v' & E & I' & Hp & Hr).
  exists v'. do 2 (split; [done|]). unfold open. step_to E. rewrite <- Hp in *.
  destruct (resolve _ _ _) as [n|] eqn:En; [|by subst r]. destruct Hr as (c & -> & Hw).
  destruct (vwalk_in _ _ _ _ _ I' Hw) as [x Hx]. destruct (vi_agree _ _ _ I' _ _ _ Hw Hx) as (m & Hm & _ & Em).
  unfold vnode. rewrite Hx. cbn [in_bounds mbind outcome_bind]. rewrite Hm. congruence.
Qed.

Lemma opendir_spec v root ms comps tl flags : vfs_inv v root ms -> Forall name_ok comps ->
  tl = [] \/ tl = [47] -> (comps = [] -> tl = []) ->
  exists v', vfs_inv v' root ms /\ pfs v' = pfs v /\
    opendir v (path_of comps tl) flags =
      match resolve (pfs v) ms (rev (hashes comps)) with
      | Some n => d ← pfs_opendir (pfs v) n; Ok (d, v')
      | None => Ok (None, v')
      end.
Proof.
  intros I Hc Ht Hct. destruct (lookup_node_spec v root ms comps tl I Hc Ht Hct) as (r & v' & E & I' & Hp & Hr).
  exists v'. do 2 (split; [done|]). unfold opendir. step_to E. rewrite <- Hp in *.
  destruct (resolve _ _ _) as [n|] eqn:En; [|by subst r]. destruct Hr as (c & -> & Hw).
  destruct (vwalk_in _ _ _ _ _ I' Hw) as [x Hx]. destruct (vi_agree _ _ _ I' _ _ _ Hw Hx) as (m & Hm & _ & Em).
  unfold vnode. rewrite Hx. cbn [in_bounds mbind outcome_bind]. rewrite Hm. congruence.
Qed.

(** ** Changes of the physical file systems *)

(** Nothing that was there disappears. *)
Definition pfs_grows (s s' : S) : Prop :=
  ok s' /\ (forall n, live s n -> live s' n) /\
  forall n h c, live s n -> kids s n h = Some c -> kids s' n h = Some c.

Lemma resolve_grows v root ms s' q n : vfs_inv v root ms -> pfs_grows (pfs v) s' ->
  resolve (pfs v) ms q = Some n -> resolve s' ms q = Some n.
Proof.
  intros I (Hok & Hl & Hk). revert n. induction q as [|h r IH]; intros n E; [done|]. cbn in E |- *.
  destruct (resolve (pfs v) ms r) as [m|] eqn:Er; [|done]. rewrite (IH m) by done. cbn in E |- *.
  case_match; [done|]. apply Hk; [by eapply resolve_live|done].
Qed.

Lemma vfs_inv_pfs v root ms s' : vfs_inv v root ms -> pfs_grows (pfs v) s' -> vfs_inv (set_pfs v s') root ms.
Proof.
  intros I G. pose proof G as (Hok & Hl & Hk). split; try apply I; [exact Hok|].
  intros q p x Hw Hx. destruct (vi_agree _ _ _ I q p x Hw Hx) as (n & Hn & Hln & Hr).
  exists n. split; [done|]. split; [by apply Hl|]. by eapply resolve_grows.
Qed.

Lemma create_grows s fn dev fs s' : ok s -> pfs_create s fn dev = Ok (fs, s') -> pfs_grows s s'.
Proof.
  intros Hok E. destruct (law_create s fn dev fs s' Hok E) as (Hok' & Hl).
  split; [done|]. split; [intros n Hn; by apply Hl|]. intros n h c Hn. by rewrite (proj2 (Hl n Hn)).
Qed.

(** ** Making a directory *)
Lemma mkdir_spec v root ms q p n name : vfs_inv v root ms -> vwalk (vnodes v) root q = Some p ->
  resolve (pfs v) ms q = Some n -> resolve (pfs v) ms (fst (get_hash name) :: q) = None ->
  exists r v', mkdir v p name = Ok (r, v') /\ vfs_inv v' root ms /\
    (forall q' m, resolve (pfs v) ms q' = Some m -> resolve (pfs v') ms q' = Some m) /\
    match r with
    | Some c => vwalk (vnodes v') root (fst (get_hash name) :: q) = Some c /\
        exists d, pfs_mkdir (pfs v) n name = Ok (Some d, pfs v') /\
          resolve (pfs v') ms (fst (get_hash name) :: q) = Some d
    | None => v' = v /\ pfs_mkdir (pfs v) n name = Ok (None, pfs v)
    end.
Proof.
  intros I Hw Hr Hn. destruct (vwalk_in _ _ _ _ _ I Hw) as [x Hx].
  destruct (vi_agree _ _ _ I q p x Hw Hx) as (n' & Hpn & Hl & Hr'). assert (n' = n) as -> by congruence. clear Hr'.
  pose proof Hn as Hk. cbn in Hk. rewrite Hr in Hk. cbn in Hk.
  destruct (ms !! (fst (get_hash name) :: q)) eqn:Em; [done|].
  unfold mkdir, vnode. rewrite Hx. cbn [in_bounds mbind outcome_bind]. rewrite Hpn.
  destruct (law_mkdir (pfs v) n name (vi_pfs _ _ _ I) Hl Hk) as [E|(c & s' & E & Hok & Hlc & Hkn & Hko)]; step_to E.
  { exists None, v. by destruct v. }
  assert (pfs_grows (pfs v) s') as G.
  { split; [done|]. split; [intros m Hm; by apply Hko|]. intros m h d Hm. by apply Hko. }
  pose proof (vfs_inv_pfs v root ms s' I G) as I'.
  destruct (get_child_spec (set_pfs v s') root ms q p name I' Hw) as (r & v' & E2 & I2 & Hp2 & _ & Hres).
  rewrite E2. exists r, v'. split; [done|]. split; [done|]. rewrite Hp2. change (pfs (set_pfs v s')) with s' in *.
  assert (resolve s' ms (fst (get_hash name) :: q) = Some c) as Hc.
  { cbn [resolve]. rewrite (resolve_grows v root ms s' q n I G Hr). cbn. by rewrite Em, Hkn. }
  rewrite Hc in Hres. destruct Hres as (c' & -> & Hc').
  split; [intros q' m Hq'; by apply (resolve_grows v root ms)|]. split; [done|]. exists c. by rewrite E.
Qed.

(** ** Mounting *)
Section mounting.
Context v root ms (I : vfs_inv v root ms).
Context (q : list Z) (p : Z) (x : VFSNode N) (n : N) (children : Map Z).
Context (Hw : vwalk (vnodes v) root q = Some p) (Hx : vnodes v !! p = Some x).
Context (Hch : represents children ∅) (Hn : live (pfs v) n).

Let x' := {| _vparent := _vparent x; _pn := Some n; _vchildren := children |}.
Let v' := set_vnode v p x'.

(** What was reached through the mount point is no longer reached. *)
Lemma vwalk_mounted q' :
  vwalk (vnodes v') root q' = if decide (q `suffix_of` q' /\ q' <> q) then None else vwalk (vnodes v) root q'.
Proof.
  change (vnodes v') with (<[p := x']> (vnodes v)). induction q' as [|k r IH].
  - rewrite decide_False; [done|]. intros [Hs Hne]. apply suffix_nil_inv in Hs. congruence.
  - cbn [vwalk]. rewrite IH. destruct (decide (r = q)) as [->|Hrq].
    + rewrite decide_False by naive_solver. rewrite Hw. cbn [mbind option_bind]. rewrite lookup_insert_eq.
      cbn [mbind option_bind]. rewrite (proj2 (vkid_spec x' ∅ k Hch)), lookup_empty.
      rewrite decide_True; [done|]. split; [by apply suffix_cons_r|]. intros E. apply (f_equal length) in E. cbn in E. lia.
    + destruct (decide (q `suffix_of` r)) as [Hs|Hs].
      * rewrite decide_True by done. rewrite decide_True; [done|]. split; [by apply suffix_cons_r|].
        intros <-. apply suffix_length in Hs. cbn in Hs. lia.
      * rewrite decide_False by tauto. rewrite decide_False by (intros [[H1|H1]%suffix_cons_case H2]; congruence).
        destruct (vwalk (vnodes v) root r) as [p'|] eqn:Er; [|done]. cbn [mbind option_bind].
        rewrite lookup_insert_ne; [done|]. intros <-. apply Hrq. by apply (vi_inj _ _ _ I _ _ p).
Qed.

Lemma resolve_mounted q' : ~ q `suffix_of` q' -> resolve (pfs v) (mount_at ms q n) q' = resolve (pfs v) ms q'.
Proof.
  intros Hs. apply resolve_ext; [|done|by intros; eapply resolve_live].
  intros r Hr. unfold mount_at. assert (~ q `suffix_of` r) as Hqr by (intros Hq; apply Hs; by etrans).
  rewrite lookup_insert_ne by (by intros ->). destruct (ms !! r) eqn:E.
  - by apply map_lookup_filter_Some.
  - apply map_lookup_filter_None. by left.
Qed.

Lemma resolve_mount_point : resolve (pfs v) (mount_at ms q n) q = Some n.
Proof.
  assert (mount_at ms q n !! q = Some n) as Hq by apply lookup_insert_eq.
  pose proof resolve_mounted as Hrm. clear Hch. destruct q as [|h r]; [done|]. cbn [resolve].
  rewrite Hq. rewrite Hrm by (intros Hs; apply suffix_length in Hs; cbn in Hs; lia).
  cbn in Hw. destruct (vwalk (vnodes v) root r) as [p'|] eqn:Er; [|done].
  destruct (vwalk_in _ _ _ _ _ I Er) as [y Hy]. destruct (vi_agree _ _ _ I _ _ _ Er Hy) as (m & _ & _ & ->). done.
Qed.

Lemma vfs_inv_mounted : vfs_inv v' root (mount_at ms q n).
Proof.
  assert (forall c, is_Some (vnodes v !! c) -> is_Some (vnodes v' !! c)) as Hmono.
  { intros c Hc. change (vnodes v') with (<[p := x']> (vnodes v)). rewrite lookup_insert_is_Some.
    destruct (decide (p = c)); [by left|by right]. }
  split; try apply I.
  - intros c. change (vnodes v') with (<[p := x']> (vnodes v)). change (next_vnode v') with (next_vnode v).
    rewrite lookup_insert_is_Some. intros [<-|[_ Hc]]; apply (vi_live _ _ _ I); eauto.
  - apply Hmono, I.
  - intros c y Hy. change (vnodes v') with (<[p := x']> (vnodes v)) in Hy.
    apply lookup_insert_Some in Hy as [[<- <-]|[Hc Hy]].
    + exists ∅. split; [done|]. intros h c. by rewrite lookup_empty.
    + destruct (vi_kids _ _ _ I c y Hy) as (g & Hg & Hk). exists g. split; [done|]. eauto.
  - intros q1 q2 c. rewrite !vwalk_mounted. repeat case_decide; try done. apply (vi_inj _ _ _ I).
  - intros q' c y. rewrite vwalk_mounted. case_decide as Hs; [done|]. intros Hc Hy.
    change (vnodes v') with (<[p := x']> (vnodes v)) in Hy. change (pfs v') with (pfs v).
    destruct (decide (q' = q)) as [->|Hq'].
    + assert (c = p) as -> by congruence. rewrite lookup_insert_eq in Hy. injection Hy as <-.
      exists n. split; [done|]. split; [done|]. apply resolve_mount_point.
    + rewrite lookup_insert_ne in Hy by (intros <-; apply Hq'; by apply (vi_inj _ _ _ I _ _ p)).
      rewrite resolve_mounted by tauto. apply (vi_agree _ _ _ I q' c y Hc Hy).
  - intros q' [m Hm]. rewrite vwalk_mounted. unfold mount_at in Hm. rewrite decide_False.
    + apply lookup_insert_Some in Hm as [[<- _]|[_ Hm]]; [by rewrite Hw|].
      apply map_lookup_filter_Some in Hm as [Hm _]. apply (vi_mounts _ _ _ I); eauto.
    + intros [Hs Hne]. apply lookup_insert_Some in Hm as [[? _]|[_ Hm]]; [done|].
      apply map_lookup_filter_Some in Hm as [_ Hm]. done.
Qed.
End mounting.

Lemma mount_grows s fs root s' : ok s -> pfs_mount s fs = Ok (root, s') ->
  pfs_grows s s' /\ forall r, root = Some r -> live s' r.
Proof.
  intros Hok E. destruct (law_mount s fs root s' Hok E) as (Hok' & Hr & Hl). split; [|done]. split; [done|].
  split; [intros n Hn; by apply Hl|]. intros n h c Hn. by rewrite (proj2 (Hl n Hn)).
Qed.

(** Mounting a registered file system that can be created and mounted shows
    its root at the mount point, and hides what was below. *)
Lemma mount_spec v root ms q p fstype dev reg fs s1 n s2 : vfs_inv v root ms ->
  vwalk (vnodes v) root q = Some p -> lookup_fs v fstype = Ok (Some reg) ->
  pfs_create (pfs v) (creation_fn reg) dev = Ok (Some fs, s1) -> pfs_mount s1 fs = Ok (Some n, s2) ->
  exists v', mount v p fstype dev = Ok (Some fs, v') /\ vfs_inv v' root (mount_at ms q n) /\ pfs v' = s2 /\
    vwalk (vnodes v') root q = Some p.
Proof.
  intros I Hw El Ec Em. pose proof (vi_pfs _ _ _ I) as Hok.
  pose proof (create_grows _ _ _ _ _ Hok Ec) as G1.
  pose proof (vfs_inv_pfs v root ms s1 I G1) as I1.
  destruct (mount_grows s1 fs _ s2 (vi_pfs _ _ _ I1) Em) as [G2 Hl].
  pose proof (vfs_inv_pfs _ root ms s2 I1 G2) as I2.
  destruct (vwalk_in _ _ _ _ _ I Hw) as [x Hx]. destruct (vi_kids _ _ _ I p x Hx) as (g & Hg & _).
  destruct (represents_clear _ _ Hg) as (children & Ecl & Hch).
  unfold mount. step_to El. rewrite Ec. cbn [mbind outcome_bind]. change (pfs (set_pfs v s1)) with s1. step_to Em.
  unfold vnode. change (vnodes (set_pfs (set_pfs v s1) s2)) with (vnodes v). rewrite Hx. cbn [in_bounds mbind outcome_bind].
  step_to Ecl. eexists. split; [done|].
  pose proof (vfs_inv_mounted _ root ms I2 q p x n children Hw Hx Hch (Hl n eq_refl)) as I3. split; [exact I3|].
  split; [done|]. rewrite (vwalk_mounted _ root ms I2 q p x n children Hw Hch). rewrite decide_False by naive_solver. done.
Qed.

(** Where a step fails, the name space stays as it was. *)
Lemma mount_failed v root ms q p fstype dev v' : vfs_inv v root ms -> vwalk (vnodes v) root q = Some p ->
  mount v p fstype dev = Ok (None, v') -> vfs_inv v' root ms /\ vnodes v' = vnodes v.
Proof.
  intros I Hw E. unfold mount in E. destruct (lookup_fs v fstype) as [[reg|]|f]; cbn [mbind outcome_bind] in E; try done.
  2: by injection E as <-.
  destruct (pfs_create (pfs v) (creation_fn reg) dev) as [[fs s1]|f] eqn:E1; cbn [mbind outcome_bind] in E; [|done].
  pose proof (create_grows _ _ _ _ _ (vi_pfs _ _ _ I) E1) as G1.
  pose proof (vfs_inv_pfs v root ms s1 I G1) as I1. destruct fs as [fs|]; [|by injection E as <-].
  cbv zeta in E. change (pfs (set_pfs v s1)) with s1 in E. destruct (pfs_mount s1 fs) as [[[n|] s2]|f] eqn:E2; cbn [mbind outcome_bind] in E; try done.
  - destruct (vwalk_in _ _ _ _ _ I Hw) as [x Hx]. unfold vnode in E. cbv zeta in E.
    change (vnodes (set_pfs (set_pfs v s1) s2)) with (vnodes v) in E. rewrite Hx in E.
    cbn [in_bounds mbind outcome_bind] in E. by destruct (clear (_vchildren x)).
  - injection E as <-. split; [|done]. apply (vfs_inv_pfs _ root ms s2 I1). apply (mount_grows s1 fs None s2 (vi_pfs _ _ _ I1) E2).
Qed.

(** ** The table of registrations *)
Lemma get_child_regs v p name c v' : get_child v p name = Ok (c, v') -> _filesystems v' = _filesystems v.
Proof.
  intros E. unfold get_child in E. apply bind_Ok_inv in E as (x & _ & E). destruct (_pn x) as [pn|]; [|by injection E as _ <-].
  apply bind_Ok_inv in E as ([d|] & _ & E); [by injection E as _ <-|].
  apply bind_Ok_inv in E as ([a|] & _ & E); [|by injection E as _ <-].
  cbn [new_vnode] in E. apply bind_Ok_inv in E as (ch & _ & E). by injection E as _ <-.
Qed.

Lemma mkdir_regs v p name c v' : mkdir v p name = Ok (c, v') -> _filesystems v' = _filesystems v.
Proof.
  intros E. unfold mkdir in E. apply bind_Ok_inv in E as (x & _ & E). destruct (_pn x) as [pn|]; [|by injection E as _ <-].
  apply bind_Ok_inv in E as ([[d|] s] & _ & E); [|by injection E as _ <-]. by apply get_child_regs in E.
Qed.

Lemma mount_regs v p fstype dev fs v' : mount v p fstype dev = Ok (fs, v') -> _filesystems v' = _filesystems v.
Proof.
  intros E. unfold mount in E. apply bind_Ok_inv in E as ([reg|] & _ & E); [|by injection E as _ <-].
  apply bind_Ok_inv in E as ([[f|] s] & _ & E); [|by injection E as _ <-].
  apply bind_Ok_inv in E as ([[n|] s2] & _ & E); [|by injection E as _ <-].
  apply bind_Ok_inv in E as (x & _ & E). apply bind_Ok_inv in E as (ch & _ & E). by injection E as _ <-.
Qed.

(** Looking a registration up finds the one with the name, wherever it is in
    the table. *)
Definition reg_named (reg : FilesystemRegistration) (name : list Z) : Prop :=
  fsreg_name reg = name ++ [0] /\ Forall (fun c => c <> 0) name /\ (length name <= 16)%nat.

Lemma lookup_fs_spec regs fstype reg : Forall (fun r => exists name, reg_named r name) regs ->
  NoDup (fsreg_name <$> regs) -> reg ∈ regs -> reg_named reg (_data fstype) ->
  lookup_fs_loop regs fstype = Ok (Some reg).
Proof.
  intros Hr Hnd Hin (Hn & Hnz & Hl). induction Hr as [|r regs (name & Hrn & Hrz & Hrl) Hr IH]; [by apply not_elem_of_nil in Hin|].
  cbn [lookup_fs_loop]. assert (strncmp (fsreg_name r) (_data fstype ++ [0]) 16 =
    Ok (if decide (name = _data fstype) then 0 else -1)) as E.
  { rewrite Hrn. unfold strncmp, strlen. rewrite !strlen_loop_spec by (done || lia). cbn [mbind outcome_bind].
    destruct (Z.eqb_spec (0 + Z.of_nat (length name)) (0 + Z.of_nat (length (_data fstype)))) as [He|Hne]; cbn [negb].
    - apply strncmp_loop_spec; try done; lia.
    - rewrite decide_False; [done|congruence]. }
  step_to E. inversion Hnd as [|? ? Hni Hnd2]; subst. apply elem_of_cons in Hin as [->|Hin].
  - rewrite Hn in Hrn. apply app_inj_tail in Hrn as [-> _]. by rewrite decide_True.
  - rewrite decide_False; [by apply IH|]. intros ->. apply Hni. rewrite Hrn, <- Hn. apply list_elem_of_fmap. eauto.
Qed.

(** ** Initialisation *)

(** The state of [VirtualFilesystem::VirtualFilesystem]. *)
Definition vfs_fresh (v : VirtualFilesystem S N) : Prop := _root_node v = None /\ _filesystems v = [] /\ vnodes v = ∅ /\ ok (pfs v).

Lemma vfs_init_spec v regs reg fs s1 n s2 : vfs_fresh v ->
  lookup_fs_loop (_filesystems v ++ regs) rootfs_name = Ok (Some reg) ->
  pfs_create (pfs v) (creation_fn reg) None = Ok (Some fs, s1) -> pfs_mount s1 fs = Ok (Some n, s2) ->
  exists v', init v regs = Ok (true, v') /\ vfs_inv v' (next_vnode v) {[ [] := n ]} /\ pfs v' = s2 /\
    _filesystems v' = _filesystems v ++ regs.
Proof.
  intros (Hr & _ & Hv & Hok) El Ec Em. unfold init, instantiate_fs, lookup_fs. cbn [_filesystems pfs set_pfs].
  step_to El. step_to Ec. cbn [deref mbind outcome_bind pfs set_pfs]. step_to Em. eexists. split; [done|].
  destruct (law_create _ _ _ _ _ Hok Ec) as [Hok1 _].
  destruct (mount_grows s1 fs _ s2 Hok1 Em) as [(Hok2 & _) Hl]. split; [|done].
  cbn [new_vnode set_pfs vnodes next_vnode pfs snd]. rewrite Hv.
  assert (forall q, vwalk {[next_vnode v := VFSNode_new None (Some n)]} (next_vnode v) q =
    if decide (q = []) then Some (next_vnode v) else None) as Hwalk.
  { intros q. induction q as [|h r IH]; [done|]. cbn [vwalk]. rewrite IH. rewrite (decide_False (P := h :: r = [])) by done.
    case_decide; [|done]. cbn [mbind option_bind]. rewrite lookup_singleton_eq. cbn [mbind option_bind].
    rewrite (proj2 (vkid_spec (VFSNode_new None (Some n)) ∅ h represents_new)). apply lookup_empty. }
  rewrite insert_empty. split; cbn [_root_node pfs vnodes next_vnode]; try done.
  - intros q. rewrite lookup_singleton_is_Some. intros ->. lia.
  - rewrite lookup_singleton_eq. eauto.
  - intros q x [<- <-]%lookup_singleton_Some. exists ∅. split; [apply represents_new|]. intros k c. by rewrite lookup_empty.
  - intros q1 q2 c. rewrite !Hwalk. repeat case_decide; congruence.
  - intros q c x. rewrite Hwalk. case_decide as Hq; [|done]. intros [= <-] [_ <-]%lookup_singleton_Some.
    exists n. subst q. split; [done|]. split; [by apply Hl|]. apply lookup_singleton_eq.
  - intros q [m [<- _]%lookup_singleton_Some]. rewrite Hwalk. eauto.
Qed.
End vfs.
