(* ===== verification/Devices.v ===== *)
(** * infos/kernel/device-manager.cpp, drivers/device.h: devices by name and class

    A device class is known by its address, like a device.  What [init] does is
    up to the driver and a parameter. *)
From S2P Require Import Prelude RBMap RBMapRep RBMapProof RBMapTheorems CString CStringProof.

Record DeviceClass := { dc_parent : option Z; dc_name : list Z; instance : Z }.
Record Device := { device_class : Z; _dname : String }.

(** The registered devices by the hash of their names, with the memory of the
    classes and the devices. *)
Record DeviceManager := {
  _devices : Map Z;
  device_classes : gmap Z DeviceClass;
  device_memory : gmap Z Device
}.

Definition class_at (dm : DeviceManager) (c : Z) : outcome DeviceClass := in_bounds (device_classes dm !! c).
Definition device_at (dm : DeviceManager) (d : Z) : outcome Device := in_bounds (device_memory dm !! d).

(** [DeviceClass::is] follows the parents. *)
Fixpoint is_loop (fuel : nat) (dm : DeviceManager) (c type : Z) : outcome bool :=
  match fuel with
  | O => Fault OutOfFuel
  | S fuel =>
      if c =? type then Ok true
      else
        x ← class_at dm c;
        match dc_parent x with
        | Some parent => is_loop fuel dm parent type
        | None => Ok false
        end
  end.

Definition is_ (dm : DeviceManager) (c type : Z) : outcome bool :=
  is_loop (S (size (device_classes dm))) dm c type.

Definition acquire_instance (dm : DeviceManager) (c : Z) : outcome (Z * DeviceManager) :=
  x ← class_at dm c;
  Ok (instance x,
      {| _devices := _devices dm; device_memory := device_memory dm;
         device_classes := <[c := {| dc_parent := dc_parent x; dc_name := dc_name x;
                                     instance := u64 (instance x + 1) |}]> (device_classes dm) |}).

Definition assign_name (dm : DeviceManager) (d : Z) (name : String) : outcome DeviceManager :=
  x ← device_at dm d;
  Ok {| _devices := _devices dm; device_classes := device_classes dm;
        device_memory := <[d := {| device_class := device_class x; _dname := name |}]> (device_memory dm) |}.

Definition add_device (dm : DeviceManager) (name : String) (d : Z) : outcome DeviceManager :=
  m ← add (_devices dm) (fst (get_hash name)) d;
  Ok {| _devices := m; device_classes := device_classes dm; device_memory := device_memory dm |}.

(** [register_device] up to the call of [init]. *)
Definition name_device (dm : DeviceManager) (d : Z) : outcome DeviceManager :=
  x ← device_at dm d;
  '(instance, dm) ← acquire_instance dm (device_class x);
  c ← class_at dm (device_class x);
  cname ← String_cstr (dc_name c);
  let name := String_add cname (ToString instance) in
  dm ← assign_name dm d name;
  add_device dm name d.

Definition register_device (dev_init : DeviceManager -> Z -> outcome (bool * DeviceManager))
    (dm : DeviceManager) (d : Z) : outcome (bool * DeviceManager) :=
  dm ← name_device dm d;
  '(ok, dm) ← dev_init dm d;
  if negb ok then Ok (false, dm) else Ok (true, dm).

(** [Device::init] unless a driver overrides it. *)
Definition Device_init (dm : DeviceManager) (d : Z) : outcome (bool * DeviceManager) := Ok (true, dm).

Definition add_device_alias (dm : DeviceManager) (name : String) (d : Z) : outcome (bool * DeviceManager) :=
  dm ← add_device dm name d;
  Ok (true, dm).

(** The devices in the order of the map. *)
Fixpoint find_by_class (dm : DeviceManager) (type : Z) (l : list (Z * Z)) : outcome (option Z) :=
  match l with
  | [] => Ok None
  | (_, d) :: l =>
      x ← device_at dm d;
      b ← is_ dm (device_class x) type;
      if b : bool then Ok (Some d) else find_by_class dm type l
  end.

Definition try_get_device_by_class (dm : DeviceManager) (type : Z) : outcome (option Z) :=
  l ← items (_devices dm);
  find_by_class dm type l.

Definition try_get_device_by_name (dm : DeviceManager) (name : String) : outcome (option Z) :=
  try_get_value (_devices dm) (fst (get_hash name)).

(** ** Device names, and the classes of devices as a tree *)


#[local] Arguments wrap : simpl never.

(** ** Numbers as text *)
Definition digits_value (l : list Z) : Z := foldl (fun v c => 10 * v + (c - 48)) 0 l.

Lemma to_string_loop_value i v acc : 0 <= v < 10 ^ Z.of_nat i ->
  digits_value (to_string_loop i v acc) = foldl (fun v c => 10 * v + (c - 48)) v acc.
Proof.
  revert v acc. induction i as [|i IH]; intros v acc Hv; cbn [to_string_loop].
  - change (10 ^ Z.of_nat 0) with 1 in Hv. by replace v with 0 by lia.
  - rewrite Nat2Z.inj_succ, Z.pow_succ_r in Hv by lia. destruct (Z.ltb_spec 0 v).
    + rewrite IH by (split; [apply Z.div_pos|apply Z.div_lt_upper_bound]; lia). cbn [foldl]. f_equal.
      pose proof (Z.div_mod v 10). lia.
    + by replace v with 0 by lia.
Qed.

Lemma ToString_spec v : 0 <= v < 10 ^ 16 -> digits_value (_data (ToString v)) = v.
Proof.
  intros Hv. unfold ToString. destruct (Z.eqb_spec v 0) as [->|]; [done|].
  cbn [_data String_of]. by rewrite to_string_loop_value.
Qed.

Lemma ToString_inj v w : 0 <= v < 10 ^ 16 -> 0 <= w < 10 ^ 16 -> _data (ToString v) = _data (ToString w) -> v = w.
Proof. intros Hv Hw E. rewrite <- (ToString_spec v), <- (ToString_spec w) by done. by rewrite E. Qed.

(** ** Classes *)
Definition parent_of (dm : DeviceManager) (c p : Z) : Prop :=
  exists x, device_classes dm !! c = Some x /\ dc_parent x = Some p.

(** Parents exist, and there is no way round: every class is deeper than its
    parent. *)
Record classes_ok (dm : DeviceManager) (depth : Z -> nat) : Prop := {
  cl_depth c : is_Some (device_classes dm !! c) -> (depth c < size (device_classes dm))%nat;
  cl_parent c p : parent_of dm c p -> is_Some (device_classes dm !! p) /\ (depth p < depth c)%nat
}.

Lemma is_loop_spec dm depth fuel c type : classes_ok dm depth -> is_Some (device_classes dm !! c) ->
  (depth c < fuel)%nat -> exists b, is_loop fuel dm c type = Ok b /\ (b = true <-> rtc (parent_of dm) c type).
Proof.
  intros Hok. revert c. induction fuel as [|fuel IH]; intros c [x Hc] Hf; [lia|]. cbn [is_loop].
  destruct (Z.eqb_spec c type) as [->|Hne]; [by exists true|].
  unfold class_at. rewrite Hc. cbn [in_bounds mbind outcome_bind]. destruct (dc_parent x) as [p|] eqn:Ep.
  - assert (parent_of dm c p) as Hp by (by exists x). destruct (cl_parent _ _ Hok c p Hp) as [Hin Hd].
    destruct (IH p Hin ltac:(lia)) as (b & E & Hb). exists b. split; [done|]. rewrite Hb. split; [by apply rtc_l|].
    intros Hr. apply rtc_inv in Hr as [?|(q & (y & Hy & Hq) & Hr)]; [done|]. congruence.
  - exists false. split; [done|]. split; [done|]. intros Hr.
    apply rtc_inv in Hr as [?|(q & (y & Hy & Hq) & Hr)]; [done|]. congruence.
Qed.

Lemma is_spec dm depth c type : classes_ok dm depth -> is_Some (device_classes dm !! c) ->
  exists b, is_ dm c type = Ok b /\ (b = true <-> rtc (parent_of dm) c type).
Proof. intros Hok Hc. apply (is_loop_spec dm depth); [done|done|]. pose proof (cl_depth _ _ Hok c Hc). lia. Qed.

(** ** The manager *)
Record dm_ok (dm : DeviceManager) (depth : Z -> nat) (g : gmap Z Z) : Prop := {
  dm_classes : classes_ok dm depth;
  dm_map : represents (_devices dm) g;
  dm_known h d : g !! h = Some d -> is_Some (device_memory dm !! d);
  dm_class d x : device_memory dm !! d = Some x -> is_Some (device_classes dm !! device_class x)
}.

Lemma by_name_spec dm depth g name : dm_ok dm depth g ->
  try_get_device_by_name dm name = Ok (g !! fst (get_hash name)).
Proof. intros Hok. apply represents_get, Hok. Qed.

Lemma add_device_spec dm depth g name d : dm_ok dm depth g -> is_Some (device_memory dm !! d) ->
  exists dm', add_device dm name d = Ok dm' /\ dm_ok dm' depth (<[fst (get_hash name) := d]> g) /\
    device_memory dm' = device_memory dm /\ device_classes dm' = device_classes dm.
Proof.
  intros [[Hd Hp] Hm Hk Hc] Hin. destruct (represents_add _ _ (fst (get_hash name)) d Hm) as (m & E & Hm').
  unfold add_device. step_to E. eexists. split; [done|]. split; [|done]. split; [split; [exact Hd|exact Hp]|done| |done].
  intros h d' Hh. apply lookup_insert_Some in Hh as [[_ <-]|[_ Hh]]; [done|by apply (Hk h)].
Qed.

(** The name a device of class [x] gets. *)
Definition instance_name (x : DeviceClass) (name : list Z) : String :=
  String_add (String_of name) (ToString (instance x)).

Lemma String_cstr_spec name tail : Forall (fun c => c <> 0) name -> Z.of_nat (length name) < 2 ^ 64 ->
  String_cstr (name ++ 0 :: tail) = Ok (String_of name).
Proof.
  intros Hn Hl. unfold String_cstr, strlen. rewrite strlen_loop_spec by (done || lia).
  cbn [mbind outcome_bind]. rewrite Z.add_0_l, Nat2Z.id, take_app_length. done.
Qed.

Lemma name_device_spec dm depth g d x c name tail : dm_ok dm depth g ->
  device_memory dm !! d = Some x -> device_classes dm !! device_class x = Some c ->
  dc_name c = name ++ 0 :: tail -> Forall (fun c => c <> 0) name -> Z.of_nat (length name) < 2 ^ 64 ->
  exists dm', dm_ok dm' depth (<[fst (get_hash (instance_name c name)) := d]> g) /\
    device_memory dm' = <[d := {| device_class := device_class x; _dname := instance_name c name |}]> (device_memory dm) /\
    device_classes dm' = <[device_class x := {| dc_parent := dc_parent c; dc_name := dc_name c; instance := u64 (instance c + 1) |}]>
      (device_classes dm) /\
    name_device dm d = Ok dm'.
Proof.
  intros [[Hd Hp] Hm Hk Hcl] Hx Hc Hn Hnz Hlen.
  set (c' := {| dc_parent := dc_parent c; dc_name := dc_name c; instance := u64 (instance c + 1) |}).
  set (cs := <[device_class x := c']> (device_classes dm)).
  set (x' := {| device_class := device_class x; _dname := instance_name c name |}).
  set (dm1 := {| _devices := _devices dm; device_classes := cs; device_memory := <[d := x']> (device_memory dm) |}).
  assert (size cs = size (device_classes dm)) as Hsize by (apply map_size_insert_Some; eauto).
  assert (forall k, is_Some (cs !! k) <-> is_Some (device_classes dm !! k)) as Hdom.
  { intros k. unfold cs. rewrite lookup_insert_is_Some. split; [intros [<-|[_ ?]]; eauto|]. intros Hin.
    destruct (decide (device_class x = k)); [by left|by right]. }
  assert (dm_ok dm1 depth g) as Hok.
  { split; [split|exact Hm| |].
    - intros k Hin. cbn. rewrite Hsize. by apply Hd, Hdom.
    - intros k p (y & Hy & Hq). cbn in Hy. assert (parent_of dm k p) as Hpar.
      { apply lookup_insert_Some in Hy as [[<- <-]|[_ Hy]]; [by exists c|by exists y]. }
      destruct (Hp k p Hpar) as [H1 H2]. split; [by apply Hdom|done].
    - intros h e He. cbn. rewrite lookup_insert_is_Some. destruct (decide (d = e)); [by left|]. right. eauto.
    - intros e y Hy. cbn in Hy |- *. apply Hdom. apply lookup_insert_Some in Hy as [[<- <-]|[_ Hy]]; [exact (Hcl d x Hx)|eauto]. }
  destruct (add_device_spec dm1 depth g (instance_name c name) d Hok) as (dm' & E & Hok' & Hmem & Hcs).
  { cbn. rewrite lookup_insert_eq. eauto. }
  exists dm'. split; [done|]. rewrite Hmem, Hcs. cbn [dm1 device_memory device_classes].
  split; [done|]. split; [done|].
  unfold name_device, device_at. rewrite Hx. cbn [in_bounds mbind outcome_bind].
  unfold acquire_instance, class_at. rewrite Hc. cbn [in_bounds mbind outcome_bind device_classes].
  rewrite lookup_insert_eq. cbn [in_bounds mbind outcome_bind dc_name]. rewrite Hn.
  rewrite String_cstr_spec by done. cbn [mbind outcome_bind]. unfold assign_name, device_at. cbn [device_memory].
  rewrite Hx. cbn [in_bounds mbind outcome_bind].
  replace {| _devices := _; device_classes := _; device_memory := _ |} with dm1 by (unfold dm1, cs, c', x'; by rewrite Hn).
  exact E.
Qed.

Lemma register_spec dev_init dm dm' d : name_device dm d = Ok dm' ->
  register_device dev_init dm d = '(ok, dm'') ← dev_init dm' d; Ok (ok, dm'').
Proof. intros E. unfold register_device. step_to E. destruct (dev_init dm' d) as [[[] ?]|]; done. Qed.

Lemma find_by_class_spec dm depth type l : classes_ok dm depth ->
  (forall h d, (h, d) ∈ l -> exists x, device_memory dm !! d = Some x /\ is_Some (device_classes dm !! device_class x)) ->
  exists r, find_by_class dm type l = Ok r /\
    match r with
    | Some d => exists h x, (h, d) ∈ l /\ device_memory dm !! d = Some x /\ rtc (parent_of dm) (device_class x) type
    | None => forall h d x, (h, d) ∈ l -> device_memory dm !! d = Some x -> ~ rtc (parent_of dm) (device_class x) type
    end.
Proof.
  intros Hok. induction l as [|[h d] l IH]; intros Hl.
  { exists None. split; [done|]. intros ? ? ? []%not_elem_of_nil. }
  destruct (Hl h d ltac:(left)) as (x & Hx & Hc). cbn [find_by_class]. unfold device_at. rewrite Hx.
  cbn [in_bounds mbind outcome_bind]. destruct (is_spec dm depth (device_class x) type Hok Hc) as (b & E & Hb).
  step_to E. destruct b.
  - exists (Some d). split; [done|]. exists h, x. split; [left|]. split; [done|]. by apply Hb.
  - destruct IH as (r & E2 & Hr). { intros h2 d2 Hin. apply (Hl h2). by right. }
    exists r. split; [done|]. destruct r as [d2|].
    + destruct Hr as (h2 & y & Hin & Hy & Ht). exists h2, y. split; [by right|done].
    + intros h2 d2 y Hin Hy. apply elem_of_cons in Hin as [[= -> ->]|Hin]; [|by eapply Hr].
      assert (y = x) as -> by congruence. intros Ht. apply Hb in Ht. done.
Qed.

(** Searching the registered devices by class always returns: a device
    whose class is the class asked for or has it among its ancestors, or
    nothing when no registered device has such a class. *)
Lemma by_class_correct dm depth g type : dm_ok dm depth g ->
  exists r, try_get_device_by_class dm type = Ok r /\
    match r with
    | Some d => exists h x, g !! h = Some d /\ device_memory dm !! d = Some x /\
        rtc (parent_of dm) (device_class x) type
    | None => forall h d x, g !! h = Some d -> device_memory dm !! d = Some x ->
        ~ rtc (parent_of dm) (device_class x) type
    end.
Proof.
  intros [Hok Hm Hk Hc]. destruct (represents_items _ _ Hm) as (l & E & Hl). unfold try_get_device_by_class.
  step_to E. assert (forall h d, (h, d) ∈ l <-> g !! h = Some d) as Hin.
  { intros h d. rewrite Hl. apply elem_of_map_to_list. }
  destruct (find_by_class_spec dm depth type l Hok) as (r & E2 & Hr).
  { intros h d [x Hx]%Hin%Hk. exists x. split; [done|by apply (Hc d)]. }
  exists r. split; [done|]. destruct r as [d|].
  - destruct Hr as (h & x & Hh & ?). exists h, x. split; [by apply Hin|done].
  - intros h d x Hh. apply (Hr h). by apply Hin.
Qed.

(** A registered device is named by its class and the number of devices
    registered for it before, in decimal, is found under that name from then
    on and leaves every other name as it was; the next device of the class
    gets the next number. *)
Lemma register_device_correct dm depth g d x c name tail : dm_ok dm depth g ->
  device_memory dm !! d = Some x -> device_classes dm !! device_class x = Some c ->
  dc_name c = name ++ 0 :: tail -> Forall (fun c => c <> 0) name -> Z.of_nat (length name) < 2 ^ 64 ->
  0 <= instance c < 10 ^ 16 ->
  exists dm' digits g', register_device Device_init dm d = Ok (true, dm') /\ dm_ok dm' depth g' /\
    device_memory dm' !! d = Some {| device_class := device_class x; _dname := String_of (name ++ digits) |} /\
    digits_value digits = instance c /\
    (exists c', device_classes dm' !! device_class x = Some c' /\ instance c' = instance c + 1) /\
    forall s, try_get_device_by_name dm' s =
      if decide (fst (get_hash s) = compute_hash (String_of (name ++ digits))) then Ok (Some d)
      else try_get_device_by_name dm s.
Proof.
  intros Hok Hx Hc Hn Hnz Hl Hi.
  destruct (name_device_spec dm depth g d x c name tail Hok Hx Hc Hn Hnz Hl) as (dm' & Hok' & Hd & Hc' & E%(register_spec Device_init)).
  exists dm', (_data (ToString (instance c))). eexists. split; [exact E|]. split; [exact Hok'|].
  split; [rewrite Hd; apply lookup_insert_eq|]. split; [by apply ToString_spec|]. split.
  { eexists. rewrite Hc'. split; [apply lookup_insert_eq|]. cbn [instance]. apply wrap_small. lia. }
  intros s. rewrite (by_name_spec dm' depth _ s Hok'), (by_name_spec dm depth g s Hok).
  change (fst (get_hash (instance_name c name))) with (compute_hash (String_of (name ++ _data (ToString (instance c))))).
  case_decide as Hs; [by rewrite Hs, lookup_insert_eq|by rewrite lookup_insert_ne].
Qed.

(** Two classes, "block" under "dev", and a device of the second. *)
Definition small_devices : DeviceManager := {|
  _devices := Map_new;
  device_classes := {[ 1 := {| dc_parent := None; dc_name := [100; 101; 118; 0]; instance := 0 |};
                       2 := {| dc_parent := Some 1; dc_name := [98; 108; 107; 0]; instance := 12 |} ]};
  device_memory := {[ 5 := {| device_class := 2; _dname := String_empty |} ]}
|}.

Lemma small_devices_ok : dm_ok small_devices (fun c => Z.to_nat (c - 1)) ∅.
Proof.
  split; [split| | |].
  - intros c [x Hc]. change (size _) with 2%nat. cbn in Hc.
    apply lookup_insert_Some in Hc as [[<- _]|[_ [<- _]%lookup_singleton_Some]]; cbn; lia.
  - intros c p (x & Hc & Hp). cbn in Hc.
    apply lookup_insert_Some in Hc as [[<- <-]|[_ [<- <-]%lookup_singleton_Some]]; [done|].
    injection Hp as <-. split; [eexists; reflexivity|cbn; lia].
  - apply represents_new.
  - intros h d Hh. by rewrite lookup_empty in Hh.
  - intros d x Hd. cbn in Hd. apply lookup_singleton_Some in Hd as [<- <-]. eexists; reflexivity.
Qed.

Lemma by_class_correct_witness : exists r, try_get_device_by_class small_devices 1 = Ok r.
Proof. destruct (by_class_correct small_devices _ ∅ 1 small_devices_ok) as (r & E & _). by exists r. Defined.

Lemma register_device_correct_witness : exists dm', register_device Device_init small_devices 5 = Ok (true, dm').
Proof.
  destruct (register_device_correct small_devices (fun c => Z.to_nat (c - 1)) ∅ 5 _ _ [98; 108; 107] [] small_devices_ok eq_refl
    eq_refl eq_refl ltac:(repeat constructor; lia) ltac:(cbn; lia) ltac:(cbn; lia)) as (dm' & _ & _ & E & _).
  by exists dm'.
Defined.
