(* ===== verification/Pfs.v ===== *)
(** * infos/fs: the physical file systems

    rootfs.cpp, tmpfs.cpp, devfs.cpp, vfat.cpp and directory.cpp, together with
    the two archive file systems of [TarFS] and [InternalDriver].  A physical
    node is a value that says which class it is of and where its data is; the
    nodes of tmpfs and the file systems themselves live in memory.  They are the
    instance [all_filesystems] of the interface of the virtual file system. *)
From S2P Require Import Prelude Define RBMap RBMapRep RBMapProof RBMapTheorems CString CStringProof Vfs VfsProof TarFS TarFSProof InternalDriver Devices.

Inductive Filesystem :=
| RootFS
| TempFS
| DeviceFS
| VFAT (bdev : BlockDevice)
| TarFileSystem (t : TarFS)
| InternalFS (t : TarFS).

Inductive PFSNode :=
| RootFSNode
| TempFSNodeAt (p : Z)
| DeviceFSRootNode
| DeviceFSNode (dev : Z)
| VFATNode
| TarNode (fs p : Z).

Record TempFSNode := { _tname : String; _tchildren : Map Z }.

Definition TempFSNode_new (name : String) : TempFSNode := {| _tname := name; _tchildren := Map_new |}.

Record Physical := {
  device_manager : DeviceManager;
  filesystems : gmap Z Filesystem;
  next_filesystem : Z;
  temp_nodes : gmap Z TempFSNode;
  next_temp : Z
}.

Definition set_filesystem (s : Physical) (p : Z) (fs : Filesystem) : Physical :=
  {| device_manager := device_manager s; filesystems := <[p := fs]> (filesystems s);
     next_filesystem := next_filesystem s; temp_nodes := temp_nodes s; next_temp := next_temp s |}.
Definition new_filesystem (s : Physical) (fs : Filesystem) : Z * Physical :=
  (next_filesystem s,
   {| device_manager := device_manager s; filesystems := <[next_filesystem s := fs]> (filesystems s);
      next_filesystem := next_filesystem s + 1; temp_nodes := temp_nodes s; next_temp := next_temp s |}).
Definition set_temp (s : Physical) (p : Z) (n : TempFSNode) : Physical :=
  {| device_manager := device_manager s; filesystems := filesystems s;
     next_filesystem := next_filesystem s; temp_nodes := <[p := n]> (temp_nodes s); next_temp := next_temp s |}.
Definition new_temp (s : Physical) (name : String) : Z * Physical :=
  (next_temp s,
   {| device_manager := device_manager s; filesystems := filesystems s; next_filesystem := next_filesystem s;
      temp_nodes := <[next_temp s := TempFSNode_new name]> (temp_nodes s); next_temp := next_temp s + 1 |}).
Definition temp_node (s : Physical) (p : Z) : outcome TempFSNode := in_bounds (temp_nodes s !! p).
Definition filesystem_at (s : Physical) (p : Z) : outcome Filesystem := in_bounds (filesystems s !! p).

(** The archive a node belongs to: its device, whether the built-in driver
    reads it, and its nodes. *)
Definition archive_of (s : Physical) (fs : Z) : outcome (BlockDevice * bool * Nodes) :=
  x ← filesystem_at s fs;
  match x with
  | TarFileSystem t => '(_, nodes) ← deref (_root_node t); Ok (device t, false, nodes)
  | InternalFS t => '(_, nodes) ← deref (_root_node t); Ok (device t, true, nodes)
  | _ => Fault NullDereference
  end.

(** ** directory.cpp *)
Record SimpleDirectory := { _sentries : list DirectoryEntry; _current_entry : Z }.

Definition SimpleDirectory_new : SimpleDirectory := {| _sentries := []; _current_entry := 0 |}.
Definition add_entry (d : SimpleDirectory) (e : DirectoryEntry) : SimpleDirectory :=
  {| _sentries := _sentries d ++ [e]; _current_entry := _current_entry d |}.

Definition read_entry (d : SimpleDirectory) : outcome (option DirectoryEntry * SimpleDirectory) :=
  if _current_entry d <? Z.of_nat (length (_sentries d)) then
    e ← in_bounds (_sentries d !! Z.to_nat (_current_entry d));
    Ok (Some e, {| _sentries := _sentries d; _current_entry := u32 (_current_entry d + 1) |})
  else Ok (None, d).

Definition close (d : SimpleDirectory) : SimpleDirectory :=
  {| _sentries := []; _current_entry := _current_entry d |}.

(** What [opendir] and [open] return.  A file of a device is what the device's
    [open_as_file] makes. *)
Inductive Directory := Simple (d : SimpleDirectory) | TarDir (d : TarFSDirectory).

Section physical.
Context {DF : Type} (open_as_file : Z -> option DF).
(** The block device interface of a device, the class of block devices, and
    memory as [new] leaves it. *)
Context (block_device : Z -> BlockDevice) (BlockDeviceClass : Z) (uninitialised : list Z).

Inductive File :=
| DevFile (f : DF)
| TarFile (dev : BlockDevice) (f : TarFSFile)
| InternalFile (dev : BlockDevice) (f : ZZz).

(** ** Registered creation functions *)
Definition rootfs_create (s : Physical) (dev : option Z) : outcome (option Z * Physical) :=
  let '(p, s) := new_filesystem s RootFS in Ok (Some p, s).
Definition tmpfs_create (s : Physical) (dev : option Z) : outcome (option Z * Physical) :=
  let '(p, s) := new_filesystem s TempFS in Ok (Some p, s).
Definition devfs_create (s : Physical) (dev : option Z) : outcome (option Z * Physical) :=
  let '(p, s) := new_filesystem s DeviceFS in Ok (Some p, s).

(** File systems on block devices refuse any other device. *)
Definition block_create (make : BlockDevice -> Filesystem) (s : Physical) (dev : option Z)
  : outcome (option Z * Physical) :=
  d ← deref dev;
  x ← device_at (device_manager s) d;
  b ← is_ (device_manager s) (device_class x) BlockDeviceClass;
  if negb b then Ok (None, s)
  else let '(p, s) := new_filesystem s (make (block_device d)) in Ok (Some p, s).

Definition vfat_create := block_create VFAT.
Definition tarfs_create := block_create (fun b => TarFileSystem (TarFS_new b)).
Definition internal_create := block_create (fun b => InternalFS (TarFS_new b)).

Definition create (s : Physical) (creation_fn : Z) (dev : option Z) : outcome (option Z * Physical) :=
  match creation_fn with
  | 0 => rootfs_create s dev
  | 1 => tmpfs_create s dev
  | 2 => devfs_create s dev
  | 3 => vfat_create s dev
  | 4 => tarfs_create s dev
  | 5 => internal_create s dev
  | _ => Fault OutOfBounds
  end.

(** ** Mounting *)

(** The boot block of vfat ends with its signature. *)
Definition VFAT_mount (bdev : BlockDevice) : outcome (option PFSNode) :=
  if negb (block_size bdev =? 512) then Ok None
  else
    match read_block bdev 0 with
    | None => Ok None
    | Some block =>
        lo ← in_bounds (block !! 510%nat);
        hi ← in_bounds (block !! 511%nat);
        if negb (lo + 256 * hi =? 43605) then Ok None else Ok (Some VFATNode)
    end.

Definition mount_archive (s : Physical) (p : Z) (make : TarFS -> Filesystem) (t : TarFS)
  : outcome (option PFSNode * Physical) :=
  '(r, t) ← TarFS.mount t;
  let s := set_filesystem s p (make t) in
  match r with
  | None => Ok (None, s)
  | Some (root, _) => Ok (Some (TarNode p root), s)
  end.

Definition RootFS_mount : option PFSNode := Some RootFSNode.
Definition TempFS_mount (s : Physical) : option PFSNode * Physical :=
  let '(n, s) := new_temp s String_empty in (Some (TempFSNodeAt n), s).
Definition DeviceFS_mount : option PFSNode := Some DeviceFSRootNode.

(** [Filesystem::mount], by the class of the file system. *)
Definition mount (s : Physical) (p : Z) : outcome (option PFSNode * Physical) :=
  fs ← filesystem_at s p;
  match fs with
  | RootFS => Ok (RootFS_mount, s)
  | TempFS => Ok (TempFS_mount s)
  | DeviceFS => Ok (DeviceFS_mount, s)
  | VFAT bdev => r ← VFAT_mount bdev; Ok (r, s)
  | TarFileSystem t => mount_archive s p TarFileSystem t
  | InternalFS t => mount_archive s p InternalFS t
  end.

(** ** The virtual functions of the nodes, by class *)
Definition RootFSNode_get_child (name : String) : option PFSNode := None.
Definition RootFSNode_mkdir (name : String) : option PFSNode := None.
Definition RootFSNode_open : option File := None.
Definition RootFSNode_opendir : option Directory := None.

Definition VFATNode_get_child (name : String) : option PFSNode := None.
Definition VFATNode_mkdir (name : String) : option PFSNode := None.
Definition VFATNode_open : option File := None.
Definition VFATNode_opendir : option Directory := None.

Definition TempFSNode_get_child (s : Physical) (p : Z) (name : String) : outcome (option PFSNode) :=
  x ← temp_node s p;
  child ← try_get_value (_tchildren x) (fst (get_hash name));
  Ok (option_map TempFSNodeAt child).

Definition TempFSNode_mkdir (s : Physical) (p : Z) (name : String) : outcome (option PFSNode * Physical) :=
  let '(dir, s) := new_temp s name in
  x ← temp_node s p;
  children ← add (_tchildren x) (fst (get_hash name)) dir;
  Ok (Some (TempFSNodeAt dir), set_temp s p {| _tname := _tname x; _tchildren := children |}).

Definition TempFSNode_open : option File := None.

Definition DeviceFSRootNode_get_child (s : Physical) (name : String) : outcome (option PFSNode) :=
  dev ← try_get_device_by_name (device_manager s) name;
  Ok (option_map DeviceFSNode dev).

Definition DeviceFSRootNode_mkdir (name : String) : option PFSNode := None.
Definition DeviceFSRootNode_open : option File := None.

Definition DeviceFSNode_get_child (name : String) : option PFSNode := None.
Definition DeviceFSNode_mkdir (name : String) : option PFSNode := None.
Definition DeviceFSNode_open (dev : Z) : option File := option_map DevFile (open_as_file dev).
Definition DeviceFSNode_opendir : option Directory := None.

(** A node of either archive file system. *)
Definition TarNode_get_child (s : Physical) (fs p : Z) (name : String) : outcome (option PFSNode) :=
  '(_, _, nodes) ← archive_of s fs;
  child ← TarFS.get_child nodes p name;
  Ok (option_map (TarNode fs) child).

Definition TarNode_mkdir (name : String) : option PFSNode := None.

Definition TarNode_open (s : Physical) (fs p : Z) : outcome (option File) :=
  '(dev, internal, nodes) ← archive_of s fs;
  x ← tnode nodes p;
  if _has_block_offset x then
    if internal : bool then f ← ZZz_new dev (_block_offset x) uninitialised; Ok (Some (InternalFile dev f))
    else Ok (Some (TarFile dev (TarFSFile_new dev (_block_offset x) uninitialised)))
  else Ok None.

Definition TarNode_opendir (s : Physical) (fs p : Z) : outcome (option Directory) :=
  '(_, _, nodes) ← archive_of s fs;
  d ← TarFS.opendir nodes p;
  Ok (option_map TarDir d).

(** Directories list the names of the children, with size 0. *)
Fixpoint temp_entries (s : Physical) (l : list (Z * Z)) (d : SimpleDirectory) : outcome SimpleDirectory :=
  match l with
  | [] => Ok d
  | (_, child) :: l =>
      x ← temp_node s child;
      temp_entries s l (add_entry d {| de_name := _tname x; de_size := 0 |})
  end.

Definition TempFSDirectory_new (s : Physical) (p : Z) : outcome SimpleDirectory :=
  x ← temp_node s p;
  l ← items (_tchildren x);
  temp_entries s l SimpleDirectory_new.

Fixpoint device_entries (s : Physical) (l : list (Z * Z)) (d : SimpleDirectory) : outcome SimpleDirectory :=
  match l with
  | [] => Ok d
  | (_, dev) :: l =>
      x ← device_at (device_manager s) dev;
      device_entries s l (add_entry d {| de_name := _dname x; de_size := 0 |})
  end.

Definition DeviceFSDirectory_new (s : Physical) : outcome SimpleDirectory :=
  l ← items (_devices (device_manager s));
  device_entries s l SimpleDirectory_new.

Definition TempFSNode_opendir (s : Physical) (p : Z) : outcome (option Directory) :=
  d ← TempFSDirectory_new s p; Ok (Some (Simple d)).
Definition DeviceFSRootNode_opendir (s : Physical) : outcome (option Directory) :=
  d ← DeviceFSDirectory_new s; Ok (Some (Simple d)).

(** ** Dispatch *)
Definition get_child (s : Physical) (n : PFSNode) (name : String) : outcome (option PFSNode) :=
  match n with
  | RootFSNode => Ok (RootFSNode_get_child name)
  | TempFSNodeAt p => TempFSNode_get_child s p name
  | DeviceFSRootNode => DeviceFSRootNode_get_child s name
  | DeviceFSNode _ => Ok (DeviceFSNode_get_child name)
  | VFATNode => Ok (VFATNode_get_child name)
  | TarNode fs p => TarNode_get_child s fs p name
  end.

Definition mkdir (s : Physical) (n : PFSNode) (name : String) : outcome (option PFSNode * Physical) :=
  match n with
  | RootFSNode => Ok (RootFSNode_mkdir name, s)
  | TempFSNodeAt p => TempFSNode_mkdir s p name
  | DeviceFSRootNode => Ok (DeviceFSRootNode_mkdir name, s)
  | DeviceFSNode _ => Ok (DeviceFSNode_mkdir name, s)
  | VFATNode => Ok (VFATNode_mkdir name, s)
  | TarNode fs p => Ok (TarNode_mkdir name, s)
  end.

Definition open (s : Physical) (n : PFSNode) : outcome (option File) :=
  match n with
  | RootFSNode => Ok RootFSNode_open
  | TempFSNodeAt _ => Ok TempFSNode_open
  | DeviceFSRootNode => Ok DeviceFSRootNode_open
  | DeviceFSNode dev => Ok (DeviceFSNode_open dev)
  | VFATNode => Ok VFATNode_open
  | TarNode fs p => TarNode_open s fs p
  end.

Definition opendir (s : Physical) (n : PFSNode) : outcome (option Directory) :=
  match n with
  | RootFSNode => Ok RootFSNode_opendir
  | TempFSNodeAt p => TempFSNode_opendir s p
  | DeviceFSRootNode => DeviceFSRootNode_opendir s
  | DeviceFSNode _ => Ok DeviceFSNode_opendir
  | VFATNode => Ok VFATNode_opendir
  | TarNode fs p => TarNode_opendir s fs p
  end.

#[export] Instance all_filesystems : PhysicalFS Physical PFSNode File Directory := {
  pfs_create := create;
  pfs_mount := mount;
  pfs_get_child := get_child;
  pfs_mkdir := mkdir;
  pfs_open := open;
  pfs_opendir := opendir
}.
End physical.
Arguments File DF : clear implicits.

(** ** The physical file systems keep the laws of their interface

    The memory of tmpfs and of the archives stays well formed, and every node
    that can be reached keeps its children while other file systems are
    created, mounted and extended. *)


(** The nodes of a file system that has been mounted from an archive. *)
Definition mounted_archive (fs : Filesystem) : option (Z * Nodes) :=
  match fs with
  | TarFileSystem t | InternalFS t => TarFS._root_node t
  | _ => None
  end.

Definition temp_kid (x : TempFSNode) (h : Z) : option Z :=
  match try_get_value (_tchildren x) h with Ok r => r | Fault _ => None end.

Record physical_ok (depth : Z -> nat) (g : gmap Z Z) (s : Physical) : Prop := {
  ph_devices : dm_ok (device_manager s) depth g;
  ph_fs p : is_Some (filesystems s !! p) -> p < next_filesystem s;
  ph_temp_next p : is_Some (temp_nodes s !! p) -> p < next_temp s;
  ph_temp p x : temp_nodes s !! p = Some x -> exists gx, represents (_tchildren x) gx /\
    forall h c, gx !! h = Some c -> is_Some (temp_nodes s !! c);
  ph_archive p fs root nodes : filesystems s !! p = Some fs -> mounted_archive fs = Some (root, nodes) ->
    tree_ok nodes root
}.

Definition archive_nodes (s : Physical) (f : Z) : option Nodes :=
  fs ← filesystems s !! f; snd <$> mounted_archive fs.

(** The nodes that exist. *)
Definition node_live (s : Physical) (n : PFSNode) : Prop :=
  match n with
  | TempFSNodeAt p => is_Some (temp_nodes s !! p)
  | TarNode f p => exists nodes, archive_nodes s f = Some nodes /\ is_Some (node_heap nodes !! p)
  | _ => True
  end.

(** Their children by name hash. *)
Definition node_kids (s : Physical) (n : PFSNode) (h : Z) : option PFSNode :=
  match n with
  | TempFSNodeAt p => x ← temp_nodes s !! p; TempFSNodeAt <$> temp_kid x h
  | DeviceFSRootNode =>
      match try_get_value (_devices (device_manager s)) h with Ok r => DeviceFSNode <$> r | Fault _ => None end
  | TarNode f p =>
      nodes ← archive_nodes s f; x ← node_heap nodes !! p; TarNode f <$> kid x h
  | _ => None
  end.

Lemma temp_kid_spec x g h : represents (_tchildren x) g ->
  try_get_value (_tchildren x) h = Ok (g !! h) /\ temp_kid x h = g !! h.
Proof. intros Hg. pose proof (represents_get _ _ h Hg) as E. split; [done|]. unfold temp_kid. by rewrite E. Qed.

Lemma archive_of_spec s f nodes : archive_nodes s f = Some nodes ->
  exists dev b, archive_of s f = Ok (dev, b, nodes).
Proof.
  unfold archive_nodes, archive_of, filesystem_at. destruct (filesystems s !! f) as [fs|]; [|done]. cbn.
  destruct fs as [| | | |t|t]; cbn; try done; destruct (TarFS._root_node t) as [[r ns]|]; cbn; try done;
    intros [= <-]; eauto.
Qed.

Section laws.
Context (depth : Z -> nat) (g : gmap Z Z).

Lemma get_child_law s n name : physical_ok depth g s -> node_live s n ->
  get_child s n name = Ok (node_kids s n (fst (get_hash name))).
Proof.
  intros Hok Hl. destruct n as [|p| |d| |f p]; cbn [get_child node_kids]; try done.
  - destruct Hl as [x Hx]. unfold TempFSNode_get_child, temp_node. rewrite Hx. cbn [in_bounds mbind outcome_bind option_bind].
    destruct (ph_temp _ _ _ Hok p x Hx) as (gx & Hg & _).
    destruct (temp_kid_spec x gx (fst (get_hash name)) Hg) as [-> ->]. done.
  - unfold DeviceFSRootNode_get_child. rewrite (by_name_spec _ depth g name (ph_devices _ _ _ Hok)). cbn [mbind outcome_bind].
    pose proof (represents_get _ _ (fst (get_hash name)) (dm_map _ _ _ (ph_devices _ _ _ Hok))) as E. by rewrite E.
  - destruct Hl as (nodes & Hn & [x Hx]). destruct (archive_of_spec s f nodes Hn) as (dev & b & E). unfold TarNode_get_child. step_to E.
    rewrite Hn. cbn [mbind option_bind]. unfold TarFS.get_child, tnode. rewrite Hx. cbn [in_bounds mbind outcome_bind option_bind].
    unfold archive_nodes in Hn. destruct (filesystems s !! f) as [fs|] eqn:Ef; [|done]. cbn in Hn.
    destruct (mounted_archive fs) as [[root ns]|] eqn:Em; [|done]. injection Hn as <-.
    destruct (to_kids _ _ (ph_archive _ _ _ Hok f fs root ns Ef Em) p x Hx) as (gx & Hg & _).
    destruct (kid_spec x gx (fst (get_hash name)) Hg) as [-> ->]. done.
Qed.

Lemma kids_live s n h c : physical_ok depth g s -> node_live s n -> node_kids s n h = Some c -> node_live s c.
Proof.
  intros Hok Hl Hc. destruct n as [|p| |d| |f p]; cbn [node_kids] in Hc; try done.
  - destruct Hl as [x Hx]. rewrite Hx in Hc. cbn in Hc. destruct (ph_temp _ _ _ Hok p x Hx) as (gx & Hg & Hin).
    rewrite (proj2 (temp_kid_spec x gx h Hg)) in Hc. destruct (gx !! h) as [q|] eqn:Eq; [|done]. injection Hc as <-.
    by apply (Hin h).
  - destruct (try_get_value _ h) as [[d|]|]; [|done|done]. by injection Hc as <-.
  - destruct Hl as (nodes & Hn & [x Hx]). rewrite Hn in Hc. cbn [mbind option_bind] in Hc. rewrite Hx in Hc.
    cbn [mbind option_bind] in Hc. pose proof Hn as Hn'. unfold archive_nodes in Hn.
    destruct (filesystems s !! f) as [fs|] eqn:Ef; [|done]. cbn in Hn.
    destruct (mounted_archive fs) as [[root ns]|] eqn:Em; [|done]. injection Hn as <-.
    destruct (to_kids _ _ (ph_archive _ _ _ Hok f fs root ns Ef Em) p x Hx) as (gx & Hg & Hin).
    rewrite (proj2 (kid_spec x gx h Hg)) in Hc. destruct (gx !! h) as [q|] eqn:Eq; [|done]. injection Hc as <-.
    exists ns. split; [done|]. by apply (Hin h).
Qed.

(** Steps that keep the archives and the nodes of tmpfs. *)
Lemma kept s s' : device_manager s' = device_manager s ->
  (forall f ns, archive_nodes s f = Some ns -> archive_nodes s' f = Some ns) ->
  (forall p x, temp_nodes s !! p = Some x -> temp_nodes s' !! p = Some x) ->
  forall n, node_live s n -> node_live s' n /\ forall h, node_kids s' n h = node_kids s n h.
Proof.
  intros Hd Ha Ht n Hn. destruct n as [|p| |d| |f p]; cbn in *; try done.
  - destruct Hn as [x Hx]. rewrite (Ht _ _ Hx), Hx. split; [eauto|done].
  - by rewrite Hd.
  - destruct Hn as (ns & Hns & Hp). rewrite Hns, (Ha _ _ Hns). split; [by exists ns|done].
Qed.

Lemma new_filesystem_ok s fs : physical_ok depth g s -> mounted_archive fs = None ->
  physical_ok depth g (snd (new_filesystem s fs)) /\
  forall n, node_live s n -> node_live (snd (new_filesystem s fs)) n /\
    forall h, node_kids (snd (new_filesystem s fs)) n h = node_kids s n h.
Proof.
  intros Hok Hfs. assert (filesystems s !! next_filesystem s = None) as Hnew.
  { destruct (filesystems s !! _) eqn:E; [|done]. pose proof (ph_fs _ _ _ Hok _ ltac:(eauto)). lia. }
  split; [split; cbn|].
  - apply Hok.
  - intros p. rewrite lookup_insert_is_Some. intros [<-|[_ Hp]]; [lia|]. pose proof (ph_fs _ _ _ Hok p Hp). lia.
  - apply Hok.
  - apply Hok.
  - intros p fs' root ns [[<- <-]|[_ Hp]]%lookup_insert_Some; [congruence|]. by apply (ph_archive _ _ _ Hok p fs').
  - apply kept; [done| |done]. intros f ns Hf. unfold archive_nodes in *. cbn. rewrite lookup_insert_ne; [done|].
    intros <-. by rewrite Hnew in Hf.
Qed.

Lemma create_law block_device BlockDeviceClass s fn dev fs s' : physical_ok depth g s ->
  create block_device BlockDeviceClass s fn dev = Ok (fs, s') ->
  physical_ok depth g s' /\ forall n, node_live s n -> node_live s' n /\ forall h, node_kids s' n h = node_kids s n h.
Proof.
  intros Hok E.
  assert (forall make, (forall b, mounted_archive (make b) = None) ->
    block_create block_device BlockDeviceClass make s dev = Ok (fs, s') ->
    physical_ok depth g s' /\ forall n, node_live s n -> node_live s' n /\ forall h, node_kids s' n h = node_kids s n h) as Hblock.
  { intros make Hmake Eb. unfold block_create in Eb. apply bind_Ok_inv in Eb as (d & _ & Eb).
    apply bind_Ok_inv in Eb as (x & _ & Eb). apply bind_Ok_inv in Eb as ([] & _ & Eb); cbn [negb] in Eb.
    - injection Eb as <- <-. by apply new_filesystem_ok.
    - injection Eb as <- <-. done. }
  unfold create in E. repeat case_match; try done;
    first [refine (Hblock _ _ E); done | cbv delta [rootfs_create tmpfs_create devfs_create] in E; injection E as <- <-;
           by apply new_filesystem_ok].
Qed.

Lemma archive_set s p fs0 fs : filesystems s !! p = Some fs0 ->
  (mounted_archive fs0 = None \/ mounted_archive fs = mounted_archive fs0) ->
  forall f ns, archive_nodes s f = Some ns -> archive_nodes (set_filesystem s p fs) f = Some ns.
Proof.
  intros Hp Hm f ns Hf. unfold archive_nodes in *. cbn. destruct (decide (p = f)) as [->|Hne].
  - rewrite lookup_insert_eq. rewrite Hp in Hf. cbn in *. destruct Hm as [Hm|Hm]; rewrite Hm in *; done.
  - by rewrite lookup_insert_ne.
Qed.

Lemma mount_archive_law s p make t r s' : physical_ok depth g s ->
  (forall t, mounted_archive (make t) = TarFS._root_node t) -> filesystems s !! p = Some (make t) ->
  mount_archive s p make t = Ok (r, s') ->
  physical_ok depth g s' /\ (forall n, r = Some n -> node_live s' n) /\
  forall n, node_live s n -> node_live s' n /\ forall h, node_kids s' n h = node_kids s n h.
Proof.
  intros Hok Hmake Hp E. unfold mount_archive in E. apply bind_Ok_inv in E as ([tree t'] & Em & E).
  assert (s' = set_filesystem s p (make t')) as -> by (destruct tree as [[]|]; congruence).
  assert (TarFS._root_node t' = tree /\ (TarFS._root_node t = None \/ TarFS._root_node t' = TarFS._root_node t) /\
    forall root ns, tree = Some (root, ns) -> tree_ok ns root) as (Ht' & Hkeep & Htree).
  { unfold TarFS.mount in Em. destruct (TarFS._root_node t) as [[root ns]|] eqn:Et.
    - injection Em as <- <-. rewrite Et. split; [done|]. split; [by right|]. intros r0 ns0 [= -> ->].
      apply (ph_archive _ _ _ Hok p (make t)); [done|]. by rewrite Hmake.
    - apply bind_Ok_inv in Em as (b & Eb & Em). injection Em as <- <-. cbn. split; [done|]. split; [by left|].
      intros root ns ->. by eapply build_tree_tree. }
  assert (forall n, node_live s n -> node_live (set_filesystem s p (make t')) n /\
    forall h, node_kids (set_filesystem s p (make t')) n h = node_kids s n h) as Hk.
  { apply kept; [done| |done]. eapply archive_set; [exact Hp|]. rewrite !Hmake. destruct Hkeep; [by left|by right]. }
  split; [|split; [|exact Hk]].
  - split; cbn; [apply Hok| |apply Hok|apply Hok|].
    + intros q. rewrite lookup_insert_is_Some. intros [<-|[_ Hq]]; apply (ph_fs _ _ _ Hok); eauto.
    + intros q fs root ns [[<- <-]|[_ Hq]]%lookup_insert_Some Hroot; [|by apply (ph_archive _ _ _ Hok q fs)].
      rewrite Hmake, Ht' in Hroot. by apply Htree.
  - intros n ->. destruct tree as [[root ns]|]; [|done]. injection E as <-. exists ns. unfold archive_nodes. cbn.
    rewrite lookup_insert_eq. cbn. rewrite Hmake, Ht'. cbn. split; [done|]. by apply to_root, Htree.
Qed.

Lemma new_temp_ok s name : physical_ok depth g s -> physical_ok depth g (snd (new_temp s name)) /\
  (forall p x, temp_nodes s !! p = Some x -> temp_nodes (snd (new_temp s name)) !! p = Some x).
Proof.
  intros Hok.
  assert (forall p x, temp_nodes s !! p = Some x -> temp_nodes (snd (new_temp s name)) !! p = Some x) as Hkeep.
  { intros p x Hp. cbn. rewrite lookup_insert_ne; [done|]. intros <-.
    pose proof (ph_temp_next _ _ _ Hok (next_temp s) ltac:(eauto)). lia. }
  split; [|done]. split; try apply Hok.
  - intros p. cbn. rewrite lookup_insert_is_Some. intros [<-|[_ Hp]]; [lia|]. pose proof (ph_temp_next _ _ _ Hok p Hp). lia.
  - intros p x Hp. cbn in Hp. apply lookup_insert_Some in Hp as [[<- <-]|[_ Hp]].
    + exists ∅. split; [apply represents_new|]. intros h c. by rewrite lookup_empty.
    + destruct (ph_temp _ _ _ Hok p x Hp) as (gx & Hg & Hin). exists gx. split; [done|].
      intros h c [y Hy]%Hin. eexists. by apply Hkeep.
Qed.

Lemma mount_law s p r s' : physical_ok depth g s -> mount s p = Ok (r, s') ->
  physical_ok depth g s' /\ (forall n, r = Some n -> node_live s' n) /\
  forall n, node_live s n -> node_live s' n /\ forall h, node_kids s' n h = node_kids s n h.
Proof.
  intros Hok E. unfold mount, filesystem_at in E. destruct (filesystems s !! p) as [fs|] eqn:Ep; [|done].
  cbn [in_bounds mbind outcome_bind] in E. destruct fs as [| | |bdev|t|t].
  - injection E as <- <-. split; [done|]. split; [by intros n [= <-]|done].
  - destruct (new_temp_ok s String_empty Hok) as [Hok' Hkeep]. injection E as <- <-. split; [exact Hok'|]. split.
    + intros n [= <-]. cbn. rewrite lookup_insert_eq. eauto.
    + by apply kept.
  - injection E as <- <-. split; [done|]. split; [by intros n [= <-]|done].
  - apply bind_Ok_inv in E as (r' & Ev & E). injection E as <- <-. split; [done|]. split; [|done].
    intros n ->. unfold VFAT_mount in Ev. repeat case_match; try done.
    apply bind_Ok_inv in Ev as (lo & _ & Ev). apply bind_Ok_inv in Ev as (hi & _ & Ev).
    by case_match; simplify_eq.
  - by apply (mount_archive_law s p TarFileSystem t).
  - by apply (mount_archive_law s p InternalFS t).
Qed.

(** A directory in tmpfs: the name leads to it, whatever it led to before. *)
Lemma temp_mkdir_spec s p x name : physical_ok depth g s -> temp_nodes s !! p = Some x ->
  let hn := fst (get_hash name) in
  exists c s', mkdir s (TempFSNodeAt p) name = Ok (Some (TempFSNodeAt c), s') /\ physical_ok depth g s' /\
    temp_nodes s !! c = None /\ temp_nodes s' !! c = Some (TempFSNode_new name) /\
    device_manager s' = device_manager s /\ filesystems s' = filesystems s /\
    (forall q, q <> p -> q <> c -> temp_nodes s' !! q = temp_nodes s !! q) /\
    exists x', temp_nodes s' !! p = Some x' /\ forall h, temp_kid x' h = if decide (h = hn) then Some c else temp_kid x h.
Proof.
  intros Hok Hx hn. cbn [mkdir]. unfold TempFSNode_mkdir.
  destruct (new_temp_ok s name Hok) as [Hok1 Hkeep]. destruct (new_temp s name) as [dir s1] eqn:En. cbn [snd] in *.
  injection En as Edir Es1. assert (temp_nodes s !! dir = None) as Hnew.
  { destruct (temp_nodes s !! dir) eqn:E; [|done]. pose proof (ph_temp_next _ _ _ Hok dir ltac:(eauto)). lia. }
  assert (temp_nodes s1 = <[dir := TempFSNode_new name]> (temp_nodes s)) as Hs1 by (by rewrite <- Es1, Edir).
  assert (p <> dir) as Hpd by congruence.
  unfold temp_node. rewrite (Hkeep p x Hx). cbn [in_bounds mbind outcome_bind].
  destruct (ph_temp _ _ _ Hok1 p x (Hkeep p x Hx)) as (gx & Hg & Hin).
  destruct (represents_add _ _ hn dir Hg) as (children & E & Hg'). step_to E.
  set (x' := {| _tname := _tname x; _tchildren := children |}). set (s2 := set_temp s1 p x').
  assert (temp_nodes s2 = <[p := x']> (temp_nodes s1)) as Hs2 by done.
  exists dir, s2. split; [done|]. split; [|split; [done|]].
  - split; [apply Hok1|apply Hok1| | |apply Hok1].
    + intros q. rewrite Hs2, lookup_insert_is_Some. intros [<-|[_ Hq]]; apply (ph_temp_next _ _ _ Hok1); eauto.
    + intros q y Hq. rewrite Hs2 in *. apply lookup_insert_Some in Hq as [[<- <-]|[_ Hq]].
      * exists (<[hn := dir]> gx). split; [exact Hg'|]. intros h c Hc. apply lookup_insert_is_Some'. right.
        apply lookup_insert_Some in Hc as [[_ <-]|[_ Hc]]; [rewrite Hs1, lookup_insert_eq; eauto|eauto].
      * destruct (ph_temp _ _ _ Hok1 q y Hq) as (gy & Hgy & Hiny). exists gy. split; [done|].
        intros h c Hc. apply lookup_insert_is_Some'. right. eauto.
  - split; [by rewrite Hs2, Hs1, lookup_insert_ne, lookup_insert_eq|]. do 2 (split; [by cbn; rewrite <- Es1|]).
    split; [intros q H1 H2; by rewrite Hs2, Hs1, !lookup_insert_ne|].
    exists x'. split; [rewrite Hs2; apply lookup_insert_eq|]. intros h.
    rewrite (proj2 (temp_kid_spec x' _ h Hg')), (proj2 (temp_kid_spec x _ h Hg)).
    case_decide as Hh; [by rewrite Hh, lookup_insert_eq|by rewrite lookup_insert_ne].
Qed.

Lemma mkdir_law s n name : physical_ok depth g s -> node_live s n -> node_kids s n (fst (get_hash name)) = None ->
  mkdir s n name = Ok (None, s) \/
  exists c s', mkdir s n name = Ok (Some c, s') /\ physical_ok depth g s' /\ node_live s' c /\
    node_kids s' n (fst (get_hash name)) = Some c /\
    forall m, node_live s m -> node_live s' m /\ forall h d, node_kids s m h = Some d -> node_kids s' m h = Some d.
Proof.
  intros Hok Hl Hk. destruct n as [|p| |d| |f p]; try by left. right. destruct Hl as [x Hx].
  destruct (temp_mkdir_spec s p x name Hok Hx) as (c & s' & E & Hok' & Hc & Hc' & Hdm & Hfs & Ho & x' & Hx' & Hkid).
  exists (TempFSNodeAt c), s'. split; [done|]. split; [done|]. split; [cbn; eauto|].
  cbn [node_kids] in Hk. rewrite Hx in Hk. cbn [mbind option_bind] in Hk. split.
  { cbn [node_kids]. rewrite Hx'. cbn [mbind option_bind]. by rewrite Hkid, decide_True. }
  intros m Hm. destruct m as [|q| |d| |f q]; cbn [node_live node_kids] in *; try done.
  - destruct Hm as [y Hy]. rewrite Hy. cbn [mbind option_bind]. destruct (decide (q = p)) as [->|Hq].
    + rewrite Hx'. cbn [mbind option_bind]. split; [eauto|]. intros h d. assert (y = x) as -> by congruence.
      rewrite Hkid. case_decide as Hh; [|done]. by rewrite Hh, Hk.
    + rewrite Ho, Hy by congruence. split; [eauto|done].
  - by rewrite Hdm.
  - unfold archive_nodes. by rewrite Hfs.
Qed.
End laws.

#[export] Instance all_filesystems_laws {DF} (open_as_file : Z -> option DF) block_device BlockDeviceClass uninitialised
    depth g :
  PhysicalFSLaws Physical PFSNode (File DF) Directory (H := all_filesystems open_as_file block_device BlockDeviceClass uninitialised)
    (physical_ok depth g) node_live node_kids := {
  law_get_child := get_child_law depth g;
  law_kids := kids_live depth g;
  law_mkdir := mkdir_law depth g;
  law_create := create_law depth g block_device BlockDeviceClass;
  law_mount := mount_law depth g
}.
