(* ===== verification/Kernel.v ===== *)
(** * infos/kernel/kernel.cpp: bringing the file systems up

    The part of the kernel's first thread that mounts the root, the devices
    and the boot device; [arch_abort] is the fault [Aborted].  The names of the
    boot device and of its file system come from the command line. *)
From S2P Require Import Prelude Define RBMap RBMapRep RBMapProof RBMapTheorems CString CStringProof TarFS TarFSProof InternalDriver Vfs VfsProof Devices Pfs.

(** ** Settings of the command line, arrays of 16 characters *)
Record BootSettings := { boot_device_name : list Z; boot_fstype : list Z; init_program : list Z }.

Definition settings_zero : BootSettings :=
  {| boot_device_name := replicate 16 0; boot_fstype := replicate 16 0; init_program := replicate 16 0 |}.

(** [sizeof(dest) - 1] is the count that is passed. *)
Definition copy_setting (dest value : list Z) : outcome (list Z) :=
  '(_, r) ← strncpy dest value (Z.of_nat (length dest) - 1);
  Ok r.

Definition parse_BootDevice (b : BootSettings) (value : list Z) : outcome BootSettings :=
  r ← copy_setting (boot_device_name b) value;
  Ok {| boot_device_name := r; boot_fstype := boot_fstype b; init_program := init_program b |}.
Definition parse_BootFSType (b : BootSettings) (value : list Z) : outcome BootSettings :=
  r ← copy_setting (boot_fstype b) value;
  Ok {| boot_device_name := boot_device_name b; boot_fstype := r; init_program := init_program b |}.
Definition parse_InitProgram (b : BootSettings) (value : list Z) : outcome BootSettings :=
  r ← copy_setting (init_program b) value;
  Ok {| boot_device_name := boot_device_name b; boot_fstype := boot_fstype b; init_program := r |}.

(** ** Names *)
Definition str_root := String_of [47].
Definition str_tmpfs := String_of [116; 109; 112; 102; 115].
Definition str_devfs := String_of [100; 101; 118; 102; 115].
Definition str_dev := String_of [100; 101; 118].
Definition str_usr := String_of [117; 115; 114].
Definition internal_driver : list Z := [105; 110; 116; 101; 114; 110; 97; 108; 95; 100; 114; 105; 118; 101; 114].

(** The registrations of the kernel image, in the order of their creation
    functions; the linker chooses the order of the table. *)
Definition file_system_registrations : list FilesystemRegistration := [
  {| fsreg_name := [114; 111; 111; 116; 102; 115; 0]; creation_fn := 0 |};
  {| fsreg_name := [116; 109; 112; 102; 115; 0]; creation_fn := 1 |};
  {| fsreg_name := [100; 101; 118; 102; 115; 0]; creation_fn := 2 |};
  {| fsreg_name := [118; 102; 97; 116; 0]; creation_fn := 3 |};
  {| fsreg_name := [116; 97; 114; 102; 115; 0]; creation_fn := 4 |};
  {| fsreg_name := internal_driver ++ [0]; creation_fn := 5 |}
].

Section kernel.
Context {DF : Type} (open_as_file : Z -> option DF).
Context (block_device : Z -> BlockDevice) (BlockDeviceClass : Z) (uninitialised : list Z).

#[local] Instance fs_impl : PhysicalFS Physical PFSNode (File DF) Directory :=
  all_filesystems open_as_file block_device BlockDeviceClass uninitialised.

Notation VFS := (VirtualFilesystem Physical PFSNode).

(** [if (!p) arch_abort();] *)
Definition or_abort {A} (p : option A) : outcome A :=
  match p with Some a => Ok a | None => Fault Aborted end.

(** The file system type: the built-in driver when none is set. *)
Definition boot_fs (b : BootSettings) : outcome (list Z) :=
  n ← strlen (Some (boot_fstype b));
  if n =? 0 then '(_, r) ← strncpy (boot_fstype b) (internal_driver ++ [0]) 16; Ok r else Ok (boot_fstype b).

(** [start_kernel_threadproc] up to the launch of the init program. *)
Definition mount_filesystems (v : VFS) (regs : list FilesystemRegistration) (b : BootSettings) : outcome VFS :=
  '(ok, v) ← init v regs;
  if negb ok then Fault Aborted
  else
    '(root, v) ← lookup_node v str_root;
    root ← deref root;
    '(fs, v) ← Vfs.mount v root str_tmpfs None;
    _ ← or_abort fs;
    '(dev, v) ← Vfs.mkdir v root str_dev;
    dev ← or_abort dev;
    '(fs, v) ← Vfs.mount v dev str_devfs None;
    _ ← or_abort fs;
    '(usr, v) ← Vfs.mkdir v root str_usr;
    usr ← or_abort usr;
    n ← strlen (Some (boot_device_name b));
    if n =? 0 then Fault Aborted
    else
      name ← String_cstr (boot_device_name b);
      boot_device ← try_get_device_by_name (device_manager (pfs v)) name;
      boot_device ← or_abort boot_device;
      fstype ← boot_fs b;
      bootfstype ← String_cstr fstype;
      '(fs, v) ← Vfs.mount v usr bootfstype (Some boot_device);
      _ ← or_abort fs;
      Ok v.
End kernel.

(** ** What is mounted once the kernel has started *)


Definition hdev : Z := Eval vm_compute in fst (get_hash str_dev).
Definition husr : Z := Eval vm_compute in fst (get_hash str_usr).

Lemma hdev_eq : fst (get_hash str_dev) = hdev.
Proof. vm_compute. reflexivity. Qed.
Lemma husr_eq : fst (get_hash str_usr) = husr.
Proof. vm_compute. reflexivity. Qed.

(** The name of the archive file system of the coursework. *)
Definition tarfs_name : list Z := [116; 97; 114; 102; 115].

Lemma registrations_named : Forall (fun r => exists name, reg_named r name) file_system_registrations.
Proof.
  unfold file_system_registrations.
  repeat match goal with |- Forall _ (_ :: _) => apply List.Forall_cons | |- Forall _ [] => constructor end;
    match goal with |- exists name, reg_named ?r name => exists (removelast (fsreg_name r)) end;
    (split; [reflexivity|split; [repeat constructor; lia|cbn; lia]]).
Qed.

Lemma registrations_distinct : NoDup (fsreg_name <$> file_system_registrations).
Proof. apply (bool_decide_unpack _). vm_compute. exact I. Qed.

(** Every registration is found under its name, whatever order the linker has
    put them in. *)
Lemma registered regs k reg name : regs ≡ₚ file_system_registrations ->
  file_system_registrations !! k = Some reg -> fsreg_name reg = _data name ++ [0] ->
  lookup_fs_loop regs name = Ok (Some reg).
Proof.
  intros Hp Hk Hn. apply list_elem_of_lookup_2 in Hk. apply lookup_fs_spec.
  - rewrite Hp. apply registrations_named.
  - rewrite Hp. apply registrations_distinct.
  - by rewrite Hp.
  - pose proof registrations_named as Hr. rewrite Forall_forall in Hr. destruct (Hr reg Hk) as (nm & Hnm & Hx).
    rewrite Hn in Hnm. apply app_inj_tail in Hnm as [<- _]. by split.
Qed.

Lemma mount_at_lookup (ms : gmap (list Z) PFSNode) q n r :
  mount_at ms q n !! r = if decide (r = q) then Some n else if decide (q `suffix_of` r) then None else ms !! r.
Proof.
  unfold mount_at. case_decide as Hr; [by rewrite Hr, lookup_insert_eq|]. rewrite lookup_insert_ne by done.
  case_decide as Hs.
  - apply map_lookup_filter_None. right. intros x _ Hn. by apply Hn.
  - destruct (ms !! r) eqn:E; [by apply map_lookup_filter_Some|]. apply map_lookup_filter_None. by left.
Qed.

Section kernel.
Context {DF : Type} (open_as_file : Z -> option DF).
Context (block_device : Z -> BlockDevice) (BlockDeviceClass : Z) (uninitialised : list Z).
Context (depth : Z -> nat) (g : gmap Z Z) (regs : list FilesystemRegistration).
Context (Hregs : regs ≡ₚ file_system_registrations).

#[local] Instance impl : PhysicalFS Physical PFSNode (File DF) Directory :=
  all_filesystems open_as_file block_device BlockDeviceClass uninitialised.
#[local] Instance laws : PhysicalFSLaws Physical PFSNode (File DF) Directory (physical_ok depth g) node_live node_kids :=
  all_filesystems_laws open_as_file block_device BlockDeviceClass uninitialised depth g.

Notation VFS := (VirtualFilesystem Physical PFSNode).
Notation names := (resolve (kids := node_kids)).
Notation fs_inv := (vfs_inv (ok := physical_ok depth g) (live := node_live) (kids := node_kids)).
Notation abort_mount := (Vfs.mount (F := File DF) (D := Directory)).
Notation boot_mkdir := (Vfs.mkdir (F := File DF) (D := Directory)).

(** The root is a directory of tmpfs, node [t], with the children [K]. *)
Record booting (v : VFS) (root : Z) (ms : gmap (list Z) PFSNode) (dm : DeviceManager) (t : Z) (K : gmap Z Z) : Prop := {
  bo_inv : fs_inv v root ms;
  bo_regs : _filesystems v = regs;
  bo_dm : device_manager (pfs v) = dm;
  bo_root : ms !! [] = Some (TempFSNodeAt t);
  bo_kids : exists x, temp_nodes (pfs v) !! t = Some x /\ forall h, temp_kid x h = K !! h
}.

Lemma booting_root v root ms dm t K : booting v root ms dm t K -> names (pfs v) ms [] = Some (TempFSNodeAt t).
Proof. intros B. apply (bo_root _ _ _ _ _ _ B). Qed.

Lemma booting_child v root ms dm t K h : booting v root ms dm t K -> ms !! [h] = None ->
  names (pfs v) ms [h] = TempFSNodeAt <$> K !! h.
Proof.
  intros B Hm. cbn [resolve]. rewrite (bo_root _ _ _ _ _ _ B). cbn [mbind option_bind]. rewrite Hm. cbn [node_kids].
  destruct (bo_kids _ _ _ _ _ _ B) as (x & Hx & Hk). rewrite Hx. cbn [mbind option_bind]. by rewrite Hk.
Qed.

(** The root file systems. *)
Lemma boot_root v : vfs_fresh (ok := physical_ok depth g) v -> exists v1 v2 root fs ms t,
  init v regs = Ok (true, v1) /\ _root_node v1 = Some root /\
  abort_mount v1 root str_tmpfs None = Ok (Some fs, v2) /\
  booting v2 root ms (device_manager (pfs v)) t ∅ /\ (forall q, q <> [] -> ms !! q = None).
Proof.
  intros Hv. pose proof Hv as (_ & Hf & _ & Hok).
  destruct (vfs_init_spec (H := impl) v regs _ _ _ RootFSNode (snd (new_filesystem (pfs v) RootFS)) Hv
    ltac:(rewrite Hf; by apply (registered regs 0 _ rootfs_name)) eq_refl) as (v1 & E1 & I1 & P1 & F1).
  { cbn. unfold mount, filesystem_at. cbn. by rewrite lookup_insert_eq. }
  rewrite Hf in F1. cbn [app] in F1.
  set (s1 := snd (new_filesystem (pfs v) RootFS)) in *. set (s2 := snd (new_filesystem s1 TempFS)).
  set (s3 := snd (new_temp s2 String_empty)). set (t := next_temp s2).
  destruct (mount_spec (H := impl) v1 _ _ [] (next_vnode v) str_tmpfs None _ (next_filesystem s1) s2 (TempFSNodeAt t) s3 I1 eq_refl
    ltac:(unfold lookup_fs; rewrite F1; by apply (registered regs 1 _ str_tmpfs))) as (v2 & E2 & I2 & P2 & _).
  { by rewrite P1. }
  { cbn. unfold mount, filesystem_at, s2. cbn [new_filesystem snd filesystems]. by rewrite lookup_insert_eq. }
  eexists v1, v2, (next_vnode v), _, _, t. split; [exact E1|]. split; [apply (vi_root _ _ _ I1)|].
  split; [exact E2|]. split.
  - split; [exact I2| | | |].
    + by rewrite (mount_regs _ _ _ _ _ _ E2).
    + by rewrite P2.
    + by rewrite mount_at_lookup, decide_True.
    + rewrite P2. cbn. rewrite lookup_insert_eq. eexists. split; [done|]. intros h.
      rewrite (proj2 (temp_kid_spec (TempFSNode_new String_empty) ∅ h represents_new)). done.
  - intros q Hq. rewrite mount_at_lookup, decide_False by done. rewrite decide_True; [done|]. apply suffix_nil.
Qed.

(** A directory in the root. *)
Lemma boot_mkdir_spec v root ms dm t K name : booting v root ms dm t K ->
  let h := fst (get_hash name) in K !! h = None -> ms !! [h] = None ->
  exists c d v', boot_mkdir v root name = Ok (Some c, v') /\ booting v' root ms dm t (<[h := d]> K) /\
    vwalk (vnodes v') root [h] = Some c /\ filesystems (pfs v') = filesystems (pfs v) /\
    (forall q n, names (pfs v) ms q = Some n -> names (pfs v') ms q = Some n).
Proof.
  intros B h HK Hm. pose proof (bo_inv _ _ _ _ _ _ B) as I. pose proof (booting_root _ _ _ _ _ _ B) as Hr.
  destruct (mkdir_spec (H := impl) v root ms [] root _ name I eq_refl Hr) as (r & v' & E & I' & Hmono & Hres).
  { fold h. rewrite (booting_child _ _ _ _ _ _ h B Hm), HK. done. }
  destruct (bo_kids _ _ _ _ _ _ B) as (x & Hx & Hk).
  destruct (temp_mkdir_spec depth g (pfs v) t x name (vi_pfs _ _ _ I) Hx)
    as (d & s' & Em & _ & _ & Hd & Hdm & Hfs & _ & x' & Hx' & Hk').
  destruct r as [c|].
  2: { destruct Hres as [_ Hn]. change (mkdir (pfs v) (TempFSNodeAt t) name = Ok (None, pfs v)) in Hn. congruence. }
  destruct Hres as (Hw & d' & Hd' & _). change (mkdir (pfs v) (TempFSNodeAt t) name = Ok (Some d', pfs v')) in Hd'.
  assert (s' = pfs v') as Hs by congruence.
  exists c, d, v'. split; [exact E|]. rewrite <- Hs. split; [split|split; [done|split; [done|]]].
  - exact I'.
  - rewrite (mkdir_regs _ _ _ _ _ E). apply B.
  - rewrite <- Hs, Hdm. apply B.
  - apply B.
  - rewrite <- Hs. exists x'. split; [done|]. intros k. rewrite Hk'. fold h. case_decide as Hkh.
    + by rewrite Hkh, lookup_insert_eq.
    + by rewrite lookup_insert_ne, Hk.
  - rewrite Hs. exact Hmono.
Qed.

(** Mounting below the root a file system that leaves the rest as it is. *)
Lemma boot_mount_spec v root ms dm t K h p fstype dev reg fs s1 n s2 : booting v root ms dm t K ->
  vwalk (vnodes v) root [h] = Some p -> lookup_fs_loop regs fstype = Ok (Some reg) ->
  create block_device BlockDeviceClass (pfs v) (creation_fn reg) dev = Ok (Some fs, s1) -> mount s1 fs = Ok (Some n, s2) ->
  temp_nodes s2 = temp_nodes (pfs v) -> device_manager s2 = device_manager (pfs v) ->
  exists v', abort_mount v p fstype dev = Ok (Some fs, v') /\ booting v' root (mount_at ms [h] n) dm t K /\
    pfs v' = s2.
Proof.
  intros B Hw El Ec Em Ht Hd. pose proof (bo_inv _ _ _ _ _ _ B) as I.
  destruct (mount_spec (H := impl) v root ms [h] p fstype dev reg fs s1 n s2 I Hw) as (v' & E & I' & P & _); try done.
  { unfold lookup_fs. by rewrite (bo_regs _ _ _ _ _ _ B). }
  exists v'. split; [exact E|]. split; [|done]. split; [exact I'| | | |].
  - rewrite (mount_regs _ _ _ _ _ _ E). apply B.
  - rewrite P, Hd. apply B.
  - rewrite mount_at_lookup, decide_False by done. rewrite decide_False; [apply B|].
    intros Hs. apply suffix_length in Hs. cbn in Hs. lia.
  - rewrite P, Ht. apply B.
Qed.

(** ** Paths below a mounted file system *)
Lemma names_archive s ms pre f root ns q : names s ms pre = Some (TarNode f root) -> archive_nodes s f = Some ns ->
  (forall q, q <> [] -> ms !! (q ++ pre) = None) ->
  names s ms (rev q ++ pre) = TarNode f <$> walk (node_heap ns) root q.
Proof.
  intros Hp Hn Hm. induction q as [|h q IH] using rev_ind; [exact Hp|]. rewrite rev_app_distr. cbn [rev app resolve].
  rewrite IH, walk_app. destruct (walk (node_heap ns) root q) as [p|]; [|done]. cbn [fmap option_fmap option_map mbind option_bind].
  change (h :: rev q ++ pre) with ((h :: rev q) ++ pre). rewrite Hm by done. cbn [node_kids]. rewrite Hn.
  cbn [mbind option_bind walk]. destruct (node_heap ns !! p) as [x|]; [|done]. cbn. by destruct (kid x h).
Qed.

Lemma names_devices s ms pre h : names s ms pre = Some DeviceFSRootNode -> ms !! (h :: pre) = None ->
  physical_ok depth g s -> names s ms (h :: pre) = DeviceFSNode <$> g !! h.
Proof.
  intros Hp Hm Hok. cbn [resolve]. rewrite Hp. cbn [mbind option_bind]. rewrite Hm. cbn [node_kids].
  pose proof (represents_get _ _ h (dm_map _ _ _ (ph_devices _ _ _ Hok))) as E. by rewrite E.
Qed.

(** ** The boot device *)
Lemma cstr_spec name tail : Forall (fun c => c <> 0) name -> Z.of_nat (length name) < 2 ^ 64 ->
  strlen (Some (name ++ 0 :: tail)) = Ok (Z.of_nat (length name)).
Proof. intros Hn Hl. unfold strlen. by rewrite strlen_loop_spec by (done || lia). Qed.

(** The file system type of the settings: none, or tarfs. *)
Lemma boot_fs_spec b : (boot_fstype b = replicate 16 0 \/ exists tail, boot_fstype b = tarfs_name ++ 0 :: tail) ->
  exists fstype name k reg, boot_fs b = Ok fstype /\ String_cstr fstype = Ok name /\
    file_system_registrations !! k = Some reg /\ fsreg_name reg = _data name ++ [0] /\
    (creation_fn reg = 4 \/ creation_fn reg = 5) /\ (boot_fstype b = replicate 16 0 -> creation_fn reg = 5).
Proof.
  unfold boot_fs. intros [-> | (tail & E)].
  - exists (internal_driver ++ [0]), (String_of internal_driver), 5%nat. eexists. split; [reflexivity|].
    split; [reflexivity|]. split; [reflexivity|]. split; [reflexivity|]. split; [by right|done].
  - rewrite E. assert (Forall (fun c => c <> 0) tarfs_name) as Hnz by (repeat constructor; lia).
    rewrite cstr_spec by (done || (cbn; lia)). cbn [mbind outcome_bind]. change (Z.of_nat (length tarfs_name) =? 0) with false.
    exists (tarfs_name ++ 0 :: tail), (String_of tarfs_name), 4%nat. eexists. split; [reflexivity|].
    split; [apply String_cstr_spec; [done|cbn; lia]|]. split; [reflexivity|]. split; [reflexivity|]. split; [by left|done].
Qed.

(** Either archive file system can be created on a block device and mounted. *)
Lemma archive_create s fn d x es : physical_ok depth g s -> device_memory (device_manager s) !! d = Some x ->
  rtc (parent_of (device_manager s)) (device_class x) BlockDeviceClass -> fn = 4 \/ fn = 5 ->
  archive (block_device d) 0 es -> 0 <= block_count (block_device d) ->
  exists fs s1 root ns s2, create block_device BlockDeviceClass s fn (Some d) = Ok (Some fs, s1) /\
    mount s1 fs = Ok (Some (TarNode fs root), s2) /\ temp_nodes s2 = temp_nodes s /\
    device_manager s2 = device_manager s /\ archive_nodes s2 fs = Some ns /\
    archive_of s2 fs = Ok (block_device d, bool_decide (fn = 5), ns) /\
    forall q, entry ns root q = expected 0 es (fun q => if decide (q = []) then Some None else None) q.
Proof.
  intros Hok Hx Hc Hfn Ha Hb.
  destruct (mount_archive_spec (block_device d) es Ha Hb) as (root & ns & t & Em & _ & He & Em2).
  assert (TarFS._root_node t = Some (root, ns) /\ TarFS.device t = block_device d) as [Ht Hdev].
  { unfold TarFS.mount in Em. cbn in Em. apply bind_Ok_inv in Em as (r & E1 & Em). injection Em as -> <-. done. }
  assert (forall make, (forall t, mounted_archive (make t) = TarFS._root_node t) ->
    (forall s p t, filesystems s !! p = Some (make t) -> mount s p = mount_archive s p make t) ->
    exists fs s1 s2, block_create block_device BlockDeviceClass (fun b => make (TarFS_new b)) s (Some d) = Ok (Some fs, s1) /\
      mount s1 fs = Ok (Some (TarNode fs root), s2) /\ temp_nodes s2 = temp_nodes s /\
      device_manager s2 = device_manager s /\ archive_nodes s2 fs = Some ns /\ filesystems s2 !! fs = Some (make t)) as Hmake.
  { intros make Hm1 Hm2. unfold block_create, device_at. cbn [deref mbind outcome_bind]. rewrite Hx. cbn [in_bounds mbind outcome_bind].
    pose proof (ph_devices _ _ _ Hok) as Hdm. destruct (is_spec _ depth (device_class x) BlockDeviceClass (dm_classes _ _ _ Hdm)
      (dm_class _ _ _ Hdm d x Hx)) as (b & E & Hbt). step_to E. rewrite (proj2 Hbt Hc). cbn [negb new_filesystem].
    eexists _, _, _. split; [reflexivity|]. rewrite (Hm2 _ _ (TarFS_new (block_device d))) by (cbn; apply lookup_insert_eq).
    unfold mount_archive. step_to Em. split; [reflexivity|]. split; [done|]. split; [done|].
    unfold archive_nodes. cbn. rewrite lookup_insert_eq. cbn. by rewrite Hm1, Ht. }
  destruct Hfn as [-> | ->].
  - destruct (Hmake TarFileSystem) as (fs & s1 & s2 & H1 & H2 & H3 & H4 & H5 & H6); [done| |].
    { intros s0 p t0 Hp. unfold mount, filesystem_at. by rewrite Hp. }
    exists fs, s1, root, ns, s2. split_and!; try done. unfold archive_of, filesystem_at. rewrite H6. cbn. by rewrite Ht, Hdev.
  - destruct (Hmake InternalFS) as (fs & s1 & s2 & H1 & H2 & H3 & H4 & H5 & H6); [done| |].
    { intros s0 p t0 Hp. unfold mount, filesystem_at. by rewrite Hp. }
    exists fs, s1, root, ns, s2. split_and!; try done. unfold archive_of, filesystem_at. rewrite H6. cbn. by rewrite Ht, Hdev.
Qed.

Lemma suffix_one (a h : Z) : a <> h -> ~ [a] `suffix_of` [h].
Proof. intros Hne [k Hk]. destruct k as [|? k]; [cbn in Hk; congruence|]. apply (f_equal length) in Hk. rewrite length_app in Hk. cbn in Hk. lia. Qed.

(** What the settings and the machine must provide to boot from an archive. *)
Record boot_ok (v : VFS) (b : BootSettings) (d : Z) (es : list tar_entry) : Prop := {
  bk_fresh : vfs_fresh (ok := physical_ok depth g) v;
  bk_fstype : boot_fstype b = replicate 16 0 \/ exists tail, boot_fstype b = tarfs_name ++ 0 :: tail;
  bk_device : exists name tail x, boot_device_name b = name ++ 0 :: tail /\ name <> [] /\ Forall (fun c => c <> 0) name /\
    Z.of_nat (length name) < 2 ^ 64 /\ g !! compute_hash (String_of name) = Some d /\
    device_memory (device_manager (pfs v)) !! d = Some x /\
    rtc (parent_of (device_manager (pfs v))) (device_class x) BlockDeviceClass /\
    archive (block_device d) 0 es /\ 0 <= block_count (block_device d)
}.

(** The name space with the three mounts. *)
Lemma boot_names v root ms dm t K f r ns : booting v root ms dm t K ->
  (forall h, h <> hdev -> h <> husr -> K !! h = None /\ ms !! [h] = None) ->
  ms !! [hdev] = Some DeviceFSRootNode -> ms !! [husr] = Some (TarNode f r) ->
  (forall q, (2 <= length q)%nat -> ms !! q = None) -> archive_nodes (pfs v) f = Some ns ->
  (forall h, h <> hdev -> h <> husr -> names (pfs v) ms [h] = None) /\
  (forall h, names (pfs v) ms [h; hdev] = DeviceFSNode <$> g !! h) /\
  (forall q, names (pfs v) ms (rev q ++ [husr]) = TarNode f <$> walk (node_heap ns) r q).
Proof.
  intros B HK Md Mu Mo Hns. pose proof (vi_pfs _ _ _ (bo_inv _ _ _ _ _ _ B)) as Hok. split_and!.
  - intros h H1 H2. destruct (HK h H1 H2) as [Hk Hm]. by rewrite (booting_child v root ms _ t _ h B Hm), Hk.
  - intros h. apply names_devices; [|by apply Mo|done].
    cbn [resolve]. rewrite (bo_root _ _ _ _ _ _ B). cbn [mbind option_bind]. by rewrite Md.
  - intros q. apply names_archive; [|done|].
    + cbn [resolve]. rewrite (bo_root _ _ _ _ _ _ B). cbn [mbind option_bind]. by rewrite Mu.
    + intros [|a q'] Hq'; [done|]. apply Mo. rewrite length_app. cbn. lia.
Qed.

Lemma mount_filesystems_spec v b d es : boot_ok v b d es ->
  exists v' root ms f r ns,
    mount_filesystems open_as_file block_device BlockDeviceClass uninitialised v regs b = Ok v' /\ fs_inv v' root ms /\
    (forall h, h <> hdev -> h <> husr -> names (pfs v') ms [h] = None) /\
    (forall h, names (pfs v') ms [h; hdev] = DeviceFSNode <$> g !! h) /\
    (forall q, names (pfs v') ms (rev q ++ [husr]) = TarNode f <$> walk (node_heap ns) r q) /\
    archive_nodes (pfs v') f = Some ns /\
    (forall q, entry ns r q = expected 0 es (fun q => if decide (q = []) then Some None else None) q) /\
    exists internal, archive_of (pfs v') f = Ok (block_device d, internal, ns) /\ (boot_fstype b = replicate 16 0 -> internal = true).
Proof.
  intros [Hv Hfst (name & tail & x & Hname & Hne & Hnz & Hlen & Hg & Hx & Hc & Ha & Hbc)].
  assert (husr <> hdev) as Hud by (vm_compute; discriminate).
  destruct (boot_root v Hv) as (v1 & v2 & root & fs0 & ms0 & t & E1 & Er & E2 & B2 & Hm0).
  destruct (boot_mkdir_spec v2 root ms0 _ t ∅ str_dev B2) as (c3 & d3 & v3 & E3 & B3 & W3 & _); [done|by apply Hm0|].
  rewrite hdev_eq in B3, W3.
  destruct (boot_mount_spec v3 root ms0 _ t _ hdev c3 str_devfs None _ (next_filesystem (pfs v3))
    (snd (new_filesystem (pfs v3) DeviceFS)) DeviceFSRootNode (snd (new_filesystem (pfs v3) DeviceFS)) B3 W3 ltac:(by apply (registered regs 2 _ str_devfs)) eq_refl)
    as (v4 & E4 & B4 & P4); [|done|done|].
  { unfold mount, filesystem_at. cbn. by rewrite lookup_insert_eq. }
  set (ms1 := mount_at ms0 [hdev] DeviceFSRootNode) in *.
  assert (forall q, ms1 !! q = if decide (q = [hdev]) then Some DeviceFSRootNode else if decide (q = []) then Some (TempFSNodeAt t) else None) as Hm1.
  { intros q. unfold ms1. rewrite mount_at_lookup. case_decide; [done|]. case_decide as Hs.
    - rewrite decide_False; [done|]. intros ->. apply suffix_length in Hs. cbn in Hs. lia.
    - case_decide as Hq; [subst; apply (bo_root _ _ _ _ _ _ B2)|by apply Hm0]. }
  destruct (boot_mkdir_spec v4 root ms1 _ t _ str_usr B4) as (c5 & d5 & v5 & E5 & B5 & W5 & _).
  { rewrite husr_eq, lookup_insert_ne; done. }
  { rewrite husr_eq, Hm1, !decide_False; [done|done|]. intros E. by injection E. }
  rewrite husr_eq in B5, W5.
  destruct (boot_fs_spec b Hfst) as (fstype & nm & k & reg & Ef & En & Hk & Hrn & Hfn & Hint).
  pose proof (bo_inv _ _ _ _ _ _ B5) as I5. pose proof (vi_pfs _ _ _ I5) as Hok5. pose proof (bo_dm _ _ _ _ _ _ B5) as Hdm5.
  destruct (archive_create (pfs v5) (creation_fn reg) d x es Hok5 ltac:(by rewrite Hdm5) ltac:(by rewrite Hdm5) Hfn Ha Hbc)
    as (f & s1 & r & ns & s2 & Ec & Em & Ht & Hd & Hns & Hao & He).
  destruct (boot_mount_spec v5 root ms1 _ t _ husr c5 nm (Some d) reg f s1 _ s2 B5 W5 ltac:(by eapply registered) Ec Em Ht Hd)
    as (v6 & E6 & B6 & P6).
  set (ms2 := mount_at ms1 [husr] (TarNode f r)) in *.
  pose proof (bo_inv _ _ _ _ _ _ B6) as I6. pose proof (vi_pfs _ _ _ I6) as Hok6.
  assert (forall q, ms2 !! q = if decide (q = [husr]) then Some (TarNode f r) else ms1 !! q) as Hm2.
  { intros q. unfold ms2. rewrite mount_at_lookup. destruct (decide (q = [husr])) as [|Hq]; [done|].
    destruct (decide ([husr] `suffix_of` q)) as [Hs|]; [|done].
    rewrite Hm1, !decide_False; [done| |].
    - intros ->. apply suffix_length in Hs. cbn in Hs. lia.
    - intros ->. by apply (suffix_one husr hdev). }
  assert (ms2 !! [hdev] = Some DeviceFSRootNode) as Md by (rewrite Hm2, Hm1, decide_False by congruence; by rewrite decide_True).
  assert (ms2 !! [husr] = Some (TarNode f r)) as Mu by (by rewrite Hm2, decide_True).
  exists v6, root, ms2, f, r, ns. split; [|split; [done|]].
  { unfold mount_filesystems. step_to E1. cbn [negb]. change (lookup_node v1 str_root) with (Ok (A := option Z * VFS) (_root_node v1, v1)).
    cbn [mbind outcome_bind]. rewrite Er. cbn [deref mbind outcome_bind]. step_to E2. cbn [or_abort mbind outcome_bind].
    step_to E3. cbn [or_abort mbind outcome_bind]. step_to E4. cbn [or_abort mbind outcome_bind].
    step_to E5. cbn [or_abort mbind outcome_bind]. rewrite Hname, cstr_spec, String_cstr_spec by done. cbn [mbind outcome_bind].
    rewrite (eqb_false (Z.of_nat (length name)) 0) by (destruct name; [done|cbn; lia]).
    rewrite (by_name_spec _ depth g _ (ph_devices _ _ _ Hok5)). cbn [mbind outcome_bind].
    change (fst (get_hash (String_of name))) with (compute_hash (String_of name)). rewrite Hg. cbn [or_abort mbind outcome_bind].
    step_to Ef. step_to En. step_to E6. done. }
  destruct (boot_names v6 root ms2 _ t _ f r ns B6) as (Hroot & Hdevs & Htree); try done.
  - intros h H1 H2. split; [by rewrite !lookup_insert_ne|]. by rewrite Hm2, decide_False, Hm1, !decide_False by congruence.
  - intros q Hq. rewrite Hm2, Hm1, !decide_False; [done|..]; intros ->; cbn in Hq; lia.
  - by rewrite P6.
  - rewrite P6 in *. split_and!; try done. eexists. split; [exact Hao|]. intros H0. by rewrite (bool_decide_true _ (Hint H0)).
Qed.

(** When the kernel starts, with the file system registrations in any
    order and the boot device holding an archive, mounting the file systems
    ends without a fault or abort, and the resulting name space is: in the root
    nothing but [dev] and [usr]; under [/dev] exactly the registered devices;
    under [/usr] exactly the tree of the archive. *)
Lemma mount_filesystems_correct v b d es : boot_ok v b d es ->
  exists v' root ms f r ns,
    mount_filesystems open_as_file block_device BlockDeviceClass uninitialised v regs b = Ok v' /\ fs_inv v' root ms /\
    (forall h, h <> hdev -> h <> husr -> names (pfs v') ms [h] = None) /\
    (forall h, names (pfs v') ms [h; hdev] = DeviceFSNode <$> g !! h) /\
    (forall q, names (pfs v') ms (rev q ++ [husr]) = TarNode f <$> walk (node_heap ns) r q) /\
    archive_nodes (pfs v') f = Some ns /\
    forall q, entry ns r q = expected 0 es (fun q => if decide (q = []) then Some None else None) q.
Proof.
  intros Hb. destruct (mount_filesystems_spec v b d es Hb) as (v' & root & ms & f & r & ns & ? & ? & ? & ? & ? & ? & ? & _).
  by exists v', root, ms, f, r, ns.
Qed.
End kernel.

(** ** A machine with one block device *)
Definition boot_device_class : DeviceClass := {| dc_parent := None; dc_name := [98; 108; 107; 0]; instance := 1 |}.

Definition one_device (m : Map Z) : DeviceManager := {|
  _devices := m;
  device_classes := {[ 1 := boot_device_class ]};
  device_memory := {[ 5 := {| device_class := 1; _dname := String_of [98; 108; 107; 48] |} ]}
|}.

Definition one_device_physical (m : Map Z) : Physical := {|
  device_manager := one_device m; filesystems := ∅; next_filesystem := 1; temp_nodes := ∅; next_temp := 1 |}.

Definition fresh_vfs (s : Physical) : VirtualFilesystem Physical PFSNode :=
  {| _root_node := None; _filesystems := []; vnodes := ∅; next_vnode := 1; pfs := s |}.

(** "blk0" is the boot device. *)
Definition blk0_settings : BootSettings :=
  {| boot_device_name := [98; 108; 107; 48] ++ 0 :: replicate 11 0; boot_fstype := replicate 16 0; init_program := replicate 16 0 |}.

Lemma one_device_ok m : represents m {[ compute_hash (String_of [98; 108; 107; 48]) := 5 ]} ->
  physical_ok (fun _ => 0%nat) {[ compute_hash (String_of [98; 108; 107; 48]) := 5 ]} (one_device_physical m).
Proof.
  intros Hm. split; cbn.
  - split; [split|exact Hm| |].
    + intros c [x Hc]. cbn in Hc. apply lookup_singleton_Some in Hc as [<- _]. cbn [device_classes one_device one_device_physical device_manager]. rewrite map_size_singleton. lia.
    + intros c p (x & Hc & Hp). cbn in Hc. apply lookup_singleton_Some in Hc as [<- <-]. done.
    + intros h d [_ <-]%lookup_singleton_Some. eexists. reflexivity.
    + intros d x Hd. cbn in Hd. apply lookup_singleton_Some in Hd as [<- <-]. eexists. reflexivity.
  - intros p [x Hp]. by rewrite lookup_empty in Hp.
  - intros p [x Hp]. by rewrite lookup_empty in Hp.
  - intros p x Hp. by rewrite lookup_empty in Hp.
  - intros p fs root ns Hp. by rewrite lookup_empty in Hp.
Qed.

Definition blk0_init (init : list Z) : BootSettings :=
  {| boot_device_name := boot_device_name blk0_settings; boot_fstype := replicate 16 0; init_program := init |}.

Lemma blk0_init_ok m dev es init : represents m {[ compute_hash (String_of [98; 108; 107; 48]) := 5 ]} ->
  archive dev 0 es -> 0 <= block_count dev ->
  boot_ok (fun _ => dev) 1 (fun _ => 0%nat) {[ compute_hash (String_of [98; 108; 107; 48]) := 5 ]}
    (fresh_vfs (one_device_physical m)) (blk0_init init) 5 es.
Proof.
  intros Hm Ha Hb. split.
  - split; [done|]. split; [done|]. split; [done|]. by apply one_device_ok.
  - by left.
  - exists [98; 108; 107; 48], (replicate 11 0). eexists. split; [done|]. split; [done|].
    split; [repeat constructor; lia|]. split; [cbn; lia|]. split; [apply lookup_singleton_eq|].
    split; [apply lookup_singleton_eq|]. split; [apply rtc_refl|]. split; [exact Ha|exact Hb].
Qed.

Lemma blk0_boot_ok m : represents m {[ compute_hash (String_of [98; 108; 107; 48]) := 5 ]} ->
  boot_ok (fun _ => small_archive) 1 (fun _ => 0%nat) {[ compute_hash (String_of [98; 108; 107; 48]) := 5 ]}
    (fresh_vfs (one_device_physical m)) blk0_settings 5 [small_entry].
Proof. intros Hm. apply (blk0_init_ok m small_archive [small_entry]); [done|apply small_archive_ok|cbn; lia]. Qed.

Lemma mount_filesystems_correct_witness : exists m v', represents m {[ compute_hash (String_of [98; 108; 107; 48]) := 5 ]} /\
  mount_filesystems (fun _ => @None unit) (fun _ => small_archive) 1 [] (fresh_vfs (one_device_physical m))
    file_system_registrations blk0_settings = Ok v'.
Proof.
  destruct (represents_add _ _ (compute_hash (String_of [98; 108; 107; 48])) 5 (represents_new (V := Z))) as (m & _ & Hm).
  rewrite insert_empty in Hm. exists m.
  destruct (mount_filesystems_correct (fun _ => @None unit) (fun _ => small_archive) 1 [] (fun _ => 0%nat)
    {[ compute_hash (String_of [98; 108; 107; 48]) := 5 ]} file_system_registrations (reflexivity _) (fresh_vfs (one_device_physical m)) blk0_settings 5 [small_entry]) as (v' & _ & _ & _ & _ & _ & E & _).
  - by apply blk0_boot_ok.
  - exists v'. split; [exact Hm|exact E].
Defined.
