(* ===== verification/FsTheorems.v ===== *)
(** * The contract of the virtual file system *)
From S2P Require Import Prelude Define RBMap RBMapRep RBMapProof RBMapTheorems CString CStringProof TarFS TarFSProof InternalDriver Vfs VfsProof Devices Pfs Kernel.

Section vfs.
Context {S N F D : Type} `{PhysicalFSLaws S N F D ok live kids}.
Implicit Types (v : VirtualFilesystem S N) (ms : gmap (list Z) N).

Notation names := (resolve (kids := kids)).
Notation inv := (vfs_inv (ok := ok) (live := live) (kids := kids)).

(** C13: the virtual file system, whatever it has cached, implements its name
    space: opening a path of proper components, with or without a slash at its
    end, as a file or as a directory, opens the physical node that the name
    space has there, gives nothing when there is none, and leaves the name
    space as it was.  Paths are compared by the hashes of their components. *)
Theorem vfs_open_correct v root ms comps tl flags : inv v root ms -> Forall name_ok comps ->
  tl = [] \/ tl = [47] -> (comps = [] -> tl = []) ->
  exists v1 v2, inv v1 root ms /\ inv v2 root ms /\ pfs v1 = pfs v /\ pfs v2 = pfs v /\
    Vfs.open v (path_of comps tl) flags =
      match names (pfs v) ms (rev (hashes comps)) with
      | Some n => f ← pfs_open (pfs v) n; Ok (f, v1)
      | None => Ok (None, v1)
      end /\
    Vfs.opendir v (path_of comps tl) flags =
      match names (pfs v) ms (rev (hashes comps)) with
      | Some n => d ← pfs_opendir (pfs v) n; Ok (d, v2)
      | None => Ok (None, v2)
      end.
Proof.
  intros I Hc Ht Hct. destruct (open_spec v root ms comps tl flags I Hc Ht Hct) as (v1 & I1 & P1 & E1).
  destruct (opendir_spec v root ms comps tl flags I Hc Ht Hct) as (v2 & I2 & P2 & E2). by exists v1, v2.
Qed.

(** C24: mounting a file system on a node of the name space shows its root at
    that path and the children of its nodes below, hides everything that was
    below, cached or mounted, and changes no other path. *)
Theorem vfs_mount_correct v root ms q p fstype dev reg fs s1 n s2 : inv v root ms ->
  vwalk (vnodes v) root q = Some p -> lookup_fs v fstype = Ok (Some reg) ->
  pfs_create (pfs v) (creation_fn reg) dev = Ok (Some fs, s1) -> pfs_mount s1 fs = Ok (Some n, s2) ->
  let ms' := mount_at ms q n in
  exists v', Vfs.mount v p fstype dev = Ok (Some fs, v') /\ inv v' root ms' /\
    names (pfs v') ms' q = Some n /\
    (forall h r, q `suffix_of` r -> names (pfs v') ms' (h :: r) = m ← names (pfs v') ms' r; kids (pfs v') m h) /\
    (forall r m, ~ q `suffix_of` r -> names (pfs v) ms r = Some m -> names (pfs v') ms' r = Some m).
Proof.
  intros I Hw El Ec Em ms'. destruct (mount_spec v root ms q p fstype dev reg fs s1 n s2 I Hw El Ec Em) as (v' & E & I' & P & Hw').
  exists v'. split; [done|]. split; [done|]. destruct (vwalk_in _ _ _ _ _ I' Hw') as [x Hx].
  pose proof (create_grows _ _ _ _ _ (vi_pfs _ _ _ I) Ec) as G1. pose proof G1 as (Hok1 & _).
  pose proof (proj1 (mount_grows _ _ _ _ Hok1 Em)) as G2. pose proof (vfs_inv_pfs v root ms s1 I G1) as I1.
  pose proof (vfs_inv_pfs _ root ms s2 I1 G2) as I2. split; [|split].
  - rewrite P. apply (resolve_mount_point (set_pfs (set_pfs v s1) s2) root ms I2 q p n Hw).
  - intros h r Hs. cbn [resolve]. assert (ms' !! (h :: r) = None) as ->; [|done].
    unfold ms', mount_at. rewrite lookup_insert_ne by (intros ->; apply suffix_length in Hs; cbn in Hs; lia).
    apply map_lookup_filter_None. right. intros y _ Hn. apply Hn. by apply suffix_cons_r.
  - intros r m Hs Hr. rewrite P. pose proof (resolve_mounted (set_pfs (set_pfs v s1) s2) root ms I2 q p n Hw r Hs) as Hrm.
    cbn [pfs set_pfs] in Hrm. unfold ms'. rewrite Hrm.
    apply (resolve_grows (set_pfs v s1) root ms s2 r m I1 G2). by apply (resolve_grows v root ms s1 r m I G1).
Qed.

(** Making a directory where the name space has nothing either makes no
    change, when the physical node refuses, or gives a cached node that stands
    for the directory that was made; nothing that was there disappears. *)
Lemma vfs_mkdir_correct v root ms q p n name : inv v root ms -> vwalk (vnodes v) root q = Some p ->
  names (pfs v) ms q = Some n -> names (pfs v) ms (fst (get_hash name) :: q) = None ->
  exists r v', Vfs.mkdir v p name = Ok (r, v') /\ inv v' root ms /\
    (forall q' m, names (pfs v) ms q' = Some m -> names (pfs v') ms q' = Some m) /\
    match r with
    | Some c => vwalk (vnodes v') root (fst (get_hash name) :: q) = Some c /\
        exists d, pfs_mkdir (pfs v) n name = Ok (Some d, pfs v') /\ names (pfs v') ms (fst (get_hash name) :: q) = Some d
    | None => v' = v /\ pfs_mkdir (pfs v) n name = Ok (None, pfs v)
    end.
Proof. apply mkdir_spec. Qed.
End vfs.

(** ** The kernel's file systems *)
Definition archive_disk (d : Z) : BlockDevice := small_archive.
Definition no_file (d : Z) : option unit := None.

#[local] Instance impl0 : PhysicalFS Physical PFSNode (File unit) Directory := all_filesystems no_file archive_disk 1 [].
#[local] Instance laws0 depth g : PhysicalFSLaws Physical PFSNode (File unit) Directory (physical_ok depth g) node_live node_kids :=
  all_filesystems_laws no_file archive_disk 1 [] depth g.

(** After the root of the kernel has been mounted. *)
Lemma tmpfs_root : exists depth g v root ms t,
  booting depth g file_system_registrations v root ms (device_manager (pfs v)) t ∅ /\ (forall q, q <> [] -> ms !! q = None).
Proof.
  destruct (represents_add _ _ (compute_hash (String_of [98; 108; 107; 48])) 5 (represents_new (V := Z))) as (m & _ & Hm).
  rewrite insert_empty in Hm. pose proof (one_device_ok m Hm) as Hok.
  destruct (boot_root no_file archive_disk 1 [] (fun _ => 0%nat)
      {[ compute_hash (String_of [98; 108; 107; 48]) := 5 ]} file_system_registrations (reflexivity _) (fresh_vfs (one_device_physical m)))
    as (v1 & v2 & root & fs & ms & t & _ & _ & _ & B & Hms); [by split_and!|].
  eexists _, _, v2, root, ms, t. split; [|done]. by rewrite (bo_dm _ _ _ _ _ _ _ _ _ B).
Qed.

(** The directory [/] can be opened as a directory, and [/a] does not exist. *)
Lemma vfs_open_correct_witness : exists v, (exists v1 v2 d, Vfs.open v (path_of [[97]] []) 0 = Ok (None, v1) /\
  Vfs.opendir v (path_of [] []) 0 = Ok (Some d, v2)).
Proof.
  destruct tmpfs_root as (depth & g & v & root & ms & t & B & Hms). exists v.
  pose proof (bo_inv _ _ _ _ _ _ _ _ _ B) as I.
  destruct (vfs_open_correct v root ms [[97]] [] 0 I) as (v1 & _ & _ & _ & _ & _ & E1 & _).
  { repeat constructor; try lia; done. } { by left. } { done. }
  destruct (vfs_open_correct v root ms [] [] 0 I) as (_ & v2 & _ & _ & _ & _ & _ & E2); [constructor|by left|done|].
  cbn [hashes fmap list_fmap rev app] in E1, E2. rewrite (booting_root _ _ _ _ _ _ _ _ _ B) in E2.
  rewrite (booting_child _ _ _ _ _ _ _ _ _ _ B) in E1 by (by apply Hms). cbn in E1.
  destruct (bo_kids _ _ _ _ _ _ _ _ _ B) as (x & Hx & Hk).
  destruct (ph_temp _ _ _ (vi_pfs _ _ _ I) t x Hx) as (gx & Hg & _).
  assert (gx = ∅) as ->. { apply map_eq. intros h. by rewrite <- (proj2 (temp_kid_spec x gx h Hg)), Hk. }
  destruct (represents_items _ _ Hg) as (l & El & Hl). apply Permutation_nil_r in Hl as ->.
  exists v1, v2, (Simple SimpleDirectory_new). split; [exact E1|]. rewrite E2.
  cbn [pfs_opendir impl0 all_filesystems opendir]. unfold TempFSNode_opendir, TempFSDirectory_new, temp_node. rewrite Hx. cbn [in_bounds mbind outcome_bind].
  step_to El. done.
Defined.

(** Mounting devfs on the root. *)
Lemma vfs_mount_correct_witness : exists v root fs v', Vfs.mount v root str_devfs None = Ok (Some fs, v').
Proof.
  destruct tmpfs_root as (depth & g & v & root & ms & t & B & Hms).
  pose proof (bo_inv _ _ _ _ _ _ _ _ _ B) as I. set (s1 := snd (new_filesystem (pfs v) DeviceFS)).
  destruct (vfs_mount_correct v root ms [] root str_devfs None _ (next_filesystem (pfs v)) s1 DeviceFSRootNode s1 I eq_refl
    ltac:(unfold lookup_fs; rewrite (bo_regs _ _ _ _ _ _ _ _ _ B); by apply (registered _ 2 _ str_devfs)) eq_refl)
    as (v' & E & _).
  { cbn. unfold mount, filesystem_at. cbn. by rewrite lookup_insert_eq. }
  exists v, root, (next_filesystem (pfs v)), v'. exact E.
Defined.

Lemma vfs_mkdir_correct_witness : exists v root r v', Vfs.mkdir v root str_dev = Ok (r, v').
Proof.
  destruct tmpfs_root as (depth & g & v & root & ms & t & B & Hms).
  destruct (vfs_mkdir_correct v root ms [] root _ str_dev (bo_inv _ _ _ _ _ _ _ _ _ B) eq_refl (booting_root _ _ _ _ _ _ _ _ _ B))
    as (r & v' & E & _).
  { by rewrite (booting_child _ _ _ _ _ _ _ _ _ _ B) by (by apply Hms). }
  exists v, root, r, v'. exact E.
Defined.

(** Making a directory a second time replaces it in tmpfs, but the virtual
    file system goes on with the cached node of the first one. *)
Lemma mkdir_again_stale depth g (v : VirtualFilesystem Physical PFSNode) p x t c y name :
  physical_ok depth g (pfs v) -> vnodes v !! p = Some x -> _pn x = Some (TempFSNodeAt t) ->
  is_Some (temp_nodes (pfs v) !! t) ->
  try_get_value (_vchildren x) (fst (get_hash name)) = Ok (Some c) -> vnodes v !! c = Some y ->
  (exists old, _pn y = Some (TempFSNodeAt old) /\ is_Some (temp_nodes (pfs v) !! old)) ->
  exists v' d, Vfs.mkdir v p name = Ok (Some c, v') /\ vnodes v' = vnodes v /\
    node_kids (pfs v') (TempFSNodeAt t) (fst (get_hash name)) = Some d /\ _pn y <> Some d.
Proof.
  intros Hok Hx Hpn [xt Hxt] Hc Hy (old & Hold & Hin).
  destruct (temp_mkdir_spec depth g (pfs v) t xt name Hok Hxt) as (d & s' & E & _ & Hd & _ & _ & _ & _ & xt' & Hxt' & Hk).
  exists (set_pfs v s'), (TempFSNodeAt d). unfold Vfs.mkdir, vnode. rewrite Hx. cbn [in_bounds mbind outcome_bind]. rewrite Hpn.
  change (pfs_mkdir (pfs v) (TempFSNodeAt t) name) with (mkdir (pfs v) (TempFSNodeAt t) name). step_to E.
  unfold Vfs.get_child, vnode. change (vnodes (set_pfs v s')) with (vnodes v). rewrite Hx. cbn [in_bounds mbind outcome_bind].
  rewrite Hpn. step_to Hc. split; [done|]. split; [done|]. split.
  - cbn [node_kids set_pfs pfs]. rewrite Hxt'. cbn [mbind option_bind]. by rewrite Hk, decide_True.
  - rewrite Hold. intros [= ->]. destruct Hin as [? Hin]. congruence.
Qed.
