(* ===== verification/Objects.v ===== *)
(** * infos/kernel/om.cpp and the table of system calls

    Handles are numbers that are never used again; an object is known to the
    processes of the thread that registered it.  The C++ code keeps objects as
    [void *]; here an object says what it is, and a cast to another class is
    the fault [BadCast] at the first call. *)
From S2P Require Import Prelude RBMap RBMapRep RBMapProof RBMapTheorems.

(** ** om.h *)
Inductive Object := FileObject (p : Z) | DirectoryObject (p : Z) | ProcessObject (p : Z) | ThreadObject (p : Z).

Record ObjectDescriptor := { od_owner : Z; od_object : Object }.
Record ObjectManager := { _next_handle : Z; _objects : Map ObjectDescriptor }.

Definition ObjectManager_new : ObjectManager := {| _next_handle := 1; _objects := Map_new |}.

(** [KernelObject::Error] *)
Definition Error : Z := u64 (-1).

Definition register_object (om : ObjectManager) (owner : Z) (obj : Object) : outcome (Z * ObjectManager) :=
  let handle := _next_handle om in
  objects ← add (_objects om) handle {| od_owner := owner; od_object := obj |};
  Ok (handle, {| _next_handle := u64 (_next_handle om + 1); _objects := objects |}).

(** [process_of] is [Thread::owner]. *)
Definition get_object_secure (process_of : Z -> Z) (om : ObjectManager) (owner handle : Z) : outcome (option Object) :=
  obj ← try_get_value (_objects om) handle;
  match obj with
  | None => Ok None
  | Some obj => if negb (process_of (od_owner obj) =? process_of owner) then Ok None else Ok (Some (od_object obj))
  end.

Definition as_file (o : Object) : outcome Z := match o with FileObject p => Ok p | _ => Fault BadCast end.
Definition as_directory (o : Object) : outcome Z := match o with DirectoryObject p => Ok p | _ => Fault BadCast end.
Definition as_process (o : Object) : outcome Z := match o with ProcessObject p => Ok p | _ => Fault BadCast end.
Definition as_thread (o : Object) : outcome Z := match o with ThreadObject p => Ok p | _ => Fault BadCast end.

(** ** The table of system calls *)
Inductive syscallfn :=
  sys_nop | sys_yield | sys_exit | sys_open | sys_close | sys_read | sys_write | sys_opendir | sys_readdir
| sys_closedir | sys_exec | sys_wait_proc | sys_create_thread | sys_stop_thread | sys_join_thread | sys_usleep
| sys_get_tod.

Definition MAX_SYSCALLS : Z := 256.

Notation SyscallManager := (list (option syscallfn)).

Definition SyscallManager_new : SyscallManager := replicate (Z.to_nat MAX_SYSCALLS) None.

Definition RegisterSyscall (mgr : SyscallManager) (nr : Z) (fn : syscallfn) : SyscallManager :=
  if (nr <? 0) || (MAX_SYSCALLS <=? nr) then mgr else <[Z.to_nat nr := Some fn]> mgr.

Definition RegisterDefaultSyscalls (mgr : SyscallManager) : SyscallManager :=
  let mgr := RegisterSyscall mgr 0 sys_nop in
  let mgr := RegisterSyscall mgr 1 sys_yield in
  let mgr := RegisterSyscall mgr 2 sys_exit in
  let mgr := RegisterSyscall mgr 3 sys_open in
  let mgr := RegisterSyscall mgr 4 sys_close in
  let mgr := RegisterSyscall mgr 5 sys_read in
  let mgr := RegisterSyscall mgr 6 sys_write in
  let mgr := RegisterSyscall mgr 7 sys_opendir in
  let mgr := RegisterSyscall mgr 8 sys_readdir in
  let mgr := RegisterSyscall mgr 9 sys_closedir in
  let mgr := RegisterSyscall mgr 10 sys_exec in
  let mgr := RegisterSyscall mgr 11 sys_wait_proc in
  let mgr := RegisterSyscall mgr 12 sys_create_thread in
  let mgr := RegisterSyscall mgr 13 sys_stop_thread in
  let mgr := RegisterSyscall mgr 14 sys_join_thread in
  let mgr := RegisterSyscall mgr 15 sys_usleep in
  RegisterSyscall mgr 16 sys_get_tod.

(** The six arguments of a call. *)
Record syscall_args := { arg0 : Z; arg1 : Z; arg2 : Z; arg3 : Z; arg4 : Z; arg5 : Z }.

(** [call] runs a function of the table on the state of the kernel. *)
Definition InvokeSyscall {K} (call : syscallfn -> syscall_args -> K -> outcome (Z * K)) (mgr : SyscallManager)
    (nr : Z) (args : syscall_args) (k : K) : outcome (Z * K) :=
  if (nr <? 0) || (MAX_SYSCALLS <=? nr) then Ok (u64 (-1), k)
  else
    fn ← in_bounds (mgr !! Z.to_nat nr);
    match fn with
    | None => Ok (u64 (-1), k)
    | Some fn => call fn args k
    end.

(** The registers of the context that the handler of a user system call reads
    and writes; the number is converted to [int]. *)
Record syscall_context := { rax : Z; rdi : Z; rsi : Z; rdx : Z; rcx : Z; r8 : Z; r9 : Z }.

Definition user_syscall_handler {K} (call : syscallfn -> syscall_args -> K -> outcome (Z * K)) (mgr : SyscallManager)
    (ctx : syscall_context) (k : K) : outcome (syscall_context * K) :=
  '(r, k) ← InvokeSyscall call mgr (i32 (rax ctx))
    {| arg0 := rdi ctx; arg1 := rsi ctx; arg2 := rdx ctx; arg3 := rcx ctx; arg4 := r8 ctx; arg5 := r9 ctx |} k;
  Ok ({| rax := r; rdi := rdi ctx; rsi := rsi ctx; rdx := rdx ctx; rcx := rcx ctx; r8 := r8 ctx; r9 := r9 ctx |}, k).

(** ** The object manager *)

(** Handle [h] names the object of [g !! h]; all handles are below the next. *)
Record om_ok (om : ObjectManager) (g : gmap Z ObjectDescriptor) : Prop := {
  om_map : represents (_objects om) g;
  om_next h : is_Some (g !! h) -> 1 <= h < _next_handle om;
  om_range : 1 <= _next_handle om < 2 ^ 64
}.

Lemma om_new : om_ok ObjectManager_new ∅.
Proof. split; [apply represents_new| |cbn; lia]. intros h [x Hx]. by rewrite lookup_empty in Hx. Qed.

Lemma register_object_spec om g owner obj : om_ok om g -> _next_handle om < 2 ^ 64 - 1 ->
  exists om', register_object om owner obj = Ok (_next_handle om, om') /\
    om_ok om' (<[_next_handle om := {| od_owner := owner; od_object := obj |}]> g) /\
    _next_handle om' = _next_handle om + 1 /\ g !! _next_handle om = None.
Proof.
  intros [Hm Hn Hr] Hlt. unfold register_object.
  destruct (represents_add _ _ (_next_handle om) {| od_owner := owner; od_object := obj |} Hm) as (m & E & Hm').
  step_to E. wraps. eexists. split; [done|]. split; [split|split; [done|]]; cbn [_objects _next_handle].
  - done.
  - intros h. rewrite lookup_insert_is_Some. intros [<-|[_ Hh]]; [lia|]. specialize (Hn h Hh). lia.
  - lia.
  - destruct (g !! _next_handle om) eqn:E2; [|done]. specialize (Hn _ ltac:(eauto)). lia.
Qed.

Lemma get_object_spec process_of om g owner h : om_ok om g ->
  get_object_secure process_of om owner h =
    Ok (d ← g !! h; if process_of (od_owner d) =? process_of owner then Some (od_object d) else None).
Proof.
  intros [Hm _ _]. unfold get_object_secure. rewrite (represents_get _ _ h Hm). cbn [mbind outcome_bind].
  destruct (g !! h) as [d|]; [|done]. cbn. by destruct (process_of (od_owner d) =? process_of owner).
Qed.

(** A registered object gets a handle that no other object has or will
    have, under which exactly the threads of the registering process find it;
    what every handle named before, it still names. *)
Lemma register_object_correct process_of om g owner obj : om_ok om g -> _next_handle om < 2 ^ 64 - 1 ->
  exists h om' g', register_object om owner obj = Ok (h, om') /\ om_ok om' g' /\ g !! h = None /\ h <> Error /\
    (forall t, get_object_secure process_of om' t h = Ok (if process_of owner =? process_of t then Some obj else None)) /\
    (forall t h', h' <> h -> get_object_secure process_of om' t h' = get_object_secure process_of om t h') /\
    forall h', is_Some (g' !! h') -> h' < _next_handle om'.
Proof.
  intros Hok Hlt. destruct (register_object_spec om g owner obj Hok Hlt) as (om' & E & Hok' & Hn & Hg).
  eexists _, om', _. split; [exact E|]. split; [exact Hok'|]. split; [done|]. split.
  { pose proof (om_range _ _ Hok). unfold Error. change (u64 (-1)) with (2 ^ 64 - 1). lia. }
  split; [|split].
  - intros t. rewrite (get_object_spec _ _ _ t _ Hok'), lookup_insert_eq. done.
  - intros t h' Hh. rewrite (get_object_spec _ _ _ t h' Hok'), (get_object_spec _ _ _ t h' Hok).
    by rewrite lookup_insert_ne.
  - intros h' Hh. by apply (om_next _ _ Hok').
Qed.

Lemma register_object_correct_witness : exists om', register_object ObjectManager_new 7 (FileObject 3) = Ok (1, om').
Proof.
  destruct (register_object_correct (fun t => t) ObjectManager_new ∅ 7 (FileObject 3) om_new ltac:(cbn; lia))
    as (h & om' & g' & E & _). exists om'. rewrite E. cbn in E. injection E as <- <-. reflexivity.
Defined.

(** ** The table *)
Definition default_syscalls : list syscallfn :=
  [sys_nop; sys_yield; sys_exit; sys_open; sys_close; sys_read; sys_write; sys_opendir; sys_readdir; sys_closedir;
   sys_exec; sys_wait_proc; sys_create_thread; sys_stop_thread; sys_join_thread; sys_usleep; sys_get_tod].

Lemma default_table : RegisterDefaultSyscalls SyscallManager_new = (Some <$> default_syscalls) ++ replicate 239 None.
Proof. vm_compute. reflexivity. Qed.

Lemma default_lookup nr : (nr < 256)%nat ->
  RegisterDefaultSyscalls SyscallManager_new !! nr = Some (default_syscalls !! nr).
Proof.
  intros H. rewrite default_table. destruct (decide (nr < 17)%nat) as [Hlt|Hge].
  - rewrite lookup_app_l by (rewrite length_fmap; cbn; lia). rewrite list_lookup_fmap.
    by destruct (lookup_lt_is_Some_2 default_syscalls nr Hlt) as [x ->].
  - rewrite lookup_app_r by (rewrite length_fmap; cbn; lia). rewrite lookup_replicate_2 by (rewrite length_fmap; cbn; lia).
    by rewrite (lookup_ge_None_2 default_syscalls) by (cbn; lia).
Qed.

(** Conversion to [int] keeps the low half. *)
Lemma i32_low x : i32 x = if x mod 2 ^ 32 <? 2 ^ 31 then x mod 2 ^ 32 else x mod 2 ^ 32 - 2 ^ 32.
Proof.
  unfold swrap. rewrite <- Z.add_mod_idemp_l by done. pose proof (Z.mod_pos_bound x (2 ^ 32) ltac:(lia)).
  set (y := x mod 2 ^ 32) in *. change (2 ^ (32 - 1)) with (2 ^ 31). destruct (Z.ltb_spec y (2 ^ 31)).
  - rewrite Z.mod_small by lia. lia.
  - replace (y + 2 ^ 31) with (y - 2 ^ 31 + 1 * 2 ^ 32) by lia. rewrite Z.mod_add, Z.mod_small by lia. lia.
Qed.

(** A system call runs the function its number names in the table of the
    default calls; a number without one, whatever the 64-bit register holds,
    returns -1 and changes nothing.  The number is the low half of the
    register; the call's result replaces it and the other registers stay. *)
Lemma user_syscall_correct {K} (call : syscallfn -> syscall_args -> K -> outcome (Z * K)) ctx k :
  let args := {| arg0 := rdi ctx; arg1 := rsi ctx; arg2 := rdx ctx; arg3 := rcx ctx; arg4 := r8 ctx; arg5 := r9 ctx |} in
  user_syscall_handler call (RegisterDefaultSyscalls SyscallManager_new) ctx k =
    ('(r, k) ← match default_syscalls !! Z.to_nat (rax ctx mod 2 ^ 32) with
              | Some fn => call fn args k
              | None => Ok (2 ^ 64 - 1, k)
              end;
     Ok ({| rax := r; rdi := rdi ctx; rsi := rsi ctx; rdx := rdx ctx; rcx := rcx ctx; r8 := r8 ctx; r9 := r9 ctx |}, k)).
Proof.
  cbv zeta. unfold user_syscall_handler. f_equal. unfold InvokeSyscall, MAX_SYSCALLS. rewrite i32_low.
  set (low := rax ctx mod 2 ^ 32). pose proof (Z.mod_pos_bound (rax ctx) (2 ^ 32) ltac:(lia)) as Hb. fold low in Hb.
  assert (17 <= low -> default_syscalls !! Z.to_nat low = None) as Hbig.
  { intros Hl. apply lookup_ge_None_2. cbn. lia. }
  destruct (Z.ltb_spec low (2 ^ 31)); [|rewrite Hbig by lia; by compare]. destruct (Z.leb_spec 256 low).
  - rewrite Hbig by lia. by compare.
  - compare. rewrite default_lookup by lia. cbn [orb in_bounds mbind outcome_bind]. by destruct (default_syscalls !! _).
Qed.
