(* ===== verification/Syscall.v ===== *)
(** * infos/kernel/syscall.cpp: the system calls on files and directories

    The state is the virtual file system, the object manager and the memory of
    the open files and directories.  A system call is made by the current
    thread [cur]; [process_of] is the process of a thread.  User memory that a
    call reads or writes is passed as its contents; the code checks none of it. *)
From S2P Require Import Prelude Define RBMap CString Time TarFS InternalDriver Vfs Devices Pfs Objects.

Section syscall.
Context {DF : Type} (open_as_file : Z -> option DF).
Context (block_device : Z -> BlockDevice) (BlockDeviceClass : Z) (uninitialised : list Z).
(** Reading and writing the file of a device, and the processes of threads. *)
Context (device_read : DF -> list Z -> Z -> outcome (Z * list Z * DF)).
Context (device_write : DF -> list Z -> Z -> outcome (Z * DF)).
Context (process_of : Z -> Z).

#[local] Instance sys_fs : PhysicalFS Physical PFSNode (File DF) Directory :=
  all_filesystems open_as_file block_device BlockDeviceClass uninitialised.

Record Sys := {
  vfs : VirtualFilesystem Physical PFSNode;
  object_manager : ObjectManager;
  open_files : gmap Z (File DF);
  next_file : Z;
  open_directories : gmap Z Directory;
  next_directory : Z
}.

Definition set_vfs (s : Sys) v : Sys :=
  {| vfs := v; object_manager := object_manager s; open_files := open_files s; next_file := next_file s;
     open_directories := open_directories s; next_directory := next_directory s |}.
Definition set_om (s : Sys) om : Sys :=
  {| vfs := vfs s; object_manager := om; open_files := open_files s; next_file := next_file s;
     open_directories := open_directories s; next_directory := next_directory s |}.
Definition set_file (s : Sys) p f : Sys :=
  {| vfs := vfs s; object_manager := object_manager s; open_files := <[p := f]> (open_files s); next_file := next_file s;
     open_directories := open_directories s; next_directory := next_directory s |}.
Definition set_directory (s : Sys) p d : Sys :=
  {| vfs := vfs s; object_manager := object_manager s; open_files := open_files s; next_file := next_file s;
     open_directories := <[p := d]> (open_directories s); next_directory := next_directory s |}.
Definition new_file (s : Sys) f : Z * Sys :=
  (next_file s,
   {| vfs := vfs s; object_manager := object_manager s; open_files := <[next_file s := f]> (open_files s);
      next_file := next_file s + 1; open_directories := open_directories s; next_directory := next_directory s |}).
Definition new_directory (s : Sys) d : Z * Sys :=
  (next_directory s,
   {| vfs := vfs s; object_manager := object_manager s; open_files := open_files s; next_file := next_file s;
      open_directories := <[next_directory s := d]> (open_directories s); next_directory := next_directory s + 1 |}).

(** ** The virtual functions of files and directories *)
Definition File_read (f : File DF) (buffer : list Z) (size : Z) : outcome (Z * list Z * File DF) :=
  match f with
  | DevFile f => '(n, buffer, f) ← device_read f buffer size; Ok (n, buffer, DevFile f)
  | TarFile dev f => '(n, buffer, f) ← TarFS.read dev f uninitialised buffer size; Ok (n, buffer, TarFile dev f)
  | InternalFile dev f => '(n, buffer, f) ← InternalDriver.read dev f buffer size; Ok (n, buffer, InternalFile dev f)
  end.

Definition File_write (f : File DF) (buffer : list Z) (size : Z) : outcome (Z * File DF) :=
  match f with
  | DevFile f => '(n, f) ← device_write f buffer size; Ok (n, DevFile f)
  | TarFile dev f => Ok (0, TarFile dev f)
  | InternalFile dev f => Ok (InternalDriver.write f size, InternalFile dev f)
  end.

(** Closing releases nothing. *)
Definition File_close (f : File DF) : File DF := f.

Definition Directory_read_entry (d : Directory) : outcome (option DirectoryEntry * Directory) :=
  match d with
  | Simple d => '(e, d) ← Pfs.read_entry d; Ok (e, Simple d)
  | TarDir d => let '(e, d) := TarFS.read_entry d in Ok (e, TarDir d)
  end.

Definition Directory_close (d : Directory) : Directory :=
  match d with Simple d => Simple (Pfs.close d) | TarDir d => TarDir d end.

(** The object a handle names for the current thread. *)
Definition get_object (s : Sys) (cur h : Z) : outcome (option Object) :=
  get_object_secure process_of (object_manager s) cur h.

(** [return -1] of a function that returns [unsigned int]. *)
Definition minus_one : Z := u32 (-1).

(** ** The calls *)
Definition sys_open (s : Sys) (cur : Z) (filename : list Z) (flags : Z) : outcome (Z * Sys) :=
  path ← String_cstr filename;
  '(f, v) ← Vfs.open (vfs s) path flags;
  let s := set_vfs s v in
  match f with
  | None => Ok (Error, s)
  | Some f =>
      let '(p, s) := new_file s f in
      '(h, om) ← register_object (object_manager s) cur (FileObject p);
      Ok (h, set_om s om)
  end.

Definition sys_close (s : Sys) (cur h : Z) : outcome (Z * Sys) :=
  o ← get_object s cur h;
  match o with
  | None => Ok (minus_one, s)
  | Some o =>
      p ← as_file o;
      f ← in_bounds (open_files s !! p);
      Ok (0, set_file s p (File_close f))
  end.

(** The number of bytes, the buffer afterwards and the state. *)
Definition sys_read (s : Sys) (cur h : Z) (buffer : list Z) (size : Z) : outcome (Z * list Z * Sys) :=
  o ← get_object s cur h;
  match o with
  | None => Ok (minus_one, buffer, s)
  | Some o =>
      p ← as_file o;
      f ← in_bounds (open_files s !! p);
      '(n, buffer, f) ← File_read f buffer size;
      Ok (u32 n, buffer, set_file s p f)
  end.

Definition sys_write (s : Sys) (cur h : Z) (buffer : list Z) (size : Z) : outcome (Z * Sys) :=
  o ← get_object s cur h;
  match o with
  | None => Ok (minus_one, s)
  | Some o =>
      p ← as_file o;
      f ← in_bounds (open_files s !! p);
      '(n, f) ← File_write f buffer size;
      Ok (u32 n, set_file s p f)
  end.

Definition sys_opendir (s : Sys) (cur : Z) (path : list Z) (flags : Z) : outcome (Z * Sys) :=
  path ← String_cstr path;
  '(d, v) ← Vfs.opendir (vfs s) path flags;
  let s := set_vfs s v in
  match d with
  | None => Ok (Error, s)
  | Some d =>
      let '(p, s) := new_directory s d in
      '(h, om) ← register_object (object_manager s) cur (DirectoryObject p);
      Ok (h, set_om s om)
  end.

Definition sys_closedir (s : Sys) (cur h : Z) : outcome (Z * Sys) :=
  o ← get_object s cur h;
  match o with
  | None => Ok (minus_one, s)
  | Some o =>
      p ← as_directory o;
      d ← in_bounds (open_directories s !! p);
      Ok (0, set_directory s p (Directory_close d))
  end.

(** The directory entry in user memory. *)
Record user_de := { ude_name : list Z; ude_size : Z; ude_flags : Z }.

Definition sys_readdir (s : Sys) (cur h : Z) (ude : user_de) : outcome (Z * user_de * Sys) :=
  o ← get_object s cur h;
  match o with
  | None => Ok (0, ude, s)
  | Some o =>
      p ← as_directory o;
      d ← in_bounds (open_directories s !! p);
      '(de, d) ← Directory_read_entry d;
      let s := set_directory s p d in
      match de with
      | Some de =>
          '(_, name) ← strncpy (ude_name ude) (_data (de_name de) ++ [0]) 63;
          Ok (1, {| ude_name := name; ude_size := de_size de; ude_flags := 0 |}, s)
      | None => Ok (0, ude, s)
      end
  end.

(** The six fields of the time of day in user memory, 16 bits each. *)
Definition sys_get_tod (tod : TimeOfDay) : Z * list Z :=
  (0, [u16 (seconds tod); u16 (minutes tod); u16 (hours tod); u16 (day tod); u16 (month tod); u16 (year tod)]).
End syscall.
Arguments Sys DF : clear implicits.
