(* ===== verification/BootRead.v ===== *)
(** * From the archive on the boot device to the bytes a program reads *)
From S2P Require Import Prelude Define Time RBMap RBMapRep RBMapProof RBMapTheorems CString CStringProof TarFS TarFSProof InternalDriver Vfs VfsProof Devices Pfs Kernel Objects Syscall.

(** ** Files through system calls: from the path to the bytes *)

Section syscall.
Context {DF : Type} (open_as_file : Z -> option DF).
Context (block_device : Z -> BlockDevice) (BlockDeviceClass : Z) (uninitialised : list Z).
Context (device_read : DF -> list Z -> Z -> outcome (Z * list Z * DF)).
Context (process_of : Z -> Z).
Context (depth : Z -> nat) (g : gmap Z Z).

#[local] Instance impl : PhysicalFS Physical PFSNode (File DF) Directory :=
  all_filesystems open_as_file block_device BlockDeviceClass uninitialised.
#[local] Instance laws : PhysicalFSLaws Physical PFSNode (File DF) Directory (physical_ok depth g) node_live node_kids :=
  all_filesystems_laws open_as_file block_device BlockDeviceClass uninitialised depth g.

Notation names := (resolve (kids := node_kids)).
Notation fs_inv := (vfs_inv (ok := physical_ok depth g) (live := node_live) (kids := node_kids)).
Notation Open := (sys_open open_as_file block_device BlockDeviceClass uninitialised).
Notation Read := (sys_read uninitialised device_read process_of).

(** A path is passed as a C string. *)
Definition path_cstr (comps : list (list Z)) (tl : list Z) : list Z := _data (path_of comps tl) ++ [0].

Lemma path_of_forall comps tl : Forall name_ok comps -> tl = [] \/ tl = [47] ->
  Forall (fun b => b <> 0) (_data (path_of comps tl)).
Proof.
  intros Hc Ht. unfold path_of. cbn [_data String_of]. constructor; [done|]. apply Forall_app. split.
  - apply join_forall; [done|]. eapply Forall_impl; [exact Hc|]. intros c (_ & Hf & _). eapply Forall_impl; [exact Hf|].
    cbn. intros b [Hb _]. exact Hb.
  - destruct Ht as [-> | ->]; repeat constructor. done.
Qed.

Lemma path_of_cstr comps tl : Forall name_ok comps -> tl = [] \/ tl = [47] ->
  Z.of_nat (length (_data (path_of comps tl))) < 2 ^ 64 -> String_cstr (path_cstr comps tl) = Ok (path_of comps tl).
Proof. intros Hc Ht Hl. unfold path_cstr. rewrite String_cstr_spec; [done| |done]. by apply path_of_forall. Qed.

(** What opening a node makes of the system state. *)
Record sys_ok (s : Sys DF) (root : Z) (ms : gmap (list Z) PFSNode) (go : gmap Z ObjectDescriptor) : Prop := {
  so_fs : fs_inv (vfs s) root ms;
  so_om : om_ok (object_manager s) go;
  so_room : _next_handle (object_manager s) < 2 ^ 64 - 1
}.

Lemma sys_open_spec s root ms go cur comps tl flags n f : sys_ok s root ms go -> Forall name_ok comps ->
  tl = [] \/ tl = [47] -> (comps = [] -> tl = []) -> Z.of_nat (length (_data (path_of comps tl))) < 2 ^ 64 ->
  names (pfs (vfs s)) ms (rev (hashes comps)) = Some n ->
  open open_as_file uninitialised (pfs (vfs s)) n = Ok (Some f) ->
  exists h s', Open s cur (path_cstr comps tl) flags = Ok (h, s') /\ h <> Error /\ go !! h = None /\
    open_files s' = <[next_file s := f]> (open_files s) /\
    om_ok (object_manager s') (<[h := {| od_owner := cur; od_object := FileObject (next_file s) |}]> go) /\
    fs_inv (vfs s') root ms /\ pfs (vfs s') = pfs (vfs s).
Proof.
  intros [If Io Hr] Hc Ht Hct Hl Hn Hf. unfold sys_open. step_to (path_of_cstr comps tl Hc Ht Hl).
  destruct (open_spec (H := impl) (vfs s) root ms comps tl flags If Hc Ht Hct) as (v' & I' & P' & E).
  rewrite Hn in E. cbn [pfs_open impl all_filesystems] in E. rewrite Hf in E. cbn [mbind outcome_bind] in E. step_to E.
  cbn [new_file set_vfs object_manager].
  destruct (register_object_spec (object_manager s) go cur (FileObject (next_file s)) Io Hr) as (om' & E2 & Io' & _ & Hnew).
  step_to E2. eexists _, _. split; [done|]. split; [|by split_and!].
  pose proof (om_range _ _ Io). unfold Error. change (u64 (-1)) with (2 ^ 64 - 1). lia.
Qed.

(** A read through a handle of the process. *)
Lemma sys_read_spec s go cur h d p f buffer size : om_ok (object_manager s) go -> go !! h = Some d ->
  od_object d = FileObject p -> process_of (od_owner d) = process_of cur -> open_files s !! p = Some f ->
  Read s cur h buffer size = '(n, buffer, f) ← File_read uninitialised device_read f buffer size;
                             Ok (u32 n, buffer, set_file s p f).
Proof.
  intros Io Hh Ho Hp Hf. unfold sys_read, get_object. rewrite (get_object_spec _ _ _ cur h Io), Hh.
  cbn [mbind outcome_bind option_bind]. rewrite eqb_true by done. rewrite Ho. cbn [as_file mbind outcome_bind].
  rewrite Hf. done.
Qed.

Lemma sys_read_denied s go cur h d buffer size : om_ok (object_manager s) go -> go !! h = Some d ->
  process_of (od_owner d) <> process_of cur -> Read s cur h buffer size = Ok (minus_one, buffer, s).
Proof.
  intros Io Hh Hp. unfold sys_read, get_object. rewrite (get_object_spec _ _ _ cur h Io), Hh.
  cbn [mbind outcome_bind option_bind]. by rewrite eqb_false.
Qed.

(** The node at a path is a file of the built-in driver's archive, and its
    blocks hold [data]. *)
Record archive_file (s : Physical) (n : PFSNode) (dev : BlockDevice) (data : list Z) : Prop := {
  af_node : exists f p ns x b hdr, n = TarNode f p /\ archive_of s f = Ok (dev, true, ns) /\ node_heap ns !! p = Some x /\
    _has_block_offset x = true /\ _block_offset x = b /\ 0 <= b < 2 ^ 31 - 1 /\ read_block dev b = Some hdr /\
    octal2ui (hdr_size hdr) = Ok (Z.of_nat (length data)) /\ stored dev (b + 1) data;
  af_size : block_size dev = 512 /\ 0 < Z.of_nat (length data) < 2 ^ 31
}.

Lemma archive_file_open s n dev data : archive_file s n dev data ->
  exists f, open open_as_file uninitialised s n = Ok (Some (InternalFile dev f)) /\ XXc f = Z.of_nat (length data) /\
    Xxc f = 0 /\ stored dev (xXc f) data /\ 0 <= xXc f < 2 ^ 31.
Proof.
  intros [(fs & p & ns & x & b & hdr & -> & Ha & Hx & Ho & Hb & Hb31 & Hr & Hoct & Hst) [_ Hlen]].
  cbn [open]. unfold TarNode_open. step_to Ha. unfold tnode. rewrite Hx. cbn [in_bounds mbind outcome_bind]. rewrite Ho, Hb.
  unfold ZZz_new, zmfj. rewrite Hr. cbn [default]. step_to Hoct.
  eexists. split; [reflexivity|]. cbn [XXc Xxc xXc]. rewrite eqb_false by lia. rewrite wrap_small by lia. split_and!; (done || lia).
Qed.

(** Reading through a handle gives the bytes of the file in order; a thread of
    another process gets -1. *)
Lemma sys_open_read_spec s root ms go cur comps tl flags n dev data : sys_ok s root ms go -> Forall name_ok comps ->
  tl = [] \/ tl = [47] -> (comps = [] -> tl = []) -> Z.of_nat (length (_data (path_of comps tl))) < 2 ^ 64 ->
  names (pfs (vfs s)) ms (rev (hashes comps)) = Some n -> archive_file (pfs (vfs s)) n dev data ->
  exists h s1, Open s cur (path_cstr comps tl) flags = Ok (h, s1) /\ h <> Error /\ fs_inv (vfs s1) root ms /\
    (forall other buffer size, process_of other <> process_of cur ->
       Read s1 other h buffer size = Ok (minus_one, buffer, s1)) /\
    forall t a b buffer1 buffer2, process_of cur = process_of t ->
      0 <= a -> 0 <= b -> a + b <= Z.of_nat (length data) -> a <= Z.of_nat (length buffer1) -> b <= Z.of_nat (length buffer2) ->
      exists s2 s3, Read s1 t h buffer1 a = Ok (a, take (Z.to_nat a) data ++ drop (Z.to_nat a) buffer1, s2) /\
        Read s2 t h buffer2 b =
          Ok (b, take (Z.to_nat b) (drop (Z.to_nat a) data) ++ drop (Z.to_nat b) buffer2, s3).
Proof.
  intros Hs Hc Ht Hct Hl Hn Ha. destruct (archive_file_open _ _ _ _ Ha) as (f & Hf & HX & Hpos & Hst & Hx).
  pose proof (af_size _ _ _ _ Ha) as [Hbs Hlen].
  destruct (sys_open_spec s root ms go cur comps tl flags n _ Hs Hc Ht Hct Hl Hn Hf)
    as (h & s1 & E & Hne & Hg & Hfiles & Io & I' & _).
  exists h, s1. split; [done|]. split; [done|]. split; [done|]. split.
  { intros other buffer size Hp. eapply sys_read_denied; [exact Io|apply lookup_insert_eq|]. cbn. congruence. }
  intros t a b buffer1 buffer2 Hp H0a H0b Hab Hb1 Hb2.
  assert (forall off size buffer, 0 <= off -> 0 <= size -> off + size <= Z.of_nat (length data) ->
    size <= Z.of_nat (length buffer) -> InternalDriver.read dev (at_position f off) buffer size =
      Ok (size, take (Z.to_nat size) (drop (Z.to_nat off) data) ++ drop (Z.to_nat size) buffer, at_position f (off + size))) as Hread.
  { intros off size buffer H1 H2 H3 H4.
    destruct (internal_pread_spec dev f data buffer size off Hbs Hst HX ltac:(lia) Hx H1 H2 H3 H4) as (_ & Hlt & Heof).
    destruct (decide (off < XXc f)) as [Hoff|Hoff]; [by apply Hlt|].
    assert (off = XXc f) as -> by lia. replace size with 0 in * by lia. rewrite Heof.
    by rewrite Z.add_0_r, Z2Nat.inj_0, take_0, drop_0. }
  assert (f = at_position f 0) as Hf0 by (destruct f; cbn in Hpos; subst; done).
  assert (open_files s1 !! next_file s = Some (InternalFile dev (at_position f 0))) as Hl1
    by (rewrite Hfiles, <- Hf0; apply lookup_insert_eq).
  eexists _, _. split.
  - rewrite (sys_read_spec s1 _ t h _ (next_file s) _ buffer1 a Io (lookup_insert_eq _ _ _) eq_refl Hp Hl1).
    cbn [File_read]. rewrite Hread by lia. cbn [mbind outcome_bind]. rewrite wrap_small by lia. reflexivity.
  - rewrite (sys_read_spec (set_file s1 (next_file s) (InternalFile dev (at_position f (0 + a)))) _ t h _ (next_file s)
      (InternalFile dev (at_position f (0 + a))) buffer2 b Io (lookup_insert_eq _ _ _) eq_refl Hp)
      by (cbn [set_file open_files]; apply lookup_insert_eq).
    cbn [File_read]. rewrite Hread by lia. cbn [mbind outcome_bind]. rewrite wrap_small by lia. reflexivity.
Qed.

End syscall.

(** A file that the archive describes has a header at its block. *)
Lemma expected_header dev b es old q b' sz : archive dev b es -> 0 <= b ->
  expected b es old q = Some (Some (b', sz)) -> old q <> Some (Some (b', sz)) ->
  exists e, read_block dev b' = Some (header e) /\ entry_ok e /\ te_size e = sz /\ 0 <= b' < block_count dev.
Proof.
  intros Ha. revert old. induction Ha as [b|b|b e es Hlt Hr He Hb Ha IH]; intros old Hb0 Hx Ho; cbn [expected] in Hx; try done.
  pose proof (content_blocks_nonneg (te_size e) ltac:(apply (eo_size _ He))) as Hc.
  destruct (decide (te_type e = 48)) as [Ht|Ht]; [|rewrite eqb_false in Hx by done; by apply (IH old); [lia| |]].
  rewrite eqb_true in Hx by done.
  destruct (decide (record_file (hash <$> te_path e) (b, te_size e) old q = Some (Some (b', sz)))) as [Hn|Hn].
  - unfold record_file in Hn. case_decide as Hq; [by injection Hn as <- <-; exists e|].
    unfold touch in Hn. case_decide as Hp; [|done]. exfalso. apply Ho. destruct (old q) as [[]|]; cbn in Hn; congruence.
  - apply (IH _ ltac:(lia) Hx Hn).
Qed.

Section boot.
Context {DF : Type} (open_as_file : Z -> option DF).
Context (block_device : Z -> BlockDevice) (BlockDeviceClass : Z) (uninitialised : list Z).
Context (device_read : DF -> list Z -> Z -> outcome (Z * list Z * DF)).
Context (process_of : Z -> Z).
Context (depth : Z -> nat) (g : gmap Z Z) (regs : list FilesystemRegistration).
Context (Hregs : regs ≡ₚ file_system_registrations).

Notation Open := (sys_open open_as_file block_device BlockDeviceClass uninitialised).
Notation Read := (sys_read uninitialised device_read process_of).

(** The state of the system calls when the kernel has mounted its file systems. *)
Definition booted_sys (v : VirtualFilesystem Physical PFSNode) : Sys DF := {|
  vfs := v; object_manager := ObjectManager_new; open_files := ∅; next_file := 1;
  open_directories := ∅; next_directory := 1 |}.

(** The node of a file of the archive below [/usr] once the kernel has booted
    with its default driver. *)
Lemma boot_file_spec v b d es comps blk data :
  boot_ok block_device BlockDeviceClass depth g v b d es -> boot_fstype b = replicate 16 0 -> block_size (block_device d) = 512 ->
  block_count (block_device d) < 2 ^ 31 ->
  expected 0 es (fun q => if decide (q = []) then Some None else None) (hash <$> comps) =
    Some (Some (blk, Z.of_nat (length data))) ->
  stored (block_device d) (blk + 1) data -> 0 < Z.of_nat (length data) < 2 ^ 31 ->
  exists v' root ms n, mount_filesystems open_as_file block_device BlockDeviceClass uninitialised v regs b = Ok v' /\
    vfs_inv (ok := physical_ok depth g) (live := node_live) (kids := node_kids) v' root ms /\
    resolve (kids := node_kids) (pfs v') ms (rev (hashes ([117; 115; 114] :: comps))) = Some n /\
    archive_file (pfs v') n (block_device d) data.
Proof.
  intros Hb Hfst Hbs Hbc Hexp Hst Hlen.
  destruct (mount_filesystems_spec open_as_file block_device BlockDeviceClass uninitialised depth g regs Hregs v b d es Hb)
    as (v' & root & ms & f & r & ns & E & I & _ & _ & Htree & Hns & Hent & internal & Hao & Hint).
  rewrite (Hint Hfst) in Hao. specialize (Hent (hash <$> comps)). rewrite Hexp in Hent. unfold entry in Hent.
  destruct (walk (node_heap ns) r (hash <$> comps)) as [p|] eqn:Ew; [|done]. cbn in Hent.
  destruct (node_heap ns !! p) as [x|] eqn:Ex; [|done]. cbn in Hent. unfold file_info in Hent.
  destruct (_has_block_offset x) eqn:Eo; [|done]. injection Hent as Hblk _.
  pose proof (bk_device _ _ _ _ _ _ _ _ Hb) as (name & tail & x0 & _ & _ & _ & _ & _ & _ & _ & Ha & _).
  destruct (expected_header _ 0 es _ _ _ _ Ha ltac:(lia) Hexp) as (e & Hr & He & Hsz & Hbl).
  { case_decide; done. }
  destruct (header_split e He) as (_ & (tail2 & Hs) & _).
  assert (archive_file (pfs v') (TarNode f p) (block_device d) data) as Haf.
  { split; [|done]. exists f, p, ns, x, blk, (header e). split_and!; try done; try lia.
    unfold hdr_size. rewrite Hs, octal2ui_spec by apply (eo_size _ He). by rewrite Z.mod_small, Hsz by apply (eo_size _ He). }
  assert (resolve (kids := node_kids) (pfs v') ms (rev (hashes ([117; 115; 114] :: comps))) = Some (TarNode f p)) as Hn.
  { assert (hashes ([117; 115; 114] :: comps) = husr :: (hash <$> comps)) as -> by (unfold hashes; cbn [fmap list_fmap]; f_equal; apply husr_eq).
    cbn [rev]. by rewrite Htree, Ew. }
  by exists v', root, ms, (TarNode f p).
Qed.

(** C25: when the kernel has booted with its default driver from an archive
    that lists a file, a program that opens the file's path below [/usr] reads
    the bytes that the archive's blocks hold after the file's header, in order,
    from one read to the next, as long as the two reads together ask for no
    more bytes than the file has and go to memory that has room for them.  A
    read across the end of the file gives the bytes behind it as well
    ([InternalDriver.pread_ignores_end]).  The threads of other processes
    cannot use the handle.  The file system is the built-in driver's: no other
    type is chosen on the command line. *)
Theorem boot_read_correct v b d es comps tl cur flags blk data :
  boot_ok block_device BlockDeviceClass depth g v b d es -> boot_fstype b = replicate 16 0 -> block_size (block_device d) = 512 ->
  block_count (block_device d) < 2 ^ 31 ->
  Forall name_ok comps -> tl = [] \/ tl = [47] ->
  expected 0 es (fun q => if decide (q = []) then Some None else None) (hash <$> comps) =
    Some (Some (blk, Z.of_nat (length data))) ->
  stored (block_device d) (blk + 1) data -> 0 < Z.of_nat (length data) < 2 ^ 31 ->
  let path := [117; 115; 114] :: comps in
  Z.of_nat (length (_data (path_of path tl))) < 2 ^ 64 ->
  exists v' h s1, mount_filesystems open_as_file block_device BlockDeviceClass uninitialised v regs b = Ok v' /\
    Open (booted_sys v') cur (path_cstr path tl) flags = Ok (h, s1) /\ h <> Error /\
    (forall other buffer size, process_of other <> process_of cur -> Read s1 other h buffer size = Ok (minus_one, buffer, s1)) /\
    forall a c buffer1 buffer2, 0 <= a -> 0 <= c -> a + c <= Z.of_nat (length data) ->
      a <= Z.of_nat (length buffer1) -> c <= Z.of_nat (length buffer2) ->
      exists s2 s3, Read s1 cur h buffer1 a = Ok (a, take (Z.to_nat a) data ++ drop (Z.to_nat a) buffer1, s2) /\
        Read s2 cur h buffer2 c =
          Ok (c, take (Z.to_nat c) (drop (Z.to_nat a) data) ++ drop (Z.to_nat c) buffer2, s3).
Proof.
  intros Hb Hfst Hbs Hbc Hc Ht Hexp Hst Hlen path Hpl.
  destruct (boot_file_spec v b d es comps blk data Hb Hfst Hbs Hbc Hexp Hst Hlen) as (v' & root & ms & n & E & I & Hn & Haf).
  assert (name_ok [117; 115; 114]) as Husr by (split; [done|split; [repeat constructor; lia|cbn; lia]]).
  destruct (sys_open_read_spec open_as_file block_device BlockDeviceClass uninitialised device_read process_of depth g
    (booted_sys v') root ms ∅ cur path tl flags n (block_device d) data)
    as (h & s1 & Eo1 & Hne & _ & Hden & Hread); try done.
  - split; [exact I|apply om_new|cbn; lia].
  - by constructor.
  - exists v', h, s1. split; [exact E|]. split; [exact Eo1|]. split; [done|]. split; [exact Hden|]. intros a c buffer1 buffer2 H1 H2 H3 H4 H5.
    by apply Hread.
Qed.
End boot.

(** The one file of the small archive holds five zeroes. *)
Lemma boot_read_correct_witness : exists m v' h s1 s2 s3,
  represents m {[ compute_hash (String_of [98; 108; 107; 48]) := 5 ]} /\
  mount_filesystems (fun _ => @None unit) (fun _ => small_archive) 1 [] (fresh_vfs (one_device_physical m))
    file_system_registrations blk0_settings = Ok v' /\
  sys_open (fun _ => @None unit) (fun _ => small_archive) 1 [] (booted_sys v') 1
    (path_cstr [[117; 115; 114]; [97]; [98]] []) 0 = Ok (h, s1) /\
  sys_read [] (fun f b _ => Ok (0, b, f)) (fun t => t) s1 1 h [9; 9; 9; 9] 3 = Ok (3, [0; 0; 0; 9], s2) /\
  sys_read [] (fun f b _ => Ok (0, b, f)) (fun t => t) s2 1 h [9; 9] 2 = Ok (2, [0; 0], s3).
Proof.
  destruct (represents_add _ _ (compute_hash (String_of [98; 108; 107; 48])) 5 (represents_new (V := Z))) as (m & _ & Hm).
  rewrite insert_empty in Hm. exists m.
  destruct (boot_read_correct (fun _ => @None unit) (fun _ => small_archive) 1 [] (fun f b _ => Ok (0, b, f)) (fun t => t) (fun _ => 0%nat)
    {[ compute_hash (String_of [98; 108; 107; 48]) := 5 ]} file_system_registrations (reflexivity _)
    (fresh_vfs (one_device_physical m)) blk0_settings 5 [small_entry] [[97]; [98]] [] 1 0 0 (replicate 5 0))
    as (v' & h & s1 & E & Eo & _ & _ & Hread).
  - by apply blk0_boot_ok.
  - reflexivity.
  - reflexivity.
  - reflexivity.
  - repeat constructor; try discriminate; cbn; lia.
  - left. reflexivity.
  - vm_compute. reflexivity.
  - intros i Hi H. cbn in H. replace i with 0 by lia. vm_compute. reflexivity.
  - cbn. lia.
  - cbn. lia.
  - destruct (Hread 3 2 [9; 9; 9; 9] [9; 9]) as (s2 & s3 & E2 & E3); [lia|lia|cbn; lia|cbn; lia|cbn; lia|].
    exists v', h, s1, s2, s3. split; [exact Hm|]. split; [exact E|]. split; [exact Eo|]. split; [exact E2|exact E3].
Defined.
