(* ===== verification/DescTables.v ===== *)
(** * arch/x86/dt.h, dt.cpp: segment and interrupt descriptor tables

    A descriptor is the list of its bit-fields in declaration order, each with
    its width; [pack] lays them out from the lowest bit.  A bit-field keeps the
    low bits of what is stored into it.  Fields the constructors leave alone
    hold what was on the stack, which is an argument.  The registers loaded by
    [lgdt], [lidt], [ltr] and [mov] are the record [CPU]. *)
From S2P Require Import Prelude.

Fixpoint pack (fields : list (Z * Z)) : Z :=
  match fields with
  | [] => 0
  | (w, v) :: fields => v mod 2 ^ w + 2 ^ w * pack fields
  end.

(** The two halves of a 16-byte descriptor. *)
Definition bits_low (fields : list (Z * Z)) : Z := pack fields mod 2 ^ 64.
Definition bits_high (fields : list (Z * Z)) : Z := pack fields / 2 ^ 64 mod 2 ^ 64.

(** ** Descriptors *)
Definition DataSegmentDescriptor (dpl : Z) : list (Z * Z) :=
  [(16, 0) (* limit_low *); (16, 0) (* base_low *); (8, 0) (* base_middle *);
   (1, 0) (* A *); (1, 1) (* W *); (1, 0) (* E *); (1, 0) (* ra_0_0 *); (1, 1) (* ra_1_1 *);
   (2, dpl) (* DPL *); (1, 1) (* P *); (4, 0) (* limit_high *);
   (1, 0) (* AVL *); (1, 0) (* ra_0_2 *); (1, 1) (* B *); (1, 0) (* G *); (8, 0) (* base_high *)].

Definition CodeSegmentDescriptor (dpl : Z) : list (Z * Z) :=
  [(32, 0) (* ra_0_1 *); (8, 0) (* ra_0_2 *); (1, 0) (* A *); (1, 1) (* R *); (1, 0) (* C *);
   (1, 1) (* ra_1_3 *); (1, 1) (* ra_1_4 *); (2, dpl) (* DPL *); (1, 1) (* P *); (4, 0) (* ra_0_5 *);
   (1, 0) (* AVL *); (1, 1) (* L *); (1, 0) (* D *); (1, 0) (* G *); (8, 0) (* ra_0_6 *)].

(** [reserved] is not initialised. *)
Definition TSSDescriptor (ptr size reserved : Z) : list (Z * Z) :=
  [(16, Z.land size 0xffff) (* limit_low *); (16, Z.land ptr 0xffff) (* base_low *);
   (8, Z.land (Z.shiftr ptr 16) 0xff) (* base_middle *); (4, 9) (* Type *); (1, 0) (* ra_0_0 *);
   (2, 0) (* DPL *); (1, 1) (* P *); (4, Z.land (Z.shiftr size 16) 0xf) (* limit_high *);
   (1, 0) (* AVL *); (1, 0) (* ra_0_1 *); (1, 1) (* ra_1_2 *); (1, 0) (* G *);
   (8, Z.land (Z.shiftr ptr 24) 0xff) (* base_high *); (32, Z.shiftr ptr 32) (* base_xhigh *);
   (32, reserved)].

(** [ra_0_1] is not initialised. *)
Definition InterruptGateDescriptor (offset seg dpl ra_0_1 : Z) : list (Z * Z) :=
  [(16, Z.land offset 0xffff) (* offset_low *); (16, seg) (* segment_selector *); (3, 0) (* ist *);
   (10, 0x1c0) (* ra_1c0_0 *); (2, dpl) (* DPL *); (1, 1) (* P *);
   (16, Z.land (Z.shiftr offset 16) 0xffff) (* offset_mid *);
   (32, Z.land (Z.shiftr offset 32) 0xffffffff) (* offset_high *); (32, ra_0_1)].

(** [ist] has two bits here, so that one bit of padding [pad] precedes
    [offset_mid]. *)
Definition TrapGateDescriptor (offset seg dpl ra_0_1 pad : Z) : list (Z * Z) :=
  [(16, Z.land offset 0xffff) (* offset_low *); (16, seg) (* segment_selector *); (2, 0) (* ist *);
   (10, 0x1e0) (* ra_1e0_0 *); (2, dpl) (* DPL *); (1, 1) (* P *); (1, pad);
   (16, Z.land (Z.shiftr offset 16) 0xffff) (* offset_mid *);
   (32, Z.land (Z.shiftr offset 32) 0xffffffff) (* offset_high *); (32, ra_0_1)].

(** ** Registers *)
Record TablePointer := { length_ : Z; ptr : Z }.
Record CPU := { gdtr : TablePointer; idtr : TablePointer; ds : Z; es : Z; ss : Z; tr : Z }.

Definition lgdt (c : CPU) (p : TablePointer) : CPU :=
  {| gdtr := p; idtr := idtr c; ds := ds c; es := es c; ss := ss c; tr := tr c |}.
Definition lidt (c : CPU) (p : TablePointer) : CPU :=
  {| gdtr := gdtr c; idtr := p; ds := ds c; es := es c; ss := ss c; tr := tr c |}.
Definition load_data_segments (c : CPU) (sel : Z) : CPU :=
  {| gdtr := gdtr c; idtr := idtr c; ds := sel; es := sel; ss := sel; tr := tr c |}.
Definition ltr (c : CPU) (sel : Z) : CPU :=
  {| gdtr := gdtr c; idtr := idtr c; ds := ds c; es := es c; ss := ss c; tr := sel |}.

(** Storing into an array. *)
Definition store {A} (a : list A) (i : Z) (x : A) : outcome (list A) :=
  if (0 <=? i) && (i <? Z.of_nat (length a)) then Ok (<[Z.to_nat i := x]> a) else Fault OutOfBounds.

(** ** GDT *)
Module GDT.
Definition MAX_NR_GDT_ENTRIES : Z := 16.

(** [address] is where the table lies. *)
Record GDT := { _current : Z; __gdt : list Z; address : Z }.

(** [__gdt[_current++] = bits] *)
Definition append (g : GDT) (bits : Z) : outcome GDT :=
  a ← store (__gdt g) (_current g) bits;
  Ok {| _current := u8 (_current g + 1); __gdt := a; address := address g |}.

Definition erase (g : GDT) : GDT := {| _current := 0; __gdt := __gdt g; address := address g |}.

Definition add_null (g : GDT) : outcome (bool * GDT) :=
  if MAX_NR_GDT_ENTRIES <=? _current g then Ok (false, g)
  else g ← append g 0; Ok (true, g).

Definition add_code_segment (g : GDT) (dpl : Z) : outcome (bool * GDT) :=
  if MAX_NR_GDT_ENTRIES <=? _current g then Ok (false, g)
  else g ← append g (pack (CodeSegmentDescriptor dpl)); Ok (true, g).

Definition add_data_segment (g : GDT) (dpl : Z) : outcome (bool * GDT) :=
  if MAX_NR_GDT_ENTRIES <=? _current g then Ok (false, g)
  else g ← append g (pack (DataSegmentDescriptor dpl)); Ok (true, g).

Definition add_tss (g : GDT) (ptr size reserved : Z) : outcome (bool * GDT) :=
  if MAX_NR_GDT_ENTRIES - 1 <=? _current g then Ok (false, g)
  else
    let desc := TSSDescriptor ptr size reserved in
    g ← append g (bits_low desc);
    g ← append g (bits_high desc);
    Ok (true, g).

Definition reload (g : GDT) (c : CPU) : bool * CPU :=
  let c := lgdt c {| length_ := u16 (_current g * 8); ptr := address g |} in
  (true, load_data_segments c 0x10).

Definition get_ptr (c : CPU) : Z := ptr (gdtr c).

(** [tss] is the address of the task state segment, 26 words long. *)
Definition init (g : GDT) (c : CPU) (tss reserved : Z) : outcome (bool * GDT * CPU) :=
  let g := erase g in
  '(ok, g) ← add_null g; if negb ok then Ok (false, g, c) else
  '(ok, g) ← add_code_segment g 0; if negb ok then Ok (false, g, c) else
  '(ok, g) ← add_data_segment g 0; if negb ok then Ok (false, g, c) else
  '(ok, g) ← add_code_segment g 3; if negb ok then Ok (false, g, c) else
  '(ok, g) ← add_data_segment g 3; if negb ok then Ok (false, g, c) else
  '(ok, g) ← add_tss g tss (26 * 8) reserved; if negb ok then Ok (false, g, c) else
  let '(ok, c) := reload g c in Ok (ok, g, c).
End GDT.

(** ** IDT *)
Module IDT.
Definition MAX_NR_IDT_ENTRIES : Z := 256.

(** An entry is its low and its high word. *)
Record IDT := { _max_index : Z; __idt : list (Z * Z); address : Z }.

Definition reload (t : IDT) (c : CPU) : bool * CPU :=
  (true, lidt c {| length_ := u16 ((_max_index t + 1) * 16); ptr := address t |}).

Definition get_ptr (c : CPU) : Z := ptr (idtr c).

Definition init (t : IDT) (c : CPU) : bool * IDT * CPU :=
  let t := {| _max_index := 0; __idt := (fun _ => (0, 0)) <$> __idt t; address := address t |} in
  let '(ok, c) := reload t c in (ok, t, c).

Definition set_entry (t : IDT) (index : Z) (desc : list (Z * Z)) : outcome IDT :=
  a ← store (__idt t) index (bits_low desc, bits_high desc);
  Ok {| _max_index := if _max_index t <? index then u8 index else _max_index t;
        __idt := a; address := address t |}.

Definition register_interrupt_gate (t : IDT) (index addr seg dpl ra_0_1 : Z) : outcome (bool * IDT) :=
  if MAX_NR_IDT_ENTRIES <=? index then Ok (false, t)
  else t ← set_entry t index (InterruptGateDescriptor addr seg dpl ra_0_1); Ok (true, t).

Definition register_trap_gate (t : IDT) (index addr seg dpl ra_0_1 pad : Z) : outcome (bool * IDT) :=
  if MAX_NR_IDT_ENTRIES <=? index then Ok (false, t)
  else t ← set_entry t index (TrapGateDescriptor addr seg dpl ra_0_1 pad); Ok (true, t).
End IDT.

(** ** TSS *)
Module TSS.
(** The 26 words of the segment. *)
Record TSS := { __tss : list Z }.

(** A 64-bit word stored at byte 4: the high half of word 0 and the low half
    of word 1 (the machine is little-endian). *)
Definition set_kernel_stack (t : TSS) (stack : Z) : outcome TSS :=
  w0 ← in_bounds (__tss t !! 0%nat);
  w1 ← in_bounds (__tss t !! 1%nat);
  a ← store (__tss t) 0 (w0 mod 2 ^ 32 + 2 ^ 32 * (stack mod 2 ^ 32));
  a ← store a 1 (stack / 2 ^ 32 + 2 ^ 32 * (w1 / 2 ^ 32));
  Ok {| __tss := a |}.

Definition init (t : TSS) (c : CPU) (sel : Z) : outcome (bool * TSS * CPU) :=
  t ← set_kernel_stack t 0;
  Ok (true, t, ltr c sel).

Definition get_sel (c : CPU) : Z := tr c.
End TSS.

(** ** X86Arch::init: the three tables in order.  The model-specific registers
    it writes afterwards are constants. *)
Record tables := { gdt : GDT.GDT; idt : IDT.IDT; tss : TSS.TSS; tss_address : Z; cpu : CPU }.

Definition X86Arch_init (t : tables) (reserved : Z) : outcome (bool * tables) :=
  '(ok, g, c) ← GDT.init (gdt t) (cpu t) (tss_address t) reserved;
  let t := {| gdt := g; idt := idt t; tss := tss t; tss_address := tss_address t; cpu := c |} in
  if negb ok then Ok (false, t) else
  let '(ok, i, c) := IDT.init (idt t) (cpu t) in
  let t := {| gdt := gdt t; idt := i; tss := tss t; tss_address := tss_address t; cpu := c |} in
  if negb ok then Ok (false, t) else
  '(ok, s, c) ← TSS.init (tss t) (cpu t) 0x28;
  let t := {| gdt := gdt t; idt := idt t; tss := s; tss_address := tss_address t; cpu := c |} in
  if negb ok then Ok (false, t) else Ok (true, t).
