(* ===== verification/DescTablesProof.v ===== *)
(** * Descriptor tables: what the processor reads back

    [decode_gate] and [decode_segment] are the processor's reading of an entry;
    the theorems state what it finds in the tables the kernel loads. *)
From S2P Require Import Prelude DescTables.

(** [w] bits of [x] from bit [a]. *)
Definition bits (a w x : Z) : Z := x / 2 ^ a mod 2 ^ w.

Fixpoint width (fields : list (Z * Z)) : Z :=
  match fields with [] => 0 | (w, _) :: fields => w + width fields end.

(** The field that starts at bit [a]. *)
Fixpoint field_at (fields : list (Z * Z)) (a : Z) : option (Z * Z) :=
  match fields with
  | [] => None
  | (w, v) :: fields => if a =? 0 then Some (w, v) else field_at fields (a - w)
  end.

Definition layout (fields : list (Z * Z)) : Prop := Forall (fun f => 0 < f.1) fields.

Record gate := {
  g_offset : Z; g_selector : Z; g_ist : Z; g_type : Z; g_system : Z; g_dpl : Z; g_present : bool
}.

Definition decode_gate (e : Z * Z) : gate :=
  let '(low, high) := e in {|
    g_offset := bits 0 16 low + 2 ^ 16 * bits 48 16 low + 2 ^ 32 * bits 0 32 high;
    g_selector := bits 16 16 low;
    g_ist := bits 32 3 low;
    g_type := bits 40 4 low;
    g_system := bits 44 1 low;
    g_dpl := bits 45 2 low;
    g_present := bits 47 1 low =? 1
  |}.

(** Types of gates. *)
Definition INTERRUPT_GATE : Z := 14.
Definition TRAP_GATE : Z := 15.

Record segment := {
  s_type : Z; s_system : Z; s_dpl : Z; s_present : bool; s_long : bool
}.

Definition decode_segment (d : Z) : segment := {|
  s_type := bits 40 4 d; s_system := bits 44 1 d; s_dpl := bits 45 2 d;
  s_present := bits 47 1 d =? 1; s_long := bits 53 1 d =? 1
|}.

(** Base and limit of a task state segment, whose descriptor takes two
    entries. *)
Definition tss_base (low high : Z) : Z :=
  bits 16 16 low + 2 ^ 16 * bits 32 8 low + 2 ^ 24 * bits 56 8 low + 2 ^ 32 * bits 0 32 high.
Definition tss_limit (low : Z) : Z := bits 0 16 low + 2 ^ 16 * bits 48 4 low.

(** The stack pointer for ring 0, at byte 4 of the segment. *)
Definition rsp0 (t : TSS.TSS) : option Z :=
  w0 ← TSS.__tss t !! 0%nat; w1 ← TSS.__tss t !! 1%nat;
  Some (w0 / 2 ^ 32 + 2 ^ 32 * (w1 mod 2 ^ 32)).

(** ** Bits of packed fields *)
Lemma bits_mod a w n x : 0 <= a -> 0 <= w -> a + w <= n -> bits a w (x mod 2 ^ n) = bits a w x.
Proof.
  intros. unfold bits. rewrite <- !Z.shiftr_div_pow2, <- !Z.land_ones by lia.
  apply Z.bits_inj'. intros i Hi. rewrite !Z.land_spec, Z.testbit_ones_nonneg by lia.
  destruct (Z.ltb_spec i w); [|by rewrite !andb_false_r].
  rewrite !Z.shiftr_spec, Z.land_spec, Z.testbit_ones_nonneg by lia.
  by rewrite (proj2 (Z.ltb_lt (i + a) n)), !andb_true_r by lia.
Qed.

Lemma bits_div a w n x : 0 <= a -> 0 <= n -> bits a w (x / 2 ^ n) = bits (n + a) w x.
Proof. intros. unfold bits. rewrite Z.pow_add_r, Zdiv.Zdiv_Zdiv by lia. done. Qed.

Lemma bits_bits a w b n x : 0 <= a -> 0 <= w -> 0 <= b -> a + w <= n -> bits a w (bits b n x) = bits (b + a) w x.
Proof. intros. unfold bits at 2. rewrite bits_mod, bits_div by lia. done. Qed.

Lemma bits_low_high a w fs : 0 <= a -> 0 <= w -> a + w <= 64 ->
  bits a w (bits_low fs) = bits a w (pack fs) /\ bits a w (bits_high fs) = bits (64 + a) w (pack fs).
Proof. intros. unfold bits_low, bits_high. rewrite !bits_mod, bits_div by lia. done. Qed.

Lemma field_at_pos fs a w v : layout fs -> field_at fs a = Some (w, v) -> 0 <= a.
Proof.
  intros H. revert a. induction H as [|[w1 v1] fs Hw H IH]; intros a; cbn; [done|].
  destruct (Z.eqb_spec a 0); [lia|]. intros E. specialize (IH _ E). cbn in Hw. lia.
Qed.

Lemma bits_field fs a w v : layout fs -> field_at fs a = Some (w, v) -> bits a w (pack fs) = v mod 2 ^ w.
Proof.
  intros H. revert a. induction H as [|[w1 v1] fs Hw H IH]; intros a; cbn; [done|]. cbn in Hw.
  assert (0 < 2 ^ w1) as Hp by (apply Z.pow_pos_nonneg; lia).
  destruct (Z.eqb_spec a 0) as [->|]; intros E.
  - injection E as -> ->. unfold bits. rewrite Z.pow_0_r, Z.div_1_r, Z.mul_comm, Z.mod_add, Z.mod_mod by lia. done.
  - rewrite <- (IH _ E). pose proof (field_at_pos _ _ _ _ H E).
    replace a with (w1 + (a - w1)) at 1 by lia. rewrite <- bits_div by lia. f_equal.
    rewrite Z.mul_comm, Z.div_add, Z.div_small by (try apply Z.mod_pos_bound; lia). lia.
Qed.

(** Read a field of either half. *)
Lemma low_field fs a w v : layout fs -> field_at fs a = Some (w, v) -> 0 <= w -> a + w <= 64 ->
  bits a w (bits_low fs) = v mod 2 ^ w.
Proof.
  intros. rewrite (proj1 (bits_low_high a w fs (field_at_pos _ _ _ _ H H0) H1 H2)). by apply bits_field.
Qed.

Lemma high_field fs a w v : layout fs -> field_at fs (64 + a) = Some (w, v) -> 0 <= a -> 0 <= w -> a + w <= 64 ->
  bits a w (bits_high fs) = v mod 2 ^ w.
Proof. intros. rewrite (proj2 (bits_low_high a w fs ltac:(done) ltac:(done) ltac:(done))). by apply bits_field. Qed.

(** Part of a field. *)
Lemma low_subfield fs c b n v a w : layout fs -> field_at fs b = Some (n, v) -> c = b + a ->
  0 <= a -> 0 <= w -> a + w <= n -> b + n <= 64 -> bits c w (bits_low fs) = bits a w (v mod 2 ^ n).
Proof.
  intros HL H -> ????. pose proof (field_at_pos _ _ _ _ HL H). rewrite <- (bits_bits a w b n) by lia.
  f_equal. apply low_field; [done..|lia|lia].
Qed.

Lemma land_mask x n m : m = 2 ^ n - 1 -> 0 <= n -> Z.land x m = x mod 2 ^ n.
Proof. intros ->. intros. rewrite <- Z.land_ones by lia. by rewrite Z.ones_equiv, Z.sub_1_r. Qed.

Lemma split_16_16_32 o : 0 <= o < 2 ^ 64 ->
  o mod 2 ^ 16 + 2 ^ 16 * (o / 2 ^ 16 mod 2 ^ 16) + 2 ^ 32 * (o / 2 ^ 32 mod 2 ^ 32) = o.
Proof. intros. change (2 ^ 16) with 65536. change (2 ^ 32) with 4294967296. Z.to_euclidean_division_equations. lia. Qed.

Lemma split_16_8_8_32 o : 0 <= o < 2 ^ 64 ->
  o mod 2 ^ 16 + 2 ^ 16 * (o / 2 ^ 16 mod 2 ^ 8) + 2 ^ 24 * (o / 2 ^ 24 mod 2 ^ 8)
    + 2 ^ 32 * (o / 2 ^ 32 mod 2 ^ 32) = o.
Proof.
  intros. change (2 ^ 16) with 65536. change (2 ^ 32) with 4294967296. change (2 ^ 24) with 16777216.
  change (2 ^ 8) with 256. Z.to_euclidean_division_equations. lia.
Qed.

(** [layout] and positions of the concrete descriptors. *)
Ltac field := first [repeat constructor|reflexivity|lia].

(** ** Gates *)
Definition interrupt_gate (addr seg dpl : Z) : gate := {|
  g_offset := addr; g_selector := seg; g_ist := 0; g_type := INTERRUPT_GATE; g_system := 0; g_dpl := dpl;
  g_present := true
|}.

Definition entry_of (desc : list (Z * Z)) : Z * Z := (bits_low desc, bits_high desc).

Lemma decode_interrupt_gate addr seg dpl junk : 0 <= addr < 2 ^ 64 -> 0 <= seg < 2 ^ 16 -> 0 <= dpl < 4 ->
  decode_gate (entry_of (InterruptGateDescriptor addr seg dpl junk)) = interrupt_gate addr seg dpl.
Proof.
  intros Ha Hs Hd. unfold decode_gate, entry_of, interrupt_gate.
  set (fs := InterruptGateDescriptor addr seg dpl junk). assert (layout fs) as HL by field.
  rewrite (low_field fs 0 16 _ HL eq_refl), (low_field fs 48 16 _ HL eq_refl),
    (high_field fs 0 32 _ HL eq_refl), (low_field fs 16 16 _ HL eq_refl), (low_field fs 32 3 _ HL eq_refl),
    (low_field fs 45 2 _ HL eq_refl), (low_field fs 47 1 _ HL eq_refl) by lia.
  rewrite (low_subfield fs 40 35 10 _ 5 4 HL eq_refl), (low_subfield fs 44 35 10 _ 9 1 HL eq_refl) by lia.
  rewrite (land_mask addr 16 0xffff eq_refl), (land_mask _ 16 0xffff eq_refl), (land_mask _ 32 0xffffffff eq_refl), !Z.shiftr_div_pow2, !Z.mod_mod by lia.
  rewrite split_16_16_32, (Z.mod_small seg), (Z.mod_small dpl) by lia. reflexivity.
Qed.

(** The trap gates the kernel would install are not trap gates: their type is
    that of a 16-bit gate, and the present bit is padding. *)
Lemma decode_trap_gate addr seg dpl junk pad : 0 <= dpl < 4 ->
  let g := decode_gate (entry_of (TrapGateDescriptor addr seg dpl junk pad)) in
  g_type g = 7 /\ g_type g <> TRAP_GATE /\ g_present g = (pad mod 2 =? 1).
Proof.
  intros Hd. unfold decode_gate, entry_of. cbn [g_type g_present].
  set (fs := TrapGateDescriptor addr seg dpl junk pad). assert (layout fs) as HL by field.
  rewrite (low_subfield fs 40 34 10 _ 6 4 HL eq_refl), (low_field fs 47 1 _ HL eq_refl) by lia.
  split; [reflexivity|]. split; [discriminate|reflexivity].
Qed.

Lemma decode_tss ptr size junk : 0 <= ptr < 2 ^ 64 -> 0 <= size < 2 ^ 20 ->
  let d := TSSDescriptor ptr size junk in
  tss_base (bits_low d) (bits_high d) = ptr /\ tss_limit (bits_low d) = size /\
  decode_segment (bits_low d) = {| s_type := 9; s_system := 0; s_dpl := 0; s_present := true; s_long := false |}.
Proof.
  intros Hp Hs. set (fs := TSSDescriptor ptr size junk). assert (layout fs) as HL by field.
  unfold tss_base, tss_limit, decode_segment.
  rewrite (low_field fs 16 16 _ HL eq_refl), (low_field fs 32 8 _ HL eq_refl), (low_field fs 56 8 _ HL eq_refl),
    (high_field fs 0 32 _ HL eq_refl), (low_field fs 0 16 _ HL eq_refl), (low_field fs 48 4 _ HL eq_refl),
    (low_field fs 40 4 _ HL eq_refl), (low_field fs 44 1 _ HL eq_refl), (low_field fs 45 2 _ HL eq_refl),
    (low_field fs 47 1 _ HL eq_refl), (low_field fs 53 1 _ HL eq_refl) by lia.
  rewrite (land_mask ptr 16 0xffff eq_refl), !(land_mask _ 8 0xff eq_refl), (land_mask size 16 0xffff eq_refl),
    (land_mask _ 4 0xf eq_refl), !Z.shiftr_div_pow2, !Z.mod_mod by lia.
  rewrite split_16_8_8_32 by lia. split; [done|]. split; [|reflexivity].
  change (2 ^ 16) with 65536. change (2 ^ 4) with 16. Z.to_euclidean_division_equations. lia.
Qed.

(** ** The tables at boot *)
Lemma store_ok {A} (a : list A) i x : 0 <= i < Z.of_nat (length a) -> store a i x = Ok (<[Z.to_nat i := x]> a).
Proof. intros. unfold store. rewrite (proj2 (Z.leb_le 0 i)), (proj2 (Z.ltb_lt i _)) by lia. done. Qed.

(** The first seven entries after [GDT.init]. *)
Definition boot_gdt (tss junk : Z) : list Z :=
  [0; pack (CodeSegmentDescriptor 0); pack (DataSegmentDescriptor 0); pack (CodeSegmentDescriptor 3);
   pack (DataSegmentDescriptor 3); bits_low (TSSDescriptor tss 208 junk); bits_high (TSSDescriptor tss 208 junk)].

Lemma gdt_init_spec g c tss junk : length (GDT.__gdt g) = 16%nat ->
  GDT.init g c tss junk = Ok (true,
    {| GDT._current := 7; GDT.__gdt := boot_gdt tss junk ++ drop 7 (GDT.__gdt g); GDT.address := GDT.address g |},
    load_data_segments (lgdt c {| length_ := 56; ptr := GDT.address g |}) 0x10).
Proof.
  intros HL. destruct g as [cur a addr]. cbn [GDT.__gdt] in HL.
  do 16 (destruct a as [|? a]; [discriminate HL|]). destruct a; [|discriminate HL]. clear HL.
  reflexivity.
Qed.

Definition code_segment (dpl : Z) : segment :=
  {| s_type := 10; s_system := 1; s_dpl := dpl; s_present := true; s_long := true |}.
Definition data_segment (dpl : Z) : segment :=
  {| s_type := 2; s_system := 1; s_dpl := dpl; s_present := true; s_long := false |}.

(** The halves of a word made of two. *)
Lemma halves_high x y : 0 <= x < 2 ^ 32 -> (x + 2 ^ 32 * y) / 2 ^ 32 = y.
Proof. intros. rewrite (Z.mul_comm (2 ^ 32)), Z.div_add, Z.div_small by lia. lia. Qed.

Lemma halves_low x y : 0 <= x < 2 ^ 32 -> (x + 2 ^ 32 * y) mod 2 ^ 32 = x.
Proof. intros. rewrite (Z.mul_comm (2 ^ 32)), Z.mod_add, Z.mod_small by lia. done. Qed.

Lemma set_kernel_stack_spec t stack : length (TSS.__tss t) = 26%nat -> 0 <= stack < 2 ^ 64 ->
  exists t', TSS.set_kernel_stack t stack = Ok t' /\ rsp0 t' = Some stack /\ length (TSS.__tss t') = 26%nat /\
    forall k, (2 <= k)%nat -> TSS.__tss t' !! k = TSS.__tss t !! k.
Proof.
  intros HL Hs. destruct t as [a]. cbn [TSS.__tss] in *. do 2 (destruct a as [|? a]; [discriminate HL|]).
  eexists. unfold TSS.set_kernel_stack. cbn [TSS.__tss lookup list_lookup in_bounds mbind outcome_bind].
  rewrite store_ok by lia. cbn [mbind outcome_bind]. rewrite store_ok by (rewrite length_insert; lia).
  cbn [mbind outcome_bind]. split; [reflexivity|]. unfold rsp0. cbn [TSS.__tss].
  change (Z.to_nat 0) with 0%nat. change (Z.to_nat 1) with 1%nat.
  cbn [insert list_insert lookup list_lookup mbind option_bind]. split; [|split; [done|]].
  - f_equal. rewrite halves_high, halves_low by
      (try apply Z.mod_pos_bound; split; try apply Z.div_pos; try apply Z.div_lt_upper_bound; lia).
    pose proof (Z.div_mod stack (2 ^ 32)). lia.
  - intros [|[|k]] Hk; [lia|lia|done].
Qed.
