(* ===== verification/Irq.v ===== *)
(** * arch/x86/irq.cpp: interrupt vectors and their dispatch

    IRQ objects live in a heap, since a driver keeps a pointer to the object it
    attached.  What handling an interrupt does outside the manager is a list of
    events: the handler calls and the acknowledgements to the local APIC. *)
From S2P Require Import Prelude DescTables.

Definition MAX_IRQS : Z := 256.
Definition IRQ_TRAP : Z := 0x03.
Definition IRQ_GPF : Z := 0x0d.
Definition IRQ_KERNEL_SYSCALL : Z := 0x80.
Definition IRQ_USER_SYSCALL : Z := 0x81.

(** The classes that derive from [IRQ]. *)
Inductive irq_class := ExceptionIRQ | SoftwareIRQ | IOAPICIRQ | LAPICIRQ.

#[global] Instance irq_class_eq_dec : EqDecision irq_class.
Proof. solve_decision. Defined.

Inductive event :=
  | HandlerCalled (handler : Z) (nr : Z) (priv : Z)
  | EndOfInterrupt
  | NobodyCared (nr : Z).

(** ** infos/kernel/irq.h: IRQ *)
Record IRQ := { class : irq_class; nr : Z; _handler : option Z; _priv : Z }.

Definition IRQ_new (c : irq_class) : IRQ := {| class := c; nr := 0; _handler := None; _priv := 0 |}.
Definition assign (i : IRQ) (n : Z) : IRQ :=
  {| class := class i; nr := n; _handler := _handler i; _priv := _priv i |}.
Definition attach (i : IRQ) (handler priv : Z) : IRQ :=
  {| class := class i; nr := nr i; _handler := Some handler; _priv := priv |}.

Definition invoke (i : IRQ) : bool * list event :=
  match _handler i with
  | Some h => (true, [HandlerCalled h (nr i) (_priv i)])
  | None => (false, [])
  end.

(** The four overrides of [handle]. *)
Definition handle (i : IRQ) : outcome (list event) :=
  let '(ok, ev) := invoke i in
  match class i with
  | ExceptionIRQ | SoftwareIRQ => if negb ok then Fault Aborted else Ok ev
  | IOAPICIRQ => Ok (ev ++ [EndOfInterrupt])
  | LAPICIRQ => if negb ok then Fault Aborted else Ok (ev ++ [EndOfInterrupt])
  end.

(** ** IRQManager *)
Record IRQManager := {
  irq_descriptors : list (option Z);
  irqs : gmap Z IRQ;
  next_irq : Z
}.

Definition get_irq (m : IRQManager) (p : Z) : outcome IRQ := in_bounds (irqs m !! p).
Definition set_irq (m : IRQManager) (p : Z) (i : IRQ) : IRQManager :=
  {| irq_descriptors := irq_descriptors m; irqs := <[p := i]> (irqs m); next_irq := next_irq m |}.
Definition new_irq (m : IRQManager) (c : irq_class) : Z * IRQManager :=
  (next_irq m, {| irq_descriptors := irq_descriptors m; irqs := <[next_irq m := IRQ_new c]> (irqs m);
                  next_irq := next_irq m + 1 |}).

Definition get_descriptor (m : IRQManager) (n : Z) : outcome (option Z) :=
  in_bounds (irq_descriptors m !! Z.to_nat n).

(** [irq_descriptors[nr].irq(irq); irq->assign(nr)] *)
Definition connect (m : IRQManager) (n p : Z) : outcome IRQManager :=
  a ← store (irq_descriptors m) n (Some p);
  let m := {| irq_descriptors := a; irqs := irqs m; next_irq := next_irq m |} in
  i ← get_irq m p;
  Ok (set_irq m p (assign i n)).

Definition install_handler (T : irq_class) (m : IRQManager) (n handler priv : Z) : outcome (bool * IRQManager) :=
  if MAX_IRQS <=? n then Ok (false, m)
  else
    d ← get_descriptor m n;
    m ← match d with
        | None => let '(p, m) := new_irq m T in connect m n p
        | Some _ => Ok m
        end;
    d ← get_descriptor m n;
    p ← deref d;
    i ← get_irq m p;
    Ok (true, set_irq m p (attach i handler priv)).

Definition install_exception_handler := install_handler ExceptionIRQ.
Definition install_software_handler := install_handler SoftwareIRQ.

(** The loop of [attach_irq] over the vectors from [i], [k] of them. *)
Fixpoint attach_loop (k : nat) (m : IRQManager) (i p : Z) : outcome (bool * IRQManager) :=
  match k with
  | O => Ok (false, m)
  | S k =>
      d ← get_descriptor m i;
      match d with
      | None => m ← connect m i p; Ok (true, m)
      | Some _ => attach_loop k m (i + 1) p
      end
  end.

Definition attach_irq (m : IRQManager) (irq : option Z) : outcome (bool * IRQManager) :=
  match irq with
  | None => Ok (false, m)
  | Some p => attach_loop (0x100 - 0x20) m 0x20 p
  end.

(** The loops of [init]: the gates of the vectors from [i], [k] of them, and
    the exception objects. [junk] is what the unused words of the gates hold. *)
Fixpoint register_all (k : nat) (t : IDT.IDT) (irq_entry_points : list Z) (i junk : Z) : outcome IDT.IDT :=
  match k with
  | O => Ok t
  | S k =>
      e ← in_bounds (irq_entry_points !! Z.to_nat i);
      '(_, t) ← IDT.register_interrupt_gate t i e 0x08 0 junk;
      register_all k t irq_entry_points (i + 1) junk
  end.

Fixpoint exceptions_loop (k : nat) (m : IRQManager) (i : Z) : outcome IRQManager :=
  match k with
  | O => Ok m
  | S k =>
      let '(p, m) := new_irq m ExceptionIRQ in
      m ← connect m i p;
      exceptions_loop k m (i + 1)
  end.

Definition init (m : IRQManager) (t : IDT.IDT) (c : CPU) (irq_entry_points : list Z) (junk : Z)
  : outcome (bool * IRQManager * IDT.IDT * CPU) :=
  t ← register_all 256 t irq_entry_points 0 junk;
  e ← in_bounds (irq_entry_points !! Z.to_nat IRQ_TRAP);
  '(_, t) ← IDT.register_interrupt_gate t IRQ_TRAP e 0x08 3 junk;
  e ← in_bounds (irq_entry_points !! Z.to_nat IRQ_USER_SYSCALL);
  '(_, t) ← IDT.register_interrupt_gate t IRQ_USER_SYSCALL e 0x08 3 junk;
  let '(_, c) := IDT.reload t c in
  m ← exceptions_loop 32 m 0;
  Ok (true, m, t, c).

(** [X86Arch::init_irq], with the addresses of the four handlers. *)
Definition init_irq (m : IRQManager) (t : IDT.IDT) (c : CPU) (irq_entry_points : list Z) (junk : Z)
    (general_protection_fault trap_interrupt kernel_syscall_handler user_syscall_handler : Z)
  : outcome (bool * IRQManager * IDT.IDT * CPU) :=
  '(ok, m, t, c) ← init m t c irq_entry_points junk;
  if negb ok then Ok (false, m, t, c) else
  '(_, m) ← install_exception_handler m IRQ_GPF general_protection_fault 0;
  '(_, m) ← install_exception_handler m IRQ_TRAP trap_interrupt 0;
  '(_, m) ← install_software_handler m IRQ_KERNEL_SYSCALL kernel_syscall_handler 0;
  '(_, m) ← install_software_handler m IRQ_USER_SYSCALL user_syscall_handler 0;
  Ok (true, m, t, c).

(** Dispatch of an interrupt. *)
Definition __handle_raw_irq (m : IRQManager) (irq_nr : Z) : outcome (list event) :=
  _ ← assert_ (irq_nr <? MAX_IRQS);
  d ← get_descriptor m irq_nr;
  match d with
  | Some p => i ← get_irq m p; handle i
  | None => Ok [NobodyCared irq_nr]
  end.

(** The manager of the machine at start: no vector has an object. *)
Definition IRQManager_new : IRQManager :=
  {| irq_descriptors := replicate 256 None; irqs := ∅; next_irq := 1 |}.
