(* ===== verification/IrqTheorems.v ===== *)
(** * Boot of the descriptor tables and interrupts: the properties *)
From S2P Require Import Prelude DescTables DescTablesProof Irq.

(** ** Interrupt vectors: the tables at boot and the dispatch of interrupts *)

(** The object connected to a vector. *)
Definition vector (m : IRQManager) (n : Z) : option IRQ :=
  d ← irq_descriptors m !! Z.to_nat n; p ← d; irqs m !! p.

(** A connected object is in the heap and knows its vector. *)
Record wf (m : IRQManager) : Prop := {
  wf_length : length (irq_descriptors m) = 256%nat;
  wf_connected n p : irq_descriptors m !! n = Some (Some p) ->
    exists i, irqs m !! p = Some i /\ nr i = Z.of_nat n;
  wf_next p : is_Some (irqs m !! p) -> p < next_irq m
}.

(** An object that no vector has. *)
Definition unattached (m : IRQManager) (p : Z) : Prop := forall n, irq_descriptors m !! n <> Some (Some p).

Lemma descriptor_total m n : wf m -> 0 <= n < 256 -> exists d, irq_descriptors m !! Z.to_nat n = Some d.
Proof. intros W Hn. apply lookup_lt_is_Some. rewrite (wf_length _ W). lia. Qed.

Lemma vector_None m n : wf m -> 0 <= n < 256 -> vector m n = None <-> irq_descriptors m !! Z.to_nat n = Some None.
Proof.
  intros W Hn. destruct (descriptor_total m n W Hn) as [d E]. unfold vector. rewrite E. cbn.
  destruct d as [p|]; [|done]. destruct (wf_connected _ W _ _ E) as (i & Ei & _). cbn. rewrite Ei. done.
Qed.

Lemma raw_irq_vector m n : wf m -> 0 <= n < 256 ->
  __handle_raw_irq m n = match vector m n with Some i => handle i | None => Ok [NobodyCared n] end.
Proof.
  intros W Hn. unfold __handle_raw_irq, get_descriptor, vector, get_irq.
  rewrite (proj2 (Z.ltb_lt n MAX_IRQS)) by (unfold MAX_IRQS; lia). cbn [assert_ mbind outcome_bind].
  destruct (descriptor_total m n W Hn) as [d E]. rewrite E. cbn [in_bounds mbind outcome_bind option_bind].
  destruct d as [p|]; [|done]. destruct (wf_connected _ W _ _ E) as (i & Ei & _). cbn. by rewrite Ei.
Qed.

(** Connecting an unattached object to a vector. *)
Lemma connect_spec m n p i : wf m -> 0 <= n < 256 -> irqs m !! p = Some i -> unattached m p ->
  exists m', connect m n p = Ok m' /\ wf m' /\ irqs m' = <[p := assign i n]> (irqs m) /\
    irq_descriptors m' = <[Z.to_nat n := Some p]> (irq_descriptors m) /\
    forall k, 0 <= k < 256 -> vector m' k = if decide (k = n) then Some (assign i n) else vector m k.
Proof.
  intros W Hn Ei Hu. pose proof (wf_length _ W) as HL. unfold connect. rewrite store_ok by lia.
  cbn [mbind outcome_bind]. unfold get_irq. cbn [irqs]. rewrite Ei. cbn [in_bounds mbind outcome_bind].
  eexists. split; [done|]. cbn [set_irq irqs irq_descriptors]. split; [split|]; cbn [irqs irq_descriptors next_irq set_irq].
  - by rewrite length_insert.
  - intros k q Hk. destruct (decide (k = Z.to_nat n)) as [->|Hne].
    + rewrite list_lookup_insert_eq in Hk by lia. injection Hk as <-. exists (assign i n).
      rewrite lookup_insert_eq. split; [done|]. cbn. lia.
    + rewrite list_lookup_insert_ne in Hk by done. rewrite lookup_insert_ne; [by apply (wf_connected _ W)|].
      intros ->. by apply (Hu k).
  - intros q. rewrite lookup_insert. case_decide as Hq; [subst q|]; [|apply (wf_next _ W)]. intros _.
    apply (wf_next _ W). by rewrite Ei.
  - split; [done|]. split; [done|]. intros k Hk. unfold vector. cbn [irqs irq_descriptors set_irq].
    case_decide as Hkn; [subst k|].
    + rewrite list_lookup_insert_eq by lia. cbn. by rewrite lookup_insert_eq.
    + rewrite list_lookup_insert_ne by lia. destruct (irq_descriptors m !! Z.to_nat k) as [[q|]|] eqn:E; cbn; [|done..].
      rewrite lookup_insert_ne; [done|]. intros ->. by apply (Hu (Z.to_nat k)).
Qed.

(** A new object is unattached and nothing else changes. *)
Lemma new_irq_spec m c : wf m -> let '(p, m') := new_irq m c in
  wf m' /\ irqs m' !! p = Some (IRQ_new c) /\ unattached m' p /\ irq_descriptors m' = irq_descriptors m /\
  forall k, vector m' k = vector m k.
Proof.
  intros W. cbn.
  assert (forall n p i, irq_descriptors m !! n = Some (Some p) -> irqs m !! p = Some i -> p <> next_irq m) as Hne.
  { intros n p i _ Hi ->. pose proof (wf_next _ W _ (mk_is_Some _ _ Hi)). lia. }
  split; [split|]; cbn [irqs irq_descriptors next_irq].
  - apply (wf_length _ W).
  - intros n p H. destruct (wf_connected _ W _ _ H) as (i & Hi & Hnr). exists i.
    rewrite lookup_insert_ne; [done|]. intros E. by apply (Hne _ _ _ H Hi).
  - intros p. rewrite lookup_insert. case_decide; [lia|]. intros H1. pose proof (wf_next _ W _ H1). lia.
  - split; [apply lookup_insert_eq|]. split.
    { intros n H. destruct (wf_connected _ W _ _ H) as (i & Hi & _). by apply (Hne _ _ _ H Hi). }
    split; [done|]. intros k. unfold vector. cbn [irqs irq_descriptors].
    destruct (irq_descriptors m !! Z.to_nat k) as [[q|]|] eqn:E; cbn; [|done..].
    destruct (wf_connected _ W _ _ E) as (i & Hi & _). rewrite lookup_insert_ne; [done|].
    intros Eq. by apply (Hne _ _ _ E Hi).
Qed.

Lemma install_handler_spec T m n h priv : wf m -> 0 <= n < 256 ->
  exists m', install_handler T m n h priv = Ok (true, m') /\ wf m' /\
    forall k, 0 <= k < 256 -> vector m' k =
      if decide (k = n) then Some {| class := from_option class T (vector m n); nr := n; _handler := Some h; _priv := priv |}
      else vector m k.
Proof.
  intros W Hn. unfold install_handler. rewrite (proj2 (Z.leb_gt MAX_IRQS n)) by (unfold MAX_IRQS; lia).
  destruct (descriptor_total m n W Hn) as [d E].
  assert (exists m1 p i, (match d with None => let '(p, m) := new_irq m T in connect m n p | Some _ => Ok m end) = Ok m1 /\
    wf m1 /\ irq_descriptors m1 !! Z.to_nat n = Some (Some p) /\ irqs m1 !! p = Some i /\
    class i = from_option class T (vector m n) /\ nr i = n /\
    forall k, 0 <= k < 256 -> k <> n -> vector m1 k = vector m k) as (m1 & p & i & E1 & W1 & Ed & Ei & Hc & Hnr & Hv).
  { destruct d as [p|].
    - destruct (wf_connected _ W _ _ E) as (i & Ei & Hnr). exists m, p, i. do 4 (split; [done|]).
      split; [unfold vector; rewrite E; cbn; by rewrite Ei|]. split; [rewrite Hnr; lia|done].
    - pose proof (new_irq_spec m T W) as Hnew. destruct (new_irq m T) as [p m0].
      destruct Hnew as (W0 & Ei & Hu & Hd & Hv).
      destruct (connect_spec m0 n p _ W0 Hn Ei Hu) as (m1 & E1 & W1 & Hi1 & Hd1 & Hv1).
      exists m1, p, (assign (IRQ_new T) n). split; [done|]. split; [done|]. split; [|split; [|split; [|split; [done|]]]].
      + rewrite Hd1. apply list_lookup_insert_eq. rewrite (wf_length _ W0). lia.
      + by rewrite Hi1, lookup_insert_eq.
      + by rewrite (proj2 (vector_None m n W Hn) E).
      + intros k Hk Hne. by rewrite Hv1, decide_False, Hv. }
  assert (get_descriptor m n = Ok d) as E0 by (unfold get_descriptor; by rewrite E).
  step_to E0. step_to E1. unfold get_descriptor. rewrite Ed. cbn [in_bounds deref mbind outcome_bind].
  unfold get_irq. rewrite Ei. cbn [in_bounds mbind outcome_bind]. eexists. split; [done|]. split; [split|].
  - apply (wf_length _ W1).
  - cbn [set_irq irq_descriptors irqs]. intros k q Hk. destruct (wf_connected _ W1 _ _ Hk) as (j & Hj & Hjn).
    destruct (decide (q = p)) as [->|]; [rewrite lookup_insert_eq|rewrite lookup_insert_ne by done; eauto].
    eexists. split; [done|]. cbn. congruence.
  - cbn [set_irq irqs next_irq]. intros q. rewrite lookup_insert. case_decide as Hq; [subst q|apply (wf_next _ W1)].
    intros _. apply (wf_next _ W1). by rewrite Ei.
  - intros k Hk. unfold vector at 1. cbn [set_irq irq_descriptors irqs]. case_decide as Hkn; [subst k|].
    + rewrite Ed. cbn. rewrite lookup_insert_eq. unfold attach. by rewrite Hc, Hnr.
    + rewrite <- Hv by done. unfold vector.
      destruct (irq_descriptors m1 !! Z.to_nat k) as [[q|]|] eqn:Ek; cbn; [|done..].
      rewrite lookup_insert_ne; [done|]. intros ->. destruct (wf_connected _ W1 _ _ Ek) as (j & Hj & Hjn).
      rewrite Ei in Hj. injection Hj as <-. lia.
Qed.

(** ** Filling the interrupt descriptor table *)
Lemma register_gate_spec t i addr seg dpl junk : length (IDT.__idt t) = 256%nat -> 0 <= i < 256 ->
  0 <= IDT._max_index t < 256 ->
  IDT.register_interrupt_gate t i addr seg dpl junk = Ok (true, {|
    IDT._max_index := Z.max (IDT._max_index t) i;
    IDT.__idt := <[Z.to_nat i := entry_of (InterruptGateDescriptor addr seg dpl junk)]> (IDT.__idt t);
    IDT.address := IDT.address t |}).
Proof.
  intros HL Hi Hm. unfold IDT.register_interrupt_gate, IDT.set_entry.
  rewrite (proj2 (Z.leb_gt IDT.MAX_NR_IDT_ENTRIES i)), store_ok by (unfold IDT.MAX_NR_IDT_ENTRIES; lia).
  cbn [mbind outcome_bind]. unfold entry_of. do 3 f_equal.
  destruct (Z.ltb_spec (IDT._max_index t) i); [rewrite wrap_small|]; lia.
Qed.

(** The gate of vector [n] when it may be raised from privilege [dpl]. *)
Definition gate_of (eps : list Z) (junk dpl n : Z) : Z * Z :=
  entry_of (InterruptGateDescriptor (nth (Z.to_nat n) eps 0) 0x08 dpl junk).

Lemma register_all_spec k t eps i junk : length (IDT.__idt t) = 256%nat -> length eps = 256%nat ->
  0 <= i -> i + Z.of_nat k <= 256 -> 0 <= IDT._max_index t < 256 ->
  exists t', register_all k t eps i junk = Ok t' /\ length (IDT.__idt t') = 256%nat /\
    IDT.address t' = IDT.address t /\ IDT._max_index t <= IDT._max_index t' < 256 /\
    (forall n, i <= n < i + Z.of_nat k -> n <= IDT._max_index t') /\
    forall n, 0 <= n < 256 -> IDT.__idt t' !! Z.to_nat n =
      if decide (i <= n < i + Z.of_nat k) then Some (gate_of eps junk 0 n) else IDT.__idt t !! Z.to_nat n.
Proof.
  revert t i. induction k as [|k IH]; intros t i HL He Hi Hk Hm; cbn [register_all].
  - exists t. do 3 (split; [done|]). split; [lia|]. split; [lia|]. intros n Hn. rewrite decide_False by lia. done.
  - assert (eps !! Z.to_nat i = Some (nth (Z.to_nat i) eps 0)) as Ee.
    { rewrite nth_lookup. destruct (lookup_lt_is_Some_2 eps (Z.to_nat i)) as [e E]; [lia|]. by rewrite E. }
    rewrite Ee. cbn [in_bounds mbind outcome_bind]. step_to (register_gate_spec t i (nth (Z.to_nat i) eps 0) 8 0 junk HL ltac:(lia) Hm).
    edestruct IH as (t' & E & HL' & Ha & Hm' & Hc & Hn'); [| | | | |exists t'; split; [exact E|]];
      cbn [IDT.__idt IDT.address IDT._max_index] in *; [by rewrite length_insert|done|lia|lia|lia|].
    split; [done|]. split; [done|]. split; [lia|]. split.
    { intros n Hn. destruct (decide (n = i)); [lia|apply Hc; lia]. }
    intros n Hn. rewrite Hn' by lia. destruct (decide (n = i)) as [->|].
    + rewrite decide_False, decide_True, list_lookup_insert_eq by lia. done.
    + rewrite list_lookup_insert_ne by lia. repeat case_decide; solve [done|lia].
Qed.

Lemma exceptions_loop_spec k m i : wf m -> 0 <= i -> i + Z.of_nat k <= 256 ->
  (forall n, i <= n < 256 -> vector m n = None) ->
  exists m', exceptions_loop k m i = Ok m' /\ wf m' /\ forall n, 0 <= n < 256 ->
    vector m' n = if decide (i <= n < i + Z.of_nat k) then Some (assign (IRQ_new ExceptionIRQ) n) else vector m n.
Proof.
  revert m i. induction k as [|k IH]; intros m i W Hi Hk Hfree; cbn [exceptions_loop].
  - exists m. do 2 (split; [done|]). intros n Hn. rewrite decide_False by lia. done.
  - pose proof (new_irq_spec m ExceptionIRQ W) as Hnew. destruct (new_irq m ExceptionIRQ) as [p m0].
    destruct Hnew as (W0 & Ei & Hu & Hd & Hv).
    destruct (connect_spec m0 i p _ W0 ltac:(lia) Ei Hu) as (m1 & E1 & W1 & _ & _ & Hv1). step_to E1.
    destruct (IH m1 (i + 1) W1 ltac:(lia) ltac:(lia)) as (m' & E & W' & Hv').
    { intros n Hn. rewrite Hv1, decide_False, Hv by lia. apply Hfree. lia. }
    exists m'. split; [exact E|]. split; [done|]. intros n Hn. rewrite Hv' by done.
    destruct (decide (n = i)) as [->|].
    + rewrite decide_False, Hv1, !decide_True by lia. done.
    + rewrite Hv1, (decide_False (P := n = i)), Hv by done. repeat case_decide; solve [done|lia].
Qed.

Lemma IRQManager_new_wf : wf IRQManager_new.
Proof.
  split; [apply length_replicate| |].
  - intros n p H. cbn [IRQManager_new irq_descriptors] in H. by apply lookup_replicate in H as [? _].
  - intros p [i H]. cbn in H. by rewrite lookup_empty in H.
Qed.

Lemma IRQManager_new_vector n : vector IRQManager_new n = None.
Proof.
  unfold vector. cbn [IRQManager_new irq_descriptors].
  destruct (replicate 256 None !! Z.to_nat n) as [d|] eqn:E; [|done]. by apply lookup_replicate in E as [-> _].
Qed.

(** Vectors that user mode may raise. *)
Definition user_vector (n : Z) : bool := (n =? IRQ_TRAP) || (n =? IRQ_USER_SYSCALL).

(** What a vector does after boot. *)
Definition boot_dispatch (gpf trap ksys usys n : Z) : outcome (list event) :=
  if n =? IRQ_GPF then Ok [HandlerCalled gpf n 0]
  else if n =? IRQ_TRAP then Ok [HandlerCalled trap n 0]
  else if n =? IRQ_KERNEL_SYSCALL then Ok [HandlerCalled ksys n 0]
  else if n =? IRQ_USER_SYSCALL then Ok [HandlerCalled usys n 0]
  else if n <? 32 then Fault Aborted
  else Ok [NobodyCared n].

Lemma gate_of_decode eps junk dpl n : length eps = 256%nat -> Forall (fun e => 0 <= e < 2 ^ 64) eps ->
  0 <= n < 256 -> 0 <= dpl < 4 ->
  decode_gate (gate_of eps junk dpl n) = interrupt_gate (nth (Z.to_nat n) eps 0) 0x08 dpl.
Proof.
  intros HL He Hn Hd. apply decode_interrupt_gate; [|lia|done].
  rewrite nth_lookup. destruct (lookup_lt_is_Some_2 eps (Z.to_nat n)) as [e E]; [lia|]. rewrite E. cbn.
  rewrite Forall_forall in He. by apply He, (list_elem_of_lookup_2 _ _ _ E).
Qed.

Lemma irq_init_spec t c eps junk : length (IDT.__idt t) = 256%nat -> 0 <= IDT._max_index t < 256 ->
  length eps = 256%nat ->
  exists m' t' c', Irq.init IRQManager_new t c eps junk = Ok (true, m', t', c') /\ wf m' /\
    (forall n, 0 <= n < 256 ->
      IDT.__idt t' !! Z.to_nat n = Some (gate_of eps junk (if user_vector n then 3 else 0) n)) /\
    idtr c' = {| length_ := 4096; ptr := IDT.address t |} /\
    (forall n, 0 <= n < 256 -> vector m' n = if n <? 32 then Some (assign (IRQ_new ExceptionIRQ) n) else None).
Proof.
  intros HL Hm He. unfold Irq.init.
  destruct (register_all_spec 256 t eps 0 junk HL He) as (t1 & E1 & HL1 & Ha1 & Hm1 & Hc1 & Hn1); [lia..|].
  step_to E1. assert (255 <= IDT._max_index t1) as H255 by (apply Hc1; lia).
  assert (forall v, 0 <= v < 256 -> eps !! Z.to_nat v = Some (nth (Z.to_nat v) eps 0)) as Hep.
  { intros v Hv. rewrite nth_lookup. destruct (lookup_lt_is_Some_2 eps (Z.to_nat v)) as [e E]; [lia|]. by rewrite E. }
  rewrite (Hep IRQ_TRAP), (Hep IRQ_USER_SYSCALL) by done. cbn [in_bounds mbind outcome_bind].
  step_to (register_gate_spec t1 IRQ_TRAP (nth (Z.to_nat IRQ_TRAP) eps 0) 8 3 junk HL1 ltac:(done) ltac:(lia)).
  erewrite register_gate_spec; cbn [IDT.__idt IDT._max_index IDT.address]; [|by rewrite length_insert|done|unfold IRQ_TRAP; lia].
  cbn [mbind outcome_bind IDT.reload IDT._max_index IDT.address].
  destruct (exceptions_loop_spec 32 IRQManager_new 0 IRQManager_new_wf) as (m' & E & W & Hv);
    [lia|lia|intros; apply IRQManager_new_vector|].
  rewrite E. cbn [mbind outcome_bind]. eexists m', _, _. split; [done|]. split; [done|].
  cbn [IDT.__idt]. split; [|split].
  - intros n Hn. unfold user_vector, gate_of. destruct (decide (n = IRQ_USER_SYSCALL)) as [->|].
    + rewrite list_lookup_insert_eq; [done|]. rewrite length_insert. unfold IRQ_USER_SYSCALL. lia.
    + rewrite list_lookup_insert_ne by (unfold IRQ_USER_SYSCALL in *; lia). destruct (decide (n = IRQ_TRAP)) as [->|].
      * rewrite list_lookup_insert_eq; [done|]. unfold IRQ_TRAP. lia.
      * rewrite list_lookup_insert_ne by (unfold IRQ_TRAP in *; lia). rewrite Hn1, decide_True by lia.
        rewrite (proj2 (Z.eqb_neq n _)), (proj2 (Z.eqb_neq n _)) by done. done.
  - unfold lidt. cbn. f_equal; [|done]. rewrite wrap_small; unfold IRQ_TRAP, IRQ_USER_SYSCALL; lia.
  - intros n Hn. rewrite Hv, IRQManager_new_vector by done. clear - Hn.
    destruct (Z.ltb_spec n 32); [rewrite decide_True by lia|rewrite decide_False by lia]; reflexivity.
Qed.

(** C36: setting up interrupts fills every entry of the interrupt descriptor
    table with a gate the processor reads as: enter entry point n with the
    kernel code selector, allowed from user mode exactly for the trap and the
    user system call; the table register covers all of it.  From then on each
    vector dispatches to the handler installed for it, an exception without
    one stops the machine, and any other vector is ignored. *)
Theorem init_irq_correct t c eps junk gpf trap ksys usys :
  length (IDT.__idt t) = 256%nat -> 0 <= IDT._max_index t < 256 ->
  length eps = 256%nat -> Forall (fun e => 0 <= e < 2 ^ 64) eps ->
  exists m' t' c', init_irq IRQManager_new t c eps junk gpf trap ksys usys = Ok (true, m', t', c') /\
    (forall n, 0 <= n < 256 -> decode_gate <$> IDT.__idt t' !! Z.to_nat n =
      Some (interrupt_gate (nth (Z.to_nat n) eps 0) 0x08 (if user_vector n then 3 else 0))) /\
    idtr c' = {| length_ := 4096; ptr := IDT.address t |} /\
    forall n, 0 <= n < 256 -> __handle_raw_irq m' n = boot_dispatch gpf trap ksys usys n.
Proof.
  intros HL Hm He Hr. destruct (irq_init_spec t c eps junk HL Hm He) as (m0 & t' & c' & E0 & W0 & Ht & Hc & Hv0).
  unfold init_irq. step_to E0. cbn [negb]. unfold install_exception_handler, install_software_handler.
  destruct (install_handler_spec ExceptionIRQ m0 IRQ_GPF gpf 0 W0) as (m1 & E1 & W1 & Hv1); [done|]. step_to E1.
  destruct (install_handler_spec ExceptionIRQ m1 IRQ_TRAP trap 0 W1) as (m2 & E2 & W2 & Hv2); [done|]. step_to E2.
  destruct (install_handler_spec SoftwareIRQ m2 IRQ_KERNEL_SYSCALL ksys 0 W2) as (m3 & E3 & W3 & Hv3); [done|]. step_to E3.
  destruct (install_handler_spec SoftwareIRQ m3 IRQ_USER_SYSCALL usys 0 W3) as (m4 & E4 & W4 & Hv4); [done|]. step_to E4.
  exists m4, t', c'. split; [done|]. split; [|split; [done|]].
  - intros n Hn. rewrite Ht by done. cbn [option_fmap fmap option_map]. f_equal.
    apply gate_of_decode; [done..|by destruct (user_vector n)].
  - intros n Hn. rewrite raw_irq_vector, Hv4, !Hv3, !Hv2, !Hv1, !Hv0 by done. unfold boot_dispatch.
    destruct (decide (n = IRQ_USER_SYSCALL)) as [->|]; [reflexivity|].
    destruct (decide (n = IRQ_KERNEL_SYSCALL)) as [->|]; [reflexivity|].
    destruct (decide (n = IRQ_TRAP)) as [->|]; [reflexivity|].
    destruct (decide (n = IRQ_GPF)) as [->|]; [reflexivity|].
    rewrite !(proj2 (Z.eqb_neq n _)) by done.
    by destruct (n <? 32).
Qed.

(** A table of 256 entry points. *)
Definition sample_entries : list Z := (fun k => 0xffffffff80100000 + 16 * Z.of_nat k) <$> seq 0 256.
Definition sample_idt : IDT.IDT := {| IDT._max_index := 0; IDT.__idt := replicate 256 (0, 0); IDT.address := 4096 |}.
Definition sample_cpu : CPU :=
  {| gdtr := {| length_ := 0; ptr := 0 |}; idtr := {| length_ := 0; ptr := 0 |}; ds := 0; es := 0; ss := 0; tr := 0 |}.

Lemma init_irq_correct_witness : exists m' t' c',
  init_irq IRQManager_new sample_idt sample_cpu sample_entries 7 1 2 3 4 = Ok (true, m', t', c') /\
  __handle_raw_irq m' 0x81 = Ok [HandlerCalled 4 0x81 0] /\ __handle_raw_irq m' 14 = Fault Aborted /\
  __handle_raw_irq m' 200 = Ok [NobodyCared 200].
Proof.
  destruct (init_irq_correct sample_idt sample_cpu sample_entries 7 1 2 3 4) as (m' & t' & c' & E & _ & _ & H).
  - reflexivity.
  - cbn. lia.
  - reflexivity.
  - apply Forall_forall. intros x (k & -> & Hk)%list_elem_of_fmap. apply elem_of_seq in Hk. lia.
  - exists m', t', c'. split; [exact E|]. clear E.
    split; [exact (H 0x81 ltac:(lia))|]. split; [exact (H 14 ltac:(lia))|exact (H 200 ltac:(lia))].
Defined.

(** ** Attaching device interrupts *)
Lemma attach_loop_spec k m i p o : wf m -> 0 <= i -> i + Z.of_nat k = 256 -> irqs m !! p = Some o ->
  unattached m p ->
  (attach_loop k m i p = Ok (false, m) /\ forall n, i <= n < 256 -> vector m n <> None) \/
  exists n m', attach_loop k m i p = Ok (true, m') /\ i <= n < 256 /\ wf m' /\ vector m n = None /\
    (forall j, i <= j < n -> vector m j <> None) /\ irqs m' !! p = Some (assign o n) /\
    irq_descriptors m' !! Z.to_nat n = Some (Some p) /\
    forall j, 0 <= j < 256 -> vector m' j = if decide (j = n) then Some (assign o n) else vector m j.
Proof.
  intros W Hi Hk Ho Hu. revert i Hi Hk. induction k as [|k IH]; intros i Hi Hk; cbn [attach_loop].
  - left. split; [done|]. intros. lia.
  - destruct (descriptor_total m i W ltac:(lia)) as [d E]. unfold get_descriptor. rewrite E.
    cbn [in_bounds mbind outcome_bind]. pose proof (vector_None m i W ltac:(lia)) as Hv. rewrite E in Hv.
    destruct d as [q|].
    + destruct (IH (i + 1)) as [[E1 Hf]|(n & m' & E1 & Hn & W' & Hnone & Hf & Hp & Hd & Hv')]; [lia|lia|left|right].
      * split; [exact E1|]. intros n Hn. destruct (decide (n = i)) as [->|]; [by rewrite Hv|apply Hf; lia].
      * exists n, m'. split; [exact E1|]. split; [lia|]. do 2 (split; [done|]). split; [|done].
        intros j Hj. destruct (decide (j = i)) as [->|]; [by rewrite Hv|apply Hf; lia].
    + right. destruct (connect_spec m i p o W ltac:(lia) Ho Hu) as (m' & E1 & W' & Hi' & Hd' & Hv').
      exists i, m'. step_to E1. split; [done|]. split; [lia|]. split; [done|]. split; [by apply Hv|].
      split; [intros; lia|]. split; [by rewrite Hi', lookup_insert_eq|]. split; [|exact Hv'].
      rewrite Hd', list_lookup_insert_eq; [done|]. rewrite (wf_length _ W). lia.
Qed.

(** Attaching an IRQ object gives it the lowest free vector from 32
    upwards and tells it the number; every other vector is as before and that
    vector now dispatches to the object.  It fails, changing nothing, exactly
    when all these vectors are taken. *)
Lemma attach_irq_correct m p o : wf m -> irqs m !! p = Some o -> unattached m p ->
  (attach_irq m (Some p) = Ok (false, m) /\ forall n, 32 <= n < 256 -> vector m n <> None) \/
  exists n m', attach_irq m (Some p) = Ok (true, m') /\ 32 <= n < 256 /\ wf m' /\
    vector m n = None /\ (forall j, 32 <= j < n -> vector m j <> None) /\
    irqs m' !! p = Some (assign o n) /\
    forall j, 0 <= j < 256 ->
      __handle_raw_irq m' j = if decide (j = n) then handle (assign o n) else __handle_raw_irq m j.
Proof.
  intros W Ho Hu. destruct (attach_loop_spec (0x100 - 0x20) m 0x20 p o W) as [H|(n & m' & E & Hn & W' & Hnone & Hf & Hp & _ & Hv)];
    [lia|lia|done|done|by left|right].
  exists n, m'. do 6 (split; [done|]). intros j Hj. rewrite !raw_irq_vector, Hv by done. by case_decide.
Qed.

(** A manager whose object 1, of an IO APIC, waits for a vector. *)
Definition one_device : IRQManager :=
  {| irq_descriptors := replicate 256 None; irqs := {[1 := attach (IRQ_new IOAPICIRQ) 5 6]}; next_irq := 2 |}.

Lemma attach_irq_correct_witness : exists n m', attach_irq one_device (Some 1) = Ok (true, m') /\ n = 32 /\
  __handle_raw_irq m' 32 = Ok [HandlerCalled 5 32 6; EndOfInterrupt].
Proof.
  assert (forall n, vector one_device n = None) as Hv.
  { intros n. unfold vector. cbn [one_device irq_descriptors].
    destruct (replicate 256 None !! Z.to_nat n) as [d|] eqn:E; [|done]. by apply lookup_replicate in E as [-> _]. }
  destruct (attach_irq_correct one_device 1 (attach (IRQ_new IOAPICIRQ) 5 6)) as [[_ H]|(n & m' & E & Hn & _ & _ & Hf & _ & H)].
  - split; [reflexivity| |].
    + intros n p H. cbn [one_device irq_descriptors] in H. by apply lookup_replicate in H as [? _].
    + intros p [i H]. cbn [one_device irqs] in H. apply lookup_singleton_Some in H as [<- _]. reflexivity.
  - apply lookup_singleton_eq.
  - intros n H. cbn [one_device irq_descriptors] in H. by apply lookup_replicate in H as [? _].
  - by destruct (H 32 ltac:(lia)).
  - assert (n = 32) as ->. { destruct (decide (n = 32)); [done|]. destruct (Hf 32 ltac:(lia)). apply Hv. }
    exists 32, m'. split; [exact E|]. split; [reflexivity|]. exact (H 32 ltac:(lia)).
Defined.

(** ** The tables themselves *)

(** Booting the processor tables, whatever they held, leaves the segments
    the selectors of the kernel designate (kernel code 8, kernel data 16, user
    code 24, user data 32), a task register that designates a descriptor of
    exactly the task state segment, and an interrupt table without gates.
    Setting the kernel stack afterwards is what the processor finds as the
    stack of ring 0. *)
Lemma x86_init_correct t junk :
  length (GDT.__gdt (gdt t)) = 16%nat -> length (IDT.__idt (idt t)) = 256%nat ->
  length (TSS.__tss (tss t)) = 26%nat -> 0 <= tss_address t < 2 ^ 64 ->
  exists t', X86Arch_init t junk = Ok (true, t') /\
    (let entry sel := GDT.__gdt (gdt t') !! Z.to_nat (sel / 8) in
     entry 0 = Some 0 /\ decode_segment <$> entry 8 = Some (code_segment 0) /\
     decode_segment <$> entry 16 = Some (data_segment 0) /\
     decode_segment <$> entry 24 = Some (code_segment 3) /\
     decode_segment <$> entry 32 = Some (data_segment 3) /\
     ds (cpu t') = 16 /\ es (cpu t') = 16 /\ ss (cpu t') = 16 /\
     exists low high, entry (tr (cpu t')) = Some low /\ entry (tr (cpu t') + 8) = Some high /\
       tss_base low high = tss_address t /\ tss_limit low = 208 /\ s_type (decode_segment low) = 9 /\
       s_present (decode_segment low) = true) /\
    gdtr (cpu t') = {| length_ := 56; ptr := GDT.address (gdt t) |} /\
    idtr (cpu t') = {| length_ := 16; ptr := IDT.address (idt t) |} /\
    (forall n, 0 <= n < 256 -> IDT.__idt (idt t') !! Z.to_nat n = Some (0, 0)) /\
    rsp0 (tss t') = Some 0 /\
    forall stack, 0 <= stack < 2 ^ 64 ->
      exists s, TSS.set_kernel_stack (tss t') stack = Ok s /\ rsp0 s = Some stack.
Proof.
  intros HG HI HT Ha. unfold X86Arch_init. step_to (gdt_init_spec (gdt t) (cpu t) (tss_address t) junk HG).
  cbn [negb IDT.init IDT.reload IDT.__idt IDT._max_index IDT.address idt cpu tss tss_address gdt].
  destruct (set_kernel_stack_spec (tss t) 0 HT ltac:(lia)) as (s & Es & H0 & HL & _).
  unfold TSS.init. step_to Es. cbn [negb mbind outcome_bind]. eexists. split; [reflexivity|].
  cbn [gdt idt tss cpu GDT.__gdt IDT.__idt].
  destruct (decode_tss (tss_address t) 208 junk Ha ltac:(lia)) as (Hb & Hl & Hd).
  split; [|split; [reflexivity|split; [reflexivity|split; [|split; [done|]]]]].
  - do 8 (split; [reflexivity|]). exists (bits_low (TSSDescriptor (tss_address t) 208 junk)),
      (bits_high (TSSDescriptor (tss_address t) 208 junk)).
    split; [reflexivity|]. split; [reflexivity|]. rewrite Hd. done.
  - intros n Hn. rewrite list_lookup_fmap. destruct (lookup_lt_is_Some_2 (IDT.__idt (idt t)) (Z.to_nat n)) as [e ->]; [lia|done].
  - intros stack Hs. destruct (set_kernel_stack_spec s stack HL Hs) as (s' & E & H1 & _). eauto.
Qed.

Definition sample_tables : tables := {|
  gdt := {| GDT._current := 3; GDT.__gdt := replicate 16 7; GDT.address := 4096 |};
  idt := {| IDT._max_index := 9; IDT.__idt := replicate 256 (1, 1); IDT.address := 8192 |};
  tss := {| TSS.__tss := replicate 26 1 |}; tss_address := 0xffffffff80123456; cpu := sample_cpu
|}.

Lemma x86_init_correct_witness : exists t', X86Arch_init sample_tables 5 = Ok (true, t') /\
  rsp0 (tss t') = Some 0 /\ tr (cpu t') = 0x28.
Proof.
  destruct (x86_init_correct sample_tables 5 eq_refl eq_refl eq_refl ltac:(split; done))
    as (t' & E & _ & _ & _ & _ & H & _).
  exists t'. split; [exact E|]. split; [exact H|]. vm_compute in E. injection E as <-. reflexivity.
Defined.
