(* ===== verification/Process.v ===== *)
(** * infos/kernel/thread.cpp and process.cpp: making threads, ending processes

    A thread is made in the address space of its process: its kernel stack is
    allocated there and holds the context the first switch to the thread
    restores.  Ending a process runs on the scheduler, where threads are
    entities; stopping the current thread gives the processor away, and the
    code after it does not run. *)
From S2P Require Import Prelude Define PageDesc PageAllocator Vma CString InfList CommonsList Time Sched.

(** ** Threads *)
Inductive ThreadPrivilege := Kernel | User.

#[global] Instance ThreadPrivilege_eq_dec : EqDecision ThreadPrivilege.
Proof. solve_decision. Defined.

Record Thread := {
  _privilege : ThreadPrivilege;
  _entry_point : Z;
  _current_entry_argument : Z;
  kernel_stack : Z;
  native_context : Z
}.

Definition is_kernel_thread (t : Thread) : bool := bool_decide (_privilege t = Kernel).

(** [X86Context]: the offsets of its fields. *)
Inductive context_field :=
  c_previous | c_r15 | c_r14 | c_r13 | c_r12 | c_r11 | c_r10 | c_r9 | c_r8 | c_rbp | c_rdi | c_rsi | c_rdx | c_rcx
| c_rbx | c_rax | c_extra | c_rip | c_cs | c_rflags | c_rsp | c_ss.

Definition context_fields : list context_field :=
  [c_previous; c_r15; c_r14; c_r13; c_r12; c_r11; c_r10; c_r9; c_r8; c_rbp; c_rdi; c_rsi; c_rdx; c_rcx;
   c_rbx; c_rax; c_extra; c_rip; c_cs; c_rflags; c_rsp; c_ss].

#[global] Instance context_field_eq_dec : EqDecision context_field.
Proof. solve_decision. Defined.

Definition field_offset (f : context_field) : Z :=
  match list_find (f =.) context_fields with Some (i, _) => 8 * Z.of_nat i | None => 0 end.

Definition KERNEL_STACK_ORDER : Z := 1.
Definition KERNEL_STACK_SIZE : Z := Z.shiftl 1 KERNEL_STACK_ORDER * __page_size.

Section thread.
Context {A : Type} `{PageAllocatorAlgorithm A}.
Implicit Types (s : VMA A).

(** [*--stack = v] *)
Definition push (v : Z) (st : Z * VMA A) : Z * VMA A :=
  let stack := u64 (fst st - 8) in (stack, write (snd st) stack v).

Definition write_field s (ctx : Z) (f : context_field) (v : Z) : VMA A := write s (u64 (ctx + field_offset f)) v.
Definition read_field s (ctx : Z) (f : context_field) : Z := word s (u64 (ctx + field_offset f)).

Definition prepare_initial_stack s (t : Thread) : Thread * VMA A :=
  let st := (kernel_stack t, s) in
  let st := push (if is_kernel_thread t then 0x10 else 0x23) st in
  let st := push 0 st in
  let st := push 0x202 st in
  let st := push (if is_kernel_thread t then 0x8 else 0x1b) st in
  let st := push (_entry_point t) st in
  let st := push 0 st in
  let st := push 0 st in
  let st := push 0 st in
  let st := push 0 st in
  let st := push 0 st in
  let st := push 0 st in
  let st := push 0 st in
  let st := push 0 st in
  let st := push 0 st in
  let st := push 0 st in
  let st := push 0 st in
  let st := push 0 st in
  let st := push 0 st in
  let st := push 0 st in
  let st := push 0 st in
  let st := push 0 st in
  let st := push 0 st in
  let '(stack, s) := st in
  ({| _privilege := _privilege t; _entry_point := _entry_point t; _current_entry_argument := _current_entry_argument t;
      kernel_stack := kernel_stack t; native_context := stack |},
   write_field s stack c_rsp (kernel_stack t)).

Definition Thread_new s (privilege : ThreadPrivilege) (entry_point : Z) : outcome (Thread * VMA A) :=
  '(pgd, s) ← allocate_phys s KERNEL_STACK_ORDER;
  pgd ← assert_some pgd;
  va ← pgd_to_vpa (descriptors (pgalloc s)) pgd;
  Ok (prepare_initial_stack s
    {| _privilege := privilege; _entry_point := entry_point; _current_entry_argument := 0;
       kernel_stack := u64 (va + KERNEL_STACK_SIZE); native_context := 0 |}).

Definition with_argument_count (t : Thread) (n : Z) : Thread :=
  {| _privilege := _privilege t; _entry_point := _entry_point t; _current_entry_argument := n;
     kernel_stack := kernel_stack t; native_context := native_context t |}.

Definition add_entry_argument s (t : Thread) (arg : Z) : Thread * VMA A :=
  let next := with_argument_count t (_current_entry_argument t + 1) in
  match _current_entry_argument t with
  | 0 => (next, write_field s (native_context t) c_rdi arg)
  | 1 => (next, write_field s (native_context t) c_rsi arg)
  | 2 => (next, write_field s (native_context t) c_rdx arg)
  | 3 => (next, write_field s (native_context t) c_rcx arg)
  | _ => (t, s)
  end.

(** The result of [allocate_virt] is not looked at. *)
Definition allocate_user_stack s (t : Thread) (vaddr size : Z) : outcome (VMA A) :=
  let nr_pages := i32 (Z.shiftr (__align_up_page size) 12) in
  '(_, s) ← allocate_virt s vaddr nr_pages;
  Ok (write_field s (native_context t) c_rsp (u64 (vaddr + size))).

(** ** Processes *)
Record Process := {
  _pname : String;
  _kernel_process : bool;
  _terminated : bool;
  _vma : VMA A;
  _threads : list Thread;
  _main_thread : option nat
}.

(** The new thread is the last of the list. *)
Definition create_thread (p : Process) (privilege : ThreadPrivilege) (entry_point : Z) : outcome (nat * Process) :=
  _ ← assert_ (negb (_kernel_process p && bool_decide (privilege = User)));
  '(t, vma) ← Thread_new (_vma p) privilege entry_point;
  Ok (length (_threads p),
      {| _pname := _pname p; _kernel_process := _kernel_process p; _terminated := _terminated p;
         _vma := vma; _threads := _threads p ++ [t]; _main_thread := _main_thread p |}).

Definition Process_new (pg : PageAllocator A) (mem : gmap Z Z) (template : option (Z -> Z)) (name : String)
    (kernel_process : bool) (entry_point : Z) : outcome Process :=
  vma ← VMA_new pg mem;
  vma ← install_default_kernel_mapping vma template;
  '(main, p) ← create_thread
    {| _pname := name; _kernel_process := kernel_process; _terminated := false; _vma := vma;
       _threads := []; _main_thread := None |}
    (if kernel_process then Kernel else User) entry_point;
  Ok {| _pname := _pname p; _kernel_process := _kernel_process p; _terminated := _terminated p;
        _vma := _vma p; _threads := _threads p; _main_thread := Some main |}.
End thread.
Arguments Process A : clear implicits.

(** ** Ending a process *)
Section terminate.
Context {Q : Type} `{SchedulingAlgorithm Q}.

(** [Event::trigger] of an event that is not an entity's: its waiters are
    woken in order, and it is cleared. *)
Fixpoint wake_all (s : Scheduler Q) (ws : list Z) : outcome (Scheduler Q) :=
  match ws with
  | [] => Ok s
  | w :: ws => s ← wake_up s w; wake_all s ws
  end.

Definition event_trigger (s : Scheduler Q) (waiters : InfList.List Z) : outcome (Scheduler Q * InfList.List Z) :=
  ws ← InfList.elements waiters;
  s ← wake_all s ws;
  waiters ← InfList.clear waiters;
  Ok (s, waiters).

(** The loop over the threads.  When the current thread has been stopped, the
    scheduler runs another one and does not come back; the result says
    whether the loop got to its end. *)
Fixpoint stop_threads (s : Scheduler Q) (threads : list Z) : outcome (bool * Scheduler Q) :=
  match threads with
  | [] => Ok (true, s)
  | t :: threads =>
      '(yields, s) ← stop s t;
      if yields : bool then s ← schedule s; Ok (false, s) else stop_threads s threads
  end.

(** [_terminated] becomes true; the rest is the state of the scheduler. *)
Definition terminate (s : Scheduler Q) (state_changed : InfList.List Z) (threads : list Z)
  : outcome (bool * Scheduler Q * InfList.List Z) :=
  '(s, state_changed) ← event_trigger s state_changed;
  '(finished, s) ← stop_threads s threads;
  Ok (finished, s, state_changed).
End terminate.
