(* ===== verification/ProcessProof.v ===== *)
(** * A new thread starts where its context says; ending a process stops its
      threads up to the current one *)
From S2P Require Import Prelude Define PageDesc BuddyTheorems Time InfList CommonsList CommonsListProof Sched SchedProof PageAllocator PageAllocatorProof PageAllocatorTheorems Vma VmaProof VmaOps VmaTheorems CString DescTables DescTablesProof Process.

#[local] Arguments wrap : simpl never.

Section stack.
Context {A : Type} `{PageAllocatorAlgorithmLaws A fresh_state owned can_free}.
Implicit Types (s : VMA A).

Notation vma_ok := (vma_ok (owned := owned)).

(** Writing outside the tables. *)
Lemma vma_ok_same s s' L : vma_ok s L -> _pgt_virt_base s' = _pgt_virt_base s -> pgalloc s' = pgalloc s ->
  (forall t n i, L !! t = Some n -> 0 <= i < 512 -> word s' (entry_addr t i) = word s (entry_addr t i)) ->
  vma_ok s' L /\ forall va, user_va va -> get_mapping s' va = get_mapping s va.
Proof.
  intros [Hs HT] Hr Hp Hw.
  assert (VmaProof.tables (_pgt_virt_base s') (word s') (descriptors (pgalloc s')) L) as HT'.
  { rewrite Hr, Hp. eapply tables_ext; [exact HT| |done]. intros t n i Ht Hi _. by eapply Hw. }
  split; [split; [|done]; destruct Hs; split; by rewrite Hp|]. intros va Hu.
  rewrite (get_mapping_translate s' _ L), (get_mapping_translate s _ L) by done. f_equal. rewrite Hr. unfold translate.
  rewrite (leaf_table_write _ (word s) (word s') _ _ 3 _ _ HT ltac:(lia) (t_root _ _ _ _ HT) Hu)
    by (intros ? ? ? Ht Hi _; by eapply Hw).
  destruct (leaf_table (word s) 3 _ va) as [tl|] eqn:E; [|done]. cbn [mbind option_bind].
  pose proof (leaf_table_level _ _ _ _ 3 _ _ _ HT ltac:(lia) (t_root _ _ _ _ HT) Hu E) as Hl.
  by rewrite (Hw _ _ _ Hl (index_range 0 va)).
Qed.

(** ** The stack *)
Definition pushes (vs : list Z) (st : Z * VMA A) : Z * VMA A := foldl (fun st v => push v st) st vs.

Lemma pushes_spec vs B s : 8 * Z.of_nat (length vs) <= B < 2 ^ 64 ->
  let st := pushes vs (B, s) in
  fst st = B - 8 * Z.of_nat (length vs) /\ _pgt_virt_base (snd st) = _pgt_virt_base s /\ pgalloc (snd st) = pgalloc s /\
  (forall k v, vs !! k = Some v -> word (snd st) (B - 8 * (Z.of_nat k + 1)) = v) /\
  (forall a, a < B - 8 * Z.of_nat (length vs) \/ B <= a -> word (snd st) a = word s a).
Proof.
  revert B s. induction vs as [|v vs IH]; intros B s HB; cbn [length] in HB.
  { cbn. split_and!; try done. lia. }
  assert (push v (B, s) = (B - 8, write s (B - 8) v)) as Hp by (unfold push; cbn [fst snd]; by rewrite wrap_small by lia).
  cbn [pushes foldl]. rewrite Hp. fold (pushes vs (B - 8, write s (B - 8) v)).
  destruct (IH (B - 8) (write s (B - 8) v) ltac:(lia)) as (H1 & H2 & H3 & H4 & H5).
  cbn [length]. split_and!; try done.
  - rewrite H1. lia.
  - intros [|k] x Hk.
    + injection Hk as <-. rewrite H5 by lia. rewrite word_write, decide_True by lia. done.
    + cbn in Hk. replace (B - 8 * (Z.of_nat (S k) + 1)) with (B - 8 - 8 * (Z.of_nat k + 1)) by lia. by apply H4.
  - intros a Ha. rewrite H5 by lia. rewrite word_write, decide_False by lia. done.
Qed.

Definition initial_values (t : Thread) : list Z :=
  [if is_kernel_thread t then 0x10 else 0x23; 0; 0x202; if is_kernel_thread t then 0x8 else 0x1b; _entry_point t] ++ replicate 17 0.

Lemma prepare_pushes s t : prepare_initial_stack s t =
  let '(stack, s) := pushes (initial_values t) (kernel_stack t, s) in
  ({| _privilege := _privilege t; _entry_point := _entry_point t; _current_entry_argument := _current_entry_argument t;
      kernel_stack := kernel_stack t; native_context := stack |}, write_field s stack c_rsp (kernel_stack t)).
Proof. reflexivity. Qed.

(** The registers a new thread starts with. *)
Definition initial_register (privilege : ThreadPrivilege) (entry stack : Z) (f : context_field) : Z :=
  match f with
  | c_ss => if bool_decide (privilege = Kernel) then 0x10 else 0x23
  | c_cs => if bool_decide (privilege = Kernel) then 0x8 else 0x1b
  | c_rip => entry
  | c_rflags => 0x202
  | c_rsp => stack
  | _ => 0
  end.

Lemma field_offset_range f : 0 <= field_offset f <= 168.
Proof. destruct f; vm_compute; split; discriminate. Qed.

Lemma field_offset_inj f f' : field_offset f = field_offset f' -> f = f'.
Proof. destruct f, f'; first [reflexivity|vm_compute; discriminate]. Qed.

Lemma read_write_field s ctx f f' v : 0 <= ctx < 2 ^ 64 - 176 ->
  read_field (write_field s ctx f v) ctx f' = if decide (f = f') then v else read_field s ctx f'.
Proof.
  intros Hc. unfold read_field, write_field. pose proof (field_offset_range f). pose proof (field_offset_range f').
  rewrite !wrap_small by lia. rewrite word_write. destruct (decide (f = f')) as [->|Hne]; [by rewrite decide_True|].
  rewrite decide_False; [done|]. intros E. apply Hne, field_offset_inj. lia.
Qed.

Lemma Thread_new_spec s L privilege entry : vma_ok s L -> avail_run 1 s ->
  exists t s', Thread_new s privilege entry = Ok (t, s') /\ vma_ok s' L /\
    (forall va, user_va va -> get_mapping s' va = get_mapping s va) /\
    _privilege t = privilege /\ _current_entry_argument t = 0 /\ 0 <= native_context t < 2 ^ 64 - 176 /\
    native_context t = kernel_stack t - 176 /\
    (forall f, read_field s' (native_context t) f = initial_register privilege entry (kernel_stack t) f) /\
    exists pgd, kernel_stack t = frame_va pgd + 8192 /\ (forall x, block pgd 1 x -> type_at (descriptors (pgalloc s')) x = Some ALLOCATED /\
      type_at (descriptors (pgalloc s)) x = Some AVAILABLE /\ data_page s' L x) /\ grows 2 s L s' L.
Proof.
  intros Hok Hrun. unfold Thread_new, KERNEL_STACK_ORDER.
  destruct (allocate_phys_spec s 1 (vo_sys _ _ Hok) ltac:(lia) Hrun) as (pgd & s1 & E1 & Hal). step_to E1.
  cbn [assert_some mbind outcome_bind]. pose proof (al_range _ _ _ _ Hal) as Hr. change (2 ^ 1) with 2 in Hr.
  step_to (pgd_to_vpa_eq (descriptors (pgalloc s1)) pgd ltac:(lia)).
  change KERNEL_STACK_SIZE with 8192. assert (8192 <= frame_va pgd + 8192 < 2 ^ 64 - 8192) as HB.
  { unfold frame_va. change PMEM_VA_START with 0xFFFF800000000000. lia. }
  rewrite wrap_small by lia. set (B := frame_va pgd + 8192) in *.
  rewrite prepare_pushes. cbn [kernel_stack].
  set (t0 := {| _privilege := privilege; _entry_point := entry; _current_entry_argument := 0; kernel_stack := B; native_context := 0 |}).
  destruct (pushes_spec (initial_values t0) B s1) as (H1 & H2 & H3 & H4 & H5);
    [change (length (initial_values t0)) with 22%nat; lia|].
  destruct (pushes (initial_values t0) (B, s1)) as [stack s2] eqn:E2. cbn [fst snd] in *.
  change (Z.of_nat (length (initial_values t0))) with 22 in *.
  destruct (vma_ok_allocated _ _ _ _ _ Hok Hal) as [Hok1 Hg1].
  assert (stack = B - 176) as -> by lia.
  assert (forall a, a < B - 176 \/ B <= a -> word (write_field s2 (B - 176) c_rsp B) a = word s1 a) as Hout.
  { intros a Ha. unfold write_field. change (field_offset c_rsp) with 160. rewrite wrap_small by lia.
    rewrite word_write, decide_False by lia. by apply H5. }
  destruct (vma_ok_same s1 (write_field s2 (B - 176) c_rsp B) L Hok1 H2 H3) as [Hok2 Hg2].
  { intros t n i Ht Hi. apply Hout. destruct (t_frame _ _ _ _ (vo_tables _ _ Hok) _ _ Ht) as (p & -> & Hp & Hty).
    destruct (decide (pgd <= p < pgd + 2)) as [Hb|Hb].
    - destruct (al_block _ _ _ _ Hal p Hb). congruence.
    - unfold entry_addr, B, frame_va. lia. }
  eexists _, _. split; [reflexivity|]. split; [done|]. cbn [_privilege _current_entry_argument native_context kernel_stack t0].
  split; [intros va Hu; by rewrite Hg2, Hg1|]. do 2 (split; [done|]). split; [lia|]. split; [done|]. split.
  - intros f. rewrite read_write_field by lia. destruct (decide (c_rsp = f)) as [<-|Hf]; [done|].
    unfold read_field. pose proof (field_offset_range f). rewrite wrap_small by lia.
    assert (exists k, initial_values t0 !! k = Some (initial_register privilege entry B f) /\ field_offset f = 8 * (21 - Z.of_nat k))
      as (k & Hk & Ho).
    { destruct f; first [by destruct Hf | exists 21%nat; done|exists 20%nat; done|exists 19%nat; done|exists 18%nat; done|
        exists 17%nat; done|exists 16%nat; done|exists 15%nat; done|exists 14%nat; done|exists 13%nat; done|exists 12%nat; done|
        exists 11%nat; done|exists 10%nat; done|exists 9%nat; done|exists 8%nat; done|exists 7%nat; done|exists 6%nat; done|
        exists 5%nat; done|exists 4%nat; done|exists 3%nat; done|exists 2%nat; done|exists 0%nat; done]. }
    rewrite Ho. replace (B - 176 + 8 * (21 - Z.of_nat k)) with (B - 8 * (Z.of_nat k + 1)) by lia. by apply H4.
  - destruct (allocated_grows s s1 pgd 1 L ltac:(lia) Hal Hok) as [[Ht Hk] Hd].
    assert (descriptors (pgalloc (write_field s2 (B - 176) c_rsp B)) = descriptors (pgalloc s1)) as Hpg.
    { change (pgalloc (write_field s2 (B - 176) c_rsp B)) with (pgalloc s2). by rewrite H3. }
    exists pgd. split; [done|]. split.
    + intros x Hx. unfold data_page. rewrite Hpg. destruct (al_block _ _ _ _ Hal x Hx). by destruct (Hd x Hx).
    + split; [destruct Ht as (l & ? & Ht); exists l; by rewrite Hpg|]. intros p Hp.
      destruct (Hk p Hp) as [[Hty HL] Hw]. split; [split; [by rewrite Hpg|done]|]. intros a Ha. rewrite Hout; [by apply Hw|].
      destruct Hp as [Hp _]. destruct (decide (pgd <= p < pgd + 2)) as [Hb|Hb].
      * destruct (al_block _ _ _ _ Hal p Hb). congruence.
      * unfold in_page, B, frame_va in *. lia.
Qed.
End stack.

(** ** Ending a process on the scheduler

    [changed] is what one change of an entity's state does to the others;
    waking the waiters of an event and stopping a list of threads are
    sequences of such changes. *)


Section changes.
Context {Q : Type} `{SchedulingAlgorithmLaws Q queued}.
Implicit Types (s : Scheduler Q) (xs : list Z) (S : Z -> Prop).

Notation sched_inv := (sched_inv (queued := queued)).

Definition state_of s (t : Z) : option SchedulingEntityState := _state <$> entities s !! t.

(** A thread can be changed by someone else when it is an entity other than
    the idle one. *)
Definition thread_of s (t : Z) : Prop := is_Some (entities s !! t) /\ t <> _idle_entity s.

(** The threads outside [ts] are as they were, except those woken. *)
Record changed S (ts : list Z) s s' : Prop := {
  ch_other t y : t ∉ ts -> entities s !! t = Some y -> exists y', entities s' !! t = Some y' /\
    (y' = y \/ (S t /\ _state y <> RUNNABLE /\ woken y y'));
  ch_waits a w : waits s' a w -> waits s a w;
  ch_dom : dom (entities s') = dom (entities s);
  ch_idle : _idle_entity s' = _idle_entity s;
  ch_active : _active s' = _active s;
  ch_current : _current s' = _current s;
  ch_thread : current_thread s' = current_thread s
}.

Lemma changed_refl S ts s : changed S ts s s.
Proof. split; eauto. Qed.

Lemma changed_weaken S ts ts' s s' : ts ⊆ ts' -> changed S ts s s' -> changed S ts' s s'.
Proof. intros Hts []. split; auto. Qed.

Lemma changed_trans S ts s1 s2 s3 : changed S ts s1 s2 -> changed S ts s2 s3 -> changed S ts s1 s3.
Proof.
  intros [Ho Hw ? ? ? ? ?] [Ho' Hw' ? ? ? ? ?]. split; try congruence; [|eauto].
  intros t y Ht Hy. destruct (Ho t y Ht Hy) as (y2 & Hy2 & Hor). destruct (Ho' t y2 Ht Hy2) as (y3 & Hy3 & Hor').
  exists y3. split; [done|]. destruct Hor as [->|(HS & Hne & w & -> & Hw2)]; [done|].
  destruct Hor' as [->|(_ & Hne' & _)]; [|done]. right. split; [done|]. split; [done|]. by exists w.
Qed.

Lemma changed_closed S ts s s' : changed S ts s s' -> closed s S -> closed s' S.
Proof. intros Hc HC a w Ha Hw. eapply HC; [exact Ha|]. by eapply ch_waits. Qed.

Lemma changed_thread_of S ts s s' t : changed S ts s s' -> thread_of s t -> thread_of s' t.
Proof.
  intros Hc [Ht Hi]. split; [|by rewrite (ch_idle _ _ _ _ Hc)].
  apply elem_of_dom. rewrite (ch_dom _ _ _ _ Hc). by apply elem_of_dom.
Qed.

Lemma changed_awake S ts s s' t : changed S ts s s' -> t ∉ ts -> awake s t -> awake s' t.
Proof.
  intros Hc Ht (y & Hy & Hr). destruct (ch_other _ _ _ _ Hc t y Ht Hy) as (y' & Hy' & [->|(_ & ? & _)]); [by exists y|done].
Qed.

Lemma changed_entity S ts s s' t : changed S ts s s' -> t ∉ ts -> ~ S t -> thread_of s t -> entities s' !! t = entities s !! t.
Proof.
  intros Hc Ht HS [[y Hy] _]. destruct (ch_other _ _ _ _ Hc t y Ht Hy) as (y' & Hy' & [->|[? _]]); [|done]. congruence.
Qed.

Lemma changed_state S ts s s' t : changed S ts s s' -> t ∉ ts -> ~ S t -> thread_of s t -> state_of s' t = state_of s t.
Proof. intros Hc Ht HS Hth. unfold state_of. by rewrite (changed_entity _ _ _ _ _ Hc Ht HS Hth). Qed.

Lemma changed_waits S ts s s' t w : changed S ts s s' -> t ∉ ts -> ~ S t -> thread_of s t -> waits s t w -> waits s' t w.
Proof. intros Hc Ht HS Hth (y & us & Hy & Hus). exists y, us. by rewrite (changed_entity _ _ _ _ _ Hc Ht HS Hth). Qed.

(** Nobody is in the state RUNNING, which no operation sets. *)
Definition never_running s : Prop := forall t, state_of s t <> Some RUNNING.

Lemma never_running_queue s xs : never_running s -> sched_inv s xs ->
  forall e x, e ∈ xs -> entities s !! e = Some x -> _state x = RUNNABLE.
Proof.
  intros HN HI e x He Hx. destruct (si_cells _ _ HI e He) as [_ Hne].
  destruct (proj1 (si_runq _ _ HI e x Hx Hne) He) as [|Hr]; [done|].
  destruct (HN e). unfold state_of. by rewrite Hx, <- Hr.
Qed.

(** One change of state. *)
Lemma change_spec S s xs e new :
  sched_inv s xs -> closed s S -> thread_of s e -> (new = RUNNABLE \/ ~ S e) -> new <> RUNNING ->
  (forall w, waits s e w -> S w) ->
  exists s' xs', set_entity_state (depth s) s e new = Ok s' /\ sched_inv s' xs' /\
    state_of s' e = Some new /\ changed S [e] s s' /\
    (state_of s e <> Some new -> forall w, waits s e w -> w <> e -> awake s' w).
Proof.
  intros HI HC [[x Hx] Hidle] HS Hnew Hw.
  destruct (si_waiters _ _ HI e x Hx) as (ws & Hh & _).
  destruct (set_entity_state_full S s xs e x new ws HI HC Hx Hidle) as
    (s' & xs' & E & HI' & (x' & Hx' & Hst) & Haw & _ & Hcur & Hoth & Hi & Ha & Hct & Hemp & Hsame & Hdom); try done.
  { intros w Hin. apply Hw. by exists x, ws. }
  exists s', xs'. do 2 (split; [done|]). unfold state_of. rewrite Hx, Hx', <- Hst. split; [done|]. split.
  - split; try done.
    + intros t y Ht. apply Hoth. intros ->. apply Ht. left.
    + intros a w (y & us & Hy & Hus & Hin). destruct (decide (a = e)) as [->|Hne].
      * destruct (decide (_state x = new)) as [Heq|Hneq]; [rewrite (Hsame Heq) in Hy; by exists y, us|].
        rewrite (holds_unique _ _ _ Hus (Hemp y Hy Hneq)) in Hin. by apply elem_of_nil in Hin.
      * assert (is_Some (entities s !! a)) as [z Hz] by (apply elem_of_dom; rewrite <- Hdom; apply elem_of_dom; eauto).
        destruct (Hoth a z Hne Hz) as (z' & Hz' & Hor). rewrite Hy in Hz'. injection Hz' as <-.
        destruct Hor as [->|(_ & _ & v & -> & Hv)]; [by exists z, us|].
        rewrite (holds_unique _ _ _ Hus Hv) in Hin. by apply elem_of_nil in Hin.
  - intros Hne w (y & us & Hy & Hus & Hin) Hwe. rewrite Hx in Hy. injection Hy as <-.
    rewrite (holds_unique _ _ _ Hus Hh) in Hin. apply Haw; [|done|done]. intros Heq. apply Hne. cbn. congruence.
Qed.

Lemma changed_never_running S ts s s' : changed S ts s s' -> never_running s ->
  (forall t, t ∈ ts -> state_of s' t <> Some RUNNING) -> never_running s'.
Proof.
  intros Hc HN Hts t. destruct (decide (t ∈ ts)) as [Ht|Ht]; [by apply Hts|]. unfold state_of.
  destruct (entities s' !! t) as [y'|] eqn:Hy'; [|done].
  assert (is_Some (entities s !! t)) as [y Hy] by (apply elem_of_dom; rewrite <- (ch_dom _ _ _ _ Hc); apply elem_of_dom; eauto).
  destruct (ch_other _ _ _ _ Hc t y Ht Hy) as (y2 & Hy2 & Hor). rewrite Hy' in Hy2. injection Hy2 as <-.
  destruct Hor as [->|(_ & _ & w & -> & _)]; [|done]. specialize (HN t). unfold state_of in HN. by rewrite Hy in HN.
Qed.

Lemma state_awake s t : state_of s t = Some RUNNABLE -> awake s t.
Proof. unfold state_of. intros (x & Hx & Hr)%fmap_Some. by exists x. Qed.

(** ** Waking the waiters of an event *)
Lemma wake_all_spec S ws : forall s xs,
  sched_inv s xs -> closed s S -> never_running s -> (forall w, w ∈ ws -> S w /\ thread_of s w) ->
  exists s' xs', wake_all s ws = Ok s' /\ sched_inv s' xs' /\ never_running s' /\ changed S ws s s' /\
    (forall t, t ∈ ws \/ awake s t -> awake s' t).
Proof.
  induction ws as [|w ws IH]; intros s xs HI HC HN Hws.
  { exists s, xs. split_and!; try done; [apply changed_refl|]. intros t [Ht|]; [by apply elem_of_nil in Ht|done]. }
  destruct (Hws w ltac:(left)) as [HSw Htw].
  destruct (change_spec S s xs w RUNNABLE HI HC Htw) as (s1 & xs1 & E & HI1 & Hst & Hc & _); [by left|done| |].
  { intros v. by apply HC. }
  cbn [wake_all]. unfold wake_up. step_to E.
  destruct (IH s1 xs1 HI1) as (s2 & xs2 & E2 & HI2 & HN2 & Hc2 & Haw).
  - by eapply changed_closed.
  - eapply changed_never_running; [done..|]. intros t ->%list_elem_of_singleton. by rewrite Hst.
  - intros v Hv. destruct (Hws v ltac:(by right)). split; [done|]. by eapply changed_thread_of.
  - exists s2, xs2. do 3 (split; [done|]). split.
    + eapply changed_trans; eapply changed_weaken; [|exact Hc| |exact Hc2]; set_solver.
    + intros t Ht. apply Haw. destruct (decide (t = w)) as [->|Hne]; [right; by apply state_awake|].
      destruct Ht as [Ht|Ht]; [left; set_solver|right]. eapply changed_awake; [done| |done]. set_solver.
Qed.

(** ** Stopping threads *)
(** A thread that may be stopped: it waits for nothing that is changed, and
    the threads waiting for it are known. *)
Definition stoppable S s (t : Z) : Prop := thread_of s t /\ ~ S t /\ forall w, waits s t w -> S w.

Lemma changed_stoppable S ts s s' t : changed S ts s s' -> stoppable S s t -> stoppable S s' t.
Proof.
  intros Hc (Ht & HS & Hw). split; [by eapply changed_thread_of|]. split; [done|].
  intros w Hin. eapply Hw, ch_waits; [exact Hc|done].
Qed.

Lemma stop_spec S s xs t : sched_inv s xs -> closed s S -> never_running s -> stoppable S s t ->
  exists s' xs', stop s t = Ok (bool_decide (current_thread s = Some t), s') /\ sched_inv s' xs' /\ closed s' S /\
    never_running s' /\ changed S [t] s s' /\ state_of s' t = Some STOPPED /\
    (state_of s t <> Some STOPPED -> forall w, waits s t w -> awake s' w).
Proof.
  intros HI HC HN (Ht & HS & Hw).
  destruct (change_spec S s xs t STOPPED HI HC Ht) as (s' & xs' & E & HI' & Hst & Hc & Haw); [by right|done|done|].
  exists s', xs'. unfold stop. step_to E. rewrite (ch_thread _ _ _ _ Hc). do 2 (split; [done|]).
  split; [by eapply changed_closed|]. split.
  { eapply changed_never_running; [done..|]. intros u ->%list_elem_of_singleton. by rewrite Hst. }
  do 2 (split; [done|]). intros Hne w Hin. apply (Haw Hne w Hin). intros ->. by apply HS, Hw.
Qed.

(** The threads before the current one. *)
Lemma stop_threads_before S c rest : forall ts s xs,
  sched_inv s xs -> closed s S -> never_running s -> (forall t, t ∈ ts -> stoppable S s t) ->
  current_thread s = Some c -> c ∉ ts ->
  exists s' xs', stop_threads s (ts ++ rest) = stop_threads s' rest /\ sched_inv s' xs' /\ closed s' S /\
    never_running s' /\ changed S ts s s' /\ (forall t, t ∈ ts -> state_of s' t = Some STOPPED) /\
    (forall t w, t ∈ ts -> state_of s t <> Some STOPPED -> waits s t w -> awake s' w).
Proof.
  induction ts as [|t ts IH]; intros s xs HI HC HN Hts Hct Hc.
  { exists s, xs. split_and!; try done; [apply changed_refl|set_solver|set_solver]. }
  pose proof (Hts t ltac:(left)) as Hst.
  destruct (stop_spec S s xs t HI HC HN Hst) as (s1 & xs1 & E & HI1 & HC1 & HN1 & Hch & Hstop & Haw).
  rewrite bool_decide_false in E by (rewrite Hct; intros [= ->]; apply Hc; left).
  destruct (IH s1 xs1 HI1 HC1 HN1) as (s2 & xs2 & E2 & HI2 & HC2 & HN2 & Hch2 & Hstop2 & Haw2).
  { intros u Hu. eapply changed_stoppable; [done|]. apply Hts. by right. }
  { by rewrite (ch_thread _ _ _ _ Hch). }
  { set_solver. }
  exists s2, xs2. cbn [app stop_threads]. rewrite E. cbn [mbind outcome_bind].
  do 4 (split; [done|]). split_and!.
  - eapply changed_trans; eapply changed_weaken; [|exact Hch| |exact Hch2]; set_solver.
  - intros u Hu. destruct (decide (u ∈ ts)) as [|Hn]; [by apply Hstop2|].
    assert (u = t) as -> by set_solver. rewrite <- Hstop. eapply changed_state; [exact Hch2|done|apply Hst|].
    eapply changed_thread_of; [exact Hch|apply Hst].
  - intros u w Hu Hne Hw. destruct (decide (u = t)) as [->|Hut].
    + eapply changed_awake; [exact Hch2| |by apply Haw]. intros Hin.
      destruct (Hts w ltac:(by right)) as (_ & HS & _). by apply HS, Hst.
    + assert (u ∈ ts) as Hin by set_solver. assert (u ∉ [t]) as Hn by set_solver.
      destruct (Hts u Hu) as (Hthr & HS & _).
      eapply Haw2; [exact Hin| |].
      * by rewrite (changed_state _ _ _ _ _ Hch Hn HS Hthr).
      * by eapply changed_waits.
Qed.
End changes.
