(* ===== verification/UserMemory.v ===== *)
(** * The memory of a process

    [memory_is s L K M] says what a program sees at every address of the lower
    half: [M va] is the byte at [va], or [None] where nothing is mapped.  Every
    mapped address is backed by a page in use for data outside the pages [K],
    which are the kernel's own (the kernel stack of a thread). *)
From S2P Require Import Prelude Define PageDesc PageAllocator PageAllocatorProof BuddyTheorems PageAllocatorTheorems Vma VmaProof VmaOps VmaTheorems Memory Process ProcessProof.

#[local] Arguments wrap : simpl never.

Section bytes.
Context {A : Type}.
Implicit Types (s : VMA A).

Lemma get_set_byte s a v b : is_byte v -> get_byte (set_byte s a v) b = if decide (b = a) then v else get_byte s b.
Proof.
  intros Hv. unfold get_byte, set_byte. pose proof (Z.mod_pos_bound a 8 ltac:(lia)). pose proof (Z.mod_pos_bound b 8 ltac:(lia)).
  rewrite word_write. destruct (decide (a - a mod 8 = b - b mod 8)) as [E|E].
  - rewrite byte_of_with_byte by (done || lia). rewrite E.
    destruct (decide (b mod 8 = a mod 8)), (decide (b = a)); (done || lia).
  - rewrite decide_False; [done|]. by intros ->.
Qed.

Lemma memcpy_spec src : forall s dest, 0 <= dest -> dest + Z.of_nat (length src) < 2 ^ 64 -> Forall is_byte src ->
  pgalloc (memcpy s dest src) = pgalloc s /\ _pgt_virt_base (memcpy s dest src) = _pgt_virt_base s /\
  (forall a, get_byte (memcpy s dest src) a =
     if decide (dest <= a < dest + Z.of_nat (length src)) then nth (Z.to_nat (a - dest)) src 0 else get_byte s a) /\
  (forall x, (forall d, dest <= d < dest + Z.of_nat (length src) -> d - d mod 8 <> x) -> word (memcpy s dest src) x = word s x).
Proof.
  induction src as [|b src IH]; intros s dest H0 Hd Hb; cbn [memcpy length] in *.
  { do 2 (split; [done|]). split; [|done]. intros a. rewrite decide_False by lia. done. }
  apply Forall_cons in Hb as [Hb Hbs].
  assert (u64 (dest + 1) = dest + 1) as -> by (apply wrap_small; lia).
  destruct (IH (set_byte s dest b) (dest + 1) ltac:(lia) ltac:(lia) Hbs) as (H1 & H2 & H3 & H4).
  do 2 (split; [done|]). split.
  - intros a. rewrite H3, get_set_byte by done. destruct (decide (a = dest)) as [->|Hne].
    + rewrite (decide_False (P := (dest + 1 <= dest < _))), decide_True by lia. by rewrite Z.sub_diag.
    + destruct (decide (dest + 1 <= a < dest + 1 + Z.of_nat (length src))) as [Hin|Hout].
      * rewrite decide_True by lia. replace (Z.to_nat (a - dest)) with (S (Z.to_nat (a - (dest + 1)))) by lia. done.
      * rewrite decide_False by lia. done.
  - intros x Hx. rewrite H4 by (intros d Hr; apply Hx; lia). unfold set_byte. rewrite word_write, decide_False; [done|].
    apply Hx. lia.
Qed.
End bytes.

(** ** Addresses of the lower half *)
Definition low (va : Z) : Prop := 0 <= va < 2 ^ 47.

Lemma low_index va : low va -> index 3 va < 256.
Proof.
  intros [H0 H1]. unfold index. rewrite Z.shiftr_div_pow2 by lia. change (2 ^ (12 + 9 * Z.of_nat 3)) with (2 ^ 39).
  assert (0 <= va / 2 ^ 39 < 256) by (split; [apply Z.div_pos; lia|apply Z.div_lt_upper_bound; lia]).
  rewrite Z.mod_small; lia.
Qed.

Lemma low_user va : low va -> user_va va.
Proof. intros Hl _. pose proof (low_index va Hl). lia. Qed.

Lemma low_same_page va va' : low va -> low va' -> same_page va va' <-> va / 4096 = va' / 4096.
Proof.
  intros [] []. rewrite same_page_spec, !Z.shiftr_div_pow2 by lia. change (2 ^ 12) with 4096.
  assert (forall x, 0 <= x < 2 ^ 47 -> 0 <= x / 4096 < 2 ^ 36) as Hd.
  { intros x Hx. split; [apply Z.div_pos; lia|apply Z.div_lt_upper_bound; lia]. }
  by rewrite !Z.mod_small by (apply Hd; lia).
Qed.

(** [va'] is in one of the [n] pages from the page of [va] on. *)
Definition in_pages (va n va' : Z) : Prop := va / 4096 <= va' / 4096 < va / 4096 + n.

#[global] Instance in_pages_dec va n va' : Decision (in_pages va n va').
Proof. unfold in_pages. apply _. Defined.

Lemma in_pages_same va n va' : low va -> (va / 4096 + n) * 4096 <= 2 ^ 47 -> low va' ->
  in_pages va n va' <-> exists i, 0 <= i < n /\ same_page (va + i * 4096) va'.
Proof.
  intros Hl Hn Hl'. unfold in_pages.
  assert (forall i, 0 <= i < n -> low (va + i * 4096) /\ (va + i * 4096) / 4096 = va / 4096 + i) as Hi.
  { intros i Hi. unfold low in *. rewrite Z.div_add by lia. split; [|done].
    pose proof (Z.div_mod va 4096 ltac:(lia)). pose proof (Z.mod_pos_bound va 4096 ltac:(lia)). lia. }
  split.
  - intros Hin. exists (va' / 4096 - va / 4096). split; [lia|]. destruct (Hi (va' / 4096 - va / 4096) ltac:(lia)) as [Hlo Hd].
    apply low_same_page; [done..|]. lia.
  - intros (i & Hr & Hs). destruct (Hi i Hr) as [Hlo Hd]. apply low_same_page in Hs; [|done..]. lia.
Qed.

(** ** What a program sees *)
Section memory.
Context {A : Type} `{PageAllocatorAlgorithmLaws A fresh_state owned can_free}.
Implicit Types (s : VMA A) (L : gmap Z nat) (K : Z -> Prop) (M : Z -> option Z).

Notation vma_ok := (vma_ok (owned := owned)).

Definition backed s L K (va b : Z) : Prop := exists p, get_mapping s va = Ok (Some (p * 4096 + va mod 4096)) /\
  0 < p < 2 ^ 20 /\ data_page s L p /\ ~ K p /\ get_byte s (frame_va p + va mod 4096) = b.

Definition memory_is s L K M : Prop := forall va, low va ->
  match M va with None => get_mapping s va = Ok None | Some b => backed s L K va b end.

Lemma memory_user_byte s L K M va : memory_is s L K M -> low va -> user_byte s va = Ok (M va).
Proof.
  intros HM Hl. specialize (HM va Hl). unfold user_byte. destruct (M va) as [b|]; [|by rewrite HM].
  destruct HM as (p & E & Hp & _ & _ & Hb). step_to E. pose proof (Z.mod_pos_bound va 4096 ltac:(lia)).
  rewrite pa_to_vpa_Ok by (change PMEM_VA_SIZE with (2 ^ 20 * 4096); lia). cbn [mbind outcome_bind].
  rewrite <- Hb. unfold frame_va. do 3 f_equal. lia.
Qed.

(** The kernel's pages are in use for data. *)
Definition kernel_pages s L K : Prop := forall p, K p -> data_page s L p.

Definition kernel_same K s s' : Prop := forall p a, K p -> in_page p a -> word s' a = word s a.

Lemma in_page_aligned p o : 0 <= o < 4096 -> in_page p (frame_va p + o - (frame_va p + o) mod 8).
Proof.
  intros Ho. unfold in_page, frame_va. change PMEM_VA_START with (8 * 0x1FFFF00000000000).
  replace (8 * 0x1FFFF00000000000 + p * 4096 + o) with (o + (0x1FFFF00000000000 + p * 512) * 8) by lia.
  rewrite Z.mod_add by lia. pose proof (Z.div_mod o 8 ltac:(lia)). pose proof (Z.mod_pos_bound o 8 ltac:(lia)).
  assert (0 <= o / 8) by (apply Z.div_pos; lia). lia.
Qed.

Lemma backed_kept s L K s' L' va b : kept s L s' L' -> get_mapping s' va = get_mapping s va ->
  backed s L K va b -> backed s' L' K va b.
Proof.
  intros Hk Hg (p & E & Hp & Hd & HK & Hb). destruct (Hk p Hd) as [Hd' Hw]. exists p. rewrite Hg. do 4 (split; [done|]).
  rewrite <- Hb. unfold get_byte. f_equal. apply Hw, in_page_aligned, Z.mod_pos_bound. lia.
Qed.

(** An operation that keeps the data and all translations. *)
Lemma memory_kept s L K M s' L' : memory_is s L K M -> kept s L s' L' ->
  (forall va, user_va va -> get_mapping s' va = get_mapping s va) -> memory_is s' L' K M.
Proof.
  intros HM Hk Hg va Hl. specialize (HM va Hl). rewrite Hg by by apply low_user.
  destruct (M va); [|done]. eapply backed_kept; [done| |done]. by apply Hg, low_user.
Qed.

Lemma kernel_pages_kept s L K s' L' : kernel_pages s L K -> kept s L s' L' -> kernel_pages s' L' K /\ kernel_same K s s'.
Proof. intros HK Hk. split; [intros p Hp; by apply Hk, HK|]. intros p a Hp. by apply Hk, HK. Qed.

(** [src] written over the memory from [va] on, on pages that hold zeroes. *)
Definition loaded_over M (va n : Z) (src : list Z) (va' : Z) : option Z :=
  if decide (va <= va' < va + Z.of_nat (length src)) then Some (nth (Z.to_nat (va' - va)) src 0)
  else if decide (in_pages va n va') then Some 0 else M va'.

(** A place in a block of pages. *)
Lemma block_place pgd order d : frame_va pgd <= d < frame_va pgd + 2 ^ order * 4096 ->
  exists x o, block pgd order x /\ 0 <= o < 4096 /\ d = frame_va x + o.
Proof.
  intros Hd. pose proof (Z.div_mod (d - frame_va pgd) 4096 ltac:(lia)). pose proof (Z.mod_pos_bound (d - frame_va pgd) 4096 ltac:(lia)).
  exists (pgd + (d - frame_va pgd) / 4096), ((d - frame_va pgd) mod 4096). unfold block, frame_va in *. split_and!; lia.
Qed.

Lemma in_page_inj p p' a : in_page p a -> in_page p' a -> p = p'.
Proof. unfold in_page, frame_va. lia. Qed.

(** Copying into a block of data pages touches no other page. *)
Lemma memcpy_block s L pgd order dest src : vma_ok s L -> (forall x, block pgd order x -> data_page s L x) ->
  0 < pgd -> pgd + 2 ^ order <= 2 ^ 20 -> Forall is_byte src ->
  frame_va pgd <= dest -> dest + Z.of_nat (length src) <= frame_va pgd + 2 ^ order * 4096 ->
  let s' := memcpy s dest src in
  vma_ok s' L /\ pgalloc s' = pgalloc s /\ (forall va, user_va va -> get_mapping s' va = get_mapping s va) /\
  (forall p a, ~ block pgd order p -> in_page p a -> word s' a = word s a) /\
  (forall p o, ~ block pgd order p -> 0 <= o < 4096 -> get_byte s' (frame_va p + o) = get_byte s (frame_va p + o)) /\
  (forall a, get_byte s' a =
     if decide (dest <= a < dest + Z.of_nat (length src)) then nth (Z.to_nat (a - dest)) src 0 else get_byte s a).
Proof.
  intros Hok Hdata Hp0 Hp1 Hb Hd0 Hd1 s'. change (2 ^ 20) with 1048576 in Hp1.
  assert (0 <= frame_va pgd /\ frame_va pgd + 2 ^ order * 4096 < 2 ^ 64) as [Hf0 Hf1].
  { unfold frame_va. change PMEM_VA_START with 0xFFFF800000000000. lia. }
  destruct (memcpy_spec src s dest ltac:(lia) ltac:(lia) Hb) as (H1 & H2 & H3 & H4). fold s' in H1, H2, H3, H4.
  assert (forall p a, ~ block pgd order p -> in_page p a -> word s' a = word s a) as Hw.
  { intros p a Hp Ha. apply H4. intros d Hd E. apply Hp.
    destruct (block_place pgd order d ltac:(lia)) as (x & o & Hx & Ho & Ed).
    assert (p = x) as ->; [|done]. apply (in_page_inj p x a Ha). rewrite <- E, Ed. by apply in_page_aligned. }
  destruct (vma_ok_same s s' L Hok H2 H1) as [Hok' Hg].
  { intros t n i Ht Hi. destruct (t_frame _ _ _ _ (vo_tables _ _ Hok) _ _ Ht) as (q & -> & _).
    apply (Hw q); [|unfold in_page, entry_addr, frame_va; lia]. intros Hq. destruct (Hdata q Hq) as [_ HL]. congruence. }
  split_and!; try done. intros p o Hp Ho. unfold get_byte. f_equal. apply (Hw p); [done|]. by apply in_page_aligned.
Qed.

Lemma load_memory s L K M va nr O k src :
  let order := __log2ceil nr in
  vma_ok s L -> memory_is s L K M -> kernel_pages s L K -> low va -> (va / 4096 + 2 ^ order) * 4096 <= 2 ^ 47 ->
  0 < nr <= 2 ^ 16 -> order <= O -> ample O (4 * Z.to_nat (2 ^ order) + k) s ->
  Forall is_byte src -> va mod 4096 + Z.of_nat (length src) <= 2 ^ order * 4096 ->
  exists s1 s' L', allocate_virt s va nr = Ok (true, s1) /\ copy_bytes_to s1 va src = Ok (true, s') /\
    vma_ok s' L' /\ ample O k s' /\ kernel_pages s' L' K /\ kernel_same K s s' /\
    memory_is s' L' K (loaded_over M va (2 ^ order) src).
Proof.
  intros order Hok HM HK Hl Hend Hnr HO Hav Hb Hlen.
  destruct (__log2ceil_spec nr ltac:(lia)) as (Ho & Hle & _). fold order in Ho, Hle.
  assert (0 < 2 ^ order) as Hpos by (apply Z.pow_pos_nonneg; lia).
  destruct (allocate_virt_spec s L va nr Hok Hnr) as
    (s1 & L1 & pgd & E1 & Hok1 & _ & Hfree & Hin & Hout & [Ht Hk] & Hdata & Hp0 & Hp1).
  { intros i Hi. apply low_user. unfold low in *. fold order in Hi. pose proof (Z.div_mod va 4096 ltac:(lia)).
    pose proof (Z.mod_pos_bound va 4096 ltac:(lia)). lia. }
  { destruct Hav as [_ Hr]. apply (avail_runs_run O order 0); [lia|]. eapply avail_runs_le; [|exact Hr]. lia. }
  { eapply ample_le in Hav; [apply Hav|]. fold order. lia. }
  fold order in Hfree, Hin, Hout, Ht, Hdata, Hp1.
  pose proof (Z.mod_pos_bound va 4096 ltac:(lia)) as Hm.
  assert (forall va', low va' -> in_pages va (2 ^ order) va' ->
    exists x, block pgd order x /\ get_mapping s1 va' = Ok (Some (x * 4096 + va' mod 4096)) /\
      frame_va x + va' mod 4096 = frame_va pgd + va mod 4096 + (va' - va)) as Hplace.
  { intros va' Hl' Hp. destruct (proj1 (in_pages_same _ _ _ Hl Hend Hl') Hp) as (i & Hi & Hs).
    assert (low (va + i * 4096)) as Hli.
    { unfold low in *. pose proof (Z.div_mod va 4096 ltac:(lia)). lia. }
    pose proof (proj1 (low_same_page _ _ Hli Hl') Hs) as Hd. rewrite Z.div_add in Hd by lia.
    exists (pgd + i). split; [unfold block; lia|]. split.
    - rewrite (Hin i va' Hi Hs), __page_offset_eq. done.
    - unfold frame_va. pose proof (Z.div_mod va 4096 ltac:(lia)). pose proof (Z.div_mod va' 4096 ltac:(lia)). lia. }
  assert (in_pages va (2 ^ order) va) as Hself by (unfold in_pages; lia).
  destruct (Hplace va Hl Hself) as (x0 & Hx0 & E0 & Ex0).
  rewrite Z.sub_diag, Z.add_0_r in Ex0.
  assert (x0 = pgd) as -> by (unfold frame_va in Ex0; lia).
  assert (copy_bytes_to s1 va src = Ok (true, memcpy s1 (frame_va pgd + va mod 4096) src)) as E2.
  { unfold copy_bytes_to, copy_to. step_to E0. cbn [mbind outcome_bind]. unfold block in Hx0.
    rewrite pa_to_vpa_Ok by (change PMEM_VA_SIZE with (2 ^ 20 * 4096); lia). cbn [mbind outcome_bind].
    unfold frame_va. by rewrite Z.add_assoc. }
  destruct (memcpy_block s1 L1 pgd order (frame_va pgd + va mod 4096) src Hok1) as (Hok2 & Hpg & Hg2 & Hw2 & Hb2 & Hbyte);
    [by intros x Hx; apply Hdata|lia|lia|done|lia|lia|].
  set (s' := memcpy s1 (frame_va pgd + va mod 4096) src) in *.
  assert (forall x, block pgd order x -> ~ K x) as HKx.
  { intros x Hx HKx. destruct (HK x HKx) as [Hty _]. specialize (Hfree x Hx). unfold available in Hfree. congruence. }
  assert (forall p, data_page s1 L1 p -> data_page s' L1 p) as Hdp by (intros p [Hp HL]; split; [by rewrite Hpg|done]).
  exists s1, s', L1. split; [exact E1|]. split; [exact E2|]. split; [done|]. split_and!.
  - assert (taken (4 * Z.to_nat (2 ^ order)) s s') as Ht'.
    { destruct Ht as (l & Hll & Ht). exists l. by rewrite Hpg. }
    eapply taken_ample; [|exact Ht'|exact Hav]. lia.
  - intros p Hp. by apply Hdp, Hk, HK.
  - intros p a Hp Ha. destruct (Hk p (HK p Hp)) as [_ Hw]. rewrite (Hw2 p); [by apply Hw| |done].
    intros Hx. by apply (HKx p).
  - intros va' Hl'. unfold loaded_over. pose proof (low_user va' Hl') as Hu'.
    assert (va <= va' < va + Z.of_nat (length src) -> in_pages va (2 ^ order) va') as Hsub.
    { intros Hr. unfold in_pages. pose proof (Z.div_mod va 4096 ltac:(lia)). pose proof (Z.div_mod va' 4096 ltac:(lia)).
      pose proof (Z.mod_pos_bound va' 4096 ltac:(lia)). nia. }
    destruct (decide (in_pages va (2 ^ order) va')) as [Hp|Hp].
    + destruct (Hplace va' Hl' Hp) as (x & Hx & Ex & Ea). pose proof (Z.mod_pos_bound va' 4096 ltac:(lia)) as Hm'.
      assert (forall b, get_byte s' (frame_va x + va' mod 4096) = b -> backed s' L1 K va' b) as Hback.
      { intros b Hbb. exists x. rewrite Hg2 by done. split; [done|]. split; [unfold block in Hx; lia|].
        split; [by apply Hdp, Hdata|]. split; [by apply HKx|done]. }
      destruct (decide (va <= va' < va + Z.of_nat (length src))) as [Hr|Hr]; apply Hback; rewrite Hbyte, Ea.
      * rewrite decide_True by lia. do 2 f_equal. lia.
      * rewrite decide_False by lia. rewrite <- Ea. unfold get_byte.
        rewrite (proj2 (Hdata x Hx)) by by apply in_page_aligned. apply byte_of_0.
    + rewrite decide_False by tauto. specialize (HM va' Hl').
      assert (get_mapping s1 va' = get_mapping s va') as Hg1.
      { apply Hout; [done|]. intros i Hi Hs. apply Hp, in_pages_same; [done..|]. by exists i. }
      destruct (M va') as [b|]; [|by rewrite Hg2, Hg1].
      destruct HM as (p & Ep & Hpr & Hd & HKp & Hbp). destruct (Hk p Hd) as [Hd1 Hw1]. exists p.
      rewrite Hg2, Hg1 by done. split; [done|]. split; [done|]. split; [by apply Hdp|]. split; [done|].
      rewrite Hb2; [| |apply Z.mod_pos_bound; lia].
      * rewrite <- Hbp. unfold get_byte. f_equal. apply Hw1, in_page_aligned, Z.mod_pos_bound. lia.
      * intros Hx. specialize (Hfree p Hx). destruct Hd as [Hty _]. unfold available in Hfree. congruence.
Qed.
End memory.
