(* ===== verification/Elf.v ===== *)
(** * infos/fs/exec/elf-loader.cpp: making a process from an executable

    The loader reads the image through the interface [FileOps], the virtual
    functions of infos/fs/file.h, makes a process with an address space of its
    own and copies the segments into it.  [uninit n] is the contents of a local
    array or a new buffer of [n] bytes. *)
From S2P Require Import Prelude Define PageDesc PageAllocator Vma CString Process Memory.

(** ** infos/fs/file.h *)
Class FileOps (F : Type) := {
  file_read : F -> list Z -> Z -> outcome (Z * list Z * F);
  file_pread : F -> list Z -> Z -> Z -> outcome (Z * list Z * F);
  file_seek_absolute : F -> Z -> outcome F
}.

(** ** The headers, as little-endian fields of the bytes read *)
Definition le (bytes : list Z) : Z := foldr (fun b r => b + 256 * r) 0 bytes.
Definition field (buf : list Z) (off n : nat) : Z := le (take n (drop off buf)).

Module ELF64Header.
Definition magic_number (h : list Z) : Z := field h 0 4.
Definition eclass (h : list Z) : Z := field h 4 1.
Definition data (h : list Z) : Z := field h 5 1.
Definition type (h : list Z) : Z := field h 16 2.
Definition machine (h : list Z) : Z := field h 18 2.
Definition version (h : list Z) : Z := field h 20 4.
Definition entry_point (h : list Z) : Z := field h 24 8.
Definition phoff (h : list Z) : Z := field h 32 8.
Definition phentsize (h : list Z) : Z := field h 54 2.
Definition phnum (h : list Z) : Z := field h 56 2.
Definition size : nat := 64.
End ELF64Header.

Module ELF64ProgramHeaderEntry.
Definition type (e : list Z) : Z := field e 0 4.
Definition offset (e : list Z) : Z := field e 8 8.
Definition vaddr (e : list Z) : Z := field e 16 8.
Definition filesz (e : list Z) : Z := field e 32 8.
Definition memsz (e : list Z) : Z := field e 40 8.
Definition size : nat := 56.
End ELF64ProgramHeaderEntry.

Definition MAGIC_NUMBER : Z := 0x464c457f.
Definition ECLASS_64BIT : Z := 2.
Definition EDATA_LITTLE : Z := 1.

(** What the loader logs before it gives up. *)
Inductive elf_error :=
  UnableToReadHeader | InvalidMagic | Only64Bit | OnlyLittleEndian | OnlyExecutables | UnsupportedMachine
| InvalidVersion | UnableToReadEntry | NoCommandLine.

Definition check_header (hdr : list Z) : option elf_error :=
  if negb (ELF64Header.magic_number hdr =? MAGIC_NUMBER) then Some InvalidMagic
  else if negb (ELF64Header.eclass hdr =? ECLASS_64BIT) then Some Only64Bit
  else if negb (ELF64Header.data hdr =? EDATA_LITTLE) then Some OnlyLittleEndian
  else if negb (ELF64Header.type hdr =? 2) then Some OnlyExecutables
  else if negb (ELF64Header.machine hdr =? 0x3e) then Some UnsupportedMachine
  else if negb (ELF64Header.version hdr =? 1) then Some InvalidVersion
  else None.

Section loader.
Context {A : Type} `{PageAllocatorAlgorithm A}.
Context {F : Type} `{FileOps F}.
Context (uninit : nat -> list Z) (template_pml4 : option (Z -> Z)).

Definition with_vma (p : Process A) (vma : VMA A) : Process A :=
  {| _pname := _pname p; _kernel_process := _kernel_process p; _terminated := _terminated p;
     _vma := vma; _threads := _threads p; _main_thread := _main_thread p |}.

Definition with_thread (p : Process A) (i : nat) (t : Thread) (vma : VMA A) : Process A :=
  {| _pname := _pname p; _kernel_process := _kernel_process p; _terminated := _terminated p;
     _vma := vma; _threads := <[i := t]> (_threads p); _main_thread := _main_thread p |}.

Definition main_thread (p : Process A) : outcome (nat * Thread) :=
  i ← deref (_main_thread p);
  t ← in_bounds (_threads p !! i);
  Ok (i, t).

(** A segment of type 1: its pages, unless its first page is mapped already,
    and its bytes from the file.  The results of reading and of copying are
    not looked at. *)
Definition load_segment (f : F) (p : Process A) (ent : list Z) : outcome (F * Process A) :=
  let vaddr := ELF64ProgramHeaderEntry.vaddr ent in
  let filesz := ELF64ProgramHeaderEntry.filesz ent in
  mapped ← is_mapped (_vma p) vaddr;
  vma ← (if negb mapped then
           '(_, vma) ← allocate_virt (_vma p) vaddr
              (i32 (Z.shiftr (__align_up_page (ELF64ProgramHeaderEntry.memsz ent)) 12));
           Ok vma
         else Ok (_vma p));
  '(_, buffer, f) ← file_pread f (uninit (Z.to_nat filesz)) filesz (ELF64ProgramHeaderEntry.offset ent);
  '(_, vma) ← copy_bytes_to vma vaddr buffer;
  Ok (f, with_vma p vma).

(** The loop over the [n] program headers left from the [i]th on. *)
Fixpoint load_segments (n : nat) (i : Z) (hdr : list Z) (f : F) (p : Process A)
  : outcome (option elf_error * F * Process A) :=
  match n with
  | O => Ok (None, f, p)
  | S n =>
      let off := u64 (ELF64Header.phoff hdr + u32 (i * ELF64Header.phentsize hdr)) in
      '(rc, ent, f) ← file_pread f (uninit ELF64ProgramHeaderEntry.size) (Z.of_nat ELF64ProgramHeaderEntry.size) off;
      if negb (u64 rc =? Z.of_nat ELF64ProgramHeaderEntry.size) then Ok (Some UnableToReadEntry, f, p)
      else
        '(f, p) ← (if ELF64ProgramHeaderEntry.type ent =? 1 then load_segment f p ent else Ok (f, p));
        load_segments n (u32 (i + 1)) hdr f p
  end.

(** The stack and the command line of the main thread. *)
Definition start_image (p : Process A) (cmdline : String) : outcome (option elf_error * Process A) :=
  '(m, t) ← main_thread p;
  vma ← allocate_user_stack (_vma p) t 0x100000 0x2000;
  if 0 <? _size cmdline then
    let cmdline_start := 0x102000 in
    '(_, vma) ← allocate_virt vma cmdline_start 1;
    '(ok, vma) ← copy_bytes_to vma cmdline_start (_data cmdline);
    if negb ok then Ok (Some NoCommandLine, with_vma p vma)
    else let '(t, vma) := add_entry_argument vma t cmdline_start in Ok (None, with_thread p m t vma)
  else let '(t, vma) := add_entry_argument vma t 0 in Ok (None, with_thread p m t vma).

(** The page allocator and the memory go on with those of the process, also
    when it is not used: nothing is released. *)
Definition load (f : F) (pg : PageAllocator A) (mem : gmap Z Z) (cmdline : String)
  : outcome ((elf_error + Process A) * F * PageAllocator A * gmap Z Z) :=
  f ← file_seek_absolute f 0;
  '(bytes, hdr, f) ← file_read f (uninit ELF64Header.size) (Z.of_nat ELF64Header.size);
  if negb (u64 bytes =? Z.of_nat ELF64Header.size) then Ok (inl UnableToReadHeader, f, pg, mem)
  else
    match check_header hdr with
    | Some e => Ok (inl e, f, pg, mem)
    | None =>
        np ← Process_new pg mem template_pml4 (String_of [117; 110; 107; 110; 111; 119; 110]) false
               (ELF64Header.entry_point hdr);
        '(e, f, np) ← load_segments (Z.to_nat (ELF64Header.phnum hdr)) 0 hdr f np;
        match e with
        | Some e => Ok (inl e, f, pgalloc (_vma np), words (_vma np))
        | None =>
            '(e, np) ← start_image np cmdline;
            Ok (match e with Some e => inl e | None => inr np end, f, pgalloc (_vma np), words (_vma np))
        end
    end.
End loader.
