(* ===== verification/ElfProof.v ===== *)
(** * A loaded executable: what its process sees

    [space] is the state of the address space of a process under construction:
    the memory a program will see, the registers its main thread will start
    with, and the pages left for more. *)
From S2P Require Import Prelude Define PageDesc BuddyTheorems PageAllocator PageAllocatorProof PageAllocatorTheorems Vma VmaProof VmaOps VmaTheorems Memory CString TarFS InternalDriver Process ProcessProof UserMemory Elf.

#[local] Arguments wrap : simpl never.

Section space.
Context {A : Type} `{PageAllocatorAlgorithmLaws A fresh_state owned can_free}.
Implicit Types (s : VMA A) (L : gmap Z nat) (M : Z -> option Z) (regs : context_field -> Z).

Notation vma_ok := (vma_ok (owned := owned)).
Notation sys_ok := (sys_ok (owned := owned)).

(** The context of the main thread whose kernel stack is the pages [pgd] and
    [pgd + 1]. *)
Definition context_at (pgd : Z) : Z := frame_va pgd + 8016.

Record space (O : Z) s L (pgd : Z) regs M (k : nat) : Prop := {
  sp_vma : vma_ok s L;
  sp_memory : memory_is s L (block pgd 1) M;
  sp_kernel : kernel_pages s L (block pgd 1);
  sp_range : 0 < pgd /\ pgd + 2 <= 2 ^ 20;
  sp_regs f : read_field s (context_at pgd) f = regs f;
  sp_ample : ample O k s
}.

Lemma context_field_page pgd f : 0 < pgd -> pgd + 2 <= 2 ^ 20 ->
  u64 (context_at pgd + field_offset f) = context_at pgd + field_offset f /\
  in_page (pgd + 1) (context_at pgd + field_offset f).
Proof.
  intros Hp0 Hp1. pose proof (field_offset_range f). unfold context_at, in_page, frame_va.
  change PMEM_VA_START with 0xFFFF800000000000. change (2 ^ 20) with 1048576 in Hp1. split; [|lia]. apply wrap_small. lia.
Qed.

Lemma context_range pgd : 0 < pgd -> pgd + 2 <= 2 ^ 20 -> 0 <= context_at pgd < 2 ^ 64 - 176.
Proof.
  intros Hp0 Hp1. unfold context_at, frame_va. change PMEM_VA_START with 0xFFFF800000000000. change (2 ^ 20) with 1048576 in Hp1. lia.
Qed.

Lemma kernel_same_field pgd s s' f : 0 < pgd -> pgd + 2 <= 2 ^ 20 -> kernel_same (block pgd 1) s s' ->
  read_field s' (context_at pgd) f = read_field s (context_at pgd) f.
Proof.
  intros Hp0 Hp1 Hk. destruct (context_field_page pgd f Hp0 Hp1) as [E Hp]. unfold read_field. rewrite E.
  apply (Hk (pgd + 1)); [unfold block; lia|done].
Qed.

(** Memory allocated at [va] and filled from [src]. *)
Lemma space_load O s L pgd regs M k va nr src :
  let order := __log2ceil nr in
  space O s L pgd regs M (4 * Z.to_nat (2 ^ order) + k) -> low va -> (va / 4096 + 2 ^ order) * 4096 <= 2 ^ 47 ->
  0 < nr <= 2 ^ 16 -> order <= O -> Forall is_byte src -> va mod 4096 + Z.of_nat (length src) <= 2 ^ order * 4096 ->
  exists s1 s' L', allocate_virt s va nr = Ok (true, s1) /\ copy_bytes_to s1 va src = Ok (true, s') /\
    space O s' L' pgd regs (loaded_over M va (2 ^ order) src) k.
Proof.
  intros order [Hok HM HK [Hp0 Hp1] Hr Ha] Hl Hend Hnr HO Hb Hlen.
  destruct (load_memory s L (block pgd 1) M va nr O k src Hok HM HK Hl Hend Hnr HO Ha Hb Hlen)
    as (s1 & s' & L' & E1 & E2 & Hok' & Ha' & HK' & Hsame & HM').
  exists s1, s', L'. split; [done|]. split; [done|]. split; try done. intros f. by rewrite (kernel_same_field _ _ _ _ Hp0 Hp1 Hsame).
Qed.

Lemma space_le O s L pgd regs M k k' : (k' <= k)%nat -> space O s L pgd regs M k -> space O s L pgd regs M k'.
Proof. intros Hk []. split; try done. by eapply ample_le. Qed.

(** Storing a field of a context touches no page but that of the context. *)
Lemma field_memory s L K M pgd f v : vma_ok s L -> memory_is s L K M -> kernel_pages s L K -> 0 < pgd -> pgd + 2 <= 2 ^ 20 -> K (pgd + 1) ->
  let s' := write_field s (context_at pgd) f v in
  vma_ok s' L /\ memory_is s' L K M /\ kernel_pages s' L K /\ (forall p a, p <> pgd + 1 -> in_page p a -> word s' a = word s a).
Proof.
  intros Hok HM HK Hp0 Hp1 Hblk s'. destruct (context_field_page pgd f Hp0 Hp1) as [E Hp].
  assert (forall p a, p <> pgd + 1 -> in_page p a -> word s' a = word s a) as Hw.
  { intros p a Hne Hpa. unfold s', write_field. rewrite E, word_write, decide_False; [done|]. intros <-.
    by apply Hne, (in_page_inj _ _ _ Hpa). }
  destruct (vma_ok_same s s' L Hok eq_refl eq_refl) as [Hok' Hg].
  { intros t n i Ht Hi. destruct (t_frame _ _ _ _ (vo_tables _ _ Hok) _ _ Ht) as (q & -> & _).
    apply (Hw q); [|unfold in_page, entry_addr, frame_va; lia]. intros ->. destruct (HK _ Hblk). congruence. }
  split; [done|]. split; [|by split].
  intros va Hl. specialize (HM va Hl). rewrite Hg by by apply low_user. destruct (M va) as [b|]; [|done].
  destruct HM as (p & Ep & Hpr & Hd & Hnk & Hb). exists p. rewrite Hg by by apply low_user. do 4 (split; [done|]).
  rewrite <- Hb. unfold get_byte. f_equal. apply (Hw p); [|apply in_page_aligned, Z.mod_pos_bound; lia]. by intros ->.
Qed.

(** Setting a register of the main thread. *)
Definition set_register regs (f : context_field) (v : Z) (f' : context_field) : Z := if decide (f = f') then v else regs f'.

Lemma space_field O s L pgd regs M k f v : space O s L pgd regs M k ->
  space O (write_field s (context_at pgd) f v) L pgd (set_register regs f v) M k.
Proof.
  intros [Hok HM HK [Hp0 Hp1] Hr Ha].
  destruct (field_memory s L (block pgd 1) M pgd f v Hok HM HK Hp0 Hp1) as (Hok' & HM' & HK' & _); [unfold block; lia|].
  split; try done. intros f'. unfold set_register. rewrite read_write_field by by apply context_range. by rewrite Hr.
Qed.

(** ** The process before anything is loaded *)
Definition started (p : Process A) (pgd : Z) (n : Z) : Prop := exists t, _threads p = [t] /\ _main_thread p = Some 0%nat /\
  _privilege t = User /\ native_context t = context_at pgd /\ _current_entry_argument t = n.

Lemma Process_new_spec pg mem template name entry O k :
  let s0 := {| _page_allocations := []; _pgt_phys_base := 0; _pgt_virt_base := 0; pgalloc := pg; words := mem |} in
  sys_ok s0 -> 1 <= O -> ample O (3 + k) s0 ->
  exists p L pgd, Process_new pg mem (Some template) name false entry = Ok p /\ _pname p = name /\ started p pgd 0 /\
    space O (_vma p) L pgd (initial_register User entry (frame_va pgd + 8192)) (fun _ => None) k.
Proof.
  intros s0 Hs HO Ha. unfold Process_new.
  destruct (VMA_new_spec pg mem (2 + k) Hs (proj1 Ha)) as (s1 & L & E1 & Hok1 & _ & _ & Hg1 & Ht1). step_to E1.
  assert (ample O (2 + k) s1) as Ha1 by (eapply (taken_ample 1); [lia|exact Ht1|exact Ha]).
  destruct (kernel_mapping_spec s1 L template Hok1) as (s2 & E2 & Hok2 & _ & _ & Hg2 & [Ht2 _]). step_to E2.
  assert (ample O (2 + k) s2) as Ha2 by (eapply (taken_ample 0); [lia|exact Ht2|exact Ha1]).
  unfold create_thread. cbn [_kernel_process _vma andb negb assert_ mbind outcome_bind].
  destruct (Thread_new_spec s2 L User entry Hok2) as
    (t & s3 & E3 & Hok3 & Hg3 & Hpriv & Hcount & Hctx & Htop & Hreg & pgd & Hks & Hpages & [Ht3 Hk3]).
  { destruct Ha2 as [_ Hr]. apply (avail_runs_run O 1 (1 + k)); [lia|done]. }
  step_to E3. cbn [_pname _kernel_process _terminated _vma _threads _main_thread length app].
  assert (native_context t = context_at pgd) as Hctxp by (rewrite Htop, Hks; unfold context_at; lia).
  assert (0 < pgd /\ pgd + 2 <= 2 ^ 20) as [Hp0 Hp1].
  { destruct (Hpages pgd) as (_ & Hav0 & _); [unfold block; lia|].
    destruct (Hpages (pgd + 1)) as (_ & Hav1 & _); [unfold block; lia|].
    pose proof (available_range s2 _ (vo_sys _ _ Hok2) Hav0). pose proof (available_range s2 _ (vo_sys _ _ Hok2) Hav1). lia. }
  eexists _, L, pgd. split; [done|]. split; [done|]. split; [by exists t|]. split; cbn [_vma]; try done.
  - intros va Hl. pose proof (low_user va Hl). by rewrite Hg3, Hg2, Hg1.
  - intros x Hx. apply (Hpages x Hx).
  - intros f. rewrite <- Hctxp, Hreg, Hks. done.
  - eapply (taken_ample 2); [lia|exact Ht3|exact Ha2].
Qed.
End space.

(** ** What a file promises

    [contents f d p]: the file holds the bytes [d] and is at position [p]. *)
Class FileLaws (F : Type) `{FileOps F} (contents : F -> list Z -> Z -> Prop) := {
  law_size f d p : contents f d p -> Z.of_nat (length d) < 2 ^ 31;
  law_seek f d p : contents f d p -> d <> [] -> exists f', file_seek_absolute f 0 = Ok f' /\ contents f' d 0;
  law_read f d p buf n : contents f d p -> 0 <= p -> 0 < n -> p + n <= Z.of_nat (length d) -> n <= Z.of_nat (length buf) ->
    exists f', file_read f buf n = Ok (n, take (Z.to_nat n) (drop (Z.to_nat p) d) ++ drop (Z.to_nat n) buf, f') /\
      contents f' d (p + n);
  law_pread f d p buf n off : contents f d p -> 0 <= off -> 0 <= n -> off + n <= Z.of_nat (length d) ->
    n <= Z.of_nat (length buf) ->
    exists f' r, file_pread f buf n off = Ok (r, take (Z.to_nat n) (drop (Z.to_nat off) d) ++ drop (Z.to_nat n) buf, f') /\
      contents f' d p /\ (0 < n -> r = n)
}.

(** ** Executables *)
Definition bytes_at (d : list Z) (off n : Z) : list Z := take (Z.to_nat n) (drop (Z.to_nat off) d).

Lemma bytes_at_length d off n : 0 <= off -> 0 <= n -> off + n <= Z.of_nat (length d) ->
  Z.of_nat (length (bytes_at d off n)) = n.
Proof. intros. unfold bytes_at. rewrite length_take, length_drop. lia. Qed.

Definition image_header (d : list Z) : list Z := bytes_at d 0 64.

Definition entry_offset (d : list Z) (i : Z) : Z :=
  ELF64Header.phoff (image_header d) + i * ELF64Header.phentsize (image_header d).

Definition program_headers (d : list Z) : list (list Z) :=
  (fun i => bytes_at d (entry_offset d i) 56) <$> seqZ 0 (ELF64Header.phnum (image_header d)).

Definition segments (d : list Z) : list (list Z) :=
  filter (fun e => ELF64ProgramHeaderEntry.type e = 1) (program_headers d).

(** The pages of a segment: those the loader allocates for it. *)
Definition segment_order (e : list Z) : Z := __log2ceil ((ELF64ProgramHeaderEntry.memsz e + 4095) / 4096).
Definition first_page (e : list Z) : Z := ELF64ProgramHeaderEntry.vaddr e / 4096.
Definition segment_pages (e : list Z) : Z := 2 ^ segment_order e.

(** A segment that fits its pages, its bytes those of the image. *)
Record segment_ok (O : Z) (d : list Z) (e : list Z) : Prop := {
  se_order : segment_order e <= O;
  se_low : (first_page e + segment_pages e) * 4096 <= 2 ^ 47;
  se_mem : 0 < ELF64ProgramHeaderEntry.memsz e <= 2 ^ 28;
  se_file : ELF64ProgramHeaderEntry.filesz e <= ELF64ProgramHeaderEntry.memsz e;
  se_fits : ELF64ProgramHeaderEntry.vaddr e mod 4096 + ELF64ProgramHeaderEntry.memsz e <= segment_pages e * 4096;
  se_bytes : ELF64ProgramHeaderEntry.offset e + ELF64ProgramHeaderEntry.filesz e <= Z.of_nat (length d)
}.

Definition disjoint_pages (p n p' n' : Z) : Prop := p + n <= p' \/ p' + n' <= p.

Definition disjoint_segments (e e' : list Z) : Prop :=
  disjoint_pages (first_page e) (segment_pages e) (first_page e') (segment_pages e').

(** An executable the loader can load: valid headers inside the file, and
    segments on pages of their own, away from the stack and the command line
    at pages 0x100 to 0x102. *)
Record image_ok (O : Z) (d : list Z) : Prop := {
  im_bytes : Forall is_byte d;
  im_header : 64 <= Z.of_nat (length d) /\ check_header (image_header d) = None;
  im_entries i : 0 <= i < ELF64Header.phnum (image_header d) -> entry_offset d i + 56 <= Z.of_nat (length d);
  im_segments e : e ∈ segments d -> segment_ok O d e /\ disjoint_pages (first_page e) (segment_pages e) 0x100 3;
  im_disjoint : StronglySorted disjoint_segments (segments d)
}.

(** Pages the loader may need. *)
Definition segment_cost (e : list Z) : nat := 4 * Z.to_nat (segment_pages e).
Definition segments_cost (es : list (list Z)) : nat := sum_list_with segment_cost es.

(** The memory with the segments [es] of [d] loaded over [M]. *)
Definition load_segment_over (d : list Z) (M : Z -> option Z) (e : list Z) : Z -> option Z :=
  loaded_over M (ELF64ProgramHeaderEntry.vaddr e) (segment_pages e)
    (bytes_at d (ELF64ProgramHeaderEntry.offset e) (ELF64ProgramHeaderEntry.filesz e)).
Definition segments_over (d : list Z) (M : Z -> option Z) (es : list (list Z)) : Z -> option Z :=
  foldl (load_segment_over d) M es.

(** ** Fields *)
Lemma le_range l : Forall is_byte l -> 0 <= le l < 256 ^ Z.of_nat (length l).
Proof.
  induction 1 as [|b l Hb Hl IH]; [cbn; lia|]. cbn [le foldr length]. fold (le l). unfold is_byte in Hb.
  rewrite Nat2Z.inj_succ, Z.pow_succ_r by lia. lia.
Qed.

Lemma field_range buf off n : Forall is_byte buf -> 0 <= field buf off n < 256 ^ Z.of_nat n.
Proof.
  intros Hb. unfold field. pose proof (le_range (take n (drop off buf)) ltac:(by apply Forall_take, Forall_drop)) as Hr.
  split; [lia|]. eapply Z.lt_le_trans; [apply Hr|]. apply Z.pow_le_mono_r; [lia|]. rewrite length_take. lia.
Qed.

Lemma bytes_at_bytes d off n : Forall is_byte d -> Forall is_byte (bytes_at d off n).
Proof. intros. by apply Forall_take, Forall_drop. Qed.

Lemma program_header_bytes d e : Forall is_byte d -> e ∈ program_headers d -> Forall is_byte e.
Proof. intros Hd (i & -> & _)%list_elem_of_fmap. by apply bytes_at_bytes. Qed.

(** The number of pages asked for. *)
Lemma segment_nr_pages m : 0 < m <= 2 ^ 28 ->
  i32 (Z.shiftr (__align_up_page m) 12) = (m + 4095) / 4096 /\ 0 < (m + 4095) / 4096 <= 2 ^ 16.
Proof.
  intros Hm. unfold __align_up_page. change __page_size with 4096.
  destruct (__align_up_spec m 4096 ltac:(lia) ltac:(lia) ltac:(lia)) as [Hr [q Hq]].
  rewrite Z.shiftr_div_pow2 by lia. change (2 ^ 12) with 4096. rewrite Hq, Z.div_mul by lia.
  assert ((m + 4095) / 4096 = q) as -> by (symmetry; apply (Z.div_unique _ _ _ (m + 4095 - q * 4096)); lia).
  split; [|lia]. apply swrap_small; lia.
Qed.

(** ** Loading over a memory *)
Lemma loaded_over_outside M va n src va' : va mod 4096 + Z.of_nat (length src) <= n * 4096 -> ~ in_pages va n va' ->
  loaded_over M va n src va' = M va'.
Proof.
  intros Hf Hp. unfold loaded_over. rewrite !decide_False; [done|done|]. intros Hr. apply Hp. unfold in_pages.
  pose proof (Z.div_mod va 4096 ltac:(lia)). pose proof (Z.div_mod va' 4096 ltac:(lia)).
  pose proof (Z.mod_pos_bound va' 4096 ltac:(lia)). pose proof (Z.mod_pos_bound va 4096 ltac:(lia)). nia.
Qed.

Section segment.
Context (O : Z) (d : list Z) (Hd : Forall is_byte d).

Notation vaddr := ELF64ProgramHeaderEntry.vaddr.
Notation filesz := ELF64ProgramHeaderEntry.filesz.
Notation memsz := ELF64ProgramHeaderEntry.memsz.
Notation offset := ELF64ProgramHeaderEntry.offset.

Lemma segment_fields e : Forall is_byte e -> 0 <= vaddr e /\ 0 <= filesz e /\ 0 <= offset e.
Proof.
  intros He. pose proof (field_range e 16 8 He). pose proof (field_range e 32 8 He). pose proof (field_range e 8 8 He).
  unfold ELF64ProgramHeaderEntry.vaddr, ELF64ProgramHeaderEntry.filesz, ELF64ProgramHeaderEntry.offset. lia.
Qed.

(** What is known of a segment once its bytes are. *)
Lemma segment_facts e : Forall is_byte e -> segment_ok O d e ->
  Z.of_nat (length (bytes_at d (offset e) (filesz e))) = filesz e /\ low (vaddr e) /\ 0 < segment_pages e /\
  vaddr e mod 4096 + filesz e <= segment_pages e * 4096.
Proof.
  intros He [Ho Hl Hm Hf Hp Hb]. destruct (segment_fields e He) as (Hv & Hfs & Hof).
  split; [by apply bytes_at_length|]. split.
  - unfold low, first_page in *. pose proof (Z.div_mod (vaddr e) 4096 ltac:(lia)). pose proof (Z.mod_pos_bound (vaddr e) 4096 ltac:(lia)). lia.
  - pose proof (Z.mod_pos_bound (vaddr e) 4096 ltac:(lia)). split; lia.
Qed.

Lemma load_over_outside M e va : Forall is_byte e -> segment_ok O d e -> ~ in_pages (vaddr e) (segment_pages e) va ->
  load_segment_over d M e va = M va.
Proof.
  intros He Hok Hva. destruct (segment_facts e He Hok) as (Hlen & _ & _ & Hf).
  apply loaded_over_outside; [|done]. by rewrite Hlen.
Qed.

Lemma load_over_inside M e i : Forall is_byte e -> segment_ok O d e -> 0 <= i < memsz e ->
  load_segment_over d M e (vaddr e + i) = Some (if i <? filesz e then nth (Z.to_nat (offset e + i)) d 0 else 0).
Proof.
  intros He Hok Hi. destruct (segment_facts e He Hok) as (Hlen & _ & _ & _). destruct (segment_fields e He) as (Hv & Hfs & Hof).
  unfold load_segment_over, loaded_over. rewrite Hlen. destruct (Z.ltb_spec i (filesz e)).
  - rewrite decide_True by lia. f_equal. replace (vaddr e + i - vaddr e) with i by lia. unfold bytes_at.
    rewrite nth_lookup, lookup_take_lt, lookup_drop by lia. rewrite <- nth_lookup. f_equal. lia.
  - rewrite decide_False by lia. rewrite decide_True; [done|]. destruct Hok as [_ _ _ _ Hp _]. unfold in_pages.
    pose proof (Z.div_mod (vaddr e) 4096 ltac:(lia)). pose proof (Z.div_mod (vaddr e + i) 4096 ltac:(lia)).
    pose proof (Z.mod_pos_bound (vaddr e) 4096 ltac:(lia)). pose proof (Z.mod_pos_bound (vaddr e + i) 4096 ltac:(lia)). nia.
Qed.

Lemma segments_over_outside es : forall M va, (forall e, e ∈ es -> Forall is_byte e /\ segment_ok O d e /\ ~ in_pages (vaddr e) (segment_pages e) va) ->
  segments_over d M es va = M va.
Proof.
  induction es as [|e es IH]; intros M va Hes; [done|]. cbn [segments_over foldl]. fold (segments_over d (load_segment_over d M e) es).
  rewrite IH by (intros e' He'; apply Hes; by right). destruct (Hes e ltac:(left)) as (? & ? & ?). by apply load_over_outside.
Qed.

Lemma in_pages_disjoint va n p' n' va' : in_pages va n va' -> disjoint_pages (va / 4096) n p' n' -> ~ (p' <= va' / 4096 < p' + n').
Proof. unfold in_pages, disjoint_pages. lia. Qed.

Lemma segment_in_pages e i : Forall is_byte e -> segment_ok O d e -> 0 <= i < memsz e -> in_pages (vaddr e) (segment_pages e) (vaddr e + i).
Proof.
  intros He [_ _ _ _ Hp _] Hi. unfold in_pages.
  pose proof (Z.div_mod (vaddr e) 4096 ltac:(lia)). pose proof (Z.div_mod (vaddr e + i) 4096 ltac:(lia)).
  pose proof (Z.mod_pos_bound (vaddr e) 4096 ltac:(lia)). pose proof (Z.mod_pos_bound (vaddr e + i) 4096 ltac:(lia)). nia.
Qed.

Lemma segments_over_inside es : forall M e i, (forall e, e ∈ es -> Forall is_byte e /\ segment_ok O d e) ->
  StronglySorted disjoint_segments es -> e ∈ es -> 0 <= i < memsz e ->
  segments_over d M es (vaddr e + i) = Some (if i <? filesz e then nth (Z.to_nat (offset e + i)) d 0 else 0).
Proof.
  induction es as [|e0 es IH]; intros M e i Hes Hs Hin Hi; [by apply elem_of_nil in Hin|].
  apply StronglySorted_inv in Hs as [Hs Hall]. cbn [segments_over foldl]. fold (segments_over d (load_segment_over d M e0) es).
  apply elem_of_cons in Hin as [->|Hin].
  - destruct (Hes e0 ltac:(left)) as [He Hok]. rewrite segments_over_outside; [by apply load_over_inside|].
    intros e' He'. destruct (Hes e' ltac:(by right)) as [Hb' Hok']. split; [done|]. split; [done|].
    rewrite List.Forall_forall in Hall. specialize (Hall e' ltac:(by apply list_elem_of_In)).
    eapply in_pages_disjoint; [by apply segment_in_pages|exact Hall].
  - apply IH; [|done|done|done]. intros e' He'. apply Hes. by right.
Qed.
End segment.

(** ** The loader *)
Section loader.
Context {A : Type} `{PageAllocatorAlgorithmLaws A fresh_state owned can_free}.
Context {F : Type} `{FileLaws F contents}.
Context (uninit : nat -> list Z) (Huninit : forall n, length (uninit n) = n) (template : Z -> Z).
Context (O : Z) (d : list Z) (Him : image_ok O d).
Implicit Types (s : VMA A) (L : gmap Z nat) (M : Z -> option Z) (regs : context_field -> Z).

Notation space := (space (owned := owned)).
Notation sys_ok := (sys_ok (owned := owned)).
Notation hdr := (image_header d).

Lemma read_exactly f p off n : contents f d p -> 0 <= off -> 0 <= n -> off + n <= Z.of_nat (length d) ->
  exists f' r, file_pread f (uninit (Z.to_nat n)) n off = Ok (r, bytes_at d off n, f') /\ contents f' d p /\ (0 < n -> r = n).
Proof.
  intros Hc Ho Hn Hl. destruct (law_pread f d p (uninit (Z.to_nat n)) n off Hc Ho Hn Hl) as (f' & r & E & Hc' & Hr).
  { rewrite Huninit. lia. }
  exists f', r. split; [|done]. rewrite E. rewrite (drop_ge (uninit _)) by (rewrite Huninit; lia). by rewrite app_nil_r.
Qed.

Lemma mapped_none s L pgd regs M k va : space O s L pgd regs M k -> low va -> M va = None -> is_mapped s va = Ok false.
Proof.
  intros Hs Hl HM. pose proof (sp_memory _ _ _ _ _ _ _ Hs va Hl) as Hm. rewrite HM in Hm. unfold is_mapped. by rewrite Hm.
Qed.

Lemma load_segment_spec f pos (p : Process A) L pgd regs M k e : contents f d pos -> e ∈ segments d ->
  space O (_vma p) L pgd regs M (segment_cost e + k) -> M (ELF64ProgramHeaderEntry.vaddr e) = None ->
  exists f' vma' L', load_segment uninit f p e = Ok (f', with_vma p vma') /\ contents f' d pos /\
    space O vma' L' pgd regs (load_segment_over d M e) k.
Proof.
  intros Hc Hin Hsp HM. destruct (im_segments _ _ Him e Hin) as [Hok _].
  apply list_elem_of_filter in Hin as [Hty Hin].
  pose proof (program_header_bytes d e (im_bytes _ _ Him) Hin) as He.
  destruct (segment_facts O d e He Hok) as (Hlen & Hlow & Hpos & Hfit). destruct (segment_fields e He) as (Hv & Hfs & Hof).
  destruct (segment_nr_pages _ (se_mem _ _ _ Hok)) as [En Hn].
  unfold load_segment. step_to (mapped_none _ _ _ _ _ _ _ Hsp Hlow HM). cbn [negb].
  destruct (space_load O (_vma p) L pgd regs M k (ELF64ProgramHeaderEntry.vaddr e) ((ELF64ProgramHeaderEntry.memsz e + 4095) / 4096)
    (bytes_at d (ELF64ProgramHeaderEntry.offset e) (ELF64ProgramHeaderEntry.filesz e)) Hsp Hlow)
    as (s1 & s2 & L2 & E1 & E2 & Hsp2).
  { apply (se_low _ _ _ Hok). }
  { done. }
  { apply (se_order _ _ _ Hok). }
  { apply bytes_at_bytes, Him. }
  { by rewrite Hlen. }
  rewrite En. rewrite E1. cbn [mbind outcome_bind].
  destruct (read_exactly f pos _ _ Hc Hof Hfs (se_bytes _ _ _ Hok)) as (f' & r & E & Hc' & _). step_to E. step_to E2.
  exists f', s2, L2. done.
Qed.

Definition headers_from (i : Z) (n : nat) : list (list Z) := (fun i => bytes_at d (entry_offset d i) 56) <$> seqZ i (Z.of_nat n).
Definition segments_from (i : Z) (n : nat) : list (list Z) := filter (fun e => ELF64ProgramHeaderEntry.type e = 1) (headers_from i n).

Lemma headers_from_S i n : headers_from i (S n) = bytes_at d (entry_offset d i) 56 :: headers_from (i + 1) n.
Proof. unfold headers_from. rewrite Nat2Z.inj_succ, seqZ_cons by lia. cbn. f_equal. do 2 f_equal; lia. Qed.

Lemma header_fields : 0 <= ELF64Header.phoff hdr < 2 ^ 64 /\ 0 <= ELF64Header.phentsize hdr < 2 ^ 16 /\
  0 <= ELF64Header.phnum hdr < 2 ^ 16 /\ 0 <= ELF64Header.entry_point hdr < 2 ^ 64.
Proof.
  assert (Forall is_byte hdr) as Hb by apply bytes_at_bytes, Him.
  exact (conj (field_range _ 32 8 Hb) (conj (field_range _ 54 2 Hb) (conj (field_range _ 56 2 Hb) (field_range _ 24 8 Hb)))).
Qed.

(** The entries' offsets do not wrap. *)
Lemma entry_offset_eq i : 0 <= i < ELF64Header.phnum hdr -> Z.of_nat (length d) < 2 ^ 31 ->
  u64 (ELF64Header.phoff hdr + u32 (i * ELF64Header.phentsize hdr)) = entry_offset d i /\ 0 <= entry_offset d i.
Proof.
  intros Hi Hd. destruct header_fields as (Ho & Hs & Hn & _). pose proof (im_entries _ _ Him i Hi) as He.
  unfold entry_offset in *. assert (0 <= i * ELF64Header.phentsize hdr) by (apply Z.mul_nonneg_nonneg; lia).
  rewrite (wrap_small 32) by lia. rewrite wrap_small by lia. split; lia.
Qed.

Lemma with_vma_twice (p : Process A) v w : with_vma (with_vma p v) w = with_vma p w.
Proof. reflexivity. Qed.

Lemma with_vma_id (p : Process A) : with_vma p (_vma p) = p.
Proof. by destruct p. Qed.

Lemma load_segments_spec n : forall i f pos (p : Process A) L pgd regs M k, contents f d pos ->
  0 <= i -> i + Z.of_nat n = ELF64Header.phnum hdr -> StronglySorted disjoint_segments (segments_from i n) ->
  (forall e, e ∈ segments_from i n -> e ∈ segments d /\ M (ELF64ProgramHeaderEntry.vaddr e) = None) ->
  space O (_vma p) L pgd regs M (segments_cost (segments_from i n) + k) ->
  exists f' vma' L', load_segments uninit n i hdr f p = Ok (None, f', with_vma p vma') /\ contents f' d pos /\
    space O vma' L' pgd regs (segments_over d M (segments_from i n)) k.
Proof.
  induction n as [|n IH]; intros i f pos p L pgd regs M k Hc Hi0 Hin Hdis HM Hsp; cbn [load_segments].
  { exists f, (_vma p), L. by rewrite with_vma_id. }
  pose proof (law_size _ _ _ Hc) as Hsz. destruct header_fields as (_ & _ & Hphnum & _).
  destruct (entry_offset_eq i ltac:(lia) Hsz) as [-> Ho].
  destruct (read_exactly f pos (entry_offset d i) 56 Hc Ho ltac:(lia) (im_entries _ _ Him i ltac:(lia))) as (f1 & r & E & Hc1 & Hr).
  change (Z.to_nat 56) with ELF64ProgramHeaderEntry.size in E. change (Z.of_nat ELF64ProgramHeaderEntry.size) with 56. step_to E.
  rewrite (Hr ltac:(lia)). change (u64 56 =? 56) with true. cbn [negb]. wraps.
  unfold segments_from in *. rewrite headers_from_S in *. set (e := bytes_at d (entry_offset d i) 56) in *.
  destruct (decide (ELF64ProgramHeaderEntry.type e = 1)) as [Hty|Hty].
  - rewrite filter_cons_True in * by done. rewrite eqb_true by done.
    apply StronglySorted_inv in Hdis as [Hdis Hall].
    destruct (HM e ltac:(left)) as [Hein HMe].
    cbn [segments_cost sum_list_with] in Hsp. fold (segments_cost (filter (fun e => ELF64ProgramHeaderEntry.type e = 1) (headers_from (i + 1) n))) in Hsp.
    rewrite <- Nat.add_assoc in Hsp.
    destruct (load_segment_spec f1 pos p L pgd regs M _ e Hc1 Hein Hsp HMe) as (f2 & v2 & L2 & E2 & Hc2 & Hsp2). step_to E2.
    destruct (IH (i + 1) f2 pos (with_vma p v2) L2 pgd regs (load_segment_over d M e) k Hc2) as (f3 & v3 & L3 & E3 & Hc3 & Hsp3);
      [lia|lia|done| |exact Hsp2|].
    + intros e' He'. destruct (HM e' ltac:(by right)) as [Hein' HMe']. split; [done|].
      destruct (im_segments _ _ Him e Hein) as [Hok _]. rewrite (load_over_outside O d); [done| |done|].
      * eapply program_header_bytes; [apply Him|]. by apply list_elem_of_filter in Hein as [_ ?].
      * rewrite List.Forall_forall in Hall. specialize (Hall e' ltac:(by apply list_elem_of_In)).
        unfold in_pages, disjoint_segments, disjoint_pages, first_page in *.
        destruct (im_segments _ _ Him e' Hein') as [Hok' _]. apply list_elem_of_filter in Hein' as [_ Hein'].
        pose proof (program_header_bytes d e' (im_bytes _ _ Him) Hein') as He2.
        destruct (segment_facts O d e' He2 Hok') as (_ & _ & Hpos & _). lia.
    + exists f3, v3, L3. rewrite with_vma_twice in E3. done.
  - rewrite filter_cons_False in * by done. rewrite eqb_false by done. cbn [mbind outcome_bind].
    destruct (IH (i + 1) f1 pos p L pgd regs M k Hc1) as (f3 & v3 & L3 & E3 & Hc3 & Hsp3); [lia|lia|done|done|exact Hsp|].
    exists f3, v3, L3. done.
Qed.
End loader.

(** ** Files of the built-in archive driver, as the loader reads them *)


(** The file class of infos/fs/internal-driver.cpp on the device [dev]. *)
#[export] Instance internal_file_ops (dev : BlockDevice) : FileOps ZZz := {
  file_read f buffer size := InternalDriver.read dev f buffer size;
  file_pread f buffer size off := '(n, buffer) ← InternalDriver.pread dev f buffer size off; Ok (n, buffer, f);
  file_seek_absolute f off := Ok (InternalDriver.seek f off SeekAbsolute)
}.

(** The file holds the bytes [d] that are stored from its first block on. *)
Record internal_contents (dev : BlockDevice) (f : ZZz) (d : list Z) (p : Z) : Prop := {
  ic_block : block_size dev = 512;
  ic_stored : stored dev (xXc f) d;
  ic_size : XXc f = Z.of_nat (length d) /\ Z.of_nat (length d) < 2 ^ 31;
  ic_start : 0 <= xXc f < 2 ^ 31;
  ic_position : Xxc f = p
}.

#[export] Instance internal_file_laws dev : @FileLaws ZZz (internal_file_ops dev) (internal_contents dev).
Proof.
  split.
  - intros f d p Hc. apply Hc.
  - intros f d p [Hb Hs [Hz Hl] Hx Hp] Hd. eexists. split; [reflexivity|]. unfold InternalDriver.seek.
    change (u32 0) with 0. rewrite Hz, leb_false by (destruct d; [done|cbn [length]; lia]). by split.
  - intros f d p buf n [Hb Hs [Hz Hl] Hx Hp] H0 Hn Hle Hbuf. cbn [file_read internal_file_ops].
    destruct (internal_pread_spec dev f d buf n p Hb Hs Hz Hl Hx H0 ltac:(lia) Hle Hbuf) as (_ & Hr & _).
    specialize (Hr ltac:(lia)). replace (at_position f p) with f in Hr by (destruct f; cbn in *; by subst).
    rewrite Hr. eexists. split; [reflexivity|]. by split.
  - intros f d p buf n off Hc H0 Hn Hle Hbuf. pose proof Hc as [Hb Hs [Hz Hl] Hx Hp]. cbn [file_pread internal_file_ops].
    destruct (internal_pread_spec dev f d buf n off Hb Hs Hz Hl Hx H0 Hn Hle Hbuf) as (Hr & _ & _). rewrite Hr, Hz.
    destruct (Z.ltb_spec off (Z.of_nat (length d))) as [Hlt|Hge]; cbn [mbind outcome_bind]; eexists f, _.
    + split; [reflexivity|]. done.
    + assert (n = 0) as -> by lia. split; [reflexivity|]. split; [done|lia].
Qed.
