(* ===== verification/ElfTheorems.v ===== *)
(** * What the loader guarantees

    An executable in the file becomes a process whose memory and registers are
    those its headers describe; anything else is refused. *)
From S2P Require Import Prelude TarFS InternalDriver Define PageDesc Buddy BuddyRep BuddyProof BuddyTheorems PageAllocator PageAllocatorProof PageAllocatorTheorems Vma VmaProof VmaOps VmaTheorems Memory CString Process ProcessProof UserMemory Elf ElfProof.

#[local] Arguments wrap : simpl never.

Lemma copy_nothing {A} (s s' : VMA A) va ok : copy_bytes_to s va [] = Ok (ok, s') -> s' = s.
Proof.
  unfold copy_bytes_to. destruct (copy_to s va) as [[dest|]|]; cbn; congruence.
Qed.

Section theorems.
Context {A : Type} `{PageAllocatorAlgorithmLaws A fresh_state owned can_free}.
Context {F : Type} `{FileLaws F contents}.
Context (uninit : nat -> list Z) (Huninit : forall n, length (uninit n) = n) (template : Z -> Z).
Implicit Types (s : VMA A) (L : gmap Z nat) (M : Z -> option Z) (regs : context_field -> Z).

Notation space := (space (owned := owned)).
Notation sys_ok := (sys_ok (owned := owned)).

(** The stack of the main thread is at 0x100000, the command line at 0x102000. *)
Definition stack_over M : Z -> option Z := loaded_over M 0x100000 2 [].
Definition cmdline_over M (cmdline : String) : Z -> option Z :=
  if bool_decide (_data cmdline = []) then M else loaded_over M 0x102000 1 (_data cmdline).
Definition argument (cmdline : String) : Z := if bool_decide (_data cmdline = []) then 0 else 0x102000.

Lemma start_image_spec O (p : Process A) t L pgd regs M k cmdline : 1 <= O ->
  _threads p = [t] -> _main_thread p = Some 0%nat -> native_context t = context_at pgd -> _current_entry_argument t = 0 ->
  Forall is_byte (_data cmdline) -> Z.of_nat (length (_data cmdline)) <= 4096 ->
  space O (_vma p) L pgd regs M (12 + k) ->
  exists p' t' L', start_image p cmdline = Ok (None, p') /\ _threads p' = [t'] /\ _main_thread p' = Some 0%nat /\
    _privilege t' = _privilege t /\ native_context t' = context_at pgd /\ _pname p' = _pname p /\
    space O (_vma p') L' pgd (set_register (set_register regs c_rsp 0x102000) c_rdi (argument cmdline))
      (cmdline_over (stack_over M) cmdline) k.
Proof.
  intros HO Ht Hm Hctx Hcount Hb Hlen Hsp. unfold start_image, main_thread.
  rewrite Hm, Ht. cbn [deref in_bounds lookup list_lookup mbind outcome_bind].
  destruct (space_load O (_vma p) L pgd regs M (4 + k) 0x100000 2 []) as (s1 & s2 & L2 & E1 & E2 & Hsp2);
    [exact Hsp|unfold low; lia|change (2 ^ __log2ceil 2) with 2; change (0x100000 / 4096) with 0x100; lia|lia|change (__log2ceil 2) with 1; lia|by constructor|
     change (2 ^ __log2ceil 2) with 2; change (0x100000 mod 4096) with 0; cbn; lia|].
  apply copy_nothing in E2 as ->. unfold allocate_user_stack.
  change (i32 (Z.shiftr (__align_up_page 0x2000) 12)) with 2. step_to E1. rewrite Hctx.
  change (u64 (0x100000 + 0x2000)) with 0x102000.
  pose proof (space_field O s1 L2 pgd _ _ _ c_rsp 0x102000 Hsp2) as Hsp3.
  set (s3 := write_field s1 (context_at pgd) c_rsp 0x102000) in *. change (2 ^ __log2ceil 2) with 2 in Hsp3.
  unfold _size, cmdline_over, argument. destruct (_data cmdline) as [|c cs] eqn:Ed.
  - rewrite bool_decide_true by done. cbn [length]. change (0 <? Z.of_nat 0) with false. cbn iota.
    unfold add_entry_argument. rewrite Hcount, Hctx. cbn iota.
    eexists _, _, L2. split; [reflexivity|]. cbn [with_thread _threads _main_thread _vma _pname]. rewrite Ht. split; [reflexivity|]. split; [done|].
    do 3 (split; [done|]). eapply space_le, space_field; [|exact Hsp3]. lia.
  - rewrite bool_decide_false by done. rewrite ltb_true by (cbn [length]; lia). rewrite <- Ed in *.
    destruct (space_load O s3 L2 pgd _ _ k 0x102000 1 (_data cmdline) Hsp3) as (s4 & s5 & L5 & E4 & E5 & Hsp5);
      [unfold low; lia|change (2 ^ __log2ceil 1) with 1; change (0x102000 / 4096) with 0x102; lia|lia|change (__log2ceil 1) with 0; lia|done|
       change (2 ^ __log2ceil 1) with 1; change (0x102000 mod 4096) with 0; lia|].
    cbn [mbind outcome_bind]. step_to E4. step_to E5. cbn [negb].
    unfold add_entry_argument. rewrite Hcount, Hctx. cbn iota.
    eexists _, _, L5. split; [reflexivity|]. cbn [with_thread _threads _main_thread _vma _pname]. rewrite Ht. split; [reflexivity|]. split; [done|].
    do 3 (split; [done|]). by apply space_field.
Qed.

(** The addresses of the stack and the command line. *)
Lemma extra_outside M cmdline va : Z.of_nat (length (_data cmdline)) <= 4096 -> ~ in_pages 0x100000 3 va ->
  cmdline_over (stack_over M) cmdline va = M va.
Proof.
  unfold in_pages. intros Hl Hva. assert (stack_over M va = M va) as Hst.
  { apply loaded_over_outside; [change (0x100000 mod 4096) with 0; cbn [length]; lia|]. unfold in_pages. lia. }
  unfold cmdline_over. case_bool_decide; [done|]. rewrite loaded_over_outside; [done| |].
  - change (0x102000 mod 4096) with 0. lia.
  - unfold in_pages. change (0x102000 / 4096) with 0x102. change (0x100000 / 4096) with 0x100 in Hva. lia.
Qed.

Lemma stack_inside M cmdline i : Z.of_nat (length (_data cmdline)) <= 4096 -> 0 <= i < 0x2000 ->
  cmdline_over (stack_over M) cmdline (0x100000 + i) = Some 0.
Proof.
  intros Hl Hi. assert (0x100000 / 4096 <= (0x100000 + i) / 4096 < 0x100000 / 4096 + 2) as Hp.
  { change (0x100000 / 4096) with 0x100. pose proof (Z.div_mod (0x100000 + i) 4096 ltac:(lia)).
    pose proof (Z.mod_pos_bound (0x100000 + i) 4096 ltac:(lia)). lia. }
  assert (stack_over M (0x100000 + i) = Some 0) as Hst.
  { unfold stack_over, loaded_over. rewrite decide_False by (cbn; lia). by rewrite decide_True. }
  unfold cmdline_over. case_bool_decide; [done|]. rewrite loaded_over_outside; [done| |].
  - change (0x102000 mod 4096) with 0. lia.
  - unfold in_pages. change (0x102000 / 4096) with 0x102. change (0x100000 / 4096) with 0x100 in Hp. lia.
Qed.

Lemma cmdline_inside M cmdline i : _data cmdline <> [] -> (i < 4096)%nat ->
  cmdline_over M cmdline (0x102000 + Z.of_nat i) = Some (nth i (_data cmdline) 0).
Proof.
  intros Hne Hi. unfold cmdline_over. rewrite bool_decide_false by done. unfold loaded_over.
  destruct (decide (0x102000 <= 0x102000 + Z.of_nat i < 0x102000 + Z.of_nat (length (_data cmdline)))) as [Hin|Hout].
  - do 2 f_equal. lia.
  - rewrite decide_True; [by rewrite nth_overflow by lia|]. unfold in_pages. change (0x102000 / 4096) with 0x102.
    pose proof (Z.div_mod (0x102000 + Z.of_nat i) 4096 ltac:(lia)).
    pose proof (Z.mod_pos_bound (0x102000 + Z.of_nat i) 4096 ltac:(lia)). lia.
Qed.

(** A process that runs the executable [d] with the command line [cmdline]:
    its one thread, the registers it starts with, and its memory. *)
Record runs_image (d : list Z) (cmdline : String) (p : Process A) (t : Thread) : Prop := {
  ri_thread : _threads p = [t] /\ _main_thread p = Some 0%nat /\ _privilege t = User;
  ri_registers :
    let reg := read_field (_vma p) (native_context t) in
    reg c_rip = ELF64Header.entry_point (image_header d) /\ reg c_rsp = 0x102000 /\ reg c_rdi = argument cmdline /\
    reg c_cs = 0x1b /\ reg c_ss = 0x23;
  ri_segments e i : e ∈ segments d -> 0 <= i < ELF64ProgramHeaderEntry.memsz e ->
    user_byte (_vma p) (ELF64ProgramHeaderEntry.vaddr e + i) =
    Ok (Some (if i <? ELF64ProgramHeaderEntry.filesz e then nth (Z.to_nat (ELF64ProgramHeaderEntry.offset e + i)) d 0 else 0));
  ri_stack i : 0 <= i < 0x2000 -> user_byte (_vma p) (0x100000 + i) = Ok (Some 0);
  ri_cmdline i : _data cmdline <> [] -> (i < 4096)%nat ->
    user_byte (_vma p) (0x102000 + Z.of_nat i) = Ok (Some (nth i (_data cmdline) 0));
  ri_unmapped va : low va -> (forall e, e ∈ segments d -> ~ in_pages (ELF64ProgramHeaderEntry.vaddr e) (segment_pages e) va) ->
    ~ in_pages 0x100000 3 va -> user_byte (_vma p) va = Ok None
}.

Lemma load_spec O f pos d pg mem cmdline :
  let s0 := {| _page_allocations := []; _pgt_phys_base := 0; _pgt_virt_base := 0; pgalloc := pg; words := mem |} in
  contents f d pos -> image_ok O d -> 1 <= O -> sys_ok s0 -> ample O (15 + segments_cost (segments d)) s0 ->
  Forall is_byte (_data cmdline) -> Z.of_nat (length (_data cmdline)) < 4096 ->
  exists p t f', load uninit (Some template) f pg mem cmdline = Ok (inr p, f', pgalloc (_vma p), words (_vma p)) /\
    runs_image d cmdline p t.
Proof.
  intros s0 Hc Him HO Hs Ha Hb Hlen. destruct (im_header _ _ Him) as [H64 Hchk].
  pose proof (law_size _ _ _ Hc) as Hsz. unfold load.
  destruct (law_seek f d pos Hc) as (f1 & E1 & Hc1); [by intros ->|]. step_to E1.
  destruct (law_read f1 d 0 (uninit ELF64Header.size) 64 Hc1 ltac:(lia) ltac:(lia) ltac:(lia)) as (f2 & E2 & Hc2);
    [by rewrite Huninit|].
  change (Z.of_nat ELF64Header.size) with 64. step_to E2. change (u64 64 =? 64) with true. cbn [negb].
  rewrite (drop_ge (uninit _)) by by rewrite Huninit. rewrite app_nil_r. fold (bytes_at d 0 64). fold (image_header d).
  rewrite Hchk.
  destruct (Process_new_spec pg mem template (String_of [117; 110; 107; 110; 111; 119; 110]) (ELF64Header.entry_point (image_header d))
    O (segments_cost (segments d) + 12) Hs HO) as (p & L & pgd & E3 & _ & (t & Ht & Hm & Hpriv & Hctx & Hcount) & Hsp).
  { replace (3 + (segments_cost (segments d) + 12))%nat with (15 + segments_cost (segments d))%nat by lia. done. }
  step_to E3. destruct (header_fields O d Him) as (_ & _ & Hphnum & _).
  assert (segments_from d 0 (Z.to_nat (ELF64Header.phnum (image_header d))) = segments d) as Hseg.
  { unfold segments_from, headers_from, segments, program_headers. by rewrite Z2Nat.id by lia. }
  destruct (load_segments_spec uninit Huninit O d Him (Z.to_nat (ELF64Header.phnum (image_header d))) 0 f2 _ p L pgd
      (initial_register User (ELF64Header.entry_point (image_header d)) (frame_va pgd + 8192)) (fun _ => None) 12 Hc2)
    as (f3 & v3 & L3 & E4 & _ & Hsp3); rewrite ?Hseg; [lia|lia|apply Him|done|done|]. step_to E4.
  destruct (start_image_spec O (with_vma p v3) t L3 pgd _ _ 0 cmdline HO Ht Hm Hctx Hcount Hb ltac:(lia) Hsp3)
    as (p' & t' & L' & E5 & Ht' & Hm' & Hpriv' & Hctx' & _ & Hsp'). step_to E5.
  exists p', t', f3. split; [done|]. rewrite Hseg in *.
  pose proof (fun va => memory_user_byte _ _ _ _ va (sp_memory _ _ _ _ _ _ _ Hsp')) as Hmem.
  assert (forall e, e ∈ segments d -> Forall is_byte e /\ segment_ok O d e) as Hes.
  { intros e He. split; [|by apply (im_segments _ _ Him)]. apply list_elem_of_filter in He as [_ He].
    eapply program_header_bytes; [apply Him|done]. }
  split; [split_and!; [done|done|congruence]|rewrite Hctx'; cbv zeta; rewrite !(sp_regs _ _ _ _ _ _ _ Hsp'); done| | | |].
  - intros e i He Hi. destruct (Hes e He) as [Hbe Hok]. destruct (segment_facts O d e Hbe Hok) as (_ & [Hl1 Hl2] & Hpos & _).
    pose proof (segment_in_pages O d e i Hbe Hok Hi) as Hp. rewrite Hmem.
    + rewrite extra_outside; [|lia|].
      * rewrite (segments_over_inside O d); [done|exact Hes|apply Him|done|done].
      * destruct (im_segments _ _ Him e He) as [_ Hdis]. exact (in_pages_disjoint _ _ _ _ _ Hp Hdis).
    + unfold low. destruct Hok as [_ Hlow _ _ _ _]. unfold in_pages, first_page in *.
      pose proof (Z.div_mod (ELF64ProgramHeaderEntry.vaddr e + i) 4096 ltac:(lia)).
      pose proof (Z.mod_pos_bound (ELF64ProgramHeaderEntry.vaddr e + i) 4096 ltac:(lia)). lia.
  - intros i Hi. rewrite Hmem by (unfold low; lia). rewrite stack_inside by lia. done.
  - intros i Hne Hi. rewrite Hmem by (unfold low; lia). by rewrite cmdline_inside.
  - intros va Hl Hno Hex. rewrite Hmem by done. rewrite extra_outside by (done || lia).
    rewrite (segments_over_outside O d); [done|]. intros e He. destruct (Hes e He). split; [done|]. split; [done|]. by apply Hno.
Qed.

(** C2: loading an executable gives a process that sees exactly the image.
    When the file holds an executable whose segments fit their pages and have
    pages of their own, and there is memory for it, the loader returns a
    process with one user thread.  At every address of a segment the process
    finds the byte of the file, or zero after the segment's bytes in the file
    end; its stack is 8192 bytes of zeroes; the command line is at 0x102000,
    ended by a zero; no other address of the lower half is mapped.  The thread
    starts at the entry point, with RSP at the end of the stack and RDI at the
    command line, or zero when there is none. *)
Theorem load_correct O f pos d pg mem cmdline :
  let s0 := {| _page_allocations := []; _pgt_phys_base := 0; _pgt_virt_base := 0; pgalloc := pg; words := mem |} in
  contents f d pos -> image_ok O d -> 1 <= O -> sys_ok s0 -> ample O (15 + segments_cost (segments d)) s0 ->
  Forall is_byte (_data cmdline) -> Z.of_nat (length (_data cmdline)) < 4096 ->
  exists p t f', load uninit (Some template) f pg mem cmdline = Ok (inr p, f', pgalloc (_vma p), words (_vma p)) /\
    _threads p = [t] /\ _main_thread p = Some 0%nat /\ _privilege t = User /\
    (let reg := read_field (_vma p) (native_context t) in
     reg c_rip = ELF64Header.entry_point (image_header d) /\ reg c_rsp = 0x102000 /\ reg c_rdi = argument cmdline /\
     reg c_cs = 0x1b /\ reg c_ss = 0x23) /\
    (forall e i, e ∈ segments d -> 0 <= i < ELF64ProgramHeaderEntry.memsz e ->
       user_byte (_vma p) (ELF64ProgramHeaderEntry.vaddr e + i) =
       Ok (Some (if i <? ELF64ProgramHeaderEntry.filesz e then nth (Z.to_nat (ELF64ProgramHeaderEntry.offset e + i)) d 0 else 0))) /\
    (forall i, 0 <= i < 0x2000 -> user_byte (_vma p) (0x100000 + i) = Ok (Some 0)) /\
    (_data cmdline <> [] -> forall i, (i < 4096)%nat ->
       user_byte (_vma p) (0x102000 + Z.of_nat i) = Ok (Some (nth i (_data cmdline) 0))) /\
    (forall va, low va -> (forall e, e ∈ segments d -> ~ in_pages (ELF64ProgramHeaderEntry.vaddr e) (segment_pages e) va) ->
       ~ in_pages 0x100000 3 va -> user_byte (_vma p) va = Ok None).
Proof.
  intros s0 Hc Him HO Hs Ha Hb Hlen.
  destruct (load_spec O f pos d pg mem cmdline Hc Him HO Hs Ha Hb Hlen) as (p & t & f' & E & [(R1 & R2 & R3) R4 R5 R6 R7 R8]).
  exists p, t, f'. split_and!; try done; try apply R4. intros Hne i Hi. by apply R7.
Qed.
End theorems.

(** An executable of one segment: four bytes at 0x400000 and four more that are
    zero. *)
Definition le_bytes (n : nat) (v : Z) : list Z := (fun i => v / 256 ^ Z.of_nat i mod 256) <$> seq 0 n.

Definition small_image : list Z :=
  [0x7f; 0x45; 0x4c; 0x46; 2; 1; 1; 0] ++ replicate 8 0 ++ le_bytes 2 2 ++ le_bytes 2 0x3e ++ le_bytes 4 1 ++
  le_bytes 8 0x400000 ++ le_bytes 8 64 ++ replicate 14 0 ++ le_bytes 2 56 ++ le_bytes 2 1 ++ replicate 6 0 ++
  le_bytes 4 1 ++ le_bytes 4 5 ++ le_bytes 8 120 ++ le_bytes 8 0x400000 ++ le_bytes 8 0 ++ le_bytes 8 4 ++ le_bytes 8 8 ++ le_bytes 8 0 ++
  [0xb0; 0x2a; 0xcd; 0x80].

Lemma small_image_ok : image_ok 1 small_image.
Proof.
  assert (segments small_image = [bytes_at small_image 64 56]) as Hs by (vm_compute; reflexivity).
  split.
  - apply (bool_decide_unpack _). vm_compute. reflexivity.
  - split; [vm_compute; discriminate|vm_compute; reflexivity].
  - intros i Hi. change (ELF64Header.phnum (image_header small_image)) with 1 in Hi. replace i with 0 by lia. vm_compute. discriminate.
  - intros e. rewrite Hs. intros ->%list_elem_of_singleton. split; [|right; vm_compute; discriminate].
    split; vm_compute; try split; congruence.
  - rewrite Hs. repeat constructor.
Qed.

Definition image_disk : BlockDevice := {|
  block_size := 512; block_count := 2;
  read_block := fun b => if b =? 1 then Some (small_image ++ replicate 388 0) else None
|}.

Lemma load_correct_witness : exists pg p f', 
  load (F := ZZz) (H0 := internal_file_ops image_disk) (fun n => replicate n 7) (Some (fun i => 0)) {| xxc := []; xXc := 1; Xxc := 16; XXc := 124 |}
    pg ∅ (String_of [45; 120]) = Ok (inr p, f', pgalloc (_vma (A := list (option Z)) p), words (_vma p)) /\
  user_byte (_vma p) 0x400001 = Ok (Some 0x2a) /\ user_byte (_vma p) 0x400006 = Ok (Some 0) /\
  user_byte (_vma p) 0x102001 = Ok (Some 120) /\ user_byte (_vma p) 0 = Ok None.
Proof.
  destruct machine_ample as (pg & Hs & Hav & Hruns).
  destruct (load_correct (F := ZZz) (H1 := internal_file_ops image_disk) (H2 := internal_file_laws image_disk) (fun n => replicate n 7) (fun n => length_replicate n 7) (fun i => 0)
    1 {| xxc := []; xXc := 1; Xxc := 16; XXc := 124 |} 16 small_image pg ∅ (String_of [45; 120])) as
    (p & t & f' & E & _ & _ & _ & _ & Hseg & _ & Hcmd & Hnone).
  - split; try reflexivity.
    + intros i Hi Hl. change (Z.of_nat (length small_image)) with 124 in Hl. replace i with 0 by lia. vm_compute. reflexivity.
    + split; reflexivity.
    + cbn. lia.
  - apply small_image_ok.
  - lia.
  - exact Hs.
  - change (15 + segments_cost (segments small_image))%nat with 19%nat.
    eapply ample_le; [|split; [eapply avail_pages_le; [|exact Hav]|exact Hruns]]; lia.
  - apply (bool_decide_unpack _). vm_compute. reflexivity.
  - cbn. lia.
  - exists pg, p, f'. split; [exact E|].
    assert (bytes_at small_image 64 56 ∈ segments small_image) as He by (vm_compute; left).
    split; [exact (Hseg _ 1 He ltac:(vm_compute; split; congruence))|].
    split; [exact (Hseg _ 6 He ltac:(vm_compute; split; congruence))|].
    split; [exact (Hcmd ltac:(discriminate) 1%nat ltac:(lia))|].
    apply Hnone; [unfold low; lia| |vm_compute; intros [? ?]; congruence].
    intros e He'. change (segments small_image) with [bytes_at small_image 64 56] in He'. apply list_elem_of_singleton in He' as ->.
    vm_compute. intros [? ?]. congruence.
Defined.
