(* ===== verification/Launch.v ===== *)
(** * infos/kernel/kernel.cpp: launching programs, and the end of the boot

    [launch_process] opens the image through the virtual file system, has the
    loader make a process of it and starts its main thread, an entity of the
    scheduler of its own.  [start_kernel_threadproc] is the kernel's first
    thread: it mounts the file systems and launches the init program. *)
From S2P Require Import Prelude TarFS InternalDriver CString Vfs Devices Pfs Kernel Syscall Define PageDesc PageAllocator Vma Memory Process Elf InfList CommonsList Time Sched.

Section launch.
Context {A : Type} `{PageAllocatorAlgorithm A} {Q : Type} `{SchedulingAlgorithm Q}.
Context {DF : Type} (open_as_file : Z -> option DF).
Context (block_device : Z -> BlockDevice) (BlockDeviceClass : Z) (uninitialised : list Z).
(** The virtual functions of the files of devices. *)
Context (device_read : DF -> list Z -> Z -> outcome (Z * list Z * DF)).
Context (device_pread : DF -> list Z -> Z -> Z -> outcome (Z * list Z * DF)).
Context (device_seek : DF -> Z -> outcome DF).
Context (uninit : nat -> list Z) (template_pml4 : option (Z -> Z)).

#[local] Instance launch_fs : PhysicalFS Physical PFSNode (File DF) Directory :=
  all_filesystems open_as_file block_device BlockDeviceClass uninitialised.

Definition File_pread (f : File DF) (buffer : list Z) (size off : Z) : outcome (Z * list Z * File DF) :=
  match f with
  | DevFile f => '(n, buffer, f) ← device_pread f buffer size off; Ok (n, buffer, DevFile f)
  | TarFile dev f =>
      '(n, buffer) ← TarFS.pread (S (Z.to_nat size)) dev f uninitialised buffer size off;
      Ok (n, buffer, TarFile dev f)
  | InternalFile dev f =>
      '(n, buffer) ← InternalDriver.pread dev f buffer size off; Ok (n, buffer, InternalFile dev f)
  end.

Definition File_seek_absolute (f : File DF) (off : Z) : outcome (File DF) :=
  match f with
  | DevFile f => f ← device_seek f off; Ok (DevFile f)
  | TarFile dev f => f ← TarFS.seek f off SeekAbsolute; Ok (TarFile dev f)
  | InternalFile dev f => Ok (InternalFile dev (InternalDriver.seek f off SeekAbsolute))
  end.

#[export] Instance all_files : FileOps (File DF) := {
  file_read := File_read uninitialised device_read;
  file_pread := File_pread;
  file_seek_absolute := File_seek_absolute
}.

(** The state of the kernel that launching a program changes.  [next_thread]
    is the address of the next thread object. *)
Record KernelState := {
  ks_vfs : VirtualFilesystem Physical PFSNode;
  ks_pages : PageAllocator A;
  ks_memory : gmap Z Z;
  ks_scheduler : Scheduler Q;
  next_thread : Z
}.

(** The magic number in the first bytes read. *)
Definition is_elf (hdr : list Z) : bool :=
  bool_decide (take 4 hdr = [0x7f; 0x45; 0x4c; 0x46]).

(** The main thread of a new process, an entity that has not run, is started. *)
Definition start_process (s : Scheduler Q) (thread : Z) : outcome (Scheduler Q) :=
  start (put s thread SchedulingEntity_new) thread.

Definition launch_process (s : KernelState) (path cmdline : String) : outcome (option (Process A) * KernelState) :=
  '(image, v) ← Vfs.open (ks_vfs s) path 0;
  match image with
  | None =>
      Ok (None, {| ks_vfs := v; ks_pages := ks_pages s; ks_memory := ks_memory s;
                   ks_scheduler := ks_scheduler s; next_thread := next_thread s |})
  | Some image =>
      '(_, hdr, image) ← file_read image (uninit 16) 16;
      if is_elf hdr then
        '(np, _, pages, memory) ← load uninit template_pml4 image (ks_pages s) (ks_memory s) cmdline;
        match np with
        | inl _ =>
            Ok (None, {| ks_vfs := v; ks_pages := pages; ks_memory := memory;
                         ks_scheduler := ks_scheduler s; next_thread := next_thread s |})
        | inr np =>
            sched ← start_process (ks_scheduler s) (next_thread s);
            Ok (Some np, {| ks_vfs := v; ks_pages := pages; ks_memory := memory;
                            ks_scheduler := sched; next_thread := next_thread s + 1 |})
        end
      else
        Ok (None, {| ks_vfs := v; ks_pages := ks_pages s; ks_memory := ks_memory s;
                     ks_scheduler := ks_scheduler s; next_thread := next_thread s |})
  end.

Definition with_vfs (s : KernelState) v : KernelState :=
  {| ks_vfs := v; ks_pages := ks_pages s; ks_memory := ks_memory s; ks_scheduler := ks_scheduler s; next_thread := next_thread s |}.

(** The kernel's first thread; the time of day is set again after it. *)
Definition start_kernel_threadproc (s : KernelState) (regs : list FilesystemRegistration) (b : BootSettings)
  : outcome (Process A * KernelState) :=
  v ← mount_filesystems open_as_file block_device BlockDeviceClass uninitialised (ks_vfs s) regs b;
  path ← String_cstr (init_program b);
  cmdline ← String_cstr [0];
  '(p, s) ← launch_process (with_vfs s v) path cmdline;
  p ← or_abort p;
  Ok (p, s).
End launch.
