(* ===== verification/ProcessTheorems.v ===== *)
(** * What a new thread finds, and what ending a process leaves

    The register image of a new thread against the descriptor tables of the
    processor, and the threads that the end of a process stops. *)
From S2P Require Import Prelude Define PageDesc BuddyRep BuddyProof BuddyTheorems PageAllocator PageAllocatorProof PageAllocatorTheorems Vma VmaProof VmaOps VmaTheorems InfList CommonsList CommonsListProof Time Sched SchedProof SchedTheorems DescTables DescTablesProof Process ProcessProof.

(** ** Threads *)
Section thread_new.
Context {A : Type} `{PageAllocatorAlgorithmLaws A fresh_state owned can_free}.
Implicit Types (s : VMA A).

(** The arguments [args] given to a thread one after the other. *)
Definition add_entry_arguments s (t : Thread) (args : list Z) : Thread * VMA A :=
  foldl (fun st arg => add_entry_argument (snd st) (fst st) arg) (t, s) args.

Definition argument_fields : list context_field := [c_rdi; c_rsi; c_rdx; c_rcx].


Lemma arguments_ignored s t args : _current_entry_argument t = 4 -> add_entry_arguments s t args = (t, s).
Proof.
  intros Ht. unfold add_entry_arguments. induction args as [|a args IH]; [done|].
  cbn [foldl fst snd]. unfold add_entry_argument at 2. by rewrite Ht.
Qed.

Lemma add_argument_spec s t k f arg : argument_fields !! k = Some f -> _current_entry_argument t = Z.of_nat k ->
  add_entry_argument s t arg = (with_argument_count t (_current_entry_argument t + 1), write_field s (native_context t) f arg).
Proof.
  intros Hk Ht. unfold add_entry_argument. rewrite Ht.
  do 4 (destruct k as [|k]; [by injection Hk as <-|]). discriminate Hk.
Qed.

Lemma write_field_outside s ctx f v a : 0 <= ctx < 2 ^ 64 - 176 -> ~ (ctx <= a < ctx + 176) ->
  word (write_field s ctx f v) a = word s a.
Proof.
  intros Hc Ha. unfold write_field. pose proof (field_offset_range f). rewrite wrap_small by lia.
  rewrite word_write, decide_False; [done|]. intros <-. lia.
Qed.

(** What adding the arguments from the [k]th on does. *)
Record arguments_added s t (k : nat) (args : list Z) (r : Thread * VMA A) : Prop := {
  aa_context : native_context (fst r) = native_context t;
  aa_stack : kernel_stack (fst r) = kernel_stack t;
  aa_root : _pgt_virt_base (snd r) = _pgt_virt_base s;
  aa_pages : pgalloc (snd r) = pgalloc s;
  aa_arg i f : argument_fields !! (k + i)%nat = Some f ->
    read_field (snd r) (native_context t) f = default (read_field s (native_context t) f) (args !! i);
  aa_other f : f ∉ drop k argument_fields -> read_field (snd r) (native_context t) f = read_field s (native_context t) f;
  aa_outside a : ~ (native_context t <= a < native_context t + 176) -> word (snd r) a = word s a
}.

Lemma arguments_spec args : forall s t k, _current_entry_argument t = Z.of_nat k -> (k <= 4)%nat ->
  0 <= native_context t < 2 ^ 64 - 176 -> arguments_added s t k args (add_entry_arguments s t args).
Proof.
  induction args as [|arg args IH]; intros s t k Ht Hk Hc.
  { by split. }
  destruct (decide (k = 4%nat)) as [->|Hk4].
  { rewrite arguments_ignored by done. by split. }
  destruct (lookup_lt_is_Some_2 argument_fields k) as [f Hf]; [cbn; lia|].
  unfold add_entry_arguments. cbn [foldl fst snd]. rewrite (add_argument_spec s t k f arg Hf Ht).
  fold (add_entry_arguments (write_field s (native_context t) f arg) (with_argument_count t (_current_entry_argument t + 1)) args).
  destruct (IH (write_field s (native_context t) f arg) (with_argument_count t (_current_entry_argument t + 1)) (S k))
    as [H1 H2 H3 H4 H5 H6 H7]; [cbn; lia|lia|done|]. cbn [native_context kernel_stack with_argument_count] in *.
  assert (NoDup argument_fields) as Hnd by (apply (bool_decide_unpack _); vm_compute; done).
  assert (f ∉ drop (S k) argument_fields) as Hnf.
  { intros [i Hi]%list_elem_of_lookup. rewrite lookup_drop in Hi. pose proof (NoDup_lookup _ _ _ _ Hnd Hf Hi). lia. }
  split; try done.
  - intros [|i] g Hg.
    + rewrite Nat.add_0_r, Hf in Hg. injection Hg as <-. rewrite (H6 f Hnf), read_write_field, decide_True by done. done.
    + rewrite (H5 i g) by (by rewrite Nat.add_succ_comm). cbn [lookup list_lookup]. f_equal.
      rewrite read_write_field, decide_False; [done| |done]. intros ->.
      pose proof (NoDup_lookup _ _ _ _ Hnd Hf Hg). lia.
  - intros g Hg. erewrite drop_S in Hg by exact Hf. apply not_elem_of_cons in Hg as [Hg1 Hg2].
    rewrite (H6 g Hg2), read_write_field, decide_False; [done|congruence|done].
  - intros a Ha. rewrite H7 by done. by apply write_field_outside.
Qed.

Notation vma_ok := (vma_ok (owned := owned)).

(** The privilege level of the processor a thread runs at. *)
Definition level (privilege : ThreadPrivilege) : Z := if bool_decide (privilege = Kernel) then 0 else 3.

(** Selector [sel] asks for privilege level [level] and names a segment of the
    GDT that is [want]. *)
Definition selects (gdt : list Z) (sel level : Z) (want : segment) : Prop :=
  sel mod 4 = level /\ decode_segment <$> gdt !! Z.to_nat (sel / 8) = Some want.

(** A new thread starts at its entry point, with interrupts on, at its own
    privilege and with its arguments.  Given two free pages in a row,
    Thread::Thread returns; the two pages become the kernel stack and were
    free before; the context it leaves there has the entry point in RIP, the
    top of the stack in RSP and the interrupt flag in RFLAGS; CS and SS name
    the code and data segments of the thread's privilege level in the GDT the
    kernel loads at boot; the first four arguments added are in RDI, RSI, RDX
    and RCX, further ones are ignored, and every other register is zero.  The
    page tables of the process stay well formed and translate every user
    address as before. *)
Lemma thread_new_correct s L privilege entry args tss junk : vma_ok s L -> avail_run 1 s ->
  exists t0 s0 t s' pgd, Thread_new s privilege entry = Ok (t0, s0) /\ add_entry_arguments s0 t0 args = (t, s') /\
    vma_ok s' L /\ (forall va, user_va va -> get_mapping s' va = get_mapping s va) /\
    (forall x, block pgd 1 x -> type_at (descriptors (pgalloc s)) x = Some AVAILABLE /\
       type_at (descriptors (pgalloc s')) x = Some ALLOCATED) /\
    kernel_stack t = frame_va pgd + 2 * 4096 /\ frame_va pgd <= native_context t < kernel_stack t /\
    let reg := read_field s' (native_context t) in
    reg c_rip = entry /\ reg c_rsp = kernel_stack t /\ Z.testbit (reg c_rflags) 9 = true /\
    selects (boot_gdt tss junk) (reg c_cs) (level privilege) (code_segment (level privilege)) /\
    selects (boot_gdt tss junk) (reg c_ss) (level privilege) (data_segment (level privilege)) /\
    (forall i f, argument_fields !! i = Some f -> reg f = default 0 (args !! i)) /\
    (forall f, f ∉ argument_fields -> f ∉ [c_rip; c_rsp; c_rflags; c_cs; c_ss] -> reg f = 0).
Proof.
  intros Hok Hrun.
  destruct (Thread_new_spec s L privilege entry Hok Hrun) as
    (t0 & s0 & E & Hok0 & Hmap & _ & Hcount & Hctx & Htop & Hreg & pgd & Hks & Hpages & _).
  destruct (add_entry_arguments s0 t0 args) as [t s'] eqn:E2.
  pose proof (arguments_spec args s0 t0 0%nat Hcount ltac:(lia) Hctx) as Haa. rewrite E2 in Haa.
  destruct Haa as [Hc Hk Hroot Hpg Harg Hoth Hout]. cbn [fst snd] in *.
  destruct (vma_ok_same s0 s' L Hok0 Hroot Hpg) as [Hok' Hmap'].
  { intros x n i Hx Hi. apply Hout.
    destruct (t_frame _ _ _ _ (vo_tables _ _ Hok) _ _ Hx) as (p & -> & Hp & Hty).
    assert (~ block pgd 1 p) as Hb by (intros Hb; destruct (Hpages p Hb) as (? & ? & _); congruence).
    unfold block in Hb. change (2 ^ 1) with 2 in Hb. rewrite Htop, Hks. unfold entry_addr, frame_va. lia. }
  exists t0, s0, t, s', pgd. rewrite Hc, Hk. do 3 (split; [done|]).
  split; [intros va Hu; by rewrite Hmap', Hmap|].
  split; [intros x Hx; destruct (Hpages x Hx) as (? & ? & _); by rewrite Hpg|].
  split; [done|]. split; [lia|]. cbv zeta.
  rewrite !Hoth, !Hreg by (vm_compute; set_solver).
  split; [done|]. split; [done|]. split; [done|].
  split; [by destruct privilege|]. split; [by destruct privilege|]. split.
  - intros i f Hf. rewrite (Harg i f Hf), Hreg. f_equal. apply list_elem_of_lookup_2 in Hf.
    unfold argument_fields in Hf. rewrite !elem_of_cons, elem_of_nil in Hf. by destruct Hf as [->|[->|[->|[->|[]]]]].
  - intros f Hf Hg. rewrite Hoth, Hreg by done. by destruct f; try done; exfalso; apply Hg; set_solver.
Qed.
End thread_new.

Lemma thread_new_correct_witness : exists (s : VMA (list (option Z))) t0 s0 t s',
  Thread_new s User 0x400000 = Ok (t0, s0) /\ add_entry_arguments s0 t0 [7] = (t, s') /\
  read_field s' (native_context t) c_rip = 0x400000 /\ read_field s' (native_context t) c_rdi = 7.
Proof.
  destruct machine_vma as (s & L & Hok & Hav & Hruns). exists s.
  destruct (thread_new_correct s L User 0x400000 [7] 0 0 Hok) as
    (t0 & s0 & t & s' & pgd & E & E' & _ & _ & _ & _ & _ & Hrip & _ & _ & _ & _ & Harg & _).
  - apply (avail_runs_run 1 1 498); [lia|done].
  - exists t0, s0, t, s'. split; [done|]. split; [done|]. split; [done|]. by apply (Harg 0%nat).
Defined.

(** ** The end of a process *)
Section terminate.
Context {Q : Type} `{SchedulingAlgorithmLaws Q queued}.
Implicit Types (s : Scheduler Q) (xs : list Z) (S : Z -> Prop).

Notation sched_inv := (sched_inv (queued := queued)).

(** [schedule] changes no state. *)
Lemma schedule_states s xs : sched_inv s xs -> never_running s -> _active s = true -> awake s (_idle_entity s) ->
  exists s' xs' n, schedule s = Ok s' /\ sched_inv s' xs' /\ (forall t, state_of s' t = state_of s t) /\
    state_of s n = Some RUNNABLE /\ _current s' = Some n /\ (_current s <> Some n -> current_thread s' = Some n).
Proof.
  intros HI HN Ha Hidle. pose proof (never_running_queue s xs HN HI) as Hrun.
  destruct (schedule_spec s xs HI Ha Hrun Hidle) as
    (s' & xs' & n & E & HI' & _ & Hc & Hn1 & Hn2 & (y & Hy & Hyr) & Hct & _ & _ & Hoth).
  assert (state_of s n = Some RUNNABLE) as Hst.
  { destruct xs as [|x xs].
    - rewrite (Hn1 eq_refl). destruct Hidle as (x & Hx & Hr). unfold state_of. by rewrite Hx, <- Hr.
    - specialize (Hn2 ltac:(done)). destruct (si_cells _ _ HI n Hn2) as [[x' Hx'] _]. unfold state_of.
      rewrite Hx'. cbn. by rewrite (Hrun n x' Hn2 Hx'). }
  exists s', xs', n. do 2 (split; [done|]). split; [|done]. intros t. destruct (decide (t = n)) as [->|Hne].
  - rewrite Hst. unfold state_of. by rewrite Hy, <- Hyr.
  - unfold state_of. by rewrite Hoth.
Qed.

(** The threads before the running one, and the running one itself, are stopped
    when the processor is given away. *)
Lemma stop_threads_through S c after before s xs :
  sched_inv s xs -> closed s S -> never_running s -> (forall t, t ∈ before ++ [c] -> stoppable S s t) ->
  current_thread s = Some c -> c ∉ before ->
  exists s' xs', (forall s2, schedule s' = Ok s2 -> stop_threads s (before ++ c :: after) = Ok (false, s2)) /\
    sched_inv s' xs' /\ never_running s' /\ changed S (before ++ [c]) s s' /\
    (forall t, t ∈ before ++ [c] -> state_of s' t = Some STOPPED) /\
    (forall t w, t ∈ before ++ [c] -> state_of s t <> Some STOPPED -> waits s t w -> awake s' w).
Proof.
  intros HI HC HN Hst Hct Hcb.
  destruct (stop_threads_before S c (c :: after) before s xs HI) as (s2 & xs2 & E3 & HI2 & HC2 & HN2 & Hc2 & Hstop & Haw2);
    try done.
  { intros t Ht. apply Hst. set_solver. }
  destruct (stop_spec S s2 xs2 c HI2 HC2 HN2) as (s3 & xs3 & E4 & HI3 & _ & HN3 & Hc3 & Hstop3 & Haw3).
  { eapply changed_stoppable; [exact Hc2|]. apply Hst. set_solver. }
  rewrite bool_decide_true in E4 by (by rewrite (ch_thread _ _ _ _ Hc2)).
  exists s3, xs3. split; [intros s4 E5; rewrite E3; cbn [stop_threads]; step_to E4; by step_to E5|].
  do 2 (split; [done|]). split; [|split].
  - exact (changed_trans _ _ _ _ _ (changed_weaken S before (before ++ [c]) _ _ ltac:(set_solver) Hc2)
      (changed_weaken S [c] (before ++ [c]) _ _ ltac:(set_solver) Hc3)).
  - intros t [Ht| ->%list_elem_of_singleton]%elem_of_app; [|done]. rewrite <- (Hstop t Ht).
    destruct (Hst t ltac:(set_solver)) as (Hth & HS & _). eapply changed_state; [exact Hc3|set_solver|done|].
    by eapply changed_thread_of.
  - intros t w Ht Hne Hwt. destruct (Hst t Ht) as (Hth & HS & HwS).
    assert (w ∉ before ++ [c]) as Hw by (intros Hin; by apply (Hst w Hin), HwS).
    destruct (decide (t ∈ before)) as [Hb|Hb].
    + eapply changed_awake; [exact Hc3|set_solver|]. by eapply Haw2.
    + assert (t = c) as -> by set_solver. apply Haw3; [|by eapply changed_waits].
      by rewrite (changed_state _ _ _ _ _ Hc2 Hb HS Hth).
Qed.

(** C3: when a thread ends its process, the process's waiters run again, and
    the threads of the process are stopped up to the one that is running.  The
    running thread gives the processor to another thread and its loop over the
    rest of the list never continues: the threads after it keep the state they
    had.  Threads that wait for one of the stopped threads are woken, the
    event's queue is empty, and the run queue again holds exactly the runnable
    threads. *)
Theorem terminate_correct S s xs state_changed ws before c after :
  sched_inv s xs -> closed s S -> never_running s -> _active s = true -> awake s (_idle_entity s) ->
  InfList.holds state_changed ws -> (forall w, w ∈ ws -> S w /\ thread_of s w) ->
  (forall t, t ∈ before ++ [c] -> stoppable S s t) -> c ∉ before ->
  current_thread s = Some c -> _current s = Some c ->
  exists s' xs' state_changed' n, terminate s state_changed (before ++ c :: after) = Ok (false, s', state_changed') /\
    sched_inv s' xs' /\ InfList.holds state_changed' [] /\
    (forall t, t ∈ before ++ [c] -> state_of s' t = Some STOPPED) /\
    (forall w, w ∈ ws -> awake s' w) /\
    (forall t w, t ∈ before ++ [c] -> state_of s t <> Some STOPPED -> waits s t w -> awake s' w) /\
    (forall t, t ∉ before ++ [c] -> ~ S t -> thread_of s t -> state_of s' t = state_of s t) /\
    current_thread s' = Some n /\ n ∉ before ++ [c] /\ state_of s' n = Some RUNNABLE.
Proof.
  intros HI HC HN Hact Hidle Hh Hws Hst Hcb Hct Hcur. unfold terminate, event_trigger.
  step_to (InfList.elements_spec _ _ Hh).
  destruct (wake_all_spec S ws s xs HI HC HN Hws) as (s1 & xs1 & E1 & HI1 & HN1 & Hc1 & Haw1). step_to E1.
  destruct (InfList.clear_spec _ _ Hh) as (sc' & E2 & Hh2 & _). step_to E2.
  destruct (stop_threads_through S c after before s1 xs1 HI1) as (s3 & xs3 & E3 & HI3 & HN3 & Hc3 & Hstopped & Haw3);
    [by eapply changed_closed|done| |by rewrite (ch_thread _ _ _ _ Hc1)|done|].
  { intros t Ht. eapply changed_stoppable; [exact Hc1|]. by apply Hst. }
  cbn [mbind outcome_bind].
  assert (forall t, t ∈ ws -> t ∉ before ++ [c]) as Hdisj.
  { intros t Ht Hin. by apply (Hst t Hin), Hws. }
  assert (awake s3 (_idle_entity s3)) as Hidle3.
  { rewrite (ch_idle _ _ _ _ Hc3), (ch_idle _ _ _ _ Hc1). eapply changed_awake; [exact Hc3| |].
    - intros Hin. destruct (Hst _ Hin) as ([_ ?] & _). done.
    - apply Haw1. by right. }
  destruct (schedule_states s3 xs3 HI3 HN3) as (s4 & xs4 & n & E5 & HI4 & Hsts & Hn & Hcn & Hctn); [|done|].
  { by rewrite (ch_active _ _ _ _ Hc3), (ch_active _ _ _ _ Hc1). }
  assert (forall t, awake s3 t -> awake s4 t) as Hawake.
  { intros t (y & Hy & Hr). apply state_awake. rewrite Hsts. unfold state_of. by rewrite Hy, <- Hr. }
  step_to (E3 _ E5). exists s4, xs4, sc', n. split; [reflexivity|]. do 2 (split; [done|]).
  split; [intros t Ht; rewrite Hsts; by apply Hstopped|]. split_and!; try done.
  - intros w Hw. eapply Hawake, changed_awake; [exact Hc3|by apply Hdisj|]. apply Haw1. by left.
  - intros t w Ht Hne Hwt. apply Hawake. destruct (Hst t Ht) as (Hth & HS & _).
    assert (t ∉ ws) as Htw by (intros Hin; by apply (Hdisj t)).
    apply (Haw3 t w Ht); [by rewrite (changed_state _ _ _ _ _ Hc1 Htw HS Hth)|].
    exact (changed_waits _ _ _ _ _ _ Hc1 Htw HS Hth Hwt).
  - intros t Ht HS Hth. rewrite Hsts.
    assert (t ∉ ws) as Htw by (intros Hin; by apply HS, Hws).
    rewrite (changed_state _ _ _ _ _ Hc3 Ht HS (changed_thread_of _ _ _ _ _ Hc1 Hth)).
    by apply (changed_state _ _ _ _ _ Hc1).
  - apply Hctn. rewrite (ch_current _ _ _ _ Hc3), (ch_current _ _ _ _ Hc1), Hcur.
    intros [= <-]. rewrite (Hstopped c) in Hn by set_solver. done.
  - intros Hin. by rewrite (Hstopped n Hin) in Hn.
  - by rewrite Hsts.
Qed.
End terminate.

(** Threads 1 and 2 run, the idle thread is 0 and thread 3 sleeps until the
    process ends; thread 1 has the processor. *)
Definition running_entities : gmap Z SchedulingEntity :=
  <[1 := with_state SchedulingEntity_new RUNNABLE]> (<[2 := with_state SchedulingEntity_new RUNNABLE]>
    (<[3 := with_state SchedulingEntity_new SLEEPING]> {[0 := with_state SchedulingEntity_new RUNNABLE]})).

Definition running {Q} (q : Q) : Scheduler Q := {|
  _active := true; _algorithm := Some q; _current := Some 1; _idle_entity := 0;
  entities := running_entities; interrupts := true; current_thread := Some 1; runtime := time_point 100 |}.

Lemma running_lookup e x : running_entities !! e = Some x ->
  _state_changed x = InfList.empty_list /\
  ((e = 3 /\ _state x = SLEEPING) \/ ((e = 0 \/ e = 1 \/ e = 2) /\ _state x = RUNNABLE)).
Proof.
  unfold running_entities. rewrite !lookup_insert_Some, lookup_singleton_Some. naive_solver.
Qed.

Lemma running_no_waits {Q} `{SchedulingAlgorithm Q} (q : Q) e w : ~ waits (running q) e w.
Proof.
  intros (x & ws & Hx & Hh & Hw). destruct (running_lookup _ _ Hx) as [Hc _]. rewrite Hc in Hh.
  rewrite (holds_unique _ _ _ Hh InfList.empty_list_holds) in Hw. by apply elem_of_nil in Hw.
Qed.

Lemma running_never_running {Q} `{SchedulingAlgorithm Q} (q : Q) : never_running (running q).
Proof.
  intros t. unfold state_of. cbn. destruct (running_entities !! t) as [x|] eqn:Hx; [|done].
  destruct (running_lookup _ _ Hx) as [_ [[_ Hs]|[_ Hs]]]; cbn; congruence.
Qed.

Lemma running_inv {Q} `{SchedulingAlgorithmLaws Q queued} (q : Q) :
  queued q [1; 2] -> sched_inv (queued := queued) (running q) [1; 2].
Proof.
  intros Hq. split; cbn [running _algorithm entities _idle_entity].
  - eauto.
  - apply (bool_decide_unpack _). vm_compute. done.
  - intros e x Hx Hne. destruct (running_lookup _ _ Hx) as [_ Hc]. unfold queued_state.
    rewrite !elem_of_cons, elem_of_nil. destruct Hc as [[-> ->]|[He ->]]; [intuition (lia || discriminate)|].
    split; [by left|]. intros _. intuition.
  - intros e. rewrite !elem_of_cons, elem_of_nil. intros [->|[->|[]]]; split; try done; by eexists.
  - reflexivity.
  - intros e x Hx. destruct (running_lookup _ _ Hx) as [-> _]. exists [].
    split; [apply InfList.empty_list_holds|]. intros w Hw. by apply elem_of_nil in Hw.
Qed.

Lemma terminate_correct_witness : exists (q : RoundRobinScheduler) s' state_changed',
  (state_changed ← InfList.append InfList.empty_list 3; terminate (running q) state_changed [1; 2]) = Ok (false, s', state_changed') /\
  awake s' 3 /\ state_of s' 1 = Some STOPPED /\ state_of s' 2 = Some RUNNABLE.
Proof.
  destruct (list_of [1; 2] ltac:(reflexivity)) as [l Hl].
  destruct (InfList.append_spec _ _ 3 (@InfList.empty_list_holds Z)) as (sc & E & Hsc).
  destruct (terminate_correct (queued := rr_queued) (fun w => w = 3) (running {| rr_queue := l |}) [1; 2] sc [3] [] 1 [2])
    as (s' & xs' & sc' & n & E' & _ & _ & Hst & Haw & _ & Hoth & _).
  - by apply running_inv.
  - intros e w _ Hw. by destruct (running_no_waits _ _ _ Hw).
  - intros t. unfold state_of. cbn. destruct (running_entities !! t) as [x|] eqn:Hx; [|done].
    destruct (running_lookup _ _ Hx) as [_ [[_ Hs]|[_ Hs]]]; cbn; congruence.
  - reflexivity.
  - by eexists.
  - exact Hsc.
  - intros w ->%list_elem_of_singleton. split; [done|]. split; [by eexists|done].
  - intros t ->%list_elem_of_singleton. split; [split; [by eexists|done]|]. split; [done|].
    intros w Hw. by destruct (running_no_waits _ _ _ Hw).
  - apply not_elem_of_nil.
  - reflexivity.
  - reflexivity.
  - exists {| rr_queue := l |}, s', sc'. rewrite E. split; [exact E'|]. split; [apply Haw; left|].
    split; [apply Hst; left|]. rewrite Hoth; [reflexivity| |done|split; [by eexists|done]].
    by intros ?%list_elem_of_singleton.
Defined.
