(* ===== verification/WaitProc.v ===== *)
(** * infos/kernel/syscall.cpp: waiting for the end of a process

    [sys_wait_proc] and [Process::terminate] run in two threads of one
    processor, and the timer can switch between them at every statement that
    runs with interrupts on.  The statements of [set_entity_state] are steps of
    their own, on both sides: only the first test of the flag and the run-queue
    operations of the scheduling algorithm run with interrupts off.  Taken as
    one step each are the operations of the wake queue's list (which the source
    marks "TODO: some sort of lock") and the trigger of a thread's own
    [_state_changed], whose queue is empty here.  The other threads of the
    machine may take the processor at every tick, and leave the two threads and
    the event alone. *)
From S2P Require Import Prelude InfList CommonsList CommonsListProof Time Sched SchedProof SchedTheorems Process ProcessProof ProcessTheorems.

(** The statement of [set_entity_state] that runs next: the comparison of the
    states, the conditions on the old state, the run-queue call chosen by them,
    the assignment of [_state], the trigger of [_state_changed]. *)
Inductive ses := Compare | Branch | Update (old : SchedulingEntityState) | Store | Notify.

(** Where the waiter is: before [disable_interrupts], before the test of the
    loop, before [enable_interrupts], before [_waiters.append], in
    [set_entity_state] of [sleep], before the yield system call, behind it,
    after the return. *)
Inductive waiter_pc := Calling | Checking | Enabling | Appending | GoingToSleep (pc : ses) | Yielding | Asleep | Returned.

(** Where the other side is: before [_terminated = true], before the trigger,
    at node [i] of the loop over the waiters, in the [wake_up] of waiter [w],
    before [_waiters.clear], after the trigger. *)
Inductive killer_pc := Alive | Flagged | Waking (i : nat) | WakingUp (i : nat) (w : Z) (pc : ses) | Clearing | Triggered.

(** Who goes on: the waiting thread, the thread that ends the process, or
    the timer, which finds the clock at [now]. *)
Inductive event := WaiterRuns | KillerRuns | TimerTicks (now : Timepoint).

Section wait_proc.
Context {Q : Type} `{SchedulingAlgorithm Q}.

Definition set_interrupts (s : Scheduler Q) (ie : bool) : Scheduler Q :=
  {| _active := _active s; _algorithm := _algorithm s; _current := _current s; _idle_entity := _idle_entity s;
     entities := entities s; interrupts := ie; current_thread := current_thread s; runtime := runtime s |}.
Definition set_runtime (s : Scheduler Q) (now : Timepoint) : Scheduler Q :=
  {| _active := _active s; _algorithm := _algorithm s; _current := _current s; _idle_entity := _idle_entity s;
     entities := entities s; interrupts := interrupts s; current_thread := current_thread s; runtime := now |}.

(** One statement of [set_entity_state]; [None] when it has returned. *)
Definition set_entity_state_step (s : Scheduler Q) (e : Z) (new : SchedulingEntityState) (pc : ses)
  : outcome (Scheduler Q * option ses) :=
  match pc with
  | Compare =>
      _ ← assert_ (bool_decide (is_Some (_algorithm s)));
      x ← entity s e;
      Ok (s, if bool_decide (_state x = new) then None else Some Branch)
  | Branch => x ← entity s e; Ok (s, Some (Update (_state x)))
  | Update old => s ← update_runqueue s e old new; Ok (s, Some Store)
  | Store => x ← entity s e; Ok (put s e (with_state x new), Some Notify)
  | Notify =>
      let fuel := S (size (entities s)) in
      s ← trigger (fun s t => set_entity_state fuel s t RUNNABLE) s e;
      Ok (s, None)
  end.

Record WaitState := {
  scheduler : Scheduler Q;
  state_changed : InfList.List Z;
  terminated : bool;
  waiter : waiter_pc;
  killer : killer_pc
}.

Definition with_waiter (st : WaitState) (s : Scheduler Q) (w : waiter_pc) : WaitState :=
  {| scheduler := s; state_changed := state_changed st; terminated := terminated st; waiter := w; killer := killer st |}.
Definition with_killer (st : WaitState) (s : Scheduler Q) (k : killer_pc) : WaitState :=
  {| scheduler := s; state_changed := state_changed st; terminated := terminated st; waiter := waiter st; killer := k |}.
Definition with_event (st : WaitState) (e : InfList.List Z) : WaitState :=
  {| scheduler := scheduler st; state_changed := e; terminated := terminated st; waiter := waiter st; killer := killer st |}.
Definition flagged (st : WaitState) : WaitState :=
  {| scheduler := scheduler st; state_changed := state_changed st; terminated := true; waiter := waiter st; killer := Flagged |}.

(** [sys_wait_proc] in thread [t].  The return from the system call restores
    the interrupt flag of the caller. *)
Definition waiter_step (t : Z) (st : WaitState) : outcome WaitState :=
  let s := scheduler st in
  match waiter st with
  | Calling => Ok (with_waiter st (set_interrupts s false) Checking)
  | Checking => if terminated st then Ok (with_waiter st (set_interrupts s true) Returned) else Ok (with_waiter st s Enabling)
  | Enabling => Ok (with_waiter st (set_interrupts s true) Appending)
  | Appending => e ← InfList.append (state_changed st) t; Ok (with_waiter (with_event st e) s (GoingToSleep Compare))
  | GoingToSleep pc =>
      '(s, pc) ← set_entity_state_step s t SLEEPING pc;
      Ok (with_waiter st s (match pc with
                            | Some pc => GoingToSleep pc
                            | None => if bool_decide (current_thread s = Some t) then Yielding else Checking
                            end))
  | Yielding => s ← schedule s; Ok (with_waiter st s Asleep)
  | Asleep => Ok (with_waiter st s Checking)
  | Returned => Ok st
  end.

(** [Process::terminate] up to its loop over the threads. *)
Definition killer_step (st : WaitState) : outcome WaitState :=
  let s := scheduler st in
  match killer st with
  | Alive => Ok (flagged st)
  | Flagged => Ok (with_killer st s (Waking 0))
  | Waking i =>
      ws ← InfList.elements (state_changed st);
      Ok (with_killer st s (match ws !! i with Some w => WakingUp i w Compare | None => Clearing end))
  | WakingUp i w pc =>
      '(s, pc) ← set_entity_state_step s w RUNNABLE pc;
      Ok (with_killer st s (match pc with Some pc => WakingUp i w pc | None => Waking (S i) end))
  | Clearing => e ← InfList.clear (state_changed st); Ok (with_killer (with_event st e) s Triggered)
  | Triggered => Ok st
  end.

(** The timer interrupt. *)
Definition tick (now : Timepoint) (s : Scheduler Q) : outcome (Scheduler Q) :=
  s ← update_accounting (set_runtime s now); schedule s.

(** A thread goes on when it has the processor, the timer when interrupts are
    on. *)
Definition perform (t k : Z) (ev : event) (st : WaitState) : outcome WaitState :=
  match ev with
  | WaiterRuns => _ ← assert_ (bool_decide (current_thread (scheduler st) = Some t)); waiter_step t st
  | KillerRuns => _ ← assert_ (bool_decide (current_thread (scheduler st) = Some k)); killer_step st
  | TimerTicks now =>
      _ ← assert_ (interrupts (scheduler st));
      s ← tick now (scheduler st);
      Ok (with_waiter st s (waiter st))
  end.

Definition wait_step (t k : Z) (st st' : WaitState) : Prop := exists ev, perform t k ev st = Ok st'.

Fixpoint performs (t k : Z) (evs : list event) (st : WaitState) : outcome WaitState :=
  match evs with [] => Ok st | ev :: evs => st ← perform t k ev st; performs t k evs st end.

Lemma performs_steps t k evs : forall st st', performs t k evs st = Ok st' -> rtc (wait_step t k) st st'.
Proof.
  induction evs as [|ev evs IH]; intros st st'; cbn [performs]; [intros [= ->]; apply rtc_refl|].
  destruct (perform t k ev st) as [st1|] eqn:E; [|done]. intros Hs. eapply rtc_l; [by exists ev|by apply IH].
Qed.

(** ** The statements in sequence are [set_entity_state] *)
Fixpoint finish (n : nat) (s : Scheduler Q) (e : Z) (new : SchedulingEntityState) (pc : option ses) : outcome (Scheduler Q) :=
  match pc, n with
  | None, _ => Ok s
  | Some _, O => Fault OutOfFuel
  | Some pc, S n => '(s, pc) ← set_entity_state_step s e new pc; finish n s e new pc
  end.

Lemma update_runqueue_entities (s s' : Scheduler Q) e old new : update_runqueue s e old new = Ok s' -> entities s' = entities s.
Proof.
  assert (forall s', enqueue_entity s e = Ok s' -> entities s' = entities s) as He.
  { unfold enqueue_entity. intros s2. destruct (_algorithm s) as [q|]; [|done]. cbn.
    destruct (add_to_runqueue q e (interrupts s)) as [[q' ie]|]; [|done]. by intros [= <-]. }
  assert (forall s', dequeue_entity s e = Ok s' -> entities s' = entities s) as Hd.
  { unfold dequeue_entity. intros s2. destruct (_algorithm s) as [q|]; [|done]. cbn.
    destruct (remove_from_runqueue q e (interrupts s)) as [[q' ie]|]; [|done]. by intros [= <-]. }
  destruct new, old; cbn; try done; try (by intros [= <-]); auto.
Qed.

Lemma finish_S n (s : Scheduler Q) e new pc :
  finish (S n) s e new (Some pc) = ('(s, pc) ← set_entity_state_step s e new pc; finish n s e new pc).
Proof. done. Qed.

Lemma finish_set_entity_state (s : Scheduler Q) e new : finish 5 s e new (Some Compare) = set_entity_state (depth s) s e new.
Proof.
  unfold depth. set (n := size (entities s)). rewrite finish_S.
  change (set_entity_state (S (S n)) s e new) with (_ ← assert_ (bool_decide (is_Some (_algorithm s)));
    x ← entity s e; if bool_decide (_state x = new) then Ok s else
    s ← update_runqueue s e (_state x) new; x ← entity s e;
    trigger (fun s t => set_entity_state (S n) s t RUNNABLE) (put s e (with_state x new)) e).
  unfold set_entity_state_step at 1. destruct (bool_decide (is_Some (_algorithm s))); [|done]. cbn [assert_ mbind outcome_bind].
  destruct (entity s e) as [x|] eqn:Ex; [|done]. cbn [mbind outcome_bind].
  destruct (bool_decide (_state x = new)); [done|]. rewrite finish_S. unfold set_entity_state_step at 1.
  rewrite Ex. cbn [mbind outcome_bind]. rewrite finish_S. unfold set_entity_state_step at 1.
  destruct (update_runqueue s e (_state x) new) as [s1|] eqn:Eu; [|done]. cbn [mbind outcome_bind].
  pose proof (update_runqueue_entities _ _ _ _ _ Eu) as He. rewrite finish_S. unfold set_entity_state_step at 1.
  assert (entity s1 e = Ok x) as Ex1 by (unfold entity; by rewrite He). rewrite Ex1. cbn [mbind outcome_bind].
  rewrite finish_S. unfold set_entity_state_step at 1.
  assert (size (entities (put s1 e (with_state x new))) = n) as ->.
  { cbn. rewrite He, map_size_insert_Some; [done|]. unfold entity, in_bounds in Ex. destruct (entities s !! e) as [y|]; [by exists y|discriminate]. }
  by destruct (trigger _ _ _).
Qed.
End wait_proc.
Arguments WaitState Q : clear implicits.

(** ** The scheduler in the middle of a change

    [xs] is the run queue.  Only thread [t], whose state is being changed, may
    be queued without being runnable, or runnable without being queued. *)
Section proofs.
Context {Q : Type} `{SchedulingAlgorithmLaws Q queued}.
Implicit Types (s : Scheduler Q) (st : WaitState Q) (xs ws : list Z).

Notation sched_inv := (sched_inv (queued := queued)).

Record sched_ok (t : Z) s xs : Prop := {
  so_alg : exists q, _algorithm s = Some q /\ queued q xs;
  so_nodup : NoDup xs;
  so_members e : e ∈ xs -> is_Some (entities s !! e) /\ e <> _idle_entity s;
  so_small : Z.of_nat (size (entities s)) < 2 ^ 31 - 1;
  so_runnable e : e ∈ xs -> e <> t -> state_of s e = Some RUNNABLE;
  so_idle : state_of s (_idle_entity s) = Some RUNNABLE;
  so_waiters e x : entities s !! e = Some x -> InfList.holds (_state_changed x) [];
  so_active : _active s = true;
  so_thread : thread_of s t;
  so_current : exists c, _current s = Some c /\ current_thread s = Some c /\ is_Some (entities s !! c)
}.

(** What a statement leaves alone; [t] keeps its state, too, where [t] is [None]. *)
Record keeps (t : option Z) s s' : Prop := {
  kp_ie : interrupts s' = interrupts s;
  kp_thread : current_thread s' = current_thread s;
  kp_state e : Some e <> t -> state_of s' e = state_of s e
}.

Lemma so_length t s xs : sched_ok t s xs -> Z.of_nat (length xs) < 2 ^ 31 - 1.
Proof.
  intros HO. eapply Z.le_lt_trans; [|exact (so_small _ _ _ HO)]. apply inj_le.
  rewrite <- size_dom, <- (size_list_to_set (C := gset Z) xs (so_nodup _ _ _ HO)).
  apply subseteq_size. intros e He%elem_of_list_to_set. by apply elem_of_dom, (so_members _ _ _ HO).
Qed.

Lemma so_queue t s q ie xs xs' : sched_ok t s xs -> ie = interrupts s -> queued q xs' -> NoDup xs' ->
  (forall e, e ∈ xs' -> e ∈ xs \/ e = t) ->
  sched_ok t (set_algorithm s q ie) xs' /\ keeps None s (set_algorithm s q ie).
Proof.
  intros [] -> Hq Hnd Hin. split; [|by split]. split; cbn [set_algorithm _algorithm entities _idle_entity _active _current current_thread]; eauto.
  - intros e He. destruct (Hin e He) as [?| ->]; [by apply so_members0|by destruct so_thread0].
  - intros e He Hne. destruct (Hin e He) as [?| ->]; [by apply so_runnable0|done].
Qed.

Lemma so_dequeue t s xs : sched_ok t s xs -> exists s', update_runqueue s t RUNNABLE SLEEPING = Ok s' /\
  sched_ok t s' (filter (fun y => y <> t) xs) /\ keeps None s s'.
Proof.
  intros HO. destruct (so_alg _ _ _ HO) as (q & Eq & Hq).
  destruct (law_remove q xs t (interrupts s) Hq (so_nodup _ _ _ HO)) as (q' & E & Hq').
  eexists. cbn. unfold dequeue_entity. rewrite Eq. cbn [deref mbind outcome_bind]. step_to E. split; [reflexivity|].
  apply (so_queue t s q' _ xs); [done|done|done|apply NoDup_filter, HO|]. intros e [_ He]%list_elem_of_filter. by left.
Qed.

Lemma so_enqueue t s xs : sched_ok t s xs -> t ∉ xs -> exists s', update_runqueue s t SLEEPING RUNNABLE = Ok s' /\
  sched_ok t s' (xs ++ [t]) /\ keeps None s s'.
Proof.
  intros HO Ht. destruct (so_alg _ _ _ HO) as (q & Eq & Hq).
  destruct (law_add q xs t (interrupts s) Hq (so_length _ _ _ HO)) as (q' & E & Hq').
  eexists. cbn. unfold enqueue_entity. rewrite Eq. cbn [deref mbind outcome_bind]. step_to E. split; [reflexivity|].
  apply (so_queue t s q' _ xs); [done|done|done| |].
  - apply NoDup_app. split; [apply HO|]. split; [|apply NoDup_singleton]. by intros y Hy ->%list_elem_of_singleton.
  - intros e [?| ->%list_elem_of_singleton]%elem_of_app; [by left|by right].
Qed.

Lemma so_put t s xs e x x' : sched_ok t s xs -> entities s !! e = Some x -> InfList.holds (_state_changed x') [] ->
  (e <> t -> _state x' = _state x) -> sched_ok t (put s e x') xs /\ keeps (Some e) s (put s e x').
Proof.
  intros HO Hx Hh Hst.
  assert (forall y, y <> t -> state_of (put s e x') y = state_of s y) as Hsts.
  { intros y Hy. unfold state_of. cbn. destruct (decide (y = e)) as [->|Hne].
    - rewrite lookup_insert_eq, Hx. cbn. by rewrite Hst.
    - by rewrite lookup_insert_ne. }
  assert (forall y, is_Some (entities s !! y) -> is_Some (entities (put s e x') !! y)) as Hdom.
  { intros y Hy. cbn. apply lookup_insert_is_Some'. by right. }
  split.
  - destruct HO. split; cbn [put set_entities _algorithm _idle_entity _active _current current_thread]; eauto.
    + intros y Hy. destruct (so_members0 y Hy). eauto.
    + cbn. by rewrite map_size_insert_Some by eauto.
    + intros y Hy Hne. rewrite Hsts by done. by apply so_runnable0.
    + rewrite Hsts; [done|]. destruct so_thread0 as [_ Hi]. congruence.
    + intros y z Hz. cbn in Hz. destruct (decide (y = e)) as [->|Hne].
      * rewrite lookup_insert_eq in Hz. by injection Hz as <-.
      * rewrite lookup_insert_ne in Hz by done. eauto.
    + destruct so_thread0 as [Ht Hi]. split; [by apply Hdom|done].
    + destruct so_current0 as (c & ? & ? & ?). exists c. auto.
  - split; [done..|]. intros y Hy. unfold state_of. cbn. rewrite lookup_insert_ne; [done|congruence].
Qed.

Lemma so_store t s xs new : sched_ok t s xs -> exists x s', entity s t = Ok x /\ s' = put s t (with_state x new) /\
  sched_ok t s' xs /\ keeps (Some t) s s' /\ state_of s' t = Some new.
Proof.
  intros HO. destruct (so_thread _ _ _ HO) as [[x Hx] _]. exists x, (put s t (with_state x new)).
  split; [by apply entity_Ok|]. split; [done|].
  destruct (so_put t s xs t x (with_state x new) HO Hx (so_waiters _ _ _ HO t x Hx)) as [HO' HK]; [done|].
  split; [done|]. split; [done|]. unfold state_of. cbn. by rewrite lookup_insert_eq.
Qed.

Lemma so_notify t s xs wake : sched_ok t s xs -> exists s', trigger wake s t = Ok s' /\ sched_ok t s' xs /\ keeps None s s'.
Proof.
  intros HO. destruct (so_thread _ _ _ HO) as [[x Hx] _]. pose proof (so_waiters _ _ _ HO t x Hx) as Hh.
  unfold trigger. step_to (entity_Ok _ _ _ Hx). destruct Hh as (pl & HN & Hpl). destruct pl; [|done].
  pose proof (InfList.na_seg _ _ HN) as Hs. cbn in Hs. rewrite Hs. unfold InfList.fuel_of. cbn [wake_loop mbind outcome_bind].
  step_to (entity_Ok _ _ _ Hx). destruct (InfList.clear_spec (_state_changed x) []) as (w & Ew & Hw & _); [by exists []|].
  step_to Ew. eexists. split; [done|].
  destruct (so_put t s xs t x (with_waiters x w) HO Hx Hw) as [HO' [H1 H2 H3]]; [done|].
  split; [done|]. split; [done..|]. intros e _. destruct (decide (e = t)) as [->|Hne]; [|apply H3; congruence].
  unfold state_of. cbn. by rewrite lookup_insert_eq, Hx.
Qed.

(** Giving the processor away: the thread [c] has it next. *)
Record moved t s xs s' : Prop := {
  mv_queue : exists xs', xs' ≡ₚ xs /\ sched_ok t s' xs';
  mv_ie : interrupts s' = interrupts s;
  mv_state e : state_of s' e = state_of s e;
  mv_queued : current_thread s' = Some t -> t ∈ xs;
  mv_runnable : current_thread s' = Some t -> current_thread s = Some t \/ state_of s t = Some RUNNABLE
}.

Lemma so_switch t s xs c : sched_ok t s xs -> is_Some (entities s !! c) -> sched_ok t (set_current (set_current_thread s c) c) xs.
Proof. intros [] Hc. split; try done. by exists c. Qed.

Lemma schedule_ok t s xs : sched_ok t s xs ->
  (exists s', schedule s = Ok s' /\ moved t s xs s') \/
  (schedule s = Fault AssertionFailure /\ t ∈ xs /\ state_of s t <> Some RUNNABLE).
Proof.
  intros HO. destruct (so_alg _ _ _ HO) as (q & Eq & Hq). destruct (so_current _ _ _ HO) as (c & Hc & Hct & Hcd).
  unfold schedule. rewrite (so_active _ _ _ HO), Eq. cbn [negb].
  destruct (law_pick q xs (cpu_runtime_of s) Hq) as (r & q' & xs' & Ep & Hq' & Hperm & Hr). step_to Ep.
  destruct (so_queue t s q' (interrupts s) xs xs' HO eq_refl Hq') as [HO1 [_ _ HK1]];
    [rewrite Hperm; apply (so_nodup _ _ _ HO)|intros e He; left; by rewrite <- Hperm|].
  set (s1 := set_algorithm s q' (interrupts s)) in *. change (_idle_entity s1) with (_idle_entity s).
  set (n := match r with Some n => n | None => _idle_entity s end).
  assert (n = t -> t ∈ xs) as Hnt.
  { destruct r as [e|]; cbn [n]; [by intros <-|]. intros E. by destruct (so_thread _ _ _ HO) as [_ []]. }
  assert (n <> t -> state_of s n = Some RUNNABLE) as Hnr.
  { destruct r as [e|]; cbn [n]; [by apply (so_runnable _ _ _ HO)|]. intros _. apply (so_idle _ _ _ HO). }
  assert (exists x, entities s !! n = Some x) as [x Hx].
  { subst n. destruct r as [e|]; [by apply (so_members _ _ _ HO)|]. pose proof (so_idle _ _ _ HO) as Hi. unfold state_of in Hi.
    destruct (entities s !! _idle_entity s) as [y|]; [by exists y|done]. }
  assert (forall s2, sched_ok t s2 xs' -> entities s2 = entities s -> interrupts s2 = interrupts s -> _current s2 = Some n ->
    current_thread s2 = Some n -> (n = t -> current_thread s = Some t \/ state_of s t = Some RUNNABLE) ->
    exists s', (c ← deref (_current s2); x ← entity s2 c; Ok (put s2 c (update_exec_start_time x (runtime s2)))) = Ok s' /\ moved t s xs s') as Hend.
  { intros s2 HO2 He Hi Hcn Htn Hrun. rewrite Hcn. cbn [deref mbind outcome_bind].
    step_to (entity_Ok s2 n x ltac:(by rewrite He)). eexists. split; [done|].
    destruct (so_put t s2 xs' n x (update_exec_start_time x (runtime s2)) HO2 ltac:(by rewrite He)) as [HO3 _];
      [apply (so_waiters _ _ _ HO n x Hx)|done|].
    split; cbn [put set_entities interrupts current_thread]; rewrite ?Htn; try done; [by exists xs'| |naive_solver|naive_solver].
    intros e. unfold state_of. cbn. destruct (decide (e = n)) as [->|Hne]; [by rewrite lookup_insert_eq, Hx|].
    by rewrite lookup_insert_ne, He by done. }
  destruct (decide (c = n)) as [Hcn|Hcn].
  { rewrite bool_decide_false by (change (_current s1) with (_current s); rewrite Hc, Hcn; tauto). left.
    apply (Hend s1); try done; rewrite <- ?Hcn; [done|done|]. intros <-. by left. }
  rewrite bool_decide_true by (change (_current s1) with (_current s); congruence).
  assert (activate s1 n (_current s1) =
    (_ ← assert_ (bool_decide (_state x = RUNNABLE)); Ok (true, set_current_thread s1 n))) as ->.
  { unfold activate. step_to (entity_Ok s1 n x Hx). by rewrite (bool_decide_false (_current s1 = Some n)) by (cbn; congruence). }
  destruct (decide (_state x = RUNNABLE)) as [Hxr|Hxr].
  - rewrite (bool_decide_true (_state x = RUNNABLE)) by done. cbn [assert_ mbind outcome_bind]. left.
    apply (Hend (set_current (set_current_thread s1 n) n)); try done; [apply so_switch; [done|by exists x]|].
    intros <-. right. unfold state_of. by rewrite Hx, <- Hxr.
  - rewrite (bool_decide_false (_state x = RUNNABLE)) by done. right. split; [done|].
    destruct (decide (n = t)) as [<-|Hne]; [|specialize (Hnr Hne); unfold state_of in Hnr; rewrite Hx in Hnr; cbn in Hnr; congruence].
    split; [by apply Hnt|]. unfold state_of. rewrite Hx. cbn. congruence.
Qed.

Lemma tick_ok t s xs now : sched_ok t s xs ->
  (exists s', tick now s = Ok s' /\ moved t s xs s') \/
  (tick now s = Fault AssertionFailure /\ t ∈ xs /\ state_of s t <> Some RUNNABLE).
Proof.
  intros HO. destruct (so_current _ _ _ HO) as (c & Hc & Hct & [x Hx]).
  assert (sched_ok t (set_runtime s now) xs) as HO1 by (by destruct HO).
  unfold tick, update_accounting. cbn [set_runtime _current]. rewrite Hc. step_to (entity_Ok (set_runtime s now) c x Hx).
  match goal with |- context [put _ c ?x'] => set (y := x') end.
  destruct (so_put t (set_runtime s now) xs c x y HO1 Hx (so_waiters _ _ _ HO c x Hx)) as [HO2 [_ _ HK2]]; [done|].
  assert (forall e, state_of (put (set_runtime s now) c y) e = state_of s e) as Hsts.
  { intros e. destruct (decide (e = c)) as [->|Hne]; [|by rewrite HK2 by congruence]. unfold state_of. cbn. by rewrite lookup_insert_eq, Hx. }
  cbn [mbind outcome_bind]. destruct (schedule_ok t _ xs HO2) as [(s' & E & [Hq Hi Hst Hm1 Hm2])|(E & Hm & Hr)].
  - left. exists s'. split; [done|]. split; try done. intros e. by rewrite Hst, Hsts. intros Hc'. rewrite <- (Hsts t). by apply Hm2.
  - right. split; [done|]. split; [done|]. by rewrite <- Hsts.
Qed.

(** ** The invariant

    What the waiting thread finds between its own statements. *)
Definition ready (t : Z) s xs : Prop := t ∈ xs /\ state_of s t = Some RUNNABLE.
Definition leaving (t : Z) s xs : Prop := t ∉ xs /\ state_of s t = Some RUNNABLE.
Definition sleeping (t : Z) s xs : Prop := t ∉ xs /\ state_of s t = Some SLEEPING.
Definition half_awake (t : Z) s xs : Prop := t ∈ xs /\ state_of s t = Some SLEEPING.

Definition waiter_phase t st xs : Prop :=
  let s := scheduler st in
  match waiter st with
  | GoingToSleep (Update old) => ready t s xs /\ old = RUNNABLE
  | GoingToSleep Store => leaving t s xs
  | GoingToSleep Notify | Yielding => sleeping t s xs \/ ready t s xs
  | Asleep => (sleeping t s xs /\ current_thread s <> Some t) \/ ready t s xs
  | _ => ready t s xs
  end.

(** The statements of [sleep] behind the assignment of the state. *)
Definition past_store (w : waiter_pc) : Prop := w = GoingToSleep Notify \/ w = Yielding \/ w = Asleep.

(** While the other side changes the state of [t], [t] does not run. *)
Definition phase t st xs : Prop :=
  let s := scheduler st in
  match killer st with
  | WakingUp _ _ Branch => past_store (waiter st) /\ sleeping t s xs /\ current_thread s <> Some t
  | WakingUp _ _ (Update old) => past_store (waiter st) /\ sleeping t s xs /\ current_thread s <> Some t /\ old = SLEEPING
  | WakingUp _ _ Store => past_store (waiter st) /\ half_awake t s xs /\ current_thread s <> Some t
  | _ => waiter_phase t st xs
  end.

(** The waiter was asleep in the event's queue before the trigger: the wake-up
    is still to come, or it has happened. *)
Definition covered t st xs ws : Prop :=
  match waiter st with
  | GoingToSleep Notify | Yielding | Asleep =>
      match killer st with
      | Alive | Flagged => sleeping t (scheduler st) xs /\ t ∈ ws
      | Waking i => ready t (scheduler st) xs \/ exists j, (i <= j)%nat /\ ws !! j = Some t
      | WakingUp _ _ Notify | Clearing | Triggered => ready t (scheduler st) xs
      | WakingUp _ _ _ => True
      end
  | Checking => terminated st = true
  | Returned => True
  | _ => False
  end.

(** The waiter has appended itself. *)
Definition appended (w : waiter_pc) : Prop := match w with GoingToSleep _ | Yielding | Asleep => True | _ => False end.

Record wait_inv (cov : Prop) t st xs ws : Prop := {
  wi_sched : sched_ok t (scheduler st) xs;
  wi_event : InfList.holds (state_changed st) ws;
  wi_only w : w ∈ ws -> w = t;
  wi_waking i w pc : killer st = WakingUp i w pc -> w = t;
  wi_phase : phase t st xs;
  wi_appended : appended (waiter st) -> killer st = Alive \/ killer st = Flagged -> t ∈ ws;
  wi_flag : terminated st = true <-> killer st <> Alive;
  wi_returned : waiter st = Returned -> terminated st = true;
  wi_covered : cov -> covered t st xs ws
}.

(** The states of [t] survive a change of processor. *)
Lemma moved_phase t st xs s' xs' : moved t (scheduler st) xs s' -> xs' ≡ₚ xs ->
  phase t st xs -> phase t (with_waiter st s' (waiter st)) xs'.
Proof.
  intros [_ _ Hst Hm1 Hm2] Hp. unfold phase, waiter_phase, ready, leaving, sleeping, half_awake.
  cbn [with_waiter scheduler waiter killer]. rewrite !Hst.
  assert (t ∈ xs' <-> t ∈ xs) as Hin by (by rewrite Hp). intros Hph.
  destruct (killer st) as [| |?|? ? [| | | |]| |]; destruct (waiter st) as [| | | |[| | | |]| | |];
    naive_solver.
Qed.

Lemma moved_covered t st xs ws s' xs' : moved t (scheduler st) xs s' -> xs' ≡ₚ xs ->
  covered t st xs ws -> covered t (with_waiter st s' (waiter st)) xs' ws.
Proof.
  intros [_ _ Hst _ _] Hp. unfold covered, ready, sleeping. cbn [with_waiter scheduler waiter killer terminated]. rewrite !Hst.
  assert (t ∈ xs' <-> t ∈ xs) as Hin by (by rewrite Hp).
  destruct (waiter st) as [| | | |[| | | |]| | |]; try done; destruct (killer st) as [| |?|? ? [| | | |]| |]; rewrite ?Hin; done.
Qed.

Lemma timer_step cov t st xs ws now : wait_inv cov t st xs ws ->
  (exists s' xs', tick now (scheduler st) = Ok s' /\ moved t (scheduler st) xs s' /\ xs' ≡ₚ xs /\
     wait_inv cov t (with_waiter st s' (waiter st)) xs' ws) \/
  ((forall s', tick now (scheduler st) <> Ok s') /\ exists i, killer st = WakingUp i t Store).
Proof.
  intros HI. destruct (tick_ok t _ xs now (wi_sched _ _ _ _ _ HI)) as [(s' & E & Hm)|(E & Hin & Hne)].
  - left. destruct (mv_queue _ _ _ _ Hm) as (xs' & Hp & HO). exists s', xs'. do 3 (split; [done|]).
    destruct HI as [_ He Hon Hwk Hph Hap Hfl Hret Hcov]. split; try done.
    + by apply (moved_phase _ _ xs).
    + intros Hc. by apply (moved_covered _ _ xs), Hcov.
  - right. split; [intros s'; by rewrite E|]. destruct HI as [_ _ _ Hwk Hph _ _ _ _].
    unfold phase, waiter_phase, ready, leaving, sleeping in Hph.
    destruct (killer st) as [| |i|i w [| | | |]| |] eqn:Hk; try (exists i; by rewrite (Hwk i w _ eq_refl));
      exfalso; destruct (waiter st) as [| | | |[| | | |]| | |]; naive_solver.
Qed.

(** ** The waiter's statements *)
Definition mid_change (k : killer_pc) : Prop :=
  match k with WakingUp _ _ (Branch | Update _ | Store) => True | _ => False end.

Lemma phase_waiter t st xs : ~ mid_change (killer st) -> phase t st xs <-> waiter_phase t st xs.
Proof. unfold phase. by destruct (killer st) as [| |?|? ? [| | | |]| |]; cbn; try tauto. Qed.

Lemma running_not_mid t st xs : phase t st xs -> current_thread (scheduler st) = Some t -> ~ mid_change (killer st).
Proof. unfold phase. intros Hph Hc. destruct (killer st) as [| |?|? ? [| | | |]| |]; cbn; naive_solver. Qed.

Lemma waiter_moves (cov : Prop) t st xs ws s' xs' w : wait_inv cov t st xs ws -> ~ mid_change (killer st) ->
  sched_ok t s' xs' -> waiter_phase t (with_waiter st s' w) xs' -> (appended w -> appended (waiter st)) ->
  (w = Returned -> terminated st = true) -> (cov -> covered t (with_waiter st s' w) xs' ws) ->
  wait_inv cov t (with_waiter st s' w) xs' ws.
Proof.
  intros [HO He Hon Hwk Hph Hap Hfl Hret Hcov] Hm HO' Hph' Hap' Hret' Hcov'. split; try done; [by apply phase_waiter|auto].
Qed.

Lemma so_interrupts t s xs ie : sched_ok t s xs -> sched_ok t (set_interrupts s ie) xs.
Proof. by intros []. Qed.

(** The statements of [sleep]. *)
Lemma sleep_step cov t st xs ws pc : wait_inv cov t st xs ws -> current_thread (scheduler st) = Some t ->
  ~ mid_change (killer st) -> waiter st = GoingToSleep pc ->
  exists st' xs', waiter_step t st = Ok st' /\ wait_inv cov t st' xs' ws.
Proof.
  intros HI Hc Hm Hw. pose proof HI as [HO He Hon Hwk Hph Hap Hfl Hret Hcov].
  apply (phase_waiter _ _ _ Hm) in Hph. unfold waiter_step, waiter_phase, covered in *. rewrite Hw in *.
  destruct (so_store t _ xs SLEEPING HO) as (x & s3 & Ex & Es3 & HO3 & [_ _ HK3] & Hst3).
  destruct pc as [| |old| |]; cbn [set_entity_state_step].
  - destruct (so_alg _ _ _ HO) as (q & Eq & _). rewrite Eq, bool_decide_true by eauto. cbn [assert_ mbind outcome_bind].
    step_to Ex. rewrite bool_decide_false.
    + eexists _, xs. split; [reflexivity|]. by apply (waiter_moves _ _ _ xs); rewrite ?Hw.
    + destruct Hph as [_ Hr]. unfold state_of in Hr. unfold entity, in_bounds in Ex.
      destruct (entities (scheduler st) !! t); [|done]. injection Ex as ->. cbn in Hr. congruence.
  - step_to Ex. eexists _, xs. split; [reflexivity|]. apply (waiter_moves _ _ _ xs); rewrite ?Hw; try done.
    split; [done|]. destruct Hph as [_ Hr]. unfold state_of in Hr. unfold entity, in_bounds in Ex.
    destruct (entities (scheduler st) !! t); [|done]. injection Ex as ->. cbn in Hr. congruence.
  - destruct Hph as [[Hin Hr] ->]. destruct (so_dequeue t _ xs HO) as (s' & E & HO' & [_ _ HK]). step_to E.
    eexists _, _. split; [reflexivity|]. apply (waiter_moves _ _ _ xs); rewrite ?Hw; try done.
    split; [|cbn; by rewrite HK]. by intros [? _]%list_elem_of_filter.
  - step_to Ex. rewrite <- Es3. eexists _, xs. split; [reflexivity|]. apply (waiter_moves _ _ _ xs); rewrite ?Hw; try done.
    left. split; [apply Hph|done].
  - destruct (so_notify t _ xs (fun s t => set_entity_state (S (size (entities (scheduler st)))) s t RUNNABLE) HO)
      as (s' & E & HO' & [_ Hct HK]). step_to E.
    cbn [mbind outcome_bind]. rewrite Hct, bool_decide_true by done. eexists _, xs. split; [reflexivity|]. apply (waiter_moves _ _ _ xs); rewrite ?Hw; try done.
    + unfold waiter_phase, sleeping, ready. cbn. by rewrite HK.
    + intros Hcv. specialize (Hcov Hcv). unfold covered, sleeping, ready in *. cbn. by rewrite HK.
Qed.

Lemma waiter_step_ok cov t st xs ws : wait_inv cov t st xs ws -> current_thread (scheduler st) = Some t ->
  exists st' xs' ws', waiter_step t st = Ok st' /\ wait_inv cov t st' xs' ws'.
Proof.
  intros HI Hc. pose proof (running_not_mid _ _ _ (wi_phase _ _ _ _ _ HI) Hc) as Hm.
  pose proof HI as [HO He Hon Hwk Hph Hap Hfl Hret Hcov]. apply (phase_waiter _ _ _ Hm) in Hph.
  destruct (waiter st) as [| | | |pc| | |] eqn:Hw;
    try (unfold waiter_step, waiter_phase, covered in *; rewrite Hw in * ).
  - eexists _, xs, ws. split; [reflexivity|]. apply (waiter_moves _ _ _ xs); rewrite ?Hw; try done; by apply so_interrupts.
  - destruct (terminated st) eqn:Ht; eexists _, xs, ws; (split; [reflexivity|]); apply (waiter_moves _ _ _ xs); rewrite ?Hw; try done; try by apply so_interrupts.
    intros Hcv. by specialize (Hcov Hcv).
  - eexists _, xs, ws. split; [reflexivity|]. apply (waiter_moves _ _ _ xs); rewrite ?Hw; try done; by apply so_interrupts.
  - destruct (InfList.append_spec _ _ t He) as (e & E & He'). step_to E. eexists _, xs, (ws ++ [t]). split; [reflexivity|].
    split; try done.
    + intros w [?| ->%list_elem_of_singleton]%elem_of_app; auto.
    + by apply phase_waiter.
    + intros _ _. apply elem_of_app. right. left.
  - destruct (sleep_step cov t st xs ws pc HI Hc Hm Hw) as (st' & xs' & E & HI'). exists st', xs', ws.
    unfold waiter_step in E. rewrite Hw in E. exact (conj E HI').
  - destruct (schedule_ok t _ xs HO) as [(s' & E & Hmv)|(_ & Hin & Hne)];
      [|destruct Hph as [[? _]|[_ ?]]; contradiction].
    step_to E. destruct (mv_queue _ _ _ _ Hmv) as (xs' & Hp & HO'). assert (t ∈ xs' <-> t ∈ xs) as Hiff by (by rewrite Hp).
    destruct Hmv as [_ _ Hst Hm1 _]. eexists _, xs', ws. split; [reflexivity|]. apply (waiter_moves _ _ _ xs); rewrite ?Hw; try done.
    + unfold waiter_phase, sleeping, ready in *. cbn. rewrite !Hst, !Hiff.
      destruct Hph as [[Hn Hs]|Hr]; [left|by right]. split; [done|]. intros Hc'. by apply Hn, Hm1.
    + intros Hcv. specialize (Hcov Hcv). unfold covered, sleeping, ready in *. cbn. rewrite !Hst.
      destruct (killer st) as [| |?|? ? [| | | |]| |]; rewrite ?Hiff; done.
  - eexists _, xs, ws. split; [reflexivity|]. apply (waiter_moves _ _ _ xs); rewrite ?Hw; try done.
    + cbn. by destruct Hph as [[_ ?]|?].
    + intros Hcv. specialize (Hcov Hcv). cbn. apply Hfl. intros Hk. rewrite Hk in Hcov.
      destruct Hcov as [[Hn _] _], Hph as [[_ ?]|[? _]]; contradiction.
  - by exists st, xs, ws.
Qed.

(** ** The other side's statements *)
Lemma killer_moves (cov : Prop) t st xs ws s' xs' k : wait_inv cov t st xs ws -> killer st <> Alive ->
  sched_ok t s' xs' -> (forall i w pc, k = WakingUp i w pc -> w = t) -> phase t (with_killer st s' k) xs' ->
  k <> Alive -> k <> Flagged -> (cov -> covered t (with_killer st s' k) xs' ws) ->
  wait_inv cov t (with_killer st s' k) xs' ws.
Proof.
  intros [HO He Hon Hwk Hph Hap Hfl Hret Hcov] Hk HO' Hwk' Hph' Ha Hf Hcov'. split; try done.
  - intros _ [?|?]; contradiction.
  - cbn. split; [done|]. intros _. by apply Hfl.
Qed.

(** A waiter whose state is not RUNNABLE has stored it. *)
Lemma not_runnable t st xs : waiter_phase t st xs -> state_of (scheduler st) t <> Some RUNNABLE ->
  past_store (waiter st) /\ sleeping t (scheduler st) xs.
Proof.
  unfold waiter_phase, past_store, ready, leaving. intros Hph Hne.
  destruct (waiter st) as [| | | |[| |?| |]| | |]; naive_solver.
Qed.

Lemma entity_state s t x : entity s t = Ok x -> state_of s t = Some (_state x).
Proof. unfold entity, state_of. by destruct (entities s !! t); intros [= ->]. Qed.

(** The statements of [wake_up]. *)
Lemma wake_step cov t k st xs ws i pc : wait_inv cov t st xs ws -> current_thread (scheduler st) = Some k -> k <> t ->
  killer st = WakingUp i t pc -> exists st' xs', killer_step st = Ok st' /\ wait_inv cov t st' xs' ws.
Proof.
  intros HI Hc Hkt Hk. pose proof HI as [HO He Hon Hwk Hph Hap Hfl Hret Hcov].
  assert (killer st <> Alive) as Hna by (by rewrite Hk). unfold killer_step, phase, covered in *. rewrite Hk in *.
  destruct (so_store t _ xs RUNNABLE HO) as (x & s3 & Ex & Es3 & HO3 & [_ Hct3 HK3] & Hst3).
  pose proof (entity_state _ _ _ Ex) as Hx.
  destruct pc as [| |old| |]; cbn [set_entity_state_step].
  - destruct (so_alg _ _ _ HO) as (q & Eq & _). rewrite Eq, bool_decide_true by eauto. cbn [assert_ mbind outcome_bind].
    step_to Ex. eexists _, xs. split; [reflexivity|]. case_bool_decide as Hr; apply (killer_moves _ _ _ xs); try done; try (by rewrite Hk).
    + intros Hcv. specialize (Hcov Hcv). unfold covered, waiter_phase, sleeping, ready in *. cbn. rewrite Hr in Hx.
      destruct (waiter st) as [| | | |[| | | |]| | |]; naive_solver.
    + by intros ? ? ? [= <- <- _].
    + destruct (not_runnable _ _ _ Hph) as [Hp Hs]; [congruence|]. cbn. split; [done|]. split; [done|]. congruence.
  - step_to Ex. eexists _, xs. split; [reflexivity|]. apply (killer_moves _ _ _ xs); try done; try (by rewrite Hk).
    + by intros ? ? ? [= <- <- _].
    + destruct Hph as (Hp & [Hin Hs] & Hne). cbn. split_and!; try done. congruence.
  - destruct Hph as (Hp & [Hin Hs] & Hne & ->). destruct (so_enqueue t _ xs HO Hin) as (s' & E & HO' & [_ Hct HK]). step_to E.
    eexists _, _. split; [reflexivity|]. apply (killer_moves _ _ _ xs); try done; try (by rewrite Hk).
    + by intros ? ? ? [= <- <- _].
    + cbn. split; [done|]. rewrite Hct. split; [|done]. split; [apply elem_of_app; right; left|by rewrite HK].
  - destruct Hph as (Hp & [Hin Hs] & Hne). step_to Ex. rewrite <- Es3. eexists _, xs. split; [reflexivity|].
    apply (killer_moves _ _ _ xs); try done; try (by rewrite Hk).
    + by intros ? ? ? [= <- <- _].
    + unfold phase, waiter_phase. cbn. destruct Hp as [-> |[-> | ->]]; right; by split.
    + intros Hcv. unfold covered. cbn. destruct Hp as [-> |[-> | ->]]; by split.
  - destruct (so_notify t _ xs (fun s t => set_entity_state (S (size (entities (scheduler st)))) s t RUNNABLE) HO)
      as (s' & E & HO' & [_ Hct HK]). step_to E.
    eexists _, xs. split; [reflexivity|]. apply (killer_moves _ _ _ xs); try done; try (by rewrite Hk).
    + unfold phase, waiter_phase, ready, leaving, sleeping in *. cbn. by rewrite !HK, Hct by done.
    + intros Hcv. specialize (Hcov Hcv). unfold covered, ready in *. cbn. rewrite HK by done.
      destruct (waiter st) as [| | | |[| | | |]| | |]; try done; by left.
Qed.

Lemma killer_step_ok cov t k st xs ws : wait_inv cov t st xs ws -> current_thread (scheduler st) = Some k -> k <> t ->
  exists st' xs' ws', killer_step st = Ok st' /\ wait_inv cov t st' xs' ws'.
Proof.
  intros HI Hc Hkt. pose proof HI as [HO He Hon Hwk Hph Hap Hfl Hret Hcov].
  destruct (killer st) as [| |i|i w pc| |] eqn:Hk; [| | |destruct (Hwk i w pc eq_refl)| |].
  4:{ destruct (wake_step cov w k st xs ws i pc HI Hc Hkt Hk) as (st' & xs' & E & HI'). by exists st', xs', ws. }
  all: unfold killer_step, phase, covered in *; rewrite Hk in *.
  - eexists _, xs, ws. split; [reflexivity|]. split; try done; [intros Ha _; apply Hap; [done|by left]|].
    intros Hcv. specialize (Hcov Hcv). unfold covered. cbn. by destruct (waiter st) as [| | | |[| | | |]| | |].
  - eexists _, xs, ws. split; [reflexivity|]. apply (killer_moves _ _ _ xs); try done; try (by rewrite Hk).
    intros Hcv. specialize (Hcov Hcv). unfold covered in *. cbn.
    assert (forall P : Prop, sleeping t (scheduler st) xs /\ t ∈ ws -> P \/ exists j, (0 <= j)%nat /\ ws !! j = Some t) as Hq.
    { intros P [_ [j Hj]%list_elem_of_lookup]. right. exists j. split; [lia|done]. }
    destruct (waiter st) as [| | | |[| | | |]| | |]; try done; by apply Hq.
  - step_to (InfList.elements_spec _ _ He). eexists _, xs, ws. split; [reflexivity|].
    destruct (ws !! i) as [w|] eqn:Ei; apply (killer_moves _ _ _ xs); try done; try (by rewrite Hk).
    + intros ? ? ? [= _ <- _]. apply Hon. by eapply list_elem_of_lookup_2.
    + intros Hcv. specialize (Hcov Hcv). unfold covered in *. cbn. by destruct (waiter st) as [| | | |[| | | |]| | |].
    + intros Hcv. specialize (Hcov Hcv). unfold covered in *. cbn.
      assert (ready t (scheduler st) xs \/ (exists j, (i <= j)%nat /\ ws !! j = Some t) -> ready t (scheduler st) xs) as Hq.
      { intros [?|(j & Hj & Ej)]; [done|]. apply lookup_ge_None in Ei. apply lookup_lt_Some in Ej. lia. }
      destruct (waiter st) as [| | | |[| | | |]| | |]; auto.
  - destruct (InfList.clear_spec _ _ He) as (e & E & He' & _). step_to E. eexists _, xs, []. split; [reflexivity|].
    split; try done; [by intros w ?%elem_of_nil|by intros _ [?|?]|cbn; by rewrite Hfl].
  - exists st, xs, ws. split; [done|]. exact HI.
Qed.

(** ** All interleavings *)
Lemma wait_step_inv cov t k st st' xs ws : k <> t -> wait_inv cov t st xs ws -> wait_step t k st st' ->
  exists xs' ws', wait_inv cov t st' xs' ws'.
Proof.
  intros Hkt HI [ev E]. destruct ev as [| |now]; cbn [perform] in E.
  - case_bool_decide as Hc; [|done]. destruct (waiter_step_ok cov t st xs ws HI Hc) as (st2 & xs' & ws' & E2 & HI').
    cbn in E. rewrite E2 in E. injection E as <-. by exists xs', ws'.
  - case_bool_decide as Hc; [|done]. destruct (killer_step_ok cov t k st xs ws HI Hc Hkt) as (st2 & xs' & ws' & E2 & HI').
    cbn in E. rewrite E2 in E. injection E as <-. by exists xs', ws'.
  - destruct (interrupts (scheduler st)); [|done]. cbn [assert_ mbind outcome_bind] in E.
    destruct (timer_step cov t st xs ws now HI) as [(s' & xs' & Et & _ & _ & HI')|[Hno _]].
    + rewrite Et in E. injection E as <-. by exists xs', ws.
    + destruct (tick now (scheduler st)) as [s'|] eqn:Et; [by destruct (Hno s')|done].
Qed.

Lemma wait_steps_inv cov t k st st' : k <> t -> rtc (wait_step t k) st st' -> forall xs ws, wait_inv cov t st xs ws ->
  exists xs' ws', wait_inv cov t st' xs' ws'.
Proof.
  intros Hkt. induction 1 as [st|st st1 st2 Hs _ IH]; intros xs ws HI; [by exists xs, ws|].
  destruct (wait_step_inv cov t k st st1 xs ws Hkt HI Hs) as (xs' & ws' & HI'). by eapply IH.
Qed.

(** A wait that begins while the process lives: thread [t], which can run,
    makes the call, and thread [k] is going to end the process. *)
Record wait_begins (t k : Z) st xs : Prop := {
  wb_sched : sched_inv (scheduler st) xs;
  wb_quiet a w : ~ waits (scheduler st) a w;
  wb_running : never_running (scheduler st);
  wb_active : _active (scheduler st) = true;
  wb_idle : awake (scheduler st) (_idle_entity (scheduler st));
  wb_current : exists c, _current (scheduler st) = Some c /\ current_thread (scheduler st) = Some c /\ is_Some (entities (scheduler st) !! c);
  wb_thread : thread_of (scheduler st) t /\ state_of (scheduler st) t = Some RUNNABLE /\ k <> t;
  wb_event : InfList.holds (state_changed st) [] /\ terminated st = false;
  wb_start : waiter st = Calling /\ killer st = Alive
}.

Lemma wait_begins_inv t k st xs : wait_begins t k st xs -> wait_inv False t st xs [].
Proof.
  intros [HI Hq HN Ha Hi Hc ([[x Hx] Hti] & Hr & _) [He Ht] [Hw Hk]].
  assert (sched_ok t (scheduler st) xs) as HO.
  { pose proof HI as [Halg Hnd Hrq Hcells Hsmall Hws]. split; try done.
    - intros e Hel _. destruct (si_cells _ _ HI e Hel) as [[y Hy] _]. unfold state_of. rewrite Hy. cbn.
      f_equal. by eapply never_running_queue.
    - destruct Hi as (y & Hy & Hyr). unfold state_of. rewrite Hy. cbn. by rewrite Hyr.
    - intros e y Hy. destruct (si_waiters _ _ HI e y Hy) as (ws & Hh & _). destruct ws as [|w ws]; [done|].
      destruct (Hq e w). exists y, (w :: ws). split; [done|]. split; [done|left]. }
  split; try done.
  - by intros w ?%elem_of_nil.
  - intros i w pc. by rewrite Hk.
  - unfold phase, waiter_phase. rewrite Hk, Hw. split; [|done]. apply (si_runq _ _ HI t x Hx Hti). left.
    unfold state_of in Hr. rewrite Hx in Hr. cbn in Hr. congruence.
  - by rewrite Hw.
  - by rewrite Ht, Hk.
  - by rewrite Hw.
Qed.

(** How many statements the waiter still makes before its wait returns, when
    it has been woken. *)
Definition statements_left (w : waiter_pc) : option nat :=
  match w with
  | GoingToSleep Notify => Some 4%nat
  | Yielding => Some 3%nat
  | Asleep => Some 2%nat
  | Checking => Some 1%nat
  | Returned => Some 0%nat
  | _ => None
  end.

(** Thread [t] is runnable and in the run queue. *)
Definition runs (t : Z) s : Prop :=
  state_of s t = Some RUNNABLE /\ exists q xs, _algorithm s = Some q /\ queued q xs /\ t ∈ xs.

Lemma covered_triggered t st xs ws : wait_inv True t st xs ws -> killer st = Triggered ->
  runs t (scheduler st) /\ is_Some (statements_left (waiter st)).
Proof.
  intros [HO _ _ _ Hph _ _ _ Hcov] Hk. specialize (Hcov I). unfold phase, covered, waiter_phase in *. rewrite Hk in *.
  destruct (so_alg _ _ _ HO) as (q & Eq & Hq).
  assert (ready t (scheduler st) xs -> runs t (scheduler st)) as Hr by (intros [Hin Hst]; split; [done|by exists q, xs]).
  destruct (waiter st) as [| | | |[| | | |]| | |]; try done; split; (try by apply Hr); by eexists.
Qed.

(** A woken waiter does not go back to sleep. *)
Lemma woken_returns t k st st' xs ws n : wait_inv True t st xs ws -> terminated st = true ->
  statements_left (waiter st) = Some n -> perform t k WaiterRuns st = Ok st' -> statements_left (waiter st') = Some (pred n).
Proof.
  intros HI Ht Hn. cbn [perform]. case_bool_decide as Hc; [|done]. cbn [assert_ mbind outcome_bind].
  unfold waiter_step. destruct (waiter st) as [| | | |[| | | |]| | |] eqn:Hw; cbn in Hn; try done; injection Hn as <-.
  - rewrite Ht. by intros [= <-].
  - cbn [set_entity_state_step].
    destruct (so_notify t _ xs (fun s t => set_entity_state (S (size (entities (scheduler st)))) s t RUNNABLE) (wi_sched _ _ _ _ _ HI))
      as (s' & E & _ & [_ Hct _]). step_to E. cbn [mbind outcome_bind]. rewrite Hct, bool_decide_true by done. by intros [= <-].
  - destruct (schedule (scheduler st)) as [s'|]; [|done]. by intros [= <-].
  - by intros [= <-].
  - intros [= <-]. by rewrite Hw.
Qed.

(** C6: waiting for the end of a process, when the timer can switch threads
    between any two statements that run with interrupts on; the statements of
    set_entity_state count one by one, those of one list operation, one
    run-queue operation and the trigger of a thread's own event (for which
    nobody waits) together.  Thread t waits, thread k ends the process, other
    threads may run in between.  In every state that can be reached: a wait
    that has returned was for a process that has ended; neither thread meets a
    fault, the one that has the processor can go on; and a waiter that is
    SLEEPING while the trigger of the process's event has not begun gets its
    wake-up: once the trigger is over, it is runnable and in the run queue,
    and at most four of its own statements from the return, none of which puts
    it to sleep.  A timer interrupt succeeds, too, except in one place: the
    waker has queued the sleeper and has not stored its new state yet, where an
    interrupt may pick it and fail the assertion of Thread::activate.  A
    waiter that has not stored SLEEPING when the trigger begins can miss it:
    the lemmas lost_wakeup and preempted_in_sleep. *)
Theorem wait_proc_correct t k st st' xs : wait_begins t k st xs -> rtc (wait_step t k) st st' ->
  (waiter st' = Returned -> terminated st' = true) /\
  (current_thread (scheduler st') = Some t -> exists st2, perform t k WaiterRuns st' = Ok st2) /\
  (current_thread (scheduler st') = Some k -> exists st2, perform t k KillerRuns st' = Ok st2) /\
  (forall now, interrupts (scheduler st') = true ->
     (exists st2, perform t k (TimerTicks now) st' = Ok st2) \/ exists i, killer st' = WakingUp i t Store) /\
  (state_of (scheduler st') t = Some SLEEPING -> killer st' = Alive \/ killer st' = Flagged ->
   forall st2, rtc (wait_step t k) st' st2 -> killer st2 = Triggered ->
     runs t (scheduler st2) /\ exists n, statements_left (waiter st2) = Some n /\
     forall st3, perform t k WaiterRuns st2 = Ok st3 -> statements_left (waiter st3) = Some (pred n)).
Proof.
  intros Hb Hr. destruct (wb_thread _ _ _ _ Hb) as (_ & _ & Hkt).
  destruct (wait_steps_inv False t k st st' Hkt Hr xs [] (wait_begins_inv _ _ _ _ Hb)) as (xs' & ws & HI).
  split; [apply HI|]. split; [|split; [|split]].
  - intros Hc. destruct (waiter_step_ok _ _ _ _ _ HI Hc) as (st2 & _ & _ & E & _). exists st2. cbn. by rewrite bool_decide_true.
  - intros Hc. destruct (killer_step_ok _ _ _ _ _ _ HI Hc Hkt) as (st2 & _ & _ & E & _). exists st2. cbn. by rewrite bool_decide_true.
  - intros now Hie. destruct (timer_step _ _ _ _ _ now HI) as [(s2 & _ & E & _)|[_ Hk]]; [left|by right].
    eexists. cbn [perform]. rewrite Hie. cbn [assert_ mbind outcome_bind]. by step_to E.
  - intros Hsl Hk st2 Hr2 Hk2. assert (wait_inv True t st' xs' ws) as HI'.
    { pose proof HI as [_ _ _ _ Hph Hap _ _ _]. split; try apply HI. intros _.
      apply phase_waiter in Hph; [|destruct Hk as [-> | ->]; exact id].
      destruct (not_runnable _ _ _ Hph) as [Hp Hs]; [congruence|]. unfold covered.
      assert (t ∈ ws) as Hin by (apply Hap; [by destruct Hp as [-> |[-> | ->]]|done]).
      destruct Hp as [-> |[-> | ->]], Hk as [-> | ->]; done. }
    destruct (wait_steps_inv True t k st' st2 Hkt Hr2 xs' ws HI') as (xs2 & ws2 & HI2).
    destruct (covered_triggered _ _ _ _ HI2 Hk2) as [Hrun [n Hn]]. split; [done|]. exists n. split; [done|]. intros st3.
    apply (woken_returns _ _ _ _ _ _ _ HI2); [|done]. apply (wi_flag _ _ _ _ _ HI2). by rewrite Hk2.
Qed.

(** A waiter that is out of the run queue when the trigger is over does not
    run again. *)
Lemma never_again t k st st' : k <> t -> rtc (wait_step t k) st st' ->
  forall xs ws, wait_inv False t st xs ws -> killer st = Triggered -> t ∉ xs -> current_thread (scheduler st) <> Some t ->
  waiter st' = waiter st.
Proof.
  intros Hkt. induction 1 as [st|st st1 st2 [ev E] _ IH]; intros xs ws HI Hk Ht Hc; [done|].
  destruct ev as [| |now]; cbn [perform] in E.
  - by rewrite bool_decide_false in E.
  - case_bool_decide; [|done]. cbn in E. unfold killer_step in E. rewrite Hk in E. injection E as <-. by eapply IH.
  - destruct (interrupts (scheduler st)); [|done]. cbn [assert_ mbind outcome_bind] in E.
    destruct (timer_step _ _ _ _ _ now HI) as [(s' & xs' & Et & Hm & Hp & HI')|[Hno _]].
    + rewrite Et in E. injection E as <-. rewrite (IH xs' ws HI'); try done; [by rewrite Hp|].
      intros Hc'. by apply Ht, (mv_queued _ _ _ _ Hm).
    + destruct (tick now (scheduler st)) as [s'|] eqn:Et; [by destruct (Hno s')|done].
Qed.
End proofs.

(** ** Concrete interleavings

    Threads 1 and 2 share the processor, which 1 has; 2 waits for the end of
    the process of 1. *)
Definition both_queued : outcome RoundRobinScheduler :=
  l ← CommonsList.Enqueue CommonsList.List_new 1; l ← CommonsList.Enqueue l 2; Ok {| rr_queue := l |}.

Definition waiting {Q} (q : Q) : WaitState Q := {|
  scheduler := running q; state_changed := InfList.empty_list; terminated := false; waiter := Calling; killer := Alive
|}.

Definition ticks (n : nat) : list event := replicate n (TimerTicks (time_point 200)).
Definition waits_for (n : nat) : list event := replicate n WaiterRuns.
Definition ends (n : nat) : list event := replicate n KillerRuns.

(** What can be seen of a state: the two threads, the state of the waiter and
    the thread that has the processor. *)
Definition seen {Q} (st : WaitState Q) : waiter_pc * killer_pc * option SchedulingEntityState * option Z :=
  (waiter st, killer st, state_of (scheduler st) 2, current_thread (scheduler st)).

Definition after_events (evs : list event) : outcome (WaitState RoundRobinScheduler) :=
  q ← both_queued; performs 2 1 evs (waiting q).

Lemma both_queued_holds : exists q, both_queued = Ok q /\ rr_queued q [1; 2].
Proof.
  destruct (AddToTail_spec CommonsList.List_new [] 1) as (p & l & E & Hl); [apply List_new_holds|done|].
  destruct (AddToTail_spec l [1] 2 Hl) as (p' & l' & E' & Hl'); [done|].
  exists {| rr_queue := l' |}. split; [|done]. unfold both_queued, CommonsList.Enqueue. by rewrite E; cbn [mbind outcome_bind]; rewrite E'.
Qed.

Lemma after_events_reached evs w k r c : (st ← after_events evs; Ok (seen st)) = Ok (w, k, r, c) ->
  exists (q : RoundRobinScheduler) st, wait_begins (queued := rr_queued) 2 1 (waiting q) [1; 2] /\
    rtc (wait_step 2 1) (waiting q) st /\ after_events evs = Ok st /\ seen st = (w, k, r, c).
Proof.
  destruct both_queued_holds as (q & E & Hq). unfold after_events. rewrite E. cbn [mbind outcome_bind].
  destruct (performs 2 1 evs (waiting q)) as [st|] eqn:Ep; [|done]. intros [= Ew]. exists q, st.
  split; [|split; [by eapply performs_steps|split; [done|unfold seen; congruence]]].
  pose proof (running_inv (queued := rr_queued) q Hq). pose proof (running_no_waits q). pose proof (running_never_running q).
  split; try done; [by eexists|by eexists|].
  split; [apply InfList.empty_list_holds|done].
Qed.

Lemma performs_app {Q} `{SchedulingAlgorithm Q} t k evs evs2 : forall st : WaitState Q,
  performs t k (evs ++ evs2) st = (st ← performs t k evs st; performs t k evs2 st).
Proof.
  induction evs as [|ev evs IH]; intros st; [done|]. cbn [app performs]. destruct (perform t k ev st) as [st1|]; [apply IH|done].
Qed.

Lemma after_events_then evs evs2 st st2 : after_events evs = Ok st -> after_events (evs ++ evs2) = Ok st2 ->
  rtc (wait_step 2 1) st st2.
Proof.
  unfold after_events. destruct both_queued as [q|]; [|done]. cbn [mbind outcome_bind]. rewrite performs_app.
  intros ->. apply performs_steps.
Qed.

(** The flag is set and the event triggered between the waiter's test and its
    append: it sleeps for ever. *)
Lemma lost_wakeup : exists (q : RoundRobinScheduler) st, rtc (wait_step 2 1) (waiting q) st /\
  terminated st = true /\ state_of (scheduler st) 2 = Some SLEEPING /\
  forall st', rtc (wait_step 2 1) st st' -> waiter st' = Asleep.
Proof.
  destruct (after_events_reached (ticks 2 ++ waits_for 3 ++ ticks 1 ++ ends 4 ++ ticks 1 ++ waits_for 7)
    Asleep Triggered (Some SLEEPING) (Some 1) ltac:(vm_compute; reflexivity)) as (q & st & Hb & Hr & _ & [= Hw Hk Hs Hc]).
  destruct (wait_steps_inv (queued := rr_queued) False 2 1 _ _ ltac:(done) Hr _ _ (wait_begins_inv _ _ _ _ Hb)) as (xs & ws & HI).
  exists q, st. split; [done|]. split; [by apply (wi_flag _ _ _ _ _ HI); rewrite Hk|]. split; [done|]. intros st' Hr'. rewrite <- Hw.
  apply (never_again (queued := rr_queued) 2 1 st st' ltac:(done) Hr' xs ws HI Hk); [|by rewrite Hc].
  pose proof (wi_phase _ _ _ _ _ HI) as Hph. unfold phase, waiter_phase, sleeping, ready in Hph. rewrite Hk, Hw in Hph. naive_solver.
Qed.

(** The waiter is in the wake queue, and loses the processor between
    remove_from_runqueue and the assignment of its state: the wake-up finds it
    RUNNABLE and does nothing, and it is in no queue any more. *)
Lemma preempted_in_sleep : exists (q : RoundRobinScheduler) st, rtc (wait_step 2 1) (waiting q) st /\
  terminated st = true /\ state_of (scheduler st) 2 = Some RUNNABLE /\
  forall st', rtc (wait_step 2 1) st st' -> waiter st' = GoingToSleep Store.
Proof.
  destruct (after_events_reached (ticks 2 ++ waits_for 7 ++ ticks 1 ++ ends 6)
    (GoingToSleep Store) Triggered (Some RUNNABLE) (Some 1) ltac:(vm_compute; reflexivity)) as (q & st & Hb & Hr & _ & [= Hw Hk Hs Hc]).
  destruct (wait_steps_inv (queued := rr_queued) False 2 1 _ _ ltac:(done) Hr _ _ (wait_begins_inv _ _ _ _ Hb)) as (xs & ws & HI).
  exists q, st. split; [done|]. split; [by apply (wi_flag _ _ _ _ _ HI); rewrite Hk|]. split; [done|]. intros st' Hr'. rewrite <- Hw.
  apply (never_again (queued := rr_queued) 2 1 st st' ltac:(done) Hr' xs ws HI Hk); [|by rewrite Hc].
  pose proof (wi_phase _ _ _ _ _ HI) as Hph. unfold phase, waiter_phase, leaving in Hph. rewrite Hk, Hw in Hph. by destruct Hph.
Qed.

(** The waker loses the processor between add_to_runqueue and the assignment of
    the state, and the next tick but one picks the sleeper. *)
Lemma picked_too_early : after_events (ticks 2 ++ waits_for 10 ++ ends 6 ++ ticks 2) = Fault AssertionFailure.
Proof. vm_compute. reflexivity. Qed.

(** The waiter sleeps, the process ends, and the waiter returns. *)
Lemma wait_proc_correct_witness : exists (q : RoundRobinScheduler) st st2, rtc (wait_step 2 1) (waiting q) st /\
  state_of (scheduler st) 2 = Some SLEEPING /\ rtc (wait_step 2 1) st st2 /\ killer st2 = Triggered /\
  runs (queued := rr_queued) 2 (scheduler st2) /\
  exists st3, rtc (wait_step 2 1) (waiting q) st3 /\ waiter st3 = Returned /\ terminated st3 = true.
Proof.
  destruct (after_events_reached (ticks 2 ++ waits_for 10) Asleep Alive (Some SLEEPING) (Some 1) ltac:(vm_compute; reflexivity))
    as (q & st & Hb & Hr & E & [= Hw Hk Hs Hc]).
  destruct (after_events_reached ((ticks 2 ++ waits_for 10) ++ ends 10) Asleep Triggered (Some RUNNABLE) (Some 1)
    ltac:(vm_compute; reflexivity)) as (_ & st2 & _ & _ & E2 & [= _ Hk2 _ _]).
  destruct (after_events_reached (((ticks 2 ++ waits_for 10) ++ ends 10) ++ ticks 2 ++ waits_for 2) Returned Triggered (Some RUNNABLE) (Some 2)
    ltac:(vm_compute; reflexivity)) as (_ & st3 & _ & _ & E3 & [= Hw3 _ _ _]).
  pose proof (after_events_then _ _ _ _ E E2) as Hr2. pose proof (after_events_then _ _ _ _ E2 E3) as Hr3.
  assert (rtc (wait_step 2 1) (waiting q) st3) as Hr' by (etrans; [exact Hr|]; by etrans).
  destruct (wait_proc_correct (queued := rr_queued) 2 1 (waiting q) st [1; 2] Hb Hr) as (_ & _ & _ & _ & Hcov).
  destruct (wait_proc_correct (queued := rr_queued) 2 1 (waiting q) st3 [1; 2] Hb Hr') as (Hret & _).
  exists q, st, st2. split; [done|]. split; [done|]. split; [done|]. split; [done|].
  split; [by apply (Hcov Hs (or_introl Hk) st2 Hr2 Hk2)|]. exists st3. split; [done|]. split; [done|by apply Hret].
Defined.
