(* ===== verification/Mutex.v ===== *)
(** * infos/util/lock.h, lock.cpp: the mutex, under every interleaving

    A thread that calls [lock] tests and sets the flag until it was clear, and
    then stores itself as the owner; [unlock] clears the flag.  The three are
    separate steps between which other threads run. *)
From S2P Require Import Prelude.

(** [_owner] is not initialised: [None] stands for whatever it holds. *)
Record Mutex := { _locked : Z; _owner : option Z }.

Definition Mutex_new : Mutex := {| _locked := 0; _owner := None |}.

(** [__sync_lock_test_and_set(&_locked, 1)] *)
Definition test_and_set (m : Mutex) : Z * Mutex := (_locked m, {| _locked := 1; _owner := _owner m |}).
Definition store_owner (m : Mutex) (t : Z) : Mutex := {| _locked := _locked m; _owner := Some t |}.
Definition unlock (m : Mutex) : Mutex := {| _locked := 0; _owner := _owner m |}.

Definition locked (m : Mutex) : bool := negb (_locked m =? 0).
Definition locked_by_me (m : Mutex) (t : Z) : bool := locked m && bool_decide (_owner m = Some t).

(** [ConditionVariable::wait] only checks that the caller has the mutex. *)
Definition ConditionVariable_wait (m : Mutex) (t : Z) : outcome unit := assert_ (locked_by_me m t).

(** Where a thread is: outside, in the loop of [lock], between the loop and the
    store, in the section that the mutex protects. *)
Inductive place := Outside | InLoop | BeforeStore | Inside.
#[global] Instance place_eq_dec : EqDecision place.
Proof. solve_decision. Defined.

Record Shared := { mutex : Mutex; at_ : Z -> place }.

Definition move (s : Shared) (m : Mutex) (t : Z) (p : place) : Shared :=
  {| mutex := m; at_ := fun u => if u =? t then p else at_ s u |}.

(** One step of thread [t], which calls [lock] and [unlock] in turn. *)
Definition mutex_step (s : Shared) (t : Z) : Shared :=
  match at_ s t with
  | Outside => move s (mutex s) t InLoop
  | InLoop => let '(old, m) := test_and_set (mutex s) in move s m t (if old =? 0 then BeforeStore else InLoop)
  | BeforeStore => move s (store_owner (mutex s) t) t Inside
  | Inside => move s (unlock (mutex s)) t Outside
  end.

Definition mutex_run (s : Shared) (schedule : list Z) : Shared := foldl mutex_step s schedule.
Definition idle : Shared := {| mutex := Mutex_new; at_ := fun _ => Outside |}.

Definition holds (s : Shared) (t : Z) : Prop := at_ s t = BeforeStore \/ at_ s t = Inside.

(** ** The invariant *)
Record mutex_inv (s : Shared) : Prop := {
  mi_flag : _locked (mutex s) = 0 \/ _locked (mutex s) = 1;
  mi_free : _locked (mutex s) = 0 -> forall t, ~ holds s t;
  mi_held : _locked (mutex s) = 1 -> exists t, holds s t /\ forall u, holds s u -> u = t;
  mi_owner : forall t, at_ s t = Inside -> _owner (mutex s) = Some t
}.

Lemma at_move s m t p u : at_ (move s m t p) u = if u =? t then p else at_ s u.
Proof. done. Qed.

Lemma holds_move s m t p u :
  holds (move s m t p) u <-> (u = t /\ (p = BeforeStore \/ p = Inside)) \/ (u <> t /\ holds s u).
Proof. unfold holds. rewrite at_move. destruct (Z.eqb_spec u t); naive_solver. Qed.

Lemma not_holding s t : at_ s t = Outside \/ at_ s t = InLoop -> ~ holds s t.
Proof. unfold holds. intros [->| ->]; naive_solver. Qed.

Lemma mutex_step_inv s t : mutex_inv s -> mutex_inv (mutex_step s t).
Proof.
  intros [Hflag Hfree Hheld Hown]. unfold mutex_step. destruct (at_ s t) eqn:Et.
  - (* the call of lock *)
    pose proof (not_holding s t (or_introl Et)) as Hn. split; cbn [mutex move]; [done| | |].
    + intros E u. rewrite holds_move. specialize (Hfree E u). naive_solver.
    + intros E. destruct (Hheld E) as (v & Hv & Hu). exists v. setoid_rewrite holds_move. split; [|naive_solver].
      right. split; [|done]. congruence.
    + intros u. cbn. destruct (u =? t); [done|apply Hown].
  - (* test and set *)
    pose proof (not_holding s t (or_intror Et)) as Hn. cbn [test_and_set]. destruct (Z.eqb_spec (_locked (mutex s)) 0) as [E|E].
    + split; cbn [mutex move _locked _owner]; [by right|done| |].
      * intros _. exists t. setoid_rewrite holds_move. split; [left; tauto|]. intros u [[-> _]|[_ Hu]]; [done|by destruct (Hfree E u)].
      * intros u. cbn. destruct (u =? t); [done|apply Hown].
    + destruct Hflag as [|Hf]; [done|]. split; cbn [mutex move _locked _owner]; [by right|done| |].
      * intros _. destruct (Hheld Hf) as (v & Hv & Hu). exists v. setoid_rewrite holds_move. split; [|naive_solver].
        right. split; [|done]. congruence.
      * intros u. cbn. destruct (u =? t); [done|apply Hown].
  - (* the store of the owner *)
    assert (holds s t) as Ht by by left. split; cbn [mutex move store_owner _locked _owner]; [done| | |].
    + intros E u. exfalso. by apply (Hfree E t).
    + intros E. destruct (Hheld E) as (v & Hv & Hu). exists t. setoid_rewrite holds_move. split; [left; tauto|].
      intros u [[-> _]|[_ Hu']]; [done|]. by rewrite (Hu u Hu'), (Hu t Ht).
    + intros u. cbn. destruct (Z.eqb_spec u t) as [->|Hne]; [done|]. intros Hu. exfalso. apply Hne.
      destruct Hflag as [E|E]; [by destruct (Hfree E t)|]. destruct (Hheld E) as (v & _ & Hv). rewrite (Hv t Ht). apply Hv. by right.
  - (* unlock *)
    assert (holds s t) as Ht by by right. split; cbn [mutex move unlock _locked _owner]; [by left| |done|].
    + intros _ u. rewrite holds_move. intros [[_ [|]]|[Hne Hu]]; [done|done|]. apply Hne.
      destruct Hflag as [E|E]; [by destruct (Hfree E t)|]. destruct (Hheld E) as (v & _ & Hv). by rewrite (Hv t Ht), (Hv u Hu).
    + intros u. cbn. destruct (u =? t); [done|apply Hown].
Qed.

Lemma mutex_run_inv schedule s : mutex_inv s -> mutex_inv (mutex_run s schedule).
Proof. revert s. induction schedule as [|t l IH]; intros s Hs; [done|]. cbn. apply IH. by apply mutex_step_inv. Qed.

Lemma idle_inv : mutex_inv idle.
Proof. split; cbn; [by left| |done|done]. intros _ t [|]; done. Qed.

(** Between the two steps of [lock] the mutex still names its last owner, who
    would be told that it has the mutex. *)
Lemma locked_by_me_stale :
  let s := mutex_run idle [1; 1; 1; 2; 1; 2] in
  at_ s 1 = Outside /\ at_ s 2 = BeforeStore /\ locked_by_me (mutex s) 1 = true.
Proof. done. Qed.

(** C29: the mutex excludes.  However the steps of any number of threads are
    interleaved, at most one thread is past the loop of [lock] and not yet
    through [unlock]; a thread in the protected section, and no other, is told
    by [locked_by_me] that it has the mutex, so that the assertion of
    [ConditionVariable::wait] holds for it and fails for the others; the mutex
    is free exactly when nobody has it; and when it is free, a thread in the
    loop leaves it with its next step. *)
Theorem mutex_excludes schedule :
  let s := mutex_run idle schedule in
  (forall t u, holds s t -> holds s u -> t = u) /\
  (forall t, at_ s t = Inside -> forall u, ConditionVariable_wait (mutex s) u = if u =? t then Ok tt else Fault AssertionFailure) /\
  (locked (mutex s) = false <-> forall t, ~ holds s t) /\
  (forall t, locked (mutex s) = false -> at_ s t = InLoop -> holds (mutex_step s t) t).
Proof.
  intros s. assert (mutex_inv s) as [Hflag Hfree Hheld Hown] by (apply mutex_run_inv, idle_inv). unfold locked.
  assert (forall t, holds s t -> _locked (mutex s) = 1) as Hone.
  { intros t Ht. destruct Hflag as [E|E]; [by destruct (Hfree E t)|done]. }
  split_and!.
  - intros t u Ht Hu. destruct (Hheld (Hone t Ht)) as (v & _ & Hv). by rewrite (Hv t Ht), (Hv u Hu).
  - intros t Ht u. unfold ConditionVariable_wait, locked_by_me, locked. rewrite (Hone t) by by right. rewrite (Hown t Ht).
    destruct (Z.eqb_spec u t) as [->|Hne]; [by rewrite bool_decide_true|]. by rewrite bool_decide_false by congruence.
  - destruct Hflag as [E|E]; rewrite E; cbn; (split; [|done || intros Hn]).
    + intros _. by apply Hfree.
    + done.
    + destruct (Hheld E) as (v & Hv & _). by destruct (Hn v).
  - intros t E Et. destruct (Z.eqb_spec (_locked (mutex s)) 0) as [E0|]; [|done]. unfold mutex_step. rewrite Et. cbn [test_and_set].
    rewrite E0. apply holds_move. left. tauto.
Qed.
