(* ===== verification/Pointers.v ===== *)
(** * Reference-counted pointers of coursework/Core/Memory.h

    [SharedPointer], [WeakPointer], [MakeShared] and [ManagedObject], which the
    containers of the coursework are built on (coursework/sched-fifo.cpp and
    coursework/sched-rr.cpp hold further copies of the code).  The store has the
    live objects, the pairs of counters made by [new int(1)], and every pointer
    that exists, as a variable or as a member of an object.  A use of anything
    that has been freed is a [Fault].  An object has [SharedPointer] and
    [WeakPointer] members; its destructor destroys them, the last first.

    Addresses of new objects and counters are given by the allocator: any that
    are free may be handed out again. *)
From stdpp Require Import countable.
From S2P Require Import Prelude.

(** A pointer that is not null: the two counters are made and freed together. *)
Record Ref := { _data : Z; _counts : Z }.
Record Counts := { _sharedCount : Z; _weakCount : Z }.

Inductive place := Var (x : Z) | Member (o : Z) (i : nat).

#[global] Instance ref_eq_dec : EqDecision Ref.
Proof. solve_decision. Defined.
#[global] Instance place_eq_dec : EqDecision place.
Proof. solve_decision. Defined.
#[global] Instance place_countable : Countable place.
Proof.
  apply (inj_countable' (fun p => match p with Var x => inl x | Member o i => inr (o, i) end)
    (fun s => match s with inl x => Var x | inr (o, i) => Member o i end)).
  by intros [].
Defined.

(** An object is given by how many members of either kind it has. *)
Record Store := {
  objects : gmap Z (nat * nat);
  counts : gmap Z Counts;
  shared : gmap place (option Ref);
  weak : gmap place (option Ref)
}.

Definition set_counts (st : Store) (c : Z) (x : Counts) : Store :=
  {| objects := objects st; counts := <[c := x]> (counts st); shared := shared st; weak := weak st |}.
Definition set_shared (st : Store) (k : place) (v : option Ref) : Store :=
  {| objects := objects st; counts := counts st; shared := <[k := v]> (shared st); weak := weak st |}.
Definition set_weak (st : Store) (k : place) (v : option Ref) : Store :=
  {| objects := objects st; counts := counts st; shared := shared st; weak := <[k := v]> (weak st) |}.
Definition drop_shared (st : Store) (k : place) : Store :=
  {| objects := objects st; counts := counts st; shared := delete k (shared st); weak := weak st |}.
Definition drop_weak (st : Store) (k : place) : Store :=
  {| objects := objects st; counts := counts st; shared := shared st; weak := delete k (weak st) |}.

(** ** SharedPointer *)

(** [++*_sharedCount]. *)
Definition increment_shared (st : Store) (c : Z) : outcome Store :=
  x ← in_bounds (counts st !! c);
  Ok (set_counts st c {| _sharedCount := i32 (_sharedCount x + 1); _weakCount := _weakCount x |}).

Definition Hold (st : Store) (v : option Ref) : outcome Store :=
  match v with Some r => increment_shared st (_counts r) | None => Ok st end.

(** The destructor of an object: its [SharedPointer] members, the last first;
    a [WeakPointer] has no destructor. *)
Fixpoint destroy_members (release : Store -> place -> outcome Store) (st : Store) (o : Z) (n : nat) : outcome Store :=
  match n with
  | O => Ok st
  | S n =>
      st ← release st (Member o n);
      destroy_members release (drop_shared st (Member o n)) o n
  end.

Fixpoint free_weak_members (w : gmap place (option Ref)) (o : Z) (n : nat) : gmap place (option Ref) :=
  match n with O => w | S n => free_weak_members (delete (Member o n) w) o n end.

(** [delete _data]. *)
Definition delete_object (release : Store -> place -> outcome Store) (st : Store) (o : Z) : outcome Store :=
  '(n, w) ← in_bounds (objects st !! o);
  st ← destroy_members release st o n;
  Ok {| objects := delete o (objects st); counts := counts st; shared := shared st; weak := free_weak_members (weak st) o w |}.

(** [Release] of the pointer at [k]; after [delete _data] it reads [_weakCount]
    of the same pointer. *)
Fixpoint Release (fuel : nat) (st : Store) (k : place) : outcome Store :=
  match fuel with
  | O => Fault OutOfFuel
  | S fuel =>
      v ← in_bounds (shared st !! k);
      match v with
      | None => Ok st
      | Some r =>
          x ← in_bounds (counts st !! _counts r);
          let n := i32 (_sharedCount x - 1) in
          let st := set_counts st (_counts r) {| _sharedCount := n; _weakCount := _weakCount x |} in
          if n =? 0 then
            st ← delete_object (Release fuel) st (_data r);
            v ← in_bounds (shared st !! k);
            r ← deref v;
            x ← in_bounds (counts st !! _counts r);
            Ok (set_counts st (_counts r) {| _sharedCount := _sharedCount x; _weakCount := i32 (_weakCount x - 1) |})
          else Ok st
      end
  end.

(** Every object deleted on the way has counters of its own. *)
Definition release (st : Store) (k : place) : outcome Store := Release (S (size (counts st))) st k.

(** Stores to a pointer that exists. *)
Definition write (st : Store) (k : place) (v : option Ref) : outcome Store :=
  _ ← in_bounds (shared st !! k); Ok (set_shared st k v).

Definition copy_construct (st : Store) (dst src : place) : outcome Store :=
  v ← in_bounds (shared st !! src);
  Hold (set_shared st dst v) v.

Definition move_construct (st : Store) (dst src : place) : outcome Store :=
  v ← in_bounds (shared st !! src);
  write (set_shared st dst v) src None.

(** Both assignments: [other.Hold(); Release();], then the members of [other]. *)
Definition assign (st : Store) (dst src : place) : outcome Store :=
  v ← in_bounds (shared st !! src);
  st ← Hold st v;
  st ← release st dst;
  v ← in_bounds (shared st !! src);
  write st dst v.

Definition assign_null (st : Store) (dst : place) : outcome Store :=
  st ← release st dst; write st dst None.

(** [~SharedPointer]. *)
Definition destroy (st : Store) (k : place) : outcome Store :=
  st ← release st k; Ok (drop_shared st k).

(** [ConstructPointerAtType]; [ok] is whether the cast gives a pointer. *)
Definition cast (st : Store) (dst src : place) (ok : bool) : outcome Store :=
  v ← in_bounds (shared st !! src);
  match v with
  | Some r =>
      if ok then st ← Hold st v; increment_shared (set_shared st dst v) (_counts r)
      else Ok (set_shared st dst None)
  | None => Ok (set_shared st dst None)
  end.

(** ** WeakPointer *)
Definition weak_Hold (st : Store) (v : option Ref) : outcome Store :=
  match v with
  | None => Ok st
  | Some r =>
      x ← in_bounds (counts st !! _counts r);
      Ok (set_counts st (_counts r) {| _sharedCount := _sharedCount x; _weakCount := i32 (_weakCount x + 1) |})
  end.

Definition weak_Release (st : Store) (v : option Ref) : outcome Store :=
  match v with
  | None => Ok st
  | Some r =>
      x ← in_bounds (counts st !! _counts r);
      let n := i32 (_weakCount x - 1) in
      if n =? 0 then
        Ok {| objects := objects st; counts := delete (_counts r) (counts st); shared := shared st; weak := weak st |}
      else Ok (set_counts st (_counts r) {| _sharedCount := _sharedCount x; _weakCount := n |})
  end.

Definition weak_construct (st : Store) (dst src : place) : outcome Store :=
  v ← in_bounds (shared st !! src);
  weak_Hold (set_weak st dst v) v.

Definition Pin (st : Store) (dst src : place) : outcome Store :=
  v ← in_bounds (weak st !! src);
  match v with
  | None => Ok (set_shared st dst None)
  | Some r =>
      x ← in_bounds (counts st !! _counts r);
      if _sharedCount x =? 0 then Ok (set_shared st dst None)
      else increment_shared (set_shared st dst v) (_counts r)
  end.

Definition weak_assign (st : Store) (dst src : place) : outcome Store :=
  w ← in_bounds (weak st !! dst);
  v ← in_bounds (shared st !! src);
  if bool_decide (_data <$> w = _data <$> v) then Ok st
  else
    st ← weak_Release st w;
    weak_Hold (set_weak st dst v) v.

Definition weak_assign_null (st : Store) (dst : place) : outcome Store :=
  w ← in_bounds (weak st !! dst);
  st ← weak_Release st w;
  Ok (set_weak st dst None).

(** The copy constructor that the compiler supplies. *)
Definition weak_copy (st : Store) (dst src : place) : outcome Store :=
  w ← in_bounds (weak st !! src); Ok (set_weak st dst w).

(** ** MakeShared and ManagedObject *)

(** [new T] with null pointers as members. *)
Definition null_members (m : gmap place (option Ref)) (o : Z) (n : nat) : gmap place (option Ref) :=
  foldr (fun i m => <[Member o i := None]> m) m (seq 0 n).

Definition new_object (st : Store) (o : Z) (n w : nat) : Store :=
  {| objects := <[o := (n, w)]> (objects st); counts := counts st;
     shared := null_members (shared st) o n; weak := null_members (weak st) o w |}.

(** [SharedPointer(T* rawPointer)]. *)
Definition adopt (st : Store) (dst : place) (o c : Z) : Store :=
  set_shared (set_counts st c {| _sharedCount := 1; _weakCount := 1 |}) dst (Some {| _data := o; _counts := c |}).

(** [Feed(sp)] with the parameter at [a]; [_this] is the first weak member. *)
Definition Feed (st : Store) (o : Z) (sp a : place) : outcome Store :=
  st ← copy_construct st a sp;
  st ← weak_assign st (Member o 0) a;
  destroy st a.

Definition MakeShared (st : Store) (dst a : place) (o c : Z) (n w : nat) (managed : bool) : outcome Store :=
  let st := adopt (new_object st o n w) dst o c in
  if managed then Feed st o dst a else Ok st.

(** ** Programs

    A pointer is a variable or a member of the object that another pointer
    points to: [p], [p->next], [p->next->next], and so on. *)
Inductive path := PVar (x : Z) | PMember (p : path) (i : nat).

Fixpoint resolve (st : Store) (p : path) : outcome place :=
  match p with
  | PVar x => Ok (Var x)
  | PMember p i =>
      k ← resolve st p;
      v ← in_bounds (shared st !! k);
      r ← deref v;
      Ok (Member (_data r) i)
  end.

Inductive Op :=
  | OMake (x a o c : Z) (n w : nat) (managed : bool)
  | ONull (x : Z)
  | OCopy (x : Z) (src : path)
  | OMove (x : Z) (src : path)
  | OAssign (dst src : path)
  | OAssignNull (dst : path)
  | ODestroy (x : Z)
  | OCast (x : Z) (src : path) (ok : bool)
  | OWeakNull (x : Z)
  | OWeakFrom (x : Z) (src : path)
  | OWeakAssign (dst src : path)
  | OWeakAssignNull (dst : path)
  | OWeakCopy (x : Z) (src : path)
  | OWeakEnd (x : Z)
  | OPin (x : Z) (src : path).

Definition exec (st : Store) (op : Op) : outcome Store :=
  match op with
  | OMake x a o c n w managed => MakeShared st (Var x) (Var a) o c n w managed
  | ONull x => Ok (set_shared st (Var x) None)
  | OCopy x src => k ← resolve st src; copy_construct st (Var x) k
  | OMove x src => k ← resolve st src; move_construct st (Var x) k
  | OAssign dst src => j ← resolve st dst; k ← resolve st src; assign st j k
  | OAssignNull dst => j ← resolve st dst; assign_null st j
  | ODestroy x => destroy st (Var x)
  | OCast x src ok => k ← resolve st src; cast st (Var x) k ok
  | OWeakNull x => Ok (set_weak st (Var x) None)
  | OWeakFrom x src => k ← resolve st src; weak_construct st (Var x) k
  | OWeakAssign dst src => j ← resolve st dst; k ← resolve st src; weak_assign st j k
  | OWeakAssignNull dst => j ← resolve st dst; weak_assign_null st j
  | OWeakCopy x src => k ← resolve st src; weak_copy st (Var x) k
  | OWeakEnd x => Ok (drop_weak st (Var x))
  | OPin x src => k ← resolve st src; Pin st (Var x) k
  end.

Definition no_pointers : Store := {| objects := ∅; counts := ∅; shared := ∅; weak := ∅ |}.

(** What the language sees to: pointers used exist, variables made do not,
    and the allocator gives addresses that are free.  Beyond that, a weak
    pointer is not copied. *)
Definition is_shared (st : Store) (p : path) : bool :=
  match resolve st p with Ok k => bool_decide (is_Some (shared st !! k)) | Fault _ => false end.
Definition is_weak (st : Store) (p : path) : bool :=
  match resolve st p with Ok k => bool_decide (is_Some (weak st !! k)) | Fault _ => false end.
Definition no_shared (st : Store) (x : Z) : bool := bool_decide (shared st !! Var x = None).
Definition no_weak (st : Store) (x : Z) : bool := bool_decide (weak st !! Var x = None).

Definition scoped (st : Store) (op : Op) : bool :=
  match op with
  | OMake x a o c n w managed =>
      bool_decide (objects st !! o = None) && bool_decide (counts st !! c = None) && no_shared st x && no_shared st a &&
      negb (x =? a) && (if managed then (0 <? w)%nat else true)
  | ONull x => no_shared st x
  | OCopy x src | OMove x src | OCast x src _ => no_shared st x && is_shared st src
  | OAssign dst src => is_shared st dst && is_shared st src
  | OAssignNull dst => is_shared st dst
  | ODestroy x => is_shared st (PVar x)
  | OWeakNull x => no_weak st x
  | OWeakFrom x src => no_weak st x && is_shared st src
  | OWeakAssign dst src => is_weak st dst && is_shared st src
  | OWeakAssignNull dst => is_weak st dst
  | OWeakCopy _ _ => false
  | OWeakEnd x => is_weak st (PVar x)
  | OPin x src => no_shared st x && is_weak st src
  end.

(** The place [k] can be reached from a variable by some path that does not
    follow the pointer [j]. *)
Definition apart (st : Store) (j k : place) : Prop := exists q, resolve (drop_shared st j) q = Ok k.

(** An operation that the theorems speak of: what is assigned can be reached
    without the pointer that is assigned to, so that [p = p->next] needs another
    way to the object of [p]. *)
Definition allowed (st : Store) (op : Op) : Prop :=
  scoped st op = true /\
  match op with
  | OAssign dst src => forall j k, resolve st dst = Ok j -> resolve st src = Ok k -> apart st j k
  | _ => True
  end.

(** The stores that a program can come to. *)
Inductive history : list Op -> Store -> Prop :=
  | history_nil : history [] no_pointers
  | history_step ops st op st' : history ops st -> allowed st op -> exec st op = Ok st' -> history (op :: ops) st'.
