(* ===== verification/PointersTheorems.v ===== *)
(** * Reference counting is safe

    The invariant of the pointers of coursework/Core/Memory.h (file Pointers),
    kept through a release and everything that is deleted on the way, and by
    every operation of a program; and what goes wrong beyond. *)
From S2P Require Import Prelude Pointers.

(** ** How many pointers there are to a pair of counters *)
Definition points (c : Z) (v : option Ref) : Z := if decide (_counts <$> v = Some c) then 1 else 0.
Definition refs (c : Z) (m : gmap place (option Ref)) : Z :=
  Z.of_nat (size (filter (fun kv => _counts <$> kv.2 = Some c) m)).

Lemma refs_nonneg c m : 0 <= refs c m.
Proof. unfold refs. lia. Qed.

Lemma points_range c v : 0 <= points c v <= 1.
Proof. unfold points. case_decide; lia. Qed.

Lemma refs_insert c m k v : m !! k = None -> refs c (<[k := v]> m) = points c v + refs c m.
Proof.
  intros Hk. unfold refs, points. case_decide as E.
  - rewrite map_filter_insert_True by done. rewrite map_size_insert_None; [lia|]. apply map_lookup_filter_None. by left.
  - rewrite map_filter_insert_False by done. by rewrite delete_id.
Qed.

Lemma refs_delete c m k v : m !! k = Some v -> refs c m = points c v + refs c (delete k m).
Proof. intros Hk. rewrite <- (insert_delete_id m k v Hk) at 1. apply refs_insert. apply lookup_delete_eq. Qed.

Lemma refs_delete_le c m k : refs c (delete k m) <= refs c m.
Proof.
  destruct (m !! k) as [v|] eqn:E; [|by rewrite delete_id].
  rewrite (refs_delete c m k v E). pose proof (points_range c v). lia.
Qed.

Lemma refs_write c m k v : refs c (<[k := v]> m) = points c v + refs c (delete k m).
Proof. rewrite <- insert_delete_eq. apply refs_insert, lookup_delete_eq. Qed.

Lemma points_None c : points c None = 0.
Proof. done. Qed.

Lemma refs_None c m k : refs c (<[k := None]> m) <= refs c m.
Proof. rewrite refs_write, points_None. pose proof (refs_delete_le c m k). lia. Qed.

Lemma points_Some c r : points c (Some r) = if decide (_counts r = c) then 1 else 0.
Proof. unfold points. cbn. repeat case_decide; naive_solver. Qed.

Lemma refs_pos m k r : m !! k = Some (Some r) -> 1 <= refs (_counts r) m.
Proof.
  intros Hk. rewrite (refs_delete _ m k _ Hk), points_Some, decide_True by done.
  pose proof (refs_nonneg (_counts r) (delete k m)). lia.
Qed.

Lemma refs_subseteq c m m' : m ⊆ m' -> refs c m <= refs c m'.
Proof.
  intros Hm. unfold refs. apply inj_le, map_subseteq_size, map_subseteq_spec. intros k v.
  rewrite !map_lookup_filter_Some. intros [Hk Hv]. split; [|done]. by apply (lookup_weaken m m').
Qed.

(** The counters of which the shared one is not 0. *)
Definition positives (st : Store) : nat := size (filter (fun kv => 0 < _sharedCount kv.2) (counts st)).

Lemma positives_set st c x y : counts st !! c = Some x -> (0 < _sharedCount y -> 0 < _sharedCount x) ->
  (positives (set_counts st c y) <= positives st)%nat.
Proof.
  intros Hc Hxy. unfold positives. cbn. rewrite <- insert_delete_eq. rewrite <- (insert_delete_id (counts st) c x Hc) at 2.
  assert (filter (fun kv : Z * Counts => 0 < _sharedCount kv.2) (delete c (counts st)) !! c = None) as Hn
    by (apply map_lookup_filter_None; left; apply lookup_delete_eq).
  destruct (decide (0 < _sharedCount y)).
  - rewrite !map_filter_insert_True by (cbn; auto). by rewrite !map_size_insert_None.
  - rewrite map_filter_insert_False, delete_delete_eq by done. destruct (decide (0 < _sharedCount x)).
    + rewrite map_filter_insert_True by done. rewrite map_size_insert_None by done. lia.
    + by rewrite map_filter_insert_False, delete_delete_eq by done.
Qed.

Lemma positives_zero st c x y : counts st !! c = Some x -> 0 < _sharedCount x -> _sharedCount y = 0 ->
  positives st = S (positives (set_counts st c y)).
Proof.
  intros Hc Hx Hy. unfold positives. cbn. rewrite <- insert_delete_eq. rewrite <- (insert_delete_id (counts st) c x Hc) at 1.
  assert (filter (fun kv : Z * Counts => 0 < _sharedCount kv.2) (delete c (counts st)) !! c = None) as Hn
    by (apply map_lookup_filter_None; left; apply lookup_delete_eq).
  rewrite map_filter_insert_True by done. rewrite map_size_insert_None by done.
  rewrite map_filter_insert_False by (cbn; lia). by rewrite delete_delete_eq.
Qed.

(** ** The invariant

    [S] has the pointers that count: one that is being released does not.
    [own] says which object a pair of counters is for, [D] has the counters of
    the objects being deleted, [sur] the counts that no pointer stands for, and
    [B] bounds the counters. *)
Definition alive (D : gset Z) (st : Store) (c : Z) : Prop :=
  exists x, counts st !! c = Some x /\ (0 < _sharedCount x \/ c ∈ D).
Definition dying (D : gset Z) (own : gmap Z Z) (o : Z) : Prop := exists c, c ∈ D /\ own !! c = Some o.

(** An object that the pointers [S] hold, from a variable on. *)
Inductive held (S : gmap place (option Ref)) : Z -> Prop :=
  | held_var x r : S !! Var x = Some (Some r) -> held S (_data r)
  | held_member o i r : held S o -> S !! Member o i = Some (Some r) -> held S (_data r).

Lemma held_points S o : held S o -> exists k r, S !! k = Some (Some r) /\ _data r = o.
Proof. intros [x r Hx|o' i r _ Hx]; by eexists _, _. Qed.

Lemma held_mono S S' o : S ⊆ S' -> held S o -> held S' o.
Proof.
  intros HS. induction 1 as [x r Hx|o i r _ IH Hx]; [apply (held_var _ x)|apply (held_member _ o i _ IH)];
    by apply (lookup_weaken S).
Qed.

(** A pointer of an object is not needed to hold the object itself. *)
Lemma held_without S o i o' : held S o' -> held (delete (Member o i) S) o' \/ held (delete (Member o i) S) o.
Proof.
  induction 1 as [x r Hx|o1 j r _ IH Hx]; [left; apply (held_var _ x); by rewrite lookup_delete_ne|].
  destruct IH as [IH|IH]; [|by right]. destruct (decide (Member o1 j = Member o i)) as [[= -> ->]|Hne]; [by right|left].
  apply (held_member _ o1 j _ IH). by rewrite lookup_delete_ne.
Qed.

(** A pointer that outlives the release of others. *)
Definition anchored (S : gmap place (option Ref)) (D : gset Z) (own : gmap Z Z) (k : place) : Prop :=
  match k with
  | Var _ => True
  | Member o _ => dying D own o \/ held S o
  end.

Record inv (B : Z) (sur : Z -> Z) (own : gmap Z Z) (D : gset Z) (S : gmap place (option Ref)) (st : Store) : Prop := {
  i_sub : S ⊆ shared st;
  i_dom c : is_Some (counts st !! c) <-> is_Some (own !! c);
  i_ref k r : S !! k = Some (Some r) -> own !! _counts r = Some (_data r);
  i_wref k r : weak st !! k = Some (Some r) -> own !! _counts r = Some (_data r);
  i_count c x : counts st !! c = Some x -> _sharedCount x = refs c S + sur c /\ _sharedCount x <= B;
  i_weak c x : counts st !! c = Some x -> refs c (weak st) <= _weakCount x <= B;
  i_held c x : counts st !! c = Some x -> 0 < _sharedCount x \/ c ∈ D -> 1 + refs c (weak st) <= _weakCount x;
  i_sur c : 0 <= sur c;
  i_dying c : c ∈ D -> exists x, counts st !! c = Some x /\ _sharedCount x = 0;
  i_obj o : is_Some (objects st !! o) <-> exists c, alive D st c /\ own !! c = Some o;
  i_inj c c' o : alive D st c -> alive D st c' -> own !! c = Some o -> own !! c' = Some o -> c = c';
  i_members o n w i : objects st !! o = Some (n, w) -> ~ dying D own o -> is_Some (shared st !! Member o i) <-> (i < n)%nat;
  i_home o i : is_Some (shared st !! Member o i) -> is_Some (objects st !! o);
  i_hidden k v : shared st !! k = Some v -> S !! k = None -> anchored S D own k
}.

(** What a release leaves as it was. *)
Definition keeps (D : gset Z) (own : gmap Z Z) (st : Store) (j : place) : Prop :=
  match j with Var _ => True | Member o _ => dying D own o \/ is_Some (objects st !! o) end.

Record frame (ex : place -> Prop) (D : gset Z) (own : gmap Z Z) (S : gmap place (option Ref)) (st : Store)
    (S' : gmap place (option Ref)) (st' : Store) : Prop := {
  f_S : S' ⊆ S;
  f_shared : shared st' ⊆ shared st;
  f_objects : objects st' ⊆ objects st;
  f_positives : (positives st' <= positives st)%nat;
  f_keep j : ~ ex j -> keeps D own st' j -> shared st' !! j = shared st !! j /\ S' !! j = S !! j
}.

Lemma frame_refl ex D own S st : frame ex D own S st S st.
Proof. by split. Qed.

Lemma keeps_mono D D' own st st' j : D ⊆ D' -> objects st ⊆ objects st' -> keeps D own st j -> keeps D' own st' j.
Proof.
  intros HD Ho. destruct j as [x|o i]; [done|]. intros [(c & Hc & E)|[x Hx]]; [left; exists c; set_solver|].
  right. exists x. by apply (lookup_weaken (objects st)).
Qed.

Lemma frame_trans ex D own S st S1 st1 S2 st2 : frame ex D own S st S1 st1 -> frame ex D own S1 st1 S2 st2 -> frame ex D own S st S2 st2.
Proof.
  intros [H1 H2 H3 H4 H5] [H1' H2' H3' H4' H5']. split; [by etrans..|lia|].
  intros j He Hj. destruct (H5' j He Hj) as [-> ->]. apply H5; [done|]. by apply (keeps_mono D D own st2).
Qed.

(** Fewer places are kept if fewer objects are being deleted. *)
Lemma frame_mono (ex ex' : place -> Prop) D D' own S st S' st' : (forall j, ~ ex' j -> keeps D' own st' j -> ~ ex j /\ keeps D own st' j) ->
  frame ex D own S st S' st' -> frame ex' D' own S st S' st'.
Proof. intros He [H1 H2 H3 H4 H5]. split; [done..|]. intros j Hj Hk. destruct (He j Hj Hk). by apply H5. Qed.

Lemma anchored_mono S D D' own k : D ⊆ D' -> anchored S D own k -> anchored S D' own k.
Proof. destruct k as [x|o i]; [done|]. intros HD [(c & Hc & E)|H]; [left; exists c; set_solver|by right]. Qed.

(** The counters of a pointer that counts. *)
Lemma counts_of B sur own D S st k r : inv B sur own D S st -> S !! k = Some (Some r) ->
  exists x, counts st !! _counts r = Some x /\ 0 < _sharedCount x /\ own !! _counts r = Some (_data r).
Proof.
  intros H Hk. pose proof (i_ref _ _ _ _ _ _ H k r Hk) as Ho. destruct (proj2 (i_dom _ _ _ _ _ _ H (_counts r))) as [x Hx]; [by exists (_data r)|].
  exists x. split_and!; [done| |done]. pose proof (i_count _ _ _ _ _ _ H _ x Hx) as [-> _]. pose proof (refs_pos S k r Hk).
  pose proof (i_sur _ _ _ _ _ _ H (_counts r)). lia.
Qed.

Lemma object_of B sur own D S st k r : inv B sur own D S st -> S !! k = Some (Some r) -> is_Some (objects st !! _data r).
Proof.
  intros H Hk. destruct (counts_of _ _ _ _ _ _ _ _ H Hk) as (x & Hx & Hp & Ho). apply (i_obj _ _ _ _ _ _ H).
  exists (_counts r). split; [|done]. exists x. auto.
Qed.

(** An object that a pointer points to is not being deleted. *)
Lemma not_dying B sur own D S st k r : inv B sur own D S st -> S !! k = Some (Some r) -> ~ dying D own (_data r).
Proof.
  intros H Hk (c & Hc & E). destruct (counts_of _ _ _ _ _ _ _ _ H Hk) as (x & Hx & Hp & Ho).
  destruct (i_dying _ _ _ _ _ _ H c Hc) as (y & Hy & Hz).
  assert (c = _counts r) as ->; [|naive_solver lia]. apply (i_inj _ _ _ _ _ _ H _ _ (_data r)); [exists y; auto|exists x; auto|done..].
Qed.

Lemma anchored_survives B sur own D S st k v st0 : inv B sur own D S st -> shared st0 !! k = Some v ->
  (forall j, keeps D own st j -> shared st !! j = shared st0 !! j) ->
  anchored S D own k -> shared st !! k = Some v.
Proof.
  intros H Hk Hf Ha. rewrite Hf; [done|]. destruct k as [x|o i]; [done|]. destruct Ha as [Hd|(j & r & Hj & <-)%held_points]; [by left|].
  right. by apply (object_of B sur own D S st j).
Qed.

(** No pointer of an object that is being deleted holds anything. *)
Lemma held_delete_dying B sur own D S st o i o' : inv B sur own D S st -> dying D own o -> held S o' ->
  held (delete (Member o i) S) o'.
Proof.
  intros H Hd. induction 1 as [x r Hx|o1 j r Hh IH Hx]; [apply (held_var _ x); by rewrite lookup_delete_ne|].
  apply (held_member _ o1 j _ IH). rewrite lookup_delete_ne; [done|]. intros [= -> ->].
  destruct (held_points _ _ Hh) as (k & r' & Hk & <-). by apply (not_dying _ _ _ _ _ _ _ _ H Hk).
Qed.

(** What is held stays so while the places that are kept stay as they were. *)
Lemma held_kept B sur own D S S' st' o : inv B sur own D S' st' -> (forall j, keeps D own st' j -> S' !! j = S !! j) ->
  held S o -> held S' o.
Proof.
  intros H Hk. induction 1 as [x r Hx|o1 j r Hh IH Hx]; [apply (held_var _ x); by rewrite Hk|].
  apply (held_member _ o1 j _ IH). rewrite Hk; [done|]. right.
  destruct (held_points _ _ IH) as (k & r' & Hk' & <-). by apply (object_of _ _ _ _ _ _ k _ H).
Qed.

Lemma held_alive B sur own D S st o : inv B sur own D S st -> held S o -> is_Some (objects st !! o).
Proof. intros H (k & r & Hk & <-)%held_points. by apply (object_of _ _ _ _ _ _ k _ H). Qed.

(** ** Releasing one pointer *)
Definition hideable (D : gset Z) (own : gmap Z Z) (S : gmap place (option Ref)) (st : Store) (k : place) : Prop :=
  (exists o i, k = Member o i /\ dying D own o) \/ S = shared st.

Lemma hidden_delete B sur own D D' S st k j v : inv B sur own D S st -> hideable D own S st k -> anchored (delete k S) D own k -> D ⊆ D' ->
  shared st !! j = Some v -> delete k S !! j = None -> anchored (delete k S) D' own j.
Proof.
  intros H Hh Ha HD Hj Hn. apply (anchored_mono _ D); [done|]. destruct (decide (j = k)) as [->|Hne]; [done|].
  rewrite lookup_delete_ne in Hn by done. pose proof (i_hidden _ _ _ _ _ _ H j v Hj Hn) as Hj'.
  destruct Hh as [(o & i & -> & Hdo)|E]; [|rewrite E in Hn; congruence].
  destruct j as [x|o' i']; [done|]. destruct Hj' as [Hd|Hj']; [by left|right]. by eapply held_delete_dying.
Qed.

Lemma release_null B sur own D S st k : inv B sur own D S st -> S !! k = Some None -> hideable D own S st k ->
  anchored (delete k S) D own k -> inv B sur own D (delete k S) st.
Proof.
  intros H Hk Hh Ha. assert (forall j v, shared st !! j = Some v -> delete k S !! j = None -> anchored (delete k S) D own j) as Hd
    by (intros j v; by apply (hidden_delete B sur own D D S st k)). destruct H. split; try done.
  - etrans; [apply delete_subseteq|done].
  - intros j r Hj. apply lookup_delete_Some in Hj as [_ Hj]. by apply (i_ref0 j).
  - intros c x Hc. destruct (i_count0 c x Hc) as [E Hb]. rewrite (refs_delete c S k None Hk), points_None in E. split; [lia|done].
Qed.

Lemma alive_set D D' st c x y c' : counts st !! c = Some x -> D' = D \/ D' = {[c]} ∪ D ->
  (0 < _sharedCount x \/ c ∈ D <-> 0 < _sharedCount y \/ c ∈ D') -> alive D' (set_counts st c y) c' <-> alive D st c'.
Proof.
  intros Hc HD Hxy. unfold alive. cbn. destruct (decide (c' = c)) as [->|Hne].
  - rewrite lookup_insert_eq, Hc. naive_solver.
  - rewrite lookup_insert_ne by done. assert (c' ∈ D' <-> c' ∈ D) as HD' by (destruct HD as [-> | ->]; set_solver).
    split; intros (z & Hz & Ha); exists z; split; try done; tauto.
Qed.

Definition zero_set (n c : Z) (D : gset Z) : gset Z := if decide (n = 0) then {[c]} ∪ D else D.

Lemma release_count B sur own D S st k r x : inv B sur own D S st -> S !! k = Some (Some r) -> hideable D own S st k ->
  anchored (delete k S) D own k -> counts st !! _counts r = Some x ->
  let n := _sharedCount x - 1 in
  inv B sur own (zero_set n (_counts r) D) (delete k S) (set_counts st (_counts r) {| _sharedCount := n; _weakCount := _weakCount x |}).
Proof.
  intros H Hk Hh Ha Hx n. set (c := _counts r) in *. set (D' := zero_set n c D).
  destruct (counts_of _ _ _ _ _ _ _ _ H Hk) as (x' & Hx' & Hp & Ho). fold c in Hx', Ho.
  assert (x' = x) as -> by congruence. assert (D' = D \/ D' = {[c]} ∪ D) as HD by (unfold D', zero_set; case_decide; auto).
  assert (D ⊆ D') as Hsub by (destruct HD as [-> | ->]; set_solver).
  assert (c ∉ D) as Hc. { intros Hc. destruct (i_dying _ _ _ _ _ _ H c Hc) as (y & Hy & Hz). assert (y = x) as -> by congruence. lia. }
  assert (n = 0 /\ c ∈ D' \/ 0 < n) as Hn.
  { unfold D', zero_set. case_decide; [left; set_solver|right; unfold n in *; lia]. }
  assert (forall c', alive D' (set_counts st c {| _sharedCount := n; _weakCount := _weakCount x |}) c' <-> alive D st c') as Hal
    by (intros c'; apply (alive_set _ _ _ _ x); [done|done|cbn; split; intros; tauto]).
  pose proof H as H0. destruct H. split; cbn.
  - etrans; [apply delete_subseteq|done].
  - intros c'. rewrite lookup_insert_is_Some. rewrite <- i_dom0. destruct (decide (c = c')) as [->|]; [|tauto]. split; [by eexists|by left].
  - intros j r' Hj. apply lookup_delete_Some in Hj as [_ Hj]. by apply (i_ref0 j).
  - done.
  - intros c' y Hy. destruct (decide (c = c')) as [<-|Hne].
    + rewrite lookup_insert_eq in Hy. injection Hy as <-. cbn. destruct (i_count0 c x Hx) as [E Hb].
      rewrite (refs_delete c S k _ Hk), points_Some, decide_True in E by done. unfold n. lia.
    + rewrite lookup_insert_ne in Hy by done. destruct (i_count0 c' y Hy) as [E Hb]. split; [|done].
      rewrite (refs_delete c' S k _ Hk), points_Some, decide_False in E by done. lia.
  - intros c' y Hy. apply lookup_insert_Some in Hy as [[<- <-]|[_ Hy]]; [by apply (i_weak0 c x)|by apply i_weak0].
  - intros c' y Hy Hl. apply lookup_insert_Some in Hy as [[<- <-]|[Hne Hy]]; [apply (i_held0 c x); auto|].
    apply (i_held0 c' y Hy). destruct Hl as [Hl|Hl]; [by left|]. destruct HD as [E|E]; rewrite E in Hl; [by right|right; set_solver].
  - done.
  - intros c' Hc'. destruct (decide (c = c')) as [<-|Hne].
    + rewrite lookup_insert_eq. eexists. split; [done|]. cbn. destruct Hn as [[? _]|Hn]; [done|].
      exfalso. unfold D', zero_set in Hc'. rewrite decide_False in Hc' by lia. done.
    + rewrite lookup_insert_ne by done. apply i_dying0. destruct HD as [E|E]; rewrite E in Hc'; set_solver.
  - intros o. rewrite i_obj0. split; intros (c' & Hl & E); exists c'; split; try done; by apply Hal.
  - intros c1 c2 o H1 H2. apply i_inj0; by apply Hal.
  - intros o m w i Hob Hd. apply (i_members0 o m w i Hob). intros (c' & Hc' & E). apply Hd. exists c'. set_solver.
  - done.
  - intros j v Hj Hn'. apply (hidden_delete B sur own D D' S st k j v); done.
Qed.

Lemma drop_hidden B sur own D S st k : inv B sur own D S st -> S !! k = None ->
  match k with Var _ => True | Member o _ => dying D own o end -> inv B sur own D S (drop_shared st k).
Proof.
  intros [] Hk Hd. split; cbn; try done.
  - apply map_subseteq_spec. intros j v Hj. rewrite lookup_delete_ne by congruence. by apply (lookup_weaken S).
  - intros o n w i Ho Hnd. rewrite lookup_delete_ne; [by apply (i_members0 o n w)|]. by intros ->.
  - intros o i [v Hv]. apply lookup_delete_Some in Hv as [_ Hv]. apply (i_home0 o i). by exists v.
  - intros j v Hj. apply lookup_delete_Some in Hj as [_ Hj]. by apply (i_hidden0 j v).
Qed.

Lemma set_weak_count B sur own D S st c x n : inv B sur own D S st -> counts st !! c = Some x ->
  refs c (weak st) <= n <= B -> (0 < _sharedCount x \/ c ∈ D -> 1 + refs c (weak st) <= n) ->
  inv B sur own D S (set_counts st c {| _sharedCount := _sharedCount x; _weakCount := n |}).
Proof.
  intros [] Hx Hn Ha. set (y := {| _sharedCount := _; _weakCount := _ |}).
  assert (forall c', alive D (set_counts st c y) c' <-> alive D st c') as Hal by (intros c'; by apply (alive_set _ _ _ _ x); auto).
  split; cbn; try done.
  - intros c'. rewrite lookup_insert_is_Some, <- i_dom0. destruct (decide (c = c')) as [->|]; [|tauto]. split; [by eexists|by left].
  - intros c' z Hz. apply lookup_insert_Some in Hz as [[<- <-]|[_ Hz]]; [by apply (i_count0 c x)|by apply i_count0].
  - intros c' z Hz. apply lookup_insert_Some in Hz as [[<- <-]|[_ Hz]]; [done|by apply i_weak0].
  - intros c' z Hz Hl. apply lookup_insert_Some in Hz as [[<- <-]|[_ Hz]]; [by apply Ha|by apply (i_held0 c' z)].
  - intros c' Hc'. destruct (i_dying0 c' Hc') as (z & Hz & E). destruct (decide (c = c')) as [<-|Hne].
    + exists y. rewrite lookup_insert_eq. split; [done|]. assert (z = x) as -> by congruence. done.
    + exists z. by rewrite lookup_insert_ne.
  - intros o. rewrite i_obj0. split; intros (c' & Hl & E); exists c'; split; try done; by apply Hal.
  - intros c1 c2 o H1 H2. apply i_inj0; by apply Hal.
Qed.

Lemma free_weak_subseteq o n : forall w, free_weak_members w o n ⊆ w.
Proof. induction n as [|n IH]; intros w; [done|]. cbn. etrans; [apply IH|apply delete_subseteq]. Qed.

Lemma forget_object B sur own D S st c o n w : inv B sur own ({[c]} ∪ D) S st -> c ∉ D -> own !! c = Some o ->
  objects st !! o = Some (n, w) -> (forall i, shared st !! Member o i = None) ->
  inv B sur own D S {| objects := delete o (objects st); counts := counts st; shared := shared st; weak := free_weak_members (weak st) o w |}.
Proof.
  intros [] Hc Ho Hob Hnone. destruct (i_dying0 c) as (x & Hx & Hz); [set_solver|].
  set (st' := {| objects := _; counts := _; shared := _; weak := _ |}). pose proof (free_weak_subseteq o w (weak st)) as Hw.
  assert (forall c', alive D st' c' <-> alive ({[c]} ∪ D) st c' /\ c' <> c) as Hal.
  { intros c'. unfold alive. cbn. split.
    - intros (y & Hy & Hl). split; [exists y; split; [done|set_solver]|]. intros ->. assert (y = x) as -> by congruence. destruct Hl; [lia|done].
    - intros [(y & Hy & Hl) Hne]. exists y. split; [done|set_solver]. }
  assert (alive ({[c]} ∪ D) st c) as Hac by (exists x; split; [done|set_solver]).
  split; cbn; try done.
  - intros k r Hk. apply (i_wref0 k). by apply (lookup_weaken (free_weak_members (weak st) o w)).
  - intros c' y Hy. destruct (i_weak0 c' y Hy). split; [|done]. pose proof (refs_subseteq c' _ _ Hw). lia.
  - intros c' y Hy Hl. pose proof (refs_subseteq c' _ _ Hw). assert (1 + refs c' (weak st) <= _weakCount y); [|lia].
    apply (i_held0 c' y Hy). destruct Hl; [by left|right; set_solver].
  - intros c' Hc'. apply i_dying0. set_solver.
  - intros o'. rewrite lookup_delete_is_Some, i_obj0. split.
    + intros (Hne & c' & Hl & E). exists c'. split; [|done]. apply Hal. split; [done|]. intros ->. congruence.
    + intros (c' & Hl & E). apply Hal in Hl as [Hl Hne]. split; [|by exists c']. intros ->. by destruct Hne; apply (i_inj0 _ _ o').
  - intros c1 c2 o' H1 H2. apply Hal in H1 as [H1 _]. apply Hal in H2 as [H2 _]. by apply i_inj0.
  - intros o' n' w' i Ho' Hnd. apply lookup_delete_Some in Ho' as [Hne Ho']. apply (i_members0 o' n' w'); [done|].
    intros (c' & Hc' & E). destruct (decide (c' = c)) as [->|]; [congruence|]. apply Hnd. exists c'. set_solver.
  - intros o' i Hi. rewrite lookup_delete_is_Some. split; [|by apply (i_home0 o' i)]. intros <-. rewrite Hnone in Hi. by destruct Hi.
  - intros k v Hk Hn. pose proof (i_hidden0 k v Hk Hn) as Ha. destruct k as [y|o' i]; [done|].
    destruct Ha as [(c' & Hc' & E)|Ha]; [|by right]. left. exists c'. split; [|done].
    destruct (decide (c' = c)) as [->|]; [|set_solver]. assert (o' = o) as -> by congruence. by rewrite Hnone in Hk.
Qed.

(** ** Releasing a pointer with all that follows *)
Definition releases (fuel : nat) : Prop := forall B sur own D S st k v, B < 2 ^ 31 -> inv B sur own D S st -> S !! k = Some v ->
  hideable D own S st k -> anchored (delete k S) D own k -> (positives st < fuel)%nat ->
  exists S' st', Release fuel st k = Ok st' /\ inv B sur own D S' st' /\ frame (fun _ => False) D own (delete k S) st S' st'.

Definition member_of (o : Z) (j : place) : Prop := exists i, j = Member o i.

Lemma destroy_members_spec fuel : releases fuel -> forall n B sur own D S st o, B < 2 ^ 31 -> inv B sur own D S st -> dying D own o ->
  (forall i, (i < n)%nat -> is_Some (S !! Member o i)) -> (forall i, is_Some (shared st !! Member o i) -> (i < n)%nat) ->
  (positives st < fuel)%nat ->
  exists S' st', destroy_members (Release fuel) st o n = Ok st' /\ inv B sur own D S' st' /\
    (forall i, shared st' !! Member o i = None) /\ frame (member_of o) D own S st S' st'.
Proof.
  intros HR. induction n as [|n IH]; intros B sur own D S st o HB Hi Hd Hex Hlt Hf; cbn [destroy_members].
  { exists S, st. split; [done|]. split; [done|]. split; [|apply frame_refl]. intros i. apply eq_None_not_Some. intros Hs. specialize (Hlt i Hs). lia. }
  destruct (Hex n) as [v Hv]; [lia|].
  destruct (HR B sur own D S st (Member o n) v) as (S1 & st1 & E1 & Hi1 & [F1 F2 F3 F4 F5]); [done|done|done|left; by exists o, n|by left|done|].
  step_to E1. assert (S1 !! Member o n = None) as Hn1.
  { destruct (S1 !! Member o n) as [u|] eqn:E; [|done]. apply (lookup_weaken _ _ _ _ E) in F1. by rewrite lookup_delete_eq in F1. }
  destruct (IH B sur own D S1 (drop_shared st1 (Member o n)) o) as (S2 & st2 & E2 & Hi2 & Hnone & F); [done|by apply drop_hidden|done| | | |].
  - intros i Hlti. destruct (F5 (Member o i)) as [_ ->]; [tauto|by left|]. rewrite lookup_delete_ne by (intros E; injection E; lia). apply Hex. lia.
  - intros i [u Hu]. cbn in Hu. apply lookup_delete_Some in Hu as [Hne Hu].
    assert (i <> n) by congruence. assert (i < Datatypes.S n)%nat; [|lia]. apply Hlt. exists u. by apply (lookup_weaken (shared st1)).
  - change (positives (drop_shared st1 (Member o n))) with (positives st1). lia.
  - exists S2, st2. split; [done|]. split; [done|]. split; [done|]. apply (frame_trans _ _ _ _ _ S1 (drop_shared st1 (Member o n))); [|done].
    split; cbn; [|etrans; [apply delete_subseteq|done]|done|done|].
    + etrans; [apply F1|apply delete_subseteq].
    + intros j Hj Hk. assert (j <> Member o n) as Hne by (intros ->; apply Hj; by exists n).
      rewrite lookup_delete_ne by done. destruct (F5 j) as [-> ->]; [tauto|done|]. by rewrite lookup_delete_ne.
Qed.

Lemma releases_all fuel : releases fuel.
Proof.
  induction fuel as [|fuel IH]; intros B sur own D S st k v HB Hi Hk Hh Ha Hf; [lia|]. cbn [Release].
  rewrite (lookup_weaken _ _ _ _ Hk (i_sub _ _ _ _ _ _ Hi)). cbn [in_bounds mbind outcome_bind]. destruct v as [r|].
  2: { exists (delete k S), st. split; [done|]. split; [by apply release_null|apply frame_refl]. }
  destruct (counts_of _ _ _ _ _ _ _ _ Hi Hk) as (x & Hx & Hp & Ho). rewrite Hx. cbn [in_bounds mbind outcome_bind].
  pose proof (i_count _ _ _ _ _ _ Hi _ x Hx) as [_ Hb]. rewrite swrap_small by lia.
  pose proof (release_count B sur own D S st k r x Hi Hk Hh Ha Hx) as Hi1. cbn zeta in Hi1. unfold zero_set in Hi1.
  set (c := _counts r) in *. set (st1 := set_counts st c _) in *.
  destruct (Z.eqb_spec (_sharedCount x - 1) 0) as [E0|E0].
  2: { rewrite decide_False in Hi1 by done. exists (delete k S), st1. split; [done|]. split; [done|].
       split; [done..| |done]. apply (positives_set st c x); [done|]. cbn. lia. }
  rewrite decide_True in Hi1 by done. set (o := _data r) in *.
  assert (c ∉ D) as Hc. { intros Hc. destruct (i_dying _ _ _ _ _ _ Hi c Hc) as (y & Hy & Hz). assert (y = x) as -> by congruence. lia. }
  destruct (object_of _ _ _ _ _ _ _ _ Hi Hk) as [[n w] Hob]. fold o in Hob.
  unfold delete_object. change (objects st1) with (objects st). rewrite Hob. cbn [in_bounds mbind outcome_bind].
  assert (dying ({[c]} ∪ D) own o) as Hd by (exists c; split; [set_solver|done]).
  pose proof (not_dying _ _ _ _ _ _ _ _ Hi Hk) as Hnd. fold o in Hnd.
  destruct (destroy_members_spec fuel IH n B sur own ({[c]} ∪ D) (delete k S) st1 o) as (S2 & st2 & E2 & Hi2 & Hnone & F2); [done|done|done| | | |].
  { intros i Hlt. destruct (proj2 (i_members _ _ _ _ _ _ Hi o n w i Hob Hnd) Hlt) as [u Hu].
    destruct (delete k S !! Member o i) as [u'|] eqn:E; [by eexists|exfalso].
    destruct (hidden_delete _ _ _ _ D _ _ k _ u Hi Hh Ha ltac:(done) Hu E) as [Hd'|(z & r' & Hz & Hr')%held_points]; [done|].
    destruct (counts_of _ _ _ _ _ _ _ _ Hi1 Hz) as (y & Hy & Hpy & Hoy). rewrite Hr' in Hoy.
    assert (_counts r' = c) as Ec.
    { apply (i_inj _ _ _ _ _ _ Hi1 _ _ o); [exists y; auto| |done|done]. eexists. split; [apply lookup_insert_eq|right; set_solver]. }
    rewrite Ec in Hy. cbn in Hy. rewrite lookup_insert_eq in Hy. injection Hy as <-. cbn in Hpy. lia. }
  { intros i Hs. by apply (i_members _ _ _ _ _ _ Hi o n w i Hob Hnd). }
  { assert (positives st = Datatypes.S (positives st1)); [|lia]. apply (positives_zero st c x); done. }
  step_to E2. set (st3 := {| objects := _; counts := _; shared := _; weak := _ |}).
  pose proof F2 as [F2a F2b F2c F2d F2e].
  assert (objects st2 !! o = Some (n, w)) as Hob2.
  { assert (is_Some (objects st2 !! o)) as [y Hy].
    { apply (i_obj _ _ _ _ _ _ Hi2). exists c. split; [|done]. destruct (i_dying _ _ _ _ _ _ Hi2 c) as (y & Hy & _); [set_solver|]. exists y. set_solver. }
    pose proof (lookup_weaken _ _ _ _ Hy F2c) as Hy'. cbn in Hy'. congruence. }
  pose proof (forget_object B sur own D S2 st2 c o n w Hi2 Hc Ho Hob2 Hnone) as Hi3. fold st3 in Hi3.
  assert (frame (fun _ => False) D own (delete k S) st S2 st3) as F3.
  { split; [done..| | |].
    - cbn. etrans; [apply delete_subseteq|done].
    - assert (positives st = Datatypes.S (positives st1)) by (apply (positives_zero st c x); done). change (positives st3) with (positives st2). lia.
    - intros j _ Hj. cbn. apply F2e.
      + intros [i ->]. destruct Hj as [Hj|Hj]; [done|]. cbn in Hj. rewrite lookup_delete_eq in Hj. by destruct Hj.
      + apply (keeps_mono D _ own st3); [set_solver|apply delete_subseteq|done]. }
  assert (shared st3 !! k = Some (Some r)) as Hk3.
  { rewrite <- (lookup_weaken _ _ _ _ Hk (i_sub _ _ _ _ _ _ Hi)). apply (f_keep _ _ _ _ _ _ _ F3); [tauto|].
    destruct k as [z|o' i]; [done|]. destruct Ha as [Hd'|Ha]; [by left|right]. apply (held_alive _ _ _ _ _ _ _ Hi3).
    apply (held_kept _ _ _ _ _ _ _ _ Hi3 (fun j => fun Hj => proj2 (f_keep _ _ _ _ _ _ _ F3 j (fun f => f) Hj)) Ha). }
  rewrite (bind_Ok _ _ st3 eq_refl), Hk3. cbn [in_bounds deref mbind outcome_bind]. fold c.
  destruct (i_dying _ _ _ _ _ _ Hi2 c) as (y & Hy & Hzy); [set_solver|]. change (counts st3) with (counts st2). rewrite Hy. cbn [in_bounds mbind outcome_bind].
  pose proof (i_held _ _ _ _ _ _ Hi2 c y Hy ltac:(right; set_solver)) as Hw. pose proof (i_weak _ _ _ _ _ _ Hi2 c y Hy) as Hw'.
  pose proof (refs_subseteq c (weak st3) (weak st2) (free_weak_subseteq o w (weak st2))) as Hle. pose proof (refs_nonneg c (weak st3)).
  rewrite swrap_small by lia. eexists S2, _. split; [done|]. split.
  - apply (set_weak_count B sur own D S2 st3 c y); [done|done|lia|lia || (intros [?|?]; [lia|done])].
  - apply (frame_trans _ _ _ _ _ S2 st3); [done|]. split; [done..| |done]. apply (positives_set st3 c y); [done|]. cbn. lia.
Qed.

Lemma release_spec B sur own D S st k v : B < 2 ^ 31 -> inv B sur own D S st -> S !! k = Some v ->
  hideable D own S st k -> anchored (delete k S) D own k ->
  exists S' st', release st k = Ok st' /\ inv B sur own D S' st' /\ frame (fun _ => False) D own (delete k S) st S' st'.
Proof.
  intros HB Hi Hk Hh Ha. unfold release. apply (releases_all _ B sur own D S st k v); try done.
  unfold positives. pose proof (map_size_filter (fun kv : Z * Counts => 0 < _sharedCount kv.2) (counts st)). lia.
Qed.

(** ** Operations when every pointer counts *)
Definition top (B : Z) (sur : Z -> Z) (own : gmap Z Z) (st : Store) : Prop := inv B sur own ∅ (shared st) st.

Lemma alive_top st c : alive ∅ st c <-> exists x, counts st !! c = Some x /\ 0 < _sharedCount x.
Proof. unfold alive. set_solver. Qed.

Lemma inv_weaken B B' sur sur' own D S st : B <= B' -> (forall c, sur c = sur' c) -> inv B sur own D S st -> inv B' sur' own D S st.
Proof.
  intros HB Hs []. split; try done.
  - intros c x Hx. rewrite <- Hs. destruct (i_count0 c x Hx). lia.
  - intros c x Hx. specialize (i_weak0 c x Hx). lia.
  - intros c. by rewrite <- Hs.
Qed.

(** A pointer more or less for a value, and a count more or less. *)
Definition bump (sur : Z -> Z) (v : option Ref) (d : Z) : Z -> Z := fun c => sur c + d * points c v.

Lemma count_up B sur own S st c x r : inv B sur own ∅ S st -> _counts r = c -> counts st !! c = Some x -> 0 < _sharedCount x -> 0 <= B ->
  inv (B + 1) (bump sur (Some r) 1) own ∅ S (set_counts st c {| _sharedCount := _sharedCount x + 1; _weakCount := _weakCount x |}).
Proof.
  intros [] Hr Hx Hp HB. set (y := {| _sharedCount := _; _weakCount := _ |}).
  assert (forall c', alive ∅ (set_counts st c y) c' <-> alive ∅ st c') as Hal.
  { intros c'. apply (alive_set _ _ _ _ x); [done|by left|]. cbn. split; intros _; left; lia. }
  split; cbn; try done.
  - intros c'. rewrite lookup_insert_is_Some, <- i_dom0. destruct (decide (c = c')) as [->|]; [|tauto]. split; [by eexists|by left].
  - intros c' z Hz. unfold bump. rewrite points_Some, Hr. destruct (decide (c = c')) as [<-|Hne].
    + rewrite lookup_insert_eq in Hz. injection Hz as <-. cbn. destruct (i_count0 c x Hx). lia.
    + rewrite lookup_insert_ne in Hz by done. destruct (i_count0 c' z Hz). lia.
  - intros c' z Hz. apply lookup_insert_Some in Hz as [[<- <-]|[_ Hz]]; [destruct (i_weak0 c x Hx); cbn; lia|destruct (i_weak0 c' z Hz); lia].
  - intros c' z Hz Hl. apply lookup_insert_Some in Hz as [[<- <-]|[_ Hz]]; [apply (i_held0 c x Hx); by left|by apply (i_held0 c' z)].
  - intros c'. unfold bump. pose proof (points_range c' (Some r)). specialize (i_sur0 c'). lia.
  - intros o. rewrite i_obj0. split; intros (c' & Hl & E); exists c'; split; try done; by apply Hal.
  - intros c1 c2 o H1 H2. apply i_inj0; by apply Hal.
Qed.

Definition same_but_counts (st st' : Store) : Prop := objects st' = objects st /\ shared st' = shared st /\ weak st' = weak st.

Lemma increment_spec B sur own S st r x : inv B sur own ∅ S st -> counts st !! _counts r = Some x -> 0 < _sharedCount x -> 0 <= B < 2 ^ 31 - 1 ->
  exists st', increment_shared st (_counts r) = Ok st' /\ inv (B + 1) (bump sur (Some r) 1) own ∅ S st' /\ same_but_counts st st' /\
    (forall c, is_Some (counts st' !! c) <-> is_Some (counts st !! c)).
Proof.
  intros Hi Hx Hp HB. unfold increment_shared. rewrite Hx. cbn [in_bounds mbind outcome_bind].
  destruct (i_count _ _ _ _ _ _ Hi _ x Hx) as [_ Hb]. rewrite swrap_small by lia. eexists. split; [done|].
  split; [apply count_up; done || lia|]. split; [done|]. intros c. cbn. rewrite lookup_insert_is_Some.
  destruct (decide (_counts r = c)) as [<-|]; [|tauto]. split; [by eexists|by left].
Qed.

Lemma Hold_spec B sur own S st k v : inv B sur own ∅ S st -> S !! k = Some v -> 0 <= B < 2 ^ 31 - 1 ->
  exists st', Hold st v = Ok st' /\ inv (B + 1) (bump sur v 1) own ∅ S st' /\ same_but_counts st st'.
Proof.
  intros Hi Hk HB. destruct v as [r|].
  - destruct (counts_of _ _ _ _ _ _ _ _ Hi Hk) as (x & Hx & Hp & _).
    destruct (increment_spec B sur own S st r x Hi Hx Hp HB) as (st' & E & Hi' & Hs & _). by exists st'.
  - exists st. split; [done|]. split; [|done]. apply (inv_weaken B _ sur); [lia| |done]. intros c. unfold bump. rewrite points_None. lia.
Qed.

(** A pointer that did not count gets a value that is counted already. *)
Lemma show B sur own S st k v : inv B sur own ∅ S st -> S !! k = None ->
  match k with Var _ => True | _ => is_Some (shared st !! k) end ->
  (forall r, v = Some r -> own !! _counts r = Some (_data r) /\ 1 <= sur (_counts r)) ->
  inv B (bump sur v (-1)) own ∅ (<[k := v]> S) (set_shared st k v).
Proof.
  intros [] Hk Hex Hv. split; cbn; try done.
  - by apply insert_mono.
  - intros j r Hj. apply lookup_insert_Some in Hj as [[_ E]|[_ Hj]]; [by apply Hv|by apply (i_ref0 j)].
  - intros c x Hx. rewrite (refs_insert c S k v Hk). unfold bump. destruct (i_count0 c x Hx). lia.
  - intros c. unfold bump. specialize (i_sur0 c). destruct v as [r|]; [|rewrite points_None; lia].
    rewrite points_Some. destruct (Hv r eq_refl) as [_ Hr]. case_decide as E; [rewrite E in Hr; lia|lia].
  - intros o n w i Ho Hd. rewrite <- (i_members0 o n w i Ho Hd). destruct (decide (k = Member o i)) as [->|].
    + rewrite lookup_insert_eq. split; [done|by eexists].
    + by rewrite lookup_insert_ne.
  - intros o i Hs. apply (i_home0 o i). destruct (decide (k = Member o i)) as [->|]; [done|by rewrite lookup_insert_ne in Hs].
  - intros j u Hj Hn. apply lookup_insert_None in Hn as [Hn Hne]. rewrite lookup_insert_ne in Hj by done.
    pose proof (i_hidden0 j u Hj Hn) as Ha. destruct j as [z|o i]; [done|]. destruct Ha as [Ha|Ha]; [by left|right].
    apply (held_mono S); [by apply insert_subseteq|done].
Qed.

Lemma release_top B sur own st k v : B < 2 ^ 31 -> top B sur own st -> shared st !! k = Some v ->
  anchored (delete k (shared st)) ∅ own k ->
  exists st', release st k = Ok st' /\ inv B sur own ∅ (delete k (shared st')) st' /\ shared st' !! k = Some v /\
    (forall j, keeps ∅ own st' j -> shared st' !! j = shared st !! j).
Proof.
  intros HB Hi Hk Ha. destruct (release_spec B sur own ∅ (shared st) st k v) as (S' & st' & E & Hi' & F); [done|done|done|by right|done|].
  exists st'. split; [done|]. pose proof (fun j => f_keep _ _ _ _ _ _ _ F j (fun x => x)) as Hkeep.
  assert (keeps ∅ own st' k) as Hkk.
  { destruct k as [z|o i]; [done|]. destruct Ha as [Hd|Ha]; [by left|right]. apply (held_alive _ _ _ _ _ _ _ Hi').
    by apply (held_kept _ _ _ _ _ _ _ _ Hi' (fun j Hj => proj2 (Hkeep j Hj))). }
  assert (S' = delete k (shared st')) as <-; [|split; [done|]; split; [by rewrite (proj1 (Hkeep k Hkk))|intros j Hj; apply (Hkeep j Hj)]].
  apply map_eq. intros j. destruct (decide (j = k)) as [->|Hne].
  { by rewrite lookup_delete_eq, (proj2 (Hkeep k Hkk)), lookup_delete_eq. }
  rewrite lookup_delete_ne by done. destruct (shared st' !! j) as [u|] eqn:Ej.
  - assert (keeps ∅ own st' j) as Hj. { destruct j as [z|o i]; [done|]. right. apply (i_home _ _ _ _ _ _ Hi' o i). by exists u. }
    destruct (Hkeep j Hj) as [E1 ->]. rewrite lookup_delete_ne by done. congruence.
  - apply eq_None_not_Some. intros [u Hu]. pose proof (lookup_weaken _ _ _ _ Hu (i_sub _ _ _ _ _ _ Hi')). congruence.
Qed.

Lemma write_top B sur own st k v u : inv B sur own ∅ (delete k (shared st)) st -> shared st !! k = Some u ->
  (forall r, v = Some r -> own !! _counts r = Some (_data r) /\ 1 <= sur (_counts r)) ->
  exists st', write st k v = Ok st' /\ top B (bump sur v (-1)) own st'.
Proof.
  intros Hi Hk Hv. unfold write. rewrite Hk. eexists. split; [done|].
  pose proof (show B sur own (delete k (shared st)) st k v Hi (lookup_delete_eq _ _) ltac:(destruct k; [done|by eexists]) Hv) as Hs.
  unfold top. cbn. by rewrite insert_delete_eq in Hs.
Qed.

Lemma bump_back sur v c : bump (bump sur v 1) v (-1) c = sur c.
Proof. unfold bump. lia. Qed.

Lemma hidden_new B sur own S st x v : inv B sur own ∅ S st -> S !! Var x = None -> inv B sur own ∅ S (set_shared st (Var x) v).
Proof.
  intros [] Hx. split; cbn; try done.
  - apply map_subseteq_spec. intros j u Hj. rewrite lookup_insert_ne by congruence. by apply (lookup_weaken S).
  - intros o n w i. rewrite lookup_insert_ne by done. apply i_members0.
  - intros o i. rewrite lookup_insert_ne by done. apply i_home0.
  - intros j u Hj Hn. destruct (decide (j = Var x)) as [->|Hne]; [done|]. rewrite lookup_insert_ne in Hj by done. by apply (i_hidden0 j u).
Qed.

Lemma hide_value B sur own S st k v : inv B sur own ∅ S st -> S !! k = Some v -> hideable ∅ own S st k ->
  anchored (delete k S) ∅ own k -> inv B (bump sur v 1) own ∅ (delete k S) st.
Proof.
  intros H Hk Hh Ha. assert (forall j u, shared st !! j = Some u -> delete k S !! j = None -> anchored (delete k S) ∅ own j) as Hd
    by (intros j u; by apply (hidden_delete B sur own ∅ ∅ S st k)). destruct H. split; try done.
  - etrans; [apply delete_subseteq|done].
  - intros j r Hj. apply lookup_delete_Some in Hj as [_ Hj]. by apply (i_ref0 j).
  - intros c x Hc. destruct (i_count0 c x Hc) as [E Hb]. rewrite (refs_delete c S k v Hk) in E. unfold bump. lia.
  - intros c. unfold bump. pose proof (points_range c v). specialize (i_sur0 c). lia.
Qed.

Lemma set_shared_id st k v : shared st !! k = Some v -> set_shared st k v = st.
Proof. intros Hk. destruct st. unfold set_shared. cbn in *. by rewrite insert_id. Qed.

(** A new variable with a value that is counted. *)
Lemma show_new B sur own st x v : top B sur own st -> shared st !! Var x = None ->
  (forall r, v = Some r -> own !! _counts r = Some (_data r) /\ 1 <= sur (_counts r)) -> top B (bump sur v (-1)) own (set_shared st (Var x) v).
Proof. intros Hi Hx Hv. by apply show. Qed.

(** The new variable was there before its value was counted. *)
Lemma show_late B sur own st st' x v : inv B sur own ∅ (shared st) st' -> shared st !! Var x = None -> shared st' = <[Var x := v]> (shared st) ->
  (forall r, v = Some r -> own !! _counts r = Some (_data r) /\ 1 <= sur (_counts r)) -> top B (bump sur v (-1)) own st'.
Proof.
  intros Hi Hx Hs Hv. pose proof (show B sur own (shared st) st' (Var x) v Hi Hx I Hv) as H.
  rewrite set_shared_id in H by (rewrite Hs; apply lookup_insert_eq). unfold top. by rewrite Hs.
Qed.

Lemma counted B sur own D S st k r : inv B sur own D S st -> S !! k = Some (Some r) -> own !! _counts r = Some (_data r) /\ 1 <= bump sur (Some r) 1 (_counts r).
Proof.
  intros Hi Hk. split; [by apply (i_ref _ _ _ _ _ _ Hi k)|]. unfold bump. rewrite points_Some, decide_True by done.
  pose proof (i_sur _ _ _ _ _ _ Hi (_counts r)). lia.
Qed.

Definition Inv (casts : bool) (B : Z) (st : Store) : Prop :=
  0 <= B /\ exists own sur, top B sur own st /\ (casts = false -> forall c, sur c = 0).

Lemma Inv_intro casts B sur own st sur' : 0 <= B -> top B sur' own st -> (forall c, sur' c = sur c) -> (casts = false -> forall c, sur c = 0) -> Inv casts B st.
Proof. intros HB Hi Hs Hc. split; [done|]. exists own, sur. split; [|done]. by apply (inv_weaken B _ sur'). Qed.

Lemma copy_construct_spec casts B st x src v : Inv casts B st -> B < 2 ^ 31 - 1 -> shared st !! src = Some v -> shared st !! Var x = None ->
  exists st', copy_construct st (Var x) src = Ok st' /\ Inv casts (B + 1) st' /\
    shared st' = <[Var x := v]> (shared st) /\ weak st' = weak st /\ objects st' = objects st.
Proof.
  intros (HB0 & own & sur & Hi & Hc) HB Hsrc Hx. unfold copy_construct. rewrite Hsrc. cbn [in_bounds mbind outcome_bind].
  destruct (Hold_spec B sur own (shared st) (set_shared st (Var x) v) src v) as (st' & E & Hi' & Ho & Hs & Hw); [by apply hidden_new|done|lia|].
  exists st'. split; [done|]. split; [|done]. apply (Inv_intro _ _ sur own _ (bump (bump sur v 1) v (-1))); [lia| |apply bump_back|done].
  apply (show_late _ _ _ st _ x); [done..|]. intros r ->. by apply (counted _ _ _ _ _ _ _ _ Hi Hsrc).
Qed.

Lemma release_Inv casts B st k v : Inv casts B st -> B < 2 ^ 31 -> shared st !! k = Some v ->
  (forall own, anchored (delete k (shared st)) ∅ own k) ->
  exists st' own sur, release st k = Ok st' /\ inv B sur own ∅ (delete k (shared st')) st' /\ shared st' !! k = Some v /\
    (forall j, keeps ∅ own st' j -> shared st' !! j = shared st !! j) /\ (casts = false -> forall c, sur c = 0).
Proof.
  intros (HB0 & own & sur & Hi & Hc) HB Hk Ha. destruct (release_top B sur own st k v HB Hi Hk (Ha own)) as (st' & E & Hi' & Hk' & Hf).
  by exists st', own, sur.
Qed.

Lemma destroy_spec casts B st x v : Inv casts B st -> B < 2 ^ 31 -> shared st !! Var x = Some v ->
  exists st', destroy st (Var x) = Ok st' /\ Inv casts B st' /\ shared st' !! Var x = None.
Proof.
  intros HI HB Hx. destruct (release_Inv casts B st (Var x) v HI HB Hx) as (st1 & own & sur & E & Hi & Hk & _ & Hc); [done|].
  unfold destroy. step_to E. eexists. split; [done|]. split; [|apply lookup_delete_eq]. split; [apply HI|]. exists own, sur. split; [|done].
  unfold top. cbn. apply drop_hidden; [done|apply lookup_delete_eq|done].
Qed.

Lemma assign_null_spec casts B st k v : Inv casts B st -> B < 2 ^ 31 -> shared st !! k = Some v ->
  (forall own, anchored (delete k (shared st)) ∅ own k) -> exists st', assign_null st k = Ok st' /\ Inv casts B st'.
Proof.
  intros HI HB Hk Ha. destruct (release_Inv casts B st k v HI HB Hk Ha) as (st1 & own & sur & E & Hi & Hk1 & _ & Hc).
  unfold assign_null. step_to E. destruct (write_top B sur own st1 k None v Hi Hk1) as (st2 & E2 & Hi2); [done|].
  exists st2. split; [done|]. split; [apply HI|]. exists own, (bump sur None (-1)). split; [done|].
  intros Hn c. unfold bump. rewrite points_None, Hc by done. lia.
Qed.

(** What a path leads to is held. *)
Lemma resolve_held st p o i : resolve st p = Ok (Member o i) -> held (shared st) o.
Proof.
  revert o i. induction p as [x|p IH i']; intros o i; cbn [resolve]; [done|].
  intros (k & Ek & (v & Ev & (r & Er & [= <- <-])%bind_Ok_inv)%bind_Ok_inv)%bind_Ok_inv.
  destruct v as [r'|]; cbn in Er; [injection Er as ->|done].
  destruct (shared st !! k) as [v'|] eqn:Hk; cbn in Ev; [injection Ev as ->|done].
  destruct k as [x|o1 i1]; [by apply (held_var _ x)|]. by apply (held_member _ o1 i1 _ (IH _ _ Ek)).
Qed.

Lemma resolve_anchored st p k own : resolve st p = Ok k -> anchored (delete k (shared st)) ∅ own k.
Proof.
  destruct k as [x|o i]; [done|]. intros E%resolve_held. right. by destruct (held_without _ o i _ E).
Qed.

Lemma apart_anchored st j k own : apart st j k -> anchored (delete j (shared st)) ∅ own k.
Proof. intros [q E]. destruct k as [x|o i]; [done|]. right. by apply resolve_held in E. Qed.

Lemma is_shared_spec st p : is_shared st p = true -> exists k v, resolve st p = Ok k /\ shared st !! k = Some v.
Proof.
  unfold is_shared. destruct (resolve st p) as [k|] eqn:E; [|done]. intros [v Hv]%bool_decide_eq_true. by exists k, v.
Qed.

Lemma is_weak_spec st p : is_weak st p = true -> exists k v, resolve st p = Ok k /\ weak st !! k = Some v.
Proof. unfold is_weak. destruct (resolve st p) as [k|] eqn:E; [|done]. intros [v Hv]%bool_decide_eq_true. by exists k, v. Qed.

Lemma move_construct_spec casts B st x src v : Inv casts B st -> B < 2 ^ 31 -> shared st !! src = Some v -> shared st !! Var x = None ->
  (forall own, anchored (delete src (shared st)) ∅ own src) ->
  exists st', move_construct st (Var x) src = Ok st' /\ Inv casts B st'.
Proof.
  intros (HB0 & own & sur & Hi & Hc) HB Hsrc Hx Ha. unfold move_construct. rewrite Hsrc. cbn [in_bounds mbind outcome_bind].
  assert (src <> Var x) as Hne by congruence.
  unfold write. cbn. rewrite lookup_insert_ne, Hsrc by done. eexists. split; [done|].
  pose proof (hide_value B sur own _ st src v Hi Hsrc ltac:(by right) (Ha own)) as H1.
  assert (delete src (shared st) !! Var x = None) as Hx1 by by rewrite lookup_delete_ne.
  pose proof (show _ _ _ _ _ (Var x) v H1 Hx1 I) as H2. specialize (H2 ltac:(intros r ->; by apply (counted _ _ _ _ _ _ _ _ Hi Hsrc))).
  assert (<[Var x := v]> (delete src (shared st)) !! src = None) as Hs1 by by rewrite lookup_insert_ne, lookup_delete_eq.
  pose proof (show _ _ _ _ _ src None H2 Hs1) as H3. cbn in H3. rewrite lookup_insert_ne, Hsrc in H3 by done.
  specialize (H3 ltac:(by destruct src) ltac:(done)).
  apply (Inv_intro _ _ sur own _ (bump (bump (bump sur v 1) v (-1)) None (-1))); [done| |intros c; unfold bump; rewrite points_None; lia|done].
  unfold top. cbn. replace (<[src:=None]> (<[Var x:=v]> (shared st))) with (<[src:=None]> (<[Var x:=v]> (delete src (shared st)))); [done|].
  apply map_eq. intros j. destruct (decide (j = src)) as [->|]; [by rewrite !lookup_insert_eq|]. rewrite !(lookup_insert_ne _ src) by done.
  destruct (decide (j = Var x)) as [->|]; [by rewrite !lookup_insert_eq|]. by rewrite !lookup_insert_ne, lookup_delete_ne by done.
Qed.

(** A pointer that is held without the one released outlives the release. *)
Lemma src_survives B sur own st st' j k v : inv B sur own ∅ (delete j (shared st')) st' ->
  anchored (delete j (shared st)) ∅ own k -> shared st !! k = Some v ->
  (forall l, keeps ∅ own st' l -> shared st' !! l = shared st !! l) -> shared st' !! k = Some v.
Proof.
  intros Hi Ha Hk Hf. rewrite Hf; [done|]. destruct k as [x|o i]; [done|]. destruct Ha as [Hd|Ha]; [by left|right].
  apply (held_alive _ _ _ _ _ _ _ Hi). apply (held_kept _ _ _ _ _ _ _ _ Hi) with (2 := Ha). intros l Hl.
  destruct (decide (l = j)) as [->|Hne]; [by rewrite !lookup_delete_eq|]. rewrite !lookup_delete_ne by done. by apply Hf.
Qed.

Lemma assign_spec casts B st dst j u k v : Inv casts B st -> B < 2 ^ 31 - 1 -> resolve st dst = Ok j -> apart st j k ->
  shared st !! j = Some u -> shared st !! k = Some v ->
  exists st', assign st j k = Ok st' /\ Inv casts (B + 1) st'.
Proof.
  intros (HB0 & own & sur & Hi & Hc) HB Hd Hs Hj Hk. unfold assign. rewrite Hk. cbn [in_bounds mbind outcome_bind].
  destruct (Hold_spec B sur own (shared st) st k v Hi Hk ltac:(lia)) as (st1 & E1 & Hi1 & _ & Hs1 & _). step_to E1.
  assert (top (B + 1) (bump sur v 1) own st1) as Ht1 by (unfold top; by rewrite Hs1).
  apply (resolve_anchored _ _ _ own) in Hd. apply (apart_anchored _ _ _ own) in Hs. rewrite <- Hs1 in Hj, Hk, Hd, Hs.
  destruct (release_top (B + 1) _ own st1 j u ltac:(lia) Ht1 Hj Hd) as (st2 & E2 & Hi2 & Hj2 & Hf). step_to E2.
  rewrite (src_survives _ _ _ _ _ j k v Hi2 Hs Hk Hf). cbn [in_bounds mbind outcome_bind].
  destruct (write_top (B + 1) _ own st2 j v u Hi2 Hj2) as (st3 & E3 & Hi3).
  { intros r ->. apply (counted B sur own ∅ (shared st) st k r Hi). by rewrite <- Hs1. }
  exists st3. split; [done|]. apply (Inv_intro _ _ sur own _ (bump (bump sur v 1) v (-1))); [lia|exact Hi3|apply bump_back|done].
Qed.

Lemma cast_spec casts B st x src v ok : Inv casts B st -> B < 2 ^ 31 - 2 -> shared st !! src = Some v -> shared st !! Var x = None ->
  exists st', cast st (Var x) src ok = Ok st' /\ Inv true (B + 2) st'.
Proof.
  intros (HB0 & own & sur & Hi & Hc) HB Hsrc Hx. unfold cast. rewrite Hsrc. cbn [in_bounds mbind outcome_bind].
  assert (exists st', Ok (set_shared st (Var x) None) = Ok st' /\ Inv true (B + 2) st') as Hnull.
  { eexists. split; [done|]. split; [lia|]. exists own, (bump sur None (-1)). split; [|done]. apply (inv_weaken B _ (bump sur None (-1))); [lia|done|].
    by apply (show_new B). }
  destruct v as [r|]; [|done]. destruct ok; [|done].
  destruct (Hold_spec B sur own (shared st) st src (Some r) Hi Hsrc ltac:(lia)) as (st1 & E1 & Hi1 & _ & Hs1 & _). step_to E1.
  assert (inv (B + 1) (bump sur (Some r) 1) own ∅ (shared st) (set_shared st1 (Var x) (Some r))) as Hi2 by by apply hidden_new.
  destruct (counts_of _ _ _ _ _ _ _ _ Hi2 Hsrc) as (y & Hy & Hp & _).
  destruct (increment_spec _ _ _ _ _ r y Hi2 Hy Hp ltac:(lia)) as (st3 & E3 & Hi3 & (_ & Hs3 & _) & _).
  exists st3. split; [done|]. split; [lia|]. exists own, (bump (bump (bump sur (Some r) 1) (Some r) 1) (Some r) (-1)). split; [|done].
  replace (B + 2) with (B + 1 + 1) by lia. apply (show_late _ _ _ st _ x); [done|done|rewrite Hs3; cbn; by rewrite Hs1|].
  intros r' [= <-]. split; [by apply (i_ref _ _ _ _ _ _ Hi src)|]. unfold bump. rewrite points_Some, decide_True by done.
  pose proof (i_sur _ _ _ _ _ _ Hi (_counts r)). lia.
Qed.

(** ** Weak pointers *)
Lemma weak_set B sur own S st k v : inv B sur own ∅ S st -> (forall r, v = Some r -> own !! _counts r = Some (_data r)) ->
  (forall c x, counts st !! c = Some x -> refs c (<[k := v]> (weak st)) <= _weakCount x /\
    (0 < _sharedCount x -> 1 + refs c (<[k := v]> (weak st)) <= _weakCount x)) -> inv B sur own ∅ S (set_weak st k v).
Proof.
  intros [] Hv Hr. split; cbn; try done.
  - intros j r Hj. apply lookup_insert_Some in Hj as [[_ E]|[_ Hj]]; [by apply Hv|by apply (i_wref0 j)].
  - intros c x Hx. split; [by apply Hr|by apply (i_weak0 c x)].
  - intros c x Hx [Hp|Hp]; [by apply (Hr c x)|done].
Qed.

Lemma weak_set_null B sur own S st k : inv B sur own ∅ S st -> inv B sur own ∅ S (set_weak st k None).
Proof.
  intros Hi. apply weak_set; [done|done|]. intros c x Hx. pose proof (refs_None c (weak st) k).
  pose proof (i_weak _ _ _ _ _ _ Hi c x Hx). split; [lia|]. intros Hp. pose proof (i_held _ _ _ _ _ _ Hi c x Hx (or_introl Hp)). lia.
Qed.

Lemma weak_drop B sur own S st k : inv B sur own ∅ S st -> inv B sur own ∅ S (drop_weak st k).
Proof.
  intros []. split; cbn; try done.
  - intros j r Hj. apply lookup_delete_Some in Hj as [_ Hj]. by apply (i_wref0 j).
  - intros c x Hx. pose proof (refs_delete_le c (weak st) k). specialize (i_weak0 c x Hx). lia.
  - intros c x Hx Hp. pose proof (refs_delete_le c (weak st) k). specialize (i_held0 c x Hx Hp). lia.
Qed.

Lemma refs_exists c m : 0 < refs c m -> exists k r, m !! k = Some (Some r) /\ _counts r = c.
Proof.
  intros H. unfold refs in H. destruct (map_choose (filter (fun kv : place * option Ref => _counts <$> kv.2 = Some c) m)) as (k & v & Hk).
  { intros E. rewrite E in H. done. }
  apply map_lookup_filter_Some in Hk as [Hk Hv]. cbn in Hv. destruct v as [r|]; [|done]. injection Hv as Hv. by exists k, r.
Qed.

Lemma free_counts B sur own S st c x : inv B sur own ∅ S st -> counts st !! c = Some x -> _sharedCount x <= 0 -> refs c (weak st) = 0 ->
  inv B sur (delete c own) ∅ S {| objects := objects st; counts := delete c (counts st); shared := shared st; weak := weak st |}.
Proof.
  intros Hi Hx Hz Hw. pose proof Hi as []. set (st' := {| objects := _; counts := _; shared := _; weak := _ |}).
  assert (forall c', alive ∅ st' c' <-> alive ∅ st c') as Hal.
  { intros c'. rewrite !alive_top. cbn. split; intros (y & Hy & Hp); exists y; (split; [|done]).
    - by apply lookup_delete_Some in Hy as [_ Hy].
    - rewrite lookup_delete_ne; [done|]. intros <-. assert (y = x) as -> by congruence. lia. }
  assert (forall c', alive ∅ st c' -> delete c own !! c' = own !! c') as Hown.
  { intros c' (y & Hy & [Hp|Hp]); [|set_solver]. apply lookup_delete_ne. intros <-. assert (y = x) as -> by congruence. lia. }
  split; cbn; try done.
  - intros c'. rewrite !lookup_delete_is_Some, i_dom0. done.
  - intros k r Hk. rewrite lookup_delete_ne; [by apply (i_ref0 k)|]. intros E.
    destruct (counts_of _ _ _ _ _ _ _ _ Hi Hk) as (y & Hy & Hp & _). rewrite <- E in Hy. assert (y = x) as -> by congruence. lia.
  - intros k r Hk. rewrite lookup_delete_ne; [by apply (i_wref0 k)|]. intros E. pose proof (refs_pos _ _ _ Hk) as Hp. rewrite <- E in Hp. lia.
  - intros c' y Hy. apply lookup_delete_Some in Hy as [_ Hy]. by apply i_count0.
  - intros c' y Hy. apply lookup_delete_Some in Hy as [_ Hy]. by apply i_weak0.
  - intros c' y Hy. apply lookup_delete_Some in Hy as [_ Hy]. by apply i_held0.
  - intros o. rewrite i_obj0. split; intros (c' & Hl & E); exists c'.
    + split; [by apply Hal|by rewrite Hown].
    + apply Hal in Hl. split; [done|by rewrite <- Hown].
  - intros c1 c2 o H1 H2. apply Hal in H1, H2. rewrite !Hown by done. by apply i_inj0.
  - intros o n w i Ho Hd. apply (i_members0 o n w i Ho). intros (c' & Hc' & _). set_solver.
  - intros k v Hk Hn. pose proof (i_hidden0 k v Hk Hn) as Ha. destruct k; [done|]. destruct Ha as [(c' & Hc' & _)|Ha]; [set_solver|by right].
Qed.

Lemma set_weak_id st k v : weak st !! k = Some v -> set_weak st k v = st.
Proof. intros Hk. destruct st. unfold set_weak. cbn in *. by rewrite insert_id. Qed.

Lemma weak_Release_spec B sur own st k w : top B sur own st -> weak st !! k = Some w -> B < 2 ^ 31 ->
  exists st1 own', weak_Release st w = Ok st1 /\ top B sur own' (set_weak st1 k None) /\ same_but_counts st st1.
Proof.
  intros Hi Hk HB. destruct w as [r|]; cbn [weak_Release].
  2: { exists st, own. split; [done|]. split; [|done]. by rewrite set_weak_id. }
  destruct (proj2 (i_dom _ _ _ _ _ _ Hi (_counts r))) as [x Hx]; [exists (_data r); by apply (i_wref _ _ _ _ _ _ Hi k)|].
  rewrite Hx. cbn [in_bounds mbind outcome_bind]. set (c := _counts r) in *.
  pose proof (i_weak _ _ _ _ _ _ Hi c x Hx) as Hw. pose proof (refs_pos _ _ _ Hk) as Hp. fold c in Hp. rewrite swrap_small by lia.
  pose proof (weak_set_null B sur own (shared st) st k Hi) as Hi0. set (st0 := set_weak st k None) in *.
  assert (refs c (weak st0) = refs c (weak st) - 1) as Hr0.
  { cbn. rewrite refs_write, points_None, (refs_delete c (weak st) k _ Hk), points_Some, decide_True by done. lia. }
  destruct (Z.eqb_spec (_weakCount x - 1) 0) as [E|E].
  - eexists _, (delete c own). split; [done|]. split; [|done]. apply (free_counts B sur own (shared st) st0 c x); [done|done| |lia].
    destruct (Z.le_gt_cases (_sharedCount x) 0); [done|]. pose proof (i_held _ _ _ _ _ _ Hi c x Hx ltac:(left; lia)). lia.
  - eexists _, own. split; [done|]. split; [|done]. apply (set_weak_count B sur own ∅ (shared st) st0 c x); [done|done|lia|].
    intros Hl. pose proof (i_held _ _ _ _ _ _ Hi c x Hx Hl). lia.
Qed.

Lemma weak_Hold_spec B sur own st k src v : top B sur own st -> shared st !! src = Some v -> weak st !! k = None \/ weak st !! k = Some None ->
  0 <= B < 2 ^ 31 - 1 -> exists st', weak_Hold (set_weak st k v) v = Ok st' /\ top (B + 1) sur own st' /\
    shared st' = shared st /\ objects st' = objects st /\ weak st' = <[k := v]> (weak st).
Proof.
  intros Hi Hsrc Hk HB. destruct v as [r|]; cbn [weak_Hold].
  2: { eexists. split; [done|]. split; [|done]. apply (inv_weaken B _ sur); [lia|done|]. by apply weak_set_null. }
  destruct (counts_of _ _ _ _ _ _ _ _ Hi Hsrc) as (x & Hx & Hp & Ho). change (counts (set_weak st k (Some r))) with (counts st).
  rewrite Hx. cbn [in_bounds mbind outcome_bind]. set (c := _counts r) in *. pose proof (i_weak _ _ _ _ _ _ Hi c x Hx) as Hw.
  pose proof (refs_nonneg c (weak st)). rewrite swrap_small by lia. eexists. split; [done|]. split; [|done].
  assert (inv (B + 1) sur own ∅ (shared st) st) as Hi1 by (apply (inv_weaken B _ sur); [lia|done|done]).
  pose proof (i_held _ _ _ _ _ _ Hi c x Hx (or_introl Hp)) as Hh.
  pose proof (set_weak_count _ _ _ _ _ _ c x (_weakCount x + 1) Hi1 Hx ltac:(lia) ltac:(intros; lia)) as Hi2.
  apply (weak_set _ _ _ _ _ k (Some r) Hi2); [by intros r' [= <-]|].
  assert (forall c', refs c' (<[k := Some r]> (weak st)) = points c' (Some r) + refs c' (weak st)) as Hrefs.
  { intros c'. rewrite refs_write. f_equal. destruct Hk as [Hk|Hk]; [by rewrite delete_id|]. rewrite (refs_delete c' (weak st) k _ Hk), points_None. lia. }
  intros c' y Hy. cbn in Hy |- *. rewrite Hrefs, points_Some. destruct (decide (_counts r = c')) as [<-|Hne].
  - rewrite lookup_insert_eq in Hy. injection Hy as <-. cbn. fold c. split; [lia|intros _; lia].
  - rewrite lookup_insert_ne in Hy by done. pose proof (i_weak _ _ _ _ _ _ Hi c' y Hy). split; [lia|].
    intros Hp'. pose proof (i_held _ _ _ _ _ _ Hi c' y Hy (or_introl Hp')). lia.
Qed.

Lemma weak_assign_spec casts B st k src w v : Inv casts B st -> B < 2 ^ 31 - 1 -> weak st !! k = Some w -> shared st !! src = Some v ->
  exists st', weak_assign st k src = Ok st' /\ Inv casts (B + 1) st' /\ shared st' = shared st /\ objects st' = objects st /\
    (_data <$> w <> _data <$> v -> weak st' = <[k := v]> (weak st)).
Proof.
  intros (HB0 & own & sur & Hi & Hc) HB Hk Hsrc. unfold weak_assign. rewrite Hk, Hsrc. cbn [in_bounds mbind outcome_bind]. case_bool_decide as E.
  { exists st. split; [done|]. split; [|done]. split; [lia|]. exists own, sur. split; [|done]. by apply (inv_weaken B _ sur); [lia| |]. }
  destruct (weak_Release_spec B sur own st k w Hi Hk ltac:(lia)) as (st1 & own' & E1 & Hi1 & Ho1 & Hs1 & Hw1). step_to E1.
  destruct (weak_Hold_spec B sur own' _ k src v Hi1) as (st2 & E2 & Hi2 & Hs2 & Ho2 & Hw2); [cbn; by rewrite Hs1|right; cbn; apply lookup_insert_eq|lia|].
  assert (set_weak (set_weak st1 k None) k v = set_weak st1 k v) as Es by (unfold set_weak; cbn; by rewrite insert_insert_eq).
  rewrite Es in E2. exists st2. split; [done|]. split; [split; [lia|by exists own', sur]|]. split; [rewrite Hs2; exact Hs1|]. split; [rewrite Ho2; exact Ho1|].
  intros _. rewrite Hw2. cbn. by rewrite insert_insert_eq, Hw1.
Qed.

Lemma weak_assign_null_spec casts B st k w : Inv casts B st -> B < 2 ^ 31 -> weak st !! k = Some w ->
  exists st', weak_assign_null st k = Ok st' /\ Inv casts B st'.
Proof.
  intros (HB0 & own & sur & Hi & Hc) HB Hk. unfold weak_assign_null. rewrite Hk. cbn [in_bounds mbind outcome_bind].
  destruct (weak_Release_spec B sur own st k w Hi Hk HB) as (st1 & own' & E1 & Hi1 & _). step_to E1.
  eexists. split; [done|]. split; [done|by exists own', sur].
Qed.

Lemma weak_construct_spec casts B st x src v : Inv casts B st -> B < 2 ^ 31 - 1 -> shared st !! src = Some v -> weak st !! Var x = None ->
  exists st', weak_construct st (Var x) src = Ok st' /\ Inv casts (B + 1) st'.
Proof.
  intros (HB0 & own & sur & Hi & Hc) HB Hsrc Hx. unfold weak_construct. rewrite Hsrc. cbn [in_bounds mbind outcome_bind].
  destruct (weak_Hold_spec B sur own st (Var x) src v Hi Hsrc) as (st2 & E2 & Hi2 & _); [by left|lia|].
  exists st2. split; [done|]. split; [lia|by exists own, sur].
Qed.

Lemma Pin_spec casts B st x src w : Inv casts B st -> B < 2 ^ 31 - 1 -> weak st !! src = Some w -> shared st !! Var x = None ->
  exists st' v, Pin st (Var x) src = Ok st' /\ Inv casts (B + 1) st' /\ shared st' !! Var x = Some v /\
    (v = w \/ v = None) /\ (forall r, w = Some r -> (exists k, shared st !! k = Some (Some r)) -> v = Some r) /\
    (casts = false -> forall r, v = Some r -> exists k, shared st !! k = Some (Some r)).
Proof.
  intros (HB0 & own & sur & Hi & Hc) HB Hk Hx. unfold Pin. rewrite Hk. cbn [in_bounds mbind outcome_bind].
  assert (Inv casts (B + 1) (set_shared st (Var x) None)) as Hnull.
  { apply (Inv_intro _ _ sur own _ (bump sur None (-1))); [lia| |intros c; unfold bump; rewrite points_None; lia|done].
    apply (inv_weaken B _ (bump sur None (-1))); [lia|done|]. by apply (show_new B). }
  destruct w as [r|]; [|eexists _, None; split; [done|split; [done|split; [apply lookup_insert_eq|split; [by left|done]]]]].
  pose proof (i_wref _ _ _ _ _ _ Hi _ _ Hk) as Hown. destruct (proj2 (i_dom _ _ _ _ _ _ Hi (_counts r))) as [y Hy]; [by eexists|].
  rewrite Hy. cbn [in_bounds mbind outcome_bind]. destruct (i_count _ _ _ _ _ _ Hi _ y Hy) as [Ey _].
  pose proof (refs_nonneg (_counts r) (shared st)). pose proof (i_sur _ _ _ _ _ _ Hi (_counts r)).
  destruct (Z.eqb_spec (_sharedCount y) 0) as [E0|E0].
  - eexists _, None. split; [done|]. split; [done|]. split; [apply lookup_insert_eq|]. split; [by right|]. split; [|done].
    intros r' [= <-] (k & Hkr). pose proof (refs_pos _ _ _ Hkr). lia.
  - assert (inv B sur own ∅ (shared st) (set_shared st (Var x) (Some r))) as Hi0 by by apply hidden_new.
    destruct (increment_spec B sur own (shared st) (set_shared st (Var x) (Some r)) r y Hi0 Hy) as (st2 & E2 & Hi2 & (Ho2 & Hs2 & Hw2) & _); [lia|lia|].
    exists st2, (Some r). split; [done|]. split; [|split; [rewrite Hs2; apply lookup_insert_eq|split; [by left|split; [done|]]]].
    + apply (Inv_intro _ _ sur own _ (bump (bump sur (Some r) 1) (Some r) (-1))); [lia| |apply bump_back|done].
      apply (show_late _ _ _ st _ x); [done|done|done|]. intros r' [= <-]. split; [done|]. unfold bump. rewrite points_Some, decide_True by done. lia.
    + intros Hcf r' [= <-]. rewrite (Hc Hcf) in Ey. destruct (refs_exists (_counts r) (shared st)) as (k & r' & Hkr & Hcr); [lia|].
      exists k. rewrite Hkr. pose proof (i_ref _ _ _ _ _ _ Hi k r' Hkr) as Hown'. rewrite Hcr, Hown in Hown'. destruct r, r'. cbn in *. congruence.
Qed.

(** ** Making an object *)
Lemma lookup_null_members m o n k : null_members m o n !! k =
  match k with Member o' i => if bool_decide (o' = o /\ (i < n)%nat) then Some None else m !! k | Var _ => m !! k end.
Proof.
  unfold null_members. assert (forall l, foldr (fun i m => <[Member o i := None]> m) m l !! k =
    match k with Member o' i => if bool_decide (o' = o /\ i ∈ l) then Some None else m !! k | Var _ => m !! k end) as H.
  { induction l as [|i l IH]; cbn.
    - destruct k as [x|o' i]; [done|]. rewrite bool_decide_false; [done|]. intros [_ Hi]. by apply elem_of_nil in Hi.
    - destruct k as [x|o' j]; [by rewrite lookup_insert_ne|]. destruct (decide (Member o i = Member o' j)) as [E|Hne].
      + rewrite E, lookup_insert_eq. injection E as -> ->. rewrite bool_decide_true; [done|]. split; [done|by left].
      + rewrite lookup_insert_ne, IH by done. assert (o' = o /\ j ∈ i :: l <-> o' = o /\ j ∈ l) as Hiff.
        { rewrite elem_of_cons. split; [|tauto]. intros [-> [->|Hj]]; [done|tauto]. }
        by rewrite (bool_decide_ext _ _ Hiff). }
  rewrite H. destruct k as [x|o' i]; [done|]. by rewrite (bool_decide_ext (o' = o /\ i ∈ seq 0 n) (o' = o /\ (i < n)%nat)) by (rewrite elem_of_seq; lia).
Qed.

Lemma refs_null_members c m o n : refs c (null_members m o n) <= refs c m /\ ((forall i, m !! Member o i = None) -> refs c (null_members m o n) = refs c m).
Proof.
  unfold null_members. induction (seq 0 n) as [|i l IH]; cbn [foldr]; [done|]. set (m' := foldr _ m l) in *. destruct IH as [IH1 IH2]. split.
  - pose proof (refs_None c m' (Member o i)). lia.
  - intros Hm. rewrite <- (IH2 Hm), refs_write, points_None. cbn. destruct (m' !! Member o i) as [v|] eqn:E; [|by rewrite delete_id].
    assert (v = None) as ->; [|by rewrite (refs_delete c m' _ _ E), points_None].
    subst m'. clear IH1 IH2. induction l as [|j l IH]; cbn in E; [by rewrite Hm in E|].
    apply lookup_insert_Some in E as [[_ <-]|[_ E]]; [done|by apply IH].
Qed.

Lemma make_spec B sur own st x o c n w : top B sur own st -> 0 <= B -> objects st !! o = None -> counts st !! c = None ->
  shared st !! Var x = None ->
  let r := {| _data := o; _counts := c |} in
  top (B + 1) (fun c' => if decide (c' = c) then 0 else sur c') (<[c := o]> own) (adopt (new_object st o n w) (Var x) o c).
Proof.
  intros Hi HB Hob Hcn Hx r. pose proof Hi as []. unfold top in *. set (st' := adopt _ _ _ _).
  assert (forall i, shared st !! Member o i = None) as Hno.
  { intros i. apply eq_None_not_Some. intros Hs. destruct (i_home0 o i Hs). congruence. }
  assert (own !! c = None) as Hcown by (apply eq_None_not_Some; rewrite <- i_dom0, Hcn; by intros [? ?]).
  assert (forall k v, null_members (shared st) o n !! k = Some (Some v) -> shared st !! k = Some (Some v)) as Hnull.
  { intros k v. rewrite lookup_null_members. destruct k; [done|]. by case_bool_decide. }
  assert (forall k v, null_members (weak st) o w !! k = Some (Some v) -> weak st !! k = Some (Some v)) as Hwnull.
  { intros k v. rewrite lookup_null_members. destruct k; [done|]. by case_bool_decide. }
  assert (forall k v (m : gmap place (option Ref)), (forall k v, m !! k = Some (Some v) -> own !! _counts v = Some (_data v)) -> m !! k = Some (Some v) -> _counts v <> c) as Hfresh
    by (intros k v m Hm Hk Ev; specialize (Hm k v Hk); congruence).
  assert (forall c', refs c' (<[Var x := Some r]> (null_members (shared st) o n)) = (if decide (c = c') then 1 else 0) + refs c' (shared st)) as Hrefs.
  { intros c'. rewrite refs_insert, points_Some by by rewrite lookup_null_members. f_equal. by apply refs_null_members. }
  assert (refs c (shared st) = 0) as Hr0.
  { pose proof (refs_nonneg c (shared st)). destruct (Z.eq_dec (refs c (shared st)) 0) as [|Hne]; [done|].
    destruct (refs_exists c (shared st)) as (k & v & Hk & Hv); [lia|]. by destruct (Hfresh k v (shared st)). }
  assert (refs c (weak st) = 0) as Hw0.
  { pose proof (refs_nonneg c (weak st)). destruct (Z.eq_dec (refs c (weak st)) 0) as [|Hne]; [done|].
    destruct (refs_exists c (weak st)) as (k & v & Hk & Hv); [lia|]. by destruct (Hfresh k v (weak st)). }
  assert (forall c', refs c' (null_members (weak st) o w) <= refs c' (weak st)) as Hwle by (intros; apply refs_null_members).
  assert (forall c', alive ∅ st' c' <-> c' = c \/ alive ∅ st c') as Hal.
  { intros c'. rewrite !alive_top. cbn. destruct (decide (c' = c)) as [->|Hne].
    - split; [by left|]. intros _. eexists. split; [apply lookup_insert_eq|]. done.
    - rewrite lookup_insert_ne by done. naive_solver. }
  assert (forall c', alive ∅ st c' -> c' <> c) as Halne by (intros c' (y & Hy & _) ->; congruence).
  split; cbn; try done.
  - intros c'. rewrite !lookup_insert_is_Some, i_dom0. done.
  - intros k v Hk. apply lookup_insert_Some in Hk as [[_ [= <-]]|[_ Hk]]; [by rewrite lookup_insert_eq|].
    apply Hnull in Hk. pose proof (i_ref0 k v Hk). rewrite lookup_insert_ne; [done|congruence].
  - intros k v Hk. apply Hwnull in Hk. pose proof (i_wref0 k v Hk). rewrite lookup_insert_ne; [done|congruence].
  - intros c' y Hy. rewrite Hrefs. apply lookup_insert_Some in Hy as [[<- <-]|[Hne Hy]]; cbn.
    + rewrite !decide_True by done. lia.
    + rewrite !decide_False by congruence. destruct (i_count0 c' y Hy). lia.
  - intros c' y Hy. specialize (Hwle c'). apply lookup_insert_Some in Hy as [[<- <-]|[Hne Hy]]; cbn; [lia|]. specialize (i_weak0 c' y Hy). lia.
  - intros c' y Hy Hl. specialize (Hwle c'). apply lookup_insert_Some in Hy as [[<- <-]|[Hne Hy]]; cbn; [lia|]. specialize (i_held0 c' y Hy Hl). lia.
  - intros c'. case_decide; [done|apply i_sur0].
  - intros o'. rewrite lookup_insert_is_Some. destruct (decide (o' = o)) as [->|Hne].
    + split; [|by left]. intros _. exists c. rewrite lookup_insert_eq. split; [|done]. apply Hal. by left.
    + rewrite i_obj0. split.
      * intros [E|[_ (c' & Hl & E)]]; [by destruct Hne|]. exists c'. split; [apply Hal; by right|]. rewrite lookup_insert_ne; [done|]. by apply not_eq_sym, Halne.
      * intros (c' & Hl & E). right. split; [by apply not_eq_sym|]. apply Hal in Hl as [->|Hl]; [rewrite lookup_insert_eq in E; congruence|].
        exists c'. split; [done|]. rewrite lookup_insert_ne in E; [done|by apply not_eq_sym, Halne].
  - intros c1 c2 o' H1 H2. apply Hal in H1, H2.
    assert (forall c', alive ∅ st c' -> own !! c' <> Some o) as Hoo.
    { intros c' Hl E. assert (is_Some (objects st !! o)) as [? ?]; [|congruence]. apply i_obj0. by exists c'. }
    destruct H1 as [->|H1], H2 as [->|H2]; rewrite ?lookup_insert_eq; [done|..].
    + intros [= <-]. rewrite lookup_insert_ne by by apply not_eq_sym, Halne. intros E. by destruct (Hoo c2).
    + rewrite lookup_insert_ne by (by apply not_eq_sym, Halne). intros E [= <-]. by destruct (Hoo c1).
    + rewrite !lookup_insert_ne by (by apply not_eq_sym, Halne). by apply i_inj0.
  - intros o' n' w' i Ho' Hd. rewrite lookup_insert_ne, lookup_null_members by done.
    apply lookup_insert_Some in Ho' as [[<- [= <- <-]]|[Hne Ho']].
    + case_bool_decide as E; [split; [intros _; tauto|by eexists]|]. rewrite Hno. split; [by intros [? ?]|]. intros Hlt. by destruct E.
    + rewrite bool_decide_false by naive_solver. apply (i_members0 o' n' w' i Ho'). intros (c' & Hc' & _). set_solver.
  - intros o' i. rewrite lookup_insert_ne, lookup_null_members by done. rewrite lookup_insert_is_Some. case_bool_decide as E; [left; by destruct E|].
    intros Hs. destruct (decide (o = o')) as [->|]; [by left|]. right. split; [done|]. by apply (i_home0 o' i).
  - intros k v Hk Hn. congruence.
Qed.

Lemma Inv_mono casts casts' B B' st : B <= B' -> (casts' = false -> casts = false) -> Inv casts B st -> Inv casts' B' st.
Proof.
  intros HB Hc (H0 & own & sur & Hi & Hs). split; [lia|]. exists own, sur. split; [by apply (inv_weaken B _ sur)|]. auto.
Qed.

Lemma MakeShared_spec casts B st x a o c n w managed : Inv casts B st -> B + 3 < 2 ^ 31 -> scoped st (OMake x a o c n w managed) = true ->
  exists st', MakeShared st (Var x) (Var a) o c n w managed = Ok st' /\ Inv casts (B + 3) st'.
Proof.
  intros (HB0 & own & sur & Hi & Hc) HB Hs. cbn [scoped] in Hs. rewrite !andb_true_iff in Hs. destruct Hs as [[[[[Ho Hcn] Hx] Ha] Hxa] Hw].
  apply bool_decide_eq_true in Ho, Hcn, Hx, Ha. apply negb_true_iff, Z.eqb_neq in Hxa.
  pose proof (make_spec B sur own st x o c n w Hi HB0 Ho Hcn Hx) as H1. cbn zeta in H1. unfold MakeShared. set (st1 := adopt _ _ _ _) in *.
  assert (Inv casts (B + 1) st1) as HI1.
  { split; [lia|]. eexists _, _. split; [exact H1|]. intros Hf c'. cbn. case_decide; [done|by apply Hc]. }
  destruct managed; [|exists st1; split; [done|]; by apply (Inv_mono casts _ (B + 1)); [lia| |]].
  assert (shared st1 !! Var x = Some (Some {| _data := o; _counts := c |})) as Hx1 by apply lookup_insert_eq.
  assert (shared st1 !! Var a = None) as Ha1 by (cbn; rewrite lookup_insert_ne, lookup_null_members by congruence; done).
  unfold Feed. destruct (copy_construct_spec casts (B + 1) st1 a (Var x) _ HI1 ltac:(lia) Hx1 Ha1) as (st2 & E2 & HI2 & Hs2 & Hw2 & _). step_to E2.
  assert (weak st2 !! Member o 0 = Some None) as Hw0.
  { rewrite Hw2. cbn. rewrite lookup_null_members, bool_decide_true; [done|]. split; [done|]. by apply Nat.ltb_lt in Hw. }
  assert (shared st2 !! Var a = Some (Some {| _data := o; _counts := c |})) as Ha2 by by rewrite Hs2, lookup_insert_eq.
  destruct (weak_assign_spec casts _ st2 (Member o 0) (Var a) None _ HI2 ltac:(lia) Hw0 Ha2) as (st3 & E3 & HI3 & Hs3 & _). step_to E3.
  destruct (destroy_spec casts _ st3 a _ HI3 ltac:(lia) ltac:(by rewrite Hs3)) as (st4 & E4 & HI4 & _).
  exists st4. split; [done|]. by apply (Inv_mono casts _ (B + 1 + 1 + 1)); [lia| |].
Qed.

Definition is_cast (op : Op) : bool := match op with OCast _ _ _ => true | _ => false end.

Lemma exec_spec casts B st op : Inv casts B st -> B + 3 < 2 ^ 31 -> allowed st op ->
  exists st', exec st op = Ok st' /\ Inv (is_cast op || casts) (B + 3) st'.
Proof.
  intros HI HB [Hs Hap]. assert (0 <= B) as HB0 by apply HI.
  assert (forall B' st', B' <= B + 3 -> Inv casts B' st' -> Inv (is_cast op || casts) (B + 3) st') as Hm.
  { intros B' st' Hle. apply Inv_mono; [done|]. by destruct (is_cast op), casts. }
  destruct op; cbn [exec scoped allowed] in *; rewrite ?andb_true_iff in Hs.
  - destruct (MakeShared_spec casts B st x a o c n w managed HI HB) as (st' & E & H); [cbn; by rewrite !andb_true_iff|]. exists st'. split; [done|]. by apply (Hm (B + 3)).
  - apply bool_decide_eq_true in Hs. eexists. split; [done|]. destruct HI as (_ & own & sur & Hi & Hc). apply (Hm B); [lia|].
    apply (Inv_intro _ _ sur own _ (bump sur None (-1))); [done|by apply (show_new B)|intros c; unfold bump; rewrite points_None; lia|done].
  - destruct Hs as [Hx (k & v & Ek & Hv)%is_shared_spec]. apply bool_decide_eq_true in Hx. step_to Ek.
    destruct (copy_construct_spec casts B st x k v HI ltac:(lia) Hv Hx) as (st' & E & H & _). exists st'. split; [done|]. by apply (Hm (B + 1)); [lia|].
  - destruct Hs as [Hx (k & v & Ek & Hv)%is_shared_spec]. apply bool_decide_eq_true in Hx. step_to Ek.
    destruct (move_construct_spec casts B st x k v HI ltac:(lia) Hv Hx ltac:(intros; by apply (resolve_anchored st src))) as (st' & E & H). exists st'. split; [done|]. by apply (Hm B); [lia|].
  - destruct Hs as [(j & u & Ej & Hu)%is_shared_spec (k & v & Ek & Hv)%is_shared_spec]. step_to Ej. step_to Ek.
    destruct (assign_spec casts B st dst j u k v HI ltac:(lia) Ej (Hap j k Ej Ek) Hu Hv) as (st' & E & H).
    exists st'. split; [done|]. by apply (Hm (B + 1)); [lia|].
  - apply is_shared_spec in Hs as (j & u & Ej & Hu). step_to Ej.
    destruct (assign_null_spec casts B st j u HI ltac:(lia) Hu ltac:(intros; by apply (resolve_anchored st dst))) as (st' & E & H). exists st'. split; [done|]. by apply (Hm B); [lia|].
  - apply is_shared_spec in Hs as (j & u & Ej & Hu). cbn in Ej. injection Ej as <-.
    destruct (destroy_spec casts B st x u HI ltac:(lia) Hu) as (st' & E & H & _). exists st'. split; [done|]. by apply (Hm B); [lia|].
  - destruct Hs as [Hx (k & v & Ek & Hv)%is_shared_spec]. apply bool_decide_eq_true in Hx. step_to Ek.
    destruct (cast_spec casts B st x k v ok HI ltac:(lia) Hv Hx) as (st' & E & H). exists st'. split; [done|]. by apply (Inv_mono true _ (B + 2)); [lia| |].
  - eexists. split; [done|]. destruct HI as (_ & own & sur & Hi & Hc). apply (Hm B); [lia|]. split; [done|]. exists own, sur. split; [|done]. by apply weak_set_null.
  - destruct Hs as [Hx (k & v & Ek & Hv)%is_shared_spec]. apply bool_decide_eq_true in Hx. step_to Ek.
    destruct (weak_construct_spec casts B st x k v HI ltac:(lia) Hv Hx) as (st' & E & H). exists st'. split; [done|]. by apply (Hm (B + 1)); [lia|].
  - destruct Hs as [(j & u & Ej & Hu)%is_weak_spec (k & v & Ek & Hv)%is_shared_spec]. step_to Ej. step_to Ek.
    destruct (weak_assign_spec casts B st j k u v HI ltac:(lia) Hu Hv) as (st' & E & H & _). exists st'. split; [done|]. by apply (Hm (B + 1)); [lia|].
  - apply is_weak_spec in Hs as (j & u & Ej & Hu). step_to Ej.
    destruct (weak_assign_null_spec casts B st j u HI ltac:(lia) Hu) as (st' & E & H). exists st'. split; [done|]. by apply (Hm B); [lia|].
  - done.
  - eexists. split; [done|]. destruct HI as (_ & own & sur & Hi & Hc). apply (Hm B); [lia|]. split; [done|]. exists own, sur. split; [|done]. by apply weak_drop.
  - destruct Hs as [Hx (k & w & Ek & Hw)%is_weak_spec]. apply bool_decide_eq_true in Hx. step_to Ek.
    destruct (Pin_spec casts B st x k w HI ltac:(lia) Hw Hx) as (st' & v & E & H & _). exists st'. split; [done|]. by apply (Hm (B + 1)); [lia|].
Qed.

Lemma no_pointers_Inv : Inv false 0 no_pointers.
Proof.
  split; [done|]. exists ∅, (fun _ => 0). split; [|done].
  split; cbn; try done.
  - intros c. rewrite !lookup_empty. split; by intros [].
  - intros o. rewrite lookup_empty. split; [by intros []|]. intros (c & (x & Hx & _) & _). change (counts no_pointers) with (∅ : gmap Z Counts) in Hx. by rewrite lookup_empty in Hx.
  - intros o i [v Hv]. by rewrite lookup_empty in Hv.
Qed.

Lemma history_Inv ops st : history ops st -> 3 * Z.of_nat (length ops) < 2 ^ 31 -> Inv (existsb is_cast ops) (3 * Z.of_nat (length ops)) st.
Proof.
  induction 1 as [|ops st op st' Hh IH Hs E]; intros Hn; [apply no_pointers_Inv|]. cbn [length existsb] in *.
  destruct (exec_spec (existsb is_cast ops) (3 * Z.of_nat (length ops)) st op) as (st1 & E1 & H); [apply IH; lia|lia|done|].
  assert (st1 = st') as -> by congruence. by apply (Inv_mono (is_cast op || existsb is_cast ops) _ (3 * Z.of_nat (length ops) + 3)); [lia| |].
Qed.

(** A store is what a program made of it, step by step.  Each source is reached
    by the path given, without the pointer assigned to. *)
Definition checked (st : Store) (op : Op) : bool :=
  scoped st op &&
  match op with
  | OAssign dst src => bool_decide ((j ← resolve st dst; resolve (drop_shared st j) src) = resolve st src)
  | _ => true
  end.

Lemma checked_allowed st op : checked st op = true -> allowed st op.
Proof.
  unfold checked. rewrite andb_true_iff. intros [Hs Ha]. split; [done|]. destruct op; try done.
  apply bool_decide_eq_true in Ha. intros j k Ej Ek. rewrite Ej, Ek in Ha. by exists src.
Qed.

Fixpoint run (st : Store) (ops : list Op) : outcome Store :=
  match ops with
  | [] => Ok st
  | op :: ops => if checked st op then st ← exec st op; run st ops else Fault AssertionFailure
  end.

Lemma run_history ops : forall past st st', history past st -> run st ops = Ok st' -> history (rev ops ++ past) st'.
Proof.
  induction ops as [|op ops IH]; intros past st st' Hh E; cbn [run] in E; [by injection E as <-|].
  destruct (checked st op) eqn:Es; [|done]. apply bind_Ok_inv in E as (st1 & E1 & E2). cbn [rev]. rewrite <- app_assoc. cbn.
  apply (IH _ st1); [|done]. apply (history_step past st); [done|by apply checked_allowed|done].
Qed.

(** C30: reference counting is safe.  After any sequence of operations of a
    program on [SharedPointer]s and [WeakPointer]s, as variables and as members
    of objects, named by paths of any length: the next operation always returns,
    with all the objects it deletes, and uses nothing that has been freed; every
    shared pointer that is not null points to a live object; and, if no cast was
    made, every live object has a shared pointer to it, and [Pin] gives a pointer
    to the object exactly when some shared pointer to it is left.  Two things are
    asked of the program: it copies no weak pointer, and what it assigns can be
    reached from a variable without the pointer it assigns to.  So [p = p->next]
    is covered when something else holds the object of [p], as in the walk
    through a list ([walk_allowed]); without that it reads a deleted pointer, as
    does [a->next = a->next->next] ([assign_from_own_member],
    [unlink_next_faults]).  The counters are supposed not to overflow, which
    takes 2^31 / 3 operations. *)
Theorem pointers_are_safe ops st : history ops st -> 3 * Z.of_nat (length ops) + 3 < 2 ^ 31 ->
  (forall op, allowed st op -> exists st', exec st op = Ok st') /\
  (forall k r, shared st !! k = Some (Some r) -> is_Some (objects st !! _data r)) /\
  (existsb is_cast ops = false ->
     (forall o, is_Some (objects st !! o) -> exists k r, shared st !! k = Some (Some r) /\ _data r = o) /\
     (forall x src k w, scoped st (OPin x src) = true -> resolve st src = Ok k -> weak st !! k = Some w ->
        exists st', exec st (OPin x src) = Ok st' /\
          forall r, shared st' !! Var x = Some (Some r) <-> w = Some r /\ exists j, shared st !! j = Some (Some r))).
Proof.
  intros Hh Hn. pose proof (history_Inv ops st Hh ltac:(lia)) as HI. set (B := 3 * Z.of_nat (length ops)) in *. split_and!.
  - intros op Hs. destruct (exec_spec _ B st op HI ltac:(lia) Hs) as (st' & E & _). by exists st'.
  - intros k r Hk. destruct HI as (_ & own & sur & Hi & _). by apply (object_of _ _ _ _ _ _ k r Hi).
  - intros Hc. rewrite Hc in HI. split.
    + intros o Ho. destruct HI as (_ & own & sur & Hi & Hs). apply (i_obj _ _ _ _ _ _ Hi) in Ho as (c & Hl & Hown). apply alive_top in Hl as (x & Hx & Hp).
      destruct (i_count _ _ _ _ _ _ Hi c x Hx) as [E _]. rewrite (Hs eq_refl) in E. destruct (refs_exists c (shared st)) as (k & r & Hk & Hr); [lia|].
      exists k, r. split; [done|]. pose proof (i_ref _ _ _ _ _ _ Hi k r Hk) as H2. rewrite Hr in H2. congruence.
    + intros x src k w Hs Hk Hw. cbn [scoped] in Hs. apply andb_true_iff in Hs as [Hx _]. apply bool_decide_eq_true in Hx.
      destruct (Pin_spec false B st x k w HI ltac:(lia) Hw Hx) as (st' & v & E & _ & Hv & Hvw & Hto & Hfrom).
      exists st'. cbn [exec]. step_to Hk. split; [done|]. intros r. rewrite Hv. split.
      * intros [= ->]. split; [by destruct Hvw|by apply Hfrom].
      * intros [Ew Hj]. by rewrite (Hto r Ew Hj).
Qed.

(** A managed object held by a variable and a pinned pointer, of which the first ends. *)
Definition a_program : list Op :=
  [OMake 1 2 100 200 1 1 true; OWeakFrom 3 (PVar 1); OPin 4 (PVar 3); OMake 5 2 101 201 0 0 false; OAssign (PMember (PVar 4) 0) (PVar 5); ODestroy 5; ODestroy 1].

Lemma pointers_are_safe_witness : exists st, run no_pointers a_program = Ok st /\
  shared st !! Member 100 0 = Some (Some {| _data := 101; _counts := 201 |}) /\ is_Some (objects st !! 101) /\
  exists st', exec st (OAssign (PMember (PVar 4) 0) (PVar 4)) = Ok st'.
Proof.
  assert (exists st, run no_pointers a_program = Ok st) as [st E] by (eexists; vm_compute; reflexivity).
  pose proof (run_history a_program [] no_pointers st history_nil E) as Hh.
  destruct (pointers_are_safe _ st Hh ltac:(vm_compute; reflexivity)) as (Hstep & Hlive & _).
  assert (shared st !! Member 100 0 = Some (Some {| _data := 101; _counts := 201 |})) as Hk by (vm_compute in E; injection E as <-; vm_compute; reflexivity).
  exists st. split; [exact E|]. split; [exact Hk|]. split; [exact (Hlive _ _ Hk)|]. apply Hstep, checked_allowed. vm_compute in E. injection E as <-. vm_compute. reflexivity.
Defined.

(** ** What goes wrong *)

(** A cast counts the new pointer twice: the object is never deleted. *)
Lemma cast_leaks : exists st, run no_pointers [OMake 1 2 100 200 0 0 false; OCast 3 (PVar 1) true; ODestroy 3; ODestroy 1] = Ok st /\
  is_Some (objects st !! 100) /\ shared st = ∅.
Proof. eexists. split; [vm_compute; reflexivity|]. split; [by eexists|reflexivity]. Qed.

(** [p = p->next] with the last pointer to the first object reads the pointer
    [next] after the object has been deleted. *)
Lemma assign_from_own_member : exists st,
  run no_pointers [OMake 1 9 100 200 1 0 false; OMake 2 9 101 201 0 0 false; OAssign (PMember (PVar 1) 0) (PVar 2)] = Ok st /\
  exec st (OAssign (PVar 1) (PMember (PVar 1) 0)) = Fault OutOfBounds.
Proof. eexists. split; [vm_compute; reflexivity|vm_compute; reflexivity]. Qed.

(** [a->next = a->next->next] deletes the object in between before its member is
    read. *)
Lemma unlink_next_faults : exists st,
  run no_pointers [OMake 1 9 100 200 1 0 false; OMake 2 9 101 201 1 0 false; OMake 3 9 102 202 1 0 false;
    OAssign (PMember (PVar 2) 0) (PVar 3); OAssign (PMember (PVar 1) 0) (PVar 2); ODestroy 2; ODestroy 3] = Ok st /\
  exec st (OAssign (PMember (PVar 1) 0) (PMember (PMember (PVar 1) 0) 0)) = Fault OutOfBounds.
Proof. eexists. split; [vm_compute; reflexivity|vm_compute; reflexivity]. Qed.

(** [p = p->next] when a list at 1 holds the object of [p] at 3. *)
Lemma walk_allowed : exists st st',
  run no_pointers [OMake 1 9 100 200 1 0 false; OMake 2 9 101 201 0 0 false; OAssign (PMember (PVar 1) 0) (PVar 2); ODestroy 2;
    OCopy 3 (PVar 1)] = Ok st /\
  allowed st (OAssign (PVar 3) (PMember (PVar 3) 0)) /\
  exec st (OAssign (PVar 3) (PMember (PVar 3) 0)) = Ok st' /\ shared st' !! Var 3 = Some (Some {| _data := 101; _counts := 201 |}).
Proof.
  eexists _, _. split; [vm_compute; reflexivity|]. split; [|split; vm_compute; reflexivity].
  split; [vm_compute; reflexivity|]. intros j k [= <-] [= <-]. exists (PMember (PVar 1) 0). vm_compute. reflexivity.
Qed.

(** The copy of a weak pointer is not counted: it uses the counters when they
    have been freed. *)
Lemma weak_copy_dangles : exists st, run no_pointers [OMake 1 9 100 200 0 0 false; OWeakFrom 2 (PVar 1)] = Ok st /\
  (st ← exec st (OWeakCopy 3 (PVar 2)); st ← exec st (ODestroy 1); st ← exec st (OWeakAssignNull (PVar 2)); exec st (OPin 4 (PVar 3))) =
  Fault OutOfBounds.
Proof. eexists. split; [vm_compute; reflexivity|vm_compute; reflexivity]. Qed.

(** A weak pointer to an object that is gone cannot be made to point to a new
    object at the same address. *)
Lemma weak_assign_stale : exists st, run no_pointers
    [OMake 1 9 100 200 0 0 false; OWeakFrom 2 (PVar 1); ODestroy 1; OMake 1 9 100 201 0 0 false; OWeakAssign (PVar 2) (PVar 1); OPin 3 (PVar 2)] = Ok st /\
  shared st !! Var 3 = Some None.
Proof. eexists. split; [vm_compute; reflexivity|vm_compute; reflexivity]. Qed.

(** The last release takes both counters to 0 and frees neither. *)
Lemma counters_leak : exists st, run no_pointers [OMake 1 9 100 200 0 0 false; ODestroy 1] = Ok st /\
  counts st !! 200 = Some {| _sharedCount := 0; _weakCount := 0 |} /\ weak st = ∅ /\ shared st = ∅.
Proof. eexists. split; [vm_compute; reflexivity|]. done. Qed.

(** [AddToTail] on an empty list of coursework/sched-fifo.cpp with [_root] at 1,
    and [RemoveNode] of the node: it keeps itself alive. *)
Lemma last_node_leaks : exists st, run no_pointers
    [ONull 1; OMake 2 9 100 200 1 1 false; OAssign (PMember (PVar 2) 0) (PVar 2); OWeakAssign (PMember (PVar 2) 0) (PVar 2); OAssign (PVar 1) (PVar 2); ODestroy 2;
     OCopy 3 (PVar 1); OPin 4 (PMember (PVar 3) 0); OCopy 5 (PMember (PVar 3) 0); OWeakAssign (PMember (PVar 5) 0) (PVar 4); ODestroy 4; ODestroy 5;
     OPin 4 (PMember (PVar 3) 0); OAssign (PMember (PVar 4) 0) (PMember (PVar 3) 0); ODestroy 4; OAssign (PVar 1) (PMember (PVar 3) 0); OAssignNull (PVar 1); ODestroy 3] = Ok st /\
  shared st !! Var 1 = Some None /\ is_Some (objects st !! 100).
Proof. eexists. split; [vm_compute; reflexivity|]. split; [reflexivity|by eexists]. Qed.
