(* ===== verification/Ata.v ===== *)
(** * arch/x86/pio.h, drivers/ata, drivers/block: disks and their partitions

    The driver talks to the disks through the ports of two channels; the
    hardware behind the ports is a parameter.  Loops that wait for a disk have
    the number of polls as fuel.  Block devices are objects named by their
    addresses, which the device manager knows them by. *)
From S2P Require Import Prelude RBMap CString Devices Mutex.

(** ** pio.h *)
Class Ports (D : Type) := {
  outb : Z -> Z -> D -> D;
  inb : Z -> D -> Z * D;
  inw : Z -> D -> Z * D;
  outl : Z -> Z -> D -> D;
  inl : Z -> D -> Z * D
}.

(** The registers of a channel, as the driver numbers them. *)
Definition ATA_REG_DATA : Z := 0x00.
Definition ATA_REG_SECCOUNT0 : Z := 0x02.
Definition ATA_REG_LBA0 : Z := 0x03.
Definition ATA_REG_LBA1 : Z := 0x04.
Definition ATA_REG_LBA2 : Z := 0x05.
Definition ATA_REG_HDDEVSEL : Z := 0x06.
Definition ATA_REG_COMMAND : Z := 0x07.
Definition ATA_REG_STATUS : Z := 0x07.
Definition ATA_REG_SECCOUNT1 : Z := 0x08.
Definition ATA_REG_LBA3 : Z := 0x09.
Definition ATA_REG_LBA4 : Z := 0x0A.
Definition ATA_REG_LBA5 : Z := 0x0B.
Definition ATA_REG_CONTROL : Z := 0x0C.

Definition ATA_SR_BSY : Z := 0x80.
Definition ATA_SR_DF : Z := 0x20.
Definition ATA_SR_DRQ : Z := 0x08.
Definition ATA_SR_ERR : Z := 0x01.

Definition ATA_CMD_READ_PIO_EXT : Z := 0x24.
Definition ATA_CMD_WRITE_PIO_EXT : Z := 0x34.
Definition ATA_CMD_IDENTIFY : Z := 0xEC.

Definition ATA_IDENT_CAPABILITIES : nat := 98.
Definition ATA_IDENT_MAX_LBA : nat := 120.
Definition ATA_IDENT_COMMANDSETS : nat := 164.
Definition ATA_IDENT_MAX_LBA_EXT : nat := 200.

(** ** ATAController *)
Record ChannelRegisters := { base : Z; ctrl : Z; bmide : Z; nIEN : Z }.

Record ATAController := { channels : ChannelRegisters * ChannelRegisters; _mtx : Mutex * Mutex }.

Definition channel {A} (p : A * A) (c : Z) : A := if c =? 0 then fst p else snd p.
Definition with_channel {A} (p : A * A) (c : Z) (x : A) : A * A := if c =? 0 then (x, snd p) else (fst p, x).

Definition PORT_OR_BASE_ADDRESS (v p : Z) : Z := if v =? 0 then p else Z.land v (u32 (Z.lnot 3)).

Definition ATAController_new (bar : Z -> Z) : ATAController :=
  {| channels :=
       ({| base := u16 (PORT_OR_BASE_ADDRESS (bar 0) 0x1F0); ctrl := u16 (PORT_OR_BASE_ADDRESS (bar 1) 0x3F6);
           bmide := u16 (Z.land (bar 4) (u32 (Z.lnot 3))); nIEN := 2 |},
        {| base := u16 (PORT_OR_BASE_ADDRESS (bar 2) 0x170); ctrl := u16 (PORT_OR_BASE_ADDRESS (bar 3) 0x376);
           bmide := u16 (u32 (Z.land (bar 4) (u32 (Z.lnot 3)) + 8)); nIEN := 2 |});
     _mtx := (Mutex_new, Mutex_new) |}.

(** The port of a register; there is none from 0x16 on. *)
Definition reg_port (ch : ChannelRegisters) (reg : Z) : option Z :=
  if reg <? 0x08 then Some (u16 (base ch + reg - 0x00))
  else if reg <? 0x0C then Some (u16 (base ch + reg - 0x06))
  else if reg <? 0x0E then Some (u16 (ctrl ch + reg - 0x0A))
  else if reg <? 0x16 then Some (u16 (bmide ch + reg - 0x0E))
  else None.

(** The registers that share their ports with others. *)
Definition is_high (reg : Z) : bool := (0x07 <? reg) && (reg <? 0x0C).

Section driver.
Context {D : Type} `{Ports D}.

Definition write_reg (ch : ChannelRegisters) (reg v : Z) (d : D) : D :=
  match reg_port ch reg with Some p => outb p (u8 v) d | None => d end.

Definition ata_write (ch : ChannelRegisters) (reg v : Z) (d : D) : D :=
  let d := if is_high reg then write_reg ch ATA_REG_CONTROL (Z.lor 0x80 (nIEN ch)) d else d in
  let d := write_reg ch reg v d in
  if is_high reg then write_reg ch ATA_REG_CONTROL (nIEN ch) d else d.

Definition ata_read (ch : ChannelRegisters) (reg : Z) (d : D) : Z * D :=
  let d := if is_high reg then write_reg ch ATA_REG_CONTROL (Z.lor 0x80 (nIEN ch)) d else d in
  let '(result, d) := match reg_port ch reg with Some p => inb p d | None => (0, d) end in
  (result, if is_high reg then write_reg ch ATA_REG_CONTROL (nIEN ch) d else d).

(** [__insw], [__insl]: the bytes stored. *)
Fixpoint insw (n : nat) (port : Z) (d : D) : list Z * D :=
  match n with
  | O => ([], d)
  | S n =>
      let '(w, d) := inw port d in
      let '(bs, d) := insw n port d in
      (w mod 256 :: w / 256 :: bs, d)
  end.

Fixpoint insl (n : nat) (port : Z) (d : D) : list Z * D :=
  match n with
  | O => ([], d)
  | S n =>
      let '(w, d) := inl port d in
      let '(bs, d) := insl n port d in
      (w mod 256 :: w / 256 mod 256 :: w / 65536 mod 256 :: w / 16777216 :: bs, d)
  end.

Definition ata_read_buffer (ch : ChannelRegisters) (reg size : Z) (d : D) : list Z * D :=
  let d := if is_high reg then write_reg ch ATA_REG_CONTROL (Z.lor 0x80 (nIEN ch)) d else d in
  let '(bs, d) := match reg_port ch reg with Some p => insl (Z.to_nat (Z.shiftr size 2)) p d | None => ([], d) end in
  (bs, if is_high reg then write_reg ch ATA_REG_CONTROL (nIEN ch) d else d).

(** [while (ata_read(ATA_REG_STATUS) & ATA_SR_BSY);] *)
Fixpoint wait_not_busy (fuel : nat) (ch : ChannelRegisters) (d : D) : outcome D :=
  match fuel with
  | O => Fault OutOfFuel
  | S fuel =>
      let '(status, d) := ata_read ch ATA_REG_STATUS d in
      if negb (Z.land status ATA_SR_BSY =? 0) then wait_not_busy fuel ch d else Ok d
  end.

Definition ata_poll (fuel : nat) (ch : ChannelRegisters) (error_check : bool) (d : D) : outcome (Z * D) :=
  d ← wait_not_busy fuel ch d;
  if error_check then
    let '(status, d) := ata_read ch ATA_REG_STATUS d in
    if negb (Z.land status ATA_SR_ERR =? 0) then Ok (2, d)
    else if negb (Z.land status ATA_SR_DF =? 0) then Ok (1, d)
    else if Z.land status ATA_SR_DRQ =? 0 then Ok (3, d)
    else Ok (0, d)
  else Ok (0, d).

(** ** ATADevice::transfer *)

(** Alone, a thread that finds the mutex taken spins for ever. *)
Definition lock (m : Mutex) (thread : Z) : outcome Mutex :=
  let '(old, m) := test_and_set m in if old =? 0 then Ok (store_owner m thread) else Fault OutOfFuel.

(** [n] rounds of the loop over the blocks: whether all could be read, and the
    bytes stored in the buffer from its start. *)
Fixpoint read_loop (n fuel : nat) (ch : ChannelRegisters) (d : D) : outcome (bool * list Z * D) :=
  match n with
  | O => Ok (true, [], d)
  | S n =>
      '(e, d) ← ata_poll fuel ch true d;
      if negb (e =? 0) then Ok (false, [], d)
      else
        let '(bs, d) := insw (512 / 2) (base ch) d in
        '(ok, rest, d) ← read_loop n fuel ch d;
        Ok (ok, bs ++ rest, d)
  end.

(** The registers of a command, in the order of the source. *)
Definition program (ch : ChannelRegisters) (drive lba nr_blocks : Z) (d : D) : D :=
  let d := ata_write ch ATA_REG_HDDEVSEL (Z.lor 0xE0 (Z.shiftl drive 4)) d in
  let d := ata_write ch ATA_REG_SECCOUNT1 0 d in
  let d := ata_write ch ATA_REG_LBA3 (Z.land (Z.shiftr lba 24) 0xff) d in
  let d := ata_write ch ATA_REG_LBA4 (Z.land (Z.shiftr lba 32) 0xff) d in
  let d := ata_write ch ATA_REG_LBA5 (Z.land (Z.shiftr lba 40) 0xff) d in
  let d := ata_write ch ATA_REG_SECCOUNT0 nr_blocks d in
  let d := ata_write ch ATA_REG_LBA0 (Z.land (Z.shiftr lba 0) 0xff) d in
  let d := ata_write ch ATA_REG_LBA1 (Z.land (Z.shiftr lba 8) 0xff) d in
  ata_write ch ATA_REG_LBA2 (Z.land (Z.shiftr lba 16) 0xff) d.

Definition transfer (fuel : nat) (thread : Z) (c : ATAController) (chan drive direction lba nr_blocks : Z) (d : D)
  : outcome (bool * list Z * ATAController * D) :=
  m ← lock (channel (_mtx c) chan) thread;
  let c := {| channels := channels c; _mtx := with_channel (_mtx c) chan m |} in
  let ch := channel (channels c) chan in
  d ← wait_not_busy fuel ch d;
  let d := program ch drive lba nr_blocks d in
  '(ok, bs, d) ←
    (if negb (direction =? 0) then Ok (true, [], ata_write ch ATA_REG_COMMAND ATA_CMD_WRITE_PIO_EXT d)
     else read_loop (Z.to_nat nr_blocks) fuel ch (ata_write ch ATA_REG_COMMAND ATA_CMD_READ_PIO_EXT d));
  let c := {| channels := channels c; _mtx := with_channel (_mtx c) chan (unlock (channel (_mtx c) chan)) |} in
  Ok (ok, bs, c, d).

(** ** Block devices *)
Inductive BlockObject :=
  | ATADevice (controller chan drive size : Z)
  | BlockDevicePartition (underlying offset count : Z).

(** The ports, the controllers, the block devices, the device manager and the
    next free address. *)
Record Disks := {
  ports : D;
  controllers : gmap Z ATAController;
  objects : gmap Z BlockObject;
  devices : DeviceManager;
  next_object : Z
}.

Definition with_ports (s : Disks) (d : D) : Disks :=
  {| ports := d; controllers := controllers s; objects := objects s; devices := devices s; next_object := next_object s |}.
Definition with_controller (s : Disks) (p : Z) (c : ATAController) : Disks :=
  {| ports := ports s; controllers := <[p := c]> (controllers s); objects := objects s; devices := devices s; next_object := next_object s |}.
Definition with_object (s : Disks) (p : Z) (o : BlockObject) : Disks :=
  {| ports := ports s; controllers := controllers s; objects := <[p := o]> (objects s); devices := devices s; next_object := next_object s |}.
Definition with_devices (s : Disks) (dm : DeviceManager) : Disks :=
  {| ports := ports s; controllers := controllers s; objects := objects s; devices := dm; next_object := next_object s |}.

(** [new] of an object of a device class. *)
Definition new_object (s : Disks) (class : Z) (o : BlockObject) : Z * Disks :=
  let p := next_object s in
  let dm := devices s in
  (p, {| ports := ports s; controllers := controllers s; objects := <[p := o]> (objects s);
         devices := {| _devices := _devices dm; device_classes := device_classes dm;
                       device_memory := <[p := {| device_class := class; _dname := String_empty |}]> (device_memory dm) |};
         next_object := p + 1 |}).

Section blocks.
Context (fuel : nat) (thread : Z) (ATADeviceClass BlockDevicePartitionClass : Z).

(** The virtual functions [read_blocks] ([direction] 0) and [write_blocks] (1);
    a partition calls the one of the device below. *)
Fixpoint access_blocks (depth : nat) (s : Disks) (p direction offset count : Z) : outcome (bool * list Z * Disks) :=
  match depth with
  | O => Fault OutOfFuel
  | S depth =>
      o ← in_bounds (objects s !! p);
      match o with
      | ATADevice a chan drive _ =>
          c ← in_bounds (controllers s !! a);
          '(ok, bs, c, d) ← transfer fuel thread c chan drive direction offset count (ports s);
          Ok (ok, bs, with_ports (with_controller s a c) d)
      | BlockDevicePartition below start _ => access_blocks depth s below direction (u64 (start + offset)) count
      end
  end.

Definition read_blocks (s : Disks) (p offset count : Z) : outcome (bool * list Z * Disks) :=
  access_blocks (S (size (objects s))) s p 0 offset count.
Definition write_blocks (s : Disks) (p offset count : Z) : outcome (bool * list Z * Disks) :=
  access_blocks (S (size (objects s))) s p 1 offset count.

Definition block_count (s : Disks) (p : Z) : outcome Z :=
  o ← in_bounds (objects s !! p);
  match o with ATADevice _ _ _ size => Ok size | BlockDevicePartition _ _ count => Ok count end.

(** ** Partitions *)
Definition le32 (buf : list Z) (off : nat) : outcome Z :=
  b0 ← in_bounds (buf !! off); b1 ← in_bounds (buf !! (off + 1)%nat);
  b2 ← in_bounds (buf !! (off + 2)%nat); b3 ← in_bounds (buf !! (off + 3)%nat);
  Ok (b0 + 256 * b1 + 65536 * b2 + 16777216 * b3).

(** The entry at [off]: its type, first sector and number of sectors. *)
Definition pte_type (table : list Z) (off : nat) : outcome Z := in_bounds (table !! (off + 4)%nat).
Definition pte_first_absolute_sector_lba (table : list Z) (off : nat) : outcome Z := le32 table (off + 8).
Definition pte_nr_sectors (table : list Z) (off : nat) : outcome Z := le32 table (off + 12).

(** [n] rounds from [index] on; the results of registering are not looked at. *)
Fixpoint create_loop (n : nat) (s : Disks) (disk : Z) (table : list Z) (index : nat) : outcome Disks :=
  match n with
  | O => Ok s
  | S n =>
      let off := (0x1be + 16 * index)%nat in
      type ← pte_type table off;
      s ←
        (if type =? 0 then Ok s
         else
           first ← pte_first_absolute_sector_lba table off;
           sectors ← pte_nr_sectors table off;
           let '(p, s) := new_object s BlockDevicePartitionClass (BlockDevicePartition disk first sectors) in
           '(_, dm) ← register_device Device_init (devices s) p;
           x ← device_at dm disk;
           let name := String_add (String_add (_dname x) (String_of [112])) (ToString (Z.of_nat index)) in
           '(_, dm) ← add_device_alias dm name p;
           Ok (with_devices s dm));
      create_loop n s disk table (S index)
  end.

Definition create_partitions (s : Disks) (disk : Z) (table : list Z) : outcome (bool * Disks) :=
  s ← create_loop 4 s disk table 0; Ok (true, s).

Definition check_for_partitions (s : Disks) (disk : Z) : outcome (bool * Disks) :=
  '(ok, buffer, s) ← read_blocks s disk 0 1;
  if negb ok then Ok (false, s)
  else
    b0 ← in_bounds (buffer !! 0x1fe%nat);
    b1 ← in_bounds (buffer !! 0x1ff%nat);
    if (b0 =? 0x55) && (b1 =? 0xaa) then create_partitions s disk buffer else Ok (true, s).

(** ** ATADevice::init, what it keeps of the identification *)
Definition ATADevice_init (s : Disks) (disk : Z) : outcome (bool * Disks) :=
  o ← in_bounds (objects s !! disk);
  match o with
  | BlockDevicePartition _ _ _ => Fault BadCast
  | ATADevice a chan drive _ =>
      c ← in_bounds (controllers s !! a);
      let '(buffer, d) := ata_read_buffer (channel (channels c) chan) ATA_REG_DATA (128 * 4) (ports s) in
      let s := with_ports s d in
      caps0 ← in_bounds (buffer !! ATA_IDENT_CAPABILITIES);
      caps1 ← in_bounds (buffer !! S ATA_IDENT_CAPABILITIES);
      let caps := caps0 + 256 * caps1 in
      cmdsets ← le32 buffer ATA_IDENT_COMMANDSETS;
      size ← (if negb (Z.land cmdsets (Z.shiftl 1 26) =? 0) then le32 buffer ATA_IDENT_MAX_LBA_EXT
              else le32 buffer ATA_IDENT_MAX_LBA);
      let s := with_object s disk (ATADevice a chan drive size) in
      if Z.land caps 0x200 =? 0 then Ok (false, s) else check_for_partitions s disk
  end.

(** [register_device] of a disk. *)
Definition register_disk (s : Disks) (disk : Z) : outcome (bool * Disks) :=
  dm ← name_device (devices s) disk;
  ATADevice_init (with_devices s dm) disk.

(** [delete] of an object; the device manager still has its address. *)
Definition delete_object (s : Disks) (p : Z) : Disks :=
  let dm := devices s in
  {| ports := ports s; controllers := controllers s; objects := delete p (objects s);
     devices := {| _devices := _devices dm; device_classes := device_classes dm; device_memory := delete p (device_memory dm) |};
     next_object := next_object s |}.

(** ** Probing *)

(** The loop until the identification can be read: whether it can. *)
Fixpoint wait_identified (n : nat) (ch : ChannelRegisters) (d : D) : outcome (bool * D) :=
  match n with
  | O => Fault OutOfFuel
  | S n =>
      let '(status, d) := ata_read ch ATA_REG_STATUS d in
      if negb (Z.land status ATA_SR_ERR =? 0) then Ok (false, d)
      else if (Z.land status ATA_SR_BSY =? 0) && negb (Z.land status ATA_SR_DRQ =? 0) then Ok (true, d)
      else wait_identified n ch d
  end.

Definition probe_device (s : Disks) (a chan device : Z) : outcome (bool * Disks) :=
  c ← in_bounds (controllers s !! a);
  let ch := channel (channels c) chan in
  let d := ata_write ch ATA_REG_HDDEVSEL (Z.lor 0xa0 (Z.shiftl device 4)) (ports s) in
  let d := ata_write ch ATA_REG_COMMAND ATA_CMD_IDENTIFY d in
  let '(status, d) := ata_read ch ATA_REG_STATUS d in
  if status =? 0 then Ok (true, with_ports s d)
  else
    '(found, d) ← wait_identified fuel ch d;
    if negb found then Ok (false, with_ports s d)
    else
      let '(p, s) := new_object (with_ports s d) ATADeviceClass (ATADevice a (Z.land chan 1) (Z.land device 1) 0) in
      '(ok, s) ← register_disk s p;
      if negb ok then Ok (false, delete_object s p) else Ok (true, s).

(** The results are put together and then not returned. *)
Definition probe_channel (s : Disks) (a chan : Z) : outcome (bool * Disks) :=
  '(_, s) ← probe_device s a chan 0;
  '(_, s) ← probe_device s a chan 1;
  Ok (true, s).

Definition ATAController_init (s : Disks) (a : Z) : outcome (bool * Disks) :=
  c ← in_bounds (controllers s !! a);
  let d := snd (ata_read (fst (channels c)) ATA_REG_STATUS (ports s)) in
  let d := ata_write (fst (channels c)) ATA_REG_CONTROL 2 d in
  let d := ata_write (snd (channels c)) ATA_REG_CONTROL 2 d in
  '(ok0, s) ← probe_channel (with_ports s d) a 0;
  '(ok1, s) ← probe_channel s a 1;
  Ok (ok0 && ok1, s).
End blocks.
End driver.
Arguments Disks D : clear implicits.
