(* ===== verification/AtaTheorems.v ===== *)
(** * Disks behind the ports of a channel

    [Channel] is what the ATA standard says of the eight ports of a channel
    with up to two drives, as far as reading by programmed input goes: the
    registers for sector number and count are two deep, commands are obeyed
    only while the channel is not busy, a command to read makes the blocks
    available one after the other.  How long the drive is busy is arbitrary. *)
From S2P Require Import Prelude RBMap RBMapRep RBMapProof RBMapTheorems CString CStringProof Devices Mutex Ata Memory TarFS.

Record Channel := {
  fifo : Z -> Z * Z; (* the value written last, and the one before *)
  devhead : Z;
  pending : list (option (list Z)); (* the blocks to come, [None] if one cannot be read *)
  expected : Z; (* blocks that a command to write waits for *)
  waiting : nat; (* how often the status will still be busy *)
  ticks : nat
}.

Section channel.
(** The drives with their blocks and identifications, and their delays. *)
Context (drive_at : Z -> option (Z -> option (list Z))) (identity : Z -> list Z) (latency : nat -> nat).

Definition selected (c : Channel) : Z := devhead c / 16 mod 2.
Definition sector_count (c : Channel) : Z :=
  let n := fst (fifo c 2) + 256 * snd (fifo c 2) in if n =? 0 then 65536 else n.
Definition sector (c : Channel) : Z :=
  fst (fifo c 3) + 2 ^ 8 * fst (fifo c 4) + 2 ^ 16 * fst (fifo c 5) +
  2 ^ 24 * snd (fifo c 3) + 2 ^ 32 * snd (fifo c 4) + 2 ^ 40 * snd (fifo c 5).

Definition obey (c : Channel) (blocks : list (option (list Z))) (expect : Z) : Channel :=
  {| fifo := fifo c; devhead := devhead c; pending := blocks; expected := expect;
     waiting := latency (ticks c); ticks := S (ticks c) |}.

Definition command (v : Z) (c : Channel) : Channel :=
  match drive_at (selected c) with
  | None => c
  | Some blocks =>
      if negb (Z.testbit (devhead c) 6) && negb (v =? 0xEC) then obey c [None] 0
      else if v =? 0x24 then obey c ((fun i => blocks (sector c + i)) <$> seqZ 0 (sector_count c)) 0
      else if v =? 0x34 then obey c [] (sector_count c)
      else if v =? 0xEC then obey c [Some (identity (selected c))] 0
      else obey c [None] 0
  end.

Definition status (c : Channel) : Z :=
  match drive_at (selected c) with
  | None => 0
  | Some _ =>
      match pending c with
      | None :: _ => 0x51
      | Some _ :: _ => 0x58
      | [] => if expected c =? 0 then 0x50 else 0x58
      end
  end.

(** The value before goes to the second place. *)
Definition push (c : Channel) (r v : Z) : Channel :=
  {| fifo := fun x => if x =? r then (v, fst (fifo c r)) else fifo c x; devhead := devhead c; pending := pending c;
     expected := expected c; waiting := waiting c; ticks := ticks c |}.

Definition chan_outb (r v : Z) (c : Channel) : Channel :=
  if (0 <? waiting c)%nat then c
  else if (2 <=? r) && (r <=? 5) then push c r v
  else if r =? 6 then
    {| fifo := fifo c; devhead := v; pending := pending c; expected := expected c; waiting := waiting c; ticks := ticks c |}
  else if r =? 7 then command v c
  else c.

Definition chan_inb (r : Z) (c : Channel) : Z * Channel :=
  if r =? 7 then
    match waiting c with
    | S n => (0x80, {| fifo := fifo c; devhead := devhead c; pending := pending c; expected := expected c; waiting := n; ticks := ticks c |})
    | O => (status c, c)
    end
  else (0, c).

(** After the last byte of a block: the drive fetches the next, or is idle. *)
Definition next_block (c : Channel) (rest : list (option (list Z))) : Channel :=
  match rest with
  | [] => {| fifo := fifo c; devhead := devhead c; pending := []; expected := 0; waiting := 0; ticks := ticks c |}
  | _ => obey c rest 0
  end.

(** [k] bytes of the data port. *)
Definition take_data (k : nat) (c : Channel) : list Z * Channel :=
  match waiting c, pending c with
  | O, Some bs :: rest =>
      (take k bs,
       if (length bs <=? k)%nat then next_block c rest
       else {| fifo := fifo c; devhead := devhead c; pending := Some (drop k bs) :: rest; expected := expected c;
               waiting := 0; ticks := ticks c |})
  | _, _ => (replicate k 255, c)
  end.

Definition le_word (bs : list Z) : Z := foldr (fun b r => b + 256 * r) 0 bs.

(** What the ports of the machine do at the channel whose registers are from
    port [b] on: [view] is the channel. *)
Class AtaPorts (D : Type) `{Ports D} (b : Z) (view : D -> Channel) := {
  ap_outb p v d : view (outb p v d) = if (b <=? p) && (p <? b + 8) then chan_outb (p - b) v (view d) else view d;
  ap_inb p d : b <= p < b + 8 -> fst (inb p d) = fst (chan_inb (p - b) (view d)) /\ view (snd (inb p d)) = snd (chan_inb (p - b) (view d));
  ap_inw d : fst (inw b d) = le_word (fst (take_data 2 (view d))) /\ view (snd (inw b d)) = snd (take_data 2 (view d));
  ap_inl d : fst (inl b d) = le_word (fst (take_data 4 (view d))) /\ view (snd (inl b d)) = snd (take_data 4 (view d))
}.

(** Blocks that can be read have 512 bytes. *)
Definition block_ok (b : option (list Z)) : Prop := forall bs, b = Some bs -> length bs = 512%nat /\ Forall is_byte bs.

Section driver.
Context {D : Type} `{AtaPorts D b view}.
Context (ch : ChannelRegisters) (Hbase : base ch = b) (Hb : 0 <= b) (Hb8 : b + 8 <= 65536).
Context (Hctrl : ~ b <= u16 (ctrl ch + 2) < b + 8).
Context (fuel : nat) (Hfast : forall n, (latency n < fuel)%nat).

(** ** Registers *)
Lemma view_control v d : view (write_reg ch ATA_REG_CONTROL v d) = view d.
Proof.
  unfold write_reg, reg_port. change (ATA_REG_CONTROL <? 8) with false. change (ATA_REG_CONTROL <? 12) with false.
  change (ATA_REG_CONTROL <? 14) with true. cbn iota.
  replace (ctrl ch + ATA_REG_CONTROL - 10) with (ctrl ch + 2) by (unfold ATA_REG_CONTROL; lia).
  rewrite ap_outb. destruct (Z.leb_spec b (u16 (ctrl ch + 2))); [|done]. rewrite ltb_false by lia. done.
Qed.

Lemma view_write_low r v d : 0 <= r < 8 -> view (ata_write ch r v d) = chan_outb r (u8 v) (view d).
Proof.
  intros Hr. unfold ata_write, is_high. rewrite (ltb_false 7 r) by lia. cbn [andb]. cbn iota.
  unfold write_reg, reg_port. rewrite (ltb_true r 8) by lia. cbn iota. rewrite Hbase, Z.sub_0_r, (wrap_small 16 (b + r)) by lia.
  rewrite ap_outb, leb_true, ltb_true by lia. cbn [andb]. f_equal. lia.
Qed.

Lemma view_write_high r v d : 8 <= r < 12 -> view (ata_write ch r v d) = chan_outb (r - 6) (u8 v) (view d).
Proof.
  intros Hr. unfold ata_write, is_high. rewrite (ltb_true 7 r), (ltb_true r 12) by lia. cbn [andb]. rewrite view_control.
  unfold write_reg at 1. unfold reg_port. rewrite (ltb_false r 8), (ltb_true r 12) by lia. cbn iota.
  rewrite Hbase, (wrap_small 16 (b + r - 6)) by lia. rewrite ap_outb, leb_true, ltb_true by lia. cbn [andb].
  rewrite view_control. f_equal. lia.
Qed.

Lemma read_status d : exists d', ata_read ch ATA_REG_STATUS d = (fst (chan_inb 7 (view d)), d') /\ view d' = snd (chan_inb 7 (view d)).
Proof.
  unfold ata_read. change (is_high ATA_REG_STATUS) with false. cbn iota. unfold reg_port, ATA_REG_STATUS. change (7 <? 8) with true.
  cbn iota. rewrite Hbase, Z.sub_0_r, (wrap_small 16 (b + 7)) by lia. assert (b <= b + 7 < b + 8) as Hp by lia. destruct (ap_inb (b + 7) d Hp) as [E1 E2].
  destruct (inb (b + 7) d) as [v d'] eqn:E. exists d'. cbn in E1, E2. replace (b + 7 - b) with 7 in * by lia. by rewrite E1, E2.
Qed.

(** ** Waiting *)
Definition settled (c c' : Channel) : Prop :=
  waiting c' = O /\ fifo c' = fifo c /\ devhead c' = devhead c /\ pending c' = pending c /\ expected c' = expected c /\ ticks c' = ticks c.

Lemma wait_spec n : forall d, waiting (view d) = n -> forall k, (n < k)%nat ->
  exists d', wait_not_busy k ch d = Ok d' /\ settled (view d) (view d').
Proof.
  induction n as [|n IH]; intros d Hn k Hk; (destruct k as [|k]; [lia|]); cbn [wait_not_busy];
    destruct (read_status d) as (d1 & -> & E1); unfold chan_inb in *; cbn [Z.eqb Pos.eqb] in *; rewrite Hn in *; cbn [fst snd] in *.
  - assert (Z.land (status (view d)) ATA_SR_BSY =? 0 = true) as ->.
    { unfold status. destruct (drive_at _); [|done]. destruct (pending (view d)) as [|[]]; [by destruct (expected (view d) =? 0)|done..]. }
    cbn [negb]. exists d1. split; [done|]. rewrite E1. done.
  - change (Z.land 128 ATA_SR_BSY =? 0) with false. cbn [negb].
    destruct (IH d1) with (k := k) as (d2 & E2 & Hs); [by rewrite E1|lia|]. exists d2. split; [done|].
    unfold settled in *. rewrite E1 in Hs. exact Hs.
Qed.

(** Polling tells what the next block is. *)
Lemma poll_spec d bo rest blocks : (waiting (view d) < fuel)%nat -> drive_at (selected (view d)) = Some blocks ->
  pending (view d) = bo :: rest ->
  exists d' e, ata_poll fuel ch true d = Ok (e, d') /\ settled (view d) (view d') /\ (e =? 0) = bool_decide (is_Some bo).
Proof.
  intros Hw Hsel Hp. unfold ata_poll. destruct (wait_spec _ d eq_refl fuel Hw) as (d1 & E1 & Hs). step_to E1.
  destruct Hs as (Hw1 & Hf & Hd & Hpe & Hx & Ht). destruct (read_status d1) as (d2 & -> & E2).
  unfold chan_inb in *. cbn [Z.eqb Pos.eqb] in *. rewrite Hw1 in *. cbn [fst snd] in *.
  unfold status. unfold selected in *. rewrite Hd, Hsel, Hpe, Hp. exists d2. rewrite E2. destruct bo as [bs|].
  - change (Z.land 88 ATA_SR_ERR =? 0) with true. change (Z.land 88 ATA_SR_DF =? 0) with true. change (Z.land 88 ATA_SR_DRQ =? 0) with false.
    exists 0. split; [done|]. split; [done|]. by rewrite bool_decide_true by done.
  - change (Z.land 81 ATA_SR_ERR =? 0) with false. exists 2. split; [done|]. split; [done|].
    rewrite bool_decide_false; [done|]. by intros [].
Qed.
(** ** Data *)
Lemma le_word_digits b0 r : is_byte b0 -> (b0 + 256 * r) mod 256 = b0 /\ (b0 + 256 * r) / 256 = r.
Proof.
  unfold is_byte. intros Hb0. rewrite (Z.mul_comm 256 r). split; [by rewrite Z.mod_add, Z.mod_small by lia|].
  by rewrite Z.div_add, Z.div_small by lia.
Qed.

Lemma take_data_spec k d bs rest : waiting (view d) = O -> pending (view d) = Some bs :: rest ->
  take_data k (view d) = (take k bs, if (length bs <=? k)%nat then next_block (view d) rest
    else {| fifo := fifo (view d); devhead := devhead (view d); pending := Some (drop k bs) :: rest; expected := expected (view d);
            waiting := 0; ticks := ticks (view d) |}).
Proof. intros Hw Hp. unfold take_data. by rewrite Hw, Hp. Qed.

Lemma insw_spec k : forall d bs rest, waiting (view d) = O -> pending (view d) = Some bs :: rest ->
  length bs = (2 * S k)%nat -> Forall is_byte bs ->
  exists d', insw (S k) b d = (bs, d') /\ view d' = next_block (view d) rest.
Proof.
  induction k as [|k IH]; intros d bs rest Hw Hp Hl Hbs; destruct bs as [|b0 [|b1 bs]]; [done|cbn in Hl; lia| |done|cbn in Hl; lia|];
    apply Forall_cons in Hbs as [Hy0 Hbs]; apply Forall_cons in Hbs as [Hy1 Hbs];
    cbn [insw]; destruct (ap_inw d) as [E1 E2]; rewrite (take_data_spec 2 d _ _ Hw Hp) in E1, E2;
    destruct (inw b d) as [w d1]; cbn [fst snd take le_word foldr] in E1, E2; rewrite take_0 in E1; cbn [foldr] in E1;
    destruct (le_word_digits b0 (b1 + 256 * 0) Hy0) as [D0 D1]; rewrite <- E1 in D0, D1; rewrite D0, D1, Z.mul_0_r, Z.add_0_r.
  - destruct bs; [|cbn in Hl; lia]. exists d1. done.
  - rewrite (proj2 (Nat.leb_gt _ _)) in E2 by (cbn in Hl |- *; lia). cbn [drop] in E2.
    destruct (IH d1 bs rest) as (d2 & E & Ev); [by rewrite E2|by rewrite E2|cbn in Hl; lia|done|].
    cbn [insw] in E. rewrite E. exists d2. split; [done|]. rewrite Ev, E2. by destruct rest.
Qed.

Lemma insl_spec k : forall d bs rest, waiting (view d) = O -> pending (view d) = Some bs :: rest ->
  length bs = (4 * S k)%nat -> Forall is_byte bs ->
  exists d', insl (S k) b d = (bs, d') /\ view d' = next_block (view d) rest.
Proof.
  induction k as [|k IH]; intros d bs rest Hw Hp Hl Hbs; destruct bs as [|b0 [|b1 [|b2 [|b3 bs]]]]; try (cbn in Hl; lia);
    apply Forall_cons in Hbs as [Hy0 Hbs]; apply Forall_cons in Hbs as [Hy1 Hbs];
    apply Forall_cons in Hbs as [Hy2 Hbs]; apply Forall_cons in Hbs as [Hy3 Hbs];
    cbn [insl]; destruct (ap_inl d) as [E1 E2]; rewrite (take_data_spec 4 d _ _ Hw Hp) in E1, E2;
    destruct (inl b d) as [w d1]; cbn [fst snd take le_word foldr] in E1, E2; rewrite take_0 in E1; cbn [foldr] in E1;
    destruct (le_word_digits b0 (b1 + 256 * (b2 + 256 * (b3 + 256 * 0))) Hy0) as [D0 D1]; rewrite <- E1 in D0, D1;
    destruct (le_word_digits b1 (b2 + 256 * (b3 + 256 * 0)) Hy1) as [D2 D3]; destruct (le_word_digits b2 (b3 + 256 * 0) Hy2) as [D4 D5];
    assert (w mod 256 = b0 /\ w / 256 mod 256 = b1 /\ w / 65536 mod 256 = b2 /\ w / 16777216 = b3) as (-> & -> & -> & ->)
      by (change 65536 with (256 * 256); change 16777216 with (256 * (256 * 256)); rewrite <- !Z.div_div by lia;
          rewrite D1, D3, D5; repeat split; [done..|lia]).
  - destruct bs; [|cbn in Hl; lia]. exists d1. done.
  - rewrite (proj2 (Nat.leb_gt _ _)) in E2 by (cbn in Hl |- *; lia). cbn [drop] in E2.
    destruct (IH d1 bs rest) as (d2 & E & Ev); [by rewrite E2|by rewrite E2|cbn in Hl; lia|done|].
    cbn [insl] in E. rewrite E. exists d2. split; [done|]. rewrite Ev, E2. by destruct rest.
Qed.

(** What a list of blocks gives up to the first that cannot be read. *)
Fixpoint gather (l : list (option (list Z))) : bool * list Z :=
  match l with
  | [] => (true, [])
  | None :: _ => (false, [])
  | Some bs :: l => let '(ok, rest) := gather l in (ok, bs ++ rest)
  end.

Lemma blocks_read_spec n : forall d blocks, (waiting (view d) < fuel)%nat -> drive_at (selected (view d)) = Some blocks ->
  length (pending (view d)) = n -> (pending (view d) = [] -> waiting (view d) = O) -> Forall block_ok (pending (view d)) ->
  exists d', read_loop n fuel ch d = Ok (fst (gather (pending (view d))), snd (gather (pending (view d))), d') /\ waiting (view d') = O.
Proof.
  induction n as [|n IH]; intros d blocks Hw Hsel Hn Hidle Hok.
  { destruct (pending (view d)) as [|]; [|done]. exists d. split; [done|]. by apply Hidle. }
  destruct (pending (view d)) as [|bo rest] eqn:Hp; [done|]. apply Forall_cons in Hok as [Hbo Hok].
  destruct (poll_spec d bo rest blocks Hw Hsel Hp) as (d1 & e & E1 & (Hw1 & Hf & Hd & Hpe & Hx & Ht) & He).
  cbn [read_loop]. step_to E1. rewrite He. destruct bo as [bs|].
  - rewrite bool_decide_true by done. cbn [negb]. destruct (Hbo bs eq_refl) as [Hl Hbytes].
    rewrite Hp in Hpe. rewrite Hbase.
    change (512 / 2)%nat with 256%nat. destruct (insw_spec 255 d1 bs rest Hw1 Hpe) as (d2 & E2 & Ev); [by rewrite Hl|done|].
    rewrite E2. destruct (IH d2 blocks) as (d3 & E3 & Hw3); rewrite ?Ev.
    + destruct rest; [cbn; lia|apply Hfast].
    + unfold selected in *. destruct rest; cbn [next_block obey devhead]; by rewrite Hd.
    + destruct rest; cbn in Hn |- *; lia.
    + by destruct rest.
    + by destruct rest.
    + step_to E3. rewrite Ev. assert (pending (next_block (view d1) rest) = rest) as -> by by destruct rest.
      cbn [gather]. destruct (gather rest) as [ok more]. exists d3. done.
  - rewrite bool_decide_false by (by intros []). exists d1. done.
Qed.

(** ** The registers of a command *)
Lemma bytes_of_sector lba : 0 <= lba < 2 ^ 48 ->
  lba = lba mod 2 ^ 8 + 2 ^ 8 * (lba / 2 ^ 8 mod 2 ^ 8) + 2 ^ 16 * (lba / 2 ^ 16 mod 2 ^ 8) +
    2 ^ 24 * (lba / 2 ^ 24 mod 2 ^ 8) + 2 ^ 32 * (lba / 2 ^ 32 mod 2 ^ 8) + 2 ^ 40 * (lba / 2 ^ 40 mod 2 ^ 8).
Proof.
  intros Hl.
  assert (forall k, 0 <= k -> lba / 2 ^ k = lba / 2 ^ k mod 2 ^ 8 + 2 ^ 8 * (lba / 2 ^ (k + 8))) as Hs.
  { intros k Hk. rewrite Z.pow_add_r, <- Z.div_div by lia. pose proof (Z.div_mod (lba / 2 ^ k) (2 ^ 8)). lia. }
  pose proof (Hs 0 ltac:(lia)) as H00. pose proof (Hs 8 ltac:(lia)) as H8. pose proof (Hs 16 ltac:(lia)) as H16.
  pose proof (Hs 24 ltac:(lia)) as H24. pose proof (Hs 32 ltac:(lia)) as H32. pose proof (Hs 40 ltac:(lia)) as H40.
  change (0 + 8) with 8 in H00. change (8 + 8) with 16 in H8. change (16 + 8) with 24 in H16. change (24 + 8) with 32 in H24.
  change (32 + 8) with 40 in H32. change (40 + 8) with 48 in H40. rewrite Z.pow_0_r, Z.div_1_r in H00. rewrite (Z.div_small lba (2 ^ 48)) in H40 by lia. lia.
Qed.

Lemma byte_of_sector lba k : 0 <= k -> u8 (Z.land (Z.shiftr lba k) 0xff) = lba / 2 ^ k mod 2 ^ 8.
Proof.
  intros Hk. change 0xff with (Z.ones 8). rewrite Z.land_ones, Z.shiftr_div_pow2 by lia. unfold wrap. by rewrite Z.mod_mod by lia.
Qed.

Lemma outb_push r v c : waiting c = O -> 2 <= r <= 5 -> chan_outb r v c = push c r v.
Proof. intros Hw Hr. unfold chan_outb. rewrite Hw. cbn [Nat.ltb Nat.leb]. by rewrite !leb_true by lia. Qed.

Lemma outb_head v c : waiting c = O -> waiting (chan_outb 6 v c) = O /\ devhead (chan_outb 6 v c) = v /\ ticks (chan_outb 6 v c) = ticks c.
Proof. intros Hw. unfold chan_outb. rewrite Hw. done. Qed.

Ltac push_next :=
  match goal with W : waiting ?c = O |- context [chan_outb ?r ?v ?c] =>
    rewrite (outb_push r v c W) by lia; assert (waiting (push c r v) = O) by exact W
  end.

Lemma program_spec d drive lba n : waiting (view d) = O -> drive = 0 \/ drive = 1 -> 0 <= lba < 2 ^ 48 -> 1 <= n <= 255 ->
  let c := view (program ch drive lba n d) in
  waiting c = O /\ selected c = drive /\ Z.testbit (devhead c) 6 = true /\ sector_count c = n /\ sector c = lba.
Proof.
  intros Hw Hdrive Hlba Hn c. subst c. unfold program.
  rewrite !view_write_low by (unfold ATA_REG_LBA2, ATA_REG_LBA1, ATA_REG_LBA0, ATA_REG_SECCOUNT0; lia).
  rewrite !view_write_high by (unfold ATA_REG_LBA5, ATA_REG_LBA4, ATA_REG_LBA3, ATA_REG_SECCOUNT1; lia).
  rewrite view_write_low by (unfold ATA_REG_HDDEVSEL; lia). rewrite !byte_of_sector by lia.
  rewrite Z.pow_0_r, Z.div_1_r, (wrap_small 8 n), (wrap_small 8 0) by lia.
  set (h := u8 _). assert (h / 16 mod 2 = drive /\ Z.testbit h 6 = true) as [Hsel Hlb] by (unfold h; destruct Hdrive as [-> | ->]; done).
  clearbody h. unfold ATA_REG_HDDEVSEL, ATA_REG_SECCOUNT1, ATA_REG_LBA3, ATA_REG_LBA4, ATA_REG_LBA5, ATA_REG_SECCOUNT0, ATA_REG_LBA0, ATA_REG_LBA1, ATA_REG_LBA2.
  change (8 - 6) with 2. change (9 - 6) with 3. change (10 - 6) with 4. change (11 - 6) with 5.
  destruct (outb_head h (view d) Hw) as (W & Hh & _). set (c0 := chan_outb 6 h (view d)) in *. clearbody c0.
  do 8 push_next. split_and!; [done|unfold selected; cbn [push devhead]; by rewrite Hh|cbn [push devhead]; by rewrite Hh| |].
  all: match goal with |- context [sector_count ?c] => set (c8 := c) | |- context [sector ?c] => set (c8 := c) end.
  - unfold sector_count. assert (fifo c8 2 = (n, 0)) as -> by reflexivity. cbn [fst snd]. by rewrite Z.mul_0_r, Z.add_0_r, eqb_false by lia.
  - unfold sector. assert (fifo c8 3 = (lba mod 2 ^ 8, lba / 2 ^ 24 mod 2 ^ 8)) as -> by reflexivity.
    assert (fifo c8 4 = (lba / 2 ^ 8 mod 2 ^ 8, lba / 2 ^ 32 mod 2 ^ 8)) as -> by reflexivity.
    assert (fifo c8 5 = (lba / 2 ^ 16 mod 2 ^ 8, lba / 2 ^ 40 mod 2 ^ 8)) as -> by reflexivity.
    cbn [fst snd]. clear - Hlba. symmetry. exact (bytes_of_sector lba Hlba).
Qed.

(** ** Transfers *)
Definition blocks_from (blocks : Z -> option (list Z)) (lba n : Z) : list (option (list Z)) := (fun i => blocks (lba + i)) <$> seqZ 0 n.

Lemma length_blocks_from blocks lba n : length (blocks_from blocks lba n) = Z.to_nat n.
Proof. unfold blocks_from. by rewrite length_fmap, length_seqZ. Qed.

Lemma channel_with {A} (x : A * A) c v : channel (with_channel x c v) c = v.
Proof. unfold channel, with_channel. by destruct (c =? 0). Qed.

Lemma lock_free m thread : _locked m = 0 -> lock m thread = Ok {| _locked := 1; _owner := Some thread |}.
Proof. intros E. unfold lock, test_and_set. by rewrite E. Qed.

Lemma view_command v d : waiting (view d) = O -> view (ata_write ch ATA_REG_COMMAND v d) = command (u8 v) (view d).
Proof.
  intros Hw. rewrite view_write_low by (unfold ATA_REG_COMMAND; lia). unfold chan_outb. by rewrite Hw.
Qed.

Lemma transfer_spec c chan drive lba n d blocks thread :
  channel (channels c) chan = ch -> _locked (channel (_mtx c) chan) = 0 -> (waiting (view d) < fuel)%nat ->
  drive = 0 \/ drive = 1 -> drive_at drive = Some blocks -> (forall i, block_ok (blocks i)) -> 0 <= lba < 2 ^ 48 -> 1 <= n <= 255 ->
  exists c' d', transfer fuel thread c chan drive 0 lba n d =
      Ok (fst (gather (blocks_from blocks lba n)), snd (gather (blocks_from blocks lba n)), c', d') /\
    waiting (view d') = O /\ channels c' = channels c /\ _locked (channel (_mtx c') chan) = 0.
Proof.
  intros Hch Hm Hw Hdrive Hd Hok Hlba Hn. unfold transfer. step_to (lock_free _ thread Hm). cbn [channels _mtx]. rewrite Hch.
  destruct (wait_spec _ d eq_refl fuel Hw) as (d1 & E1 & Hs). step_to E1. destruct Hs as (Hw1 & _).
  destruct (program_spec d1 drive lba n Hw1 Hdrive Hlba Hn) as (Hw2 & Hsel & Hlb & Hcount & Hsec).
  set (d2 := program ch drive lba n d1) in *. change (negb (0 =? 0)) with false. cbn iota.
  assert (view (ata_write ch ATA_REG_COMMAND ATA_CMD_READ_PIO_EXT d2) = obey (view d2) (blocks_from blocks lba n) 0) as Ev.
  { rewrite (view_command _ _ Hw2). unfold command. rewrite Hsel, Hd, Hlb, Hcount, Hsec. done. }
  destruct (blocks_read_spec (Z.to_nat n) (ata_write ch ATA_REG_COMMAND ATA_CMD_READ_PIO_EXT d2) blocks) as (d3 & E3 & Hw3);
    rewrite ?Ev; cbn [obey waiting pending devhead].
  - apply Hfast.
  - unfold selected in *. cbn [obey devhead]. by rewrite Hsel.
  - by rewrite length_blocks_from.
  - intros E. apply (f_equal length) in E. rewrite length_blocks_from in E. cbn in E. lia.
  - apply Forall_fmap, Forall_forall. intros i _. apply Hok.
  - rewrite Ev in E3. cbn [obey pending] in E3. step_to E3.
    eexists _, d3. split; [done|]. split; [done|]. split; [done|]. cbn [_mtx]. by rewrite channel_with.
Qed.

(** A command to write is given, no data are, and the result is true. *)
Lemma write_sends_nothing c chan drive lba n d blocks thread :
  channel (channels c) chan = ch -> _locked (channel (_mtx c) chan) = 0 -> (waiting (view d) < fuel)%nat ->
  drive = 0 \/ drive = 1 -> drive_at drive = Some blocks -> 0 <= lba < 2 ^ 48 -> 1 <= n <= 255 ->
  exists c' d', transfer fuel thread c chan drive 1 lba n d = Ok (true, [], c', d') /\ expected (view d') = n.
Proof.
  intros Hch Hm Hw Hdrive Hd Hlba Hn. unfold transfer. step_to (lock_free _ thread Hm). cbn [channels _mtx]. rewrite Hch.
  destruct (wait_spec _ d eq_refl fuel Hw) as (d1 & E1 & Hs). step_to E1. destruct Hs as (Hw1 & _).
  destruct (program_spec d1 drive lba n Hw1 Hdrive Hlba Hn) as (Hw2 & Hsel & Hlb & Hcount & Hsec).
  change (negb (1 =? 0)) with true. cbn iota. eexists _, _. split; [done|].
  rewrite (view_command _ _ Hw2). unfold command. rewrite Hsel, Hd, Hlb, Hcount. done.
Qed.
(** ** Block devices *)
Section devices.
Context (thread a chan drive : Z) (blocks : Z -> option (list Z)).
Context (Hdrive : drive = 0 \/ drive = 1) (Hblocks : drive_at drive = Some blocks) (Hok : forall i, block_ok (blocks i)).

(** The controller of the channel is free, and the channel answers. *)
Definition ready (s : Disks D) : Prop :=
  exists c, controllers s !! a = Some c /\ channel (channels c) chan = ch /\ _locked (channel (_mtx c) chan) = 0 /\
    (waiting (view (ports s)) < fuel)%nat.

(** Moreover it is not busy. *)
Definition quiet (s : Disks D) : Prop := ready s /\ waiting (view (ports s)) = O.

(** [p] is the disk, or a partition of it from sector [start] on. *)
Definition leads (s : Disks D) (p start : Z) : Prop :=
  (start = 0 /\ exists size, objects s !! p = Some (ATADevice a chan drive size)) \/
  (exists disk size count, objects s !! p = Some (BlockDevicePartition disk start count) /\ objects s !! disk = Some (ATADevice a chan drive size)).

Lemma disk_access s p size depth off n : ready s -> objects s !! p = Some (ATADevice a chan drive size) -> 0 <= off < 2 ^ 48 -> 1 <= n <= 255 ->
  exists s', access_blocks fuel thread (S depth) s p 0 off n =
      Ok (fst (gather (blocks_from blocks off n)), snd (gather (blocks_from blocks off n)), s') /\
    quiet s' /\ objects s' = objects s /\ devices s' = devices s /\ next_object s' = next_object s.
Proof.
  intros (c & Hc & Hch & Hm & Hw) Ho Hoff Hn. cbn [access_blocks]. rewrite Ho. cbn [in_bounds mbind outcome_bind]. rewrite Hc.
  cbn [in_bounds mbind outcome_bind].
  destruct (transfer_spec c chan drive off n (ports s) blocks thread Hch Hm Hw Hdrive Hblocks Hok Hoff Hn) as (c' & d' & E & Hw' & Hcs & Hm').
  step_to E. eexists. split; [done|]. split; [|done]. split; [|done]. exists c'. cbn. rewrite lookup_insert_eq, Hcs, Hw'. split_and!; [done..|lia].
Qed.

Lemma read_blocks_spec s p start off n : ready s -> leads s p start -> 0 <= start -> 0 <= off -> start + off < 2 ^ 48 -> 1 <= n <= 255 ->
  exists s', read_blocks fuel thread s p off n =
      Ok (fst (gather (blocks_from blocks (start + off) n)), snd (gather (blocks_from blocks (start + off) n)), s') /\
    quiet s' /\ objects s' = objects s /\ devices s' = devices s /\ next_object s' = next_object s.
Proof.
  intros Hr Hp Hs Hoff Hend Hn. unfold read_blocks.
  destruct Hp as [[-> [size Ho]]|(disk & size & count & Ho & Hdisk)]; [by apply (disk_access s p size)|].
  cbn [access_blocks]. rewrite Ho. cbn [in_bounds mbind outcome_bind]. rewrite wrap_small by lia.
  assert (exists k, base.size (objects s) = S k) as [k ->].
  { exists (pred (base.size (objects s))). assert (base.size (objects s) <> 0)%nat; [|lia]. intros E. apply map_size_empty_inv in E. by rewrite E in Ho. }
  apply (disk_access s disk size k); [done|done|lia|done].
Qed.

(** Requests to the disk and its partitions, one after the other. *)
Fixpoint run_reads (s : Disks D) (requests : list (Z * Z * Z)) : outcome (list (bool * list Z) * Disks D) :=
  match requests with
  | [] => Ok ([], s)
  | (p, off, n) :: rest =>
      '(ok, bs, s) ← read_blocks fuel thread s p off n;
      '(answers, s) ← run_reads s rest;
      Ok ((ok, bs) :: answers, s)
  end.
(** What a request should give, with [start] the first sector of each device. *)
Definition answer (start : Z -> Z) (request : Z * Z * Z) : bool * list Z :=
  let '(p, off, n) := request in gather (blocks_from blocks (start p + off) n).

Definition request_ok (s : Disks D) (start : Z -> Z) (request : Z * Z * Z) : Prop :=
  let '(p, off, n) := request in
  leads s p (start p) /\ 0 <= start p /\ 0 <= off /\ start p + off < 2 ^ 48 /\ 1 <= n <= 255.

Lemma leads_eq s s' p start : objects s' = objects s -> leads s p start -> leads s' p start.
Proof. intros E. unfold leads. by rewrite E. Qed.

Lemma run_reads_spec start requests : forall s, ready s -> Forall (request_ok s start) requests ->
  exists s', run_reads s requests = Ok (answer start <$> requests, s') /\ ready s' /\
    objects s' = objects s /\ devices s' = devices s.
Proof.
  induction requests as [|[[p off] n] rest IH]; intros s Hr Hq; [by exists s|].
  apply Forall_cons in Hq as [(Hp & Hs & Hoff & Hend & Hn) Hq].
  destruct (read_blocks_spec s p (start p) off n Hr Hp Hs Hoff Hend Hn) as (s1 & E1 & [Hr1 _] & Ho1 & Hd1 & _).
  cbn [run_reads]. step_to E1. destruct (IH s1 Hr1) as (s2 & E2 & Hr2 & Ho2 & Hd2).
  { eapply Forall_impl; [exact Hq|]. intros [[p' off'] n'] (Hl & ?). split; [|done]. by apply (leads_eq s s1). }
  step_to E2. exists s2. split; [|split; [done|split; congruence]]. rewrite fmap_cons. cbn [answer]. by destruct (gather _).
Qed.
End devices.
End driver.

(** ** A machine that is nothing but a channel *)
Section machine.
Context (b : Z).

#[export] Instance channel_ports : Ports Channel := {
  outb p v c := if (b <=? p) && (p <? b + 8) then chan_outb (p - b) v c else c;
  inb p c := if (b <=? p) && (p <? b + 8) then chan_inb (p - b) c else (0, c);
  inw p c := let '(bs, c) := take_data 2 c in (le_word bs, c);
  outl p v c := c;
  inl p c := let '(bs, c) := take_data 4 c in (le_word bs, c)
}.

#[export] Instance channel_laws : AtaPorts Channel b id.
Proof.
  split; cbn.
  - intros p v d. by destruct (_ && _).
  - intros p d Hp. by rewrite leb_true, ltb_true by lia.
  - intros d. by destruct (take_data 2 d).
  - intros d. by destruct (take_data 4 d).
Qed.
End machine.
End channel.

(** ** Partitions *)
Notation hash x := (fst (get_hash x)).

Definition entry_type (table : list Z) (j : nat) : Z := nth (0x1be + 16 * j + 4) table 0.
Definition entry_first (table : list Z) (j : nat) : Z := le_word (take 4 (drop (0x1be + 16 * j + 8) table)).
Definition entry_sectors (table : list Z) (j : nat) : Z := le_word (take 4 (drop (0x1be + 16 * j + 12) table)).

Lemma le32_spec buf off : (off + 4 <= length buf)%nat -> le32 buf off = Ok (le_word (take 4 (drop off buf))).
Proof.
  intros Hl. unfold le32.
  destruct (lookup_lt_is_Some_2 buf off ltac:(lia)) as [b0 E0]. destruct (lookup_lt_is_Some_2 buf (off + 1) ltac:(lia)) as [b1 E1].
  destruct (lookup_lt_is_Some_2 buf (off + 2) ltac:(lia)) as [b2 E2]. destruct (lookup_lt_is_Some_2 buf (off + 3) ltac:(lia)) as [b3 E3].
  rewrite E0, E1, E2, E3. cbn [in_bounds mbind outcome_bind].
  replace (off + 1)%nat with (S off) in E1 by lia. replace (off + 2)%nat with (S (S off)) in E2 by lia.
  replace (off + 3)%nat with (S (S (S off))) in E3 by lia.
  rewrite (drop_S buf b0 off E0), (drop_S buf b1 _ E1), (drop_S buf b2 _ E2), (drop_S buf b3 _ E3).
  cbn [take le_word foldr]. rewrite take_0. cbn [foldr]. f_equal. lia.
Qed.

Lemma entry_spec table j : length table = 512%nat -> (j < 4)%nat ->
  pte_type table (0x1be + 16 * j) = Ok (entry_type table j) /\
  pte_first_absolute_sector_lba table (0x1be + 16 * j) = Ok (entry_first table j) /\
  pte_nr_sectors table (0x1be + 16 * j) = Ok (entry_sectors table j).
Proof.
  intros Hl Hj. unfold pte_type, pte_first_absolute_sector_lba, pte_nr_sectors. split_and!; [|by apply le32_spec; lia..].
  unfold entry_type.
  destruct (lookup_lt_is_Some_2 table (0x1be + 16 * j + 4) ltac:(lia)) as [v E]. rewrite E. cbn. f_equal. symmetry. by apply nth_lookup_Some.
Qed.

Section partitions.
Context {D : Type} `{Ports D}.
Context (BlockDevicePartitionClass disk : Z) (depth : Z -> nat) (disk_name : String) (cname tail : list Z) (k0 : Z) (table : list Z).
Context (Hcname : Forall (fun c => c <> 0) cname) (Hclen : Z.of_nat (length cname) < 2 ^ 64) (Hk0 : 0 <= k0 < 2 ^ 63).
Context (Htable : length table = 512%nat).

(** The names of a partition: its number in its class, and that in its disk. *)
Definition partition_name (m : Z) : String := String_add (String_of cname) (ToString m).
Definition partition_alias (j : nat) : String := String_add (String_add disk_name (String_of [112])) (ToString (Z.of_nat j)).

(** The disk, the class of partitions after [k] of them, and free addresses. *)
Record disks_ok (s : Disks D) (g : gmap Z Z) (k : Z) : Prop := {
  do_dm : dm_ok (devices s) depth g;
  do_disk : exists c, device_memory (devices s) !! disk = Some {| device_class := c; _dname := disk_name |};
  do_class : exists p, device_classes (devices s) !! BlockDevicePartitionClass = Some {| dc_parent := p; dc_name := cname ++ 0 :: tail; instance := k |};
  do_fresh p : next_object s <= p -> objects s !! p = None /\ device_memory (devices s) !! p = None
}.

Lemma new_device_ok dm g p class : dm_ok dm depth g -> device_memory dm !! p = None -> is_Some (device_classes dm !! class) ->
  dm_ok {| _devices := _devices dm; device_classes := device_classes dm;
           device_memory := <[p := {| device_class := class; _dname := String_empty |}]> (device_memory dm) |} depth g.
Proof.
  intros [[Hd Hp] Hm Hk Hc] Hfresh Hcl. split; [split; [exact Hd|exact Hp]|exact Hm| |].
  - intros h d Hh. cbn. rewrite lookup_insert_is_Some. destruct (decide (p = d)); [by left|right]. split; [done|]. by apply (Hk h).
  - intros d x Hx. cbn in Hx |- *. apply lookup_insert_Some in Hx as [[<- <-]|[_ Hx]]; [done|by apply (Hc d)].
Qed.

(** One entry in use. *)
Lemma create_entry s g k first sectors name : disks_ok s g k -> 0 <= k < 2 ^ 64 - 1 ->
  exists s', (let '(p, s) := new_object s BlockDevicePartitionClass (BlockDevicePartition disk first sectors) in
      '(_, dm) ← register_device Device_init (devices s) p;
      x ← device_at dm disk;
      '(_, dm) ← add_device_alias dm (name (_dname x)) p;
      Ok (with_devices s dm)) = Ok s' /\
    disks_ok s' (<[fst (get_hash (name disk_name)) := next_object s]> (<[fst (get_hash (partition_name k)) := next_object s]> g)) (k + 1) /\
    objects s' = <[next_object s := BlockDevicePartition disk first sectors]> (objects s) /\ next_object s' = next_object s + 1 /\
    ports s' = ports s /\ controllers s' = controllers s.
Proof.
  intros [Hdm [cd Hdisk] [par Hcl] Hfresh] Hk. destruct (Hfresh (next_object s) ltac:(lia)) as [Hno Hnm].
  set (p := next_object s) in *. unfold new_object. fold p. cbn [devices].
  set (dm0 := {| _devices := _; device_classes := _; device_memory := _ |}).
  assert (dm_ok dm0 depth g) as Hdm0 by (apply new_device_ok; [done|done|by eexists]).
  destruct (name_device_spec dm0 depth g p {| device_class := BlockDevicePartitionClass; _dname := String_empty |}
    {| dc_parent := par; dc_name := cname ++ 0 :: tail; instance := k |} cname tail Hdm0)
    as (dm1 & Hdm1 & Hmem1 & Hcs1 & E1); [apply lookup_insert_eq|exact Hcl|done|done|done|].
  rewrite (register_spec Device_init dm0 dm1 p E1). cbn [Device_init mbind outcome_bind].
  assert (p <> disk) as Hne by (intros E; rewrite <- E in Hdisk; congruence).
  assert (device_memory dm1 !! disk = Some {| device_class := cd; _dname := disk_name |}) as Hdisk1.
  { rewrite Hmem1, lookup_insert_ne by done. cbn. by rewrite lookup_insert_ne by done. }
  unfold device_at. rewrite Hdisk1. cbn [in_bounds mbind outcome_bind _dname].
  destruct (add_device_spec dm1 depth _ (name disk_name) p Hdm1) as (dm2 & E2 & Hdm2 & Hmem2 & Hcs2).
  { rewrite Hmem1, lookup_insert_eq. by eexists. }
  unfold add_device_alias. step_to E2. eexists. split; [done|]. split; [|done]. split; cbn [with_devices devices objects next_object].
  - exact Hdm2.
  - exists cd. by rewrite Hmem2.
  - exists par. rewrite Hcs2, Hcs1. cbn [device_class dc_parent dc_name instance]. rewrite lookup_insert_eq. by rewrite wrap_small by lia.
  - intros q Hq. rewrite lookup_insert_ne by lia. split; [apply Hfresh; lia|].
    rewrite Hmem2, Hmem1, lookup_insert_ne by lia. cbn. rewrite lookup_insert_ne by lia. apply Hfresh. lia.
Qed.
(** What the map of names and the objects become. *)
Fixpoint enter_names (n i : nat) (g : gmap Z Z) (p k : Z) : gmap Z Z :=
  match n with
  | O => g
  | S n =>
      if entry_type table i =? 0 then enter_names n (S i) g p k
      else enter_names n (S i) (<[hash (partition_alias i) := p]> (<[hash (partition_name k) := p]> g)) (p + 1) (k + 1)
  end.

Fixpoint enter_objects (n i : nat) (o : gmap Z BlockObject) (p : Z) : gmap Z BlockObject :=
  match n with
  | O => o
  | S n =>
      if entry_type table i =? 0 then enter_objects n (S i) o p
      else enter_objects n (S i) (<[p := BlockDevicePartition disk (entry_first table i) (entry_sectors table i)]> o) (p + 1)
  end.

Lemma create_loop_spec n : forall s g k i, disks_ok s g k -> 0 <= k -> k + Z.of_nat n < 2 ^ 64 -> (i + n <= 4)%nat ->
  exists s' k', create_loop BlockDevicePartitionClass n s disk table i = Ok s' /\
    disks_ok s' (enter_names n i g (next_object s) k) k' /\ objects s' = enter_objects n i (objects s) (next_object s) /\
    ports s' = ports s /\ controllers s' = controllers s.
Proof.
  induction n as [|n IH]; intros s g k i Hs Hk Hk' Hi; [by exists s, k|].
  cbn [create_loop enter_names enter_objects]. destruct (entry_spec table i Htable ltac:(lia)) as (Ht & Hf & Hn).
  step_to Ht. destruct (entry_type table i =? 0); cbn [mbind outcome_bind].
  - exact (IH s g k (S i) Hs Hk ltac:(lia) ltac:(lia)).
  - step_to Hf. step_to Hn.
    destruct (create_entry s g k (entry_first table i) (entry_sectors table i)
      (fun x => String_add (String_add x (String_of [112])) (ToString (Z.of_nat i))) Hs) as (s1 & E1 & Hs1 & Ho1 & Hx1 & Hp1 & Hc1); [lia|].
    rewrite (bind_Ok _ _ _ E1).
    destruct (IH s1 _ (k + 1) (S i) Hs1) as (s2 & k2 & E2 & Hs2 & Ho2 & Hp2 & Hc2); [lia..|].
    rewrite Hx1 in *. exists s2, k2. rewrite E2, Ho2, Ho1, Hp2, Hc2. done.
Qed.

Lemma enter_other n : forall i g p k h,
  (forall j, (i <= j < i + n)%nat -> entry_type table j <> 0 -> h <> hash (partition_alias j)) ->
  (forall m, k <= m < k + Z.of_nat n -> h <> hash (partition_name m)) -> enter_names n i g p k !! h = g !! h.
Proof.
  clear Htable Hcname Hclen Hk0.
  induction n as [|n IH]; intros i g p k h Ha Hm; cbn [enter_names]; [done|].
  destruct (Z.eqb_spec (entry_type table i) 0) as [E|E].
  - apply IH; intros; [apply Ha; [lia|done]|apply Hm; lia].
  - rewrite IH by (intros; first [apply Ha; [lia|done]|apply Hm; lia]).
    rewrite !lookup_insert_ne by (apply not_eq_sym; first [apply Ha; [lia|done]|apply Hm; lia]). done.
Qed.

Lemma enter_objects_other n : forall i o p q, q < p -> enter_objects n i o p !! q = o !! q.
Proof.
  clear Htable Hcname Hclen Hk0.
  induction n as [|n IH]; intros i o p q Hq; cbn [enter_objects]; [done|].
  destruct (entry_type table i =? 0); [by apply IH|]. rewrite IH by lia. apply lookup_insert_ne. lia.
Qed.

Lemma enter_lookup n : forall i g o p k j, (i <= j < i + n)%nat -> entry_type table j <> 0 ->
  (forall j', (j < j' < i + n)%nat -> entry_type table j' <> 0 -> hash (partition_alias j) <> hash (partition_alias j')) ->
  (forall m, k <= m < k + Z.of_nat n -> hash (partition_alias j) <> hash (partition_name m)) ->
  exists q, p <= q /\ enter_names n i g p k !! hash (partition_alias j) = Some q /\
    enter_objects n i o p !! q = Some (BlockDevicePartition disk (entry_first table j) (entry_sectors table j)).
Proof.
  clear Htable Hcname Hclen Hk0.
  induction n as [|n IH]; intros i g o p k j Hj Ht Ha Hm; [lia|]. cbn [enter_names enter_objects].
  destruct (decide (i = j)) as [->|Hne].
  - rewrite eqb_false by done. exists p. split; [lia|]. split.
    + rewrite enter_other; [apply lookup_insert_eq| |]; intros; [apply Ha; [lia|done]|apply Hm; lia].
    + rewrite enter_objects_other by lia. apply lookup_insert_eq.
  - destruct (entry_type table i =? 0).
    + apply IH; [lia|done| |]; intros; [apply Ha; [lia|done]|apply Hm; lia].
    + destruct (IH (S i) (<[hash (partition_alias i) := p]> (<[hash (partition_name k) := p]> g))
        (<[p := BlockDevicePartition disk (entry_first table i) (entry_sectors table i)]> o) (p + 1) (k + 1) j) as (q & Hq & E1 & E2);
        [lia|done|intros; apply Ha; [lia|done]|intros; apply Hm; lia|].
      exists q. split; [lia|done].
Qed.
End partitions.

(** ** Finding a disk *)
Record wired (latency : nat -> nat) (b : Z) (ch : ChannelRegisters) (fuel : nat) : Prop := {
  wi_base : base ch = b;
  wi_low : 0 <= b;
  wi_high : b + 8 <= 65536;
  wi_ctrl : ~ b <= u16 (ctrl ch + 2) < b + 8;
  wi_fast n : (latency n < fuel)%nat
}.

(** An identification: 512 bytes that offer addressing by sector numbers. *)
Record identity_ok (bs : list Z) : Prop := {
  id_length : length bs = 512%nat;
  id_bytes : Forall is_byte bs;
  id_caps : Z.testbit (nth 98 bs 0 + 256 * nth 99 bs 0) 9 = true
}.

Definition identity_size (bs : list Z) : Z :=
  le_word (take 4 (drop (if Z.testbit (le_word (take 4 (drop 164 bs))) 26 then 200 else 120) bs)).

Section probing.
Context {drive_at : Z -> option (Z -> option (list Z))} {identity : Z -> list Z} {latency : nat -> nat}.
Context {D : Type} `{AtaPorts drive_at identity latency D b view} {ch : ChannelRegisters} {fuel : nat}.
Context (Hwired : wired latency b ch fuel).
Context (thread a chan drive : Z) (blocks : Z -> option (list Z)).
Context (Hdrive : drive = 0 \/ drive = 1) (Hblocks : drive_at drive = Some blocks) (Hok : forall i, block_ok (blocks i)).
Context (Hid : identity_ok (identity drive)).

Lemma read_status_wired d : exists d', ata_read ch ATA_REG_STATUS d = (fst (chan_inb drive_at 7 (view d)), d') /\
  view d' = snd (chan_inb drive_at 7 (view d)).
Proof. destruct Hwired. by apply (read_status drive_at identity latency ch). Qed.

Lemma identified_spec n bs : forall d k, waiting (view d) = n -> (n < k)%nat -> drive_at (selected (view d)) = Some blocks ->
  pending (view d) = [Some bs] -> exists d', wait_identified k ch d = Ok (true, d') /\ settled (view d) (view d').
Proof.
  induction n as [|n IH]; intros d k Hn Hk Hsel Hp; (destruct k as [|k]; [lia|]); cbn [wait_identified];
    destruct (read_status_wired d) as (d1 & -> & E1); unfold chan_inb in *; cbn [Z.eqb Pos.eqb] in *; rewrite Hn in *; cbn [fst snd] in *.
  - unfold status. rewrite Hsel, Hp. exists d1. split; [done|]. by rewrite E1.
  - change (Z.land 128 ATA_SR_ERR =? 0) with true. change (Z.land 128 ATA_SR_BSY =? 0) with false. cbn [negb andb].
    destruct (IH d1 k) as (d2 & E2 & Hs); [by rewrite E1|lia|by rewrite E1|by rewrite E1|]. exists d2. split; [done|].
    unfold settled in *. rewrite E1 in Hs. exact Hs.
Qed.

(** The drive is selected and told to identify itself. *)
Lemma identify_spec d : waiting (view d) = O ->
  let d2 := ata_write ch ATA_REG_COMMAND ATA_CMD_IDENTIFY (ata_write ch ATA_REG_HDDEVSEL (Z.lor 0xa0 (Z.shiftl drive 4)) d) in
  exists d3 d4 s, ata_read ch ATA_REG_STATUS d2 = (s, d3) /\ s <> 0 /\ wait_identified fuel ch d3 = Ok (true, d4) /\
    waiting (view d4) = O /\ pending (view d4) = [Some (identity drive)].
Proof.
  intros Hw d2. pose proof Hwired as [Hbase Hlow Hhigh Hctrl Hfast].
  set (h := u8 (Z.lor 0xa0 (Z.shiftl drive 4))). assert (h / 16 mod 2 = drive) as Hsel by (unfold h; destruct Hdrive as [-> | ->]; done).
  assert (view d2 = obey latency (chan_outb drive_at identity latency 6 h (view d)) [Some (identity drive)] 0) as Ev.
  { subst d2. set (d1 := ata_write ch ATA_REG_HDDEVSEL _ d).
    assert (view d1 = chan_outb drive_at identity latency 6 h (view d)) as E1.
    { apply (view_write_low drive_at identity latency); [done..|unfold ATA_REG_HDDEVSEL; lia]. }
    destruct (outb_head drive_at identity latency h (view d) Hw) as (W & Hh & _). rewrite <- E1 in W, Hh |- *.
    rewrite (view_command drive_at identity latency) by done. change (u8 ATA_CMD_IDENTIFY) with 0xEC. unfold command.
    unfold selected. rewrite Hh, Hsel, Hblocks, andb_false_r. done. }
  destruct (outb_head drive_at identity latency h (view d) Hw) as (W & Hh & _).
  assert (drive_at (selected (view d2)) = Some blocks) as Hd2.
  { rewrite Ev. unfold selected. cbn [obey devhead]. by rewrite Hh, Hsel. }
  assert (pending (view d2) = [Some (identity drive)]) as Hp2 by by rewrite Ev.
  assert (waiting (view d2) < fuel)%nat as Hw2 by (rewrite Ev; apply Hfast). clearbody d2. clear Ev.
  destruct (read_status_wired d2) as (d3 & E3 & Ev3). exists d3.
  assert (fst (chan_inb drive_at 7 (view d2)) <> 0 /\ (waiting (view d3) < fuel)%nat /\ pending (view d3) = [Some (identity drive)] /\
    drive_at (selected (view d3)) = Some blocks) as (Hne & Hw3 & Hp3 & Hd3).
  { rewrite Ev3. unfold chan_inb. cbn [Z.eqb Pos.eqb]. destruct (waiting (view d2)) as [|n] eqn:En; cbn [fst snd waiting pending].
    - unfold status. rewrite Hd2, Hp2, En. done.
    - split_and!; [done|lia|done|done]. }
  destruct (identified_spec _ (identity drive) d3 fuel eq_refl Hw3 Hd3 Hp3) as (d4 & E4 & Hs4).
  exists d4. eexists. split; [exact E3|]. split; [done|]. split; [done|]. destruct Hs4 as (-> & _ & _ & -> & _). done.
Qed.

Lemma identity_spec d : waiting (view d) = O -> pending (view d) = [Some (identity drive)] ->
  exists d', ata_read_buffer ch ATA_REG_DATA (128 * 4) d = (identity drive, d') /\ waiting (view d') = O.
Proof.
  intros Hw Hp. pose proof Hwired as [Hbase Hlow Hhigh Hctrl Hfast]. destruct Hid as [Hl Hbs _]. unfold ata_read_buffer.
  change (is_high ATA_REG_DATA) with false. cbn iota. unfold reg_port. change (ATA_REG_DATA <? 8) with true. cbn iota.
  change (Z.to_nat (Z.shiftr (128 * 4) 2)) with 128%nat. unfold ATA_REG_DATA. rewrite Hbase, Z.add_0_r, Z.sub_0_r, wrap_small by lia.
  destruct (insl_spec drive_at identity latency 127 d (identity drive) [] Hw Hp) as (d' & E & Ev); [by rewrite Hl|done|].
  rewrite E. exists d'. split; [done|]. by rewrite Ev.
Qed.
Context (ATADeviceClass BlockDevicePartitionClass : Z) (depth : Z -> nat).
Context (cname tail : list Z) (Hcname : Forall (fun c => c <> 0) cname) (Hclen : Z.of_nat (length cname) < 2 ^ 64).
Context (table : list Z) (Htable : blocks 0 = Some table).

Notation settled_channel := (quiet (view := view) ch fuel a chan).

Lemma land_pow2 x k : 0 <= k -> (Z.land x (Z.shiftl 1 k) =? 0) = negb (Z.testbit x k).
Proof.
  intros Hk. rewrite Z.shiftl_1_l. destruct (Z.testbit x k) eqn:E; cbn [negb].
  - apply Z.eqb_neq. intros E0. apply (f_equal (fun z => Z.testbit z k)) in E0.
    by rewrite Z.land_spec, E, Z.pow2_bits_true, Z.bits_0 in E0.
  - apply Z.eqb_eq, Z.bits_inj'. intros i Hi. rewrite Z.land_spec, Z.bits_0.
    destruct (decide (i = k)) as [->|Hne]; [by rewrite E|]. rewrite Z.pow2_bits_false by congruence. apply andb_false_r.
Qed.

Definition has_partitions : bool := (nth 0x1fe table 0 =? 0x55) && (nth 0x1ff table 0 =? 0xaa).

Lemma nth_in_bounds (l : list Z) i : (i < length l)%nat -> in_bounds (l !! i) = Ok (nth i l 0).
Proof. intros Hi. destruct (lookup_lt_is_Some_2 l i Hi) as [v E]. rewrite E. cbn. f_equal. symmetry. by apply nth_lookup_Some. Qed.

Lemma check_spec s q g k disk_name size : settled_channel s -> objects s !! q = Some (ATADevice a chan drive size) ->
  disks_ok BlockDevicePartitionClass q depth disk_name cname tail s g k -> 0 <= k < 2 ^ 63 ->
  exists s' k', check_for_partitions fuel thread BlockDevicePartitionClass s q = Ok (true, s') /\ settled_channel s' /\
    disks_ok BlockDevicePartitionClass q depth disk_name cname tail s'
      (if has_partitions then enter_names disk_name cname table 4 0 g (next_object s) k else g) k' /\
    objects s' = if has_partitions then enter_objects q table 4 0 (objects s) (next_object s) else objects s.
Proof.
  intros [Hr Hw] Ho Hs Hk. pose proof Hwired as [Hbase Hlow Hhigh Hctrl Hfast].
  destruct (Hok 0 table Htable) as [Hl _].
  destruct (read_blocks_spec drive_at identity latency ch Hbase Hlow Hhigh Hctrl fuel Hfast thread a chan drive blocks Hdrive Hblocks Hok
    s q 0 0 1 Hr) as (s1 & E1 & [Hr1 Hw1] & Ho1 & Hd1 & Hn1); [left; eauto|lia..|].
  unfold check_for_partitions. step_to E1. change (blocks_from blocks (0 + 0) 1) with [blocks 0]. rewrite Htable. cbn [gather fst snd negb].
  rewrite app_nil_r, !nth_in_bounds by lia. cbn [mbind outcome_bind]. fold has_partitions.
  assert (disks_ok BlockDevicePartitionClass q depth disk_name cname tail s1 g k) as Hs1.
  { destruct Hs as [Hdm Hdk Hcl Hfr]. split; rewrite ?Hd1, ?Ho1, ?Hn1; done. }
  destruct has_partitions; [|exists s1, k; done]. unfold create_partitions.
  destruct (create_loop_spec BlockDevicePartitionClass q depth disk_name cname tail table Hcname Hclen Hl 4 s1 g k 0 Hs1)
    as (s2 & k2 & E2 & Hs2 & Ho2 & Hp2 & Hc2); [lia..|].
  step_to E2. rewrite Hn1, Ho1 in *. exists s2, k2. split; [done|]. split; [|done]. unfold quiet, ready in *. by rewrite Hp2, Hc2.
Qed.

Lemma disk_init_spec s q g k disk_name size : ready (view := view) ch fuel a chan s -> waiting (view (ports s)) = O ->
  pending (view (ports s)) = [Some (identity drive)] -> objects s !! q = Some (ATADevice a chan drive size) -> q < next_object s ->
  disks_ok BlockDevicePartitionClass q depth disk_name cname tail s g k -> 0 <= k < 2 ^ 63 ->
  exists s' k', ATADevice_init fuel thread BlockDevicePartitionClass s q = Ok (true, s') /\ settled_channel s' /\
    disks_ok BlockDevicePartitionClass q depth disk_name cname tail s'
      (if has_partitions then enter_names disk_name cname table 4 0 g (next_object s) k else g) k' /\
    objects s' = (let o := <[q := ATADevice a chan drive (identity_size (identity drive))]> (objects s) in
                  if has_partitions then enter_objects q table 4 0 o (next_object s) else o).
Proof.
  intros (c & Hc & Hch & Hm & _) Hw Hp Ho Hq Hs Hk. destruct (identity_spec (ports s) Hw Hp) as (d & E & Hwd).
  destruct Hid as [Hl Hbs Hcaps]. unfold ATADevice_init. rewrite Ho. cbn [in_bounds mbind outcome_bind]. rewrite Hc.
  cbn [in_bounds mbind outcome_bind]. rewrite Hch, E. rewrite !nth_in_bounds by (rewrite Hl; unfold ATA_IDENT_CAPABILITIES; lia).
  cbn [mbind outcome_bind]. step_to (le32_spec (identity drive) ATA_IDENT_COMMANDSETS ltac:(rewrite Hl; unfold ATA_IDENT_COMMANDSETS; lia)).
  rewrite land_pow2, negb_involutive by lia.
  assert ((if Z.testbit (le_word (take 4 (drop ATA_IDENT_COMMANDSETS (identity drive)))) 26
           then le32 (identity drive) ATA_IDENT_MAX_LBA_EXT else le32 (identity drive) ATA_IDENT_MAX_LBA) =
          Ok (identity_size (identity drive))) as Es.
  { unfold identity_size, ATA_IDENT_COMMANDSETS, ATA_IDENT_MAX_LBA_EXT, ATA_IDENT_MAX_LBA.
    destruct (Z.testbit _ 26); apply le32_spec; rewrite Hl; lia. }
  step_to Es. change 0x200 with (Z.shiftl 1 9). rewrite land_pow2 by lia. unfold ATA_IDENT_CAPABILITIES. rewrite Hcaps. cbn [negb].
  apply (check_spec (with_object (with_ports s d) q (ATADevice a chan drive (identity_size (identity drive)))) q g k disk_name
    (identity_size (identity drive))); [|apply lookup_insert_eq| |done].
  - split; [|done]. exists c. cbn. rewrite Hwd. pose proof (wi_fast _ _ _ _ Hwired 0). split_and!; [done..|lia].
  - destruct Hs as [Hdm Hdk Hcl Hfr]. split; [done..|]. intros p Hpf. cbn in Hpf |- *. rewrite lookup_insert_ne by lia. by apply Hfr.
Qed.
(** The device manager before the disk: [kd] disks and [kp] partitions so far. *)
Context (aname atail : list Z) (Haname : Forall (fun c => c <> 0) aname) (Halen : Z.of_nat (length aname) < 2 ^ 64).
Context (Hclasses : ATADeviceClass <> BlockDevicePartitionClass).

Record before_disk (s : Disks D) (g : gmap Z Z) (kd kp : Z) : Prop := {
  bd_dm : dm_ok (devices s) depth g;
  bd_disks : exists p, device_classes (devices s) !! ATADeviceClass = Some {| dc_parent := p; dc_name := aname ++ 0 :: atail; instance := kd |};
  bd_parts : exists p, device_classes (devices s) !! BlockDevicePartitionClass = Some {| dc_parent := p; dc_name := cname ++ 0 :: tail; instance := kp |};
  bd_fresh p : next_object s <= p -> objects s !! p = None /\ device_memory (devices s) !! p = None
}.

Definition name_of_disk (kd : Z) : String := String_add (String_of aname) (ToString kd).

Lemma named_disk s g kd kp o : before_disk s g kd kp ->
  let '(q, s1) := new_object s ATADeviceClass o in
  exists dm, name_device (devices s1) q = Ok dm /\ q = next_object s /\ next_object s1 = q + 1 /\ ports s1 = ports s /\
    controllers s1 = controllers s /\ objects s1 = <[q := o]> (objects s) /\
    disks_ok BlockDevicePartitionClass q depth (name_of_disk kd) cname tail (with_devices s1 dm)
      (<[hash (name_of_disk kd) := q]> g) kp.
Proof.
  intros [Hdm [pd Hd] [pp Hp] Hfresh]. unfold new_object. set (q := next_object s). cbn [devices].
  destruct (Hfresh q ltac:(lia)) as [Hno Hnm]. set (dm0 := {| _devices := _; device_classes := _; device_memory := _ |}).
  assert (dm_ok dm0 depth g) as Hdm0 by (apply (new_device_ok depth); [done|done|by eexists]).
  destruct (name_device_spec dm0 depth g q {| device_class := ATADeviceClass; _dname := String_empty |}
    {| dc_parent := pd; dc_name := aname ++ 0 :: atail; instance := kd |} aname atail Hdm0)
    as (dm1 & Hdm1 & Hmem1 & Hcs1 & E1); [apply lookup_insert_eq|exact Hd|done..|].
  exists dm1. split_and!; [exact E1|done..|]. split; cbn [with_devices devices objects next_object].
  - exact Hdm1.
  - exists ATADeviceClass. rewrite Hmem1, lookup_insert_eq. done.
  - exists pp. rewrite Hcs1. cbn [device_class dc_parent dc_name instance]. by rewrite lookup_insert_ne by done.
  - intros p Hpf. rewrite Hmem1, !lookup_insert_ne by lia. split; [apply Hfresh; lia|]. cbn. rewrite lookup_insert_ne by lia. apply Hfresh. lia.
Qed.

Lemma probe_spec s g kd kp : before_disk s g kd kp -> settled_channel s -> chan = 0 \/ chan = 1 -> 0 <= kp < 2 ^ 63 ->
  let q := next_object s in
  exists s' k', probe_device fuel thread ATADeviceClass BlockDevicePartitionClass s a chan drive = Ok (true, s') /\ settled_channel s' /\
    disks_ok BlockDevicePartitionClass q depth (name_of_disk kd) cname tail s'
      (let g := <[hash (name_of_disk kd) := q]> g in
       if has_partitions then enter_names (name_of_disk kd) cname table 4 0 g (q + 1) kp else g) k' /\
    objects s' = (let o := <[q := ATADevice a chan drive (identity_size (identity drive))]> (objects s) in
                  if has_partitions then enter_objects q table 4 0 o (q + 1) else o).
Proof.
  intros Hs [Hr Hw] Hchan Hkp q. pose proof Hr as (c & Hc & Hch & Hm & _). unfold probe_device. rewrite Hc. cbn [in_bounds mbind outcome_bind].
  rewrite Hch. destruct (identify_spec (ports s) Hw) as (d3 & d4 & st & E3 & Hne & E4 & Hw4 & Hp4). rewrite E3, eqb_false by done.
  step_to E4. cbn [negb]. assert (Z.land chan 1 = chan /\ Z.land drive 1 = drive) as [-> ->] by (split; [destruct Hchan as [-> | ->]|destruct Hdrive as [-> | ->]]; done).
  assert (before_disk (with_ports s d4) g kd kp) as Hs4 by (destruct Hs; by split).
  pose proof (named_disk (with_ports s d4) g kd kp (ATADevice a chan drive 0) Hs4) as Hn.
  destruct (new_object (with_ports s d4) ATADeviceClass (ATADevice a chan drive 0)) as [q' s1].
  destruct Hn as (dm & En & Eq & Hnext & Hports & Hctrls & Hobjs & Hdok). cbn [with_ports next_object ports controllers objects] in *. change (next_object s) with q in Eq. rewrite Eq in *. clear Eq q'.
  unfold register_disk. rewrite (bind_Ok _ _ _ En).
  destruct (disk_init_spec (with_devices s1 dm) q (<[hash (name_of_disk kd) := q]> g) kp (name_of_disk kd) 0) as (s2 & k2 & E2 & Hq2 & Hs2 & Ho2); [|cbn; by rewrite Hports..| | |exact Hdok|done|].
  - exists c. cbn. rewrite Hctrls, Hports, Hw4. pose proof (wi_fast _ _ _ _ Hwired 0). split_and!; [done..|lia].
  - cbn. rewrite Hobjs. apply lookup_insert_eq.
  - cbn. lia.
  - rewrite (bind_Ok _ _ _ E2). cbn [negb]. exists s2, k2. cbn [with_devices next_object objects] in *. rewrite Hnext in *.
    split; [done|]. split; [done|]. split; [done|]. rewrite Ho2, Hobjs. cbn zeta. by rewrite insert_insert_eq.
Qed.
End probing.

Lemma seq_fmap_inj {A} (f : nat -> A) n i j : NoDup (f <$> seq 0 n) -> (i < n)%nat -> (j < n)%nat -> f i = f j -> i = j.
Proof.
  intros Hnd Hi Hj E. apply (NoDup_lookup _ i j (f i) Hnd); rewrite list_lookup_fmap, lookup_seq_lt by done; [done|]. cbn. by rewrite E.
Qed.

(** The block device that the file systems are proved over, for a device that
    begins at sector [start]. *)
Definition disk_view (blocks : Z -> option (list Z)) (start count : Z) : BlockDevice :=
  {| TarFS.block_size := 512; TarFS.block_count := count; TarFS.read_block i := blocks (start + i) |}.

(** C27: reading a disk through its ports.  Whatever state the channel is in and
    however long the drive takes each time, a sequence of reads of the disk and
    of its partitions, of up to 255 sectors each, always returns: each gives
    exactly the sectors asked for, counted from the start of the partition, or
    fails with those before the first that cannot be read, and the reads before
    it make no difference.  So a disk or partition is a block device in the
    sense of the file systems, sector [i] being sector [start + i] of the disk. *)
Theorem disk_reads_correct {drive_at identity latency D} `{AtaPorts drive_at identity latency D b view} ch fuel
    (Hwired : wired latency b ch fuel) thread a chan drive blocks start requests s :
  drive = 0 \/ drive = 1 -> drive_at drive = Some blocks -> (forall i, block_ok (blocks i)) ->
  ready (view := view) ch fuel a chan s -> Forall (request_ok a chan drive s start) requests ->
  exists s', run_reads fuel thread s requests = Ok (answer blocks start <$> requests, s') /\
    ready (view := view) ch fuel a chan s' /\ objects s' = objects s /\
    forall p i count, answer blocks start (p, i, 1) =
      match TarFS.read_block (disk_view blocks (start p) count) i with Some bs => (true, bs) | None => (false, []) end.
Proof.
  intros Hdrive Hblocks Hok Hs Hq. destruct Hwired as [Hbase Hlow Hhigh Hctrl Hfast].
  destruct (run_reads_spec drive_at identity latency ch Hbase Hlow Hhigh Hctrl fuel Hfast thread a chan drive blocks Hdrive Hblocks Hok
    start requests s Hs Hq) as (s' & E & Hs' & Ho & _).
  exists s'. split_and!; [done..|]. intros p i count. unfold answer, blocks_from. change (seqZ 0 1) with [0]. cbn [fmap list_fmap].
  rewrite Z.add_0_r. cbn [disk_view TarFS.read_block gather]. destruct (blocks (start p + i)); [by rewrite app_nil_r|done].
Qed.

(** C28: probing a disk.  On a channel that is not busy, the probe of a drive
    that identifies itself and whose first sector can be read returns true.  The
    disk is found under the name of its class and number, with the size it has
    told; if its first sector is a partition table, each entry in use is found
    as partition under the name of the disk, the letter p and the number of the
    entry, and leads to the sector where the entry says it starts; every other
    name means what it did before.  The names involved are supposed to have
    different hashes. *)
Theorem disk_found_correct {drive_at identity latency D} `{AtaPorts drive_at identity latency D b view} ch fuel
    (Hwired : wired latency b ch fuel) thread a chan drive blocks table depth ATAClass PartitionClass aname atail cname tail kd kp s g :
  drive = 0 \/ drive = 1 -> chan = 0 \/ chan = 1 -> drive_at drive = Some blocks -> (forall i, block_ok (blocks i)) ->
  blocks 0 = Some table -> identity_ok (identity drive) ->
  Forall (fun c => c <> 0) (aname ++ cname) -> Z.of_nat (length (aname ++ cname)) < 2 ^ 64 -> ATAClass <> PartitionClass ->
  before_disk ATAClass PartitionClass depth cname tail aname atail s g kd kp -> quiet (view := view) ch fuel a chan s -> 0 <= kp < 2 ^ 63 ->
  let name := name_of_disk aname kd in
  let names := name :: (partition_alias name <$> seq 0 4) ++ (partition_name cname <$> seqZ kp 4) in
  NoDup ((fun x => hash x) <$> names) ->
  exists s' q, probe_device fuel thread ATAClass PartitionClass s a chan drive = Ok (true, s') /\
    quiet (view := view) ch fuel a chan s' /\
    try_get_device_by_name (devices s') name = Ok (Some q) /\
    objects s' !! q = Some (ATADevice a chan drive (identity_size (identity drive))) /\
    (has_partitions table = true -> forall j, (j < 4)%nat -> entry_type table j <> 0 ->
       exists p, try_get_device_by_name (devices s') (partition_alias name j) = Ok (Some p) /\
         objects s' !! p = Some (BlockDevicePartition q (entry_first table j) (entry_sectors table j)) /\
         leads a chan drive s' p (entry_first table j)) /\
    (forall x, hash x ∉ ((fun x => hash x) <$> names) ->
       try_get_device_by_name (devices s') x = try_get_device_by_name (devices s) x).
Proof.
  intros Hdrive Hchan Hblocks Hok Htable Hid Hnames Hlen Hclasses Hs Hquiet Hkp name names Hdistinct.
  apply Forall_app in Hnames as [Haname Hcname]. rewrite length_app, Nat2Z.inj_add in Hlen.
  destruct (probe_spec Hwired thread a chan drive blocks Hdrive Hblocks Hok Hid ATAClass PartitionClass depth cname tail Hcname ltac:(lia)
    table Htable aname atail Haname ltac:(lia) Hclasses s g kd kp Hs Hquiet Hchan Hkp) as (s' & k' & E & Hq' & Hs' & Ho).
  fold name in Hs', Ho. set (q := next_object s) in *. set (g' := if has_partitions table then _ else _) in Hs'.
  assert (forall x, try_get_device_by_name (devices s') x = Ok (g' !! hash x)) as Hget by (intros x; apply (by_name_spec _ depth), Hs').
  assert (forall x, try_get_device_by_name (devices s) x = Ok (g !! hash x)) as Hget0 by (intros x; apply (by_name_spec _ depth), Hs).
  subst names. rewrite fmap_cons, fmap_app, <- !list_fmap_compose in Hdistinct. cbn [compose] in Hdistinct.
  apply NoDup_cons in Hdistinct as [Hn0 Hdistinct]. apply NoDup_app in Hdistinct as (Hna & Hnap & _).
  rewrite not_elem_of_app in Hn0. destruct Hn0 as [Hn0 Hn1].
  assert (forall j, (j < 4)%nat -> hash (partition_alias name j) ∈ ((fun x => hash x) ∘ partition_alias name <$> seq 0 4)) as Halias.
  { intros j Hj. apply (list_elem_of_fmap_2 ((fun x => hash x) ∘ partition_alias name)). apply elem_of_seq. lia. }
  assert (forall m, kp <= m < kp + 4 -> hash (partition_name cname m) ∈ ((fun x => hash x) ∘ partition_name cname <$> seqZ kp 4)) as Hpart.
  { intros m Hm. apply (list_elem_of_fmap_2 ((fun x => hash x) ∘ partition_name cname)). apply elem_of_seqZ. lia. }
  assert (forall j, (j < 4)%nat -> hash (partition_alias name j) <> hash name) as Hne.
  { intros j Hj E0. apply Hn0. rewrite <- E0. by apply Halias. }
  assert (objects s' !! q = Some (ATADevice a chan drive (identity_size (identity drive)))) as Hoq.
  { rewrite Ho. cbn zeta. destruct (has_partitions table); [rewrite (enter_objects_other q table 4 0 _ (q + 1) q) by lia|]; apply lookup_insert_eq. }
  exists s', q. split; [exact E|]. split; [exact Hq'|]. split; [|split; [exact Hoq|split]].
  - rewrite Hget. f_equal. subst g'. cbn zeta. destruct (has_partitions table); [|apply lookup_insert_eq].
    rewrite enter_other; [apply lookup_insert_eq| |].
    + intros j Hj _ E0. apply (Hne j); [lia|done].
    + intros m Hm E0. apply Hn1. rewrite E0. by apply Hpart.
  - intros Hmbr j Hj Ht. subst g'. rewrite Hmbr in *. cbn zeta in *.
    destruct (enter_lookup q name cname table 4 0 (<[hash name := q]> g) (<[q := ATADevice a chan drive (identity_size (identity drive))]> (objects s))
      (q + 1) kp j) as (p & Hp & E1 & E2); [lia|done| | |].
    + intros j' Hj' _ E0. assert (j = j') as Ej; [|lia]. apply (seq_fmap_inj ((fun x => hash x) ∘ partition_alias name) 4); [exact Hna|lia|lia|exact E0].
    + intros m Hm E0. apply (Hnap _ (Halias j Hj)). rewrite E0. by apply Hpart.
    + exists p. rewrite Hget, Ho. split; [by rewrite E1|]. split; [exact E2|]. right. exists q. do 2 eexists. split; [by rewrite Ho|exact Hoq].
  - intros x Hx. rewrite Hget, Hget0. f_equal. rewrite fmap_cons, fmap_app, <- !list_fmap_compose in Hx.
    apply not_elem_of_cons in Hx as [Hx0 Hx]. rewrite not_elem_of_app in Hx. destruct Hx as [Hxa Hxp].
    subst g'. cbn zeta. destruct (has_partitions table); [|by rewrite lookup_insert_ne].
    rewrite enter_other; [by rewrite lookup_insert_ne| |].
    + intros j Hj _ E0. apply Hxa. rewrite E0. apply Halias. lia.
    + intros m Hm E0. apply Hxp. rewrite E0. by apply Hpart.
Qed.

(** ** A disk with two partitions, sector 7 unreadable, busy two polls a time *)
Definition a_partition (type first sectors : Z) : list Z :=
  [0; 0; 0; 0; type; 0; 0; 0; first; 0; 0; 0; sectors; 0; 0; 0].
Definition a_table : list Z :=
  replicate 0x1be 0 ++ a_partition 0x83 2 4 ++ replicate 16 0 ++ a_partition 0x0c 6 8 ++ replicate 16 0 ++ [0x55; 0xaa].
Definition a_disk (i : Z) : option (list Z) :=
  if i =? 0 then Some a_table else if i =? 7 then None else Some (replicate 512 (i mod 256)).
Definition an_identity : list Z :=
  replicate 99 0 ++ [2] ++ replicate 20 0 ++ [100; 0; 0; 0] ++ replicate 388 0.

Definition a_drive_at (n : Z) : option (Z -> option (list Z)) := if n =? 0 then Some a_disk else None.
Definition a_latency (n : nat) : nat := 2.
Definition a_channel : Channel :=
  {| fifo := fun _ => (0, 0); devhead := 0; pending := []; expected := 0; waiting := 0; ticks := 0 |}.

#[local] Instance a_machine : Ports Channel := channel_ports a_drive_at (fun _ => an_identity) a_latency 0x1F0.
#[local] Instance a_machine_laws : AtaPorts a_drive_at (fun _ => an_identity) a_latency Channel 0x1F0 id :=
  channel_laws a_drive_at (fun _ => an_identity) a_latency 0x1F0.

Definition a_controller : ATAController := ATAController_new (fun _ => 0).
Definition primary : ChannelRegisters := fst (channels a_controller).

Lemma a_wired : wired a_latency 0x1F0 primary 5.
Proof. split; [done|lia|lia|vm_compute; intros [_ E]; discriminate E|intros n; unfold a_latency; lia]. Qed.

Lemma block_ok_Some bs : length bs = 512%nat -> Forall is_byte bs -> block_ok (Some bs).
Proof. intros Hl Hb bs' E. apply (inj Some) in E. by subst. Qed.

Lemma a_disk_ok i : block_ok (a_disk i).
Proof.
  unfold a_disk. destruct (i =? 0); [|destruct (i =? 7)]; [|by intros bs| ]; apply block_ok_Some.
  - reflexivity.
  - unfold a_table, a_partition.
    repeat first [apply Forall_app; split | apply Forall_replicate | apply Forall_cons; split | apply Forall_nil_2]; unfold is_byte; lia.
  - apply length_replicate.
  - apply Forall_replicate, Z.mod_pos_bound. lia.
Qed.

Definition ata_name : list Z := [97; 116; 97].
Definition partition_class_name : list Z := [112; 97; 114; 116].
Definition a_machine_state : Disks Channel := {|
  ports := a_channel;
  controllers := {[ 9 := a_controller ]};
  objects := ∅;
  devices := {| _devices := Map_new;
    device_classes := {[ 1 := {| dc_parent := None; dc_name := ata_name ++ [0]; instance := 0 |};
                         2 := {| dc_parent := None; dc_name := partition_class_name ++ [0]; instance := 0 |} ]};
    device_memory := ∅ |};
  next_object := 20
|}.

Lemma a_ready : quiet (view := id) primary 5 9 0 a_machine_state.
Proof. split; [|done]. exists a_controller. split_and!; [done..|]. cbn. lia. Qed.

Lemma a_before_disk : before_disk 1 2 (fun _ => 0%nat) partition_class_name [] ata_name [] a_machine_state ∅ 0 0.
Proof.
  split; [split; [split| | |]|by exists None|by exists None|by intros].
  - intros c _. change (base.size _) with 2%nat. lia.
  - intros c p (x & Hc & Hp). cbn in Hc.
    apply lookup_insert_Some in Hc as [[<- <-]|[_ [<- <-]%lookup_singleton_Some]]; done.
  - apply represents_new.
  - intros h d Hh. by rewrite lookup_empty in Hh.
  - intros d x Hd. cbn in Hd. discriminate (eq_trans (eq_sym (lookup_empty d)) Hd).
Qed.

Lemma disk_found_correct_witness : exists s' q,
  probe_device 5 1 1 2 a_machine_state 9 0 0 = Ok (true, s') /\
  try_get_device_by_name (devices s') (String_of (ata_name ++ [48])) = Ok (Some q) /\
  objects s' !! q = Some (ATADevice 9 0 0 100) /\
  exists p, try_get_device_by_name (devices s') (String_of (ata_name ++ [48; 112; 50])) = Ok (Some p) /\
    objects s' !! p = Some (BlockDevicePartition q 6 8).
Proof.
  assert (NoDup ((fun x => hash x) <$> (name_of_disk ata_name 0 :: (partition_alias (name_of_disk ata_name 0) <$> seq 0 4) ++
    (partition_name partition_class_name <$> seqZ 0 4)))) as Hnd by (apply (bool_decide_unpack _); vm_compute; exact I).
  destruct (disk_found_correct primary 5 a_wired 1 9 0 0 a_disk a_table (fun _ => 0%nat) 1 2 ata_name [] partition_class_name [] 0 0
    a_machine_state ∅ (or_introl eq_refl) (or_introl eq_refl) eq_refl a_disk_ok eq_refl)
    as (s' & q & E & _ & Hname & Hq & Hparts & _).
  - split; [done| |done]. unfold an_identity.
    repeat first [apply Forall_app; split | apply Forall_replicate | apply Forall_cons; split | apply Forall_nil_2]; unfold is_byte; lia.
  - repeat constructor; lia.
  - cbn. lia.
  - lia.
  - exact a_before_disk.
  - exact a_ready.
  - lia.
  - exact Hnd.
  - destruct (Hparts eq_refl 2%nat ltac:(lia) ltac:(vm_compute; discriminate)) as (p & Hp & Ho & _).
    exists s', q. split; [exact E|]. split; [exact Hname|]. split; [exact Hq|]. exists p. split; [exact Hp|exact Ho].
Defined.

(** The disk and its second partition, from sector 6 on. *)
Definition a_mounted_state : Disks Channel :=
  with_object (with_object a_machine_state 20 (ATADevice 9 0 0 100)) 21 (BlockDevicePartition 20 6 8).

Lemma disk_reads_correct_witness : exists s',
  run_reads 5 1 a_mounted_state [(20, 1, 1); (21, 0, 2); (21, 2, 1)] =
    Ok ([(true, replicate 512 1); (false, replicate 512 6); (true, replicate 512 8)], s').
Proof.
  destruct (disk_reads_correct primary 5 a_wired 1 9 0 0 a_disk (fun p => if p =? 20 then 0 else 6) [(20, 1, 1); (21, 0, 2); (21, 2, 1)]
    a_mounted_state (or_introl eq_refl) eq_refl a_disk_ok) as (s' & E & _).
  - exists a_controller. split_and!; [done..|]. cbn. lia.
  - assert (leads 9 0 0 a_mounted_state 20 0) as Hd by (left; split; [done|by exists 100]).
    assert (leads 9 0 0 a_mounted_state 21 6) as Hp by (right; by exists 20, 100, 8).
    repeat first [apply Forall_nil_2 | apply Forall_cons; split; [unfold request_ok; cbn [Z.eqb Pos.eqb]; split_and!; first [exact Hd | exact Hp | lia]|]].
  - exists s'. rewrite E. reflexivity.
Defined.
