(* ===== verification/Pci.v ===== *)
(** * drivers/pci: the devices of the PCI buses

    The configuration space is behind two ports of the machine.  The functions
    of a bus are probed slot by slot; a bridge to another bus probes that bus
    when it is initialised, so that [probe] has the number of buses on the way
    as fuel.  An IDE function makes an ATA controller from its base addresses. *)
From S2P Require Import Prelude RBMap CString Devices Mutex Ata.

Definition PCI_CONFIG_ADDRESS : Z := 0xcf8.
Definition PCI_CONFIG_DATA : Z := 0xcfc.

Definition PCI_CONFIG_VALUE (v shift size : Z) : Z := Z.land (Z.shiftr v shift) (Z.shiftl 1 size - 1).
Definition PCI_REG_VENDOR : Z := 0x00.
Definition PCI_CONFIG_VENDOR (v : Z) : Z := PCI_CONFIG_VALUE v 0 16.
Definition PCI_REG_INFO : Z := 0x08.
Definition PCI_CONFIG_CLASS (v : Z) : Z := PCI_CONFIG_VALUE v 24 8.
Definition PCI_CONFIG_SUBCLASS (v : Z) : Z := PCI_CONFIG_VALUE v 16 8.
Definition PCI_REG_CONFIG : Z := 0x0C.
Definition PCI_CONFIG_HDRTYPE (v : Z) : Z := PCI_CONFIG_VALUE v 16 8.
Definition PCI_REG_BUSINFO : Z := 0x18.
Definition PCI_CONFIG_SECONDARY_BUS (v : Z) : Z := PCI_CONFIG_VALUE v 8 8.
Definition PCI_REG_BAR (i : Z) : Z := 0x10 + 4 * i.
Definition PCI_REG_IRQ : Z := 0x3c.

(** The classes that have a driver. *)
Inductive PCIDriver := Bridge | Display | Network | Storage.

Definition MASS_STORAGE : Z := 1.
Definition NETWORK : Z := 2.
Definition DISPLAY : Z := 3.
Definition BRIDGE : Z := 6.

Definition driver_of (device_class : Z) : option PCIDriver :=
  if device_class =? BRIDGE then Some Bridge
  else if device_class =? DISPLAY then Some Display
  else if device_class =? NETWORK then Some Network
  else if device_class =? MASS_STORAGE then Some Storage
  else None.

Definition PCI_TO_PCI_BRIDGE : Z := 4.
Definition IDE_CONTROLLER : Z := 1.
Definition SATA_CONTROLLER : Z := 6.

Record PCIDevice := { _owner : Z; _slot : Z; _func : Z; driver : PCIDriver }.

Section pci.
Context {D : Type} `{Ports D}.
(** The arguments of probing a disk, and the addresses of the device classes. *)
Context (fuel : nat) (thread : Z) (ATADeviceClass BlockDevicePartitionClass : Z).
Context (PCIDeviceClass StorageDeviceClass ATAControllerDeviceClass : Z).

(** The machine, its disks and devices, and the PCI devices by address. *)
Record PCIState := { disks : Disks D; functions : gmap Z PCIDevice }.

Definition with_disks (m : PCIState) (s : Disks D) : PCIState := {| disks := s; functions := functions m |}.

(** ** pci-bus.cpp *)
Definition config_address (bus slot func reg : Z) : Z :=
  u32 (Z.lor (Z.lor (Z.lor (Z.lor 0x80000000 (u32 (Z.shiftl bus 16))) (Z.shiftl slot 11)) (Z.shiftl func 8)) (Z.land reg (Z.lnot 3))).

Definition read_config (bus slot func reg : Z) (m : PCIState) : Z * PCIState :=
  let d := outl PCI_CONFIG_ADDRESS (config_address bus (u8 slot) (u8 func) reg) (ports (disks m)) in
  let '(v, d) := inl PCI_CONFIG_DATA d in
  (v, with_disks m (with_ports (disks m) d)).

Definition write_config (bus slot func reg value : Z) (m : PCIState) : PCIState :=
  let d := outl PCI_CONFIG_ADDRESS (config_address bus (u8 slot) (u8 func) reg) (ports (disks m)) in
  with_disks m (with_ports (disks m) (outl PCI_CONFIG_DATA value d)).

Definition device_read (x : PCIDevice) (reg : Z) (m : PCIState) : Z * PCIState :=
  read_config (_owner x) (_slot x) (_func x) reg m.
Definition device_write (x : PCIDevice) (reg value : Z) (m : PCIState) : PCIState :=
  write_config (_owner x) (_slot x) (_func x) reg value m.

(** [new] of an object of a device class: its address and what the device
    manager knows of it. *)
Definition new_device (s : Disks D) (class : Z) : Z * Disks D :=
  let p := next_object s in
  let dm := devices s in
  (p, {| ports := ports s; controllers := controllers s; objects := objects s;
         devices := {| _devices := _devices dm; device_classes := device_classes dm;
                       device_memory := <[p := {| device_class := class; _dname := String_empty |}]> (device_memory dm) |};
         next_object := p + 1 |}).

(** [delete]; the device manager still has the address. *)
Definition delete_device (m : PCIState) (p : Z) : PCIState :=
  {| disks := delete_object (disks m) p; functions := delete p (functions m) |}.

Definition delete_controller (s : Disks D) (p : Z) : Disks D :=
  let s := delete_object s p in
  {| ports := ports s; controllers := delete p (controllers s); objects := objects s; devices := devices s; next_object := next_object s |}.

Definition class_of (k : PCIDriver) : Z := match k with Storage => StorageDeviceClass | _ => PCIDeviceClass end.

Definition new_function (m : PCIState) (x : PCIDevice) : Z * PCIState :=
  let '(p, s) := new_device (disks m) (class_of (driver x)) in
  (p, {| disks := s; functions := <[p := x]> (functions m) |}).

Section bus.
(** [PCIDevice::init], which may probe further buses. *)
Context (device_init : PCIState -> PCIDevice -> outcome (bool * PCIState)).

(** [register_device] of a PCI device. *)
Definition register_function (m : PCIState) (p : Z) (x : PCIDevice) : outcome (bool * PCIState) :=
  dm ← name_device (devices (disks m)) p;
  device_init (with_disks m (with_devices (disks m) dm)) x.

Definition probe_func (m : PCIState) (bus slot func : Z) : outcome (bool * PCIState) :=
  let '(device_vendor, m) := read_config bus slot func PCI_REG_VENDOR m in
  if PCI_CONFIG_VENDOR device_vendor =? 0xffff then Ok (true, m)
  else
    let '(device_info, m) := read_config bus slot func PCI_REG_INFO m in
    match driver_of (PCI_CONFIG_CLASS device_info) with
    | None => Ok (true, m)
    | Some k =>
        let x := {| _owner := bus; _slot := slot; _func := func; driver := k |} in
        let '(p, m) := new_function m x in
        '(ok, m) ← register_function m p x;
        if negb ok then Ok (false, delete_device m p) else Ok (true, m)
    end.

(** [n] functions from [func] on, up to the first that fails. *)
Fixpoint func_loop (n : nat) (m : PCIState) (bus slot func : Z) : outcome (bool * PCIState) :=
  match n with
  | O => Ok (true, m)
  | S n =>
      '(ok, m) ← probe_func m bus slot func;
      if negb ok then Ok (false, m) else func_loop n m bus slot (func + 1)
  end.

Definition probe_slot (m : PCIState) (bus slot : Z) : outcome (bool * PCIState) :=
  '(ok, m) ← probe_func m bus slot 0;
  if negb ok then Ok (false, m)
  else
    let '(device_cfg, m) := read_config bus slot 0 PCI_REG_CONFIG m in
    if negb (Z.land (PCI_CONFIG_HDRTYPE device_cfg) 0x80 =? 0) then func_loop 7 m bus slot 1
    else Ok (true, m).

(** [n] slots from [slot] on, all of them. *)
Fixpoint slot_loop (n : nat) (m : PCIState) (bus slot : Z) : outcome (bool * PCIState) :=
  match n with
  | O => Ok (true, m)
  | S n =>
      '(ok, m) ← probe_slot m bus slot;
      '(rest, m) ← slot_loop n m bus (slot + 1);
      Ok (ok && rest, m)
  end.

Definition probe_bus (m : PCIState) (bus : Z) : outcome (bool * PCIState) := slot_loop 32 m bus 0.
End bus.

(** ** storage.cpp *)

(** The register of the interrupt line is written, read back and cleared. *)
Definition init_ide_controller (m : PCIState) (x : PCIDevice) : outcome (bool * PCIState) :=
  let '(old_config, m) := device_read x PCI_REG_IRQ m in
  let m := device_write x PCI_REG_IRQ (Z.lor (Z.land old_config (u32 (Z.lnot 0xFF))) 0xFE) m in
  let '(v, m) := device_read x PCI_REG_IRQ m in
  if negb (Z.land v 0xFF =? 0xFE) then Ok (false, m)
  else
    let m := device_write x PCI_REG_IRQ (Z.lor (Z.land old_config (u32 (Z.lnot 0xFF))) 0) m in
    let '(b0, m) := device_read x (PCI_REG_BAR 0) m in
    let '(b1, m) := device_read x (PCI_REG_BAR 1) m in
    let '(b2, m) := device_read x (PCI_REG_BAR 2) m in
    let '(b3, m) := device_read x (PCI_REG_BAR 3) m in
    let '(b4, m) := device_read x (PCI_REG_BAR 4) m in
    let bar i := nth (Z.to_nat i) [b0; b1; b2; b3; b4] 0 in
    let '(p, s) := new_device (disks m) ATAControllerDeviceClass in
    let s := with_controller s p (ATAController_new bar) in
    dm ← name_device (devices s) p;
    '(ok, s) ← ATAController_init fuel thread ATADeviceClass BlockDevicePartitionClass (with_devices s dm) p;
    if negb ok then Ok (false, with_disks m (delete_controller s p))
    else Ok (true, with_disks m s).

Definition subclass (x : PCIDevice) (m : PCIState) : Z * PCIState :=
  let '(device_info, m) := device_read x PCI_REG_INFO m in (PCI_CONFIG_SUBCLASS device_info, m).

(** The message of an unsupported subclass reads it again. *)
Definition Storage_init (m : PCIState) (x : PCIDevice) : outcome (bool * PCIState) :=
  let '(sub, m) := subclass x m in
  if sub =? IDE_CONTROLLER then init_ide_controller m x
  else if sub =? SATA_CONTROLLER then Ok (true, m)
  else Ok (false, snd (subclass x m)).

(** ** bridge.cpp *)

(** So do the messages of a bridge. *)
Definition Bridge_init (probe : PCIState -> Z -> outcome (bool * PCIState)) (m : PCIState) (x : PCIDevice) : outcome (bool * PCIState) :=
  let '(sub, m) := subclass x m in
  if sub =? PCI_TO_PCI_BRIDGE then
    let '(config, m) := device_read x PCI_REG_CONFIG m in
    let header_type := PCI_CONFIG_HDRTYPE config in
    if negb (header_type =? 0x01) && negb (header_type =? 0x81) then Ok (false, m)
    else
      let '(businfo, m) := device_read x PCI_REG_BUSINFO m in
      probe (snd (subclass x m)) (PCI_CONFIG_SECONDARY_BUS businfo)
  else Ok (true, snd (subclass x m)).

Definition device_init (probe : PCIState -> Z -> outcome (bool * PCIState)) (m : PCIState) (x : PCIDevice) : outcome (bool * PCIState) :=
  match driver x with
  | Bridge => Bridge_init probe m x
  | Storage => Storage_init m x
  | Display | Network => Ok (true, m)
  end.

(** [PCIBus::probe]; [depth] bounds the number of bridges one behind the other. *)
Fixpoint probe (depth : nat) (m : PCIState) (bus : Z) : outcome (bool * PCIState) :=
  match depth with
  | O => Fault OutOfFuel
  | S depth => probe_bus (device_init (probe depth)) m bus
  end.
End pci.
Arguments PCIState D : clear implicits.
