(* ===== verification/PciTheorems.v ===== *)
(** * Probing finds the functions that the bridges lead to

    The configuration space as the hardware documents it, and an inventory of
    devices that the state of the driver stands for: what is registered under
    which name, in the order in which the buses are walked. *)
From S2P Require Import Prelude RBMap RBMapRep RBMapProof RBMapTheorems CString CStringProof Devices Mutex Ata AtaTheorems Pci.

#[local] Arguments wrap : simpl never.

(** The configuration space [conf] behind the two ports, and the address [latch]
    written last.  Of the register of the interrupt line only the lowest byte
    can be written. *)
Class PciPorts (D : Type) `{Ports D} (conf : D -> Z -> Z) (latch : D -> Z) := {
  pci_address v d : conf (outl PCI_CONFIG_ADDRESS v d) = conf d /\ latch (outl PCI_CONFIG_ADDRESS v d) = v;
  pci_data d : fst (inl PCI_CONFIG_DATA d) = conf d (latch d) /\ conf (snd (inl PCI_CONFIG_DATA d)) = conf d;
  pci_write v d a : latch d mod 256 = PCI_REG_IRQ ->
    conf (outl PCI_CONFIG_DATA v d) a = if decide (a = latch d) then conf d a - conf d a mod 256 + v mod 256 else conf d a;
  pci_other p v d : p < 0xcf8 \/ 0xcff < p -> conf (outb p v d) = conf d /\ conf (snd (inb p d)) = conf d
}.

(** ** Addresses *)
Lemma config_address_mod bus slot func reg : 0 <= reg < 256 -> reg mod 4 = 0 -> config_address bus slot func reg mod 256 = reg.
Proof.
  intros Hr H4. unfold config_address. rewrite !wrap_land by lia. apply Z.bits_inj'. intros n Hn.
  change 256 with (2 ^ 8). rewrite Z.testbit_mod_pow2 by lia. destruct (Z.ltb_spec n 8) as [Hlt|Hge]; cycle 1.
  { symmetry. cbn [andb]. destruct (decide (reg = 0)) as [->|]; [apply Z.bits_0|]. apply Z.bits_above_log2; [lia|].
    apply Z.log2_lt_pow2; [lia|]. pose proof (Z.pow_le_mono_r 2 8 n). lia. }
  cbn [andb]. rewrite Z.land_spec, !Z.lor_spec, !Z.land_spec, Z.lnot_spec by lia.
  rewrite (Z.ones_spec_low 32), !Z.shiftl_spec_low by lia. change 0x80000000 with (2 ^ 31). rewrite Z.pow2_bits_false by lia.
  cbn [andb orb]. rewrite andb_true_r. destruct (decide (n < 2)) as [H2|H2].
  - replace (Z.testbit 3 n) with true by (assert (n = 0 \/ n = 1) as [-> | ->] by lia; done). cbn [negb]. rewrite andb_false_r.
    replace (Z.testbit reg n) with (Z.testbit (reg mod 2 ^ 2) n) by (rewrite Z.mod_pow2_bits_low by lia; done). change (2 ^ 2) with 4. by rewrite H4, Z.bits_0.
  - rewrite (Z.bits_above_log2 3) by (lia || (change (Z.log2 3) with 1; lia)). by rewrite andb_true_r.
Qed.

(** Different functions are asked under different addresses. *)
Lemma config_address_inj bus slot func reg bus' slot' func' reg' :
  0 <= bus < 256 -> 0 <= slot < 32 -> 0 <= func < 8 -> 0 <= reg < 256 -> reg mod 4 = 0 ->
  0 <= bus' < 256 -> 0 <= slot' < 32 -> 0 <= func' < 8 -> 0 <= reg' < 256 -> reg' mod 4 = 0 ->
  config_address bus slot func reg = config_address bus' slot' func' reg' -> bus = bus' /\ slot = slot' /\ func = func' /\ reg = reg'.
Proof.
  assert (forall b s f r, 0 <= b < 256 -> 0 <= s < 32 -> 0 <= f < 8 -> 0 <= r < 256 -> r mod 4 = 0 ->
    config_address b s f r = 0x80000000 + b * 65536 + s * 2048 + f * 256 + r) as E.
  { intros b s f r Hb Hs Hf Hr H4. unfold config_address.
    replace (Z.land r (Z.lnot 3)) with r.
    2:{ apply Z.bits_inj'. intros n Hn. rewrite Z.land_spec, Z.lnot_spec by lia. destruct (decide (n < 2)).
        - replace (Z.testbit r n) with (Z.testbit (r mod 2 ^ 2) n) by (rewrite Z.mod_pow2_bits_low by lia; done). change (2 ^ 2) with 4. by rewrite H4, Z.bits_0.
        - rewrite (Z.bits_above_log2 3) by (lia || (change (Z.log2 3) with 1; lia)). by rewrite andb_true_r. }
    rewrite !Z.shiftl_mul_pow2 by lia. rewrite (wrap_small 32 (b * 2 ^ 16)) by lia.
    assert (forall x y k, 0 <= k -> 0 <= y < 2 ^ k -> Z.lor (x * 2 ^ k) y = x * 2 ^ k + y) as Hlor.
    { intros x y k Hk Hy. rewrite <- (Z.add_lor_land (x * 2 ^ k) y). replace (Z.land (x * 2 ^ k) y) with 0; [lia|]. symmetry.
      rewrite <- Z.shiftl_mul_pow2 by lia. apply Z.bits_inj'. intros n Hn. rewrite Z.land_spec, Z.bits_0.
      destruct (decide (n < k)); [by rewrite Z.shiftl_spec_low|]. destruct (decide (y = 0)) as [->|]; [by rewrite Z.bits_0, andb_false_r|].
      rewrite (Z.bits_above_log2 y); [by rewrite andb_false_r|lia|]. apply Z.lt_le_trans with k; [|lia]. apply Z.log2_lt_pow2; lia. }
    replace 0x80000000 with (0x8000 * 2 ^ 16) at 1 by done. rewrite <- !Z.lor_assoc.
    rewrite (Hlor f r 8) by lia. replace (Z.lor (s * 2 ^ 11) (f * 2 ^ 8 + r)) with (s * 2 ^ 11 + (f * 2 ^ 8 + r)) by (symmetry; apply Hlor; lia).
    rewrite (Hlor b) by lia. replace (0x8000 * 2 ^ 16) with (0x80 * 2 ^ 24) by done. rewrite Hlor by lia. rewrite wrap_small by lia. lia. }
  intros Hb Hs Hf Hr H4 Hb' Hs' Hf' Hr' H4'. rewrite !E by done. intros Heq.
  pose proof (Z.div_mod (0x80000000 + bus * 65536 + slot * 2048 + func * 256 + reg) 65536). lia.
Qed.

(** ** What is there to find *)
Section spec.
(** The contents of the configuration space by bus, slot, function and register. *)
Context (C : Z -> Z -> Z -> Z -> Z).
Context {D : Type} `{Ports D}.

Definition there (bus slot func : Z) : option PCIDevice :=
  if PCI_CONFIG_VENDOR (C bus slot func PCI_REG_VENDOR) =? 0xffff then None
  else (fun k => {| _owner := bus; _slot := slot; _func := func; driver := k |}) <$>
    driver_of (PCI_CONFIG_CLASS (C bus slot func PCI_REG_INFO)).

(** Functions beyond the first are looked for when the first says so. *)
Definition functions_of (bus slot : Z) : list Z :=
  if Z.land (PCI_CONFIG_HDRTYPE (C bus slot 0 PCI_REG_CONFIG)) 0x80 =? 0 then [0] else seqZ 0 8.

Definition space_of (x : PCIDevice) (reg : Z) : Z := C (_owner x) (_slot x) (_func x) reg.
Definition subclass_of (x : PCIDevice) : Z := PCI_CONFIG_SUBCLASS (space_of x PCI_REG_INFO).
Definition bar_of (x : PCIDevice) (i : Z) : Z := nth (Z.to_nat i) ((fun j => space_of x (PCI_REG_BAR j)) <$> [0; 1; 2; 3; 4]) 0.

(** The bus behind a bridge. *)
Definition behind (x : PCIDevice) : option Z :=
  match driver x with
  | Bridge => if subclass_of x =? PCI_TO_PCI_BRIDGE then Some (PCI_CONFIG_SECONDARY_BUS (space_of x PCI_REG_BUSINFO)) else None
  | _ => None
  end.

Definition is_ide (x : PCIDevice) : bool := match driver x with Storage => subclass_of x =? IDE_CONTROLLER | _ => false end.

(** The functions in the order in which they are registered. *)
Fixpoint found (depth : nat) (bus : Z) : list PCIDevice :=
  match depth with
  | O => []
  | S depth =>
      slot ← seqZ 0 32; func ← functions_of bus slot;
      match there bus slot func with
      | None => []
      | Some x => x :: match behind x with Some bus' => found depth bus' | None => [] end
      end
  end.

(** A channel without drives, at ports that are not those of PCI. *)
Definition quiet_port (p : Z) : Prop := p < 0xcf8 \/ 0xcff < p.
Definition no_drives (ch : ChannelRegisters) : Prop :=
  quiet_port (u16 (base ch + 6)) /\ quiet_port (u16 (base ch + 7)) /\ quiet_port (u16 (ctrl ch + 2)) /\
  forall d : D, fst (inb (u16 (base ch + 7)) d) = 0.

(** The functions that the driver accepts: the storage of two kinds, and
    bridges in a tree of at most [depth] buses one behind the other. *)
Fixpoint supported (depth : nat) (bus : Z) : Prop :=
  match depth with
  | O => False
  | S depth => forall slot func x, 0 <= slot < 32 -> func ∈ functions_of bus slot -> there bus slot func = Some x ->
      (driver x = Storage -> subclass_of x = SATA_CONTROLLER \/ (subclass_of x = IDE_CONTROLLER /\
         let a := ATAController_new (bar_of x) in no_drives (fst (channels a)) /\ no_drives (snd (channels a)))) /\
      (forall bus', behind x = Some bus' -> supported depth bus' /\
         (PCI_CONFIG_HDRTYPE (space_of x PCI_REG_CONFIG) = 0x01 \/ PCI_CONFIG_HDRTYPE (space_of x PCI_REG_CONFIG) = 0x81))
  end.

(** What can be reached from a bus. *)
Inductive reachable : Z -> PCIDevice -> Prop :=
| reachable_on bus slot func x : 0 <= slot < 32 -> func ∈ functions_of bus slot -> there bus slot func = Some x -> reachable bus x
| reachable_behind bus slot func b bus' x : 0 <= slot < 32 -> func ∈ functions_of bus slot -> there bus slot func = Some b ->
    behind b = Some bus' -> reachable bus' x -> reachable bus x.

Lemma found_reachable depth bus x : supported depth bus -> x ∈ found depth bus <-> reachable bus x.
Proof.
  revert bus. induction depth as [|depth IH]; intros bus Hs; [done|]. cbn [found]. rewrite list_elem_of_bind.
  setoid_rewrite list_elem_of_bind. split.
  - intros (slot & (func & Hx & Hf) & Hslot%elem_of_seqZ). destruct (there bus slot func) as [y|] eqn:Ey; [|by apply elem_of_nil in Hx].
    apply elem_of_cons in Hx as [->|Hx]; [by eapply reachable_on|]. destruct (behind y) as [bus'|] eqn:Eb; [|by apply elem_of_nil in Hx].
    destruct (Hs slot func y Hslot Hf Ey) as [_ Hb]. destruct (Hb bus' Eb) as [Hs' _]. eapply reachable_behind; [exact Hslot|done..|]. by apply IH.
  - intros Hr. destruct Hr as [bus slot func x Hslot Hf Hx|bus slot func b bus' x Hslot Hf Hb Hb' Hr].
    + exists slot. split; [|by apply elem_of_seqZ]. exists func. split; [|done]. rewrite Hx. left.
    + exists slot. split; [|by apply elem_of_seqZ]. exists func. split; [|done]. rewrite Hb, Hb'. right.
      apply IH; [|done]. destruct (Hs slot func b Hslot Hf Hb) as [_ Hs']. by apply Hs'.
Qed.
End spec.

(** ** The inventory *)
Record Inventory := {
  names : gmap Z Z;
  count : Z -> Z;
  next : Z;
  fns : gmap Z PCIDevice;
  ctrls : gmap Z ATAController
}.

Section proofs.
Context {D : Type} `{PciPorts D conf latch}.
Context (fuel : nat) (thread : Z) (ATADeviceClass BlockDevicePartitionClass : Z).
Context (PCIDeviceClass StorageDeviceClass ATAControllerDeviceClass : Z).
(** The classes: their parents and names, which end with a zero. *)
Context (parent : Z -> option Z) (text tail : Z -> list Z) (depth : Z -> nat).
Context (Htext : forall c, Forall (fun x => x <> 0) (text c)) (Hlen : forall c, Z.of_nat (length (text c)) < 2 ^ 64).
(** The configuration space at the start. *)
Context (conf0 : Z -> Z).

Definition C (bus slot func reg : Z) : Z := conf0 (config_address bus slot func reg).
Definition known (class : Z) : Prop := class ∈ [PCIDeviceClass; StorageDeviceClass; ATAControllerDeviceClass].

(** The name of the next device of a class: that of the class and a number. *)
Definition name_in (v : Inventory) (class : Z) : String := String_add (String_of (text class)) (ToString (count v class)).

Definition enter_device (v : Inventory) (class : Z) : Inventory := {|
  names := <[hash (name_in v class) := next v]> (names v);
  count := fun c => if decide (c = class) then u64 (count v class + 1) else count v c;
  next := next v + 1; fns := fns v; ctrls := ctrls v |}.
Definition enter_function (v : Inventory) (x : PCIDevice) : Inventory := {|
  names := names v; count := count v; next := next v; fns := <[next v := x]> (fns v); ctrls := ctrls v |}.
Definition enter_controller (v : Inventory) (c : ATAController) : Inventory := {|
  names := names v; count := count v; next := next v; fns := fns v; ctrls := <[next v := c]> (ctrls v) |}.

(** A function is entered, and after an IDE function the controller it makes. *)
Definition enter (v : Inventory) (x : PCIDevice) : Inventory :=
  let v := enter_device (enter_function v x) (class_of PCIDeviceClass StorageDeviceClass (driver x)) in
  if is_ide C x then enter_device (enter_controller v (ATAController_new (bar_of C x))) ATAControllerDeviceClass else v.

Record stands (s : Disks D) (v : Inventory) : Prop := {
  st_devices : dm_ok (devices s) depth (names v);
  st_classes c : known c -> device_classes (devices s) !! c = Some {| dc_parent := parent c; dc_name := text c ++ 0 :: tail c; instance := count v c |};
  st_next : next_object s = next v;
  st_fresh p : next v <= p -> device_memory (devices s) !! p = None;
  st_controllers : controllers s = ctrls v;
  st_conf a : a mod 256 <> PCI_REG_IRQ -> conf (ports s) a = conf0 a
}.

Definition lists (m : PCIState D) (v : Inventory) : Prop := stands (disks m) v /\ functions m = fns v.

Lemma stands_ports s v d : stands s v -> (forall a, a mod 256 <> PCI_REG_IRQ -> conf d a = conf (ports s) a) -> stands (with_ports s d) v.
Proof. intros [] Hd. split; try done. intros a Ha. cbn. rewrite Hd by done. auto. Qed.

Lemma device_named s v class : known class -> stands s v ->
  exists s1 dm, new_device s class = (next v, s1) /\ name_device (devices s1) (next v) = Ok dm /\ ports s1 = ports s /\ controllers s1 = controllers s /\
    stands (with_devices s1 dm) (enter_device v class).
Proof.
  intros Hk [Hdm Hcl Hn Hf Hc Hp]. unfold new_device. rewrite Hn. set (p := next v).
  set (dm0 := {| _devices := _devices (devices s); device_classes := device_classes (devices s);
    device_memory := <[p := {| device_class := class; _dname := String_empty |}]> (device_memory (devices s)) |}).
  assert (dm_ok dm0 depth (names v)) as Hdm0 by (apply new_device_ok; [done|by apply Hf|rewrite Hcl by done; by eexists]).
  destruct (name_device_spec dm0 depth (names v) p {| device_class := class; _dname := String_empty |} _ (text class) (tail class) Hdm0
    ltac:(apply lookup_insert_eq) (Hcl class Hk) eq_refl (Htext class) (Hlen class)) as (dm1 & Hdm1 & Hmem1 & Hcs1 & E1).
  eexists _, dm1. split; [reflexivity|]. split; [exact E1|]. do 2 (split; [done|]).
  split; cbn [with_devices devices names count next controllers ports next_object fns ctrls enter_device]; try done.
  - intros c Hkc. rewrite Hcs1. cbn [device_class dc_parent dc_name instance]. destruct (decide (c = class)) as [->|Hne].
    + by rewrite lookup_insert_eq.
    + rewrite lookup_insert_ne by done. by apply Hcl.
  - intros q Hq. rewrite Hmem1, lookup_insert_ne by lia. cbn. rewrite lookup_insert_ne by lia. apply Hf. lia.
Qed.

(** ** Registers *)
Lemma read_any m bus slot func reg : 0 <= slot < 32 -> 0 <= func < 8 ->
  exists d, read_config bus slot func reg m = (conf (ports (disks m)) (config_address bus slot func reg), with_disks m (with_ports (disks m) d)) /\
    conf d = conf (ports (disks m)).
Proof.
  intros Hs Hf. unfold read_config. rewrite !(wrap_small 8) by lia.
  destruct (pci_address (config_address bus slot func reg) (ports (disks m))) as [Hc Hl].
  set (d1 := outl PCI_CONFIG_ADDRESS (config_address bus slot func reg) (ports (disks m))) in *.
  destruct (pci_data d1) as [Hv Hc2]. destruct (inl PCI_CONFIG_DATA d1) as [v d2]. cbn [fst snd] in *.
  exists d2. split; [|congruence]. by rewrite Hv, Hl, Hc.
Qed.

Lemma read_spec m v bus slot func reg : lists m v -> 0 <= slot < 32 -> 0 <= func < 8 -> 0 <= reg < 256 -> reg mod 4 = 0 -> reg <> PCI_REG_IRQ ->
  exists m', read_config bus slot func reg m = (C bus slot func reg, m') /\ lists m' v.
Proof.
  intros [Hs Hfn] Hsl Hf Hr H4 Hne. destruct (read_any m bus slot func reg Hsl Hf) as (d & E & Hc).
  exists (with_disks m (with_ports (disks m) d)). rewrite E. split.
  - f_equal. apply (st_conf _ _ Hs). by rewrite config_address_mod.
  - split; [|done]. apply stands_ports; [done|]. intros a _. by rewrite Hc.
Qed.

Lemma irq_written m v bus slot func w : lists m v -> 0 <= slot < 32 -> 0 <= func < 8 ->
  exists d, write_config bus slot func PCI_REG_IRQ w m = with_disks m (with_ports (disks m) d) /\
    lists (with_disks m (with_ports (disks m) d)) v /\
    conf d (config_address bus slot func PCI_REG_IRQ) mod 256 = w mod 256.
Proof.
  intros [Hs Hfn] Hsl Hf. unfold write_config. rewrite !(wrap_small 8) by lia. set (a := config_address bus slot func PCI_REG_IRQ).
  assert (a mod 256 = PCI_REG_IRQ) as Ha by by apply config_address_mod.
  destruct (pci_address a (ports (disks m))) as [Hc Hl]. set (d1 := outl PCI_CONFIG_ADDRESS a (ports (disks m))) in *.
  eexists. split; [reflexivity|]. split.
  - split; [|done]. apply stands_ports; [done|]. intros b Hb. rewrite pci_write by congruence. rewrite decide_False by congruence. by rewrite Hc.
  - rewrite pci_write, decide_True by congruence. rewrite Z.mod_eq by lia.
    replace (conf d1 a - conf d1 a mod 256 + w mod 256) with (w mod 256 + conf d1 a / 256 * 256) by (pose proof (Z.div_mod (conf d1 a) 256); lia).
    rewrite Z.div_add, (Z.div_small (w mod 256)) by (lia || (apply Z.mod_pos_bound; lia)). lia.
Qed.

(** ** Channels without drives *)
Definition same_conf (d d' : D) : Prop := conf d' = conf d.

Lemma quiet_write ch reg v d p : reg_port ch reg = Some p -> is_high reg = false -> quiet_port p -> same_conf d (ata_write ch reg v d).
Proof. intros Hp Hh Hq. unfold ata_write, write_reg. rewrite Hh, Hp. apply (pci_other p (u8 v) d Hq). Qed.

Lemma quiet_read ch reg d p : reg_port ch reg = Some p -> is_high reg = false -> quiet_port p ->
  exists d', ata_read ch reg d = (fst (inb p d), d') /\ same_conf d d'.
Proof.
  intros Hp Hh Hq. unfold ata_read. rewrite Hh, Hp. pose proof (proj2 (pci_other p 0 d Hq)) as E.
  destruct (inb p d) as [v d']. by exists d'.
Qed.

Lemma drive_ports ch : reg_port ch ATA_REG_HDDEVSEL = Some (u16 (base ch + 6)) /\ reg_port ch ATA_REG_STATUS = Some (u16 (base ch + 7)) /\
  reg_port ch ATA_REG_CONTROL = Some (u16 (ctrl ch + 2)).
Proof. unfold reg_port. cbn [Z.ltb Z.compare]. split_and!; do 2 f_equal; unfold ATA_REG_HDDEVSEL, ATA_REG_STATUS, ATA_REG_CONTROL; lia. Qed.

Notation probe_device := (probe_device fuel thread ATADeviceClass BlockDevicePartitionClass).

Lemma no_drive_found s a c chan device : controllers s !! a = Some c -> no_drives (D := D) (channel (channels c) chan) ->
  exists d, probe_device s a chan device = Ok (true, with_ports s d) /\ same_conf (ports s) d.
Proof.
  intros Hc (H6 & H7 & _ & Hz). destruct (drive_ports (channel (channels c) chan)) as (P6 & P7 & _).
  unfold Ata.probe_device. rewrite Hc. cbn [in_bounds mbind outcome_bind].
  set (d1 := ata_write _ ATA_REG_HDDEVSEL _ _). set (d2 := ata_write _ ATA_REG_COMMAND _ d1).
  destruct (quiet_read _ ATA_REG_STATUS d2 _ P7 eq_refl H7) as (d3 & -> & E3). rewrite Hz. cbn [Z.eqb].
  exists d3. split; [done|]. unfold same_conf in *. rewrite E3. unfold d2, d1. rewrite (quiet_write _ ATA_REG_COMMAND _ _ _ P7 eq_refl H7). by rewrite (quiet_write _ ATA_REG_HDDEVSEL _ _ _ P6 eq_refl H6).
Qed.

Lemma no_drives_found s a c : controllers s !! a = Some c -> no_drives (D := D) (fst (channels c)) -> no_drives (D := D) (snd (channels c)) ->
  exists d, ATAController_init fuel thread ATADeviceClass BlockDevicePartitionClass s a = Ok (true, with_ports s d) /\ same_conf (ports s) d.
Proof.
  intros Hc H0' H1'. unfold ATAController_init. rewrite Hc. cbn [in_bounds mbind outcome_bind].
  destruct (drive_ports (fst (channels c))) as (_ & P7 & PC). destruct (drive_ports (snd (channels c))) as (_ & _ & PC').
  destruct (quiet_read _ ATA_REG_STATUS (ports s) _ P7 eq_refl (proj1 (proj2 H0'))) as (d1 & -> & E1). cbn [snd].
  pose proof (quiet_write _ ATA_REG_CONTROL 2 d1 _ PC eq_refl (proj1 (proj2 (proj2 H0')))) as E2. set (d2 := ata_write _ _ 2 d1) in *.
  pose proof (quiet_write _ ATA_REG_CONTROL 2 d2 _ PC' eq_refl (proj1 (proj2 (proj2 H1')))) as E3. set (d3 := ata_write _ _ 2 d2) in *. clearbody d3. clearbody d2.
  unfold probe_channel.
  destruct (no_drive_found (with_ports s d3) a c 0 0 Hc H0') as (e1 & F1 & G1). step_to F1.
  destruct (no_drive_found (with_ports (with_ports s d3) e1) a c 0 1 Hc H0') as (e2 & F2 & G2). step_to F2. cbn [mbind outcome_bind].
  destruct (no_drive_found (with_ports (with_ports (with_ports s d3) e1) e2) a c 1 0 Hc H1') as (e3 & F3 & G3). step_to F3.
  destruct (no_drive_found (with_ports (with_ports (with_ports (with_ports s d3) e1) e2) e3) a c 1 1 Hc H1') as (e4 & F4 & G4). step_to F4. cbn [mbind outcome_bind andb].
  exists e4. split; [done|]. unfold same_conf in *. cbn [ports with_ports] in G1, G2, G3, G4. by rewrite G4, G3, G2, G1, E3, E2.
Qed.

(** ** Initialising a function *)
Definition placed (x : PCIDevice) : Prop := 0 <= _slot x < 32 /\ 0 <= _func x < 8.

Lemma device_read_spec m v x reg : lists m v -> placed x -> 0 <= reg < 256 -> reg mod 4 = 0 -> reg <> PCI_REG_IRQ ->
  exists m', device_read x reg m = (space_of C x reg, m') /\ lists m' v.
Proof. intros Hm [Hs Hf] Hr H4 Hne. by apply read_spec. Qed.

Notation init_ide_controller := (init_ide_controller fuel thread ATADeviceClass BlockDevicePartitionClass ATAControllerDeviceClass).

Lemma low_byte_FE z : Z.lor (Z.land z (u32 (Z.lnot 0xFF))) 0xFE mod 256 = 0xFE.
Proof.
  change 256 with (2 ^ 8). apply Z.bits_inj'. intros n Hn. rewrite Z.testbit_mod_pow2, Z.lor_spec, Z.land_spec by lia.
  destruct (Z.ltb_spec n 8) as [Hlt|Hge]; cbn [andb].
  - replace (Z.testbit (u32 (Z.lnot 255)) n) with false; [by rewrite andb_false_r|].
    assert (n = 0 \/ n = 1 \/ n = 2 \/ n = 3 \/ n = 4 \/ n = 5 \/ n = 6 \/ n = 7) as Hn8 by lia. by repeat destruct Hn8 as [->|Hn8]; subst.
  - symmetry. apply Z.bits_above_log2; [lia|]. change (Z.log2 0xFE) with 7. lia.
Qed.

Lemma ide_spec m v x : lists m v -> placed x -> (let a := ATAController_new (bar_of C x) in no_drives (D := D) (fst (channels a)) /\ no_drives (D := D) (snd (channels a))) ->
  exists m', init_ide_controller m x = Ok (true, m') /\ lists m' (enter_device (enter_controller v (ATAController_new (bar_of C x))) ATAControllerDeviceClass).
Proof.
  intros Hm Hx [Hd0 Hd1]. pose proof Hx as [Hsl Hf]. unfold Pci.init_ide_controller.
  destruct (read_any m (_owner x) (_slot x) (_func x) PCI_REG_IRQ Hsl Hf) as (d1 & E1 & Hc1). unfold device_read at 1. rewrite E1.
  assert (lists (with_disks m (with_ports (disks m) d1)) v) as Hm1.
  { destruct Hm as [Hs Hfn]. split; [|done]. apply stands_ports; [done|]. intros a _. by rewrite Hc1. }
  set (m1 := with_disks m (with_ports (disks m) d1)) in *. set (old := conf (ports (disks m)) _). clearbody m1 old. clear Hm m E1 Hc1 d1.
  unfold device_write at 1.
  destruct (irq_written m1 v (_owner x) (_slot x) (_func x) (Z.lor (Z.land old (u32 (Z.lnot 0xFF))) 0xFE) Hm1 Hsl Hf) as (d2 & -> & Hm2 & Hb).
  rewrite low_byte_FE in Hb. set (m2 := with_disks m1 (with_ports (disks m1) d2)) in *.
  destruct (read_any m2 (_owner x) (_slot x) (_func x) PCI_REG_IRQ Hsl Hf) as (d3 & E3 & Hc3). unfold device_read at 1. rewrite E3.
  assert (lists (with_disks m2 (with_ports (disks m2) d3)) v) as Hm3.
  { destruct Hm2 as [Hs Hfn]. split; [|done]. apply stands_ports; [done|]. intros a _. by rewrite Hc3. }
  change (ports (disks m2)) with d2 in *.
  change 0xFF with (Z.ones 8) at 1. rewrite (Z.land_ones _ 8) by lia. change (2 ^ 8) with 256. rewrite Hb. cbn [Z.eqb Pos.eqb negb].
  unfold device_write.
  destruct (irq_written _ v (_owner x) (_slot x) (_func x) (Z.lor (Z.land old (u32 (Z.lnot 0xFF))) 0) Hm3 Hsl Hf) as (d4 & -> & Hm4 & _).
  set (m4 := with_disks _ (with_ports _ d4)) in *. clearbody m4. clear Hm1 Hm2 Hm3 Hb E3 Hc3.
  destruct (device_read_spec m4 v x (PCI_REG_BAR 0) Hm4 Hx ltac:(done) eq_refl ltac:(done)) as (m5 & -> & Hm5).
  destruct (device_read_spec m5 v x (PCI_REG_BAR 1) Hm5 Hx ltac:(done) eq_refl ltac:(done)) as (m6 & -> & Hm6).
  destruct (device_read_spec m6 v x (PCI_REG_BAR 2) Hm6 Hx ltac:(done) eq_refl ltac:(done)) as (m7 & -> & Hm7).
  destruct (device_read_spec m7 v x (PCI_REG_BAR 3) Hm7 Hx ltac:(done) eq_refl ltac:(done)) as (m8 & -> & Hm8).
  destruct (device_read_spec m8 v x (PCI_REG_BAR 4) Hm8 Hx ltac:(done) eq_refl ltac:(done)) as (m9 & -> & [Hs9 Hfn9]).
  change (fun i => nth (Z.to_nat i) [_; _; _; _; _] 0) with (bar_of C x).
  set (c := ATAController_new (bar_of C x)) in *.
  destruct (device_named (disks m9) v ATAControllerDeviceClass) as (s1 & dm & -> & En & Hports & Hctrls & Hs1); [unfold known; set_solver|done|].
  cbn iota. change (devices (with_controller s1 (next v) c)) with (devices s1). step_to En.
  assert (stands (with_devices (with_controller s1 (next v) c) dm) (enter_device (enter_controller v c) ATAControllerDeviceClass)) as Hs2.
  { destruct Hs1 as [X1 X2 X3 X4 X5 X6]. split; try done. cbn in X5 |- *. by rewrite X5. }
  destruct (no_drives_found (with_devices (with_controller s1 (next v) c) dm) (next v) c) as (d & Ei & Hsame); [apply lookup_insert_eq|done..|].
  step_to Ei. cbn [negb]. eexists. split; [reflexivity|]. split; [|done]. apply stands_ports; [done|]. intros a _. by rewrite Hsame.
Qed.

(** ** Walking the buses *)
Notation device_init := (device_init fuel thread ATADeviceClass BlockDevicePartitionClass ATAControllerDeviceClass).
Notation probe := (probe fuel thread ATADeviceClass BlockDevicePartitionClass PCIDeviceClass StorageDeviceClass ATAControllerDeviceClass).

(** [f] registers the functions [l]. *)
Definition registers (f : PCIState D -> outcome (bool * PCIState D)) (l : list PCIDevice) : Prop :=
  forall m v, lists m v -> exists m', f m = Ok (true, m') /\ lists m' (foldl enter v l).

Definition accepted (x : PCIDevice) : Prop := driver x = Storage -> subclass_of C x = SATA_CONTROLLER \/ (subclass_of C x = IDE_CONTROLLER /\
  let a := ATAController_new (bar_of C x) in no_drives (D := D) (fst (channels a)) /\ no_drives (D := D) (snd (channels a))).

Definition enter_behind (v : Inventory) (x : PCIDevice) : Inventory :=
  if is_ide C x then enter_device (enter_controller v (ATAController_new (bar_of C x))) ATAControllerDeviceClass else v.

Lemma subclass_spec m v x : lists m v -> placed x -> exists m', subclass x m = (subclass_of C x, m') /\ lists m' v.
Proof.
  intros Hm Hx. unfold subclass. destruct (device_read_spec m v x PCI_REG_INFO Hm Hx ltac:(done) eq_refl ltac:(done)) as (m' & -> & Hm'). by exists m'.
Qed.

Lemma device_init_spec pr (l : Z -> list PCIDevice) m v x : lists m v -> placed x -> accepted x ->
  (forall bus', behind C x = Some bus' -> registers (fun m => pr m bus') (l bus') /\
     (PCI_CONFIG_HDRTYPE (space_of C x PCI_REG_CONFIG) = 0x01 \/ PCI_CONFIG_HDRTYPE (space_of C x PCI_REG_CONFIG) = 0x81)) ->
  exists m', device_init pr m x = Ok (true, m') /\ lists m' (foldl enter (enter_behind v x) (match behind C x with Some bus' => l bus' | None => [] end)).
Proof.
  intros Hm Hx Ha Hb. unfold Pci.device_init, enter_behind, is_ide, behind, accepted in *. destruct (driver x) eqn:Ek; [|by exists m|by exists m|].
  - unfold Bridge_init. destruct (subclass_spec m v x Hm Hx) as (m1 & -> & Hm1).
    destruct (subclass_of C x =? PCI_TO_PCI_BRIDGE) eqn:Es.
    + destruct (device_read_spec m1 v x PCI_REG_CONFIG Hm1 Hx ltac:(done) eq_refl ltac:(done)) as (m2 & -> & Hm2).
      destruct (Hb _ eq_refl) as [Hr Hh].
      replace (negb _ && negb _) with false by (destruct Hh as [-> | ->]; done).
      destruct (device_read_spec m2 v x PCI_REG_BUSINFO Hm2 Hx ltac:(done) eq_refl ltac:(done)) as (m3 & -> & Hm3).
      destruct (subclass_spec m3 v x Hm3 Hx) as (m4 & -> & Hm4). cbn [snd]. by apply Hr.
    + destruct (subclass_spec m1 v x Hm1 Hx) as (m2 & -> & Hm2). by exists m2.
  - unfold Storage_init. destruct (subclass_spec m v x Hm Hx) as (m1 & -> & Hm1). cbn [foldl].
    destruct (Ha eq_refl) as [Es|[Es Hd]]; rewrite Es; cbn [Z.eqb Pos.eqb IDE_CONTROLLER SATA_CONTROLLER]; [by exists m1|]. by apply ide_spec.
Qed.

Lemma probe_func_spec pr (l : Z -> list PCIDevice) bus slot func : 0 <= slot < 32 -> 0 <= func < 8 ->
  (forall x, there C bus slot func = Some x -> accepted x /\ forall bus', behind C x = Some bus' -> registers (fun m => pr m bus') (l bus') /\
     (PCI_CONFIG_HDRTYPE (space_of C x PCI_REG_CONFIG) = 0x01 \/ PCI_CONFIG_HDRTYPE (space_of C x PCI_REG_CONFIG) = 0x81)) ->
  registers (fun m => probe_func PCIDeviceClass StorageDeviceClass (device_init pr) m bus slot func)
    (match there C bus slot func with None => [] | Some x => x :: match behind C x with Some bus' => l bus' | None => [] end end).
Proof.
  intros Hs Hf Hx m v Hm. unfold probe_func, there in *.
  destruct (read_spec m v bus slot func PCI_REG_VENDOR Hm Hs Hf ltac:(done) eq_refl ltac:(done)) as (m1 & -> & Hm1).
  destruct (_ =? 0xffff); [by exists m1|].
  destruct (read_spec m1 v bus slot func PCI_REG_INFO Hm1 Hs Hf ltac:(done) eq_refl ltac:(done)) as (m2 & -> & [Hs2 Hfn2]).
  destruct (driver_of _) as [k|]; [|by exists m2]. cbn [fmap option_fmap option_map] in *.
  set (x := {| _owner := bus; _slot := slot; _func := func; driver := k |}) in *. destruct (Hx x eq_refl) as [Ha Hb].
  unfold new_function, register_function. set (class := class_of PCIDeviceClass StorageDeviceClass (driver x)).
  destruct (device_named (disks m2) v class) as (s1 & dm & -> & En & Hports & Hctrls & Hs1); [unfold known, class; destruct k; cbn; set_solver|done|].
  cbn [disks functions]. rewrite En. cbn [mbind outcome_bind].
  destruct (device_init_spec pr l (with_disks {| disks := s1; functions := <[next v := x]> (functions m2) |} (with_devices s1 dm)) (enter_device (enter_function v x) class) x)
    as (m3 & E3 & Hm3); [|by split|done|done|].
  { split; [by destruct Hs1; split|]. cbn. by rewrite Hfn2. }
  rewrite E3. cbn [negb]. exists m3. split; [done|]. exact Hm3.
Qed.

Lemma func_loop_spec init bus slot (L : Z -> list PCIDevice) n : forall func,
  (forall f, func <= f < func + Z.of_nat n -> registers (fun m => probe_func PCIDeviceClass StorageDeviceClass init m bus slot f) (L f)) ->
  registers (fun m => func_loop PCIDeviceClass StorageDeviceClass init n m bus slot func) (seqZ func (Z.of_nat n) ≫= L).
Proof.
  induction n as [|n IH]; intros func HL m v Hm; cbn [func_loop]; [by exists m|].
  destruct (HL func ltac:(lia) m v Hm) as (m1 & E1 & Hm1). step_to E1. cbn [negb].
  destruct (IH (func + 1) ltac:(intros f Hf; apply HL; lia) m1 _ Hm1) as (m2 & E2 & Hm2). exists m2. split; [done|].
  rewrite seqZ_cons by lia. rewrite Z.add_1_r in *. replace (Z.pred (Z.of_nat (S n))) with (Z.of_nat n) by lia.
  change ((func :: ?l) ≫= L) with (L func ++ (l ≫= L)). by rewrite foldl_app.
Qed.

Lemma probe_slot_spec init bus slot (L : Z -> list PCIDevice) : 0 <= slot < 32 ->
  (forall f, f ∈ functions_of C bus slot -> registers (fun m => probe_func PCIDeviceClass StorageDeviceClass init m bus slot f) (L f)) ->
  registers (fun m => probe_slot PCIDeviceClass StorageDeviceClass init m bus slot) (functions_of C bus slot ≫= L).
Proof.
  intros Hs HL m v Hm. unfold probe_slot, functions_of in *.
  destruct (HL 0 ltac:(case_match; [by left|by apply elem_of_seqZ]) m v Hm) as (m1 & E1 & Hm1). step_to E1. cbn [negb].
  destruct (read_spec m1 _ bus slot 0 PCI_REG_CONFIG Hm1 Hs ltac:(lia) ltac:(done) eq_refl ltac:(done)) as (m2 & -> & Hm2).
  destruct (_ =? 0); cbn [negb].
  - exists m2. split; [done|]. cbn. by rewrite app_nil_r.
  - destruct (func_loop_spec init bus slot L 7 1 ltac:(intros f Hf; apply HL, elem_of_seqZ; lia) m2 _ Hm2) as (m3 & E3 & Hm3).
    exists m3. split; [done|]. change (seqZ 0 8) with (0 :: seqZ 1 7). change ((0 :: ?l) ≫= L) with (L 0 ++ (l ≫= L)). by rewrite foldl_app.
Qed.

Lemma slot_loop_spec init bus (L : Z -> list PCIDevice) n : forall slot,
  (forall s, slot <= s < slot + Z.of_nat n -> registers (fun m => probe_slot PCIDeviceClass StorageDeviceClass init m bus s) (L s)) ->
  registers (fun m => slot_loop PCIDeviceClass StorageDeviceClass init n m bus slot) (seqZ slot (Z.of_nat n) ≫= L).
Proof.
  induction n as [|n IH]; intros slot HL m v Hm; cbn [slot_loop]; [by exists m|].
  destruct (HL slot ltac:(lia) m v Hm) as (m1 & E1 & Hm1). step_to E1.
  destruct (IH (slot + 1) ltac:(intros f Hf; apply HL; lia) m1 _ Hm1) as (m2 & E2 & Hm2). step_to E2. exists m2. split; [done|].
  rewrite seqZ_cons by lia. rewrite Z.add_1_r in *. replace (Z.pred (Z.of_nat (S n))) with (Z.of_nat n) by lia.
  change ((slot :: ?l) ≫= L) with (L slot ++ (l ≫= L)). by rewrite foldl_app.
Qed.

Lemma function_numbers bus slot f : f ∈ functions_of C bus slot -> 0 <= f < 8.
Proof. unfold functions_of. case_match; [intros ->%list_elem_of_singleton; lia|]. intros ?%elem_of_seqZ. lia. Qed.

Lemma bus_probe_spec dep : forall bus, supported C (D := D) dep bus -> registers (fun m => probe dep m bus) (found C dep bus).
Proof.
  induction dep as [|dep IH]; intros bus Hs; [done|]. cbn [Pci.probe found]. unfold probe_bus.
  apply (slot_loop_spec _ _ _ 32 0). intros slot Hsl. apply probe_slot_spec; [lia|]. intros func Hf.
  apply (probe_func_spec (probe dep) (found C dep)); [lia|by eapply function_numbers|]. intros x Hx.
  destruct (Hs slot func x ltac:(lia) Hf Hx) as [Ha Hb]. split; [exact Ha|]. intros bus' Eb. destruct (Hb bus' Eb) as [Hs' Hh]. split; [|done]. by apply IH.
Qed.

(** What the inventory then has. *)
Record entered (v v' : Inventory) (l : list PCIDevice) : Prop := {
  en_next : next v <= next v';
  en_fresh p : next v' <= p -> fns v' !! p = None /\ ctrls v' !! p = None;
  en_old p : p < next v -> fns v' !! p = fns v !! p /\ ctrls v' !! p = ctrls v !! p;
  en_functions x : (exists p, next v <= p /\ fns v' !! p = Some x) <-> x ∈ l;
  en_controllers c : (exists p, next v <= p /\ ctrls v' !! p = Some c) <->
    exists x, x ∈ l /\ is_ide C x = true /\ c = ATAController_new (bar_of C x)
}.

Lemma entered_one v x : (forall p, next v <= p -> fns v !! p = None /\ ctrls v !! p = None) -> entered v (enter v x) [x].
Proof.
  intros Hf. unfold enter. destruct (is_ide C x) eqn:Ei; split;
    cbn [enter_device enter_function enter_controller names count next fns ctrls]; try lia.
  - intros p Hp. rewrite !lookup_insert_ne by lia. apply Hf. lia.
  - intros p Hp. by rewrite !lookup_insert_ne by lia.
  - intros y. rewrite list_elem_of_singleton. split.
    + intros (p & Hp & Hy). apply lookup_insert_Some in Hy as [[_ ->]|[_ Hy]]; [done|]. destruct (Hf p Hp). congruence.
    + intros ->. exists (next v). split; [lia|apply lookup_insert_eq].
  - intros c. split.
    + intros (p & Hp & Hc). apply lookup_insert_Some in Hc as [[_ <-]|[_ Hc]]; [exists x; split; [left|done]|]. destruct (Hf p Hp). congruence.
    + intros (y & ->%list_elem_of_singleton & _ & ->). exists (next v + 1). split; [lia|apply lookup_insert_eq].
  - intros p Hp. rewrite !lookup_insert_ne by lia. apply Hf. lia.
  - intros p Hp. by rewrite !lookup_insert_ne by lia.
  - intros y. rewrite list_elem_of_singleton. split.
    + intros (p & Hp & Hy). apply lookup_insert_Some in Hy as [[_ ->]|[_ Hy]]; [done|]. destruct (Hf p Hp). congruence.
    + intros ->. exists (next v). split; [lia|apply lookup_insert_eq].
  - intros c. split.
    + intros (p & Hp & Hc). destruct (Hf p Hp). congruence.
    + intros (y & ->%list_elem_of_singleton & Hy & _). congruence.
Qed.

Lemma entered_trans v1 v2 v3 l l' : entered v1 v2 l -> entered v2 v3 l' -> entered v1 v3 (l ++ l').
Proof.
  intros [N1 F1 O1 X1 C1] [N2 F2 O2 X2 C2]. split; [lia|done| | |].
  - intros p Hp. destruct (O2 p ltac:(lia)) as [-> ->]. auto.
  - intros x. rewrite elem_of_app, <- X1, <- X2. split.
    + intros (p & Hp & Hx). destruct (decide (p < next v2)) as [Hlt|Hge]; [left|right]; exists p; [|split; [lia|done]].
      split; [done|]. by rewrite <- (proj1 (O2 p Hlt)).
    + intros [(p & Hp & Hx)|(p & Hp & Hx)]; exists p; [|split; [lia|done]]. split; [done|].
      destruct (decide (p < next v2)) as [Hlt|Hge]; [by rewrite (proj1 (O2 p Hlt))|]. destruct (F1 p ltac:(lia)). congruence.
  - intros c. setoid_rewrite elem_of_app. split.
    + intros (p & Hp & Hc). destruct (decide (p < next v2)) as [Hlt|Hge].
      * rewrite (proj2 (O2 p Hlt)) in Hc. destruct (proj1 (C1 c) ltac:(eauto)) as (x & ? & ? & ?). eauto.
      * destruct (proj1 (C2 c)) as (x & ? & ? & ?); [exists p; split; [lia|done]|]. eauto.
    + intros (x & [Hx|Hx] & Hi & Hc).
      * destruct (proj2 (C1 c) ltac:(eauto)) as (p & Hp & Hpc). exists p. split; [done|].
        destruct (decide (p < next v2)) as [Hlt|Hge]; [by rewrite (proj2 (O2 p Hlt))|]. destruct (F1 p ltac:(lia)). congruence.
      * destruct (proj2 (C2 c) ltac:(eauto)) as (p & Hp & Hpc). exists p. split; [lia|done].
Qed.

Lemma entered_all l : forall v, (forall p, next v <= p -> fns v !! p = None /\ ctrls v !! p = None) -> entered v (foldl enter v l) l.
Proof.
  induction l as [|x l IH]; intros v Hf; cbn [foldl].
  - split; try done; try lia.
    + intros x. split; [|by intros ?%elem_of_nil]. intros (p & Hp & Hx). destruct (Hf p Hp). congruence.
    + intros c. split; [|by intros (x & ?%elem_of_nil & _)]. intros (p & Hp & Hc). destruct (Hf p Hp). congruence.
  - pose proof (entered_one v x Hf) as H1. apply (entered_trans v (enter v x) _ [x] l H1). apply IH, H1.
Qed.
End proofs.

(** C26: probing the PCI buses.  On a machine whose bridges form a tree and whose
    storage is of the two kinds the driver knows, without drives, probing a bus
    returns, whatever the configuration space has: exactly the functions of a
    class with a driver that are reached from the bus, through bridges to any
    depth, become devices; each is registered under the name of its class and
    the next number of the class, in the order of the walk; every IDE function
    has become a controller with the ports its base addresses give; and the
    configuration space is as it was but for the interrupt lines of the IDE
    functions. *)
Theorem buses_probed {D} `{PciPorts D conf latch} fuel thread ATAClass PartitionClass PCIClass StorageClass ControllerClass
    parent text tail depth conf0 m v dep bus :
  (forall c, Forall (fun x => x <> 0) (text c)) -> (forall c, Z.of_nat (length (text c)) < 2 ^ 64) ->
  lists (conf := conf) PCIClass StorageClass ControllerClass parent text tail depth conf0 m v ->
  (forall p, next v <= p -> fns v !! p = None /\ ctrls v !! p = None) -> supported (C conf0) (D := D) dep bus ->
  exists m', probe fuel thread ATAClass PartitionClass PCIClass StorageClass ControllerClass dep m bus = Ok (true, m') /\
    let v' := foldl (enter PCIClass StorageClass ControllerClass text conf0) v (found (C conf0) dep bus) in
    lists (conf := conf) PCIClass StorageClass ControllerClass parent text tail depth conf0 m' v' /\
    (forall name, try_get_device_by_name (devices (disks m')) name = Ok (names v' !! hash name)) /\
    (forall x, (exists p, next v <= p /\ functions m' !! p = Some x) <-> reachable (C conf0) bus x) /\
    (forall c, (exists p, next v <= p /\ controllers (disks m') !! p = Some c) <->
       exists x, reachable (C conf0) bus x /\ is_ide (C conf0) x = true /\ c = ATAController_new (bar_of (C conf0) x)) /\
    (forall p, p < next v -> functions m' !! p = functions m !! p /\ controllers (disks m') !! p = controllers (disks m) !! p).
Proof.
  intros Htext Hlen Hm Hfresh Hs.
  destruct (bus_probe_spec fuel thread ATAClass PartitionClass PCIClass StorageClass ControllerClass parent text tail depth Htext Hlen conf0 dep bus Hs m v Hm)
    as (m' & E & Hm'). exists m'. split; [exact E|]. cbv zeta. split; [exact Hm'|].
  pose proof (entered_all PCIClass StorageClass ControllerClass text conf0 (found (C conf0) dep bus) v Hfresh) as [_ _ Ho Hx Hc].
  pose proof (found_reachable (C conf0) (D := D) dep bus) as Hr. destruct Hm as [Hst Hfn]. destruct Hm' as [Hst' Hfn'].
  rewrite Hfn', Hfn, (st_controllers _ _ _ _ _ _ _ _ _ _ Hst'), (st_controllers _ _ _ _ _ _ _ _ _ _ Hst).
  split; [intros name; eapply by_name_spec, Hst'|]. split; [intros x; by rewrite Hx, Hr|]. split; [|exact Ho].
  intros c. rewrite Hc. by setoid_rewrite (fun x => Hr x Hs).
Qed.

(** ** A machine with a host bridge, a device of two functions, the second an IDE
    controller, and a bridge to a second bus with a display *)
#[global] Instance PCIDevice_eq_dec : EqDecision PCIDevice.
Proof. assert (EqDecision PCIDriver) by solve_decision. solve_decision. Defined.

Record PciMachine := { m_conf : Z -> Z; m_latch : Z }.

#[global] Instance machine_ports : Ports PciMachine := {
  outb p v d := d;
  inb p d := (0, d);
  inw p d := (0, d);
  outl p v d :=
    if p =? PCI_CONFIG_ADDRESS then {| m_conf := m_conf d; m_latch := v |}
    else if (p =? PCI_CONFIG_DATA) && (m_latch d mod 256 =? PCI_REG_IRQ) then
      {| m_conf := fun a => if a =? m_latch d then m_conf d a - m_conf d a mod 256 + v mod 256 else m_conf d a; m_latch := m_latch d |}
    else d;
  inl p d := (if p =? PCI_CONFIG_DATA then m_conf d (m_latch d) else 0, d)
}.

#[global] Instance machine_pci : PciPorts PciMachine m_conf m_latch.
Proof.
  split; try done. intros v d a Ha. unfold outl, machine_ports. change (PCI_CONFIG_DATA =? PCI_CONFIG_ADDRESS) with false.
  rewrite Ha, !Z.eqb_refl. cbn [andb m_conf]. destruct (Z.eqb_spec a (m_latch d)) as [E|E]; [by rewrite decide_True|by rewrite decide_False].
Qed.

Definition a_space (a : Z) : Z :=
  match List.find (fun e => fst e =? a)
    [(config_address 0 0 0 0x00, 0x12378086); (config_address 0 0 0 0x08, 0x06000000); (config_address 0 0 0 0x0C, 0);
     (config_address 0 1 0 0x00, 0x70008086); (config_address 0 1 0 0x08, 0x06010000); (config_address 0 1 0 0x0C, 0x00800000);
     (config_address 0 1 1 0x00, 0x70108086); (config_address 0 1 1 0x08, 0x01018000); (config_address 0 1 1 0x10, 0);
     (config_address 0 1 1 0x14, 0); (config_address 0 1 1 0x18, 0); (config_address 0 1 1 0x1C, 0); (config_address 0 1 1 0x20, 0xC001);
     (config_address 0 2 0 0x00, 0x00011B36); (config_address 0 2 0 0x08, 0x06040000); (config_address 0 2 0 0x0C, 0x00010000);
     (config_address 0 2 0 0x18, 0x00010100);
     (config_address 1 0 0 0x00, 0x11111234); (config_address 1 0 0 0x08, 0x03000000); (config_address 1 0 0 0x0C, 0)]
  with Some e => snd e | None => 0xffffffff end.

Definition class_text (c : Z) : list Z :=
  if c =? 1 then [112; 99; 105] else if c =? 2 then [115; 116; 111; 114; 97; 103; 101] else [97; 116; 97; 99; 116; 108].

Definition a_device_manager : DeviceManager := {|
  _devices := Map_new;
  device_classes := <[1 := {| dc_parent := None; dc_name := class_text 1 ++ [0]; instance := 0 |}]>
    (<[2 := {| dc_parent := None; dc_name := class_text 2 ++ [0]; instance := 0 |}]>
    {[3 := {| dc_parent := None; dc_name := class_text 3 ++ [0]; instance := 0 |}]});
  device_memory := ∅
|}.

Definition an_inventory : Inventory := {| names := ∅; count := fun _ => 0; next := 10; fns := ∅; ctrls := ∅ |}.
Definition a_pci_state : PCIState PciMachine := {|
  disks := {| ports := {| m_conf := a_space; m_latch := 0 |}; controllers := ∅; objects := ∅; devices := a_device_manager; next_object := 10 |};
  functions := ∅ |}.

Lemma a_class c x : device_classes a_device_manager !! c = Some x ->
  c ∈ [1; 2; 3] /\ x = {| dc_parent := None; dc_name := class_text c ++ [0]; instance := 0 |}.
Proof.
  cbn. rewrite !lookup_insert_Some, lookup_singleton_Some. intros [[<- <-]|(_ & [[<- <-]|(_ & <- & <-)])]; (split; [set_solver|done]).
Qed.

Lemma a_listing : lists (conf := m_conf) 1 2 3 (fun _ => None) class_text (fun _ => []) (fun _ => 0%nat) a_space a_pci_state an_inventory.
Proof.
  split; [split; try done|done].
  - split; [split| | |].
    + intros c _. change (size _) with 3%nat. lia.
    + intros c p (x & Hx & Hp). destruct (a_class c x Hx) as [_ ->]. done.
    + apply represents_new.
    + intros h d Hd. cbn in Hd. by rewrite lookup_empty in Hd.
    + intros d x Hd. cbn in Hd. by rewrite lookup_empty in Hd.
  - intros c Hc. unfold known in Hc. rewrite !elem_of_cons in Hc. destruct Hc as [->|[->|[->|?%elem_of_nil]]]; [reflexivity..|done].
Qed.

(** The functions of a bus, by computation. *)
Definition only (bus : Z) (l : list PCIDevice) : bool :=
  forallb (fun slot => forallb (fun func => match there (C a_space) bus slot func with None => true | Some x => bool_decide (x ∈ l) end)
    (functions_of (C a_space) bus slot)) (seqZ 0 32).

Lemma only_spec bus l slot func x : only bus l = true -> 0 <= slot < 32 -> func ∈ functions_of (C a_space) bus slot ->
  there (C a_space) bus slot func = Some x -> x ∈ l.
Proof.
  unfold only. rewrite forallb_forall. intros Ho Hs Hf Hx. specialize (Ho slot ltac:(apply list_elem_of_In, elem_of_seqZ; lia)).
  rewrite forallb_forall in Ho. specialize (Ho func ltac:(by apply list_elem_of_In)). rewrite Hx in Ho. by apply bool_decide_eq_true in Ho.
Qed.

Lemma a_machine_supported : supported (C a_space) (D := PciMachine) 2 0.
Proof.
  set (dev b s f k := {| _owner := b; _slot := s; _func := f; driver := k |}).
  assert (supported (C a_space) (D := PciMachine) 1 1) as H1.
  { intros slot func x Hs Hf Hx. apply (only_spec 1 [dev 1 0 0 Display]) in Hx; [|by vm_compute|done..].
    apply list_elem_of_singleton in Hx as ->. split; [discriminate|]. intros bus' Hb. vm_compute in Hb. discriminate. }
  intros slot func x Hs Hf Hx. apply (only_spec 0 [dev 0 0 0 Bridge; dev 0 1 0 Bridge; dev 0 1 1 Storage; dev 0 2 0 Bridge]) in Hx; [|by vm_compute|done..].
  rewrite !elem_of_cons in Hx. destruct Hx as [->|[->|[->|[->|?%elem_of_nil]]]]; [..|done].
  - split; [discriminate|]. intros bus' Hb. vm_compute in Hb. discriminate.
  - split; [discriminate|]. intros bus' Hb. vm_compute in Hb. discriminate.
  - split; [|intros bus' Hb; vm_compute in Hb; discriminate]. intros _. right. split; [by vm_compute|]. cbv zeta. split; (split; [|split; [|split; [|done]]]); left; by vm_compute.
  - split; [discriminate|]. intros bus' Hb. assert (bus' = 1) as -> by (vm_compute in Hb; congruence). split; [done|]. left. by vm_compute.
Qed.

Lemma buses_probed_witness : exists m', probe 1 0 4 5 1 2 3 2 a_pci_state 0 = Ok (true, m') /\
  try_get_device_by_name (devices (disks m')) (String_of [97; 116; 97; 99; 116; 108; 48]) = Ok (Some 13) /\
  try_get_device_by_name (devices (disks m')) (String_of [112; 99; 105; 51]) = Ok (Some 15).
Proof.
  destruct (buses_probed (conf := m_conf) 1 0 4 5 1 2 3 (fun _ => None) class_text (fun _ => []) (fun _ => 0%nat) a_space a_pci_state an_inventory 2 0)
    as (m' & E & _ & Hn & _).
  - intros c. unfold class_text. repeat case_match; repeat constructor; done.
  - intros c. unfold class_text. repeat case_match; done.
  - apply a_listing.
  - intros p _. split; apply lookup_empty.
  - apply a_machine_supported.
  - exists m'. split; [exact E|]. rewrite !Hn. split; vm_compute; reflexivity.
Defined.
