(* ===== verification/Apic.v ===== *)
(** * drivers/irq and drivers/timer: the interrupt controllers and the system timer

    The registers of the local and the I/O interrupt controller are words of the
    physical-map window, those of the interval timer are ports; what an access
    does is a parameter ([Mmio], [Ports]).  [timer_init] of arch/x86/devices.cpp
    is followed from the point where the devices have been made. *)
From S2P Require Import Prelude DescTables Irq Time InfList CommonsList Sched Ata.

(** Volatile words at an address. *)
Class Mmio (D : Type) := {
  mmio_load : Z -> D -> Z * D;
  mmio_store : Z -> Z -> D -> D
}.

(** ** lapic.h, lapic.cpp *)
Module LAPIC.
Definition ID : Z := 0x0020.
Definition VER : Z := 0x0030.
Definition TPR : Z := 0x0080.
Definition EOI : Z := 0x00B0.
Definition SVR : Z := 0x00F0.
Definition ESR : Z := 0x0280.
Definition ICRLO : Z := 0x0300.
Definition ICRHI : Z := 0x0310.
Definition TIMER : Z := 0x0320.
Definition PCINT : Z := 0x0340.
Definition LINT0 : Z := 0x0350.
Definition LINT1 : Z := 0x0360.
Definition ERROR : Z := 0x0370.
Definition TICR : Z := 0x0380.
Definition TCCR : Z := 0x0390.
Definition TDCR : Z := 0x03E0.

Definition MASKED : Z := 0x00010000.
Definition INIT : Z := 0x00000500.
Definition DELIVS : Z := 0x00001000.
Definition LEVEL : Z := 0x00008000.
Definition BCAST : Z := 0x00080000.
Definition PERIODIC : Z := 0x00020000.

Inductive LVTs := Timer | PMU | Lint0 | Lint1 | Error.
Definition lvt_register (l : LVTs) : Z :=
  match l with Timer => TIMER | PMU => PCINT | Lint0 => LINT0 | Lint1 => LINT1 | Error => ERROR end.

Section lapic.
Context {D : Type} `{Mmio D} (base : Z).

(** The write is followed by a read of the identification. *)
Definition write (reg value : Z) (d : D) : D :=
  snd (mmio_load (base + ID) (mmio_store (base + reg) (u32 value) d)).
Definition read (reg : Z) (d : D) : Z * D := mmio_load (base + reg) d.
Definition set_flag (reg value : Z) (d : D) : D := let '(old, d) := read reg d in write reg (Z.lor old value) d.
Definition clear_flag (reg value : Z) (d : D) : D := let '(old, d) := read reg d in write reg (Z.land old (Z.lnot value)) d.

Definition mask_interrupts (l : LVTs) (d : D) : D := set_flag (lvt_register l) MASKED d.
Definition unmask_interrupts (l : LVTs) (d : D) : D := clear_flag (lvt_register l) MASKED d.
Definition eoi (d : D) : D := write EOI 0 d.

Definition set_timer_irq (irq : Z) (d : D) : D :=
  let '(v, d) := read TIMER d in write TIMER (Z.lor (Z.land v (Z.lnot 0xff)) irq) d.
Definition set_timer_divide (v : Z) (d : D) : D := write TDCR v d.
Definition set_timer_initial_count (v : Z) (d : D) : D := write TICR v d.
Definition get_timer_current_count (d : D) : Z * D := read TCCR d.
Definition set_timer_one_shot (d : D) : D := clear_flag TIMER PERIODIC d.
Definition set_timer_periodic (d : D) : D := set_flag TIMER PERIODIC d.

(** [while (read(ICRLO) & DELIVS);] *)
Fixpoint wait_delivered (fuel : nat) (d : D) : outcome D :=
  match fuel with
  | O => Fault OutOfFuel
  | S fuel =>
      let '(v, d) := read ICRLO d in
      if negb (Z.land v DELIVS =? 0) then wait_delivered fuel d else Ok d
  end.

(** The result, and the interrupt object of the timer. *)
Definition init (fuel : nat) (m : IRQManager) (d : D) : outcome (bool * Z * IRQManager * D) :=
  let d := write SVR 0x1ff d in
  let d := write TIMER MASKED d in
  let d := write LINT0 MASKED d in
  let d := write LINT1 MASKED d in
  let d := write ERROR MASKED d in
  let '(ver, d) := read VER d in
  let d := if 4 <=? Z.land (Z.shiftr ver 16) 0xFF then write PCINT MASKED d else d in
  let d := write ESR 0 d in
  let d := write ESR 0 d in
  let d := write EOI 0 d in
  let d := write ICRHI 0 d in
  let d := write ICRLO (Z.lor (Z.lor BCAST INIT) LEVEL) d in
  d ← wait_delivered fuel d;
  let d := write TPR 0 d in
  let '(p, m) := new_irq m LAPICIRQ in
  '(ok, m) ← attach_irq m (Some p);
  if negb ok then Ok (false, p, m, d)
  else i ← get_irq m p; Ok (true, p, m, set_timer_irq (u8 (nr i)) d).
End lapic.
End LAPIC.

(** ** ioapic.h, ioapic.cpp *)
Module IOAPIC.
Record IOAPIC := { _base_address : Z; _nr_irqs : Z }.
Definition IOAPIC_new (base : Z) : IOAPIC := {| _base_address := base; _nr_irqs := 0 |}.

Definition IOAPIC_VER : Z := 1.

(** A packed structure: the destination is the byte after the one of the mask. *)
Record RedirectionEntry := {
  e_vector : Z; delivery_mode : Z; destination_mode : Z; delivery_status : Z; pin_polarity : Z;
  remote_irr : Z; trigger_mode : Z; mask : Z; destination : Z
}.
Definition blank : RedirectionEntry := {|
  e_vector := 0; delivery_mode := 0; destination_mode := 0; delivery_status := 0; pin_polarity := 0;
  remote_irr := 0; trigger_mode := 0; mask := 0; destination := 0 |}.

Definition low (e : RedirectionEntry) : Z :=
  Z.lor (e_vector e) (Z.lor (Z.shiftl (delivery_mode e) 8) (Z.lor (Z.shiftl (destination_mode e) 11)
    (Z.lor (Z.shiftl (delivery_status e) 12) (Z.lor (Z.shiftl (pin_polarity e) 13) (Z.lor (Z.shiftl (remote_irr e) 14)
      (Z.lor (Z.shiftl (trigger_mode e) 15) (Z.lor (Z.shiftl (mask e) 16) (Z.shiftl (destination e) 24)))))))).
Definition high (e : RedirectionEntry) : Z := 0.

Section ioapic.
Context {D : Type} `{Mmio D}.

Definition write (a : IOAPIC) (reg val : Z) (d : D) : D :=
  mmio_store (_base_address a + 16) (u32 val) (mmio_store (_base_address a) reg d).
Definition read (a : IOAPIC) (reg : Z) (d : D) : Z * D :=
  mmio_load (_base_address a + 16) (mmio_store (_base_address a) reg d).

Definition store_redir_entry (a : IOAPIC) (irq_index : Z) (e : RedirectionEntry) (d : D) : outcome D :=
  _ ← assert_ (irq_index <? _nr_irqs a);
  let configuration_register := u8 (0x10 + irq_index * 2) in
  Ok (write a (configuration_register + 1) (high e) (write a configuration_register (low e) d)).

Fixpoint blank_loop (n : nat) (a : IOAPIC) (i : Z) (d : D) : outcome D :=
  match n with
  | O => Ok d
  | S n => d ← store_redir_entry a (u8 i) blank d; blank_loop n a (i + 1) d
  end.

Definition init (a : IOAPIC) (d : D) : outcome (bool * IOAPIC * D) :=
  let '(ver, d) := read a IOAPIC_VER d in
  let a := {| _base_address := _base_address a; _nr_irqs := u8 (Z.shiftr ver 16) |} in
  let '(_, d) := read a 0 d in
  d ← blank_loop (Z.to_nat (_nr_irqs a)) a 0 d;
  Ok (true, a, d).

(** The interrupt object, or NULL. *)
Definition request_physical_irq (a : IOAPIC) (lapic : option Z) (phys_irq_nr : Z) (m : IRQManager) (d : D)
  : outcome (option Z * IRQManager * D) :=
  match lapic with
  | None => Ok (None, m, d)
  | Some _ =>
      if _nr_irqs a <=? phys_irq_nr then Ok (None, m, d)
      else
        let '(p, m) := new_irq m IOAPICIRQ in
        '(ok, m) ← attach_irq m (Some p);
        if negb ok then Ok (None, m, d)
        else
          i ← get_irq m p;
          let re := {| e_vector := u8 (nr i); delivery_mode := 0; destination_mode := 0; delivery_status := 0;
                       pin_polarity := 0; remote_irr := 0; trigger_mode := 0; mask := 0; destination := 0 |} in
          d ← store_redir_entry a (u8 phys_irq_nr) re d;
          Ok (Some p, m, d)
  end.
End ioapic.
End IOAPIC.

(** Requesting a line and attaching a handler, as [Keyboard::init] does with
    line 1; the pointer returned is not tested. *)
Definition hook_line {D} `{Mmio D} (a : IOAPIC.IOAPIC) (lapic : option Z) (line handler priv : Z) (m : IRQManager) (d : D)
  : outcome (Z * IRQManager * D) :=
  '(irq, m, d) ← IOAPIC.request_physical_irq a lapic line m d;
  p ← deref irq;
  i ← get_irq m p;
  Ok (p, set_irq m p (attach i handler priv), d).

(** ** pit.cpp *)
Module PIT.
Section pit.
Context {D : Type} `{Ports D}.

Definition start (d : D) : D :=
  let '(data, d) := inb 0x61 d in
  let data := Z.land data 0xfe in
  let d := outb 0x61 data d in
  outb 0x61 (Z.lor data 1) d.

Definition expired (d : D) : bool * D := let '(e, d) := inb 0x61 d in (Z.land e 0x20 =? 0, d).

Definition init_oneshot (period : Z) (d : D) : D :=
  let '(data, d) := inb 0x61 d in
  let d := outb 0x61 (Z.lor (Z.land data 0xfd) 1) d in
  let d := outb 0x43 0xb2 d in
  let d := outb 0x42 (u8 period) d in
  outb 0x42 (u8 (Z.shiftr period 8)) d.
End pit.
End PIT.

(** ** lapic-timer.cpp *)
Module LAPICTimer.
Definition FACTOR : Z := 1000.
Definition PIT_FREQUENCY : Z := 1193180.
Definition CALIBRATION_PERIOD : Z := 10.
Definition CALIBRATION_TICKS : Z := u16 (PIT_FREQUENCY * CALIBRATION_PERIOD / FACTOR).

Section timer.
Context {D : Type} `{Mmio D} `{Ports D} (lapic : Z).

(** The interrupt object of the timer unmasks and masks its entry. *)
Definition start (d : D) : D := LAPIC.unmask_interrupts lapic LAPIC.Timer d.
Definition stop (d : D) : D := LAPIC.mask_interrupts lapic LAPIC.Timer d.
Definition reset (d : D) : D := LAPIC.set_timer_initial_count lapic 0 (stop d).
Definition init_oneshot (period : Z) (d : D) : D :=
  LAPIC.set_timer_initial_count lapic (u32 period) (LAPIC.set_timer_one_shot lapic (reset d)).
Definition init_periodic (period : Z) (d : D) : D :=
  LAPIC.set_timer_initial_count lapic (u32 period) (LAPIC.set_timer_periodic lapic (reset d)).
Definition count (d : D) : Z * D := LAPIC.get_timer_current_count lapic d.

(** [while (!pit->expired());] *)
Fixpoint wait_expired (fuel : nat) (d : D) : outcome D :=
  match fuel with
  | O => Fault OutOfFuel
  | S fuel => let '(e, d) := PIT.expired d in if e then Ok d else wait_expired fuel d
  end.

(** The arithmetic is that of [uint32_t]. *)
Definition frequency_of (count : Z) : Z :=
  let ticks_per_period := u32 (u32 (0xffffffff - count) * 2 ^ 4) in
  u32 (ticks_per_period * (FACTOR / CALIBRATION_PERIOD)).

(** The frequency found; [pit] is whether there is an interval timer. *)
Definition calibrate (fuel : nat) (pit : bool) (d : D) : outcome (option Z * D) :=
  if negb pit then Ok (None, d)
  else
    let d := init_oneshot 0xffffffff d in
    let d := PIT.init_oneshot CALIBRATION_TICKS d in
    let d := PIT.start d in
    let d := start d in
    d ← wait_expired fuel d;
    let d := stop d in
    let '(c, d) := count d in
    Ok (Some (frequency_of c), d).

(** [init] once the local controller has been found; its interrupt object [irq]
    gets the handler. *)
Definition init (fuel : nat) (pit : bool) (irq handler this : Z) (m : IRQManager) (d : D) : outcome (option Z * IRQManager * D) :=
  i ← get_irq m irq;
  let m := set_irq m irq (attach i handler this) in
  let d := LAPIC.set_timer_divide lapic 3 d in
  let d := LAPIC.set_timer_initial_count lapic 1 d in
  '(frequency, d) ← calibrate fuel pit d;
  Ok (frequency, m, d).

(** The end of [timer_init]. *)
Definition start_system_timer (frequency : Z) (d : D) : D :=
  start (init_periodic (Z.shiftr frequency 4 / 100) d).
End timer.
End LAPICTimer.

(** ** The timer interrupt *)
Section tick.
Context {Q : Type} `{SchedulingAlgorithm Q}.

(** The time of the kernel and its scheduler, which reads the former. *)
Record Machine := { time : KernelTime; sched : Scheduler Q }.

Definition with_runtime (s : Scheduler Q) (t : Timepoint) : Scheduler Q :=
  {| _active := _active s; _algorithm := _algorithm s; _current := _current s; _idle_entity := _idle_entity s;
     entities := entities s; interrupts := interrupts s; current_thread := current_thread s; runtime := t |}.

(** [DurationCast<Nanoseconds>(Milliseconds(10))]. *)
Definition ten_milliseconds : Duration := {| _val := DoCast 1000000 1 10 |}.

Definition lapic_timer_irq_handler (m : Machine) : outcome Machine :=
  t ← update_runtime (time m) ten_milliseconds;
  s ← update_accounting (with_runtime (sched m) (_runtime t));
  s ← schedule s;
  Ok {| time := t; sched := s |}.
End tick.
Arguments Machine Q : clear implicits.
