(* ===== verification/ApicTheorems.v ===== *)
(** * Interrupt lines and time slices: the properties *)
From S2P Require Import Prelude DescTables Irq IrqTheorems Time InfList CommonsList CommonsListProof Sched SchedProof SchedTheorems Ata Apic.

(** ** Interrupt lines

    The registers of the I/O controller are selected through the word at [b]
    and stored through the word at [b + 16]. *)
Record Ioapic := { sel : Z; ireg : Z -> Z }.

Class IoapicAt (D : Type) `{Mmio D} (b : Z) (view : D -> Ioapic) := {
  io_select v d : view (mmio_store b v d) = {| sel := v; ireg := ireg (view d) |};
  io_store v d : 0x10 <= sel (view d) -> view (mmio_store (b + 16) v d) =
    {| sel := sel (view d); ireg := fun r => if r =? sel (view d) then v else ireg (view d) r |};
  io_load d : fst (mmio_load (b + 16) d) = ireg (view d) (sel (view d)) /\ view (snd (mmio_load (b + 16) d)) = view d
}.

(** The vector that an interrupt on a line is sent to, if it is. *)
Definition delivered (c : Ioapic) (line : Z) : option Z :=
  let e := ireg c (0x10 + 2 * line) in if Z.testbit e 16 then None else Some (e mod 256).

Section lines.
Context {D : Type} `{IoapicAt D b view}.
Context (a : IOAPIC.IOAPIC) (Hbase : IOAPIC._base_address a = b) (Hn : 0 <= IOAPIC._nr_irqs a <= 120).

Lemma store_entry_spec line e d : 0 <= line < IOAPIC._nr_irqs a -> exists d', IOAPIC.store_redir_entry a line e d = Ok d' /\
  ireg (view d') (0x10 + 2 * line) = u32 (IOAPIC.low e) /\
  forall l, l <> line -> ireg (view d') (0x10 + 2 * l) = ireg (view d) (0x10 + 2 * l).
Proof.
  intros Hl. unfold IOAPIC.store_redir_entry. rewrite ltb_true by lia. cbn [assert_ mbind outcome_bind]. rewrite wrap_small by lia.
  eexists. split; [done|]. unfold IOAPIC.write. rewrite Hbase.
  set (d1 := mmio_store b _ d). set (d2 := mmio_store (b + 16) _ d1). set (d3 := mmio_store b _ d2).
  assert (view d1 = {| sel := 0x10 + line * 2; ireg := ireg (view d) |}) as E1 by apply io_select.
  assert (sel (view d1) = 0x10 + line * 2) as S1 by by rewrite E1.
  assert (view d2 = {| sel := 0x10 + line * 2; ireg := fun r => if r =? 0x10 + line * 2 then u32 (IOAPIC.low e) else ireg (view d) r |}) as E2
    by (unfold d2; rewrite io_store by (rewrite S1; lia); by rewrite E1).
  assert (view d3 = {| sel := 0x10 + line * 2 + 1; ireg := ireg (view d2) |}) as E3 by apply io_select.
  assert (sel (view d3) = 0x10 + line * 2 + 1) as S3 by by rewrite E3.
  rewrite io_store by (rewrite S3; lia). rewrite E3, E2. cbn [ireg sel]. split.
  - rewrite eqb_false, eqb_true by lia. done.
  - intros l Hne. rewrite !eqb_false by lia. done.
Qed.
End lines.

(** Attaching a handler to the object of a vector. *)
Lemma handler_spec m p i n h priv : wf m -> irqs m !! p = Some i -> nr i = n -> 32 <= n < 256 -> irq_descriptors m !! Z.to_nat n = Some (Some p) ->
  wf (set_irq m p (attach i h priv)) /\
  forall j, 0 <= j < 256 -> vector (set_irq m p (attach i h priv)) j = if decide (j = n) then Some (attach i h priv) else vector m j.
Proof.
  intros W Hp Hnr Hn Hd. split; [split|]; cbn [set_irq irq_descriptors irqs next_irq].
  - apply (wf_length _ W).
  - intros k q Hk. destruct (wf_connected _ W _ _ Hk) as (i' & Hi' & Hnr'). destruct (decide (q = p)) as [->|Hne].
    + exists (attach i h priv). rewrite lookup_insert_eq. split; [done|]. assert (i' = i) as -> by congruence. done.
    + exists i'. by rewrite lookup_insert_ne.
  - intros q. rewrite lookup_insert_is_Some. intros [<-|[_ Hq]]; apply (wf_next _ W); [by eexists|done].
  - intros j Hj. unfold vector. cbn [set_irq irq_descriptors irqs]. case_decide as E.
    + rewrite E, Hd. cbn. apply lookup_insert_eq.
    + destruct (irq_descriptors m !! Z.to_nat j) as [[q|]|] eqn:Ej; cbn; [|done..]. rewrite lookup_insert_ne; [done|]. intros <-.
      destruct (wf_connected _ W _ _ Ej) as (i' & Hi' & Hnr'). assert (i' = i) as -> by congruence. lia.
Qed.

(** C35: hooking a device to an interrupt line.  On an I/O controller of up to
    120 lines, requesting a line and attaching a handler gives the line the
    lowest free vector from 32 upwards: an interrupt on the line then calls the
    handler with the number and the data of the device and is acknowledged to
    the local controller.  Every other line goes where it went and every other
    vector does what it did.  When no vector is free the pointer that is not
    there is followed. *)
Theorem hook_line_correct {D} `{IoapicAt D b view} a lapic line handler priv m d :
  IOAPIC._base_address a = b -> 0 <= line < IOAPIC._nr_irqs a -> IOAPIC._nr_irqs a <= 120 -> wf m ->
  (hook_line a (Some lapic) line handler priv m d = Fault NullDereference /\ forall n, 32 <= n < 256 -> vector m n <> None) \/
  exists p n m' d', hook_line a (Some lapic) line handler priv m d = Ok (p, m', d') /\ wf m' /\
    32 <= n < 256 /\ vector m n = None /\ (forall j, 32 <= j < n -> vector m j <> None) /\
    delivered (view d') line = Some n /\ __handle_raw_irq m' n = Ok [HandlerCalled handler n priv; EndOfInterrupt] /\
    (forall l, l <> line -> delivered (view d') l = delivered (view d) l) /\
    (forall j, 0 <= j < 256 -> j <> n -> __handle_raw_irq m' j = __handle_raw_irq m j).
Proof.
  intros Hb Hl Hn W. unfold hook_line, IOAPIC.request_physical_irq. rewrite leb_false by lia.
  pose proof (new_irq_spec m IOAPICIRQ W) as Hnew. destruct (new_irq m IOAPICIRQ) as [p m1]. destruct Hnew as (W1 & Hp1 & Hu1 & Hd1 & Hv1).
  unfold attach_irq.
  destruct (attach_loop_spec (0x100 - 0x20) m1 0x20 p _ W1 ltac:(lia) ltac:(lia) Hp1 Hu1)
    as [[E1 Hf]|(n & m2 & E1 & Hn2 & W2 & Hnone & Hf & Hp2 & Hd2 & Hv2)]; step_to E1; cbn [negb mbind outcome_bind deref].
  { left. split; [done|]. intros n Hn'. rewrite <- Hv1. by apply Hf. }
  right. unfold get_irq. rewrite Hp2. cbn [in_bounds mbind outcome_bind]. rewrite (wrap_small 8 line) by lia.
  set (e := {| IOAPIC.e_vector := _ |}). destruct (store_entry_spec a Hb ltac:(lia) line e d Hl) as (d' & E2 & Hent & Hoth). step_to E2.
  cbn [deref mbind outcome_bind]. rewrite Hp2. cbn [in_bounds mbind outcome_bind].
  destruct (handler_spec m2 p (assign (IRQ_new IOAPICIRQ) n) n handler priv W2 Hp2 eq_refl Hn2 Hd2) as (W3 & Hv3).
  eexists p, n, _, d'. split; [done|]. split; [done|]. split; [done|]. rewrite <- Hv1. split; [done|].
  split; [intros j Hj; rewrite <- Hv1; by apply Hf|]. split_and!.
  - unfold delivered. rewrite Hent. assert (u32 (IOAPIC.low e) = n) as ->.
    { unfold IOAPIC.low, e. cbn [IOAPIC.e_vector IOAPIC.delivery_mode IOAPIC.destination_mode IOAPIC.delivery_status IOAPIC.pin_polarity
        IOAPIC.remote_irr IOAPIC.trigger_mode IOAPIC.mask IOAPIC.destination nr assign]. rewrite Z.lor_0_r, !wrap_small by (rewrite ?wrap_small by lia; lia). done. }
    rewrite Z.mod_small by lia. by rewrite Z.bits_above_log2 by (lia || (apply Z.log2_lt_pow2; lia)).
  - rewrite raw_irq_vector, Hv3, decide_True by (done || lia). done.
  - intros l Hne. unfold delivered. by rewrite Hoth.
  - intros j Hj Hne. by rewrite !raw_irq_vector, Hv3, decide_False, Hv2, decide_False, Hv1 by (done || lia).
Qed.

(** A machine with nothing but an I/O controller. *)
#[export] Instance ioapic_mmio : Mmio Ioapic := {
  mmio_load p d := if p =? 0xFEC00010 then (ireg d (sel d), d) else (0, d);
  mmio_store p v d :=
    if p =? 0xFEC00000 then {| sel := v; ireg := ireg d |}
    else if p =? 0xFEC00010 then {| sel := sel d; ireg := fun r => if r =? sel d then v else ireg d r |}
    else d
}.
#[export] Instance ioapic_laws : IoapicAt Ioapic 0xFEC00000 id.
Proof. by split. Qed.

Definition a_controller_at_start : Ioapic := {| sel := 0; ireg := fun r => if r =? 1 then 0x170011 else 0x10000 |}.

Lemma hook_line_correct_witness : exists a d m' d', IOAPIC.init (IOAPIC.IOAPIC_new 0xFEC00000) a_controller_at_start = Ok (true, a, d) /\
  hook_line a (Some 5) 1 7 8 IRQManager_new d = Ok (1, m', d') /\ delivered d' 1 = Some 32 /\
  __handle_raw_irq m' 32 = Ok [HandlerCalled 7 32 8; EndOfInterrupt].
Proof.
  set (a := {| IOAPIC._base_address := 0xFEC00000; IOAPIC._nr_irqs := 23 |}).
  assert (exists d, IOAPIC.init (IOAPIC.IOAPIC_new 0xFEC00000) a_controller_at_start = Ok (true, a, d)) as [d Ed] by (eexists; vm_compute; reflexivity).
  destruct (hook_line_correct (view := id) a 5 1 7 8 IRQManager_new d)
    as [[_ Hf]|(p & n & m' & d' & E & _ & Hn & _ & Hlow & Hdel & Hh & _)].
  1-4: first [apply IRQManager_new_wf | reflexivity | subst a; cbn; lia].
  { destruct (Hf 32 ltac:(lia)). apply IRQManager_new_vector. }
  assert (n = 32) as ->. { destruct (decide (n = 32)); [done|]. destruct (Hlow 32 ltac:(lia)). apply IRQManager_new_vector. }
  assert (p = 1) as -> by (vm_compute in E; by injection E).
  exists a, d, m', d'. done.
Defined.

(** ** The period of the system timer

    The initial count that [timer_init] sets is what the timer counted down
    during the calibration, as long as that is less than 2^32 / 1600. *)
Lemma period_measured t : 0 <= t < 2 ^ 32 / 1600 -> Z.shiftr (LAPICTimer.frequency_of (0xffffffff - t)) 4 / 100 = t.
Proof.
  change (2 ^ 32 / 1600) with 2684354. intros Ht. unfold LAPICTimer.frequency_of, LAPICTimer.FACTOR, LAPICTimer.CALIBRATION_PERIOD.
  change (1000 / 10) with 100. replace (4294967295 - (4294967295 - t)) with t by lia. rewrite (wrap_small 32 t), (wrap_small 32 (t * 2 ^ 4)), wrap_small by lia.
  rewrite Z.shiftr_div_pow2 by lia. replace (t * 2 ^ 4 * 100) with (t * 100 * 2 ^ 4) by lia. by rewrite !Z.div_mul by lia.
Qed.

(** From a timer of 4.3 GHz on the frequency does not fit. *)
Lemma period_too_short : Z.shiftr (LAPICTimer.frequency_of (0xffffffff - 2700000)) 4 / 100 = 15645.
Proof. vm_compute. reflexivity. Qed.

(** ** Time slices *)
Definition slice : Z := 10000000.
Definition now (m : Machine RoundRobinScheduler) : Z := _val (since_epoch (_runtime (time m))).
Definition cpu (m : Machine RoundRobinScheduler) (e : Z) : Z := cpu_runtime_of (sched m) e.

(** Interrupts of the timer, with the thread each leaves the processor to. *)
Fixpoint interrupts_of_timer (n : nat) (m : Machine RoundRobinScheduler) : outcome (list (option Z) * Machine RoundRobinScheduler) :=
  match n with
  | O => Ok ([], m)
  | S n => m ← lapic_timer_irq_handler m; '(l, m') ← interrupts_of_timer n m; Ok (_current (sched m) :: l, m')
  end.

(** Threads [xs] take turns, and [cur] of them has just been given the processor. *)
Record sharing (m : Machine RoundRobinScheduler) (xs : list Z) (cur : Z) : Prop := {
  sh_active : _active (sched m) = true;
  sh_queue : exists q, _algorithm (sched m) = Some q /\ rr_queued q xs;
  sh_current : _current (sched m) = Some cur;
  sh_runnable e : e ∈ xs -> exists x, entities (sched m) !! e = Some x /\ _state x = RUNNABLE;
  sh_start : exists x, entities (sched m) !! cur = Some x /\ _exec_start_time x = _runtime (time m);
  sh_tod : valid_tod (_tod (time m));
  sh_ticks : 0 <= _val (_ticks_since_last_tod_update (time m)) <= 1000000000
}.

Lemma schedule_rr (s : Scheduler RoundRobinScheduler) q x xs y : _active s = true -> _algorithm s = Some q -> rr_queued q (x :: xs) ->
  entities s !! x = Some y -> _state y = RUNNABLE ->
  exists q' s', schedule s = Ok s' /\ rr_queued q' (xs ++ [x]) /\ _algorithm s' = Some q' /\ _active s' = true /\ _current s' = Some x /\
    entities s' = <[x := update_exec_start_time y (runtime s)]> (entities s) /\ runtime s' = runtime s.
Proof.
  intros Ha Hq Hxs Hy Hr. unfold schedule. rewrite Ha, Hq. cbn [negb].
  destruct (rr_pick_spec q x xs (cpu_runtime_of s) Hxs) as (q' & E & Hq'). step_to E. exists q'.
  set (s1 := set_algorithm s q' (interrupts s)). change (_current s1) with (_current s). case_bool_decide as Hc.
  - unfold activate, entity. change (entities s1) with (entities s). rewrite Hy. cbn [in_bounds mbind outcome_bind].
    rewrite (bool_decide_true (_state y = RUNNABLE)) by done. cbn [assert_ mbind outcome_bind]. rewrite (bool_decide_false (_current s = Some x)) by congruence.
    cbn. rewrite Hy. cbn. eexists. split; [done|]. done.
  - cbn [mbind outcome_bind]. change (_current s1) with (_current s). rewrite <- Hc. cbn [deref mbind outcome_bind].
    unfold entity. change (entities s1) with (entities s). rewrite Hy. cbn. eexists. split; [done|]. done.
Qed.

Lemma tick_spec m x xs cur : sharing m (x :: xs) cur -> 0 <= now m -> now m + slice < 2 ^ 64 -> 0 <= cpu m cur -> cpu m cur + slice < 2 ^ 64 ->
  exists m', lapic_timer_irq_handler m = Ok m' /\ sharing m' (xs ++ [x]) x /\ now m' = now m + slice /\
    (forall e, cpu m' e = cpu m e + if decide (e = cur) then slice else 0).
Proof.
  intros [Ha (q & Hq & Hxs) Hc Hrun (y & Hy & Hst) Htod Ht] Hn0 Hn1 Hc0 Hc1. unfold lapic_timer_irq_handler.
  assert (_val ten_milliseconds = slice) as Eslice by reflexivity.
  destruct (update_runtime_conserves (time m) ten_milliseconds Htod ltac:(lia) ltac:(rewrite Eslice; unfold slice; lia))
    as (n & k & E & _ & _ & Hk & Htod' & _ & _ & Hrt); [rewrite Eslice; unfold slice; lia|]. step_to E.
  assert (_val (since_epoch (_runtime k)) = now m + slice) as Hnow.
  { rewrite Hrt. cbn [Tp.add_assign since_epoch Dur.add_assign _val]. rewrite Eslice. apply wrap_small. unfold now, slice in *. lia. }
  set (s0 := with_runtime (sched m) (_runtime k)). change (_current (sched m)) with (_current s0) in Hc. change (entities (sched m)) with (entities s0) in Hy.
  assert (cpu m cur = _val (_cpu_runtime y)) as Ecur by (unfold cpu, cpu_runtime_of; change (entities (sched m)) with (entities s0); by rewrite Hy).
  set (y1 := update_exec_start_time (increment_cpu_runtime y (Tp.sub (_runtime k) (_exec_start_time y))) (_runtime k)).
  assert (update_accounting s0 = Ok (put s0 cur y1)) as E1 by (unfold update_accounting; rewrite Hc; by step_to (entity_Ok s0 cur y Hy)).
  step_to E1. set (s1 := put s0 cur y1) in *.
  assert (_val (_cpu_runtime y1) = cpu m cur + slice) as Hy1.
  { cbn [y1 update_exec_start_time increment_cpu_runtime _cpu_runtime Dur.add_assign _val]. rewrite timepoint_sub_spec by (rewrite ?Hst, ?Hnow; unfold now, slice in *; lia).
    rewrite Hst, Hnow, Ecur. fold (now m). rewrite wrap_small; unfold slice in *; unfold now in *; lia. }
  assert (exists z, entities s1 !! x = Some z /\ _state z = RUNNABLE /\ _val (_cpu_runtime z) = cpu m x + if decide (x = cur) then slice else 0) as (z & Hz & Hzr & Hzc).
  { destruct (Hrun x ltac:(left)) as (u & Hu & Hur). change (entities (sched m)) with (entities s0) in Hu. change (entities s1) with (<[cur := y1]> (entities s0)). case_decide as Hx.
    - subst x. exists y1. rewrite lookup_insert_eq. split; [done|]. split; [|done]. cbn. by assert (u = y) as -> by congruence.
    - exists u. rewrite lookup_insert_ne by done. split; [done|]. split; [done|]. unfold cpu, cpu_runtime_of. change (entities (sched m)) with (entities s0). rewrite Hu. unfold Dur.count. lia. }
  destruct (schedule_rr s1 q x xs z Ha Hq Hxs Hz Hzr) as (q' & s2 & E2 & Hq' & Hq2 & Ha2 & Hc2 & He2 & Hr2). step_to E2.
  eexists. split; [done|]. split; [split|split]; cbn [sched time]; try done.
  - by exists q'.
  - intros e He. destruct (Hrun e) as (u & Hu & Hur); [rewrite elem_of_app, list_elem_of_singleton in He; rewrite elem_of_cons; tauto|]. change (entities (sched m)) with (entities s0) in Hu.
    rewrite He2. destruct (decide (e = x)) as [->|Hne]; [eexists; by rewrite lookup_insert_eq|]. rewrite lookup_insert_ne by done.
    change (entities s1) with (<[cur := y1]> (entities s0)). destruct (decide (e = cur)) as [->|].
    + exists y1. rewrite lookup_insert_eq. split; [done|]. cbn. by assert (u = y) as -> by congruence.
    + exists u. by rewrite lookup_insert_ne.
  - rewrite He2, lookup_insert_eq. by eexists.
  - intros e. unfold cpu at 1, cpu_runtime_of. cbn [sched]. rewrite He2. destruct (decide (e = x)) as [->|Hne].
    + rewrite lookup_insert_eq. exact Hzc.
    + rewrite lookup_insert_ne by done. change (entities s1) with (<[cur := y1]> (entities s0)). destruct (decide (e = cur)) as [->|He].
      * rewrite lookup_insert_eq. exact Hy1.
      * rewrite lookup_insert_ne by done. unfold cpu, cpu_runtime_of. change (entities s0) with (entities (sched m)). lia.
Qed.

Lemma last_default {A} (l : list A) : forall a d, List.last (a :: l) d = List.last l a.
Proof. induction l as [|b l IH]; intros a d; [done|]. change (List.last (b :: l) d = List.last (b :: l) a). by rewrite !IH. Qed.

(** The time slices of a thread among those of a list. *)
Definition slices (e : Z) (xs : list Z) : Z := if decide (e ∈ xs) then slice else 0.

Lemma slices_cons e x xs : x ∉ xs -> slices e (x :: xs) = slices e [x] + slices e xs.
Proof.
  intros Hx. unfold slices. destruct (decide (e = x)) as [->|Hne].
  - rewrite !decide_True, decide_False by (done || left). lia.
  - rewrite (decide_False (P := e ∈ [x])) by by rewrite list_elem_of_singleton.
    rewrite (decide_ext (e ∈ x :: xs) (e ∈ xs)) by (rewrite elem_of_cons; tauto). lia.
Qed.

Lemma slices_one e x : (if decide (e = x) then slice else 0) = slices e [x].
Proof. unfold slices. apply decide_ext. by rewrite list_elem_of_singleton. Qed.

Definition in_range (m : Machine RoundRobinScheduler) (xs : list Z) (n : Z) : Prop :=
  0 <= now m /\ now m + n * slice < 2 ^ 64 /\ forall e, e ∈ xs -> 0 <= cpu m e /\ cpu m e + n * slice < 2 ^ 64.

Lemma turns_spec ys : forall zs m cur, NoDup ys -> sharing m (ys ++ zs) cur -> in_range m (cur :: ys) (Z.of_nat (length ys)) ->
  exists m', interrupts_of_timer (length ys) m = Ok (Some <$> ys, m') /\ sharing m' (zs ++ ys) (List.last ys cur) /\
    now m' = now m + Z.of_nat (length ys) * slice /\
    forall e, cpu m' e + slices e [List.last ys cur] = cpu m e + slices e [cur] + slices e ys.
Proof.
  induction ys as [|y ys IH]; intros zs m cur Hnd Hs (Hn0 & Hn1 & Hc); cbn [length interrupts_of_timer].
  - exists m. rewrite app_nil_r in *. split_and!; [done|done|lia|]. intros e. unfold slices at 3. rewrite decide_False by apply not_elem_of_nil. cbn [List.last]. lia.
  - cbn [length] in *. apply NoDup_cons in Hnd as [Hy Hnd]. destruct (Hc cur ltac:(left)) as [Hc0 Hc1]. unfold slice in Hn1, Hc1 at 1.
    destruct (tick_spec m y (ys ++ zs) cur Hs Hn0) as (m1 & E1 & Hs1 & Hnow1 & Hcpu1); [unfold slice; lia|done|unfold slice; lia|].
    step_to E1. rewrite <- app_assoc in Hs1. pose proof (sh_current _ _ _ Hs1) as Hcur1. setoid_rewrite slices_one in Hcpu1.
    destruct (IH (zs ++ [y]) m1 y Hnd Hs1) as (m2 & E2 & Hs2 & Hnow2 & Hcpu2).
    { unfold in_range. rewrite Hnow1. unfold slice. split; [unfold slice in *; lia|]. split; [lia|]. intros e He. rewrite Hcpu1.
      destruct (Hc e ltac:(by right)) as [Ha Hb]. unfold slices, slice in *. case_decide; lia. }
    step_to E2. exists m2. split; [by rewrite Hcur1|]. rewrite last_default. split; [by rewrite <- app_assoc in Hs2|].
    split; [rewrite Hnow2, Hnow1; lia|]. intros e. rewrite Hcpu2, Hcpu1, (slices_cons e y ys Hy). lia.
Qed.

Lemma interrupts_app a b m l m1 l2 m2 : interrupts_of_timer a m = Ok (l, m1) -> interrupts_of_timer b m1 = Ok (l2, m2) ->
  interrupts_of_timer (a + b) m = Ok (l ++ l2, m2).
Proof.
  revert m l. induction a as [|a IH]; intros m l E1 E2; cbn [interrupts_of_timer Nat.add] in *; [by injection E1 as <- <-|].
  apply bind_Ok_inv in E1 as (m' & E & E1). step_to E. apply bind_Ok_inv in E1 as ([l1 m''] & E1 & [= <- <-]).
  by step_to (IH m' l1 E1 E2).
Qed.

(** C19: time sharing.  With the round-robin scheduler, when the last of the
    threads in the run queue has just been given the processor, any number [k]
    of rounds of timer interrupts, one for each thread, returns and gives the
    processor to the threads in the order of the queue, over and over; each
    has then been charged exactly [k] time slices of ten milliseconds, no other
    thread is charged anything, and the clock of the kernel has gone on by
    exactly ten milliseconds an interrupt. *)
Theorem time_shared front cur k m :
  let xs := front ++ [cur] in let n := length xs in
  NoDup xs -> sharing m xs cur -> in_range m xs (Z.of_nat k * Z.of_nat n) ->
  exists m', interrupts_of_timer (k * n) m = Ok (concat (replicate k (Some <$> xs)), m') /\ sharing m' xs cur /\
    now m' = now m + Z.of_nat k * (Z.of_nat n * slice) /\
    forall e, cpu m' e = cpu m e + Z.of_nat k * (if decide (e ∈ xs) then slice else 0).
Proof.
  intros xs n Hnd. revert m. induction k as [|k IH]; intros m Hs (Hn0 & Hn1 & Hc).
  - exists m. split_and!; [done|done|lia|intros e; lia].
  - assert (0 < Z.of_nat n) as Hn by (unfold n, xs; rewrite length_app; cbn; lia).
    assert (Z.of_nat (S k) * Z.of_nat n = Z.of_nat n + Z.of_nat k * Z.of_nat n) as En by lia. rewrite En in *.
    assert (0 <= Z.of_nat k * Z.of_nat n) as Hkn by lia.
    assert (cur ∈ xs) as Hcur by (unfold xs; rewrite elem_of_app, list_elem_of_singleton; by right).
    destruct (turns_spec xs [] m cur Hnd) as (m1 & E1 & Hs1 & Hnow1 & Hcpu1); [by rewrite app_nil_r| |].
    { split; [done|]. fold n. split; [unfold slice in *; lia|]. intros e He. destruct (Hc e) as [Ha Hb]; [apply elem_of_cons in He as [->|He]; done|].
      split; [done|]. unfold slice in *. lia. }
    fold n in E1, Hnow1. replace (List.last xs cur) with cur in * by (unfold xs; by rewrite List.last_last). cbn [app] in Hs1.
    destruct (IH m1 Hs1) as (m2 & E2 & Hs2 & Hnow2 & Hcpu2).
    { split; [unfold slice in *; lia|]. split; [unfold slice in *; lia|]. intros e He. destruct (Hc e He) as [Ha Hb].
      specialize (Hcpu1 e). assert (cpu m1 e = cpu m e + slice) as -> by (unfold slices at 3 in Hcpu1; rewrite decide_True in Hcpu1 by done; lia).
      unfold slice in *. lia. }
    exists m2. split; [|split; [done|split; [rewrite Hnow2, Hnow1; lia|]]].
    + cbn [Nat.mul replicate concat]. by apply (interrupts_app _ _ _ _ m1).
    + intros e. rewrite Hcpu2. specialize (Hcpu1 e). unfold slices at 3 in Hcpu1. case_decide; lia.
Qed.

(** Three threads, the clock at 100 nanoseconds. *)
Definition a_thread : SchedulingEntity :=
  update_exec_start_time (with_state SchedulingEntity_new RUNNABLE) (time_point 100).
Definition three_threads (q : RoundRobinScheduler) : Machine RoundRobinScheduler := {|
  time := {| _runtime := time_point 100; _tod := _tod midnight_minus_one; _ticks_since_last_tod_update := nanoseconds 0 |};
  sched := {| _active := true; _algorithm := Some q; _current := Some 9; _idle_entity := 0;
              entities := <[4 := a_thread]> (<[7 := a_thread]> {[9 := a_thread]}); interrupts := false;
              current_thread := Some 9; runtime := time_point 100 |}
|}.

Lemma time_shared_witness : exists m m', interrupts_of_timer 6 m = Ok ([Some 4; Some 7; Some 9; Some 4; Some 7; Some 9], m') /\
  cpu m' 7 = 20000000 /\ now m' = 60000100.
Proof.
  destruct (list_of [4; 7; 9] ltac:(done)) as [l Hl]. set (m := three_threads {| rr_queue := l |}).
  destruct (time_shared [4; 7] 9 2 m) as (m' & E & _ & Hn & Hc).
  - apply (bool_decide_unpack _). vm_compute. exact I.
  - split; try done.
    + by exists {| rr_queue := l |}.
    + intros e He. cbn [app] in He; rewrite !elem_of_cons in He. destruct He as [->|[->|[->|He]]]; [by exists a_thread..|by apply elem_of_nil in He].
    + by exists a_thread.
  - split; [done|]. split; [done|]. intros e He. cbn [app] in He; rewrite !elem_of_cons in He.
    destruct He as [->|[->|[->|He]]]; [done..|by apply elem_of_nil in He].
  - exists m, m'. split; [exact E|]. split; [|exact Hn]. rewrite (Hc 7). reflexivity.
Defined.
