(* ===== verification/LaunchTheorems.v ===== *)
(** * From power-on to the init program *)
From S2P Require Import Prelude InfList CommonsList CommonsListProof Time Sched SchedProof SchedTheorems RBMap RBMapRep RBMapProof RBMapTheorems CString CStringProof TarFS TarFSProof InternalDriver Vfs VfsProof Devices Pfs Kernel Objects Syscall BootRead Define PageDesc Buddy BuddyRep BuddyProof BuddyTheorems PageAllocator PageAllocatorProof PageAllocatorTheorems Vma VmaProof VmaOps VmaTheorems Memory Process ProcessProof UserMemory Elf ElfProof ElfTheorems Launch.

#[local] Arguments wrap : simpl never.

(** ** Starting a new thread *)
Section start.
Context {Q : Type} `{SchedulingAlgorithmLaws Q queued}.
Implicit Types (s : Scheduler Q) (xs : list Z).

Notation sched_inv := (sched_inv (queued := queued)).

Lemma add_entity_inv s xs t : sched_inv s xs -> entities s !! t = None -> t <> _idle_entity s ->
  Z.of_nat (size (entities s)) < 2 ^ 31 - 2 -> sched_inv (put s t SchedulingEntity_new) xs.
Proof.
  intros [Ha Hnd Hr Hc Hs Hw] Ht Hi Hlt.
  assert (forall w, is_Some (entities s !! w) -> is_Some (<[t := SchedulingEntity_new]> (entities s) !! w)) as Hmono.
  { intros w Hx. apply lookup_insert_is_Some'. by right. }
  split; cbn [put set_entities _algorithm entities _idle_entity]; try done.
  - intros e x Hx Hne. destruct (decide (e = t)) as [->|Het].
    + rewrite lookup_insert_eq in Hx. injection Hx as <-. split.
      * intros He. destruct (Hc t He) as [[y Hy] _]. congruence.
      * intros [Hs'|Hs']; discriminate Hs'.
    + rewrite lookup_insert_ne in Hx by done. by apply Hr.
  - intros e He. destruct (Hc e He). split; [by apply Hmono|done].
  - rewrite map_size_insert_None by done. lia.
  - intros e x Hx. destruct (decide (e = t)) as [->|Het].
    + rewrite lookup_insert_eq in Hx. injection Hx as <-. exists []. split; [apply InfList.empty_list_holds|].
      intros w Hw'. by apply elem_of_nil in Hw'.
    + rewrite lookup_insert_ne in Hx by done. destruct (Hw e x Hx) as (ws & Hh & Hws). exists ws. split; [done|].
      intros w Hin. destruct (Hws w Hin). split; [by apply Hmono|done].
Qed.

Lemma start_process_spec s xs t : sched_inv s xs -> entities s !! t = None -> t <> _idle_entity s ->
  Z.of_nat (size (entities s)) < 2 ^ 31 - 2 ->
  exists s' xs', start_process s t = Ok s' /\ sched_inv s' xs' /\ t ∈ xs' /\ state_of s' t = Some RUNNABLE /\
    (forall e x, entities s !! e = Some x -> entities s' !! e = Some x) /\ Sched._current s' = Sched._current s /\
    current_thread s' = current_thread s.
Proof.
  intros HI Ht Hi Hlt. pose proof (add_entity_inv s xs t HI Ht Hi Hlt) as HI1. unfold start_process, Sched.start.
  destruct (set_entity_state_full (fun _ => False) (put s t SchedulingEntity_new) xs t SchedulingEntity_new RUNNABLE [] HI1)
    as (s' & xs' & E & HI' & (x' & Hx' & Hst) & _ & _ & Hcur & Hoth & Hidle & _ & Hct & _); try done.
  - by intros e w.
  - apply lookup_insert_eq.
  - by left.
  - apply InfList.empty_list_holds.
  - intros w Hw. by apply elem_of_nil in Hw.
  - exists s', xs'. split; [done|]. split; [done|]. split; [|split; [|split; [|done]]].
    + apply (si_runq _ _ HI' t x' Hx'); [by rewrite Hidle|]. rewrite Hst. by left.
    + unfold state_of. by rewrite Hx', <- Hst.
    + intros e x Hx. assert (e <> t) as Hne by congruence.
      destruct (Hoth e x Hne) as (y & Hy & [->|[[] _]]); [|done]. cbn. by rewrite lookup_insert_ne.
Qed.
End start.

(** ** The magic number *)
Lemma magic_bytes d : Forall is_byte d -> 64 <= Z.of_nat (length d) -> check_header (image_header d) = None ->
  take 4 d = [0x7f; 0x45; 0x4c; 0x46].
Proof.
  intros Hb Hl Hc. unfold check_header in Hc.
  destruct (Z.eqb_spec (ELF64Header.magic_number (image_header d)) MAGIC_NUMBER) as [E|]; [clear Hc|done].
  destruct d as [|b0 [|b1 [|b2 [|b3 d]]]]; try (cbn in Hl; lia).
  cbv [ELF64Header.magic_number image_header bytes_at field] in E. change (Z.to_nat 0) with 0%nat in E.
  change (Z.to_nat 64) with 64%nat in E. cbn [drop take le foldr] in E. unfold MAGIC_NUMBER in E.
  repeat match goal with H : Forall _ (_ :: _) |- _ => apply Forall_cons in H as [? H] end. unfold is_byte in *.
  cbn [take]. assert (b0 = 0x7f /\ b1 = 0x45 /\ b2 = 0x4c /\ b3 = 0x46) as (-> & -> & -> & ->) by lia. done.
Qed.

Section launch.
Context {A : Type} `{PageAllocatorAlgorithmLaws A fresh_state owned can_free}.
Context {Q : Type} `{SchedulingAlgorithmLaws Q queued}.
Context {DF : Type} (open_as_file : Z -> option DF).
Context (block_device : Z -> BlockDevice) (BlockDeviceClass : Z) (uninitialised : list Z).
Context (device_read : DF -> list Z -> Z -> outcome (Z * list Z * DF)).
Context (device_pread : DF -> list Z -> Z -> Z -> outcome (Z * list Z * DF)).
Context (device_seek : DF -> Z -> outcome DF).
Context (uninit : nat -> list Z) (Huninit : forall n, length (uninit n) = n) (template : Z -> Z).
Context (depth : Z -> nat) (g : gmap Z Z).

#[local] Instance launch_impl : PhysicalFS Physical PFSNode (File DF) Directory :=
  all_filesystems open_as_file block_device BlockDeviceClass uninitialised.
#[local] Instance launch_laws : PhysicalFSLaws Physical PFSNode (File DF) Directory (physical_ok depth g) node_live node_kids :=
  all_filesystems_laws open_as_file block_device BlockDeviceClass uninitialised depth g.
#[local] Instance launch_files : FileOps (File DF) :=
  all_files uninitialised device_read device_pread device_seek.

Notation names := (resolve (kids := node_kids)).
Notation fs_inv := (vfs_inv (ok := physical_ok depth g) (live := node_live) (kids := node_kids)).
Notation sys_ok := (VmaOps.sys_ok (owned := owned)).
Notation sched_inv := (sched_inv (queued := queued)).
Notation launch := (launch_process open_as_file block_device BlockDeviceClass uninitialised device_read device_pread device_seek
  uninit (Some template)).
Notation start_kernel := (start_kernel_threadproc open_as_file block_device BlockDeviceClass uninitialised device_read
  device_pread device_seek uninit (Some template)).
Notation KernelState := (@KernelState A Q).

(** A file of the built-in driver that holds the bytes [d]. *)
Definition driver_contents (f : File DF) (d : list Z) (p : Z) : Prop :=
  exists dev z, f = InternalFile dev z /\ internal_contents dev z d p.

#[local] Instance driver_laws : FileLaws (File DF) driver_contents.
Proof.
  split.
  - intros f d p (dev & z & -> & Hc). apply (law_size (FileLaws := internal_file_laws dev) _ _ _ Hc).
  - intros f d p (dev & z & -> & Hc) Hd. destruct (law_seek (FileLaws := internal_file_laws dev) _ _ _ Hc Hd) as (z' & E & Hc'). injection E as <-.
    eexists. split; [reflexivity|]. by exists dev, (InternalDriver.seek z 0 SeekAbsolute).
  - intros f d p buf n (dev & z & -> & Hc) Hp Hn Hl Hb. destruct (law_read (FileLaws := internal_file_laws dev) _ _ _ buf n Hc Hp Hn Hl Hb) as (z' & E & Hc').
    cbn in E |- *. rewrite E. eexists. split; [reflexivity|]. by exists dev, z'.
  - intros f d p buf n off (dev & z & -> & Hc) Ho Hn Hl Hb.
    destruct (law_pread (FileLaws := internal_file_laws dev) _ _ _ buf n off Hc Ho Hn Hl Hb) as (z' & r & E & Hc' & Hr). cbn in E |- *.
    destruct (InternalDriver.pread dev z buf n off) as [[m buf']|] eqn:Ep; [|done]. cbn in E |- *. injection E as -> -> ->.
    exists (InternalFile dev z'), r. split; [reflexivity|]. split; [by exists dev, z'|done].
Qed.

(** The state of the kernel's memory before a launch. *)
Definition memory_of (s : KernelState) : VMA A :=
  {| _page_allocations := []; _pgt_phys_base := 0; _pgt_virt_base := 0; pgalloc := ks_pages s; words := ks_memory s |}.

(** Memory to spare and room for one more thread. *)
Record can_launch (O : Z) (n : nat) (s : KernelState) (xs : list Z) : Prop := {
  cl_memory : sys_ok (memory_of s);
  cl_ample : ample O n (memory_of s);
  cl_sched : sched_inv (ks_scheduler s) xs;
  cl_thread : entities (ks_scheduler s) !! next_thread s = None;
  cl_idle : next_thread s <> _idle_entity (ks_scheduler s);
  cl_room : Z.of_nat (size (entities (ks_scheduler s))) < 2 ^ 31 - 2
}.

(** What a launch leaves: the process, its thread ready to run, and every
    other thread as it was. *)
Record launched (s : KernelState) (d : list Z) (cmdline : String) (p : Process A) (s' : KernelState) : Prop := {
  la_image : exists t, runs_image d cmdline p t;
  la_memory : ks_pages s' = pgalloc (_vma p) /\ ks_memory s' = words (_vma p);
  la_sched : exists xs', sched_inv (ks_scheduler s') xs' /\ next_thread s ∈ xs';
  la_state : state_of (ks_scheduler s') (next_thread s) = Some RUNNABLE;
  la_others e x : entities (ks_scheduler s) !! e = Some x -> entities (ks_scheduler s') !! e = Some x
}.

Lemma launch_spec (s : KernelState) root ms xs O comps tl n dev d cmdline : fs_inv (ks_vfs s) root ms -> Forall name_ok comps ->
  tl = [] \/ tl = [47] -> (comps = [] -> tl = []) ->
  names (pfs (ks_vfs s)) ms (rev (hashes comps)) = Some n -> archive_file (pfs (ks_vfs s)) n dev d ->
  image_ok O d -> 1 <= O -> can_launch O (15 + segments_cost (segments d)) s xs ->
  Forall is_byte (_data cmdline) -> Z.of_nat (length (_data cmdline)) < 4096 ->
  exists p s', launch s (path_of comps tl) cmdline = Ok (Some p, s') /\ launched s d cmdline p s' /\ fs_inv (ks_vfs s') root ms.
Proof.
  intros If Hc Ht Hct Hn Ha Him HO [Hsys Hamp HI Hth Hid Hroom] Hb Hlen.
  destruct (archive_file_open open_as_file uninitialised _ _ _ _ Ha) as (z & Ez & HX & Hpos & Hst & Hx).
  pose proof (af_size _ _ _ _ Ha) as [Hbs Hsz].
  destruct (open_spec (H := launch_impl) (ks_vfs s) root ms comps tl 0 If Hc Ht Hct) as (v' & I' & P' & E).
  rewrite Hn in E. cbn [pfs_open launch_impl all_filesystems] in E. rewrite Ez in E. cbn [mbind outcome_bind] in E.
  unfold launch_process. step_to E.
  assert (driver_contents (InternalFile dev z) d 0) as Hcont by (exists dev, z; split; [done|split; [done|done|split; [done|lia]|done|done]]).
  destruct (im_header _ _ Him) as [H64 Hchk].
  destruct (law_read _ d 0 (uninit 16) 16 Hcont ltac:(lia) ltac:(lia) ltac:(lia)) as (f1 & E1 & Hc1); [rewrite Huninit; lia|].
  step_to E1. rewrite (drop_ge (uninit 16)) by (rewrite Huninit; lia). rewrite app_nil_r.
  assert (is_elf (take (Z.to_nat 16) (drop (Z.to_nat 0) d)) = true) as ->.
  { unfold is_elf. apply bool_decide_eq_true. change (Z.to_nat 0) with 0%nat. rewrite drop_0, take_take.
    by apply magic_bytes; [apply Him| |]. }
  destruct (load_spec uninit Huninit template O f1 _ d (ks_pages s) (ks_memory s) cmdline Hc1 Him HO Hsys Hamp Hb Hlen)
    as (p & t & f2 & E2 & Hrun). step_to E2.
  destruct (start_process_spec _ xs _ HI Hth Hid Hroom) as (sched & xs' & E3 & HI' & Hin & Hstate & Hoth & _). step_to E3.
  eexists p, _. split; [reflexivity|]. split; [|done]. split; cbn [ks_pages ks_memory ks_scheduler]; eauto.
Qed.

(** C1: the kernel's first thread boots into the init program.  When the boot
    device holds an archive with the default driver, and the archive lists, at
    the path the command line names below [/usr], an executable whose segments
    fit their pages, then -- with memory for it -- the file systems are mounted
    and init is launched: its process sees exactly the image (its segments, a
    zeroed stack, nothing else), its thread starts at the entry point in user
    mode and is in the run queue, and every other thread is as it was. *)
Theorem boot_launch_correct (s : KernelState) regs b dn es comps tail blk d xs O :
  regs ≡ₚ file_system_registrations -> boot_ok block_device BlockDeviceClass depth g (ks_vfs s) b dn es ->
  boot_fstype b = replicate 16 0 -> block_size (block_device dn) = 512 -> block_count (block_device dn) < 2 ^ 31 ->
  Forall name_ok comps ->
  init_program b = _data (path_of ([117; 115; 114] :: comps) []) ++ 0 :: tail ->
  expected 0 es (fun q => if decide (q = []) then Some None else None) (hash <$> comps) =
    Some (Some (blk, Z.of_nat (length d))) ->
  stored (block_device dn) (blk + 1) d -> Z.of_nat (length d) < 2 ^ 31 ->
  Z.of_nat (length (init_program b)) < 2 ^ 64 ->
  image_ok O d -> 1 <= O -> can_launch O (15 + segments_cost (segments d)) s xs ->
  exists p s', start_kernel s regs b = Ok (p, s') /\ launched s d (String_of []) p s'.
Proof.
  intros Hregs Hb Hfst Hbs Hbc Hc Hinit Hexp Hst Hsz Hlen Him HO Hl. unfold start_kernel_threadproc.
  destruct (im_header _ _ Him) as [H64 _].
  destruct (boot_file_spec open_as_file block_device BlockDeviceClass uninitialised depth g regs Hregs (ks_vfs s) b dn es comps blk d)
    as (v' & root & ms & n & E & I & Hn & Haf); try done; [lia|].
  step_to E.
  assert (Forall name_ok ([117; 115; 114] :: comps)) as Hnames.
  { constructor; [|done]. split; [done|split; [repeat constructor; lia|cbn; lia]]. }
  assert (String_cstr (init_program b) = Ok (path_of ([117; 115; 114] :: comps) [])) as E2.
  { rewrite Hinit, length_app in *. apply String_cstr_spec; [|lia]. apply path_of_forall; [done|by left]. }
  step_to E2. change (String_cstr [0]) with (@Ok CString.String (String_of [])). cbn [mbind outcome_bind].
  destruct (launch_spec (with_vfs s v') root ms xs O ([117; 115; 114] :: comps) [] n (block_device dn) d (String_of []) I Hnames)
    as (p & s' & E3 & Hla & _); try done.
  - by left.
  - by destruct Hl.
  - step_to E3. cbn [or_abort mbind outcome_bind]. exists p, s'. split; [reflexivity|]. by destruct Hla.
Qed.
End launch.

(** A machine whose archive has the small executable as [/usr/init]. *)
Definition init_entry : tar_entry := {|
  te_path := [[105; 110; 105; 116]]; te_size := 124; te_type := 48;
  te_mode_uid_gid := replicate 24 48; te_mtime_chksum := replicate 20 48; te_rest := replicate 355 0
|}.

Definition init_archive : BlockDevice := {|
  block_size := 512; block_count := 3;
  read_block := fun b => if b =? 0 then Some (header init_entry)
                         else if b =? 1 then Some (small_image ++ replicate 388 0) else Some (replicate 512 0)
|}.

Lemma init_archive_ok : archive init_archive 0 [init_entry].
Proof.
  apply archive_entry; [done|done| |done|].
  - split; [|cbn; lia|cbn; lia|done]. split; [done|]. repeat constructor; done.
  - apply archive_zero; [done|reflexivity].
Qed.

Definition usr_init : list Z := [47; 117; 115; 114; 47; 105; 110; 105; 116] ++ 0 :: replicate 6 0.

Definition small_state (m : Map Z) (pg : PageAllocator (list (option Z))) : @KernelState (list (option Z)) CompletelyFairScheduler := {|
  ks_vfs := fresh_vfs (one_device_physical m); ks_pages := pg; ks_memory := ∅;
  ks_scheduler := small empty_cfs; next_thread := 3
|}.

Lemma boot_launch_correct_witness : exists m pg p s',
  start_kernel_threadproc (fun _ => @None unit) (fun _ => init_archive) 1 [] (fun f b _ => Ok (0, b, f)) (fun f b _ _ => Ok (0, b, f))
    (fun f _ => Ok f) (fun n => replicate n 7) (Some (fun _ => 0)) (small_state m pg) file_system_registrations
    (blk0_init usr_init) = Ok (p, s') /\
  user_byte (_vma p) 0x400001 = Ok (Some 0x2a) /\ state_of (ks_scheduler s') 3 = Some RUNNABLE.
Proof.
  destruct (represents_add _ _ (compute_hash (String_of [98; 108; 107; 48])) 5 (represents_new (V := Z))) as (m & _ & Hm).
  rewrite insert_empty in Hm. exists m. destruct machine_ample as (pg & Hs & Hav & Hruns). exists pg.
  destruct (boot_launch_correct (queued := cfs_queued) (fun _ => @None unit) (fun _ => init_archive) 1 [] (fun f b _ => Ok (0, b, f))
    (fun f b _ _ => Ok (0, b, f)) (fun f _ => Ok f) (fun n => replicate n 7) (fun n => length_replicate n 7) (fun _ => 0) (fun _ => 0%nat)
    {[ compute_hash (String_of [98; 108; 107; 48]) := 5 ]} (small_state m pg) file_system_registrations (blk0_init usr_init) 5
    [init_entry] [[105; 110; 105; 116]] (replicate 6 0) 0 small_image [] 1) as (p & s' & E & [[t Hrun] _ _ Hst _]).
  - reflexivity.
  - apply blk0_init_ok; [exact Hm|apply init_archive_ok|cbn; lia].
  - reflexivity.
  - reflexivity.
  - reflexivity.
  - repeat constructor; try discriminate; cbn; lia.
  - reflexivity.
  - vm_compute. reflexivity.
  - intros i Hi Hl. change (Z.of_nat (length small_image)) with 124 in Hl. replace i with 0 by lia. vm_compute. reflexivity.
  - reflexivity.
  - reflexivity.
  - apply small_image_ok.
  - lia.
  - split; [exact Hs| |apply small_inv; split; [apply InfList.empty_list_holds|reflexivity]|reflexivity|discriminate|reflexivity].
    change (15 + segments_cost (segments small_image))%nat with 19%nat.
    eapply ample_le; [|split; [eapply avail_pages_le; [|exact Hav]|exact Hruns]]; lia.
  - exists p, s'. split; [exact E|]. split; [|exact Hst].
    apply (ri_segments _ _ _ _ Hrun (bytes_at small_image 64 56) 1); [vm_compute; left|vm_compute; split; congruence].
Defined.
