(* ===== verification/ThreadCalls.v ===== *)
(** * infos/kernel/syscall.cpp: the system calls on threads

    A process makes, stops and joins threads.  The state is the process that
    calls, the object manager, the scheduler and the address of the next thread
    object; the process of a thread is a parameter ([Thread::owner]).  A call
    after which the calling thread does not run has no result yet. *)
From S2P Require Import Prelude Define PageDesc BuddyTheorems InfList CommonsList CommonsListProof Time Sched SchedProof RBMap RBMapRep RBMapProof RBMapTheorems CString PageAllocator PageAllocatorProof PageAllocatorTheorems Vma VmaProof VmaOps VmaTheorems TarFS InternalDriver Vfs Devices Pfs Kernel Objects Syscall DescTables DescTablesProof Memory Process ProcessProof UserMemory Elf ElfProof ElfTheorems Launch ProcessTheorems LaunchTheorems.

#[local] Arguments wrap : simpl never.

Section calls.
Context {A : Type} `{PageAllocatorAlgorithm A} {Q : Type} `{SchedulingAlgorithm Q}.
Context (process_of : Z -> Z).

Record Calls := {
  caller : Process A;
  handles : ObjectManager;
  scheduler : Scheduler Q;
  new_thread : Z
}.

Definition with_scheduler (st : Calls) (s : Scheduler Q) : Calls :=
  {| caller := caller st; handles := handles st; scheduler := s; new_thread := new_thread st |}.

Definition user_stack_address (h : Z) : Z := u64 (0x7fff00000000 + u32 (0x2000 * u32 h)).

(** [Thread::current()]. *)
Definition current (st : Calls) : outcome Z := deref (current_thread (scheduler st)).

Definition sys_create_thread (st : Calls) (entry_point arg : Z) : outcome (Z * Calls) :=
  cur ← current st;
  '(i, p) ← create_thread (caller st) User entry_point;
  t ← in_bounds (_threads p !! i);
  '(h, om) ← register_object (handles st) cur (ThreadObject (new_thread st));
  vma ← allocate_user_stack (_vma p) t (user_stack_address h) 0x2000;
  let '(t, vma) := add_entry_argument vma t arg in
  s ← start_process (scheduler st) (new_thread st);
  Ok (h, {| caller := with_thread p i t vma; handles := om; scheduler := s; new_thread := new_thread st + 1 |}).

(** The thread a handle names, or NULL. *)
Definition get_thread (st : Calls) (h : Z) : outcome (option Z) :=
  cur ← current st;
  o ← get_object_secure process_of (handles st) cur h;
  match o with
  | None => Ok None
  | Some o => t ← as_thread o; Ok (Some t)
  end.

(** After [stop] and [sleep]: a thread that did it to itself yields. *)
Definition yield_if (yields : bool) (st : Calls) (s : Scheduler Q) : outcome Calls :=
  if yields then s ← schedule s; Ok (with_scheduler st s) else Ok (with_scheduler st s).

Definition sys_stop_thread (st : Calls) (h : Z) : outcome (option Z * Calls) :=
  t ← (if h =? u64 (-1) then cur ← current st; Ok (Some cur) else get_thread st h);
  match t with
  | None => Ok (Some minus_one, st)
  | Some t =>
      '(yields, s) ← stop (scheduler st) t;
      st ← yield_if yields st s;
      Ok (if yields : bool then None else Some 0, st)
  end.

(** One round of the loop of the call: the result, or none when the thread has
    slept and is at the test again once it runs. *)
Definition join_loop (st : Calls) (t : Z) : outcome (option Z * Calls) :=
  x ← entity (scheduler st) t;
  if bool_decide (_state x = STOPPED) then Ok (Some 0, st)
  else
    cur ← current st;
    '(yields, s) ← wait (scheduler st) t cur;
    st ← yield_if yields st s;
    Ok (None, st).

Definition sys_join_thread (st : Calls) (h : Z) : outcome (option Z * Calls) :=
  t ← get_thread st h;
  match t with
  | None => Ok (Some minus_one, st)
  | Some t => join_loop st t
  end.
End calls.
Arguments Calls A Q : clear implicits.

(** ** Making a thread *)
Section create.
Context {A : Type} `{PageAllocatorAlgorithmLaws A fresh_state owned can_free} {Q : Type} `{SchedulingAlgorithmLaws Q queued}.
Implicit Types (s : VMA A) (L : gmap Z nat) (K : Z -> Prop) (M : Z -> option Z).

Notation vma_ok := (vma_ok (owned := owned)).
Notation sched_inv := (sched_inv (queued := queued)).

(** The kernel stack of a new thread is no page that was in use. *)
Lemma new_stack_pages s s' L K M pgd : vma_ok s L -> memory_is s L K M -> kernel_pages s L K -> grows 2 s L s' L ->
  (forall va, user_va va -> get_mapping s' va = get_mapping s va) ->
  (forall x, block pgd 1 x -> type_at (descriptors (pgalloc s')) x = Some ALLOCATED /\
     type_at (descriptors (pgalloc s)) x = Some AVAILABLE /\ data_page s' L x) ->
  let K' p := K p \/ block pgd 1 p in
  memory_is s' L K' M /\ kernel_pages s' L K' /\ (forall p a, K p -> in_page p a -> word s' a = word s a) /\
  (forall p, K p -> ~ block pgd 1 p) /\ 0 < pgd /\ pgd + 2 <= 2 ^ 20.
Proof.
  intros Hok HM HK [Ht Hk] Hg Hpg K'.
  assert (forall p, data_page s L p -> ~ block pgd 1 p) as Hfresh.
  { intros p [Hty _] Hb. destruct (Hpg p Hb) as (_ & Hav & _). congruence. }
  split; [|split; [|split; [|split]]].
  - intros va Hl. specialize (HM va Hl). rewrite Hg by by apply low_user. destruct (M va) as [b|]; [|done].
    pose proof HM as (p & E & Hp & Hd & HKp & _).
    destruct (backed_kept s L K s' L va b Hk (Hg va (low_user va Hl)) HM) as (q & E' & Hq & Hdq & HKq & Hbq).
    assert (q = p) as -> by (rewrite Hg, E in E' by (by apply low_user); injection E'; lia).
    exists p. split; [done|]. split; [done|]. split; [done|]. split; [|done]. intros [?|Hb]; [done|]. by apply (Hfresh p).
  - intros p [Hp|Hp]; [by apply Hk, HK|]. by apply Hpg.
  - intros p a Hp. by apply Hk, HK.
  - intros p Hp. by apply Hfresh, HK.
  - assert (forall x, block pgd 1 x -> 0 < x < 2 ^ 20) as Hr.
    { intros x Hx. destruct (Hpg x Hx) as (_ & Hav & _). by apply (available_range s x (vo_sys _ _ Hok)). }
    pose proof (Hr pgd ltac:(unfold block; lia)). pose proof (Hr (pgd + 1) ltac:(unfold block; lia)). lia.
Qed.

(** The stack of a new user thread and its two registers. *)
Lemma new_user_stack s L K M t pgd base arg : vma_ok s L -> memory_is s L K M -> kernel_pages s L K -> (forall x, block pgd 1 x -> K x) ->
  0 < pgd -> pgd + 2 <= 2 ^ 20 -> native_context t = context_at pgd -> _current_entry_argument t = 0 -> ample 1 8 s ->
  low base -> base mod 4096 = 0 -> base + 0x2000 <= 2 ^ 47 ->
  exists s1 s2 L', allocate_user_stack s t base 0x2000 = Ok s1 /\ add_entry_argument s1 t arg = (with_argument_count t 1, s2) /\
    vma_ok s2 L' /\ memory_is s2 L' K (loaded_over M base 2 []) /\ kernel_pages s2 L' K /\
    (forall f, read_field s2 (context_at pgd) f = if decide (f = c_rdi) then arg else if decide (f = c_rsp) then base + 0x2000 else read_field s (context_at pgd) f) /\
    (forall p a, K p -> p <> pgd + 1 -> in_page p a -> word s2 a = word s a).
Proof.
  intros Hok HM HK Hblk Hp0 Hp1 Hctx Hcount Ha Hl Hal Hend. unfold allocate_user_stack.
  change (i32 (Z.shiftr (__align_up_page 0x2000) 12)) with 2. pose proof (Z.div_mod base 4096 ltac:(lia)) as Hdm.
  assert (K (pgd + 1)) as HK1 by (apply Hblk; unfold block; lia).
  destruct (load_memory s L K M base 2 1 0 [] Hok HM HK Hl) as (s1 & s1' & L' & E1 & E2 & Hok1 & _ & HK1' & Hsame & HM1);
    [change (2 ^ __log2ceil 2) with 2; lia|lia|change (__log2ceil 2) with 1; lia|exact Ha|by constructor|change (2 ^ __log2ceil 2) with 2; cbn; lia|].
  apply copy_nothing in E2 as ->. step_to E1. change (2 ^ __log2ceil 2) with 2 in HM1.
  rewrite Hctx, wrap_small by (unfold low in Hl; lia).
  destruct (field_memory s1 L' K _ pgd c_rsp (base + 0x2000) Hok1 HM1 HK1' Hp0 Hp1 HK1) as (Hok2 & HM2 & HK2 & Hw2).
  set (s2 := write_field s1 (context_at pgd) c_rsp (base + 0x2000)) in *.
  destruct (field_memory s2 L' K _ pgd c_rdi arg Hok2 HM2 HK2 Hp0 Hp1 HK1) as (Hok3 & HM3 & HK3 & Hw3).
  unfold add_entry_argument. rewrite Hcount, Hctx. cbn iota. eexists _, _, L'. split; [done|]. split; [done|].
  split_and!; try done.
  - intros f. rewrite read_write_field by by apply context_range. unfold s2. rewrite read_write_field by by apply context_range.
    do 2 (case_decide; [case_decide; congruence|rewrite (decide_False (P := f = _)) by congruence]).
    destruct (context_field_page pgd f Hp0 Hp1) as [E Hp]. unfold read_field. rewrite E. by apply (Hsame (pgd + 1)).
  - intros p a Hp Hne Hpa. by rewrite (Hw3 p), (Hw2 p), (Hsame p).
Qed.

(** The address of the stack as the program would write it. *)
Lemma user_stack_place h : 0 <= h < 2 ^ 19 ->
  user_stack_address h = 0x7fff00000000 + 0x2000 * h /\ low (0x7fff00000000 + 0x2000 * h) /\
  (0x7fff00000000 + 0x2000 * h) mod 4096 = 0 /\ 0x7fff00000000 + 0x2000 * h + 0x2000 <= 2 ^ 47.
Proof.
  intros Hh. change (2 ^ 19) with 524288 in Hh. unfold user_stack_address, low.
  rewrite (wrap_small 32 h), (wrap_small 32 (0x2000 * h)), wrap_small by lia. split; [done|]. split; [lia|]. split; [|lia].
  replace (0x7fff00000000 + 0x2000 * h) with ((0x7fff00000 + 2 * h) * 4096) by lia. by rewrite Z.mod_mul.
Qed.

(** The pages of the two-page stack. *)
Lemma stack_pages base va : base mod 4096 = 0 -> in_pages base 2 va <-> base <= va < base + 0x2000.
Proof.
  intros Hb. unfold in_pages. pose proof (Z.div_mod base 4096 ltac:(lia)). pose proof (Z.div_mod va 4096 ltac:(lia)).
  pose proof (Z.mod_pos_bound va 4096 ltac:(lia)). lia.
Qed.

(** The process that calls: its address space, what its program sees ([M]) and
    the pages of its kernel stacks ([K]). *)
Record calling (st : Calls A Q) (cur : Z) L K M xs g : Prop := {
  ca_current : current_thread (scheduler st) = Some cur;
  ca_user : _kernel_process (caller st) = false;
  ca_space : vma_ok (_vma (caller st)) L;
  ca_memory : memory_is (_vma (caller st)) L K M;
  ca_stacks : kernel_pages (_vma (caller st)) L K;
  ca_handles : om_ok (handles st) g;
  ca_sched : sched_inv (scheduler st) xs
}.

(** C4: making a thread.  A program that makes a thread gets a new handle,
    which names the thread for exactly the threads of the process.  The thread
    is runnable and in the run queue; it starts in user mode at its entry
    point with interrupts on, with its argument in the first argument register
    and its stack pointer at the end of two pages of its own that are zero, at
    an address that its handle alone determines.  Every other byte that the
    program sees, every kernel stack of the process, every other handle and
    every other thread is as it was.  There must be ten pages to spare, and the
    handle is below 2^19, from where on the addresses of the stacks repeat. *)
Theorem create_thread_correct (process_of : Z -> Z) st cur L K M xs g entry arg tss junk :
  let h := _next_handle (handles st) in let base := 0x7fff00000000 + 0x2000 * h in let a := new_thread st in
  calling st cur L K M xs g -> h < 2 ^ 19 -> ample 1 10 (_vma (caller st)) ->
  entities (scheduler st) !! a = None -> a <> _idle_entity (scheduler st) -> Z.of_nat (size (entities (scheduler st))) < 2 ^ 31 - 2 ->
  exists st' t L' K' xs' g', sys_create_thread st entry arg = Ok (h, st') /\
    calling st' cur L' K' (fun va => if decide (base <= va < base + 0x2000) then Some 0 else M va) xs' g' /\
    _threads (caller st') = _threads (caller st) ++ [t] /\ a ∈ xs' /\ state_of (scheduler st') a = Some RUNNABLE /\
    (let reg := read_field (_vma (caller st')) (native_context t) in
     reg c_rip = entry /\ reg c_rsp = base + 0x2000 /\ reg c_rdi = arg /\ Z.testbit (reg c_rflags) 9 = true /\
     selects (boot_gdt tss junk) (reg c_cs) 3 (code_segment 3) /\ selects (boot_gdt tss junk) (reg c_ss) 3 (data_segment 3)) /\
    (forall p b, K p -> in_page p b -> K' p /\ word (_vma (caller st')) b = word (_vma (caller st)) b) /\
    (forall u, get_object_secure process_of (handles st') u h = Ok (if process_of cur =? process_of u then Some (ThreadObject a) else None)) /\
    (forall u h', h' <> h -> get_object_secure process_of (handles st') u h' = get_object_secure process_of (handles st) u h') /\
    (forall e x, entities (scheduler st) !! e = Some x -> entities (scheduler st') !! e = Some x).
Proof.
  intros h base a [Hcur Huser Hok HM HK Hom HS] Hh Ha Hfresh Hidle Hsize.
  pose proof (om_range _ _ Hom) as Hr. destruct (user_stack_place h ltac:(lia)) as (Eb & Hl & Hal & Hend). fold base in Eb, Hl, Hal, Hend.
  destruct (Thread_new_spec (_vma (caller st)) L User entry Hok) as
    (t & s1 & E1 & Hok1 & Hg1 & Hpriv & Hcount & Hctx0 & Hctx & Hreg & pgd & Hstack & Hpages & Hgrow).
  { apply (avail_runs_run 1 1 9); [lia|apply Ha]. }
  destruct (new_stack_pages _ s1 L K M pgd Hok HM HK Hgrow Hg1 Hpages) as (HM1 & HK1 & Hw1 & Hdisj & Hp0 & Hp1).
  destruct (new_user_stack s1 L (fun p => K p \/ block pgd 1 p) M t pgd base arg Hok1 HM1 HK1 (fun x Hx => or_intror Hx) Hp0 Hp1) as
    (s2 & s3 & L' & E2 & E3 & Hok3 & HM3 & HK3 & Hreg3 & Hw3); try done.
  { rewrite Hctx, Hstack. unfold context_at. lia. }
  { eapply (taken_ample 2); [lia|apply Hgrow|exact Ha]. }
  destruct (register_object_spec (handles st) g cur (ThreadObject a) Hom ltac:(fold h; lia)) as (om & E4 & Hom' & _ & Hg).
  destruct (start_process_spec (scheduler st) xs a HS Hfresh Hidle Hsize) as (s' & xs' & E5 & HS' & Hin & Hst & Hsame & _ & Hct).
  exists {| caller := with_thread {| _pname := _pname (caller st); _kernel_process := _kernel_process (caller st); _terminated := _terminated (caller st);
            _vma := s1; _threads := _threads (caller st) ++ [t]; _main_thread := _main_thread (caller st) |} (length (_threads (caller st))) (with_argument_count t 1) s3;
            handles := om; scheduler := s'; new_thread := a + 1 |}, (with_argument_count t 1), L', (fun p => K p \/ block pgd 1 p), xs',
    (<[h := {| od_owner := cur; od_object := ThreadObject a |}]> g).
  assert (native_context t = context_at pgd) as Ect by (rewrite Hctx, Hstack; unfold context_at; lia).
  split.
  { unfold sys_create_thread, current. rewrite Hcur. cbn [deref mbind outcome_bind]. unfold create_thread. rewrite Huser. cbn [andb negb assert_ mbind outcome_bind].
    step_to E1. cbn [_threads mbind outcome_bind]. rewrite lookup_app_r, Nat.sub_diag by lia. cbn [in_bounds lookup list_lookup mbind outcome_bind].
    step_to E4. fold h. rewrite Eb. cbn [_vma]. step_to E2. rewrite E3. cbn iota. step_to E5. done. }
  cbn [caller handles scheduler with_thread _vma _threads]. split.
  { split; cbn [caller handles scheduler with_thread _vma _kernel_process]; try done; [congruence|].
    intros va Hlow. specialize (HM3 va Hlow). unfold loaded_over in HM3. cbn [length] in HM3. rewrite decide_False in HM3 by lia.
    rewrite (decide_ext _ _ _ _ (stack_pages base va Hal)) in HM3. done. }
  split; [by rewrite insert_app_r_alt, Nat.sub_diag by lia|]. split; [done|]. split; [done|]. split.
  { cbv zeta. cbn [with_argument_count native_context]. rewrite Ect, !Hreg3, !(decide_False (P := c_rip = _)), !(decide_False (P := c_rflags = _)),
      !(decide_False (P := c_cs = _)), !(decide_False (P := c_ss = _)), (decide_False (P := c_rsp = c_rdi)), !decide_True by done.
    rewrite <- Ect, !Hreg. by split_and!. }
  split.
  { intros p b Hp Hpb. split; [by left|]. rewrite (Hw3 p b); [by apply (Hw1 p)|by left| |done]. intros ->. apply (Hdisj _ Hp). unfold block. lia. }
  split; [intros u; by rewrite (get_object_spec _ _ _ _ _ Hom'), lookup_insert_eq|]. split; [|done].
  intros u h' Hne. by rewrite (get_object_spec _ _ _ _ _ Hom'), (get_object_spec _ _ _ _ _ Hom), lookup_insert_ne.
Qed.
End create.

(** ** Stopping and joining *)
Section join.
Context {A : Type} `{PageAllocatorAlgorithm A} {Q : Type} `{SchedulingAlgorithmLaws Q queued}.
Implicit Types (s : Scheduler Q) (S : Z -> Prop).

Notation sched_inv := (sched_inv (queued := queued)).

(** [WakeQueue::sleep]: the thread is in the wake queue and sleeps. *)
Lemma thread_wait_spec s xs t cur : sched_inv s xs -> never_running s -> thread_of s t -> thread_of s cur -> t <> cur ->
  (forall w, ~ waits s cur w) -> current_thread s = Some cur ->
  exists s' xs', wait s t cur = Ok (true, s') /\ sched_inv s' xs' /\ never_running s' /\ state_of s' cur = Some SLEEPING /\
    waits s' t cur /\ (forall a w, waits s' a w -> waits s a w \/ (a = t /\ w = cur)) /\
    (forall u, u <> cur -> thread_of s u -> state_of s' u = state_of s u) /\ (forall u, u <> cur -> awake s u -> awake s' u) /\
    dom (entities s') = dom (entities s) /\ _idle_entity s' = _idle_entity s /\ _active s' = _active s /\
    Sched._current s' = Sched._current s /\ current_thread s' = Some cur.
Proof.
  intros HI HN [[x Hx] Ht] Hcur Hne Hnw Hct. unfold wait. step_to (entity_Ok _ _ _ Hx).
  destruct (si_waiters _ _ HI t x Hx) as (ws & Hh & Hws). destruct (InfList.append_spec _ _ cur Hh) as (w & E & Hw). step_to E.
  set (s1 := put s t (with_waiters x w)).
  assert (sched_inv s1 xs) as HI1.
  { apply (set_waiters_inv s xs t x w (ws ++ [cur]) HI Hx Hw). intros v [Hv| ->%list_elem_of_singleton]%elem_of_app; [by apply Hws|apply Hcur]. }
  assert (forall u, u <> t -> entities s1 !! u = entities s !! u) as Hoth by (intros u Hu; cbn; by rewrite lookup_insert_ne).
  assert (forall u, state_of s1 u = state_of s u) as Hst1.
  { intros u. unfold state_of. destruct (decide (u = t)) as [->|Hu]; [cbn; by rewrite lookup_insert_eq, Hx|by rewrite Hoth]. }
  assert (forall a v, waits s1 a v -> waits s a v \/ (a = t /\ v = cur)) as Hwt.
  { intros a v (y & us & Hy & Hus & Hv). destruct (decide (a = t)) as [->|Ha].
    - cbn in Hy. rewrite lookup_insert_eq in Hy. injection Hy as <-. rewrite (holds_unique _ _ _ Hus Hw) in Hv.
      apply elem_of_app in Hv as [Hv| ->%list_elem_of_singleton]; [left; by exists x, ws|by right].
    - left. exists y, us. by rewrite <- Hoth. }
  destruct (change_spec (fun _ => False) s1 xs cur SLEEPING HI1) as (s2 & xs2 & E2 & HI2 & Hs2 & Hc & _).
  - by intros a v.
  - destruct Hcur as [Hd Hi]. split; [|done]. destruct Hd as [y Hy]. exists y. by rewrite Hoth by done.
  - right. tauto.
  - done.
  - intros v Hv. destruct (Hwt _ _ Hv) as [Hv'|[Hv' _]]; [by apply (Hnw v)|done].
  - assert (waits s1 t cur) as Hwc.
    { exists (with_waiters x w), (ws ++ [cur]). split; [cbn; by rewrite lookup_insert_eq|]. split; [done|]. apply elem_of_app. right. left. }
    unfold sleep. step_to E2. rewrite (ch_thread _ _ _ _ Hc). change (current_thread s1) with (current_thread s). rewrite Hct, bool_decide_true by done.
    exists s2, xs2. split; [done|]. split; [done|]. split.
    { eapply changed_never_running; [exact Hc|intros u; rewrite Hst1; apply HN|]. intros u ->%list_elem_of_singleton. by rewrite Hs2. }
    split; [done|]. split.
    { eapply changed_waits; [exact Hc|intros Hv%list_elem_of_singleton; done|tauto| |done]. split; [cbn; rewrite lookup_insert_eq; by eexists|done]. }
    split; [intros a v Hv; eapply Hwt, ch_waits; [exact Hc|done]|]. split; [|split; [|split; [|by rewrite (ch_idle _ _ _ _ Hc), (ch_active _ _ _ _ Hc), (ch_current _ _ _ _ Hc), (ch_thread _ _ _ _ Hc)]]].
    + intros u Hu [Hd Hi]. rewrite <- Hst1. eapply changed_state; [exact Hc|by intros Hv%list_elem_of_singleton|tauto|].
      split; [|done]. destruct (decide (u = t)) as [->|Hut]; [cbn; rewrite lookup_insert_eq; by eexists|by rewrite Hoth].
    + intros u Hu Hau. eapply changed_awake; [exact Hc|by intros Hv%list_elem_of_singleton|]. apply state_awake. rewrite Hst1. unfold state_of.
      destruct Hau as (y & -> & Hy). cbn. by rewrite Hy.
    + rewrite (ch_dom _ _ _ _ Hc). cbn. rewrite dom_insert_L. apply subseteq_union_1_L, singleton_subseteq_l. by apply elem_of_dom.
Qed.

(** [schedule] writes nothing but the start of a time slice. *)
Lemma schedule_entities s s' : schedule s = Ok s' -> (_idle_entity s' = _idle_entity s /\ _active s' = _active s) /\
  forall e, entities s' !! e = entities s !! e \/ exists x, entities s !! e = Some x /\ entities s' !! e = Some (update_exec_start_time x (runtime s)).
Proof.
  unfold schedule. destruct (negb (_active s)); [intros [= <-]; auto|]. destruct (_algorithm s) as [q|]; [|intros [= <-]; auto].
  intros ([next q'] & _ & E)%bind_Ok_inv. apply bind_Ok_inv in E as (s1 & E1 & E).
  assert (entities s1 = entities s /\ _idle_entity s1 = _idle_entity s /\ _active s1 = _active s /\ runtime s1 = runtime s) as (He & Hi & Hac & Hr).
  { case_bool_decide; [|by injection E1 as <-].
    assert (forall s0 t prev ok s2, activate s0 t prev = Ok (ok, s2) -> entities s2 = entities s0 /\ _idle_entity s2 = _idle_entity s0 /\ _active s2 = _active s0 /\ runtime s2 = runtime s0) as Hact.
    { intros s0 t prev ok s2. unfold activate. intros (x & _ & (u & _ & Ea)%bind_Ok_inv)%bind_Ok_inv. case_bool_decide; by injection Ea as <- <-. }
    apply bind_Ok_inv in E1 as ([ok s2] & (Ha1 & Ha2 & Ha4 & Ha3)%Hact & E1). destruct ok; [by injection E1 as <-|].
    apply bind_Ok_inv in E1 as ([ok s3] & (Hb1 & Hb2 & Hb4 & Hb3)%Hact & E1). destruct ok; [|done]. injection E1 as <-. cbn in *. by rewrite Hb1, Hb2, Hb4, Hb3. }
  apply bind_Ok_inv in E as (c & _ & E). apply bind_Ok_inv in E as (x & Hx & [= <-]). split; [by cbn|].
  unfold entity in Hx. destruct (entities s1 !! c) as [x'|] eqn:Hx'; [|done]. injection Hx as ->. rewrite He in Hx'.
  intros e. cbn. rewrite He. destruct (decide (e = c)) as [->|Hne]; [|left; by rewrite lookup_insert_ne].
  right. exists x. by rewrite lookup_insert_eq, Hr.
Qed.

Lemma schedule_waits s s' a w : schedule s = Ok s' -> waits s' a w <-> waits s a w.
Proof.
  intros [_ He]%schedule_entities. unfold waits. destruct (He a) as [->|(x & -> & ->)]; [done|].
  split; intros (y & ws & [= <-] & Hh & Hw); by eexists _, ws.
Qed.

Lemma schedule_thread_of s s' t : schedule s = Ok s' -> thread_of s t -> thread_of s' t.
Proof.
  intros [[Hi _] He]%schedule_entities [[x Hx] Ht]. split; [|by rewrite Hi]. destruct (He t) as [->|(y & _ & ->)]; by eexists.
Qed.

Lemma runnable_queued s xs t : sched_inv s xs -> t <> _idle_entity s -> state_of s t = Some RUNNABLE -> t ∈ xs.
Proof. unfold state_of. intros HI Ht (x & Hx & Hr)%fmap_Some. apply (si_runq _ _ HI t x Hx Ht). by left. Qed.

(** A program of which thread [cur] has the processor, and its handle [h] of thread [t]. *)
Record joining (process_of : Z -> Z) (st : Calls A Q) (cur h t : Z) xs g : Prop := {
  jo_current : current_thread (scheduler st) = Some cur /\ Sched._current (scheduler st) = Some cur;
  jo_handles : om_ok (handles st) g;
  jo_handle : exists o, g !! h = Some {| od_owner := o; od_object := ThreadObject t |} /\ process_of o = process_of cur;
  jo_sched : sched_inv (scheduler st) xs;
  jo_running : never_running (scheduler st) /\ _active (scheduler st) = true /\ awake (scheduler st) (_idle_entity (scheduler st));
  jo_threads : thread_of (scheduler st) cur /\ thread_of (scheduler st) t /\ t <> cur /\ h <> u64 (-1)
}.

Lemma get_thread_spec process_of st cur h t xs g n s : joining process_of st cur h t xs g -> current_thread s = Some n ->
  process_of n = process_of cur -> get_thread process_of (with_scheduler st s) h = Ok (Some t).
Proof.
  intros [_ Hom (o & Ho & Hp) _ _ _] Hn Hpn. unfold get_thread, current. cbn [with_scheduler scheduler handles]. rewrite Hn. cbn [deref mbind outcome_bind].
  rewrite (get_object_spec _ _ _ _ _ Hom), Ho. cbn. rewrite Hp, Hpn, Z.eqb_refl. done.
Qed.

(** What is left after the yield of a thread that stopped itself. *)
Lemma yield_if_spec yields (st : Calls A Q) s xs : sched_inv s xs -> never_running s -> _active s = true ->
  awake s (_idle_entity s) ->
  exists s' xs', yield_if yields st s = Ok (with_scheduler st s') /\ sched_inv s' xs' /\
    (forall u, state_of s' u = state_of s u) /\ _idle_entity s' = _idle_entity s.
Proof.
  intros HI HN Hact Hidle. unfold yield_if. destruct yields; [|by exists s, xs].
  destruct (schedule_states s xs HI HN) as (s' & xs' & m & E & HI' & Hst & _); [done|done|].
  exists s', xs'. step_to E. do 3 (split; [done|]). by destruct (schedule_entities _ _ E) as [[? _] _].
Qed.

(** C5: joining a thread.  When a program joins a thread that has stopped, the
    call returns 0 and changes nothing.  Otherwise the calling thread sleeps,
    another thread gets the processor and no other thread changes its state;
    and when that thread stops the joined thread through its handle, or is
    itself the joined thread and ends, the joining thread is runnable and in
    the run queue again, and its test then gives 0. *)
Theorem join_correct S process_of st cur h t xs g : joining process_of st cur h t xs g ->
  (forall w, ~ waits (scheduler st) cur w) -> closed (scheduler st) S -> (forall w, waits (scheduler st) t w -> S w) -> S cur -> ~ S t ->
  (state_of (scheduler st) t = Some STOPPED -> sys_join_thread process_of st h = Ok (Some 0, st)) /\
  (state_of (scheduler st) t <> Some STOPPED ->
     exists st1 xs1 n, sys_join_thread process_of st h = Ok (None, st1) /\ sched_inv (scheduler st1) xs1 /\
       state_of (scheduler st1) cur = Some SLEEPING /\ current_thread (scheduler st1) = Some n /\ n <> cur /\
       state_of (scheduler st1) n = Some RUNNABLE /\
       (forall u, u <> cur -> thread_of (scheduler st) u -> state_of (scheduler st1) u = state_of (scheduler st) u) /\
       forall h', (h' = h /\ process_of n = process_of cur) \/ (h' = u64 (-1) /\ n = t) ->
         exists st2 xs2, sys_stop_thread process_of st1 h' = Ok (if decide (n = t) then None else Some 0, st2) /\
           sched_inv (scheduler st2) xs2 /\ state_of (scheduler st2) t = Some STOPPED /\
           state_of (scheduler st2) cur = Some RUNNABLE /\ cur ∈ xs2 /\ join_loop st2 t = Ok (Some 0, st2)).
Proof.
  intros HJ Hnw HC HwS HSc HSt. pose proof HJ as [[Hct Hcc] Hom _ HI (HN & Hact & Hidle) (Htc & Htt & Hne & Hh)].
  assert (get_thread process_of st h = Ok (Some t)) as Eg.
  { pose proof (get_thread_spec _ _ _ _ _ _ _ cur (scheduler st) HJ Hct eq_refl) as E. by destruct st. }
  assert (forall st' : Calls A Q, state_of (scheduler st') t = Some STOPPED -> join_loop st' t = Ok (Some 0, st')) as Hloop.
  { intros st' Hst'. unfold state_of in Hst'. apply fmap_Some in Hst' as (x & Hx & Hr). unfold join_loop. step_to (entity_Ok _ _ _ Hx). by rewrite bool_decide_true. }
  unfold sys_join_thread. step_to Eg. split; [by apply Hloop|]. intros Hnot.
  destruct (thread_wait_spec (scheduler st) xs t cur HI HN Htt Htc Hne Hnw Hct) as
    (s1 & xs1 & E1 & HI1 & HN1 & Hs1 & Hw1 & Hws & Hst1 & Haw1 & Hdom & Hid & Hac & Hcu & Hct1).
  assert (_idle_entity (scheduler st) <> cur) as Hic by (intros E; by destruct Htc as [_ []]).
  destruct (schedule_states s1 xs1 HI1 HN1) as (s2 & xs2 & n & E2 & HI2 & Hst2 & Hn & Hcn & Hctn); [by rewrite Hac|by rewrite Hid; apply Haw1|].
  assert (n <> cur) as Hncur by (intros ->; congruence).
  assert (current_thread s2 = Some n) as Hct2 by (apply Hctn; rewrite Hcu, Hcc; congruence).
  assert (join_loop st t = Ok (None, with_scheduler st s2)) as ->.
  { unfold join_loop, current. destruct Htt as [[x Hx] _]. step_to (entity_Ok _ _ _ Hx). rewrite bool_decide_false.
    - rewrite Hct. cbn [deref mbind outcome_bind]. step_to E1. unfold yield_if. by step_to E2.
    - intros Hr. apply Hnot. unfold state_of. by rewrite Hx, <- Hr. }
  exists (with_scheduler st s2), xs2, n. cbn [with_scheduler scheduler]. do 2 (split; [done|]). split; [by rewrite Hst2|].
  do 2 (split; [done|]). split; [by rewrite Hst2 in *|]. split; [intros u Hu Hth; by rewrite Hst2, Hst1|].
  intros h' Hh'.
  assert (closed s2 S) as HC2.
  { intros a w Ha Hw. apply (schedule_waits _ _ _ _ E2) in Hw. destruct (Hws a w Hw) as [Hw'|[-> _]]; [by eapply HC|done]. }
  assert (thread_of s1 t) as Htt1 by (destruct Htt as [Hd Hi]; split; [apply elem_of_dom; rewrite Hdom; by apply elem_of_dom|by rewrite Hid]).
  assert (never_running s2) as HN2 by (intros u; rewrite Hst2; apply HN1).
  destruct (stop_spec S s2 xs2 t HI2 HC2 HN2) as (s3 & xs3 & E3 & HI3 & _ & HN3 & Hc3 & Hs3 & Haw3).
  { split; [by apply (schedule_thread_of s1)|]. split; [done|]. intros w Hw. apply (schedule_waits _ _ _ _ E2) in Hw.
    destruct (Hws t w Hw) as [Hw'|[_ ->]]; [by apply HwS|done]. }
  destruct (Haw3 ltac:(by rewrite Hst2, Hst1) cur ltac:(by apply (schedule_waits _ _ _ _ E2))) as (y & Hy & Hyr).
  assert (state_of s3 cur = Some RUNNABLE) as Hcur3 by (unfold state_of; rewrite Hy; cbn; by rewrite Hyr).
  assert (awake s3 (_idle_entity s3)) as Hidle3.
  { rewrite (ch_idle _ _ _ _ Hc3), (proj1 (proj1 (schedule_entities _ _ E2))), Hid. eapply changed_awake; [exact Hc3|by intros Hv%list_elem_of_singleton; destruct Htt|].
    destruct (schedule_entities _ _ E2) as [_ He]. destruct (Haw1 _ Hic Hidle) as (x & Hx & Hxr).
    destruct (He (_idle_entity (scheduler st))) as [E|(x' & Hx' & E)]; [exists x; by rewrite E|]. rewrite Hx in Hx'. injection Hx' as <-. by eexists. }
  destruct (yield_if_spec (bool_decide (n = t)) (with_scheduler st s2) s3 xs3 HI3 HN3) as (s4 & xs4 & E4 & HI4 & Hst4 & Hid4); [|done|].
  { by rewrite (ch_active _ _ _ _ Hc3), (proj2 (proj1 (schedule_entities _ _ E2))), Hac. }
  exists (with_scheduler (with_scheduler st s2) s4), xs4. split.
  { unfold sys_stop_thread. assert ((if h' =? u64 (-1) then cur0 ← current (with_scheduler st s2); Ok (Some cur0) else get_thread process_of (with_scheduler st s2) h') = Ok (Some t)) as E5.
    { destruct Hh' as [[-> Hp]|[-> ->]].
      - rewrite eqb_false by done. by eapply get_thread_spec.
      - rewrite Z.eqb_refl. unfold current. cbn [with_scheduler scheduler]. by rewrite Hct2. }
    step_to E5. cbn [with_scheduler scheduler]. rewrite (bool_decide_ext _ (n = t)) in E3 by (rewrite Hct2; split; congruence). step_to E3. step_to E4.
    case_bool_decide; case_decide; done. }
  cbn [with_scheduler scheduler]. rewrite !Hst4. do 3 (split; [done|]). split; [|apply Hloop; cbn; by rewrite Hst4].
  apply (runnable_queued s4 xs4 cur HI4); [|by rewrite Hst4]. rewrite Hid4, (ch_idle _ _ _ _ Hc3), (proj1 (proj1 (schedule_entities _ _ E2))), Hid. congruence.
Qed.
End join.

(** ** A process of threads 1 and 2, thread 1 having the processor *)
Definition a_process_of (t : Z) : Z := 100.

Lemma a_caller : exists p L pgd, _kernel_process (A := list (option Z)) p = false /\ _threads p <> [] /\
  space (owned := buddy_owned) 1 (_vma p) L pgd (initial_register User 0x400000 (frame_va pgd + 8192)) (fun _ => None) 10.
Proof.
  destruct machine_ample as (pg & Hs & Hav & Hruns).
  destruct (Process_new_spec pg ∅ (fun _ => 0) String_empty 0x400000 1 10 Hs) as (p & L & pgd & E & _ & (t & Ht & _) & Hsp); [lia| |].
  { eapply ample_le; [|split; [eapply avail_pages_le; [|exact Hav]|exact Hruns]]; lia. }
  exists p, L, pgd. split; [|split; [by rewrite Ht|done]]. unfold Process_new in E.
  do 2 apply bind_Ok_inv in E as (? & _ & E). apply bind_Ok_inv in E as ([m q] & E & [= <-]). cbn.
  unfold create_thread in E. cbn in E. apply bind_Ok_inv in E as ([? ?] & _ & E). by injection E as _ <-.
Qed.

Lemma create_thread_correct_witness : exists st st' : Calls (list (option Z)) RoundRobinScheduler,
  sys_create_thread st 0x401000 7 = Ok (1, st') /\ user_byte (_vma (caller st')) 0x7fff00002008 = Ok (Some 0) /\
  state_of (scheduler st') 9 = Some RUNNABLE.
Proof.
  destruct (list_of [1; 2] ltac:(reflexivity)) as [l Hl]. destruct a_caller as (p & L & pgd & Hk & _ & [Hok HM HK _ _ Ha]).
  set (st := {| caller := p; handles := ObjectManager_new; scheduler := running {| rr_queue := l |}; new_thread := 9 |}).
  destruct (create_thread_correct (queued := rr_queued) a_process_of st 1 L (block pgd 1) (fun _ => None) [1; 2] ∅ 0x401000 7 0 0) as
    (st' & t & L' & K' & xs' & g' & E & [_ _ _ HM' _ _ _] & _ & _ & Hst & _).
  - split; try done; [apply om_new|by apply running_inv].
  - done.
  - exact Ha.
  - reflexivity.
  - done.
  - reflexivity.
  - exists st, st'. split; [exact E|]. split; [|exact Hst]. rewrite (memory_user_byte _ _ _ _ _ HM') by (unfold low; lia). reflexivity.
Defined.

Lemma join_correct_witness : exists (st st1 st2 : Calls (list (option Z)) RoundRobinScheduler) r,
  sys_join_thread a_process_of st 1 = Ok (None, st1) /\ sys_stop_thread a_process_of st1 1 = Ok (r, st2) /\
  state_of (scheduler st2) 1 = Some RUNNABLE /\ join_loop st2 2 = Ok (Some 0, st2).
Proof.
  destruct (list_of [1; 2] ltac:(reflexivity)) as [l Hl]. destruct a_caller as (p & _).
  destruct (register_object_spec ObjectManager_new ∅ 1 (ThreadObject 2) om_new ltac:(done)) as (om & _ & Hom & _).
  set (st := {| caller := p; handles := om; scheduler := running {| rr_queue := l |}; new_thread := 9 |}).
  assert (forall a w, ~ waits (scheduler st) a w) as Hno by apply running_no_waits.
  destruct (join_correct (queued := rr_queued) (fun w => w = 1) a_process_of st 1 1 2 [1; 2] {[1 := {| od_owner := 1; od_object := ThreadObject 2 |}]}) as [_ Hj].
  - split; [done|exact Hom|exists 1; by rewrite lookup_singleton_eq|by apply running_inv| |].
    + split; [apply running_never_running|]. split; [done|]. by eexists.
    + split; [split; [by eexists|done]|]. split; [split; [by eexists|done]|]. by vm_compute.
  - apply Hno.
  - intros a w _ Hw. by destruct (Hno a w).
  - intros w Hw. by destruct (Hno 2 w).
  - done.
  - done.
  - destruct Hj as (st1 & xs1 & n & E1 & _ & _ & _ & _ & _ & _ & Hs); [by vm_compute|].
    destruct (Hs 1 (or_introl (conj eq_refl eq_refl))) as (st2 & xs2 & E2 & _ & _ & Hr & _ & E3).
    by eexists st, st1, st2, _.
Defined.
