(* ===== verification/Keyboard.v ===== *)
(** * drivers/input/keyboard.h, keyboard.cpp: from scancodes to keys

    The interrupt handler reads one byte from port 0x60 and converts it to
    [int8_t]; the top bit says that the key is released. *)
From S2P Require Import Prelude.

Inductive Keys :=
  NO_KEY | UNKNOWN_KEY | KEY_ESCAPE
| KEY_A | KEY_B | KEY_C | KEY_D | KEY_E | KEY_F | KEY_G | KEY_H | KEY_I | KEY_J | KEY_K | KEY_L | KEY_M
| KEY_N | KEY_O | KEY_P | KEY_Q | KEY_R | KEY_S | KEY_T | KEY_U | KEY_V | KEY_W | KEY_X | KEY_Y | KEY_Z
| KEY_1 | KEY_2 | KEY_3 | KEY_4 | KEY_5 | KEY_6 | KEY_7 | KEY_8 | KEY_9 | KEY_0
| KEY_F1 | KEY_F2 | KEY_F3 | KEY_F4 | KEY_F5 | KEY_F6 | KEY_F7 | KEY_F8 | KEY_F9 | KEY_F10 | KEY_F11 | KEY_F12
| KEY_ASTERISK | KEY_LSQBRACKET | KEY_RSQBRACKET
| KEY_DOT | KEY_COMMA | KEY_SEMICOLON | KEY_APOSTROPHE | KEY_HASH | KEY_BACKSLASH | KEY_FORSLASH
| KEY_BACKTICK | KEY_HYPHEN | KEY_EQUALS
| KEY_TAB | KEY_RETURN | KEY_SPACE | KEY_BACKSPACE
| KEY_CAPSLOCK | KEY_LSHIFT | KEY_RSHIFT | KEY_LCTRL | KEY_RCTRL | KEY_LALT | KEY_RALT.

(** The values of the enumeration. *)
Definition key_value (k : Keys) : Z :=
  match k with
  | NO_KEY => 0 | UNKNOWN_KEY => 1 | KEY_ESCAPE => 2 | KEY_A => 3 | KEY_B => 4 | KEY_C => 5 | KEY_D => 6 | KEY_E => 7 | KEY_F => 8
  | KEY_G => 9 | KEY_H => 10 | KEY_I => 11 | KEY_J => 12 | KEY_K => 13 | KEY_L => 14 | KEY_M => 15 | KEY_N => 16 | KEY_O => 17
  | KEY_P => 18 | KEY_Q => 19 | KEY_R => 20 | KEY_S => 21 | KEY_T => 22 | KEY_U => 23 | KEY_V => 24 | KEY_W => 25 | KEY_X => 26
  | KEY_Y => 27 | KEY_Z => 28 | KEY_1 => 29 | KEY_2 => 30 | KEY_3 => 31 | KEY_4 => 32 | KEY_5 => 33 | KEY_6 => 34 | KEY_7 => 35
  | KEY_8 => 36 | KEY_9 => 37 | KEY_0 => 38 | KEY_F1 => 39 | KEY_F2 => 40 | KEY_F3 => 41 | KEY_F4 => 42 | KEY_F5 => 43 | KEY_F6 => 44
  | KEY_F7 => 45 | KEY_F8 => 46 | KEY_F9 => 47 | KEY_F10 => 48 | KEY_F11 => 49 | KEY_F12 => 50 | KEY_ASTERISK => 51 | KEY_LSQBRACKET => 52 | KEY_RSQBRACKET => 53
  | KEY_DOT => 54 | KEY_COMMA => 55 | KEY_SEMICOLON => 56 | KEY_APOSTROPHE => 57 | KEY_HASH => 58 | KEY_BACKSLASH => 59 | KEY_FORSLASH => 60 | KEY_BACKTICK => 61 | KEY_HYPHEN => 62
  | KEY_EQUALS => 63 | KEY_TAB => 64 | KEY_RETURN => 65 | KEY_SPACE => 66 | KEY_BACKSPACE => 67 | KEY_CAPSLOCK => 68 | KEY_LSHIFT => 69 | KEY_RSHIFT => 70 | KEY_LCTRL => 71
  | KEY_RCTRL => 72 | KEY_LALT => 73 | KEY_RALT => 74
  end.

Definition all_keys : list Keys := [
  NO_KEY; UNKNOWN_KEY; KEY_ESCAPE; KEY_A; KEY_B; KEY_C; KEY_D; KEY_E; KEY_F;
  KEY_G; KEY_H; KEY_I; KEY_J; KEY_K; KEY_L; KEY_M; KEY_N; KEY_O;
  KEY_P; KEY_Q; KEY_R; KEY_S; KEY_T; KEY_U; KEY_V; KEY_W; KEY_X;
  KEY_Y; KEY_Z; KEY_1; KEY_2; KEY_3; KEY_4; KEY_5; KEY_6; KEY_7;
  KEY_8; KEY_9; KEY_0; KEY_F1; KEY_F2; KEY_F3; KEY_F4; KEY_F5; KEY_F6;
  KEY_F7; KEY_F8; KEY_F9; KEY_F10; KEY_F11; KEY_F12; KEY_ASTERISK; KEY_LSQBRACKET; KEY_RSQBRACKET;
  KEY_DOT; KEY_COMMA; KEY_SEMICOLON; KEY_APOSTROPHE; KEY_HASH; KEY_BACKSLASH; KEY_FORSLASH; KEY_BACKTICK; KEY_HYPHEN;
  KEY_EQUALS; KEY_TAB; KEY_RETURN; KEY_SPACE; KEY_BACKSPACE; KEY_CAPSLOCK; KEY_LSHIFT; KEY_RSHIFT; KEY_LCTRL;
  KEY_RCTRL; KEY_LALT; KEY_RALT
].

Lemma key_value_inverse k : nth (Z.to_nat (key_value k)) all_keys NO_KEY = k.
Proof. by destruct k. Qed.

#[global] Instance key_value_inj : Inj (=) (=) key_value.
Proof. intros k1 k2 E. by rewrite <- (key_value_inverse k1), E, key_value_inverse. Qed.

#[global] Instance keys_eq_dec : EqDecision Keys.
Proof.
  intros k1 k2. destruct (decide (key_value k1 = key_value k2)) as [E|E]; [left; by apply (inj key_value)|right; congruence].
Defined.

Definition scancode_map : list Keys := [
  NO_KEY; KEY_ESCAPE;
  KEY_1; KEY_2; KEY_3; KEY_4; KEY_5; KEY_6;
  KEY_7; KEY_8; KEY_9; KEY_0;

  KEY_HYPHEN; KEY_EQUALS; KEY_BACKSPACE; KEY_TAB;

  KEY_Q; KEY_W; KEY_E; KEY_R; KEY_T; KEY_Y;
  KEY_U; KEY_I; KEY_O; KEY_P; KEY_LSQBRACKET; KEY_RSQBRACKET;

  KEY_RETURN;
  KEY_LCTRL;

  KEY_A; KEY_S; KEY_D; KEY_F; KEY_G; KEY_H;
  KEY_J; KEY_K; KEY_L; KEY_SEMICOLON; KEY_APOSTROPHE; KEY_BACKTICK;

  KEY_LSHIFT;
  KEY_BACKSLASH; KEY_Z; KEY_X; KEY_C; KEY_V; KEY_B;
  KEY_N; KEY_M; KEY_COMMA; KEY_DOT; KEY_FORSLASH;

  KEY_RSHIFT;
  KEY_ASTERISK;
  KEY_LALT;
  KEY_SPACE;
  KEY_CAPSLOCK;

  KEY_F1; KEY_F2; KEY_F3; KEY_F4; KEY_F5; KEY_F6; KEY_F7; KEY_F8; KEY_F9; KEY_F10
].

(** [scancode] is signed; the comparison with the size of the array lets one
    index too many through. *)
Definition scancode_to_key (scancode : Z) : outcome Keys :=
  let key_scancode := Z.land (u8 scancode) (Z.lnot 0x80) in
  if Z.of_nat (length scancode_map) <? key_scancode then Ok UNKNOWN_KEY
  else in_bounds (scancode_map !! Z.to_nat key_scancode).

(** [Keyboard::handle_key_event] for a sink with its two virtual functions. *)
Definition handle_key_event {K} (key_up key_down : K -> Keys -> outcome K) (sink : option K) (scancode : Z)
  : outcome (option K) :=
  match sink with
  | None => Ok None
  | Some sink =>
      key ← scancode_to_key scancode;
      sink ← (if negb (Z.land scancode 0x80 =? 0) then key_up sink key else key_down sink key);
      Ok (Some sink)
  end.

Definition keyboard_irq_handler {K} (key_up key_down : K -> Keys -> outcome K) (sink : option K) (byte : Z)
  : outcome (option K) :=
  handle_key_event key_up key_down sink (i8 byte).

(** ** Every byte but two is a key or ignored *)
Definition key_of (scancode : Z) : option Keys :=
  let k := scancode mod 0x80 in
  if k =? 69 then None else Some (default UNKNOWN_KEY (scancode_map !! Z.to_nat k)).

Definition bytes : list Z := seqZ 0 256.

Lemma byte_in b : 0 <= b < 256 -> b ∈ bytes.
Proof. intros Hb. by apply elem_of_seqZ. Qed.

(** Facts about all bytes, by evaluation. *)
Lemma all_bytes (P : Z -> bool) : forallb P bytes = true -> forall b, 0 <= b < 256 -> P b = true.
Proof. rewrite forallb_forall. intros HP b Hb. apply HP, list_elem_of_In. by apply byte_in. Qed.

Lemma scancode_to_key_spec b : 0 <= b < 256 ->
  scancode_to_key (i8 b) = in_bounds (key_of b) /\ (Z.land (i8 b) 0x80 =? 0) = (b <? 128).
Proof.
  intros Hb.
  assert (bool_decide (scancode_to_key (i8 b) = in_bounds (key_of b)) &&
          bool_decide ((Z.land (i8 b) 0x80 =? 0) = (b <? 128)) = true) as HP.
  { revert b Hb. apply all_bytes. by vm_compute. }
  apply andb_prop in HP as [H1 H2]. by apply bool_decide_eq_true in H1, H2.
Qed.

(** The scancode one past the table, of Num Lock, reads outside it. *)
Lemma num_lock_out_of_bounds : scancode_to_key 69 = Fault OutOfBounds /\ scancode_to_key (i8 (69 + 128)) = Fault OutOfBounds.
Proof. done. Qed.
