(* ===== verification/Console.v ===== *)
(** * drivers/console, drivers/terminal, drivers/video/vga-console.cpp: terminals

    A key goes from the keyboard to the physical console, from there to the
    current virtual console, and as a character into the ring buffer of its
    terminal, where it wakes the threads that read.  Output goes from a terminal
    to its virtual console, whose cells are in a buffer of its own or, while the
    console is current, in the memory of the VGA card.  Objects are named by
    their addresses; [screens] is the memory their buffers are in. *)
From S2P Require Import Prelude InfList Time Sched Process Keyboard.

Definition Shift : Z := 2.
Definition _width : Z := 80.
Definition _height : Z := 25.

Record Terminal := {
  _read_buffer : list Z;
  _read_buffer_head : Z;
  _read_buffer_tail : Z;
  _read_buffer_event : InfList.List Z;
  _attached_virt_console : option Z
}.

(** A new array holds whatever was there. *)
Definition Terminal_new (uninit : nat -> list Z) : Terminal :=
  {| _read_buffer := uninit 64%nat; _read_buffer_head := 0; _read_buffer_tail := 0;
     _read_buffer_event := InfList.empty_list; _attached_virt_console := None |}.

(** [_ucb] is the callback of the VGA console or NULL. *)
Record VirtualConsole := {
  _current_mod_mask : Z;
  _current_pos : Z;
  _terminal : option Z;
  _buffer : option Z;
  _ucb : bool
}.

Definition VirtualConsole_new (buffer : Z) : VirtualConsole :=
  {| _current_mod_mask := 0; _current_pos := 0; _terminal := None; _buffer := Some buffer; _ucb := false |}.

(** The physical console with the fields of its class [VGAConsoleDevice]. *)
Record PhysicalConsole := {
  _vcs : InfList.List Z;
  _current_vc : option Z;
  _alt_pressed : bool;
  _video_ram_address : Z;
  _backup_buffer : option Z;
  _old_vc : option Z
}.

Definition VGAConsoleDevice_new (video_ram : Z) : PhysicalConsole :=
  {| _vcs := InfList.empty_list; _current_vc := None; _alt_pressed := false; _video_ram_address := video_ram;
     _backup_buffer := None; _old_vc := None |}.

(** ** The ring buffer of a terminal *)

(** The store and the advance of the tail; the event is triggered after it. *)
Definition put_char (t : Terminal) (c : Z) : outcome Terminal :=
  _ ← in_bounds (_read_buffer t !! Z.to_nat (_read_buffer_tail t));
  Ok {| _read_buffer := <[Z.to_nat (_read_buffer_tail t) := c]> (_read_buffer t);
        _read_buffer_head := _read_buffer_head t;
        _read_buffer_tail := u8 (_read_buffer_tail t + 1) mod 64;
        _read_buffer_event := _read_buffer_event t;
        _attached_virt_console := _attached_virt_console t |}.

Definition with_event (t : Terminal) (e : InfList.List Z) : Terminal :=
  {| _read_buffer := _read_buffer t; _read_buffer_head := _read_buffer_head t; _read_buffer_tail := _read_buffer_tail t;
     _read_buffer_event := e; _attached_virt_console := _attached_virt_console t |}.

Definition is_empty (t : Terminal) : bool := _read_buffer_head t =? _read_buffer_tail t.

(** The body of the loop of [Terminal::read] once there is something. *)
Definition take_char (t : Terminal) : outcome (Z * Terminal) :=
  elem ← in_bounds (_read_buffer t !! Z.to_nat (_read_buffer_head t));
  Ok (elem, {| _read_buffer := _read_buffer t; _read_buffer_head := u8 (_read_buffer_head t + 1) mod 64;
               _read_buffer_tail := _read_buffer_tail t; _read_buffer_event := _read_buffer_event t;
               _attached_virt_console := _attached_virt_console t |}).

(** [Terminal::read] of [n] characters up to the place where it has to wait:
    the characters it has stored by then. *)
Fixpoint read_loop (n : nat) (t : Terminal) : outcome (list Z * Terminal) :=
  match n with
  | O => Ok ([], t)
  | S n =>
      if is_empty t then Ok ([], t)
      else '(c, t) ← take_char t; '(cs, t) ← read_loop n t; Ok (c :: cs, t)
  end.

Section console.
Context {Q : Type} `{SchedulingAlgorithm Q}.

Definition append_to_read_buffer (s : Scheduler Q) (t : Terminal) (c : Z) : outcome (Scheduler Q * Terminal) :=
  t ← put_char t c;
  '(s, e) ← event_trigger s (_read_buffer_event t);
  Ok (s, with_event t e).

(** [Event::wait] by [thread] on the event of the terminal; the first result
    says whether the thread gives the processor away. *)
Definition wait_for_input (s : Scheduler Q) (t : Terminal) (thread : Z) : outcome (bool * Scheduler Q * Terminal) :=
  e ← InfList.append (_read_buffer_event t) thread;
  '(yields, s) ← sleep s thread;
  Ok (yields, s, with_event t e).

(** The devices of the console; [crtc] holds the registers of the VGA
    controller that have the position of the cursor. *)
Record Consoles := {
  ttys : gmap Z Terminal;
  vcs : gmap Z VirtualConsole;
  screens : gmap Z (list Z);
  console : PhysicalConsole;
  crtc : gmap Z Z;
  cs_scheduler : Scheduler Q
}.

Definition tty_at (k : Consoles) (p : Z) : outcome Terminal := in_bounds (ttys k !! p).
Definition vc_at (k : Consoles) (p : Z) : outcome VirtualConsole := in_bounds (vcs k !! p).

Definition set_tty (k : Consoles) (p : Z) (t : Terminal) (s : Scheduler Q) : Consoles :=
  {| ttys := <[p := t]> (ttys k); vcs := vcs k; screens := screens k; console := console k; crtc := crtc k; cs_scheduler := s |}.
Definition set_vc (k : Consoles) (p : Z) (v : VirtualConsole) : Consoles :=
  {| ttys := ttys k; vcs := <[p := v]> (vcs k); screens := screens k; console := console k; crtc := crtc k; cs_scheduler := cs_scheduler k |}.
Definition set_screen (k : Consoles) (b : Z) (cells : list Z) : Consoles :=
  {| ttys := ttys k; vcs := vcs k; screens := <[b := cells]> (screens k); console := console k; crtc := crtc k; cs_scheduler := cs_scheduler k |}.
Definition set_console (k : Consoles) (c : PhysicalConsole) : Consoles :=
  {| ttys := ttys k; vcs := vcs k; screens := screens k; console := c; crtc := crtc k; cs_scheduler := cs_scheduler k |}.

(** ** Input *)
Definition with_mod_mask (v : VirtualConsole) (m : Z) : VirtualConsole :=
  {| _current_mod_mask := m; _current_pos := _current_pos v; _terminal := _terminal v; _buffer := _buffer v; _ucb := _ucb v |}.

(** [KEY_MAPPING(_kc, _upper, _lower)] *)
Definition mapping (mask : Z) (upper lower : Z) : option Z :=
  Some (if negb (Z.land mask Shift =? 0) then upper else lower).

(** The character of a key, for the keys that have one. *)
Definition key_char (mask : Z) (key : Keys) : option Z :=
  match key with
  | KEY_A => mapping mask 65 97 | KEY_B => mapping mask 66 98 | KEY_C => mapping mask 67 99
  | KEY_D => mapping mask 68 100 | KEY_E => mapping mask 69 101 | KEY_F => mapping mask 70 102
  | KEY_G => mapping mask 71 103 | KEY_H => mapping mask 72 104 | KEY_I => mapping mask 73 105
  | KEY_J => mapping mask 74 106 | KEY_K => mapping mask 75 107 | KEY_L => mapping mask 76 108
  | KEY_M => mapping mask 77 109 | KEY_N => mapping mask 78 110 | KEY_O => mapping mask 79 111
  | KEY_P => mapping mask 80 112 | KEY_Q => mapping mask 81 113 | KEY_R => mapping mask 82 114
  | KEY_S => mapping mask 83 115 | KEY_T => mapping mask 84 116 | KEY_U => mapping mask 85 117
  | KEY_V => mapping mask 86 118 | KEY_W => mapping mask 87 119 | KEY_X => mapping mask 88 120
  | KEY_Y => mapping mask 89 121 | KEY_Z => mapping mask 90 122
  | KEY_0 => mapping mask 41 48 | KEY_1 => mapping mask 33 49 | KEY_2 => mapping mask 34 50
  | KEY_3 => mapping mask 35 51 | KEY_4 => mapping mask 36 52 | KEY_5 => mapping mask 37 53
  | KEY_6 => mapping mask 94 54 | KEY_7 => mapping mask 38 55 | KEY_8 => mapping mask 42 56
  | KEY_9 => mapping mask 40 57
  | KEY_HYPHEN => mapping mask 95 45 | KEY_EQUALS => mapping mask 43 61
  | KEY_BACKSLASH => mapping mask 124 92 | KEY_FORSLASH => mapping mask 63 47
  | KEY_DOT => mapping mask 62 46
  | KEY_SPACE => Some 32
  | KEY_RETURN => Some 10
  | KEY_BACKSPACE => Some 8
  | _ => None
  end.

Definition VirtualConsole_key_up (k : Consoles) (p : Z) (key : Keys) : outcome Consoles :=
  v ← vc_at k p;
  match key with
  | KEY_LSHIFT | KEY_RSHIFT => Ok (set_vc k p (with_mod_mask v (Z.land (_current_mod_mask v) (Z.lxor Shift 0xffffffff))))
  | _ => Ok k
  end.

Definition VirtualConsole_key_down (k : Consoles) (p : Z) (key : Keys) : outcome Consoles :=
  v ← vc_at k p;
  match key with
  | KEY_LSHIFT | KEY_RSHIFT => Ok (set_vc k p (with_mod_mask v (Z.lor (_current_mod_mask v) Shift)))
  | _ =>
      match key_char (_current_mod_mask v) key with
      | None => Ok k
      | Some ch =>
          a ← deref (_terminal v);
          t ← tty_at k a;
          '(s, t) ← append_to_read_buffer (cs_scheduler k) t ch;
          Ok (set_tty k a t s)
      end
  end.

(** ** The physical console *)
Definition with_current (c : PhysicalConsole) (v : Z) : PhysicalConsole :=
  {| _vcs := _vcs c; _current_vc := Some v; _alt_pressed := _alt_pressed c; _video_ram_address := _video_ram_address c;
     _backup_buffer := _backup_buffer c; _old_vc := _old_vc c |}.
Definition with_alt (c : PhysicalConsole) (alt : bool) : PhysicalConsole :=
  {| _vcs := _vcs c; _current_vc := _current_vc c; _alt_pressed := alt; _video_ram_address := _video_ram_address c;
     _backup_buffer := _backup_buffer c; _old_vc := _old_vc c |}.
Definition with_vcs (c : PhysicalConsole) (l : InfList.List Z) : PhysicalConsole :=
  {| _vcs := l; _current_vc := _current_vc c; _alt_pressed := _alt_pressed c; _video_ram_address := _video_ram_address c;
     _backup_buffer := _backup_buffer c; _old_vc := _old_vc c |}.
Definition with_backup (c : PhysicalConsole) (b : option Z) : PhysicalConsole :=
  {| _vcs := _vcs c; _current_vc := _current_vc c; _alt_pressed := _alt_pressed c; _video_ram_address := _video_ram_address c;
     _backup_buffer := b; _old_vc := _old_vc c |}.
Definition with_old (c : PhysicalConsole) (v : option Z) : PhysicalConsole :=
  {| _vcs := _vcs c; _current_vc := _current_vc c; _alt_pressed := _alt_pressed c; _video_ram_address := _video_ram_address c;
     _backup_buffer := _backup_buffer c; _old_vc := v |}.

Definition set_buffer (k : Consoles) (p : Z) (buffer : option Z) (ucb : bool) : outcome Consoles :=
  v ← vc_at k p;
  Ok (set_vc k p {| _current_mod_mask := _current_mod_mask v; _current_pos := _current_pos v; _terminal := _terminal v;
                    _buffer := buffer; _ucb := ucb |}).

Definition get_buffer (k : Consoles) (p : Z) : outcome (option Z) := v ← vc_at k p; Ok (_buffer v).

(** [memcpy] of the 80 * 25 cells of a screen between buffers. *)
Definition copy_screen (k : Consoles) (dest src : option Z) : outcome Consoles :=
  d ← deref dest; s ← deref src;
  to ← in_bounds (screens k !! d); from ← in_bounds (screens k !! s);
  if (length from <? 2000)%nat || (length to <? 2000)%nat then Fault OutOfBounds
  else Ok (set_screen k d (take 2000 from ++ drop 2000 to)).

(** The four port writes: index 0xf has the low byte of the position, 0xe the
    high one. *)
Definition VCUpdateCallback (k : Consoles) (p : Z) : outcome Consoles :=
  v ← vc_at k p;
  let position := _current_pos v in
  Ok {| ttys := ttys k; vcs := vcs k; screens := screens k; console := console k;
        crtc := <[0xe := u8 (Z.shiftr position 8)]> (<[0xf := u8 position]> (crtc k)); cs_scheduler := cs_scheduler k |}.

(** The old console gets its own buffer back, with what the card shows. *)
Definition save_old (k : Consoles) : outcome Consoles :=
  match _old_vc (console k) with
  | None => Ok k
  | Some old =>
      k ← set_buffer k old (_backup_buffer (console k)) false;
      b ← get_buffer k old;
      copy_screen k b (Some (_video_ram_address (console k)))
  end.

Definition virtual_console_changed (k : Consoles) : outcome Consoles :=
  k ← save_old k;
  let vram := Some (_video_ram_address (console k)) in
  current ← deref (_current_vc (console k));
  b ← get_buffer k current;
  let k := set_console k (with_backup (console k) b) in
  k ← set_buffer k current vram true;
  k ← match _backup_buffer (console k) with
      | None => Ok k
      | Some backup => b ← get_buffer k current; copy_screen k b (Some backup)
      end;
  let k := set_console k (with_old (console k) (Some current)) in
  VCUpdateCallback k current.

Definition set_current_vc (k : Consoles) (p : Z) : outcome Consoles :=
  virtual_console_changed (set_console k (with_current (console k) p)).

Definition PhysicalConsole_key_up (k : Consoles) (key : Keys) : outcome Consoles :=
  let k := match key with
           | KEY_LALT | KEY_RALT => set_console k (with_alt (console k) false)
           | _ => k
           end in
  match _current_vc (console k) with
  | None => Ok k
  | Some v => VirtualConsole_key_up k v key
  end.

(** The key goes on to the virtual console. *)
Definition pass_down (k : Consoles) (key : Keys) : outcome Consoles :=
  match _current_vc (console k) with
  | None => Ok k
  | Some v => VirtualConsole_key_down k v key
  end.

Definition PhysicalConsole_key_down (k : Consoles) (key : Keys) : outcome Consoles :=
  match key with
  | KEY_F1 =>
      if _alt_pressed (console k) then v ← InfList.at_ (_vcs (console k)) 0; set_current_vc k v else pass_down k key
  | KEY_F2 =>
      if _alt_pressed (console k) then v ← InfList.at_ (_vcs (console k)) 1; set_current_vc k v else pass_down k key
  | KEY_LALT | KEY_RALT => pass_down (set_console k (with_alt (console k) true)) key
  | _ => pass_down k key
  end.

Definition add_virtual_console (k : Consoles) (p : Z) : outcome Consoles :=
  l ← InfList.append (_vcs (console k)) p;
  let k := set_console k (with_vcs (console k) l) in
  if InfList.count l =? 1 then set_current_vc k p else Ok k.

(** An interrupt of the keyboard whose sink is the physical console. *)
Definition key_interrupt (k : Consoles) (byte : Z) : outcome Consoles :=
  k' ← keyboard_irq_handler PhysicalConsole_key_up PhysicalConsole_key_down (Some k) byte;
  deref k'.

(** [VirtualConsole::attach_terminal], which attaches the output as well. *)
Definition attach_terminal (k : Consoles) (p terminal : Z) : outcome Consoles :=
  v ← vc_at k p;
  t ← tty_at k terminal;
  let k := set_vc k p {| _current_mod_mask := _current_mod_mask v; _current_pos := _current_pos v;
                         _terminal := Some terminal; _buffer := _buffer v; _ucb := _ucb v |} in
  Ok (set_tty k terminal
        {| _read_buffer := _read_buffer t; _read_buffer_head := _read_buffer_head t; _read_buffer_tail := _read_buffer_tail t;
           _read_buffer_event := _read_buffer_event t; _attached_virt_console := Some p |} (cs_scheduler k)).

(** The part of [activate_console] after the devices have been looked up. *)
Definition connect_consoles (k : Consoles) (vc0 vc1 tty0 tty1 : Z) : outcome Consoles :=
  k ← attach_terminal k vc0 tty0;
  k ← attach_terminal k vc1 tty1;
  k ← add_virtual_console k vc0;
  add_virtual_console k vc1.

(** ** Output *)
Definition blank : Z := 0x0700.

(** [scroll_one_line] of the cells of a screen. *)
Definition scroll_one_line (cells : list Z) : list Z :=
  take (Z.to_nat (_width * (_height - 1))) (drop (Z.to_nat _width) cells) ++
  replicate (Z.to_nat _width) blank ++ drop (Z.to_nat (_width * _height)) cells.

Definition store_cell (cells : list Z) (pos v : Z) : outcome (list Z) :=
  _ ← in_bounds (cells !! Z.to_nat pos);
  Ok (<[Z.to_nat pos := u16 v]> cells).

(** The local variables of [write] with the two members it changes. *)
Record Writing := { w_cells : list Z; w_pos : Z; w_attr : Z; w_state : Z }.

(** What is done with a character in state 0. *)
Definition write_plain (w : Writing) (c : Z) : outcome Writing :=
  w ← (if c =? 10 then
         Ok {| w_cells := w_cells w; w_pos := u16 (w_pos w + (_width - w_pos w mod _width)); w_attr := w_attr w; w_state := w_state w |}
       else if c =? 27 then
         Ok {| w_cells := w_cells w; w_pos := w_pos w; w_attr := w_attr w; w_state := 1 |}
       else if c =? 8 then
         let pos := u16 (w_pos w - 1) in
         cells ← store_cell (w_cells w) pos (Z.lor (w_attr w) 32);
         Ok {| w_cells := cells; w_pos := pos; w_attr := w_attr w; w_state := w_state w |}
       else
         cells ← store_cell (w_cells w) (w_pos w) (Z.lor (w_attr w) c);
         Ok {| w_cells := cells; w_pos := u16 (w_pos w + 1); w_attr := w_attr w; w_state := w_state w |});
  if _width * _height <=? w_pos w then
    Ok {| w_cells := scroll_one_line (w_cells w); w_pos := _width * (_height - 1); w_attr := w_attr w; w_state := w_state w |}
  else Ok w.

(** One round of the loop; the byte is converted to [char]. *)
Definition write_byte (w : Writing) (b : Z) : outcome Writing :=
  let c := i8 b in
  let w :=
    if w_state w =? 1 then
      {| w_cells := w_cells w; w_pos := w_pos w; w_attr := w_attr w; w_state := if c =? 91 then 2 else 0 |}
    else if w_state w =? 2 then
      {| w_cells := w_cells w; w_pos := w_pos w; w_attr := 0x0100; w_state := 0 |}
    else w in
  if w_state w =? 0 then write_plain w c else Ok w.

Fixpoint write_bytes (w : Writing) (bs : list Z) : outcome Writing :=
  match bs with
  | [] => Ok w
  | b :: bs => w ← write_byte w b; write_bytes w bs
  end.

(** [VirtualConsole::write] of the bytes [bs]. *)
Definition VirtualConsole_write (k : Consoles) (p : Z) (bs : list Z) : outcome (Z * Consoles) :=
  v ← vc_at k p;
  match _buffer v with
  | None => Ok (0, k)
  | Some b =>
      cells ← in_bounds (screens k !! b);
      w ← write_bytes {| w_cells := cells; w_pos := _current_pos v; w_attr := 0x0700; w_state := 0 |} bs;
      let k := set_vc (set_screen k b (w_cells w)) p
                 {| _current_mod_mask := _current_mod_mask v; _current_pos := w_pos w; _terminal := _terminal v;
                    _buffer := _buffer v; _ucb := _ucb v |} in
      k ← (if _ucb v then VCUpdateCallback k p else Ok k);
      Ok (i32 (Z.of_nat (length bs)), k)
  end.

(** [Terminal::write] *)
Definition Terminal_write (k : Consoles) (a : Z) (bs : list Z) : outcome (Z * Consoles) :=
  t ← tty_at k a;
  match _attached_virt_console t with
  | None => Ok (0, k)
  | Some p => VirtualConsole_write k p bs
  end.
End console.
Arguments Consoles Q : clear implicits.
