(* ===== verification/ConsoleProof.v ===== *)
(** * Every console shows what was written to it

    The consoles share the memory of the VGA card: the current one has it as
    its buffer, and its cells are kept in its own buffer while another console
    is current.  [own] names the buffers the consoles were made with. *)
From S2P Require Import Prelude Time InfList CommonsList Sched SchedProof Process ProcessProof Keyboard Console.

(** ** The screen of a console is a window on a sheet of paper

    Output that scrolls is output on a sheet without end: lines of 80 cells,
    a pen, and a window of 25 lines that follows the pen.  Nothing is ever
    moved on the paper.  [write] of a virtual console implements it. *)

Record Paper := { ink : Z -> Z; pen : Z; top : Z; colour : Z; escape : Z }.

Definition clean_paper : Paper := {| ink := fun _ => blank; pen := 0; top := 0; colour := 0x0700; escape := 0 |}.

(** The window moves down one line when the pen leaves it. *)
Definition follow (p : Paper) : Paper :=
  {| ink := ink p; pen := pen p; top := if 80 * (top p + 25) <=? pen p then top p + 1 else top p;
     colour := colour p; escape := escape p |}.

Definition draw (p : Paper) (at_ pen' c : Z) : Paper :=
  {| ink := fun i => if i =? at_ then u16 (Z.lor (colour p) c) else ink p i; pen := pen'; top := top p;
     colour := colour p; escape := escape p |}.
Definition move_pen (p : Paper) (pen' : Z) : Paper :=
  {| ink := ink p; pen := pen'; top := top p; colour := colour p; escape := escape p |}.
Definition with_escape (p : Paper) (colour' escape' : Z) : Paper :=
  {| ink := ink p; pen := pen p; top := top p; colour := colour'; escape := escape' |}.

(** A character drawn; nothing can be taken back above the window. *)
Definition paper_plain (p : Paper) (c : Z) : option Paper :=
  if c =? 10 then Some (follow (move_pen p (80 * (pen p / 80 + 1))))
  else if c =? 27 then Some (with_escape p (colour p) 1)
  else if c =? 8 then if pen p =? 80 * top p then None else Some (draw p (pen p - 1) (pen p - 1) 32)
  else Some (follow (draw p (pen p) (pen p + 1) c)).

(** The escape sequence of three characters sets the colour of the rest and
    prints its last character. *)
Definition paper_byte (p : Paper) (b : Z) : option Paper :=
  let c := i8 b in
  if escape p =? 1 then
    if c =? 91 then Some (with_escape p (colour p) 2) else paper_plain (with_escape p (colour p) 0) c
  else if escape p =? 2 then paper_plain (with_escape p 0x0100 0) c
  else paper_plain p c.

Fixpoint paper_bytes (p : Paper) (bs : list Z) : option Paper :=
  match bs with
  | [] => Some p
  | b :: bs => p ← paper_byte p b; paper_bytes p bs
  end.

(** The window of the paper is what is on the screen; below it the paper is
    blank. *)
Record window (p : Paper) (cells : list Z) (pos : Z) : Prop := {
  wd_length : length cells = 2000%nat;
  wd_pos : pos = pen p - 80 * top p;
  wd_range : 0 <= pos < 2000;
  wd_cells i : 0 <= i < 2000 -> cells !! Z.to_nat i = Some (ink p (80 * top p + i));
  wd_below i : 80 * (top p + 25) <= i -> ink p i = blank
}.

Definition writes_as (w : Writing) (p : Paper) : Prop :=
  window p (w_cells w) (w_pos w) /\ w_attr w = colour p /\ w_state w = escape p.

Lemma clean_window : window clean_paper (replicate 2000 blank) 0.
Proof.
  split; cbn [clean_paper ink pen top]; try done.
  intros i Hi. apply lookup_replicate_2. lia.
Qed.

Lemma store_cell_Ok cells pos v : length cells = 2000%nat -> 0 <= pos < 2000 ->
  store_cell cells pos v = Ok (<[Z.to_nat pos := u16 v]> cells).
Proof.
  intros HL Hp. unfold store_cell. destruct (lookup_lt_is_Some_2 cells (Z.to_nat pos)) as [x E]; [lia|]. by rewrite E.
Qed.

Lemma store_cell_Fault cells pos v : length cells = 2000%nat -> 2000 <= pos -> store_cell cells pos v = Fault OutOfBounds.
Proof. intros HL Hp. unfold store_cell. by rewrite lookup_ge_None_2 by lia. Qed.

(** A cell drawn inside the window, the pen not yet followed. *)
Lemma window_draw p cells pos at_ pen' c : window p cells pos -> 0 <= at_ < 2000 ->
  length (<[Z.to_nat at_ := u16 (Z.lor (colour p) c)]> cells) = 2000%nat /\
  (forall i, 0 <= i < 2000 -> <[Z.to_nat at_ := u16 (Z.lor (colour p) c)]> cells !! Z.to_nat i =
     Some (ink (draw p (80 * top p + at_) pen' c) (80 * top p + i))) /\
  (forall i, 80 * (top p + 25) <= i -> ink (draw p (80 * top p + at_) pen' c) i = blank).
Proof.
  intros [HL _ _ Hc Hb] Ha. split; [by rewrite length_insert|]. split; intros i Hi; cbn [draw ink].
  - destruct (Z.eqb_spec (80 * top p + i) (80 * top p + at_)) as [E|E].
    + replace i with at_ by lia. apply list_lookup_insert_eq. lia.
    + rewrite list_lookup_insert_ne by lia. by apply Hc.
  - rewrite eqb_false by lia. by apply Hb.
Qed.

Lemma scroll_lookup cells i : length cells = 2000%nat -> 0 <= i < 2000 ->
  scroll_one_line cells !! Z.to_nat i = if i <? 1920 then cells !! Z.to_nat (i + 80) else Some blank.
Proof.
  intros HL Hi. unfold scroll_one_line, _width, _height. change (Z.to_nat (80 * (25 - 1))) with 1920%nat.
  change (Z.to_nat 80) with 80%nat. change (Z.to_nat (80 * 25)) with 2000%nat.
  destruct (Z.ltb_spec i 1920).
  - rewrite lookup_app_l by len. rewrite lookup_take, decide_True by lia. rewrite lookup_drop. by replace (Z.to_nat (i + 80)) with (80 + Z.to_nat i)%nat by lia.
  - rewrite lookup_app_r by len. rewrite lookup_app_l by len. apply lookup_replicate_2. len.
Qed.

(** Following the pen is scrolling. *)
Lemma window_follow p cells pos : length cells = 2000%nat -> pos = pen p - 80 * top p -> 0 <= pos <= 2000 ->
  (forall i, 0 <= i < 2000 -> cells !! Z.to_nat i = Some (ink p (80 * top p + i))) ->
  (forall i, 80 * (top p + 25) <= i -> ink p i = blank) ->
  if 2000 <=? pos then window (follow p) (scroll_one_line cells) 1920 else window (follow p) cells pos.
Proof.
  intros HL Hp Hr Hc Hb. destruct (Z.leb_spec 2000 pos).
  - assert (top (follow p) = top p + 1) as Ht by (cbn [follow top]; by rewrite leb_true by lia).
    split; rewrite ?Ht; cbn [follow ink pen].
    + unfold scroll_one_line. lens. rewrite HL. reflexivity.
    + lia.
    + lia.
    + intros i Hi. rewrite (scroll_lookup _ _ HL Hi). destruct (Z.ltb_spec i 1920).
      * rewrite Hc by lia. do 2 f_equal. lia.
      * rewrite Hb by lia. done.
    + intros i Hi. apply Hb. lia.
  - assert (top (follow p) = top p) as Ht by (cbn [follow top]; by rewrite leb_false by lia).
    split; rewrite ?Ht; cbn [follow ink pen]; auto with lia.
Qed.

Lemma write_plain_spec w p c : writes_as w p -> w_state w = 0 ->
  match paper_plain p c with
  | Some p' => exists w', write_plain w c = Ok w' /\ writes_as w' p'
  | None => write_plain w c = Fault OutOfBounds
  end.
Proof.
  intros (Hw & Ha & Hs) H0. pose proof Hw as [HL Hp Hr Hc Hb]. unfold paper_plain, write_plain.
  destruct (Z.eqb_spec c 10) as [->|H10]; cbn [mbind outcome_bind w_pos w_cells w_attr w_state].
  { assert (w_pos w mod 80 = pen p mod 80) as Em by (rewrite Hp; replace (pen p - 80 * top p) with (pen p + (- top p) * 80) by lia; apply Z_mod_plus_full).
    pose proof (Z.mod_pos_bound (pen p) 80 ltac:(lia)) as Hm. pose proof (Z.div_mod (pen p) 80 ltac:(lia)) as Hd.
    assert (w_pos w + (80 - w_pos w mod 80) <= 2000).
    { rewrite Em, Hp. assert (pen p / 80 < top p + 25) by (apply Z.div_lt_upper_bound; lia). lia. }
    unfold _width, _height in *. wraps.
    pose proof (window_follow (move_pen p (80 * (pen p / 80 + 1))) (w_cells w) (w_pos w + (80 - w_pos w mod 80)) HL
      ltac:(cbn [move_pen pen top]; lia) ltac:(lia) Hc Hb) as Hf.
    change (80 * 25) with 2000. destruct (2000 <=? _); eexists; split; try reflexivity; by split. }
  destruct (Z.eqb_spec c 27) as [->|H27]; cbn [mbind outcome_bind w_pos w_cells w_attr w_state].
  { change (_width * _height) with 2000. rewrite leb_false by lia. eexists. split; [reflexivity|].
    split; [|done]. by destruct Hw. }
  destruct (Z.eqb_spec c 8) as [->|H8].
  { destruct (Z.eqb_spec (pen p) (80 * top p)) as [Et|Et].
    - assert (w_pos w = 0) as -> by lia. by rewrite store_cell_Fault.
    - wraps. rewrite (store_cell_Ok _ _ _ HL) by lia. cbn [mbind outcome_bind w_pos w_cells w_attr w_state].
      change (_width * _height) with 2000. rewrite leb_false by lia. eexists. split; [reflexivity|].
      destruct (window_draw p _ _ (w_pos w - 1) (pen p - 1) 32 Hw ltac:(lia)) as (HL' & Hc' & Hb').
      replace (80 * top p + (w_pos w - 1)) with (pen p - 1) in Hc', Hb' by lia. rewrite Ha.
      split; [|done]. split; try done; cbn [draw pen top w_cells w_pos]; lia. }
  rewrite (store_cell_Ok _ _ _ HL) by lia. cbn [mbind outcome_bind w_pos w_cells w_attr w_state]. wraps.
  destruct (window_draw p _ _ (w_pos w) (pen p + 1) c Hw ltac:(lia)) as (HL' & Hc' & Hb').
  replace (80 * top p + w_pos w) with (pen p) in Hc', Hb' by lia. rewrite Ha.
  pose proof (window_follow (draw p (pen p) (pen p + 1) c) _ (w_pos w + 1) HL'
    ltac:(cbn [draw pen top]; lia) ltac:(lia) Hc' Hb') as Hf.
  change (_width * _height) with 2000. destruct (2000 <=? _); eexists; split; try reflexivity; by split.
Qed.

(** [state] is 0, 1 or 2. *)
Definition pending_escape (p : Paper) : Prop := escape p = 0 \/ escape p = 1 \/ escape p = 2.

Lemma paper_plain_escape p c p' : pending_escape p -> paper_plain p c = Some p' -> pending_escape p'.
Proof.
  unfold paper_plain, pending_escape. intros Hp E.
  repeat case_match; simplify_option_eq; cbn [follow draw move_pen with_escape escape] in *; auto.
Qed.

Lemma write_byte_spec w p b : writes_as w p -> pending_escape p ->
  match paper_byte p b with
  | Some p' => exists w', write_byte w b = Ok w' /\ writes_as w' p' /\ pending_escape p'
  | None => write_byte w b = Fault OutOfBounds
  end.
Proof.
  intros Hw Hp. pose proof Hw as (Hwin & Ha & Hs). unfold paper_byte, write_byte. rewrite Hs.
  assert (forall a w0 p0 c, w0 = {| w_cells := w_cells w; w_pos := w_pos w; w_attr := a; w_state := 0 |} ->
    p0 = with_escape p a 0 ->
    match paper_plain p0 c with
    | Some p' => exists w', write_plain w0 c = Ok w' /\ writes_as w' p' /\ pending_escape p'
    | None => write_plain w0 c = Fault OutOfBounds
    end) as Hplain.
  { intros a w0 p0 c -> ->. assert (pending_escape (with_escape p a 0)) as Hp0 by by left.
    match goal with |- context [write_plain ?w0 c] => pose proof (write_plain_spec w0 (with_escape p a 0) c) as Hpl end.
    destruct (paper_plain _ c) as [p'|] eqn:Ep; [destruct Hpl as (w' & E & Hw')|apply Hpl]; try done; try (split; [|done]; by destruct Hwin).
    exists w'. split; [done|]. split; [done|]. by eapply paper_plain_escape. }
  destruct Hp as [E|[E|E]]; rewrite E; cbn [Z.eqb Pos.eqb].
  - rewrite Hs, E. cbn [Z.eqb]. apply (Hplain (w_attr w)); [destruct w; cbn in *; congruence|rewrite Ha, <- E; by destruct p].
  - destruct (i8 b =? 91); cbn [w_state Z.eqb]; [|apply (Hplain (w_attr w)); congruence].
    eexists. split; [reflexivity|]. split; [|by right; right]. split; [|done]. by destruct Hwin.
  - cbn [w_state Z.eqb]. by apply (Hplain 0x0100).
Qed.

Lemma write_bytes_spec bs : forall w p, writes_as w p -> pending_escape p ->
  match paper_bytes p bs with
  | Some p' => exists w', write_bytes w bs = Ok w' /\ writes_as w' p'
  | None => write_bytes w bs = Fault OutOfBounds
  end.
Proof.
  induction bs as [|b bs IH]; intros w p Hw Hp; cbn [paper_bytes write_bytes]; [by exists w|].
  pose proof (write_byte_spec w p b Hw Hp) as Hb. destruct (paper_byte p b) as [p'|]; cbn [mbind option_bind].
  - destruct Hb as (w' & E & Hw' & Hp'). step_to E. by apply IH.
  - by rewrite Hb.
Qed.

(** ** Text that fits the line is drawn as it is *)
Definition printable (c : Z) : Prop := 32 <= c < 127.

Lemma paper_printable p c : printable c -> escape p = 0 ->
  paper_byte p c = Some (follow (draw p (pen p) (pen p + 1) c)).
Proof.
  intros Hc He. unfold printable in Hc. unfold paper_byte. rewrite He. cbn [Z.eqb].
  rewrite (swrap_small 8) by lia. unfold paper_plain. by rewrite !eqb_false by lia.
Qed.

Lemma paper_text bs : forall p, Forall printable bs -> escape p = 0 ->
  exists p', paper_bytes p bs = Some p' /\ escape p' = 0 /\ colour p' = colour p /\
    pen p' = pen p + Z.of_nat (length bs) /\
    (forall i, i < pen p -> ink p' i = ink p i) /\
    (forall i c, bs !! i = Some c -> ink p' (pen p + Z.of_nat i) = u16 (Z.lor (colour p) c)).
Proof.
  induction bs as [|b bs IH]; intros p Hbs He; cbn [paper_bytes].
  { exists p. split_and!; try done; cbn [length]; lia. }
  apply Forall_cons in Hbs as [Hb Hbs]. rewrite (paper_printable p b Hb He). cbn [mbind option_bind].
  destruct (IH (follow (draw p (pen p) (pen p + 1) b)) Hbs He) as (p' & E & He' & Hc & Hpen & Hlo & Hhi).
  cbn [follow draw pen colour ink] in *. exists p'. split; [done|]. split; [done|]. split; [done|].
  split; [cbn [length]; lia|]. split.
  - intros i Hi. rewrite Hlo by lia. by rewrite eqb_false by lia.
  - intros [|i] c Hi; cbn in Hi.
    + injection Hi as ->. rewrite Z.add_0_r, Hlo by lia. by rewrite Z.eqb_refl.
    + rewrite <- (Hhi i c Hi). f_equal. lia.
Qed.

(** ** The ring buffer of a terminal, and the threads that wait for it *)

(** ** The ring buffer is a queue of at most 63 characters *)

(** Characters [q] are in the buffer. *)
Record ring (t : Terminal) (q : list Z) : Prop := {
  rg_length : length (_read_buffer t) = 64%nat;
  rg_head : 0 <= _read_buffer_head t < 64;
  rg_room : (length q <= 63)%nat;
  rg_tail : _read_buffer_tail t = (_read_buffer_head t + Z.of_nat (length q)) mod 64;
  rg_cells i c : q !! i = Some c -> _read_buffer t !! Z.to_nat ((_read_buffer_head t + Z.of_nat i) mod 64) = Some c
}.

(** A character more; the 64th makes the buffer look empty. *)
Definition ring_push (q : list Z) (c : Z) : list Z := if (length q <? 63)%nat then q ++ [c] else [].

Lemma ring_new uninit : length (uninit 64%nat) = 64%nat -> ring (Terminal_new uninit) [].
Proof. intros HL. split; cbn; try done; lia. Qed.

Lemma ring_is_empty t q : ring t q -> is_empty t = bool_decide (q = []).
Proof.
  intros [_ Hh Hr Ht _]. unfold is_empty. rewrite Ht. destruct q as [|c q].
  - cbn. rewrite Z.add_0_r, Z.mod_small by done. by rewrite Z.eqb_refl.
  - rewrite bool_decide_eq_false_2 by done. apply eqb_false. intros E.
    assert ((_read_buffer_head t + Z.of_nat (length (c :: q))) mod 64 = _read_buffer_head t mod 64) as E2 by (rewrite (Z.mod_small (_read_buffer_head t)) by lia; done).
    cbn [length] in *. pose proof (Z.div_mod (_read_buffer_head t + Z.of_nat (S (length q))) 64 ltac:(lia)). lia.
Qed.

Lemma mod64_inj h i j : 0 <= i < 64 -> 0 <= j < 64 -> (h + i) mod 64 = (h + j) mod 64 -> i = j.
Proof.
  intros Hi Hj E. pose proof (Z.div_mod (h + i) 64 ltac:(lia)). pose proof (Z.div_mod (h + j) 64 ltac:(lia)). lia.
Qed.

Lemma put_char_spec t q c : ring t q -> exists t', put_char t c = Ok t' /\ ring t' (ring_push q c) /\
  _read_buffer_event t' = _read_buffer_event t /\ _attached_virt_console t' = _attached_virt_console t.
Proof.
  intros [HL Hh Hr Ht Hc]. pose proof (Z.mod_pos_bound (_read_buffer_head t + Z.of_nat (length q)) 64 ltac:(lia)) as Hb. rewrite <- Ht in Hb.
  unfold put_char. destruct (lookup_lt_is_Some_2 (_read_buffer t) (Z.to_nat (_read_buffer_tail t))) as [x Hx]; [lia|]. rewrite Hx.
  cbn [in_bounds mbind outcome_bind]. eexists. split; [reflexivity|]. split; [|done]. wraps.
  assert (forall n, n = (_read_buffer_tail t + 1) mod 64 -> n = (_read_buffer_head t + (Z.of_nat (length q) + 1)) mod 64) as Htail.
  { intros n ->. rewrite Ht, Zplus_mod_idemp_l. f_equal. lia. }
  unfold ring_push. destruct (Nat.ltb_spec (length q) 63); split; cbn [_read_buffer _read_buffer_head _read_buffer_tail]; try done; try lia.
  - by rewrite length_insert.
  - len.
  - rewrite (Htail _ eq_refl). f_equal. len.
  - intros i d Hi. apply lookup_app_Some in Hi as [Hi|[Hge Hi]].
    + pose proof (lookup_lt_Some _ _ _ Hi). rewrite list_lookup_insert_ne; [by apply Hc|]. rewrite Ht. intros E. apply Z2Nat.inj in E; [|lia|apply Z.mod_pos_bound; lia].
      apply mod64_inj in E; lia.
    + apply list_lookup_singleton_Some in Hi as [Hi <-]. replace (Z.of_nat i) with (Z.of_nat (length q)) by lia. rewrite <- Ht.
      apply list_lookup_insert_eq. lia.
  - by rewrite length_insert.
  - cbn. lia.
  - rewrite (Htail _ eq_refl). cbn. replace (Z.of_nat (length q) + 1) with 64 by lia. rewrite Z.add_0_r.
    replace (_read_buffer_head t + 64) with (_read_buffer_head t + 1 * 64) by lia. apply Z_mod_plus_full.
Qed.

Lemma take_char_spec t c q : ring t (c :: q) -> exists t', take_char t = Ok (c, t') /\ ring t' q /\
  _read_buffer_event t' = _read_buffer_event t /\ _attached_virt_console t' = _attached_virt_console t.
Proof.
  intros [HL Hh Hr Ht Hc]. cbn [length] in *. unfold take_char.
  pose proof (Hc 0%nat c eq_refl) as H0. rewrite Z.add_0_r, Z.mod_small in H0 by lia. rewrite H0. cbn [in_bounds mbind outcome_bind].
  eexists. split; [reflexivity|]. split; [|done]. wraps.
  pose proof (Z.mod_pos_bound (_read_buffer_head t + 1) 64 ltac:(lia)).
  split; cbn [_read_buffer _read_buffer_head _read_buffer_tail]; try done; try lia.
  - rewrite Ht, Zplus_mod_idemp_l. f_equal. lia.
  - intros i d Hi. rewrite <- (Hc (S i) d Hi). rewrite Zplus_mod_idemp_l. do 3 f_equal. lia.
Qed.

Lemma read_loop_spec n : forall t q, ring t q -> exists t', read_loop n t = Ok (take n q, t') /\ ring t' (drop n q) /\
  _read_buffer_event t' = _read_buffer_event t /\ _attached_virt_console t' = _attached_virt_console t.
Proof.
  induction n as [|n IH]; intros t q Hq; cbn [read_loop]; [by exists t|]. rewrite (ring_is_empty t q Hq).
  destruct q as [|c q]; [by exists t|]. rewrite bool_decide_eq_false_2 by done.
  destruct (take_char_spec t c q Hq) as (t1 & E & Hq1 & He1 & Ha1). step_to E.
  destruct (IH t1 q Hq1) as (t2 & E2 & Hq2 & He2 & Ha2). step_to E2. exists t2. split; [done|]. split; [done|]. by rewrite He2, Ha2.
Qed.

Lemma ring_with_event t q e : ring t q -> ring (with_event t e) q.
Proof. by intros []. Qed.

(** ** Waiting threads *)
Section waiting.
Context {Q : Type} `{SchedulingAlgorithmLaws Q queued}.
Implicit Types (s : Scheduler Q).

Notation sched_inv := (sched_inv (queued := queued)).

(** Nobody waits for the end of a thread. *)
Record sched_ok s : Prop := {
  sk_inv : exists xs, sched_inv s xs;
  sk_quiet a w : ~ waits s a w;
  sk_running : never_running s
}.

(** The threads [ws] wait for a key of the terminal. *)
Definition listeners s (t : Terminal) (ws : list Z) : Prop :=
  InfList.holds (_read_buffer_event t) ws /\ forall w, w ∈ ws -> thread_of s w.

Lemma append_to_read_buffer_spec s t q ws c : sched_ok s -> ring t q -> listeners s t ws ->
  exists s' t', append_to_read_buffer s t c = Ok (s', t') /\ sched_ok s' /\ ring t' (ring_push q c) /\ listeners s' t' [] /\
    _attached_virt_console t' = _attached_virt_console t /\ (forall w, thread_of s w -> thread_of s' w) /\
    (forall w, w ∈ ws \/ awake s w -> awake s' w).
Proof.
  intros [[xs HI] Hq HN] Hr [He Hws]. unfold append_to_read_buffer.
  destruct (put_char_spec t q c Hr) as (t1 & E & Hr1 & Ee & Ea). step_to E. unfold event_trigger. rewrite Ee.
  rewrite (bind_Ok _ _ _ (InfList.elements_spec _ _ He)).
  destruct (wake_all_spec (fun _ => True) ws s xs HI) as (s' & xs' & E2 & HI' & HN' & Hc & Haw).
  - by intros a w _ _.
  - done.
  - intros w Hw. split; [done|]. by apply Hws.
  - rewrite (bind_Ok _ _ _ E2). destruct (InfList.clear_spec _ _ He) as (e & E3 & He' & _). rewrite (bind_Ok _ _ _ E3). cbn [mbind outcome_bind].
    exists s', (with_event t1 e). split; [done|]. split.
    { split; [by exists xs'| |done]. intros a w Hw. eapply Hq. by eapply ch_waits. }
    split; [by apply ring_with_event|]. split; [split; [done|]; by intros w ?%elem_of_nil|]. split; [done|].
    split; [|done]. intros w Hw. by eapply changed_thread_of.
Qed.

Lemma wait_for_input_spec s t q ws thread : sched_ok s -> ring t q -> listeners s t ws -> thread_of s thread ->
  exists y s' t', wait_for_input s t thread = Ok (y, s', t') /\ sched_ok s' /\ ring t' q /\ listeners s' t' (ws ++ [thread]) /\
    _attached_virt_console t' = _attached_virt_console t /\ (forall w, thread_of s w -> thread_of s' w) /\
    state_of s' thread = Some SLEEPING.
Proof.
  intros [[xs HI] Hq HN] Hr [He Hws] Ht. unfold wait_for_input.
  destruct (InfList.append_spec _ _ thread He) as (e & E & He'). step_to E.
  destruct (change_spec (fun _ => False) s xs thread SLEEPING HI) as (s' & xs' & E2 & HI' & Hst & Hc & _); try done.
  - by intros a w.
  - right. tauto.
  - intros w Hw. by apply (Hq thread w).
  - assert (forall w, thread_of s w -> thread_of s' w) as Hth by (intros w Hw; by eapply changed_thread_of).
    unfold sleep. rewrite E2. cbn [mbind outcome_bind]. eexists _, s', (with_event t e). split; [reflexivity|]. split.
    { split; [by exists xs'| |].
      - intros a w Hw. eapply Hq. by eapply ch_waits.
      - eapply changed_never_running; [done..|]. intros u ->%list_elem_of_singleton. by rewrite Hst. }
    split; [by apply ring_with_event|]. split; [|done]. split; [done|].
    intros w [Hw| ->%list_elem_of_singleton]%elem_of_app; [by apply Hth, Hws|by apply Hth].
Qed.
End waiting.

Section screens.
Context {Q : Type} `{SchedulingAlgorithm Q}.
Implicit Types (k : Consoles Q) (own : Z -> Z).

Notation vram k := (_video_ram_address (console k)).

(** Where the cells of console [v] are. *)
Definition place k own (v : Z) : Z :=
  if decide (_current_vc (console k) = Some v) then vram k else own v.

Record screens_ok k own : Prop := {
  so_inj v w : is_Some (vcs k !! v) -> is_Some (vcs k !! w) -> own v = own w -> v = w;
  so_vram v : is_Some (vcs k !! v) -> own v <> vram k;
  so_own v : is_Some (vcs k !! v) -> exists cells, screens k !! own v = Some cells /\ length cells = 2000%nat;
  so_card : exists cells, screens k !! vram k = Some cells /\ length cells = 2000%nat;
  so_vc v x : vcs k !! v = Some x -> _buffer x = Some (place k own v) /\ _ucb x = bool_decide (_current_vc (console k) = Some v);
  so_old : _old_vc (console k) = _current_vc (console k);
  so_backup v : _current_vc (console k) = Some v -> is_Some (vcs k !! v) /\ _backup_buffer (console k) = Some (own v)
}.

(** Console [v] shows the window of the paper [p]. *)
Definition shows k own (v : Z) (p : Paper) : Prop :=
  exists x cells, vcs k !! v = Some x /\ screens k !! place k own v = Some cells /\ window p cells (_current_pos x).

(** The cursor of the card is where the current console writes next. *)
Definition cursor_ok k : Prop := forall v x, _current_vc (console k) = Some v -> vcs k !! v = Some x ->
  crtc k !! 0xf = Some (u8 (_current_pos x)) /\ crtc k !! 0xe = Some (u8 (Z.shiftr (_current_pos x) 8)).

Lemma place_inj k own v w : screens_ok k own -> is_Some (vcs k !! v) -> is_Some (vcs k !! w) ->
  place k own v = place k own w -> v = w.
Proof.
  intros HS Hv Hw. unfold place. destruct (decide _) as [E1|]; destruct (decide _) as [E2|]; intros E.
  - congruence.
  - by destruct (so_vram _ _ HS w Hw).
  - by destruct (so_vram _ _ HS v Hv).
  - by apply (so_inj _ _ HS).
Qed.

(** The paper on which a call of [write] begins. *)
Definition start_write (p : Paper) : Paper := with_escape p 0x0700 0.

Lemma window_colours p cells pos a e : window p cells pos -> window (with_escape p a e) cells pos.
Proof. by intros []. Qed.

Definition wrote k v x b cells pos : Consoles Q :=
  set_vc (set_screen k b cells) v
    {| _current_mod_mask := _current_mod_mask x; _current_pos := pos; _terminal := _terminal x; _buffer := _buffer x; _ucb := _ucb x |}.

Lemma screens_ok_wrote k own v x cells pos : screens_ok k own -> vcs k !! v = Some x -> length cells = 2000%nat ->
  screens_ok (wrote k v x (place k own v) cells pos) own.
Proof.
  intros HS Hv HL. pose proof HS as [Hi Hvr Ho Hc Hvc Hold Hb].
  assert (forall w, is_Some (vcs (wrote k v x (place k own v) cells pos) !! w) -> is_Some (vcs k !! w)) as Hdom.
  { intros w. cbn. rewrite lookup_insert_is_Some. intros [<-|[_ ?]]; [by eexists|done]. }
  assert (forall b, (exists cs, screens k !! b = Some cs /\ length cs = 2000%nat) ->
    exists cs, screens (wrote k v x (place k own v) cells pos) !! b = Some cs /\ length cs = 2000%nat) as Hscr.
  { intros b (cs & Hcs & Hl). cbn. destruct (decide (place k own v = b)) as [->|Hne].
    - exists cells. by rewrite lookup_insert_eq.
    - exists cs. by rewrite lookup_insert_ne. }
  split; auto.
  - intros w y Hw. cbn in Hw. destruct (decide (v = w)) as [->|Hne].
    + rewrite lookup_insert_eq in Hw. injection Hw as <-. cbn. by apply Hvc.
    + rewrite lookup_insert_ne in Hw by done. by apply Hvc.
  - intros w Hw. destruct (Hb w Hw) as [Hw' Eb]. split; [|done]. cbn. apply lookup_insert_is_Some. destruct (decide (v = w)); auto.
Qed.

Lemma shows_other k own v x cells pos u p : screens_ok k own -> vcs k !! v = Some x -> u <> v ->
  shows k own u p -> shows (wrote k v x (place k own v) cells pos) own u p.
Proof.
  intros HS Hv Hne (y & cs & Hy & Hcs & Hw). exists y, cs. cbn. split; [by rewrite lookup_insert_ne|]. split; [|done].
  change (place (wrote k v x (place k own v) cells pos) own u) with (place k own u).
  rewrite lookup_insert_ne; [done|]. intros E. apply Hne. symmetry. eapply place_inj; [done|by eexists..|done].
Qed.

(** What output and switching leave alone. *)
Definition inner (x : VirtualConsole) : Z * option Z := (_current_mod_mask x, _terminal x).

Record keeps_input k k' : Prop := {
  ki_inner v : inner <$> vcs k' !! v = inner <$> vcs k !! v;
  ki_ttys : ttys k' = ttys k;
  ki_sched : cs_scheduler k' = cs_scheduler k;
  ki_alt : _alt_pressed (console k') = _alt_pressed (console k);
  ki_vcs : _vcs (console k') = _vcs (console k)
}.

Lemma keeps_trans k1 k2 k3 : keeps_input k1 k2 -> keeps_input k2 k3 -> keeps_input k1 k3.
Proof. intros [] []. split; congruence. Qed.

Lemma inner_insert (m : gmap Z VirtualConsole) v x x' w : m !! v = Some x -> inner x' = inner x ->
  inner <$> <[v := x']> m !! w = inner <$> m !! w.
Proof.
  intros Hx Ei. destruct (decide (v = w)) as [<-|Hne]; [|by rewrite lookup_insert_ne]. rewrite lookup_insert_eq, Hx. cbn. by rewrite Ei.
Qed.

(** Writing to a console is writing on its paper, and on no other. *)
Lemma console_write_spec k own v p bs : screens_ok k own -> cursor_ok k -> shows k own v p ->
  match paper_bytes (start_write p) bs with
  | Some p' => exists k', VirtualConsole_write k v bs = Ok (i32 (Z.of_nat (length bs)), k') /\ screens_ok k' own /\ cursor_ok k' /\
      console k' = console k /\ keeps_input k k' /\ shows k' own v p' /\ (forall u q, u <> v -> shows k own u q -> shows k' own u q)
  | None => VirtualConsole_write k v bs = Fault OutOfBounds
  end.
Proof.
  intros HS HC (x & cells & Hx & Hcs & Hw). unfold VirtualConsole_write, vc_at. rewrite Hx. cbn [in_bounds mbind outcome_bind].
  destruct (so_vc _ _ HS v x Hx) as [-> Eu]. rewrite Hcs. cbn [in_bounds mbind outcome_bind].
  pose proof (write_bytes_spec bs {| w_cells := cells; w_pos := _current_pos x; w_attr := 0x0700; w_state := 0 |} (start_write p)
    ltac:(split; [by apply window_colours|done]) ltac:(by left)) as Hb.
  destruct (paper_bytes (start_write p) bs) as [p'|]; [|by rewrite Hb]. destruct Hb as (w & E & (Hw' & _ & _)). step_to E.
  pose proof (screens_ok_wrote k own v x (w_cells w) (w_pos w) HS Hx (wd_length _ _ _ Hw')) as HS'.
  rewrite <- (proj1 (so_vc _ _ HS v x Hx)). fold (wrote k v x (place k own v) (w_cells w) (w_pos w)).
  assert (shows (wrote k v x (place k own v) (w_cells w) (w_pos w)) own v p') as Hsv.
  { eexists _, (w_cells w). cbn. split; [by rewrite lookup_insert_eq|].
    change (place (wrote k v x (place k own v) (w_cells w) (w_pos w)) own v) with (place k own v).
    split; [by rewrite lookup_insert_eq|done]. }
  assert (forall u, inner <$> <[v := {| _current_mod_mask := _current_mod_mask x; _current_pos := w_pos w; _terminal := _terminal x; _buffer := _buffer x; _ucb := _ucb x |}]> (vcs k) !! u = inner <$> vcs k !! u) as Hin.
  { intros u. by apply inner_insert with x. }
  rewrite Eu. case_bool_decide as Ec.
  - unfold VCUpdateCallback, vc_at. cbn [wrote set_vc vcs]. rewrite lookup_insert_eq. cbn [in_bounds mbind outcome_bind].
    eexists. split; [reflexivity|]. split; [by destruct HS'|]. split.
    { intros u y Hu Hy. cbn in Hu, Hy |- *. assert (u = v) as -> by congruence. rewrite lookup_insert_eq in Hy. injection Hy as <-. cbn.
      rewrite lookup_insert_ne by done. by rewrite !lookup_insert_eq. }
    split; [done|]. split; [by split|]. split; [exact Hsv|]. intros u q Hne Hu. by apply (shows_other k own v x (w_cells w) (w_pos w) u q).
  - eexists. split; [reflexivity|]. split; [done|]. split.
    { intros u y Hu Hy. cbn in Hu, Hy |- *. rewrite lookup_insert_ne in Hy by congruence. by eapply HC. }
    split; [done|]. split; [by split|]. split; [exact Hsv|]. intros u q Hne Hu. by apply shows_other.
Qed.

(** Between the two halves of a switch every console has its own buffer. *)
Record stashed k own : Prop := {
  st_inj v w : is_Some (vcs k !! v) -> is_Some (vcs k !! w) -> own v = own w -> v = w;
  st_vram v : is_Some (vcs k !! v) -> own v <> vram k;
  st_own v : is_Some (vcs k !! v) -> exists cells, screens k !! own v = Some cells /\ length cells = 2000%nat;
  st_card : exists cells, screens k !! vram k = Some cells /\ length cells = 2000%nat;
  st_vc v x : vcs k !! v = Some x -> _buffer x = Some (own v) /\ _ucb x = false
}.

Definition keeps k own (v : Z) (p : Paper) : Prop :=
  exists x cells, vcs k !! v = Some x /\ screens k !! own v = Some cells /\ window p cells (_current_pos x).

Lemma copy_screen_Ok k d s to from : screens k !! d = Some to -> screens k !! s = Some from ->
  length to = 2000%nat -> length from = 2000%nat -> copy_screen k (Some d) (Some s) = Ok (set_screen k d from).
Proof.
  intros Hd Hs HLd HLs. unfold copy_screen. cbn [deref mbind outcome_bind]. rewrite Hd, Hs. cbn [in_bounds mbind outcome_bind].
  rewrite HLd, HLs. cbn [Nat.ltb Nat.leb orb]. rewrite take_ge, drop_ge by lia. by rewrite app_nil_r.
Qed.

Definition rebuffered x (b : option Z) (ucb : bool) : VirtualConsole :=
  {| _current_mod_mask := _current_mod_mask x; _current_pos := _current_pos x; _terminal := _terminal x; _buffer := b; _ucb := ucb |}.

Lemma save_old_spec k own w : screens_ok k own ->
  exists k1, save_old (set_console k (with_current (console k) w)) = Ok k1 /\ stashed k1 own /\
    console k1 = with_current (console k) w /\ keeps_input k k1 /\
    forall v p, shows k own v p -> keeps k1 own v p.
Proof.
  intros HS. pose proof HS as [Hi Hvr Ho Hc Hvc Hold Hb].
  unfold save_old. cbn [set_console console with_current _old_vc _backup_buffer _video_ram_address]. rewrite Hold.
  destruct (_current_vc (console k)) as [c|] eqn:Ecur.
  - destruct (Hb c eq_refl) as ([x Hx] & ->). unfold set_buffer, get_buffer, vc_at. cbn [set_console vcs]. rewrite Hx.
    cbn [in_bounds mbind outcome_bind set_vc vcs]. rewrite lookup_insert_eq. cbn [in_bounds mbind outcome_bind _buffer set_console set_vc console with_current _video_ram_address].
    fold (rebuffered x (Some (own c)) false).
    destruct (Ho c (ltac:(by eexists))) as (to & Hto & HLto). destruct Hc as (from & Hfrom & HLfrom).
    rewrite (copy_screen_Ok _ (own c) (vram k) to from) by done. eexists. split; [reflexivity|].
    assert (forall u, is_Some (<[c:=rebuffered x (Some (own c)) false]> (vcs k) !! u) -> is_Some (vcs k !! u)) as Hdom.
    { intros u. rewrite lookup_insert_is_Some. intros [<-|[_ ?]]; [by eexists|done]. }
    assert (own c <> vram k) as Hne by (apply Hvr; by eexists).
    split; [|split; [done|split; [split; try done; intros u; by apply inner_insert with x|]]].
    + split; cbn; auto.
      * intros u Hu. destruct (decide (own c = own u)) as [->|Hn]; [exists from; by rewrite lookup_insert_eq|].
        rewrite lookup_insert_ne by done. auto.
      * exists from. by rewrite lookup_insert_ne.
      * intros u y Hu. destruct (decide (c = u)) as [<-|Hn].
        -- rewrite lookup_insert_eq in Hu. by injection Hu as <-.
        -- rewrite lookup_insert_ne in Hu by done. destruct (Hvc u y Hu) as [Eb Eu]. unfold place in Eb. rewrite Ecur in Eb.
           rewrite decide_False in Eb by congruence. rewrite bool_decide_eq_false_2 in Eu by congruence. done.
    + intros u p (y & cells & Hy & Hcs & Hw). unfold place in Hcs. rewrite Ecur in Hcs. unfold keeps. cbn.
      destruct (decide (c = u)) as [<-|Hn].
      * rewrite decide_True in Hcs by done. rewrite !lookup_insert_eq. exists (rebuffered x (Some (own c)) false), from.
        split; [done|]. split; [done|]. assert (y = x) as -> by congruence. assert (cells = from) as -> by congruence. exact Hw.
      * rewrite decide_False in Hcs by congruence. exists y, cells. rewrite !lookup_insert_ne; [done| |done].
        intros E. apply Hn. apply Hi; [by eexists..|done].
  - eexists. split; [reflexivity|]. split; [|split; [done|split; [done|]]].
    + split; cbn; auto. intros u y Hu. destruct (Hvc u y Hu) as [Eb Eu]. unfold place in Eb. by rewrite Ecur in Eb.
    + intros u p (y & cells & Hy & Hcs & Hw). unfold place in Hcs. rewrite Ecur in Hcs. by exists y, cells.
Qed.

Lemma switch_spec k own w : screens_ok k own -> is_Some (vcs k !! w) ->
  exists k', set_current_vc k w = Ok k' /\ screens_ok k' own /\ cursor_ok k' /\ keeps_input k k' /\
    _current_vc (console k') = Some w /\ vram k' = vram k /\
    forall v p, shows k own v p -> shows k' own v p.
Proof.
  intros HS Hw. destruct (save_old_spec k own w HS) as (k1 & E1 & [Hi Hvr Ho Hc Hvc] & Econ & Hin & Hk).
  unfold set_current_vc, virtual_console_changed. step_to E1. rewrite Econ. cbn [with_current _current_vc deref mbind outcome_bind].
  assert (is_Some (vcs k1 !! w)) as [x Hx] by (rewrite <- (fmap_is_Some inner), (ki_inner _ _ Hin w); by rewrite fmap_is_Some).
  destruct (Hvc w x Hx) as [Hbuf Hucb].
  assert (get_buffer k1 w = Ok (Some (own w))) as Eg by (unfold get_buffer, vc_at; rewrite Hx; cbn; by rewrite Hbuf). step_to Eg.
  unfold set_buffer, vc_at. cbn [set_console vcs]. rewrite Hx. cbn [in_bounds mbind outcome_bind].
  cbn [set_vc console set_console with_backup _backup_buffer]. unfold get_buffer, vc_at. cbn [set_vc vcs]. rewrite lookup_insert_eq.
  cbn [in_bounds mbind outcome_bind _buffer _video_ram_address with_current].
  destruct Hc as (to & Hto & HLto). destruct (Ho w ltac:(by eexists)) as (from & Hfrom & HLfrom).
  rewrite Econ in Hto. cbn [with_current _video_ram_address] in Hto.
  rewrite (copy_screen_Ok _ (vram k) (own w) to from) by done. cbn [mbind outcome_bind].
  unfold VCUpdateCallback, vc_at. cbn [set_vc set_screen set_console vcs]. rewrite lookup_insert_eq. cbn [in_bounds mbind outcome_bind].
  fold (rebuffered x (Some (vram k)) true).
  assert (own w <> vram k) as Hne by (replace (vram k) with (vram k1) by (by rewrite Econ); apply Hvr; by eexists).
  assert (forall u, is_Some (<[w:=rebuffered x (Some (vram k)) true]> (vcs k1) !! u) -> is_Some (vcs k1 !! u)) as Hdom2.
  { intros u. rewrite lookup_insert_is_Some. intros [<-|[_ ?]]; [by eexists|done]. }
  rewrite Econ in Hvr. cbn [with_current _video_ram_address] in Hvr.
  eexists. split; [reflexivity|]. split; [|split; [|split; [|split; [|split]]]]; cbn.
  - split; cbn; auto.
    + intros u Hu. rewrite lookup_insert_ne; [by auto|]. by apply not_eq_sym, Hvr, Hdom2.
    + exists from. by rewrite lookup_insert_eq.
    + intros u y Hu. unfold place. cbn. destruct (decide (w = u)) as [<-|Hn].
      * rewrite lookup_insert_eq in Hu. injection Hu as <-. rewrite decide_True by done. by rewrite bool_decide_eq_true_2.
      * rewrite lookup_insert_ne in Hu by done. rewrite decide_False by congruence. rewrite bool_decide_eq_false_2 by congruence. by apply Hvc.
    + intros u [= <-]. split; [|done]. rewrite lookup_insert_eq. by eexists.
  - intros u y [= <-] Hy. cbn in *. rewrite lookup_insert_eq in Hy. injection Hy as <-. cbn. rewrite lookup_insert_ne by done. by rewrite !lookup_insert_eq.
  - apply (keeps_trans _ _ _ Hin). split; cbn; try done; [intros u; by apply inner_insert with x|by rewrite Econ..].
  - done.
  - done.
  - intros u p Hu. destruct (Hk u p Hu) as (y & cells & Hy & Hcs & Hwin). unfold shows, place. cbn.
    destruct (decide (w = u)) as [<-|Hn].
    + rewrite decide_True by done. rewrite !lookup_insert_eq. exists (rebuffered x (Some (vram k)) true), from.
      split; [done|]. split; [done|]. assert (y = x) as -> by congruence. assert (cells = from) as -> by congruence. exact Hwin.
    + rewrite decide_False by congruence. exists y, cells. rewrite lookup_insert_ne by done. split; [done|].
      rewrite lookup_insert_ne; [done|]. apply not_eq_sym, Hvr. by eexists.
Qed.
End screens.

(** ** What is shown depends on the cells, the positions and the buffers *)
Definition look (x : VirtualConsole) : Z * option Z * bool := (_current_pos x, _buffer x, _ucb x).

Section same.
Context {Q : Type} `{SchedulingAlgorithm Q}.
Implicit Types (k : Consoles Q) (own : Z -> Z).

Record same_screens k k' : Prop := {
  ss_look v : look <$> vcs k' !! v = look <$> vcs k !! v;
  ss_screens : screens k' = screens k;
  ss_crtc : crtc k' = crtc k;
  ss_current : _current_vc (console k') = _current_vc (console k);
  ss_vram : _video_ram_address (console k') = _video_ram_address (console k);
  ss_backup : _backup_buffer (console k') = _backup_buffer (console k);
  ss_old : _old_vc (console k') = _old_vc (console k)
}.

Lemma same_look k k' v x' : same_screens k k' -> vcs k' !! v = Some x' -> exists x, vcs k !! v = Some x /\ look x = look x'.
Proof.
  intros Hs Hx. pose proof (ss_look _ _ Hs v) as E. rewrite Hx in E. cbn in E. symmetry in E. by apply fmap_Some in E as (x & ? & ?); eauto.
Qed.

Lemma same_trans k1 k2 k3 : same_screens k1 k2 -> same_screens k2 k3 -> same_screens k1 k3.
Proof. intros [] []. split; congruence. Qed.

Lemma same_dom k k' v : same_screens k k' -> is_Some (vcs k' !! v) <-> is_Some (vcs k !! v).
Proof. intros Hs. rewrite <- (fmap_is_Some look), (ss_look _ _ Hs v), fmap_is_Some. done. Qed.

Lemma same_place k k' own v : same_screens k k' -> place k' own v = place k own v.
Proof. intros Hs. unfold place. by rewrite (ss_current _ _ Hs), (ss_vram _ _ Hs). Qed.

Lemma same_screens_ok k k' own : same_screens k k' -> screens_ok k own -> screens_ok k' own.
Proof.
  intros Hs [Hi Hvr Ho Hc Hvc Hold Hb]. split.
  - intros v w. rewrite !(same_dom k k') by done. apply Hi.
  - intros v. rewrite (same_dom k k'), (ss_vram _ _ Hs) by done. apply Hvr.
  - intros v. rewrite (same_dom k k'), (ss_screens _ _ Hs) by done. apply Ho.
  - by rewrite (ss_screens _ _ Hs), (ss_vram _ _ Hs).
  - intros v x' Hx'. destruct (same_look _ _ _ _ Hs Hx') as (x & Hx & El). unfold look in El. injection El as _ <- <-.
    rewrite (same_place k k') by done. rewrite (ss_current _ _ Hs). by apply Hvc.
  - by rewrite (ss_old _ _ Hs), (ss_current _ _ Hs).
  - intros v. rewrite (ss_current _ _ Hs), (same_dom k k'), (ss_backup _ _ Hs) by done. apply Hb.
Qed.

Lemma same_shows k k' own v p : same_screens k k' -> shows k own v p -> shows k' own v p.
Proof.
  intros Hs (x & cells & Hx & Hc & Hw). pose proof (ss_look _ _ Hs v) as E. rewrite Hx in E. cbn in E.
  apply fmap_Some in E as (x' & Hx' & El). exists x', cells. split; [done|]. rewrite (same_place k k'), (ss_screens _ _ Hs) by done.
  split; [done|]. unfold look in El. injection El as E _ _. by rewrite <- E.
Qed.

Lemma same_cursor k k' : same_screens k k' -> cursor_ok k -> cursor_ok k'.
Proof.
  intros Hs HC v x'. rewrite (ss_current _ _ Hs), (ss_crtc _ _ Hs). intros Hv Hx'.
  destruct (same_look _ _ _ _ Hs Hx') as (x & Hx & El). unfold look in El. injection El as <- _ _. by apply HC with v.
Qed.
End same.
