(* ===== verification/DeskTheorems.v ===== *)
(** * What the console devices guarantee *)
From S2P Require Import Prelude Time InfList CommonsList CommonsListProof Sched SchedProof SchedTheorems Process ProcessProof ProcessTheorems Keyboard Console ConsoleProof.

(** ** Two consoles at one desk: what a user sees and types

    The specification of the console devices together.  Each console has a
    sheet of paper and a queue of characters typed; one console is in front;
    Alt with F1 or F2 changes it.  The devices, connected as
    [activate_console] does, implement it. *)

Record Desk := { sheet : Z -> Paper; front : Z; alt : bool; shifted : Z -> Z; input : Z -> list Z }.

Definition upd {A} (f : Z -> A) (x : Z) (v : A) : Z -> A := fun y => if y =? x then v else f y.

Lemma upd_eq {A} (f : Z -> A) x v : upd f x v x = v.
Proof. unfold upd. by rewrite Z.eqb_refl. Qed.

Lemma upd_ne {A} (f : Z -> A) x v y : y <> x -> upd f x v y = f y.
Proof. intros. unfold upd. by rewrite eqb_false. Qed.

Definition set_sheet d v p : Desk := {| sheet := upd (sheet d) v p; front := front d; alt := alt d; shifted := shifted d; input := input d |}.
Definition set_front d v : Desk := {| sheet := sheet d; front := v; alt := alt d; shifted := shifted d; input := input d |}.
Definition set_alt d b : Desk := {| sheet := sheet d; front := front d; alt := b; shifted := shifted d; input := input d |}.
Definition set_shift d v m : Desk := {| sheet := sheet d; front := front d; alt := alt d; shifted := upd (shifted d) v m; input := input d |}.
Definition set_input d a q : Desk := {| sheet := sheet d; front := front d; alt := alt d; shifted := shifted d; input := upd (input d) a q |}.

(** Output to a terminal, a byte from the keyboard, reading up to [n]
    characters, a thread beginning to wait. *)
Inductive op := Out (tty : Z) (bs : list Z) | Key (byte : Z) | Read (tty : Z) (n : nat) | Wait (tty thread : Z).

Definition is_alt (key : Keys) : bool := bool_decide (key = KEY_LALT \/ key = KEY_RALT).
Definition is_shift (key : Keys) : bool := bool_decide (key = KEY_LSHIFT \/ key = KEY_RSHIFT).

Section desk.
Context (vc0 vc1 tty0 tty1 : Z).

Definition vc_of (a : Z) : Z := if a =? tty0 then vc0 else vc1.
Definition tty_of (v : Z) : Z := if v =? vc0 then tty0 else tty1.

Definition desk_up (d : Desk) (key : Keys) : Desk :=
  let d := if is_alt key then set_alt d false else d in
  if is_shift key then set_shift d (front d) (Z.land (shifted d (front d)) (Z.lxor Shift 0xffffffff)) else d.

Definition desk_char (d : Desk) (key : Keys) : Desk :=
  if is_shift key then set_shift d (front d) (Z.lor (shifted d (front d)) Shift)
  else match key_char (shifted d (front d)) key with
       | None => d
       | Some c => set_input d (tty_of (front d)) (ring_push (input d (tty_of (front d))) c)
       end.

Definition desk_down (d : Desk) (key : Keys) : Desk :=
  if alt d && bool_decide (key = KEY_F1) then set_front d vc0
  else if alt d && bool_decide (key = KEY_F2) then set_front d vc1
  else desk_char (if is_alt key then set_alt d true else d) key.

Definition desk_op (d : Desk) (o : op) : option (list Z * Desk) :=
  match o with
  | Out a bs => p ← paper_bytes (start_write (sheet d (vc_of a))) bs; Some ([], set_sheet d (vc_of a) p)
  | Key b => key ← key_of b; Some ([], if b <? 128 then desk_down d key else desk_up d key)
  | Read a n => Some (take n (input d a), set_input d a (drop n (input d a)))
  | Wait _ _ => Some ([], d)
  end.

Fixpoint desk_ops (d : Desk) (os : list op) : option (list Z * Desk) :=
  match os with
  | [] => Some ([], d)
  | o :: os => '(cs, d) ← desk_op d o; '(cs', d) ← desk_ops d os; Some (cs ++ cs', d)
  end.

(** The same on the devices. *)
Section devices.
Context {Q : Type} `{SchedulingAlgorithm Q}.

Definition run_op (k : Consoles Q) (o : op) : outcome (list Z * Consoles Q) :=
  match o with
  | Out a bs => '(_, k) ← Terminal_write k a bs; Ok ([], k)
  | Key b => k ← key_interrupt k b; Ok ([], k)
  | Read a n => t ← tty_at k a; '(cs, t) ← read_loop n t; Ok (cs, set_tty k a t (cs_scheduler k))
  | Wait a w => t ← tty_at k a; '(_, s, t) ← wait_for_input (cs_scheduler k) t w; Ok ([], set_tty k a t s)
  end.

Fixpoint run_ops (k : Consoles Q) (os : list op) : outcome (list Z * Consoles Q) :=
  match os with
  | [] => Ok ([], k)
  | o :: os => '(cs, k) ← run_op k o; '(cs', k) ← run_ops k os; Ok (cs ++ cs', k)
  end.
End devices.
End desk.

(** ** The console devices implement the desk *)


Section desk.
Context {Q : Type} `{SchedulingAlgorithmLaws Q queued}.
Context (vc0 vc1 tty0 tty1 : Z) (own : Z -> Z) (threads : Z -> Prop).
Implicit Types (k : Consoles Q) (d : Desk).

Notation vc_of := (vc_of vc0 vc1 tty0).
Notation tty_of := (tty_of vc0 tty0 tty1).

Definition is_vc (v : Z) : Prop := v = vc0 \/ v = vc1.
Definition is_tty (a : Z) : Prop := a = tty0 \/ a = tty1.

(** A terminal with the characters [q] typed, attached to its console. *)
Definition tty_holds k (a : Z) (q : list Z) : Prop :=
  exists t ws, ttys k !! a = Some t /\ ring t q /\ listeners (cs_scheduler k) t ws /\ _attached_virt_console t = Some (vc_of a).

Record at_desk k d : Prop := {
  ad_screens : screens_ok k own;
  ad_cursor : cursor_ok k;
  ad_front : _current_vc (console k) = Some (front d) /\ is_vc (front d);
  ad_alt : _alt_pressed (console k) = alt d;
  ad_vcs : InfList.holds (_vcs (console k)) [vc0; vc1];
  ad_vc v : is_vc v -> exists x, vcs k !! v = Some x /\ _current_mod_mask x = shifted d v /\ _terminal x = Some (tty_of v);
  ad_sheet v : is_vc v -> shows k own v (sheet d v);
  ad_tty a : is_tty a -> tty_holds k a (input d a);
  ad_sched : sched_ok (queued := queued) (cs_scheduler k);
  ad_threads t : threads t -> thread_of (cs_scheduler k) t
}.

Lemma tty_of_is v : is_tty (tty_of v).
Proof. unfold tty_of, is_tty. destruct (v =? vc0); auto. Qed.

Lemma vc_of_is a : is_vc (vc_of a).
Proof. unfold vc_of, is_vc. destruct (a =? tty0); auto. Qed.

(** A change of one console that leaves its look alone. *)
Lemma same_set_vc k v x x' : vcs k !! v = Some x -> look x' = look x -> same_screens k (set_vc k v x').
Proof.
  intros Hx El. split; try done. intros w. cbn. destruct (decide (v = w)) as [<-|Hne].
  - rewrite lookup_insert_eq, Hx. cbn. by rewrite El.
  - by rewrite lookup_insert_ne.
Qed.

Lemma same_set_tty k a t s : same_screens k (set_tty k a t s).
Proof. done. Qed.

Lemma same_set_alt k b : same_screens k (set_console k (with_alt (console k) b)).
Proof. done. Qed.

Ltac same Hs := split; [eapply same_screens_ok; [exact Hs|]|eapply same_cursor; [exact Hs|]| | | | |
  intros v Hv; eapply same_shows; [exact Hs|]| | |]; try done.

Lemma alt_desk k d b : at_desk k d -> at_desk (set_console k (with_alt (console k) b)) (set_alt d b).
Proof. intros [Hscr Hcur Hfr Halt Hl Hvc Hsh Htty Hsched Hth]. same (same_set_alt k b). by apply Hsh. Qed.

Lemma shift_desk k d x m : at_desk k d -> vcs k !! front d = Some x ->
  at_desk (set_vc k (front d) (with_mod_mask x m)) (set_shift d (front d) m).
Proof.
  intros [Hscr Hcur Hfr Halt Hl Hvc Hsh Htty Hsched Hth] Hx. same (same_set_vc k (front d) x (with_mod_mask x m) Hx eq_refl).
  - intros v Hv. destruct (Hvc v Hv) as (y & Hy & Hm & Ht). cbn [set_vc vcs set_shift shifted].
    destruct (decide (front d = v)) as [<-|Hne].
    + rewrite lookup_insert_eq, upd_eq. eexists. split; [done|]. split; [done|]. cbn. congruence.
    + rewrite lookup_insert_ne, upd_ne by done. by exists y.
  - by apply Hsh.
Qed.

(** A new state of terminal [a] and of the scheduler. *)
Lemma tty_desk k d a t' ws q s' : at_desk k d -> is_tty a -> ring t' q -> sched_ok (queued := queued) s' -> listeners s' t' ws ->
  _attached_virt_console t' = Some (vc_of a) -> (forall w, thread_of (cs_scheduler k) w -> thread_of s' w) ->
  at_desk (set_tty k a t' s') (set_input d a q).
Proof.
  intros [Hscr Hcur Hfr Halt Hl Hvc Hsh Htty Hsched Hth] Ha Hr Hs Hli Hat Hmono. same (same_set_tty k a t' s').
  - by apply Hsh.
  - intros b Hb. cbn [set_input input]. destruct (decide (a = b)) as [<-|Hne].
    + exists t', ws. cbn. rewrite lookup_insert_eq, upd_eq. done.
    + destruct (Htty b Hb) as (t & us & Ht & Hrt & [He Hu] & Hatt). exists t, us. cbn. rewrite lookup_insert_ne, upd_ne by done.
      split; [done|]. split; [done|]. split; [|done]. split; [done|]. auto.
  - intros t Ht. by apply Hmono, Hth.
Qed.

Lemma same_input k d a : at_desk k d -> at_desk k (set_input d a (input d a)).
Proof.
  intros []. split; try done. intros b Hb. cbn. destruct (decide (b = a)) as [->|Hne]; [rewrite upd_eq|rewrite upd_ne by done]; auto.
Qed.

(** *** Waiting threads

    From [k] to [k'] the threads that wait for input at terminal [a] are all
    woken. *)
Definition event_of k (a : Z) : option (InfList.List Z) := _read_buffer_event <$> ttys k !! a.

Definition woken k k' (a : Z) : Prop :=
  forall e ws w, event_of k a = Some e -> InfList.holds e ws -> w ∈ ws -> awake (cs_scheduler k') w.

(** Nobody falls asleep, and where a character has come in all are woken. *)
Record wakes k d k' d' : Prop := {
  wk_awake w : awake (cs_scheduler k) w -> awake (cs_scheduler k') w;
  wk_input a : is_tty a -> (event_of k' a = event_of k a /\ input d' a = input d a) \/ woken k k' a
}.

Lemma quiet k d k' d' : ttys k' = ttys k -> cs_scheduler k' = cs_scheduler k -> input d' = input d -> wakes k d k' d'.
Proof. intros E1 E2 E3. split; [by rewrite E2|]. intros a _. left. unfold event_of. by rewrite E1, E3. Qed.

Lemma wakes_trans k d k1 d1 k2 d2 : wakes k d k1 d1 -> wakes k1 d1 k2 d2 -> wakes k d k2 d2.
Proof.
  intros [A1 I1] [A2 I2]. split; [auto|]. intros a Ha.
  destruct (I1 a Ha) as [[E1 Ei1]|W1]; [|right; intros e ws w He Hh Hw; eapply A2, W1; eauto].
  destruct (I2 a Ha) as [[E2 Ei2]|W2]; [left; split; congruence|].
  right. intros e ws w He Hh Hw. eapply W2; [by rewrite E1|done..].
Qed.

(** ** Keys *)
Lemma key_up_spec k d key : at_desk k d ->
  exists k', PhysicalConsole_key_up k key = Ok k' /\ at_desk k' (desk_up d key) /\ wakes k d k' (desk_up d key).
Proof.
  intros Hd. unfold PhysicalConsole_key_up, desk_up.
  assert (exists k1 d1, at_desk k1 d1 /\ wakes k d k1 d1 /\
    match key with KEY_LALT | KEY_RALT => set_console k (with_alt (console k) false) | _ => k end = k1 /\
    (if is_alt key then set_alt d false else d) = d1) as (k1 & d1 & Hd1 & Hw1 & -> & ->).
  { destruct key; eexists _, _; (split; [|split; [|split; reflexivity]]); try done; by (apply alt_desk || apply quiet). }
  rewrite (proj1 (ad_front _ _ Hd1)).
  destruct (ad_vc _ _ Hd1 (front d1) (proj2 (ad_front _ _ Hd1))) as (x & Hx & Hm & Ht).
  unfold VirtualConsole_key_up, vc_at. rewrite Hx. cbn [in_bounds mbind outcome_bind]. rewrite Hm.
  destruct key; (eexists; split; [reflexivity|split]); try exact Hd1; try exact Hw1; try (by apply shift_desk);
    (eapply wakes_trans; [exact Hw1|by apply quiet]).
Qed.

Lemma char_spec k d key : at_desk k d ->
  exists k', pass_down k key = Ok k' /\ at_desk k' (desk_char vc0 tty0 tty1 d key) /\ wakes k d k' (desk_char vc0 tty0 tty1 d key).
Proof.
  intros Hd. unfold pass_down, desk_char. rewrite (proj1 (ad_front _ _ Hd)).
  destruct (ad_vc _ _ Hd (front d) (proj2 (ad_front _ _ Hd))) as (x & Hx & Hm & Ht).
  unfold VirtualConsole_key_down, vc_at. rewrite Hx. cbn [in_bounds mbind outcome_bind]. rewrite Hm, Ht.
  assert (forall c, exists k', (a ← deref (Some (tty_of (front d))); t ← tty_at k a;
      '(s, t) ← append_to_read_buffer (cs_scheduler k) t c; Ok (set_tty k a t s)) = Ok k' /\
    at_desk k' (set_input d (tty_of (front d)) (ring_push (input d (tty_of (front d))) c)) /\
    wakes k d k' (set_input d (tty_of (front d)) (ring_push (input d (tty_of (front d))) c))) as Hchar.
  { intros c. cbn [deref mbind outcome_bind]. destruct (ad_tty _ _ Hd _ (tty_of_is (front d))) as (t & ws & Hta & Hr & Hl & Hat).
    unfold tty_at. rewrite Hta. cbn [in_bounds mbind outcome_bind].
    destruct (append_to_read_buffer_spec _ t _ ws c (ad_sched _ _ Hd) Hr Hl) as (s' & t' & E & Hs' & Hr' & Hl' & Hat' & Hth & Haw).
    rewrite (bind_Ok _ _ _ E). eexists. split; [reflexivity|]. split; [apply (tty_desk k d _ t' []); try done; [apply tty_of_is|by rewrite Hat']|].
    split; [intros w Hw; apply Haw; by right|]. intros a Ha. destruct (decide (a = tty_of (front d))) as [->|Hne].
    - right. intros e us w He Hus Hw. unfold event_of in He. rewrite Hta in He. injection He as <-. apply Haw. left.
      pose proof (InfList.elements_spec _ _ Hus) as E1. rewrite (InfList.elements_spec _ _ (proj1 Hl)) in E1. by injection E1 as ->.
    - left. unfold event_of. cbn. by rewrite lookup_insert_ne, upd_ne. }
  destruct (is_shift key) eqn:Esh.
  - destruct key; try done; (eexists; split; [reflexivity|]; split; [by apply shift_desk|by apply quiet]).
  - destruct (key_char (shifted d (front d)) key) as [c|] eqn:Ec.
    + destruct (Hchar c) as (k' & E & Hk'). exists k'. split; [|done]. rewrite <- E. by destruct key.
    + exists k. split; [by destruct key|]. split; [done|by apply quiet].
Qed.

(** What leaves the input alone changes only the sheets and the front. *)
Lemma output_desk k k' d d' : at_desk k d -> keeps_input k k' -> screens_ok k' own -> cursor_ok k' ->
  _current_vc (console k') = Some (front d') -> is_vc (front d') -> (forall v, is_vc v -> shows k' own v (sheet d' v)) ->
  alt d' = alt d -> shifted d' = shifted d -> input d' = input d -> at_desk k' d'.
Proof.
  intros [Hscr Hcur Hfr Halt Hl Hvc Hsh Htty Hsched Hth] [Hin Et Es Ea Ev] HS HC Hf Hf' Hsh' E1 E2 E3.
  split; try done; rewrite ?Es, ?Ea, ?Ev, ?E1, ?E2, ?E3; try done.
  - intros v Hv. destruct (Hvc v Hv) as (x & Hx & Hm & Ht). specialize (Hin v). rewrite Hx in Hin. cbn in Hin.
    apply fmap_Some in Hin as (x' & Hx' & E). injection E as E4 E5. exists x'. split; [done|]. by rewrite <- E4, <- E5.
  - intros a Ha. destruct (Htty a Ha) as (t & ws & Hta & Hr & Hli & Hat). exists t, ws. rewrite Et, Es. by split_and!.
Qed.

Lemma front_desk k d v : at_desk k d -> is_vc v -> exists k', set_current_vc k v = Ok k' /\ at_desk k' (set_front d v) /\ wakes k d k' (set_front d v).
Proof.
  intros Hd Hv. destruct (ad_vc _ _ Hd v Hv) as (x & Hx & _).
  destruct (switch_spec k own v (ad_screens _ _ Hd) ltac:(by eexists)) as (k' & E & HS & HC & Hin & Hf & _ & Hsh).
  exists k'. split; [done|]. split; [|apply quiet; try apply Hin; done].
  apply (output_desk k k' d); try done. intros w Hw. by apply Hsh, (ad_sheet _ _ Hd).
Qed.

Lemma vcs_at k d : at_desk k d -> InfList.at_ (_vcs (console k)) 0 = Ok vc0 /\ InfList.at_ (_vcs (console k)) 1 = Ok vc1.
Proof. intros Hd. pose proof (ad_vcs _ _ Hd) as Hh. split; by rewrite (InfList.at_spec _ _ _ Hh). Qed.

Lemma key_down_spec k d key : at_desk k d ->
  exists k', PhysicalConsole_key_down k key = Ok k' /\ at_desk k' (desk_down vc0 vc1 tty0 tty1 d key) /\
    wakes k d k' (desk_down vc0 vc1 tty0 tty1 d key).
Proof.
  intros Hd. unfold PhysicalConsole_key_down, desk_down. rewrite (ad_alt _ _ Hd). destruct (vcs_at k d Hd) as [E0 E1].
  destruct (decide (key = KEY_F1)) as [->|H1].
  { rewrite (bool_decide_eq_true_2 (KEY_F1 = KEY_F1)) by done. destruct (alt d); cbn [andb]; [|by apply char_spec].
    rewrite E0. apply front_desk; [done|by left]. }
  destruct (decide (key = KEY_F2)) as [->|H2].
  { rewrite (bool_decide_eq_false_2 (KEY_F2 = KEY_F1)) by done. rewrite (bool_decide_eq_true_2 (KEY_F2 = KEY_F2)) by done.
    destruct (alt d); cbn [andb]; [|by apply char_spec]. rewrite E1. apply front_desk; [done|by right]. }
  rewrite !bool_decide_eq_false_2 by done. rewrite !andb_false_r.
  assert (exists k1 d1, at_desk k1 d1 /\ wakes k d k1 d1 /\ (if is_alt key then set_alt d true else d) = d1 /\
    match key with
    | KEY_F1 => if alt d then v ← InfList.at_ (_vcs (console k)) 0; set_current_vc k v else pass_down k key
    | KEY_F2 => if alt d then v ← InfList.at_ (_vcs (console k)) 1; set_current_vc k v else pass_down k key
    | KEY_LALT | KEY_RALT => pass_down (set_console k (with_alt (console k) true)) key
    | _ => pass_down k key
    end = pass_down k1 key) as (k1 & d1 & Hd1 & Hw1 & -> & ->).
  - destruct key; try done; eexists _, _; (split; [|split; [|split; reflexivity]]); try done; by (apply alt_desk || apply quiet).
  - destruct (char_spec k1 d1 key Hd1) as (k' & E & Hd' & Hw'). exists k'. split; [done|]. split; [done|]. by eapply wakes_trans.
Qed.

Lemma key_spec k d b : at_desk k d -> 0 <= b < 256 ->
  match key_of b with
  | Some key => let d' := if b <? 128 then desk_down vc0 vc1 tty0 tty1 d key else desk_up d key in
      exists k', key_interrupt k b = Ok k' /\ at_desk k' d' /\ wakes k d k' d'
  | None => key_interrupt k b = Fault OutOfBounds
  end.
Proof.
  intros Hd Hb. destruct (scancode_to_key_spec b Hb) as [E Eb].
  unfold key_interrupt, keyboard_irq_handler, handle_key_event. rewrite E, Eb. destruct (key_of b) as [key|]; [|done].
  cbn [in_bounds mbind outcome_bind]. destruct (b <? 128); cbn [negb].
  - destruct (key_down_spec k d key Hd) as (k' & E' & Hd'). exists k'. by rewrite E'.
  - destruct (key_up_spec k d key Hd) as (k' & E' & Hd'). exists k'. by rewrite E'.
Qed.

(** ** Every operation *)
Definition op_ok (o : op) : Prop :=
  match o with
  | Out a _ | Read a _ => is_tty a
  | Key b => 0 <= b < 256
  | Wait a t => is_tty a /\ threads t
  end.

Lemma run_op_spec k d o : at_desk k d -> op_ok o ->
  match desk_op vc0 vc1 tty0 tty1 d o with
  | Some (cs, d') => exists k', run_op k o = Ok (cs, k') /\ at_desk k' d'
  | None => run_op k o = Fault OutOfBounds
  end.
Proof.
  intros Hd Ho. destruct o as [a bs|b|a n|a t]; cbn [desk_op run_op op_ok] in *.
  - destruct (ad_tty _ _ Hd a Ho) as (t & ws & Hta & _ & _ & Hat). unfold Terminal_write, tty_at. rewrite Hta.
    cbn [in_bounds mbind outcome_bind]. rewrite Hat.
    pose proof (console_write_spec k own _ _ bs (ad_screens _ _ Hd) (ad_cursor _ _ Hd) (ad_sheet _ _ Hd _ (vc_of_is a))) as Hw.
    destruct (paper_bytes _ bs) as [p|]; cbn [mbind option_bind]; [|by rewrite Hw].
    destruct Hw as (k' & E & HS & HC & Econ & Hin & Hsv & Hso). rewrite E. exists k'. split; [done|].
    apply (output_desk k k' d); try done; [by rewrite Econ; apply Hd|apply Hd|].
    intros v Hv. cbn [set_sheet sheet]. destruct (decide (v = vc_of a)) as [->|Hne]; [by rewrite upd_eq|rewrite upd_ne by done].
    by apply Hso, (ad_sheet _ _ Hd).
  - pose proof (key_spec k d b Hd Ho) as Hk. destruct (key_of b) as [key|]; cbn [mbind option_bind]; [|by rewrite Hk].
    destruct Hk as (k' & E & Hd' & _). exists k'. by rewrite E.
  - destruct (ad_tty _ _ Hd a Ho) as (t & ws & Hta & Hr & Hl & Hat). unfold tty_at. rewrite Hta. cbn [in_bounds mbind outcome_bind].
    destruct (read_loop_spec n t _ Hr) as (t' & E & Hr' & Ee & Ea). rewrite E. cbn [mbind outcome_bind]. eexists. split; [reflexivity|].
    apply (tty_desk k d a t' ws); try done; [apply Hd|destruct Hl; split; [by rewrite Ee|done]|by rewrite Ea].
  - destruct Ho as [Ha Ht]. destruct (ad_tty _ _ Hd a Ha) as (x & ws & Hta & Hr & Hl & Hat). unfold tty_at. rewrite Hta. cbn [in_bounds mbind outcome_bind].
    destruct (wait_for_input_spec _ x _ ws t (ad_sched _ _ Hd) Hr Hl (ad_threads _ _ Hd t Ht)) as (y & s' & x' & E & Hs' & Hr' & Hl' & Ea & Hmono & _).
    rewrite E. cbn [mbind outcome_bind]. eexists. split; [reflexivity|].
    assert (at_desk (set_tty k a x' s') (set_input d a (input d a))) as [] by (apply (tty_desk k d a x' (ws ++ [t])); try done; by rewrite Ea).
    split; try done. intros b Hb. destruct (ad_tty0 b Hb) as (z & us & Hz). exists z, us. cbn in Hz.
    destruct (decide (b = a)) as [->|Hne]; [rewrite upd_eq in Hz|rewrite upd_ne in Hz by done]; done.
Qed.

Lemma run_ops_spec os : forall k d, at_desk k d -> Forall op_ok os ->
  match desk_ops vc0 vc1 tty0 tty1 d os with
  | Some (cs, d') => exists k', run_ops k os = Ok (cs, k') /\ at_desk k' d'
  | None => run_ops k os = Fault OutOfBounds
  end.
Proof.
  induction os as [|o os IH]; intros k d Hd Hos; cbn [desk_ops run_ops]; [by exists k|].
  apply Forall_cons in Hos as [Ho Hos]. pose proof (run_op_spec k d o Hd Ho) as H1.
  destruct (desk_op _ _ _ _ d o) as [[cs d1]|]; cbn [mbind option_bind]; [|by rewrite H1].
  destruct H1 as (k1 & E1 & Hd1). rewrite E1. cbn [mbind outcome_bind]. specialize (IH k1 d1 Hd1 Hos).
  destruct (desk_ops _ _ _ _ d1 os) as [[cs' d2]|]; cbn [mbind option_bind]; [|by rewrite IH].
  destruct IH as (k2 & E2 & Hd2). exists k2. by rewrite E2.
Qed.

(** A run of keys wakes who waits where characters come in. *)
Lemma keys_wake os : forall k d cs d' k', at_desk k d -> Forall op_ok os -> (forall o, o ∈ os -> exists b, o = Key b) ->
  desk_ops vc0 vc1 tty0 tty1 d os = Some (cs, d') -> run_ops k os = Ok (cs, k') -> wakes k d k' d'.
Proof.
  induction os as [|o os IH]; intros k d cs d' k' Hd Hos Hk; cbn [desk_ops run_ops].
  { intros [= <- <-] [= <-]. by apply quiet. }
  apply Forall_cons in Hos as [Ho Hos]. destruct (Hk o) as [b ->]; [left|]. cbn [desk_op run_op].
  pose proof (key_spec k d b Hd Ho) as Hb. destruct (key_of b) as [key|]; cbn [mbind option_bind]; [|done].
  destruct Hb as (k1 & E1 & Hd1 & Hw1). rewrite E1. cbn [mbind outcome_bind].
  destruct (desk_ops _ _ _ _ _ os) as [[cs2 d2]|] eqn:E2; cbn [mbind option_bind]; [|done]. intros [= <- <-].
  destruct (run_ops k1 os) as [[cs3 k3]|] eqn:E3; cbn [mbind outcome_bind]; [|done]. intros [= -> <-].
  eapply wakes_trans; [exact Hw1|]. eapply (IH k1 _ cs2); try done. intros o Hin. apply Hk. by right.
Qed.

Lemma run_ops_app os1 os2 k cs1 k1 cs2 k2 : run_ops k os1 = Ok (cs1, k1) -> run_ops k1 os2 = Ok (cs2, k2) ->
  run_ops k (os1 ++ os2) = Ok (cs1 ++ cs2, k2).
Proof.
  revert k cs1. induction os1 as [|o os1 IH]; intros k cs1; cbn [app run_ops].
  - by intros [= <- <-] ->.
  - destruct (run_op k o) as [[cs k']|]; cbn [mbind outcome_bind]; [|done].
    destruct (run_ops k' os1) as [[cs' k'']|] eqn:E1; cbn [mbind outcome_bind]; [|done]. intros [= <- <-] E2.
    rewrite (IH k' cs' E1 E2). cbn [mbind outcome_bind]. by rewrite app_assoc.
Qed.
End desk.

(** ** Typing *)

(** The scancode of the key that gives [c] with the modifiers [mask]. *)
Definition find_key (mask c : Z) : option Z :=
  head (filter (fun b => (key ← key_of b; key_char mask key) = Some c) (seqZ 0 128)).

(** The keys a user presses and releases for a character. *)
Definition key_presses (c : Z) : list op :=
  match find_key 0 c with
  | Some b => [Key b; Key (b + 128)]
  | None =>
      match find_key Shift c with
      | Some b => [Key 42; Key b; Key (b + 128); Key (42 + 128)]
      | None => []
      end
  end.

Definition typable (c : Z) : Prop := key_presses c <> [].
#[global] Instance typable_dec c : Decision (typable c).
Proof. unfold typable. apply _. Defined.

Definition typing (text : list Z) : list op := mjoin (key_presses <$> text).

(** Letters, digits, the space, the new line and most other characters; the
    comma, the quote and the square brackets are among those without a key. *)
Lemma typable_chars : filter typable (seqZ 0 128) =
  [8; 10; 32; 33; 34; 35; 36; 37; 38; 40; 41; 42; 43] ++ seqZ 45 13 ++ [61; 62; 63] ++ seqZ 65 26 ++ [92; 94; 95] ++ seqZ 97 26 ++ [124].
Proof. by vm_compute. Qed.

Lemma find_key_spec mask c b : find_key mask c = Some b ->
  0 <= b < 128 /\ exists key, key_of b = Some key /\ key_char mask key = Some c.
Proof.
  unfold find_key. intros E. apply head_Some_elem_of in E. apply list_elem_of_filter in E as [E Hin].
  apply elem_of_seqZ in Hin. split; [lia|]. destruct (key_of b) as [key|]; [by exists key|done].
Qed.

(** A key that has a character is none of the keys with an effect of its own. *)
Lemma char_key mask key c : key_char mask key = Some c ->
  is_shift key = false /\ is_alt key = false /\ key <> KEY_F1 /\ key <> KEY_F2.
Proof. intros E. destruct key; try done. Qed.

Section typing.
Context (vc0 vc1 tty0 tty1 : Z).

Notation desk_op := (desk_op vc0 vc1 tty0 tty1).
Notation desk_ops := (desk_ops vc0 vc1 tty0 tty1).
Notation tty_of := (tty_of vc0 tty0 tty1).

(** [d'] is [d] with the characters [q] in the queue of the front console. *)
Definition after_typing (d d' : Desk) (q : list Z) : Prop :=
  sheet d' = sheet d /\ front d' = front d /\ alt d' = alt d /\ (forall v, shifted d' v = shifted d v) /\
  input d' (tty_of (front d)) = q /\ (forall a, a <> tty_of (front d) -> input d' a = input d a).

Lemma press_spec d b key c : 0 <= b < 128 -> key_of b = Some key -> key_char (shifted d (front d)) key = Some c ->
  desk_op d (Key b) = Some ([], set_input d (tty_of (front d)) (ring_push (input d (tty_of (front d))) c)) /\
  forall d', desk_op d' (Key (b + 128)) = Some ([], d').
Proof.
  intros Hb Ek Ec. destruct (char_key _ _ _ Ec) as (Hs & Ha & H1 & H2).
  assert (key_of (b + 128) = Some key) as Ek'.
  { rewrite <- Ek. unfold key_of. replace ((b + 128) mod 128) with (b mod 128); [done|].
    replace (b + 128) with (b + 1 * 128) by lia. by rewrite Z_mod_plus_full. }
  cbn [desk_op]. rewrite Ek, Ek'. cbn [mbind option_bind]. rewrite ltb_true by lia. split.
  - unfold desk_down, desk_char. rewrite !bool_decide_eq_false_2 by done. by rewrite !andb_false_r, Ha, Hs, Ec.
  - intros d'. rewrite ltb_false by lia. unfold desk_up. by rewrite Ha, Hs.
Qed.

Lemma desk_ops_app os1 os2 d cs1 d1 cs2 d2 : desk_ops d os1 = Some (cs1, d1) -> desk_ops d1 os2 = Some (cs2, d2) ->
  desk_ops d (os1 ++ os2) = Some (cs1 ++ cs2, d2).
Proof.
  revert d cs1. induction os1 as [|o os1 IH]; intros d cs1; cbn [app desk_ops].
  - by intros [= <- <-] ->.
  - destruct (desk_op d o) as [[cs d']|]; cbn [mbind option_bind]; [|done].
    destruct (desk_ops d' os1) as [[cs' d'']|] eqn:E1; cbn [mbind option_bind]; [|done]. intros [= <- <-] E2.
    rewrite (IH d' cs' E1 E2). cbn [mbind option_bind]. by rewrite app_assoc.
Qed.

Lemma key_presses_spec d c : typable c -> shifted d (front d) = 0 ->
  exists d', desk_ops d (key_presses c) = Some ([], d') /\ after_typing d d' (ring_push (input d (tty_of (front d))) c).
Proof.
  unfold typable, key_presses. intros Ht Hm. destruct (find_key 0 c) as [b|] eqn:E0.
  - destruct (find_key_spec _ _ _ E0) as (Hb & key & Ek & Ec). rewrite <- Hm in Ec.
    destruct (press_spec d b key c Hb Ek Ec) as [P1 P2]. cbn [desk_ops]. rewrite P1. cbn [mbind option_bind]. rewrite P2. cbn [mbind option_bind app].
    eexists. split; [reflexivity|]. unfold after_typing, set_input. cbn. rewrite upd_eq. split_and!; try done. intros a Ha. by apply upd_ne.
  - destruct (find_key Shift c) as [b|] eqn:E1; [|done].
    destruct (find_key_spec _ _ _ E1) as (Hb & key & Ek & Ec).
    set (d1 := set_shift d (front d) (Z.lor (shifted d (front d)) Shift)).
    assert (desk_op d (Key 42) = Some ([], d1)) as P0.
    { change (desk_op d (Key 42)) with (Some ([] : list Z, desk_down vc0 vc1 tty0 tty1 d KEY_LSHIFT)).
      unfold desk_down, desk_char. rewrite !bool_decide_eq_false_2 by done. by rewrite !andb_false_r. }
    assert (shifted d1 (front d1) = Shift) as Hm1 by (cbn; rewrite upd_eq, Hm; done).
    rewrite <- Hm1 in Ec. destruct (press_spec d1 b key c Hb Ek Ec) as [P1 P2].
    cbn [desk_ops]. rewrite P0. cbn [mbind option_bind]. rewrite P1. cbn [mbind option_bind]. rewrite P2. cbn [mbind option_bind].
    match goal with |- context [desk_op ?d2 (Key (42 + 128))] =>
      change (desk_op d2 (Key (42 + 128))) with (Some ([] : list Z, desk_up d2 KEY_LSHIFT)) end.
    cbn [mbind option_bind app]. eexists. split; [reflexivity|].
    unfold desk_up. change (is_alt KEY_LSHIFT) with false. change (is_shift KEY_LSHIFT) with true. cbn iota.
    unfold after_typing, d1. cbn. split_and!; try done.
    + intros v. destruct (decide (v = front d)) as [->|Hne]; [by rewrite !upd_eq, Hm|by rewrite !upd_ne].
    + by rewrite upd_eq.
    + intros a Ha. by rewrite upd_ne.
Qed.

Lemma typing_spec text : forall d, Forall typable text -> shifted d (front d) = 0 ->
  (length (input d (tty_of (front d))) + length text <= 63)%nat ->
  exists d', desk_ops d (typing text) = Some ([], d') /\ after_typing d d' (input d (tty_of (front d)) ++ text).
Proof.
  induction text as [|c text IH]; intros d Ht Hm Hl.
  { exists d. split; [done|]. unfold after_typing. by rewrite app_nil_r. }
  apply Forall_cons in Ht as [Hc Ht]. cbn [length] in Hl.
  destruct (key_presses_spec d c Hc Hm) as (d1 & E1 & Hs1 & Hf1 & Ha1 & Hm1 & Hi1 & Ho1).
  unfold ring_push in Hi1. rewrite (proj2 (Nat.ltb_lt (length (input d (tty_of (front d)))) 63)) in Hi1 by lia. rewrite <- Hf1 in Hi1.
  destruct (IH d1 Ht) as (d2 & E2 & Hs2 & Hf2 & Ha2 & Hm2 & Hi2 & Ho2); [by rewrite Hm1, Hf1|rewrite Hi1, Hf1; len|].
  exists d2. split; [by apply (desk_ops_app _ _ d [] d1 [] d2)|]. rewrite Hf1 in Hi1, Hi2, Ho2. rewrite Hi1 in Hi2.
  unfold after_typing. split_and!; try congruence.
  - rewrite Hi2. by rewrite <- app_assoc.
  - intros a Ha. by rewrite Ho2, Ho1.
Qed.
End typing.

(** ** The devices as [console_init] makes them and [activate_console]
    connects them *)
Section devices.
Context {Q : Type} `{SchedulingAlgorithmLaws Q queued}.
Context (vc0 vc1 tty0 tty1 : Z) (b0 b1 video_ram : Z) (uninit : nat -> list Z) (threads : Z -> Prop).

Definition new_devices (card : list Z) (regs : gmap Z Z) (s : Scheduler Q) : Consoles Q := {|
  ttys := <[tty0 := Terminal_new uninit]> {[tty1 := Terminal_new uninit]};
  vcs := <[vc0 := VirtualConsole_new b0]> {[vc1 := VirtualConsole_new b1]};
  screens := <[video_ram := card]> (<[b0 := replicate 2000 blank]> {[b1 := replicate 2000 blank]});
  console := VGAConsoleDevice_new video_ram;
  crtc := regs;
  cs_scheduler := s
|}.

Definition clean_desk : Desk :=
  {| sheet := fun _ => clean_paper; front := vc0; alt := false; shifted := fun _ => 0; input := fun _ => [] |}.

Definition own_buffer (v : Z) : Z := if v =? vc0 then b0 else b1.

Record devices_ok (card : list Z) (s : Scheduler Q) : Prop := {
  do_vcs : vc0 <> vc1;
  do_ttys : tty0 <> tty1;
  do_buffers : b0 <> b1 /\ b0 <> video_ram /\ b1 <> video_ram;
  do_card : length card = 2000%nat;
  do_uninit : length (uninit 64%nat) = 64%nat;
  do_sched : sched_ok (queued := queued) s;
  do_threads t : threads t -> thread_of s t
}.

Notation at_desk := (at_desk (queued := queued) vc0 vc1 tty0 tty1 own_buffer threads).

Lemma attach_terminal_Ok (k : Consoles Q) p a v t : vcs k !! p = Some v -> ttys k !! a = Some t ->
  exists k', attach_terminal k p a = Ok k' /\ same_screens k k' /\ console k' = console k /\ cs_scheduler k' = cs_scheduler k /\
    (exists v', vcs k' = <[p := v']> (vcs k) /\ _current_mod_mask v' = _current_mod_mask v /\ _terminal v' = Some a) /\
    (exists t', ttys k' = <[a := t']> (ttys k) /\ (forall q, ring t q -> ring t' q) /\
       _read_buffer_event t' = _read_buffer_event t /\ _attached_virt_console t' = Some p).
Proof.
  intros Hv Ht. unfold attach_terminal, vc_at, tty_at. rewrite Hv, Ht. cbn [in_bounds mbind outcome_bind].
  eexists. split; [reflexivity|]. split.
  { match goal with |- same_screens _ (set_tty (set_vc _ _ ?x) _ _ _) => destruct (same_set_vc k p v x Hv eq_refl) end. by split. }
  split; [done|]. split; [done|]. split; [by eexists|].
  eexists. split; [reflexivity|]. split; [|done]. by intros q [].
Qed.

Lemma with_vcs_same (k : Consoles Q) l : same_screens k (set_console k (with_vcs (console k) l)).
Proof. done. Qed.

Lemma new_screens_ok card regs s : devices_ok card s ->
  screens_ok (new_devices card regs s) own_buffer /\
  (forall v, v = vc0 \/ v = vc1 -> shows (new_devices card regs s) own_buffer v clean_paper).
Proof.
  intros [Hv Ht (Hb1 & Hb2 & Hb3) Hc Hu Hs Hth].
  assert (forall v, is_Some (vcs (new_devices card regs s) !! v) -> v = vc0 \/ v = vc1) as Hdom.
  { intros v. cbn. rewrite lookup_insert_is_Some. intros [->|[_ E]]; [by left|]. right. by apply lookup_singleton_is_Some in E. }
  assert (own_buffer vc0 = b0) as O0 by (unfold own_buffer; by rewrite Z.eqb_refl).
  assert (own_buffer vc1 = b1) as O1 by (unfold own_buffer; by rewrite eqb_false).
  assert (forall v, v = vc0 \/ v = vc1 -> screens (new_devices card regs s) !! own_buffer v = Some (replicate 2000 blank)) as Hbuf.
  { intros v [->| ->]; rewrite ?O0, ?O1; cbn; rewrite lookup_insert_ne by done; [by rewrite lookup_insert_eq|].
    rewrite lookup_insert_ne by done. by rewrite lookup_singleton_eq. }
  split; [split|].
  - intros v w [->| ->]%Hdom [->| ->]%Hdom; congruence.
  - intros v [->| ->]%Hdom; cbn; congruence.
  - intros v Hv'%Hdom. exists (replicate 2000 blank). split; [by apply Hbuf|by rewrite length_replicate].
  - exists card. cbn. by rewrite lookup_insert_eq.
  - intros v x Hx. unfold place. cbn [new_devices console VGAConsoleDevice_new _current_vc]. rewrite decide_False, bool_decide_eq_false_2 by done.
    destruct (Hdom v ltac:(by eexists)) as [->| ->]; cbn in Hx.
    + rewrite lookup_insert_eq in Hx. injection Hx as <-. by rewrite O0.
    + rewrite lookup_insert_ne, lookup_singleton_eq in Hx by done. injection Hx as <-. by rewrite O1.
  - done.
  - done.
  - intros v Hv'. assert (exists b, vcs (new_devices card regs s) !! v = Some (VirtualConsole_new b)) as [b Hx].
    { destruct Hv' as [->| ->]; cbn; [rewrite lookup_insert_eq|rewrite lookup_insert_ne, lookup_singleton_eq by done]; by eexists. }
    exists (VirtualConsole_new b), (replicate 2000 blank). split; [done|]. split; [|apply clean_window].
    unfold place. cbn [new_devices console VGAConsoleDevice_new _current_vc]. rewrite decide_False by done. by apply Hbuf.
Qed.

(** The connected devices show two clean sheets. *)
Lemma connect_consoles_spec card regs s : devices_ok card s ->
  exists k, connect_consoles (new_devices card regs s) vc0 vc1 tty0 tty1 = Ok k /\ at_desk k clean_desk.
Proof.
  intros Hok. pose proof Hok as [Hv Ht _ _ Hu Hs Hth]. destruct (new_screens_ok card regs s Hok) as [HS Hsh].
  set (k0 := new_devices card regs s) in *. unfold connect_consoles.
  destruct (attach_terminal_Ok k0 vc0 tty0 (VirtualConsole_new b0) (Terminal_new uninit)) as
    (k1 & E1 & S1 & C1 & D1 & (x0 & V1 & M1 & T1) & (t0 & U1 & R1 & W1 & A1)); [apply lookup_insert_eq..|]. step_to E1.
  destruct (attach_terminal_Ok k1 vc1 tty1 (VirtualConsole_new b1) (Terminal_new uninit)) as
    (k2 & E2 & S2 & C2 & D2 & (x1 & V2 & M2 & T2) & (t1 & U2 & R2 & W2 & A2)).
  { rewrite V1. cbn. by rewrite !lookup_insert_ne, lookup_singleton_eq. }
  { rewrite U1. cbn. by rewrite !lookup_insert_ne, lookup_singleton_eq. }
  step_to E2. pose proof (same_trans k0 k1 k2 S1 S2) as S02.
  assert (console k2 = console k0) as C02 by congruence.
  unfold add_virtual_console. rewrite C02. cbn [k0 new_devices console VGAConsoleDevice_new _vcs].
  destruct (InfList.append_spec _ _ vc0 (@InfList.empty_list_holds Z)) as (l1 & L1 & H1). rewrite L1. cbn [mbind outcome_bind].
  rewrite (InfList.count_spec _ _ H1). change (u32 (Z.of_nat (length ([] ++ [vc0]))) =? 1) with true. cbn iota.
  set (k3 := set_console k2 (with_vcs (VGAConsoleDevice_new video_ram) l1)).
  assert (same_screens k0 k3) as S03.
  { apply (same_trans k0 k2 k3 S02). split; try done; cbn; by rewrite C02. }
  destruct (switch_spec k3 own_buffer vc0 (same_screens_ok _ _ _ S03 HS)) as (k4 & E4 & HS4 & HC4 & [I4 J4 K4 L4 N4] & F4 & _ & Hsh4).
  { cbn. rewrite V2, V1. rewrite lookup_insert_ne, lookup_insert_eq by done. by eexists. }
  rewrite (bind_Ok _ _ _ E4). rewrite N4. cbn [k3 set_console console with_vcs _vcs].
  destruct (InfList.append_spec _ _ vc1 H1) as (l2 & L2 & H2). rewrite L2. cbn [mbind outcome_bind].
  rewrite (InfList.count_spec _ _ H2). change (u32 (Z.of_nat (length (([] ++ [vc0]) ++ [vc1]))) =? 1) with false. cbn iota.
  eexists. split; [reflexivity|]. pose proof (with_vcs_same k4 l2) as S5.
  assert (vc_of vc0 vc1 tty0 tty0 = vc0 /\ vc_of vc0 vc1 tty0 tty1 = vc1) as [O0 O1] by (unfold vc_of; split; [by rewrite Z.eqb_refl|by rewrite eqb_false]).
  assert (tty_of vc0 tty0 tty1 vc0 = tty0 /\ tty_of vc0 tty0 tty1 vc1 = tty1) as [P0 P1] by (unfold tty_of; split; [by rewrite Z.eqb_refl|by rewrite eqb_false]).
  assert (forall v x, vcs k2 !! v = Some x -> exists x', vcs k4 !! v = Some x' /\ inner x' = inner x) as Hin.
  { intros v x Hx. specialize (I4 v). cbn in I4. rewrite Hx in I4. by apply fmap_Some in I4 as (x' & ? & ?); eauto. }
  split; cbn [set_console console with_vcs _current_vc _alt_pressed _vcs clean_desk front alt shifted input sheet vcs ttys cs_scheduler];
    rewrite ?J4, ?K4, ?L4; cbn [k3 set_console ttys cs_scheduler console with_vcs VGAConsoleDevice_new _alt_pressed].
  - by eapply same_screens_ok.
  - by eapply same_cursor.
  - split; [done|by left].
  - done.
  - exact H2.
  - intros v [->| ->].
    + destruct (Hin vc0 x0) as (x' & Hx' & Ei); [rewrite V2, V1, lookup_insert_ne, lookup_insert_eq by done; done|].
      exists x'. rewrite P0. unfold inner in Ei. injection Ei as -> ->. by rewrite M1.
    + destruct (Hin vc1 x1) as (x' & Hx' & Ei); [rewrite V2, lookup_insert_eq; done|].
      exists x'. rewrite P1. unfold inner in Ei. injection Ei as -> ->. by rewrite M2.
  - intros v Hv'. eapply same_shows; [exact S5|]. apply Hsh4. eapply same_shows; [exact S03|]. by apply Hsh.
  - pose proof (ring_new uninit Hu) as Hr. unfold tty_holds. cbn [set_console ttys cs_scheduler]. rewrite J4, K4. cbn [k3 set_console ttys cs_scheduler].
    rewrite U2, U1, D2, D1. intros a [->| ->].
    + exists t0, []. rewrite O0, lookup_insert_ne, lookup_insert_eq by done. split_and!; auto. split; [rewrite W1; apply InfList.empty_list_holds|by intros w ?%elem_of_nil].
    + exists t1, []. rewrite O1, lookup_insert_eq. split_and!; auto. split; [rewrite W2; apply InfList.empty_list_holds|by intros w ?%elem_of_nil].
  - by rewrite D2, D1.
  - rewrite D2, D1. exact Hth.
Qed.

Notation desk_ops := (desk_ops vc0 vc1 tty0 tty1).
Notation op_ok := (op_ok tty0 tty1 threads).

(** The memory of the card shows the sheet of the console in front. *)
Lemma card_shows k d : at_desk k d -> exists cells x, screens k !! _video_ram_address (console k) = Some cells /\
  vcs k !! front d = Some x /\ window (sheet d (front d)) cells (_current_pos x) /\
  crtc k !! 0xf = Some (u8 (_current_pos x)) /\ crtc k !! 0xe = Some (u8 (Z.shiftr (_current_pos x) 8)).
Proof.
  intros Hd. destruct (ad_front _ _ _ _ _ _ _ _ Hd) as [Hf Hv].
  destruct (ad_sheet _ _ _ _ _ _ _ _ Hd _ Hv) as (x & cells & Hx & Hc & Hw). unfold place in Hc. rewrite decide_True in Hc by done.
  exists cells, x. do 3 (split; [done|]). by apply (ad_cursor _ _ _ _ _ _ _ _ Hd (front d)).
Qed.

(** C14: the keyboard, the VGA card, two virtual consoles and their terminals,
    connected as at boot, implement the desk.  Whatever is written to the two
    terminals, whatever keys are pressed, whoever reads or waits: every console
    holds the window of its own sheet of paper, the card shows that of the
    console in front with its cursor, and each terminal holds the characters
    typed while its console was in front and not yet read.  The sequence faults
    exactly when a backspace is written at the top left corner of a window, or
    Num Lock is pressed. *)
Theorem desk_correct card regs s os : devices_ok card s -> Forall op_ok os ->
  exists k0, connect_consoles (new_devices card regs s) vc0 vc1 tty0 tty1 = Ok k0 /\
    match desk_ops clean_desk os with
    | Some (cs, d) => exists k, run_ops k0 os = Ok (cs, k) /\
        (forall v, v = vc0 \/ v = vc1 -> shows k own_buffer v (sheet d v)) /\
        (exists cells x, screens k !! _video_ram_address (console k) = Some cells /\ vcs k !! front d = Some x /\
           window (sheet d (front d)) cells (_current_pos x) /\
           crtc k !! 0xf = Some (u8 (_current_pos x)) /\ crtc k !! 0xe = Some (u8 (Z.shiftr (_current_pos x) 8))) /\
        (forall a, a = tty0 \/ a = tty1 -> exists t, ttys k !! a = Some t /\ ring t (input d a)) /\
        sched_ok (queued := queued) (cs_scheduler k)
    | None => run_ops k0 os = Fault OutOfBounds
    end.
Proof.
  intros Hok Hos. destruct (connect_consoles_spec card regs s Hok) as (k0 & E0 & Hd0). exists k0. split; [done|].
  pose proof (run_ops_spec vc0 vc1 tty0 tty1 own_buffer threads os k0 clean_desk Hd0 Hos) as Hr.
  destruct (desk_ops clean_desk os) as [[cs d]|]; [|done]. destruct Hr as (k & E & Hd). exists k. split; [done|].
  split; [apply Hd|]. split; [by apply card_shows|]. split; [|apply Hd].
  intros a Ha. destruct (ad_tty _ _ _ _ _ _ _ _ Hd a Ha) as (t & ws & Hta & Hr & _). by exists t.
Qed.

Lemma typing_keys text o : o ∈ typing text -> exists b, o = Key b.
Proof.
  intros Ho. apply list_elem_of_join in Ho as (l & Hol & Hl). apply list_elem_of_fmap in Hl as (c & -> & _).
  unfold key_presses in Hol. destruct (find_key 0 c); [|destruct (find_key Shift c)];
    rewrite ?elem_of_cons, ?elem_of_nil in Hol; naive_solver.
Qed.

Lemma typing_ok text : Forall op_ok (typing text).
Proof.
  apply Forall_forall. intros o Ho. apply list_elem_of_join in Ho as (l & Hol & Hl).
  apply list_elem_of_fmap in Hl as (c & -> & _). unfold key_presses in Hol.
  assert (forall mask b, find_key mask c = Some b -> 0 <= b < 128) as Hb by (intros mask b Eb; by apply find_key_spec in Eb as [? _]).
  destruct (find_key 0 c) as [b|] eqn:E0; [specialize (Hb 0 b E0)|destruct (find_key Shift c) as [b|] eqn:E1; [specialize (Hb Shift b E1)|]];
    rewrite ?elem_of_cons, ?elem_of_nil in Hol; naive_solver lia.
Qed.

(** C15: what is typed is what is read.  After any session that leaves no shift
    key down, pressing the keys of a text and reading the terminal of the
    console in front gives what was still unread and then the text, as long as
    no more than 63 characters are unread; nothing that is shown changes; and
    every thread that is in the queue of the terminal when the typing begins is
    runnable after it. *)
Theorem typed_is_read card regs s os cs d text : devices_ok card s -> Forall op_ok os ->
  desk_ops clean_desk os = Some (cs, d) -> shifted d (front d) = 0 -> Forall typable text ->
  let a := tty_of vc0 tty0 tty1 (front d) in
  let unread := input d a ++ text in
  (length unread <= 63)%nat ->
  exists k0 k k', connect_consoles (new_devices card regs s) vc0 vc1 tty0 tty1 = Ok k0 /\ run_ops k0 os = Ok (cs, k) /\
    run_ops k (typing text ++ [Read a (length unread)]) = Ok (unread, k') /\
    (exists t, ttys k' !! a = Some t /\ ring t []) /\
    (forall v, v = vc0 \/ v = vc1 -> shows k' own_buffer v (sheet d v)) /\
    exists t ws, ttys k !! a = Some t /\ InfList.holds (_read_buffer_event t) ws /\
      (text <> [] -> forall w, w ∈ ws -> awake (cs_scheduler k') w).
Proof.
  intros Hok Hos Ed Hm Ht a unread Hl. destruct (connect_consoles_spec card regs s Hok) as (k0 & E0 & Hd0).
  pose proof (run_ops_spec vc0 vc1 tty0 tty1 own_buffer threads) as Hrun.
  pose proof (Hrun os k0 clean_desk Hd0 Hos) as H1. rewrite Ed in H1. destruct H1 as (k & E1 & Hd).
  assert (is_tty tty0 tty1 a) as Ha by apply tty_of_is.
  destruct (typing_spec vc0 vc1 tty0 tty1 text d Ht Hm) as (d1 & E2 & Hs & Hf & _ & _ & Hi & _); [unfold unread, a in Hl; rewrite length_app in Hl; lia|].
  fold a unread in Hi. pose proof (Hrun (typing text) k d Hd (typing_ok text)) as H2. rewrite E2 in H2. destruct H2 as (k1 & E3 & Hd1).
  pose proof (keys_wake vc0 vc1 tty0 tty1 own_buffer threads _ k d [] d1 k1 Hd (typing_ok text) (typing_keys text) E2 E3) as [_ Hw].
  destruct (ad_tty _ _ _ _ _ _ _ _ Hd1 a Ha) as (t1 & ws1 & Hta1 & Hr1 & _). rewrite Hi in Hr1.
  destruct (read_loop_spec (length unread) t1 _ Hr1) as (t2 & E4 & Hr2 & _). rewrite take_ge, drop_ge in * by done.
  exists k0, k, (set_tty k1 a t2 (cs_scheduler k1)). do 2 (split; [done|]). split; [|split; [|split]].
  - rewrite (run_ops_app _ [Read a (length unread)] _ [] k1 unread (set_tty k1 a t2 (cs_scheduler k1)) E3); [done|].
    cbn [run_ops run_op]. unfold tty_at. rewrite Hta1. cbn [in_bounds mbind outcome_bind]. rewrite E4. cbn. by rewrite app_nil_r.
  - exists t2. split; [apply lookup_insert_eq|done].
  - intros v Hv. rewrite <- Hs. by apply (ad_sheet _ _ _ _ _ _ _ _ Hd1 v Hv).
  - destruct (ad_tty _ _ _ _ _ _ _ _ Hd a Ha) as (t & ws & Hta & _ & [He _] & _). exists t, ws. split; [done|]. split; [done|].
    intros Hne w Hin. destruct (Hw a Ha) as [[_ Ei]|Hwk].
    + rewrite Hi in Ei. unfold unread in Ei. apply (f_equal length) in Ei. rewrite length_app in Ei. destruct text; [done|]. cbn in Ei. lia.
    + apply (Hwk (_read_buffer_event t) ws w); [unfold event_of; by rewrite Hta|done..].
Qed.
End devices.

(** ** At concrete devices *)
Lemma running_sched_ok {Q} `{SchedulingAlgorithmLaws Q queued} (q : Q) : queued q [1; 2] -> sched_ok (queued := queued) (running q).
Proof.
  intros Hq. split; [exists [1; 2]; by apply running_inv|apply running_no_waits|].
  intros t. unfold state_of. cbn. destruct (running_entities !! t) as [x|] eqn:Hx; [|done].
  destruct (running_lookup _ _ Hx) as [_ [[_ Hs]|[_ Hs]]]; cbn; congruence.
Qed.

Lemma some_devices_ok l : CommonsListProof.holds l [1; 2] ->
  devices_ok (queued := rr_queued) 1 2 3 4 100 200 300 (fun n => replicate n 0xff) (fun t => t = 2) (replicate 2000 0) (running {| rr_queue := l |}).
Proof. intros Hl. split; try done; [by apply running_sched_ok|]. intros t ->. by split; [eexists|]. Qed.

(** Thread 2 waits, "ok" is printed, "a" is typed, Alt and F2 bring the second
    console to the front, "A" is typed there, and both terminals are read. *)
Definition some_session : list op :=
  [Wait 3 2; Out 3 [111; 107; 10]; Key 30; Key 158; Key 56; Key 60; Key 188; Key 184; Key 42; Key 30; Key 158; Key 170; Read 4 5; Read 3 5].

Lemma some_session_ok : Forall (op_ok 3 4 (fun t => t = 2)) some_session.
Proof. repeat constructor; cbn; unfold is_tty; lia. Qed.

Lemma some_session_desk :
  match desk_ops 1 2 3 4 (clean_desk 1) some_session with
  | Some (cs, d) => cs = [65; 97] /\ ink (sheet d 1) 0 = 0x76f /\ ink (sheet d 1) 1 = 0x76b /\ pen (sheet d 1) = 80 /\
      shifted d (front d) = 0 /\ front d = 2 /\ input d 4 = []
  | None => False
  end.
Proof. vm_compute. tauto. Qed.

Lemma desk_correct_witness : exists (k0 k : Consoles RoundRobinScheduler) p,
  run_ops k0 some_session = Ok ([65; 97], k) /\ shows k (own_buffer 1 100 200) 1 p /\ ink p 0 = 0x76f /\ ink p 1 = 0x76b /\ pen p = 80.
Proof.
  destruct (list_of [1; 2] ltac:(reflexivity)) as [l Hl].
  destruct (desk_correct (queued := rr_queued) 1 2 3 4 100 200 300 (fun n => replicate n 0xff) (fun t => t = 2) (replicate 2000 0) ∅ _
    some_session (some_devices_ok l Hl) some_session_ok) as (k0 & _ & E).
  pose proof some_session_desk as Hd. destruct (desk_ops 1 2 3 4 (clean_desk 1) some_session) as [[cs d]|]; [|destruct Hd].
  destruct Hd as (-> & H0 & H1 & Hp & _). destruct E as (k & E & Hsh & _). exists k0, k, (sheet d 1).
  split; [exact E|]. split; [apply Hsh; by left|]. split; [exact H0|]. by split.
Defined.

(** "Hi!" and a new line, typed in the same place. *)
Lemma typed_is_read_witness : exists (k k' : Consoles RoundRobinScheduler),
  run_ops k (typing [72; 105; 33; 10] ++ [Read 4 4]) = Ok ([72; 105; 33; 10], k').
Proof.
  destruct (list_of [1; 2] ltac:(reflexivity)) as [l Hl].
  pose proof some_session_desk as Hd. destruct (desk_ops 1 2 3 4 (clean_desk 1) some_session) as [[cs d]|] eqn:Ed; [|destruct Hd].
  destruct Hd as (-> & _ & _ & _ & Hm & Hf & Hi).
  destruct (typed_is_read (queued := rr_queued) 1 2 3 4 100 200 300 (fun n => replicate n 0xff) (fun t => t = 2) (replicate 2000 0) ∅ _
    some_session [65; 97] d [72; 105; 33; 10] (some_devices_ok l Hl) some_session_ok Ed Hm) as (k0 & k & k' & _ & _ & E & _).
  - apply (bool_decide_unpack _). by vm_compute.
  - rewrite Hf. change (tty_of 1 3 4 2) with 4. rewrite Hi. cbn. lia.
  - exists k, k'. rewrite Hf in E. change (tty_of 1 3 4 2) with 4 in E. rewrite Hi in E. exact E.
Defined.
