(* ===== verification/BootPaging.v ===== *)
(** * arch/x86/mm.cpp: the memory map and the kernel's page tables

    [mm_init] enters the blocks of the boot loader's map; [reinitialise_pgt]
    builds tables for the kernel window and the physical-map window out of huge
    pages of 2 MiB and has the processor use them.  The tables are written
    through the kernel window; [mem] is physical memory by its addresses in the
    physical-map window, as in Vma.v. *)
From S2P Require Import Prelude Define PageDesc PageAllocator Vma.

(** ** multiboot.h *)
Record multiboot_mmap_entry := { mmap_addr : Z; mmap_len : Z; mmap_type : Z }.

Definition MULTIBOOT_MEMORY_AVAILABLE : Z := 1.
Definition MULTIBOOT_MEMORY_RESERVED : Z := 2.

(** The loop of [mm_init]; [nr_pages] is an [unsigned int]. *)
Definition add_entry (mm : MemoryManager) (e : multiboot_mmap_entry) : MemoryManager :=
  if negb (Z.land (mmap_len e) not_fff =? 0) then
    let nr_pages := u32 (Z.shiftr (mmap_len e) 12) in
    if mmap_type e =? MULTIBOOT_MEMORY_AVAILABLE then add_physical_memory mm (mmap_addr e) nr_pages NORMAL
    else if mmap_type e =? MULTIBOOT_MEMORY_RESERVED then add_physical_memory mm (mmap_addr e) nr_pages UNUSABLE
    else mm
  else mm.

Definition scan_memory_map (mm : MemoryManager) (entries : list multiboot_mmap_entry) : MemoryManager :=
  foldl add_entry mm entries.

(** ** Stores through the kernel window *)
Definition window_slot (va : Z) : outcome Z := pa ← kva_to_pa va; pa_to_vpa pa.

Definition store (mem : gmap Z Z) (va v : Z) : outcome (gmap Z Z) :=
  a ← window_slot va; Ok (<[a := v]> mem).

Definition bzero_pages (mem : gmap Z Z) (va n : Z) : outcome (gmap Z Z) :=
  a ← window_slot va; Ok (pnzero mem a n).

(** [table[idx] = (kva_to_pa(below) & ~0xfff) | 0x003] *)
Definition link_table (mem : gmap Z Z) (table idx below : Z) : outcome (gmap Z Z) :=
  pa ← kva_to_pa below;
  store mem (entry_addr table idx) (Z.lor (Z.land pa not_fff) 0x003).

(** [n] rounds from [i] on of a loop that enters huge pages from [addr] on. *)
Fixpoint fill_pd (n : nat) (mem : gmap Z Z) (pd i addr : Z) : outcome (gmap Z Z) :=
  match n with
  | O => Ok mem
  | S n =>
      mem ← store mem (entry_addr pd i) (Z.lor (Z.land addr not_fff) 0x083);
      fill_pd n mem pd (i + 1) (u64 (addr + 0x200000))
  end.

(** The first loop fills two directories. *)
Fixpoint fill_kernel_pds (n : nat) (mem : gmap Z Z) (pd0 pd1 i addr : Z) : outcome (gmap Z Z) :=
  match n with
  | O => Ok mem
  | S n =>
      mem ← store mem (entry_addr pd0 i) (Z.lor (Z.land addr not_fff) 0x083);
      mem ← store mem (entry_addr pd1 i) (Z.lor (Z.land (u64 (addr + 0x40000000)) not_fff) 0x083);
      fill_kernel_pds n mem pd0 pd1 (i + 1) (u64 (addr + 0x200000))
  end.

(** From the links of the upper tables to the huge pages; the last four loops
    go on with one running address. *)
Definition fill_tables (mem : gmap Z Z)
    (pml4 pdp0 pdp1 pdp0_pd0 pdp0_pd1 pdp1_pd0 pdp1_pd1 pdp1_pd2 pdp1_pd3 : Z) : outcome (gmap Z Z) :=
  mem ← link_table mem pml4 0x1ff pdp0;
  mem ← link_table mem pml4 0x100 pdp1;
  mem ← link_table mem pdp0 0x1fe pdp0_pd0;
  mem ← link_table mem pdp0 0x1ff pdp0_pd1;
  mem ← link_table mem pdp1 0x000 pdp1_pd0;
  mem ← link_table mem pdp1 0x001 pdp1_pd1;
  mem ← link_table mem pdp1 0x002 pdp1_pd2;
  mem ← link_table mem pdp1 0x003 pdp1_pd3;
  mem ← fill_kernel_pds 512 mem pdp0_pd0 pdp0_pd1 0 0;
  mem ← fill_pd 512 mem pdp1_pd0 0 0;
  mem ← fill_pd 512 mem pdp1_pd1 0 0x40000000;
  mem ← fill_pd 512 mem pdp1_pd2 0 0x80000000;
  fill_pd 512 mem pdp1_pd3 0 0xc0000000.

Section paging.
Context {A : Type} `{PageAllocatorAlgorithm A}.

(** The page allocator, physical memory, the register CR3 and
    [__template_pml4]. *)
Record BootMemory := {
  bm_pages : PageAllocator A;
  bm_words : gmap Z Z;
  cr3 : Z;
  __template_pml4 : option Z
}.

Definition reinitialise_pgt (b : BootMemory) : outcome (bool * BootMemory) :=
  '(pages, pg) ← alloc_pages (bm_pages b) 4;
  match pages with
  | None => Ok (false, {| bm_pages := pg; bm_words := bm_words b; cr3 := cr3 b; __template_pml4 := __template_pml4 b |})
  | Some pages =>
      let kva i := pgd_to_kva (descriptors pg) (pages + i) in
      pml4 ← kva 0;
      mem ← bzero_pages (bm_words b) pml4 (Z.shiftl 1 4);
      pdp0 ← kva 1; pdp1 ← kva 2;
      pdp0_pd0 ← kva 3; pdp0_pd1 ← kva 4;
      pdp1_pd0 ← kva 5; pdp1_pd1 ← kva 6; pdp1_pd2 ← kva 7; pdp1_pd3 ← kva 8;
      mem ← fill_tables mem pml4 pdp0 pdp1 pdp0_pd0 pdp0_pd1 pdp1_pd0 pdp1_pd1 pdp1_pd2 pdp1_pd3;
      root ← kva_to_pa pml4;
      template ← pgd_to_vpa (descriptors pg) pages;
      Ok (true, {| bm_pages := pg; bm_words := mem; cr3 := root; __template_pml4 := Some template |})
  end.
End paging.
Arguments BootMemory A : clear implicits.

(** ** The processor

    The walk of four levels; an entry of the two middle levels with the bit
    [HUGE] ends it. *)
Definition field9 (va n : Z) : Z := (va / 2 ^ n) mod 512.

Definition canonical (va : Z) : Prop := 0 <= va < 2 ^ 47 \/ 2 ^ 64 - 2 ^ 47 <= va < 2 ^ 64.

Definition below (e : Z) : Z := PMEM_VA_START + base_address e.

(** The walk from a table of directory pointers on. *)
Definition mmu_pdp (w : Z -> Z) (t va : Z) : option Z :=
  let e := w (entry_addr t (field9 va 30)) in
  if negb (present e) then None
  else if huge e then Some (base_address e / 2 ^ 30 * 2 ^ 30 + va mod 2 ^ 30)
  else
    let e := w (entry_addr (below e) (field9 va 21)) in
    if negb (present e) then None
    else if huge e then Some (base_address e / 2 ^ 21 * 2 ^ 21 + va mod 2 ^ 21)
    else
      let e := w (entry_addr (below e) (field9 va 12)) in
      if negb (present e) then None else Some (base_address e + va mod 2 ^ 12).

Definition mmu (w : Z -> Z) (cr3 va : Z) : option Z :=
  let e := w (entry_addr (below cr3) (field9 va 39)) in
  if negb (present e) then None else mmu_pdp w (below e) va.

(** The kernel's two windows, as a function from addresses to addresses. *)
Definition kernel_windows (va : Z) : option Z :=
  if (PMEM_VA_START <=? va) && (va <? PMEM_VA_START + 2 ^ 32) then Some (va - PMEM_VA_START)
  else if KERNEL_VMEM_START <=? va then Some (va - KERNEL_VMEM_START)
  else None.
