(* ===== verification/BootPagingTheorems.v ===== *)
(** * What the processor sees after the memory has been set up *)
From S2P Require Import Prelude Define PageDesc Buddy BuddyRep BuddyProof PageAllocator PageAllocatorProof PageAllocatorTheorems Vma VmaProof VmaOps VmaTheorems BootPaging.

(** ** The kernel's page tables, entry by entry, and what the processor makes of them *)

(** ** Frames in the kernel window *)
Definition kframe (p : Z) : Z := KERNEL_VMEM_START + p * 4096.

Lemma kva_to_pa_frame p i : 0 <= p -> 0 <= i < 4096 -> p < 2 ^ 19 -> kva_to_pa (kframe p + i) = Ok (p * 4096 + i).
Proof.
  intros Hp Hi Hlt. unfold kva_to_pa, kframe. rewrite !leb_true by (unfold KERNEL_VMEM_START, KERNEL_VMEM_END; lia). cbn [andb assert_ mbind outcome_bind].
  f_equal. rewrite wrap_small by lia. lia.
Qed.

Lemma pgd_to_kva_eq d p : 0 <= p < 2 ^ 19 -> pgd_to_kva d p = Ok (kframe p).
Proof.
  intros Hp. unfold pgd_to_kva. rewrite pgd_to_pa_eq by lia. unfold pa_to_kva. rewrite ltb_true by (change KERNEL_VMEM_SIZE with (2 ^ 31); lia).
  cbn [assert_ mbind outcome_bind]. f_equal. unfold kframe. apply wrap_small. unfold KERNEL_VMEM_START. lia.
Qed.

Lemma window_slot_frame p i : 0 <= p < 2 ^ 19 -> 0 <= i < 512 -> window_slot (entry_addr (kframe p) i) = Ok (entry_addr (frame_va p) i).
Proof.
  intros Hp Hi. unfold window_slot, entry_addr. rewrite kva_to_pa_frame by lia. cbn [mbind outcome_bind].
  rewrite pa_to_vpa_Ok by (change PMEM_VA_SIZE with (2 ^ 32); lia). unfold frame_va. f_equal. lia.
Qed.

(** ** Entries *)
Lemma low_bits p f n : 0 <= p -> 0 <= f < 4096 -> 0 <= n -> Z.testbit (Z.lor (p * 4096) f) n = if n <? 12 then Z.testbit f n else Z.testbit (p * 4096) n.
Proof.
  intros Hp Hf Hn. rewrite Z.lor_spec. change 4096 with (2 ^ 12). destruct (Z.ltb_spec n 12).
  - by rewrite Z.mul_pow2_bits_low by lia.
  - assert (Z.testbit f n = false) as ->; [|by rewrite orb_false_r].
    destruct (decide (f = 0)) as [->|]; [apply Z.bits_0|]. apply Z.bits_above_log2; [lia|].
    assert (Z.log2 f < 12) by (apply Z.log2_lt_pow2; lia). lia.
Qed.

Lemma base_low p f : 0 <= p < 2 ^ 52 -> 0 <= f < 4096 -> base_address (Z.lor (p * 4096) f) = p * 4096.
Proof.
  intros Hp Hf. rewrite <- (page_base_mul p) at 2 by done. unfold base_address. apply Z.bits_inj'. intros n Hn.
  rewrite !Z.land_spec, not_fff_bits, low_bits by lia. destruct (Z.ltb_spec n 12); [|done].
  rewrite leb_false by lia. cbn [andb]. by rewrite !andb_false_r.
Qed.

Lemma present_low p f : 0 <= p -> 0 <= f < 4096 -> present (Z.lor (p * 4096) f) = Z.testbit f 0.
Proof. intros. unfold present. rewrite get_flag_testbit. cbn [flag_idx]. by rewrite low_bits by lia. Qed.

Lemma huge_low p f : 0 <= p -> 0 <= f < 4096 -> huge (Z.lor (p * 4096) f) = Z.testbit f 7.
Proof. intros. unfold huge. rewrite get_flag_testbit. cbn [flag_idx]. by rewrite low_bits by lia. Qed.

(** ** Filling the tables: [f j i] is entry [i] of table [j] of the sixteen pages *)
Section tables.
Context (q : Z) (Hq : 0 <= q /\ q + 16 <= 2 ^ 19).
Implicit Types (mem : gmap Z Z) (f : Z -> Z -> Z).

Definition has_tables mem f : Prop := forall j i, 0 <= j < 16 -> 0 <= i < 512 ->
  default 0 (mem !! entry_addr (frame_va (q + j)) i) = f j i.

Definition only_tables mem mem' : Prop := forall a, ~ (frame_va q <= a < frame_va q + 16 * 4096) -> mem' !! a = mem !! a.

Lemma only_trans m1 m2 m3 : only_tables m1 m2 -> only_tables m2 m3 -> only_tables m1 m3.
Proof. intros H1 H2 a Ha. by rewrite H2, H1. Qed.

Definition put f j i v : Z -> Z -> Z := fun j' i' => if (j' =? j) && (i' =? i) then v else f j' i'.

Lemma store_spec mem f j i v : has_tables mem f -> 0 <= j < 16 -> 0 <= i < 512 ->
  exists mem', store mem (entry_addr (kframe (q + j)) i) v = Ok mem' /\ has_tables mem' (put f j i v) /\ only_tables mem mem'.
Proof.
  intros Hf Hj Hi. unfold store. rewrite window_slot_frame by lia. cbn [mbind outcome_bind]. eexists. split; [reflexivity|]. split.
  - intros j' i' Hj' Hi'. unfold put. destruct (decide (entry_addr (frame_va (q + j)) i = entry_addr (frame_va (q + j')) i')) as [E|E].
    + rewrite E, lookup_insert_eq. apply entry_addr_inj in E as [E ->]; [|lia..]. rewrite !eqb_true by lia. done.
    + rewrite lookup_insert_ne by done. rewrite Hf by done. destruct (Z.eqb_spec j' j) as [->|], (Z.eqb_spec i' i) as [->|]; done.
  - intros a Ha. apply lookup_insert_ne. unfold entry_addr, frame_va in *. lia.
Qed.

Lemma link_spec mem f j i k : has_tables mem f -> 0 <= j < 16 -> 0 <= i < 512 -> 0 <= k < 16 ->
  exists mem', link_table mem (kframe (q + j)) i (kframe (q + k)) = Ok mem' /\
    has_tables mem' (put f j i (Z.lor ((q + k) * 4096) 3)) /\ only_tables mem mem'.
Proof.
  intros Hf Hj Hi Hk. unfold link_table. replace (kframe (q + k)) with (kframe (q + k) + 0) by lia.
  rewrite kva_to_pa_frame by lia. cbn [mbind outcome_bind]. rewrite Z.add_0_r, page_base_mul by lia. by apply store_spec.
Qed.

(** The entry of a huge page. *)
Definition huge_entry (addr : Z) : Z := Z.lor addr 0x83.

Definition fill f j i (n : nat) addr : Z -> Z -> Z := fun j' i' =>
  if (j' =? j) && (i <=? i') && (i' <? i + Z.of_nat n) then huge_entry (addr + (i' - i) * 0x200000) else f j' i'.

Lemma huge_store addr : 0 <= addr < 2 ^ 52 -> (4096 | addr) -> Z.lor (Z.land addr not_fff) 0x083 = huge_entry addr.
Proof. intros Ha [p ->]. by rewrite page_base_mul by lia. Qed.

Lemma has_ext mem f g : has_tables mem f -> (forall j i, 0 <= j < 16 -> 0 <= i < 512 -> f j i = g j i) -> has_tables mem g.
Proof. intros Hf E j i Hj Hi. rewrite Hf by done. by apply E. Qed.

Lemma divide_2M addr : (4096 | addr) -> (4096 | addr + 0x200000).
Proof. intros [p ->]. exists (p + 512). lia. Qed.

Lemma fill_spec n : forall mem f j i addr, has_tables mem f -> 0 <= j < 16 -> 0 <= i -> i + Z.of_nat n <= 512 ->
  0 <= addr -> addr + Z.of_nat n * 0x200000 <= 2 ^ 40 -> (4096 | addr) ->
  exists mem', fill_pd n mem (kframe (q + j)) i addr = Ok mem' /\ has_tables mem' (fill f j i n addr) /\ only_tables mem mem'.
Proof.
  induction n as [|n IH]; intros mem f j i addr Hf Hj Hi Hin Ha Hb Hd; cbn [fill_pd].
  { exists mem. split; [done|]. split; [|done]. eapply has_ext; [done|]. intros j' i' _ _. unfold fill.
    destruct (Z.leb_spec i i'), (Z.ltb_spec i' (i + Z.of_nat 0)); try lia; by rewrite ?andb_false_r. }
  rewrite huge_store by (done || lia).
  destruct (store_spec mem f j i (huge_entry addr) Hf Hj ltac:(lia)) as (m1 & E1 & H1 & O1). step_to E1. wraps.
  destruct (IH m1 _ j (i + 1) (addr + 0x200000) H1 Hj ltac:(lia) ltac:(lia) ltac:(lia) ltac:(lia) (divide_2M _ Hd)) as (m2 & E2 & H2 & O2).
  exists m2. split; [done|]. split; [|by eapply only_trans]. eapply has_ext; [done|]. intros j' i' _ _. unfold fill, put.
  destruct (Z.eqb_spec j' j) as [->|]; cbn [andb]; [|done].
  destruct (Z.leb_spec (i + 1) i'), (Z.leb_spec i i'), (Z.ltb_spec i' (i + 1 + Z.of_nat n)), (Z.ltb_spec i' (i + Z.of_nat (S n))), (Z.eqb_spec i' i);
    cbn [andb]; try lia; try done; f_equal; lia.
Qed.

Lemma fill_kernel_spec n : forall mem f i addr, has_tables mem f -> 0 <= i -> i + Z.of_nat n <= 512 ->
  0 <= addr -> addr + Z.of_nat n * 0x200000 <= 2 ^ 39 -> (4096 | addr) ->
  exists mem', fill_kernel_pds n mem (kframe (q + 3)) (kframe (q + 4)) i addr = Ok mem' /\
    has_tables mem' (fill (fill f 3 i n addr) 4 i n (addr + 0x40000000)) /\ only_tables mem mem'.
Proof.
  induction n as [|n IH]; intros mem f i addr Hf Hi Hin Ha Hb Hd; cbn [fill_kernel_pds].
  { exists mem. split; [done|]. split; [|done]. eapply has_ext; [done|]. intros j' i' _ _. unfold fill.
    destruct (Z.leb_spec i i'), (Z.ltb_spec i' (i + Z.of_nat 0)); try lia; by rewrite ?andb_false_r. }
  rewrite (huge_store addr) by (done || lia).
  destruct (store_spec mem f 3 i (huge_entry addr) Hf ltac:(lia) ltac:(lia)) as (m1 & E1 & H1 & O1). step_to E1. wraps.
  assert (4096 | addr + 0x40000000) as Hd' by (destruct Hd as [p ->]; exists (p + 0x40000); lia).
  rewrite (huge_store (addr + 0x40000000)) by (done || lia).
  destruct (store_spec m1 _ 4 i (huge_entry (addr + 0x40000000)) H1 ltac:(lia) ltac:(lia)) as (m2 & E2 & H2 & O2). step_to E2.
  destruct (IH m2 _ (i + 1) (addr + 0x200000) H2 ltac:(lia) ltac:(lia) ltac:(lia) ltac:(lia) (divide_2M _ Hd)) as (m3 & E3 & H3 & O3).
  exists m3. split; [done|]. split; [|eapply only_trans; [|done]; by eapply only_trans]. eapply has_ext; [done|]. intros j' i' _ _. unfold fill, put.
  destruct (Z.eqb_spec j' 4) as [->|]; cbn [andb].
  - destruct (Z.leb_spec (i + 1) i'), (Z.leb_spec i i'), (Z.ltb_spec i' (i + 1 + Z.of_nat n)), (Z.ltb_spec i' (i + Z.of_nat (S n))), (Z.eqb_spec i' i);
      cbn [andb Z.eqb Pos.eqb]; try lia; try done; f_equal; lia.
  - destruct (Z.eqb_spec j' 3) as [->|]; cbn [andb]; [|done].
    destruct (Z.leb_spec (i + 1) i'), (Z.leb_spec i i'), (Z.ltb_spec i' (i + 1 + Z.of_nat n)), (Z.ltb_spec i' (i + Z.of_nat (S n))), (Z.eqb_spec i' i);
      cbn [andb]; try lia; try done; f_equal; lia.
Qed.
(** ** The tables [reinitialise_pgt] makes *)
Definition link (p : Z) : Z := Z.lor (p * 4096) 3.

Definition boot_tables (j i : Z) : Z :=
  if j =? 0 then if i =? 0x1ff then link (q + 1) else if i =? 0x100 then link (q + 2) else 0
  else if j =? 1 then if i =? 0x1fe then link (q + 3) else if i =? 0x1ff then link (q + 4) else 0
  else if j =? 2 then if i <? 4 then link (q + (5 + i)) else 0
  else if j <? 5 then huge_entry ((j - 3) * 0x40000000 + i * 0x200000)
  else if j <? 9 then huge_entry ((j - 5) * 0x40000000 + i * 0x200000)
  else 0.

(** The words of [w] at the pages from [q] on are the tables. *)
Definition has_boot (w : Z -> Z) : Prop := forall j i, 0 <= j < 16 -> 0 <= i < 512 ->
  w (entry_addr (frame_va (q + j)) i) = boot_tables j i.


Lemma fill_tables_spec mem : has_tables mem (fun _ _ => 0) ->
  exists mem', fill_tables mem (kframe (q + 0)) (kframe (q + 1)) (kframe (q + 2)) (kframe (q + 3)) (kframe (q + 4))
      (kframe (q + 5)) (kframe (q + 6)) (kframe (q + 7)) (kframe (q + 8)) = Ok mem' /\
    has_tables mem' boot_tables /\ only_tables mem mem'.
Proof.
  intros F0. unfold fill_tables.
  destruct (link_spec mem _ 0 0x1ff 1 F0) as (m1 & E1 & F1 & O1); [lia..|]. step_to E1.
  destruct (link_spec m1 _ 0 0x100 2 F1) as (m2 & E2 & F2 & O2); [lia..|]. step_to E2.
  destruct (link_spec m2 _ 1 0x1fe 3 F2) as (m3 & E3 & F3 & O3); [lia..|]. step_to E3.
  destruct (link_spec m3 _ 1 0x1ff 4 F3) as (m4 & E4 & F4 & O4); [lia..|]. step_to E4.
  destruct (link_spec m4 _ 2 0 5 F4) as (m5 & E5 & F5 & O5); [lia..|]. step_to E5.
  destruct (link_spec m5 _ 2 1 6 F5) as (m6 & E6 & F6 & O6); [lia..|]. step_to E6.
  destruct (link_spec m6 _ 2 2 7 F6) as (m7 & E7 & F7 & O7); [lia..|]. step_to E7.
  destruct (link_spec m7 _ 2 3 8 F7) as (m8 & E8 & F8 & O8); [lia..|]. step_to E8.
  destruct (fill_kernel_spec 512 m8 _ 0 0 F8) as (m9 & E9 & F9 & O9); [lia..|by exists 0|]. step_to E9.
  destruct (fill_spec 512 m9 _ 5 0 0 F9) as (m10 & E10 & F10 & O10); [lia..|by exists 0|]. step_to E10.
  destruct (fill_spec 512 m10 _ 6 0 0x40000000 F10) as (m11 & E11 & F11 & O11); [lia..|by exists 0x40000|]. step_to E11.
  destruct (fill_spec 512 m11 _ 7 0 0x80000000 F11) as (m12 & E12 & F12 & O12); [lia..|by exists 0x80000|]. step_to E12.
  destruct (fill_spec 512 m12 _ 8 0 0xc0000000 F12) as (m13 & E13 & F13 & O13); [lia..|by exists 0xc0000|].
  exists m13. split; [exact E13|]. split.
  - eapply has_ext; [exact F13|]. intros j i Hj Hi. unfold fill, put, boot_tables.
    assert ((0 <=? i) && (i <? 0 + Z.of_nat 512) = true) as Ei by (change (Z.of_nat 512) with 512; rewrite leb_true, ltb_true by lia; done).
    assert (j = 0 \/ j = 1 \/ j = 2 \/ j = 3 \/ j = 4 \/ j = 5 \/ j = 6 \/ j = 7 \/ j = 8 \/ 9 <= j) as Hcases by lia.
    decompose [or] Hcases; subst; cbn [Z.eqb Pos.eqb Z.ltb Z.compare Pos.compare Pos.compare_cont andb]; rewrite ?Ei; try (f_equal; lia).
    + destruct (Z.eqb_spec i 0x100), (Z.eqb_spec i 0x1ff); try lia; done.
    + destruct (Z.eqb_spec i 0x1ff), (Z.eqb_spec i 0x1fe); try lia; done.
    + destruct (Z.eqb_spec i 3) as [->|]; [done|]. destruct (Z.eqb_spec i 2) as [->|]; [done|].
      destruct (Z.eqb_spec i 1) as [->|]; [done|]. destruct (Z.eqb_spec i 0) as [->|]; [done|]. by rewrite ltb_false by lia.
    + by rewrite !(eqb_false j), !(ltb_false j) by lia.
  - repeat (eapply only_trans; [eassumption|]). done.
Qed.
End tables.

Section reinitialise.
Context {A : Type} `{PageAllocatorAlgorithmLaws A fresh_state owned can_free}.

Notation sys_ok := (sys_ok (owned := owned)).

(** The page allocator and the memory, as an address space without tables. *)
Definition as_vma (b : BootMemory A) : VMA A :=
  {| _page_allocations := []; _pgt_phys_base := 0; _pgt_virt_base := 0; pgalloc := bm_pages b; words := bm_words b |}.

Lemma reinitialise_pgt_spec (b : BootMemory A) :
  sys_ok (as_vma b) -> avail_run 4 (as_vma b) -> (forall x, available (descriptors (bm_pages b)) x -> x < 2 ^ 19) ->
  exists q b', reinitialise_pgt b = Ok (true, b') /\ 0 < q /\ q + 16 <= 2 ^ 19 /\ sys_ok (as_vma b') /\
    cr3 b' = q * 4096 /\ __template_pml4 b' = Some (frame_va q) /\ has_boot q (word (as_vma b')) /\
    (forall x, block q 4 x -> available (descriptors (bm_pages b)) x /\ type_at (descriptors (bm_pages b')) x = Some ALLOCATED) /\
    (forall x, ~ block q 4 x -> type_at (descriptors (bm_pages b')) x = type_at (descriptors (bm_pages b)) x) /\
    (forall a, ~ (frame_va q <= a < frame_va q + 16 * 4096) -> word (as_vma b') a = word (as_vma b) a).
Proof.
  intros Hs Hrun Hlow. destruct (allocate_phys_spec (as_vma b) 4 Hs ltac:(lia) Hrun) as (q & s & E & [_ Hsys [Hq1 _] Hbl Hoth Hw]).
  unfold allocate_phys in E. cbn [as_vma pgalloc] in E. unfold reinitialise_pgt.
  destruct (alloc_pages (bm_pages b) 4) as [[[p|] pg]|f] eqn:Ea; cbn [mbind outcome_bind] in E |- *; try discriminate.
  destruct (pgd_to_vpa (descriptors pg) p) as [va|f] eqn:Ev; cbn [mbind outcome_bind] in E; [|discriminate].
  injection E as -> <-. cbn [pgalloc as_vma] in Hbl, Hoth. change (2 ^ 4) with 16 in Hw.
  assert (q + 16 <= 2 ^ 19) as Hq2.
  { assert (q + 15 < 2 ^ 19); [|lia]. apply Hlow, Hbl. unfold block. lia. }
  assert (0 <= q /\ q + 16 <= 2 ^ 19) as Hq by lia.
  assert (forall i, 0 <= i < 16 -> pgd_to_kva (descriptors pg) (q + i) = Ok (kframe (q + i))) as Hk by (intros i Hi; apply pgd_to_kva_eq; lia).
  assert (va = frame_va q) as -> by (rewrite pgd_to_vpa_eq in Ev by lia; congruence).
  cbv zeta. step_to (Hk 0 ltac:(lia)). unfold bzero_pages.
  replace (window_slot (kframe (q + 0))) with (Ok (frame_va q)).
  2:{ replace (kframe (q + 0)) with (entry_addr (kframe q) 0) by (unfold entry_addr, kframe; lia).
      rewrite window_slot_frame by lia. unfold entry_addr. f_equal. lia. }
  cbn [mbind outcome_bind]. step_to (Hk 1 ltac:(lia)). step_to (Hk 2 ltac:(lia)). step_to (Hk 3 ltac:(lia)). step_to (Hk 4 ltac:(lia)).
  step_to (Hk 5 ltac:(lia)). step_to (Hk 6 ltac:(lia)). step_to (Hk 7 ltac:(lia)). step_to (Hk 8 ltac:(lia)).
  destruct (fill_tables_spec q Hq (pnzero (bm_words b) (frame_va q) (Z.shiftl 1 4))) as (mem & E & HT & HO).
  { intros j i Hj Hi. rewrite pnzero_word. change (Z.shiftl 1 4) with 16. rewrite decide_True; [done|]. unfold entry_addr, frame_va. lia. }
  rewrite (bind_Ok _ _ _ E). replace (kframe (q + 0)) with (kframe q + 0) by (unfold kframe; lia). rewrite kva_to_pa_frame by lia. rewrite Z.add_0_r.
  cbn [mbind outcome_bind].
  eexists q, _. split; [reflexivity|]. cbn [bm_pages bm_words BootPaging.cr3 BootPaging.__template_pml4 as_vma].
  split; [lia|]. split; [done|]. split; [by destruct Hsys|]. do 2 (split; [done|]). split; [exact HT|]. split; [exact Hbl|]. split; [exact Hoth|].
  intros a Ha. unfold word. cbn [as_vma words bm_words]. rewrite HO by done. rewrite pnzero_word. change (Z.shiftl 1 4) with 16. by rewrite decide_False.
Qed.
End reinitialise.

(** ** Addresses in the upper half *)
Lemma split_va base va : (2 ^ 39 | base) -> base <= va < base + 2 ^ 39 ->
  field9 va 30 = (va - base) / 2 ^ 30 /\ field9 va 21 = (va - base) / 2 ^ 21 mod 512 /\ va mod 2 ^ 21 = (va - base) mod 2 ^ 21.
Proof.
  intros [k ->] Hva. unfold field9. assert (exists r, va = r + k * 2 ^ 39) as [r ->] by (exists (va - k * 2 ^ 39); lia).
  replace (r + k * 2 ^ 39 - k * 2 ^ 39) with r by lia. assert (0 <= r < 2 ^ 39) by lia.
  split; [|split].
  - replace (r + k * 2 ^ 39) with (r + (k * 512) * 2 ^ 30) by lia. rewrite Z.div_add, Z.mod_add by lia.
    apply Z.mod_small. split; [apply Z.div_pos; lia|apply Z.div_lt_upper_bound; lia].
  - replace (r + k * 2 ^ 39) with (r + (k * 2 ^ 18) * 2 ^ 21) by lia. rewrite Z.div_add by lia.
    replace (k * 2 ^ 18) with ((k * 512) * 512) by lia. apply Z.mod_add. lia.
  - replace (r + k * 2 ^ 39) with (r + (k * 2 ^ 18) * 2 ^ 21) by lia. apply Z.mod_add. lia.
Qed.

Lemma field39_low va : 0 <= va < 2 ^ 47 -> 0 <= field9 va 39 < 256.
Proof.
  intros Hva. unfold field9. assert (0 <= va / 2 ^ 39 < 256) by (split; [apply Z.div_pos; lia|apply Z.div_lt_upper_bound; lia]).
  rewrite Z.mod_small by lia. done.
Qed.

Lemma field39_high va : 2 ^ 64 - 2 ^ 47 <= va < 2 ^ 64 ->
  let i := field9 va 39 in 256 <= i < 512 /\ 2 ^ 64 - 2 ^ 47 + (i - 256) * 2 ^ 39 <= va < 2 ^ 64 - 2 ^ 47 + (i - 255) * 2 ^ 39.
Proof.
  intros Hva. unfold field9. cbv zeta. assert (exists r, va = r + (2 ^ 25 - 256) * 2 ^ 39) as [r ->] by (exists (va - (2 ^ 25 - 256) * 2 ^ 39); lia).
  assert (0 <= r < 2 ^ 47) by lia. rewrite Z.div_add by lia.
  assert (0 <= r / 2 ^ 39 < 256) by (split; [apply Z.div_pos; lia|apply Z.div_lt_upper_bound; lia]).
  replace (r / 2 ^ 39 + (2 ^ 25 - 256)) with ((r / 2 ^ 39 + 256) + 65535 * 512) by lia. rewrite Z.mod_add, Z.mod_small by lia.
  pose proof (Z.div_mod r (2 ^ 39) ltac:(lia)). pose proof (Z.mod_pos_bound r (2 ^ 39) ltac:(lia)). lia.
Qed.

(** ** The walk through the boot tables *)
Section walk.
Context (w : Z -> Z) (q : Z) (Hq : 0 <= q /\ q + 16 <= 2 ^ 19) (Hw : has_boot q w).

Lemma link_below p : 0 <= p < 2 ^ 20 -> present (link p) = true /\ huge (link p) = false /\ below (link p) = frame_va p.
Proof. intros Hp. unfold link, below. rewrite present_low, huge_low, base_low by lia. done. Qed.

Lemma huge_page k i : 0 <= k < 4 -> 0 <= i < 512 ->
  let e := huge_entry (k * 0x40000000 + i * 0x200000) in
  present e = true /\ huge e = true /\ base_address e / 2 ^ 21 * 2 ^ 21 = k * 2 ^ 30 + i * 2 ^ 21.
Proof.
  intros Hk Hi. cbv zeta. unfold huge_entry. replace (k * 0x40000000 + i * 0x200000) with ((k * 0x40000 + i * 512) * 4096) by lia.
  rewrite present_low, huge_low, base_low by lia. split; [done|]. split; [done|].
  replace ((k * 0x40000 + i * 512) * 4096) with ((k * 512 + i) * 2 ^ 21) by lia. rewrite Z.div_mul by lia. lia.
Qed.

(** The third and the fourth word of a walk, for a directory at page [j]. *)
Lemma pd_walk pdp i2 j k va r : 0 <= pdp < 16 -> 0 <= i2 < 512 -> 0 <= j < 16 -> boot_tables q pdp i2 = link (q + j) -> 0 <= k < 4 ->
  (forall i, 0 <= i < 512 -> boot_tables q j i = huge_entry (k * 0x40000000 + i * 0x200000)) ->
  field9 va 30 = i2 -> field9 va 21 = r / 2 ^ 21 mod 512 -> va mod 2 ^ 21 = r mod 2 ^ 21 ->
  mmu_pdp w (frame_va (q + pdp)) va = Some (k * 2 ^ 30 + r mod 2 ^ 30).
Proof.
  intros Hp Hi2 Hj E2 Hk E1 F2 F1 F0. unfold mmu_pdp. rewrite F2, (Hw pdp i2 Hp Hi2), E2.
  destruct (link_below (q + j) ltac:(lia)) as (-> & -> & ->). cbn [negb].
  pose proof (Z.mod_pos_bound (r / 2 ^ 21) 512 ltac:(lia)) as Hb. rewrite F1, (Hw j _ Hj Hb), (E1 _ Hb).
  destruct (huge_page k (r / 2 ^ 21 mod 512) Hk Hb) as (-> & -> & ->). cbn [negb]. rewrite F0. f_equal.
  assert (r mod 2 ^ 30 = (r / 2 ^ 21 mod 512) * 2 ^ 21 + r mod 2 ^ 21) as ->; [|lia].
  change (2 ^ 30) with (2 ^ 21 * 512). rewrite (Z.rem_mul_r r (2 ^ 21) 512) by lia. lia.
Qed.

Lemma pdp_absent pdp i va : 0 <= pdp < 16 -> field9 va 30 = i -> 0 <= i < 512 -> boot_tables q pdp i = 0 -> mmu_pdp w (frame_va (q + pdp)) va = None.
Proof. intros Hp F Hi E. unfold mmu_pdp. by rewrite F, (Hw pdp i Hp Hi), E. Qed.

(** The window on physical memory. *)
Lemma physical_walk va : PMEM_VA_START <= va < PMEM_VA_START + 2 ^ 39 ->
  mmu_pdp w (frame_va (q + 2)) va = if va <? PMEM_VA_START + 2 ^ 32 then Some (va - PMEM_VA_START) else None.
Proof.
  intros Hva. destruct (split_va PMEM_VA_START va ltac:(by exists 0x1ffff00) Hva) as (F2 & F1 & F0).
  set (r := va - PMEM_VA_START) in *. assert (0 <= r < 2 ^ 39) by (unfold r; lia).
  assert (0 <= r / 2 ^ 30 < 512) as Hb by (split; [apply Z.div_pos; lia|apply Z.div_lt_upper_bound; lia]).
  pose proof (Z.div_mod r (2 ^ 30) ltac:(lia)) as Hd. pose proof (Z.mod_pos_bound r (2 ^ 30) ltac:(lia)) as Hm.
  destruct (Z.ltb_spec va (PMEM_VA_START + 2 ^ 32)).
  - assert (r / 2 ^ 30 < 4) by (apply Z.div_lt_upper_bound; unfold r; lia).
    rewrite (pd_walk 2 (r / 2 ^ 30) (5 + r / 2 ^ 30) (r / 2 ^ 30) va r); try done; try lia; [f_equal; lia| |].
    + unfold boot_tables. cbn [Z.eqb Pos.eqb]. by rewrite ltb_true by lia.
    + intros i Hi. unfold boot_tables. rewrite !eqb_false, (ltb_false _ 5), (ltb_true _ 9) by lia. f_equal. lia.
  - eapply pdp_absent; [lia|done|lia|]. assert (4 <= r / 2 ^ 30) by (apply Z.div_le_lower_bound; unfold r in *; lia).
    unfold boot_tables. cbn [Z.eqb Pos.eqb]. by rewrite ltb_false by lia.
Qed.

(** The kernel's window. *)
Lemma kernel_walk va : 2 ^ 64 - 2 ^ 39 <= va < 2 ^ 64 ->
  mmu_pdp w (frame_va (q + 1)) va = if KERNEL_VMEM_START <=? va then Some (va - KERNEL_VMEM_START) else None.
Proof.
  intros Hva. destruct (split_va (2 ^ 64 - 2 ^ 39) va ltac:(by exists 0x1ffffff) ltac:(lia)) as (F2 & F1 & F0).
  set (r := va - (2 ^ 64 - 2 ^ 39)) in *. assert (0 <= r < 2 ^ 39) by (unfold r; lia).
  assert (0 <= r / 2 ^ 30 < 512) as Hb by (split; [apply Z.div_pos; lia|apply Z.div_lt_upper_bound; lia]).
  pose proof (Z.div_mod r (2 ^ 30) ltac:(lia)) as Hd. pose proof (Z.mod_pos_bound r (2 ^ 30) ltac:(lia)) as Hm.
  assert (KERNEL_VMEM_START = 2 ^ 64 - 2 ^ 31) as EK by done.
  destruct (Z.leb_spec KERNEL_VMEM_START va).
  - assert (510 <= r / 2 ^ 30) by (apply Z.div_le_lower_bound; unfold r; lia).
    assert (r / 2 ^ 30 = 510 \/ r / 2 ^ 30 = 511) as [E|E] by lia.
    + assert (forall i, 0 <= i < 512 -> boot_tables q 3 i = huge_entry (0 * 0x40000000 + i * 0x200000)) as Hpd by (intros i Hi; unfold boot_tables; cbn [Z.eqb Pos.eqb Z.ltb Z.compare Pos.compare Pos.compare_cont]; f_equal; lia).
      rewrite (pd_walk 1 510 3 0 va r ltac:(lia) ltac:(lia) ltac:(lia) eq_refl ltac:(lia) Hpd ltac:(congruence) F1 F0). unfold r in *. f_equal. lia.
    + assert (forall i, 0 <= i < 512 -> boot_tables q 4 i = huge_entry (1 * 0x40000000 + i * 0x200000)) as Hpd by (intros i Hi; unfold boot_tables; cbn [Z.eqb Pos.eqb Z.ltb Z.compare Pos.compare Pos.compare_cont]; f_equal; lia).
      rewrite (pd_walk 1 511 4 1 va r ltac:(lia) ltac:(lia) ltac:(lia) eq_refl ltac:(lia) Hpd ltac:(congruence) F1 F0). unfold r in *. f_equal. lia.
  - eapply pdp_absent; [lia|done|lia|]. assert (r / 2 ^ 30 < 510) by (apply Z.div_lt_upper_bound; unfold r in *; lia).
    unfold boot_tables. cbn [Z.eqb Pos.eqb]. by rewrite !eqb_false by lia.
Qed.
End walk.

(** A root table with the two entries of the boot table sees the windows and,
    where its other entries are empty, nothing else. *)
Lemma mmu_windows w q root va : 0 <= q /\ q + 16 <= 2 ^ 19 -> has_boot q w -> canonical va ->
  w (entry_addr (below root) 0x1ff) = link (q + 1) -> w (entry_addr (below root) 0x100) = link (q + 2) ->
  (field9 va 39 <> 0x1ff -> field9 va 39 <> 0x100 -> w (entry_addr (below root) (field9 va 39)) = 0) ->
  mmu w root va = kernel_windows va.
Proof.
  intros Hq Hw Hc H1 H0 Ho. unfold mmu, kernel_windows. assert (PMEM_VA_START = 2 ^ 64 - 2 ^ 47 /\ KERNEL_VMEM_START = 2 ^ 64 - 2 ^ 31) as [EP EK] by done.
  destruct (decide (field9 va 39 = 0x1ff)) as [E|N1].
  { destruct Hc as [Hc|Hc]; [pose proof (field39_low va Hc); lia|]. pose proof (field39_high va Hc) as [_ Hr]. rewrite E in *.
    rewrite H1. destruct (link_below (q + 1) ltac:(lia)) as (-> & _ & ->). cbn [negb].
    rewrite (kernel_walk w q Hq Hw) by lia. rewrite (ltb_false va) by lia. by rewrite andb_false_r. }
  destruct (decide (field9 va 39 = 0x100)) as [E|N2].
  { destruct Hc as [Hc|Hc]; [pose proof (field39_low va Hc); lia|]. pose proof (field39_high va Hc) as [_ Hr]. rewrite E in *.
    rewrite H0. destruct (link_below (q + 2) ltac:(lia)) as (-> & _ & ->). cbn [negb].
    rewrite (physical_walk w q Hq Hw) by lia. rewrite (leb_true PMEM_VA_START), (leb_false KERNEL_VMEM_START) by lia. by destruct (va <? _). }
  rewrite Ho by done. rewrite present_0. cbn [negb].
  destruct Hc as [Hc|Hc]; [by rewrite !leb_false by lia|]. pose proof (field39_high va Hc) as [Hi Hr].
  destruct (Z.leb_spec PMEM_VA_START va); destruct (Z.ltb_spec va (PMEM_VA_START + 2 ^ 32)); cbn [andb]; try (rewrite leb_false by lia; done); lia.
Qed.

Section paging.
Context {A : Type} `{PageAllocatorAlgorithmLaws A fresh_state owned can_free}.

Notation sys_ok := (sys_ok (owned := owned)).

(** A new address space over allocated pages: its root table is a fresh page
    with the two entries of the template. *)
Lemma new_space_root pg mem (template : Z -> Z) :
  let s0 := {| _page_allocations := []; _pgt_phys_base := 0; _pgt_virt_base := 0; pgalloc := pg; words := mem |} in
  sys_ok s0 -> avail_pages 1 s0 ->
  exists s p, (s ← VMA_new pg mem; install_default_kernel_mapping s (Some template)) = Ok s /\
    available (descriptors pg) p /\ 0 < p < 2 ^ 20 /\ _pgt_phys_base s = p * 4096 /\
    word s (entry_addr (frame_va p) 0x1ff) = template 0x1ff /\ word s (entry_addr (frame_va p) 0x100) = template 0x100 /\
    (forall i, 0 <= i < 512 -> i <> 0x1ff -> i <> 0x100 -> word s (entry_addr (frame_va p) i) = 0) /\
    forall a, ~ (frame_va p <= a < frame_va p + 4096) -> word s a = word s0 a.
Proof.
  intros s0 Hs Hav. destruct (allocate_phys_spec s0 0 Hs ltac:(lia) (avail_run_0 _ _ Hav)) as (p & s1 & E1 & Hal).
  pose proof (al_range _ _ _ _ Hal) as Hr. change (2 ^ 0) with 1 in Hr.
  unfold VMA_new. fold s0. rewrite (bind_Ok _ _ _ E1). cbn [assert_some mbind outcome_bind].
  rewrite pgd_to_vpa_eq, pgd_to_pa_eq by lia. cbn [mbind outcome_bind]. unfold install_default_kernel_mapping. cbn [assert_some mbind outcome_bind].
  eexists _, p. split; [reflexivity|]. split; [apply (al_block _ _ _ _ Hal); unfold block; lia|]. split; [lia|]. split; [done|].
  cbn [write set_words _pgt_virt_base].
  change (2 ^ 0 * 4096) with 4096 in *. pose proof (al_words _ _ _ _ Hal) as Hw. change (2 ^ 0 * 4096) with 4096 in Hw.
  split; [|split; [|split]].
  - rewrite word_write, decide_False by (unfold entry_addr; lia). by rewrite word_write, decide_True.
  - by rewrite word_write, decide_True.
  - intros i Hi N1 N2. rewrite !word_write, !decide_False by (unfold entry_addr; lia).
    change (word s1 (entry_addr (frame_va p) i) = 0). rewrite Hw. rewrite decide_True; [done|]. unfold entry_addr. lia.
  - intros a Ha. rewrite !word_write, !decide_False by (unfold entry_addr; lia).
    change (word s1 a = word s0 a). rewrite Hw. by rewrite decide_False.
Qed.

Lemma kernel_windows_vpa pa va : 0 <= pa -> pa_to_vpa pa = Ok va -> canonical va /\ kernel_windows va = Some pa.
Proof.
  intros Hp E. unfold pa_to_vpa in E. destruct (Z.ltb_spec pa PMEM_VA_SIZE) as [Hlt|]; [|done]. cbn [assert_ mbind outcome_bind] in E.
  assert (PMEM_VA_SIZE = 2 ^ 32 /\ PMEM_VA_START = 2 ^ 64 - 2 ^ 47) as [ES EP] by done. rewrite wrap_small in E by lia. injection E as <-.
  split; [right; lia|]. unfold kernel_windows. rewrite leb_true, ltb_true by lia. cbn [andb]. f_equal. lia.
Qed.

Lemma kernel_windows_kva pa va : 0 <= pa -> pa_to_kva pa = Ok va -> canonical va /\ kernel_windows va = Some pa.
Proof.
  intros Hp E. unfold pa_to_kva in E. destruct (Z.ltb_spec pa KERNEL_VMEM_SIZE) as [Hlt|]; [|done]. cbn [assert_ mbind outcome_bind] in E.
  assert (KERNEL_VMEM_SIZE = 2 ^ 31 /\ KERNEL_VMEM_START = 2 ^ 64 - 2 ^ 31 /\ PMEM_VA_START = 2 ^ 64 - 2 ^ 47) as (ES & EK & EP) by done.
  rewrite wrap_small in E by lia. injection E as <-. split; [right; lia|].
  unfold kernel_windows. rewrite (ltb_false (KERNEL_VMEM_START + pa)) by lia. rewrite andb_false_r, leb_true by lia. f_equal. lia.
Qed.

Lemma low_pages b x : sys_ok (as_vma b) -> _nr_pages (descriptors (bm_pages b)) <= 2 ^ 19 -> available (descriptors (bm_pages b)) x -> x < 2 ^ 19.
Proof.
  intros Hs Hn Hx. destruct (pa_wf _ Hs) as [_ HC].
  assert (0 <= x < _nr_pages (descriptors (bm_pages b))); [|lia].
  apply HC. unfold available, type_at in Hx. cbn [as_vma pgalloc]. destruct (cells (descriptors (bm_pages b)) !! x); [eauto|done].
Qed.

(** C21: the boot code's page tables do what the address arithmetic of the
    kernel relies on.  On a machine of at most 2 GiB with sixteen free pages in
    a row, reinitialise_pgt returns true, and the processor then translates the
    physical-map window and the kernel window to physical memory and faults on
    every other address: what pa_to_vpa and pa_to_kva return is mapped to the
    physical address they were given.  A process made afterwards sees the same
    through its own root table. *)
Theorem boot_paging_correct (b : BootMemory A) :
  sys_ok (as_vma b) -> avail_run 4 (as_vma b) -> _nr_pages (descriptors (bm_pages b)) <= 2 ^ 19 ->
  exists b' template, reinitialise_pgt b = Ok (true, b') /\ sys_ok (as_vma b') /\ __template_pml4 b' = Some template /\
    (forall va, canonical va -> mmu (word (as_vma b')) (cr3 b') va = kernel_windows va) /\
    (forall pa va, 0 <= pa -> pa_to_vpa pa = Ok va -> mmu (word (as_vma b')) (cr3 b') va = Some pa) /\
    (forall pa va, 0 <= pa -> pa_to_kva pa = Ok va -> mmu (word (as_vma b')) (cr3 b') va = Some pa) /\
    (avail_pages 1 (as_vma b') ->
     exists s, (s ← VMA_new (bm_pages b') (bm_words b');
                install_default_kernel_mapping s (Some (fun i => word (as_vma b') (entry_addr template i)))) = Ok s /\
       forall va, canonical va -> mmu (word s) (_pgt_phys_base s) va = kernel_windows va).
Proof.
  intros Hs Hrun Hn. destruct (reinitialise_pgt_spec b Hs Hrun (fun x => low_pages b x Hs Hn)) as
    (q & b' & E & Hq0 & Hq1 & Hs' & Ec & Et & Hb & Hbl & _ & _).
  assert (0 <= q /\ q + 16 <= 2 ^ 19) as Hq by lia. exists b', (frame_va q). do 3 (split; [done|]).
  assert (forall p, 0 <= p < 2 ^ 20 -> below (p * 4096) = frame_va p) as Hbelow.
  { intros p Hp. unfold below, frame_va. unfold base_address. by rewrite page_base_mul by lia. }
  assert (forall i, 0 <= i < 512 -> word (as_vma b') (entry_addr (frame_va q) i) = boot_tables q 0 i) as Hroot.
  { intros i Hi. rewrite <- (Hb 0 i) by lia. do 2 f_equal. unfold frame_va. lia. }
  assert (forall va, canonical va -> mmu (word (as_vma b')) (cr3 b') va = kernel_windows va) as Hmmu.
  { intros va Hc. apply (mmu_windows _ q); [done|done|done|..]; rewrite Ec, Hbelow by lia.
    - by rewrite Hroot by lia.
    - by rewrite Hroot by lia.
    - intros N1 N2. rewrite Hroot by (apply Z.mod_pos_bound; lia). unfold boot_tables. cbn [Z.eqb]. by rewrite !eqb_false. }
  split; [exact Hmmu|]. split; [|split].
  - intros pa va Hp Ev. destruct (kernel_windows_vpa pa va Hp Ev) as [Hc <-]. by apply Hmmu.
  - intros pa va Hp Ev. destruct (kernel_windows_kva pa va Hp Ev) as [Hc <-]. by apply Hmmu.
  - intros Hav. destruct (new_space_root (bm_pages b') (bm_words b') (fun i => word (as_vma b') (entry_addr (frame_va q) i)) Hs' Hav)
      as (s & p & Es & Hp & Hpr & Eb & W1 & W2 & W3 & Wo). exists s. split; [exact Es|]. intros va Hc.
    assert (~ block q 4 p) as Hnb.
    { intros Hin. destruct (Hbl p Hin) as [_ Hty]. unfold available in Hp. congruence. }
    apply (mmu_windows _ q); [done| |done|..]; rewrite ?Eb, ?Hbelow by lia.
    + intros j i Hj Hi. rewrite Wo; [by apply Hb|]. unfold block in Hnb. unfold entry_addr, frame_va. lia.
    + rewrite W1. by rewrite Hroot by lia.
    + rewrite W2. by rewrite Hroot by lia.
    + intros N1 N2. apply W3; [apply Z.mod_pos_bound; lia|done|done].
Qed.
End paging.

(** The 256 MiB machine, its memory map as the boot loader gives it. *)
Lemma boot_paging_correct_witness : scan_memory_map MemoryManager_new [{| mmap_addr := 0; mmap_len := 2 ^ 28; mmap_type := 1 |}] = machine_mm /\
  exists (b' : BootMemory (list (option Z))), mmu (word (as_vma b')) (cr3 b') 0xFFFF800000001234 = Some 0x1234 /\
    mmu (word (as_vma b')) (cr3 b') 0xFFFFFFFF80100000 = Some 0x100000 /\ mmu (word (as_vma b')) (cr3 b') 0x400000 = None.
Proof.
  split; [reflexivity|]. destruct machine_sys as (pg & Hs & HN & Hav).
  destruct (boot_paging_correct {| bm_pages := pg; bm_words := ∅; cr3 := 0; __template_pml4 := None |}) as (b' & t & _ & _ & _ & Hm & _).
  - exact Hs.
  - exists 0x8000. split; [by exists 0x800|]. intros x Hx. apply Hav. unfold block in Hx. lia.
  - cbn [bm_pages]. rewrite HN. lia.
  - exists b'. rewrite !Hm; [done|left; lia|right; lia|right; lia].
Defined.
