(* ===== verification/Acpi.v ===== *)
(** * arch/x86/acpi/acpi.cpp: the tables of the firmware

    The root pointer is searched through the kernel window, the tables are read
    through the physical-map window; [mem] gives the bytes of physical memory.
    What the code looks for is the address of the I/O APIC in the multiple APIC
    description table.  The fields that are only logged are not read. *)
From S2P Require Import Prelude Define PageDesc PageAllocator Vma BootPaging.

Section acpi.
Context (mem : Z -> Z).

Definition read8 (va : Z) : outcome Z := pa ← in_bounds (kernel_windows va); Ok (mem pa).

(** A packed little-endian field of [n] bytes. *)
Fixpoint read_le (n : nat) (va : Z) : outcome Z :=
  match n with
  | O => Ok 0
  | S n => b ← read8 va; r ← read_le n (u64 (va + 1)); Ok (b + 256 * r)
  end.

Definition RSDP_SIGNATURE : Z := 0x2052545020445352.
Definition SIG32 (d c b a : Z) : Z := Z.lor (Z.lor (Z.lor d (Z.shiftl c 8)) (Z.shiftl b 16)) (Z.shiftl a 24).
Definition MADT_SIGNATURE : Z := SIG32 65 80 73 67.

(** The fields of the packed structures, by their offsets. *)
Definition rsdp_signature (p : Z) : outcome Z := read_le 8 p.
Definition rsdp_revision (p : Z) : outcome Z := read8 (u64 (p + 15)).
Definition rsdp_rsdt_address (p : Z) : outcome Z := read_le 4 (u64 (p + 16)).
Definition sizeof_RSDPDescriptor : nat := 20.
Definition sdt_signature (p : Z) : outcome Z := read_le 4 p.
Definition sdt_length (p : Z) : outcome Z := read_le 4 (u64 (p + 4)).
Definition sizeof_SDTHeader : Z := 36.
Definition rsdt_pointer (p i : Z) : outcome Z := read_le 4 (u64 (p + (36 + 4 * i))).
Definition madt_records (p : Z) : Z := u64 (p + 44).
Definition record_type (p : Z) : outcome Z := read8 p.
Definition record_length (p : Z) : outcome Z := read8 (u64 (p + 1)).
Definition ioapic_address (p : Z) : outcome Z := read_le 4 (u64 (p + 4)).

Fixpoint scan_loop (fuel : nat) (cur end_ : Z) : outcome (option Z) :=
  match fuel with
  | O => Fault OutOfFuel
  | S fuel =>
      if cur <? end_ then
        sig ← rsdp_signature cur;
        if sig =? RSDP_SIGNATURE then Ok (Some cur) else scan_loop fuel (u64 (cur + 16)) end_
      else Ok None
  end.

Definition scan_for_rsdp (start end_ : Z) : outcome (option Z) :=
  let cur := Z.land start (u64 (Z.lnot 0xf)) in
  scan_loop (S (Z.to_nat ((end_ - cur + 15) / 16))) cur end_.

Definition locate_rsdp : outcome (option Z) :=
  p ← pa_to_kva 0x40E;
  segment ← read_le 2 p;
  ebda ← pa_to_kva (Z.shiftl segment 4);
  ret ← scan_for_rsdp ebda (u64 (ebda + 0x400));
  match ret with
  | Some p => Ok (Some p)
  | None => s ← pa_to_kva 0x000e0000; e ← pa_to_kva 0x00100000; scan_for_rsdp s e
  end.

(** The sum of [n] bytes, in 8 bits. *)
Fixpoint checksum (n : nat) (va sum : Z) : outcome Z :=
  match n with
  | O => Ok sum
  | S n => b ← read8 va; checksum n (u64 (va + 1)) (u8 (sum + b))
  end.

Definition is_structure_valid (base : Z) (size : nat) : outcome bool := sum ← checksum size base 0; Ok (sum =? 0).

(** [__ioapic_base] may be set once. *)
Definition parse_madt_ioapic (rec base : Z) : outcome Z := _ ← assert_ (base =? 0); ioapic_address rec.

Fixpoint parse_records (fuel : nat) (rhs rhe base : Z) : outcome Z :=
  match fuel with
  | O => Fault OutOfFuel
  | S fuel =>
      if rhs <? rhe then
        t ← record_type rhs;
        base ← (if t =? 1 then parse_madt_ioapic rhs base else Ok base);
        len ← record_length rhs;
        parse_records fuel (u64 (rhs + len)) rhe base
      else Ok base
  end.

(** It always returns true; the result is the base. *)
Definition parse_madt (madt base : Z) : outcome Z :=
  len ← sdt_length madt;
  parse_records (S (Z.to_nat len)) (madt_records madt) (u64 (madt + len)) base.

(** One round of the loop over the tables. *)
Definition parse_table (ptr base : Z) : outcome Z :=
  hdr ← pa_to_vpa ptr;
  len ← sdt_length hdr;
  ok ← is_structure_valid hdr (Z.to_nat len);
  if negb ok then Ok base
  else
    sig ← sdt_signature hdr;
    if sig =? MADT_SIGNATURE then parse_madt hdr base else Ok base.

Fixpoint parse_tables (fuel : nat) (rsdt i n base : Z) : outcome Z :=
  match fuel with
  | O => Fault OutOfFuel
  | S fuel =>
      if i <? n then
        ptr ← rsdt_pointer rsdt i;
        base ← parse_table ptr base;
        parse_tables fuel rsdt (u32 (i + 1)) n base
      else Ok base
  end.

(** The results are the one of the function and [__ioapic_base]. *)
Definition acpi_parse (rsdp base : Z) : outcome (bool * Z) :=
  a ← rsdp_rsdt_address rsdp;
  rsdt ← pa_to_vpa a;
  if rsdt =? 0 then Ok (false, base)
  else
    len ← sdt_length rsdt;
    ok ← is_structure_valid rsdt (Z.to_nat len);
    if negb ok then Ok (false, base)
    else
      let n := u64 (len - sizeof_SDTHeader) / 4 in
      base ← parse_tables (S (Z.to_nat n)) rsdt 0 n base;
      Ok (true, base).

Definition acpi_init (base : Z) : outcome (bool * Z) :=
  rsdp ← locate_rsdp;
  match rsdp with
  | None => Ok (false, base)
  | Some rsdp =>
      ok ← is_structure_valid rsdp sizeof_RSDPDescriptor;
      if negb ok then Ok (false, base)
      else
        rev ← rsdp_revision rsdp;
        if 2 <? rev then Ok (false, base) else acpi_parse rsdp base
  end.
End acpi.
