(* ===== verification/AcpiTheorems.v ===== *)
(** * What is found in the tables of the firmware *)
From S2P Require Import Prelude Define PageDesc PageAllocator Vma Memory BootPaging BootPagingTheorems Acpi.

(** ** Reading what the firmware has laid out

    The structures of the firmware are written as lists of bytes; [loads va bs]
    says that the kernel reads [bs] from address [va] on. *)

Fixpoint le_bytes (n : nat) (v : Z) : list Z :=
  match n with O => [] | S n => v mod 256 :: le_bytes n (v / 256) end.

Definition le_value (bs : list Z) : Z := foldr (fun b r => b + 256 * r) 0 bs.

Lemma length_le_bytes n v : length (le_bytes n v) = n.
Proof. revert v. induction n as [|n IH]; intros v; [done|]. cbn. by rewrite IH. Qed.
#[export] Hint Rewrite length_le_bytes : lens.

Lemma le_value_bytes n v : 0 <= v < 256 ^ Z.of_nat n -> le_value (le_bytes n v) = v.
Proof.
  revert v. induction n as [|n IH]; intros v Hv; [cbn in *; lia|].
  rewrite Nat2Z.inj_succ, Z.pow_succ_r in Hv by lia. cbn [le_bytes le_value foldr].
  fold (le_value (le_bytes n (v / 256))). rewrite IH; [pose proof (Z.div_mod v 256); lia|].
  split; [apply Z.div_pos; lia|apply Z.div_lt_upper_bound; lia].
Qed.

Lemma le_value_inj (l1 l2 : list Z) : Forall is_byte l1 -> Forall is_byte l2 -> length l1 = length l2 ->
  le_value l1 = le_value l2 -> l1 = l2.
Proof.
  intros H1. revert l2. induction H1 as [|b1 l1 Hb1 _ IH]; intros [|b2 l2] H2 Hl E; [done..|].
  apply Forall_cons in H2 as [Hb2 H2]. unfold is_byte in *. cbn in E, Hl. fold (le_value l1) in E. fold (le_value l2) in E.
  assert (b1 = b2) as -> by lia. f_equal. apply IH; [done|lia..].
Qed.

Definition byte_sum (bs : list Z) : Z := foldr Z.add 0 bs.

Section reading.
Context (mem : Z -> Z).

(** The bytes [bs] are in physical memory from [pa] on. *)
Definition stored (pa : Z) (bs : list Z) : Prop := forall i b, bs !! i = Some b -> mem (pa + Z.of_nat i) = b.

Definition loads (va : Z) (bs : list Z) : Prop :=
  0 <= va /\ va + Z.of_nat (length bs) < 2 ^ 64 /\
  forall i b, bs !! i = Some b -> read8 mem (va + Z.of_nat i) = Ok b.

Lemma stored_app pa xs ys : stored pa (xs ++ ys) <-> stored pa xs /\ stored (pa + Z.of_nat (length xs)) ys.
Proof.
  unfold stored. split.
  - intros Hs. split; intros i b Hi.
    + apply Hs. by apply lookup_app_l_Some.
    + rewrite <- (Hs (length xs + i)%nat b); [f_equal; lia|]. rewrite lookup_app_r by lia. rewrite <- Hi. f_equal. lia.
  - intros [Hx Hy] i b Hi. apply lookup_app_Some in Hi as [Hi|[Hl Hi]]; [by apply Hx|].
    rewrite <- (Hy _ _ Hi). f_equal. lia.
Qed.

Lemma loads_app va xs ys : loads va (xs ++ ys) -> loads va xs /\ loads (va + Z.of_nat (length xs)) ys.
Proof.
  unfold loads. rewrite length_app, Nat2Z.inj_add. intros (H0 & H1 & Hs). split.
  - split_and!; [lia..|]. intros i b Hi. apply Hs. by apply lookup_app_l_Some.
  - split_and!; [lia..|]. intros i b Hi. rewrite <- (Hs (length xs + i)%nat b); [f_equal; lia|].
    rewrite lookup_app_r by lia. rewrite <- Hi. f_equal. lia.
Qed.

Lemma loads_cons va b bs : loads va (b :: bs) -> read8 mem va = Ok b /\ (bs <> [] -> u64 (va + 1) = va + 1) /\ loads (va + 1) bs.
Proof.
  intros Hl. apply (loads_app va [b] bs) in Hl as [(H0 & H1 & Hb) Hs]. cbn in *. split_and!; [|intros Hne|done].
  - rewrite <- (Hb 0%nat b) by done. f_equal. lia.
  - destruct Hs as (_ & Hs & _). apply wrap_small. destruct bs; [done|]. cbn in Hs. lia.
Qed.

Lemma read_le_spec va bs : loads va bs -> read_le mem (length bs) va = Ok (le_value bs).
Proof.
  revert va. induction bs as [|b bs IH]; intros va Hl; [done|]. apply loads_cons in Hl as (Hb & Hn & Hl).
  cbn [length read_le le_value foldr]. step_to Hb.
  destruct bs as [|b' bs]; [done|]. rewrite Hn by done. step_to (IH _ Hl). done.
Qed.

Lemma read_le_bytes n va v : 0 <= v < 256 ^ Z.of_nat n -> loads va (le_bytes n v) -> read_le mem n va = Ok v.
Proof.
  intros Hv Hl. apply read_le_spec in Hl. rewrite length_le_bytes, le_value_bytes in Hl by done. done.
Qed.

Lemma checksum_spec va bs s : loads va bs -> 0 <= s < 256 -> checksum mem (length bs) va s = Ok ((s + byte_sum bs) mod 256).
Proof.
  revert va s. induction bs as [|b bs IH]; intros va s Hl Hs; cbn [length checksum byte_sum foldr].
  { rewrite Z.add_0_r, Z.mod_small by lia. done. }
  apply loads_cons in Hl as (Hb & Hn & Hl). step_to Hb.
  assert (u8 (s + b) = (s + b) mod 256) as Es by done.
  assert ((s + (b + foldr Z.add 0 bs)) mod 256 = ((s + b) mod 256 + byte_sum bs) mod 256) as ->.
  { rewrite Z.add_mod_idemp_l by lia. f_equal. unfold byte_sum. lia. }
  destruct bs as [|b' bs].
  { cbn [length checksum byte_sum foldr]. rewrite Es, Z.add_0_r, Z.mod_mod by lia. done. }
  rewrite Hn by done. rewrite Es. apply IH; [done|]. apply Z.mod_pos_bound. lia.
Qed.

Lemma is_structure_valid_spec va bs : loads va bs -> is_structure_valid mem va (length bs) = Ok (byte_sum bs mod 256 =? 0).
Proof. intros Hl. unfold is_structure_valid. step_to (checksum_spec _ _ 0 Hl ltac:(lia)). by rewrite Z.add_0_l. Qed.

(** Through the window of physical memory. *)
Lemma stored_loads pa bs : 0 <= pa -> bs <> [] -> pa + Z.of_nat (length bs) <= 2 ^ 32 -> stored pa bs ->
  exists va, pa_to_vpa pa = Ok va /\ loads va bs.
Proof.
  intros Hp Hne Hl Hs. assert (PMEM_VA_SIZE = 2 ^ 32 /\ PMEM_VA_START = 2 ^ 64 - 2 ^ 47) as [ES EP] by done.
  assert (0 < length bs)%nat by (destruct bs; [done|cbn; lia]).
  exists (PMEM_VA_START + pa). split; [apply pa_to_vpa_Ok; lia|]. split_and!; [lia..|].
  intros i b Hi. pose proof (lookup_lt_Some _ _ _ Hi). unfold read8.
  destruct (kernel_windows_vpa (pa + Z.of_nat i) (PMEM_VA_START + pa + Z.of_nat i)) as [_ Hw]; [lia| |].
  { rewrite pa_to_vpa_Ok by lia. f_equal. lia. }
  rewrite Hw. cbn [in_bounds mbind outcome_bind]. f_equal. by apply Hs.
Qed.

(** Through the kernel window. *)
Lemma stored_loads_kva pa bs : 0 <= pa -> pa + Z.of_nat (length bs) < 2 ^ 31 -> stored pa bs -> loads (KERNEL_VMEM_START + pa) bs.
Proof.
  intros Hp Hl Hs. assert (KERNEL_VMEM_SIZE = 2 ^ 31 /\ KERNEL_VMEM_START = 2 ^ 64 - 2 ^ 31) as (ES & EK) by done.
  split_and!; [lia..|]. intros i b Hi. pose proof (lookup_lt_Some _ _ _ Hi). unfold read8.
  destruct (kernel_windows_kva (pa + Z.of_nat i) (KERNEL_VMEM_START + pa + Z.of_nat i)) as [_ Hw]; [lia| |].
  { unfold pa_to_kva. rewrite ltb_true by lia. cbn [assert_ mbind outcome_bind]. f_equal. rewrite wrap_small by lia. lia. }
  rewrite Hw. cbn [in_bounds mbind outcome_bind]. f_equal. by apply Hs.
Qed.
End reading.

(** ** The layout of the tables, as the firmware writes them *)
Inductive record := IoApic (id reserved address gsi : Z) | OtherRecord (type : Z) (data : list Z).

Definition record_bytes (r : record) : list Z :=
  match r with
  | IoApic id reserved address gsi => [1; 12; id; reserved] ++ le_bytes 4 address ++ le_bytes 4 gsi
  | OtherRecord type data => [type; 2 + Z.of_nat (length data)] ++ data
  end.

Definition record_ok (r : record) : Prop :=
  match r with IoApic _ _ address _ => 0 <= address < 2 ^ 32 | OtherRecord type _ => type <> 1 end.

Inductive contents := Madt (lca flags : Z) (records : list record) | OtherTable (signature : Z) (body : list Z).

Definition signature (c : contents) : Z := match c with Madt _ _ _ => 0x43495041 | OtherTable s _ => s end.

Definition body (c : contents) : list Z :=
  match c with
  | Madt lca flags rs => le_bytes 4 lca ++ le_bytes 4 flags ++ mjoin (record_bytes <$> rs)
  | OtherTable _ bs => bs
  end.

(** A table with what its header has after the length. *)
Definition table_bytes (sig : Z) (rest bs : list Z) : list Z :=
  le_bytes 4 sig ++ le_bytes 4 (36 + Z.of_nat (length bs)) ++ rest ++ bs.

Record table := { t_address : Z; t_rest : list Z; t_contents : contents }.

Definition bytes_of (t : table) : list Z := table_bytes (signature (t_contents t)) (t_rest t) (body (t_contents t)).

Definition contents_ok (c : contents) : Prop :=
  match c with Madt _ _ rs => Forall record_ok rs | OtherTable s _ => 0 <= s < 2 ^ 32 /\ s <> 0x43495041 end.

Record Firmware := {
  rsdp_oem : list Z; (* the checksum and the name of the maker *)
  revision : Z;
  root_address : Z;
  root_signature : Z;
  root_rest : list Z;
  tables : list table
}.

Definition RSD_PTR : list Z := [0x52; 0x53; 0x44; 0x20; 0x50; 0x54; 0x52; 0x20].
Definition rsdp_bytes (fw : Firmware) : list Z := RSD_PTR ++ rsdp_oem fw ++ [revision fw] ++ le_bytes 4 (root_address fw).
Definition root_bytes (fw : Firmware) : list Z :=
  table_bytes (root_signature fw) (root_rest fw) (mjoin (le_bytes 4 ∘ t_address <$> tables fw)).

Definition sum_ok (bs : list Z) : bool := byte_sum bs mod 256 =? 0.

Section layout.
Context (mem : Z -> Z).

Definition placed (pa : Z) (bs : list Z) : Prop := 0 <= pa /\ pa + Z.of_nat (length bs) < 2 ^ 32 /\ stored mem pa bs.

Record laid_out (p : Z) (fw : Firmware) : Prop := {
  lo_rsdp : stored mem p (rsdp_bytes fw);
  lo_oem : length (rsdp_oem fw) = 7%nat;
  lo_root : placed (root_address fw) (root_bytes fw);
  lo_rest : length (root_rest fw) = 28%nat;
  lo_tables : Forall (fun t => placed (t_address t) (bytes_of t) /\ length (t_rest t) = 28%nat /\ contents_ok (t_contents t)) (tables fw)
}.

(** Where the root pointer is looked for: every 16 bytes of the first kilobyte
    of the extended BIOS data area and of the BIOS area. *)
Fixpoint paragraphs (n : nat) (pa : Z) : list Z :=
  match n with O => [] | S n => pa :: paragraphs n (pa + 16) end.

Definition ebda : Z := (mem 0x40e + 256 * mem 0x40f) * 16.

Definition signed (pa : Z) : Prop := ((fun i => mem (pa + i)) <$> seqZ 0 8) = RSD_PTR.
#[export] Instance signed_dec pa : Decision (signed pa).
Proof. unfold signed. apply _. Defined.

Definition first_signed (l : list Z) : option Z := head (filter signed l).

Definition root_pointer : option Z := first_signed (paragraphs 64 ebda ++ paragraphs (Z.to_nat 0x2000) 0xe0000).
End layout.

(** ** The I/O APIC of the valid tables; only one may be named *)
Definition record_ioapics (r : record) : list Z := match r with IoApic _ _ a _ => [a] | _ => [] end.
Definition table_ioapics (t : table) : list Z :=
  if sum_ok (bytes_of t) then match t_contents t with Madt _ _ rs => mjoin (record_ioapics <$> rs) | _ => [] end else [].
Definition ioapics (fw : Firmware) : list Z := mjoin (table_ioapics <$> tables fw).

Fixpoint enter (base : Z) (l : list Z) : outcome Z :=
  match l with [] => Ok base | a :: l => if base =? 0 then enter a l else Fault AssertionFailure end.

Definition found (fw : Firmware) : outcome (bool * Z) :=
  if sum_ok (rsdp_bytes fw) && (revision fw <=? 2) && sum_ok (root_bytes fw) then
    base ← enter 0 (ioapics fw); Ok (true, base)
  else Ok (false, 0).

Lemma mjoin_cons {A} (l : list A) ls : mjoin (l :: ls) = l ++ mjoin ls.
Proof. done. Qed.

Lemma enter_app base l1 l2 : enter base (l1 ++ l2) = (base ← enter base l1; enter base l2).
Proof. revert base. induction l1 as [|a l1 IH]; intros base; [done|]. cbn. destruct (base =? 0); [apply IH|done]. Qed.

Section parsing.
Context (mem : Z -> Z).

Lemma parse_record r rhs bs : loads mem rhs (record_bytes r ++ bs) -> record_ok r ->
  exists t, record_type mem rhs = Ok t /\
    (forall base, (if t =? 1 then parse_madt_ioapic mem rhs base else Ok base) = enter base (record_ioapics r)) /\
    record_length mem rhs = Ok (Z.of_nat (length (record_bytes r))).
Proof.
  intros Hl Hr. destruct r as [id reserved a gsi|t data].
  - exists 1. cbn [record_bytes app] in Hl. apply loads_cons in Hl as (H0 & E0 & Hl). apply loads_cons in Hl as (H1 & _ & Hl).
    apply loads_cons in Hl as (_ & _ & Hl). apply loads_cons in Hl as (_ & _ & Hl).
    rewrite <- !app_assoc in Hl. apply loads_app in Hl as [Ha _].
    split; [done|]. unfold record_length. rewrite E0 by done. split; [|done].
    intros base. change (1 =? 1) with true. cbn [record_ioapics enter]. unfold parse_madt_ioapic, assert_, ioapic_address. destruct (base =? 0); [|done]. cbn [mbind outcome_bind].
    destruct Ha as (Hr0 & Hr1 & Hb). rewrite length_le_bytes in Hr1. wraps.
    replace (rhs + 4) with (rhs + 1 + 1 + 1 + 1) by lia. rewrite (read_le_bytes mem 4 _ a); [done|cbn in Hr; lia|].
    split_and!; [lia| |done]. rewrite length_le_bytes. lia.
  - exists t. cbn [record_bytes app] in Hl. apply loads_cons in Hl as (H0 & E0 & Hl). apply loads_cons in Hl as (H1 & _ & Hl).
    split; [done|]. unfold record_length. rewrite E0 by done. split.
    + intros base. cbn in Hr. by rewrite eqb_false.
    + rewrite H1. f_equal. cbn [record_bytes app length]. lia.
Qed.

Lemma record_nonempty r : (2 <= length (record_bytes r))%nat.
Proof. destruct r; cbn; lia. Qed.

Lemma parse_records_spec rs : forall fuel rhs base, (length rs < fuel)%nat -> Forall record_ok rs ->
  loads mem rhs (mjoin (record_bytes <$> rs)) ->
  parse_records mem fuel rhs (rhs + Z.of_nat (length (mjoin (record_bytes <$> rs)))) base = enter base (mjoin (record_ioapics <$> rs)).
Proof.
  induction rs as [|r rs IH]; intros fuel rhs base Hf Hok Hl; (destruct fuel as [|fuel]; [cbn in *; lia|]).
  { cbn. by rewrite ltb_false by lia. }
  apply Forall_cons in Hok as [Hr Hok]. rewrite !fmap_cons, !mjoin_cons in *.
  destruct (parse_record r rhs _ Hl Hr) as (t & Ht & Hi & Hlen). pose proof (record_nonempty r).
  pose proof (loads_app _ _ _ _ Hl) as [_ Hl']. rewrite length_app, Nat2Z.inj_add, enter_app.
  cbn [parse_records]. rewrite ltb_true by lia. step_to Ht. rewrite Hi.
  destruct (enter base (record_ioapics r)) as [base'|]; [|done]. cbn [mbind outcome_bind]. step_to Hlen.
  rewrite wrap_small by (destruct Hl' as (? & ? & _); lia). rewrite Z.add_assoc. apply IH; [cbn in Hf; lia|done..].
Qed.

Lemma length_table sig rest bs : length rest = 28%nat -> Z.of_nat (length (table_bytes sig rest bs)) = 36 + Z.of_nat (length bs).
Proof. intros. unfold table_bytes. lens. lia. Qed.

(** What is read of a table: its signature, its length, its body. *)
Lemma table_header va sig rest bs : length rest = 28%nat -> 36 + Z.of_nat (length bs) < 2 ^ 32 ->
  loads mem va (table_bytes sig rest bs) ->
  (0 <= sig < 2 ^ 32 -> sdt_signature mem va = Ok sig) /\ sdt_length mem va = Ok (36 + Z.of_nat (length bs)) /\ loads mem (va + 36) bs.
Proof.
  intros Hr Hlen Hl. pose proof Hl as (H0 & H1 & _). rewrite length_table in H1 by done.
  apply loads_app in Hl as [Hsig Hl]. apply loads_app in Hl as [Hle Hl]. apply loads_app in Hl as [_ Hl].
  rewrite !length_le_bytes in *. rewrite Hr in Hl. split_and!.
  - intros. by apply read_le_bytes.
  - unfold sdt_length. rewrite wrap_small by lia. apply read_le_bytes; [lia|done].
  - replace (va + 36) with (va + Z.of_nat 4 + Z.of_nat 4 + Z.of_nat 28) by lia. done.
Qed.

Lemma signature_range c : contents_ok c -> 0 <= signature c < 2 ^ 32.
Proof. destruct c; cbn [contents_ok signature]; [done|by intros []]. Qed.

Lemma records_count rs : (length rs <= length (mjoin (record_bytes <$> rs)))%nat.
Proof.
  induction rs as [|r rs IH]; [done|]. rewrite fmap_cons, mjoin_cons, length_app, length_cons. pose proof (record_nonempty r). lia.
Qed.

Lemma parse_table_spec t base : placed mem (t_address t) (bytes_of t) -> length (t_rest t) = 28%nat -> contents_ok (t_contents t) ->
  parse_table mem (t_address t) base = enter base (table_ioapics t).
Proof.
  intros (Hp & Hend & Hst) Hr Hok. unfold parse_table.
  assert (Z.of_nat (length (bytes_of t)) = 36 + Z.of_nat (length (body (t_contents t)))) as Hlen by by apply length_table.
  destruct (stored_loads mem (t_address t) (bytes_of t)) as (va & Hva & Hl); [done|by intros E; rewrite E in Hlen; cbn in Hlen; lia|lia|done|].
  step_to Hva. destruct (table_header va _ _ (body (t_contents t)) Hr ltac:(lia) Hl) as (Hsig & Hln & Hb).
  step_to Hln. rewrite <- Hlen, Nat2Z.id. step_to (is_structure_valid_spec mem va _ Hl).
  unfold table_ioapics. change (byte_sum (bytes_of t) mod 256 =? 0) with (sum_ok (bytes_of t)). destruct (sum_ok (bytes_of t)); [|done].
  cbn [negb]. step_to (Hsig (signature_range _ Hok)). change MADT_SIGNATURE with 0x43495041.
  destruct (t_contents t) as [lca flags rs|sig bs]; cbn [signature]; [|by rewrite eqb_false by apply Hok].
  rewrite Z.eqb_refl. unfold parse_madt. step_to Hln. cbn [body] in *.
  destruct Hl as (H0 & H1 & _). rewrite Hlen in H1. unfold madt_records. rewrite !wrap_small by (revert H1; len).
  apply loads_app in Hb as [_ Hb]. apply loads_app in Hb as [_ Hb]. rewrite !length_le_bytes in Hb.
  replace (va + 36 + Z.of_nat 4 + Z.of_nat 4) with (va + 44) in Hb by lia.
  rewrite <- (parse_records_spec rs (S (Z.to_nat (36 + Z.of_nat (length (le_bytes 4 lca ++ le_bytes 4 flags ++ mjoin (record_bytes <$> rs)))))) (va + 44)); [|pose proof (records_count rs); lens; lia|done..].
  f_equal. lens. lia.
Qed.
(** ** The pointers of the root table *)
Notation pointers ts := (mjoin (le_bytes 4 ∘ t_address <$> ts)).

Lemma length_pointers (ts : list table) : length (pointers ts) = (4 * length ts)%nat.
Proof. induction ts as [|t ts IH]; [done|]. rewrite fmap_cons, mjoin_cons. lens. cbn [compose]. lens. lia. Qed.

Definition table_ok (t : table) : Prop :=
  placed mem (t_address t) (bytes_of t) /\ length (t_rest t) = 28%nat /\ contents_ok (t_contents t).

Lemma parse_tables_spec rsdt ts : forall fuel i base, (length ts < fuel)%nat -> 0 <= i -> rsdt + 36 + 4 * (i + Z.of_nat (length ts)) < 2 ^ 64 ->
  i + Z.of_nat (length ts) < 2 ^ 30 -> 0 <= rsdt -> Forall table_ok ts -> loads mem (rsdt + 36 + 4 * i) (pointers ts) ->
  parse_tables mem fuel rsdt i (i + Z.of_nat (length ts)) base = enter base (mjoin (table_ioapics <$> ts)).
Proof.
  induction ts as [|t ts IH]; intros fuel i base Hf Hi Hend Hn Hr Hok Hl; (destruct fuel as [|fuel]; [cbn in *; lia|]).
  { cbn. by rewrite ltb_false by lia. }
  rewrite fmap_cons, mjoin_cons, enter_app in *. cbn [length] in *. apply Forall_cons in Hok as [(Ht & Hrest & Hc) Hok].
  apply loads_app in Hl as [Hptr Hl]. cbn [parse_tables]. rewrite ltb_true by lia.
  assert (rsdt_pointer mem rsdt i = Ok (t_address t)) as Hp.
  { unfold rsdt_pointer. rewrite wrap_small by lia. apply read_le_bytes; [destruct Ht; lia|].
    replace (rsdt + (36 + 4 * i)) with (rsdt + 36 + 4 * i) by lia. done. }
  step_to Hp. rewrite parse_table_spec by done. destruct (enter base (table_ioapics t)) as [base'|]; [|done]. cbn [mbind outcome_bind].
  rewrite wrap_small by lia. replace (i + Z.of_nat (S (length ts))) with (i + 1 + Z.of_nat (length ts)) by lia.
  apply IH; [lia..|done|]. revert Hl. cbn [compose]. rewrite length_le_bytes. intros Hl.
  replace (rsdt + 36 + 4 * (i + 1)) with (rsdt + 36 + 4 * i + Z.of_nat 4) by lia. done.
Qed.

Lemma acpi_parse_spec rsdp fw : laid_out mem rsdp fw -> loads mem (KERNEL_VMEM_START + rsdp) (rsdp_bytes fw) ->
  acpi_parse mem (KERNEL_VMEM_START + rsdp) 0 =
  if sum_ok (root_bytes fw) then base ← enter 0 (ioapics fw); Ok (true, base) else Ok (false, 0).
Proof.
  intros [_ Hoem Hroot Hrest Hts] Hl. unfold acpi_parse. destruct Hroot as (Hp & Hend & Hst).
  pose proof Hl as (H0 & H1 & _). apply loads_app in Hl as [_ Hl]. apply loads_app in Hl as [_ Hl]. apply loads_app in Hl as [_ Hl].
  assert (rsdp_rsdt_address mem (KERNEL_VMEM_START + rsdp) = Ok (root_address fw)) as Ea.
  { unfold rsdp_rsdt_address. unfold rsdp_bytes in H1. revert H1. lens. rewrite Hoem. cbn [length RSD_PTR]. intros H1. rewrite wrap_small by lia.
    apply read_le_bytes; [lia|]. rewrite Hoem in Hl. cbn [length RSD_PTR] in Hl.
    replace (KERNEL_VMEM_START + rsdp + 16) with (KERNEL_VMEM_START + rsdp + Z.of_nat 8 + Z.of_nat 7 + Z.of_nat 1) by lia. done. }
  step_to Ea. pose proof (length_table (root_signature fw) (root_rest fw) (pointers (tables fw)) Hrest) as Hlen.
  change (table_bytes _ _ _) with (root_bytes fw) in Hlen. rewrite length_pointers in Hlen.
  destruct (stored_loads mem (root_address fw) (root_bytes fw)) as (va & Hva & Hv); [done|by intros E; rewrite E in Hlen; cbn in Hlen; lia|lia|done|].
  step_to Hva. rewrite pa_to_vpa_Ok in Hva by (unfold PMEM_VA_SIZE, PMEM_VA_END, PMEM_VA_START; lia). injection Hva as Hva.
  assert (PMEM_VA_START = 2 ^ 64 - 2 ^ 47) as EP by done. rewrite eqb_false by lia.
  destruct (table_header va _ _ (pointers (tables fw)) Hrest ltac:(rewrite length_pointers; lia) Hv) as (_ & Hln & Hb).
  rewrite length_pointers in Hln. step_to Hln. rewrite <- Hlen, Nat2Z.id. step_to (is_structure_valid_spec mem va _ Hv).
  change (byte_sum (root_bytes fw) mod 256 =? 0) with (sum_ok (root_bytes fw)). destruct (sum_ok (root_bytes fw)); [|done]. cbn [negb].
  assert (u64 (Z.of_nat (length (root_bytes fw)) - sizeof_SDTHeader) / 4 = 0 + Z.of_nat (length (tables fw))) as ->.
  { unfold sizeof_SDTHeader. rewrite wrap_small by lia. symmetry. apply Z.div_unique_exact; lia. }
  by rewrite parse_tables_spec by (rewrite ?Z.mul_0_r, ?Z.add_0_r; first [done|lia]).
Qed.

(** ** The search *)
Hypothesis bytes : forall a, 0 <= mem a < 256.

Lemma stored_bytes_of pa n : stored mem pa ((fun i => mem (pa + i)) <$> seqZ 0 (Z.of_nat n)).
Proof.
  intros i b. rewrite list_lookup_fmap. intros (j & [-> Hj]%lookup_seqZ & ->)%fmap_Some. done.
Qed.

Lemma length_bytes_of pa n : length ((fun i => mem (pa + i)) <$> seqZ 0 (Z.of_nat n)) = n.
Proof. rewrite length_fmap, length_seqZ. lia. Qed.

Lemma read_window pa n : 0 <= pa -> pa + Z.of_nat n < 2 ^ 31 ->
  read_le mem n (KERNEL_VMEM_START + pa) = Ok (le_value ((fun i => mem (pa + i)) <$> seqZ 0 (Z.of_nat n))).
Proof.
  intros Hp Hn. rewrite <- (length_bytes_of pa n) at 1. apply read_le_spec, stored_loads_kva; [done| |apply stored_bytes_of].
  rewrite length_bytes_of. lia.
Qed.

Lemma signature_spec pa : 0 <= pa -> pa + 8 < 2 ^ 31 ->
  exists sig, rsdp_signature mem (KERNEL_VMEM_START + pa) = Ok sig /\ (sig =? RSDP_SIGNATURE) = bool_decide (signed mem pa).
Proof.
  intros Hp Hn. eexists. split; [by apply (read_window pa 8)|]. change RSDP_SIGNATURE with (le_value RSD_PTR).
  change (Z.of_nat 8) with 8. case_bool_decide as E; unfold signed in E; [rewrite E; apply Z.eqb_refl|]. apply eqb_false. contradict E.
  apply le_value_inj; [..|exact (length_bytes_of pa 8)|done].
  - apply Forall_fmap, Forall_forall. intros i _. apply bytes.
  - unfold RSD_PTR. repeat first [apply Forall_nil_2 | apply Forall_cons_2]; unfold is_byte; lia.
Qed.

Lemma scan_loop_spec n : forall fuel pa, (n < fuel)%nat -> 0 <= pa -> pa + 16 * Z.of_nat n + 8 < 2 ^ 31 ->
  scan_loop mem fuel (KERNEL_VMEM_START + pa) (KERNEL_VMEM_START + pa + 16 * Z.of_nat n) =
  Ok (Z.add KERNEL_VMEM_START <$> first_signed mem (paragraphs n pa)).
Proof.
  induction n as [|n IH]; intros fuel pa Hf Hp Hn; (destruct fuel as [|fuel]; [lia|]); cbn [scan_loop paragraphs first_signed].
  { by rewrite ltb_false by lia. }
  rewrite ltb_true by lia. destruct (signature_spec pa) as (sig & Hs & E); [lia..|]. step_to Hs. rewrite E.
  unfold first_signed. rewrite filter_cons. case_bool_decide as Hd; [by rewrite decide_True|]. rewrite decide_False by done.
  assert (KERNEL_VMEM_START = 2 ^ 64 - 2 ^ 31) as EK by done. rewrite wrap_small by lia.
  replace (KERNEL_VMEM_START + pa + 16) with (KERNEL_VMEM_START + (pa + 16)) by lia.
  replace (KERNEL_VMEM_START + pa + 16 * Z.of_nat (S n)) with (KERNEL_VMEM_START + (pa + 16) + 16 * Z.of_nat n) by lia.
  apply IH; lia.
Qed.

Lemma scan_spec n pa : 0 <= pa -> pa mod 16 = 0 -> pa + 16 * Z.of_nat n + 8 < 2 ^ 31 ->
  scan_for_rsdp mem (KERNEL_VMEM_START + pa) (KERNEL_VMEM_START + pa + 16 * Z.of_nat n) =
  Ok (Z.add KERNEL_VMEM_START <$> first_signed mem (paragraphs n pa)).
Proof.
  intros Hp Ha Hn. unfold scan_for_rsdp. assert (KERNEL_VMEM_START = 2 ^ 64 - 2 ^ 31) as EK by done.
  change (u64 (Z.lnot 0xf)) with (Z.ldiff (Z.ones 64) (Z.ones 4)).
  assert (Z.land (KERNEL_VMEM_START + pa) (Z.ldiff (Z.ones 64) (Z.ones 4)) = KERNEL_VMEM_START + pa) as ->.
  { assert (forall x, Z.land x (Z.ldiff (Z.ones 64) (Z.ones 4)) = Z.ldiff (Z.land x (Z.ones 64)) (Z.ones 4)) as ->.
    { intros x. apply Z.bits_inj'. intros i _. rewrite !Z.ldiff_spec, !Z.land_spec, Z.ldiff_spec. by rewrite andb_assoc. }
    rewrite Z.land_ones, Z.mod_small, Z.ldiff_ones_r, Z.shiftr_div_pow2, Z.shiftl_mul_pow2 by lia. change (2 ^ 4) with 16.
    assert ((KERNEL_VMEM_START + pa) mod 16 = 0) as Em; [|pose proof (Z.div_mod (KERNEL_VMEM_START + pa) 16); lia].
    by rewrite Z.add_mod, Ha by lia. }
  apply scan_loop_spec; [|lia..].
  assert (Z.of_nat n <= (KERNEL_VMEM_START + pa + 16 * Z.of_nat n - (KERNEL_VMEM_START + pa) + 15) / 16); [|lia].
  apply Z.div_le_lower_bound; lia.
Qed.
(** [root_pointer] is what [locate_rsdp] returns, by its address in the kernel
    window. *)
Lemma ebda_range : 0 <= ebda mem <= 16 * 65535 /\ ebda mem mod 16 = 0.
Proof. unfold ebda. split; [|apply Z.mod_mul; lia]. pose proof (bytes 0x40e). pose proof (bytes 0x40f). lia. Qed.

Lemma pa_to_kva_Ok pa : 0 <= pa < 2 ^ 31 -> pa_to_kva pa = Ok (KERNEL_VMEM_START + pa).
Proof.
  intros Hp. assert (KERNEL_VMEM_SIZE = 2 ^ 31 /\ KERNEL_VMEM_START = 2 ^ 64 - 2 ^ 31) as (ES & EK) by done.
  unfold pa_to_kva. rewrite ltb_true by lia. cbn [assert_ mbind outcome_bind]. by rewrite wrap_small by lia.
Qed.

Lemma first_signed_app l1 l2 :
  first_signed mem (l1 ++ l2) = match first_signed mem l1 with Some p => Some p | None => first_signed mem l2 end.
Proof. unfold first_signed. by rewrite filter_app, head_app. Qed.

Lemma scan_bios : scan_for_rsdp mem (KERNEL_VMEM_START + 0xe0000) (KERNEL_VMEM_START + 0x100000) =
  Ok (Z.add KERNEL_VMEM_START <$> first_signed mem (paragraphs (Z.to_nat 0x2000) 0xe0000)).
Proof.
  rewrite <- scan_spec by (rewrite ?Z2Nat.id; done). by rewrite Z2Nat.id by lia.
Qed.

Lemma locate_spec : locate_rsdp mem = Ok (Z.add KERNEL_VMEM_START <$> root_pointer mem).
Proof.
  pose proof ebda_range as [He Hm]. assert (KERNEL_VMEM_START = 2 ^ 64 - 2 ^ 31) as EK by done. unfold locate_rsdp.
  step_to (pa_to_kva_Ok 0x40e ltac:(lia)). step_to (read_window 0x40e 2 ltac:(lia) ltac:(lia)).
  assert (Z.shiftl (le_value ((fun i => mem (0x40e + i)) <$> seqZ 0 (Z.of_nat 2))) 4 = ebda mem) as ->.
  { rewrite Z.shiftl_mul_pow2 by lia. change (seqZ 0 (Z.of_nat 2)) with [0; 1]. unfold ebda, le_value. cbn [foldr fmap list_fmap].
    change (0x40e + 0) with 0x40e. change (0x40e + 1) with 0x40f. change (2 ^ 4) with 16. lia. }
  step_to (pa_to_kva_Ok (ebda mem) ltac:(lia)). rewrite wrap_small by lia.
  step_to (scan_spec 64 (ebda mem) ltac:(lia) Hm ltac:(lia)).
  unfold root_pointer. rewrite first_signed_app. destruct (first_signed mem (paragraphs 64 (ebda mem))) as [p|]; [reflexivity|].
  cbn [fmap option_fmap option_map].
  step_to (pa_to_kva_Ok 0xe0000 ltac:(lia)). step_to (pa_to_kva_Ok 0x100000 ltac:(lia)).
  exact scan_bios.
Qed.

Lemma paragraphs_range n pa p : p ∈ paragraphs n pa -> pa <= p < pa + 16 * Z.of_nat n.
Proof.
  revert pa. induction n as [|n IH]; intros pa; cbn [paragraphs]; [by intros ?%elem_of_nil|].
  intros [->|Hp%IH]%elem_of_cons; lia.
Qed.

Lemma root_pointer_range p : root_pointer mem = Some p -> 0 <= p < 2 ^ 21 /\ signed mem p.
Proof.
  intros E. apply head_Some_elem_of, list_elem_of_filter in E as [Hs E]. split; [|done]. pose proof ebda_range.
  apply elem_of_app in E as [E|E]; apply paragraphs_range in E; lia.
Qed.

Lemma acpi_init_spec p fw : root_pointer mem = Some p -> laid_out mem p fw -> acpi_init mem 0 = found fw.
Proof.
  intros Hroot Hfw. destruct (root_pointer_range p Hroot) as [Hp _]. unfold acpi_init. rewrite locate_spec, Hroot.
  cbn [mbind outcome_bind fmap option_fmap option_map].
  assert (length (rsdp_bytes fw) = 20%nat) as Hlen by (destruct Hfw; unfold rsdp_bytes, RSD_PTR; len).
  pose proof (stored_loads_kva mem p (rsdp_bytes fw) ltac:(lia) ltac:(lia) (lo_rsdp _ _ _ Hfw)) as Hl.
  pose proof (is_structure_valid_spec mem _ _ Hl) as Hv. rewrite Hlen in Hv. step_to Hv.
  change (byte_sum (rsdp_bytes fw) mod 256 =? 0) with (sum_ok (rsdp_bytes fw)). unfold found.
  destruct (sum_ok (rsdp_bytes fw)); [|done]. cbn [negb andb].
  assert (rsdp_revision mem (KERNEL_VMEM_START + p) = Ok (revision fw)) as Er.
  { unfold rsdp_revision. pose proof Hl as (H0 & H1 & Hr). rewrite wrap_small by lia. apply (Hr 15%nat).
    unfold rsdp_bytes. rewrite !lookup_app_r by (rewrite ?(lo_oem _ _ _ Hfw); cbn; lia). by rewrite (lo_oem _ _ _ Hfw). }
  step_to Er. rewrite Z.ltb_antisym. destruct (revision fw <=? 2); [|done]. cbn [negb andb]. by apply acpi_parse_spec.
Qed.
End parsing.

(** A record that says it is empty keeps the loop at its address for ever. *)
Lemma empty_record_loops mem rhs rhe base t : 0 <= rhs < rhe -> rhe < 2 ^ 64 -> t <> 1 ->
  record_type mem rhs = Ok t -> record_length mem rhs = Ok 0 -> forall fuel, parse_records mem fuel rhs rhe base = Fault OutOfFuel.
Proof.
  intros Hr He Ht Et El fuel. induction fuel as [|fuel IH]; [done|]. cbn [parse_records]. rewrite ltb_true by lia.
  step_to Et. rewrite eqb_false by done. cbn [mbind outcome_bind]. step_to El. by rewrite Z.add_0_r, wrap_small by lia.
Qed.

(** C22: reading the firmware undoes its layout.  Whatever is in memory, the root
    pointer is the first one in the two areas, and without one [acpi_init]
    returns false; with one, and tables that are laid out in the first 4 GiB as
    the format says, it returns false exactly when the root pointer or the root
    table fails its checksum or the revision is above 2, and otherwise returns
    true with the address of the one I/O APIC that the records of the valid
    tables name: tables with a bad checksum are passed over, and a second I/O
    APIC fails the assertion.  Every loop ends. *)
Theorem acpi_init_correct mem (bytes : forall a, 0 <= mem a < 256) :
  (root_pointer mem = None -> forall base, acpi_init mem base = Ok (false, base)) /\
  (forall p fw, root_pointer mem = Some p -> laid_out mem p fw -> acpi_init mem 0 = found fw).
Proof.
  split.
  - intros E base. unfold acpi_init. by rewrite locate_spec, E.
  - intros p fw E Hfw. by apply acpi_init_spec with (p := p).
Qed.

(** ** A firmware *)
Fixpoint memory (regions : list (Z * list Z)) (a : Z) : Z :=
  match regions with
  | [] => 0
  | (start, bs) :: rs => default (memory rs a) (if (start <=? a) && (a <? start + Z.of_nat (length bs)) then bs !! Z.to_nat (a - start) else None)
  end.

Lemma memory_bytes regions : forallb (fun r => forallb (fun b => (0 <=? b) && (b <? 256)) r.2) regions = true ->
  forall a, 0 <= memory regions a < 256.
Proof.
  induction regions as [|[start bs] rs IH]; intros Hb a; cbn [memory]; [lia|]. apply andb_prop in Hb as [Hb Hr].
  destruct (_ && (a <? _)); [|by apply IH]. destruct (bs !! Z.to_nat (a - start)) eqn:E; [|by apply IH].
  rewrite forallb_forall in Hb. apply list_elem_of_lookup_2, list_elem_of_In, Hb in E. apply andb_prop in E as [E1 E2]. apply Z.leb_le in E1. apply Z.ltb_lt in E2. done.
Qed.

Lemma stored_eq mem pa bs : (fun i => mem (pa + i)) <$> seqZ 0 (Z.of_nat (length bs)) = bs -> stored mem pa bs.
Proof.
  intros E i b Hi. rewrite <- E, list_lookup_fmap in Hi. apply fmap_Some in Hi as (j & [-> Hj]%lookup_seqZ & ->). done.
Qed.

(** The second byte of [rest] is the checksum. *)
Definition a_rest (sum : Z) : list Z := [1; sum] ++ replicate 26 0.
Definition a_table : table :=
  {| t_address := 0x20000; t_rest := a_rest 214;
     t_contents := Madt 0xfee00000 1 [OtherRecord 0 [0; 0; 1; 0; 0; 0]; IoApic 1 0 0xfec00000 0; OtherRecord 2 [0; 0; 2; 0; 0; 0; 0; 0]] |}.
Definition bad_table : table := {| t_address := 0x30000; t_rest := a_rest 0; t_contents := Madt 0 0 [IoApic 2 0 0xfec10000 0] |}.
Definition a_firmware : Firmware :=
  {| rsdp_oem := [81; 0x42; 0x4f; 0x43; 0x48; 0x53; 0x20]; revision := 0; root_address := 0x10000;
     root_signature := 0x54445352; root_rest := a_rest 145; tables := [bad_table; a_table] |}.
Definition a_memory : Z -> Z :=
  memory [(0xe0040, rsdp_bytes a_firmware); (0x10000, root_bytes a_firmware); (0x20000, bytes_of a_table); (0x30000, bytes_of bad_table)].

Lemma a_memory_bytes a : 0 <= a_memory a < 256.
Proof. apply memory_bytes. vm_compute. reflexivity. Qed.

Lemma a_memory_laid_out : laid_out a_memory 0xe0040 a_firmware.
Proof.
  split; [apply stored_eq; vm_compute; reflexivity|reflexivity| |reflexivity|].
  - split_and!; [done|done|apply stored_eq; vm_compute; reflexivity].
  - cbn [tables a_firmware]. apply Forall_cons_2; [|apply Forall_cons_2; [|apply Forall_nil_2]];
      (split; [split_and!; [done|done|apply stored_eq; vm_compute; reflexivity]|]);
      (split; [reflexivity|]); cbn [t_contents bad_table a_table contents_ok]; repeat first [apply Forall_nil_2|apply Forall_cons_2]; done.
Qed.

Lemma acpi_init_correct_witness : root_pointer a_memory = Some 0xe0040 /\ acpi_init a_memory 0 = Ok (true, 0xfec00000).
Proof.
  assert (root_pointer a_memory = Some 0xe0040) as E by (vm_compute; reflexivity). split; [exact E|].
  etransitivity; [exact (proj2 (acpi_init_correct a_memory a_memory_bytes) 0xe0040 a_firmware E a_memory_laid_out)|].
  vm_compute. reflexivity.
Defined.
