(* ===== verification/UserLib.v ===== *)
(** * infos-user/lib: the library of the user programs

    A user program is an interaction tree: it computes between its system
    calls, may run for ever, and an event is a call it makes.  An event carries
    the bytes a pointer argument leads to and returns the bytes the kernel
    stores.  Undefined behaviour is an event without answer.

    The library's [vsnprintf] is the kernel's, word for word ([Printf]).

    The second part says what a program does at a console: which actions it
    performs and how it ends, for the keys typed.  How the system answers a call
    may depend on everything the program has done before. *)
From Stdlib Require Import Ascii.
From ITree Require Import Core.ITreeDefinition.
From S2P Require Import Prelude Printf PrintfTheorems.

(** ** System calls *)
Record tod := { seconds : Z; minutes : Z; hours : Z; day_of_month : Z; month : Z; year : Z }.
Record dirent := { name : list Z; size : Z; flags : Z }.

Variant sysE : Type -> Type :=
  | SYS_OPEN (file : list Z) (flags : Z) : sysE Z
  | SYS_CLOSE (file : Z) : sysE Z
  | SYS_READ (file size : Z) : sysE (Z * list Z)
  | SYS_WRITE (file : Z) (buffer : list Z) : sysE Z
  | SYS_OPENDIR (path : list Z) (flags : Z) : sysE Z
  | SYS_READDIR (dir : Z) : sysE (Z * dirent)
  | SYS_CLOSEDIR (dir : Z) : sysE Z
  | SYS_EXEC (program : list Z) (args : option (list Z)) : sysE Z
  | SYS_WAIT_PROC (proc : Z) : sysE Z
  | SYS_CREATE_THREAD (tp arg : Z) : sysE Z
  | SYS_STOP_THREAD (thread : Z) : sysE Z
  | SYS_JOIN_THREAD (thread : Z) : sysE Z
  | SYS_USLEEP (us : Z) : sysE Z
  | SYS_GET_TOD : sysE (Z * tod).

(** A call that returns, the one that does not, and undefined behaviour. *)
Variant userE : Type -> Type :=
  | Call {A} (c : sysE A) : userE A
  | SYS_EXIT (exit_code : Z) : userE Empty_set
  | Undefined (f : fault) : userE Empty_set.

Definition user := itree userE.
#[export] Instance user_ret : MRet user := fun A a => Ret a.
#[export] Instance user_bind : MBind user := fun A B k t => ITree.bind t k.

Definition call {A} (c : sysE A) : user A := ITree.trigger (Call c).
Definition exit {A} (exit_code : Z) : user A := x ← ITree.trigger (SYS_EXIT exit_code); match x : Empty_set with end.
Definition undefined {A} (f : fault) : user A := x ← ITree.trigger (Undefined f); match x : Empty_set with end.

(** A computation between system calls. *)
Definition lift {A} (o : outcome A) : user A :=
  match o with Ok a => mret a | Fault f => undefined f end.

(** [while (true)]: [inl] goes on, [inr] leaves the loop. *)
Definition loop {S A} (body : S -> user (S + A)) : S -> user A := ITree.iter body.

Fixpoint each {A} (l : list A) (f : A -> user unit) : user unit :=
  match l with [] => mret tt | x :: l => _ ← f x; each l f end.

(** ** Literals *)
Definition escape (c : ascii) : Z :=
  if Ascii.eqb c "n" then 10 else if Ascii.eqb c "b" then 8 else Z.of_N (N_of_ascii c).

Fixpoint unescape (s : list ascii) : list Z :=
  match s with
  | [] => []
  | c :: s =>
      if Ascii.eqb c "\" then match s with [] => [] | d :: s => escape d :: unescape s end
      else Z.of_N (N_of_ascii c) :: unescape s
  end.

(** The characters of a string literal, and the array it is. *)
Definition text (s : string) : list Z := unescape (String.list_ascii_of_string s).
Definition literal (s : string) : list Z := text s ++ [0].
Coercion literal : string >-> list.

(** The string that a pointer argument leads to. *)
Fixpoint c_string (s : list Z) : outcome (list Z) :=
  match s with
  | [] => Fault OutOfBounds
  | c :: s => if c =? 0 then Ok [] else s ← c_string s; Ok (c :: s)
  end.

(** ** io.cpp and exec.cpp *)
Definition is_error (h : Z) : bool := h =? u64 (-1).

Definition open (file : list Z) (flags : Z) : user Z :=
  file ← lift (c_string file); ret ← call (SYS_OPEN file flags); mret (u64 ret).
Definition close (file : Z) : user unit := _ ← call (SYS_CLOSE file); mret tt.
Definition read (file size : Z) : user (Z * list Z) :=
  '(ret, data) ← call (SYS_READ file size); mret (i32 ret, data).
Definition write (file : Z) (buffer : list Z) : user Z := ret ← call (SYS_WRITE file buffer); mret (i32 ret).
Definition opendir (path : list Z) (flags : Z) : user Z :=
  path ← lift (c_string path); ret ← call (SYS_OPENDIR path flags); mret (u64 ret).
Definition readdir (dir : Z) : user (Z * dirent) := '(ret, de) ← call (SYS_READDIR dir); mret (i32 ret, de).
Definition closedir (dir : Z) : user unit := _ ← call (SYS_CLOSEDIR dir); mret tt.
Definition get_time_of_day : user (Z * tod) := '(ret, t) ← call SYS_GET_TOD; mret (i32 ret, t).

Definition exec (program : list Z) (args : option (list Z)) : user Z :=
  program ← lift (c_string program);
  args ← match args with
         | None => mret None
         | Some args => args ← lift (c_string args); mret (Some args)
         end;
  ret ← call (SYS_EXEC program args); mret (u64 ret).
Definition wait_proc (proc : Z) : user unit := _ ← call (SYS_WAIT_PROC proc); mret tt.
Definition create_thread (tp arg : Z) : user Z := ret ← call (SYS_CREATE_THREAD tp arg); mret (u64 ret).
Definition stop_thread (thread : Z) : user unit := _ ← call (SYS_STOP_THREAD thread); mret tt.
Definition join_thread (thread : Z) : user unit := _ ← call (SYS_JOIN_THREAD thread); mret tt.
Definition usleep (us : Z) : user unit := _ ← call (SYS_USLEEP us); mret tt.
Definition HTHREAD_SELF : Z := u64 (-1).

(** ** string.cpp *)
Fixpoint strcmp (l r : list Z) : outcome Z :=
  match l with
  | [] => Fault OutOfBounds
  | c :: l =>
      if c =? 0 then Ok 0
      else
        match r with
        | [] => Fault OutOfBounds
        | d :: r => if d =? 0 then Ok 0 else if c =? d then strcmp l r else Ok (-1)
        end
  end.

Fixpoint strlen_from (s : list Z) (count : Z) : outcome Z :=
  match s with
  | [] => Fault OutOfBounds
  | c :: s => if c =? 0 then Ok count else strlen_from s (i32 (count + 1))
  end.
Definition strlen (s : list Z) : outcome Z := strlen_from s 0.

(** ** printf.cpp and init.cpp

    The routines that print into a buffer are those of the kernel. *)
Definition prepend_to_buffer := Printf.prepend_to_buffer.
Definition append_num := Printf.append_num.
Definition append_str := Printf.append_str.
Definition vsnprintf := Printf.vsnprintf.
Definition sprintf := Printf.sprintf.

(** [frame] is what the stack frame of [printf] and [getch] holds before they
    write into it. *)
Section console.
Context (console : Z) (frame : list Z).

Definition printf (fmt : list Z) (args : list va_item) : user Z :=
  '(rc, buffer) ← lift (vsnprintf frame (0x1000 - 1) fmt args);
  _ ← write console (take (Z.to_nat rc) buffer);
  mret rc.

(** The loop's state is the character that the buffer holds. *)
Definition getch : user Z :=
  loop (fun buffer =>
    '(r, data) ← read console 1;
    let buffer := default buffer (head data) in
    mret (if r <? 1 then inl buffer else inr buffer)) (default 0 (head frame)).
End console.

Definition _start (main : Z -> option (list Z) -> user Z) (cmdline : option (list Z)) : user Empty_set :=
  console ← open "/dev/console" 0;
  if is_error console then exit 1
  else
    rc ← main console cmdline;
    _ ← close console;
    exit rc.

Definition __stack_chk_fail : user Empty_set := exit 1.

(** ** What a program does at a console *)
Inductive action :=
  | Wrote (file : Z) (text : list Z)
  | Ran (program : list Z) (args : option (list Z))
  | Waited (proc : Z).
#[export] Instance action_eq_dec : EqDecision action.
Proof. solve_decision. Defined.

Inductive ending (A : Type) :=
  | Returned (a : A)
  | Waiting
  | Exited (exit_code : Z)
  | Stopped (f : fault).
Arguments Returned {A} a.
Arguments Waiting {A}.
Arguments Exited {A} exit_code.
Arguments Stopped {A} f.

(** How the system answers a call of a program that has performed the actions
    [past], when [keys] have been typed and not read yet: the result, the actions
    and the keys that are left; [None] is a call that does not return before the
    next key. *)
Class Environment := answer : forall A, sysE A -> list action -> list Z -> option (A * list action * list Z).
Arguments answer {_ A} c past keys.

Section does.
Context `{Environment}.

Inductive does {A} : list action -> user A -> list Z -> list action -> ending A -> list Z -> Prop :=
  | does_ret past t a keys : observe t = RetF a -> does past t keys [] (Returned a) keys
  | does_tau past t u keys acts e rest : observe t = TauF u -> does past u keys acts e rest -> does past t keys acts e rest
  | does_call past t X (c : sysE X) k keys x acts1 keys1 acts2 e rest :
      observe t = VisF (Call c) k -> answer c past keys = Some (x, acts1, keys1) ->
      does (past ++ acts1) (k x) keys1 acts2 e rest -> does past t keys (acts1 ++ acts2) e rest
  | does_wait past t X (c : sysE X) k keys :
      observe t = VisF (Call c) k -> answer c past keys = None -> does past t keys [] Waiting keys
  | does_exit past t rc k keys : observe t = VisF (SYS_EXIT rc) k -> does past t keys [] (Exited rc) keys
  | does_undefined past t f k keys : observe t = VisF (Undefined f) k -> does past t keys [] (Stopped f) keys.

(** The same as a function; [n] bounds the calls and the silent steps. *)
Fixpoint run {A} (n : nat) (past : list action) (t : user A) (keys : list Z) : option (list action * ending A * list Z) :=
  match n with
  | O => None
  | S n =>
      match observe t with
      | RetF a => Some ([], Returned a, keys)
      | TauF u => run n past u keys
      | VisF c k =>
          match c in userE X return (X -> user A) -> _ with
          | SYS_EXIT rc => fun _ => Some ([], Exited rc, keys)
          | Undefined f => fun _ => Some ([], Stopped f, keys)
          | Call c => fun k =>
              match answer c past keys with
              | None => Some ([], Waiting, keys)
              | Some (x, acts1, keys1) =>
                  '(acts2, e, rest) ← run n (past ++ acts1) (k x) keys1;
                  Some (acts1 ++ acts2, e, rest)
              end
          end k
      end
  end.

Lemma run_does {A} n past (t : user A) keys acts e rest : run n past t keys = Some (acts, e, rest) -> does past t keys acts e rest.
Proof.
  revert past t keys acts e rest. induction n as [|n IH]; intros past t keys acts e rest; [done|]. cbn [run].
  destruct (observe t) as [a|u|X c k] eqn:Eo.
  - intros [= <- <- <-]. by apply does_ret.
  - intros Hr. eapply does_tau; eauto.
  - destruct c as [X c|rc|f].
    + destruct (answer c past keys) as [[[x acts1] keys1]|] eqn:Ea.
      * destruct (run n (past ++ acts1) (k x) keys1) as [[[acts2 e2] left2]|] eqn:E; [|done]. intros [= <- <- <-].
        eapply does_call; eauto.
      * intros [= <- <- <-]. eapply does_wait; eauto.
    + intros [= <- <- <-]. by eapply does_exit.
    + intros [= <- <- <-]. by eapply does_undefined.
Qed.

Lemma run_more {A} n m past (t : user A) keys r : run n past t keys = Some r -> (n <= m)%nat -> run m past t keys = Some r.
Proof.
  revert m past t keys r. induction n as [|n IH]; intros m past t keys r Hr Hm; [done|]. destruct m as [|m]; [lia|].
  cbn [run] in *. destruct (observe t) as [a|u|X c k]; [done|apply IH; [done|lia]|].
  destruct c as [X c|rc|f]; [|done..]. destruct (answer c past keys) as [[[x acts1] keys1]|]; [|done].
  destruct (run n (past ++ acts1) (k x) keys1) as [r'|] eqn:E; [|done]. by rewrite (IH m _ _ _ _ E ltac:(lia)).
Qed.

Lemma does_run {A} past (t : user A) keys acts e rest : does past t keys acts e rest -> exists n, run n past t keys = Some (acts, e, rest).
Proof.
  induction 1 as [past t a keys Eo|past t u keys acts e1 rest1 Eo _ [n IH]
    |past t X c f keys x acts1 keys1 acts3 e1 rest1 Eo Ea _ [n IH]|past t X c f keys Eo Ea|past t rc k keys Eo|past t f k keys Eo];
    [exists 1%nat|exists (S n)|exists (S n)|exists 1%nat..]; cbn [run]; rewrite Eo; [done|done|..|done|done];
    rewrite Ea; [by rewrite IH|done].
Qed.

(** A program does one thing: what a theorem says it does is all it does. *)
Lemma does_unique {A} past (t : user A) keys acts e rest acts' e' rest' :
  does past t keys acts e rest -> does past t keys acts' e' rest' -> acts = acts' /\ e = e' /\ rest = rest'.
Proof.
  intros [n Hn]%does_run [m Hm]%does_run.
  pose proof (run_more n (n `max` m) _ _ _ _ Hn ltac:(lia)) as E1.
  pose proof (run_more m (n `max` m) _ _ _ _ Hm ltac:(lia)) as E2.
  rewrite E1 in E2. by injection E2 as <- <- <-.
Qed.

(** ** Rules for the constructs of a program *)
Lemma does_step {A} past (t : user A) X (c : sysE X) k keys x acts1 keys1 acts2 acts e rest :
  observe t = VisF (Call c) k -> answer c past keys = Some (x, acts1, keys1) ->
  does (past ++ acts1) (k x) keys1 acts2 e rest -> acts = acts1 ++ acts2 -> does past t keys acts e rest.
Proof. intros ??? ->. by eapply does_call. Qed.

Lemma does_mret {A} past (a : A) keys : does past (mret a) keys [] (Returned a) keys.
Proof. by apply does_ret. Qed.

(** Only the first step of a program matters. *)
Lemma does_observe {A} past (t u : user A) keys acts e rest :
  observe t = observe u -> does past u keys acts e rest -> does past t keys acts e rest.
Proof. intros E Hd. destruct Hd; rewrite <- E in *; eauto using does. Qed.

Lemma does_past {A} past past' (t : user A) keys acts e rest :
  does past t keys acts e rest -> past = past' -> does past' t keys acts e rest.
Proof. by intros ? <-. Qed.

Lemma observe_bind {A B} (t : user A) (k : A -> user B) :
  observe (t ≫= k) =
    match observe t with
    | RetF a => observe (k a)
    | TauF u => TauF (u ≫= k)
    | VisF c f => VisF c (fun x => f x ≫= k)
    end.
Proof.
  transitivity (observe match observe t with RetF a => k a | TauF u => Tau (u ≫= k) | VisF c f => Vis c (fun x => f x ≫= k) end).
  - reflexivity.
  - by destruct (observe t).
Qed.

Lemma does_bind {A B} past (t : user A) (k : A -> user B) keys acts a mid acts2 e rest :
  does past t keys acts (Returned a) mid -> does (past ++ acts) (k a) mid acts2 e rest ->
  does past (t ≫= k) keys (acts ++ acts2) e rest.
Proof.
  intros H1 H2. remember (Returned a) as r eqn:Er.
  induction H1 as [past t a' keys Eo|past t u keys acts e1 rest1 Eo _ IH
    |past t X c f keys x acts1 keys1 acts3 e1 rest1 Eo Ea _ IH|past t X c f keys Eo Ea| |]; try done.
  - injection Er as ->. rewrite app_nil_r in H2. eapply does_observe; [|exact H2]. by rewrite observe_bind, Eo.
  - eapply does_tau; [by rewrite observe_bind, Eo|]. by apply IH.
  - rewrite <- app_assoc. eapply (does_call _ _ X c); [by rewrite observe_bind, Eo|done|]. apply IH; [done|]. by rewrite <- app_assoc.
Qed.

Lemma does_seq {A B} past (t : user A) (k : A -> user B) keys acts1 a mid acts2 acts e rest :
  does past t keys acts1 (Returned a) mid -> does (past ++ acts1) (k a) mid acts2 e rest -> acts = acts1 ++ acts2 ->
  does past (t ≫= k) keys acts e rest.
Proof. intros ?? ->. by eapply does_bind. Qed.

Lemma does_answer {A} past (c : sysE A) keys x acts keys1 :
  answer c past keys = Some (x, acts, keys1) -> does past (call c) keys acts (Returned x) keys1.
Proof. intros Ha. eapply does_step; [reflexivity|exact Ha|by apply does_ret|by rewrite app_nil_r]. Qed.

Lemma does_no_answer {A} past (c : sysE A) keys : answer c past keys = None -> does past (call c) keys [] Waiting keys.
Proof. intros Ha. by eapply does_wait. Qed.

Lemma does_bind_wait {A B} past (t : user A) (k : A -> user B) keys acts rest :
  does past t keys acts Waiting rest -> does past (t ≫= k) keys acts Waiting rest.
Proof.
  intros H1. remember Waiting as r eqn:Er.
  induction H1 as [|past t u keys acts e1 rest1 Eo _ IH
    |past t X c f keys x acts1 keys1 acts3 e1 rest1 Eo Ea _ IH|past t X c f keys Eo Ea| |]; try done.
  - eapply does_tau; [by rewrite observe_bind, Eo|]. by apply IH.
  - eapply (does_call _ _ X c); [by rewrite observe_bind, Eo|done|]. by apply IH.
  - eapply (does_wait _ _ X c); [by rewrite observe_bind, Eo|done].
Qed.

Lemma does_bind_stopped {A B} past (t : user A) (k : A -> user B) keys acts f rest :
  does past t keys acts (Stopped f) rest -> does past (t ≫= k) keys acts (Stopped f) rest.
Proof.
  intros H1. remember (Stopped f) as r eqn:Er.
  induction H1 as [|past t u keys acts e1 rest1 Eo _ IH
    |past t X c g keys x acts1 keys1 acts3 e1 rest1 Eo Ea _ IH| | |past t g k0 keys Eo]; try done.
  - eapply does_tau; [by rewrite observe_bind, Eo|]. by apply IH.
  - eapply (does_call _ _ X c); [by rewrite observe_bind, Eo|done|]. by apply IH.
  - injection Er as ->. eapply does_undefined. by rewrite observe_bind, Eo.
Qed.

(** A loop goes on from [inl] and leaves from [inr]. *)
Lemma does_loop_next {S A} past (body : S -> user (S + A)) s s' keys acts mid acts2 e rest :
  does past (body s) keys acts (Returned (inl s')) mid -> does (past ++ acts) (loop body s') mid acts2 e rest ->
  does past (loop body s) keys (acts ++ acts2) e rest.
Proof.
  intros H1 H2. eapply does_observe with (body s ≫= fun r => match r with inl s => Tau (loop body s) | inr a => Ret a end);
    [reflexivity|]. eapply does_bind; [exact H1|]. by eapply does_tau.
Qed.

Lemma does_loop_done {S A} past (body : S -> user (S + A)) s a keys acts mid :
  does past (body s) keys acts (Returned (inr a)) mid -> does past (loop body s) keys acts (Returned a) mid.
Proof.
  intros H1. eapply does_observe with (body s ≫= fun r => match r with inl s => Tau (loop body s) | inr a => Ret a end);
    [reflexivity|]. rewrite <- (app_nil_r acts). eapply does_bind; [exact H1|]. by apply does_ret.
Qed.

Lemma does_loop_stopped {S A} past (body : S -> user (S + A)) s keys acts f mid :
  does past (body s) keys acts (Stopped f) mid -> does past (loop body s) keys acts (Stopped f) mid.
Proof.
  intros H1. eapply does_observe with (body s ≫= fun r => match r with inl s => Tau (loop body s) | inr a => Ret a end);
    [reflexivity|]. by apply does_bind_stopped.
Qed.

Lemma does_loop_wait {S A} past (body : S -> user (S + A)) s keys acts mid :
  does past (body s) keys acts Waiting mid -> does past (loop body s) keys acts Waiting mid.
Proof.
  intros H1. eapply does_observe with (body s ≫= fun r => match r with inl s => Tau (loop body s) | inr a => Ret a end);
    [reflexivity|]. by apply does_bind_wait.
Qed.
End does.

(** ** A console

    What a program relies on: a read of one character returns the next key and
    waits when there is none, and everything written is taken. *)
Class Console `{Environment} (console : Z) := {
  key_read past c keys : answer (SYS_READ console 1) past (c :: keys) = Some ((1, [c]), [], keys);
  key_wait past : answer (SYS_READ console 1) past [] = None;
  text_written past text keys :
    answer (SYS_WRITE console text) past keys = Some (Z.of_nat (length text), [Wrote console text], keys)
}.

Section at_console.
Context `{Console} (frame : list Z).

Lemma does_getch past c keys : does past (getch console frame) (c :: keys) [] (Returned c) keys.
Proof.
  apply does_loop_done.
  eapply does_seq; [eapply does_seq; [apply does_answer, key_read|eapply does_mret|done]|eapply does_mret|done].
Qed.

Lemma does_getch_wait past : does past (getch console frame) [] [] Waiting [].
Proof. by apply does_loop_wait, does_bind_wait, does_bind_wait, does_no_answer, key_wait. Qed.

Lemma does_printf past fmt args out keys : length frame = 0x1000%nat ->
  printed fmt None args = Some out -> (length out < 0xffe)%nat ->
  does past (printf console frame fmt args) keys [Wrote console out] (Returned (Z.of_nat (length out))) keys.
Proof.
  intros Hf Hr Hl. destruct (vsnprintf_spec frame (0x1000 - 1) fmt args out Hr) as (o & E & _ & Ho); [lia|].
  rewrite (Ho ltac:(lia)) in E. unfold printf, vsnprintf. rewrite E. cbn [lift].
  eapply does_seq; [eapply does_mret| |done]. cbn beta iota. rewrite Nat2Z.id, take_app_length.
  eapply does_seq; [|eapply does_mret|by rewrite app_nil_r].
  eapply does_seq; [apply does_answer, text_written|eapply does_mret|done].
Qed.
End at_console.

(** ** Programs that only write to their console

    The text written, the ending and the keys that are left. *)
Definition transcript (A : Type) : Type := list Z * ending A * list Z.

Definition more (out : list Z) {A} (r : transcript A) : transcript A := (out ++ r.1.1, r.1.2, r.2).

Definition after {A B} (r : transcript A) (f : A -> list Z -> transcript B) : transcript B :=
  match r.1.2 with
  | Returned a => more r.1.1 (f a r.2)
  | Waiting => (r.1.1, Waiting, r.2)
  | Exited rc => (r.1.1, Exited rc, r.2)
  | Stopped e => (r.1.1, Stopped e, r.2)
  end.

Section shows.
Context `{Console} (frame : list Z) (Hframe : length frame = 0x1000%nat).

(** It does so whatever was done before. *)
Definition shows {A} (t : user A) (keys : list Z) (r : transcript A) : Prop :=
  forall past, exists parts, does past t keys (Wrote console <$> parts) r.1.2 r.2 /\ mjoin parts = r.1.1.

Lemma shows_mret {A} (a : A) keys : shows (mret a) keys ([], Returned a, keys).
Proof. intros past. exists []. split; [apply does_mret|done]. Qed.

(** Reading and printing neither leave the program nor stop it. *)
Definition quiet {A} (r : transcript A) : Prop := (forall rc, r.1.2 <> Exited rc) /\ (forall e, r.1.2 <> Stopped e).

Lemma shows_seq {A B} (t : user A) (k : A -> user B) keys r f :
  quiet r -> shows t keys r -> (forall a, r.1.2 = Returned a -> shows (k a) r.2 (f a r.2)) ->
  shows (t ≫= k) keys (after r f).
Proof.
  destruct r as [[out e] rest]. intros [Hx Hs] Ht Hk past. destruct (Ht past) as (parts & Hd & Ho). cbn in *. subst out.
  destruct e as [a| |rc|e]; [| |by destruct (Hx rc)|by destruct (Hs e)].
  - destruct (Hk a eq_refl (past ++ (Wrote console <$> parts))) as (parts2 & Hd2 & E2). exists (parts ++ parts2). cbn. split.
    + rewrite fmap_app. by eapply does_bind.
    + by rewrite join_app, E2.
  - exists parts. split; [|done]. by apply does_bind_wait.
Qed.

(** The common case: the first part returns. *)
Lemma shows_then {A B} (t : user A) (k : A -> user B) keys out a rest r :
  shows t keys (out, Returned a, rest) -> shows (k a) rest r -> shows (t ≫= k) keys (more out r).
Proof.
  intros Ht Hk. apply (shows_seq t k keys (out, Returned a, rest) (fun _ _ => r)); [by split|done|].
  intros ? [= <-]. done.
Qed.

Lemma shows_eq {A} (t : user A) keys r r' : shows t keys r' -> r = r' -> shows t keys r.
Proof. by intros ? ->. Qed.

Lemma shows_lift {A B} (o : outcome A) a (k : A -> user B) keys r :
  o = Ok a -> shows (k a) keys r -> shows (lift o ≫= k) keys r.
Proof.
  intros -> Hk. destruct r as [[out e] rest]. exact (shows_then _ _ _ [] a keys (out, e, rest) (shows_mret a keys) Hk).
Qed.

Lemma shows_observe {A} (t u : user A) keys r : observe t = observe u -> shows u keys r -> shows t keys r.
Proof. intros E Hu past. destruct (Hu past) as (parts & Hd & Ho). exists parts. split; [by eapply does_observe|done]. Qed.

Lemma shows_loop_next {S A} (body : S -> user (S + A)) s s' keys out mid r :
  shows (body s) keys (out, Returned (inl s'), mid) -> shows (loop body s') mid r ->
  shows (loop body s) keys (more out r).
Proof.
  intros Hb Hl past. destruct (Hb past) as (p1 & H1 & E1). cbn in H1, E1.
  destruct (Hl (past ++ (Wrote console <$> p1))) as (p2 & H2 & E2). subst out. exists (p1 ++ p2). split.
  - rewrite fmap_app. by eapply does_loop_next.
  - cbn. by rewrite join_app, E2.
Qed.

Lemma shows_loop_done {S A} (body : S -> user (S + A)) s a keys out mid :
  shows (body s) keys (out, Returned (inr a), mid) -> shows (loop body s) keys (out, Returned a, mid).
Proof. intros Hb past. destruct (Hb past) as (p1 & H1 & E1). exists p1. split; [by apply does_loop_done|done]. Qed.

Lemma shows_loop_wait {S A} (body : S -> user (S + A)) s keys out mid :
  shows (body s) keys (out, Waiting, mid) -> shows (loop body s) keys (out, Waiting, mid).
Proof. intros Hb past. destruct (Hb past) as (p1 & H1 & E1). exists p1. split; [by apply does_loop_wait|done]. Qed.

(** One round of a loop, whatever it does. *)

Lemma shows_loop {S A} (body : S -> user (S + A)) s keys r (g : S -> list Z -> transcript A) :
  quiet r -> shows (body s) keys r ->
  (forall s', r.1.2 = Returned (inl s') -> shows (loop body s') r.2 (g s' r.2)) ->
  shows (loop body s) keys
    (after r (fun x rest => match x with inl s' => g s' rest | inr a => ([], Returned a, rest) end)).
Proof.
  destruct r as [[out e] rest]. intros [Hx Hs] Hb Hg. cbn in *. destruct e as [[s'|a]| |rc|e].
  - apply (shows_loop_next body s s' keys out rest); [done|by apply Hg].
  - unfold after, more. cbn [fst snd]. rewrite app_nil_r. by apply shows_loop_done.
  - by apply shows_loop_wait.
  - by destruct (Hx rc).
  - by destruct (Hs e).
Qed.

Lemma shows_getch c keys : shows (getch console frame) (c :: keys) ([], Returned c, keys).
Proof. intros past. exists []. split; [apply does_getch|done]. Qed.

Lemma shows_getch_wait : shows (getch console frame) [] ([], Waiting, []).
Proof. intros past. exists []. split; [apply does_getch_wait|done]. Qed.

Lemma shows_printf fmt args out keys : printed fmt None args = Some out -> (length out < 0xffe)%nat ->
  shows (printf console frame fmt args) keys (out, Returned (Z.of_nat (length out)), keys).
Proof. intros Hr Hl past. exists [out]. split; [by apply does_printf|]. apply app_nil_r. Qed.

Lemma shows_each {X} (l : list X) (f : X -> user unit) (g : X -> list Z) keys :
  (forall x, x ∈ l -> shows (f x) keys (g x, Returned tt, keys)) ->
  shows (each l f) keys (mjoin (g <$> l), Returned tt, keys).
Proof.
  induction l as [|x l IH]; intros Hf; [apply shows_mret|]. cbn [each].
  eapply shows_eq; [|by rewrite fmap_cons]. 
  apply (shows_then _ _ _ (g x) tt keys (mjoin (g <$> l), Returned tt, keys)).
  - apply Hf. by left.
  - apply IH. intros y Hy. apply Hf. by right.
Qed.
End shows.

(** Running other programs: [launches] is the result of [exec], which may be
    another handle each time, and [takes] the number of keys that are typed to
    the program while it is waited for; when there are not so many yet, the wait
    does not return. *)
Class Programs `{Environment} (launches : list action -> list Z -> option (list Z) -> Z)
    (takes : list action -> Z -> list Z -> nat) := {
  program_run past program args keys :
    answer (SYS_EXEC program args) past keys = Some (launches past program args, [Ran program args], keys);
  program_waited past proc keys :
    answer (SYS_WAIT_PROC proc) past keys =
      if (takes past proc keys <=? length keys)%nat
      then Some (0, [Waited proc], drop (takes past proc keys) keys) else None
}.

(** A system with such a console and programs.  There are no files. *)
Section system.
Context (launches : list action -> list Z -> option (list Z) -> Z) (takes : list action -> Z -> list Z -> nat) (console : Z).

Definition no_dirent : dirent := {| name := []; size := 0; flags := 0 |}.
Definition no_tod : tod :=
  {| seconds := 0; minutes := 0; hours := 0; day_of_month := 0; month := 0; year := 0 |}.

Definition system_answer A (c : sysE A) (past : list action) (keys : list Z) : option (A * list action * list Z) :=
  match c with
  | SYS_OPEN _ _ => Some (console, [], keys)
  | SYS_READ _ _ => match keys with [] => None | c :: keys => Some ((1, [c]), [], keys) end
  | SYS_WRITE h text => Some (Z.of_nat (length text), [Wrote h text], keys)
  | SYS_READDIR _ => Some ((0, no_dirent), [], keys)
  | SYS_EXEC program args => Some (launches past program args, [Ran program args], keys)
  | SYS_WAIT_PROC proc =>
      if (takes past proc keys <=? length keys)%nat
      then Some (0, [Waited proc], drop (takes past proc keys) keys) else None
  | SYS_GET_TOD => Some ((-1, no_tod), [], keys)
  | SYS_CLOSE _ | SYS_OPENDIR _ _ | SYS_CLOSEDIR _ | SYS_CREATE_THREAD _ _ | SYS_STOP_THREAD _
  | SYS_JOIN_THREAD _ | SYS_USLEEP _ => Some (-1, [], keys)
  end.

#[local] Instance system : Environment := system_answer.

Lemma system_console : Console console.
Proof. by split. Qed.

Lemma system_programs : Programs launches takes.
Proof. by split. Qed.
End system.

(** What was written to a console. *)
Definition screen (console : Z) (acts : list action) : list Z :=
  mjoin ((fun a => match a with Wrote h text => if h =? console then text else [] | _ => [] end) <$> acts).

(** How many programs were started. *)
Definition is_run (a : action) : bool := match a with Ran _ _ => true | _ => false end.
Definition started (acts : list action) : nat := length (filter is_run acts).

(** ** Strings as the library compares them

    One of the two is a prefix of the other. *)
Definition agree (l r : list Z) : bool := forallb (fun p => p.1 =? p.2) (zip l r).

Definition nonzero (s : list Z) : Prop := Forall (fun c => c <> 0) s.

Lemma strcmp_agree l r rest rest2 : nonzero l -> nonzero r ->
  strcmp (l ++ 0 :: rest) (r ++ 0 :: rest2) = Ok (if agree l r then 0 else -1).
Proof.
  intros Hl. revert r. induction Hl as [|c l Hc _ IH]; intros r Hr; [done|]. cbn [strcmp app].
  rewrite eqb_false by done. destruct Hr as [|d r Hd Hr]; [done|]. cbn [app]. rewrite (eqb_false d) by done.
  unfold agree. cbn [zip forallb zip_with fst snd]. destruct (c =? d); [by apply IH|done].
Qed.

Lemma terminated_c_string s t : c_string s = Ok t -> exists rest, s = t ++ 0 :: rest /\ nonzero t.
Proof.
  revert t. induction s as [|c s IH]; intros t; [done|]. cbn [c_string]. destruct (Z.eqb_spec c 0) as [->|Hc].
  - intros [= <-]. exists s. split; [done|constructor].
  - intros (t' & E & [= <-])%bind_Ok_inv. destruct (IH t' E) as (rest & -> & Hz). exists rest. split; [done|by constructor].
Qed.
