(* ===== verification/TicTacToe.v ===== *)
(** * infos-user/src/tictactoe: the game of noughts and crosses

    The board is the program's only variable; it is passed along.  A program
    reads keys until it has the move it asks for; [main] plays until the players
    have enough of it. *)
From ITree Require Import Core.ITreeDefinition.
From S2P Require Import Prelude Printf PrintfTheorems UserLib.


Definition empty : Z := 32.
Definition boardDim : Z := 3.
Definition playerMarks : list Z := [88; 79].

Definition Board := list (list Z).

Definition cell (board : Board) (i j : Z) : outcome Z :=
  row ← in_bounds (board !! Z.to_nat i); in_bounds (row !! Z.to_nat j).

Definition store (board : Board) (i j c : Z) : outcome Board :=
  row ← in_bounds (board !! Z.to_nat i);
  _ ← in_bounds (row !! Z.to_nat j);
  Ok (<[Z.to_nat i := <[Z.to_nat j := c]> row]> board).

(** [for (i = 0; i < boardDim; ++i)], as a fold of its body. *)
Definition indices : list Z := seqZ 0 boardDim.

Fixpoint fold {S} (f : S -> Z -> outcome S) (s : S) (l : list Z) : outcome S :=
  match l with [] => Ok s | i :: l => s ← f s i; fold f s l end.

Definition reset (board : Board) : outcome Board :=
  fold (fun board i => fold (fun board j => store board i j empty) board indices) board indices.

(** Loops that look for a cell: whether one of the cells is as wanted. *)
Fixpoint some_cell (p : Z -> outcome bool) (l : list Z) : outcome bool :=
  match l with [] => Ok false | i :: l => b ← p i; if b : bool then Ok true else some_cell p l end.

(** It returns false at the first cell that is marked. *)
Definition full (board : Board) : outcome bool :=
  b ← some_cell (fun i => some_cell (fun j => c ← cell board i j; Ok (negb (c =? empty))) indices) indices;
  Ok (negb b).

Definition set (board : Board) (row col mark : Z) : outcome (Z * Board) :=
  let rowIndex := i8 row - 97 in
  let colIndex := i8 col - 48 in
  if (rowIndex <? 0) || (boardDim <=? rowIndex) || (colIndex <? 0) || (boardDim <=? colIndex) then Ok (0, board)
  else
    c ← cell board rowIndex colIndex;
    if negb (c =? empty) then Ok (-1, board)
    else board ← store board rowIndex colIndex mark; Ok (1, board).

Definition nextPlayer (currentPlayer : Z) : Z :=
  if u64 currentPlayer <? Z.of_nat (length playerMarks) then i32 (currentPlayer + 1) else 1.

(** A loop over the cells of a line; [winner] is the flag, uninitialised at first. *)
Fixpoint line_winner (board : Board) (mark : Z) (winner : bool) (cells : list (Z * Z)) : outcome bool :=
  match cells with
  | [] => Ok winner
  | (i, j) :: cells =>
      c ← cell board i j;
      if negb (c =? mark) then Ok false else line_winner board mark true cells
  end.

Definition row_cells (i : Z) : list (Z * Z) := (fun j => (i, j)) <$> indices.
Definition column_cells (j : Z) : list (Z * Z) := (fun i => (i, j)) <$> indices.
Definition left_diagonal : list (Z * Z) := (fun i => (i, i)) <$> indices.
Definition right_diagonal : list (Z * Z) := (fun i => (i, boardDim - 1 - i)) <$> indices.

Definition mark_of (player : Z) : outcome Z := in_bounds (playerMarks !! Z.to_nat (player - 1)).

Definition won (uninitialised : bool) (board : Board) (player : Z) : outcome bool :=
  mark ← mark_of player;
  row ← some_cell (fun i => line_winner board mark uninitialised (row_cells i)) indices;
  if row : bool then Ok true else
  col ← some_cell (fun j => line_winner board mark uninitialised (column_cells j)) indices;
  if col : bool then Ok true else
  ldWinner ← line_winner board mark uninitialised left_diagonal;
  if ldWinner : bool then Ok true else
  line_winner board mark true right_diagonal.

(** ** Printing and reading *)
Section game.
Context (console : Z) (frame : list Z) (uninitialised : bool).
#[local] Abbreviation print fmt args := (_ ← printf console frame (literal fmt) args; mret tt) (only parsing).

Definition printBoardHeader : user unit :=
  _ ← print "\n" [];
  _ ← print "  " [];
  _ ← each indices (fun col => print "   %d" [VInt (col + 1)]);
  _ ← print "\n" [];
  _ ← print "   +" [];
  _ ← each indices (fun col => print "---+" []);
  print "\n" [].

Definition printBoardRow (board : Board) (row : Z) : user unit :=
  _ ← print "%c  |" [VInt row];
  let rowIndex := i8 row - 97 in
  _ ← each indices (fun col => c ← lift (cell board rowIndex col); print " %c |" [VInt c]);
  _ ← print "\n" [];
  _ ← print "   +" [];
  _ ← each indices (fun col => print "---+" []);
  print "\n" [].

Definition printGame (board : Board) : user unit :=
  _ ← printBoardHeader;
  _ ← each indices (fun i => printBoardRow board (97 + i));
  print "\n" [].

(** The key accepted, or 0 for the key 0. *)
Definition input (accepts : Z -> bool) : user Z :=
  loop (fun _ : unit =>
    c ← getch console frame;
    if c =? 0 then mret (inr 0)
    else if accepts c then _ ← print "%c" [VInt c]; mret (inr c)
    else mret (inl tt)) tt.

Definition inputRow : user Z := input (fun row => (97 <=? i8 row) && (i8 row <=? 122)).
Definition inputColumn : user Z := input (fun col => (49 <=? i8 col) && (i8 col <=? 57) || (col =? 8)).

Definition goodInput : user (Z * Z) :=
  loop (fun _ : unit =>
    row ← inputRow;
    col ← inputColumn;
    mret (if negb (row =? 0) && negb (col =? 0) && negb (col =? 8) then inr (row, u8 (col - 1)) else inl tt)) tt.

Definition selectMove (board : Board) (player : Z) : user Board :=
  loop (fun board =>
    _ ← print "Player %d, select move (e.g. a2)> " [VInt player];
    '(row, col) ← goodInput;
    _ ← print "\n" [];
    mark ← lift (mark_of player);
    '(success, board) ← lift (set board row col mark);
    if success =? 0 then _ ← print "That is not a valid move!\n" []; mret (inl board)
    else if success =? -1 then _ ← print "That move is not possible!\n" []; mret (inl board)
    else mret (inr board)) board.

(** The body of the loop of [main]: a move, and what follows from it.  [inl]
    goes on with a board and a player. *)
Definition again (board : Board) (currentPlayer : Z) : user (Board * Z + Z) :=
  _ ← print "Play again? (y/n)> " [];
  yesno ← getch console frame;
  _ ← print "%c\n" [VInt yesno];
  if yesno =? 121 then board ← lift (reset board); mret (inl (board, currentPlayer))
  else mret (inr 0).

Definition turn (st : Board * Z) : user (Board * Z + Z) :=
  let '(board, currentPlayer) := st in
  board ← selectMove board currentPlayer;
  _ ← printGame board;
  w ← lift (won uninitialised board currentPlayer);
  if w : bool then
    _ ← print "Player %d has won!\n" [VInt currentPlayer];
    again board currentPlayer
  else
    f ← lift (full board);
    if f : bool then
      _ ← print "It's a draw!\n" [];
      again board currentPlayer
    else mret (inl (board, nextPlayer currentPlayer)).

Definition help : user unit :=
  _ ← print "     1   2   3\n" [];
  _ ← print "   +---+---+---+\n" [];
  _ ← print "a  | T | I | C |\n" [];
  _ ← print "   +---+---+---+\n" [];
  _ ← print "b  | T | A | C |\n" [];
  _ ← print "   +---+---+---+\n" [];
  _ ← print "c  | T | O | E |\n" [];
  _ ← print "   +---+---+---+\n\n" [];
  _ ← print "Tic-tac-toe (American English), noughts and crosses (British English), " [];
  _ ← print "or Xs and Os is a paper-and-pencil game for two players, X and O, who take turns " [];
  _ ← print "marking the spaces in a 3x3 grid. The player who succeeds in placing three of their " [];
  _ ← print "marks in a horizontal, vertical, or diagonal row is the winner. - Wikipedia\n\n" [];
  _ ← print "This game implementation has been extended to allow bigger dimension grids, " [];
  print "as well as more players, but those numbers are hardcoded - see source for details.\n\n" [].

(** The board is zero-initialised memory. *)
Definition board0 : Board := replicate 3 (replicate 3 0).

Definition play : user Z :=
  board ← lift (reset board0);
  _ ← printGame board;
  loop turn (board, 1).

Definition main (cmdline : option (list Z)) : user Z :=
  help_wanted ← match cmdline with
                | None => mret false
                | Some cmdline => c ← lift (strcmp cmdline (literal "-h")); mret (c =? 0)
                end;
  if help_wanted : bool then _ ← help; mret 0 else play.
End game.

(** ** The game as a machine of keys

    The specification knows who marked which cell and what the next key is
    for.  A key of a move is echoed; a move on the board to a free cell is made,
    the others are refused; the player who has a line of three wins.  No key
    announces a draw, because [full] never holds after a move. *)
Abbreviation Marks := (gmap (Z * Z) Z).
Inductive want := Row | Column (row : Z) | Again.
Record Game := { marks : Marks; player : Z; next : want }.

Definition lines : list (list (Z * Z)) :=
  (row_cells <$> indices) ++ (column_cells <$> indices) ++ [left_diagonal; right_diagonal].

Definition wins (m : Marks) (p : Z) : bool :=
  existsb (forallb (fun c => bool_decide (m !! c = Some p))) lines.

Definition on_board (c : Z * Z) : bool :=
  (0 <=? c.1) && (c.1 <? boardDim) && (0 <=? c.2) && (c.2 <? boardDim).

Definition letter (p : option Z) : Z := match p with None => 32 | Some p => if p =? 1 then 88 else 79 end.

Definition picture_row (m : Marks) (i : Z) : list Z :=
  97 + i :: text "  |" ++ mjoin ((fun j => 32 :: letter (m !! (i, j)) :: text " |") <$> indices) ++
  text "\n   +---+---+---+\n".

Definition picture (m : Marks) : list Z :=
  text "\n     1   2   3\n   +---+---+---+\n" ++ mjoin (picture_row m <$> indices) ++ [10].

Definition prompt (p : Z) : list Z := text "Player " ++ 48 + p :: text ", select move (e.g. a2)> ".

Definition is_row (c : Z) : bool := (97 <=? c) && (c <=? 122).
Definition is_column (c : Z) : bool := (49 <=? c) && (c <=? 57) || (c =? 8).

(** What a complete move does. *)
Definition moved (m : Marks) (p : Z) (c : Z * Z) : list Z * Game :=
  if negb (on_board c) then
    (text "That is not a valid move!\n" ++ prompt p, {| marks := m; player := p; next := Row |})
  else if bool_decide (is_Some (m !! c)) then
    (text "That move is not possible!\n" ++ prompt p, {| marks := m; player := p; next := Row |})
  else
    let m := <[c := p]> m in
    if wins m p then
      (picture m ++ text "Player " ++ 48 + p :: text " has won!\nPlay again? (y/n)> ",
       {| marks := m; player := p; next := Again |})
    else (picture m ++ prompt (3 - p), {| marks := m; player := 3 - p; next := Row |}).

(** The text a key brings and the next state, or [None] when the game is left. *)
Definition press (g : Game) (c : Z) : list Z * option Game :=
  let wanting w := {| marks := marks g; player := player g; next := w |} in
  match next g with
  | Row =>
      if c =? 0 then ([], Some (wanting (Column 0)))
      else if is_row c then ([c], Some (wanting (Column c)))
      else ([], Some g)
  | Column row =>
      if c =? 0 then ([], Some (wanting Row))
      else if is_column c then
        if (row =? 0) || (c =? 8) then ([c], Some (wanting Row))
        else let '(out, g) := moved (marks g) (player g) (row - 97, c - 49) in (c :: 10 :: out, Some g)
      else ([], Some g)
  | Again =>
      if c =? 121 then (c :: 10 :: prompt (player g), Some {| marks := ∅; player := player g; next := Row |})
      else ([c; 10], None)
  end.

Fixpoint session (g : Game) (keys : list Z) : transcript Z :=
  match keys with
  | [] => ([], Waiting, [])
  | c :: keys =>
      match press g c with
      | (out, Some g) => more out (session g keys)
      | (out, None) => (out, Returned 0, keys)
      end
  end.

Definition new_game : Game := {| marks := ∅; player := 1; next := Row |}.

(** ** The board of the program *)
Definition grid (f : Z * Z -> Z) : Board := (fun i => (fun j => f (i, j)) <$> indices) <$> indices.
Definition board_of (m : Marks) : Board := grid (fun c => letter (m !! c)).

Definition marks_ok (m : Marks) : Prop :=
  forall c p, m !! c = Some p -> (p = 1 \/ p = 2) /\ on_board c = true.

Lemma on_board_spec i j : on_board (i, j) = true <-> (i = 0 \/ i = 1 \/ i = 2) /\ (j = 0 \/ j = 1 \/ j = 2).
Proof. unfold on_board, boardDim. cbn. rewrite !andb_true_iff, !Z.leb_le, !Z.ltb_lt. lia. Qed.

Lemma elem_indices i : i ∈ indices <-> i = 0 \/ i = 1 \/ i = 2.
Proof. change (i ∈ [0; 1; 2] <-> i = 0 \/ i = 1 \/ i = 2). rewrite !elem_of_cons, elem_of_nil. tauto. Qed.

Lemma cell_board m i j : on_board (i, j) = true -> cell (board_of m) i j = Ok (letter (m !! (i, j))).
Proof. intros [[->|[->| ->]] [->|[->| ->]]]%on_board_spec; reflexivity. Qed.

Lemma store_grid f i j x : on_board (i, j) = true ->
  store (grid f) i j x = Ok (grid (fun c => if bool_decide (c = (i, j)) then x else f c)).
Proof. intros [[->|[->| ->]] [->|[->| ->]]]%on_board_spec; reflexivity. Qed.

Lemma store_board m i j p : on_board (i, j) = true ->
  store (board_of m) i j (letter (Some p)) = Ok (board_of (<[(i, j) := p]> m)).
Proof.
  intros Hc. unfold board_of. rewrite store_grid by done. f_equal.
  apply list_fmap_ext. intros _ i' _. apply list_fmap_ext. intros _ j' _.
  case_bool_decide as E; [by rewrite E, lookup_insert_eq|by rewrite lookup_insert_ne by congruence].
Qed.

Lemma reset_board m : reset (board_of m) = Ok (board_of ∅).
Proof. reflexivity. Qed.

Lemma mark_of_spec p : p = 1 \/ p = 2 -> mark_of p = Ok (letter (Some p)).
Proof. by intros [->| ->]. Qed.

Lemma letter_free m c : marks_ok m -> (letter (m !! c) =? empty) = bool_decide (m !! c = None).
Proof. intros Hm. destruct (m !! c) as [p|] eqn:E; [|done]. by destruct (Hm c p E) as [[->| ->] _]. Qed.

Lemma letter_mark m c p : marks_ok m -> p = 1 \/ p = 2 ->
  (letter (m !! c) =? letter (Some p)) = bool_decide (m !! c = Some p).
Proof.
  intros Hm Hp. destruct (m !! c) as [q|] eqn:E.
  - destruct (Hm c q E) as [[->| ->] _], Hp as [->| ->]; reflexivity.
  - by destruct Hp as [->| ->].
Qed.

Lemma some_cell_spec p f l : (forall i, i ∈ l -> p i = Ok (f i)) -> some_cell p l = Ok (existsb f l).
Proof.
  induction l as [|i l IH]; intros Hf; [done|]. cbn [some_cell existsb]. rewrite Hf by (by left).
  cbn. destruct (f i); [done|]. apply IH. intros j Hj. apply Hf. by right.
Qed.

Definition holds_line (m : Marks) (p : Z) : list (Z * Z) -> bool := forallb (fun c => bool_decide (m !! c = Some p)).

Lemma existsb_fmap {X Y} (f : X -> Y) (p : Y -> bool) l : existsb p (f <$> l) = existsb (fun x => p (f x)) l.
Proof. induction l as [|x l IH]; [done|]. cbn. by rewrite IH. Qed.

Lemma line_winner_spec m p w cells : marks_ok m -> p = 1 \/ p = 2 -> forallb on_board cells = true ->
  (cells = [] -> w = true) -> line_winner (board_of m) (letter (Some p)) w cells = Ok (holds_line m p cells).
Proof.
  intros Hm Hp. revert w. induction cells as [|[i j] cells IH]; intros w Hb Hw; [by rewrite Hw|].
  cbn [forallb] in Hb. apply andb_true_iff in Hb as [Hc Hb]. cbn [line_winner holds_line forallb].
  rewrite cell_board by done. cbn [mbind outcome_bind]. rewrite letter_mark by done.
  destruct (bool_decide (m !! (i, j) = Some p)); [|done]. by apply IH.
Qed.

Lemma some_line m p w (cells : Z -> list (Z * Z)) : marks_ok m -> p = 1 \/ p = 2 ->
  forallb (fun i => forallb on_board (cells i)) indices = true -> (forall i, cells i <> []) ->
  some_cell (fun i => line_winner (board_of m) (letter (Some p)) w (cells i)) indices =
    Ok (existsb (holds_line m p) (cells <$> indices)).
Proof.
  intros Hm Hp Hb Hc. rewrite existsb_fmap. apply some_cell_spec. intros i Hi.
  apply line_winner_spec; [done..| |by intros ?%Hc]. rewrite forallb_forall in Hb. by apply Hb, list_elem_of_In.
Qed.

Lemma won_spec w m p : marks_ok m -> p = 1 \/ p = 2 -> won w (board_of m) p = Ok (wins m p).
Proof.
  intros Hm Hp. unfold won. rewrite mark_of_spec by done. cbn [mbind outcome_bind].
  rewrite (some_line m p w row_cells), (some_line m p w column_cells), !(line_winner_spec m p) by done.
  unfold wins, lines. rewrite !existsb_app. fold (holds_line m p). cbn [existsb mbind outcome_bind].
  rewrite orb_false_r. repeat case_match; reflexivity.
Qed.

(** A board with a mark is not full: it is "full" when nothing is marked. *)
Lemma full_spec m : marks_ok m -> full (board_of m) = Ok (bool_decide (m = ∅)).
Proof.
  intros Hm. unfold full. rewrite (some_cell_spec _ (fun i => existsb (fun j => bool_decide (is_Some (m !! (i, j)))) indices)).
  - cbn [mbind outcome_bind]. f_equal. destruct (existsb _ indices) eqn:E; cbn [negb].
    + apply existsb_exists in E as (i & _ & (j & _ & Hc)%existsb_exists). apply bool_decide_eq_true in Hc as [p Hp].
      rewrite bool_decide_eq_false_2; [done|]. intros ->. by rewrite lookup_empty in Hp.
    + rewrite bool_decide_eq_true_2; [done|]. apply map_empty. intros [i j].
      destruct (m !! (i, j)) as [p|] eqn:Ep; [|done]. destruct (Hm (i, j) p Ep) as [_ Hb].
      apply not_true_iff_false in E as []. apply on_board_spec in Hb as [Hi Hj].
      apply existsb_exists. exists i. split; [by apply list_elem_of_In, elem_indices|].
      apply existsb_exists. exists j. split; [by apply list_elem_of_In, elem_indices|].
      rewrite Ep. by apply bool_decide_eq_true.
  - intros i Hi. apply some_cell_spec. intros j Hj.
    rewrite cell_board by (apply on_board_spec; by split; apply elem_indices). cbn [mbind outcome_bind].
    rewrite letter_free by done. by destruct (m !! (i, j)).
Qed.

(** ** Moves *)
Lemma set_spec m r c p : marks_ok m -> p = 1 \/ p = 2 -> 97 <= r <= 122 -> 49 <= c <= 57 ->
  set (board_of m) r (u8 (c - 1)) (letter (Some p)) =
    Ok (let k := (r - 97, c - 49) in
        if negb (on_board k) then (0, board_of m)
        else if bool_decide (is_Some (m !! k)) then (-1, board_of m)
        else (1, board_of (<[k := p]> m))).
Proof.
  intros Hm Hp Hr Hc. unfold set. rewrite (wrap_small 8), !swrap_small by lia.
  replace (c - 1 - 48) with (c - 49) by lia.
  destruct (on_board (r - 97, c - 49)) eqn:Hb.
  - pose proof Hb as Hb2. unfold on_board in Hb2. cbn [fst snd] in Hb2.
    rewrite !andb_true_iff, !Z.leb_le, !Z.ltb_lt in Hb2. compare. cbn [orb negb].
    rewrite cell_board by done. cbn [mbind outcome_bind]. rewrite letter_free by done.
    destruct (m !! (r - 97, c - 49)) as [q|] eqn:E; [done|]. rewrite (store_board m _ _ p) by done. done.
  - unfold on_board in Hb. cbn [fst snd] in Hb. rewrite !andb_false_iff, !Z.leb_gt, !Z.ltb_ge in Hb.
    cbn [negb]. destruct (_ || _) eqn:Eo; [done|]. rewrite !orb_false_iff, !Z.ltb_ge, !Z.leb_gt in Eo. lia.
Qed.

Lemma marks_ok_move m k p : marks_ok m -> on_board k = true -> p = 1 \/ p = 2 -> marks_ok (<[k := p]> m).
Proof. intros Hm Hk Hp c q [[-> <-]|[_ Hc]]%lookup_insert_Some; [done|by apply Hm]. Qed.

Lemma nextPlayer_spec p : p = 1 \/ p = 2 -> nextPlayer p = 3 - p.
Proof. by intros [->| ->]. Qed.

(** ** What the keys say

    The specification of [input] and of [goodInput]: the keys echoed and what
    they name. *)
Fixpoint scan (accepts : Z -> bool) (keys : list Z) : transcript Z :=
  match keys with
  | [] => ([], Waiting, [])
  | c :: keys =>
      if c =? 0 then ([], Returned 0, keys)
      else if accepts c then ([c], Returned c, keys)
      else scan accepts keys
  end.

Fixpoint pick (row : option Z) (keys : list Z) : transcript (Z * Z) :=
  match keys with
  | [] => ([], Waiting, [])
  | c :: keys =>
      match row with
      | None =>
          if c =? 0 then pick (Some 0) keys
          else if is_row c then more [c] (pick (Some c) keys)
          else pick None keys
      | Some r =>
          if c =? 0 then pick None keys
          else if is_column c then
            more [c] (if (r =? 0) || (c =? 8) then pick None keys else ([], Returned (r, u8 (c - 1)), keys))
          else pick (Some r) keys
      end
  end.

Definition bytes (keys : list Z) : Prop := Forall (fun c => 0 <= c < 256) keys.

(** The two ways reading ends; fewer than [n] keys are left then. *)
Definition reads {A} (n : nat) (r : transcript A) (P : A -> Prop) : Prop :=
  (r.1.2 = Waiting /\ r.2 = []) \/
  (exists a, r.1.2 = Returned a /\ P a /\ bytes r.2 /\ (length r.2 < n)%nat).

Lemma reads_le {A} n m out (r : transcript A) P : reads n r P -> (n <= m)%nat -> reads m (more out r) P.
Proof. intros [[? ?]|(a & ? & ? & ? & ?)] Hm; [left|right; exists a]; cbn; intuition lia. Qed.

Lemma reads_ret {A} n out (a : A) rest (P : A -> Prop) :
  P a -> bytes rest -> (length rest < n)%nat -> reads n (out, Returned a, rest) P.
Proof. intros. right. by exists a. Qed.

Lemma more_nil {A} (r : transcript A) : more [] r = r.
Proof. by destruct r as [[]]. Qed.

Lemma more_more {A} o1 o2 (r : transcript A) : more o1 (more o2 r) = more (o1 ++ o2) r.
Proof. unfold more. cbn [fst snd]. by rewrite app_assoc. Qed.

Lemma scan_reads accepts keys : bytes keys -> reads (length keys) (scan accepts keys) (fun c => c = 0 \/ accepts c = true).
Proof.
  induction 1 as [|c keys Hc Hb IH]; [by left|]. cbn [scan]. destruct (c =? 0) eqn:E0.
  { apply reads_ret; [by left|done|cbn; lia]. }
  destruct (accepts c) eqn:Ea.
  { apply reads_ret; [by right|done|cbn; lia]. }
  rewrite <- (more_nil (scan accepts keys)). eapply reads_le; [done|cbn; lia].
Qed.

Lemma pick_row keys : pick None keys = after (scan is_row keys) (fun r rest => pick (Some r) rest).
Proof.
  induction keys as [|c keys IH]; [done|]. cbn [pick scan]. destruct (c =? 0); [by rewrite <- (more_nil (pick _ _))|].
  by destruct (is_row c).
Qed.

Lemma pick_column r keys :
  pick (Some r) keys = after (scan is_column keys) (fun c rest =>
    if negb (r =? 0) && negb (c =? 0) && negb (c =? 8) then ([], Returned (r, u8 (c - 1)), rest) else pick None rest).
Proof.
  induction keys as [|c keys IH]; [done|]. cbn [pick scan]. destruct (c =? 0) eqn:E0.
  { unfold after. cbn [fst snd]. by rewrite andb_false_r, more_nil. }
  destruct (is_column c); [|done]. unfold after. cbn [fst snd]. rewrite E0.
  by destruct (r =? 0), (c =? 8).
Qed.

(** A move that [set] makes. *)
Definition legal (m : Marks) (k : Z * Z) : bool := on_board k && negb (bool_decide (is_Some (m !! k))).

(** The keys up to a legal move of player [p], with the refusals on the way. *)
Definition refusal (k : Z * Z) : list Z :=
  if negb (on_board k) then text "That is not a valid move!\n" else text "That move is not possible!\n".

Fixpoint choose (m : Marks) (p : Z) (row : option Z) (keys : list Z) : transcript (Z * Z) :=
  match keys with
  | [] => ([], Waiting, [])
  | c :: keys =>
      match row with
      | None =>
          if c =? 0 then choose m p (Some 0) keys
          else if is_row c then more [c] (choose m p (Some c) keys)
          else choose m p None keys
      | Some r =>
          if c =? 0 then choose m p None keys
          else if is_column c then
            more [c]
              (if (r =? 0) || (c =? 8) then choose m p None keys
               else let k := (r - 97, c - 49) in
                 more [10] (if legal m k then ([], Returned k, keys)
                            else more (refusal k ++ prompt p) (choose m p None keys)))
          else choose m p (Some r) keys
      end
  end.

Lemma after_more {A B} out (r : transcript A) (f : A -> list Z -> transcript B) : after (more out r) f = more out (after r f).
Proof. destruct r as [[o []] rest]; unfold after; cbn [more fst snd]; by rewrite ?more_more. Qed.

Lemma after_after {A B C} (r : transcript A) (f : A -> list Z -> transcript B) (g : B -> list Z -> transcript C) :
  after (after r f) g = after r (fun a rest => after (f a rest) g).
Proof. destruct r as [[o []] rest]; try done. unfold after at 2 3. cbn [fst snd]. apply after_more. Qed.

Lemma after_ext {A B} (r : transcript A) (f g : A -> list Z -> transcript B) :
  (forall a rest, f a rest = g a rest) -> after r f = after r g.
Proof. intros Hfg. unfold after. destruct r.1.2; [|done..]. by rewrite Hfg. Qed.

Lemma after_reads {A B} n (r : transcript A) P (f g : A -> list Z -> transcript B) :
  reads n r P -> (forall a rest, P a -> bytes rest -> (length rest < n)%nat -> f a rest = g a rest) ->
  after r f = after r g.
Proof.
  destruct r as [[o e] rest]. intros [[E _]|(a & E & Ha & Hb & Hl)] Hfg; cbn in *; subst e; [done|].
  unfold after. cbn [fst snd]. by rewrite Hfg.
Qed.

Lemma reads_after {A B} n (r : transcript A) (f : A -> list Z -> transcript B) P Q :
  reads n r P -> (forall a rest, P a -> bytes rest -> (length rest < n)%nat -> reads n (f a rest) Q) ->
  reads n (after r f) Q.
Proof.
  destruct r as [[o e] rest]. intros [[E E2]|(a & E & Ha & Hb & Hl)] Hf; cbn in *; subst e; [by left|].
  unfold after. cbn [fst snd]. eapply reads_le; [by apply Hf|lia].
Qed.

Definition move_of (k : Z * Z) : Z * Z := (k.1 - 97, k.2 - 48).

Lemma choose_pick m p row keys : bytes keys ->
  choose m p row keys = after (pick row keys) (fun k rest =>
    more [10] (if legal m (move_of k) then ([], Returned (move_of k), rest)
               else more (refusal (move_of k) ++ prompt p) (choose m p None rest))).
Proof.
  intros Hb. revert row. induction Hb as [|c keys Hc Hb IH]; intros row; [by destruct row|]. cbn [choose pick].
  destruct row as [r|]; destruct (c =? 0) eqn:E0; try apply IH.
  - destruct (is_column c) eqn:Ec; [|apply IH]. rewrite after_more. f_equal.
    destruct ((r =? 0) || (c =? 8)) eqn:E8; [apply IH|]. unfold after, move_of. cbn [fst snd]. rewrite more_nil.
    rewrite wrap_small by lia. by replace (c - 1 - 48) with (c - 49) by lia.
  - destruct (is_row c); [|apply IH]. by rewrite after_more, IH.
Qed.

Definition playing (m : Marks) (p : Z) (row : option Z) : Game :=
  {| marks := m; player := p; next := match row with None => Row | Some r => Column r end |}.

Lemma session_choose m p row keys :
  session (playing m p row) keys = after (choose m p row keys) (fun k rest =>
    let '(out, g) := moved m p k in more out (session g rest)).
Proof.
  revert row. induction keys as [|c keys IH]; intros row; [by destruct row|]. cbn [session choose].
  unfold press. destruct row as [r|]; cbn [playing next marks player]; destruct (c =? 0) eqn:E0;
    try (change {| marks := m; player := p; next := Row |} with (playing m p None); rewrite more_nil; apply IH).
  - destruct (is_column c) eqn:Ec; [|rewrite more_nil; apply IH].
    destruct ((r =? 0) || (c =? 8)) eqn:E8; rewrite !after_more; [f_equal; apply (IH None)|].
    destruct (moved m p (r - 97, c - 49)) as [out g] eqn:Em. destruct (legal m (r - 97, c - 49)) eqn:El.
    + unfold after. cbn [fst snd]. rewrite Em, more_nil, more_more. reflexivity.
    + assert (out = refusal (r - 97, c - 49) ++ prompt p /\ g = playing m p None) as [-> ->].
      { unfold legal in El. unfold moved, refusal in *. destruct (on_board _); cbn [negb andb] in *.
        - destruct (bool_decide _); [|done]. by injection Em as <- <-.
        - by injection Em as <- <-. }
      rewrite IH, !after_more, !more_more. reflexivity.
  - rewrite more_nil. apply (IH (Some 0)).
  - destruct (is_row c); [|rewrite more_nil; apply IH]. rewrite after_more. f_equal. apply (IH (Some c)).
Qed.

Lemma scan_ext f g keys : bytes keys -> (forall c, 0 <= c < 256 -> f c = g c) -> scan f keys = scan g keys.
Proof. intros Hb Hfg. induction Hb as [|c keys Hc Hb IH]; [done|]. cbn [scan]. by rewrite Hfg, IH. Qed.

Lemma is_row_i8 c : 0 <= c < 256 -> (97 <=? i8 c) && (i8 c <=? 122) = is_row c.
Proof.
  intros Hc. unfold is_row. destruct (Z.ltb_spec c 128) as [Hl|Hl]; [by rewrite swrap_small by lia|].
  unfold swrap. replace ((c + 2 ^ (8 - 1)) mod 2 ^ 8) with (c - 128); [compare; done|].
  rewrite <- (Z.mod_small (c - 128) (2 ^ 8)) by lia.
  replace (c + 2 ^ (8 - 1)) with (c - 128 + 1 * 2 ^ 8) by lia. by rewrite Z.mod_add by lia.
Qed.

Lemma is_column_i8 c : 0 <= c < 256 -> (49 <=? i8 c) && (i8 c <=? 57) || (c =? 8) = is_column c.
Proof.
  intros Hc. unfold is_column. destruct (Z.ltb_spec c 128) as [Hl|Hl]; [by rewrite swrap_small by lia|].
  unfold swrap. replace ((c + 2 ^ (8 - 1)) mod 2 ^ 8) with (c - 128); [compare; done|].
  rewrite <- (Z.mod_small (c - 128) (2 ^ 8)) by lia.
  replace (c + 2 ^ (8 - 1)) with (c - 128 + 1 * 2 ^ 8) by lia. by rewrite Z.mod_add by lia.
Qed.

Lemma reads_quiet {A} n (r : transcript A) P : reads n r P -> quiet r.
Proof. intros [[E _]|(a & E & _)]; split; by rewrite E. Qed.

(** ** What the program prints and reads *)
Section shown.
Context `{Console} (frame : list Z) (Hframe : length frame = 0x1000%nat) (uninitialised : bool).
#[local] Abbreviation shows := (UserLib.shows (console := console)).

Lemma shows_print fmt args out keys : printed fmt None args = Some out -> (length out < 0xffe)%nat ->
  shows (_ ← printf console frame fmt args; mret tt) keys (out, Returned tt, keys).
Proof.
  intros Hr Hl. eapply shows_eq.
  - eapply shows_then; [by apply shows_printf|apply shows_mret].
  - unfold more. cbn [fst snd]. by rewrite app_nil_r.
Qed.

(** A printf followed by more. *)
Lemma shows_line {A} fmt args out (k : unit -> user A) keys r : printed fmt None args = Some out ->
  (length out < 0xffe)%nat -> shows (k tt) keys r ->
  shows ((_ ← printf console frame fmt args; mret tt) ≫= k) keys (more out r).
Proof. intros Hr Hl Hk. eapply shows_then; [by apply shows_print|done]. Qed.

Ltac line := eapply shows_line; [reflexivity|cbn; lia|].

Lemma shows_header keys :
  shows (printBoardHeader console frame) keys (text "\n     1   2   3\n   +---+---+---+\n", Returned tt, keys).
Proof.
  eapply shows_eq.
  - unfold printBoardHeader. line. line.
    eapply shows_then.
    { apply (shows_each _ _ (fun col => text "   " ++ [48 + (col + 1)])).
      intros j [->|[->| ->]]%elem_indices; (apply shows_print; [reflexivity|cbn; lia]). }
    line. line.
    eapply shows_then.
    { apply (shows_each _ _ (fun _ => text "---+")). intros j _. apply shows_print; [reflexivity|cbn; lia]. }
    apply shows_print; [reflexivity|cbn; lia].
  - reflexivity.
Qed.

Lemma letter_range p : 0 <= letter p < 256.
Proof. unfold letter. repeat case_match; lia. Qed.

Lemma shows_row m i keys : i ∈ indices ->
  shows (printBoardRow console frame (board_of m) (97 + i)) keys (picture_row m i, Returned tt, keys).
Proof.
  intros Hi. eapply shows_eq.
  - unfold printBoardRow. line.
    eapply shows_then.
    { apply (shows_each _ _ (fun j => 32 :: letter (m !! (i, j)) :: text " |")). intros j Hj.
      assert (i8 (97 + i) - 97 = i) as ->.
      { apply elem_indices in Hi. rewrite swrap_small by lia. lia. }
      eapply shows_lift; [apply cell_board, on_board_spec; by split; apply elem_indices|].
      apply shows_print; [|cbn; lia].
      transitivity (Some (32 :: u8 (letter (m !! (i, j))) :: text " |")); [reflexivity|].
      by rewrite wrap_small by apply letter_range. }
    line. line.
    eapply shows_then.
    { apply (shows_each _ _ (fun _ => text "---+")). intros j _. apply shows_print; [reflexivity|cbn; lia]. }
    apply shows_print; [reflexivity|cbn; lia].
  - unfold more, picture_row. cbn [fst snd]. f_equal. f_equal.
    apply elem_indices in Hi as [->|[->| ->]]; reflexivity.
Qed.

Lemma shows_picture m keys :
  shows (printGame console frame (board_of m)) keys (picture m, Returned tt, keys).
Proof.
  unfold printGame. eapply shows_eq.
  - eapply shows_then; [apply shows_header|]. eapply shows_then.
    { apply (shows_each _ _ (picture_row m)). intros i Hi. by apply shows_row. }
    apply shows_print; [reflexivity|cbn; lia].
  - reflexivity.
Qed.

Lemma shows_input accepts keys : bytes keys -> shows (input console frame accepts) keys (scan accepts keys).
Proof.
  induction 1 as [|c keys Hc Hb IH]; cbn [scan].
  - apply shows_loop_wait. apply (shows_seq _ _ _ ([], Waiting, []) (fun _ _ => ([], Waiting, []))); [by split| |done].
    apply shows_getch_wait.
  - destruct (c =? 0) eqn:E0.
    { apply shows_loop_done. eapply shows_eq; [eapply shows_then; [apply shows_getch|rewrite E0; apply shows_mret]|done]. }
    destruct (accepts c) eqn:Ea.
    + apply shows_loop_done. eapply shows_eq; [eapply shows_then; [apply shows_getch|rewrite E0, Ea]|].
      * apply shows_line with (out := [c]); [|cbn; lia|apply shows_mret].
        transitivity (Some [u8 c]); [reflexivity|by rewrite wrap_small by lia].
      * reflexivity.
    + rewrite <- (more_nil (scan accepts keys)). eapply shows_loop_next; [|exact IH].
      eapply shows_eq; [eapply shows_then; [apply shows_getch|rewrite E0, Ea; apply shows_mret]|done].
Qed.

Lemma shows_rows keys : bytes keys -> shows (inputRow console frame) keys (scan is_row keys).
Proof. intros Hb. rewrite <- (scan_ext _ _ keys Hb is_row_i8). by apply shows_input. Qed.

Lemma shows_columns keys : bytes keys -> shows (inputColumn console frame) keys (scan is_column keys).
Proof. intros Hb. rewrite <- (scan_ext _ _ keys Hb is_column_i8). by apply shows_input. Qed.

(** A part that reads, and what follows it. *)
Lemma shows_after {A B} n (t : user A) (k : A -> user B) keys r P f : reads n r P -> shows t keys r ->
  (forall a rest, P a -> bytes rest -> (length rest < n)%nat -> shows (k a) rest (f a rest)) ->
  shows (t ≫= k) keys (after r f).
Proof.
  intros Hr Ht Hk. apply shows_seq; [by eapply reads_quiet|done|]. intros a Ea.
  destruct Hr as [[E _]|(a' & E & Ha & Hb & Hl)]; rewrite E in Ea; [done|]. injection Ea as <-. by apply Hk.
Qed.

(** A loop whose rounds read. *)
Lemma shows_rounds {S A} n (body : S -> user (S + A)) s keys r P (g : S -> list Z -> transcript A) :
  reads n r P -> shows (body s) keys r ->
  (forall s' rest, P (inl s') -> bytes rest -> (length rest < n)%nat -> shows (loop body s') rest (g s' rest)) ->
  shows (loop body s) keys
    (after r (fun x rest => match x with inl s' => g s' rest | inr a => ([], Returned a, rest) end)).
Proof.
  intros Hr Hb Hg. apply shows_loop; [by eapply reads_quiet|done|]. intros s' Es.
  destruct Hr as [[E _]|(a' & E & Ha & Hbs & Hl)]; rewrite E in Es; [done|]. injection Es as ->. by apply Hg.
Qed.

Definition chosen (r c : Z) : unit + Z * Z :=
  if negb (r =? 0) && negb (c =? 0) && negb (c =? 8) then inr (r, u8 (c - 1)) else inl tt.

Definition pick_once (keys : list Z) : transcript (unit + Z * Z) :=
  after (scan is_row keys) (fun r rest => after (scan is_column rest) (fun c rest => ([], Returned (chosen r c), rest))).

Lemma pick_once_reads keys : bytes keys -> reads (length keys) (pick_once keys) (fun x =>
  match x with inl _ => True | inr (r, c) => is_row r = true /\ exists c', c = u8 (c' - 1) /\ is_column c' = true /\ c' <> 8 end).
Proof.
  intros Hb. eapply reads_after; [by apply scan_reads|]. intros r rest Hr Hb1 Hl.
  eapply reads_after.
  { rewrite <- (more_nil (scan _ _)). eapply reads_le; [by apply scan_reads|lia]. }
  intros c rest2 Hc Hb2 Hl2. apply reads_ret; [|done|done]. unfold chosen.
  destruct (Z.eqb_spec r 0), (Z.eqb_spec c 0), (Z.eqb_spec c 8); cbn [negb andb]; try done.
  split; [by destruct Hr|]. exists c. by destruct Hc.
Qed.

Lemma pick_rounds keys : pick None keys =
  after (pick_once keys) (fun x rest => match x with inl _ => pick None rest | inr k => ([], Returned k, rest) end).
Proof.
  unfold pick_once. rewrite after_after, pick_row. apply after_ext. intros r rest.
  rewrite after_after, pick_column. apply after_ext. intros c rest2. unfold after, chosen. cbn [fst snd].
  rewrite more_nil. by destruct (_ && _ && _).
Qed.

Lemma shows_pick keys : bytes keys -> shows (goodInput console frame) keys (pick None keys).
Proof.
  induction keys as [keys IH] using (induction_ltof1 _ length). unfold ltof in IH. intros Hb. rewrite pick_rounds.
  eapply (shows_rounds (length keys)); [by apply pick_once_reads| |intros [] rest _ ? ?; by apply IH].
  eapply shows_after; [by apply scan_reads|by apply shows_rows|]. intros r rest _ Hb1 _.
  eapply shows_after; [by apply scan_reads|by apply shows_columns|]. intros c rest2 _ _ _. apply shows_mret.
Qed.

Lemma pick_reads keys : bytes keys -> reads (length keys) (pick None keys) (fun k =>
  97 <= k.1 <= 122 /\ exists c, k.2 = u8 (c - 1) /\ 49 <= c <= 57).
Proof.
  induction keys as [keys IH] using (induction_ltof1 _ length). unfold ltof in IH. intros Hb. rewrite pick_rounds.
  eapply reads_after; [by apply pick_once_reads|]. intros [[]|[r c]] rest Hx Hb1 Hl.
  - rewrite <- (more_nil (pick None rest)). eapply reads_le; [by apply IH|lia].
  - destruct Hx as (Hr & c' & -> & Hc & Hc8). apply reads_ret; [|done|done]. cbn [fst snd].
    unfold is_row in Hr. unfold is_column in Hc. rewrite andb_true_iff, !Z.leb_le in Hr.
    rewrite orb_true_iff, andb_true_iff, !Z.leb_le, Z.eqb_eq in Hc. split; [lia|]. exists c'. split; [done|lia].
Qed.

(** ** Moves and games *)
Lemma render_prompt p : p = 1 \/ p = 2 ->
  printed (literal "Player %d, select move (e.g. a2)> ") None [VInt p] = Some (prompt p).
Proof. by intros [->| ->]. Qed.

Definition choose_once (m : Marks) (p : Z) (keys : list Z) : transcript (Board + Board) :=
  more (prompt p) (after (pick None keys) (fun k rest =>
    more [10] (if legal m (move_of k) then ([], Returned (inr (board_of (<[move_of k := p]> m))), rest)
               else (refusal (move_of k), Returned (inl (board_of m)), rest)))).

Lemma shows_choose_once m p keys : marks_ok m -> p = 1 \/ p = 2 -> bytes keys ->
  shows (_ ← (_ ← printf console frame (literal "Player %d, select move (e.g. a2)> ") [VInt p]; mret tt);
         '(row, col) ← goodInput console frame;
         _ ← (_ ← printf console frame (literal "\n") []; mret tt);
         mark ← lift (mark_of p);
         '(success, board) ← lift (set (board_of m) row col mark);
         if success =? 0 then
           _ ← (_ ← printf console frame (literal "That is not a valid move!\n") []; mret tt); mret (inl board)
         else if success =? -1 then
           _ ← (_ ← printf console frame (literal "That move is not possible!\n") []; mret tt); mret (inl board)
         else mret (inr board)) keys (choose_once m p keys).
Proof.
  intros Hm Hp Hb. apply shows_line; [by apply render_prompt|destruct Hp as [->| ->]; cbn; lia|].
  eapply shows_after; [by apply pick_reads|by apply shows_pick|].
  intros [r c'] rest (Hr & c & Ec & Hc) Hb1 Hl. cbn [fst snd] in *. subst c'.
  apply shows_line; [reflexivity|cbn; lia|]. eapply shows_lift; [by apply mark_of_spec|].
  eapply shows_lift; [by apply set_spec|]. unfold legal, move_of. cbn [fst snd]. rewrite wrap_small by lia.
  replace (c - 1 - 48) with (c - 49) by lia. unfold refusal.
  destruct (on_board _); cbn [negb andb]; [destruct (bool_decide _); cbn [negb]|].
  - cbn [Z.eqb]. eapply shows_eq; [eapply shows_line; [reflexivity|cbn; lia|apply shows_mret]|].
    unfold more. cbn [fst snd]. by rewrite app_nil_r.
  - apply shows_mret.
  - eapply shows_eq; [eapply shows_line; [reflexivity|cbn; lia|apply shows_mret]|].
    unfold more. cbn [fst snd]. by rewrite app_nil_r.
Qed.

Definition selected (m : Marks) (p : Z) (keys : list Z) : transcript Board :=
  more (prompt p) (after (choose m p None keys) (fun k rest => ([], Returned (board_of (<[k := p]> m)), rest))).

Lemma choose_once_reads m p keys : bytes keys ->
  reads (length keys) (choose_once m p keys) (fun x => forall b, x = inl b -> b = board_of m).
Proof.
  intros Hb. eapply reads_le; [|done]. eapply reads_after; [by apply pick_reads|].
  intros k rest _ Hb1 Hl. eapply reads_le; [|done].
  destruct (legal m (move_of k)); (apply reads_ret; [|done|lia]); by intros b [= <-].
Qed.

Lemma selected_rounds m p keys : bytes keys -> selected m p keys =
  after (choose_once m p keys) (fun x rest => match x with inl _ => selected m p rest | inr b => ([], Returned b, rest) end).
Proof.
  intros Hb. unfold selected, choose_once. rewrite choose_pick, after_more, !after_after by done. f_equal.
  apply after_ext. intros k rest. rewrite !after_more. f_equal. destruct (legal m (move_of k)); [done|].
  by rewrite after_more, <- more_more.
Qed.

Lemma shows_select m p keys : marks_ok m -> p = 1 \/ p = 2 -> bytes keys ->
  shows (selectMove console frame (board_of m) p) keys (selected m p keys).
Proof.
  intros Hm Hp. induction keys as [keys IH] using (induction_ltof1 _ length). unfold ltof in IH. intros Hb.
  rewrite selected_rounds by done. eapply (shows_rounds (length keys)).
  - by apply choose_once_reads.
  - by apply shows_choose_once.
  - intros b rest Hx Hb1 Hl. rewrite (Hx b eq_refl). by apply IH.
Qed.

Lemma choose_reads m p keys : bytes keys -> reads (length keys) (choose m p None keys) (fun k => legal m k = true).
Proof.
  induction keys as [keys IH] using (induction_ltof1 _ length). unfold ltof in IH. intros Hb.
  rewrite choose_pick by done. eapply reads_after; [by apply pick_reads|]. intros k rest _ Hb1 Hl.
  eapply reads_le; [|done]. destruct (legal m (move_of k)) eqn:El; [by apply reads_ret; [|done|lia]|].
  eapply reads_le; [by apply IH|lia].
Qed.

Lemma shows_again m p c keys : 0 <= c < 256 ->
  shows (again console frame (board_of m) p) (c :: keys)
    (text "Play again? (y/n)> " ++ [c; 10], Returned (if c =? 121 then inl (board_of ∅, p) else inr 0), keys).
Proof.
  intros Hc. eapply shows_eq.
  - apply shows_line; [reflexivity|cbn; lia|]. eapply shows_then; [apply shows_getch|].
    apply shows_line with (out := [c; 10]) (r := ([], Returned (if c =? 121 then inl (board_of ∅, p) else inr 0), keys)).
    + transitivity (Some [u8 c; 10]); [reflexivity|by rewrite wrap_small by lia].
    + cbn. lia.
    + destruct (c =? 121); [|apply shows_mret]. eapply shows_lift; [apply reset_board|apply shows_mret].
  - reflexivity.
Qed.

Lemma shows_again_wait m p :
  shows (again console frame (board_of m) p) [] (text "Play again? (y/n)> ", Waiting, []).
Proof.
  eapply shows_eq.
  - apply shows_line; [reflexivity|cbn; lia|].
    apply (shows_seq _ _ _ ([], Waiting, []) (fun _ _ => ([], Waiting, []))); [by split|apply shows_getch_wait|done].
  - reflexivity.
Qed.
(** A turn after its move was chosen. *)
Lemma shows_move m p keys out k rest next : marks_ok m -> p = 1 \/ p = 2 -> bytes keys ->
  choose m p None keys = (out, Returned k, rest) -> legal m k = true ->
  let m' := <[k := p]> m in
  (if wins m' p then
     shows (again console frame (board_of m') p) rest next
   else next = ([], Returned (inl (board_of m', 3 - p)), rest)) ->
  shows (turn console frame uninitialised (board_of m, p)) keys
    (more (prompt p ++ out ++ picture m') (if wins m' p then more (text "Player " ++ 48 + p :: text " has won!\n") next else next)).
Proof.
  intros Hm Hp Hb Hc Hl m' Hn. apply andb_true_iff in Hl as [Hon _].
  assert (marks_ok m') as Hm' by by apply marks_ok_move.
  rewrite app_assoc, <- more_more. unfold turn.
  apply shows_then with (a := board_of m') (rest := rest).
  { eapply shows_eq; [by apply shows_select|]. unfold selected, after. rewrite Hc. unfold more. cbn [fst snd].
    by rewrite app_nil_r. }
  eapply shows_then; [apply shows_picture|]. eapply shows_lift; [by apply won_spec|].
  destruct (wins m' p).
  - apply shows_line; [by destruct Hp as [->| ->]|destruct Hp as [->| ->]; cbn; lia|done].
  - subst next. eapply shows_lift; [by apply full_spec|].
    rewrite bool_decide_eq_false_2 by apply insert_non_empty. rewrite nextPlayer_spec by done. apply shows_mret.
Qed.

Lemma moved_legal m p k : legal m k = true ->
  let m' := <[k := p]> m in
  moved m p k =
    if wins m' p then
      (picture m' ++ text "Player " ++ 48 + p :: text " has won!\nPlay again? (y/n)> ",
       {| marks := m'; player := p; next := Again |})
    else (picture m' ++ prompt (3 - p), playing m' (3 - p) None).
Proof. intros [Hon Hf]%andb_true_iff. unfold moved. rewrite Hon. apply negb_true_iff in Hf. by rewrite Hf. Qed.

Lemma shows_session m p keys : marks_ok m -> p = 1 \/ p = 2 -> bytes keys ->
  shows (loop (turn console frame uninitialised) (board_of m, p)) keys
    (more (prompt p) (session (playing m p None) keys)).
Proof.
  revert m p. induction keys as [keys IH] using (induction_ltof1 _ length). unfold ltof in IH. intros m p Hm Hp Hb.
  rewrite session_choose. destruct (choose m p None keys) as [[out e] rest] eqn:Hc.
  pose proof (choose_reads m p keys Hb) as Hr. rewrite Hc in Hr. destruct Hr as [[E E2]|(k & E & Hl & Hb1 & Hlen)]; cbn [fst snd] in *; subst.
  { apply shows_loop_wait. unfold turn.
    apply (shows_seq _ _ _ (prompt p ++ out, Waiting, []) (fun _ _ => ([], Waiting, []))); [by split| |done].
    eapply shows_eq; [by apply shows_select|]. unfold selected. by rewrite Hc. }
  unfold after. cbn [fst snd]. rewrite (moved_legal m p k Hl).
  pose proof (shows_move m p keys out k rest) as Ht. cbv zeta in Ht.
  assert (marks_ok (<[k := p]> m)) as Hm' by (apply andb_true_iff in Hl as [Hon _]; by apply marks_ok_move).
  destruct (wins (<[k := p]> m) p).
  - destruct Hb1 as [|c rest Hc1 Hb1].
    + apply shows_loop_wait. eapply shows_eq; [apply Ht; try done; apply shows_again_wait|].
      unfold more. cbn [fst snd]. by rewrite <- !app_assoc.
    + specialize (Ht _ Hm Hp Hb Hc Hl (shows_again _ _ c rest Hc1)). unfold more in Ht.
      cbn [fst snd] in Ht. cbn [session press next marks player].
      destruct (c =? 121) eqn:Ec.
      * eapply shows_eq; [eapply shows_loop_next; [exact Ht|apply IH; [cbn [length] in Hlen; lia|done..]]|].
        rewrite !more_more. unfold more. cbn [fst snd]. apply Z.eqb_eq in Ec as ->. by rewrite <- !app_assoc.
      * eapply shows_eq; [apply shows_loop_done, Ht|]. unfold more. cbn [fst snd]. by rewrite <- !app_assoc.
  - specialize (Ht _ Hm Hp Hb Hc Hl eq_refl). unfold more in Ht. cbn [fst snd] in Ht.
    eapply shows_eq; [eapply shows_loop_next; [exact Ht|apply IH; [done|done|lia|done]]|].
    rewrite !more_more. unfold more. cbn [fst snd]. by rewrite <- !app_assoc.
Qed.

(** Nine marks without a line: every further move is refused, and [full] does
    not hold, so the game neither ends nor changes. *)
Lemma stalemate m p keys : marks_ok m -> p = 1 \/ p = 2 -> bytes keys ->
  (forall c, on_board c = true -> is_Some (m !! c)) ->
  exists out, shows (loop (turn console frame uninitialised) (board_of m, p)) keys (out, Waiting, []) /\
    full (board_of m) = Ok false.
Proof.
  intros Hm Hp Hb Hfull. pose proof (shows_session m p keys Hm Hp Hb) as Hs. rewrite session_choose in Hs.
  pose proof (choose_reads m p keys Hb) as Hr. destruct (choose m p None keys) as [[out e] rest].
  destruct Hr as [[E E2]|(k & E & Hl & _)]; cbn [fst snd] in *; subst.
  - eexists. split; [exact Hs|]. rewrite full_spec by done. rewrite bool_decide_eq_false_2; [done|]. intros ->.
    destruct (Hfull (0, 0) eq_refl) as [q Hq]. by rewrite lookup_empty in Hq.
  - apply andb_true_iff in Hl as [Hon Hn]. specialize (Hfull k Hon).
    by rewrite bool_decide_eq_true_2 in Hn by done.
Qed.

Lemma marks_ok_empty : marks_ok ∅.
Proof. intros c p Hc. by rewrite lookup_empty in Hc. Qed.

(** What is printed instead of a game. *)
Definition help_text : list Z :=
  text "     1   2   3\n   +---+---+---+\na  | T | I | C |\n   +---+---+---+\nb  | T | A | C |\n   +---+---+---+\nc  | T | O | E |\n   +---+---+---+\n\n" ++
  text "Tic-tac-toe (American English), noughts and crosses (British English), or Xs and Os is a paper-and-pencil game for two players, X and O, who take turns marking the spaces in a 3x3 grid. The player who succeeds in placing three of their marks in a horizontal, vertical, or diagonal row is the winner. - Wikipedia\n\n" ++
  text "This game implementation has been extended to allow bigger dimension grids, as well as more players, but those numbers are hardcoded - see source for details.\n\n".

Lemma shows_help keys : shows (help console frame) keys (help_text, Returned tt, keys).
Proof.
  eapply shows_eq; [unfold help; do 13 (eapply shows_line; [reflexivity|apply Nat.ltb_lt; reflexivity|]);
    eapply shows_print; [reflexivity|apply Nat.ltb_lt; reflexivity]|reflexivity].
Qed.

(** Help is given when the argument and -h agree as far as the shorter of them
    goes: for -h, -help, - and the empty string. *)
Definition help_wanted (argument : option (list Z)) : bool :=
  match argument with Some t => agree t (text "-h") | None => false end.

(** C32: at a console the game does, for any keys, what the machine of the game
    does: it draws the board, asks the players in turn, echoes and reads moves,
    refuses those off the board or on a marked cell, announces the player who
    completes a line of three, plays again after y and returns 0 after any
    other key; until then it waits for the next key.  It never announces a draw,
    though the code means to: with nine marks and no line it refuses every move
    ([stalemate]).  With an argument that agrees with -h (strcmp finds no
    difference when one is a prefix of the other) it prints the help and returns
    0 without a game.  It writes nothing else, never faults, and its
    uninitialised flags do not matter. *)
Theorem tictactoe_correct cmdline argument keys : bytes keys ->
  match cmdline with None => argument = None | Some s => exists t, c_string s = Ok t /\ argument = Some t end ->
  shows (main console frame uninitialised cmdline) keys
    (if help_wanted argument then (help_text, Returned 0, keys)
     else more (picture ∅ ++ prompt 1) (session new_game keys)).
Proof.
  intros Hb Hc. assert (exists h, h = help_wanted argument /\ forall (k : bool -> user Z) r, shows (k h) keys r ->
    shows (help_wanted ← match cmdline with
                | None => mret false
                | Some cmdline => c ← lift (strcmp cmdline (literal "-h")); mret (c =? 0)
                end; k help_wanted) keys r) as (h & <- & Hk).
  { destruct cmdline as [s|]; [destruct Hc as (t & Ht & ->)|subst argument]; eexists; (split; [reflexivity|]); intros k r Hr.
    - apply terminated_c_string in Ht as (rest & -> & Hz).
      destruct r as [[out e] rest2]. apply (shows_then _ _ _ [] (agree t (text "-h")) keys (out, e, rest2)); [|exact Hr].
      eapply shows_lift; [apply (strcmp_agree t (text "-h") rest []); [done|apply (bool_decide_unpack _); vm_compute; exact I]|].
      destruct (agree t (text "-h")); apply shows_mret.
    - destruct r as [[out e] rest2]. apply (shows_then _ _ _ [] false keys (out, e, rest2)); [apply shows_mret|exact Hr]. }
  unfold main. apply Hk. destruct h.
  - eapply shows_eq; [apply (shows_then _ _ _ _ _ keys ([], Returned 0, keys) (shows_help keys)), shows_mret|].
    unfold more. cbn [fst snd]. by rewrite app_nil_r.
  - eapply shows_eq; [eapply shows_lift; [apply (reset_board ∅)|]; eapply shows_then; [apply shows_picture|];
      apply (shows_session ∅ 1 keys); [apply marks_ok_empty|by left|done]|]. by rewrite !more_more.
Qed.
End shown.

(** What a program does at the start. *)
Lemma shows_does `{Console} {A} (t : user A) keys out e rest : UserLib.shows (console := console) t keys (out, e, rest) ->
  exists parts, does [] t keys (Wrote console <$> parts) e rest /\ mjoin parts = out.
Proof. intros Hs. exact (Hs []). Qed.

(** Player 1 completes the first row; the players have enough. *)
Lemma tictactoe_correct_witness :
  let keys := text "a1b1a2b2d9a1a3n" in
  let none := fun _ _ _ => 0 in let takes := fun _ _ _ => 0%nat in
  (exists parts, does (H := system none takes 5) [] (main 5 (replicate 0x1000 7) true None) keys (Wrote 5 <$> parts) (Returned 0) [] /\
    mjoin parts = (more (picture ∅ ++ prompt 1) (session new_game keys)).1.1) /\
  exists parts, does (H := system none takes 5) [] (main 5 (replicate 0x1000 7) true (Some (literal "-help"))) keys
    (Wrote 5 <$> parts) (Returned 0) keys /\ mjoin parts = help_text.
Proof.
  intros keys none takes. pose proof (system_console none takes 5) as HC.
  assert (bytes keys) as Hb by (apply (bool_decide_unpack _); vm_compute; exact I).
  pose proof (fun cmdline argument => tictactoe_correct (H := system none takes 5) (console := 5) (replicate 0x1000 7)
    ltac:(apply length_replicate) true cmdline argument keys Hb) as Hs. split.
  - pose proof (Hs None None (reflexivity _)) as H1. unfold help_wanted in H1.
    destruct (more (picture ∅ ++ prompt 1) (session new_game keys)) as [[o e] rest] eqn:E.
    assert (e = Returned 0 /\ rest = []) as [-> ->] by (vm_compute in E; by injection E as _ <- <-).
    exact (shows_does _ _ _ _ _ H1).
  - pose proof (Hs (Some (literal "-help")) (Some (text "-help"))
      (ex_intro _ (text "-help") (conj (reflexivity _) (reflexivity _)))) as H1.
    assert (help_wanted (Some (text "-help")) = true) as E by reflexivity. rewrite E in H1.
    exact (shows_does _ _ _ _ _ H1).
Defined.
