(* ===== verification/Shell.v ===== *)
(** * infos-user/src/shell: the command line, and the programs around it

    The shell reads a line, runs the program it names and waits for it.  Its
    global variables, the history, are passed along. *)
From ITree Require Import Core.ITreeDefinition.
From S2P Require Import Prelude Printf PrintfTheorems UserLib.

Definition MaxHistoryNumber : Z := 15.
Definition UpArrow : Z := 17.
Definition DownArrow : Z := 18.

Record History := { commandHistory : list (list Z); historyIndex : Z; historyNumber : Z }.

Definition history0 : History :=
  {| commandHistory := replicate 15 (replicate 128 0); historyIndex := -1; historyNumber := 0 |}.

(** An array at an index that may lie outside it. *)
Definition at_index {A} (l : list A) (i : Z) : outcome A :=
  if i <? 0 then Fault OutOfBounds else in_bounds (l !! Z.to_nat i).
Definition put_at (l : list Z) (i c : Z) : outcome (list Z) :=
  _ ← at_index l i; Ok (<[Z.to_nat i := c]> l).

(** The templates [strcpy] and [memcpy]; the first stops when the first character
    of the destination is 0. *)
Fixpoint strcpy_loop (n : nat) (i : Z) (from to : list Z) : outcome (list Z) :=
  match n with
  | O => Ok to
  | S n =>
      d ← at_index to 0;
      if d =? 0 then Ok to
      else c ← at_index from i; to ← put_at to i c; strcpy_loop n (i + 1) from to
  end.
Definition strcpy (from to : list Z) (size : Z) : outcome (list Z) := strcpy_loop (Z.to_nat size) 0 from to.

Fixpoint memcpy_loop (n : nat) (i : Z) (from to : list Z) : outcome (list Z) :=
  match n with
  | O => Ok to
  | S n => c ← at_index from i; to ← put_at to i c; memcpy_loop n (i + 1) from to
  end.
Definition memcpy (from to : list Z) (size : Z) : outcome (list Z) := memcpy_loop (Z.to_nat size) 0 from to.

(** The loop that copies the name: the array, its length and the rest of [cmd]. *)
Fixpoint name_loop (cmd prog : list Z) (n : Z) : outcome (list Z * Z * list Z) :=
  match cmd with
  | [] => Fault OutOfBounds
  | c :: rest =>
      if negb (c =? 0) && negb (c =? 32) && (n <? 63) then
        prog ← put_at prog n c; name_loop rest prog (n + 1)
      else Ok (prog, n, cmd)
  end.

(** [for (j = n; j >= 0; --j) prog[j + 5] = prog[j]]. *)
Fixpoint shift_loop (j : nat) (prog : list Z) : outcome (list Z) :=
  c ← at_index prog (Z.of_nat j);
  prog ← put_at prog (Z.of_nat j + 5) c;
  match j with O => Ok prog | S j => shift_loop j prog end.

(** The program and the arguments of a command. *)
Definition parse (prog cmd : list Z) : outcome (list Z * list Z) :=
  '(prog, n, cmd) ← name_loop cmd prog 0;
  prog ← put_at prog n 0;
  first ← at_index prog 0;
  prog ← (if (n <? 63 - 5) && negb (first =? 47) then
            prog ← shift_loop (Z.to_nat n) prog; memcpy (literal "/usr/") prog 5
          else Ok prog);
  match cmd with
  | [] => Fault OutOfBounds
  | c :: rest => Ok (prog, if c =? 0 then cmd else rest)
  end.

(** [stack] is what [prog] and [command_buffer] hold before they are written. *)
Section shell.
Context (console : Z) (frame : list Z) (stack : nat -> list Z).
#[local] Abbreviation print fmt args := (_ ← printf console frame (literal fmt) args; mret tt) (only parsing).

Definition remember (h : History) (cmd : list Z) : outcome History :=
  let index := i32 (historyIndex h + 1) in
  let row := if index =? 15 then 0 else index in
  to ← at_index (commandHistory h) row;
  to ← strcpy cmd to 128;
  Ok {| commandHistory := <[Z.to_nat row := to]> (commandHistory h); historyIndex := index;
        historyNumber := i32 (historyNumber h + 1) |}.

Definition run_command (h : History) (cmd : list Z) : user History :=
  h ← lift (remember h cmd);
  '(prog, cmd) ← lift (parse (stack 64) cmd);
  pcmd ← exec prog (Some cmd);
  _ ← if is_error pcmd then print "error: unable to run command '%s'\n" [VStr cmd] else wait_proc pcmd;
  mret h.

(** A command of the history in place of the one typed. *)
Definition recall (h : History) (buffer : list Z) (check : Z) : user (list Z) :=
  let index := historyIndex h - check in
  let index := if MaxHistoryNumber <=? index then index - MaxHistoryNumber else index in
  row ← lift (at_index (commandHistory h) index);
  _ ← print "%s" [VStr row];
  lift (strcpy row buffer 128).

Definition type_char (buffer : list Z) (n c : Z) : user (list Z * Z) :=
  if c =? 8 then
    if 0 <? n then
      buffer ← lift (put_at buffer (n - 1) 0);
      _ ← print "\b" [];
      mret (buffer, n - 1)
    else mret (buffer, n)
  else
    buffer ← lift (put_at buffer n c);
    _ ← print "%c" [VInt c];
    mret (buffer, n + 1).

(** One round of [while (n < 127)]. *)
Definition read_key (h : History) (st : list Z * Z * Z) : user (list Z * Z * Z + list Z * Z) :=
  let '(buffer, n, check) := st in
  if 127 <=? n then mret (inr (buffer, n))
  else
    c ← getch console frame;
    if c =? 0 then mret (inl (buffer, n, check))
    else if c =? 10 then mret (inr (buffer, n))
    else
      '(buffer, n) ← type_char buffer n c;
      if c =? UpArrow then
        if historyNumber h =? 0 then mret (inl (buffer, n, check))
        else
          let check := i32 (check + 1) in
          if check <=? historyNumber h then
            let check := if check =? MaxHistoryNumber then check - 1 else check in
            buffer ← recall h buffer check;
            mret (inl (buffer, n, check))
          else mret (inl (buffer, n, check))
      else if c =? DownArrow then
        if historyNumber h =? 0 then mret (inl (buffer, n, check))
        else
          let check := i32 (check - 1) in
          if 0 <=? check then
            let check := if check =? 0 then check + 1 else check in
            buffer ← recall h buffer check;
            mret (inl (buffer, n, check))
          else mret (inl (buffer, n, check))
      else mret (inl (buffer, n, check)).

Definition command (h : History) : user (History + Z) :=
  _ ← print "> " [];
  '(buffer, n) ← loop (read_key h) (stack 128, 0, 0);
  _ ← print "\n" [];
  if n =? 0 then mret (inl h)
  else
    buffer ← lift (put_at buffer n 0);
    e ← lift (strcmp (literal "exit") buffer);
    if e =? 0 then mret (inr 0)
    else h ← run_command h buffer; mret (inl h).

Definition shell_main (cmdline : option (list Z)) : user Z :=
  _ ← print "This is the InfOS shell.  Path resolution is not-yet-implemented, so you\nmust type the command exactly, e.g. try typing: /usr/ls.\n\n" [];
  _ ← print "Use the cat program to view the README: /usr/cat /usr/docs/README\n\n" [];
  loop command history0.
End shell.

(** ** The other programs *)
Section programs.
Context (console : Z) (frame : list Z) (stack : nat -> list Z).
#[local] Abbreviation print fmt args := (_ ← printf console frame (literal fmt) args; mret tt) (only parsing).

(** [while (getch() != '\n');] *)
Definition await_enter : user unit :=
  loop (fun _ : unit => c ← getch console frame; mret (if c =? 10 then inr tt else inl tt)) tt.

Definition init_main (cmdline : option (list Z)) : user Z :=
  _ ← print "Welcome to InfOS!\nStarting the system...\n" [];
  loop (fun _ : unit =>
    shell_proc ← exec (literal "/usr/shell") None;
    if is_error shell_proc then
      _ ← print "Error: Unable to launch shell" []; mret (inr 1)
    else
      _ ← wait_proc shell_proc;
      _ ← print "SHELL TERMINATED!  PRESS ENTER TO RESTART\n" [];
      _ ← await_enter;
      mret (inl tt)) tt.

(** What a call stores at the front of an array. *)
Definition stored (buffer data : list Z) : list Z := data ++ drop (length data) buffer.

Definition cat_main (cmdline : option (list Z)) : user Z :=
  match cmdline with
  | None => mret 1
  | Some cmdline =>
      n ← lift (strlen cmdline);
      if n =? 0 then mret 1
      else
        file ← open cmdline 0;
        if is_error file then
          _ ← print "error: unable to open file '%s' for reading\n" [VStr cmdline]; mret 1
        else
          _ ← loop (fun buffer =>
                '(bytes_read, data) ← read file 63;
                buffer ← lift (put_at (stored buffer data) bytes_read 0);
                _ ← print "%s" [VStr buffer];
                mret (if 0 <? bytes_read then inl buffer else inr tt)) (stack 64);
          _ ← close file;
          mret 0
  end.

Definition ls_main (cmdline : option (list Z)) : user Z :=
  path ← match cmdline with
         | None => mret (literal "/usr")
         | Some cmdline => n ← lift (strlen cmdline); mret (if n =? 0 then literal "/usr" else cmdline)
         end;
  dir ← opendir path 0;
  if is_error dir then
    _ ← print "Unable to open directory '%s' for reading.\n" [VStr path]; mret 1
  else
    _ ← print "Directory Listing of '%s':\n" [VStr path];
    _ ← loop (fun _ : unit =>
          '(r, de) ← readdir dir;
          if r =? 0 then mret (inr tt)
          else _ ← print "  %s (%u bytes)\n" [VStr (name de); VInt (size de)]; mret (inl tt)) tt;
    _ ← closedir dir;
    mret 0.

(** The six 16-bit fields in memory. *)
Definition bytes_of_tod (t : tod) : list Z :=
  mjoin ((fun v => [u8 v; u8 (Z.shiftr v 8)]) <$> [seconds t; minutes t; hours t; day_of_month t; month t; year t]).

Definition tod_of_bytes (bs : list Z) : tod :=
  let field i := default 0 (bs !! (2 * i)%nat) + 256 * default 0 (bs !! (2 * i + 1)%nat) in
  {| seconds := field 0%nat; minutes := field 1%nat; hours := field 2%nat;
     day_of_month := field 3%nat; month := field 4%nat; year := field 5%nat |}.

Definition date_args (t : tod) : list va_item :=
  [VInt (day_of_month t); VInt (month t); VInt (year t); VInt (hours t); VInt (minutes t); VInt (seconds t)].

Definition date_main (cmdline : option (list Z)) : user Z :=
  '(rc, t) ← get_time_of_day;
  if negb (rc =? 0) then
    _ ← print "error: unable to get time of day: %d\n" [VInt rc]; mret rc
  else
    _ ← print "the current system date & time is: %02u/%02u/%u %02u:%02u:%02u\n" (date_args t);
    rtc_device ← open (literal "/dev/cmos-rtc0") 0;
    if is_error rtc_device then
      _ ← print "unable to open rtc device\n" []; mret 1
    else
      '(_, data) ← read rtc_device 12;
      let t := tod_of_bytes (stored (bytes_of_tod t) data) in
      _ ← close rtc_device;
      _ ← print "the current hardware date & time is: %02u/%02u/%u %02u:%02u:%02u\n" (date_args t);
      mret 0.

(** The scheduler test; [thread_proc_address] is where its thread starts. *)
Definition thread_proc (arg : Z) : user unit :=
  let thread_num := u32 arg in
  _ ← print "Thread %d Running!\n" [VInt thread_num];
  _ ← usleep (u32 (1500000 + u32 (thread_num * 500000)));
  _ ← print "Thread %d Stopping!\n" [VInt thread_num];
  stop_thread HTHREAD_SELF.

Fixpoint create_all (thread_proc_address : Z) (l : list Z) : user (list Z) :=
  match l with
  | [] => mret []
  | i :: l => t ← create_thread thread_proc_address i; ts ← create_all thread_proc_address l; mret (t :: ts)
  end.

Definition sched_test_main (thread_proc_address : Z) (cmdline : option (list Z)) : user Z :=
  _ ← print "Running Scheduler Test!\n" [];
  _ ← print "Using %d threads...\n" [VInt 10];
  threads ← create_all thread_proc_address (seqZ 0 10);
  _ ← each (seqZ 0 10) (fun i =>
        _ ← print "Waiting for thread %d...\n" [VInt i];
        t ← lift (at_index threads i);
        join_thread t);
  _ ← print "Scheduler Test Complete\n" [];
  mret 0.
End programs.

(** ** What a line says *)

(** The name ends at a space and has at most 63 characters. *)
Fixpoint word (n : nat) (line : list Z) : list Z :=
  match n, line with
  | S n, c :: line => if c =? 32 then [] else c :: word n line
  | _, _ => []
  end.

Definition name_of (line : list Z) : list Z := word 63 line.

(** A short name that does not start with a slash is looked for in /usr/. *)
Definition path_of (line : list Z) : list Z :=
  let name := name_of line in
  if (Z.of_nat (length name) <? 58) && negb (default 0 (head name) =? 47) then text "/usr/" ++ name else name.

(** The character behind the name is dropped. *)
Definition args_of (line : list Z) : list Z := drop (S (length (name_of line))) line.

Lemma c_string_app s rest : nonzero s -> c_string (s ++ 0 :: rest) = Ok s.
Proof.
  induction 1 as [|c s Hc _ IH]; [done|]. cbn [c_string app]. rewrite eqb_false by done. by rewrite IH.
Qed.

Lemma at_index_app {A} (l : list A) x r : at_index (l ++ x :: r) (Z.of_nat (length l)) = Ok x.
Proof. unfold at_index. compare. by rewrite Nat2Z.id, list_lookup_middle. Qed.

Lemma put_at_app l x r c : put_at (l ++ x :: r) (Z.of_nat (length l)) c = Ok (l ++ c :: r).
Proof.
  unfold put_at. rewrite at_index_app. cbn [mbind outcome_bind]. f_equal. rewrite Nat2Z.id.
  rewrite insert_app_r_alt by lia. by rewrite Nat.sub_diag.
Qed.

Lemma name_loop_spec n line tail pre post : nonzero line -> (length pre + n = 63)%nat -> length post = S n ->
  name_loop (line ++ 0 :: tail) (pre ++ post) (Z.of_nat (length pre)) =
    Ok (pre ++ word n line ++ drop (length (word n line)) post, Z.of_nat (length (pre ++ word n line)),
        drop (length (word n line)) line ++ 0 :: tail).
Proof.
  revert line pre post. induction n as [|n IH]; intros line pre post Hl Hn Hp.
  - cbn [word length app drop]. rewrite app_nil_r.
    destruct line as [|c line]; cbn [name_loop app]; [done|]. compare. by rewrite !andb_false_r.
  - destruct Hl as [|c line Hc Hl]; cbn [name_loop app word].
    { cbn [Z.eqb negb andb length app drop]. by rewrite app_nil_r. }
    rewrite (eqb_false c 0) by done. cbn [negb andb]. destruct (c =? 32); cbn [negb andb length app drop].
    { by rewrite app_nil_r. }
    compare. destruct post as [|x post]; [done|]. rewrite put_at_app. cbn [mbind outcome_bind].
    replace (pre ++ c :: post) with ((pre ++ [c]) ++ post) by (by rewrite <- app_assoc).
    replace (Z.of_nat (length pre) + 1) with (Z.of_nat (length (pre ++ [c]))) by (rewrite length_app; cbn; lia).
    rewrite IH; [|done|rewrite length_app; cbn; lia|cbn in Hp; lia]. by rewrite <- !app_assoc.
Qed.

Lemma shift_loop_spec j prog : (j + 6 <= length prog)%nat ->
  shift_loop j prog = Ok (take 5 prog ++ take (S j) prog ++ drop (j + 6) prog).
Proof.
  assert (forall i (p : list Z), (i + 6 <= length p)%nat -> exists c, p !! i = Some c /\
    at_index p (Z.of_nat i) = Ok c /\ put_at p (Z.of_nat i + 5) c = Ok (<[(i + 5)%nat := c]> p)) as Hstep.
  { intros i p Hi. destruct (lookup_lt_is_Some_2 p i ltac:(lia)) as [c Ec]. exists c. split; [done|].
    destruct (lookup_lt_is_Some_2 p (i + 5) ltac:(lia)) as [d Ed].
    unfold put_at, at_index. compare. replace (Z.to_nat (Z.of_nat i + 5)) with (i + 5)%nat by lia.
    by rewrite Nat2Z.id, Ec, Ed. }
  revert prog. induction j as [|j IH]; intros prog Hl; destruct (Hstep _ _ Hl) as (c & Ec & E1 & E2);
    cbn [shift_loop]; rewrite E1; cbn [mbind outcome_bind]; rewrite E2; cbn [mbind outcome_bind].
  - destruct prog as [|c0 [|c1 [|c2 [|c3 [|c4 [|c5 prog]]]]]]; try (cbn in Hl; lia). by injection Ec as <-.
  - rewrite IH by (rewrite length_insert; lia). f_equal.
    rewrite (take_S_r prog (S j) c Ec), !take_insert_ge by lia. rewrite <- app_assoc. f_equal. f_equal.
    replace (S j + 5)%nat with (j + 6)%nat by lia. replace (S j + 6)%nat with (S (j + 6)) by lia.
    destruct (lookup_lt_is_Some_2 (<[(j + 6)%nat := c]> prog) (j + 6)) as [d Ed]; [rewrite length_insert; lia|].
    rewrite (drop_S _ d) by done. rewrite list_lookup_insert_eq in Ed by lia. injection Ed as <-.
    by rewrite drop_insert_lt by lia.
Qed.

Lemma word_length n line : (length (word n line) <= n)%nat.
Proof.
  revert line. induction n as [|n IH]; intros [|c line]; cbn; try lia. destruct (c =? 32); cbn; [lia|].
  specialize (IH line). lia.
Qed.

Lemma word_nonzero n line : nonzero line -> nonzero (word n line).
Proof.
  intros Hl. revert n. induction Hl as [|c line Hc _ IH]; intros [|n]; try constructor. cbn.
  destruct (c =? 32); [constructor|]. constructor; [done|apply IH].
Qed.

Lemma memcpy_usr prog : (5 <= length prog)%nat -> memcpy (literal "/usr/") prog 5 = Ok (text "/usr/" ++ drop 5 prog).
Proof. destruct prog as [|c0 [|c1 [|c2 [|c3 [|c4 prog]]]]]; intros Hl; try (cbn in Hl; lia). reflexivity. Qed.

(** The name, moved up and completed. *)
Lemma prefixed_spec nm r : (length nm + S (length r) = 64)%nat -> (length nm < 58)%nat ->
  (prog ← shift_loop (length nm) (nm ++ 0 :: r); memcpy (literal "/usr/") prog 5) =
    Ok ((text "/usr/" ++ nm) ++ 0 :: drop (length nm + 6) (nm ++ 0 :: r)).
Proof.
  intros Hl Hn. rewrite shift_loop_spec by (rewrite length_app; cbn [length]; lia). cbn [mbind outcome_bind].
  rewrite memcpy_usr by (rewrite !length_app, length_take, length_app; cbn [length]; lia).
  rewrite drop_app_length' by (rewrite length_take, length_app; cbn [length]; lia).
  replace (take (S (length nm)) (nm ++ 0 :: r)) with (nm ++ [0]); [by rewrite <- !app_assoc|].
  change (0 :: r) with ([0] ++ r). rewrite app_assoc, take_app_length'; [done|]. rewrite length_app. cbn. lia.
Qed.

Lemma head_default nm (r : list Z) : at_index (nm ++ 0 :: r) 0 = Ok (default 0 (head nm)).
Proof. by destruct nm. Qed.

Lemma parse_spec prog line tail : nonzero line -> length prog = 64%nat ->
  exists p a, parse prog (line ++ 0 :: tail) = Ok (p, a) /\ c_string p = Ok (path_of line) /\ c_string a = Ok (args_of line).
Proof.
  intros Hz Hp. pose proof (word_length 63 line) as Hn. pose proof (word_nonzero 63 line Hz) as Hnz.
  fold (name_of line) in *. unfold parse.
  pose proof (name_loop_spec 63 line tail [] prog Hz eq_refl Hp) as E. cbn [app length] in E.
  change (Z.of_nat 0) with 0 in E. fold (name_of line) in E. rewrite E. cbn [mbind outcome_bind].
  destruct (drop (length (name_of line)) prog) as [|x r] eqn:Er.
  { apply (f_equal length) in Er. rewrite length_drop in Er. cbn [length] in Er. lia. }
  assert (length (name_of line) + S (length r) = 64)%nat as Hlr.
  { apply (f_equal length) in Er. rewrite length_drop in Er. cbn [length] in Er. lia. }
  rewrite put_at_app. cbn [mbind outcome_bind]. rewrite head_default. cbn [mbind outcome_bind].
  assert (exists p, (if (Z.of_nat (length (name_of line)) <? 63 - 5) && negb (default 0 (head (name_of line)) =? 47) then
      prog ← shift_loop (Z.to_nat (Z.of_nat (length (name_of line)))) (name_of line ++ 0 :: r); memcpy (literal "/usr/") prog 5
    else Ok (name_of line ++ 0 :: r)) = Ok p /\ c_string p = Ok (path_of line)) as (p & Ep & Hpath).
  { unfold path_of. rewrite Nat2Z.id. change (63 - 5) with 58.
    destruct (Z.ltb_spec (Z.of_nat (length (name_of line))) 58) as [Hs|Hs]; cbn [andb];
      [destruct (negb _)|]; [|eexists; split; [done|by apply c_string_app]..].
    rewrite prefixed_spec by lia. eexists. split; [done|]. apply c_string_app, Forall_app. split; [|done].
    apply (bool_decide_unpack _). vm_compute. exact I. }
  rewrite Ep. cbn [mbind outcome_bind]. destruct (drop (length (name_of line)) line) as [|c rest] eqn:Ed; cbn [app].
  - exists p, (0 :: tail). split; [done|]. split; [done|]. unfold args_of.
    rewrite drop_ge; [done|]. apply (f_equal length) in Ed. rewrite length_drop in Ed. cbn [length] in Ed. lia.
  - assert (nonzero (c :: rest)) as [Hc Hr]%Forall_cons by (rewrite <- Ed; by apply Forall_drop).
    rewrite (eqb_false c) by done. exists p, (rest ++ 0 :: tail). split; [done|]. split; [done|]. unfold args_of.
    replace (S (length (name_of line))) with (length (name_of line) + 1)%nat by lia.
    rewrite <- drop_drop, Ed. by apply c_string_app.
Qed.

(** ** The shell as a machine of keys *)
Abbreviation deeds A := (list action * ending A * list Z)%type.

Definition add {A} (acts : list action) (r : deeds A) : deeds A := (acts ++ r.1.1, r.1.2, r.2).

(** Actions, and what comes after them. *)
Definition doing {A} (past acts : list action) (next : list action -> deeds A) : deeds A := add acts (next (past ++ acts)).

Section specification.
Context (launches : list action -> list Z -> option (list Z) -> Z) (takes : list action -> Z -> list Z -> nat) (console : Z).

(** What a line that was entered does when [keys] are typed behind it: the
    actions, and the way the shell ends or stops to wait; or the number of
    commands run so far and the number of keys that the program has taken. *)
Definition enter (past : list action) (ran : nat) (line keys : list Z) : list action * (ending Z + nat * nat) :=
  let new_line := [Wrote console [10]] in
  let prompt := [Wrote console (text "> ")] in
  if bool_decide (line = []) then (new_line ++ prompt, inr (ran, 0%nat))
  else if agree (text "exit") line then (new_line, inl (Returned 0))
  else if (16 <=? ran)%nat then (new_line, inl (Stopped OutOfBounds))
  else
    let h := u64 (launches (past ++ new_line) (path_of line) (Some (args_of line))) in
    let run := new_line ++ [Ran (path_of line) (Some (args_of line))] in
    if is_error h then
      (run ++ [Wrote console (text "error: unable to run command '" ++ args_of line ++ text "'\n")] ++ prompt, inr (S ran, 0%nat))
    else
      let n := takes (past ++ run) h keys in
      if (n <=? length keys)%nat then (run ++ [Waited h] ++ prompt, inr (S ran, n)) else (run, inl Waiting).

(** Zero is ignored, backspace takes the last character back, and the 127th
    character enters the line as well as Enter does.  The next [skip] keys are
    another program's. *)
Fixpoint shell_session (past : list action) (ran skip : nat) (line keys : list Z) : deeds Z :=
  match keys with
  | [] => ([], Waiting, [])
  | c :: keys =>
      let entered acts line :=
        match enter (past ++ acts) ran line keys with
        | (more, inl e) => (acts ++ more, e, keys)
        | (more, inr (ran, n)) => doing past (acts ++ more) (fun past => shell_session past ran n [] keys)
        end in
      match skip with
      | S skip => shell_session past ran skip line keys
      | O =>
          if c =? 0 then shell_session past ran 0 line keys
          else if c =? 10 then entered [] line
          else if c =? 8 then
            if bool_decide (line = []) then shell_session past ran 0 [] keys
            else doing past [Wrote console [8]] (fun past => shell_session past ran 0 (take (length line - 1) line) keys)
          else
            let line := line ++ [c] in
            if (length line =? 127)%nat then entered [Wrote console [c]] line
            else doing past [Wrote console [c]] (fun past => shell_session past ran 0 line keys)
      end
  end.
End specification.

Lemma add_nil {A} (r : deeds A) : add [] r = r.
Proof. by destruct r as [[]]. Qed.

Lemma add_add {A} a1 a2 (r : deeds A) : add a1 (add a2 r) = add (a1 ++ a2) r.
Proof. unfold add. cbn [fst snd]. by rewrite app_assoc. Qed.

(** A line being typed. *)
Fixpoint edit (console : Z) (line keys : list Z) : deeds (list Z) :=
  match keys with
  | [] => ([], Waiting, [])
  | c :: keys =>
      if c =? 0 then edit console line keys
      else if c =? 10 then ([], Returned line, keys)
      else if c =? 8 then
        if bool_decide (line = []) then edit console [] keys
        else add [Wrote console [8]] (edit console (take (length line - 1) line) keys)
      else
        let line := line ++ [c] in
        add [Wrote console [c]]
          (if (length line =? 127)%nat then ([], Returned line, keys) else edit console line keys)
  end.

Definition typed (keys : list Z) : Prop := Forall (fun c => 0 <= c < 256 /\ c <> UpArrow /\ c <> DownArrow) keys.

(** What is known of a line that was read. *)
Lemma edit_spec console line keys : typed keys -> nonzero line -> (length line < 127)%nat ->
  let '(acts, e, rest) := edit console line keys in
  (e = Waiting /\ rest = []) \/
  (exists l, e = Returned l /\ nonzero l /\ (length l <= 127)%nat /\ typed rest /\ (length rest < length keys)%nat).
Proof.
  intros Ht. revert line. induction Ht as [|c keys Hc Ht IH]; intros line Hz Hl; [by left|]. cbn [edit].
  assert (forall (r : deeds (list Z)) acts, (let '(_, e, rest) := r in (e = Waiting /\ rest = []) \/
    (exists l, e = Returned l /\ nonzero l /\ (length l <= 127)%nat /\ typed rest /\ (length rest < length keys)%nat)) ->
    let '(_, e, rest) := add acts r in (e = Waiting /\ rest = []) \/
    (exists l, e = Returned l /\ nonzero l /\ (length l <= 127)%nat /\ typed rest /\ (length rest < length (c :: keys))%nat)) as Hadd.
  { intros [[a e] rest] acts. cbn. intros [?|(l & ? & ? & ? & ? & ?)]; [by left|]. right. exists l. intuition lia. }
  destruct (Z.eqb_spec c 0). { rewrite <- (add_nil (edit _ _ _)). by apply Hadd, IH. }
  destruct (Z.eqb_spec c 10). { right. exists line. cbn. intuition lia. }
  destruct (Z.eqb_spec c 8).
  { case_bool_decide; subst; [rewrite <- (add_nil (edit _ _ _)); by apply Hadd, IH|].
    apply Hadd, IH; [by apply Forall_take|rewrite length_take; lia]. }
  assert (nonzero (line ++ [c])) as Hz2 by (apply Forall_app; split; [done|by constructor]).
  destruct (Nat.eqb_spec (length (line ++ [c])) 127).
  - right. exists (line ++ [c]). cbn. intuition lia.
  - apply Hadd, IH; [done|]. rewrite length_app in *. cbn [length] in *. lia.
Qed.

Section session.
Context (launches : list action -> list Z -> option (list Z) -> Z) (takes : list action -> Z -> list Z -> nat) (console : Z).

Notation line_done := (enter launches takes console).
Notation session := (shell_session launches takes console).

Definition entered (past : list action) (ran : nat) (r : deeds (list Z)) : deeds Z :=
  let '(acts, e, rest) := r in
  match e with
  | Returned line =>
      match line_done (past ++ acts) ran line rest with
      | (acts2, inl e) => (acts ++ acts2, e, rest)
      | (acts2, inr (ran, n)) => doing past (acts ++ acts2) (fun past => session past ran n [] rest)
      end
  | Waiting => (acts, Waiting, rest)
  | Exited rc => (acts, Exited rc, rest)
  | Stopped f => (acts, Stopped f, rest)
  end.

Lemma entered_add past ran acts r : entered past ran (add acts r) = doing past acts (fun past => entered past ran r).
Proof.
  destruct r as [[a [line| | |]] rest]; try done. unfold doing. cbn [entered add fst snd]. rewrite <- app_assoc.
  destruct (line_done _ _ _ _) as [a2 [e|[n k]]]; [by rewrite <- app_assoc|]. unfold doing. by rewrite add_add, <- !app_assoc.
Qed.

Lemma session_edit past ran line keys :
  session past ran 0 line keys = entered past ran (edit console line keys).
Proof.
  revert past line. induction keys as [|c keys IH]; intros past line; [done|]. cbn [shell_session edit].
  destruct (c =? 0); [done|]. destruct (c =? 10); [cbn [entered]; by rewrite app_nil_r|]. destruct (c =? 8).
  { case_bool_decide; [by subst|]. rewrite entered_add. unfold doing. by rewrite IH. }
  rewrite entered_add. unfold doing. destruct (_ =? _)%nat; [|by rewrite IH]. unfold entered. rewrite app_nil_r.
  destruct (line_done _ _ _ _) as [a2 [e|[n k]]]; [done|]. unfold doing. by rewrite add_add, app_assoc.
Qed.

(** The keys that are another program's are passed over. *)
Lemma session_skip past ran skip line keys : (skip <= length keys)%nat ->
  session past ran skip line keys = session past ran 0 line (drop skip keys).
Proof.
  revert skip. induction keys as [|c keys IH]; intros [|skip] Hs; try done.
  cbn [drop shell_session]. apply IH. cbn in Hs. lia.
Qed.
End session.

(** ** The shell does what the machine does *)
Section does_shell.
Context `{Console} {launches takes} `{!Programs launches takes}.
Context (frame : list Z) (Hframe : length frame = 0x1000%nat).
Context (stack : nat -> list Z) (Hstack : forall n, length (stack n) = n).

Lemma does_print past fmt args out keys : printed fmt None args = Some out -> (length out < 0xffe)%nat ->
  does past (_ ← printf console frame fmt args; mret tt) keys [Wrote console out] (Returned tt) keys.
Proof. intros Hr Hl. eapply does_seq; [by apply does_printf|apply does_mret|done]. Qed.

Lemma does_line {A} past fmt args out (k : unit -> user A) keys acts e rest :
  printed fmt None args = Some out -> (length out < 0xffe)%nat -> does (past ++ [Wrote console out]) (k tt) keys acts e rest ->
  does past ((_ ← printf console frame fmt args; mret tt) ≫= k) keys (Wrote console out :: acts) e rest.
Proof. intros Hr Hl Hk. eapply does_seq; [by apply does_print|exact Hk|done]. Qed.

Lemma does_lift {A B} past (o : outcome A) a (k : A -> user B) keys acts e rest :
  o = Ok a -> does past (k a) keys acts e rest -> does past (lift o ≫= k) keys acts e rest.
Proof. intros -> Hk. eapply does_seq; [apply does_mret|rewrite app_nil_r; exact Hk|done]. Qed.

Lemma does_lift_fault {A B} past (o : outcome A) f (k : A -> user B) keys :
  o = Fault f -> does past (lift o ≫= k) keys [] (Stopped f) keys.
Proof. intros ->. eapply does_undefined. by rewrite observe_bind. Qed.

(** A key that is not an arrow. *)
Lemma does_type past line post c keys : 0 <= c < 256 -> (length (line ++ post) = 128)%nat -> (length line < 127)%nat -> c <> 8 ->
  exists post', does past (type_char console frame (line ++ post) (Z.of_nat (length line)) c) keys [Wrote console [c]]
    (Returned ((line ++ [c]) ++ post', Z.of_nat (length (line ++ [c])))) keys /\ length ((line ++ [c]) ++ post') = 128%nat.
Proof.
  intros Hc Hb Hl H8. destruct post as [|x post]; [rewrite app_nil_r in Hb; lia|]. exists post.
  rewrite !length_app in *. cbn [length] in *. split; [|lia].
  unfold type_char. rewrite eqb_false by done. eapply does_lift; [apply put_at_app|].
  eapply does_line with (out := [c]); [transitivity (Some [u8 c]); [reflexivity|by rewrite wrap_small by lia]|cbn; lia|].
  rewrite <- app_assoc, Nat2Z.inj_add. apply does_mret.
Qed.

Lemma does_backspace past line post keys : (length (line ++ post) = 128)%nat -> line <> [] ->
  exists post', does past (type_char console frame (line ++ post) (Z.of_nat (length line)) 8) keys [Wrote console [8]]
    (Returned (take (length line - 1) line ++ post', Z.of_nat (length (take (length line - 1) line)))) keys /\
    length (take (length line - 1) line ++ post') = 128%nat.
Proof.
  intros Hb Hn. destruct line as [|d line _] using rev_ind; [done|]. exists (0 :: post).
  rewrite !length_app in *. cbn [length] in *. replace (length line + 1 - 1)%nat with (length line) by lia.
  rewrite take_app_length. split; [|lia]. unfold type_char. cbn [Z.eqb Pos.eqb]. compare.
  replace (Z.of_nat (length line + 1) - 1) with (Z.of_nat (length line)) by lia. rewrite <- app_assoc.
  eapply does_lift; [apply put_at_app|]. eapply does_line; [reflexivity|cbn; lia|apply does_mret].
Qed.

(** The loop that reads a line, against [edit]. *)
Definition reads_line (past : list action) (h : History) (buffer : list Z) (n check : Z) (keys : list Z) (r : deeds (list Z)) : Prop :=
  let '(acts, e, rest) := r in
  exists e', does past (loop (read_key console frame h) (buffer, n, check)) keys acts e' rest /\
    match e with
    | Returned l => exists post, e' = Returned (l ++ post, Z.of_nat (length l)) /\ length (l ++ post) = 128%nat
    | _ => e' = Waiting
    end.

Lemma reads_line_next past h buffer n check buffer2 n2 keys keys2 acts r :
  does past (read_key console frame h (buffer, n, check)) keys acts (Returned (inl (buffer2, n2, check))) keys2 ->
  reads_line (past ++ acts) h buffer2 n2 check keys2 r -> reads_line past h buffer n check keys (add acts r).
Proof.
  intros H1. destruct r as [[acts2 e] rest]. intros (e' & H2 & He). exists e'. split; [by eapply does_loop_next|done].
Qed.

Lemma does_edit past h line post check keys : typed keys -> (length (line ++ post) = 128)%nat -> (length line < 127)%nat ->
  reads_line past h (line ++ post) (Z.of_nat (length line)) check keys (edit console line keys).
Proof.
  intros Ht. revert past line post. induction Ht as [|c keys (Hc & Hup & Hdown) Ht IH]; intros past line post Hb Hl.
  { exists Waiting. split; [|done]. apply does_loop_wait. unfold read_key. compare. apply does_bind_wait, does_getch_wait. }
  unfold UpArrow, DownArrow in *. cbn [edit].
  assert (forall acts e, does past (if c =? 0 then mret (inl (line ++ post, Z.of_nat (length line), check))
      else if c =? 10 then mret (inr (line ++ post, Z.of_nat (length line)))
      else '(buffer, n) ← type_char console frame (line ++ post) (Z.of_nat (length line)) c;
           mret (inl (buffer, n, check))) keys acts e keys ->
    does past (read_key console frame h (line ++ post, Z.of_nat (length line), check)) (c :: keys) acts e keys) as Hkey.
  { intros acts e Hd. unfold read_key. compare. eapply does_seq; [apply does_getch|rewrite app_nil_r|done].
    unfold UpArrow, DownArrow. by rewrite (eqb_false c 17), (eqb_false c 18) by done. }
  destruct (Z.eqb_spec c 0) as [->|Hc0].
  { rewrite <- (add_nil (edit _ _ _)). eapply reads_line_next; [apply Hkey, does_mret|by apply IH]. }
  destruct (Z.eqb_spec c 10) as [->|Hc10].
  { eexists. split; [apply does_loop_done, Hkey, does_mret|by exists post]. }
  destruct (Z.eqb_spec c 8) as [->|Hc8].
  - case_bool_decide as Hn.
    { subst line. rewrite <- (add_nil (edit _ _ _)). eapply reads_line_next; [|by apply (IH _ [] post)].
      apply Hkey. eapply does_seq; apply does_mret || done. }
    destruct (does_backspace past line post keys Hb Hn) as (post' & Hd & Hlen).
    eapply reads_line_next; [apply Hkey; eapply does_seq; [exact Hd|apply does_mret|by rewrite app_nil_r]|].
    apply IH; [done|]. rewrite length_take. lia.
  - destruct (does_type past line post c keys Hc Hb Hl Hc8) as (post' & Hd & Hlen).
    eapply reads_line_next; [apply Hkey; eapply does_seq; [exact Hd|apply does_mret|by rewrite app_nil_r]|].
    destruct (Nat.eqb_spec (length (line ++ [c])) 127) as [E|E].
    + eexists. split; [|by exists post']. apply does_loop_done. unfold read_key. rewrite E. apply does_mret.
    + apply IH; [done|]. rewrite length_app in *. cbn [length] in *. lia.
Qed.

(** ** Commands *)
Definition history_after (ran : nat) : History :=
  {| commandHistory := replicate 15 (replicate 128 0); historyIndex := Z.of_nat ran - 1; historyNumber := Z.of_nat ran |}.

(** The history stays empty: a row that holds an empty command is not written. *)
Lemma remember_spec ran cmd : (ran < 16)%nat -> remember (history_after ran) cmd = Ok (history_after (S ran)).
Proof. intros Hr. do 16 (destruct ran as [|ran]; [reflexivity|]). lia. Qed.

Lemma remember_17 cmd : remember (history_after 16) cmd = Fault OutOfBounds.
Proof. reflexivity. Qed.

Lemma render_plain s fmt args out : Forall (fun c => c <> 0 /\ c <> 37) s ->
  printed fmt None args = Some out -> printed (s ++ fmt) None args = Some (s ++ out).
Proof.
  intros Hs Hr. induction Hs as [|c s [Hc0 Hc37] _ IH]; [done|]. cbn [app render_with]. rewrite !eqb_false by done. by rewrite IH.
Qed.

Lemma plain_text s : forallb (fun c => negb (c =? 0) && negb (c =? 37)) s = true -> Forall (fun c => c <> 0 /\ c <> 37) s.
Proof.
  rewrite forallb_forall. intros Hs. apply Forall_forall. intros c Hc. apply list_elem_of_In, Hs in Hc.
  rewrite andb_true_iff, !negb_true_iff, !Z.eqb_neq in Hc. done.
Qed.

Lemma render_string a t fmt out : c_string a = Ok t -> printed fmt None [] = Some out ->
  printed (37 :: 115 :: fmt) None [VStr a] = Some (t ++ out).
Proof.
  intros (rest & -> & Hz)%terminated_c_string Hr.
  assert (terminated (t ++ 0 :: rest) = true) as Ht.
  { apply existsb_exists. exists 0. split; [apply in_app_iff; right; by left|done]. }
  assert (str_text (t ++ 0 :: rest) 0 32 = t) as Hs.
  { unfold str_text. replace (chars (t ++ 0 :: rest)) with t.
    - replace (Z.to_nat (0 - Z.of_nat (length t))) with 0%nat by lia. by rewrite app_nil_r.
    - clear Ht. induction Hz as [|c t Hc _ IH]; [done|]. cbn [chars app]. rewrite eqb_false by done. by rewrite <- IH. }
  cbn [render_with Z.eqb Pos.eqb]. unfold conv_text. cbn [spec_next is_digit spec0 orb andb Z.eqb Z.leb Z.compare Pos.compare Pos.compare_cont Pos.eqb].
  change (spec_next spec0 115) with (@None spec). cbn [pad_size pad_char spec0]. rewrite Ht, Hs. cbn [mbind option_bind].
  by rewrite Hr.
Qed.

Lemma render_error a t : c_string a = Ok t ->
  printed (literal "error: unable to run command '%s'\n") None [VStr a] =
    Some (text "error: unable to run command '" ++ t ++ text "'\n").
Proof.
  intros Ha. change (literal "error: unable to run command '%s'\n")
    with (text "error: unable to run command '" ++ 37 :: 115 :: literal "'\n").
  apply render_plain; [by apply plain_text|]. by apply render_string.
Qed.

Lemma does_exec past p a prog args keys : c_string p = Ok prog -> c_string a = Ok args ->
  does past (exec p (Some a)) keys [Ran prog (Some args)] (Returned (u64 (launches past prog (Some args)))) keys.
Proof.
  intros Hp Ha. eapply does_lift; [exact Hp|]. eapply does_seq; [eapply does_lift; [exact Ha|apply does_mret]| |done].
  rewrite app_nil_r. eapply does_seq; [apply does_answer, program_run|apply does_mret|done].
Qed.

(** The keys typed to the program are gone when the wait returns. *)
Lemma does_wait_proc past h keys : (takes past h keys <= length keys)%nat ->
  does past (wait_proc h) keys [Waited h] (Returned tt) (drop (takes past h keys) keys).
Proof.
  intros Ht. eapply does_seq; [apply (does_answer _ _ _ 0 [Waited h])|apply does_mret|done].
  by rewrite program_waited, (proj2 (Nat.leb_le _ _)).
Qed.

Lemma does_wait_on past h keys : (length keys < takes past h keys)%nat -> does past (wait_proc h) keys [] Waiting keys.
Proof.
  intros Ht. apply does_bind_wait, does_no_answer. by rewrite program_waited, (proj2 (Nat.leb_gt _ _)).
Qed.

(** A command that is run, up to the next prompt. *)
Lemma does_run_command past ran line tail keys acts e : (ran < 16)%nat -> nonzero line -> line <> [] ->
  agree (text "exit") line = false -> (length line <= 127)%nat ->
  enter launches takes console past ran line keys = (Wrote console [10] :: acts, e) ->
  match e with
  | inl e => e = Waiting /\
      does (past ++ [Wrote console [10]]) (run_command console frame stack (history_after ran) (line ++ 0 :: tail)) keys acts Waiting keys
  | inr (n, k) => n = S ran /\ exists acts2, acts = acts2 ++ [Wrote console (text "> ")] /\
      does (past ++ [Wrote console [10]]) (run_command console frame stack (history_after ran) (line ++ 0 :: tail)) keys acts2
        (Returned (history_after (S ran))) (drop k keys)
  end.
Proof.
  intros Hr Hz Hn0 Hx Hl. unfold enter. rewrite bool_decide_eq_false_2, Hx, (proj2 (Nat.leb_gt 16 ran)) by done.
  set (q := past ++ [Wrote console [10]]). set (h := u64 (launches q (path_of line) (Some (args_of line)))).
  destruct (parse_spec (stack 64) line tail Hz (Hstack 64)) as (p & a & E & Hp & Ha).
  assert (forall acts e rest, does (q ++ [Ran (path_of line) (Some (args_of line))])
      (_ ← if is_error h then _ ← printf console frame (literal "error: unable to run command '%s'\n") [VStr a]; mret tt
           else wait_proc h; mret (history_after (S ran))) keys acts e rest ->
    does q (run_command console frame stack (history_after ran) (line ++ 0 :: tail)) keys
      (Ran (path_of line) (Some (args_of line)) :: acts) e rest) as Hrun.
  { intros acts1 e1 rest1 Hd. eapply does_lift; [by apply remember_spec|]. eapply does_lift; [exact E|].
    eapply does_seq; [by apply does_exec|exact Hd|done]. }
  destruct (is_error h).
  - intros [= <- <-]. split; [done|].
    exists [Ran (path_of line) (Some (args_of line)); Wrote console (text "error: unable to run command '" ++ args_of line ++ text "'\n")].
    split; [reflexivity|]. apply Hrun.
    eapply does_seq; [|apply does_mret|by rewrite app_nil_r]. apply does_print; [by apply render_error|].
    rewrite !length_app. change (length (text _)) with 30%nat at 1. change (length (text "'\n")) with 2%nat.
    unfold args_of. rewrite length_drop. lia.
  - cbn zeta. replace (past ++ [Wrote console [10]] ++ [Ran (path_of line) (Some (args_of line))])
      with (q ++ [Ran (path_of line) (Some (args_of line))]) by (unfold q; by rewrite <- app_assoc).
    set (q2 := q ++ [Ran (path_of line) (Some (args_of line))]) in *.
    destruct (Nat.leb_spec (takes q2 h keys) (length keys)) as [Hle|Hgt]; intros [= <- <-].
    + split; [done|]. eexists (_ :: [_]). split; [reflexivity|]. apply Hrun.
      eapply does_seq; [by apply does_wait_proc|apply does_mret|by rewrite app_nil_r].
    + split; [done|]. by apply Hrun, does_bind_wait, does_wait_on.
Qed.

Lemma enter_new_line past ran line keys more e : enter launches takes console past ran line keys = (more, e) ->
  exists more', more = Wrote console [10] :: more'.
Proof. unfold enter. repeat case_match; intros [= <- <-]; by eexists. Qed.

(** A line and what it does, from the shell's loop. *)
Lemma does_command past ran line acts keys rest : (ran <= 16)%nat -> nonzero line -> (length line <= 127)%nat ->
  reads_line (past ++ [Wrote console (text "> ")]) (history_after ran) (stack 128) 0 0 keys (acts, Returned line, rest) ->
  let start := Wrote console (text "> ") :: acts in
  match enter launches takes console (past ++ start) ran line rest with
  | (more, inl e) => does past (loop (command console frame stack) (history_after ran)) keys (start ++ more) e rest
  | (more, inr (n, k)) => exists acts2, more = acts2 ++ [Wrote console (text "> ")] /\
      does past (command console frame stack (history_after ran)) keys (start ++ acts2) (Returned (inl (history_after n))) (drop k rest)
  end.
Proof.
  intros Hran Hz Hl (e' & Hd & post & -> & Hb) start.
  assert (forall acts2 e rest2, does ((past ++ start) ++ [Wrote console [10]])
      (if Z.of_nat (length line) =? 0 then mret (inl (history_after ran))
      else buffer ← lift (put_at (line ++ post) (Z.of_nat (length line)) 0);
           e ← lift (strcmp (literal "exit") buffer);
           if e =? 0 then mret (inr 0)
           else h ← run_command console frame stack (history_after ran) buffer; mret (inl h)) rest acts2 e rest2 ->
    does past (command console frame stack (history_after ran)) keys (start ++ Wrote console [10] :: acts2) e rest2) as Hbody.
  { intros acts2 e rest2 H2. apply does_line; [reflexivity|cbn; lia|]. eapply does_seq; [exact Hd| |done].
    apply does_line; [reflexivity|cbn; lia|]. unfold start in H2. rewrite <- !app_assoc in *. exact H2. }
  destruct post as [|x post]; [rewrite app_nil_r in Hb; lia|].
  destruct (decide (line = [])) as [->|Hn].
  { exists [Wrote console [10]]. split; [done|]. apply Hbody, does_mret. }
  assert (Z.of_nat (length line) <> 0) as Hn0 by (destruct line; [done|cbn [length]; lia]).
  assert (forall acts2 e rest2, does ((past ++ start) ++ [Wrote console [10]])
      (if (if agree (text "exit") line then 0 else -1) =? 0 then mret (inr 0)
           else h ← run_command console frame stack (history_after ran) (line ++ 0 :: post); mret (inl h)) rest acts2 e rest2 ->
    does past (command console frame stack (history_after ran)) keys (start ++ Wrote console [10] :: acts2) e rest2) as Hrun.
  { intros acts2 e rest2 H2. apply Hbody. rewrite eqb_false by done. eapply does_lift; [apply put_at_app|].
    eapply does_lift; [|exact H2]. apply (strcmp_agree (text "exit") line [] post); [|done].
    apply (bool_decide_unpack _). vm_compute. exact I. }
  destruct (agree (text "exit") line) eqn:Ex.
  { unfold enter. rewrite bool_decide_eq_false_2, Ex by done. apply does_loop_done, Hrun, does_mret. }
  destruct (Nat.leb_spec 16 ran) as [Hge|Hlt].
  - unfold enter. rewrite bool_decide_eq_false_2, Ex, (proj2 (Nat.leb_le 16 ran)) by done.
    replace ran with 16%nat in * by lia. apply does_loop_stopped, Hrun, does_bind_stopped. by apply does_lift_fault.
  - destruct (enter launches takes console (past ++ start) ran line rest) as [more e] eqn:Ee.
    destruct (enter_new_line _ _ _ _ _ _ Ee) as (more' & ->).
    pose proof (does_run_command (past ++ start) ran line post rest more' e Hlt Hz Hn Ex Hl Ee) as Hc.
    destruct e as [e|[n k]].
    + destruct Hc as [-> Hc]. apply does_loop_wait, Hrun. by apply does_bind_wait.
    + destruct Hc as [-> (acts2 & -> & Hc)]. exists (Wrote console [10] :: acts2). split; [done|]. apply Hrun.
      eapply does_seq; [exact Hc|apply does_mret|by rewrite app_nil_r].
Qed.

Lemma enter_ran past ran line keys more n k : (ran <= 16)%nat ->
  enter launches takes console past ran line keys = (more, inr (n, k)) -> (n <= 16)%nat /\ (k <= length keys)%nat.
Proof.
  intros Hr. unfold enter. case_bool_decide; [intros [= _ <- <-]; lia|]. destruct (agree _ _); [done|].
  destruct (Nat.leb_spec 16 ran); [done|]. destruct (is_error _); [intros [= _ <- <-]; lia|].
  cbn zeta. case_match eqn:Hk; [|done]. apply Nat.leb_le in Hk. intros [= _ <- <-]. split; [lia|exact Hk].
Qed.

Lemma does_session past ran keys : typed keys -> (ran <= 16)%nat ->
  let '(acts, e, rest) := shell_session launches takes console (past ++ [Wrote console (text "> ")]) ran 0 [] keys in
  does past (loop (command console frame stack) (history_after ran)) keys (Wrote console (text "> ") :: acts) e rest.
Proof.
  revert past ran. induction keys as [keys IH] using (induction_ltof1 _ length). unfold ltof in IH. intros past ran Ht Hran.
  rewrite session_edit. pose proof (edit_spec console [] keys Ht ltac:(constructor) ltac:(cbn; lia)) as He.
  pose proof (does_edit (past ++ [Wrote console (text "> ")]) (history_after ran) [] (stack 128) 0 keys Ht (Hstack 128) ltac:(cbn; lia)) as Hd.
  destruct (edit console [] keys) as [[acts e] rest]. destruct He as [[-> ->]|(l & -> & Hz & Hl & Ht2 & Hlen)].
  - destruct Hd as (e' & Hd & ->). apply does_loop_wait. apply does_line; [reflexivity|cbn; lia|]. by apply does_bind_wait.
  - pose proof (does_command past ran l acts keys rest Hran Hz Hl Hd) as Hc. cbn zeta in Hc. cbn [entered].
    replace ((past ++ [Wrote console (text "> ")]) ++ acts) with (past ++ Wrote console (text "> ") :: acts) by (by rewrite <- app_assoc).
    destruct (enter launches takes console _ ran l rest) as [more [e|[n k]]] eqn:Ee; [exact Hc|].
    destruct Hc as (acts2 & -> & Hc). destruct (enter_ran _ _ _ _ _ _ _ Hran Ee) as [Hn Hk].
    unfold doing. rewrite session_skip by done.
    specialize (IH (drop k rest) ltac:(rewrite length_drop; lia) (past ++ (Wrote console (text "> ") :: acts) ++ acts2) n
      ltac:(by apply Forall_drop) Hn).
    replace ((past ++ [Wrote console (text "> ")]) ++ acts ++ acts2 ++ [Wrote console (text "> ")])
      with ((past ++ (Wrote console (text "> ") :: acts) ++ acts2) ++ [Wrote console (text "> ")])
      by (rewrite <- !app_assoc; cbn [app]; by rewrite <- ?app_assoc).
    destruct (shell_session launches takes console _ n 0 [] (drop k rest)) as [[acts3 e3] rest3]. cbn [add fst snd].
    replace (Wrote console (text "> ") :: (acts ++ acts2 ++ [Wrote console (text "> ")]) ++ acts3) with
      ((Wrote console (text "> ") :: acts ++ acts2) ++ Wrote console (text "> ") :: acts3)
      by (cbn; by rewrite <- !app_assoc).
    by eapply does_loop_next.
Qed.

(** ** init: the shell is started again after every Enter *)
Definition init_round (past : list action) (keys : list Z) : list action * option nat :=
  let h := u64 (launches past (text "/usr/shell") None) in
  let run := [Ran (text "/usr/shell") None] in
  let n := takes (past ++ run) h keys in
  if (n <=? length keys)%nat
  then (run ++ [Waited h; Wrote console (text "SHELL TERMINATED!  PRESS ENTER TO RESTART\n")], Some n)
  else (run, None).

(** The keys that the shell has not taken. *)
Fixpoint restarts (past : list action) (skip : nat) (keys : list Z) : list action :=
  match keys with
  | [] => []
  | c :: keys =>
      match skip with
      | S skip => restarts past skip keys
      | O =>
          if c =? 10 then
            let '(acts, n) := init_round past keys in
            acts ++ match n with Some n => restarts (past ++ acts) n keys | None => [] end
          else restarts past 0 keys
      end
  end.

Lemma restarts_skip past skip keys : (skip <= length keys)%nat -> restarts past skip keys = restarts past 0 (drop skip keys).
Proof.
  revert skip. induction keys as [|c keys IH]; intros [|skip] Hs; try done. apply IH. cbn in Hs. lia.
Qed.

Lemma does_await_enter past keys :
  (does past (await_enter console frame) keys [] Waiting [] /\ restarts past 0 keys = []) \/
  (exists rest, does past (await_enter console frame) keys [] (Returned tt) rest /\ (length rest < length keys)%nat /\
    restarts past 0 keys = (let '(acts, n) := init_round past rest in
      acts ++ match n with Some n => restarts (past ++ acts) n rest | None => [] end)).
Proof.
  assert (forall c keys, does past (c ← getch console frame; mret (if c =? 10 then inr tt else inl tt)) (c :: keys) []
    (Returned (if c =? 10 then inr tt else inl tt : unit + unit)) keys) as Hkey.
  { intros c keys'. eapply does_seq; [apply does_getch|apply does_mret|done]. }
  induction keys as [|c keys IH].
  { left. split; [|done]. apply does_loop_wait, does_bind_wait, does_getch_wait. }
  specialize (Hkey c keys). cbn [restarts]. destruct (c =? 10).
  { right. exists keys. split; [by apply does_loop_done|]. by split; [cbn; lia|]. }
  destruct IH as [[IH Hr]|(rest & IH & Hl & Hr)].
  - left. split; [|done]. apply (does_loop_next past _ tt tt _ [] keys []); [done|by rewrite app_nil_r].
  - right. exists rest. split; [apply (does_loop_next past _ tt tt _ [] keys []); [done|by rewrite app_nil_r]|]. split; [cbn; lia|done].
Qed.

(** A round of init from the start of a shell, and all that come after it. *)
Lemma init_rounds past keys : (forall past, is_error (u64 (launches past (text "/usr/shell") None)) = false) ->
  exists rest, does past (loop (fun _ : unit =>
      shell_proc ← exec (literal "/usr/shell") None;
      if is_error shell_proc then
        _ ← (_ ← printf console frame (literal "Error: Unable to launch shell") []; mret tt); mret (inr 1)
      else
        _ ← wait_proc shell_proc;
        _ ← (_ ← printf console frame (literal "SHELL TERMINATED!  PRESS ENTER TO RESTART\n") []; mret tt);
        _ ← await_enter console frame;
        mret (inl tt)) tt) keys
    (let '(acts, n) := init_round past keys in
     acts ++ match n with Some n => restarts (past ++ acts) n keys | None => [] end) (A := Z) Waiting rest.
Proof.
  intros He. revert past. induction keys as [keys IH] using (induction_ltof1 _ length). unfold ltof in IH. intros past.
  assert (does past (exec (literal "/usr/shell") None) keys [Ran (text "/usr/shell") None]
    (Returned (u64 (launches past (text "/usr/shell") None))) keys) as Hx.
  { eapply does_lift; [reflexivity|]. eapply does_seq; [apply does_mret|rewrite app_nil_r|done].
    eapply does_seq; [apply does_answer, program_run|apply does_mret|done]. }
  specialize (He past) as Hh. unfold init_round. set (h := u64 (launches past (text "/usr/shell") None)) in *.
  set (q := past ++ [Ran (text "/usr/shell") None]). destruct (Nat.leb_spec (takes q h keys) (length keys)) as [Hle|Hgt].
  2: { exists keys. apply does_loop_wait. eapply does_seq; [exact Hx| |done]. rewrite Hh. by apply does_bind_wait, does_wait_on. }
  rewrite restarts_skip by done. set (msg := Wrote console (text "SHELL TERMINATED!  PRESS ENTER TO RESTART\n")).
  set (rest := drop (takes q h keys) keys). cbn [app].
  destruct (does_await_enter (past ++ [Ran (text "/usr/shell") None; Waited h; msg]) rest) as [[Hw Hr]|(rest2 & Hw & Hl & Hr)]; rewrite Hr.
  - exists []. apply does_loop_wait. eapply does_seq; [exact Hx| |done]. rewrite Hh.
    eapply does_seq; [by apply does_wait_proc| |done]. apply does_line; [reflexivity|apply Nat.ltb_lt; reflexivity|].
    apply does_bind_wait. rewrite <- !app_assoc. exact Hw.
  - destruct (IH rest2) with (past := past ++ [Ran (text "/usr/shell") None; Waited h; msg]) as [rest3 Hnext].
    { unfold rest in Hl. rewrite length_drop in Hl. lia. }
    exists rest3. match goal with |- does _ _ _ (?a :: ?b :: ?c :: ?l) _ _ => change (a :: b :: c :: l) with ([a; b; c] ++ l) end.
    eapply does_loop_next; [|exact Hnext]. eapply does_seq; [exact Hx| |done]. rewrite Hh.
    eapply does_seq; [by apply does_wait_proc| |done]. apply does_line; [reflexivity|apply Nat.ltb_lt; reflexivity|].
    rewrite <- !app_assoc. eapply does_seq; [exact Hw|apply does_mret|done].
Qed.

Lemma init_restarts cmdline keys : (forall past, is_error (u64 (launches past (text "/usr/shell") None)) = false) ->
  let welcome := Wrote console (text "Welcome to InfOS!\nStarting the system...\n") in
  exists rest, does [] (init_main console frame cmdline) keys
    (welcome :: let '(acts, n) := init_round [welcome] keys in
       acts ++ match n with Some n => restarts (welcome :: acts) n keys | None => [] end) Waiting rest.
Proof.
  intros He welcome. destruct (init_rounds [welcome] keys He) as [rest Hd]. exists rest.
  apply does_line; [reflexivity|apply Nat.ltb_lt; reflexivity|]. exact Hd.
Qed.

Definition greeting : list action :=
  [Wrote console (text "This is the InfOS shell.  Path resolution is not-yet-implemented, so you\nmust type the command exactly, e.g. try typing: /usr/ls.\n\n");
   Wrote console (text "Use the cat program to view the README: /usr/cat /usr/docs/README\n\n");
   Wrote console (text "> ")].

(** C31: the shell, whatever is typed without the arrow keys, does what its
    machine does: it greets and prompts, edits the line, and for a line that is
    entered runs the program that the first word names, in /usr/ when the name
    is short and does not start with a slash, with the rest of the line behind
    one character as arguments, and waits for the handle that this start has
    given or reports that the program cannot be run, and prompts again; it
    returns at a line that agrees with exit, and the seventeenth command uses
    row 16 of the 15 of the history.  The result of exec may be any function of
    all that was done before, and so may the number of keys that a program takes
    while it is waited for: they are not typed to the shell, and as long as they
    have not all been typed the shell waits.  What the programs do themselves is
    not among its actions. *)
Theorem shell_correct cmdline keys : typed keys ->
  let '(acts, e, rest) := shell_session launches takes console greeting 0 0 [] keys in
  does [] (shell_main console frame stack cmdline) keys (greeting ++ acts) e rest.
Proof.
  intros Ht. pose proof (does_session (take 2 greeting) 0 keys Ht ltac:(lia)) as Hs.
  change (take 2 greeting ++ [Wrote console (text "> ")]) with greeting in Hs.
  destruct (shell_session launches takes console greeting 0 0 [] keys) as [[acts e] rest].
  apply does_line; [reflexivity|apply Nat.ltb_lt; reflexivity|].
  apply does_line; [reflexivity|apply Nat.ltb_lt; reflexivity|]. exact Hs.
Qed.
End does_shell.

(** ls is found both times, under a new handle each time; tictactoe takes the
    three keys behind its line; x is not found; then the shell is left. *)
Lemma shell_correct_witness :
  let launches past p (a : option (list Z)) := if bool_decide (p = text "/usr/x") then -1 else 7 + Z.of_nat (started past) in
  let takes (past : list action) h (keys : list Z) := if h =? 9 then 3%nat else 0%nat in
  exists acts, does (H := system launches takes 5) [] (shell_main 5 (replicate 0x1000 7) (fun n => replicate n 3) None)
    (text "ls /dev\nls\ntictactoe\na1nx 1\nexit\n") (greeting (console := 5) ++ acts) (Returned 0) [] /\
    Ran (text "/usr/ls") (Some (text "/dev")) ∈ acts /\ Waited 7 ∈ acts /\ Waited 8 ∈ acts /\ Waited 9 ∈ acts /\
    Wrote 5 (text "error: unable to run command '1'\n") ∈ acts.
Proof.
  intros launches takes. pose proof (system_console launches takes 5) as HC. pose proof (system_programs launches takes 5) as HP.
  pose proof (shell_correct (H := system launches takes 5) (console := 5) (replicate 0x1000 7) ltac:(apply length_replicate)
    (fun n => replicate n 3) ltac:(intros n; apply length_replicate) None (text "ls /dev\nls\ntictactoe\na1nx 1\nexit\n")
    ltac:(apply (bool_decide_unpack _); vm_compute; exact I)) as Hs.
  destruct (shell_session launches takes 5 (greeting (console := 5)) 0 0 [] (text "ls /dev\nls\ntictactoe\na1nx 1\nexit\n"))
    as [[acts e] rest] eqn:E.
  vm_compute in E. injection E as <- <- <-. eexists. split; [exact Hs|].
  split_and!; apply (bool_decide_unpack _); vm_compute; exact I.
Defined.
